(* ===== verification/_CoqProject ===== *)
-Q . S2P
Prelude.v
CxxString.v
Bytes.v
ArithUint256.v
Merkle.v
Float.v
Chain.v
Pow.v
StakeModifier.v
VersionBits.v
Params.v
DaoTypes.v
StateView.v
StateCache.v
DaoRules.v
VoteScript.v
Transaction.v
Serialize.v
Coins.v
TxCheck.v
PartialMerkle.v
HashStream.v
Sha2.v
Sha1Ripemd.v
HashFunctions.v
SipHash.v
Script.v
Interpreter.v
InterpreterProps.v
Standard.v
Bloom.v
FilteredBlock.v
ScriptFlags.v
ScriptSpend.v
CoinsDisk.v
TxWire.v
SigHash.v
TxChecker.v
Mempool.v
MempoolGraph.v
MempoolSteps.v
MempoolProps.v
MempoolRemove.v
MempoolBlock.v
MempoolPool.v
Json.v
VoteStep.v
VoteDemo.v
StakeKernel.v
VoteCount.v
DaoSpec.v
VoteStepProps.v
VoteTotal.v
DaoValidate.v
DaoValidateProps.v
DaoBlock.v
DaoBlockProps.v
DaoUndo.v
