(* ===== verification/Prelude.v ===== *)
(** * Navcoin Core: verification of the consensus core

    Navcoin Core is a proof-of-stake node.  What it adds to a Bitcoin node is
    a DAO that is part of consensus: a community fund that pays proposals, and
    consultations that can change consensus parameters.  This development
    models that part, and the consensus code around it: the block index and
    the deployments, targets and the stake kernel, the checks of transactions,
    the script interpreter with the signature hashes and the hash functions
    under it, the unspent outputs with their caches, undo data and format on
    disk, the wire format of transactions, merkle trees and filtered blocks;
    and it proves what makes them correct.

    ** The program

    - A block is connected by [ConnectTip] ([main.cpp]): [ConnectBlock]
      collects the votes of its outputs, validates the DAO transactions and
      adds their entries, adds contributions to the fund, copies the votes of
      the staker into the block and checks the payments of the coinbase;
      then [VoteStep] ([consensus/dao.cpp]) counts the votes of the cycle
      and, in the last block of a cycle, moves entries through their states,
      moves money between the supply and the locked part of the fund, and
      changes consensus parameters.  [DisconnectTip] runs both backwards.
    - A transaction passes [CheckTransaction] without context, then
      [CheckTxInputs] and the lock times against the unspent outputs, which
      [UpdateCoins] then spends, leaving the undo data with which
      [DisconnectBlock] brings them back.  Each of its inputs is a script that
      [VerifyScript] ([script/interpreter.cpp]) runs before the script of the
      output it spends; the signatures are checked over [SignatureHash].
    - Transactions wait for a block in the pool ([txmempool.cpp]), which keeps
      the sums over the ancestors and descendants of each; connecting a block
      takes out what it confirms and what conflicts with it.
    - A light client sends a bloom filter ([bloom.cpp]) and receives a
      [CMerkleBlock] ([merkleblock.cpp]): the transactions that match and a
      partial merkle tree that ties them to the header.
    - A block is staked: [GetNextTargetRequired] gives the target,
      [ComputeNextStakeModifier] the modifier, and [CheckProofOfStake] checks
      the kernel hash and who may spend a cold staked output.
    - Entries and coins live in a [CStateViewCache] ([coins.h], [coins.cpp])
      over other caches over the database ([txdb.cpp]).
    - The rules read the block index ([chain.h], [chain.cpp]): an entry keeps
      the blocks at which its state changed, and its state is the one of the
      highest of them.
    - Which rules hold is decided by BIP9 deployments ([versionbits.cpp]) and
      by the consensus parameters, which the DAO can change.

    ** Files

    Foundations:
    - [Prelude]: machine integers, the option monad of code that can abort,
      loops as folds with their rules of invariants, ordered traversal of maps
      ([elems]), sums over maps, tactics.
    - [CxxString], [Float]: number parsing, [to_string], IEEE single and double
      arithmetic as the vote thresholds use it.
    - [Bytes]: little-endian numbers, bytes of a hash, bits.
    - [ArithUint256]: [base_uint] as words with carries, against [Z]
      ([arith_uint256.h], [arith_uint256.cpp]).

    Blocks and stake:
    - [Chain]: [CBlockIndex], skip pointers, [GetAncestor], [CChain].
    - [VersionBits], [Params]: [GetStateFor] with its cache, the deployments,
      the chain parameters of the main network.
    - [Merkle]: root and branch in one pass ([consensus/merkle.cpp]).
    - [Pow]: the next target for work and stake, block proofs ([pow.cpp],
      [chain.cpp], [main.cpp]).
    - [StakeModifier], [StakeKernel]: the modifier, the kernel hash,
      [CheckProofOfStake] with cold staking, coin age and rewards ([main.cpp]).

    Transactions and coins:
    - [Transaction]: inputs, outputs, range proofs
      ([primitives/transaction.h]).
    - [TxCheck]: [CheckTransaction], [CheckTxInputs], [IsFinalTx], the relative
      lock times ([main.cpp]).
    - [Coins]: [CCoins], the cache with its [DIRTY] and [FRESH] flags,
      [UpdateCoins] and [ApplyTxInUndo] ([coins.cpp], [main.cpp]).
    - [Serialize], [CoinsDisk]: [CompactSize], [VarInt], compressed amounts,
      scripts and outputs, coins and undo data ([serialize.h],
      [compressor.cpp], [coins.h], [undo.h]).
    - [TxWire]: the format of a transaction on the wire, with the optional
      witnesses and the fields that depend on its version
      ([primitives/transaction.h]).

    Scripts:
    - [Script]: opcodes, [GetOp], numbers of a script, counts of signature
      operations ([script/script.h], [script/script.cpp]).
    - [Interpreter]: [EvalScript], opcode by opcode, the encodings of keys and
      signatures, [VerifyScript] and witness programs
      ([script/interpreter.cpp]); [InterpreterProps]: its limits and its
      termination; [ScriptFlags]: how the flags are related; [ScriptSpend]: the
      standard outputs run through it.
    - [Standard]: [Solver], destinations and the scripts that pay to them
      ([script/standard.cpp], [script/script.cpp]).
    - [SigHash], [TxChecker]: [SignatureHash] in both formats and
      [TransactionSignatureChecker] with its lock times
      ([script/interpreter.cpp]).

    The transaction pool ([txmempool.h], [txmempool.cpp]):
    - [Mempool]: entries, links, traversals, adding, removing, blocks, expiry,
      trimming, reorganisations, priorities and indexes.  [MempoolGraph]: sums
      over sets and the traversals; [MempoolSteps]: the loops, entry by entry;
      [MempoolProps], [MempoolRemove], [MempoolBlock]: adding, removing with
      descendants and removing what a block confirms keep the pool consistent;
      [MempoolPool]: the theorems on the whole.

    Hashes and light clients:
    - [HashStream], [Sha2], [Sha1Ripemd], [HashFunctions]: the block buffer the
      hash classes share, their compression functions and the hashes composed
      of them ([crypto/], [hash.h], [hash.cpp]); [SipHash]: [CSipHasher].
    - [PartialMerkle], [Bloom], [FilteredBlock]: partial merkle trees, both
      bloom filters and [CMerkleBlock] ([merkleblock.cpp], [bloom.cpp]).

    The DAO:
    - [DaoTypes]: proposals, payment requests, consultations, answers, vote
      lists and consensus parameters ([consensus/dao.h]).
    - [StateView]: the view of the DAO state, with modifiers, insertion and
      removal; [StateCache]: the caches and the database under it.
    - [DaoRules]: what can be voted, what is accepted, rejected or expired.
    - [VoteScript], [Json]: vote scripts and the script that names a voter
      ([script/script.cpp]); JSON values, their accessors and exceptions,
      hexadecimal hashes.
    - [VoteStep]: [VoteStep] as a whole, loop by loop.  [VoteCount]: its
      counting.  [DaoSpec]: an abstract machine of the community fund.
      [VoteStepProps]: the refinement between the two.  [VoteTotal]: that
      [VoteStep] returns.  [VoteDemo]: a small network for the examples.
    - [DaoValidate], [DaoValidateProps]: [IsValid...] and [TxTo...] functions
      and what they guarantee.
    - [DaoBlock]: the DAO parts of [ConnectBlock], [DisconnectBlock] and
      [ConnectTip]; [DaoBlockProps]: what connecting keeps; [DaoUndo]: that
      disconnecting takes the entries back.

    ** How the code is modelled

    - Unsigned and 32-bit arithmetic keeps its wrap-around ([u32], [u64],
      [i32], [i64]).  Amounts ([CAmount]) are exact integers: their overflow is
      undefined and transactions are checked to be within [MAX_MONEY].
    - A pointer to a block is its hash in a [BlockMap]; a pointer that is not
      in the map is a null or dangling one, and dereferencing it is [None].
    - [option] is code that can abort (assertion, null pointer, division by
      zero); [Outcome] also has exceptions; inside an [Outcome], [None] is a
      rejected block; a reader of a stream is [None] when it throws.  The names
      of definitions are those of the source; where a function is long, its
      loops and branches are definitions of their own and are composed as in
      the source.
    - [std::map] is [gmap], and loops over it visit the keys in order; the
      modifier objects of the views are an open, a write and the destructor.
      A cache of coins and its base meet in a class, [CoinStore] with its laws
      [CoinLaws], of which the database and every cache are instances.
    - Loops are structural.  Fuel is used where a C++ loop follows pointers or
      shrinks a number, and is the number of blocks the loop can pass or of the
      digits, bytes or bits the number has, so the theorems show that the
      result is there: twenty digits, eight bytes or ten groups of seven bits
      for a 64-bit value, [BITS] steps of the long division, one round for each
      byte of a script, since an operation takes at least one byte, the height
      of the tree for the loops over a partial merkle tree, and one round for
      each entry of the pool for its traversals, which visit none twice.
    - Parameters of the model are code outside the repository or below the
      modelled part: the JSON reader, the hash of an answer and of the
      consensus parameters, the verification of signatures and of the form of
      their [S] ([secp256k1]), the points of the curves and the proofs of
      private amounts, the lookup of a transaction on disk, and the size of a
      serialization; the double hash where a merkle tree or a block uses it as
      a black box; the order by score of the multi-index container of the pool.
      The theorems hold for every choice of them; the few that
      rely on a documented behaviour name it as a hypothesis.

    ** What is proved

    - The community fund ([DaoSpec], [VoteStepProps], [DaoBlockProps]):
      [VoteStep] only makes the moves of the abstract machine; connecting a
      block keeps the locked part of the fund equal to what accepted proposals
      can still pay, never grants more than a proposal's amount and creates no
      money, and this holds again for the next block; the coinbase pays only
      accepted requests and each once (both from the fork of version 4.5.2 on);
      inside a cycle nothing is decided.  The hypothesis [settled] is needed: an
      accepted entry is rejected when the threshold falls below its votes, and
      [VoteStep_rejects_accepted] shows what happens then.  [VoteStep] does
      return, in both directions ([VoteTotal]): no loop dereferences an
      unknown block, divides by zero or throws when the view is [ready]; a cycle
      length of zero, which can be voted, is where it fails.
    - Voting ([VoteCount], [VoteScript], [DaoTypes]): the counters kept between
      blocks equal a full scan of the cycle, only the first vote of a block
      counts, scripts round trip, vote lists answer the last vote, and the
      voting key of a cold staking address is the voter of its stakes.
    - The state view ([StateCache], [DaoUndo]): any stack of caches over the
      database behaves as one table, [Flush] writes exactly that table, and
      disconnecting a block of new entries takes them back.
    - Unspent outputs ([Coins], [CoinsDisk]): a stack of caches of coins is one
      map of available outputs, spending and adding outputs refines the moves
      on that map and the undo data brings it back; coins read back from disk
      as they were written, with the exceptions of the format.
    - Transactions ([TxCheck], [DaoValidateProps]): an accepted transaction
      creates no money and spends no immature output, the relative lock times
      are those of BIP 68; what a validated DAO transaction guarantees of the
      entry built from it, and where validation accepts more than it means to.
    - The wire ([TxWire]): a transaction is read back as it was written, with
      and without witnesses (outputs without inputs apart), and the identifier
      binds what it covers.
    - Scripts ([InterpreterProps], [ScriptFlags], [ScriptSpend], [Standard],
      [SigHash], [TxChecker]): the interpreter returns on every script and
      keeps its stacks within their limits; a further flag only refuses more;
      a standard output is spent by the holder of its key; what [Solver]
      recognizes is what the destination functions build; the message a
      signature signs determines and is determined by what its hash type
      covers, and the opcodes for lock times hold a spend back.
    - The pool ([MempoolPool]): from the empty pool on, every allowed operation
      returns and leaves the pool as [CTxMemPool::check] wants it; a
      transaction passes the limits on ancestors and descendants exactly when
      the closure of its inputs does; a connected block leaves no transaction
      of it and none that conflicts with it.  [PrioritiseTransaction] and
      [clear] do not keep consistency, and theorems show how.
    - Hashes and light clients ([Sha2], [Sha1Ripemd], [HashFunctions],
      [SipHash], [PartialMerkle], [Bloom], [FilteredBlock]): a hash fed in
      pieces is the published function of the whole message; a bloom filter
      has no false negatives and the rolling one keeps its window; a filtered
      block holds every match, and nothing but leaves of the tree its header
      names.
    - Blocks and stake ([Chain], [VersionBits], [Merkle], [ArithUint256],
      [Pow], [StakeModifier], [StakeKernel]): skip pointers find the ancestors
      a walk finds, the active chain is the chain of its tip, the cached
      deployment state follows the transitions of BIP9, and is the state of
      BIP9 when median times do not decrease, and every deployment is decided;
      the stake modifier is built from the blocks of its interval as the
      protocol says; wide integers compute modulo [2 ^ BITS], the one-pass merkle
      computation is the tree; targets stay within their limits; the kernel
      check is the inequality it stands for, and a cold staked output stays
      with its owner.

    ** What is not modelled, and the order of further work

    - [CheckBlock] and the remaining parts of [ConnectBlock] (supply, rewards,
      signature operations), and the undo direction of [VoteStep] composed with
      [DisconnectBlock].
    - Of the pool: [removeForReorg], the fee estimator and the decay of the
      minimum fee, which are arithmetic of doubles, and its view of the coins;
      the policy checks of [AcceptToMemoryPool].
    - Private tokens and names, networking, wallet, RPC and the graphical
      interface are left out: they are cryptographic libraries, input and
      output, or glue. *)
From stdpp Require Export base gmap sets list strings sorting.
From Stdlib Require Export ZArith Lia.

Declare Scope nav_scope.
Delimit Scope nav_scope with nav.
Open Scope Z_scope.

(** ** Machine integers

    C++ integers are kept as [Z] together with the wrap-around of their
    width.  Unsigned arithmetic wraps modulo a power of two; signed values
    are represented by the two's complement residue. *)

Definition u32 (z : Z) : Z := z mod 2 ^ 32.
Definition u64 (z : Z) : Z := z mod 2 ^ 64.
Definition i32 (z : Z) : Z := (z + 2 ^ 31) mod 2 ^ 32 - 2 ^ 31.
Definition i64 (z : Z) : Z := (z + 2 ^ 63) mod 2 ^ 64 - 2 ^ 63.

Lemma u32_range z : 0 <= u32 z < 2 ^ 32.
Proof. apply Z.mod_pos_bound. lia. Qed.

Lemma u64_range z : 0 <= u64 z < 2 ^ 64.
Proof. apply Z.mod_pos_bound. lia. Qed.

Lemma i32_range z : - 2 ^ 31 <= i32 z < 2 ^ 31.
Proof. unfold i32. pose proof (Z.mod_pos_bound (z + 2 ^ 31) (2 ^ 32)). lia. Qed.

Lemma i64_range z : - 2 ^ 63 <= i64 z < 2 ^ 63.
Proof. unfold i64. pose proof (Z.mod_pos_bound (z + 2 ^ 63) (2 ^ 64)). lia. Qed.

Lemma u32_small z : 0 <= z < 2 ^ 32 -> u32 z = z.
Proof. apply Z.mod_small. Qed.

Lemma u64_small z : 0 <= z < 2 ^ 64 -> u64 z = z.
Proof. apply Z.mod_small. Qed.

Lemma i32_small z : - 2 ^ 31 <= z < 2 ^ 31 -> i32 z = z.
Proof. intros H. unfold i32. rewrite Z.mod_small; lia. Qed.

Lemma i64_small z : - 2 ^ 63 <= z < 2 ^ 63 -> i64 z = z.
Proof. intros H. unfold i64. rewrite Z.mod_small; lia. Qed.

(** A bit mask test, [x & m] used as a condition. *)
Definition flag_set (x m : Z) : bool := negb (Z.land x m =? 0).

(** ** Hashes

    A [uint256] is the number read from the 32 bytes of its [data] array,
    least significant byte first.  [base_blob::operator<] compares from the
    last byte down, so it is the order of [Z], and the null hash is 0. *)
Abbreviation uint256 := Z (only parsing).

(** ** A monad for code that can abort

    [None] stands for a failed [assert], a null dereference, a division by
    zero or an exception nobody catches. *)

Notation "'do' x <- c1 ; c2" := (mbind (M := option) (fun x => c2) c1)
  (at level 60, x binder, c1 at next level, right associativity) : nav_scope.
Notation "'do' ' pat <- c1 ; c2" :=
  (mbind (M := option) (fun x => match x with pat => c2 end) c1)
  (at level 60, pat pattern, c1 at next level, right associativity) : nav_scope.
Notation "'check' b ; c" := (if b then c else None)
  (at level 60, b at level 85, right associativity) : nav_scope.
Open Scope nav_scope.

(** Left fold of a step that can abort: a [for] loop over a sequence. *)
Fixpoint foldM {A S : Type} (f : S -> A -> option S) (s : S) (l : list A) : option S :=
  match l with
  | [] => Some s
  | x :: l' => do s' <- f s x; foldM f s' l'
  end.

Lemma foldM_app {A S} (f : S -> A -> option S) l1 l2 s :
  foldM f s (l1 ++ l2) = do s' <- foldM f s l1; foldM f s' l2.
Proof.
  revert s; induction l1 as [|x l1 IH]; intros s; cbn; [done|].
  destruct (f s x); cbn; auto.
Qed.

(** Rule of invariants for [foldM]: what every step preserves holds at the
    end of the loop. *)
Lemma foldM_ind {A S} (f : S -> A -> option S) (P : S -> Prop) l s s' :
  (forall t x t', x ∈ l -> P t -> f t x = Some t' -> P t') ->
  P s -> foldM f s l = Some s' -> P s'.
Proof.
  revert s; induction l as [|x l IH]; intros s Hstep Hs Hf; cbn in Hf; [by simplify_eq|].
  destruct (f s x) as [t|] eqn:E; [|done]; cbn in Hf.
  eapply (IH t); [|eapply Hstep; [|exact Hs|exact E]; left|exact Hf].
  intros t1 x1 t1' Hx Ht1 Hf1. eapply Hstep; [by right|exact Ht1|exact Hf1].
Qed.

(** A loop whose body does not abort does not abort. *)
Lemma foldM_total {A S} (f : S -> A -> option S) (P : S -> Prop) l s :
  (forall t x, x ∈ l -> P t -> exists t', f t x = Some t' /\ P t') ->
  P s -> exists s', foldM f s l = Some s' /\ P s'.
Proof.
  revert s; induction l as [|x l IH]; intros s Hstep Hs; cbn; [eauto|].
  destruct (Hstep s x) as (t & -> & Ht); [left|done|]; cbn.
  apply IH; [|done]. intros t' y Hy. apply Hstep. by right.
Qed.

(** A loop whose body never aborts is a plain fold. *)
Lemma foldM_foldl {A S} (f : S -> A -> S) l s :
  foldM (fun s x => Some (f s x)) s l = Some (foldl f s l).
Proof. revert s; induction l; intros s; cbn; auto. Qed.

(** The fold counterpart of [foldM_ind]. *)
Lemma foldl_ind {A S} (f : S -> A -> S) (P : S -> Prop) l s :
  (forall t x, x ∈ l -> P t -> P (f t x)) -> P s -> P (foldl f s l).
Proof.
  revert s; induction l as [|x l IH]; intros s Hstep Hs; cbn; [done|].
  apply IH; [|apply Hstep; [left|done]]. intros t y Hy. apply Hstep. by right.
Qed.

(** Loops with bodies that agree on the elements of the sequence. *)
Lemma foldl_ext_in {A S} (f g : S -> A -> S) l s :
  (forall t x, x ∈ l -> f t x = g t x) -> foldl f s l = foldl g s l.
Proof.
  revert s; induction l as [|x l IH]; intros s Heq; cbn; [done|].
  rewrite (Heq s x) by left. apply IH. intros t y Hy. apply Heq. by right.
Qed.

(** A loop invariant that also knows which elements were already visited. *)
Lemma foldl_visited {A S} (f : S -> A -> S) (P : list A -> S -> Prop) s l :
  P [] s -> (forall l' x t, P l' t -> P (l' ++ [x]) (f t x)) -> P l (foldl f s l).
Proof.
  intros H0 Hs. induction l as [|x l IH] using rev_ind; [done|].
  rewrite foldl_app. cbn. auto.
Qed.

(** ** Ordered maps

    A [std::map] is a [gmap]; a loop over it visits its entries in the order
    of the keys.  [KeyOrder] gives that order, [elems] the sequence of
    entries a loop visits. *)

Class KeyOrder (K : Type) := {
  key_le : relation K;
  key_le_dec :: RelDecision key_le;
  key_le_trans :: Transitive key_le;
  key_le_total :: Total key_le;
  key_le_anti :: AntiSymm (=) key_le
}.

#[export] Program Instance Z_KeyOrder : KeyOrder Z := {| key_le := Z.le |}.

Definition pair_le (a b : Z * Z) : Prop := a.1 < b.1 \/ (a.1 = b.1 /\ a.2 <= b.2).

#[export] Instance pair_le_dec : RelDecision pair_le.
Proof. intros a b. unfold pair_le. apply _. Defined.

#[export] Program Instance pair_KeyOrder : KeyOrder (Z * Z) := {| key_le := pair_le |}.
Next Obligation. intros [a b] [c d] [e f]. unfold pair_le; cbn; lia. Qed.
Next Obligation. intros [a b] [c d]. unfold pair_le; cbn; lia. Qed.
Next Obligation. intros [a b] [c d]. unfold pair_le; cbn; intros. f_equal; lia. Qed.

Section elems.
Context {K V : Type} `{Countable K, !KeyOrder K}.

Definition entry_le (a b : K * V) : Prop := key_le a.1 b.1.

#[local] Instance entry_le_dec : RelDecision entry_le.
Proof. intros a b. unfold entry_le. apply _. Defined.

#[local] Instance entry_le_trans : Transitive entry_le.
Proof. intros a b c. unfold entry_le. apply key_le_trans. Qed.

#[local] Instance entry_le_total : Total entry_le.
Proof. intros a b. unfold entry_le. apply key_le_total. Qed.

Definition elems (m : gmap K V) : list (K * V) := merge_sort entry_le (map_to_list m).

Lemma elems_perm m : elems m ≡ₚ map_to_list m.
Proof. apply merge_sort_Permutation. Qed.

Lemma elem_of_elems m k v : (k, v) ∈ elems m <-> m !! k = Some v.
Proof. rewrite elems_perm. apply elem_of_map_to_list. Qed.

Lemma elem_of_elems_fst m k : k ∈ (elems m).*1 <-> is_Some (m !! k).
Proof.
  rewrite list_elem_of_fmap. split.
  - intros ([k' v] & -> & Hin). apply elem_of_elems in Hin. eauto.
  - intros [v Hv]. exists (k, v). by rewrite elem_of_elems.
Qed.

Lemma elems_NoDup m : NoDup (elems m).*1.
Proof. rewrite elems_perm. apply NoDup_fst_map_to_list. Qed.

Lemma elems_sorted m : StronglySorted entry_le (elems m).
Proof. apply (Sorted_StronglySorted _), (Sorted_merge_sort _). Qed.

Lemma elems_empty : elems ∅ = [].
Proof. unfold elems. by rewrite map_to_list_empty. Qed.

Lemma elems_nil m : elems m = [] -> m = ∅.
Proof.
  intros E. apply map_eq. intros k. rewrite lookup_empty.
  destruct (m !! k) as [v|] eqn:Ek; [|done].
  apply elem_of_elems in Ek. rewrite E in Ek. by apply not_elem_of_nil in Ek.
Qed.

Lemma elems_singleton k v : elems {[k := v]} = [(k, v)].
Proof. unfold elems. by rewrite map_to_list_singleton. Qed.
End elems.

(** [for (auto &it: u) m[it.first] = it.second]. *)
Definition assign_all {K V} `{Countable K, !KeyOrder K} (m u : gmap K V) : gmap K V :=
  foldl (fun acc kv => <[kv.1 := kv.2]> acc) m (elems u).

Lemma foldl_insert_lookup {K V} `{Countable K} (l : list (K * V)) (m : gmap K V) k :
  NoDup l.*1 ->
  foldl (fun acc kv => <[kv.1 := kv.2]> acc) m l !! k =
    match (list_to_map l : gmap K V) !! k with Some v => Some v | None => m !! k end.
Proof.
  revert m; induction l as [|[k' v] l IH]; intros m Hnd; cbn in *; [by rewrite lookup_empty|].
  apply NoDup_cons in Hnd as [Hk Hnd]. rewrite IH by done.
  destruct (decide (k' = k)) as [->|Hne].
  - rewrite lookup_insert_eq, (not_elem_of_list_to_map_1 l k) by done.
    by rewrite lookup_insert_eq.
  - by rewrite !lookup_insert_ne by done.
Qed.

Lemma assign_all_union {K V} `{Countable K, !KeyOrder K} (m u : gmap K V) :
  assign_all m u = u ∪ m.
Proof.
  apply map_eq. intros k. unfold assign_all.
  rewrite foldl_insert_lookup by apply elems_NoDup.
  assert ((list_to_map (elems u) : gmap K V) = u) as ->.
  { rewrite <- (list_to_map_to_list u) at 2.
    apply list_to_map_proper; [apply elems_NoDup|apply elems_perm]. }
  rewrite lookup_union. destruct (u !! k), (m !! k); done.
Qed.

(** ** Sums over maps *)

Definition sum_entries {K V} (f : K * V -> Z) (l : list (K * V)) : Z :=
  foldr (fun kv acc => f kv + acc) 0 l.

Definition map_sum {K V} `{Countable K} (f : K * V -> Z) (m : gmap K V) : Z :=
  sum_entries f (map_to_list m).

#[export] Instance sum_entries_proper {K V} (f : K * V -> Z) :
  Proper ((≡ₚ) ==> (=)) (sum_entries f).
Proof. unfold sum_entries. induction 1; cbn in *; lia. Qed.

Section map_sum.
Context {K V : Type} `{Countable K}.
Implicit Types (m : gmap K V) (f : K * V -> Z).

Lemma map_sum_empty f : map_sum f (∅ : gmap K V) = 0.
Proof. unfold map_sum. by rewrite map_to_list_empty. Qed.

Lemma map_sum_insert f m k v : m !! k = None -> map_sum f (<[k := v]> m) = f (k, v) + map_sum f m.
Proof. intros Hk. unfold map_sum. by rewrite map_to_list_insert. Qed.

Lemma map_sum_update f m k v w :
  m !! k = Some v -> map_sum f (<[k := w]> m) = map_sum f m - f (k, v) + f (k, w).
Proof.
  intros Hk. rewrite <- (insert_delete_id m k v) at 2 by done.
  rewrite <- insert_delete_eq. rewrite !map_sum_insert by apply lookup_delete_eq. lia.
Qed.

Lemma map_sum_ext f g m : (forall k v, m !! k = Some v -> f (k, v) = g (k, v)) -> map_sum f m = map_sum g m.
Proof.
  induction m as [|k v m Hk IH] using map_ind; intros Heq; [by rewrite !map_sum_empty|].
  rewrite !map_sum_insert by done. rewrite Heq by apply lookup_insert_eq. f_equal. apply IH.
  intros k' v' Hk'. apply Heq. rewrite lookup_insert_ne; [done|]. intros ->. congruence.
Qed.

Lemma map_sum_nonneg f m : (forall k v, m !! k = Some v -> 0 <= f (k, v)) -> 0 <= map_sum f m.
Proof.
  induction m as [|k v m Hk IH] using map_ind; intros Hpos; [by rewrite map_sum_empty|].
  rewrite map_sum_insert by done. specialize (Hpos k v (lookup_insert_eq _ _ _)) as Hv.
  assert (0 <= map_sum f m); [|lia]. apply IH. intros k' v' Hk'. apply Hpos.
  rewrite lookup_insert_ne; [done|]. intros ->. congruence.
Qed.

(** A change of the summand at one key only. *)
Lemma map_sum_change f g m k v :
  m !! k = Some v -> (forall k' v', k' <> k -> f (k', v') = g (k', v')) ->
  map_sum g m = map_sum f m - f (k, v) + g (k, v).
Proof.
  intros Hk Heq. rewrite <- (insert_delete_id m k v) by done.
  rewrite !map_sum_insert by apply lookup_delete_eq.
  rewrite (map_sum_ext f g); [lia|]. intros k' v' Hk'. apply Heq. intros ->.
  by rewrite lookup_delete_eq in Hk'.
Qed.

(** A loop that subtracts from a running amount. *)
Lemma foldl_sub_sum `{!KeyOrder K} f m a :
  foldl (fun acc kv => acc - f kv) a (elems m) = a - map_sum f m.
Proof.
  unfold map_sum. rewrite <- elems_perm. revert a.
  induction (elems m) as [|kv l IH]; intros a; [cbn; lia|].
  change (sum_entries f (kv :: l)) with (f kv + sum_entries f l). cbn [foldl]. rewrite IH. lia.
Qed.
End map_sum.

Lemma map_sum_fmap {K V W} `{Countable K} (g : W -> V) (f : K * V -> Z) (m : gmap K W) :
  map_sum f (g <$> m) = map_sum (fun kw => f (kw.1, g kw.2)) m.
Proof.
  induction m as [|k w m Hk IH] using map_ind; [by rewrite fmap_empty, !map_sum_empty|].
  rewrite fmap_insert, (map_sum_insert (V := W)) by done.
  rewrite (map_sum_insert f) by (by rewrite lookup_fmap, Hk). by rewrite IH.
Qed.

(** ** Loops over the entries of a map *)

(** A fold where each entry only touches its own key, by lookup. *)
Lemma foldl_own_key {K A B} `{Countable K} (step : gmap K B -> K * A -> gmap K B) (upd : A -> option B -> option B) l m k :
  (forall t ke k', step t ke !! k' = if decide (ke.1 = k') then upd ke.2 (t !! k') else t !! k') ->
  NoDup l.*1 ->
  foldl step m l !! k = match (list_to_map l : gmap K A) !! k with Some e => upd e (m !! k) | None => m !! k end.
Proof.
  intros Hstep. revert m; induction l as [|[k0 e] l IH]; intros m Hnd; cbn [foldl];
    [by rewrite list_to_map_nil, lookup_empty|].
  apply NoDup_cons in Hnd as [Hk0 Hnd]. rewrite IH by done. rewrite list_to_map_cons.
  rewrite Hstep; cbn [fst snd]. destruct (decide (k0 = k)) as [->|Hne].
  - rewrite lookup_insert_eq. by rewrite (not_elem_of_list_to_map_1 l k).
  - by rewrite lookup_insert_ne.
Qed.

Lemma foldl_map_own_key {K A B} `{Countable K} (step : gmap K B -> K * A -> gmap K B) (upd : A -> option B -> option B)
    (child : gmap K A) (m : gmap K B) k :
  (forall t ke k', step t ke !! k' = if decide (ke.1 = k') then upd ke.2 (t !! k') else t !! k') ->
  foldl step m (map_to_list child) !! k = match child !! k with Some e => upd e (m !! k) | None => m !! k end.
Proof.
  intros Hstep. rewrite (foldl_own_key step upd) by (done || apply NoDup_fst_map_to_list).
  by rewrite list_to_map_to_list.
Qed.

(** ** Automation *)

Create HintDb nav discriminated.
#[export] Hint Resolve u32_range u64_range i32_range i64_range elems_NoDup : nav.

(** Case analysis on every boolean test, [match] and option of the goal. *)
Ltac nav_case :=
  repeat (case_match || case_bool_decide || case_decide); simplify_eq/=.

(** Turn boolean equations into propositions. *)
Ltac nav_bool :=
  repeat match goal with
  | H : (_ && _) = true |- _ => apply andb_true_iff in H as [? ?]
  | H : (_ || _) = false |- _ => apply orb_false_iff in H as [? ?]
  | H : negb _ = true |- _ => apply negb_true_iff in H
  | H : negb _ = false |- _ => apply negb_false_iff in H
  | H : (_ =? _) = true |- _ => apply Z.eqb_eq in H
  | H : (_ =? _) = false |- _ => apply Z.eqb_neq in H
  | H : (_ <=? _) = true |- _ => apply Z.leb_le in H
  | H : (_ <=? _) = false |- _ => apply Z.leb_gt in H
  | H : (_ <? _) = true |- _ => apply Z.ltb_lt in H
  | H : (_ <? _) = false |- _ => apply Z.ltb_ge in H
  end.

(** Invert the binds and checks of an equation [c = Some v]. *)
Ltac nav_bind :=
  repeat match goal with
  | H : mbind _ ?c = Some _ |- _ =>
      let E := fresh "E" in destruct c eqn:E; cbn in H; [|discriminate H]
  | H : (if ?b then _ else None) = Some _ |- _ =>
      let E := fresh "E" in destruct b eqn:E; [|discriminate H]
  | H : Some _ = Some _ |- _ => injection H as H; subst
  end.
