(* ===== verification/CxxString.v ===== *)
(** * The string functions of the C++ library the code calls

    [isdigit], [std::stoi], [std::stoll], [std::to_string] and the order
    [std::string::operator<] that [std::sort] uses.  Conversions that throw
    return [None]. *)
From S2P Require Import Prelude.
From Stdlib Require Import Ascii String.

Definition char_code (c : ascii) : Z := Z.of_N (N_of_ascii c).

Definition isdigit (c : ascii) : bool := (48 <=? char_code c) && (char_code c <=? 57).

(** [isspace] in the C locale. *)
Definition isspace (c : ascii) : bool :=
  (char_code c =? 32) || ((9 <=? char_code c) && (char_code c <=? 13)).

Fixpoint skip_space (s : string) : string :=
  match s with
  | String c s' => if isspace c then skip_space s' else s
  | EmptyString => s
  end.

(** The longest prefix of digits: its value and how many digits it has. *)
Fixpoint digits (s : string) (acc : Z) (n : nat) : Z * nat :=
  match s with
  | String c s' => if isdigit c then digits s' (acc * 10 + (char_code c - 48)) (S n) else (acc, n)
  | EmptyString => (acc, n)
  end.

(** [strtoll] followed by the checks of [std::stoll]: no digits is
    [invalid_argument], a value outside [lo, hi] is [out_of_range]. *)
Definition parse_int (lo hi : Z) (s : string) : option Z :=
  let s := skip_space s in
  let '(neg, s) := match s with
    | String "-" s' => (true, s')
    | String "+" s' => (false, s')
    | _ => (false, s)
    end in
  let '(v, n) := digits s 0 0 in
  let v := if (neg : bool) then - v else v in
  match n with
  | O => None
  | S _ => if (lo <=? v) && (v <=? hi) then Some v else None
  end.

Definition stoll : string -> option Z := parse_int (- 2 ^ 63) (2 ^ 63 - 1).
Definition stoi : string -> option Z := parse_int (- 2 ^ 31) (2 ^ 31 - 1).

(** [s.empty() || s.find_first_not_of("0123456789") != npos], negated. *)
Fixpoint all_digits (s : string) : bool :=
  match s with
  | String c s' => isdigit c && all_digits s'
  | EmptyString => true
  end.

Definition is_integer_string (s : string) : bool :=
  negb (String.eqb s EmptyString) && all_digits s.

(** [std::to_string] of an unsigned integer. *)
Definition digit_char (d : Z) : ascii := ascii_of_N (Z.to_N (48 + d)).

Fixpoint to_string_fuel (fuel : nat) (z : Z) (acc : string) : string :=
  let acc := String (digit_char (z mod 10)) acc in
  match fuel with
  | O => acc
  | S fuel => if z <? 10 then acc else to_string_fuel fuel (z / 10) acc
  end.

Definition to_string (z : Z) : string :=
  if z <? 0 then String "-" (to_string_fuel 20 (- z) EmptyString)
  else to_string_fuel 20 z EmptyString.

(** ** Order of strings: bytes compared as unsigned characters *)

Fixpoint string_le (a b : string) : bool :=
  match a, b with
  | EmptyString, _ => true
  | String _ _, EmptyString => false
  | String c a', String d b' =>
    (char_code c <? char_code d) || ((char_code c =? char_code d) && string_le a' b')
  end.

Definition string_leP (a b : string) : Prop := string_le a b = true.

#[export] Instance string_leP_dec : RelDecision string_leP.
Proof. intros a b. unfold string_leP. apply _. Defined.

Definition sort_strings : list string -> list string := merge_sort string_leP.

(** ** Facts *)

Lemma digits_range s acc n :
  0 <= acc -> 0 <= (digits s acc n).1.
Proof.
  revert acc n; induction s as [|c s IH]; intros acc n Hacc; cbn; [done|].
  destruct (isdigit c) eqn:E; [|done]. apply IH. unfold isdigit in E. nav_bool. lia.
Qed.

Lemma digits_count s acc n : all_digits s = true -> (digits s acc n).2 = (n + String.length s)%nat.
Proof.
  revert acc n; induction s as [|c s IH]; intros acc n H; cbn in *; [lia|].
  nav_bool. rewrite H. rewrite IH by done. lia.
Qed.

Lemma char_code_inj c d : char_code c = char_code d -> c = d.
Proof.
  unfold char_code. intros H. apply N2Z.inj in H.
  rewrite <- (ascii_N_embedding c), <- (ascii_N_embedding d). by rewrite H.
Qed.

Lemma isdigit_not_space_sign c :
  isdigit c = true -> isspace c = false /\ c <> "-"%char /\ c <> "+"%char.
Proof.
  unfold isdigit, isspace. intros H. nav_bool. split; [|split; intros ->; vm_compute in *; congruence].
  apply orb_false_iff; split; [apply Z.eqb_neq; lia|].
  apply andb_false_iff. right. apply Z.leb_gt. lia.
Qed.

(** A string the validation accepts parses to a non-negative value, unless
    it is too large for [long long]. *)
Lemma stoll_integer s v :
  is_integer_string s = true -> stoll s = Some v -> 0 <= v <= 2 ^ 63 - 1.
Proof.
  unfold is_integer_string, stoll, parse_int. intros H. nav_bool.
  destruct s as [|c s]; [done|]. cbn [all_digits] in H0. nav_bool.
  destruct (isdigit_not_space_sign c H0) as (Hsp & Hm & Hp).
  cbn [skip_space]. rewrite Hsp.
  destruct c as [[] [] [] [] [] [] [] []]; try done;
    match goal with |- context [digits ?s 0 0] =>
      pose proof (digits_range s 0 0) as Hr; destruct (digits s 0 0) as [w [|n]] end; cbn in *;
    try done; intros Hv; nav_bind; nav_bool; simplify_eq; lia.
Qed.

Lemma parse_int_widen lo hi lo' hi' s v :
  lo' <= lo -> hi <= hi' -> parse_int lo hi s = Some v -> lo <= v <= hi /\ parse_int lo' hi' s = Some v.
Proof.
  intros Hlo Hhi. unfold parse_int.
  match goal with |- context [let '(_, _) := ?m in _] => destruct m as [neg t] end.
  destruct (digits t 0 0) as [w [|n]]; [done|]. destruct (_ && _) eqn:E; [|done]. intros [= <-]. nav_bool.
  rewrite !(proj2 (Z.leb_le _ _)) by lia. split; [lia|done].
Qed.
