(* ===== verification/Bytes.v ===== *)
(** * Bytes and bits

    Little-endian numbers as the code reads and writes them ([crypto/common.h]),
    the bytes of a hash ([uint256.h]) and the facts about bits that the scripts,
    the wide integers and the serializers share. *)
From S2P Require Import Prelude.

Definition byte (b : Z) : Prop := 0 <= b < 256.

(** The [n] bytes of a number, least significant first, as [WriteLE16] and
    [WriteLE32] write them. *)
Fixpoint le_bytes (n : nat) (z : Z) : list Z :=
  match n with O => [] | S n => z mod 256 :: le_bytes n (z / 256) end.

Fixpoint le_value (l : list Z) : Z :=
  match l with [] => 0 | b :: l => b + 256 * le_value l end.

(** The [data] array of a hash, whose first byte is the least significant one
    of the number that stands for it. *)
Definition uint256_bytes (hash : uint256) : list Z := le_bytes 32 hash.
Definition uint256_of_bytes (l : list Z) : uint256 := le_value l.

(** ** Facts *)

Lemma length_le_bytes n z : length (le_bytes n z) = n.
Proof. revert z; induction n as [|n IH]; intros z; cbn; [done|]. by rewrite IH. Qed.

Lemma le_value_bytes n z : le_value (le_bytes n z) = z mod 256 ^ Z.of_nat n.
Proof.
  revert z; induction n as [|n IH]; intros z; cbn [le_bytes le_value]; [by rewrite Z.mod_1_r|].
  rewrite IH, Nat2Z.inj_succ, Z.pow_succ_r by lia. symmetry. apply Z.rem_mul_r; lia.
Qed.

Lemma uint256_roundtrip hash : 0 <= hash < 2 ^ 256 -> uint256_of_bytes (uint256_bytes hash) = hash.
Proof.
  intros H. unfold uint256_of_bytes, uint256_bytes. rewrite le_value_bytes. apply Z.mod_small.
  change (256 ^ Z.of_nat 32) with (2 ^ 256). lia.
Qed.

Lemma le_value_app l1 l2 : le_value (l1 ++ l2) = le_value l1 + 256 ^ Z.of_nat (length l1) * le_value l2.
Proof.
  induction l1 as [|b l1 IH]; cbn [app le_value length]; [by rewrite Z.mul_1_l|].
  rewrite IH, Nat2Z.inj_succ, Z.pow_succ_r by lia. ring.
Qed.

Lemma le_value_range l : Forall byte l -> 0 <= le_value l < 256 ^ Z.of_nat (length l).
Proof.
  induction 1 as [|b l Hb _ IH]; cbn [le_value length]; [done|].
  rewrite Nat2Z.inj_succ, Z.pow_succ_r by lia. unfold byte in Hb. lia.
Qed.

Lemma le_bytes_value n l : length l = n -> Forall byte l -> le_bytes n (le_value l) = l.
Proof.
  intros <- Hl. induction Hl as [|b l Hb _ IH]; cbn [length le_bytes le_value]; [done|]. unfold byte in Hb.
  rewrite (Z.mul_comm 256), Z.mod_add, Z.div_add, Z.mod_small, Z.div_small, Z.add_0_l, IH by lia. done.
Qed.

Lemma le_bytes_byte n z : Forall byte (le_bytes n z).
Proof.
  revert z; induction n as [|n IH]; intros z; cbn; constructor; [apply Z.mod_pos_bound; lia|apply IH].
Qed.

(** Bits above a small number. *)
Lemma small_bits a m i : 0 <= a < 2 ^ m -> m <= i -> Z.testbit a i = false.
Proof.
  intros Ha Hi. destruct (decide (a = 0)) as [->|Hne]; [apply Z.bits_0|].
  apply Z.bits_above_log2; [lia|]. apply Z.log2_lt_pow2; [lia|].
  assert (2 ^ m <= 2 ^ i) by (apply Z.pow_le_mono_r; lia). lia.
Qed.

Lemma lor_shift a b m : 0 <= m -> 0 <= a < 2 ^ m -> Z.lor a (Z.shiftl b m) = a + b * 2 ^ m.
Proof.
  intros Hm Ha. rewrite <- Z.shiftl_mul_pow2 by lia.
  assert (Z.land a (Z.shiftl b m) = 0) as Hl.
  { apply Z.bits_inj'. intros i Hi. rewrite Z.land_spec, Z.bits_0.
    destruct (decide (i < m)); [rewrite Z.shiftl_spec_low by lia; apply andb_false_r|].
    by rewrite (small_bits a m i) by lia. }
  rewrite <- Z.lxor_lor by done. symmetry. by apply Z.add_nocarry_lxor.
Qed.

(** Testing one bit with a mask. *)
Lemma flag_testbit w n : 0 <= n -> flag_set w (Z.shiftl 1 n) = Z.testbit w n.
Proof.
  intros Hn. unfold flag_set. rewrite Z.shiftl_1_l.
  destruct (Z.testbit w n) eqn:E; [apply negb_true_iff, Z.eqb_neq|apply negb_false_iff, Z.eqb_eq].
  - intros H. apply (f_equal (fun z => Z.testbit z n)) in H.
    by rewrite Z.land_spec, Z.pow2_bits_true, E, Z.bits_0 in H by lia.
  - apply Z.bits_inj'. intros i Hi. rewrite Z.land_spec, Z.bits_0, Z.pow2_bits_eqb by lia.
    destruct (Z.eqb_spec n i) as [<-|]; [by rewrite E|apply andb_false_r].
Qed.

(** A single bit. *)
Lemma shift_one i j : 0 <= i -> 0 <= j -> Z.testbit (Z.shiftl 1 i) j = bool_decide (i = j).
Proof.
  intros Hi Hj. rewrite Z.shiftl_spec by done. destruct (decide (j < i)).
  - rewrite Z.testbit_neg_r by lia. symmetry. apply bool_decide_eq_false_2. lia.
  - case_bool_decide as E; [subst; by rewrite Z.sub_diag|]. apply (small_bits 1 1); lia.
Qed.
