(* ===== verification/ArithUint256.v ===== *)
(** * Wide integers ([arith_uint256.h], [arith_uint256.cpp])

    [base_uint<BITS>] is an array [pn] of [WIDTH = BITS / 32] words, least
    significant first: a list of numbers below [2 ^ 32].  Every operator is
    the loop of the source over the words, with its carries; the reference is
    the number the words stand for ([value]).  [arith_uint256] and
    [arith_uint512] are the widths 8 and 16. *)
From S2P Require Import Prelude Bytes.

Definition word32 (w : Z) : Prop := 0 <= w < 2 ^ 32.

(** [pn[i]]; every index the code uses is below the width. *)
Definition pn (a : list Z) (i : nat) : Z := nth i a 0.

(** [pn[i] |= x] *)
Definition or_word (a : list Z) (i : nat) (x : Z) : list Z := <[i := Z.lor (pn a i) (u32 x)]> a.

Fixpoint value (a : list Z) : Z :=
  match a with [] => 0 | w :: a => w + 2 ^ 32 * value a end.

Section base_uint.
Context (WIDTH : nat).

Definition base_uint_zero : list Z := replicate WIDTH 0.

Definition base_uint_u64 (b : Z) : list Z :=
  u32 b :: u32 (Z.shiftr b 32) :: replicate (WIDTH - 2) 0.

Definition base_uint_not (a : list Z) : bool := forallb (fun w => w =? 0) a.

Definition base_uint_compl (a : list Z) : list Z := map (fun w => u32 (Z.lnot w)) a.

(** ** Increment, decrement *)

(** [while (++pn[i] == 0 && i < WIDTH-1) i++] *)
Fixpoint base_uint_incr (a : list Z) : list Z :=
  match a with
  | [] => []
  | w :: a' =>
    let w := u32 (w + 1) in
    if (w =? 0) && bool_decide (a' <> []) then w :: base_uint_incr a' else w :: a'
  end.

Fixpoint base_uint_decr (a : list Z) : list Z :=
  match a with
  | [] => []
  | w :: a' =>
    let w := u32 (w - 1) in
    if (w =? u32 (-1)) && bool_decide (a' <> []) then w :: base_uint_decr a' else w :: a'
  end.

Definition base_uint_neg (a : list Z) : list Z := base_uint_incr (base_uint_compl a).

(** ** Bitwise operators *)

Definition base_uint_xor (a b : list Z) : list Z := zip_with Z.lxor a b.
Definition base_uint_and (a b : list Z) : list Z := zip_with Z.land a b.
Definition base_uint_or (a b : list Z) : list Z := zip_with Z.lor a b.

(** ** Addition *)

Fixpoint add_loop (carry : Z) (a b : list Z) : list Z :=
  match a, b with
  | x :: a, y :: b =>
    let n := u64 (carry + x + y) in
    Z.land n 0xffffffff :: add_loop (Z.shiftr n 32) a b
  | _, _ => []
  end.

Definition base_uint_add (a b : list Z) : list Z := add_loop 0 a b.
Definition base_uint_sub (a b : list Z) : list Z := base_uint_add a (base_uint_neg b).

(** ** Shifts *)

Definition shl_step (a : list Z) (k : nat) (shift : Z) (p : list Z) (i : nat) : list Z :=
  let p := if ((i + k + 1 <? WIDTH)%nat) && negb (shift =? 0)
           then or_word p (i + k + 1) (Z.shiftr (pn a i) (32 - shift)) else p in
  if (i + k <? WIDTH)%nat then or_word p (i + k) (u32 (Z.shiftl (pn a i) shift)) else p.

Definition base_uint_shl (a : list Z) (shift : Z) : list Z :=
  let k := Z.to_nat (shift / 32) in
  foldl (shl_step a k (shift mod 32)) base_uint_zero (seq 0 WIDTH).

Definition shr_step (a : list Z) (k : nat) (shift : Z) (p : list Z) (i : nat) : list Z :=
  let p := if ((k + 1 <=? i)%nat) && negb (shift =? 0)
           then or_word p (i - k - 1) (u32 (Z.shiftl (pn a i) (32 - shift))) else p in
  if (k <=? i)%nat then or_word p (i - k) (Z.shiftr (pn a i) shift) else p.

Definition base_uint_shr (a : list Z) (shift : Z) : list Z :=
  let k := Z.to_nat (shift / 32) in
  foldl (shr_step a k (shift mod 32)) base_uint_zero (seq 0 WIDTH).

(** ** Multiplication *)

Fixpoint mul32_loop (b32 carry : Z) (a : list Z) : list Z :=
  match a with
  | [] => []
  | x :: a =>
    let n := u64 (carry + u64 (b32 * x)) in
    Z.land n 0xffffffff :: mul32_loop b32 (Z.shiftr n 32) a
  end.

Definition base_uint_mul32 (a : list Z) (b32 : Z) : list Z := mul32_loop b32 0 a.

(** The inner loop: [carry] and the words of the product from [i + j] on. *)
Definition mul_inner (aj : Z) (b : list Z) (j : nat) (s : Z * list Z) (i : nat) : Z * list Z :=
  let '(carry, p) := s in
  let n := u64 (u64 (carry + pn p (i + j)) + u64 (aj * pn b i)) in
  (Z.shiftr n 32, <[(i + j)%nat := Z.land n 0xffffffff]> p).

Definition mul_outer (a b : list Z) (p : list Z) (j : nat) : list Z :=
  (foldl (mul_inner (pn a j) b j) (0, p) (seq 0 (WIDTH - j))).2.

(** The operands are different objects: the code clears [*this] before it reads
    [b], so [x *= x] would give zero.  The repository has no such call. *)
Definition base_uint_mul (a b : list Z) : list Z :=
  foldl (mul_outer a b) base_uint_zero (seq 0 WIDTH).

(** ** Comparison *)

Fixpoint compare_loop (a b : list Z) (i : nat) : Z :=
  match i with
  | O => 0
  | S i => if pn a i <? pn b i then -1 else if pn b i <? pn a i then 1 else compare_loop a b i
  end.

Definition CompareTo (a b : list Z) : Z := compare_loop a b WIDTH.

Definition base_uint_gt (a b : list Z) : bool := 0 <? CompareTo a b.
Definition base_uint_lt (a b : list Z) : bool := CompareTo a b <? 0.
Definition base_uint_ge (a b : list Z) : bool := 0 <=? CompareTo a b.
Definition base_uint_le (a b : list Z) : bool := CompareTo a b <=? 0.

Definition EqualTo (a : list Z) (b : Z) : bool :=
  forallb (fun i => pn a i =? 0) (seq 2 (WIDTH - 2)) &&
  (pn a 1 =? Z.shiftr b 32) && (pn a 0 =? Z.land b 0xffffffff).

Definition GetLow64 (a : list Z) : Z := Z.lor (pn a 0) (u64 (Z.shiftl (pn a 1) 32)).

(** ** The number of bits *)

(** [for (int bits = 31; bits > 0; bits--)]: [n] rounds are left. *)
Fixpoint bits_of_word (w : Z) (n : nat) : Z :=
  match n with
  | O => 1
  | S n' => if flag_set w (Z.shiftl 1 (Z.of_nat n)) then Z.of_nat n + 1 else bits_of_word w n'
  end.

Fixpoint bits_loop (a : list Z) (pos : nat) : Z :=
  match pos with
  | O => 0
  | S pos => if pn a pos =? 0 then bits_loop a pos else 32 * Z.of_nat pos + bits_of_word (pn a pos) 31
  end.

Definition bits (a : list Z) : Z := bits_loop a WIDTH.

(** ** Division *)

(** [while (shift >= 0)]: [n] is [shift + 1]; [p] is the quotient. *)
Fixpoint div_loop (n : nat) (num div p : list Z) : list Z :=
  match n with
  | O => p
  | S shift =>
    let '(num, p) := if base_uint_ge num div
      then (base_uint_sub num div,
            or_word p (shift / 32) (u32 (Z.shiftl 1 (Z.land (Z.of_nat shift) 31))))
      else (num, p) in
    div_loop shift num (base_uint_shr div 1) p
  end.

(** [None] is the [uint_error]. *)
Definition base_uint_div (a b : list Z) : option (list Z) :=
  let num_bits := bits a in
  let div_bits := bits b in
  if div_bits =? 0 then None
  else if num_bits <? div_bits then Some base_uint_zero
  else
    let shift := num_bits - div_bits in
    Some (div_loop (Z.to_nat shift + 1) a (base_uint_shl b shift) base_uint_zero).
End base_uint.

(** ** [arith_uint256]: the compact format *)

Abbreviation arith_uint256 := (list Z).
Abbreviation WIDTH256 := 8%nat.
Abbreviation WIDTH512 := 16%nat.

(** The number, [pfNegative] and [pfOverflow]. *)
Definition SetCompact (nCompact : Z) : arith_uint256 * bool * bool :=
  let nSize := Z.shiftr nCompact 24 in
  let nWord := Z.land nCompact 0x007fffff in
  let '(nWord, bn) :=
    if nSize <=? 3 then
      let nWord := Z.shiftr nWord (8 * (3 - nSize)) in (nWord, base_uint_u64 WIDTH256 nWord)
    else (nWord, base_uint_shl WIDTH256 (base_uint_u64 WIDTH256 nWord) (8 * (nSize - 3))) in
  (bn,
   negb (nWord =? 0) && negb (Z.land nCompact 0x00800000 =? 0),
   negb (nWord =? 0) && ((34 <? nSize) || ((0xff <? nWord) && (33 <? nSize)) ||
                         ((0xffff <? nWord) && (32 <? nSize)))).

(** [None] is a failed assertion. *)
Definition GetCompact (a : arith_uint256) (fNegative : bool) : option Z :=
  let nSize := (bits WIDTH256 a + 7) / 8 in
  let nCompact :=
    if nSize <=? 3 then u32 (u64 (Z.shiftl (GetLow64 a) (8 * (3 - nSize))))
    else u32 (GetLow64 (base_uint_shr WIDTH256 a (8 * (nSize - 3)))) in
  let '(nCompact, nSize) := if negb (Z.land nCompact 0x00800000 =? 0)
    then (Z.shiftr nCompact 8, nSize + 1) else (nCompact, nSize) in
  check Z.land nCompact (u32 (Z.lnot 0x007fffff)) =? 0;
  check nSize <? 256;
  let nCompact := Z.lor nCompact (u32 (Z.shiftl nSize 24)) in
  Some (Z.lor nCompact (if fNegative && negb (Z.land nCompact 0x007fffff =? 0) then 0x00800000 else 0)).

(** ** Conversions to and from hashes *)

Definition ArithToUint256 (a : arith_uint256) : uint256 :=
  uint256_of_bytes (concat (map (fun x => le_bytes 4 (pn a x)) (seq 0 WIDTH256))).

Definition UintToArith256 (h : uint256) : arith_uint256 :=
  map (fun x => le_value (take 4 (drop (x * 4) (uint256_bytes h)))) (seq 0 WIDTH256).

(** ** The number the words stand for *)

Abbreviation words := (Forall word32).

Definition modulus (n : nat) : Z := 2 ^ (32 * Z.of_nat n).

Lemma modulus_0 : modulus 0 = 1.
Proof. done. Qed.

Lemma modulus_S n : modulus (S n) = 2 ^ 32 * modulus n.
Proof. unfold modulus. rewrite <- Z.pow_add_r by lia. f_equal. lia. Qed.

Lemma modulus_add n m : modulus (n + m) = modulus n * modulus m.
Proof. unfold modulus. rewrite <- Z.pow_add_r by lia. f_equal. lia. Qed.

Lemma modulus_pos n : 0 < modulus n.
Proof. unfold modulus. apply Z.pow_pos_nonneg; lia. Qed.
#[export] Hint Resolve modulus_pos : nav.

Lemma value_range a : words a -> 0 <= value a < modulus (length a).
Proof.
  induction 1 as [|w a Hw _ IH]; cbn [value length]; [rewrite modulus_0; lia|].
  rewrite modulus_S. unfold word32 in Hw. nia.
Qed.

Lemma pn_cons w a i : pn (w :: a) (S i) = pn a i.
Proof. done. Qed.

Lemma pn_word a i : words a -> word32 (pn a i).
Proof.
  intros Ha. unfold pn. destruct (decide (i < length a)%nat).
  - rewrite Forall_forall in Ha. apply Ha, list_elem_of_In, nth_In. done.
  - rewrite nth_overflow by lia. unfold word32. lia.
Qed.
#[export] Hint Resolve pn_word : nav.

Lemma pn_insert a i j w :
  (i < length a)%nat -> pn (<[i := w]> a) j = if decide (i = j) then w else pn a j.
Proof.
  unfold pn. intros Hi. rewrite !nth_lookup. destruct (decide (i = j)) as [->|Hne].
  - by rewrite list_lookup_insert_eq.
  - by rewrite list_lookup_insert_ne.
Qed.

Lemma words_insert a i w : words a -> word32 w -> words (<[i := w]> a).
Proof. intros. by apply Forall_insert. Qed.

Lemma value_insert a i w :
  (i < length a)%nat -> value (<[i := w]> a) = value a + (w - pn a i) * modulus i.
Proof.
  revert i; induction a as [|x a IH]; intros [|i] Hi; cbn [length] in Hi; [lia..| |].
  - rewrite modulus_0. unfold pn; cbn. lia.
  - change (<[S i:=w]> (x :: a)) with (x :: <[i:=w]> a). cbn [value].
    rewrite IH by lia. rewrite pn_cons, modulus_S. lia.
Qed.

Lemma value_take a i : value (take (S i) a) = value (take i a) + pn a i * modulus i.
Proof.
  revert i; induction a as [|x a IH]; intros i.
  - rewrite !take_nil. unfold pn. rewrite nth_overflow by (cbn; lia). lia.
  - destruct i as [|i].
    { change (take 1 (x :: a)) with (x :: take 0 a). rewrite !take_0, modulus_0. unfold pn; cbn [value nth]. lia. }
    change (take (S (S i)) (x :: a)) with (x :: take (S i) a). change (take (S i) (x :: a)) with (x :: take i a).
    cbn [value]. rewrite IH, pn_cons, modulus_S. lia.
Qed.

Lemma value_split a i : value a = value (take i a) + modulus i * value (drop i a).
Proof.
  revert i; induction a as [|x a IH]; intros [|i]; rewrite ?take_nil, ?drop_nil, ?take_0, ?drop_0, ?modulus_0; cbn [value]; [lia..|].
  change (take (S i) (x :: a)) with (x :: take i a). change (drop (S i) (x :: a)) with (drop i a).
  cbn [value]. rewrite modulus_S, (IH i). lia.
Qed.

Lemma value_replicate_0 n : value (replicate n 0) = 0.
Proof. induction n; cbn; lia. Qed.

Lemma words_replicate_0 n : words (replicate n 0).
Proof. apply Forall_replicate. unfold word32. lia. Qed.

(** The bits of the number are those of its words. *)
Lemma value_testbit a i :
  words a -> 0 <= i -> Z.testbit (value a) i = Z.testbit (pn a (Z.to_nat (i / 32))) (i mod 32).
Proof.
  intros Ha. revert i; induction Ha as [|w a Hw Ha IH]; intros i Hi.
  { unfold pn. rewrite nth_overflow by (cbn; lia). cbn [value]. by rewrite !Z.bits_0. }
  cbn [value]. rewrite (Z.mul_comm (2 ^ 32)), <- lor_shift, Z.lor_spec by (unfold word32 in Hw; lia).
  destruct (decide (i < 32)) as [Hlt|Hge].
  - rewrite Z.shiftl_spec_low by lia. rewrite Z.div_small, Z.mod_small by lia.
    unfold pn; cbn. by rewrite orb_false_r.
  - rewrite Z.shiftl_spec by lia. rewrite (small_bits w 32) by (unfold word32 in Hw; lia). cbn [orb].
    rewrite IH by lia. replace i with (i - 32 + 1 * 32) at 3 4 by lia.
    rewrite Z.div_add, Z.mod_add by lia.
    replace (Z.to_nat ((i - 32) / 32 + 1)) with (S (Z.to_nat ((i - 32) / 32))); [done|].
    rewrite <- Z2Nat.inj_succ by (apply Z.div_pos; lia). f_equal.
Qed.

(** ** Sums and differences *)

(** One word with its carry: the low word and the rest modulo what is left. *)
Lemma carry_step n t M : 0 < M -> n mod 2 ^ 32 + 2 ^ 32 * ((n / 2 ^ 32 + t) mod M) = (n + 2 ^ 32 * t) mod (2 ^ 32 * M).
Proof.
  intros HM. rewrite Z.rem_mul_r by lia. rewrite (Z.mul_comm (2 ^ 32) t), Z.mod_add, Z.div_add by lia. done.
Qed.

Lemma low_word n : Z.land n 0xffffffff = n mod 2 ^ 32.
Proof. change 0xffffffff with (Z.ones 32). by rewrite Z.land_ones by lia. Qed.

Lemma word32_mod n : word32 (n mod 2 ^ 32).
Proof. unfold word32. apply Z.mod_pos_bound. lia. Qed.
#[export] Hint Resolve word32_mod : nav.

Definition wide (n : nat) (a : list Z) : Prop := length a = n /\ words a.

Lemma wide_range n a : wide n a -> 0 <= value a < modulus n.
Proof. intros [<- Ha]. by apply value_range. Qed.

Lemma add_loop_spec c a b :
  0 <= c < 2 ^ 32 -> words a -> words b -> length a = length b ->
  wide (length a) (add_loop c a b) /\ value (add_loop c a b) = (c + value a + value b) mod modulus (length a).
Proof.
  intros Hc Ha. revert b c Hc; induction Ha as [|x a Hx Ha IH]; intros [|y b] c Hc Hb Hl; cbn [length] in Hl; try done.
  { cbn. split; [by split|]. by rewrite modulus_0, Z.mod_1_r. }
  apply Forall_cons in Hb as [Hy Hb]. unfold word32 in Hx, Hy. cbn [add_loop value length].
  rewrite u64_small by lia. rewrite low_word, Z.shiftr_div_pow2 by lia.
  destruct (IH b ((c + x + y) / 2 ^ 32)) as [[Hlen Hw] Hv]; [|done|lia|].
  { split; [apply Z.div_pos; lia|apply Z.div_lt_upper_bound; lia]. }
  split; [split; [cbn; lia|constructor; auto with nav]|].
  rewrite Hv, modulus_S, <- (Z.add_assoc (_ / _)), carry_step by auto with nav. f_equal. ring.
Qed.

Lemma add_spec n a b :
  wide n a -> wide n b ->
  wide n (base_uint_add a b) /\ value (base_uint_add a b) = (value a + value b) mod modulus n.
Proof. intros [<- Ha] [Hb Hwb]. apply add_loop_spec; [lia|done|done|lia]. Qed.

Lemma compl_spec n a :
  wide n a -> wide n (base_uint_compl a) /\ value (base_uint_compl a) = modulus n - 1 - value a.
Proof.
  intros [<- Ha]. unfold base_uint_compl. induction Ha as [|w a Hw Ha [[Hlen Hws] Hv]].
  { cbn [map value length]. rewrite modulus_0. by repeat split. }
  unfold word32 in Hw. cbn [map value length].
  assert (u32 (Z.lnot w) = 2 ^ 32 - 1 - w) as E.
  { unfold u32, Z.lnot. rewrite <- (Z.mod_small (2 ^ 32 - 1 - w) (2 ^ 32)) by lia.
    replace (2 ^ 32 - 1 - w) with (Z.pred (- w) + 1 * 2 ^ 32) by lia. by rewrite Z.mod_add. }
  rewrite E. split; [split; [cbn; lia|constructor; [unfold word32; lia|done]]|].
  rewrite Hv, modulus_S. ring.
Qed.

Lemma incr_spec n a :
  wide n a -> wide n (base_uint_incr a) /\ value (base_uint_incr a) = (value a + 1) mod modulus n.
Proof.
  intros [<- Ha]. induction Ha as [|w a Hw Ha [[Hlen Hws] Hv]].
  { cbn. rewrite modulus_0, Z.mod_1_r. by repeat split. }
  cbn [base_uint_incr length]. unfold word32 in Hw.
  pose proof (value_range a Ha) as Hr. pose proof (modulus_pos (length a)). rewrite modulus_S.
  destruct (decide (w = 2 ^ 32 - 1)) as [->|Hne].
  - change (u32 (2 ^ 32 - 1 + 1)) with 0. cbn [Z.eqb andb]. destruct (bool_decide_reflect (a <> [])) as [Hc|Hc].
    + split; [split; [cbn; lia|constructor; [unfold word32; lia|done]]|]. cbn [value]. rewrite Hv.
      rewrite Z.add_0_l, <- Zmult_mod_distr_l. f_equal. lia.
    + destruct a as [|x a]; [|by destruct Hc]. split; [split; [done|constructor; [unfold word32; lia|done]]|].
      reflexivity.
  - rewrite u32_small by lia. rewrite (proj2 (Z.eqb_neq (w + 1) 0)) by lia. cbn [andb value].
    split; [split; [done|constructor; [unfold word32; lia|done]]|].
    rewrite Z.mod_small; [lia|nia].
Qed.

Lemma neg_spec n a :
  wide n a -> wide n (base_uint_neg a) /\ value (base_uint_neg a) = (- value a) mod modulus n.
Proof.
  intros Ha. destruct (compl_spec n a Ha) as [Hc Ec]. destruct (incr_spec n _ Hc) as [Hi Ei].
  split; [done|]. unfold base_uint_neg. rewrite Ei, Ec.
  replace (modulus n - 1 - value a + 1) with (- value a + 1 * modulus n) by lia. apply Z.mod_add.
  pose proof (modulus_pos n). lia.
Qed.

Lemma sub_spec n a b :
  wide n a -> wide n b ->
  wide n (base_uint_sub a b) /\ value (base_uint_sub a b) = (value a - value b) mod modulus n.
Proof.
  intros Ha Hb. destruct (neg_spec n b Hb) as [Hn En]. destruct (add_spec n a _ Ha Hn) as [Hs Es].
  split; [done|]. unfold base_uint_sub. rewrite Es, En, Zplus_mod_idemp_r. f_equal.
Qed.

Lemma decr_spec n a :
  wide n a -> wide n (base_uint_decr a) /\ value (base_uint_decr a) = (value a - 1) mod modulus n.
Proof.
  intros [<- Ha]. induction Ha as [|w a Hw Ha [[Hlen Hws] Hv]].
  { cbn. rewrite modulus_0, Z.mod_1_r. by repeat split. }
  cbn [base_uint_decr length]. unfold word32 in Hw.
  pose proof (value_range a Ha) as Hr. pose proof (modulus_pos (length a)). rewrite modulus_S.
  destruct (decide (w = 0)) as [->|Hne].
  - change (u32 (0 - 1)) with (2 ^ 32 - 1). change (u32 (-1)) with (2 ^ 32 - 1). rewrite Z.eqb_refl. cbn [andb].
    destruct (bool_decide_reflect (a <> [])) as [Hc|Hc].
    + split; [split; [cbn; lia|constructor; [unfold word32; lia|done]]|]. cbn [value]. rewrite Hv.
      replace (0 + 2 ^ 32 * value a - 1) with (2 ^ 32 - 1 + 2 ^ 32 * (value a - 1)) by lia.
      rewrite <- carry_step by lia. by rewrite (Z.mod_small (2 ^ 32 - 1)), (Z.div_small (2 ^ 32 - 1)), Z.add_0_l by lia.
    + destruct a as [|x a]; [|by destruct Hc]. split; [split; [done|constructor; [unfold word32; lia|done]]|].
      reflexivity.
  - rewrite u32_small by lia. change (u32 (-1)) with (2 ^ 32 - 1). rewrite (proj2 (Z.eqb_neq (w - 1) _)) by lia.
    cbn [andb value]. split; [split; [done|constructor; [unfold word32; lia|done]]|].
    rewrite Z.mod_small; [lia|nia].
Qed.

(** ** Products *)

Lemma word_product x y : word32 x -> word32 y -> 0 <= x * y <= (2 ^ 32 - 1) * (2 ^ 32 - 1).
Proof. unfold word32. nia. Qed.

Lemma mul32_loop_spec b32 c a :
  word32 b32 -> 0 <= c < 2 ^ 32 -> words a ->
  wide (length a) (mul32_loop b32 c a) /\
  value (mul32_loop b32 c a) = (c + b32 * value a) mod modulus (length a).
Proof.
  intros Hb Hc Ha. revert c Hc; induction Ha as [|x a Hx Ha IH]; intros c Hc.
  { cbn. rewrite modulus_0, Z.mod_1_r. by repeat split. }
  pose proof (word_product b32 x Hb Hx) as Hbx. cbn [mul32_loop value length].
  rewrite (u64_small (b32 * x)), u64_small, low_word, Z.shiftr_div_pow2 by lia.
  destruct (IH ((c + b32 * x) / 2 ^ 32)) as [[Hlen Hw] Hv].
  { split; [apply Z.div_pos; lia|apply Z.div_lt_upper_bound; lia]. }
  split; [split; [cbn; lia|constructor; auto with nav]|].
  rewrite Hv, modulus_S, carry_step by auto with nav. f_equal. ring.
Qed.

Lemma mul32_spec n a b32 :
  wide n a -> word32 b32 ->
  wide n (base_uint_mul32 a b32) /\ value (base_uint_mul32 a b32) = (value a * b32) mod modulus n.
Proof.
  intros [<- Ha] Hb. destruct (mul32_loop_spec b32 0 a) as [H1 H2]; [done|lia|done|].
  split; [done|]. unfold base_uint_mul32. rewrite H2. f_equal. ring.
Qed.

(** After [m] rounds of the inner loop the words and the carry hold what was
    there plus the partial product. *)
Lemma mul_inner_spec n aj b j p m :
  wide n p -> wide n b -> word32 aj -> (m + j <= n)%nat ->
  let '(c, q) := foldl (mul_inner aj b j) (0, p) (seq 0 m) in
  wide n q /\ 0 <= c < 2 ^ 32 /\
  value q + c * modulus (m + j) = value p + aj * value (take m b) * modulus j.
Proof.
  intros Hp Hb Haj. induction m as [|m IH]; intros Hm.
  { cbn [seq foldl]. split; [done|]. rewrite take_0. cbn [value]. lia. }
  rewrite seq_S, foldl_app. specialize (IH ltac:(lia)).
  destruct (foldl _ _ (seq 0 m)) as [c q]. destruct IH as ([Hlq Hwq] & Hc & Hv). cbn [foldl mul_inner Nat.add].
  pose proof (pn_word q (m + j) Hwq) as Hq. pose proof (pn_word b m (proj2 Hb)) as Hbm.
  pose proof (word_product _ _ Haj Hbm) as Hab. unfold word32 in Hq.
  rewrite (u64_small (aj * _)), (u64_small (c + _)), u64_small, low_word, Z.shiftr_div_pow2 by lia.
  set (x := c + pn q (m + j) + aj * pn b m). assert (0 <= x < 2 ^ 64) as Hx by (unfold x; lia).
  split; [split; [by rewrite length_insert|apply words_insert; auto with nav]|].
  split; [split; [apply Z.div_pos; lia|apply Z.div_lt_upper_bound; lia]|].
  rewrite value_insert, value_take by lia. rewrite modulus_S, (modulus_add m j).
  rewrite modulus_add in Hv.
  pose proof (Z.div_mod x (2 ^ 32) ltac:(lia)) as Hdm.
  assert (x mod 2 ^ 32 = c + pn q (m + j) + aj * pn b m - 2 ^ 32 * (x / 2 ^ 32)) as -> by (unfold x in *; lia).
  transitivity (value q + c * (modulus m * modulus j) + aj * pn b m * (modulus m * modulus j)); [ring|].
  rewrite Hv. ring.
Qed.

Lemma mul_outer_spec n a b p j :
  wide n a -> wide n b -> wide n p -> (j < n)%nat ->
  wide n (mul_outer n a b p j) /\
  value (mul_outer n a b p j) mod modulus n = (value p + pn a j * modulus j * value b) mod modulus n.
Proof.
  intros Ha Hb Hp Hj. unfold mul_outer.
  pose proof (mul_inner_spec n (pn a j) b j p (n - j) Hp Hb (pn_word a j (proj2 Ha)) ltac:(lia)) as H.
  destruct (foldl _ _ _) as [c q]. destruct H as (Hq & Hc & Hv). cbn [snd]. split; [done|].
  replace (n - j + j)%nat with n in Hv by lia. pose proof (modulus_pos n).
  rewrite <- (Z.mod_add (value q) c) by lia. rewrite Hv.
  rewrite (value_split b (n - j)).
  rewrite <- (Z.mod_add (_ + _) (pn a j * value (drop (n - j) b)) (modulus n)) by lia.
  f_equal. replace (modulus n) with (modulus (n - j) * modulus j); [ring|]. rewrite <- modulus_add. f_equal. lia.
Qed.

Lemma mul_spec n a b :
  wide n a -> wide n b ->
  wide n (base_uint_mul n a b) /\ value (base_uint_mul n a b) = (value a * value b) mod modulus n.
Proof.
  intros Ha Hb.
  assert (forall m, (m <= n)%nat -> let p := foldl (mul_outer n a b) (base_uint_zero n) (seq 0 m) in
    wide n p /\ value p mod modulus n = (value (take m a) * value b) mod modulus n) as H.
  { induction m as [|m IH]; intros Hm p.
    - split; [split; [apply length_replicate|apply words_replicate_0]|]. subst p. cbn [seq foldl].
      unfold base_uint_zero. by rewrite value_replicate_0, take_0.
    - subst p. rewrite seq_S, foldl_app. cbn [foldl Nat.add]. destruct (IH ltac:(lia)) as [Hw Hv].
      destruct (mul_outer_spec n a b _ m Ha Hb Hw ltac:(lia)) as [Hw' Hv']. split; [done|].
      rewrite Hv', value_take, <- Zplus_mod_idemp_l, Hv, Zplus_mod_idemp_l. f_equal. ring. }
  destruct (H n (le_n n)) as [Hw Hv]. split; [done|]. unfold base_uint_mul.
  rewrite <- (Z.mod_small (value (foldl _ _ _)) (modulus n)) by (by apply wide_range).
  rewrite Hv. f_equal. rewrite firstn_all2; [done|]. destruct Ha as [-> _]. lia.
Qed.

(** ** Comparison and number of bits *)

Lemma take_range a i : words a -> 0 <= value (take i a) < modulus i.
Proof.
  intros Ha. pose proof (value_range (take i a) (Forall_take _ _ _ Ha)) as H.
  assert (modulus (length (take i a)) <= modulus i); [|lia].
  apply Z.pow_le_mono_r; [lia|]. rewrite length_take. lia.
Qed.

Lemma take_wide n a : wide n a -> take n a = a.
Proof. intros [<- _]. apply firstn_all. Qed.

Lemma compare_loop_spec a b i :
  words a -> words b ->
  compare_loop a b i = match value (take i a) ?= value (take i b) with Lt => -1 | Eq => 0 | Gt => 1 end.
Proof.
  intros Ha Hb. induction i as [|i IH]; [by rewrite !take_0|]. cbn [compare_loop]. rewrite !value_take.
  pose proof (take_range a i Ha). pose proof (take_range b i Hb). pose proof (modulus_pos i).
  destruct (Z.ltb_spec (pn a i) (pn b i)) as [Hlt|Hge].
  { assert (value (take i a) + pn a i * modulus i < value (take i b) + pn b i * modulus i) as E by nia.
    by rewrite (proj2 (Z.compare_lt_iff _ _) E). }
  destruct (Z.ltb_spec (pn b i) (pn a i)) as [Hlt|Hge'].
  { assert (value (take i b) + pn b i * modulus i < value (take i a) + pn a i * modulus i) as E by nia.
    by rewrite (proj2 (Z.compare_gt_iff _ _) E). }
  rewrite IH. replace (pn b i) with (pn a i) by lia. by rewrite !(Z.add_comm (value _)), Z.add_compare_mono_l.
Qed.

Lemma CompareTo_spec n a b :
  wide n a -> wide n b ->
  CompareTo n a b = match value a ?= value b with Lt => -1 | Eq => 0 | Gt => 1 end.
Proof.
  intros Ha Hb. unfold CompareTo. rewrite compare_loop_spec by apply Ha || apply Hb. by rewrite !take_wide.
Qed.

Lemma ge_spec n a b : wide n a -> wide n b -> base_uint_ge n a b = (value b <=? value a).
Proof.
  intros Ha Hb. unfold base_uint_ge. rewrite CompareTo_spec by done.
  destruct (Z.compare_spec (value a) (value b)); symmetry; [apply Z.leb_le|apply Z.leb_gt|apply Z.leb_le]; lia.
Qed.

Lemma gt_spec n a b : wide n a -> wide n b -> base_uint_gt n a b = (value b <? value a).
Proof.
  intros Ha Hb. unfold base_uint_gt. rewrite CompareTo_spec by done.
  destruct (Z.compare_spec (value a) (value b)); symmetry; [apply Z.ltb_ge|apply Z.ltb_ge|apply Z.ltb_lt]; lia.
Qed.

Lemma le_spec n a b : wide n a -> wide n b -> base_uint_le n a b = (value a <=? value b).
Proof.
  intros Ha Hb. unfold base_uint_le. rewrite CompareTo_spec by done.
  destruct (Z.compare_spec (value a) (value b)); symmetry; [apply Z.leb_le|apply Z.leb_le|apply Z.leb_gt]; lia.
Qed.

Lemma lt_spec n a b : wide n a -> wide n b -> base_uint_lt n a b = (value a <? value b).
Proof.
  intros Ha Hb. unfold base_uint_lt. rewrite CompareTo_spec by done.
  destruct (Z.compare_spec (value a) (value b)); symmetry; [apply Z.ltb_ge|apply Z.ltb_lt|apply Z.ltb_ge]; lia.
Qed.

Lemma testbit_log2 w n : 0 <= n -> 0 <= w < 2 ^ (n + 1) -> Z.testbit w n = true -> Z.log2 w = n.
Proof.
  intros Hn Hw Hb. apply Z.log2_unique; [done|]. split; [|apply Hw].
  apply Z.nlt_ge. intros Hlt. by rewrite (small_bits w n n) in Hb by lia.
Qed.

Lemma testbit_below w n : 0 <= n -> 0 <= w < 2 ^ (n + 1) -> Z.testbit w n = false -> w < 2 ^ n.
Proof.
  intros Hn Hw Hb. apply Z.nle_gt. intros Hle. assert (Z.log2 w = n) as E by (apply Z.log2_unique; [done|split; [done|apply Hw]]).
  assert (0 < 2 ^ n) by (apply Z.pow_pos_nonneg; lia). pose proof (Z.bit_log2 w ltac:(lia)). congruence.
Qed.

Lemma bits_of_word_spec w n : 0 < w < 2 ^ (Z.of_nat n + 1) -> bits_of_word w n = Z.log2 w + 1.
Proof.
  induction n as [|n IH]; intros Hw; cbn [bits_of_word].
  { replace w with 1 by (cbn in Hw; lia). done. }
  rewrite flag_testbit by lia. destruct (Z.testbit w (Z.of_nat (S n))) eqn:E.
  - by rewrite (testbit_log2 w (Z.of_nat (S n))) by (done || lia).
  - apply IH. split; [lia|]. replace (Z.of_nat n + 1) with (Z.of_nat (S n)) by lia. apply testbit_below; [lia|lia|done].
Qed.

Definition bit_length (x : Z) : Z := if x =? 0 then 0 else Z.log2 x + 1.

Lemma bits_loop_spec a pos : words a -> bits_loop a pos = bit_length (value (take pos a)).
Proof.
  intros Ha. induction pos as [|pos IH]; [by rewrite take_0|]. cbn [bits_loop]. rewrite value_take.
  pose proof (take_range a pos Ha) as Hr. pose proof (pn_word a pos Ha) as Hw. unfold word32 in Hw.
  pose proof (modulus_pos pos) as Hm.
  destruct (Z.eqb_spec (pn a pos) 0) as [->|Hne]; [by rewrite IH, Z.mul_0_l, Z.add_0_r|].
  unfold bit_length. rewrite (proj2 (Z.eqb_neq (_ + _) 0)) by nia.
  rewrite bits_of_word_spec by (change (Z.of_nat 31 + 1) with 32; lia).
  pose proof (Z.log2_spec (pn a pos) ltac:(lia)) as [H1 H2]. pose proof (Z.log2_nonneg (pn a pos)).
  rewrite (Z.log2_unique (_ + _) (32 * Z.of_nat pos + Z.log2 (pn a pos))); [lia|lia|].
  rewrite <- Z.add_succ_r, !Z.pow_add_r by lia. fold (modulus pos). nia.
Qed.

Lemma bits_spec n a : wide n a -> bits n a = bit_length (value a).
Proof. intros Ha. unfold bits. rewrite bits_loop_spec by apply Ha. by rewrite take_wide. Qed.

Lemma bit_length_bounds x : 0 < x -> 2 ^ (bit_length x - 1) <= x < 2 ^ bit_length x /\ 0 < bit_length x.
Proof.
  intros Hx. unfold bit_length. rewrite (proj2 (Z.eqb_neq x 0)) by lia. pose proof (Z.log2_nonneg x).
  replace (Z.log2 x + 1 - 1) with (Z.log2 x) by lia. pose proof (Z.log2_spec x Hx). lia.
Qed.

Lemma bit_length_le x n : 0 <= x < 2 ^ n -> 0 <= n -> 0 <= bit_length x <= n.
Proof.
  intros Hx Hn. unfold bit_length. destruct (Z.eqb_spec x 0); [lia|]. pose proof (Z.log2_nonneg x).
  pose proof (proj1 (Z.log2_lt_pow2 x n ltac:(lia)) ltac:(lia)). lia.
Qed.

(** ** Shifts *)

Lemma shl_low x s : 0 <= s <= 32 -> u32 (Z.shiftl x s) = Z.shiftl (x mod 2 ^ (32 - s)) s.
Proof.
  intros Hs. rewrite !Z.shiftl_mul_pow2 by lia. unfold u32.
  replace (2 ^ 32) with (2 ^ (32 - s) * 2 ^ s) by (rewrite <- Z.pow_add_r by lia; f_equal; lia).
  apply Z.mul_mod_distr_r; apply Z.pow_nonzero; lia.
Qed.

(** The two words a shifted word falls into. *)
Lemma shl_halves x s :
  word32 x -> 0 <= s <= 32 -> x * 2 ^ s = u32 (Z.shiftl x s) + 2 ^ 32 * Z.shiftr x (32 - s).
Proof.
  intros Hx Hs. rewrite shl_low, Z.shiftl_mul_pow2, Z.shiftr_div_pow2 by lia.
  assert (2 ^ 32 = 2 ^ (32 - s) * 2 ^ s) as -> by (rewrite <- Z.pow_add_r by lia; f_equal; lia).
  pose proof (Z.div_mod x (2 ^ (32 - s)) ltac:(apply Z.pow_nonzero; lia)) as E. nia.
Qed.

Lemma shiftr_bound x s : word32 x -> 0 <= s <= 32 -> 0 <= Z.shiftr x (32 - s) < 2 ^ s.
Proof.
  intros Hx Hs. rewrite Z.shiftr_div_pow2 by lia. unfold word32 in Hx.
  assert (0 < 2 ^ (32 - s)) by (apply Z.pow_pos_nonneg; lia).
  split; [apply Z.div_pos; lia|]. apply Z.div_lt_upper_bound; [lia|].
  rewrite <- Z.pow_add_r by lia. replace (32 - s + s) with 32 by lia. lia.
Qed.

Lemma pow_le_32 s : 0 <= s <= 32 -> 0 < 2 ^ s <= 2 ^ 32.
Proof. intros Hs. split; [apply Z.pow_pos_nonneg; lia|apply Z.pow_le_mono_r; lia]. Qed.

(** [pn[i] |= x] where the bits are free. *)
Lemma or_word_high n p i x s :
  wide n p -> (i < n)%nat -> 0 <= s <= 32 -> 0 <= pn p i < 2 ^ s ->
  let q := or_word p i (u32 (Z.shiftl x s)) in
  wide n q /\ value q = value p + u32 (Z.shiftl x s) * modulus i /\
  (forall j, j <> i -> pn q j = pn p j).
Proof.
  intros [Hl Hw] Hi Hs Hp q. subst q. unfold or_word.
  assert (u32 (u32 (Z.shiftl x s)) = u32 (Z.shiftl x s)) as -> by (unfold u32; apply Z.mod_mod; lia).
  pose proof (u32_range (Z.shiftl x s)) as Hu. rewrite shl_low in * by lia.
  rewrite lor_shift by lia. rewrite Z.shiftl_mul_pow2 in * by lia.
  set (h := x mod 2 ^ (32 - s)) in *.
  assert (0 <= h < 2 ^ (32 - s)) as Hh by (apply Z.mod_pos_bound, Z.pow_pos_nonneg; lia).
  assert (2 ^ 32 = 2 ^ (32 - s) * 2 ^ s) as E by (rewrite <- Z.pow_add_r by lia; f_equal; lia).
  split; [split; [by rewrite length_insert|apply words_insert; [done|unfold word32; nia]]|].
  split; [rewrite value_insert by lia; lia|]. intros j Hj. rewrite pn_insert by lia. by rewrite decide_False.
Qed.

Lemma or_word_zero n p i x :
  wide n p -> (i < n)%nat -> pn p i = 0 -> word32 x ->
  wide n (or_word p i x) /\ value (or_word p i x) = value p + x * modulus i /\
  (forall j, pn (or_word p i x) j = if decide (i = j) then x else pn p j).
Proof.
  intros [Hl Hw] Hi Hp Hx. unfold or_word. unfold word32 in Hx. rewrite Hp, Z.lor_0_l, u32_small by lia.
  split; [split; [by rewrite length_insert|by apply words_insert]|].
  split; [rewrite value_insert by lia; lia|]. intros j. by rewrite pn_insert by lia.
Qed.

Lemma zero_wide n : wide n (base_uint_zero n).
Proof. split; [apply length_replicate|apply words_replicate_0]. Qed.

Lemma value_zero n : value (base_uint_zero n) = 0.
Proof. apply value_replicate_0. Qed.

Lemma pn_zero n j : pn (base_uint_zero n) j = 0.
Proof. unfold pn, base_uint_zero. revert j; induction n as [|n IH]; intros [|j]; cbn; auto. Qed.

(** What the loop of [<<=] has written after [m] rounds. *)
Record shl_inv (n : nat) (a : list Z) (k : nat) (s : Z) (m : nat) (p : list Z) : Prop := {
  shl_wide : wide n p;
  shl_value : value p mod modulus n = (value (take m a) * 2 ^ s * modulus k) mod modulus n;
  shl_last : pn p (m + k) < 2 ^ s;
  shl_rest : forall j, (m + k < j)%nat -> pn p j = 0
}.

Lemma modulus_overflow n i : (n <= i)%nat -> modulus i = modulus (i - n) * modulus n.
Proof. intros H. rewrite <- modulus_add. f_equal. lia. Qed.

Lemma shl_step_inv n a k s m p :
  wide n a -> 0 <= s < 32 -> shl_inv n a k s m p -> shl_inv n a k s (S m) (shl_step n a k s p m).
Proof.
  intros Ha Hs [Hw Hv Hlast Hrest]. unfold shl_step.
  pose proof (pn_word a m (proj2 Ha)) as Hx. set (x := pn a m) in *.
  pose proof (shl_halves x s Hx ltac:(lia)) as Hhalf. pose proof (shiftr_bound x s Hx ltac:(lia)) as Hh.
  pose proof (pow_le_32 s ltac:(lia)) as Hp2. pose proof (modulus_pos n) as Hpos.
  set (hi := Z.shiftr x (32 - s)) in *. set (lo := u32 (Z.shiftl x s)) in *.
  set (p1 := if _ && _ then _ else p).
  assert (wide n p1 /\ value p1 mod modulus n = (value p + hi * modulus (S m + k)) mod modulus n /\
    pn p1 (S m + k) < 2 ^ s /\ (forall j, (S m + k <> j)%nat -> pn p1 j = pn p j)) as (Hw1 & Hv1 & Hl1 & Hr1).
  { subst p1. replace (m + k + 1)%nat with (S m + k)%nat by lia.
    destruct (Nat.ltb_spec (S m + k) n) as [Hlt|Hge]; cbn [andb].
    - destruct (Z.eqb_spec s 0) as [->|Hne]; cbn [negb].
      + replace hi with 0 by lia. rewrite Z.mul_0_l, Z.add_0_r. rewrite Hrest by lia. auto with lia.
      + destruct (or_word_zero n p (S m + k) hi Hw Hlt (Hrest (S m + k)%nat ltac:(lia))) as (H1 & H2 & H3).
        { unfold word32. lia. }
        rewrite H2. split; [done|]. split; [done|]. rewrite H3, decide_True by done. split; [lia|].
        intros j Hj. by rewrite H3, decide_False.
    - rewrite (modulus_overflow n (S m + k)), Z.mul_assoc, Z.mod_add by lia.
      rewrite Hrest by lia. auto with lia. }
  assert (forall q, value q mod modulus n = (value p1 + lo * modulus (m + k)) mod modulus n ->
    value q mod modulus n = (value (take (S m) a) * 2 ^ s * modulus k) mod modulus n) as Hfin.
  { intros q Hq. rewrite Hq, <- Zplus_mod_idemp_l, Hv1, Zplus_mod_idemp_l.
    rewrite <- Z.add_assoc, <- Zplus_mod_idemp_l, Hv, Zplus_mod_idemp_l. f_equal.
    rewrite value_take. fold x. change (S m + k)%nat with (S (m + k)). rewrite modulus_S, modulus_add. nia. }
  destruct (Nat.ltb_spec (m + k) n) as [Hlt|Hge].
  - destruct (or_word_high n p1 (m + k) x s Hw1 Hlt ltac:(lia)) as (H1 & H2 & H3).
    { rewrite Hr1 by lia. split; [apply (pn_word p); apply Hw|done]. }
    fold lo in H1, H2, H3. split; [done|apply Hfin; by rewrite H2| |].
    + rewrite H3 by lia. done.
    + intros j Hj. rewrite H3, Hr1 by lia. apply Hrest. lia.
  - split; [done| |done|].
    + apply Hfin. by rewrite (modulus_overflow n (m + k)), Z.mul_assoc, Z.mod_add by lia.
    + intros j Hj. rewrite Hr1 by lia. apply Hrest. lia.
Qed.

Lemma shl_spec n a shift :
  wide n a -> 0 <= shift ->
  wide n (base_uint_shl n a shift) /\ value (base_uint_shl n a shift) = (value a * 2 ^ shift) mod modulus n.
Proof.
  intros Ha Hs. unfold base_uint_shl. set (k := Z.to_nat (shift / 32)). set (s := shift mod 32).
  assert (0 <= s < 32) as Hs' by (apply Z.mod_pos_bound; lia). pose proof (pow_le_32 s ltac:(lia)) as Hp.
  assert (forall m, shl_inv n a k s m (foldl (shl_step n a k s) (base_uint_zero n) (seq 0 m))) as H.
  { induction m as [|m IH]; [|rewrite seq_S, foldl_app; by apply shl_step_inv].
    cbn [seq foldl]. split; [apply zero_wide|by rewrite value_zero, take_0|rewrite pn_zero; lia|].
    intros j _. apply pn_zero. }
  destruct (H n) as [Hw Hv _ _]. split; [done|].
  rewrite <- (Z.mod_small (value (foldl _ _ _)) (modulus n)) by (by apply wide_range).
  rewrite Hv, take_wide by done. f_equal. rewrite <- Z.mul_assoc. f_equal. unfold modulus, k, s.
  rewrite <- Z.pow_add_r by (try apply Z.mod_pos_bound; lia). f_equal.
  rewrite Z2Nat.id by (apply Z.div_pos; lia). pose proof (Z.div_mod shift 32). lia.
Qed.

(** What the loop of [>>=] has written after [m] rounds. *)
Record shr_inv (n : nat) (a : list Z) (k : nat) (s : Z) (m : nat) (p : list Z) : Prop := {
  shr_wide : wide n p;
  shr_value : value p = value (take m a) / (2 ^ s * modulus k);
  shr_last : (k < m)%nat -> pn p (m - k - 1) < 2 ^ (32 - s);
  shr_rest : forall j, (m - k <= j)%nat -> pn p j = 0
}.

(** Below the first word that survives, and from it on. *)
Lemma shr_low a m k s : words a -> (m <= k)%nat -> 0 <= s -> value (take m a) / (2 ^ s * modulus k) = 0.
Proof.
  intros Ha Hm Hs. apply Z.div_small. pose proof (take_range a m Ha).
  assert (modulus m <= modulus k) by (apply Z.pow_le_mono_r; lia).
  assert (0 < 2 ^ s) by (apply Z.pow_pos_nonneg; lia). pose proof (modulus_pos k). nia.
Qed.

Lemma shr_high v x m k s :
  0 <= s <= 32 -> (k < m)%nat ->
  (v + x * modulus m) / (2 ^ s * modulus k) = v / (2 ^ s * modulus k) + x * 2 ^ (32 - s) * modulus (m - k - 1).
Proof.
  intros Hs Hk. rewrite <- Z.div_add by (pose proof (modulus_pos k); pose proof (pow_le_32 s Hs); nia).
  do 2 f_equal. replace m with (k + (1 + (m - k - 1)))%nat at 1 by lia. rewrite !modulus_add.
  change (modulus 1) with (2 ^ 32). replace (2 ^ 32) with (2 ^ (32 - s) * 2 ^ s); [ring|].
  rewrite <- Z.pow_add_r by lia. f_equal. lia.
Qed.

Lemma shr_first v x k s :
  0 <= s <= 32 -> 0 <= v < modulus k -> (v + x * modulus k) / (2 ^ s * modulus k) = x / 2 ^ s.
Proof.
  intros Hs Hv. pose proof (pow_le_32 s Hs). rewrite (Z.mul_comm (2 ^ s)), <- Z.div_div by lia.
  by rewrite Z.div_add, (Z.div_small v), Z.add_0_l by lia.
Qed.

Lemma shr_step_inv n a k s m p :
  wide n a -> 0 <= s < 32 -> (m < n)%nat -> shr_inv n a k s m p -> shr_inv n a k s (S m) (shr_step a k s p m).
Proof.
  intros Ha Hs Hm [Hw Hv Hlast Hrest]. unfold shr_step.
  pose proof (pn_word a m (proj2 Ha)) as Hx. set (x := pn a m) in *.
  pose proof (shl_halves x (32 - s) Hx ltac:(lia)) as Hhalf. replace (32 - (32 - s)) with s in Hhalf by lia.
  pose proof (shiftr_bound x (32 - s) Hx ltac:(lia)) as Hh. replace (32 - (32 - s)) with s in Hh by lia.
  pose proof (pow_le_32 (32 - s) ltac:(lia)) as Hp2.
  set (hi := Z.shiftr x s) in *. set (lo := u32 (Z.shiftl x (32 - s))) in *.
  destruct (Nat.leb_spec k m) as [Hkm|Hkm].
  2:{ rewrite (proj2 (Nat.leb_gt (k + 1) m)) by lia. cbn [andb].
      split; [done| |lia|intros j _; apply Hrest; lia].
      rewrite Hv, !shr_low by (apply Ha || lia). done. }
  set (p1 := if _ && _ then _ else p).
  assert (wide n p1 /\ value p1 + hi * modulus (m - k) = value (take (S m) a) / (2 ^ s * modulus k) /\
    (forall j, (m - k <= j)%nat -> pn p1 j = 0)) as (Hw1 & Hv1 & Hr1).
  { subst p1. rewrite value_take. fold x. destruct (Nat.leb_spec (k + 1) m) as [Hk1|Hk1]; cbn [andb].
    - rewrite shr_high, <- Hv, Hhalf by lia.
      replace (modulus (m - k)) with (2 ^ 32 * modulus (m - k - 1)) by (rewrite <- modulus_S; f_equal; lia).
      destruct (Z.eqb_spec s 0) as [Hs0|Hne]; cbn [negb].
      + assert (lo = 0) as ->; [|split; [done|split; [ring|done]]].
        unfold lo. rewrite Hs0, shl_low by lia. by rewrite Z.mod_1_r.
      + destruct (or_word_high n p (m - k - 1) x (32 - s) Hw ltac:(lia) ltac:(lia)) as (H1 & H2 & H3).
        { split; [apply (pn_word p), Hw|]. apply Hlast. lia. }
        fold lo in H1, H2, H3. rewrite H2. split; [done|]. split; [ring|].
        intros j Hj. rewrite H3 by lia. apply Hrest. lia.
    - replace m with k in * by lia. rewrite Nat.sub_diag, modulus_0 in *.
      pose proof (take_range a k (proj2 Ha)).
      rewrite shr_first by lia. rewrite Hv, shr_low by (apply Ha || lia). split; [done|].
      split; [unfold hi; rewrite Z.shiftr_div_pow2 by lia; lia|]. intros j Hj. apply Hrest. lia. }
  destruct (or_word_zero n p1 (m - k) hi Hw1 ltac:(lia) (Hr1 (m - k)%nat ltac:(lia))) as (H1 & H2 & H3).
  { unfold word32. lia. }
  split; [done|by rewrite H2| |].
  - intros _. replace (S m - k - 1)%nat with (m - k)%nat by lia. rewrite H3, decide_True by done. lia.
  - intros j Hj. rewrite H3, decide_False by lia. apply Hr1. lia.
Qed.

Lemma shr_spec n a shift :
  wide n a -> 0 <= shift ->
  wide n (base_uint_shr n a shift) /\ value (base_uint_shr n a shift) = value a / 2 ^ shift.
Proof.
  intros Ha Hs. unfold base_uint_shr. set (k := Z.to_nat (shift / 32)). set (s := shift mod 32).
  assert (0 <= s < 32) as Hs' by (apply Z.mod_pos_bound; lia).
  assert (forall m, (m <= n)%nat -> shr_inv n a k s m (foldl (shr_step a k s) (base_uint_zero n) (seq 0 m))) as H.
  { induction m as [|m IH]; intros Hm; [|rewrite seq_S, foldl_app; apply shr_step_inv; auto with lia].
    cbn [seq foldl]. split; [apply zero_wide|rewrite value_zero, shr_low by (apply Ha || lia); done|lia|].
    intros j _. apply pn_zero. }
  destruct (H n (le_n n)) as [Hw Hv _ _]. split; [done|]. rewrite Hv, take_wide by done. f_equal.
  unfold modulus, k, s. rewrite <- Z.pow_add_r by (try apply Z.mod_pos_bound; lia). f_equal.
  rewrite Z2Nat.id by (apply Z.div_pos; lia). pose proof (Z.div_mod shift 32). lia.
Qed.

(** ** Division *)

(** Setting bit [shift] of a quotient that is a multiple of [2 ^ (shift + 1)]. *)
Lemma set_bit_spec n p shift :
  wide n p -> (shift / 32 < n)%nat -> (2 ^ Z.of_nat (S shift) | value p) ->
  let q := or_word p (shift / 32) (u32 (Z.shiftl 1 (Z.land (Z.of_nat shift) 31))) in
  wide n q /\ value q = value p + 2 ^ Z.of_nat shift.
Proof.
  intros Hw Hi [z Hz] q. change 31 with (Z.ones 5) in q. subst q. rewrite Z.land_ones by lia. change (2 ^ 5) with 32.
  set (s := Z.of_nat shift mod 32). assert (0 <= s < 32) as Hs by (apply Z.mod_pos_bound; lia).
  set (i := (shift / 32)%nat) in *.
  assert (Z.of_nat shift = 32 * Z.of_nat i + s) as Esh.
  { unfold i, s. rewrite Nat2Z.inj_div. apply Z.div_mod. lia. }
  assert (u32 (Z.shiftl 1 s) = 2 ^ s) as Eb.
  { rewrite Z.shiftl_1_l. apply u32_small. pose proof (pow_le_32 s ltac:(lia)).
    assert (2 ^ s < 2 ^ 32) by (apply Z.pow_lt_mono_r; lia). lia. }
  assert (forall t, 0 <= t <= s -> Z.testbit (pn p i) t = false) as Hclear.
  { intros t Ht. pose proof (value_testbit p (32 * Z.of_nat i + t) (proj2 Hw) ltac:(lia)) as Hb.
    replace ((32 * Z.of_nat i + t) / 32) with (Z.of_nat i) in Hb
      by (rewrite Z.mul_comm, Z.div_add_l, Z.div_small by lia; lia).
    rewrite Nat2Z.id in Hb. replace ((32 * Z.of_nat i + t) mod 32) with t in Hb
      by (rewrite Z.add_comm, Z.mul_comm, Z.mod_add, Z.mod_small by lia; lia).
    rewrite <- Hb, Hz. apply Z.mul_pow2_bits_low. lia. }
  unfold or_word. rewrite Eb. rewrite u32_small by (pose proof (pow_le_32 s ltac:(lia));
    assert (2 ^ s < 2 ^ 32) by (apply Z.pow_lt_mono_r; lia); lia).
  assert (Z.lor (pn p i) (2 ^ s) = pn p i + 2 ^ s) as Eor.
  { assert (Z.land (pn p i) (2 ^ s) = 0) as Hl.
    { apply Z.bits_inj'. intros j Hj. rewrite Z.land_spec, Z.bits_0, Z.pow2_bits_eqb by lia.
      destruct (Z.eqb_spec s j) as [<-|]; [by rewrite Hclear by lia|apply andb_false_r]. }
    rewrite <- Z.lxor_lor by done. symmetry. by apply Z.add_nocarry_lxor. }
  destruct Hw as [Hlen Hws]. split; [split; [by rewrite length_insert|apply words_insert; [done|]]|].
  - pose proof (pn_word p i Hws) as Hpw. unfold word32 in *. split; [apply Z.lor_nonneg; split; lia|].
    rewrite Eor. destruct (Z.lt_ge_cases (pn p i + 2 ^ s) (2 ^ 32)) as [|Hge]; [done|exfalso].
    rewrite <- Eor in Hge. assert (Z.log2 (Z.lor (pn p i) (2 ^ s)) < 32) as Hlog.
    { rewrite Z.log2_lor, Z.log2_pow2 by lia. apply Z.max_lub_lt; [|lia].
      destruct (decide (pn p i = 0)) as [->|]; [cbn; lia|]. apply Z.log2_lt_pow2; lia. }
    pose proof (Z.log2_le_mono _ _ Hge) as Hl. rewrite Z.log2_pow2 in Hl by lia. lia.
  - rewrite value_insert, Eor, Esh, Z.pow_add_r by lia. unfold modulus. lia.
Qed.

Lemma div_loop_spec m n a b num div p :
  wide n num -> wide n div -> wide n p -> (m <= 32 * n)%nat -> 0 < b ->
  a = value p * b + value num -> value num < 2 ^ Z.of_nat m * b ->
  (2 ^ Z.of_nat m | value p) -> (m <> 0%nat -> value div = 2 ^ Z.of_nat (m - 1) * b) ->
  wide n (div_loop n m num div p) /\ value (div_loop n m num div p) = a / b.
Proof.
  revert num div p; induction m as [|m IH]; intros num div p Hnum Hdiv Hp Hm Hb Ha Hlt Hmul Hd.
  { cbn [div_loop]. split; [done|]. pose proof (wide_range n num Hnum). apply (Z.div_unique_pos _ _ _ (value num)); lia. }
  cbn [div_loop]. specialize (Hd ltac:(lia)). replace (S m - 1)%nat with m in Hd by lia.
  destruct (shr_spec n div 1 Hdiv ltac:(lia)) as [Hw1 Hv1].
  assert (m <> 0%nat -> value (base_uint_shr n div 1) = 2 ^ Z.of_nat (m - 1) * b) as Hd1.
  { intros Hm0. rewrite Hv1, Hd. replace (Z.of_nat m) with (1 + Z.of_nat (m - 1)) by lia.
    rewrite Z.pow_add_r by lia. replace (2 ^ 1 * 2 ^ Z.of_nat (m - 1) * b) with (2 ^ Z.of_nat (m - 1) * b * 2 ^ 1) by ring.
    by apply Z.div_mul. }
  assert (2 ^ Z.of_nat (S m) = 2 * 2 ^ Z.of_nat m) as E2 by (rewrite Nat2Z.inj_succ, Z.pow_succ_r; lia).
  pose proof (wide_range n num Hnum) as Hr. pose proof (wide_range n div Hdiv) as Hrd.
  rewrite ge_spec by done. destruct (Z.leb_spec (value div) (value num)) as [Hge|Hlt'].
  - destruct (sub_spec n num div Hnum Hdiv) as [Hws Hvs]. rewrite Z.mod_small in Hvs by lia.
    destruct (set_bit_spec n p m Hp ltac:(apply Nat.Div0.div_lt_upper_bound; lia) Hmul) as [Hwq Hvq].
    apply IH; [done..|lia|done|rewrite Hvq, Hvs; lia|rewrite Hvs; lia| |done].
    rewrite Hvq. apply Z.divide_add_r; [|apply Z.divide_refl]. destruct Hmul as [z Hz]. exists (2 * z). lia.
  - apply IH; [done..|lia|done|done|lia| |done]. destruct Hmul as [z Hz]. exists (2 * z). lia.
Qed.

Lemma div_spec n a b :
  wide n a -> wide n b ->
  match base_uint_div n a b with
  | None => value b = 0
  | Some q => value b <> 0 /\ wide n q /\ value q = value a / value b
  end.
Proof.
  intros Ha Hb. unfold base_uint_div. rewrite !bits_spec by done.
  pose proof (wide_range n a Ha) as Hra. pose proof (wide_range n b Hb) as Hrb.
  destruct (decide (value b = 0)) as [E0|Hne]; [rewrite E0; cbn; done|].
  destruct (bit_length_bounds (value b)) as [Hbb Hbl]; [lia|].
  rewrite (proj2 (Z.eqb_neq _ 0)) by lia.
  assert (0 <= bit_length (value a) <= 32 * Z.of_nat n) as Hla by (apply bit_length_le; unfold modulus in Hra; lia).
  assert (value a < 2 ^ bit_length (value a)) as Hua.
  { destruct (decide (value a = 0)) as [->|]; [done|]. apply bit_length_bounds. lia. }
  destruct (Z.ltb_spec (bit_length (value a)) (bit_length (value b))) as [Hlt|Hge].
  - split; [done|]. split; [apply zero_wide|]. rewrite value_zero. symmetry. apply Z.div_small.
    assert (2 ^ bit_length (value a) <= 2 ^ (bit_length (value b) - 1)) by (apply Z.pow_le_mono_r; lia). lia.
  - set (shift := bit_length (value a) - bit_length (value b)) in *.
    destruct (shl_spec n b shift Hb ltac:(lia)) as [Hws Hvs].
    assert (value b * 2 ^ shift < modulus n) as Hfit.
    { assert (2 ^ bit_length (value a) <= modulus n) by (apply Z.pow_le_mono_r; lia).
      assert (2 ^ bit_length (value a) = 2 ^ bit_length (value b) * 2 ^ shift) as E
        by (rewrite <- Z.pow_add_r by lia; f_equal; lia).
      assert (0 < 2 ^ shift) by (apply Z.pow_pos_nonneg; lia). nia. }
    rewrite Z.mod_small in Hvs by (split; [apply Z.mul_nonneg_nonneg; [lia|apply Z.pow_nonneg; lia]|done]).
    split; [done|]. apply div_loop_spec; try done; [apply zero_wide|lia|lia|rewrite value_zero; lia| |rewrite value_zero; apply Z.divide_0_r|].
    + replace (Z.of_nat (Z.to_nat shift + 1)) with (shift + 1) by lia.
      replace (bit_length (value a)) with (bit_length (value b) - 1 + (shift + 1)) in Hua by lia.
      rewrite Z.pow_add_r in Hua by lia. assert (0 < 2 ^ (shift + 1)) by (apply Z.pow_pos_nonneg; lia). nia.
    + intros _. replace (Z.of_nat (Z.to_nat shift + 1 - 1)) with shift by lia. lia.
Qed.

(** ** Conversions *)

Lemma u64_wide n b :
  (2 <= n)%nat -> 0 <= b < 2 ^ 64 -> wide n (base_uint_u64 n b) /\ value (base_uint_u64 n b) = b.
Proof.
  intros Hn Hb. unfold base_uint_u64. rewrite Z.shiftr_div_pow2 by lia.
  rewrite (u32_small (b / 2 ^ 32)) by (split; [apply Z.div_pos; lia|apply Z.div_lt_upper_bound; lia]).
  split; [split; [cbn; rewrite length_replicate; lia|]|].
  - constructor; [apply u32_range|]. constructor; [|apply words_replicate_0].
    split; [apply Z.div_pos; lia|apply Z.div_lt_upper_bound; lia].
  - cbn [value]. rewrite value_replicate_0. unfold u32. pose proof (Z.div_mod b (2 ^ 32)). lia.
Qed.

Lemma GetLow64_spec n a : wide n a -> (2 <= n)%nat -> GetLow64 a = value a mod 2 ^ 64.
Proof.
  intros [<- Ha] Hn. destruct a as [|x [|y a]]; cbn [length] in Hn; [lia..|].
  apply Forall_cons in Ha as [Hx Ha]. apply Forall_cons in Ha as [Hy Ha]. unfold word32 in Hx, Hy.
  unfold GetLow64, pn; cbn [nth]. rewrite u64_small by (rewrite Z.shiftl_mul_pow2; lia).
  rewrite lor_shift by lia. cbn [value].
  replace (x + 2 ^ 32 * (y + 2 ^ 32 * value a)) with (x + y * 2 ^ 32 + value a * 2 ^ 64) by ring.
  rewrite Z.mod_add, Z.mod_small by lia. done.
Qed.

Lemma uint256_bytes_range h : length (uint256_bytes h) = 32%nat /\ Forall byte (uint256_bytes h).
Proof.
  unfold uint256_bytes. rewrite length_le_bytes. split; [done|]. apply le_bytes_byte.
Qed.

(** The words of a hash are those of its bytes in little-endian order. *)
Lemma words_of_bytes n l :
  length l = (n * 4)%nat -> Forall byte l ->
  let a := map (fun x => le_value (take 4 (drop (x * 4) l))) (seq 0 n) in
  wide n a /\ value a = le_value l /\ concat (map (fun x => le_bytes 4 (pn a x)) (seq 0 n)) = l.
Proof.
  revert l; induction n as [|n IH]; intros l Hl Hb; [by destruct l|].
  set (f := fun x => le_value (take 4 (drop (x * 4) l))).
  assert (map f (seq 0 (S n)) = le_value (take 4 l) ::
    map (fun x => le_value (take 4 (drop (x * 4) (drop 4 l)))) (seq 0 n)) as E.
  { cbn [seq map]. change (f 0%nat) with (le_value (take 4 l)). f_equal.
    rewrite <- seq_shift, map_map. apply map_ext. intros x. unfold f. by rewrite drop_drop. }
  intros a. subst a. rewrite E.
  destruct (IH (drop 4 l)) as ([Hlen Hw] & Hv & Hc).
  { rewrite length_drop. lia. }
  { by apply Forall_drop. }
  assert (length (take 4 l) = 4%nat) as Hl4 by (rewrite length_take; lia).
  assert (Forall byte (take 4 l)) as Hb4 by (by apply Forall_take).
  pose proof (le_value_range (take 4 l) Hb4) as Hr. rewrite Hl4 in Hr. change (256 ^ Z.of_nat 4) with (2 ^ 32) in Hr.
  split; [split; [cbn [length]; lia|by constructor]|]. cbn [value]. rewrite Hv. split.
  - rewrite <- (take_drop 4 l) at 3. rewrite le_value_app, Hl4. done.
  - cbn [seq map concat]. change (pn (le_value (take 4 l) :: _) 0) with (le_value (take 4 l)).
    rewrite le_bytes_value by done. rewrite <- seq_shift, map_map.
    rewrite (map_ext _ (fun x => le_bytes 4 (pn (map (fun y => le_value (take 4 (drop (y * 4) (drop 4 l)))) (seq 0 n)) x))).
    + rewrite Hc. apply take_drop.
    + intros x. done.
Qed.

Lemma UintToArith256_spec h :
  0 <= h < 2 ^ 256 -> wide 8 (UintToArith256 h) /\ ArithToUint256 (UintToArith256 h) = h.
Proof.
  intros Hh. destruct (uint256_bytes_range h) as [Hl Hb].
  destruct (words_of_bytes 8 (uint256_bytes h) Hl Hb) as (Hw & _ & Hc).
  split; [exact Hw|]. unfold ArithToUint256, UintToArith256. rewrite Hc. by apply uint256_roundtrip.
Qed.

Lemma UintToArith256_value h : 0 <= h < 2 ^ 256 -> wide 8 (UintToArith256 h) /\ value (UintToArith256 h) = h.
Proof.
  intros Hh. destruct (uint256_bytes_range h) as [Hl Hb].
  destruct (words_of_bytes 8 (uint256_bytes h) Hl Hb) as (Hw & Hv & _).
  split; [exact Hw|]. unfold UintToArith256. rewrite Hv. exact (uint256_roundtrip h Hh).
Qed.

Lemma map_pn {A} (f : Z -> A) a : map (fun x => f (pn a x)) (seq 0 (length a)) = map f a.
Proof.
  induction a as [|w a IH]; [done|]. cbn [length seq map]. f_equal. rewrite <- IH, <- seq_shift, map_map.
  apply map_ext. intros x. by rewrite pn_cons.
Qed.

Lemma ArithToUint256_value a : wide 8 a -> ArithToUint256 a = value a.
Proof.
  intros [Hl Ha]. unfold ArithToUint256. rewrite <- Hl, map_pn. unfold uint256_of_bytes. clear Hl.
  induction Ha as [|w a Hw Ha IH]; [done|]. cbn [map concat value].
  rewrite le_value_app, le_value_bytes, length_le_bytes, IH, Z.mod_small by exact Hw. done.
Qed.

(** ** The compact format *)

Definition compact_exponent (c : Z) : Z := c / 2 ^ 24.
Definition compact_mantissa (c : Z) : Z := c mod 2 ^ 23.

(** The number a compact value stands for, before it is cut to 256 bits. *)
Definition compact_value (c : Z) : Z :=
  let e := compact_exponent c in
  if e <=? 3 then compact_mantissa c / 256 ^ (3 - e) else compact_mantissa c * 256 ^ (e - 3).

Lemma pow256 k : 0 <= k -> 2 ^ (8 * k) = 256 ^ k.
Proof. intros Hk. rewrite Z.pow_mul_r by lia. done. Qed.

Lemma SetCompact_spec c :
  0 <= c < 2 ^ 32 ->
  let '(bn, fNegative, fOverflow) := SetCompact c in
  wide 8 bn /\ value bn = compact_value c mod 2 ^ 256 /\
  (fOverflow = true <-> 2 ^ 256 <= compact_value c) /\
  (fNegative = true <-> Z.testbit c 23 = true /\
     (if compact_exponent c <=? 3 then compact_value c else compact_mantissa c) <> 0).
Proof.
  intros Hc. unfold SetCompact, compact_value, compact_exponent, compact_mantissa.
  rewrite Z.shiftr_div_pow2 by lia. change 0x7fffff with (Z.ones 23). rewrite Z.land_ones by lia.
  set (e := c / 2 ^ 24). set (m := c mod 2 ^ 23).
  assert (0 <= e < 256) as He by (split; [apply Z.div_pos; lia|apply Z.div_lt_upper_bound; lia]).
  assert (0 <= m < 2 ^ 23) as Hm by (apply Z.mod_pos_bound; lia).
  change (Z.land c 0x00800000) with (Z.land c (Z.shiftl 1 23)).
  assert (negb (Z.land c (Z.shiftl 1 23) =? 0) = Z.testbit c 23) as -> by (by apply flag_testbit).
  destruct (Z.leb_spec e 3) as [Hle|Hgt].
  - rewrite Z.shiftr_div_pow2, pow256 by lia. set (w := m / 256 ^ (3 - e)).
    assert (0 < 256 ^ (3 - e)) as Hp by (apply Z.pow_pos_nonneg; lia).
    assert (0 <= w < 2 ^ 23) as Hw by (split; [apply Z.div_pos; lia|apply Z.div_lt_upper_bound; nia]).
    destruct (u64_wide 8 w ltac:(lia) ltac:(lia)) as [H1 H2]. split; [done|].
    split; [rewrite H2, Z.mod_small; lia|].
    rewrite (proj2 (Z.ltb_ge 34 e)), (proj2 (Z.ltb_ge 33 e)), (proj2 (Z.ltb_ge 32 e)) by lia.
    rewrite !andb_false_r. split; [split; [done|lia]|].
    rewrite andb_true_iff, negb_true_iff, Z.eqb_neq. tauto.
  - destruct (u64_wide 8 m ltac:(lia) ltac:(lia)) as [H1 H2].
    destruct (shl_spec 8 (base_uint_u64 8 m) (8 * (e - 3)) H1 ltac:(lia)) as [H3 H4].
    split; [done|]. rewrite H4, H2, pow256 by lia. split; [done|]. split.
    + rewrite andb_true_iff, negb_true_iff, Z.eqb_neq, !orb_true_iff, !andb_true_iff, !Z.ltb_lt.
      assert (2 ^ 256 = 256 ^ 32) as -> by done.
      destruct (Z.lt_trichotomy e 33) as [He'|[->|He']].
      * assert (256 ^ (e - 3) <= 256 ^ 29) by (apply Z.pow_le_mono_r; lia).
        assert (m * 256 ^ (e - 3) < 256 ^ 32); [|lia].
        change (256 ^ 32) with (2 ^ 24 * 256 ^ 29). nia.
      * change (33 - 3) with 30. change (256 ^ 32) with (2 ^ 16 * 256 ^ 30). nia.
      * destruct (decide (e = 34)) as [->|].
        -- change (34 - 3) with 31. change (256 ^ 32) with (2 ^ 8 * 256 ^ 31). nia.
        -- assert (256 ^ 32 <= 256 ^ (e - 3)) by (apply Z.pow_le_mono_r; lia).
           assert (0 < 256 ^ 32) by done. nia.
    + rewrite andb_true_iff, negb_true_iff, Z.eqb_neq. tauto.
Qed.

(** The number of bytes, and the leading three bytes, of a positive number. *)
Lemma byte_length x :
  0 < x -> let s := (bit_length x + 7) / 8 in 0 < s /\ 256 ^ (s - 1) <= x < 256 ^ s.
Proof.
  intros Hx s. destruct (bit_length_bounds x Hx) as [Hb Hl].
  pose proof (Z.div_mod (bit_length x + 7) 8 ltac:(lia)) as E. pose proof (Z.mod_pos_bound (bit_length x + 7) 8 ltac:(lia)).
  fold s in E. rewrite <- !pow256 by lia. split; [lia|].
  assert (2 ^ (8 * (s - 1)) <= 2 ^ (bit_length x - 1)) by (apply Z.pow_le_mono_r; lia).
  assert (2 ^ bit_length x <= 2 ^ (8 * s)) by (apply Z.pow_le_mono_r; lia). lia.
Qed.

(** The mantissa before the sign bit is avoided. *)
Definition leading (x s : Z) : Z := if s <=? 3 then x * 256 ^ (3 - s) else x / 256 ^ (s - 3).

Lemma leading_bounds x s : 0 < s -> 256 ^ (s - 1) <= x < 256 ^ s -> 2 ^ 16 <= leading x s < 2 ^ 24.
Proof.
  intros Hs Hx. unfold leading. destruct (Z.leb_spec s 3).
  - assert (0 < 256 ^ (3 - s)) by (apply Z.pow_pos_nonneg; lia).
    assert (256 ^ (s - 1) * 256 ^ (3 - s) = 2 ^ 16) as E1.
    { rewrite <- Z.pow_add_r by lia. by replace (s - 1 + (3 - s)) with 2 by lia. }
    assert (256 ^ s * 256 ^ (3 - s) = 2 ^ 24) as E2.
    { rewrite <- Z.pow_add_r by lia. by replace (s + (3 - s)) with 3 by lia. }
    nia.
  - assert (0 < 256 ^ (s - 3)) by (apply Z.pow_pos_nonneg; lia).
    assert (256 ^ (s - 1) = 2 ^ 16 * 256 ^ (s - 3)) as E1.
    { change (2 ^ 16) with (256 ^ 2). rewrite <- Z.pow_add_r by lia. f_equal. lia. }
    assert (256 ^ s = 2 ^ 24 * 256 ^ (s - 3)) as E2.
    { change (2 ^ 24) with (256 ^ 3). rewrite <- Z.pow_add_r by lia. f_equal. lia. }
    split; [apply Z.div_le_lower_bound; lia|apply Z.div_lt_upper_bound; lia].
Qed.

(** The compact value of a number. *)
Definition compact_of (x : Z) : Z :=
  let s := (bit_length x + 7) / 8 in
  let m := leading x s in
  if Z.testbit m 23 then m / 256 + (s + 1) * 2 ^ 24 else m + s * 2 ^ 24.

Lemma GetCompact_spec a : wide 8 a -> GetCompact a false = Some (compact_of (value a)).
Proof.
  intros Ha. pose proof (wide_range 8 a Ha) as Hr. change (modulus 8) with (2 ^ 256) in Hr.
  unfold GetCompact, compact_of. rewrite bits_spec by done. set (x := value a) in *.
  set (s := (bit_length x + 7) / 8). pose proof (bit_length_le x 256 ltac:(lia) ltac:(lia)) as Hbl.
  assert (0 <= s <= 32) as Hs.
  { split; [apply Z.div_pos; lia|]. assert (s < 33); [|lia]. apply Z.div_lt_upper_bound; lia. }
  assert (0 <= leading x s < 2 ^ 24) as Hm.
  { destruct (decide (x = 0)) as [E|].
    { unfold leading. rewrite E, Z.mul_0_l, Zdiv_0_l. destruct (s <=? 3); lia. }
    destruct (byte_length x ltac:(lia)) as [H1 H2]. pose proof (leading_bounds x s H1 H2). lia. }
  assert ((if s <=? 3 then u32 (u64 (Z.shiftl (GetLow64 a) (8 * (3 - s))))
           else u32 (GetLow64 (base_uint_shr 8 a (8 * (s - 3))))) = leading x s) as ->.
  { unfold leading in *. destruct (Z.leb_spec s 3).
    - assert (x < 2 ^ 24) as Hx24.
      { destruct (decide (x = 0)) as [->|]; [done|]. destruct (byte_length x ltac:(lia)) as [H1 H2]. fold s in H2.
        assert (256 ^ s <= 256 ^ 3) by (apply Z.pow_le_mono_r; lia). lia. }
      rewrite (GetLow64_spec 8) by (done || lia). fold x. rewrite (Z.mod_small x) by lia.
      rewrite Z.shiftl_mul_pow2, pow256 by lia. by rewrite u64_small, u32_small by lia.
    - destruct (shr_spec 8 a (8 * (s - 3)) Ha ltac:(lia)) as [Hws Hvs]. rewrite pow256 in Hvs by lia. fold x in Hvs.
      rewrite (GetLow64_spec 8) by (done || lia). rewrite Hvs. by rewrite Z.mod_small, u32_small by lia. }
  set (m := leading x s) in *.
  change (Z.land m 0x00800000) with (Z.land m (Z.shiftl 1 23)).
  assert (negb (Z.land m (Z.shiftl 1 23) =? 0) = Z.testbit m 23) as -> by (by apply flag_testbit).
  assert (forall m' s', 0 <= m' < 2 ^ 23 -> 0 <= s' < 256 ->
    (check Z.land m' (u32 (Z.lnot 0x007fffff)) =? 0; check s' <? 256;
     let nCompact := Z.lor m' (u32 (Z.shiftl s' 24)) in
     Some (Z.lor nCompact (if false && negb (Z.land nCompact 0x007fffff =? 0) then 0x00800000 else 0))) =
    Some (m' + s' * 2 ^ 24)) as Hpack.
  { intros m' s' Hm' Hs'. assert (Z.land m' (u32 (Z.lnot 0x007fffff)) = 0) as ->.
    { apply Z.bits_inj'. intros i Hi. rewrite Z.land_spec, Z.bits_0.
      destruct (Z.lt_ge_cases i 23) as [Hlt|Hge]; [|by rewrite (small_bits m' 23) by lia].
      change (u32 (Z.lnot 0x007fffff)) with (Z.shiftl 511 23). rewrite Z.shiftl_spec_low by lia. apply andb_false_r. }
    cbn [Z.eqb andb]. rewrite (proj2 (Z.ltb_lt s' 256)) by lia. rewrite Z.lor_0_r.
    rewrite u32_small by (rewrite Z.shiftl_mul_pow2; lia). by rewrite lor_shift by lia. }
  destruct (Z.testbit m 23) eqn:Eb.
  - rewrite Z.shiftr_div_pow2 by lia. change (2 ^ 8) with 256. apply Hpack; [|lia].
    split; [apply Z.div_pos; lia|apply Z.div_lt_upper_bound; lia].
  - apply Hpack; [|lia]. split; [lia|]. apply testbit_below; [lia|lia|done].
Qed.

Lemma byte_length_unique x s : 0 < s -> 256 ^ (s - 1) <= x < 256 ^ s -> (bit_length x + 7) / 8 = s.
Proof.
  intros Hs Hx. assert (0 < 256 ^ (s - 1)) by (apply Z.pow_pos_nonneg; lia).
  destruct (byte_length x ltac:(lia)) as [Ht Hx']. set (t := (bit_length x + 7) / 8) in *.
  destruct (Z.lt_trichotomy s t) as [Hlt|[->|Hlt]]; [|done|].
  - assert (256 ^ s <= 256 ^ (t - 1)) by (apply Z.pow_le_mono_r; lia). lia.
  - assert (256 ^ t <= 256 ^ (s - 1)) by (apply Z.pow_le_mono_r; lia). lia.
Qed.

(** A number with its last [k] bytes cleared. *)
Definition clear_bytes (x k : Z) : Z := x / 256 ^ k * 256 ^ k.

Lemma clear_bytes_0 x : clear_bytes x 0 = x.
Proof. unfold clear_bytes. rewrite Z.div_1_r. lia. Qed.

Lemma clear_bytes_bounds x s k :
  0 < s -> 256 ^ (s - 1) <= x < 256 ^ s -> 0 <= k < s -> 256 ^ (s - 1) <= clear_bytes x k <= x.
Proof.
  intros Hs Hx Hk. unfold clear_bytes. assert (0 < 256 ^ k) as Hp by (apply Z.pow_pos_nonneg; lia).
  pose proof (Z.div_mod x (256 ^ k) ltac:(lia)). pose proof (Z.mod_pos_bound x (256 ^ k) ltac:(lia)).
  assert (256 ^ (s - 1) = 256 ^ (s - 1 - k) * 256 ^ k) as E by (rewrite <- Z.pow_add_r by lia; f_equal; lia).
  assert (256 ^ (s - 1 - k) <= x / 256 ^ k) by (apply Z.div_le_lower_bound; lia). nia.
Qed.

Lemma compact_parts m s : 0 <= m < 2 ^ 23 -> 0 <= s ->
  compact_exponent (m + s * 2 ^ 24) = s /\ compact_mantissa (m + s * 2 ^ 24) = m /\
  Z.testbit (m + s * 2 ^ 24) 23 = false.
Proof.
  intros Hm Hs. unfold compact_exponent, compact_mantissa. rewrite Z.div_add, Z.div_small by lia.
  split; [lia|]. split.
  - replace (s * 2 ^ 24) with (s * 2 * 2 ^ 23) by lia. rewrite Z.mod_add, Z.mod_small by lia. done.
  - rewrite <- lor_shift, Z.lor_spec, Z.shiftl_spec_low by lia. by rewrite (small_bits m 23) by lia.
Qed.

Lemma compact_value_parts m e : 0 <= m < 2 ^ 23 -> 0 <= e ->
  compact_value (m + e * 2 ^ 24) = if e <=? 3 then m / 256 ^ (3 - e) else m * 256 ^ (e - 3).
Proof. intros Hm He. unfold compact_value. by destruct (compact_parts m e Hm He) as (-> & -> & _). Qed.

Lemma leading_ge3 x s : 3 <= s -> leading x s = x / 256 ^ (s - 3).
Proof.
  intros Hs. unfold leading. destruct (Z.leb_spec s 3); [|done]. replace s with 3 by lia.
  by rewrite Z.mul_1_r, Z.div_1_r.
Qed.

Lemma leading_lt3 x s : 0 < s < 3 -> leading x s / 256 = x * 256 ^ (2 - s) /\ x * 256 ^ (2 - s) / 256 ^ (2 - s) = x.
Proof.
  intros Hs. unfold leading. rewrite (proj2 (Z.leb_le s 3)) by lia.
  replace (3 - s) with (Z.succ (2 - s)) by lia. rewrite Z.pow_succ_r, (Z.mul_comm 256), Z.mul_assoc, Z.div_mul by lia.
  split; [done|]. apply Z.div_mul, Z.pow_nonzero; lia.
Qed.

(** Clearing the bytes the mantissa does not hold changes nothing. *)
Lemma leading_clear x s : 3 <= s ->
  leading (clear_bytes x (s - 3)) s = leading x s /\
  leading (clear_bytes x (s - 2)) s = leading x s / 256 * 256.
Proof.
  intros Hs. rewrite !leading_ge3 by lia. unfold clear_bytes.
  assert (256 ^ (s - 3) <> 0) as Hne by (apply Z.pow_nonzero; lia). split; [by apply Z.div_mul|].
  replace (s - 2) with (Z.succ (s - 3)) by lia. rewrite Z.pow_succ_r, Z.mul_assoc, Z.div_mul by lia.
  f_equal. rewrite Z.div_div by (try apply Z.pow_pos_nonneg; lia). f_equal. lia.
Qed.

Lemma testbit_clear m : Z.testbit (m / 256 * 256) 23 = Z.testbit m 23.
Proof.
  change 256 with (2 ^ 8) at 2. rewrite Z.mul_pow2_bits by lia. change 256 with (2 ^ 8).
  rewrite Z.div_pow2_bits by lia. done.
Qed.

(** Which bytes the compact form of a positive number keeps. *)
Lemma compact_of_spec x s :
  0 < s -> 256 ^ (s - 1) <= x < 256 ^ s ->
  exists k m e, 0 <= k < s /\ compact_of x = m + e * 2 ^ 24 /\ 0 < m < 2 ^ 23 /\ 0 < e <= s + 1 /\
    compact_value (compact_of x) = clear_bytes x k /\ (k = 0 \/ 2 ^ 15 <= x / 256 ^ k) /\
    compact_of (clear_bytes x k) = compact_of x.
Proof.
  intros Hs Hx. pose proof (leading_bounds x s Hs Hx) as Hl. pose proof (byte_length_unique x s Hs Hx) as Es.
  assert (forall k, 0 <= k < s -> (bit_length (clear_bytes x k) + 7) / 8 = s) as Ek.
  { intros k Hk. apply byte_length_unique; [done|]. pose proof (clear_bytes_bounds x s k Hs Hx Hk). lia. }
  destruct (Z.testbit (leading x s) 23) eqn:Eb.
  - assert (2 ^ 15 <= leading x s / 256 < 2 ^ 16) as Hm.
    { split; [apply Z.div_le_lower_bound; [lia|]|apply Z.div_lt_upper_bound; lia].
      apply Z.nlt_ge. intros Hlt. by rewrite (small_bits (leading x s) 23 23) in Eb by lia. }
    assert (compact_of x = leading x s / 256 + (s + 1) * 2 ^ 24) as Ec by (unfold compact_of; by rewrite Es, Eb).
    pose proof (compact_value_parts (leading x s / 256) (s + 1) ltac:(lia) ltac:(lia)) as Ev. rewrite <- Ec in Ev.
    exists (Z.max 0 (s - 2)), (leading x s / 256), (s + 1). split; [lia|]. split; [done|]. split; [lia|]. split; [lia|].
    rewrite Ev.
    destruct (Z.leb_spec (s + 1) 3) as [Hle|Hgt].
    + rewrite Z.max_l, clear_bytes_0 by lia. destruct (leading_lt3 x s ltac:(lia)) as [-> Hd].
      replace (3 - (s + 1)) with (2 - s) by lia. auto.
    + rewrite Z.max_r by lia. replace (s + 1 - 3) with (s - 2) by lia.
      destruct (leading_clear x s ltac:(lia)) as [_ Hc].
      assert (leading x s / 256 = x / 256 ^ (s - 2)) as Hq.
      { rewrite leading_ge3, Z.div_div by (try apply Z.pow_pos_nonneg; lia).
        f_equal. rewrite Z.mul_comm, <- Z.pow_succ_r by lia. f_equal. lia. }
      split; [unfold clear_bytes; by rewrite <- Hq|]. split; [right; lia|].
      unfold compact_of. rewrite Ek, Es, Hc, testbit_clear, Eb, Z.div_mul by lia. done.
  - assert (leading x s < 2 ^ 23) as Hm by (apply testbit_below; [lia|lia|done]).
    assert (compact_of x = leading x s + s * 2 ^ 24) as Ec by (unfold compact_of; by rewrite Es, Eb).
    pose proof (compact_value_parts (leading x s) s ltac:(lia) ltac:(lia)) as Ev. rewrite <- Ec in Ev.
    exists (Z.max 0 (s - 3)), (leading x s), s. split; [lia|]. split; [done|]. split; [lia|]. split; [lia|].
    rewrite Ev.
    destruct (Z.leb_spec s 3) as [Hle|Hgt].
    + rewrite Z.max_l, clear_bytes_0 by lia. unfold leading. rewrite (proj2 (Z.leb_le s 3)) by lia.
      split; [apply Z.div_mul, Z.pow_nonzero; lia|auto].
    + rewrite Z.max_r by lia. destruct (leading_clear x s ltac:(lia)) as [Hc _].
      rewrite leading_ge3 in * by lia. split; [done|]. split; [right; lia|].
      unfold compact_of. rewrite Ek, Es by lia. rewrite !leading_ge3 by lia. rewrite leading_ge3 in Hc by lia. by rewrite Hc.
Qed.

(** ** Correctness *)

(** Equality with a 64-bit number. *)
Lemma value_zero_iff a : words a -> value a = 0 <-> Forall (fun w => w = 0) a.
Proof.
  induction 1 as [|w a Hw Ha IH]; cbn [value]; [by split|]. pose proof (value_range a Ha). unfold word32 in Hw.
  rewrite Forall_cons, <- IH. lia.
Qed.

Lemma EqualTo_spec n a b : wide n a -> (2 <= n)%nat -> 0 <= b < 2 ^ 64 -> EqualTo n a b = (value a =? b).
Proof.
  intros [<- Ha] Hn Hb. destruct a as [|x [|y a]]; cbn [length] in Hn; [lia..|].
  apply Forall_cons in Ha as [Hx Ha]. apply Forall_cons in Ha as [Hy Ha]. unfold word32 in Hx, Hy.
  unfold EqualTo. rewrite low_word, Z.shiftr_div_pow2 by lia. cbn [length Nat.sub value].
  assert (forallb (fun i => pn (x :: y :: a) i =? 0) (seq 2 (length a - 0)) = (value a =? 0)) as ->.
  { rewrite Nat.sub_0_r. apply eq_true_iff_eq. rewrite Z.eqb_eq, value_zero_iff, forallb_forall, Forall_lookup by done. split.
    - intros H i w Hi. specialize (H (S (S i))). rewrite in_seq in H.
      pose proof (lookup_lt_Some _ _ _ Hi). specialize (H ltac:(lia)). rewrite !pn_cons in H.
      unfold pn in H. rewrite (nth_lookup_Some _ _ 0 _ Hi) in H. by apply Z.eqb_eq.
    - intros H i Hi. rewrite in_seq in Hi. destruct i as [|[|i]]; [lia..|]. rewrite !pn_cons. unfold pn.
      destruct (lookup_lt_is_Some_2 a i ltac:(lia)) as [w Hw]. rewrite (nth_lookup_Some _ _ 0 _ Hw).
      apply Z.eqb_eq. by apply (H i). }
  rewrite pn_cons. change (pn (x :: y :: a) 0) with x. change (pn (y :: a) 0) with y.
  pose proof (value_range a Ha). pose proof (Z.div_mod b (2 ^ 32) ltac:(lia)).
  pose proof (Z.mod_pos_bound b (2 ^ 32) ltac:(lia)).
  apply eq_true_iff_eq. rewrite !andb_true_iff, !Z.eqb_eq. split; [lia|]. intros E.
  assert (value a = 0) by nia. lia.
Qed.

(** Reading a compact number back. *)
Lemma compact_roundtrip_lemma (a : arith_uint256) :
  wide WIDTH256 a ->
  exists c b, GetCompact a false = Some c /\ 0 <= c < 2 ^ 32 /\ SetCompact c = (b, false, false) /\
    wide WIDTH256 b /\ value b <= value a /\ 2 ^ 15 * (value a - value b) <= value b /\
    GetCompact b false = Some c.
Proof.
  intros Ha. pose proof (wide_range 8 a Ha) as Hr. change (modulus 8) with (256 ^ 32) in Hr.
  rewrite (GetCompact_spec a Ha). destruct (decide (value a = 0)) as [->|Hne].
  { exists 0, (base_uint_zero 8). repeat split; try done. apply words_replicate_0. }
  destruct (byte_length (value a) ltac:(lia)) as [Hs Hx]. set (s := (bit_length (value a) + 7) / 8) in *.
  assert (s <= 32) as Hs32.
  { apply Z.nlt_ge. intros Hlt. assert (256 ^ 32 <= 256 ^ (s - 1)) by (apply Z.pow_le_mono_r; lia). lia. }
  destruct (compact_of_spec (value a) s Hs Hx) as (k & m & e & Hk & Ec & Hm & He & Ev & Hq & Ei).
  pose proof (clear_bytes_bounds (value a) s k Hs Hx Hk) as Hcl.
  assert (0 <= compact_of (value a) < 2 ^ 32) as Hc by (rewrite Ec; lia).
  pose proof (SetCompact_spec _ Hc) as Hset. destruct (SetCompact _) as [[b neg] ovf] eqn:Eset.
  destruct Hset as (Hw & Hb & Hov & Hneg). rewrite Ev in Hb, Hov.
  change (2 ^ 256) with (256 ^ 32) in Hb, Hov. rewrite Z.mod_small in Hb by lia.
  assert (ovf = false) as -> by (destruct ovf; [lia|done]).
  assert (neg = false) as ->.
  { destruct neg; [|done]. destruct (proj1 Hneg eq_refl) as [Ht _]. rewrite Ec in Ht.
    destruct (compact_parts m e ltac:(lia) ltac:(lia)) as (_ & _ & Hf). by rewrite Hf in Ht. }
  exists (compact_of (value a)), b. split; [done|]. split; [done|]. split; [done|]. split; [done|].
  rewrite (GetCompact_spec b Hw), Hb, Ei. split; [lia|]. split; [|done].
  destruct Hq as [->|Hq]; [rewrite clear_bytes_0; lia|]. unfold clear_bytes.
  assert (0 < 256 ^ k) as Hp by (apply Z.pow_pos_nonneg; lia).
  pose proof (Z.div_mod (value a) (256 ^ k) ltac:(lia)). pose proof (Z.mod_pos_bound (value a) (256 ^ k) Hp). nia.
Qed.

(** C38: the operators of [base_uint], of any width and as loops over 32-bit
    words with carries, compute the arithmetic of integers modulo two to the
    number of bits: sum, difference, negation, products by a word and by
    another number, shifts, increments, comparison and number of bits.  The
    long division returns the quotient, and fails exactly when the divisor is
    zero.  Every result again has its words in range. *)
Theorem base_uint_correct (n : nat) (a b : list Z) (shift b32 : Z) :
  wide n a -> wide n b -> 0 <= shift -> word32 b32 ->
  (wide n (base_uint_add a b) /\ value (base_uint_add a b) = (value a + value b) mod modulus n) /\
  (wide n (base_uint_sub a b) /\ value (base_uint_sub a b) = (value a - value b) mod modulus n) /\
  (wide n (base_uint_neg a) /\ value (base_uint_neg a) = (- value a) mod modulus n) /\
  (wide n (base_uint_incr a) /\ value (base_uint_incr a) = (value a + 1) mod modulus n) /\
  (wide n (base_uint_decr a) /\ value (base_uint_decr a) = (value a - 1) mod modulus n) /\
  (wide n (base_uint_mul32 a b32) /\ value (base_uint_mul32 a b32) = (value a * b32) mod modulus n) /\
  (wide n (base_uint_mul n a b) /\ value (base_uint_mul n a b) = (value a * value b) mod modulus n) /\
  (wide n (base_uint_shl n a shift) /\ value (base_uint_shl n a shift) = (value a * 2 ^ shift) mod modulus n) /\
  (wide n (base_uint_shr n a shift) /\ value (base_uint_shr n a shift) = value a / 2 ^ shift) /\
  CompareTo n a b = match value a ?= value b with Lt => -1 | Eq => 0 | Gt => 1 end /\
  bits n a = bit_length (value a) /\
  match base_uint_div n a b with
  | None => value b = 0
  | Some q => value b <> 0 /\ wide n q /\ value q = value a / value b
  end.
Proof.
  intros Ha Hb Hs Hw.
  split; [by apply add_spec|]. split; [by apply sub_spec|]. split; [by apply neg_spec|].
  split; [by apply incr_spec|]. split; [by apply decr_spec|]. split; [by apply mul32_spec|].
  split; [by apply mul_spec|]. split; [by apply shl_spec|]. split; [by apply shr_spec|].
  split; [by apply CompareTo_spec|]. split; [by apply bits_spec|]. by apply div_spec.
Qed.

(** a 256-bit number survives the compact format up to its mantissa:
    [GetCompact] does not fail, [SetCompact] reads its result back without the
    flags for a negative number or an overflow, as a number that is not
    greater and misses at most one part in [2 ^ 15], and that has the same
    compact form again. *)
Theorem compact_roundtrip (a : arith_uint256) :
  wide WIDTH256 a ->
  exists c b, GetCompact a false = Some c /\ 0 <= c < 2 ^ 32 /\ SetCompact c = (b, false, false) /\
    wide WIDTH256 b /\ value b <= value a /\ 2 ^ 15 * (value a - value b) <= value b /\
    GetCompact b false = Some c.
Proof. apply compact_roundtrip_lemma. Qed.

(** ** Examples *)

Definition demo_wide : list Z := [0; 0; 0; 0; 0x12345678; 0x9abcdef0; 0x0000ffff; 0].
Definition demo_wide' : list Z := [0xffffffff; 7; 0; 0; 0; 0; 0; 0].

Definition wideb (n : nat) (a : list Z) : bool :=
  (length a =? n)%nat && forallb (fun w => (0 <=? w) && (w <? 2 ^ 32)) a.

Lemma wide_check n a : wideb n a = true -> wide n a.
Proof.
  unfold wideb. rewrite andb_true_iff, Nat.eqb_eq, forallb_forall. intros [Hl Hw]. split; [done|].
  apply Forall_forall. intros w Hin. specialize (Hw w (proj1 (list_elem_of_In _ _) Hin)).
  unfold word32. nav_bool. lia.
Qed.

Lemma base_uint_correct_witness :
  exists q, base_uint_div 8 demo_wide demo_wide' = Some q /\ value q = value demo_wide / value demo_wide'.
Proof.
  destruct (base_uint_correct 8 demo_wide demo_wide' 77 5) as (_ & _ & _ & _ & _ & _ & _ & _ & _ & _ & _ & H);
    [by apply wide_check; vm_compute; reflexivity|by apply wide_check; vm_compute; reflexivity|lia|unfold word32; lia|].
  destruct (base_uint_div 8 demo_wide demo_wide') as [q|].
  - destruct H as (_ & _ & H). exists q. split; [reflexivity|exact H].
  - vm_compute in H. discriminate H.
Defined.

Lemma compact_roundtrip_witness : exists c b, GetCompact demo_wide false = Some c /\
  SetCompact c = (b, false, false) /\ value b <= value demo_wide.
Proof.
  destruct (compact_roundtrip demo_wide) as (c & b & Hc & _ & Hb & _ & Hle & _).
  - apply wide_check. vm_compute. reflexivity.
  - exists c, b. repeat split; assumption.
Defined.
