(* ===== verification/Merkle.v ===== *)
(** * Merkle trees ([consensus/merkle.cpp])

    [MerkleComputation] computes root, branch and the flag for duplicated
    hashes in one pass over the leaves, with one hash per level.  The
    reference is the tree itself ([tree]): a node without a right child hashes
    its left child twice.

    The double SHA-256 of two concatenated hashes is a parameter. *)
From S2P Require Import Prelude Bytes.

Section merkle.
Context (Hash : uint256 -> uint256 -> uint256).

(** ** The code *)

(** [pbranch != NULL] and [branchpos]. *)
Context (fBranch : bool) (branchpos : Z).

(** What the loops change: [h], [matchh], [mutated] and [*pbranch]. *)
Record Merge := mkMerge {
  mg_h : uint256;
  mg_matchh : bool;
  mg_mutated : bool;
  mg_branch : list uint256
}.

(** [if (pbranch) ...] before two hashes are combined at [level]. *)
Definition note_sibling (inner : list uint256) (matchlevel : Z) (level : nat) (s : Merge) : Merge :=
  if fBranch then
    if mg_matchh s then mkMerge (mg_h s) true (mg_mutated s) (mg_branch s ++ [nth level inner 0])
    else if matchlevel =? Z.of_nat level then mkMerge (mg_h s) true (mg_mutated s) (mg_branch s ++ [mg_h s])
    else s
  else s.

(** [for (level = 0; !(count & (1 << level)); level++)]; [None] when the
    level leaves the array. *)
Fixpoint merge_loop (fuel : nat) (count : Z) (inner : list uint256) (matchlevel : Z) (level : nat) (s : Merge) :
    option (nat * Merge) :=
  if flag_set count (Z.shiftl 1 (Z.of_nat level)) then Some (level, s)
  else match fuel with
  | O => None
  | S fuel =>
    let s := note_sibling inner matchlevel level s in
    merge_loop fuel count inner matchlevel (S level)
      (mkMerge (Hash (nth level inner 0) (mg_h s)) (mg_matchh s)
         (mg_mutated s || (nth level inner 0 =? mg_h s)) (mg_branch s))
  end.

(** The state between leaves. *)
Record Fold := mkFold {
  fo_inner : list uint256;
  fo_matchlevel : Z;
  fo_mutated : bool;
  fo_branch : list uint256
}.

Definition add_leaf (s : Z * Fold) (leaf : uint256) : option (Z * Fold) :=
  let '(count, f) := s in
  let matchh := count =? branchpos in
  let count := u32 (count + 1) in
  do '(level, m) <- merge_loop 32 count (fo_inner f) (fo_matchlevel f) 0
    (mkMerge leaf matchh (fo_mutated f) (fo_branch f));
  Some (count, mkFold (<[level := mg_h m]> (fo_inner f))
    (if mg_matchh m then Z.of_nat level else fo_matchlevel f) (mg_mutated m) (mg_branch m)).

(** [while (!(count & (1 << level))) level++] *)
Fixpoint lowest_level (fuel : nat) (count : Z) (level : nat) : option nat :=
  if flag_set count (Z.shiftl 1 (Z.of_nat level)) then Some level
  else match fuel with O => None | S fuel => lowest_level fuel count (S level) end.

(** The inner loop of the sweep. *)
Fixpoint sweep_up (fuel : nat) (count : Z) (inner : list uint256) (matchlevel : Z) (level : nat) (s : Merge) :
    option (nat * Merge) :=
  if flag_set count (Z.shiftl 1 (Z.of_nat level)) then Some (level, s)
  else match fuel with
  | O => None
  | S fuel =>
    let s := note_sibling inner matchlevel level s in
    sweep_up fuel count inner matchlevel (S level)
      (mkMerge (Hash (nth level inner 0) (mg_h s)) (mg_matchh s) (mg_mutated s) (mg_branch s))
  end.

(** [while (count != (1 << level))] *)
Fixpoint sweep (fuel : nat) (count : Z) (inner : list uint256) (matchlevel : Z) (level : nat) (s : Merge) : option Merge :=
  if count =? u32 (Z.shiftl 1 (Z.of_nat level)) then Some s
  else match fuel with
  | O => None
  | S fuel =>
    let s := if fBranch && mg_matchh s
      then mkMerge (mg_h s) (mg_matchh s) (mg_mutated s) (mg_branch s ++ [mg_h s]) else s in
    let s := mkMerge (Hash (mg_h s) (mg_h s)) (mg_matchh s) (mg_mutated s) (mg_branch s) in
    let count := u32 (count + u32 (Z.shiftl 1 (Z.of_nat level))) in
    do '(level, s) <- sweep_up 32 count inner matchlevel (S level) s;
    sweep fuel count inner matchlevel level s
  end.

(** The root, [*pmutated] and [*pbranch]. *)
Definition MerkleComputation (leaves : list uint256) : option (uint256 * bool * list uint256) :=
  match leaves with
  | [] => Some (0, false, [])
  | _ =>
    do '(count, f) <- foldM add_leaf (0, mkFold (replicate 32 0) (-1) false []) leaves;
    do level <- lowest_level 32 count 0;
    do m <- sweep 32 count (fo_inner f) (fo_matchlevel f) level
      (mkMerge (nth level (fo_inner f) 0) (fo_matchlevel f =? Z.of_nat level) (fo_mutated f) (fo_branch f));
    Some (mg_h m, mg_mutated m, mg_branch m)
  end.
End merkle.

Section merkle_root.
Context (Hash : uint256 -> uint256 -> uint256).

Definition ComputeMerkleRoot (leaves : list uint256) : option (uint256 * bool) :=
  do '(root, mutated, _) <- MerkleComputation Hash false (u32 (-1)) leaves; Some (root, mutated).

Definition ComputeMerkleBranch (leaves : list uint256) (position : Z) : option (list uint256) :=
  do '(_, _, branch) <- MerkleComputation Hash true position leaves; Some branch.

Definition ComputeMerkleRootFromBranch (leaf : uint256) (vMerkleBranch : list uint256) (nIndex : Z) : uint256 :=
  (foldl (fun '(hash, nIndex) sibling =>
     (if flag_set nIndex 1 then Hash sibling hash else Hash hash sibling, Z.shiftr nIndex 1))
     (leaf, nIndex) vMerkleBranch).1.

(** The hashes of a transaction of the block. *)
Record TxHashes := mkTxHashes { tx_GetHash : uint256; tx_GetWitnessHash : uint256 }.

Definition BlockMerkleRoot (vtx : list TxHashes) : option (uint256 * bool) := ComputeMerkleRoot (map tx_GetHash vtx).

(** [None] when [leaves[0]] is out of range or [resize] gets [-1]. *)
Definition BlockWitnessMerkleRoot (vtx : list TxHashes) (fIgnoreCoinStake : bool) : option (uint256 * bool) :=
  let skipped := if fIgnoreCoinStake then 1%nat else 0%nat in
  if (length vtx <=? skipped)%nat then None
  else ComputeMerkleRoot (0 :: map tx_GetWitnessHash (drop (1 + skipped) vtx)).

Definition BlockMerkleBranch (vtx : list TxHashes) (position : Z) : option (list uint256) :=
  ComputeMerkleBranch (map tx_GetHash vtx) position.

(** ** The tree *)

(** The node of height [k] over a list of at most [2 ^ k] leaves. *)
Fixpoint tree (k : nat) (l : list uint256) : uint256 :=
  match k with
  | O => hd 0 l
  | S k =>
    let l' := tree k (take (2 ^ k) l) in
    match drop (2 ^ k) l with [] => Hash l' l' | (_ :: _) as r => Hash l' (tree k r) end
  end.

(** The siblings on the way from leaf [i] to the node, from below. *)
Fixpoint path (k : nat) (l : list uint256) (i : nat) : list uint256 :=
  match k with
  | O => []
  | S k =>
    if (i <? 2 ^ k)%nat then
      path k (take (2 ^ k) l) i ++
        [match drop (2 ^ k) l with [] => tree k (take (2 ^ k) l) | (_ :: _) as r => tree k r end]
    else path k (drop (2 ^ k) l) (i - 2 ^ k) ++ [tree k (take (2 ^ k) l)]
  end.

(** The tree level by level: neighbours are hashed together, the last one of an
    odd level with itself. *)
Fixpoint pair_up (l : list uint256) : list uint256 :=
  match l with
  | a :: b :: l => Hash a b :: pair_up l
  | [a] => [Hash a a]
  | [] => []
  end.

Fixpoint level_root (k : nat) (l : list uint256) : uint256 :=
  match k with O => hd 0 l | S k => level_root k (pair_up l) end.

(** Some complete node has two equal children. *)
Fixpoint duplicated (k : nat) (l : list uint256) : bool :=
  match k with
  | O => false
  | S k =>
    let left := take (2 ^ k) l in
    let right := drop (2 ^ k) l in
    ((length l =? 2 ^ S k)%nat && (tree k left =? tree k right)) || duplicated k left || duplicated k right
  end.

(** The height of the tree over [n] leaves. *)
Definition height (n : nat) : nat := Nat.log2_up n.
End merkle_root.

(** ** Facts about the tree *)

Section tree_facts.
Context (Hash : uint256 -> uint256 -> uint256).
Implicit Types (b r q p : list uint256).

Lemma split_full k b r :
  length b = (2 ^ k)%nat -> take (2 ^ k) (b ++ r) = b /\ drop (2 ^ k) (b ++ r) = r.
Proof. intros <-. by rewrite take_app_length, drop_app_length. Qed.

Lemma split_half k r : (length r <= 2 ^ k)%nat -> take (2 ^ k) r = r /\ drop (2 ^ k) r = [].
Proof. intros H. by rewrite take_ge, drop_ge. Qed.

Lemma tree_full k b r :
  length b = (2 ^ k)%nat -> r <> [] -> tree Hash (S k) (b ++ r) = Hash (tree Hash k b) (tree Hash k r).
Proof. intros Hb Hr. cbn [tree]. destruct (split_full k b r Hb) as [-> ->]. by destruct r. Qed.

Lemma tree_half k r :
  (length r <= 2 ^ k)%nat -> tree Hash (S k) r = Hash (tree Hash k r) (tree Hash k r).
Proof. intros Hr. cbn [tree]. by destruct (split_half k r Hr) as [-> ->]. Qed.

Lemma path_left k b r i :
  length b = (2 ^ k)%nat -> r <> [] -> (i < 2 ^ k)%nat ->
  path Hash (S k) (b ++ r) i = path Hash k b i ++ [tree Hash k r].
Proof.
  intros Hb Hr Hi. cbn [path]. destruct (split_full k b r Hb) as [-> ->].
  rewrite (proj2 (Nat.ltb_lt _ _) Hi). by destruct r.
Qed.

Lemma path_right k b r i :
  length b = (2 ^ k)%nat -> path Hash (S k) (b ++ r) (2 ^ k + i) = path Hash k r i ++ [tree Hash k b].
Proof.
  intros Hb. cbn [path]. destruct (split_full k b r Hb) as [-> ->].
  rewrite (proj2 (Nat.ltb_ge _ _)) by lia. by replace (2 ^ k + i - 2 ^ k)%nat with i by lia.
Qed.

Lemma path_half k r i :
  (length r <= 2 ^ k)%nat -> (i < length r)%nat -> path Hash (S k) r i = path Hash k r i ++ [tree Hash k r].
Proof.
  intros Hr Hi. cbn [path]. destruct (split_half k r Hr) as [-> ->]. by rewrite (proj2 (Nat.ltb_lt _ _)) by lia.
Qed.

Lemma duplicated_nil k : duplicated Hash k [] = false.
Proof.
  induction k as [|k IH]; [done|]. cbn [duplicated]. rewrite take_nil, drop_nil, IH. cbn [length].
  rewrite (proj2 (Nat.eqb_neq 0 (2 ^ S k))); [done|]. pose proof (Nat.pow_nonzero 2 (S k)). lia.
Qed.

Lemma duplicated_full k b r :
  length b = (2 ^ k)%nat ->
  duplicated Hash (S k) (b ++ r) =
    ((length r =? 2 ^ k)%nat && (tree Hash k b =? tree Hash k r)) || duplicated Hash k b || duplicated Hash k r.
Proof.
  intros Hb. cbn [duplicated]. destruct (split_full k b r Hb) as [-> ->]. do 3 f_equal.
  rewrite length_app, Hb. apply eq_true_iff_eq. rewrite !Nat.eqb_eq. cbn [Nat.pow]. lia.
Qed.

Lemma duplicated_half k r :
  (length r <= 2 ^ k)%nat -> duplicated Hash (S k) r = duplicated Hash k r.
Proof.
  intros Hr. cbn [duplicated]. destruct (split_half k r Hr) as [-> ->]. rewrite duplicated_nil, orb_false_r.
  rewrite (proj2 (Nat.eqb_neq _ _)); [done|]. cbn [Nat.pow]. pose proof (Nat.pow_nonzero 2 k). lia.
Qed.

(** ** Level by level *)

Lemma list_ind2 (P : list uint256 -> Prop) :
  P [] -> (forall x, P [x]) -> (forall x y l, P l -> P (x :: y :: l)) -> forall l, P l.
Proof.
  intros H0 H1 H2 l. enough (P l /\ forall x, P (x :: l)) by tauto. induction l as [|x l [IH1 IH2]]; auto.
Qed.

Lemma pair_up_app b r : Nat.Even (length b) -> pair_up Hash (b ++ r) = pair_up Hash b ++ pair_up Hash r.
Proof.
  induction b as [|x|x y b IH] using list_ind2; intros Hev; [done| |].
  - destruct Hev as [m Hm]. cbn in Hm. lia.
  - cbn [app pair_up]. f_equal. apply IH. destruct Hev as [m Hm]. exists (m - 1)%nat. cbn [length] in Hm. lia.
Qed.

Lemma pair_up_length l : (2 * length (pair_up Hash l) = length l + length l mod 2)%nat.
Proof.
  induction l as [|x|x y l IH] using list_ind2; [done|done|]. cbn [pair_up length].
  replace (S (S (length l)) mod 2)%nat with (length l mod 2)%nat; [lia|].
  replace (S (S (length l))) with (length l + 1 * 2)%nat by lia. by rewrite Nat.Div0.mod_add.
Qed.

Lemma pow_even k : Nat.Even (2 ^ S k).
Proof. exists (2 ^ k)%nat. done. Qed.

Lemma pair_up_full k b : length b = (2 ^ S k)%nat -> length (pair_up Hash b) = (2 ^ k)%nat.
Proof.
  intros Hb. pose proof (pair_up_length b) as E. rewrite Hb in E.
  replace (2 ^ S k mod 2)%nat with 0%nat in E; [cbn [Nat.pow] in E; lia|].
  cbn [Nat.pow]. rewrite Nat.mul_comm. by rewrite Nat.Div0.mod_mul.
Qed.

Lemma pair_up_nonempty r : r <> [] -> pair_up Hash r <> [].
Proof. by destruct r as [|x [|y r]]. Qed.

Lemma tree_pair_up k l :
  (0 < length l <= 2 ^ S k)%nat -> tree Hash (S k) l = tree Hash k (pair_up Hash l).
Proof.
  revert l; induction k as [|k IH]; intros l Hl.
  { destruct l as [|x [|y [|]]]; cbn in *; [lia|done|done|lia]. }
  destruct (decide (length l <= 2 ^ S k)%nat) as [Hle|Hgt].
  - rewrite tree_half, IH by lia. symmetry. apply tree_half.
    pose proof (pair_up_length l). pose proof (Nat.mod_upper_bound (length l) 2).
    destruct (decide (length l = 2 ^ S k)%nat) as [E|E]; [rewrite (pair_up_full k l E); done|].
    cbn [Nat.pow] in *. lia.
  - rewrite <- (take_drop (2 ^ S k) l). assert (length (take (2 ^ S k) l) = (2 ^ S k)%nat) as Hb by (rewrite length_take; lia).
    assert (0 < length (drop (2 ^ S k) l) <= 2 ^ S k)%nat as Hr by (rewrite length_drop; cbn [Nat.pow] in *; lia).
    assert (drop (2 ^ S k) l <> []) as Hne by (intros E; rewrite E in Hr; cbn in Hr; lia).
    revert Hb Hr Hne. generalize (take (2 ^ S k) l) (drop (2 ^ S k) l). intros b r Hb Hr Hne.
    rewrite tree_full, pair_up_app by (try done; rewrite Hb; apply pow_even).
    rewrite tree_full by (by apply pair_up_full || by apply pair_up_nonempty).
    by rewrite (IH b) by lia; rewrite (IH r).
Qed.

Lemma tree_levels k l : (0 < length l <= 2 ^ k)%nat -> tree Hash k l = level_root Hash k l.
Proof.
  revert l; induction k as [|k IH]; intros l Hl; [done|]. rewrite tree_pair_up by done. apply IH.
  pose proof (pair_up_length l). pose proof (Nat.mod_upper_bound (length l) 2). cbn [Nat.pow] in *.
  assert (length l mod 2 = 0 \/ length l mod 2 = 1)%nat as [E|E] by lia; [lia|].
  assert (length l <> 2 * 2 ^ k)%nat; [|lia]. intros E'. rewrite E', Nat.mul_comm, Nat.Div0.mod_mul in E. done.
Qed.

(** ** From a leaf and its path to the root *)

Lemma path_root k l i x c :
  (length l <= 2 ^ k)%nat -> l !! i = Some x -> 0 <= c ->
  foldl (fun '(hash, nIndex) sibling =>
     (if flag_set nIndex 1 then Hash sibling hash else Hash hash sibling, Z.shiftr nIndex 1))
     (x, 2 ^ Z.of_nat k * c + Z.of_nat i) (path Hash k l i) = (tree Hash k l, c).
Proof.
  assert (forall z, 0 <= z -> flag_set (2 * z) 1 = false /\ flag_set (2 * z + 1) 1 = true /\
    Z.shiftr (2 * z) 1 = z /\ Z.shiftr (2 * z + 1) 1 = z) as Hbit.
  { intros z Hz. change 1 with (Z.shiftl 1 0). rewrite !flag_testbit by lia. rewrite Z.testbit_even_0, Z.testbit_odd_0.
    change (Z.shiftl 1 0) with 1. rewrite !Z.shiftr_div_pow2 by lia. repeat split; change (2 ^ 1) with 2.
    - rewrite Z.mul_comm. by apply Z.div_mul.
    - symmetry. apply (Z.div_unique _ _ _ 1); lia. }
  revert l i c; induction k as [|k IH]; intros l i c Hl Hi Hc.
  { destruct l as [|y [|]]; cbn in Hl; [done| |lia]. destruct i; [|done]. cbn in *. simplify_eq. f_equal. lia. }
  assert (i < length l)%nat as Hlt by (by apply lookup_lt_Some in Hi).
  replace (2 ^ Z.of_nat (S k)) with (2 * 2 ^ Z.of_nat k) by (rewrite Nat2Z.inj_succ, Z.pow_succ_r; lia).
  destruct (Hbit c Hc) as (B0 & B1 & S0 & S1). cbn [path].
  destruct (Nat.ltb_spec i (2 ^ k)) as [Hik|Hik]; rewrite foldl_app.
  - replace (2 * 2 ^ Z.of_nat k * c + Z.of_nat i) with (2 ^ Z.of_nat k * (2 * c) + Z.of_nat i) by ring.
    rewrite IH; [|rewrite length_take; lia|by rewrite lookup_take_lt|lia]. cbn [foldl]. rewrite B0, S0. cbn [tree].
    by destruct (drop (2 ^ k) l).
  - replace (2 * 2 ^ Z.of_nat k * c + Z.of_nat i) with (2 ^ Z.of_nat k * (2 * c + 1) + Z.of_nat (i - 2 ^ k)).
    2:{ rewrite Nat2Z.inj_sub, Nat2Z.inj_pow by lia. change (Z.of_nat 2) with 2. ring. }
    rewrite IH; [|rewrite length_drop; cbn [Nat.pow] in Hl; lia|rewrite lookup_drop; by replace (2 ^ k + (i - 2 ^ k))%nat with i by lia|lia].
    cbn [foldl]. rewrite B1, S1. cbn [tree]. destruct (drop (2 ^ k) l) as [|y r] eqn:E; [|done].
    apply (f_equal length) in E. rewrite length_drop in E. cbn in E. lia.
Qed.

Lemma path_length k l i : length (path Hash k l i) = k.
Proof.
  revert l i; induction k as [|k IH]; intros l i; [done|]. cbn [path].
  destruct (i <? 2 ^ k)%nat; rewrite length_app, IH; cbn; lia.
Qed.

(** ** Trees of the same root *)

Context (Hinj : forall x1 x2 y1 y2, Hash x1 x2 = Hash y1 y2 -> x1 = y1 /\ x2 = y2).

(** Two lists of leaves with the same node of the same height, without equal
    children of a complete node, are the same list. *)
Lemma tree_inj k l1 l2 :
  (0 < length l1 <= 2 ^ k)%nat -> (0 < length l2 <= 2 ^ k)%nat ->
  duplicated Hash k l1 = false -> duplicated Hash k l2 = false ->
  tree Hash k l1 = tree Hash k l2 -> l1 = l2.
Proof.
  assert (forall n r, (0 < length r <= 2 ^ S n)%nat ->
    exists b c, r = b ++ c /\ (0 < length b <= 2 ^ n)%nat /\ (length c <= 2 ^ n)%nat /\
      (length b < 2 ^ n -> c = [])%nat) as Hsplit.
  { intros n r Hr. exists (take (2 ^ n) r), (drop (2 ^ n) r). rewrite take_drop, length_take, length_drop.
    cbn [Nat.pow] in Hr. pose proof (Nat.pow_nonzero 2 n). split; [done|]. split; [lia|]. split; [lia|].
    intros Hlt. apply drop_ge. lia. }
  revert l1 l2; induction k as [|k IH]; intros l1 l2 H1 H2 D1 D2 E.
  { cbn in *. destruct l1 as [|x [|]], l2 as [|y [|]]; cbn in *; try lia. by subst. }
  destruct (Hsplit k l1 H1) as (b1 & c1 & -> & Hb1 & Hc1 & Hf1).
  destruct (Hsplit k l2 H2) as (b2 & c2 & -> & Hb2 & Hc2 & Hf2).
  assert (forall b c, (0 < length b <= 2 ^ k)%nat -> (length c <= 2 ^ k)%nat -> (length b < 2 ^ k -> c = [])%nat ->
    duplicated Hash (S k) (b ++ c) = false ->
    duplicated Hash k b = false /\ duplicated Hash k c = false /\
    ((c = [] /\ tree Hash (S k) (b ++ c) = Hash (tree Hash k b) (tree Hash k b)) \/
     (c <> [] /\ length b = (2 ^ k)%nat /\ tree Hash (S k) (b ++ c) = Hash (tree Hash k b) (tree Hash k c) /\ b <> c))) as Hcase.
  { intros b c Hb Hc Hf D. destruct (decide (c = [])) as [->|Hne].
    - rewrite app_nil_r in *. rewrite duplicated_half in D by lia. rewrite duplicated_nil, tree_half by lia. auto.
    - assert (length b = (2 ^ k)%nat) as Hlb by (destruct (decide (length b < 2 ^ k)%nat); [by apply Hf in l|lia]).
      rewrite duplicated_full in D by done. apply orb_false_iff in D as [D Dc]. apply orb_false_iff in D as [D Db].
      split; [done|]. split; [done|]. right. rewrite tree_full by done. repeat split; try done.
      intros ->. rewrite Hlb, Nat.eqb_refl, Z.eqb_refl in D. done. }
  destruct (Hcase b1 c1 Hb1 Hc1 Hf1 D1) as (Db1 & Dc1 & [[-> T1]|(N1 & L1 & T1 & X1)]);
    destruct (Hcase b2 c2 Hb2 Hc2 Hf2 D2) as (Db2 & Dc2 & [[-> T2]|(N2 & L2 & T2 & X2)]);
    rewrite T1, T2 in E; apply Hinj in E as [E1 E2].
  - f_equal. by apply IH.
  - exfalso. apply X2. apply IH; [lia| |done|done|congruence]. destruct c2; [done|cbn in *; lia].
  - exfalso. apply X1. apply IH; [lia| |done|done|congruence]. destruct c1; [done|cbn in *; lia].
  - assert (forall c : list Z, c <> [] -> (0 < length c)%nat) as Hpos by (intros []; cbn; [done|lia]).
    f_equal; [by apply IH|]. apply IH; auto.
Qed.

(** Leaves are not nodes, so the heights agree. *)
Lemma tree_height k1 k2 l1 l2 :
  l1 <> [] -> l2 <> [] -> (forall x y z, x ∈ l1 ++ l2 -> x <> Hash y z) ->
  tree Hash k1 l1 = tree Hash k2 l2 -> k1 = k2.
Proof.
  assert (forall k l, exists y, tree Hash (S k) l = Hash (tree Hash k (take (2 ^ k) l)) y) as Hnode.
  { intros k l. cbn [tree]. destruct (drop (2 ^ k) l); by eexists. }
  assert (forall k (l : list Z), l <> [] -> take (2 ^ k) l <> []) as Htake.
  { intros k l Hl E. apply Hl. apply length_zero_iff_nil. apply (f_equal length) in E. rewrite length_take in E.
    pose proof (Nat.pow_nonzero 2 k). cbn in E. lia. }
  revert k2 l1 l2; induction k1 as [|k1 IH]; intros [|k2] l1 l2 N1 N2 Hleaf E; [done| | |].
  - exfalso. destruct (Hnode k2 l2) as [y Hb]. rewrite Hb in E. destruct l1 as [|x l1]; [done|].
    apply (Hleaf x _ y) in E; [done|]. left.
  - exfalso. destruct (Hnode k1 l1) as [y Hb]. rewrite Hb in E. destruct l2 as [|x l2]; [done|].
    symmetry in E. apply (Hleaf x _ y) in E; [done|]. apply elem_of_app. right. left.
  - f_equal. destruct (Hnode k1 l1) as [y1 E1], (Hnode k2 l2) as [y2 E2].
    rewrite E1, E2 in E. apply Hinj in E as [E _]. apply (IH k2 _ _ (Htake k1 l1 N1) (Htake k2 l2 N2)); [|done].
    intros x y z Hx. apply Hleaf. rewrite elem_of_app in Hx |- *.
    destruct Hx as [Hx|Hx]; apply elem_of_take in Hx as (i & Hi & _); apply list_elem_of_lookup_2 in Hi; auto.
Qed.
End tree_facts.

(** ** The forest of complete trees the array holds *)

Section forest.
Context (Hash : uint256 -> uint256 -> uint256) (fBranch : bool) (branchpos : Z).
Implicit Types (inner br : list uint256) (ml : Z) (j k : nat) (b r q p : list uint256).

(** The searched leaf is one of [b], which comes after the leaves [q]. *)
Definition inside q b : Prop := Z.of_nat (length q) <= branchpos < Z.of_nat (length q + length b).

Definition offset q : nat := Z.to_nat branchpos - length q.

(** [matchlevel] is the level of the tree with the searched leaf, and the
    branch so far leads to its root. *)
Definition located ml br j q b : Prop :=
  fBranch = true ->
  (inside q b -> ml = Z.of_nat j /\ br = path Hash j b (offset q)) /\ (~ inside q b -> ml <> Z.of_nat j).

(** The trees of height [j] and more over the leaves [p], one for each bit of
    their number; [mu] tells whether one of them has equal children. *)
Inductive forest inner ml br : nat -> list uint256 -> bool -> Prop :=
  | forest_nil j : (fBranch = true -> ml < Z.of_nat j) -> forest inner ml br j [] false
  | forest_odd j q b mu t :
      length b = (2 ^ j)%nat -> length q = (t * 2 ^ S j)%nat -> nth j inner 0 = tree Hash j b ->
      located ml br j q b -> forest inner ml br (S j) q mu ->
      forest inner ml br j (q ++ b) (duplicated Hash j b || mu)
  | forest_even j q mu t :
      q <> [] -> length q = (t * 2 ^ S j)%nat -> (fBranch = true -> ml <> Z.of_nat j) ->
      forest inner ml br (S j) q mu -> forest inner ml br j q mu.

(** A change that keeps the trees. *)
Lemma forest_change inner ml br inner' ml' br' j p mu :
  forest inner ml br j p mu ->
  (forall i, (j <= i)%nat -> nth i inner' 0 = nth i inner 0) ->
  (fBranch = true -> branchpos < Z.of_nat (length p) -> ml' = ml /\ br' = br) ->
  (fBranch = true -> Z.of_nat (length p) <= branchpos -> ml' < Z.of_nat j \/ ml' = ml) ->
  forest inner' ml' br' j p mu.
Proof.
  intros Hf. induction Hf as [j Hn|j q b mu t Hb Hq Hi Hloc Hf IH|j q mu t Hq Ht Hml Hf IH]; intros Hin H1 H2.
  - constructor. intros Hfb. specialize (Hn Hfb). specialize (H1 Hfb). specialize (H2 Hfb). cbn in *. lia.
  - rewrite length_app in *. pose proof (Nat.pow_nonzero 2 j ltac:(lia)).
    apply (forest_odd _ _ _ _ _ _ _ t); [done|done|rewrite Hin by lia; done| |].
    + intros Hfb. specialize (H1 Hfb). specialize (H2 Hfb). destruct (Hloc Hfb) as [L1 L2]. unfold inside in *. split.
      * intros Hp. destruct (H1 ltac:(lia)) as [-> ->]. by apply L1.
      * intros Hp. destruct (Z.lt_ge_cases branchpos (Z.of_nat (length q + length b))) as [Hlt|Hge].
        -- destruct (H1 Hlt) as [-> _]. by apply L2.
        -- destruct (H2 Hge) as [?| ->]; [lia|by apply L2].
    + apply IH.
      * intros i Hi'. apply Hin. lia.
      * intros Hfb Hlt. apply H1; [done|lia].
      * intros Hfb Hge. destruct (Z.lt_ge_cases branchpos (Z.of_nat (length q + length b))) as [Hlt|Hge'].
        -- destruct (H1 Hfb Hlt) as [-> _]. by right.
        -- destruct (H2 Hfb Hge'); [left; lia|by right].
  - apply (forest_even _ _ _ _ _ _ t); [done|done| |].
    + intros Hfb. specialize (Hml Hfb). specialize (H1 Hfb). specialize (H2 Hfb).
      destruct (Z.lt_ge_cases branchpos (Z.of_nat (length q))) as [Hlt|Hge].
      * destruct (H1 Hlt) as [-> _]. done.
      * destruct (H2 Hge) as [?| ->]; [lia|done].
    + apply IH; [intros i Hi'; apply Hin; lia|done|].
      intros Hfb Hge. destruct (H2 Hfb Hge); [left; lia|by right].
Qed.

Lemma pow_nat k : Z.of_nat (2 ^ k) = 2 ^ Z.of_nat k.
Proof. by rewrite Nat2Z.inj_pow. Qed.

(** The bit of the number of leaves tells which case holds. *)
Lemma bit_even t k : flag_set (Z.of_nat (t * 2 ^ S k)) (Z.shiftl 1 (Z.of_nat k)) = false.
Proof.
  rewrite flag_testbit by lia. rewrite Nat2Z.inj_mul, pow_nat. apply Z.mul_pow2_bits_low. lia.
Qed.

Lemma bit_odd t k : flag_set (Z.of_nat (t * 2 ^ S k + 2 ^ k)) (Z.shiftl 1 (Z.of_nat k)) = true.
Proof.
  rewrite flag_testbit, Nat2Z.inj_add, Nat2Z.inj_mul, !pow_nat by lia.
  replace (Z.of_nat t * 2 ^ Z.of_nat (S k) + 2 ^ Z.of_nat k) with ((2 * Z.of_nat t + 1) * 2 ^ Z.of_nat k)
    by (rewrite Nat2Z.inj_succ, Z.pow_succ_r by lia; ring).
  rewrite Z.mul_pow2_bits, Z.sub_diag by lia. apply Z.testbit_odd_0.
Qed.

(** Which tree the current hash is the root of: [r], after [p]. *)
Definition match_ok br k p r (s : Merge) : Prop :=
  fBranch = true ->
  (mg_matchh s = true /\ inside p r /\ mg_branch s = path Hash k r (offset p)) \/
  (mg_matchh s = false /\ ~ inside p r /\ mg_branch s = br).

Lemma inside_app q b r : inside q (b ++ r) <-> inside q b \/ inside (q ++ b) r.
Proof. unfold inside. rewrite !length_app. lia. Qed.

(** Recording the sibling when the tree [b] is joined with what follows. *)
Lemma note_sibling_ok inner ml br k q b r s :
  length b = (2 ^ k)%nat -> r <> [] -> nth k inner 0 = tree Hash k b -> located ml br k q b ->
  match_ok br k (q ++ b) r s -> mg_h s = tree Hash k r ->
  let s' := note_sibling fBranch inner ml k s in
  mg_h s' = mg_h s /\ mg_mutated s' = mg_mutated s /\
  (fBranch = true ->
    (mg_matchh s' = true /\ inside q (b ++ r) /\ mg_branch s' = path Hash (S k) (b ++ r) (offset q)) \/
    (mg_matchh s' = false /\ ~ inside q (b ++ r) /\ mg_branch s' = br)).
Proof.
  intros Hb Hr Hi Hloc Hm Hh s'. unfold s', note_sibling. destruct fBranch eqn:Ef; [|done].
  destruct (Hloc Ef) as [L1 L2]. destruct (Hm Ef) as [(E1 & E2 & E3)|(E1 & E2 & E3)]; rewrite E1.
  - split; [done|]. split; [done|]. intros _. left. cbn [mg_matchh mg_branch]. split; [done|].
    split; [apply inside_app; by right|]. rewrite E3, Hi.
    replace (offset q) with (2 ^ k + offset (q ++ b))%nat; [by rewrite path_right|].
    unfold offset, inside in *. rewrite length_app, Hb in *. lia.
  - destruct (Z.eqb_spec ml (Z.of_nat k)) as [Eml|Nml]; (split; [done|]); (split; [done|]); intros _.
    + assert (inside q b) as Hin.
      { destruct (decide (Z.of_nat (length q) <= branchpos < Z.of_nat (length q + length b))); [done|].
        by destruct (L2 n). }
      left. cbn [mg_matchh mg_branch]. split; [done|]. split; [apply inside_app; by left|].
      rewrite E3, Hh, path_left; [by destruct (L1 Hin) as [_ ->]|done|done|].
      unfold inside, offset in *. lia.
    + right. split; [done|]. split; [|done]. rewrite inside_app. intros [Hin|Hin]; [|done]. by destruct (L1 Hin).
Qed.

(** ** The first pass *)

(** What the loop leaves: a forest over [p ++ b], and the branch located when
    the wanted leaf is among them. *)
Definition merged fuel inner ml br k p b s : Prop :=
  exists L s', merge_loop Hash fBranch fuel (Z.of_nat (length p + length b)) inner ml k s = Some (L, s') /\
    (k <= L)%nat /\
    (fBranch = true -> if mg_matchh s' then branchpos < Z.of_nat (length p + length b)
                       else ~ inside p b /\ mg_branch s' = br) /\
    let ml' := if mg_matchh s' then Z.of_nat L else ml in
    forest (<[L := mg_h s']> inner) ml' (mg_branch s') k (p ++ b) (mg_mutated s').

(** No tree of height [k] is stored: the tree [b] is. *)
Lemma merge_store fuel inner ml br k p b mu s t :
  forest inner ml br (S k) p mu -> length p = (t * 2 ^ S k)%nat -> (fBranch = true -> ml <> Z.of_nat k) ->
  length b = (2 ^ k)%nat -> (k < length inner)%nat ->
  mg_h s = tree Hash k b -> match_ok br k p b s -> mg_mutated s = duplicated Hash k b || mu ->
  merged (S fuel) inner ml br k p b s.
Proof.
  intros Hq Ht Hml Hb Hlen Hh Hm Hmu. exists k, s. cbn [merge_loop]. rewrite Ht, Hb, bit_odd. split; [done|].
  split; [done|]. split; [intros Hfb; destruct (Hm Hfb) as [(-> & E & _)|(-> & E2)]; [unfold inside in E; rewrite Ht, Hb in E; apply E|done]|].
  cbn zeta. rewrite Hmu.
  apply (forest_odd _ _ _ _ _ _ _ t); [done|done| | |].
  - rewrite nth_lookup, list_lookup_insert_eq by lia. done.
  - intros Hfb. destruct (Hm Hfb) as [(E1 & E2 & E3)|(E1 & E2 & E3)]; rewrite E1; split; try done.
    intros _. by apply Hml.
  - eapply forest_change; [exact Hq| | |].
    + intros i Hi. rewrite !nth_lookup, list_lookup_insert_ne by lia. done.
    + intros Hfb Hlt. destruct (Hm Hfb) as [(E1 & E2 & E3)|(E1 & E2 & E3)]; rewrite E1; [unfold inside in E2; lia|done].
    + intros Hfb Hge. destruct (mg_matchh s); [left; lia|by right].
Qed.

(** [h] is the root of a complete tree [b] after the leaves [p]; the loop joins
    it with the trees of its own height and stores the result. *)
Lemma merge_loop_spec fuel inner ml br k p b mu s :
  forest inner ml br k p mu -> length b = (2 ^ k)%nat ->
  (length inner = 32)%nat -> (fuel + k = 32)%nat -> (length p + length b < 2 ^ 32)%nat ->
  mg_h s = tree Hash k b -> match_ok br k p b s -> mg_mutated s = duplicated Hash k b || mu ->
  merged fuel inner ml br k p b s.
Proof.
  revert k p b mu s; induction fuel as [|fuel IH]; intros k p b mu s Hf Hb Hlen Hfuel Hsz Hh Hm Hmu.
  { exfalso. rewrite Hb in Hsz. replace k with 32%nat in Hsz by lia. lia. }
  inversion Hf as [j Hn|j q b' mu' t Hb' Hq Hi Hloc Hf'|j q mu' t Hq Ht Hml Hf']; subst.
  - apply (merge_store _ _ _ _ _ _ _ false _ 0); [constructor; intros Hfb; specialize (Hn Hfb); lia|done|intros Hfb; specialize (Hn Hfb); lia|done|lia|done|done|done].
  - assert (b <> []) as Hne.
    { intros ->. cbn in Hb. pose proof (Nat.pow_nonzero 2 k). lia. }
    destruct (note_sibling_ok inner ml br k q b' b s Hb' Hne Hi Hloc Hm Hh) as (N1 & N2 & N3).
    set (s1 := note_sibling fBranch inner ml k s) in *.
    set (s2 := mkMerge (Hash (nth k inner 0) (mg_h s1)) (mg_matchh s1)
      (mg_mutated s1 || (nth k inner 0 =? mg_h s1)) (mg_branch s1)).
    assert (length (b' ++ b) = (2 ^ S k)%nat) as Hbb by (rewrite length_app; cbn [Nat.pow]; lia).
    assert (length (q ++ b') + length b = length q + length (b' ++ b))%nat as Hcnt by (rewrite !length_app; lia).
    destruct (IH (S k) q (b' ++ b) mu' s2) as (L & s' & Hloop & HL & Hout & Hfor); [done|done|done|lia|lia| | | |].
    { unfold s2; cbn [mg_h]. rewrite N1, Hh, Hi. symmetry. by apply tree_full. }
    { intros Hfb. exact (N3 Hfb). }
    { unfold s2; cbn [mg_mutated]. rewrite N1, N2, Hmu, Hh, Hi, duplicated_full, Hb, Nat.eqb_refl by done. cbn [andb].
      destruct (duplicated Hash k b), (duplicated Hash k b'), mu', (tree Hash k b' =? tree Hash k b); done. }
    exists L, s'. cbn [merge_loop]. rewrite Hcnt, length_app, Hb', Hb.
    replace (2 ^ k + 2 ^ k)%nat with (1 * 2 ^ S k)%nat by (cbn [Nat.pow]; lia).
    rewrite Hq, <- Nat.mul_add_distr_r, bit_even. fold s1 s2.
    rewrite Hq, Hbb in Hloop. replace ((t + 1) * 2 ^ S k)%nat with (t * 2 ^ S k + 2 ^ S k)%nat by lia.
    split; [done|]. split; [lia|]. cbn zeta in *.
    split; [intros Hfb; specialize (Hout Hfb); destruct (mg_matchh s'); [rewrite Hq, Hbb in Hout; lia|];
            destruct Hout as [Hout Hbr]; split; [intros Hin; apply Hout, inside_app; by right|done]|].
    rewrite <- app_assoc. apply (forest_even _ _ _ _ _ _ (t + 1)).
    + destruct b'; [cbn in Hb'; pose proof (Nat.pow_nonzero 2 k); lia|]. by destruct q.
    + rewrite length_app. lia.
    + intros Hfb. destruct (mg_matchh s') eqn:Em; [lia|]. destruct (Hloc Hfb) as [_ L2]. apply L2.
      intros Hin. destruct (Hout Hfb) as [Hout' _]. apply Hout', inside_app. by left.
    + done.
  - apply (merge_store _ _ _ _ _ _ _ mu _ t); done || lia.
Qed.

(** What holds between two leaves. *)
Record fold_ok (p : list uint256) (s : Z * Fold) : Prop := {
  fk_count : s.1 = Z.of_nat (length p);
  fk_inner : (length (fo_inner s.2) = 32)%nat;
  fk_forest : forest (fo_inner s.2) (fo_matchlevel s.2) (fo_branch s.2) 0 p (fo_mutated s.2);
  fk_branch : fBranch = true -> Z.of_nat (length p) <= branchpos -> fo_branch s.2 = []
}.

Lemma pow32_nat n : (n < 2 ^ 32)%nat -> Z.of_nat n < 2 ^ 32.
Proof. intros H. apply Nat2Z.inj_lt in H. by rewrite pow_nat in H. Qed.

Lemma add_leaf_spec p s x :
  fold_ok p s -> (length p + 1 < 2 ^ 32)%nat ->
  exists s', add_leaf Hash fBranch branchpos s x = Some s' /\ fold_ok (p ++ [x]) s'.
Proof.
  intros [Hc Hi Hf Hbr] Hsz. destruct s as [count f]. cbn [fst snd] in *. unfold add_leaf. subst count.
  rewrite u32_small by (pose proof (pow32_nat _ Hsz); lia).
  set (m := mkMerge x (Z.of_nat (length p) =? branchpos) (fo_mutated f) (fo_branch f)).
  destruct (merge_loop_spec 32 (fo_inner f) (fo_matchlevel f) (fo_branch f) 0 p [x] (fo_mutated f) m)
    as (L & s' & Hloop & _ & Hout & Hfor);
    [exact Hf|reflexivity|exact Hi|reflexivity|exact Hsz|reflexivity| |reflexivity|].
  { intros Hfb. unfold m; cbn [mg_matchh mg_branch]. unfold inside; cbn [length].
    destruct (Z.eqb_spec (Z.of_nat (length p)) branchpos) as [E|E]; [left|right].
    - split; [done|]. split; [lia|]. cbn. apply Hbr; [done|lia].
    - split; [done|]. split; [lia|done]. }
  cbn [length] in Hloop, Hout. replace (Z.of_nat (length p) + 1) with (Z.of_nat (length p + 1)) by lia. rewrite Hloop.
  cbn [mbind option_bind]. eexists. split; [reflexivity|]. split; cbn [fst snd fo_inner fo_matchlevel fo_mutated fo_branch].
  - rewrite length_app. cbn. lia.
  - by rewrite length_insert.
  - done.
  - intros Hfb Hge. specialize (Hout Hfb). rewrite length_app in Hge; cbn [length] in Hge.
    destruct (mg_matchh s'); [lia|]. destruct Hout as [_ ->]. apply Hbr; [done|lia].
Qed.

Lemma add_leaves_spec l p s :
  fold_ok p s -> (length p + length l < 2 ^ 32)%nat ->
  exists s', foldM (add_leaf Hash fBranch branchpos) s l = Some s' /\ fold_ok (p ++ l) s'.
Proof.
  revert p s; induction l as [|x l IH]; intros p s Hok Hsz; cbn [foldM].
  { exists s. by rewrite app_nil_r. }
  cbn [length] in Hsz. destruct (add_leaf_spec p s x Hok ltac:(lia)) as (s1 & -> & Hok1). cbn [mbind option_bind].
  destruct (IH (p ++ [x]) s1 Hok1) as (s' & Hs' & Hok'); [rewrite length_app; cbn [length]; lia|].
  exists s'. split; [done|]. by rewrite <- app_assoc in Hok'.
Qed.

(** ** The sweep *)

(** The current hash is the root of height [k] of the last leaves [r]. *)
Record sweep_ok inner ml br (k : nat) (l : list uint256) (s : Merge) (q r : list uint256) (mu : bool) : Prop := {
  so_split : l = q ++ r;
  so_last : r <> [];
  so_hash : mg_h s = tree Hash k r;
  so_match : match_ok br k q r s;
  so_mutated : mg_mutated s = duplicated Hash k r || mu;
  so_height : k = 0%nat \/ (2 ^ (k - 1) < length l)%nat
}.

Lemma forest_size inner ml br k p mu : forest inner ml br k p mu -> p = [] \/ (2 ^ k <= length p)%nat.
Proof.
  induction 1 as [|j q b mu t Hb Hq _ _ _ _|j q mu t Hne Hq _ _ [IH|IH]]; [by left| |by left|].
  - right. rewrite length_app. lia.
  - right. cbn [Nat.pow] in IH. lia.
Qed.

Lemma forest_nil_inv inner ml br k mu : forest inner ml br k [] mu -> mu = false.
Proof.
  intros Hf. remember [] as p eqn:Hp. destruct Hf as [|j q b mu t Hb _ _ _ _|j q mu t Hq _ _ _]; [done| |done].
  apply app_eq_nil in Hp as [_ ->]. cbn in Hb. pose proof (Nat.pow_nonzero 2 j). lia.
Qed.

Lemma lowest_level_spec K fuel inner ml br k p mu :
  forest inner ml br k p mu -> p <> [] -> (K < fuel + k)%nat -> (length p <= 2 ^ K)%nat ->
  (k = 0%nat \/ (2 ^ (k - 1) < length p)%nat) ->
  exists L q r mu' t, lowest_level fuel (Z.of_nat (length p)) k = Some L /\
    p = q ++ r /\ length r = (2 ^ L)%nat /\ length q = (t * 2 ^ S L)%nat /\ forest inner ml br (S L) q mu' /\
    nth L inner 0 = tree Hash L r /\ located ml br L q r /\ mu = duplicated Hash L r || mu' /\
    (L = 0%nat \/ (2 ^ (L - 1) < length p)%nat).
Proof.
  revert k; induction fuel as [|fuel IH]; intros k Hf Hne Hfuel Hsz Hk.
  - exfalso. destruct (forest_size _ _ _ _ _ _ Hf) as [?|Hle]; [done|].
    pose proof (Nat.pow_lt_mono_r 2 K k ltac:(lia) ltac:(lia)). lia.
  - inversion Hf as [j Hn|j q b' mu' t Hb' Hq Hi Hloc Hf'|j q mu' t Hq Ht Hml Hf']; subst; [done| |].
    + exists k, q, b', mu', t. split.
      { cbn [lowest_level]. by rewrite length_app, Hb', Hq, bit_odd. }
      auto 12.
    + cbn [lowest_level]. rewrite Ht, bit_even. rewrite <- Ht. apply IH; [done|done|lia|done|]. right.
      replace (S k - 1)%nat with k by lia.
      destruct (forest_size _ _ _ _ _ _ Hf') as [?|Hle]; [done|]. cbn [Nat.pow] in Hle.
      pose proof (Nat.pow_nonzero 2 k). lia.
Qed.

(** The invariant of the sweep: [r] is not a complete tree once a hash was
    duplicated, the trees before it are still those of the array. *)
Lemma sweep_up_spec K fuel inner ml br k l s q r mu :
  sweep_ok inner ml br k l s q r mu -> forest inner ml br k q mu -> (length r < 2 ^ k)%nat ->
  (K < fuel + k)%nat -> (length l <= 2 ^ K)%nat ->
  exists L s' q' r' mu' t,
    sweep_up Hash fBranch fuel (Z.of_nat (length q + 2 ^ k)) inner ml k s = Some (L, s') /\ (k <= L)%nat /\
    sweep_ok inner ml br L l s' q' r' mu' /\ forest inner ml br (S L) q' mu' /\ length q' = (t * 2 ^ S L)%nat /\
    (length r' < 2 ^ L)%nat /\ (length q' + 2 ^ L = length q + 2 ^ k)%nat /\
    duplicated Hash L r' || mu' = duplicated Hash k r || mu.
Proof.
  revert k s q r mu; induction fuel as [|fuel IH]; intros k s q r mu Hok Hf Hr Hfuel Hsz.
  { exfalso. destruct Hok as [_ _ _ _ _ [->|Hht]]; [lia|].
    pose proof (Nat.pow_le_mono_r 2 K (k - 1) ltac:(lia) ltac:(lia)). lia. }
  inversion Hf as [j Hn|j q' b mu' t Hb Hq Hi Hloc Hf'|j q' mu' t Hq Ht Hml Hf']; subst.
  - exists k, s, [], r, false, 0%nat. cbn [sweep_up].
    change (length (@nil uint256) + 2 ^ k)%nat with (0 * 2 ^ S k + 2 ^ k)%nat. rewrite bit_odd.
    split; [done|]. split; [done|]. split; [done|]. split; [|auto].
    constructor. intros Hfb. specialize (Hn Hfb). lia.
  - clear Hf. destruct Hok as [Hl Hne Hh Hm Hmu Hht]. 
    destruct (note_sibling_ok inner ml br k q' b r s Hb Hne Hi Hloc Hm Hh) as (N1 & N2 & N3).
    set (s1 := note_sibling fBranch inner ml k s) in *.
    set (s2 := mkMerge (Hash (nth k inner 0) (mg_h s1)) (mg_matchh s1) (mg_mutated s1) (mg_branch s1)).
    assert (duplicated Hash (S k) (b ++ r) = duplicated Hash k b || duplicated Hash k r) as Hd.
    { rewrite duplicated_full by done. by rewrite (proj2 (Nat.eqb_neq (length r) (2 ^ k))) by lia. }
    destruct (IH (S k) s2 q' (b ++ r) mu') as (L & s' & q2 & r2 & mu2 & t2 & Hloop & HL & Hok2 & Hf2 & Ht2 & Hr2 & Hc2 & Hd2).
    + split.
      * by rewrite app_assoc.
      * by destruct b.
      * unfold s2; cbn [mg_h]. rewrite N1, Hh, Hi. symmetry. by apply tree_full.
      * intros Hfb. exact (N3 Hfb).
      * unfold s2; cbn [mg_mutated]. rewrite N2, Hmu, Hd. by destruct (duplicated Hash k b), (duplicated Hash k r), mu'.
      * right. replace (S k - 1)%nat with k by lia. rewrite Hl, !length_app. destruct r; [done|]. cbn [length]. lia.
    + done.
    + rewrite length_app. cbn [Nat.pow]. lia.
    + lia.
    + done.
    + exists L, s', q2, r2, mu2, t2. cbn [sweep_up].
      replace (length (q' ++ b) + 2 ^ k)%nat with ((t + 1) * 2 ^ S k)%nat by (rewrite length_app; cbn [Nat.pow] in *; lia).
      rewrite bit_even. fold s1 s2.
      replace (length q' + 2 ^ S k)%nat with ((t + 1) * 2 ^ S k)%nat in * by lia.
      split; [done|]. split; [lia|]. split; [done|]. split; [done|]. split; [done|]. split; [done|]. split; [done|].
      rewrite Hd2, Hd. by destruct (duplicated Hash k b), (duplicated Hash k r), mu'.
  - exists k, s, q, r, mu, t. cbn [sweep_up]. rewrite Ht, bit_odd. rewrite <- Ht. auto 12.
Qed.

(** A hash without a right neighbour is combined with itself. *)
Lemma half_ok inner ml br k l s q r mu :
  sweep_ok inner ml br k l s q r mu -> (length r <= 2 ^ k)%nat -> (2 ^ k < length l)%nat ->
  let s1 := if fBranch && mg_matchh s
    then mkMerge (mg_h s) (mg_matchh s) (mg_mutated s) (mg_branch s ++ [mg_h s]) else s in
  sweep_ok inner ml br (S k) l (mkMerge (Hash (mg_h s1) (mg_h s1)) (mg_matchh s1) (mg_mutated s1) (mg_branch s1)) q r mu.
Proof.
  intros [Hl Hne Hh Hm Hmu Hht] Hr Hlt s1.
  assert (mg_h s1 = mg_h s /\ mg_mutated s1 = mg_mutated s /\ mg_matchh s1 = mg_matchh s) as (E1 & E2 & E3)
    by (unfold s1; by destruct (fBranch && mg_matchh s)).
  split; cbn [mg_h mg_matchh mg_mutated mg_branch]; [done|done| | | |].
  - rewrite E1, Hh. symmetry. by apply tree_half.
  - intros Hfb. cbn [mg_matchh mg_branch]. rewrite E3.
    destruct (Hm Hfb) as [(M1 & M2 & M3)|(M1 & M2 & M3)]; [left|right]; (split; [done|]); (split; [done|]);
      unfold s1; rewrite Hfb, M1; cbn [andb mg_branch]; [|done].
    rewrite M3, Hh, path_half; [done|done|]. unfold inside, offset in *. lia.
  - by rewrite E2, Hmu, duplicated_half.
  - right. by replace (S k - 1)%nat with k by lia.
Qed.

Lemma u32_level n : Z.of_nat (2 ^ n) < 2 ^ 32 -> u32 (Z.shiftl 1 (Z.of_nat n)) = Z.of_nat (2 ^ n).
Proof. intros H. rewrite Z.shiftl_1_l, <- pow_nat. apply u32_small. lia. Qed.

Lemma sweep_spec K fuel inner ml br k l s q r mu t :
  sweep_ok inner ml br k l s q r mu -> forest inner ml br (S k) q mu -> length q = (t * 2 ^ S k)%nat ->
  (length r <= 2 ^ k)%nat -> (K < fuel + k)%nat -> (K <= 31)%nat -> (length l <= 2 ^ K)%nat ->
  exists s', sweep Hash fBranch fuel (Z.of_nat (length q + 2 ^ k)) inner ml k s = Some s' /\
    sweep_ok inner ml br (height (length l)) l s' [] l false.
Proof.
  revert k s q r mu t; induction fuel as [|fuel IH]; intros k s q r mu t Hok Hf Ht Hr Hfuel HK Hsz.
  { exfalso. destruct Hok as [_ _ _ _ _ [->|Hht]]; [lia|].
    pose proof (Nat.pow_le_mono_r 2 K (k - 1) ltac:(lia) ltac:(lia)). lia. }
  assert (Z.of_nat (2 ^ K) <= 2 ^ 31) as HK32.
  { rewrite pow_nat. apply Z.pow_le_mono_r; lia. }
  pose proof Hok as [Hl Hne Hh Hm Hmu Hht].
  assert (Z.of_nat (length q + 2 ^ k) < 2 ^ 32) as Hcnt.
  { assert (length q <= length l)%nat by (rewrite Hl, length_app; lia). destruct Hht as [->|Hht].
    - cbn [Nat.pow]. lia.
    - destruct k as [|k]; [cbn [Nat.pow]; lia|]. replace (S k - 1)%nat with k in Hht by lia.
      destruct (forest_size _ _ _ _ _ _ Hf) as [->|Hle]; cbn [Nat.pow length] in *; lia. }
  cbn [sweep]. rewrite u32_level by lia.
  destruct (Z.eqb_spec (Z.of_nat (length q + 2 ^ k)) (Z.of_nat (2 ^ k))) as [E|E].
  - exists s. split; [done|]. assert (q = []) as -> by (apply length_zero_iff_nil; lia). cbn [app] in Hl. subst r.
    assert (mu = false) as -> by (by eapply forest_nil_inv).
    replace (height (length l)) with k; [done|]. symmetry. unfold height.
    assert (0 < length l)%nat by (destruct l; cbn; [done|lia]). destruct (decide (k = 0%nat)) as [->|Hk0].
    + cbn [Nat.pow] in Hr. by replace (length l) with 1%nat by lia.
    + apply Nat.log2_up_unique; [lia|]. replace (Nat.pred k) with (k - 1)%nat by lia. lia.
  - assert (q <> []) as Hq by (intros ->; cbn in E; lia).
    destruct (forest_size _ _ _ _ _ _ Hf) as [?|Hle]; [done|].
    assert (2 ^ k < length l /\ length q < length l)%nat as [Hlt Hql].
    { rewrite Hl, length_app. assert (0 < length r)%nat by (destruct r; [done|cbn; lia]). cbn [Nat.pow] in Hle. pose proof (Nat.pow_nonzero 2 k). lia. }
    pose proof (half_ok _ _ _ _ _ _ _ _ _ Hok Hr Hlt) as Hok1. cbn zeta in Hok1.
    rewrite u32_small by (cbn [Nat.pow] in Hle; lia).
    replace (Z.of_nat (length q + 2 ^ k) + Z.of_nat (2 ^ k)) with (Z.of_nat (length q + 2 ^ S k)) by (cbn [Nat.pow]; lia).
    destruct (sweep_up_spec K 32 _ _ _ _ _ _ _ _ _ Hok1 Hf) as (L & s' & q' & r' & mu' & t' & -> & HL & Hok' & Hf' & Ht' & Hr' & Hc' & Hd');
      [cbn [Nat.pow]; pose proof (Nat.pow_nonzero 2 k); lia|lia|done|].
    cbn [mbind option_bind]. rewrite <- Hc'. apply (IH L s' q' r' mu' t'); [done|done|done|lia|lia|done|done].
Qed.

(** ** The whole computation *)

Lemma fold_ok_start : fold_ok [] (0, mkFold (replicate 32 0) (-1) false []).
Proof. split; [done|done| |done]. apply forest_nil. intros _. cbn. lia. Qed.

Lemma MerkleComputation_spec l :
  l <> [] -> Z.of_nat (length l) <= 2 ^ 31 -> 0 <= branchpos ->
  exists br, MerkleComputation Hash fBranch branchpos l =
      Some (tree Hash (height (length l)) l, duplicated Hash (height (length l)) l, br) /\
    (fBranch = true ->
      br = if branchpos <? Z.of_nat (length l)
           then path Hash (height (length l)) l (Z.to_nat branchpos) else []).
Proof.
  intros Hne Hsz Hpos.
  assert (exists K, K = 31%nat /\ length l <= 2 ^ K)%nat as (K & HK & HszK).
  { exists 31%nat. split; [done|]. apply Nat2Z.inj_le. by rewrite pow_nat. }
  destruct (add_leaves_spec l [] _ fold_ok_start) as ([count f] & Hfold & [Hc Hi Hf Hbr]).
  { cbn [length Nat.add]. apply Nat2Z.inj_lt. rewrite pow_nat. lia. }
  cbn [app fst snd] in *. subst count.
  destruct (lowest_level_spec K 32 _ _ _ _ _ _ Hf Hne ltac:(lia) HszK ltac:(by left))
    as (L & q & r & mu & t & Hlow & Hl & Hr & Hq & Hf' & Hn & Hloc & Hmu & Hht).
  set (m := mkMerge (nth L (fo_inner f) 0) (fo_matchlevel f =? Z.of_nat L) (fo_mutated f) (fo_branch f)).
  assert (sweep_ok (fo_inner f) (fo_matchlevel f) (fo_branch f) L l m q r mu) as Hok.
  { split; [done| |done| |done|done].
    - intros ->. cbn in Hr. pose proof (Nat.pow_nonzero 2 L). lia.
    - intros Hfb. destruct (Hloc Hfb) as [L1 L2]. unfold m; cbn [mg_matchh mg_branch].
      destruct (Z.eqb_spec (fo_matchlevel f) (Z.of_nat L)) as [E|E]; [left|right]; (split; [done|]).
      + destruct (decide (Z.of_nat (length q) <= branchpos < Z.of_nat (length q + length r))) as [Hin|Hin]; [|by destruct (L2 Hin)].
        split; [done|]. by apply L1.
      + split; [|done]. intros Hin. by destruct (L1 Hin). }
  destruct (sweep_spec K 32 _ _ _ _ _ _ _ _ _ t Hok Hf' Hq ltac:(lia) ltac:(lia) ltac:(lia) HszK) as (s' & Hsweep & Hok').
  assert (Z.of_nat (length q + 2 ^ L) = Z.of_nat (length l)) as Hc by (rewrite Hl, length_app; lia).
  rewrite Hc in Hsweep. destruct Hok' as [_ _ Hh Hm Hmut _]. exists (mg_branch s'). split.
  - destruct l as [|x l']; [done|]. unfold MerkleComputation. rewrite Hfold. cbn [mbind option_bind].
    rewrite Hlow. cbn [mbind option_bind]. fold m. rewrite Hsweep. cbn [mbind option_bind].
    by rewrite Hh, Hmut, orb_false_r.
  - intros Hfb. destruct (Hm Hfb) as [(_ & Hin & ->)|(_ & Hin & ->)]; unfold inside in Hin; cbn [length] in Hin.
    + rewrite (proj2 (Z.ltb_lt _ _)) by lia. unfold offset; cbn [length]. by rewrite Nat.sub_0_r.
    + rewrite (proj2 (Z.ltb_ge _ _)) by lia. apply Hbr; [done|lia].
Qed.
End forest.

(** ** What the computation returns *)

Lemma height_bound (l : list uint256) : (0 < length l)%nat -> (length l <= 2 ^ height (length l))%nat.
Proof.
  intros H. unfold height. destruct (decide (length l = 1%nat)) as [->|]; [cbn; lia|].
  apply Nat.log2_log2_up_spec. lia.
Qed.

Lemma ComputeMerkleRoot_tree Hash l :
  l <> [] -> Z.of_nat (length l) <= 2 ^ 31 ->
  ComputeMerkleRoot Hash l = Some (tree Hash (height (length l)) l, duplicated Hash (height (length l)) l).
Proof.
  intros Hne Hsz. unfold ComputeMerkleRoot.
  by destruct (MerkleComputation_spec Hash false (u32 (-1)) l Hne Hsz ltac:(done)) as (br & -> & _).
Qed.

(** C39: for up to 2^31 leaves the one-pass computation never leaves its array of
    32 hashes and returns the root of the tree built level by level, where
    neighbours are hashed together and the last hash of an odd level with
    itself; and the branch it returns for any of the leaves leads
    [ComputeMerkleRootFromBranch] from that leaf back to the same root. *)
Theorem merkle_computation_correct Hash l :
  l <> [] -> Z.of_nat (length l) <= 2 ^ 31 ->
  exists root, level_root Hash (height (length l)) l = root /\
    ComputeMerkleRoot Hash l = Some (root, duplicated Hash (height (length l)) l) /\
    forall i x, l !! i = Some x ->
      exists branch, ComputeMerkleBranch Hash l (Z.of_nat i) = Some branch /\
        length branch = height (length l) /\
        ComputeMerkleRootFromBranch Hash x branch (Z.of_nat i) = root.
Proof.
  intros Hne Hsz. assert (0 < length l)%nat as Hpos by (destruct l; cbn; [done|lia]).
  pose proof (height_bound l Hpos) as Hh. rewrite <- tree_levels by lia. eexists. split; [done|].
  split; [by apply ComputeMerkleRoot_tree|]. intros i x Hi.
  destruct (MerkleComputation_spec Hash true (Z.of_nat i) l Hne Hsz ltac:(lia)) as (br & E & Hbr).
  specialize (Hbr eq_refl). pose proof (lookup_lt_Some _ _ _ Hi) as Hlt.
  rewrite (proj2 (Z.ltb_lt _ _)), Nat2Z.id in Hbr by lia. exists br. split; [unfold ComputeMerkleBranch; by rewrite E|].
  split; [rewrite Hbr; apply path_length|].
  unfold ComputeMerkleRootFromBranch. rewrite Hbr.
  replace (Z.of_nat i) with (2 ^ Z.of_nat (height (length l)) * 0 + Z.of_nat i) by lia.
  by rewrite (path_root Hash _ l i x 0 Hh Hi).
Qed.

(** if the hash function is injective and never returns a leaf, then two lists
    of leaves with the same root, neither of which is reported as mutated, are
    the same list: the flag catches exactly the second preimages that
    duplicating the tail of the list gives. *)
Theorem merkle_root_binding Hash l1 l2 root :
  (forall x1 x2 y1 y2, Hash x1 x2 = Hash y1 y2 -> x1 = y1 /\ x2 = y2) ->
  (forall x y z, x ∈ l1 ++ l2 -> x <> Hash y z) ->
  l1 <> [] -> l2 <> [] -> Z.of_nat (length l1) <= 2 ^ 31 -> Z.of_nat (length l2) <= 2 ^ 31 ->
  ComputeMerkleRoot Hash l1 = Some (root, false) -> ComputeMerkleRoot Hash l2 = Some (root, false) -> l1 = l2.
Proof.
  intros Hinj Hleaf N1 N2 S1 S2 R1 R2. rewrite ComputeMerkleRoot_tree in R1, R2 by done.
  injection R1 as T1 D1. injection R2 as T2 D2.
  assert (forall l : list uint256, l <> [] -> 0 < length l <= 2 ^ height (length l))%nat as Hsz.
  { intros l Hl. assert (0 < length l)%nat by (destruct l; cbn; [done|lia]). split; [done|]. by apply height_bound. }
  assert (height (length l1) = height (length l2)) as Ek.
  { apply (tree_height Hash Hinj _ _ l1 l2); [done|done|done|congruence]. }
  apply (tree_inj Hash Hinj (height (length l1))); [by apply Hsz| |done|by rewrite Ek|by rewrite T1, Ek].
  rewrite Ek. by apply Hsz.
Qed.

(** The duplicated tail that the flag reports. *)
Example duplicated_tail :
  let Hash a b := 100 + 10 * a + b in
  exists root, ComputeMerkleRoot Hash [1; 2; 3] = Some (root, false) /\
    ComputeMerkleRoot Hash [1; 2; 3; 3] = Some (root, true).
Proof. eexists. split; vm_compute; reflexivity. Qed.

Lemma merkle_computation_correct_witness :
  let Hash a b := 100 + 10 * a + b in
  exists branch, ComputeMerkleBranch Hash [1; 2; 3; 4; 5] 4 = Some branch /\
    length branch = 3%nat /\
    ComputeMerkleRootFromBranch Hash 5 branch 4 = level_root Hash 3 [1; 2; 3; 4; 5].
Proof.
  intros Hash.
  destruct (merkle_computation_correct Hash [1; 2; 3; 4; 5] ltac:(done) ltac:(vm_compute; discriminate))
    as (root & E & _ & H).
  destruct (H 4%nat 5 eq_refl) as (br & H1 & H2 & H3). exists br. change 3%nat with (height (length [1; 2; 3; 4; 5])). rewrite E. auto.
Defined.

(** An injective function with positive values: the leaves are negative. *)
Definition pair_hash (a b : uint256) : uint256 := Zpos (encode (a, b)).

Lemma merkle_root_binding_witness :
  exists root, ComputeMerkleRoot pair_hash [-1; -2; -3] = Some (root, false) /\
    (ComputeMerkleRoot pair_hash [-1; -2; -3] = Some (root, false) -> [-1; -2; -3] = [-1; -2; -3]).
Proof.
  eexists. split; [vm_compute; reflexivity|]. intros H.
  eapply (merkle_root_binding pair_hash); [| |done|done|vm_compute; discriminate|vm_compute; discriminate|exact H|exact H].
  - clear H. unfold pair_hash. intros x1 x2 y1 y2 E. injection E as E. apply (inj encode) in E. by injection E.
  - clear H. intros x y z Hx. assert (x < 0) as Hneg; [|unfold pair_hash; lia].
    cbn [app] in Hx. rewrite !elem_of_cons in Hx. destruct_or?; subst; try lia. by apply not_elem_of_nil in Hx.
Defined.
