(* ===== verification/Float.v ===== *)
(** * [float] and [double]

    The quorum and acceptance tests of the DAO are computed in floating
    point.  [float] is IEEE 754 binary32 and [double] binary64, rounding to
    nearest even, as the executable specification [SpecFloat] of the Standard
    Library defines them; an integer operand is converted to the type of the
    other operand before the operation. *)
From S2P Require Import Prelude.
From Stdlib Require Import SpecFloat.

Definition f32_of_Z (z : Z) : spec_float := binary_normalize 24 128 z 0 false.
Definition f64_of_Z (z : Z) : spec_float := binary_normalize 53 1024 z 0 false.

(** Conversion between the two formats, rounding when it narrows. *)
Definition round_to (prec emax : Z) (x : spec_float) : spec_float :=
  match x with
  | S754_finite s m e => binary_normalize prec emax (if s then Zneg m else Zpos m) e s
  | _ => x
  end.

Definition f32_of_f64 : spec_float -> spec_float := round_to 24 128.
Definition f64_of_f32 : spec_float -> spec_float := round_to 53 1024.

Definition f32_mul : spec_float -> spec_float -> spec_float := SFmul 24 128.
Definition f64_mul : spec_float -> spec_float -> spec_float := SFmul 53 1024.
Definition f64_div : spec_float -> spec_float -> spec_float := SFdiv 53 1024.

(** [a > b] and [a >= b]; both are false on a NaN. *)
Definition float_gt (a b : spec_float) : bool := SFltb b a.
Definition float_ge (a b : spec_float) : bool := SFleb b a.

(** A ten thousandth: [p / 10000.0]. *)
Definition per_10000 (p : Z) : spec_float := f64_div (f64_of_Z p) (f64_of_Z 10000).

(** [float q = p / 10000.0]. *)
Definition f32_per_10000 (p : Z) : spec_float := f32_of_f64 (per_10000 p).

(** [len * q] with an unsigned [len] and a [float q]. *)
Definition f32_scale (len : Z) (q : spec_float) : spec_float := f32_mul (f32_of_Z len) q.

(** The constants of the networks' quorums, exact binary32 values. *)
Example f32_half : f32_per_10000 5000 = S754_finite false 8388608 (-24).
Proof. reflexivity. Qed.

Example f32_point_four : f32_per_10000 4000 = S754_finite false 13421773 (-25).
Proof. reflexivity. Qed.
