(* ===== verification/Chain.v ===== *)
(** * The block index and the active chain ([src/src/chain.h], [chain.cpp])

    Block index entries live in a store indexed by the block hash, the way
    [mapBlockIndex] owns them: a [CBlockIndex*] is the hash that is its key.
    The file models [CBlockIndex::GetAncestor] with its skip pointers,
    [BuildSkip], [GetMedianTimePast] and [CChain]; the reference they are
    compared with is the walk along [pprev]. *)
From S2P Require Import Prelude.

(** The fields of [CBlockIndex] the modelled code reads or writes. *)
Record CBlockIndex := mkCBlockIndex {
  pprev : option uint256;
  pskip : option uint256;
  nHeight : Z;
  nStatus : Z;
  bi_nVersion : Z;
  nTime : Z;
  nBits : Z;
  nNonce : Z;
  nCFSupply : Z;
  nCFLocked : Z;
  nFlags : Z
}.

Abbreviation BlockMap := (gmap uint256 CBlockIndex).

Definition BLOCK_PROOF_OF_STAKE : Z := 0x01.
Definition BLOCK_STAKE_ENTROPY : Z := 0x02.
Definition BLOCK_COLD_STAKE_V2 : Z := 0x08.
Definition BLOCK_VALID_MASK : Z := 7.
Definition BLOCK_FAILED_MASK : Z := 96.

Definition GetBlockTime (b : CBlockIndex) : Z := nTime b.
Definition IsProofOfStake (b : CBlockIndex) : bool := flag_set (nFlags b) BLOCK_PROOF_OF_STAKE.
Definition IsColdStakeV2 (b : CBlockIndex) : bool := flag_set (nFlags b) BLOCK_COLD_STAKE_V2.

Definition set_nFlags (b : CBlockIndex) (f : Z) : CBlockIndex :=
  mkCBlockIndex (pprev b) (pskip b) (nHeight b) (nStatus b) (bi_nVersion b) (nTime b) (nBits b)
    (nNonce b) (nCFSupply b) (nCFLocked b) f.

Definition SetProofOfStake (b : CBlockIndex) : CBlockIndex := set_nFlags b (Z.lor (nFlags b) BLOCK_PROOF_OF_STAKE).
Definition SetColdStakeV2 (b : CBlockIndex) : CBlockIndex := set_nFlags b (Z.lor (nFlags b) BLOCK_COLD_STAKE_V2).

(** [IsValid] and [RaiseValidity]; the assertion admits validity levels only. *)
Definition IsValid (b : CBlockIndex) (nUpTo : Z) : option bool :=
  check Z.ldiff nUpTo BLOCK_VALID_MASK =? 0;
  Some (if flag_set (nStatus b) BLOCK_FAILED_MASK then false
        else nUpTo <=? Z.land (nStatus b) BLOCK_VALID_MASK).

Definition set_nStatus (b : CBlockIndex) (s : Z) : CBlockIndex :=
  mkCBlockIndex (pprev b) (pskip b) (nHeight b) s (bi_nVersion b) (nTime b) (nBits b)
    (nNonce b) (nCFSupply b) (nCFLocked b) (nFlags b).

Definition RaiseValidity (b : CBlockIndex) (nUpTo : Z) : option (bool * CBlockIndex) :=
  check Z.ldiff nUpTo BLOCK_VALID_MASK =? 0;
  Some (if flag_set (nStatus b) BLOCK_FAILED_MASK then (false, b)
        else if Z.land (nStatus b) BLOCK_VALID_MASK <? nUpTo
        then (true, set_nStatus b (Z.lor (Z.ldiff (nStatus b) BLOCK_VALID_MASK) nUpTo))
        else (false, b)).

(** ** Skip pointers *)

Definition InvertLowestOne (n : Z) : Z := Z.land n (n - 1).

Definition GetSkipHeight (height : Z) : Z :=
  if height <? 2 then 0
  else if flag_set height 1
  then InvertLowestOne (InvertLowestOne (height - 1)) + 1
  else InvertLowestOne height.

(** The loop of [GetAncestor].  The height strictly decreases, so the
    distance to the requested height is enough fuel ([ancestor_loop_walk]). *)
Fixpoint ancestor_loop (h : BlockMap) (fuel : nat) (pindexWalk : uint256)
    (heightWalk height : Z) : option uint256 :=
  if heightWalk <=? height then Some pindexWalk
  else match fuel with
  | O => None
  | S fuel =>
    do b <- h !! pindexWalk;
    let heightSkip := GetSkipHeight heightWalk in
    let heightSkipPrev := GetSkipHeight (heightWalk - 1) in
    match pskip b, (heightSkip =? height)
           || ((height <? heightSkip)
               && negb ((heightSkipPrev <? heightSkip - 2) && (height <=? heightSkipPrev))) with
    | Some s, true => ancestor_loop h fuel s heightSkip height
    | _, _ =>
      (* assert(pindexWalk->pprev) *)
      do q <- pprev b; ancestor_loop h fuel q (heightWalk - 1) height
    end
  end.

(** [Some None] is the null pointer, [None] a failed assertion. *)
Definition GetAncestor (h : BlockMap) (p : uint256) (height : Z) : option (option uint256) :=
  do b <- h !! p;
  if (nHeight b <? height) || (height <? 0) then Some None
  else do q <- ancestor_loop h (Z.to_nat (nHeight b - height)) p (nHeight b) height;
       Some (Some q).

Definition BuildSkip (h : BlockMap) (b : CBlockIndex) : option CBlockIndex :=
  match pprev b with
  | None => Some b
  | Some q =>
    do s <- GetAncestor h q (GetSkipHeight (nHeight b));
    Some (mkCBlockIndex (pprev b) s (nHeight b) (nStatus b) (bi_nVersion b) (nTime b) (nBits b)
            (nNonce b) (nCFSupply b) (nCFLocked b) (nFlags b))
  end.

(** ** Median time of the last eleven blocks *)

Definition nMedianTimeSpan : nat := 11.

Fixpoint collect_times (h : BlockMap) (n : nat) (p : option uint256) : option (list Z) :=
  match n, p with
  | S n, Some q =>
    do b <- h !! q; do l <- collect_times h n (pprev b); Some (GetBlockTime b :: l)
  | _, _ => Some []
  end.

Definition GetMedianTimePast (h : BlockMap) (p : uint256) : option Z :=
  do l <- collect_times h nMedianTimeSpan (Some p);
  let sorted := merge_sort Z.le l in
  sorted !! (length sorted / 2)%nat.

(** ** [CChain]: the active chain as a vector indexed by height *)

Abbreviation CChain := (list (option uint256)).

Definition chain_at (v : CChain) (height : Z) : option uint256 :=
  if (height <? 0) || (Z.of_nat (length v) <=? height) then None
  else default None (v !! Z.to_nat height).

Definition chain_Tip (v : CChain) : option uint256 := default None (last v).
Definition chain_Genesis (v : CChain) : option uint256 := default None (head v).
Definition chain_Height (v : CChain) : Z := Z.of_nat (length v) - 1.

Definition chain_Contains (h : BlockMap) (v : CChain) (p : uint256) : option bool :=
  do b <- h !! p; Some (bool_decide (chain_at v (nHeight b) = Some p)).

Definition chain_Next (h : BlockMap) (v : CChain) (p : uint256) : option (option uint256) :=
  do b <- h !! p;
  do c <- chain_Contains h v p;
  Some (if (c : bool) then chain_at v (nHeight b + 1) else None).

(** [std::vector::resize] for a vector of pointers. *)
Definition vec_resize (n : nat) (v : CChain) : CChain :=
  take n v ++ replicate (n - length v) None.

Fixpoint SetTip_loop (h : BlockMap) (fuel : nat) (v : CChain) (pindex : option uint256)
    : option CChain :=
  match pindex with
  | None => Some v
  | Some p =>
    do b <- h !! p;
    (* vChain[pindex->nHeight]: out of range is undefined *)
    do cur <- v !! Z.to_nat (nHeight b);
    if bool_decide (cur = Some p) then Some v
    else match fuel with
    | O => None
    | S fuel => SetTip_loop h fuel (<[Z.to_nat (nHeight b) := Some p]> v) (pprev b)
    end
  end.

Definition SetTip (h : BlockMap) (v : CChain) (pindex : option uint256) : option CChain :=
  match pindex with
  | None => Some []
  | Some p =>
    do b <- h !! p;
    let n := Z.to_nat (nHeight b + 1) in
    SetTip_loop h n (vec_resize n v) (Some p)
  end.

Fixpoint FindFork_loop (h : BlockMap) (v : CChain) (fuel : nat) (pindex : option uint256)
    : option (option uint256) :=
  match pindex with
  | None => Some None
  | Some p =>
    do c <- chain_Contains h v p;
    if (c : bool) then Some (Some p)
    else match fuel with
    | O => None
    | S fuel => do b <- h !! p; FindFork_loop h v fuel (pprev b)
    end
  end.

Definition FindFork (h : BlockMap) (v : CChain) (pindex : option uint256)
    : option (option uint256) :=
  match pindex with
  | None => Some None
  | Some p =>
    do b <- h !! p;
    do q <- (if chain_Height v <? nHeight b then GetAncestor h p (chain_Height v)
             else Some (Some p));
    FindFork_loop h v (Z.to_nat (nHeight b + 1)) q
  end.

(** ** Reference: the walk along [pprev] *)

Fixpoint walk_back (h : BlockMap) (n : nat) (p : uint256) : option uint256 :=
  match n with
  | O => Some p
  | S n => do b <- h !! p; do q <- pprev b; walk_back h n q
  end.

(** The block index is well formed: heights count the distance to the
    genesis block, and a skip pointer is the ancestor at [GetSkipHeight]. *)
Record wf_blocks (h : BlockMap) : Prop := {
  wf_height : forall p b, h !! p = Some b -> 0 <= nHeight b;
  wf_prev : forall p b q, h !! p = Some b -> pprev b = Some q ->
    exists b', h !! q = Some b' /\ nHeight b = nHeight b' + 1;
  wf_genesis : forall p b, h !! p = Some b -> pprev b = None -> nHeight b = 0;
  wf_skip : forall p b s, h !! p = Some b -> pskip b = Some s ->
    walk_back h (Z.to_nat (nHeight b - GetSkipHeight (nHeight b))) p = Some s
}.

Lemma land_le_l a b : 0 <= a -> Z.land a b <= a.
Proof.
  intros Ha.
  assert (0 <= Z.ldiff a b) by (apply Z.ldiff_nonneg; auto).
  pose proof (Z.lor_ldiff_and a b) as E.
  assert (Z.land (Z.ldiff a b) (Z.land a b) = 0) as Hd.
  { apply Z.bits_inj'. intros n Hn. rewrite Z.land_spec, Z.ldiff_spec, Z.land_spec, Z.bits_0.
    by destruct (Z.testbit a n), (Z.testbit b n). }
  pose proof (Z.add_nocarry_lxor _ _ Hd). pose proof (Z.lxor_lor _ _ Hd). lia.
Qed.

Lemma InvertLowestOne_bounds n : 0 <= n -> 0 <= InvertLowestOne n <= n.
Proof.
  intros Hn. unfold InvertLowestOne. split; [apply Z.land_nonneg; auto|by apply land_le_l].
Qed.

Lemma InvertLowestOne_lt n : 0 < n -> InvertLowestOne n < n.
Proof.
  intros Hn. unfold InvertLowestOne. rewrite Z.land_comm.
  pose proof (land_le_l (n - 1) n). lia.
Qed.

(** The jump goes strictly back and stays above the genesis block. *)
Lemma GetSkipHeight_bounds n : 0 < n -> 0 <= GetSkipHeight n < n.
Proof.
  intros Hn. unfold GetSkipHeight.
  destruct (n <? 2) eqn:E2; nav_bool; [lia|].
  destruct (flag_set n 1).
  - pose proof (InvertLowestOne_lt (n - 1)). pose proof (InvertLowestOne_bounds (n - 1)).
    pose proof (InvertLowestOne_bounds (InvertLowestOne (n - 1))). lia.
  - pose proof (InvertLowestOne_lt n). pose proof (InvertLowestOne_bounds n). lia.
Qed.

Section chain.
Context (h : BlockMap) (Hwf : wf_blocks h).

Lemma walk_back_add n m p :
  walk_back h (n + m) p = do q <- walk_back h n p; walk_back h m q.
Proof.
  revert p; induction n as [|n IH]; intros p; cbn; [done|].
  destruct (h !! p) as [b|]; cbn; [|done]. destruct (pprev b); cbn; auto.
Qed.

Lemma walk_back_height n p b :
  h !! p = Some b -> Z.of_nat n <= nHeight b ->
  exists q b', walk_back h n p = Some q /\ h !! q = Some b' /\
    nHeight b' = nHeight b - Z.of_nat n.
Proof.
  revert p b; induction n as [|n IH]; intros p b Hp Hn; cbn [walk_back].
  { exists p, b. repeat split; auto; lia. }
  rewrite Hp; cbn. destruct (pprev b) as [q|] eqn:Eq; cbn.
  - destruct (wf_prev h Hwf p b q Hp Eq) as (b' & Hq & Hh).
    destruct (IH q b' Hq) as (r & br & -> & Hr & Hhr); [lia|].
    exists r, br. repeat split; auto; lia.
  - pose proof (wf_genesis h Hwf p b Hp Eq). lia.
Qed.

Lemma walk_back_sound n p q b :
  walk_back h n p = Some q -> h !! p = Some b ->
  exists b', h !! q = Some b' /\ nHeight b' = nHeight b - Z.of_nat n.
Proof.
  revert p b; induction n as [|n IH]; intros p b Hw Hp; cbn [walk_back] in Hw.
  { simplify_eq. exists b. split; auto; lia. }
  rewrite Hp in Hw; cbn in Hw. destruct (pprev b) as [u|] eqn:E; [|done].
  destruct (wf_prev h Hwf p b u Hp E) as (b' & Hq & Hh).
  destruct (IH u b' Hw Hq) as (br & Hr & Hhr). exists br. split; auto; lia.
Qed.

(** The loop, run at a block of height [heightWalk], returns the ancestor
    [heightWalk - height] steps back, whichever pointers it follows. *)
Lemma ancestor_loop_walk fuel p b height :
  h !! p = Some b -> 0 <= height <= nHeight b -> nHeight b - height <= Z.of_nat fuel ->
  ancestor_loop h fuel p (nHeight b) height
    = walk_back h (Z.to_nat (nHeight b - height)) p.
Proof.
  revert p b; induction fuel as [|fuel IH]; intros p b Hp Hle Hf; cbn [ancestor_loop].
  { replace (nHeight b <=? height) with true by (symmetry; apply Z.leb_le; lia).
    by replace (Z.to_nat (nHeight b - height)) with O by lia. }
  destruct (nHeight b <=? height) eqn:E.
  { nav_bool. by replace (Z.to_nat (nHeight b - height)) with O by lia. }
  nav_bool. rewrite Hp; cbn [mbind option_bind].
  pose proof (GetSkipHeight_bounds (nHeight b)) as Hsk.
  assert (forall q, pprev b = Some q ->
    ancestor_loop h fuel q (nHeight b - 1) height
      = walk_back h (Z.to_nat (nHeight b - height)) p) as Hprev.
  { intros q Hq. destruct (wf_prev h Hwf p b q Hp Hq) as (b' & Hb' & Hh).
    replace (nHeight b - 1) with (nHeight b') by lia. rewrite IH by (done || lia).
    replace (Z.to_nat (nHeight b - height)) with (S (Z.to_nat (nHeight b' - height))) by lia.
    cbn. by rewrite Hp; cbn; rewrite Hq. }
  assert ((do q <- pprev b; ancestor_loop h fuel q (nHeight b - 1) height)
    = walk_back h (Z.to_nat (nHeight b - height)) p) as Hback.
  { destruct (pprev b) as [q|] eqn:Eq; cbn; [by apply Hprev|].
    pose proof (wf_genesis h Hwf p b Hp Eq). lia. }
  destruct (pskip b) as [s|] eqn:Es; [|exact Hback].
  destruct ((_ =? height) || _) eqn:Ec; [|exact Hback].
  assert (height <= GetSkipHeight (nHeight b)) as Hge.
  { apply orb_true_iff in Ec as [Ec|Ec]; nav_bool; lia. }
  pose proof (wf_skip h Hwf p b s Hp Es) as Hs.
  destruct (walk_back_sound _ _ _ _ Hs Hp) as (bs & Hbs & Hhs).
  replace (GetSkipHeight (nHeight b)) with (nHeight bs) by lia.
  rewrite IH by (done || lia).
  replace (Z.to_nat (nHeight b - height)) with
    (Z.to_nat (nHeight b - GetSkipHeight (nHeight b)) + Z.to_nat (nHeight bs - height))%nat by lia.
  by rewrite walk_back_add, Hs.
Qed.

(** [GetAncestor] with its guards. *)
Lemma GetAncestor_walk p b height :
  h !! p = Some b -> 0 <= height <= nHeight b ->
  GetAncestor h p height = Some (walk_back h (Z.to_nat (nHeight b - height)) p).
Proof.
  intros Hp Hle. unfold GetAncestor. rewrite Hp; cbn [mbind option_bind].
  replace ((nHeight b <? height) || (height <? 0)) with false
    by (symmetry; apply orb_false_iff; split; apply Z.ltb_ge; lia).
  rewrite ancestor_loop_walk by (done || lia).
  destruct (walk_back_height (Z.to_nat (nHeight b - height)) p b Hp) as (q & b' & -> & _); [lia|done].
Qed.
End chain.

Lemma walk_back_mono (h h' : BlockMap) n p q :
  h ⊆ h' -> walk_back h n p = Some q -> walk_back h' n p = Some q.
Proof.
  intros Hs. revert p; induction n as [|n IH]; intros p; cbn; [done|].
  destruct (h !! p) as [b|] eqn:Ep; cbn; [|done].
  rewrite (lookup_weaken _ _ _ _ Ep Hs); cbn.
  destruct (pprev b); cbn; auto.
Qed.

Definition is_chain (h : BlockMap) (v : CChain) (tip : option uint256) : Prop :=
  match tip with
  | None => v = []
  | Some p => exists b, h !! p = Some b /\ length v = Z.to_nat (nHeight b + 1) /\
      forall i, (i < length v)%nat ->
        v !! i = Some (walk_back h (Z.to_nat (nHeight b) - i) p)
  end.

Section active_chain.
Context (h : BlockMap) (Hwf : wf_blocks h).

(** Along a chain, the entry below an entry is its predecessor. *)
Lemma is_chain_entry v tip i q :
  is_chain h v tip -> v !! i = Some (Some q) ->
  exists b, h !! q = Some b /\ nHeight b = Z.of_nat i /\
    forall j, (j <= i)%nat -> v !! j = Some (walk_back h (i - j) q).
Proof.
  destruct tip as [p|]; cbn; [|by intros -> ?].
  intros (b & Hp & Hlen & Hv) Hi. pose proof (lookup_lt_Some _ _ _ Hi) as Hlt.
  pose proof (wf_height h Hwf p b Hp) as H0.
  pose proof (Hv i Hlt) as Hi'. rewrite Hi in Hi'. injection Hi' as Hq. symmetry in Hq.
  destruct (walk_back_sound h Hwf _ _ _ _ Hq Hp) as (bq & Hbq & Hh).
  exists bq. repeat split; [done|lia|]. intros j Hj. rewrite Hv by lia.
  replace (Z.to_nat (nHeight b) - j)%nat with ((Z.to_nat (nHeight b) - i) + (i - j))%nat by lia.
  by rewrite walk_back_add, Hq.
Qed.

(** State of the [SetTip] loop: above the cursor the vector holds the
    ancestors of the new tip, below it what the old chain had. *)
Lemma SetTip_loop_spec fuel v p b0 tip0 v0 n pindex :
  h !! p = Some b0 -> is_chain h v0 tip0 ->
  length v = Z.to_nat (nHeight b0 + 1) ->
  (n <= Z.to_nat (nHeight b0 + 1))%nat -> (n <= fuel)%nat ->
  pindex = (if decide (n = O) then None else walk_back h (Z.to_nat (nHeight b0 + 1) - n) p) ->
  (forall i, (n <= i < length v)%nat -> v !! i = Some (walk_back h (Z.to_nat (nHeight b0) - i) p)) ->
  (forall i, (i < n)%nat -> v !! i = Some (default None (v0 !! i))) ->
  exists v', SetTip_loop h fuel v pindex = Some v' /\ length v' = length v /\
    forall i, (i < length v)%nat -> v' !! i = Some (walk_back h (Z.to_nat (nHeight b0) - i) p).
Proof.
  intros Hp Hc Hlen. pose proof (wf_height h Hwf p b0 Hp) as H0.
  revert v n pindex Hlen; induction fuel as [|fuel IH];
    intros v n pindex Hlen Hn Hfuel -> Habove Hbelow.
  { replace n with O in * by lia. cbn. exists v. repeat split; auto. intros. apply Habove. lia. }
  destruct (decide (n = O)) as [->|Hnz]; cbn [SetTip_loop].
  { exists v. repeat split; auto. intros. apply Habove. lia. }
  destruct (walk_back_height h Hwf (Z.to_nat (nHeight b0 + 1) - n) p b0 Hp)
    as (q & bq & Hq & Hbq & Hhq); [lia|].
  rewrite Hq, Hbq; cbn [mbind option_bind].
  replace (Z.to_nat (nHeight bq)) with (n - 1)%nat by lia.
  rewrite Hbelow by lia; cbn [mbind option_bind].
  case_bool_decide as Hcur.
  - exists v. repeat split; auto. intros i Hi.
    destruct (decide (n <= i)%nat); [apply Habove; lia|].
    rewrite Hbelow by lia.
    destruct (v0 !! (n - 1)%nat) as [o|] eqn:Eo; [|done]. cbn in Hcur. subst o.
    destruct (is_chain_entry v0 tip0 (n - 1) q Hc Eo) as (bq' & _ & _ & Hdown).
    rewrite Hdown by lia. cbn. f_equal.
    replace (Z.to_nat (nHeight b0) - i)%nat with
      ((Z.to_nat (nHeight b0 + 1) - n) + (n - 1 - i))%nat by lia.
    by rewrite walk_back_add, Hq.
  - destruct (IH (<[(n - 1)%nat := Some q]> v) (n - 1)%nat (pprev bq))
      as (v' & -> & Hl' & Hv').
    + by rewrite length_insert.
    + lia.
    + lia.
    + destruct (decide ((n - 1)%nat = O)) as [Hz|Hz].
      * destruct (pprev bq) as [r|] eqn:Er; [|done].
        destruct (wf_prev h Hwf q bq r Hbq Er) as (br & Hbr & ?).
        pose proof (wf_height h Hwf r br Hbr). lia.
      * replace (Z.to_nat (nHeight b0 + 1) - (n - 1))%nat with
          ((Z.to_nat (nHeight b0 + 1) - n) + 1)%nat by lia.
        rewrite walk_back_add, Hq. cbn. rewrite Hbq; cbn. by destruct (pprev bq).
    + intros i. rewrite length_insert. intros Hi.
      destruct (decide (i = (n - 1)%nat)) as [->|].
      * rewrite list_lookup_insert_eq by lia. f_equal. rewrite <- Hq. f_equal. lia.
      * rewrite list_lookup_insert_ne by lia. apply Habove. lia.
    + intros i Hi. rewrite list_lookup_insert_ne by lia. apply Hbelow. lia.
    + rewrite length_insert in Hl', Hv'. eauto.
Qed.
End active_chain.

(** [GetAncestor] on every height, in or out of range. *)
Lemma GetAncestor_spec (h : BlockMap) (p : uint256) (b : CBlockIndex) (height : Z) :
  wf_blocks h -> h !! p = Some b ->
  GetAncestor h p height =
    Some (if bool_decide (0 <= height <= nHeight b)
          then walk_back h (Z.to_nat (nHeight b - height)) p else None).
Proof.
  intros Hwf Hp. case_bool_decide as Hle; [by apply GetAncestor_walk|].
  unfold GetAncestor. rewrite Hp; cbn [mbind option_bind].
  destruct ((nHeight b <? height) || (height <? 0)) eqn:E; [done|].
  nav_bool. exfalso. apply Hle. lia.
Qed.

(** C29: [CBlockIndex::GetAncestor] returns, for every requested height, the
    block reached by walking [pprev] one block at a time, and the null
    pointer above the block's height or below zero: following the skip
    pointers never changes the answer, and no assertion fails. *)
Theorem GetAncestor_correct (h : BlockMap) (p : uint256) (b : CBlockIndex) (height : Z) :
  wf_blocks h -> h !! p = Some b ->
  GetAncestor h p height =
    Some (if bool_decide (0 <= height <= nHeight b)
          then walk_back h (Z.to_nat (nHeight b - height)) p else None).
Proof. apply GetAncestor_spec. Qed.

(** adding a block whose predecessor is known, with the skip pointer
    [BuildSkip] computes, keeps the block index well formed; so the
    correctness of [GetAncestor] is an invariant of building the index. *)
Theorem BuildSkip_wf (h : BlockMap) (p : uint256) (b b' : CBlockIndex) :
  wf_blocks h -> h !! p = None -> pskip b = None ->
  match pprev b with
  | None => nHeight b = 0
  | Some q => exists bq, h !! q = Some bq /\ nHeight b = nHeight bq + 1
  end ->
  BuildSkip h b = Some b' -> wf_blocks (<[p := b']> h).
Proof.
  intros Hwf Hfresh Hs0 Hprev Hb. unfold BuildSkip in Hb.
  assert (h ⊆ <[p := b']> h) as Hsub by (by apply insert_subseteq).
  assert (nHeight b' = nHeight b /\ pprev b' = pprev b) as [Hh Hpp].
  { destruct (pprev b) as [q|] eqn:Eq; nav_bind; by rewrite ?Eq. }
  assert (forall s, pskip b' = Some s ->
    walk_back (<[p := b']> h) (Z.to_nat (nHeight b' - GetSkipHeight (nHeight b'))) p = Some s) as Hskip.
  { intros s Hs. destruct (pprev b) as [q|] eqn:Eq; nav_bind; [|congruence].
    destruct Hprev as (bq & Hq & Hhq). cbn in Hs, Hh |- *. subst.
    pose proof (wf_height h Hwf q bq Hq) as H0.
    pose proof (GetSkipHeight_bounds (nHeight b)) as Hbd.
    rewrite (GetAncestor_walk h Hwf q bq) in E by (done || lia). injection E as E.
    replace (Z.to_nat (nHeight b - GetSkipHeight (nHeight b))) with
      (S (Z.to_nat (nHeight bq - GetSkipHeight (nHeight b)))) by lia.
    cbn. rewrite lookup_insert_eq; cbn. by eapply walk_back_mono. }
  split; intros r br; destruct (decide (r = p)) as [->|Hne];
    rewrite ?lookup_insert_eq, ?(lookup_insert_ne h) by done; intros; simplify_eq.
  - rewrite <- Hpp in Hprev. destruct (pprev br) as [q|] eqn:Eq; [|lia].
    destruct Hprev as (bq & Hq & ?). pose proof (wf_height h Hwf q bq Hq). lia.
  - by eapply wf_height.
  - rewrite <- Hpp in Hprev. rewrite H0 in Hprev. destruct Hprev as (bq & Hq & ?).
    exists bq. split; [|lia]. by rewrite lookup_insert_ne by congruence.
  - destruct (wf_prev h Hwf r br q H H0) as (bq & Hq & ?).
    exists bq. split; [|lia]. by rewrite lookup_insert_ne by congruence.
  - rewrite <- Hpp in Hprev. rewrite H0 in Hprev. lia.
  - by eapply wf_genesis.
  - by apply Hskip.
  - eapply walk_back_mono; [done|]. by eapply wf_skip.
Qed.

(** [CChain::SetTip] rebuilds the vector of the active chain: whatever
    chain it held before, afterwards the entry at each height is the ancestor
    of the new tip at that height, although the loop stops at the first entry
    that is already right. *)
Theorem SetTip_is_chain (h : BlockMap) (v : CChain) (tip0 : option uint256) (p : uint256)
    (b : CBlockIndex) :
  wf_blocks h -> is_chain h v tip0 -> h !! p = Some b ->
  exists v', SetTip h v (Some p) = Some v' /\ is_chain h v' (Some p).
Proof.
  intros Hwf Hc Hp. unfold SetTip. rewrite Hp; cbn [mbind option_bind].
  set (n := Z.to_nat (nHeight b + 1)). pose proof (wf_height h Hwf p b Hp) as H0.
  assert (length (vec_resize n v) = n) as Hlen.
  { unfold vec_resize. rewrite length_app, length_take, length_replicate. lia. }
  destruct (SetTip_loop_spec h Hwf n (vec_resize n v) p b tip0 v n (Some p) Hp Hc Hlen)
    as (v' & -> & Hl & Hv); try lia.
  - rewrite decide_False by (unfold n; lia).
    by replace (Z.to_nat (nHeight b + 1) - n)%nat with O by (unfold n; lia).
  - intros i Hi. unfold vec_resize. destruct (decide (i < length v)%nat) as [Hlt|].
    + rewrite lookup_app_l by (rewrite length_take; lia). rewrite lookup_take_lt by done.
      by destruct (lookup_lt_is_Some_2 v i Hlt) as [o ->].
    + rewrite lookup_app_r by (rewrite length_take; lia).
      rewrite lookup_replicate_2 by (rewrite length_take; lia).
      by rewrite (lookup_ge_None_2 v i) by lia.
  - exists v'. split; [done|]. exists b. rewrite Hl, Hlen. repeat split; auto.
    intros i Hi. apply Hv. by rewrite Hlen.
Qed.

Lemma chain_Contains_walk (h : BlockMap) (v : CChain) tip q b :
  wf_blocks h -> is_chain h v tip -> h !! q = Some b ->
  chain_Contains h v q = Some (bool_decide (v !! Z.to_nat (nHeight b) = Some (Some q))).
Proof.
  intros Hwf Hc Hq. unfold chain_Contains, chain_at. rewrite Hq; cbn.
  pose proof (wf_height h Hwf q b Hq) as H0. f_equal. apply bool_decide_ext.
  replace (nHeight b <? 0) with false by (symmetry; apply Z.ltb_ge; lia). cbn.
  destruct (Z.of_nat (length v) <=? nHeight b) eqn:E; nav_bool.
  - rewrite lookup_ge_None_2 by lia. done.
  - destruct (lookup_lt_is_Some_2 v (Z.to_nat (nHeight b))) as [o ->]; [lia|]. cbn.
    split; congruence.
Qed.

(** The loop of [FindFork] stops at the first block of the walk that is on
    the chain. *)
Lemma FindFork_loop_spec (h : BlockMap) (v : CChain) tip fuel p b :
  wf_blocks h -> is_chain h v tip -> h !! p = Some b -> nHeight b < Z.of_nat fuel ->
  exists r, FindFork_loop h v fuel (Some p) = Some r /\
    match r with
    | Some q => exists n, walk_back h n p = Some q /\ chain_Contains h v q = Some true /\
        forall m q', (m < n)%nat -> walk_back h m p = Some q' -> chain_Contains h v q' = Some false
    | None => forall m q', walk_back h m p = Some q' -> chain_Contains h v q' = Some false
    end.
Proof.
  intros Hwf Hc. revert p b; induction fuel as [|fuel IH]; intros p b Hp Hf.
  { pose proof (wf_height h Hwf p b Hp). lia. }
  cbn [FindFork_loop]. rewrite (chain_Contains_walk h v tip p b) by done.
  cbn [mbind option_bind]. case_bool_decide as Hin.
  - exists (Some p). split; [done|]. exists O. cbn. repeat split; [|lia].
    rewrite (chain_Contains_walk h v tip p b) by done. by rewrite bool_decide_eq_true_2.
  - rewrite Hp; cbn [mbind option_bind].
    assert (chain_Contains h v p = Some false) as Hpf.
    { rewrite (chain_Contains_walk h v tip p b) by done. by rewrite bool_decide_eq_false_2. }
    destruct (pprev b) as [q|] eqn:Eq.
    + destruct (wf_prev h Hwf p b q Hp Eq) as (bq & Hbq & Hh).
      destruct (IH q bq Hbq) as (r & Hr & Hspec); [lia|]. exists r. split; [exact Hr|].
      assert (forall m, walk_back h (S m) p = walk_back h m q) as Hstep.
      { intros m. cbn. rewrite Hp; cbn. by rewrite Eq. }
      destruct r as [t|].
      * destruct Hspec as (n & Hn & Ht & Hlt). exists (S n). rewrite Hstep. repeat split; auto.
        intros [|m] q' Hm Hw; [cbn in Hw; congruence|]. rewrite Hstep in Hw. eapply Hlt; [|done]. lia.
      * intros [|m] q' Hw; [cbn in Hw; congruence|]. rewrite Hstep in Hw. by eapply Hspec.
    + exists None. split; [by destruct fuel|]. intros [|m] q' Hw; cbn in Hw; [congruence|].
      rewrite Hp in Hw; cbn in Hw. by rewrite Eq in Hw.
Qed.

(** [CChain::FindFork] returns the last common block: an ancestor of the
    given block that is on the active chain, such that no later ancestor is
    on it; and the null pointer only when no ancestor is on the chain. *)
Theorem FindFork_correct (h : BlockMap) (v : CChain) (tip p : uint256) (b : CBlockIndex) :
  wf_blocks h -> is_chain h v (Some tip) -> h !! p = Some b ->
  exists r, FindFork h v (Some p) = Some r /\
    match r with
    | Some q => exists n, walk_back h n p = Some q /\ chain_Contains h v q = Some true /\
        forall m q', (m < n)%nat -> walk_back h m p = Some q' -> chain_Contains h v q' = Some false
    | None => forall m q', walk_back h m p = Some q' -> chain_Contains h v q' = Some false
    end.
Proof.
  intros Hwf Hc Hp. unfold FindFork. rewrite Hp; cbn [mbind option_bind].
  pose proof (wf_height h Hwf p b Hp) as H0.
  destruct (chain_Height v <? nHeight b) eqn:E; cbn [mbind option_bind].
  2:{ apply (FindFork_loop_spec h v (Some tip) _ p b); auto. lia. }
  nav_bool. unfold chain_Height in *.
  destruct Hc as (bt & Ht & Hlen & Hv) eqn:EHc. clear EHc.
  pose proof (wf_height h Hwf tip bt Ht) as Ht0.
  assert (is_chain h v (Some tip)) as Hc' by (exists bt; auto).
  rewrite (GetAncestor_walk h Hwf p b) by (done || lia). cbn [mbind option_bind].
  set (k := Z.to_nat (nHeight b - (Z.of_nat (length v) - 1))).
  destruct (walk_back_height h Hwf k p b Hp) as (q & bq & Hq & Hbq & Hhq); [lia|].
  rewrite Hq. destruct (FindFork_loop_spec h v (Some tip) (Z.to_nat (nHeight b + 1)) q bq)
    as (r & -> & Hspec); auto; [lia|].
  assert (forall m q', (m < k)%nat -> walk_back h m p = Some q' -> chain_Contains h v q' = Some false)
    as Habove.
  { intros m q' Hm Hw. destruct (walk_back_sound h Hwf _ _ _ _ Hw Hp) as (bq' & Hbq' & Hhq').
    rewrite (chain_Contains_walk h v (Some tip) q' bq') by done.
    rewrite bool_decide_eq_false_2; [done|]. rewrite lookup_ge_None_2; [done|lia]. }
  assert (forall m q', (k <= m)%nat -> walk_back h m p = Some q' -> walk_back h (m - k) q = Some q')
    as Hbelow.
  { intros m q' Hm Hw. replace m with (k + (m - k))%nat in Hw by lia.
    rewrite walk_back_add, Hq in Hw. exact Hw. }
  exists r. split; [done|]. destruct r as [t|].
  - destruct Hspec as (n & Hn & Htc & Hlt). exists (k + n)%nat.
    rewrite walk_back_add, Hq. repeat split; auto. intros m q' Hm Hw.
    destruct (decide (m < k)%nat); [by eapply Habove|].
    eapply (Hlt (m - k)%nat); [lia|]. apply Hbelow; [lia|done].
  - intros m q' Hw. destruct (decide (m < k)%nat); [by eapply Habove|].
    eapply Hspec, Hbelow; [|done]. lia.
Qed.

(** ** A small block tree, and the theorems at it *)

(** Executable form of [wf_blocks]. *)
Definition wf_blockb (h : BlockMap) (pb : uint256 * CBlockIndex) : bool :=
  let '(p, b) := pb in
  (0 <=? nHeight b)
  && match pprev b with
     | None => nHeight b =? 0
     | Some q => match h !! q with Some b' => nHeight b =? nHeight b' + 1 | None => false end
     end
  && match pskip b with
     | None => true
     | Some s => bool_decide
         (walk_back h (Z.to_nat (nHeight b - GetSkipHeight (nHeight b))) p = Some s)
     end.

Lemma wf_blocks_check (h : BlockMap) : forallb (wf_blockb h) (elems h) = true -> wf_blocks h.
Proof.
  intros Hall. rewrite forallb_forall in Hall.
  assert (forall p b, h !! p = Some b -> wf_blockb h (p, b) = true) as Hb.
  { intros p b Hp. apply Hall, list_elem_of_In, elem_of_elems, Hp. }
  split.
  - intros p b Hp. apply Hb in Hp. unfold wf_blockb in Hp. nav_bool. done.
  - intros p b q Hp Hq. apply Hb in Hp. unfold wf_blockb in Hp. rewrite Hq in Hp. nav_bool.
    destruct (h !! q) as [b'|]; [|done]. nav_bool. eauto.
  - intros p b Hp Hq. apply Hb in Hp. unfold wf_blockb in Hp. rewrite Hq in Hp. by nav_bool.
  - intros p b s Hp Hs. apply Hb in Hp. unfold wf_blockb in Hp. rewrite Hs in Hp. nav_bool.
    by apply bool_decide_eq_true in H0.
Qed.

Definition demo_block (prev skip : option uint256) (height time : Z) : CBlockIndex :=
  mkCBlockIndex prev skip height 0 0 time 0 0 0 0 0.

(** Genesis 100, main chain 101 102 103 104, and a branch 203 204 from 102. *)
Definition demo_blocks : BlockMap :=
  list_to_map
    [(100, demo_block None None 0 1000);
     (101, demo_block (Some 100) (Some 100) 1 1030);
     (102, demo_block (Some 101) (Some 100) 2 1060);
     (103, demo_block (Some 102) (Some 101) 3 1090);
     (104, demo_block (Some 103) (Some 100) 4 1120);
     (203, demo_block (Some 102) (Some 101) 3 1091);
     (204, demo_block (Some 203) None 4 1121)].

Definition demo_chain : CChain := [Some 100; Some 101; Some 102; Some 103; Some 104].

Lemma demo_wf : wf_blocks demo_blocks.
Proof. apply wf_blocks_check. vm_compute. reflexivity. Qed.

Lemma demo_is_chain : is_chain demo_blocks demo_chain (Some 104).
Proof.
  exists (demo_block (Some 103) (Some 100) 4 1120). repeat split; try reflexivity.
  intros i Hi. cbn in Hi. do 5 (destruct i as [|i]; [reflexivity|]). lia.
Qed.

Lemma GetAncestor_correct_witness :
  GetAncestor demo_blocks 104 1 = Some (Some 101) /\ GetAncestor demo_blocks 104 5 = Some None.
Proof.
  split; rewrite (GetAncestor_correct demo_blocks 104 (demo_block (Some 103) (Some 100) 4 1120)) by
    (exact demo_wf || reflexivity); vm_compute; reflexivity.
Defined.

Lemma BuildSkip_wf_witness :
  wf_blocks (<[105 := demo_block (Some 104) (Some 101) 5 1150]> demo_blocks).
Proof.
  apply (BuildSkip_wf demo_blocks 105 (demo_block (Some 104) None 5 1150)).
  - exact demo_wf.
  - reflexivity.
  - reflexivity.
  - cbn. exists (demo_block (Some 103) (Some 100) 4 1120). split; reflexivity.
  - vm_compute. reflexivity.
Defined.

Lemma SetTip_is_chain_witness :
  exists v', SetTip demo_blocks demo_chain (Some 204) = Some v' /\ is_chain demo_blocks v' (Some 204).
Proof.
  apply (SetTip_is_chain demo_blocks demo_chain (Some 104) 204 (demo_block (Some 203) None 4 1121));
    [exact demo_wf|exact demo_is_chain|reflexivity].
Defined.

Lemma FindFork_correct_witness :
  FindFork demo_blocks demo_chain (Some 204) = Some (Some 102) /\
  exists r, FindFork demo_blocks demo_chain (Some 204) = Some r /\
    match r with
    | Some q => exists n, walk_back demo_blocks n 204 = Some q /\
        chain_Contains demo_blocks demo_chain q = Some true /\
        forall m q', (m < n)%nat -> walk_back demo_blocks m 204 = Some q' ->
          chain_Contains demo_blocks demo_chain q' = Some false
    | None => forall m q', walk_back demo_blocks m 204 = Some q' ->
        chain_Contains demo_blocks demo_chain q' = Some false
    end.
Proof.
  split; [vm_compute; reflexivity|].
  apply (FindFork_correct demo_blocks demo_chain 104 204 (demo_block (Some 203) None 4 1121));
    [exact demo_wf|exact demo_is_chain|reflexivity].
Defined.
