(* ===== verification/Pow.v ===== *)
(** * Targets and work ([pow.cpp], [chain.cpp], [main.cpp])

    The target of the next block, for work ([GetNextWorkRequired]) and for
    stake ([GetNextTargetRequired]), the work a block stands for
    ([GetBlockProof]) and the limits of target changes, on the 256-bit numbers
    of [ArithUint256].  [None] is a failed assertion, a null pointer that is
    read, or a division by zero. *)
From S2P Require Import Prelude Bytes ArithUint256 Chain.

(** The fields of [Consensus::Params] and [CChainParams] for work and stake. *)
Record PowParams := mkPowParams {
  powLimit : uint256;
  bnProofOfWorkLimit : arith_uint256;
  fPowAllowMinDifficultyBlocks : bool;
  fPowNoRetargeting : bool;
  nPowTargetSpacing : Z;
  nPowTargetTimespan : Z;
  nStakeMinAge : Z;
  nTargetSpacing : Z;
  nTargetTimespan : Z;
  nDailyBlockCount : Z;
  nModifierInterval : Z
}.

(** What the code relies on: the divisors are not zero. *)
Record good_params (P : PowParams) : Prop := {
  gp_limit : 0 < powLimit P < 2 ^ 256;
  gp_work_limit : wide WIDTH256 (bnProofOfWorkLimit P) /\ 0 < value (bnProofOfWorkLimit P);
  gp_pow_spacing : 0 < nPowTargetSpacing P <= nPowTargetTimespan P;
  gp_pow_timespan : nPowTargetTimespan P < 2 ^ 30;
  gp_spacing : 0 < nTargetSpacing P < 2 ^ 31;
  gp_timespan : nTargetSpacing P <= nTargetTimespan P < 2 ^ 31;
  gp_interval : 0 < nModifierInterval P < 2 ^ 24
}.

(** The main network. *)
Definition main_pow : PowParams :=
  mkPowParams (ArithToUint256 (base_uint_shr WIDTH256 (base_uint_compl (base_uint_zero WIDTH256)) 16))
    (base_uint_shr WIDTH256 (base_uint_compl (base_uint_zero WIDTH256)) 16) false false 30 30 7200 30 750 2880 600.

Definition bnProofOfStakeLimit : arith_uint256 :=
  base_uint_shr WIDTH256 (base_uint_compl (base_uint_zero WIDTH256)) 20.

Definition bnProofOfStakeLimitV2 : arith_uint256 :=
  base_uint_shr WIDTH256 (base_uint_compl (base_uint_zero WIDTH256)) 20.

Definition GetProofOfStakeLimit (height : Z) : arith_uint256 := bnProofOfStakeLimitV2.

Abbreviation to256 := (base_uint_u64 WIDTH256).

Section pow.
Context (P : PowParams) (h : BlockMap).

(** ** Work *)

Definition DifficultyAdjustmentInterval : option Z :=
  if nPowTargetSpacing P =? 0 then None else Some (Z.quot (nPowTargetTimespan P) (nPowTargetSpacing P)).

(** The limits of the adjustment. *)
Definition clamp_timespan (nActualTimespan : Z) : Z :=
  let lo := Z.quot (nPowTargetTimespan P) 4 in
  let t := if nActualTimespan <? lo then lo else nActualTimespan in
  let hi := nPowTargetTimespan P * 4 in
  if hi <? t then hi else t.

(** [bnNew *= nActualTimespan] takes the overload for 32-bit words. *)
Definition CalculateNextWorkRequired (last : CBlockIndex) (nFirstBlockTime : Z) : option Z :=
  if fPowNoRetargeting P then Some (nBits last)
  else
    let nActualTimespan := clamp_timespan (GetBlockTime last - nFirstBlockTime) in
    let bnPowLimit := UintToArith256 (powLimit P) in
    let bnNew := (SetCompact (nBits last)).1.1 in
    let bnNew := base_uint_mul32 bnNew (u32 nActualTimespan) in
    do bnNew <- base_uint_div WIDTH256 bnNew (to256 (u64 (nPowTargetTimespan P)));
    GetCompact (if base_uint_gt WIDTH256 bnNew bnPowLimit then bnPowLimit else bnNew) false.

(** [while (pindex->pprev && ...)] *)
Fixpoint last_real_bits (fuel : nat) (interval limit : Z) (p : uint256) : option Z :=
  do b <- h !! p;
  match pprev b with
  | Some q =>
    if negb (Z.rem (nHeight b) interval =? 0) && (nBits b =? limit)
    then match fuel with O => None | S fuel => last_real_bits fuel interval limit q end
    else Some (nBits b)
  | None => Some (nBits b)
  end.

(** [nTime] is the time of the new block. *)
Definition GetNextWorkRequired (pindexLast : option uint256) (time : Z) : option Z :=
  do nProofOfWorkLimit <- GetCompact (UintToArith256 (powLimit P)) false;
  match pindexLast with
  | None => Some nProofOfWorkLimit
  | Some p =>
    do last <- h !! p;
    do interval <- DifficultyAdjustmentInterval;
    if interval =? 0 then None
    else if negb (Z.rem (nHeight last + 1) interval =? 0) then
      if fPowAllowMinDifficultyBlocks P then
        if GetBlockTime last + nPowTargetSpacing P * 2 <? time then Some nProofOfWorkLimit
        else last_real_bits (Z.to_nat (nHeight last)) interval nProofOfWorkLimit p
      else Some (nBits last)
    else
      let nHeightFirst := nHeight last - (interval - 1) in
      check 0 <=? nHeightFirst;
      do first <- GetAncestor h p nHeightFirst;
      do f <- first;
      do bf <- h !! f;
      CalculateNextWorkRequired last (GetBlockTime bf)
  end.

(** The code before [return true] is all that runs. *)
Definition CheckProofOfWork (hash : uint256) (bits : Z) : bool := true.

Definition GetBlockProof (b : CBlockIndex) : option arith_uint256 :=
  let '(bnTarget, fNegative, fOverflow) := SetCompact (nBits b) in
  if fNegative || fOverflow || EqualTo WIDTH256 bnTarget 0 then Some (base_uint_zero WIDTH256)
  else
    do q <- base_uint_div WIDTH256 (base_uint_compl bnTarget) (base_uint_add bnTarget (to256 1));
    Some (base_uint_add q (to256 1)).

(** [toWork] and [fromWork] are the [nChainWork] of the two blocks. *)
Definition GetBlockProofEquivalentTime (toWork fromWork : arith_uint256) (tip : CBlockIndex) : option Z :=
  let '(r, sign) := if base_uint_gt WIDTH256 toWork fromWork
    then (base_uint_sub toWork fromWork, 1) else (base_uint_sub fromWork toWork, -1) in
  do proof <- GetBlockProof tip;
  do r <- base_uint_div WIDTH256 (base_uint_mul WIDTH256 r (to256 (u64 (nPowTargetSpacing P)))) proof;
  Some (if 63 <? bits WIDTH256 r then sign * (2 ^ 63 - 1) else i64 (u64 (u64 sign * GetLow64 r))).

(** The shift by the full width gives zero, so the trust is always zero. *)
Definition GetBlockTrust (b : CBlockIndex) : option uint256 :=
  let bnTarget := (SetCompact (nBits b)).1.1 in
  if base_uint_le WIDTH256 bnTarget (to256 0) then Some 0
  else do q <- base_uint_div WIDTH256 (base_uint_shl WIDTH256 (to256 1) 256) (base_uint_add bnTarget (to256 1));
       Some (ArithToUint256 q).

(** ** Stake *)

Fixpoint last_loop (fuel : nat) (p : uint256) (fProofOfStake : bool) : option uint256 :=
  do b <- h !! p;
  match pprev b with
  | Some q =>
    if Bool.eqb (IsProofOfStake b) fProofOfStake then Some p
    else match fuel with O => None | S fuel => last_loop fuel q fProofOfStake end
  | None => Some p
  end.

Definition GetLastBlockIndex (pindex : option uint256) (fProofOfStake : bool) : option (option uint256) :=
  match pindex with
  | None => Some None
  | Some p => do b <- h !! p; do q <- last_loop (Z.to_nat (nHeight b)) p fProofOfStake; Some (Some q)
  end.

(** The new target before it is made compact; the product of [nInterval]
    takes the overload for 32-bit words. *)
Definition retarget (bnTargetLimit : arith_uint256) (bits nActualSpacing : Z) : option arith_uint256 :=
  let bnNew := (SetCompact bits).1.1 in
  let nInterval := to256 (u32 (nTargetTimespan P) / u32 (nTargetSpacing P)) in
  let spacing := u32 (nTargetSpacing P) in
  let factor := base_uint_add (base_uint_add (base_uint_mul32 (base_uint_sub nInterval (to256 1)) spacing)
    (to256 (u64 nActualSpacing))) (to256 (u64 nActualSpacing)) in
  let bnNew := base_uint_mul WIDTH256 bnNew factor in
  do bnNew <- base_uint_div WIDTH256 bnNew (base_uint_mul32 (base_uint_add nInterval (to256 1)) spacing);
  Some (if base_uint_le WIDTH256 bnNew (to256 0) || base_uint_gt WIDTH256 bnNew bnTargetLimit
        then bnTargetLimit else bnNew).

(** The limit for stake is read through [pindexLast] before the null check. *)
Definition GetNextTargetRequired (pindexLast : option uint256) (fProofOfStake : bool) : option Z :=
  do bnTargetLimit <-
    (if fProofOfStake then do p <- pindexLast; do b <- h !! p; Some (GetProofOfStakeLimit (nHeight b))
     else Some (bnProofOfWorkLimit P));
  match pindexLast with
  | None => GetCompact bnTargetLimit false
  | Some _ =>
    do pindexPrev <- GetLastBlockIndex pindexLast fProofOfStake;
    do prev <- pindexPrev; do b1 <- h !! prev;
    match pprev b1 with
    | None => GetCompact bnTargetLimit false
    | Some q =>
      do pindexPrevPrev <- GetLastBlockIndex (Some q) fProofOfStake;
      do prevprev <- pindexPrevPrev; do b2 <- h !! prevprev;
      match pprev b2 with
      | None => GetCompact bnTargetLimit false
      | Some _ =>
        let nActualSpacing := GetBlockTime b1 - GetBlockTime b2 in
        let nActualSpacing := if nActualSpacing <? 0 then nTargetSpacing P else nActualSpacing in
        if nTargetSpacing P =? 0 then None
        else do bnNew <- retarget bnTargetLimit (nBits b1) nActualSpacing; GetCompact bnNew false
      end
    end
  end.
End pow.

(** [while (nTime > 0 && bnResult < bnTargetLimit)] *)
Fixpoint max_bits_loop (fuel : nat) (limit : arith_uint256) (bnResult : arith_uint256) (time : Z) : option arith_uint256 :=
  if (0 <? time) && base_uint_lt WIDTH256 bnResult limit then
    match fuel with
    | O => None
    | S fuel => max_bits_loop fuel limit (base_uint_mul32 bnResult 2) (time - 24 * 60 * 60)
    end
  else Some bnResult.

Definition ComputeMaxBits (bnTargetLimit : arith_uint256) (nBase time : Z) : option Z :=
  let bnResult := base_uint_mul32 (SetCompact nBase).1.1 2 in
  do bnResult <- max_bits_loop (Z.to_nat (time / (24 * 60 * 60) + 1)) bnTargetLimit bnResult time;
  GetCompact (if base_uint_gt WIDTH256 bnResult bnTargetLimit then bnTargetLimit else bnResult) false.

Definition ComputedMinStake (nBase time blockTime : Z) : option Z := ComputeMaxBits bnProofOfStakeLimit nBase time.

(** ** Numbers *)

Abbreviation wide256 := (wide WIDTH256).

Lemma modulus_256 : modulus 8 = 2 ^ 256.
Proof. done. Qed.

Lemma to256_spec b : 0 <= b < 2 ^ 64 -> wide256 (to256 b) /\ value (to256 b) = b.
Proof. apply (u64_wide 8). lia. Qed.

(** The target [SetCompact] reads. *)
Definition target_of (c : Z) : Z := compact_value c mod 2 ^ 256.

Lemma SetCompact_target c :
  0 <= c < 2 ^ 32 -> wide256 (SetCompact c).1.1 /\ value (SetCompact c).1.1 = target_of c.
Proof. intros Hc. pose proof (SetCompact_spec c Hc) as H. destruct (SetCompact c) as [[bn n] o]. cbn. by destruct H as (H1 & H2 & _). Qed.

(** The compact form of a positive number up to [limit] is read back as one. *)
Lemma compact_bounded (a : arith_uint256) limit :
  wide256 a -> 0 < value a <= limit ->
  exists c b, GetCompact a false = Some c /\ 0 <= c < 2 ^ 32 /\ SetCompact c = (b, false, false) /\
    wide256 b /\ 0 < value b <= limit.
Proof.
  intros Ha Hv. destruct (compact_roundtrip_lemma a Ha) as (c & b & H1 & H2 & H3 & H4 & H5 & H6 & _).
  exists c, b. split; [done|]. split; [done|]. split; [done|]. split; [done|]. lia.
Qed.

(** Cutting a number at the limit. *)
Lemma compact_min limit r :
  wide256 limit -> wide256 r ->
  exists c x, GetCompact (if base_uint_gt WIDTH256 r limit then limit else r) false = Some c /\
    c = compact_of x /\ 0 <= x <= value limit.
Proof.
  intros Wl Wr. rewrite (gt_spec 8) by done. pose proof (wide_range 8 _ Wl). pose proof (wide_range 8 _ Wr).
  destruct (Z.ltb_spec (value limit) (value r)); eexists _, _; (split; [by apply GetCompact_spec|]); (split; [done|]); lia.
Qed.

(** ** Work of a block *)

Lemma target_not_max c : 0 <= c < 2 ^ 32 -> target_of c <> 2 ^ 256 - 1.
Proof.
  intros Hc E. unfold target_of, compact_value in E.
  assert (0 <= compact_mantissa c < 2 ^ 23) as Hm by (apply Z.mod_pos_bound; lia).
  destruct (Z.leb_spec (compact_exponent c) 3) as [He|He].
  - assert (0 < 256 ^ (3 - compact_exponent c)) by (apply Z.pow_pos_nonneg; lia).
    assert (0 <= compact_mantissa c / 256 ^ (3 - compact_exponent c) <= compact_mantissa c).
    { split; [apply Z.div_pos; lia|]. apply Z.div_le_upper_bound; [lia|]. nia. }
    rewrite Z.mod_small in E by lia. lia.
  - replace (256 ^ (compact_exponent c - 3)) with (256 * 256 ^ (compact_exponent c - 4)) in E
      by (rewrite <- Z.pow_succ_r by lia; f_equal; lia).
    rewrite Z.mul_assoc, (Z.mul_comm _ 256), <- Z.mul_assoc in E.
    set (y := compact_mantissa c * 256 ^ (compact_exponent c - 4)) in E.
    pose proof (Z.div_mod (256 * y) (2 ^ 256) ltac:(lia)) as Hdm. rewrite E in Hdm.
    assert (2 ^ 256 = 256 * 2 ^ 248) as E2 by done. rewrite E2 in Hdm. lia.
Qed.

Lemma compact_value_max c : 0 <= c < 2 ^ 32 -> compact_value c <> 2 ^ 256 - 1.
Proof. intros Hc E. apply (target_not_max c Hc). unfold target_of. by rewrite E. Qed.

Lemma compact_value_nonneg c : 0 <= compact_value c.
Proof.
  unfold compact_value. assert (0 <= compact_mantissa c < 2 ^ 23) as Hm by (apply Z.mod_pos_bound; lia).
  destruct (Z.leb_spec (compact_exponent c) 3); [apply Z.div_pos; [lia|apply Z.pow_pos_nonneg; lia]|].
  assert (0 < 256 ^ (compact_exponent c - 3)) by (apply Z.pow_pos_nonneg; lia). nia.
Qed.

Lemma mantissa_zero_iff c :
  (if compact_exponent c <=? 3 then compact_value c else compact_mantissa c) <> 0 <-> compact_value c <> 0.
Proof.
  unfold compact_value. destruct (Z.leb_spec (compact_exponent c) 3); [done|].
  assert (0 < 256 ^ (compact_exponent c - 3)) by (apply Z.pow_pos_nonneg; lia). nia.
Qed.

(** [2 ^ 256 / (target + 1)], the expected number of hashes. *)
Definition block_work (c : Z) : Z :=
  if (Z.testbit c 23 && negb (compact_value c =? 0)) || (2 ^ 256 <=? compact_value c) || (compact_value c =? 0)
  then 0 else 2 ^ 256 / (compact_value c + 1).

Lemma GetBlockProof_work b :
  0 <= nBits b < 2 ^ 32 ->
  exists w, GetBlockProof b = Some w /\ wide256 w /\ value w = block_work (nBits b).
Proof.
  intros Hb. unfold GetBlockProof. pose proof (SetCompact_spec _ Hb) as Hs.
  destruct (SetCompact (nBits b)) as [[t neg] ovf]. destruct Hs as (Hw & Hv & Hovf & Hneg).
  pose proof (compact_value_max _ Hb) as Hmax. set (c := nBits b) in *.
  assert (0 <= compact_value c) as Hpos by apply compact_value_nonneg.
  assert (neg = Z.testbit c 23 && negb (compact_value c =? 0)) as ->.
  { apply eq_true_iff_eq. rewrite Hneg, andb_true_iff, negb_true_iff, Z.eqb_neq. by rewrite mantissa_zero_iff. }
  assert (ovf = (2 ^ 256 <=? compact_value c)) as -> by (apply eq_true_iff_eq; by rewrite Hovf, Z.leb_le).
  rewrite (EqualTo_spec 8) by (done || lia). unfold block_work. rewrite Hv.
  destruct (Z.testbit c 23 && negb (compact_value c =? 0)); cbn [orb].
  { eexists. split; [done|]. split; [apply (zero_wide 8)|done]. }
  destruct (Z.leb_spec (2 ^ 256) (compact_value c)) as [Hle|Hlt]; cbn [orb].
  { eexists. split; [done|]. split; [apply (zero_wide 8)|done]. }
  rewrite Z.mod_small in * by lia. destruct (Z.eqb_spec (compact_value c) 0) as [E|E].
  { eexists. split; [done|]. split; [apply (zero_wide 8)|done]. }
  destruct (to256_spec 1 ltac:(lia)) as [W1 V1]. destruct (compl_spec 8 t Hw) as [Wc Vc].
  destruct (add_spec 8 t _ Hw W1) as [Wa Va]. rewrite V1, Hv, modulus_256, Z.mod_small in Va by lia.
  pose proof (div_spec 8 _ _ Wc Wa) as Hd. destruct (base_uint_div _ _ _) as [q|]; [|lia].
  destruct Hd as (_ & Wq & Vq). rewrite Vc, Va, Hv, modulus_256 in Vq. cbn [mbind option_bind].
  destruct (add_spec 8 q _ Wq W1) as [Wr Vr]. eexists. split; [done|]. split; [done|]. rewrite Vr, V1, Vq, modulus_256.
  set (x := compact_value c) in *.
  assert (2 ^ 256 / (x + 1) = (2 ^ 256 - 1 - x) / (x + 1) + 1) as ->.
  { replace (2 ^ 256) with (2 ^ 256 - 1 - x + 1 * (x + 1)) at 1 by lia. apply Z.div_add. lia. }
  apply Z.mod_small. assert ((2 ^ 256 - 1 - x) / (x + 1) <= 2 ^ 256 - 2); [|pose proof (Z.div_pos (2 ^ 256 - 1 - x) (x + 1)); lia].
  apply Z.div_le_upper_bound; [lia|]. nia.
Qed.

(** ** The last block of a kind *)

(** [q] is [p] or its nearest ancestor of kind [k], or the genesis block. *)
Inductive nearest (h : BlockMap) (k : bool) : uint256 -> uint256 -> Prop :=
  | nearest_here p b : h !! p = Some b -> IsProofOfStake b = k \/ pprev b = None -> nearest h k p p
  | nearest_back p b q r :
      h !! p = Some b -> IsProofOfStake b <> k -> pprev b = Some q -> nearest h k q r -> nearest h k p r.

Lemma last_loop_nearest h k fuel p b :
  wf_blocks h -> h !! p = Some b -> nHeight b <= Z.of_nat fuel ->
  exists q, last_loop h fuel p k = Some q /\ nearest h k p q /\ is_Some (h !! q).
Proof.
  intros Hwf. revert p b; induction fuel as [|fuel IH]; intros p b Hp Hf; cbn [last_loop]; rewrite Hp; cbn [mbind option_bind];
    destruct (pprev b) as [u|] eqn:Eu;
    try (exists p; split; [done|]; split; [by apply (nearest_here h k p b); auto|by eexists]);
    destruct (Bool.eqb_spec (IsProofOfStake b) k);
    try (exists p; split; [done|]; split; [by apply (nearest_here h k p b); auto|by eexists]);
    destruct (wf_prev h Hwf p b u Hp Eu) as (b' & Hb' & Hh').
  - pose proof (wf_height h Hwf u b' Hb'). lia.
  - destruct (IH u b' Hb' ltac:(lia)) as (q & Hq & Hn & Hs). exists q. split; [done|]. split; [|done].
    by apply (nearest_back h k p b u q).
Qed.

Lemma GetLastBlockIndex_nearest h k p b :
  wf_blocks h -> h !! p = Some b ->
  exists q, GetLastBlockIndex h (Some p) k = Some (Some q) /\ nearest h k p q /\ is_Some (h !! q).
Proof.
  intros Hwf Hp. unfold GetLastBlockIndex. rewrite Hp; cbn [mbind option_bind].
  destruct (last_loop_nearest h k (Z.to_nat (nHeight b)) p b Hwf Hp) as (q & -> & Hn & Hs).
  { pose proof (wf_height h Hwf p b Hp). lia. }
  by exists q.
Qed.

(** ** The next target *)

(** The target after [old] for blocks that are [spacing] seconds apart: an
    exponential average over [timespan / spacing] blocks, at most the limit.
    The product is taken modulo [2 ^ 256]. *)
Definition next_target (P : PowParams) (limit old spacing : Z) : Z :=
  let n := nTargetTimespan P / nTargetSpacing P in
  let x := (old * ((n - 1) * nTargetSpacing P + 2 * spacing)) mod 2 ^ 256 / ((n + 1) * nTargetSpacing P) in
  if (x <=? 0) || (limit <? x) then limit else x.

Lemma next_target_bounds P limit old spacing : 0 < limit -> 0 < next_target P limit old spacing <= limit.
Proof. intros H. unfold next_target. destruct (_ || _) eqn:E; [lia|]. nav_bool. lia. Qed.

Lemma retarget_spec P limit c spacing :
  good_params P -> wide256 limit -> word32 c -> 0 <= spacing < 2 ^ 32 ->
  exists t, retarget P limit c spacing = Some t /\ wide256 t /\
    value t = next_target P (value limit) (target_of c) spacing.
Proof.
  intros HP Hl Hc Hs. destruct HP as [_ _ _ _ Hsp Hts _]. unfold retarget, next_target.
  destruct (SetCompact_target c Hc) as [Wo Vo]. rewrite !(u32_small (nTargetTimespan P)), !(u32_small (nTargetSpacing P)), !u64_small by lia.
  set (n := nTargetTimespan P / nTargetSpacing P). set (s := nTargetSpacing P) in *.
  assert (1 <= n < 2 ^ 31) as Hn.
  { split; [apply Z.div_le_lower_bound; lia|]. apply Z.div_lt_upper_bound; [lia|]. nia. }
  assert (word32 s) as Hs32 by (unfold word32; lia).
  destruct (to256_spec n ltac:(lia)) as [Wn Vn], (to256_spec 1 ltac:(lia)) as [W1 V1],
    (to256_spec 0 ltac:(lia)) as [W0 V0], (to256_spec spacing ltac:(lia)) as [Wsp Vsp].
  destruct (sub_spec 8 _ _ Wn W1) as [Wa Va]. rewrite Vn, V1, modulus_256, Z.mod_small in Va by lia.
  destruct (mul32_spec 8 _ s Wa Hs32) as [Wb Vb]. rewrite Va, modulus_256, Z.mod_small in Vb by nia.
  destruct (add_spec 8 _ _ Wb Wsp) as [Wd Vd]. rewrite Vb, Vsp, modulus_256, Z.mod_small in Vd by nia.
  destruct (add_spec 8 _ _ Wd Wsp) as [We Ve]. rewrite Vd, Vsp, modulus_256, Z.mod_small in Ve by nia.
  destruct (mul_spec 8 _ _ Wo We) as [Wf Vf]. rewrite Vo, Ve, modulus_256 in Vf.
  destruct (add_spec 8 _ _ Wn W1) as [Wg Vg]. rewrite Vn, V1, modulus_256, Z.mod_small in Vg by lia.
  destruct (mul32_spec 8 _ s Wg Hs32) as [Wh Vh]. rewrite Vg, modulus_256, Z.mod_small in Vh by nia.
  pose proof (div_spec 8 _ _ Wf Wh) as Hd. destruct (base_uint_div _ _ _) as [q|]; [|nia].
  destruct Hd as (_ & Wq & Vq). rewrite Vf, Vh in Vq. cbn [mbind option_bind].
  rewrite (le_spec 8), (gt_spec 8), V0 by done. eexists. split; [done|].
  rewrite Vq. replace ((n - 1) * s + 2 * spacing) with ((n - 1) * s + spacing + spacing) by ring.
  by destruct (_ || _).
Qed.

(** The fields of the header are 32-bit words. *)
Definition headers_fit (h : BlockMap) : Prop :=
  forall p b, h !! p = Some b -> word32 (nBits b) /\ word32 (nTime b).

(** The limit the code takes. *)
Definition target_limit (P : PowParams) (k : bool) : arith_uint256 :=
  if k then bnProofOfStakeLimitV2 else bnProofOfWorkLimit P.

Lemma target_limit_wide P k : good_params P -> wide256 (target_limit P k) /\ 0 < value (target_limit P k).
Proof. intros [_ HP _ _ _ _ _]. destruct k; [|exact HP]. split; [by apply wide_check|done]. Qed.

(** The time between two blocks; a negative one counts as the target spacing. *)
Definition spacing_of (P : PowParams) (b1 b2 : CBlockIndex) : Z :=
  if nTime b1 <? nTime b2 then nTargetSpacing P else nTime b1 - nTime b2.

(** What the target of the block after [p] is: the limit for the first two blocks of the kind, then the average. *)
Inductive target_rule (P : PowParams) (h : BlockMap) (k : bool) (p : uint256) : Z -> Prop :=
  | rule_first q b : nearest h k p q -> h !! q = Some b -> pprev b = None ->
      target_rule P h k p (value (target_limit P k))
  | rule_second q b u r c : nearest h k p q -> h !! q = Some b -> pprev b = Some u ->
      nearest h k u r -> h !! r = Some c -> pprev c = None ->
      target_rule P h k p (value (target_limit P k))
  | rule_average q b u r c v : nearest h k p q -> h !! q = Some b -> pprev b = Some u ->
      nearest h k u r -> h !! r = Some c -> pprev c = Some v ->
      target_rule P h k p (next_target P (value (target_limit P k)) (target_of (nBits b)) (spacing_of P b c)).

Lemma GetNextTargetRequired_rule P h k p b :
  good_params P -> wf_blocks h -> headers_fit h -> h !! p = Some b ->
  exists t, target_rule P h k p (value t) /\ wide256 t /\ GetNextTargetRequired P h (Some p) k = GetCompact t false.
Proof.
  intros HP Hwf Hfit Hp. unfold GetNextTargetRequired.
  replace (if k then do p0 <- Some p; do b0 <- h !! p0; Some (GetProofOfStakeLimit (nHeight b0)) else Some (bnProofOfWorkLimit P))
    with (Some (target_limit P k)) by (destruct k; cbn [mbind option_bind]; rewrite ?Hp; done).
  cbn [mbind option_bind]. destruct (target_limit_wide P k HP) as [Wl _].
  destruct (GetLastBlockIndex_nearest h k p b Hwf Hp) as (q & -> & Hq & [bq Hbq]). cbn [mbind option_bind].
  rewrite Hbq; cbn [mbind option_bind]. destruct (pprev bq) as [u|] eqn:Eu.
  2:{ exists (target_limit P k). split; [by apply (rule_first P h k p q bq)|done]. }
  destruct (wf_prev h Hwf q bq u Hbq Eu) as (bu & Hbu & _).
  destruct (GetLastBlockIndex_nearest h k u bu Hwf Hbu) as (r & -> & Hr & [br Hbr]). cbn [mbind option_bind].
  rewrite Hbr; cbn [mbind option_bind]. destruct (pprev br) as [v|] eqn:Ev.
  2:{ exists (target_limit P k). split; [by apply (rule_second P h k p q bq u r br)|done]. }
  destruct (Hfit q bq Hbq) as [Hc1 Ht1], (Hfit r br Hbr) as [_ Ht2]. unfold word32 in Ht1, Ht2.
  pose proof (gp_spacing P HP) as Hsp. rewrite (proj2 (Z.eqb_neq (nTargetSpacing P) 0)) by lia.
  change (GetBlockTime bq - GetBlockTime br) with (nTime bq - nTime br).
  replace (if nTime bq - nTime br <? 0 then nTargetSpacing P else nTime bq - nTime br) with (spacing_of P bq br)
    by (unfold spacing_of; destruct (Z.ltb_spec (nTime bq) (nTime br)), (Z.ltb_spec (nTime bq - nTime br) 0); lia).
  assert (0 <= spacing_of P bq br < 2 ^ 32) as Hrange by (unfold spacing_of; destruct (Z.ltb_spec (nTime bq) (nTime br)); lia).
  destruct (retarget_spec P (target_limit P k) (nBits bq) _ HP Wl Hc1 Hrange) as (t & -> & Wt & Vt). cbn [mbind option_bind].
  exists t. split; [|done]. rewrite Vt. by apply (rule_average P h k p q bq u r br v).
Qed.

Lemma target_rule_bounds P h k p t :
  good_params P -> target_rule P h k p t -> 0 < t <= value (target_limit P k).
Proof.
  intros HP. destruct (target_limit_wide P k HP) as [_ Hpos]. destruct 1; [lia..|]. by apply next_target_bounds.
Qed.

(** C37: for every block of a well-formed index the next target of stake or work
    is computed without failing; it is the limit for the first blocks of the
    kind and afterwards the exponential average of the last target with the
    time between the last two blocks of the kind, and the compact number is
    read back as a positive target that is not above the limit. *)
Theorem GetNextTargetRequired_correct P h k p b :
  good_params P -> wf_blocks h -> headers_fit h -> h !! p = Some b ->
  exists t c bn, GetNextTargetRequired P h (Some p) k = Some c /\ target_rule P h k p t /\ c = compact_of t /\
    SetCompact c = (bn, false, false) /\ 0 < value bn <= value (target_limit P k).
Proof.
  intros HP Hwf Hfit Hp. destruct (GetNextTargetRequired_rule P h k p b HP Hwf Hfit Hp) as (t & Hr & Wt & ->).
  pose proof (target_rule_bounds P h k p _ HP Hr) as Hb.
  destruct (compact_bounded t _ Wt Hb) as (c & bn & Hc & _ & Hset & _ & Hv).
  exists (value t), c, bn. split; [done|]. split; [done|]. split; [|done].
  pose proof (GetCompact_spec t Wt). congruence.
Qed.

(** While the product fits 256 bits the average is exact. *)
Lemma next_target_exact P limit old spacing :
  good_params P -> 0 <= old -> 0 <= spacing -> 
  let n := nTargetTimespan P / nTargetSpacing P in
  let x := old * ((n - 1) * nTargetSpacing P + 2 * spacing) / ((n + 1) * nTargetSpacing P) in
  old * ((n - 1) * nTargetSpacing P + 2 * spacing) < 2 ^ 256 ->
  next_target P limit old spacing = if (x <=? 0) || (limit <? x) then limit else x.
Proof.
  intros HP Ho Hs n x Hlt. unfold next_target. fold n. rewrite Z.mod_small; [done|].
  pose proof (gp_spacing P HP). pose proof (gp_timespan P HP).
  assert (1 <= n) by (apply Z.div_le_lower_bound; lia). split; [|exact Hlt]. nia.
Qed.

(** At the limit of stake the product does not fit for blocks more than six
    days apart; the target can then fall although it should stay at the limit. *)
Example retarget_overflow :
  let limit := value bnProofOfStakeLimitV2 in
  next_target main_pow limit (target_of 0x1e0fffff) (2 ^ 19) < limit /\
  next_target main_pow limit (target_of 0x1e0fffff) (2 ^ 18) = limit.
Proof. vm_compute. split; reflexivity. Qed.

(** ** Work of proof-of-work blocks *)

Lemma clamp_timespan_bounds P t :
  good_params P -> 0 <= clamp_timespan P t <= nPowTargetTimespan P * 4.
Proof.
  intros [_ _ Hsp _ _ _ _]. unfold clamp_timespan. rewrite Z.quot_div_nonneg by lia.
  pose proof (Z.div_pos (nPowTargetTimespan P) 4). assert (nPowTargetTimespan P / 4 <= nPowTargetTimespan P) by (apply Z.div_le_upper_bound; lia).
  repeat case_match; nav_bool; lia.
Qed.

Lemma CalculateNextWorkRequired_spec P last t :
  good_params P -> word32 (nBits last) ->
  exists c, CalculateNextWorkRequired P last t = Some c /\
    if fPowNoRetargeting P then c = nBits last
    else let x := (target_of (nBits last) * clamp_timespan P (GetBlockTime last - t)) mod 2 ^ 256 / nPowTargetTimespan P in
         c = compact_of (Z.min x (powLimit P)).
Proof.
  intros HP Hc. unfold CalculateNextWorkRequired. destruct (fPowNoRetargeting P); [by eexists|].
  set (d := GetBlockTime last - t). pose proof (clamp_timespan_bounds P d HP) as Hd. set (ts := clamp_timespan P d) in *.
  destruct HP as [Hlim _ Hsp Hts _ _ _].
  destruct (SetCompact_target _ Hc) as [Wo Vo]. rewrite u32_small, u64_small by lia.
  destruct (mul32_spec 8 _ ts Wo ltac:(unfold word32; lia)) as [Wm Vm]. rewrite Vo, modulus_256 in Vm.
  destruct (to256_spec (nPowTargetTimespan P) ltac:(lia)) as [Wt Vt].
  pose proof (div_spec 8 _ _ Wm Wt) as Hq. destruct (base_uint_div _ _ _) as [q|]; [|lia].
  destruct Hq as (_ & Wq & Vq). rewrite Vm, Vt in Vq. cbn [mbind option_bind].
  destruct (UintToArith256_value (powLimit P) ltac:(lia)) as [Wl Vl]. rewrite (gt_spec 8), Vl by done.
  destruct (Z.ltb_spec (powLimit P) (value q)) as [Hlt|Hge]; eexists; (split; [by apply GetCompact_spec|]); f_equal; lia.
Qed.

Lemma last_real_bits_spec h fuel i limit p b :
  wf_blocks h -> headers_fit h -> h !! p = Some b -> nHeight b <= Z.of_nat fuel ->
  exists c, last_real_bits h fuel i limit p = Some c /\ word32 c.
Proof.
  intros Hwf Hfit. revert p b; induction fuel as [|fuel IH]; intros p b Hp Hf; cbn [last_real_bits]; rewrite Hp;
    cbn [mbind option_bind]; destruct (Hfit p b Hp) as [Hc _];
    (destruct (pprev b) as [u|] eqn:Eu; [|by eexists]); (destruct (_ && _); [|by eexists]);
    destruct (wf_prev h Hwf p b u Hp Eu) as (b' & Hb' & Hh').
  - pose proof (wf_height h Hwf u b' Hb'). lia.
  - apply (IH u b'); [done|lia].
Qed.

Lemma compact_of_word x : 0 <= x < 2 ^ 256 -> word32 (compact_of x).
Proof.
  intros Hx. destruct (UintToArith256_value x Hx) as [Wx Vx].
  destruct (compact_roundtrip_lemma _ Wx) as (c & b & Hc & Hr & _). rewrite GetCompact_spec, Vx in Hc by done.
  injection Hc as <-. exact Hr.
Qed.

(** The target of a proof-of-work block is always computed: for any block of
    a well-formed index no assertion fails and no pointer is null when the
    height reaches the adjustment interval, and the result is a 32-bit compact
    number. *)
Theorem GetNextWorkRequired_total P h p b time :
  good_params P -> wf_blocks h -> headers_fit h -> h !! p = Some b ->
  exists c, GetNextWorkRequired P h (Some p) time = Some c /\ word32 c.
Proof.
  intros HP Hwf Hfit Hp. pose proof HP as [Hlim _ Hsp Hts _ _ _]. unfold GetNextWorkRequired, DifficultyAdjustmentInterval.
  destruct (UintToArith256_value (powLimit P) ltac:(lia)) as [Wl Vl]. rewrite GetCompact_spec, Vl by done.
  cbn [mbind option_bind]. rewrite Hp; cbn [mbind option_bind]. rewrite (proj2 (Z.eqb_neq _ _)) by lia. cbn [mbind option_bind].
  rewrite Z.quot_div_nonneg by lia. set (i := nPowTargetTimespan P / nPowTargetSpacing P).
  assert (1 <= i) as Hi by (apply Z.div_le_lower_bound; lia). rewrite (proj2 (Z.eqb_neq i 0)) by lia.
  pose proof (wf_height h Hwf p b Hp) as Hh. destruct (Hfit p b Hp) as [Hc _].
  destruct (Z.eqb_spec (Z.rem (nHeight b + 1) i) 0) as [Er|Er]; cbn [negb].
  - assert (i - 1 <= nHeight b) as Hge.
    { rewrite Z.rem_mod_nonneg in Er by lia. apply Z.mod_divide in Er; [|lia]. apply Z.divide_pos_le in Er; lia. }
    rewrite (proj2 (Z.leb_le _ _)) by lia. rewrite (GetAncestor_walk h Hwf p b) by (done || lia). cbn [mbind option_bind].
    destruct (walk_back_height h Hwf (Z.to_nat (nHeight b - (nHeight b - (i - 1)))) p b Hp ltac:(lia)) as (q & bq & -> & Hq & _).
    cbn [mbind option_bind]. rewrite Hq. cbn [mbind option_bind].
    destruct (CalculateNextWorkRequired_spec P b (GetBlockTime bq) HP Hc) as (c & -> & Hcase).
    exists c. split; [done|]. destruct (fPowNoRetargeting P); [by subst c|]. rewrite Hcase. apply compact_of_word.
    match goal with |- 0 <= Z.min ?x _ < _ => assert (0 <= x) end; [|lia].
    apply Z.div_pos; [|lia]. apply Z.mod_pos_bound. lia.
  - destruct (fPowAllowMinDifficultyBlocks P); [|by eexists].
    destruct (_ <? time); [eexists; split; [done|]; apply compact_of_word; lia|].
    apply (last_real_bits_spec h _ _ _ p b); [done|done|done|lia].
Qed.

(** the work of a block is [2 ^ 256 / (target + 1)] although [2 ^ 256] does not
    fit the type, for every compact number: the division never fails, and a
    negative, zero or overflowing target counts as no work. *)
Theorem GetBlockProof_correct b :
  0 <= nBits b < 2 ^ 32 ->
  exists w, GetBlockProof b = Some w /\ wide256 w /\ value w = block_work (nBits b).
Proof. apply GetBlockProof_work. Qed.

(** ** Times and limits *)

Lemma block_work_range c : 0 <= block_work c < 2 ^ 256.
Proof.
  unfold block_work. destruct (_ || _) eqn:E; [lia|]. apply orb_false_iff in E as [E E0]. nav_bool.
  pose proof (compact_value_nonneg c). split; [apply Z.div_pos; lia|]. apply Z.div_lt; lia.
Qed.

(** The time the difference of two chains' work takes at the tip's rate, cut to 64 bits. *)
Lemma GetBlockProofEquivalentTime_spec P w1 w2 tip :
  good_params P -> wide256 w1 -> wide256 w2 -> word32 (nBits tip) -> block_work (nBits tip) <> 0 ->
  let d := Z.abs (value w1 - value w2) in
  d * nPowTargetSpacing P < 2 ^ 256 ->
  GetBlockProofEquivalentTime P w1 w2 tip =
    Some ((if value w2 <? value w1 then 1 else -1) * Z.min (d * nPowTargetSpacing P / block_work (nBits tip)) (2 ^ 63 - 1)).
Proof.
  intros HP W1 W2 Hc Hne d Hd. destruct HP as [_ _ Hsp Hts _ _ _]. unfold GetBlockProofEquivalentTime.
  pose proof (wide_range 8 _ W1) as R1. pose proof (wide_range 8 _ W2) as R2. rewrite modulus_256 in R1, R2.
  rewrite (gt_spec 8) by done. set (sign := if value w2 <? value w1 then 1 else -1).
  assert (exists r, (if value w2 <? value w1 then (base_uint_sub w1 w2, 1) else (base_uint_sub w2 w1, -1)) = (r, sign) /\
    wide256 r /\ value r = d) as (r & -> & Wr & Vr).
  { unfold sign, d. destruct (Z.ltb_spec (value w2) (value w1)); eexists; (split; [done|]);
      [destruct (sub_spec 8 w1 w2 W1 W2) as [Ws Vs]|destruct (sub_spec 8 w2 w1 W2 W1) as [Ws Vs]];
      (split; [done|]); rewrite Vs, modulus_256, Z.mod_small; lia. }
  destruct (GetBlockProof_work tip Hc) as (w & -> & Ww & Vw). cbn [mbind option_bind]. rewrite (u64_small (nPowTargetSpacing P)) by lia.
  destruct (to256_spec (nPowTargetSpacing P) ltac:(lia)) as [Wp Vp].
  destruct (mul_spec 8 _ _ Wr Wp) as [Wm Vm]. rewrite Vr, Vp, modulus_256, Z.mod_small in Vm by nia.
  pose proof (div_spec 8 _ _ Wm Ww) as Hq. destruct (base_uint_div _ _ _) as [q|]; [|lia].
  destruct Hq as (_ & Wq & Vq). rewrite Vm, Vw in Vq. cbn [mbind option_bind]. rewrite (bits_spec 8), (GetLow64_spec 8) by (done || lia).
  pose proof (wide_range 8 _ Wq) as Rq. rewrite <- Vq. f_equal.
  destruct (Z.ltb_spec 63 (bit_length (value q))) as [Hb|Hb].
  - assert (2 ^ 63 <= value q).
    { destruct (decide (value q = 0)) as [E|E]; [rewrite E in Hb; cbn in Hb; lia|].
      destruct (bit_length_bounds (value q) ltac:(lia)) as [[Hlo _] _].
      assert (2 ^ 63 <= 2 ^ (bit_length (value q) - 1)) by (apply Z.pow_le_mono_r; lia). lia. }
    rewrite Z.min_r by lia. done.
  - assert (value q < 2 ^ 63).
    { destruct (decide (value q = 0)) as [E|E]; [lia|].
      destruct (bit_length_bounds (value q) ltac:(lia)) as [[_ Hhi] _].
      assert (2 ^ bit_length (value q) <= 2 ^ 63) by (apply Z.pow_le_mono_r; lia). lia. }
    rewrite Z.min_l, Z.mod_small by lia. unfold sign. destruct (value w2 <? value w1).
    + rewrite (u64_small 1), Z.mul_1_l, u64_small, i64_small by lia. done.
    + unfold i64, u64. rewrite Zmult_mod_idemp_l. destruct (decide (value q = 0)) as [->|Hq0]; [done|].
      replace (-1 * value q) with (2 ^ 64 - value q + (-1) * 2 ^ 64) by lia. rewrite Z.mod_add, (Z.mod_small (_ - _)) by lia.
      replace (2 ^ 64 - value q + 2 ^ 63) with (2 ^ 63 - value q + 1 * 2 ^ 64) by lia. rewrite Z.mod_add, Z.mod_small by lia. lia.
Qed.

Lemma GetBlockTrust_zero b : word32 (nBits b) -> GetBlockTrust b = Some 0.
Proof.
  intros Hc. unfold GetBlockTrust. destruct (SetCompact_target _ Hc) as [Wt Vt].
  pose proof (SetCompact_spec _ Hc) as Hs. destruct (SetCompact (nBits b)) as [[t neg] ovf]. cbn [fst] in *.
  destruct (to256_spec 1 ltac:(lia)) as [W1 V1], (to256_spec 0 ltac:(lia)) as [W0 V0].
  rewrite (le_spec 8), V0 by done. destruct (Z.leb_spec (value t) 0); [done|].
  destruct (shl_spec 8 _ 256 W1 ltac:(lia)) as [Ws Vs]. rewrite V1, modulus_256, Z.mul_1_l, Z.mod_same in Vs by lia.
  destruct (add_spec 8 t _ Wt W1) as [Wa Va]. pose proof (div_spec 8 _ _ Ws Wa) as Hq.
  pose proof (wide_range 8 t Wt) as Rt. rewrite modulus_256 in Rt.
  assert (value t <> 2 ^ 256 - 1) as Hmax.
  { rewrite Vt. unfold target_of. intros E. pose proof (target_not_max _ Hc). done. }
  rewrite V1, modulus_256, Z.mod_small in Va by lia.
  destruct (base_uint_div _ _ _) as [q|]; [|lia]. destruct Hq as (_ & Wq & Vq). rewrite Vs, Zdiv_0_l in Vq.
  cbn [mbind option_bind]. f_equal. by rewrite ArithToUint256_value.
Qed.

Lemma max_bits_loop_spec fuel limit r time :
  wide256 limit -> wide256 r -> time / (24 * 60 * 60) < Z.of_nat fuel ->
  exists r', max_bits_loop fuel limit r time = Some r' /\ wide256 r'.
Proof.
  intros Wl. revert r time; induction fuel as [|fuel IH]; intros r time Wr Hf; cbn [max_bits_loop];
    (destruct (0 <? time) eqn:E; cbn [andb]; [|by eexists]); (destruct (base_uint_lt _ _ _); [|by eexists]).
  - nav_bool. pose proof (Z.div_pos time (24 * 60 * 60)). lia.
  - apply IH; [by apply (mul32_spec 8)|].
    replace (time - 24 * 60 * 60) with (time + (-1) * (24 * 60 * 60)) by lia. rewrite Z.div_add by lia. lia.
Qed.

(** The bound on the bits after [time] seconds exists and is within the limit. *)
Lemma ComputeMaxBits_spec limit nBase time :
  wide256 limit -> word32 nBase ->
  exists c x, ComputeMaxBits limit nBase time = Some c /\ c = compact_of x /\ 0 <= x <= value limit.
Proof.
  intros Wl Hb. unfold ComputeMaxBits. destruct (SetCompact_target _ Hb) as [Wt _].
  destruct (mul32_spec 8 _ 2 Wt ltac:(unfold word32; lia)) as [Wm _].
  destruct (decide (0 <= time)) as [Ht|Ht].
  - destruct (max_bits_loop_spec (Z.to_nat (time / (24 * 60 * 60) + 1)) limit _ time Wl Wm) as (r & -> & Wr).
    { pose proof (Z.div_pos time (24 * 60 * 60)). lia. }
    cbn [mbind option_bind]. apply compact_min; done.
  - assert ((0 <? time) = false) as E by (apply Z.ltb_ge; lia).
    replace (max_bits_loop _ _ _ _) with (Some (base_uint_mul32 (SetCompact nBase).1.1 2))
      by (destruct (Z.to_nat _); cbn [max_bits_loop]; by rewrite E).
    cbn [mbind option_bind]. apply compact_min; done.
Qed.


(** ** Examples *)

Definition stake_block (prev : option uint256) (height time bits : Z) : CBlockIndex :=
  mkCBlockIndex prev None height 0 0 time bits 0 0 0 (if height =? 0 then 0 else BLOCK_PROOF_OF_STAKE).

(** Genesis 1 and stake blocks 2 to 5. *)
Definition stake_chain : BlockMap :=
  list_to_map
    [(1, stake_block None 0 1000 0x1e0fffff);
     (2, stake_block (Some 1) 1 1600 0x1e0fffff);
     (3, stake_block (Some 2) 2 1640 0x1d00ffff);
     (4, stake_block (Some 3) 3 2240 0x1d00ffff);
     (5, stake_block (Some 4) 4 2250 0x1d010000)].

Lemma stake_chain_wf : wf_blocks stake_chain.
Proof. apply wf_blocks_check. vm_compute. reflexivity. Qed.

Definition headers_fitb (h : BlockMap) : bool :=
  forallb (fun x => (0 <=? nBits x.2) && (nBits x.2 <? 2 ^ 32) && (0 <=? nTime x.2) && (nTime x.2 <? 2 ^ 32)) (elems h).

Lemma headers_fit_check h : headers_fitb h = true -> headers_fit h.
Proof.
  unfold headers_fitb. rewrite forallb_forall. intros H p b Hp.
  specialize (H (p, b) (proj1 (list_elem_of_In _ _) (proj2 (elem_of_elems _ _ _) Hp))). unfold word32. cbn [snd] in H.
  nav_bool. lia.
Qed.

Lemma stake_chain_fits : headers_fit stake_chain.
Proof. apply headers_fit_check. vm_compute. reflexivity. Qed.

Lemma main_pow_good : good_params main_pow.
Proof.
  split; cbn [powLimit bnProofOfWorkLimit nPowTargetSpacing nPowTargetTimespan nTargetSpacing nTargetTimespan nModifierInterval main_pow]; try lia.
  - vm_compute. split; reflexivity.
  - split; [apply wide_check; vm_compute; reflexivity|vm_compute; reflexivity].
Qed.

Lemma GetNextTargetRequired_correct_witness :
  exists t c bn, GetNextTargetRequired main_pow stake_chain (Some 5) true = Some c /\
    target_rule main_pow stake_chain true 5 t /\ c = compact_of t /\ SetCompact c = (bn, false, false) /\
    0 < value bn <= value bnProofOfStakeLimitV2.
Proof.
  apply (GetNextTargetRequired_correct main_pow stake_chain true 5 (stake_block (Some 4) 4 2250 0x1d010000));
    [exact main_pow_good|exact stake_chain_wf|exact stake_chain_fits|reflexivity].
Defined.

(** Ten seconds after the last block the target goes down by [40 / 780]. *)
Example GetNextTargetRequired_run :
  GetNextTargetRequired main_pow stake_chain (Some 5) true = Some (compact_of (target_of 0x1d010000 * 740 / 780)).
Proof. vm_compute. reflexivity. Qed.

Lemma GetNextWorkRequired_total_witness :
  exists c, GetNextWorkRequired main_pow stake_chain (Some 5) 2300 = Some c /\ word32 c.
Proof.
  apply (GetNextWorkRequired_total main_pow stake_chain 5 (stake_block (Some 4) 4 2250 0x1d010000));
    [exact main_pow_good|exact stake_chain_wf|exact stake_chain_fits|reflexivity].
Defined.

Lemma GetBlockProof_correct_witness :
  exists w, GetBlockProof (stake_block None 0 0 0x1d00ffff) = Some w /\ value w = 4295032833.
Proof.
  destruct (GetBlockProof_correct (stake_block None 0 0 0x1d00ffff)) as (w & H & _ & Hv); [cbn; lia|].
  exists w. split; [exact H|]. rewrite Hv. vm_compute. reflexivity.
Defined.
