(* ===== verification/StakeModifier.v ===== *)
(** * The stake modifier ([main.cpp], [chain.h])

    [ComputeNextStakeModifier] collects one bit from each of up to 64 blocks of
    the past; [SelectBlockFromCandidates] chooses the block of a round.  The
    double SHA-256 of a byte string is a parameter. *)
From S2P Require Import Prelude Bytes ArithUint256 Chain Pow.

(** The fields of [CBlockIndex] only staking reads, by block. *)
Record StakeFields := mkStakeFields { nStakeModifier : Z; hashProof : arith_uint256 }.

Definition BLOCK_STAKE_MODIFIER : Z := 0x04.

Definition GeneratedStakeModifier (b : CBlockIndex) : bool := flag_set (nFlags b) BLOCK_STAKE_MODIFIER.
Definition GetStakeEntropyBit (b : CBlockIndex) : Z := Z.shiftr (Z.land (nFlags b) BLOCK_STAKE_ENTROPY) 1.

Definition MODIFIER_INTERVAL_RATIO : Z := 3.

Section modifier.
Context (Hash : list Z -> uint256) (P : PowParams) (h : BlockMap) (stake : uint256 -> StakeFields).

(** ** The code *)

(** The last modifier and the time it was generated; the caller has checked
    that the pointer is not null. *)
Fixpoint last_modifier_loop (fuel : nat) (p : uint256) : option uint256 :=
  do b <- h !! p;
  match pprev b with
  | Some q =>
    if GeneratedStakeModifier b then Some p
    else match fuel with O => None | S fuel => last_modifier_loop fuel q end
  | None => Some p
  end.

Definition GetLastStakeModifier (p : uint256) : option (Z * Z) :=
  do b <- h !! p;
  do q <- last_modifier_loop (Z.to_nat (nHeight b)) p;
  do bq <- h !! q;
  Some (if GeneratedStakeModifier bq then nStakeModifier (stake q) else 1, GetBlockTime bq).

(** Unsigned 32-bit arithmetic. *)
Definition GetStakeModifierSelectionIntervalSection (nSection : nat) : Z :=
  u32 (nModifierInterval P * 63) / (63 + (63 - Z.of_nat nSection) * (MODIFIER_INTERVAL_RATIO - 1)).

Definition GetStakeModifierSelectionInterval : Z :=
  foldl (fun n nSection => n + GetStakeModifierSelectionIntervalSection nSection) 0 (seq 0 64).

(** A candidate: time and hash. *)
Abbreviation candidate := (Z * uint256)%type.

(** The order [std::sort] uses on pairs. *)
Definition cand_le (c d : candidate) : Prop := c.1 < d.1 \/ (c.1 = d.1 /\ c.2 <= d.2).
#[global] Instance cand_le_dec : RelDecision cand_le.
Proof. intros c d. unfold cand_le. apply _. Defined.

(** [ss << ArithToUint256(pindex->hashProof) << nStakeModifierPrev] *)
Definition selection_hash (nStakeModifierPrev : Z) (p : uint256) (b : CBlockIndex) : uint256 :=
  let hashSelection := Hash (uint256_bytes (ArithToUint256 (hashProof (stake p))) ++ le_bytes 8 nStakeModifierPrev) in
  if IsProofOfStake b then ArithToUint256 (base_uint_shr WIDTH256 (UintToArith256 hashSelection) 32) else hashSelection.

(** [best] is [hashBest] and [*pindexSelected] once [fSelected] is true; [None]
    when the index does not know a candidate. *)
Fixpoint select_loop (selected : list uint256) (nSelectionIntervalStop nStakeModifierPrev : Z)
    (best : option (uint256 * uint256)) (l : list candidate) : option (option (uint256 * uint256)) :=
  match l with
  | [] => Some best
  | (_, hash) :: l =>
    do b <- h !! hash;
    match best with
    | Some (hashBest, _) =>
      if nSelectionIntervalStop <? GetBlockTime b then Some best
      else if bool_decide (hash ∈ selected) then select_loop selected nSelectionIntervalStop nStakeModifierPrev best l
      else
        let hashSelection := selection_hash nStakeModifierPrev hash b in
        select_loop selected nSelectionIntervalStop nStakeModifierPrev
          (if hashSelection <? hashBest then Some (hashSelection, hash) else best) l
    | None =>
      if bool_decide (hash ∈ selected) then select_loop selected nSelectionIntervalStop nStakeModifierPrev best l
      else select_loop selected nSelectionIntervalStop nStakeModifierPrev
             (Some (selection_hash nStakeModifierPrev hash b, hash)) l
    end
  end.

(** The selected block; [None] is [false]. *)
Definition SelectBlockFromCandidates (vSortedByTimestamp : list candidate) (mapSelectedBlocks : list uint256)
    (nSelectionIntervalStop nStakeModifierPrev : Z) : option uint256 :=
  do best <- select_loop mapSelectedBlocks nSelectionIntervalStop nStakeModifierPrev None vSortedByTimestamp;
  do x <- best; Some x.2.

(** [while (pindex && pindex->GetBlockTime() >= nSelectionIntervalStart)] *)
Fixpoint collect_candidates (fuel : nat) (start : Z) (pindex : option uint256) : option (list candidate) :=
  match pindex with
  | None => Some []
  | Some p =>
    do b <- h !! p;
    if start <=? GetBlockTime b then
      match fuel with
      | O => None
      | S fuel => do l <- collect_candidates fuel start (pprev b); Some ((GetBlockTime b, p) :: l)
      end
    else Some []
  end.

(** A round: [nSelectionIntervalStop], the new modifier and the selected blocks. *)
Definition modifier_round (sorted : list candidate) (nStakeModifierPrev : Z)
    (s : Z * Z * list uint256) (nRound : nat) : option (Z * Z * list uint256) :=
  let '(stop, new, selected) := s in
  let stop := stop + GetStakeModifierSelectionIntervalSection nRound in
  do p <- SelectBlockFromCandidates sorted selected stop nStakeModifierPrev;
  do b <- h !! p;
  Some (stop, Z.lor new (u64 (Z.shiftl (GetStakeEntropyBit b) (Z.of_nat nRound))), selected ++ [p]).

(** What the function returns, [nStakeModifier] and [fGeneratedStakeModifier];
    [None] is a division by zero. *)
Definition ComputeNextStakeModifier (pindexPrev : option uint256) : option (bool * Z * bool) :=
  match pindexPrev with
  | None => Some (false, 0, true)
  | Some p =>
    do '(nStakeModifier, nModifierTime) <- GetLastStakeModifier p;
    do b <- h !! p;
    if nModifierInterval P =? 0 then None
    else if Z.quot (GetBlockTime b) (nModifierInterval P) <=? Z.quot nModifierTime (nModifierInterval P)
    then Some (true, nStakeModifier, false)
    else
      let nSelectionInterval := GetStakeModifierSelectionInterval in
      let nSelectionIntervalStart :=
        Z.quot (GetBlockTime b) (nModifierInterval P) * nModifierInterval P - nSelectionInterval in
      do v <- collect_candidates (Z.to_nat (nHeight b + 1)) nSelectionIntervalStart (Some p);
      let vSortedByTimestamp := merge_sort cand_le (rev v) in
      Some (match foldM (modifier_round vSortedByTimestamp nStakeModifier) (nSelectionIntervalStart, 0, [])
                        (seq 0 (Nat.min 64 (length vSortedByTimestamp))) with
            | None => (false, nStakeModifier, false)
            | Some (_, nStakeModifierNew, _) => (true, nStakeModifierNew, true)
            end)
  end.

(** ** Reference *)

(** The selection hash as a number: proof of stake divides it by 2^32. *)
Definition rank (prev : Z) (p : uint256) (b : CBlockIndex) : Z :=
  let x := Hash (uint256_bytes (value (hashProof (stake p))) ++ le_bytes 8 prev) in
  if IsProofOfStake b then x / 2 ^ 32 else x.

(** The length of section [n] of the interval, and the end of the first [n]. *)
Definition section_length (n : nat) : Z := nModifierInterval P * 63 / (63 + (63 - Z.of_nat n) * 2).
Definition sections (n : nat) : Z := foldr Z.add 0 (map section_length (seq 0 n)).

(** The nearest block, from [p] back, that generated a modifier; the genesis
    block when there is none. *)
Definition last_generated (p q : uint256) : Prop :=
  exists n bq, walk_back h n p = Some q /\ h !! q = Some bq /\
    (GeneratedStakeModifier bq = true \/ pprev bq = None) /\
    forall i u bu, (i < n)%nat -> walk_back h i p = Some u -> h !! u = Some bu -> GeneratedStakeModifier bu = false.

(** The candidates in the order of time and hash: the blocks from [p] back
    up to the first one before the start of the interval. *)
Record candidates (start : Z) (p : uint256) (l : list candidate) : Prop := {
  ca_sorted : StronglySorted cand_le l;
  ca_nodup : NoDup l.*2;
  ca_blocks : forall t q, (t, q) ∈ l <-> exists n b, walk_back h n p = Some q /\ h !! q = Some b /\ nTime b = t /\
    forall i u bu, (i <= n)%nat -> walk_back h i p = Some u -> h !! u = Some bu -> start <= nTime bu
}.

(** Hashes have 256 bits, and so have the proofs of the blocks. *)
Record hashes_fit : Prop := {
  hf_hash : forall l, 0 <= Hash l < 2 ^ 256;
  hf_proof : forall q, wide WIDTH256 (hashProof (stake q))
}.

Lemma selection_hash_rank prev p b : hashes_fit -> selection_hash prev p b = rank prev p b.
Proof.
  intros [Hh Hp]. unfold selection_hash, rank. rewrite (ArithToUint256_value (hashProof _)) by apply Hp.
  set (x := Hash _). destruct (IsProofOfStake b); [|done].
  destruct (UintToArith256_value x (Hh _)) as [Hw Hv]. destruct (shr_spec WIDTH256 _ 32 Hw) as [Hw' Hv']; [lia|].
  rewrite ArithToUint256_value by done. by rewrite Hv', Hv.
Qed.

(** ** What a round selects *)

Definition unselected (selected : list uint256) (l : list candidate) : list candidate :=
  filter (fun c => c.2 ∉ selected) l.

(** The first candidate of least selection hash. *)
Fixpoint least (prev : Z) (best : uint256 * uint256) (l : list candidate) : option uint256 :=
  match l with
  | [] => Some best.2
  | (_, hash) :: l =>
    do b <- h !! hash;
    let x := rank prev hash b in
    least prev (if x <? best.1 then (x, hash) else best) l
  end.

(** Among the unselected candidates up to the end of the interval the one of
    least hash, and without any the first after it. *)
Definition pick (l : list candidate) (selected : list uint256) (stop prev : Z) : option uint256 :=
  match filter (fun c => c.1 <= stop) (unselected selected l) with
  | [] => snd <$> head (unselected selected l)
  | (_, hash) :: early => do b <- h !! hash; least prev (rank prev hash b, hash) early
  end.

(** Candidates the index knows, with their times. *)
Definition known (l : list candidate) : Prop :=
  Forall (fun c : candidate => exists b, h !! c.2 = Some b /\ nTime b = c.1) l.

Lemma unselected_cons selected c l :
  unselected selected (c :: l) = if bool_decide (c.2 ∈ selected) then unselected selected l else c :: unselected selected l.
Proof.
  unfold unselected. case_bool_decide; [by rewrite filter_cons_False by auto|by rewrite filter_cons_True].
Qed.

Abbreviation early stop l := (filter (fun c : candidate => c.1 <= stop) l).

Lemma late_none stop selected (l : list candidate) :
  Forall (fun c : candidate => stop < c.1) l -> early stop (unselected selected l) = [].
Proof.
  induction 1 as [|c l Hc _ IH]; [done|]. rewrite unselected_cons. case_bool_decide; [done|].
  rewrite filter_cons_False by lia. done.
Qed.

Lemma sorted_late stop (c : candidate) l : StronglySorted cand_le (c :: l) -> stop < c.1 -> Forall (fun d : candidate => stop < d.1) (c :: l).
Proof.
  intros Hs Hc. apply StronglySorted_inv in Hs as [_ Hs]. constructor; [done|].
  eapply Forall_impl; [exact Hs|]. intros d [Hd|[Hd _]]; lia.
Qed.

Lemma select_loop_best selected stop prev best l :
  hashes_fit -> StronglySorted cand_le l -> known l ->
  exists x, select_loop selected stop prev (Some best) l = Some (Some x) /\
    least prev best (early stop (unselected selected l)) = Some x.2.
Proof.
  intros Hfit Hs Hk. revert best Hs; induction Hk as [|c l (b & Hb & Ht) Hk IH]; intros best Hs; cbn [select_loop].
  { by exists best. }
  destruct c as [t hash]. cbn [fst snd] in *. rewrite Hb. cbn [mbind option_bind]. destruct best as [hb pb].
  change (GetBlockTime b) with (nTime b). rewrite Ht. destruct (Z.ltb_spec stop t) as [Hlt|Hle].
  - exists (hb, pb). split; [done|]. by rewrite late_none by (by apply sorted_late).
  - apply StronglySorted_inv in Hs as [Hs _]. rewrite unselected_cons. cbn [snd]. case_bool_decide; [by apply IH|].
    rewrite filter_cons_True by done. cbn [least fst]. rewrite Hb. cbn [mbind option_bind].
    rewrite selection_hash_rank by done. destruct (rank prev hash b <? hb); by apply IH.
Qed.

Lemma select_loop_pick selected stop prev l :
  hashes_fit -> StronglySorted cand_le l -> known l ->
  exists best, select_loop selected stop prev None l = Some best /\ pick l selected stop prev = snd <$> best.
Proof.
  intros Hfit Hs Hk. revert Hs; induction Hk as [|c l (b & Hb & Ht) Hk IH]; intros Hs; cbn [select_loop].
  { by exists None. }
  destruct c as [t hash]. cbn [fst snd] in *. rewrite Hb. cbn [mbind option_bind]. unfold pick. rewrite unselected_cons. cbn [snd].
  case_bool_decide as Hsel.
  { apply StronglySorted_inv in Hs as [Hs _]. by apply IH. }
  rewrite selection_hash_rank by done. destruct (select_loop_best selected stop prev (rank prev hash b, hash) l) as (x & -> & Hx);
    [done|by apply StronglySorted_inv in Hs as [Hs _]|done|].
  exists (Some x). split; [done|]. cbn [fmap option_fmap option_map]. rewrite <- Hx.
  destruct (Z.le_gt_cases t stop) as [Hle|Hgt].
  - rewrite filter_cons_True by done. by rewrite Hb.
  - pose proof (sorted_late stop (t, hash) l Hs Hgt) as Hlate. apply Forall_cons in Hlate as [_ Hlate].
    rewrite filter_cons_False by (cbn; lia). by rewrite late_none.
Qed.

Lemma SelectBlockFromCandidates_pick l selected stop prev :
  hashes_fit -> StronglySorted cand_le l -> known l ->
  SelectBlockFromCandidates l selected stop prev = pick l selected stop prev.
Proof.
  intros Hfit Hs Hk. unfold SelectBlockFromCandidates.
  destruct (select_loop_pick selected stop prev l Hfit Hs Hk) as (best & -> & ->). by destruct best.
Qed.

(** ** The rounds *)

Lemma least_elem prev best l p :
  least prev best l = Some p -> p = best.2 \/ p ∈ l.*2.
Proof.
  revert best; induction l as [|[t hash] l IH]; intros best; cbn [least]; [intros [= <-]; by left|].
  destruct (h !! hash) as [b|]; cbn [mbind option_bind]; [|done]. intros Hl. apply IH in Hl as [->|Hin].
  - destruct (_ <? _); cbn [snd]; [right; left|by left].
  - right. by right.
Qed.

Lemma least_total prev best l : known l -> is_Some (least prev best l).
Proof.
  intros Hk. revert best; induction Hk as [|[t hash] l (b & Hb & _) Hk IH]; intros best; cbn [least]; [by eexists|].
  cbn [snd] in Hb. rewrite Hb. apply IH.
Qed.

Lemma known_sub l l' : l' ⊆ l -> known l -> known l'.
Proof. intros Hsub Hk. apply Forall_forall. intros c Hc. unfold known in Hk. rewrite Forall_forall in Hk. by apply Hk, Hsub. Qed.

Lemma pick_unselected l selected stop prev p :
  pick l selected stop prev = Some p -> p ∈ l.*2 /\ p ∉ selected.
Proof.
  unfold pick. intros Hp.
  assert (exists c, c ∈ unselected selected l /\ p = c.2) as (c & Hc & ->).
  { destruct (early stop (unselected selected l)) as [|[t hash] r] eqn:E.
    - destruct (unselected selected l) as [|c r] eqn:E2; [done|]. cbn in Hp. injection Hp as <-. exists c. split; [left|done].
    - destruct (h !! hash) as [b|]; cbn [mbind option_bind] in Hp; [|done].
      apply least_elem in Hp. cbn [snd] in Hp.
      assert (p ∈ ((t, hash) :: r).*2) as Hin by (destruct Hp as [->|Hp]; [left|by right]).
      rewrite <- E in Hin. apply list_elem_of_fmap in Hin as (c & -> & Hc). exists c. split; [|done].
      by apply list_elem_of_filter in Hc as [_ Hc]. }
  apply list_elem_of_filter in Hc as [Hns Hin]. split; [|done]. apply list_elem_of_fmap. by exists c.
Qed.

Lemma pick_total l selected stop prev :
  known l -> NoDup l.*2 -> (length selected < length l)%nat -> is_Some (pick l selected stop prev).
Proof.
  intros Hk Hnd Hlen.
  assert (known (unselected selected l)) as Hku.
  { eapply known_sub; [|exact Hk]. intros c Hc. by apply list_elem_of_filter in Hc as [_ Hc]. }
  assert (unselected selected l <> []) as Hne.
  { intros E. assert (l.*2 ⊆ selected) as Hsub.
    { intros p Hp. apply list_elem_of_fmap in Hp as (c & -> & Hc). destruct (decide (c.2 ∈ selected)) as [|Hn]; [done|].
      by pose proof (filter_nil_not_elem_of _ _ c E Hn). }
    pose proof (NoDup_submseteq _ _ Hnd Hsub) as Hsm. apply submseteq_length in Hsm. rewrite length_fmap in Hsm. lia. }
  unfold pick. destruct (early stop (unselected selected l)) as [|[t hash] r] eqn:E.
  - destruct (unselected selected l); [done|]. by eexists.
  - assert (known ((t, hash) :: r)) as Hkr.
    { rewrite <- E. eapply known_sub; [|exact Hku]. intros c Hc. by apply list_elem_of_filter in Hc as [_ Hc]. }
    apply Forall_cons in Hkr as [(b & Hb & _) Hkr]. cbn [snd] in Hb. rewrite Hb. by apply least_total.
Qed.

Definition entropy (p : uint256) : bool :=
  match h !! p with Some b => flag_set (nFlags b) BLOCK_STAKE_ENTROPY | None => false end.

Lemma entropy_bits b (n i : nat) :
  (n < 64)%nat ->
  Z.testbit (u64 (Z.shiftl (GetStakeEntropyBit b) (Z.of_nat n))) (Z.of_nat i) =
    (i =? n)%nat && flag_set (nFlags b) BLOCK_STAKE_ENTROPY.
Proof.
  intros Hn. change BLOCK_STAKE_ENTROPY with (Z.shiftl 1 1). rewrite flag_testbit by lia.
  assert (forall k, 0 <= k -> Z.testbit (GetStakeEntropyBit b) k = (k =? 0) && Z.testbit (nFlags b) 1) as Hbit.
  { intros k Hk. unfold GetStakeEntropyBit. rewrite Z.shiftr_spec, Z.land_spec by lia. rewrite andb_comm.
    change BLOCK_STAKE_ENTROPY with (2 ^ 1). rewrite Z.pow2_bits_eqb by lia.
    destruct (Z.eqb_spec k 0) as [->|Hk0]; [done|]. by rewrite (proj2 (Z.eqb_neq 1 (k + 1))) by lia. }
  unfold u64. destruct (Z.lt_ge_cases (Z.of_nat i) 64) as [Hi|Hi].
  - rewrite Z.mod_pow2_bits_low by lia. rewrite Z.shiftl_spec by lia.
    destruct (Z.lt_ge_cases (Z.of_nat i) (Z.of_nat n)) as [Hlt|Hge].
    + rewrite Z.testbit_neg_r by lia. by rewrite (proj2 (Nat.eqb_neq i n)) by lia.
    + rewrite Hbit by lia. f_equal. apply eq_true_iff_eq. rewrite Z.eqb_eq, Nat.eqb_eq. lia.
  - rewrite Z.mod_pow2_bits_high by lia. by rewrite (proj2 (Nat.eqb_neq i n)) by lia.
Qed.

Definition interval_stop (start : Z) (n : nat) : Z := start + sections n.

Lemma sections_S n : sections (S n) = sections n + section_length n.
Proof.
  unfold sections. rewrite seq_S, map_app, foldr_app. cbn [map foldr Nat.add].
  assert (forall l y, foldr Z.add y l = foldr Z.add 0 l + y) as ->.
  { induction l as [|z l IH]; intros y; cbn; [lia|]. rewrite IH. lia. }
  lia.
Qed.

Section params.
Context (HP : good_params P).

Lemma section_spec n : GetStakeModifierSelectionIntervalSection n = section_length n.
Proof.
  unfold GetStakeModifierSelectionIntervalSection, section_length. pose proof (gp_interval P HP).
  unfold u32. by rewrite Z.mod_small by lia.
Qed.

Lemma interval_stop_S start n :
  interval_stop start (S n) = interval_stop start n + GetStakeModifierSelectionIntervalSection n.
Proof. unfold interval_stop. rewrite sections_S, section_spec. lia. Qed.

Lemma interval_spec : GetStakeModifierSelectionInterval = sections 64.
Proof.
  unfold GetStakeModifierSelectionInterval.
  assert (forall n, foldl (fun x nSection => x + GetStakeModifierSelectionIntervalSection nSection) 0 (seq 0 n) = sections n) as Hn; [|apply Hn].
  induction n as [|n IH]; [done|]. rewrite seq_S, foldl_app, IH. cbn [foldl Nat.add]. by rewrite sections_S, section_spec.
Qed.
End params.

(** What the rounds have built: distinct blocks, each the choice of its round,
    and their bits. *)
Record modifier_of (l : list candidate) (prev start : Z) (new : Z) (sel : list uint256) : Prop := {
  mo_nodup : NoDup sel;
  mo_pick : forall i q, sel !! i = Some q -> pick l (take i sel) (interval_stop start (S i)) prev = Some q;
  mo_bits : forall i, Z.testbit new (Z.of_nat i) = match sel !! i with Some q => entropy q | None => false end;
  mo_pos : 0 <= new
}.

Lemma modifier_round_spec l prev start new sel :
  good_params P -> hashes_fit -> StronglySorted cand_le l -> known l -> NoDup l.*2 ->
  (length sel < length l)%nat -> (length sel < 64)%nat -> modifier_of l prev start new sel ->
  exists new' q, modifier_round l prev (interval_stop start (length sel), new, sel) (length sel) =
      Some (interval_stop start (S (length sel)), new', sel ++ [q]) /\
    modifier_of l prev start new' (sel ++ [q]).
Proof.
  intros HP Hfit Hs Hk Hnd Hlen H64 [Hsel Hpick Hbits Hpos]. unfold modifier_round. rewrite <- interval_stop_S by done.
  rewrite SelectBlockFromCandidates_pick by done.
  destruct (pick_total l sel (interval_stop start (S (length sel))) prev Hk Hnd Hlen) as [q Hq].
  rewrite Hq. cbn [mbind option_bind]. destruct (pick_unselected _ _ _ _ _ Hq) as [Hin Hout].
  apply list_elem_of_fmap in Hin as (c & -> & Hc). unfold known in Hk. rewrite Forall_forall in Hk.
  destruct (Hk c Hc) as (b & Hb & _). rewrite Hb. cbn [mbind option_bind]. eexists _, c.2. split; [done|]. split.
  - apply NoDup_app. split; [done|]. split; [|apply NoDup_singleton]. intros x Hx Hy. apply list_elem_of_singleton in Hy. by subst.
  - intros i q Hi. destruct (decide (i < length sel)%nat) as [Hlt|Hge].
    + rewrite lookup_app_l in Hi by done. rewrite take_app_le by lia. by apply Hpick.
    + assert (i = length sel) as ->.
      { apply lookup_lt_Some in Hi. rewrite length_app in Hi. cbn in Hi. lia. }
      rewrite lookup_app_r, Nat.sub_diag in Hi by done. cbn in Hi. injection Hi as <-. by rewrite take_app_length.
  - intros i. rewrite Z.lor_spec, entropy_bits by done.
    destruct (decide (i < length sel)%nat) as [Hlt|Hge].
    + rewrite Hbits, lookup_app_l by done. rewrite (proj2 (Nat.eqb_neq _ _)) by lia. by rewrite orb_false_r.
    + rewrite Hbits, (lookup_ge_None_2 sel i), lookup_app_r by lia. cbn [orb].
      destruct (Nat.eqb_spec i (length sel)) as [->|Hne].
      * rewrite Nat.sub_diag. cbn. unfold entropy. by rewrite Hb.
      * by rewrite lookup_ge_None_2 by (cbn; lia).
  - apply Z.lor_nonneg. split; [done|]. apply Z.mod_pos_bound. lia.
Qed.

Lemma modifier_rounds_spec l prev start n :
  good_params P -> hashes_fit -> StronglySorted cand_le l -> known l -> NoDup l.*2 -> (n <= length l)%nat -> (n <= 64)%nat ->
  exists new sel, foldM (modifier_round l prev) (start, 0, []) (seq 0 n) = Some (interval_stop start n, new, sel) /\
    modifier_of l prev start new sel /\ length sel = n.
Proof.
  intros HP Hfit Hs Hk Hnd. induction n as [|n IH]; intros Hn H64.
  { exists 0, []. split; [unfold interval_stop; cbn; by rewrite Z.add_0_r|]. split; [|done]. split; [apply NoDup_nil_2|done| |done]. intros i. by rewrite Z.testbit_0_l. }
  destruct (IH ltac:(lia) ltac:(lia)) as (new & sel & Hf & Hm & Hlen).
  rewrite seq_S, foldM_app, Hf. cbn [mbind option_bind foldM Nat.add]. rewrite <- Hlen.
  destruct (modifier_round_spec l prev start new sel HP Hfit Hs Hk Hnd ltac:(lia) ltac:(lia) Hm) as (new' & q & -> & Hm').
  cbn [mbind option_bind]. exists new', (sel ++ [q]). split; [done|]. split; [done|]. rewrite length_app. cbn. lia.
Qed.

(** ** The whole function *)

Lemma bits_bound x n : 0 <= n -> 0 <= x -> (forall i, n <= i -> Z.testbit x i = false) -> x < 2 ^ n.
Proof.
  intros Hn Hx Hb. destruct (Z.lt_ge_cases x (2 ^ n)) as [|Hge]; [done|exfalso].
  assert (0 < x) as Hp by (pose proof (Z.pow_pos_nonneg 2 n); lia).
  pose proof (Z.bit_log2 x Hp) as Ht. rewrite Hb in Ht; [done|]. by apply Z.log2_le_pow2.
Qed.

Section wf.
Context (Hwf : wf_blocks h).

(** The blocks from [p] back up to the first before [start]. *)
Definition reached (start : Z) (p : uint256) (t : Z) (q : uint256) : Prop :=
  exists n b, walk_back h n p = Some q /\ h !! q = Some b /\ nTime b = t /\
    forall i u bu, (i <= n)%nat -> walk_back h i p = Some u -> h !! u = Some bu -> start <= nTime bu.

Lemma reached_here start p b : h !! p = Some b -> start <= nTime b -> reached start p (nTime b) p.
Proof.
  intros Hp Hs. exists 0%nat, b. split_and!; try done. intros i u bu Hi. assert (i = 0)%nat as -> by lia.
  cbn. intros [= <-] Hu. by simplify_eq.
Qed.

(** One block further back. *)
Lemma reached_step start p b q t x :
  h !! p = Some b -> pprev b = Some q -> start <= nTime b ->
  reached start p t x <-> (t, x) = (nTime b, p) \/ reached start q t x.
Proof.
  intros Hp Hq Hs. split.
  - intros ([|n] & bx & Hw & Hx & Ht & Hall); [left; cbn in Hw; by simplify_eq|right].
    exists n, bx. cbn in Hw. rewrite Hp in Hw; cbn in Hw. rewrite Hq in Hw; cbn in Hw. split_and!; try done.
    intros i u bu Hi Hu. apply (Hall (S i)); [lia|]. cbn. rewrite Hp; cbn. by rewrite Hq.
  - intros [[= -> ->]|(n & bx & Hw & Hx & Ht & Hall)]; [by apply reached_here|].
    exists (S n), bx. split_and!; [cbn; rewrite Hp; cbn; by rewrite Hq|done..|].
    intros [|i] u bu Hi; cbn; [intros [= <-] Hu; by simplify_eq|]. rewrite Hp; cbn. rewrite Hq; cbn. apply Hall. lia.
Qed.

Lemma reached_late start p b t x : h !! p = Some b -> nTime b < start -> ~ reached start p t x.
Proof. intros Hp Hs (n & bx & _ & _ & _ & Hall). pose proof (Hall 0%nat p b ltac:(lia) eq_refl Hp). lia. Qed.

Lemma walk_back_lower n p b q bq : h !! p = Some b -> walk_back h n p = Some q -> h !! q = Some bq -> nHeight bq <= nHeight b.
Proof.
  revert p b; induction n as [|n IH]; intros p b Hp; cbn; [intros [= <-] Hq; by simplify_eq|].
  rewrite Hp; cbn. destruct (pprev b) as [u|] eqn:Eu; [|done]. cbn. intros Hw Hq.
  destruct (wf_prev h Hwf p b u Hp Eu) as (bu & Hu & Hh). specialize (IH u bu Hu Hw Hq). lia.
Qed.

Lemma collect_candidates_spec fuel start p b :
  h !! p = Some b -> nHeight b < Z.of_nat fuel ->
  exists l, collect_candidates fuel start (Some p) = Some l /\ NoDup l.*2 /\
    forall t q, (t, q) ∈ l <-> reached start p t q.
Proof.
  revert p b; induction fuel as [|fuel IH]; intros p b Hp Hf; [pose proof (wf_height h Hwf p b Hp); lia|].
  cbn [collect_candidates]. rewrite Hp. cbn [mbind option_bind]. change (GetBlockTime b) with (nTime b).
  destruct (Z.leb_spec start (nTime b)) as [Hle|Hgt].
  2:{ exists []. split; [done|]. split; [apply NoDup_nil_2|]. intros t q. rewrite elem_of_nil. split; [done|]. by eapply reached_late. }
  destruct (pprev b) as [q|] eqn:Eq.
  - destruct (wf_prev h Hwf p b q Hp Eq) as (b' & Hb' & Hh). destruct (IH q b' Hb' ltac:(lia)) as (l & -> & Hnd & Hl).
    cbn [mbind option_bind]. eexists. split; [done|]. split.
    + cbn. apply NoDup_cons. split; [|done]. intros Hin. apply list_elem_of_fmap in Hin as ([t x] & E & Hc). cbn in E. subst x.
      apply Hl in Hc as (n & bx & Hw & Hx & _). pose proof (walk_back_lower n q b' p bx Hb' Hw Hx). simplify_eq. lia.
    + intros t x. rewrite (reached_step start p b q t x) by done. rewrite elem_of_cons, Hl. done.
  - exists [(nTime b, p)]. replace (collect_candidates fuel start None) with (Some (@nil candidate)) by (by destruct fuel).
    split; [done|]. split; [apply NoDup_singleton|]. intros t x. rewrite list_elem_of_singleton. split.
    + intros [= -> ->]. by apply reached_here.
    + intros ([|n] & bx & Hw & Hx & Ht & _); cbn in Hw; [by simplify_eq|]. rewrite Hp in Hw; cbn in Hw. by rewrite Eq in Hw.
Qed.

Lemma last_modifier_loop_spec fuel p b :
  h !! p = Some b -> nHeight b <= Z.of_nat fuel ->
  exists q, last_modifier_loop fuel p = Some q /\ last_generated p q.
Proof.
  assert (forall p b, h !! p = Some b -> GeneratedStakeModifier b = true \/ pprev b = None -> last_generated p p) as Hhere.
  { intros x bx Hx Hor. exists 0%nat, bx. split_and!; try done. intros i u bu Hi. lia. }
  revert p b; induction fuel as [|fuel IH]; intros p b Hp Hf; cbn [last_modifier_loop]; rewrite Hp; cbn [mbind option_bind];
    (destruct (pprev b) as [u|] eqn:Eu; [|exists p; split; [done|by eapply Hhere; [|right]]]);
    (destruct (GeneratedStakeModifier b) eqn:Eg; [exists p; split; [done|by eapply Hhere; [|left]]|]);
    destruct (wf_prev h Hwf p b u Hp Eu) as (b' & Hb' & Hh').
  - pose proof (wf_height h Hwf u b' Hb'). lia.
  - destruct (IH u b' Hb' ltac:(lia)) as (q & Hq & n & bq & Hw & Hbq & Hor & Hall). exists q. split; [done|].
    exists (S n), bq. split_and!; [cbn; rewrite Hp; cbn; by rewrite Eu|done..|].
    intros [|i] v bv Hi; cbn; [intros [= <-] Hv; by simplify_eq|]. rewrite Hp; cbn. rewrite Eu; cbn. apply Hall. lia.
Qed.
End wf.

#[global] Instance cand_le_trans : Transitive cand_le.
Proof. intros [t1 h1] [t2 h2] [t3 h3]. unfold cand_le; cbn. lia. Qed.
#[global] Instance cand_le_total : Total cand_le.
Proof. intros [t1 h1] [t2 h2]. unfold cand_le; cbn. lia. Qed.

Lemma sorted_candidates start p (v : list candidate) :
  NoDup v.*2 -> (forall t q, (t, q) ∈ v <-> reached start p t q) ->
  let l := merge_sort cand_le (rev v) in candidates start p l /\ known l.
Proof.
  intros Hnd Hv l.
  assert (l ≡ₚ v) as Hperm by (unfold l; by rewrite (merge_sort_Permutation cand_le), <- Permutation_rev).
  split; [split|].
  - apply (StronglySorted_merge_sort _).
  - by rewrite Hperm.
  - intros t q. rewrite Hperm. apply Hv.
  - apply Forall_forall. intros [t q]. rewrite Hperm, Hv. intros (n & b & _ & Hb & Ht & _). by exists b.
Qed.

Lemma ComputeNextStakeModifier_spec p b :
  good_params P -> wf_blocks h -> headers_fit h -> hashes_fit -> h !! p = Some b ->
  exists q bq, last_generated p q /\ h !! q = Some bq /\
    let prev := if GeneratedStakeModifier bq then nStakeModifier (stake q) else 1 in
    let number (x : CBlockIndex) := nTime x / nModifierInterval P in
    if number b <=? number bq then ComputeNextStakeModifier (Some p) = Some (true, prev, false)
    else let start := number b * nModifierInterval P - sections 64 in
      exists l sel new, ComputeNextStakeModifier (Some p) = Some (true, new, true) /\ 0 <= new < 2 ^ 64 /\
        candidates start p l /\ length sel = Nat.min 64 (length l) /\ modifier_of l prev start new sel.
Proof.
  intros HP Hwf Hhf Hfit Hp. unfold ComputeNextStakeModifier, GetLastStakeModifier. rewrite Hp. cbn [mbind option_bind].
  pose proof (wf_height h Hwf p b Hp) as Hh.
  destruct (last_modifier_loop_spec Hwf (Z.to_nat (nHeight b)) p b Hp ltac:(lia)) as (q & -> & Hlast).
  pose proof Hlast as (_ & bq & _ & Hq & _). exists q, bq. split; [done|]. split; [done|].
  cbn [mbind option_bind]. rewrite Hq. cbn [mbind option_bind]. cbv zeta.
  set (prev := if GeneratedStakeModifier bq then nStakeModifier (stake q) else 1).
  pose proof (gp_interval P HP) as Hi. rewrite (proj2 (Z.eqb_neq (nModifierInterval P) 0)) by lia.
  destruct (Hhf p b Hp) as [_ Htb], (Hhf q bq Hq) as [_ Htq]. unfold word32 in *. unfold GetBlockTime.
  rewrite !Z.quot_div_nonneg by lia. destruct (_ <=? _); [done|]. rewrite (interval_spec HP).
  set (start := _ - sections 64).
  destruct (collect_candidates_spec Hwf (Z.to_nat (nHeight b + 1)) start p b Hp ltac:(lia)) as (v & -> & Hnd & Hv).
  cbn [mbind option_bind].
  destruct (sorted_candidates start p v Hnd Hv) as [Hca Hkl]. set (l := merge_sort cand_le (rev v)) in *.
  destruct (modifier_rounds_spec l prev start (Nat.min 64 (length l)) HP Hfit (ca_sorted _ _ _ Hca) Hkl (ca_nodup _ _ _ Hca) ltac:(lia) ltac:(lia))
    as (new & sel & -> & Hm & Hlen).
  exists l, sel, new. split_and!; try done; [apply Hm|]. apply bits_bound; [lia|apply Hm|]. intros i Hi'.
  rewrite <- (Z2Nat.id i), (mo_bits _ _ _ _ _ Hm) by lia. by rewrite lookup_ge_None_2 by lia.
Qed.
End modifier.

(** the block selected in a round is, among the candidates that were not
    selected before and are no later than the end of the round's interval, the
    first of least selection hash, and without such a candidate the earliest
    one after the interval. *)
Theorem SelectBlockFromCandidates_correct Hash h stake l selected stop prev :
  hashes_fit Hash stake -> StronglySorted cand_le l -> known h l ->
  SelectBlockFromCandidates Hash h stake l selected stop prev = pick Hash h stake l selected stop prev.
Proof. apply SelectBlockFromCandidates_pick. Qed.

(** C36: The modifier of the successor of a block is computed as the protocol
    says.  With [q] the nearest block, from [p] back, that generated a modifier
    (or the genesis block, whose modifier counts as one): if [p] is not in a
    later modifier interval than [q], the modifier of [q] is kept; otherwise a
    new one of 64 bits is generated.  Its candidates are the blocks from [p]
    back up to the first one before the start of the selection interval, sorted
    by time and hash; round [i] chooses, among the candidates not chosen yet,
    the one of least rank up to the end of section [i] and else the first; there
    are 64 rounds, or as many as candidates; and bit [i] is the entropy bit of
    the block of round [i].  Without a block the call fails with the modifier
    zero. *)
Theorem ComputeNextStakeModifier_correct Hash P h stake p b :
  good_params P -> wf_blocks h -> headers_fit h -> hashes_fit Hash stake -> h !! p = Some b ->
  ComputeNextStakeModifier Hash P h stake None = Some (false, 0, true) /\
  exists q bq, last_generated h p q /\ h !! q = Some bq /\
    let prev := if GeneratedStakeModifier bq then nStakeModifier (stake q) else 1 in
    let number (x : CBlockIndex) := nTime x / nModifierInterval P in
    if number b <=? number bq then ComputeNextStakeModifier Hash P h stake (Some p) = Some (true, prev, false)
    else let start := number b * nModifierInterval P - sections P 64 in
      exists l sel new, ComputeNextStakeModifier Hash P h stake (Some p) = Some (true, new, true) /\ 0 <= new < 2 ^ 64 /\
        candidates h start p l /\ length sel = Nat.min 64 (length l) /\ modifier_of Hash P h stake l prev start new sel.
Proof. intros HP Hwf Hhf Hfit Hp. split; [done|]. by apply ComputeNextStakeModifier_spec. Qed.

(** ** Examples *)

Definition sum_hash (l : list Z) : uint256 := foldl (fun x y => (x * 257 + y) mod 2 ^ 256) 7 l.
Definition demo_stake (p : uint256) : StakeFields := mkStakeFields 5 (to256 (p * 1000003)).

Lemma demo_hashes_fit : hashes_fit sum_hash demo_stake.
Proof.
  split.
  - assert (forall l x, 0 <= x < 2 ^ 256 -> 0 <= foldl (fun x y => (x * 257 + y) mod 2 ^ 256) x l < 2 ^ 256) as Hl;
      [|intros l; apply Hl; lia].
    induction l as [|y l IH]; intros x Hx; cbn [foldl]; [done|]. apply IH, Z.mod_pos_bound. lia.
  - intros q. split; [done|]. constructor; [apply u32_range|]. constructor; [apply u32_range|apply words_replicate_0].
Qed.

Lemma SelectBlockFromCandidates_correct_witness :
  SelectBlockFromCandidates sum_hash stake_chain demo_stake [(1600, 2); (1640, 3); (2240, 4)] [2] 2000 5 =
    pick sum_hash stake_chain demo_stake [(1600, 2); (1640, 3); (2240, 4)] [2] 2000 5.
Proof.
  apply SelectBlockFromCandidates_correct.
  - exact demo_hashes_fit.
  - repeat constructor; cbn; lia.
  - repeat constructor; eexists; split; vm_compute; reflexivity.
Defined.

(** Block 5 is two intervals after the genesis block, the last one with a
    modifier, and a modifier is generated from the five blocks. *)
Lemma ComputeNextStakeModifier_correct_witness :
  exists q l sel new, last_generated stake_chain 5 q /\
    ComputeNextStakeModifier sum_hash main_pow stake_chain demo_stake (Some 5) = Some (true, new, true) /\
    candidates stake_chain (1800 - sections main_pow 64) 5 l /\ length sel = Nat.min 64 (length l) /\
    modifier_of sum_hash main_pow stake_chain demo_stake l 1 (1800 - sections main_pow 64) new sel.
Proof.
  destruct (ComputeNextStakeModifier_correct sum_hash main_pow stake_chain demo_stake 5 (stake_block (Some 4) 4 2250 0x1d010000))
    as [_ (q & bq & Hlast & Hq & Hc)];
    [exact main_pow_good|exact stake_chain_wf|exact stake_chain_fits|exact demo_hashes_fit|reflexivity|].
  assert (q = 1) as ->.
  { destruct Hlast as (n & b & Hw & Hb & Hor & _).
    destruct n as [|[|[|[|[|n]]]]]; vm_compute in Hw; [injection Hw as <-..|done]; [..|reflexivity];
      vm_compute in Hb; injection Hb as <-; destruct Hor as [Hor|Hor]; vm_compute in Hor; discriminate Hor. }
  vm_compute in Hq. injection Hq as <-. destruct Hc as (l & sel & new & Hn & _ & Hca & Hlen & Hm).
  exists 1, l, sel, new. split; [exact Hlast|]. split; [exact Hn|]. split; [exact Hca|]. split; [exact Hlen|exact Hm].
Defined.
