(* ===== verification/VersionBits.v ===== *)
(** * BIP9 deployments ([src/src/versionbits.h], [versionbits.cpp])

    [AbstractThresholdConditionChecker] is the class [ThresholdChecker]: a
    deployment gives its window, threshold, dates and the condition a block
    signals.  [GetStateFor] is modelled with its cache and its two loops.  The
    reference is the diagram of BIP9, [bip9_move], stated with dates and the
    number of signalling blocks: [bip9_state] runs it from the genesis block on,
    and [reported_state] is what the code answers, which differs where median
    times go back to before the start date. *)
From S2P Require Import Prelude Chain CxxString.

Inductive ThresholdState :=
  | THRESHOLD_DEFINED | THRESHOLD_STARTED | THRESHOLD_LOCKED_IN
  | THRESHOLD_ACTIVE | THRESHOLD_FAILED.

#[export] Instance ThresholdState_eq_dec : EqDecision ThresholdState.
Proof. solve_decision. Defined.

(** The virtual functions of the abstract class, at fixed parameters. *)
Class ThresholdChecker := {
  Condition : uint256 -> option bool;
  BeginTime : Z;
  EndTime : Z;
  Period : Z;
  Threshold : Z
}.

Abbreviation ThresholdConditionCache := (gmap (option uint256) ThresholdState).

Section checker.
Context (h : BlockMap) `{!ThresholdChecker}.

(** Count the signalling blocks of the period that ends at [p]. *)
Fixpoint count_period (n : nat) (p : option uint256) (count : Z) : option Z :=
  match n with
  | O => Some count
  | S n =>
    (* Condition(pindexCount) dereferences the pointer *)
    do q <- p; do c <- Condition q; do b <- h !! q;
    count_period n (pprev b) (if (c : bool) then count + 1 else count)
  end.

(** One iteration of the forward loop: the state after the period whose
    last block is [p]. *)
Definition next_state (state : ThresholdState) (p : uint256) : option ThresholdState :=
  do mtp <- GetMedianTimePast h p;
  match state with
  | THRESHOLD_DEFINED =>
    Some (if EndTime <=? mtp then THRESHOLD_FAILED
          else if BeginTime <=? mtp then THRESHOLD_STARTED else THRESHOLD_DEFINED)
  | THRESHOLD_STARTED =>
    if EndTime <=? mtp then Some THRESHOLD_FAILED
    else do count <- count_period (Z.to_nat Period) (Some p) 0;
         Some (if Threshold <=? count then THRESHOLD_LOCKED_IN else THRESHOLD_STARTED)
  | THRESHOLD_LOCKED_IN => Some THRESHOLD_ACTIVE
  | THRESHOLD_FAILED => Some THRESHOLD_FAILED
  | THRESHOLD_ACTIVE => Some THRESHOLD_ACTIVE
  end.

(** Walk backwards in steps of a period until the cache knows the state.
    [todo] is [vToCompute], its back first. *)
Fixpoint back_loop (fuel : nat) (cache : ThresholdConditionCache) (p : option uint256)
    (todo : list uint256) : option (ThresholdConditionCache * option uint256 * list uint256) :=
  if decide (is_Some (cache !! p)) then Some (cache, p, todo)
  else match p with
  | None => Some (<[None := THRESHOLD_DEFINED]> cache, None, todo)
  | Some q =>
    do mtp <- GetMedianTimePast h q;
    if mtp <? BeginTime then Some (<[Some q := THRESHOLD_DEFINED]> cache, Some q, todo)
    else match fuel with
    | O => None
    | S fuel =>
      do b <- h !! q;
      do p' <- GetAncestor h q (nHeight b - Period);
      back_loop fuel cache p' (q :: todo)
    end
  end.

Fixpoint forward_loop (cache : ThresholdConditionCache) (state : ThresholdState)
    (todo : list uint256) : option (ThresholdState * ThresholdConditionCache) :=
  match todo with
  | [] => Some (state, cache)
  | q :: todo =>
    do stateNext <- next_state state q;
    forward_loop (<[Some q := stateNext]> cache) stateNext todo
  end.

(** The last block of the period before the one [pindexPrev]'s child is in. *)
Definition period_start (pindexPrev : option uint256) : option (option uint256) :=
  match pindexPrev with
  | None => Some None
  | Some p => do b <- h !! p; GetAncestor h p (nHeight b - Z.rem (nHeight b + 1) Period)
  end.

(** The backward loop moves at least one block per round, so the height
    of the start bounds the number of rounds. *)
Definition height_of (p : option uint256) : nat :=
  match p with
  | Some q => match h !! q with Some b => S (Z.to_nat (nHeight b)) | None => O end
  | None => O
  end.

Definition GetStateFor (pindexPrev : option uint256) (cache : ThresholdConditionCache)
    : option (ThresholdState * ThresholdConditionCache) :=
  check negb (Period =? 0);
  do p <- period_start pindexPrev;
  do '(cache, p, todo) <- back_loop (height_of p) cache p [];
  do state <- cache !! p;
  forward_loop cache state todo.

(** ** Reference: the state machine of BIP9 *)

(** The number of blocks, among [q] and the [n - 1] blocks before it, that
    signal. *)
Definition signals (o : option uint256) : bool :=
  match o with Some r => bool_decide (Condition r = Some true) | None => false end.
Definition signalling (n : nat) (q : uint256) : Z :=
  Z.of_nat (length (List.filter id (map (fun i => signals (walk_back h i q)) (seq 0 n)))).

(** The arrows of the diagram of BIP9 at the last block [q] of a period, with
    median time past [t]. *)
Inductive bip9_move (q : uint256) (t : Z) : ThresholdState -> ThresholdState -> Prop :=
  | bip9_early : t < BeginTime -> t < EndTime -> bip9_move q t THRESHOLD_DEFINED THRESHOLD_DEFINED
  | bip9_start : BeginTime <= t -> t < EndTime -> bip9_move q t THRESHOLD_DEFINED THRESHOLD_STARTED
  | bip9_never : EndTime <= t -> bip9_move q t THRESHOLD_DEFINED THRESHOLD_FAILED
  | bip9_timeout : EndTime <= t -> bip9_move q t THRESHOLD_STARTED THRESHOLD_FAILED
  | bip9_wait : t < EndTime -> signalling (Z.to_nat Period) q < Threshold ->
      bip9_move q t THRESHOLD_STARTED THRESHOLD_STARTED
  | bip9_lock : t < EndTime -> Threshold <= signalling (Z.to_nat Period) q ->
      bip9_move q t THRESHOLD_STARTED THRESHOLD_LOCKED_IN
  | bip9_activate : bip9_move q t THRESHOLD_LOCKED_IN THRESHOLD_ACTIVE
  | bip9_active : bip9_move q t THRESHOLD_ACTIVE THRESHOLD_ACTIVE
  | bip9_failed : bip9_move q t THRESHOLD_FAILED THRESHOLD_FAILED.

(** The block one period before [q]; the null pointer before the first. *)
Definition previous_period (q : uint256) (p : option uint256) : Prop :=
  p = walk_back h (Z.to_nat Period) q.

(** BIP9: the state of the period after [q] comes from that of the period
    before by one arrow. *)
Inductive bip9_state : option uint256 -> ThresholdState -> Prop :=
  | bip9_genesis : bip9_state None THRESHOLD_DEFINED
  | bip9_period q t p s s' :
      GetMedianTimePast h q = Some t -> previous_period q p ->
      bip9_state p s -> bip9_move q t s s' -> bip9_state (Some q) s'.

(** What the node answers: like BIP9, except that a period that ends before the
    start date is DEFINED whatever came before it. *)
Inductive reported_state : option uint256 -> ThresholdState -> Prop :=
  | rs_genesis : reported_state None THRESHOLD_DEFINED
  | rs_before q t : GetMedianTimePast h q = Some t -> t < BeginTime -> reported_state (Some q) THRESHOLD_DEFINED
  | rs_period q t p s s' :
      GetMedianTimePast h q = Some t -> BeginTime <= t -> previous_period q p ->
      reported_state p s -> bip9_move q t s s' -> reported_state (Some q) s'.

(** Median times do not decrease from block to block. *)
Definition mtp_monotone : Prop :=
  forall q b r tq tr, h !! q = Some b -> pprev b = Some r ->
    GetMedianTimePast h q = Some tq -> GetMedianTimePast h r = Some tr -> tr <= tq.

(** The last block of the last period that is complete at [pindexPrev]: its
    ancestor whose height is one less than the greatest multiple of the period
    up to the height of the next block. *)
Definition period_end (pindexPrev p : option uint256) : Prop :=
  match pindexPrev with
  | None => p = None
  | Some q => exists b, h !! q = Some b /\ p = walk_back h (Z.to_nat ((nHeight b + 1) mod Period)) q
  end.

(** What a cache may hold: states of the reference. *)
Definition cache_ok (cache : ThresholdConditionCache) : Prop :=
  forall p s, cache !! p = Some s -> reported_state p s.

Lemma bip9_move_fun q t s s1 s2 : bip9_move q t s s1 -> bip9_move q t s s2 -> s1 = s2.
Proof. destruct 1; inversion 1; subst; done || lia. Qed.

Lemma bip9_state_fun p s1 s2 : bip9_state p s1 -> bip9_state p s2 -> s1 = s2.
Proof.
  intros H1. revert s2. induction H1 as [|q t p s s' Ht Hp Hs IH Hm]; inversion 1; subst; [done|].
  unfold previous_period in *. simplify_eq. match goal with H : bip9_state _ ?s2 |- _ => rewrite (IH s2 H) in Hm end.
  by eapply bip9_move_fun.
Qed.

Lemma reported_state_fun p s1 s2 : reported_state p s1 -> reported_state p s2 -> s1 = s2.
Proof.
  intros H1. revert s2. induction H1 as [|q t Ht Hlt|q t p s s' Ht Hle Hp Hs IH Hm]; inversion 1; subst; simplify_eq;
    [done|done|lia|lia|].
  unfold previous_period in *. simplify_eq. match goal with H : reported_state _ ?s2 |- _ => rewrite (IH s2 H) in Hm end.
  by eapply bip9_move_fun.
Qed.

Lemma cache_ok_insert cache p s :
  cache_ok cache -> reported_state p s -> cache_ok (<[p := s]> cache).
Proof.
  intros Hc Hs q t. destruct (decide (p = q)) as [->|Hne].
  - rewrite lookup_insert_eq. by intros [= <-].
  - rewrite lookup_insert_ne by done. apply Hc.
Qed.

(** The blocks still to compute, as the backward loop stacked them: each is
    one period after the one before, the first one after [p], and none ends
    before the start date. *)
Inductive todo_ok : option uint256 -> list uint256 -> Prop :=
  | todo_nil p : todo_ok p []
  | todo_cons p q t todo :
      GetMedianTimePast h q = Some t -> BeginTime <= t -> previous_period q p ->
      todo_ok (Some q) todo -> todo_ok p (q :: todo).

(** The block the answer is for: the last one to compute, or [p]. *)
Definition todo_end (p : option uint256) (todo : list uint256) : option uint256 :=
  match last todo with Some q => Some q | None => p end.

Lemma todo_end_cons p q todo : todo_end p (q :: todo) = todo_end (Some q) todo.
Proof. unfold todo_end. rewrite last_cons. by destruct (last todo). Qed.

Lemma signalling_S n q b r : h !! q = Some b -> pprev b = Some r ->
  signalling (S n) q = (if signals (Some q) then 1 else 0) + signalling n r.
Proof.
  intros Hq Hr. unfold signalling. cbn [seq map]. rewrite <- seq_shift, map_map.
  assert (map (fun i => signals (walk_back h (S i) q)) (seq 0 n) = map (fun i => signals (walk_back h i r)) (seq 0 n)) as ->.
  { apply map_ext. intros i. cbn. rewrite Hq. cbn. by rewrite Hr. }
  cbn [walk_back List.filter]. destruct (signals (Some q)); cbn [id length]; lia.
Qed.

Lemma count_period_signalling n q count c :
  count_period n (Some q) count = Some c -> c = count + signalling n q.
Proof.
  revert q count; induction n as [|n IH]; intros q count; cbn [count_period]; [intros [= <-]; unfold signalling; cbn; lia|].
  cbn [mbind option_bind]. destruct (Condition q) as [x|] eqn:Ec; [|done]. cbn [mbind option_bind].
  destruct (h !! q) as [b|] eqn:Eq; [|done]. cbn [mbind option_bind].
  assert (signals (Some q) = x) as Es by (unfold signals; rewrite Ec; destruct x; [by apply bool_decide_eq_true|by apply bool_decide_eq_false]).
  destruct (pprev b) as [r|] eqn:Er.
  - intros Hc%IH. rewrite (signalling_S n q b r), Es by done. destruct x; lia.
  - destruct n as [|n]; [|done]. intros [= <-]. unfold signalling. cbn [seq map walk_back]. rewrite Es. destruct x; cbn; lia.
Qed.

(** The code takes the arrows of BIP9. *)
Lemma next_state_move s q s' t :
  GetMedianTimePast h q = Some t -> next_state s q = Some s' -> bip9_move q t s s'.
Proof.
  intros Ht. unfold next_state. rewrite Ht; cbn [mbind option_bind].
  destruct s; [| |intros [= <-]; constructor..].
  - destruct (Z.leb_spec EndTime t); [intros [= <-]; by constructor|].
    destruct (Z.leb_spec BeginTime t); intros [= <-]; by constructor.
  - destruct (Z.leb_spec EndTime t); [intros [= <-]; by constructor|].
    destruct (count_period _ _ _) as [c|] eqn:Ec; [|done]. apply count_period_signalling in Ec as ->.
    cbn [mbind option_bind]. destruct (Z.leb_spec Threshold (0 + signalling (Z.to_nat Period) q)); intros [= <-]; constructor; lia.
Qed.

Lemma forward_loop_spec cache p state todo s cache' :
  cache_ok cache -> todo_ok p todo -> reported_state p state ->
  forward_loop cache state todo = Some (s, cache') ->
  reported_state (todo_end p todo) s /\ cache_ok cache'.
Proof.
  revert cache p state; induction todo as [|q todo IH]; intros cache p state Hc Ht Hs Hf.
  { cbn in Hf. simplify_eq. by split. }
  inversion Ht as [|? ? t ? Hq Hle Ha Hrest]; subst. cbn [forward_loop] in Hf.
  destruct (next_state state q) as [s'|] eqn:En; [|done]; cbn in Hf.
  assert (reported_state (Some q) s') by (eapply rs_period; [done..|by eapply next_state_move]).
  rewrite todo_end_cons. eapply IH; [|exact Hrest|done|exact Hf]. by apply cache_ok_insert.
Qed.

(** ** Totality, and the early stop *)

Context (Hwf : wf_blocks h) (Hper : 0 < Period).
Context (Hcond : forall q, is_Some (h !! q) -> is_Some (Condition q)).

(** The last block of a period. *)
Definition boundary (p : option uint256) : Prop :=
  match p with
  | None => True
  | Some q => exists b, h !! q = Some b /\ Z.rem (nHeight b + 1) Period = 0
  end.

Lemma collect_times_total n p b :
  h !! p = Some b -> exists t l, collect_times h (S n) (Some p) = Some (t :: l).
Proof.
  intros Hp. assert (forall n o, (forall q, o = Some q -> is_Some (h !! q)) ->
    exists l, collect_times h n o = Some l) as Htot.
  { clear -Hwf. induction n as [|n IH]; intros [q|] Ho; cbn; eauto.
    destruct (Ho q eq_refl) as [b Hb]. rewrite Hb; cbn.
    destruct (IH (pprev b)) as [l ->]; [|cbn; eauto].
    intros r Hr. destruct (wf_prev h Hwf q b r Hb Hr) as (? & ? & _). eauto. }
  cbn. rewrite Hp; cbn. destruct (Htot n (pprev b)) as [l ->]; [|cbn; eauto].
  intros r Hr. destruct (wf_prev h Hwf p b r Hp Hr) as (? & ? & _). eauto.
Qed.

Lemma GetMedianTimePast_total p b : h !! p = Some b -> exists t, GetMedianTimePast h p = Some t.
Proof.
  intros Hp. unfold GetMedianTimePast.
  destruct (collect_times_total 10 p b Hp) as (t & l & E). unfold nMedianTimeSpan. rewrite E.
  cbn [mbind option_bind]. set (sl := merge_sort Z.le (t :: l)).
  assert (length sl = S (length l)) as Hl.
  { unfold sl. by rewrite (Permutation_length (merge_sort_Permutation Z.le (t :: l))). }
  destruct (lookup_lt_is_Some_2 sl (length sl / 2)) as [x Hx]; [|eauto].
  apply Nat.div_lt; lia.
Qed.

Lemma count_period_total n q b count :
  h !! q = Some b -> Z.of_nat n <= nHeight b + 1 ->
  exists c, count_period n (Some q) count = Some c.
Proof.
  revert q b count; induction n as [|n IH]; intros q b count Hq Hn; cbn; [eauto|].
  destruct (Hcond q) as [c ->]; [by eauto|]; cbn. rewrite Hq; cbn.
  destruct (pprev b) as [r|] eqn:Er.
  - destruct (wf_prev h Hwf q b r Hq Er) as (br & Hr & Hh). eapply IH; [exact Hr|lia].
  - destruct n as [|n]; cbn; [eauto|]. pose proof (wf_genesis h Hwf q b Hq Er). lia.
Qed.

Lemma boundary_height q b : h !! q = Some b -> boundary (Some q) -> Period - 1 <= nHeight b.
Proof.
  intros Hq (b' & Hq' & Hm). simplify_eq. pose proof (wf_height h Hwf q b Hq).
  apply Z.rem_divide in Hm as [k Hk]; [|lia].
  assert (1 <= k) by nia. nia.
Qed.

Lemma next_state_total s q : boundary (Some q) -> exists s', next_state s q = Some s'.
Proof.
  intros Hb. destruct Hb as (b & Hq & Hm) eqn:EHb. clear EHb.
  destruct (GetMedianTimePast_total q b Hq) as [t Ht]. unfold next_state. rewrite Ht; cbn.
  destruct s; eauto. destruct (EndTime <=? t); [eauto|].
  destruct (count_period_total (Z.to_nat Period) q b 0 Hq) as [c Hc].
  - pose proof (boundary_height q b Hq Hb). lia.
  - rewrite Hc; cbn. eauto.
Qed.

(** Walking past the genesis block ends in the null pointer. *)
Lemma walk_back_genesis n q b : h !! q = Some b -> nHeight b < Z.of_nat n -> walk_back h n q = None.
Proof.
  revert q b; induction n as [|n IH]; intros q b Hq Hn; [pose proof (wf_height h Hwf q b Hq); lia|].
  cbn. rewrite Hq. cbn. destruct (pprev b) as [r|] eqn:Er; [|done]. cbn.
  destruct (wf_prev h Hwf q b r Hq Er) as (br & Hr & Hh). apply (IH r br Hr). lia.
Qed.

(** One period back from a period's last block is again one, or null. *)
Lemma period_back q b :
  h !! q = Some b -> boundary (Some q) ->
  exists p, GetAncestor h q (nHeight b - Period) = Some p /\ boundary p /\ previous_period q p /\
    (height_of p < height_of (Some q))%nat.
Proof.
  intros Hq Hb. pose proof (boundary_height q b Hq Hb) as Hge.
  destruct Hb as (b' & Hq' & Hm). simplify_eq. rewrite (GetAncestor_spec h q b) by done. unfold previous_period.
  case_bool_decide as Hle.
  - destruct (walk_back_height h Hwf (Z.to_nat (nHeight b - (nHeight b - Period))) q b Hq)
      as (r & br & Hr & Hbr & Hh); [lia|].
    exists (Some r). rewrite Hr. split; [done|]. split; [|split].
    + exists br. split; [done|]. rewrite Hh.
      replace (nHeight b - Z.of_nat (Z.to_nat (nHeight b - (nHeight b - Period))) + 1)
        with (nHeight b + 1 - Period) by lia.
      apply Z.rem_divide in Hm as [k Hk]; [|lia]. apply Z.rem_divide; [lia|].
      exists (k - 1). lia.
    + rewrite <- Hr. f_equal. lia.
    + cbn. rewrite Hbr, Hq. pose proof (wf_height h Hwf r br Hbr). lia.
  - exists None. split; [done|]. split; [done|]. split; [|cbn; rewrite Hq; lia].
    symmetry. apply (walk_back_genesis _ q b); [done|]. pose proof (wf_height h Hwf q b Hq). lia.
Qed.

Lemma bip9_total p : boundary p -> exists s, bip9_state p s.
Proof.
  remember (height_of p) as n eqn:En. revert p En.
  induction n as [n IH] using lt_wf_ind; intros [q|] -> Hb; [|eauto using bip9_genesis].
  destruct Hb as (b & Hq & Hm) eqn:EHb. clear EHb.
  destruct (period_back q b Hq Hb) as (p & _ & Hbp & Ha & Hlt).
  destruct (IH _ Hlt p eq_refl Hbp) as [s Hs]. destruct (GetMedianTimePast_total q b Hq) as [t Ht].
  destruct (next_state_total s q Hb) as [s' Hs']. exists s'. eapply bip9_period; [done..|by eapply next_state_move].
Qed.

(** The backward loop ends at a block the cache knows, whatever it held. *)
Lemma back_loop_total fuel cache p todo :
  boundary p -> Forall (fun q => boundary (Some q)) todo -> (height_of p <= fuel)%nat ->
  exists cache' p' todo', back_loop fuel cache p todo = Some (cache', p', todo') /\
    Forall (fun q => boundary (Some q)) todo' /\ is_Some (cache' !! p').
Proof.
  revert p todo; induction fuel as [|fuel IH]; intros p todo Hb Hall Hf; cbn [back_loop];
    (destruct (decide (is_Some (cache !! p))) as [Hin|Hin]; [by eexists _, _, _|]);
    (destruct p as [q|]; [|eexists _, _, _; repeat split; [done|rewrite lookup_insert_eq; eauto]]);
    destruct Hb as (b & Hq & Hm) eqn:EHb; clear EHb;
    destruct (GetMedianTimePast_total q b Hq) as [t Htq]; rewrite Htq; cbn [mbind option_bind];
    (destruct (t <? BeginTime); [eexists _, _, _; repeat split; [done|rewrite lookup_insert_eq; eauto]|]).
  - cbn in Hf. rewrite Hq in Hf. lia.
  - destruct (period_back q b Hq Hb) as (p & Ha & Hbp & _ & Hlt).
    rewrite Hq; cbn [mbind option_bind]. rewrite Ha; cbn [mbind option_bind].
    apply IH; [done|by constructor|lia].
Qed.

Lemma back_loop_spec fuel cache p todo :
  cache_ok cache -> boundary p -> todo_ok p todo -> Forall (fun q => boundary (Some q)) todo ->
  (height_of p <= fuel)%nat ->
  exists cache' p' todo', back_loop fuel cache p todo = Some (cache', p', todo') /\
    cache_ok cache' /\ todo_ok p' todo' /\ Forall (fun q => boundary (Some q)) todo' /\
    is_Some (cache' !! p') /\ todo_end p' todo' = todo_end p todo.
Proof.
  revert cache p todo; induction fuel as [|fuel IH]; intros cache p todo Hc Hb Ht Hall Hf;
    cbn [back_loop]; (destruct (decide (is_Some (cache !! p))) as [Hin|Hin];
      [exists cache, p, todo; by repeat split|]);
    (destruct p as [q|]; [|eexists _, _, _; repeat split; eauto;
      [apply cache_ok_insert; [done|constructor]|rewrite lookup_insert_eq; eauto]]);
    destruct Hb as (b & Hq & Hm) eqn:EHb; clear EHb;
    destruct (GetMedianTimePast_total q b Hq) as [t Htq]; rewrite Htq; cbn [mbind option_bind];
    (destruct (t <? BeginTime) eqn:El; nav_bool; [eexists _, _, _; repeat split; eauto;
      [apply cache_ok_insert; [done|by eapply rs_before]|rewrite lookup_insert_eq; eauto]|]).
  - cbn in Hf. rewrite Hq in Hf. lia.
  - destruct (period_back q b Hq Hb) as (p & Ha & Hbp & Hpp & Hlt).
    rewrite Hq; cbn [mbind option_bind]. rewrite Ha; cbn [mbind option_bind].
    destruct (IH cache p (q :: todo)) as (c' & p' & t' & Hbl & Hc' & Ht' & Hall' & Hin' & He);
      eauto; [by eapply todo_cons|lia|].
    exists c', p', t'. repeat split; auto. by rewrite He, todo_end_cons.
Qed.

(** ** When median times do not decrease

    BIP9 relies on it.  This chain does not check it: the time of a block is
    only compared with the clock and, once the synchronisation of time is
    enforced, with the limit [GetPastTimeLimit] of its parent. *)
Section monotone.
Context (Hmtp : mtp_monotone).

Lemma mtp_walk n q b r tq tr :
  h !! q = Some b -> walk_back h n q = Some r ->
  GetMedianTimePast h q = Some tq -> GetMedianTimePast h r = Some tr -> tr <= tq.
Proof.
  revert q b tq; induction n as [|n IH]; intros q b tq Hq Hw Hq' Hr; cbn in Hw.
  { simplify_eq. lia. }
  rewrite Hq in Hw; cbn in Hw. destruct (pprev b) as [u|] eqn:Eu; [|done]. cbn in Hw.
  destruct (wf_prev h Hwf q b u Hq Eu) as (bu & Hu & _).
  destruct (GetMedianTimePast_total u bu Hu) as [tu Htu].
  pose proof (Hmtp q b u tq tu Hq Eu Hq' Htu). pose proof (IH u bu tu Hu Hw Htu Hr). lia.
Qed.

Lemma mtp_known q t : GetMedianTimePast h q = Some t -> exists b, h !! q = Some b.
Proof. unfold GetMedianTimePast, nMedianTimeSpan. cbn. destruct (h !! q) as [b|]; [eauto|done]. Qed.

(** The early stop is right: before the start date the state is DEFINED. *)
Lemma bip9_before_start q t :
  BeginTime <= EndTime -> boundary (Some q) -> GetMedianTimePast h q = Some t -> t < BeginTime ->
  bip9_state (Some q) THRESHOLD_DEFINED.
Proof.
  intros Hdates. remember (height_of (Some q)) as n eqn:En. revert q t En.
  induction n as [n IH] using lt_wf_ind; intros q t -> Hb Ht Hlt.
  destruct Hb as (b & Hq & Hm) eqn:EHb. clear EHb.
  destruct (period_back q b Hq Hb) as (p & _ & Hbp & Ha & Hh).
  assert (bip9_state p THRESHOLD_DEFINED) as Hp.
  { destruct p as [r|]; [|constructor].
    destruct Hbp as (br & Hr & Hmr) eqn:EHr. clear EHr.
    destruct (GetMedianTimePast_total r br Hr) as [tr Htr].
    eapply (IH _ Hh r tr eq_refl Hbp Htr).
    pose proof (mtp_walk _ q b r t tr Hq (eq_sym Ha) Ht Htr). lia. }
  eapply bip9_period; [done..|]. constructor; lia.
Qed.

Lemma reported_bip9 p s : BeginTime <= EndTime -> boundary p -> reported_state p s -> bip9_state p s.
Proof.
  intros Hdates Hb. induction 1 as [|q t Ht Hlt|q t p s s' Ht Hle Hp Hs IH Hm].
  - constructor.
  - by eapply bip9_before_start.
  - destruct Hb as (b & Hq & Hm') eqn:EHb. clear EHb. destruct (period_back q b Hq Hb) as (p' & _ & Hbp & Ha & _).
    unfold previous_period in *. subst p p'. eapply bip9_period; [done..|by apply IH|done].
Qed.
End monotone.

Lemma forward_loop_total cache state todo :
  Forall (fun q => boundary (Some q)) todo ->
  exists r, forward_loop cache state todo = Some r.
Proof.
  intros Hall. revert cache state; induction Hall as [|q todo Hq _ IH];
    intros; cbn [forward_loop]; [eauto|].
  destruct (next_state_total state q Hq) as [s ->]. cbn. apply IH.
Qed.

Lemma period_start_boundary pindexPrev :
  (forall p, pindexPrev = Some p -> is_Some (h !! p)) ->
  exists p, period_start pindexPrev = Some p /\ boundary p /\ period_end pindexPrev p.
Proof.
  intros Hv. destruct pindexPrev as [p|]; cbn; [|by eexists].
  destruct (Hv p eq_refl) as [b Hb]. rewrite Hb; cbn [mbind option_bind].
  pose proof (wf_height h Hwf p b Hb) as H0.
  pose proof (Z.rem_bound_pos (nHeight b + 1) Period) as Hr.
  rewrite (GetAncestor_spec h p b) by done. case_bool_decide as Hle.
  2:{ exists None. split; [done|]. split; [done|]. exists b. split; [done|]. symmetry.
      apply (walk_back_genesis _ p b); [done|]. rewrite <- Z.rem_mod_nonneg by lia. lia. }
  destruct (walk_back_height h Hwf (Z.to_nat (nHeight b - (nHeight b - Z.rem (nHeight b + 1) Period))) p b Hb)
    as (q & bq & Hq & Hbq & Hh); [lia|].
  rewrite Hq. exists (Some q). split; [done|]. split; [|exists b; split; [done|]; rewrite <- Hq, <- Z.rem_mod_nonneg by lia; f_equal; lia].
  exists bq. split; [done|].
  rewrite Hh, Z2Nat.id by lia.
  replace (nHeight b - (nHeight b - (nHeight b - Z.rem (nHeight b + 1) Period)) + 1)
    with (nHeight b + 1 - Z.rem (nHeight b + 1) Period) by lia.
  apply Z.rem_divide; [lia|]. exists (Z.quot (nHeight b + 1) Period).
  pose proof (Z.quot_rem' (nHeight b + 1) Period). lia.
Qed.

Lemma GetStateFor_total pindexPrev cache :
  (forall p, pindexPrev = Some p -> is_Some (h !! p)) -> is_Some (GetStateFor pindexPrev cache).
Proof.
  intros Hv. destruct (period_start_boundary pindexPrev Hv) as (p & Hp & Hb & _).
  unfold GetStateFor. rewrite (proj2 (Z.eqb_neq Period 0)), Hp by lia; cbn [negb mbind option_bind].
  destruct (back_loop_total (height_of p) cache p [] Hb) as (c & p' & todo & -> & Hall & [s Hs]); auto.
  cbn [mbind option_bind]. rewrite Hs; cbn [mbind option_bind].
  destruct (forward_loop_total c s todo Hall) as [r ->]. by eexists.
Qed.
End checker.

(** A deployment whose condition can be evaluated, on a well-formed index. *)
Record checkable (h : BlockMap) (tc : ThresholdChecker) : Prop := {
  ch_blocks : wf_blocks h;
  ch_period : 0 < Period;
  ch_condition : forall q, is_Some (h !! q) -> is_Some (Condition q)
}.

Lemma GetStateFor_spec (h : BlockMap) (tc : ThresholdChecker)
    (cache : ThresholdConditionCache) (pindexPrev : option uint256) :
  checkable h tc -> cache_ok h cache -> (forall p, pindexPrev = Some p -> is_Some (h !! p)) ->
  exists p s cache', period_end h pindexPrev p /\ boundary h p /\
    GetStateFor h pindexPrev cache = Some (s, cache') /\ reported_state h p s /\ cache_ok h cache'.
Proof.
  intros [Hwf Hper Hcond] Hc Hv.
  destruct (period_start_boundary h Hwf Hper pindexPrev Hv) as (p & Hp & Hb & He).
  destruct (back_loop_spec h Hwf Hper (height_of h p) cache p [])
    as (c' & p' & t' & Hbl & Hc' & Ht' & Hall & [s0 Hs0] & Hend); auto using todo_nil.
  destruct (forward_loop_total h Hwf Hper Hcond c' s0 t' Hall) as [[s c''] Hf].
  destruct (forward_loop_spec h c' p' s0 t' s c'') as [Hs Hc'']; auto.
  exists p, s, c''. repeat split; auto; [|by rewrite Hend in Hs].
  unfold GetStateFor. replace (Period =? 0) with false by (symmetry; apply Z.eqb_neq; lia). cbn [negb].
  rewrite Hp; cbn [mbind option_bind]. rewrite Hbl; cbn [mbind option_bind].
  by rewrite Hs0; cbn [mbind option_bind].
Qed.

(** C30: [GetStateFor] terminates without aborting on every block of a well
    formed index, whatever the cache holds as long as its entries are right,
    and leaves the cache right.  It answers for the last complete period, and
    by the arrows of BIP9, except that a period that ends before the start
    date is DEFINED whatever came before.  If median times do not decrease from
    block to block, which this chain does not check, and the start date is not
    after the timeout, the answer is the state of BIP9: the cache and the early
    stop are then only optimisations. *)
Theorem GetStateFor_correct (h : BlockMap) (tc : ThresholdChecker)
    (cache : ThresholdConditionCache) (pindexPrev : option uint256) :
  checkable h tc -> cache_ok h cache -> (forall p, pindexPrev = Some p -> is_Some (h !! p)) ->
  exists p s cache', period_end h pindexPrev p /\
    GetStateFor h pindexPrev cache = Some (s, cache') /\ cache_ok h cache' /\
    reported_state h p s /\ (mtp_monotone h -> BeginTime <= EndTime -> bip9_state h p s).
Proof.
  intros Hck Hok Hv. destruct (GetStateFor_spec h tc cache pindexPrev Hck Hok Hv) as (p & s & c' & Hp & Hb & Hg & Hs & Hc').
  destruct Hck as [Hwf Hper Hcond]. exists p, s, c'. split_and!; try done. intros Hm Hd. by apply reported_bip9.
Qed.

(** Periods that follow each other, none of which ends before the start date. *)
Inductive later_period (h : BlockMap) `{!ThresholdChecker} (q : uint256) : uint256 -> Prop :=
  | later_refl : later_period h q q
  | later_step r u t : later_period h q r -> previous_period h u (Some r) ->
      GetMedianTimePast h u = Some t -> BeginTime <= t -> later_period h q u.

(** After a period that ends past the timeout a deployment is decided. *)
Lemma bip9_move_decides h `{!ThresholdChecker} q t s s' :
  EndTime <= t -> bip9_move h q t s s' -> s' = THRESHOLD_ACTIVE \/ s' = THRESHOLD_FAILED.
Proof. intros He. destruct 1; auto; lia. Qed.

Lemma decided_stays h `{!ThresholdChecker} q r s t :
  later_period h q r -> GetMedianTimePast h q = Some t -> BeginTime <= t -> EndTime <= t ->
  reported_state h (Some r) s ->
  (s = THRESHOLD_ACTIVE \/ s = THRESHOLD_FAILED) /\ reported_state h (Some q) s.
Proof.
  intros Hl Ht Hb He. revert s; induction Hl as [|r u t' Hl IH Hp Ht' Hb']; intros s Hs.
  - split; [|done]. inversion Hs; subst; simplify_eq; [lia|]. by eapply bip9_move_decides.
  - inversion Hs as [|? ? Ht2 Hlt|? ? p s0 ? Ht2 _ Hp2 Hs0 Hm]; subst; simplify_eq; [lia|].
    unfold previous_period in *. rewrite <- Hp in Hp2. subst p. destruct (IH s0 Hs0) as [[->| ->] Hq]; inversion Hm; subst; auto.
Qed.

Lemma reported_total h tc q : checkable h tc -> boundary h (Some q) -> exists s, reported_state h (Some q) s.
Proof.
  intros [Hwf Hper Hcond] Hb. destruct (back_loop_spec h Hwf Hper (height_of h (Some q)) ∅ (Some q) [])
    as (c' & p' & t' & _ & Hc' & Ht' & Hall & [s0 Hs0] & Hend); auto using todo_nil; [by intros ? ? ?%lookup_empty_Some|].
  destruct (forward_loop_total h Hwf Hper Hcond c' s0 t' Hall) as [[s c''] Hf].
  destruct (forward_loop_spec h c' p' s0 t' s c'') as [Hs _]; auto. rewrite Hend in Hs. by exists s.
Qed.

(** C40: every deployment is decided: once a period has ended at a block [q]
    whose median time is past the timeout (and past the start date),
    [GetStateFor] answers ACTIVE or FAILED in the next period and in every
    later one, and the same for all of them, as long as no period in between
    ends at a block with a median time before the start date: such a block
    makes the code answer DEFINED again. *)
Theorem deployment_decided (h : BlockMap) (tc : ThresholdChecker) q t :
  checkable h tc -> boundary h (Some q) -> GetMedianTimePast h q = Some t -> BeginTime <= t -> EndTime <= t ->
  exists s, (s = THRESHOLD_ACTIVE \/ s = THRESHOLD_FAILED) /\
    forall cache pindexPrev r, cache_ok h cache -> is_Some (h !! pindexPrev) ->
      later_period h q r -> period_end h (Some pindexPrev) (Some r) ->
      exists cache', GetStateFor h (Some pindexPrev) cache = Some (s, cache').
Proof.
  intros Hck Hbq Ht Hb He. destruct (reported_total h tc q Hck Hbq) as [s Hs]. exists s.
  split; [by eapply (decided_stays h q q); [apply later_refl|..]|].
  intros cache pindexPrev r Hok Hv Hl Hr.
  destruct (GetStateFor_spec h tc cache (Some pindexPrev) Hck Hok) as (p & s' & c' & Hp & _ & Hg & Hs' & _); [by intros ? [= <-]|].
  cbn in Hp, Hr. destruct Hp as (b & Hpb & ->), Hr as (b' & Hpb' & Hr). simplify_eq. rewrite <- Hr in Hs'.
  destruct (decided_stays h q r s' t Hl Ht Hb He Hs') as [_ Hq]. rewrite (reported_state_fun h _ _ _ Hs Hq). by exists c'.
Qed.

(** The order in which a deployment progresses. *)
Definition state_rank (s : ThresholdState) : Z :=
  match s with
  | THRESHOLD_DEFINED => 0 | THRESHOLD_STARTED => 1 | THRESHOLD_LOCKED_IN => 2
  | THRESHOLD_ACTIVE => 3 | THRESHOLD_FAILED => 3
  end.

Lemma bip9_move_rank h `{!ThresholdChecker} q t s s' :
  bip9_move h q t s s' -> state_rank s <= state_rank s' /\
    (s = THRESHOLD_ACTIVE -> s' = THRESHOLD_ACTIVE) /\
    (s = THRESHOLD_FAILED -> s' = THRESHOLD_FAILED) /\
    (s = THRESHOLD_LOCKED_IN -> s' = THRESHOLD_ACTIVE).
Proof. destruct 1; split_and!; cbn; done || lia. Qed.

(** in the state machine of BIP9 a deployment never moves back: along a chain
    of periods the rank of the state does not decrease, ACTIVE and FAILED are
    final, and LOCKED_IN is followed by ACTIVE, so a locked-in rule change
    always activates. *)
Theorem bip9_progress (h : BlockMap) (tc : ThresholdChecker) (q r : uint256) (s t : ThresholdState) :
  later_period h q r -> bip9_state h (Some q) s -> bip9_state h (Some r) t ->
  state_rank s <= state_rank t /\
  (s = THRESHOLD_ACTIVE -> t = THRESHOLD_ACTIVE) /\
  (s = THRESHOLD_FAILED -> t = THRESHOLD_FAILED) /\
  (s = THRESHOLD_LOCKED_IN -> q <> r -> t = THRESHOLD_ACTIVE).
Proof.
  intros Hl Hs. revert t; induction Hl as [|r u m Hl IH Hp Hm' Hb]; intros t Ht.
  { rewrite (bip9_state_fun h _ s t Hs Ht). split_and!; auto; try done; lia. }
  inversion Ht as [|? m' p s0 ? Hm2 Hp2 Hs0 Hmove]; subst. unfold previous_period in *. rewrite <- Hp in Hp2. subst p.
  destruct (IH s0 Hs0) as (IH1 & IH2 & IH3 & IH4).
  destruct (bip9_move_rank h u m' s0 t Hmove) as (N1 & N2 & N3 & N4). split_and!; auto; [lia|].
  intros -> _. destruct (decide (q = r)) as [->|Hne]; [|by apply N2, IH4].
  rewrite (bip9_state_fun h _ s0 THRESHOLD_LOCKED_IN Hs0 Hs) in *. by apply N4.
Qed.

(** ** Version bits: the condition of a deployment *)

Definition VERSIONBITS_TOP_BITS : Z := 0x70000000.
Definition VERSIONBITS_TOP_BITS_SIG : Z := 0x71000000.
(** [0xF0000000UL] stored in an [int32_t]. *)
Definition VERSIONBITS_TOP_MASK : Z := i32 0xF0000000.

Record BIP9Deployment := mkDeployment { bit : Z; nStartTime : Z; nTimeout : Z }.

Definition VersionBitsMask (d : BIP9Deployment) : Z := u64 (Z.shiftl 1 (bit d)).

(** [IsSigHFEnabled]: the median time past has reached the activation time. *)
Definition IsSigHFEnabled (h : BlockMap) (sigActivationTime : Z) (p : option uint256) : option bool :=
  match p with
  | None => Some false
  | Some q => do mtp <- GetMedianTimePast h q; Some (sigActivationTime <=? mtp)
  end.

(** [VersionBitsConditionChecker::Condition].  The test of the top bits is
    written [(v & MASK) == sig ? SIG : BITS], which C++ reads as
    [((v & MASK) == sig) ? SIG : BITS]: its value is one of the two constants,
    used as a truth value. *)
Definition VersionBitsCondition (h : BlockMap) (sigActivationTime : Z) (d : BIP9Deployment)
    (p : uint256) : option bool :=
  do b <- h !! p;
  if 32 <? bit d then Some (negb (Z.land (nNonce b) (Z.shiftr (VersionBitsMask d) 32) =? 0))
  else
    do sig <- IsSigHFEnabled h sigActivationTime (Some p);
    Some (negb ((if Z.land (bi_nVersion b) VERSIONBITS_TOP_MASK =? (if (sig : bool) then 1 else 0)
                 then VERSIONBITS_TOP_BITS_SIG else VERSIONBITS_TOP_BITS) =? 0)
          && negb (Z.land (u64 (bi_nVersion b)) (VersionBitsMask d) =? 0)).

Definition VersionBitsConditionChecker (h : BlockMap) (sigActivationTime : Z) (d : BIP9Deployment)
    (nMinerConfirmationWindow nRuleChangeActivationThreshold : Z) : ThresholdChecker := {|
  Condition := VersionBitsCondition h sigActivationTime d;
  BeginTime := nStartTime d;
  EndTime := nTimeout d;
  Period := i32 nMinerConfirmationWindow;
  Threshold := i32 nRuleChangeActivationThreshold
|}.

(** [VersionBitsCache]: one cache per deployment. *)
Abbreviation VersionBitsCache := (list ThresholdConditionCache).

Definition VersionBitsState (h : BlockMap) (sigActivationTime window threshold : Z)
    (vDeployments : list BIP9Deployment) (pos : nat) (pindexPrev : option uint256)
    (cache : VersionBitsCache) : option (ThresholdState * VersionBitsCache) :=
  do d <- vDeployments !! pos;
  do c <- cache !! pos;
  do '(s, c') <- @GetStateFor h (VersionBitsConditionChecker h sigActivationTime d window threshold)
                   pindexPrev c;
  Some (s, <[pos := c']> cache).

Definition VersionBitsCache_Clear (cache : VersionBitsCache) : VersionBitsCache :=
  (fun _ => ∅) <$> cache.

(** [IsVersionBitRejected] reads the [-acceptversionbit] and
    [-rejectversionbit] arguments; [stoi] can throw. *)
Definition rejectedVersionBitsByDefault : list Z := [17].

Fixpoint bit_listed (args : list string) (bitTest : Z) : option bool :=
  match args with
  | [] => Some false
  | a :: args =>
    match a with
    | String c _ =>
      if isdigit c then
        do rBit <- stoi a; if rBit =? bitTest then Some true else bit_listed args bitTest
      else bit_listed args bitTest
    | EmptyString => bit_listed args bitTest
    end
  end.

Definition IsVersionBitRejected (accepted rejected : list string) (d : BIP9Deployment) : option bool :=
  do acc <- bit_listed accepted (bit d);
  if (acc : bool) then Some false
  else if bool_decide (bit d ∈ rejectedVersionBitsByDefault) then Some true
  else bit_listed rejected (bit d).

(** For the deployments signalled in the block version, the condition
    does not depend on the top bits: whatever version prefix a block carries
    and whether the signature fork is active, the block counts as signalling
    exactly when its version has the deployment's bit.  The comparison with
    [VERSIONBITS_TOP_BITS] the code spells out has no effect. *)
Theorem Condition_ignores_top_bits (h : BlockMap) (sigActivationTime : Z) (d : BIP9Deployment)
    (p : uint256) (b : CBlockIndex) :
  wf_blocks h -> h !! p = Some b -> bit d <= 32 ->
  VersionBitsCondition h sigActivationTime d p
    = Some (negb (Z.land (u64 (bi_nVersion b)) (VersionBitsMask d) =? 0)).
Proof.
  intros Hwf Hp Hb. unfold VersionBitsCondition, IsSigHFEnabled. rewrite Hp; cbn [mbind option_bind].
  destruct (GetMedianTimePast_total h Hwf p b Hp) as [t ->]; cbn [mbind option_bind].
  replace (32 <? bit d) with false by (symmetry; apply Z.ltb_ge; lia).
  by destruct (Z.land (bi_nVersion b) _ =? _).
Qed.

Lemma VersionBitsCondition_total (h : BlockMap) (sigActivationTime : Z) (d : BIP9Deployment) :
  wf_blocks h -> forall q, is_Some (h !! q) -> is_Some (VersionBitsCondition h sigActivationTime d q).
Proof.
  intros Hwf q [b Hq]. unfold VersionBitsCondition, IsSigHFEnabled. rewrite Hq; cbn [mbind option_bind].
  destruct (32 <? bit d); [by eexists|].
  destruct (GetMedianTimePast_total h Hwf q b Hq) as [t ->]. by eexists.
Qed.

(** ** Concrete instances *)

(** Executable form of the monotonicity of median times. *)
Definition mtp_monob (h : BlockMap) : bool :=
  forallb (fun pb : uint256 * CBlockIndex =>
    match pprev pb.2 with
    | None => true
    | Some r => match GetMedianTimePast h pb.1, GetMedianTimePast h r with
                | Some tq, Some tr => tr <=? tq
                | _, _ => true
                end
    end) (elems h).

Lemma mtp_mono_check h : mtp_monob h = true -> mtp_monotone h.
Proof.
  intros Hall q b r tq tr Hq Hr Htq Htr. unfold mtp_monob in Hall. rewrite forallb_forall in Hall.
  specialize (Hall (q, b)). cbn [fst snd] in Hall. rewrite Hr, Htq, Htr in Hall.
  apply Z.leb_le, Hall, list_elem_of_In, elem_of_elems, Hq.
Qed.

(** Bit 6, from time 1010 to 9000, two blocks per period, both must signal. *)
Definition demo_deployment : BIP9Deployment := mkDeployment 6 1010 9000.
Definition demo_checker : ThresholdChecker :=
  VersionBitsConditionChecker demo_blocks 5000 demo_deployment 2 2.

Lemma demo_checkable d : checkable demo_blocks (VersionBitsConditionChecker demo_blocks 5000 d 2 2).
Proof. split; [exact demo_wf|vm_compute; reflexivity|]. apply VersionBitsCondition_total. exact demo_wf. Qed.

Lemma no_entry_ok h tc : @cache_ok h tc ∅.
Proof. intros p s Hp. by rewrite lookup_empty in Hp. Qed.

Lemma GetStateFor_correct_witness :
  exists p s cache', @period_end demo_blocks demo_checker (Some 104) p /\
    @GetStateFor demo_blocks demo_checker (Some 104) ∅ = Some (s, cache') /\
    @reported_state demo_blocks demo_checker p s /\ @bip9_state demo_blocks demo_checker p s.
Proof.
  destruct (GetStateFor_correct demo_blocks demo_checker ∅ (Some 104)) as (p & s & cache' & Hp & Hg & _ & Hr & Hb).
  - apply demo_checkable.
  - apply no_entry_ok.
  - intros p [= <-]. vm_compute. eexists. reflexivity.
  - exists p, s, cache'. split; [exact Hp|]. split; [exact Hg|]. split; [exact Hr|]. apply Hb.
    + refine (mtp_mono_check demo_blocks _). vm_compute. reflexivity.
    + vm_compute. discriminate.
Defined.

(** The same bit with a timeout the blocks reach. *)
Definition expired_checker : ThresholdChecker :=
  VersionBitsConditionChecker demo_blocks 5000 (mkDeployment 6 1010 1020) 2 2.

Lemma deployment_decided_witness :
  exists s cache', @GetStateFor demo_blocks expired_checker (Some 104) ∅ = Some (s, cache') /\
    (s = THRESHOLD_ACTIVE \/ s = THRESHOLD_FAILED).
Proof.
  assert (exists t, GetMedianTimePast demo_blocks 101 = Some t /\ 1020 <= t) as (t & Ht & Hle)
    by (eexists; split; [vm_compute; reflexivity|vm_compute; discriminate]).
  destruct (deployment_decided demo_blocks expired_checker 101 t) as (s & Hs & Hdec).
  - apply demo_checkable.
  - eexists. split; vm_compute; reflexivity.
  - exact Ht.
  - cbn. lia.
  - exact Hle.
  - destruct (Hdec ∅ 104 103) as [cache' Hg].
    + apply no_entry_ok.
    + vm_compute. eexists. reflexivity.
    + eapply later_step; [apply later_refl|vm_compute; reflexivity|vm_compute; reflexivity|vm_compute; discriminate].
    + eexists. split; vm_compute; reflexivity.
    + exists s, cache'. split; [exact Hg|exact Hs].
Defined.

(** Median times that go back take a deployment back: nothing checks the time
    of a block against its predecessors, and the last period of this chain ends
    before the start date, so a deployment that had failed is DEFINED again. *)
Definition back_blocks : BlockMap :=
  list_to_map (imap (fun i time =>
    (Z.of_nat i, mkCBlockIndex (if (i =? 0)%nat then None else Some (Z.of_nat i - 1)) None (Z.of_nat i) 0 0 time 0 0 0 0 0))
    [5000; 5000; 10; 10; 10; 10]).

Lemma deployment_goes_back :
  let checker := VersionBitsConditionChecker back_blocks 9000 (mkDeployment 6 1010 1050) 2 2 in
  fst <$> @GetStateFor back_blocks checker (Some 3) ∅ = Some THRESHOLD_FAILED /\
  fst <$> @GetStateFor back_blocks checker (Some 5) ∅ = Some THRESHOLD_DEFINED.
Proof. split; vm_compute; reflexivity. Qed.

(** A block of version 0x00000040, without the version bits prefix, counts. *)
Definition legacy_block : CBlockIndex :=
  mkCBlockIndex None None 0 0 0x00000040 1000 0 0 0 0 0.

Definition legacy_blocks : BlockMap := {[7 := legacy_block]}.

Lemma Condition_ignores_top_bits_witness :
  VersionBitsCondition legacy_blocks 5000 demo_deployment 7 = Some true.
Proof.
  rewrite (Condition_ignores_top_bits legacy_blocks 5000 demo_deployment 7 legacy_block).
  - vm_compute. reflexivity.
  - apply wf_blocks_check. vm_compute. reflexivity.
  - reflexivity.
  - vm_compute. discriminate.
Defined.
