(* ===== verification/Params.v ===== *)
(** * Chain parameters and deployments ([consensus/params.h],
    [consensus/daoconsensusparams.h], [chainparams.cpp], [main.cpp])

    [Params] is what [Params().GetConsensus()] gives the modelled code; it is
    a class, so that a development section fixes one network.  The network
    constants are those of [CMainParams].  The [Is...Enabled] predicates ask
    [VersionBitsState] for a deployment and thread the version bits cache. *)
From S2P Require Import Prelude Float Chain VersionBits.
From Stdlib Require SpecFloat.

(** ** Positions of the consensus parameters *)

Definition CONSENSUS_PARAM_VOTING_CYCLE_LENGTH : Z := 0.
Definition CONSENSUS_PARAM_CONSULTATION_MIN_SUPPORT : Z := 1.
Definition CONSENSUS_PARAM_CONSULTATION_ANSWER_MIN_SUPPORT : Z := 2.
Definition CONSENSUS_PARAM_CONSULTATION_MIN_CYCLES : Z := 3.
Definition CONSENSUS_PARAM_CONSULTATION_MAX_VOTING_CYCLES : Z := 4.
Definition CONSENSUS_PARAM_CONSULTATION_MAX_SUPPORT_CYCLES : Z := 5.
Definition CONSENSUS_PARAM_CONSULTATION_REFLECTION_LENGTH : Z := 6.
Definition CONSENSUS_PARAM_CONSULTATION_MIN_FEE : Z := 7.
Definition CONSENSUS_PARAM_CONSULTATION_ANSWER_MIN_FEE : Z := 8.
Definition CONSENSUS_PARAM_PROPOSAL_MIN_QUORUM : Z := 9.
Definition CONSENSUS_PARAM_PROPOSAL_MIN_ACCEPT : Z := 10.
Definition CONSENSUS_PARAM_PROPOSAL_MIN_REJECT : Z := 11.
Definition CONSENSUS_PARAM_PROPOSAL_MIN_FEE : Z := 12.
Definition CONSENSUS_PARAM_PROPOSAL_MAX_VOTING_CYCLES : Z := 13.
Definition CONSENSUS_PARAM_PAYMENT_REQUEST_MIN_QUORUM : Z := 14.
Definition CONSENSUS_PARAM_PAYMENT_REQUEST_MIN_ACCEPT : Z := 15.
Definition CONSENSUS_PARAM_PAYMENT_REQUEST_MIN_REJECT : Z := 16.
Definition CONSENSUS_PARAM_PAYMENT_REQUEST_MIN_FEE : Z := 17.
Definition CONSENSUS_PARAM_PAYMENT_REQUEST_MAX_VOTING_CYCLES : Z := 18.
Definition CONSENSUS_PARAM_FUND_SPREAD_ACCUMULATION : Z := 19.
Definition CONSENSUS_PARAM_FUND_PERCENT_PER_BLOCK : Z := 20.
Definition CONSENSUS_PARAM_GENERATION_PER_BLOCK : Z := 21.
Definition CONSENSUS_PARAM_NAVNS_FEE : Z := 22.
Definition CONSENSUS_PARAMS_DAO_VOTE_LIGHT_MIN_FEE : Z := 23.
Definition CONSENSUS_PARAMS_CONFIDENTIAL_TOKENS_ENABLED : Z := 24.
Definition CONSENSUS_PARAMS_DOTNAV_LENGTH : Z := 25.
Definition CONSENSUS_PARAMS_DOTNAV_MAXDATA : Z := 26.
Definition CONSENSUS_PARAMS_DOTNAV_FEE_EXTRADATA : Z := 27.
Definition MAX_CONSENSUS_PARAMS : Z := 28.

Inductive ConsensusParamType :=
  TYPE_NUMBER | TYPE_PERCENT | TYPE_NAV | TYPE_BOOL | TYPE_BLOCK | TYPE_CYCLE.

#[export] Instance ConsensusParamType_eq_dec : EqDecision ConsensusParamType.
Proof. solve_decision. Defined.

Definition vConsensusParamsType : list ConsensusParamType :=
  [TYPE_BLOCK; TYPE_PERCENT; TYPE_PERCENT; TYPE_CYCLE; TYPE_CYCLE; TYPE_CYCLE; TYPE_CYCLE; TYPE_NAV;
   TYPE_NAV; TYPE_PERCENT; TYPE_PERCENT; TYPE_PERCENT; TYPE_NAV; TYPE_CYCLE; TYPE_PERCENT;
   TYPE_PERCENT; TYPE_PERCENT; TYPE_NAV; TYPE_CYCLE; TYPE_NUMBER; TYPE_PERCENT; TYPE_NAV; TYPE_NAV;
   TYPE_NAV; TYPE_BOOL; TYPE_NUMBER; TYPE_NUMBER; TYPE_NAV].

(** ** Positions of the deployments *)

Definition DEPLOYMENT_TESTDUMMY : nat := 0.
Definition DEPLOYMENT_CSV : nat := 1.
Definition DEPLOYMENT_SEGWIT : nat := 2.
Definition DEPLOYMENT_CSV_LEGACY : nat := 3.
Definition DEPLOYMENT_SEGWIT_LEGACY : nat := 4.
Definition DEPLOYMENT_COMMUNITYFUND : nat := 5.
Definition DEPLOYMENT_COMMUNITYFUND_ACCUMULATION : nat := 6.
Definition DEPLOYMENT_COLDSTAKING : nat := 7.
Definition DEPLOYMENT_COMMUNITYFUND_ACCUMULATION_SPREAD : nat := 8.
Definition DEPLOYMENT_COMMUNITYFUND_AMOUNT_V2 : nat := 9.
Definition DEPLOYMENT_NTPSYNC : nat := 10.
Definition DEPLOYMENT_STATIC_REWARD : nat := 11.
Definition DEPLOYMENT_QUORUM_CFUND : nat := 12.
Definition DEPLOYMENT_VOTE_STATE_CACHE : nat := 13.
Definition DEPLOYMENT_CONSULTATIONS : nat := 14.
Definition DEPLOYMENT_DAO_CONSENSUS : nat := 15.
Definition DEPLOYMENT_COLDSTAKING_V2 : nat := 16.
Definition DEPLOYMENT_POOL_FEE : nat := 17.
Definition DEPLOYMENT_BLSCT : nat := 18.
Definition DEPLOYMENT_EXCLUDE : nat := 19.
Definition DEPLOYMENT_DAO_SUPER : nat := 20.
Definition DEPLOYMENT_BURN_FEES : nat := 21.
Definition DEPLOYMENT_XNAV_SER : nat := 22.
Definition DEPLOYMENT_DOT_NAV : nat := 23.

(** ** [Consensus::Params] *)

Class Params := {
  nRuleChangeActivationThreshold : Z;
  nMinerConfirmationWindow : Z;
  vDeployments : list BIP9Deployment;
  (** [vParameters[pos].value], for [0 <= pos < MAX_CONSENSUS_PARAMS] *)
  vParameters : Z -> Z;
  nMinimumQuorumFirstHalf : SpecFloat.spec_float;
  nMinimumQuorumSecondHalf : SpecFloat.spec_float;
  nPaymentRequestMaxVersion : Z;
  nProposalMaxVersion : Z;
  nConsultationMaxVersion : Z;
  nConsultationAnswerMaxVersion : Z;
  nConsensusChangeMinAccept : Z;
  sigActivationTime : Z;
  nHeightv452Fork : Z;
  nCommunityFundMinAge : Z
}.

Definition COIN : Z := 100000000.
Definition MAX_MONEY : Z := 10000000000 * COIN.

(** The table of [CMainParams], by position. *)
Definition main_vParameters : list Z :=
  [2880 * 7; 150; 150; 2; 4; 4; 1; 10000000000; 5000000000; 5000; 7000; 7000; 5000000000; 6;
   5000; 7000; 7000; 0; 8; 500; 2000; 250000000; 10 * COIN; 10000000; 0; 2880 * 400; 1024; 3 * COIN].

Definition main_vDeployments : list BIP9Deployment :=
  [mkDeployment 28 1199145601 1230767999; mkDeployment 0 1462060800 1525132800;
   mkDeployment 4 1493424000 1525132800; mkDeployment 2 1462060800 1525132800;
   mkDeployment 1 1493424000 1525132800; mkDeployment 6 1493424000 1556668800;
   mkDeployment 7 1525132800 1556712000; mkDeployment 3 1525132800 1556712000;
   mkDeployment 14 1525132800 1556712000; mkDeployment 16 1533081600 1564617600;
   mkDeployment 8 1525132800 1556712000; mkDeployment 15 1533081600 1564617600;
   mkDeployment 17 1543622400 1575158400; mkDeployment 22 1559390400 1622548800;
   mkDeployment 23 1559390400 1622548800; mkDeployment 25 1559390400 1622548800;
   mkDeployment 27 1559390400 1622548800; mkDeployment 18 1559390400 1622548800;
   mkDeployment 10 1612137600 1640995200; mkDeployment 12 1612137600 1633879915;
   mkDeployment 11 1637712000 1700784000; mkDeployment 9 1637712000 1700784000;
   mkDeployment 33 1637712000 1700784000; mkDeployment 34 1637712000 1700784000].

(** [0.5] and [0.4] are the nearest [float]s; the [ALL_VERSION] masks have
    every bit of their class. *)
Definition CMainParams : Params := {|
  nRuleChangeActivationThreshold := 15120;
  nMinerConfirmationWindow := 20160;
  vDeployments := main_vDeployments;
  vParameters := fun pos => default 0 (main_vParameters !! Z.to_nat pos);
  nMinimumQuorumFirstHalf := f32_per_10000 5000;
  nMinimumQuorumSecondHalf := f32_per_10000 4000;
  nPaymentRequestMaxVersion := 0x3f;
  nProposalMaxVersion := 0x7f;
  nConsultationMaxVersion := 0x3f;
  nConsultationAnswerMaxVersion := 0x7;
  nConsensusChangeMinAccept := 7500;
  sigActivationTime := 1512990000;
  nHeightv452Fork := 2882875;
  nCommunityFundMinAge := 50
|}.

(** ** Deployments that change the rules *)

Section deployments.
Context {params : Params} (h : BlockMap).

Definition deployment_in (s : ThresholdState) (pos : nat) (pindexPrev : option uint256)
    (cache : VersionBitsCache) : option (bool * VersionBitsCache) :=
  do '(st, cache') <- VersionBitsState h sigActivationTime nMinerConfirmationWindow
                        nRuleChangeActivationThreshold vDeployments pos pindexPrev cache;
  Some (bool_decide (st = s), cache').

Definition IsWitnessEnabled := deployment_in THRESHOLD_ACTIVE DEPLOYMENT_SEGWIT.
Definition IsWitnessLocked := deployment_in THRESHOLD_LOCKED_IN DEPLOYMENT_SEGWIT.
Definition IsCommunityFundEnabled := deployment_in THRESHOLD_ACTIVE DEPLOYMENT_COMMUNITYFUND.
Definition IsReducedCFundQuorumEnabled := deployment_in THRESHOLD_ACTIVE DEPLOYMENT_QUORUM_CFUND.

(** The second deployment is only consulted when the first test fails. *)
Definition IsCommunityFundAccumulationEnabled (pindexPrev : option uint256) (fStrict : bool)
    (cache : VersionBitsCache) : option (bool * VersionBitsCache) :=
  do '(cfund, cache) <- IsCommunityFundEnabled pindexPrev cache;
  if cfund && negb fStrict then Some (true, cache)
  else deployment_in THRESHOLD_ACTIVE DEPLOYMENT_COMMUNITYFUND_ACCUMULATION pindexPrev cache.

Definition IsCommunityFundAmountV2Enabled :=
  deployment_in THRESHOLD_ACTIVE DEPLOYMENT_COMMUNITYFUND_AMOUNT_V2.
Definition IsCommunityFundAccumulationSpreadEnabled :=
  deployment_in THRESHOLD_ACTIVE DEPLOYMENT_COMMUNITYFUND_ACCUMULATION_SPREAD.
Definition IsNtpSyncEnabled := deployment_in THRESHOLD_ACTIVE DEPLOYMENT_NTPSYNC.
Definition IsCommunityFundLocked := deployment_in THRESHOLD_LOCKED_IN DEPLOYMENT_COMMUNITYFUND.
Definition IsColdStakingEnabled := deployment_in THRESHOLD_ACTIVE DEPLOYMENT_COLDSTAKING.
Definition IsBLSCTEnabled := deployment_in THRESHOLD_ACTIVE DEPLOYMENT_BLSCT.
Definition IsColdStakingv2Enabled := deployment_in THRESHOLD_ACTIVE DEPLOYMENT_COLDSTAKING_V2.
Definition IsExcludeEnabled := deployment_in THRESHOLD_ACTIVE DEPLOYMENT_EXCLUDE.
Definition IsVoteCacheStateEnabled := deployment_in THRESHOLD_ACTIVE DEPLOYMENT_VOTE_STATE_CACHE.
Definition IsDAOEnabled := deployment_in THRESHOLD_ACTIVE DEPLOYMENT_CONSULTATIONS.
Definition IsColdStakingPoolFeeEnabled := deployment_in THRESHOLD_ACTIVE DEPLOYMENT_POOL_FEE.
Definition IsStaticRewardLocked := deployment_in THRESHOLD_LOCKED_IN DEPLOYMENT_STATIC_REWARD.
Definition IsBurnFeesEnabled := deployment_in THRESHOLD_ACTIVE DEPLOYMENT_BURN_FEES.
Definition IsBurnFeesLocked := deployment_in THRESHOLD_LOCKED_IN DEPLOYMENT_BURN_FEES.
Definition IsStaticRewardEnabled := deployment_in THRESHOLD_ACTIVE DEPLOYMENT_STATIC_REWARD.
Definition IsDaoSuperEnabled := deployment_in THRESHOLD_ACTIVE DEPLOYMENT_DAO_SUPER.
Definition IsDaoSuperLocked := deployment_in THRESHOLD_LOCKED_IN DEPLOYMENT_DAO_SUPER.
Definition IsDaoConsensusEnabled := deployment_in THRESHOLD_ACTIVE DEPLOYMENT_DAO_CONSENSUS.
Definition IsXNavSerEnabled := deployment_in THRESHOLD_ACTIVE DEPLOYMENT_XNAV_SER.
Definition IsDotNavEnabled := deployment_in THRESHOLD_ACTIVE DEPLOYMENT_DOT_NAV.
End deployments.
