(* ===== verification/DaoTypes.v ===== *)
(** * The data of the DAO ([consensus/dao.h], [consensus/dao/flags.h])

    The classes of the community fund and of the consultations with the
    operations that only touch their own fields: null values, equality, the
    history [mapState] of states, vote lists and consensus parameters.

    A [flags] value, a vote and a version are numbers, as in the code.  A
    block of the history is its hash; the block index [h] gives its height. *)
From S2P Require Import Prelude CxxString Chain.

(** ** Flags ([namespace DAOFlags], [namespace VoteFlags]) *)

Definition NIL : Z := 0x0.
Definition ACCEPTED : Z := 0x1.
Definition REJECTED : Z := 0x2.
Definition EXPIRED : Z := 0x3.
Definition PENDING_FUNDS : Z := 0x4.
Definition PENDING_VOTING_PREQ : Z := 0x5.
Definition PAID : Z := 0x6.
Definition PASSED : Z := 0x7.
Definition REFLECTION : Z := 0x8.
Definition SUPPORTED : Z := 0x9.
Definition ACCEPTED_EXPIRED : Z := 0x10.

Definition VOTE_YES : Z := 1.
Definition VOTE_NO : Z := 0.
Definition VOTE_ABSTAIN : Z := -1.
Definition VOTE_REMOVE : Z := -2.
Definition SUPPORT : Z := -3.
Definition SUPPORT_REMOVE : Z := -4.

(** ** The history of states

    [mapState] maps the hash of a block to the state entered in that block.
    Hashes the block index does not know are skipped; among the known ones
    the highest block decides, and a block at height 0 never does. *)

Definition last_entry (h : BlockMap) (sel : Z -> bool) (m : gmap uint256 Z) : option (uint256 * Z) * Z :=
  foldl (fun acc kv =>
    if sel kv.2 then
      match h !! kv.1 with
      | None => acc
      | Some b => if acc.2 <? nHeight b then (Some kv, nHeight b) else acc
      end
    else acc) (None, 0) (elems m).

Definition last_state (h : BlockMap) (m : gmap uint256 Z) : Z :=
  match (last_entry h (fun _ => true) m).1 with Some kv => kv.2 | None => NIL end.

Definition last_state_block (h : BlockMap) (m : gmap uint256 Z) : option uint256 :=
  fst <$> (last_entry h (fun _ => true) m).1.

Definition last_state_block_for (h : BlockMap) (state : Z) (m : gmap uint256 Z) : option uint256 :=
  fst <$> (last_entry h (Z.eqb state) m).1.

(** ** [CPaymentRequest] *)

Definition CPaymentRequest_BASE_VERSION : Z := Z.shiftl 1 1.
Definition CPaymentRequest_REDUCED_QUORUM_VERSION : Z := Z.shiftl 1 2.
Definition CPaymentRequest_ABSTAIN_VOTE_VERSION : Z := Z.shiftl 1 3.
Definition CPaymentRequest_EXCLUDE_VERSION : Z := Z.shiftl 1 4.
Definition CPaymentRequest_SUPER_VERSION : Z := Z.shiftl 1 5.

Record CPaymentRequest := mkCPaymentRequest {
  pr_nAmount : Z;
  pr_mapState : gmap uint256 Z;
  pr_hash : uint256;
  pr_proposalhash : uint256;
  pr_txblockhash : uint256;
  pr_nVotesYes : Z;
  pr_nVotesNo : Z;
  pr_nVotesAbs : Z;
  pr_nExclude : Z;
  pr_strDZeel : string;
  pr_nVersion : Z;
  pr_nVotingCycle : Z;
  pr_fDirty : bool
}.

Definition set_pr_mapState (x : CPaymentRequest) (v : gmap uint256 Z) : CPaymentRequest :=
  mkCPaymentRequest (pr_nAmount x) v (pr_hash x) (pr_proposalhash x) (pr_txblockhash x) (pr_nVotesYes x)
    (pr_nVotesNo x) (pr_nVotesAbs x) (pr_nExclude x) (pr_strDZeel x) (pr_nVersion x)
    (pr_nVotingCycle x) (pr_fDirty x).

Definition set_pr_nVotesYes (x : CPaymentRequest) (v : Z) : CPaymentRequest :=
  mkCPaymentRequest (pr_nAmount x) (pr_mapState x) (pr_hash x) (pr_proposalhash x) (pr_txblockhash x) v
    (pr_nVotesNo x) (pr_nVotesAbs x) (pr_nExclude x) (pr_strDZeel x) (pr_nVersion x)
    (pr_nVotingCycle x) (pr_fDirty x).

Definition set_pr_nVotesNo (x : CPaymentRequest) (v : Z) : CPaymentRequest :=
  mkCPaymentRequest (pr_nAmount x) (pr_mapState x) (pr_hash x) (pr_proposalhash x) (pr_txblockhash x)
    (pr_nVotesYes x) v (pr_nVotesAbs x) (pr_nExclude x) (pr_strDZeel x) (pr_nVersion x)
    (pr_nVotingCycle x) (pr_fDirty x).

Definition set_pr_nVotesAbs (x : CPaymentRequest) (v : Z) : CPaymentRequest :=
  mkCPaymentRequest (pr_nAmount x) (pr_mapState x) (pr_hash x) (pr_proposalhash x) (pr_txblockhash x)
    (pr_nVotesYes x) (pr_nVotesNo x) v (pr_nExclude x) (pr_strDZeel x) (pr_nVersion x)
    (pr_nVotingCycle x) (pr_fDirty x).

Definition set_pr_nVotingCycle (x : CPaymentRequest) (v : Z) : CPaymentRequest :=
  mkCPaymentRequest (pr_nAmount x) (pr_mapState x) (pr_hash x) (pr_proposalhash x) (pr_txblockhash x)
    (pr_nVotesYes x) (pr_nVotesNo x) (pr_nVotesAbs x) (pr_nExclude x) (pr_strDZeel x)
    (pr_nVersion x) v (pr_fDirty x).

Definition set_pr_fDirty (x : CPaymentRequest) (v : bool) : CPaymentRequest :=
  mkCPaymentRequest (pr_nAmount x) (pr_mapState x) (pr_hash x) (pr_proposalhash x) (pr_txblockhash x)
    (pr_nVotesYes x) (pr_nVotesNo x) (pr_nVotesAbs x) (pr_nExclude x) (pr_strDZeel x)
    (pr_nVersion x) (pr_nVotingCycle x) v.

Definition CPaymentRequest_null : CPaymentRequest :=
  mkCPaymentRequest 0 ∅ 0 0 0 0 0 0 0 EmptyString 0 0 true.

Definition CPaymentRequest_IsNull (x : CPaymentRequest) : bool :=
  (pr_nAmount x =? 0) && (pr_nVotesYes x =? 0) && (pr_nVotesNo x =? 0) && (pr_nExclude x =? 0) &&
  bool_decide (pr_strDZeel x = EmptyString) && bool_decide (pr_mapState x = ∅).

(** The code compares the two [mapState]s through the text of their entries. *)
Definition CPaymentRequest_eqb (x y : CPaymentRequest) : bool :=
  (pr_nAmount x =? pr_nAmount y) && bool_decide (pr_mapState x = pr_mapState y) &&
  (pr_hash x =? pr_hash y) && (pr_proposalhash x =? pr_proposalhash y) &&
  (pr_txblockhash x =? pr_txblockhash y) && (pr_nVotesYes x =? pr_nVotesYes y) &&
  (pr_nVotesNo x =? pr_nVotesNo y) && (pr_nVotesAbs x =? pr_nVotesAbs y) &&
  (pr_nExclude x =? pr_nExclude y) && bool_decide (pr_strDZeel x = pr_strDZeel y) &&
  (pr_nVersion x =? pr_nVersion y) && (pr_nVotingCycle x =? pr_nVotingCycle y).

Definition CPaymentRequest_GetLastState (h : BlockMap) (x : CPaymentRequest) : Z :=
  last_state h (pr_mapState x).

Definition CPaymentRequest_GetLastStateBlockIndex (h : BlockMap) (x : CPaymentRequest) : option uint256 :=
  last_state_block h (pr_mapState x).

Definition CPaymentRequest_GetLastStateBlockIndexForState (h : BlockMap) (x : CPaymentRequest) (state : Z) : option uint256 :=
  last_state_block_for h state (pr_mapState x).

Definition CPaymentRequest_SetState (x : CPaymentRequest) (pindex : uint256) (state : Z) : CPaymentRequest :=
  set_pr_mapState x (<[pindex := state]> (pr_mapState x)).

Definition CPaymentRequest_ClearState (x : CPaymentRequest) (pindex : uint256) : CPaymentRequest :=
  set_pr_mapState x (delete pindex (pr_mapState x)).

(** ** [CProposal] *)

Definition CProposal_BASE_VERSION : Z := Z.shiftl 1 1.
Definition CProposal_REDUCED_QUORUM_VERSION : Z := Z.shiftl 1 2.
Definition CProposal_ABSTAIN_VOTE_VERSION : Z := Z.shiftl 1 3.
Definition CProposal_PAYMENT_ADDRESS_VERSION : Z := Z.shiftl 1 4.
Definition CProposal_EXCLUDE_VERSION : Z := Z.shiftl 1 5.
Definition CProposal_SUPER_VERSION : Z := Z.shiftl 1 6.

Record CProposal := mkCProposal {
  p_nAmount : Z;
  p_nFee : Z;
  p_ownerAddress : string;
  p_paymentAddress : string;
  p_nDeadline : Z;
  p_mapState : gmap uint256 Z;
  p_nVotesYes : Z;
  p_nVotesNo : Z;
  p_nVotesAbs : Z;
  p_nExclude : Z;
  p_strDZeel : string;
  p_hash : uint256;
  p_txblockhash : uint256;
  p_nVersion : Z;
  p_nVotingCycle : Z;
  p_fDirty : bool
}.

Definition set_p_mapState (x : CProposal) (v : gmap uint256 Z) : CProposal :=
  mkCProposal (p_nAmount x) (p_nFee x) (p_ownerAddress x) (p_paymentAddress x) (p_nDeadline x) v
    (p_nVotesYes x) (p_nVotesNo x) (p_nVotesAbs x) (p_nExclude x) (p_strDZeel x)
    (p_hash x) (p_txblockhash x) (p_nVersion x) (p_nVotingCycle x) (p_fDirty x).

Definition set_p_nVotesYes (x : CProposal) (v : Z) : CProposal :=
  mkCProposal (p_nAmount x) (p_nFee x) (p_ownerAddress x) (p_paymentAddress x) (p_nDeadline x)
    (p_mapState x) v (p_nVotesNo x) (p_nVotesAbs x) (p_nExclude x) (p_strDZeel x)
    (p_hash x) (p_txblockhash x) (p_nVersion x) (p_nVotingCycle x) (p_fDirty x).

Definition set_p_nVotesNo (x : CProposal) (v : Z) : CProposal :=
  mkCProposal (p_nAmount x) (p_nFee x) (p_ownerAddress x) (p_paymentAddress x) (p_nDeadline x)
    (p_mapState x) (p_nVotesYes x) v (p_nVotesAbs x) (p_nExclude x) (p_strDZeel x)
    (p_hash x) (p_txblockhash x) (p_nVersion x) (p_nVotingCycle x) (p_fDirty x).

Definition set_p_nVotesAbs (x : CProposal) (v : Z) : CProposal :=
  mkCProposal (p_nAmount x) (p_nFee x) (p_ownerAddress x) (p_paymentAddress x) (p_nDeadline x)
    (p_mapState x) (p_nVotesYes x) (p_nVotesNo x) v (p_nExclude x) (p_strDZeel x)
    (p_hash x) (p_txblockhash x) (p_nVersion x) (p_nVotingCycle x) (p_fDirty x).

Definition set_p_nVotingCycle (x : CProposal) (v : Z) : CProposal :=
  mkCProposal (p_nAmount x) (p_nFee x) (p_ownerAddress x) (p_paymentAddress x) (p_nDeadline x)
    (p_mapState x) (p_nVotesYes x) (p_nVotesNo x) (p_nVotesAbs x) (p_nExclude x)
    (p_strDZeel x) (p_hash x) (p_txblockhash x) (p_nVersion x) v (p_fDirty x).

Definition set_p_fDirty (x : CProposal) (v : bool) : CProposal :=
  mkCProposal (p_nAmount x) (p_nFee x) (p_ownerAddress x) (p_paymentAddress x) (p_nDeadline x)
    (p_mapState x) (p_nVotesYes x) (p_nVotesNo x) (p_nVotesAbs x) (p_nExclude x)
    (p_strDZeel x) (p_hash x) (p_txblockhash x) (p_nVersion x) (p_nVotingCycle x) v.

(** [txblockhash] keeps its value. *)
Definition CProposal_SetNull (x : CProposal) : CProposal :=
  mkCProposal 0 0 EmptyString EmptyString 0 ∅ 0 0 0 0 EmptyString 0 (p_txblockhash x) 0 0 true.

Definition CProposal_null : CProposal :=
  mkCProposal 0 0 EmptyString EmptyString 0 ∅ 0 0 0 0 EmptyString 0 0 0 0 true.

Definition CProposal_IsNull (x : CProposal) : bool :=
  (p_nAmount x =? 0) && (p_nFee x =? 0) && bool_decide (p_ownerAddress x = EmptyString) &&
  bool_decide (p_paymentAddress x = EmptyString) && (p_nVotesYes x =? 0) && (p_nVotesNo x =? 0) &&
  (p_nExclude x =? 0) && (p_nDeadline x =? 0) && bool_decide (p_strDZeel x = EmptyString) &&
  bool_decide (p_mapState x = ∅).

Definition CProposal_GetOwnerAddress (x : CProposal) : string := p_ownerAddress x.

Definition CProposal_GetPaymentAddress (x : CProposal) : string :=
  if flag_set (p_nVersion x) CProposal_PAYMENT_ADDRESS_VERSION then p_paymentAddress x
  else p_ownerAddress x.

(** The code compares the two [mapState]s through the text of their entries. *)
Definition CProposal_eqb (x y : CProposal) : bool :=
  (p_nAmount x =? p_nAmount y) && (p_nFee x =? p_nFee y) &&
  bool_decide (p_ownerAddress x = p_ownerAddress y) &&
  bool_decide (CProposal_GetPaymentAddress x = CProposal_GetPaymentAddress y) &&
  (p_nDeadline x =? p_nDeadline y) && bool_decide (p_mapState x = p_mapState y) &&
  (p_nVotesYes x =? p_nVotesYes y) && (p_nVotesNo x =? p_nVotesNo y) &&
  (p_nVotesAbs x =? p_nVotesAbs y) && (p_nExclude x =? p_nExclude y) &&
  bool_decide (p_strDZeel x = p_strDZeel y) && (p_hash x =? p_hash y) &&
  (p_txblockhash x =? p_txblockhash y) && (p_nVersion x =? p_nVersion y) &&
  (p_nVotingCycle x =? p_nVotingCycle y).

Definition CProposal_GetLastState (h : BlockMap) (x : CProposal) : Z :=
  last_state h (p_mapState x).

Definition CProposal_GetLastStateBlockIndex (h : BlockMap) (x : CProposal) : option uint256 :=
  last_state_block h (p_mapState x).

Definition CProposal_GetLastStateBlockIndexForState (h : BlockMap) (x : CProposal) (state : Z) : option uint256 :=
  last_state_block_for h state (p_mapState x).

Definition CProposal_SetState (x : CProposal) (pindex : uint256) (state : Z) : CProposal :=
  set_p_mapState x (<[pindex := state]> (p_mapState x)).

Definition CProposal_ClearState (x : CProposal) (pindex : uint256) : CProposal :=
  set_p_mapState x (delete pindex (p_mapState x)).

(** ** [CConsultationAnswer] *)

Definition CConsultationAnswer_BASE_VERSION : Z := 1.
Definition CConsultationAnswer_EXCLUDE_VERSION : Z := Z.shiftl 1 1.
Definition CConsultationAnswer_SUPER_VERSION : Z := Z.shiftl 1 2.

Record CConsultationAnswer := mkCConsultationAnswer {
  a_nVersion : Z;
  a_sAnswer : string;
  a_vAnswer : list string;
  a_nVotes : Z;
  a_nSupport : Z;
  a_nExclude : Z;
  a_mapState : gmap uint256 Z;
  a_hash : uint256;
  a_parent : uint256;
  a_txblockhash : uint256;
  a_txhash : uint256;
  a_fDirty : bool
}.

Definition set_a_nVotes (x : CConsultationAnswer) (v : Z) : CConsultationAnswer :=
  mkCConsultationAnswer (a_nVersion x) (a_sAnswer x) (a_vAnswer x) v (a_nSupport x) (a_nExclude x)
    (a_mapState x) (a_hash x) (a_parent x) (a_txblockhash x) (a_txhash x) (a_fDirty x).

Definition set_a_nSupport (x : CConsultationAnswer) (v : Z) : CConsultationAnswer :=
  mkCConsultationAnswer (a_nVersion x) (a_sAnswer x) (a_vAnswer x) (a_nVotes x) v (a_nExclude x)
    (a_mapState x) (a_hash x) (a_parent x) (a_txblockhash x) (a_txhash x) (a_fDirty x).

Definition set_a_mapState (x : CConsultationAnswer) (v : gmap uint256 Z) : CConsultationAnswer :=
  mkCConsultationAnswer (a_nVersion x) (a_sAnswer x) (a_vAnswer x) (a_nVotes x) (a_nSupport x)
    (a_nExclude x) v (a_hash x) (a_parent x) (a_txblockhash x) (a_txhash x) (a_fDirty x).

Definition set_a_fDirty (x : CConsultationAnswer) (v : bool) : CConsultationAnswer :=
  mkCConsultationAnswer (a_nVersion x) (a_sAnswer x) (a_vAnswer x) (a_nVotes x) (a_nSupport x)
    (a_nExclude x) (a_mapState x) (a_hash x) (a_parent x) (a_txblockhash x) (a_txhash x)
    v.

Definition CConsultationAnswer_null : CConsultationAnswer :=
  mkCConsultationAnswer 0 EmptyString [] 0 0 0 ∅ 0 0 0 0 true.

Definition CConsultationAnswer_IsNull (x : CConsultationAnswer) : bool :=
  bool_decide (a_sAnswer x = EmptyString) && (a_nVotes x =? 0) && (a_nSupport x =? 0) &&
  (a_nVersion x =? 0) && bool_decide (a_mapState x = ∅) && (a_nExclude x =? 0) &&
  (a_hash x =? 0) && (a_txhash x =? 0) && (a_parent x =? 0) && (a_txblockhash x =? 0) &&
  bool_decide (a_vAnswer x = []).

Definition CConsultationAnswer_eqb (x y : CConsultationAnswer) : bool :=
  (a_nVersion x =? a_nVersion y) && bool_decide (a_sAnswer x = a_sAnswer y) &&
  bool_decide (a_vAnswer x = a_vAnswer y) && (a_nVotes x =? a_nVotes y) &&
  (a_nExclude x =? a_nExclude y) && (a_nSupport x =? a_nSupport y) &&
  bool_decide (a_mapState x = a_mapState y) && (a_hash x =? a_hash y) &&
  (a_txblockhash x =? a_txblockhash y) && (a_parent x =? a_parent y) && (a_txhash x =? a_txhash y).

(** The answers of a combined consultation come out sorted as strings. *)
Definition CConsultationAnswer_GetAnswers (x : CConsultationAnswer) : list string :=
  if flag_set (a_nVersion x) CConsultationAnswer_SUPER_VERSION then sort_strings (a_vAnswer x)
  else [a_sAnswer x].

Definition CConsultationAnswer_Vote (x : CConsultationAnswer) : CConsultationAnswer :=
  set_a_nVotes x (i32 (a_nVotes x + 1)).

Definition CConsultationAnswer_DecVote (x : CConsultationAnswer) : CConsultationAnswer :=
  set_a_nVotes x (Z.max 0 (i32 (a_nVotes x - 1))).

Definition CConsultationAnswer_ClearVotes (x : CConsultationAnswer) : CConsultationAnswer :=
  set_a_nVotes x 0.

Definition CConsultationAnswer_GetVotes (x : CConsultationAnswer) : Z := a_nVotes x.

Definition CConsultationAnswer_GetText (x : CConsultationAnswer) : string := a_sAnswer x.

Definition CConsultationAnswer_GetLastState (h : BlockMap) (x : CConsultationAnswer) : Z :=
  last_state h (a_mapState x).

Definition CConsultationAnswer_GetLastStateBlockIndex (h : BlockMap) (x : CConsultationAnswer) : option uint256 :=
  last_state_block h (a_mapState x).

Definition CConsultationAnswer_GetLastStateBlockIndexForState (h : BlockMap) (x : CConsultationAnswer) (state : Z) : option uint256 :=
  last_state_block_for h state (a_mapState x).

Definition CConsultationAnswer_SetState (x : CConsultationAnswer) (pindex : uint256) (state : Z) : CConsultationAnswer :=
  set_a_mapState x (<[pindex := state]> (a_mapState x)).

Definition CConsultationAnswer_ClearState (x : CConsultationAnswer) (pindex : uint256) : CConsultationAnswer :=
  set_a_mapState x (delete pindex (a_mapState x)).

(** ** [CConsultation] *)

Definition CConsultation_BASE_VERSION : Z := 1.
Definition CConsultation_ANSWER_IS_A_RANGE_VERSION : Z := Z.shiftl 1 1.
Definition CConsultation_MORE_ANSWERS_VERSION : Z := Z.shiftl 1 2.
Definition CConsultation_CONSENSUS_PARAMETER_VERSION : Z := Z.shiftl 1 3.
Definition CConsultation_EXCLUDE_VERSION : Z := Z.shiftl 1 4.
Definition CConsultation_SUPER_VERSION : Z := Z.shiftl 1 5.

Record CConsultation := mkCConsultation {
  c_mapState : gmap uint256 Z;
  c_hash : uint256;
  c_txblockhash : uint256;
  c_nVersion : Z;
  c_nVotingCycle : Z;
  c_fDirty : bool;
  c_strDZeel : string;
  c_nSupport : Z;
  c_nMin : Z;
  c_vParameters : list Z;
  c_nMax : Z;
  c_mapVotes : gmap Z Z;
  c_vAnswers : list uint256;
  c_nExclude : Z
}.

Definition set_c_mapState (x : CConsultation) (v : gmap uint256 Z) : CConsultation :=
  mkCConsultation v (c_hash x) (c_txblockhash x) (c_nVersion x) (c_nVotingCycle x) (c_fDirty x)
    (c_strDZeel x) (c_nSupport x) (c_nMin x) (c_vParameters x) (c_nMax x) (c_mapVotes x)
    (c_vAnswers x) (c_nExclude x).

Definition set_c_nVotingCycle (x : CConsultation) (v : Z) : CConsultation :=
  mkCConsultation (c_mapState x) (c_hash x) (c_txblockhash x) (c_nVersion x) v (c_fDirty x)
    (c_strDZeel x) (c_nSupport x) (c_nMin x) (c_vParameters x) (c_nMax x) (c_mapVotes x)
    (c_vAnswers x) (c_nExclude x).

Definition set_c_fDirty (x : CConsultation) (v : bool) : CConsultation :=
  mkCConsultation (c_mapState x) (c_hash x) (c_txblockhash x) (c_nVersion x) (c_nVotingCycle x) v
    (c_strDZeel x) (c_nSupport x) (c_nMin x) (c_vParameters x) (c_nMax x) (c_mapVotes x)
    (c_vAnswers x) (c_nExclude x).

Definition set_c_nSupport (x : CConsultation) (v : Z) : CConsultation :=
  mkCConsultation (c_mapState x) (c_hash x) (c_txblockhash x) (c_nVersion x) (c_nVotingCycle x)
    (c_fDirty x) (c_strDZeel x) v (c_nMin x) (c_vParameters x) (c_nMax x) (c_mapVotes x)
    (c_vAnswers x) (c_nExclude x).

Definition set_c_mapVotes (x : CConsultation) (v : gmap Z Z) : CConsultation :=
  mkCConsultation (c_mapState x) (c_hash x) (c_txblockhash x) (c_nVersion x) (c_nVotingCycle x)
    (c_fDirty x) (c_strDZeel x) (c_nSupport x) (c_nMin x) (c_vParameters x) (c_nMax x) v
    (c_vAnswers x) (c_nExclude x).

Definition set_c_vAnswers (x : CConsultation) (v : list uint256) : CConsultation :=
  mkCConsultation (c_mapState x) (c_hash x) (c_txblockhash x) (c_nVersion x) (c_nVotingCycle x)
    (c_fDirty x) (c_strDZeel x) (c_nSupport x) (c_nMin x) (c_vParameters x) (c_nMax x)
    (c_mapVotes x) v (c_nExclude x).

Definition CConsultation_null : CConsultation :=
  mkCConsultation ∅ 0 0 0 0 true EmptyString 0 0 [] 0 ∅ [] 0.

Definition CConsultation_IsNull (x : CConsultation) : bool :=
  (c_hash x =? 0) && (c_txblockhash x =? 0) && bool_decide (c_mapState x = ∅) &&
  (c_nVersion x =? 0) && (c_nVotingCycle x =? 0) && bool_decide (c_strDZeel x = EmptyString) &&
  (c_nSupport x =? 0) && (c_nMin x =? 0) && (c_nMax x =? 0) && bool_decide (c_vAnswers x = []) &&
  (c_nExclude x =? 0) && bool_decide (c_vParameters x = []).

(** [vAnswers] and [vParameters] are compared with themselves. *)
Definition CConsultation_eqb (x y : CConsultation) : bool :=
  bool_decide (c_mapState x = c_mapState y) && (c_hash x =? c_hash y) &&
  (c_txblockhash x =? c_txblockhash y) && bool_decide (c_mapVotes x = c_mapVotes y) &&
  (c_nVersion x =? c_nVersion y) && (c_nVotingCycle x =? c_nVotingCycle y) &&
  bool_decide (c_strDZeel x = c_strDZeel y) && (c_nSupport x =? c_nSupport y) &&
  (c_nVotingCycle x =? c_nVotingCycle y) && (c_nMin x =? c_nMin y) && (c_nMax x =? c_nMax y) &&
  (c_nExclude x =? c_nExclude y) && bool_decide (c_vAnswers x = c_vAnswers x) &&
  bool_decide (c_vParameters x = c_vParameters x).

Definition CConsultation_IsAboutConsensusParameter (x : CConsultation) : bool :=
  flag_set (c_nVersion x) CConsultation_CONSENSUS_PARAMETER_VERSION.

Definition CConsultation_IsRange (x : CConsultation) : bool :=
  flag_set (c_nVersion x) CConsultation_ANSWER_IS_A_RANGE_VERSION.

Definition CConsultation_IsSuper (x : CConsultation) : bool :=
  flag_set (c_nVersion x) CConsultation_SUPER_VERSION.

(** The parameters of a combined consultation come out sorted as numbers. *)
Definition CConsultation_GetParameters (x : CConsultation) : list Z :=
  if CConsultation_IsAboutConsensusParameter x then
    if flag_set (c_nVersion x) CConsultation_SUPER_VERSION then merge_sort Z.le (c_vParameters x)
    else [c_nMin x]
  else [].

Definition CConsultation_GetLastState (h : BlockMap) (x : CConsultation) : Z :=
  last_state h (c_mapState x).

Definition CConsultation_GetLastStateBlockIndex (h : BlockMap) (x : CConsultation) : option uint256 :=
  last_state_block h (c_mapState x).

Definition CConsultation_GetLastStateBlockIndexForState (h : BlockMap) (x : CConsultation) (state : Z) : option uint256 :=
  last_state_block_for h state (c_mapState x).

Definition CConsultation_SetState (x : CConsultation) (pindex : uint256) (state : Z) : CConsultation :=
  set_c_mapState x (<[pindex := state]> (c_mapState x)).

Definition CConsultation_ClearState (x : CConsultation) (pindex : uint256) : CConsultation :=
  set_c_mapState x (delete pindex (c_mapState x)).

Definition CProposal_CanRequestPayments (h : BlockMap) (x : CProposal) : bool :=
  CProposal_GetLastState h x =? ACCEPTED.

Definition CProposal_IsSuper (x : CProposal) : bool :=
  flag_set (p_nVersion x) CProposal_SUPER_VERSION.

Definition CPaymentRequest_IsSuper (x : CPaymentRequest) : bool :=
  flag_set (pr_nVersion x) CPaymentRequest_SUPER_VERSION.

(** ** [CVoteList]: the votes of one staker, by height and by voted hash *)

Record CVoteList := mkCVoteList {
  vl_fDirty : bool;
  vl_list : gmap Z (gmap uint256 Z)
}.

Definition CVoteList_null : CVoteList := mkCVoteList true ∅.

Definition CVoteList_IsNull (x : CVoteList) : bool :=
  forallb (fun kv => bool_decide (kv.2 = ∅)) (elems (vl_list x)).

Definition CVoteList_eqb (x y : CVoteList) : bool := bool_decide (vl_list x = vl_list y).

(** [Get]: the inner loop over the votes of one height ([votes_step]) inside
    the loop over the heights; [None] is the return value [false]. *)
Definition votes_step (hash : uint256) (height : Z) (acc : option Z * Z) (kv : uint256 * Z) : option Z * Z :=
  if (acc.2 <? height) && (kv.1 =? hash) then (Some kv.2, height) else acc.

Definition CVoteList_Get (x : CVoteList) (hash : uint256) : option Z :=
  (foldl (fun acc kv =>
    if kv.1 <? acc.2 then acc else foldl (votes_step hash kv.1) acc (elems kv.2))
    (None, 0) (elems (vl_list x))).1.

Definition CVoteList_Set (x : CVoteList) (height : Z) (hash : uint256) (vote : Z) : CVoteList * bool :=
  if match CVoteList_Get x hash with Some prevVote => prevVote =? vote | None => false end then (x, false)
  else
    (mkCVoteList (vl_fDirty x)
       match vl_list x !! height with
       | None => <[height := {[hash := vote]}]> (vl_list x)
       | Some votes => <[height := <[hash := vote]> votes]> (vl_list x)
       end, true).

(** The two overloads of [Clear]. *)
Definition CVoteList_Clear (x : CVoteList) (height : Z) (hash : uint256) : CVoteList :=
  match vl_list x !! height with
  | None => x
  | Some votes => mkCVoteList (vl_fDirty x) (<[height := delete hash votes]> (vl_list x))
  end.

Definition CVoteList_ClearHeight (x : CVoteList) (height : Z) : CVoteList :=
  mkCVoteList (vl_fDirty x) (delete height (vl_list x)).

Definition list_step (height : Z) (acc : gmap uint256 Z * gmap uint256 Z) (kv : uint256 * Z) :
    gmap uint256 Z * gmap uint256 Z :=
  let '(ret, cache) := acc in
  let cache := match cache !! kv.1 with None => <[kv.1 := 0]> cache | Some _ => cache end in
  if default 0 (cache !! kv.1) <? height then (<[kv.1 := kv.2]> ret, <[kv.1 := height]> cache)
  else (ret, cache).

Definition CVoteList_GetList (x : CVoteList) : gmap uint256 Z :=
  (foldl (fun acc kv => foldl (list_step kv.1) acc (elems kv.2)) (∅, ∅) (elems (vl_list x))).1.

(** [list.rbegin()->first]. *)
Definition CVoteList_GetLastVoteHeight (x : CVoteList) : Z :=
  default 0 (fst <$> last (elems (vl_list x))).

(** ** [CConsensusParameter]: the values a parameter took, by height *)

Record CConsensusParameter := mkCConsensusParameter {
  cp_fDirty : bool;
  cp_list : gmap Z Z
}.

Definition CConsensusParameter_null : CConsensusParameter := mkCConsensusParameter true ∅.

Definition CConsensusParameter_IsNull (x : CConsensusParameter) : bool := bool_decide (cp_list x = ∅).

Definition CConsensusParameter_eqb (x y : CConsensusParameter) : bool :=
  bool_decide (cp_list x = cp_list y).

Definition CConsensusParameter_Get (x : CConsensusParameter) : option Z :=
  (foldl (fun acc kv => if kv.1 <? acc.2 then acc else (Some kv.2, kv.1)) (None, 0)
     (elems (cp_list x))).1.

Definition CConsensusParameter_GetHeight (x : CConsensusParameter) : Z :=
  foldl (fun nHeight kv => if kv.1 <? nHeight then nHeight else kv.1) 0 (elems (cp_list x)).

Definition CConsensusParameter_Set (x : CConsensusParameter) (height val : Z) : CConsensusParameter :=
  mkCConsensusParameter (cp_fDirty x) (<[height := val]> (cp_list x)).

Definition CConsensusParameter_Clear (x : CConsensusParameter) (height : Z) : CConsensusParameter :=
  mkCConsensusParameter (cp_fDirty x) (delete height (cp_list x)).

(** ** The state of a history is the one at its highest known block *)

(** [r] is the entry [last_entry] looks for. *)
Definition is_last (h : BlockMap) (sel : Z -> bool) (l : list (uint256 * Z)) (r : option (uint256 * Z) * Z) : Prop :=
  0 <= r.2 /\
  (forall k s b, (k, s) ∈ l -> sel s = true -> h !! k = Some b -> nHeight b <= r.2) /\
  match r.1 with
  | None => r.2 = 0
  | Some (k, s) => (k, s) ∈ l /\ sel s = true /\ 0 < r.2 /\ exists b, h !! k = Some b /\ nHeight b = r.2
  end.

Lemma last_entry_is_last h sel m : is_last h sel (elems m) (last_entry h sel m).
Proof.
  unfold last_entry. apply foldl_visited.
  - split; [done|]. split; [|done]. intros k s b Hin. by apply not_elem_of_nil in Hin.
  - intros l [k s] [r n] (Hn & Hmax & Hr); cbn [fst snd] in *.
    assert (forall r' : option (uint256 * Z) * Z, n <= r'.2 ->
      (sel s = true -> forall b, h !! k = Some b -> nHeight b <= r'.2) ->
      forall k' s' b, (k', s') ∈ l ++ [(k, s)] -> sel s' = true -> h !! k' = Some b ->
        nHeight b <= r'.2) as Hext.
    { intros r' Hle Hnew k' s' b Hin Hsel Hb. apply elem_of_app in Hin as [Hin|Hin].
      - specialize (Hmax k' s' b Hin Hsel Hb). lia.
      - apply list_elem_of_singleton in Hin. simplify_eq. eauto. }
    assert (match r with
            | None => n = 0
            | Some (k0, s0) => (k0, s0) ∈ l ++ [(k, s)] /\ sel s0 = true /\ 0 < n /\
                exists b, h !! k0 = Some b /\ nHeight b = n
            end) as Hkeep.
    { destruct r as [[k0 s0]|]; [|done]. destruct Hr as (Hin & Hrest).
      split; [apply elem_of_app; by left|done]. }
    destruct (sel s) eqn:Es; [destruct (h !! k) as [b|] eqn:Eb; [destruct (n <? nHeight b) eqn:El|]|];
      nav_bool; (split; [cbn; lia|]); (split; [apply Hext; [cbn; lia|]|]).
    + intros _ b' ?; simplify_eq; cbn; lia.
    + cbn. split; [set_solver|]. split; [done|]. split; [lia|]. eauto.
    + intros _ b' ?; simplify_eq; cbn; lia.
    + exact Hkeep.
    + intros _ b' ?; congruence.
    + exact Hkeep.
    + intros ?; congruence.
    + exact Hkeep.
Qed.

(** [pindex] is a known block above every other known block of the history. *)
Definition above (h : BlockMap) (m : gmap uint256 Z) (pindex : uint256) : Prop :=
  exists b, h !! pindex = Some b /\ 0 < nHeight b /\
    forall k s b', m !! k = Some s -> k <> pindex -> h !! k = Some b' -> nHeight b' < nHeight b.

Lemma last_entry_above h sel m k s :
  m !! k = Some s -> sel s = true -> above h m k -> (last_entry h sel m).1 = Some (k, s).
Proof.
  intros Hk Hs (b & Hb & Hpos & Hmax).
  destruct (last_entry_is_last h sel m) as (_ & Hle & Hr).
  specialize (Hle k s b (proj2 (elem_of_elems _ _ _) Hk) Hs Hb).
  destruct (last_entry h sel m) as [[[k' s']|] n]; cbn [fst snd] in *; [|lia].
  destruct Hr as (Hin & _ & _ & b' & Hb' & Hn). apply elem_of_elems in Hin.
  destruct (decide (k' = k)) as [->|Hne]; [congruence|].
  specialize (Hmax k' s' b' Hin Hne Hb'). lia.
Qed.

Lemma last_state_above h m k s : m !! k = Some s -> above h m k -> last_state h m = s.
Proof. intros Hk Ha. unfold last_state. by rewrite (last_entry_above h _ m k s). Qed.

Lemma last_state_block_above h m k s :
  m !! k = Some s -> above h m k -> last_state_block h m = Some k.
Proof. intros Hk Ha. unfold last_state_block. by rewrite (last_entry_above h _ m k s). Qed.

Lemma last_state_unknown h m :
  (forall k s b, m !! k = Some s -> h !! k = Some b -> nHeight b <= 0) -> last_state h m = NIL.
Proof.
  intros Hno. unfold last_state. destruct (last_entry_is_last h (fun _ => true) m) as (_ & _ & Hr).
  destruct (last_entry h (fun _ => true) m) as [[[k s]|] n]; [|done]; cbn [fst snd] in *.
  destruct Hr as (Hin & _ & Hpos & b & Hb & Hn). apply elem_of_elems in Hin.
  specialize (Hno k s b Hin Hb). lia.
Qed.

Lemma last_state_empty h : last_state h ∅ = NIL.
Proof. reflexivity. Qed.

Lemma above_insert h m k s : above h m k -> above h (<[k := s]> m) k.
Proof.
  intros (b & Hb & Hpos & Hmax). exists b. split; [done|]. split; [done|].
  intros k' s' b' Hk' Hne. rewrite lookup_insert_ne in Hk' by done. eauto.
Qed.

Lemma last_state_insert h m k s : above h m k -> last_state h (<[k := s]> m) = s.
Proof.
  intros Ha. apply (last_state_above h _ k); [apply lookup_insert_eq|by apply above_insert].
Qed.

Lemma set_p_mapState_id x : set_p_mapState x (p_mapState x) = x.
Proof. by destruct x. Qed.
Lemma set_pr_mapState_id x : set_pr_mapState x (pr_mapState x) = x.
Proof. by destruct x. Qed.
Lemma set_a_mapState_id x : set_a_mapState x (a_mapState x) = x.
Proof. by destruct x. Qed.
Lemma set_c_mapState_id x : set_c_mapState x (c_mapState x) = x.
Proof. by destruct x. Qed.

(** setting a state at a block above every known block of the history
    makes it the last state of a proposal, and clearing the state of that
    block gives back the proposal as it was: connecting and disconnecting a
    block leaves no trace in the history. *)
Theorem CProposal_SetState_ClearState (h : BlockMap) (x : CProposal) (pindex : uint256) (state : Z) :
  above h (p_mapState x) pindex -> p_mapState x !! pindex = None ->
  CProposal_GetLastState h (CProposal_SetState x pindex state) = state /\
  CProposal_GetLastStateBlockIndex h (CProposal_SetState x pindex state) = Some pindex /\
  CProposal_ClearState (CProposal_SetState x pindex state) pindex = x.
Proof.
  intros Ha Hf. split; [by apply last_state_insert|]. split.
  - apply (last_state_block_above h _ pindex state); [apply lookup_insert_eq|by apply above_insert].
  - unfold CProposal_ClearState, CProposal_SetState; cbn. rewrite delete_insert_id by done.
    by destruct x.
Qed.

(** The last state of a consultation is the one entered at its highest
    known block; a consultation whose blocks are all unknown, or at height
    zero, has no state. *)
Theorem CConsultation_GetLastState_highest (h : BlockMap) (x : CConsultation) :
  (forall k s, c_mapState x !! k = Some s -> above h (c_mapState x) k ->
     CConsultation_GetLastState h x = s) /\
  ((forall k s b, c_mapState x !! k = Some s -> h !! k = Some b -> nHeight b <= 0) ->
     CConsultation_GetLastState h x = NIL).
Proof. split; [intros k s; apply last_state_above|apply last_state_unknown]. Qed.

(** ** Votes *)

(** The vote for [hash] recorded at [height]. *)
Definition vote_at (x : CVoteList) (height : Z) (hash : uint256) : option Z :=
  vl_list x !! height ≫= fun votes => votes !! hash.

(** [r] is the vote for [hash] at the greatest positive height of [l]. *)
Definition is_latest (hash : uint256) (l : list (Z * gmap uint256 Z)) (r : option Z * Z) : Prop :=
  match r.1 with
  | None => r.2 = 0
  | Some v => 0 < r.2 /\ exists votes, (r.2, votes) ∈ l /\ votes !! hash = Some v
  end /\
  forall height votes v, (height, votes) ∈ l -> votes !! hash = Some v -> height <= r.2 \/ height <= 0.

Lemma foldl_votes_step hash height votes acc :
  foldl (votes_step hash height) acc (elems votes) =
    match votes !! hash with
    | Some v => if acc.2 <? height then (Some v, height) else acc
    | None => acc
    end.
Proof.
  assert (forall l : list (uint256 * Z), NoDup l.*1 -> forall acc,
    foldl (votes_step hash height) acc l =
      match (list_to_map l : gmap uint256 Z) !! hash with
      | Some v => if acc.2 <? height then (Some v, height) else acc
      | None => acc
      end) as Hl.
  { induction l as [|[k v] l IH]; intros Hnd [r n]; [done|].
    apply NoDup_cons in Hnd as [Hk Hnd]. cbn [foldl fst snd list_to_map foldr uncurry]. unfold votes_step at 2.
    cbn [fst snd]. destruct (Z.eqb_spec k hash) as [->|Hne].
    - cbn. rewrite lookup_insert_eq. rewrite andb_true_r.
      destruct (n <? height) eqn:E; rewrite IH by done;
        rewrite (not_elem_of_list_to_map_1 l hash) by done; done.
    - rewrite andb_false_r, IH by done. cbn. by rewrite lookup_insert_ne. }
  rewrite Hl by apply elems_NoDup. f_equal.
  rewrite (list_to_map_proper (elems votes) (map_to_list votes)) by (apply elems_NoDup || apply elems_perm).
  by rewrite list_to_map_to_list.
Qed.

Lemma is_latest_step hash l r n height votes :
  is_latest hash l (r, n) ->
  is_latest hash (l ++ [(height, votes)])
    (match votes !! hash with
     | Some v => if n <? height then (Some v, height) else (r, n)
     | None => (r, n)
     end).
Proof.
  intros [Hr Hmax]; cbn [fst snd] in *.
  assert (0 <= n) as Hn by (destruct r; [destruct Hr|]; lia).
  assert (forall (r' : option Z) (n' : Z), n <= n' -> (forall v, votes !! hash = Some v -> height <= n') ->
    forall ht vs v, (ht, vs) ∈ l ++ [(height, votes)] -> vs !! hash = Some v ->
      ht <= (r', n').2 \/ ht <= 0) as Hext.
  { intros r' n' Hle Hnew ht vs v Hin Hv. apply elem_of_app in Hin as [Hin|Hin]; cbn.
    - destruct (Hmax ht vs v Hin Hv); lia.
    - apply list_elem_of_singleton in Hin. simplify_eq. left. eauto. }
  assert (match r with
    | None => n = 0
    | Some v => 0 < n /\ exists vs, (n, vs) ∈ l ++ [(height, votes)] /\ vs !! hash = Some v
    end) as Hkeep.
  { destruct r as [v|]; [|done]. destruct Hr as (Hpos & vs & Hin & Hv). split; [done|].
    exists vs. split; [apply elem_of_app; by left|done]. }
  destruct (votes !! hash) as [v|] eqn:Ev; [destruct (n <? height) eqn:El; nav_bool|].
  - split; cbn; [|apply (Hext (Some v) height); [lia|]; intros; lia].
    split; [lia|]. exists votes. split; [|done]. apply elem_of_app; right. by apply list_elem_of_singleton.
  - split; [exact Hkeep|]. apply Hext; [lia|]. intros; lia.
  - split; [exact Hkeep|]. apply Hext; [lia|]. congruence.
Qed.

Lemma Get_is_latest x hash : exists n, is_latest hash (elems (vl_list x)) (CVoteList_Get x hash, n).
Proof.
  unfold CVoteList_Get. set (f := fun acc kv => _).
  assert (is_latest hash (elems (vl_list x)) (foldl f (None, 0) (elems (vl_list x)))) as H.
  { apply foldl_visited.
    - split; [done|]. intros ht vs v Hin. by apply not_elem_of_nil in Hin.
    - intros l [height votes] [r n] Hl. subst f; cbn [fst snd].
      pose proof (is_latest_step hash l r n height votes Hl) as Hs.
      rewrite foldl_votes_step. cbn [snd]. destruct (height <? n) eqn:E; nav_bool; [|exact Hs].
      destruct (votes !! hash); [|exact Hs]. rewrite (proj2 (Z.ltb_ge n height)) in Hs by lia. exact Hs. }
  eexists. rewrite <- surjective_pairing. exact H.
Qed.

Lemma foldl_list_step hash height votes acc :
  (foldl (list_step height) acc (elems votes)).1 !! hash =
    (match votes !! hash with
     | Some v => if default 0 (acc.2 !! hash) <? height then Some v else acc.1 !! hash
     | None => acc.1 !! hash
     end) /\
  default 0 ((foldl (list_step height) acc (elems votes)).2 !! hash) =
    (match votes !! hash with
     | Some v => if default 0 (acc.2 !! hash) <? height then height else default 0 (acc.2 !! hash)
     | None => default 0 (acc.2 !! hash)
     end).
Proof.
  assert (forall l : list (uint256 * Z), NoDup l.*1 -> forall acc,
    (foldl (list_step height) acc l).1 !! hash =
      (match (list_to_map l : gmap uint256 Z) !! hash with
       | Some v => if default 0 (acc.2 !! hash) <? height then Some v else acc.1 !! hash
       | None => acc.1 !! hash
       end) /\
    default 0 ((foldl (list_step height) acc l).2 !! hash) =
      (match (list_to_map l : gmap uint256 Z) !! hash with
       | Some v => if default 0 (acc.2 !! hash) <? height then height else default 0 (acc.2 !! hash)
       | None => default 0 (acc.2 !! hash)
       end)) as Hl.
  { induction l as [|[k v] l IH]; intros Hnd [ret cache]; [done|].
    apply NoDup_cons in Hnd as [Hk Hnd]. rewrite list_to_map_cons. cbn [foldl].
    specialize (IH Hnd (list_step height (ret, cache) (k, v))). destruct IH as [-> ->].
    assert (default 0 ((match cache !! k with None => <[k := 0]> cache | Some _ => cache end) !! k) =
      default 0 (cache !! k)) as Ek.
    { destruct (cache !! k) eqn:E; [by rewrite E|by rewrite lookup_insert_eq]. }
    destruct (decide (k = hash)) as [->|Hne].
    - rewrite lookup_insert_eq, (not_elem_of_list_to_map_1 l hash) by done.
      unfold list_step; cbn [fst snd]. rewrite Ek.
      destruct (_ <? height); cbn; rewrite ?lookup_insert_eq; split; done || by rewrite Ek.
    - rewrite lookup_insert_ne by done.
      assert ((list_step height (ret, cache) (k, v)).1 !! hash = ret !! hash /\
        (list_step height (ret, cache) (k, v)).2 !! hash = cache !! hash) as [-> ->]; [|done].
      unfold list_step; cbn [fst snd]. destruct (_ <? height), (cache !! k); cbn;
        by rewrite ?lookup_insert_ne. }
  assert (list_to_map (elems votes) = votes) as Ev.
  { rewrite (list_to_map_proper (elems votes) (map_to_list votes)) by (apply elems_NoDup || apply elems_perm).
    by rewrite list_to_map_to_list. }
  specialize (Hl (elems votes) (elems_NoDup votes) acc). by rewrite Ev in Hl.
Qed.

Lemma GetList_is_latest x hash :
  exists n, is_latest hash (elems (vl_list x)) (CVoteList_GetList x !! hash, n).
Proof.
  unfold CVoteList_GetList. set (f := fun acc kv => _).
  assert (forall l, is_latest hash l ((foldl f (∅, ∅) l).1 !! hash, default 0 ((foldl f (∅, ∅) l).2 !! hash))) as H.
  { intros l. apply (foldl_visited f (fun l acc => is_latest hash l (acc.1 !! hash, default 0 (acc.2 !! hash)))).
    - cbn. rewrite !lookup_empty. split; [done|]. intros ht vs v Hin. by apply not_elem_of_nil in Hin.
    - intros l' [height votes] [ret cache] Hl. subst f; cbn [fst snd] in *.
      pose proof (is_latest_step hash l' _ _ height votes Hl) as Hs.
      destruct (foldl_list_step hash height votes (ret, cache)) as [-> ->]. cbn [fst snd].
      destruct (votes !! hash); [|exact Hs]. destruct (_ <? height); exact Hs. }
  eexists. apply H.
Qed.

Lemma is_latest_fun hash (m : gmap Z (gmap uint256 Z)) r1 r2 n1 n2 :
  is_latest hash (elems m) (r1, n1) -> is_latest hash (elems m) (r2, n2) -> r1 = r2.
Proof.
  intros [H1 M1] [H2 M2]; cbn [fst snd] in *.
  destruct r1 as [v1|], r2 as [v2|]; try done.
  - destruct H1 as (P1 & vs1 & I1 & E1), H2 as (P2 & vs2 & I2 & E2).
    pose proof (M1 _ _ _ I2 E2) as [?|?]; [|lia]. pose proof (M2 _ _ _ I1 E1) as [?|?]; [|lia].
    assert (n1 = n2) as -> by lia. apply elem_of_elems in I1, I2. congruence.
  - destruct H1 as (P1 & vs1 & I1 & E1). subst n2. pose proof (M2 _ _ _ I1 E1). lia.
  - destruct H2 as (P2 & vs2 & I2 & E2). subst n1. pose proof (M1 _ _ _ I2 E2). lia.
Qed.

Lemma Get_spec x hash v :
  CVoteList_Get x hash = Some v <->
    exists height, 0 < height /\ vote_at x height hash = Some v /\
      forall height', height < height' -> vote_at x height' hash = None.
Proof.
  destruct (Get_is_latest x hash) as [n Hget]. split.
  - intros E. rewrite E in Hget. destruct Hget as [(Hpos & votes & Hin & Hv) Hmax]; cbn [fst snd] in *.
    apply elem_of_elems in Hin. exists n. split; [done|]. unfold vote_at. rewrite Hin.
    split; [exact Hv|]. intros ht Hlt. destruct (vl_list x !! ht) as [vs|] eqn:Evs; [|done]; cbn.
    destruct (vs !! hash) eqn:Ev; [|done]. apply elem_of_elems in Evs.
    destruct (Hmax _ _ _ Evs Ev); lia.
  - intros (height & Hpos & Hat & Hafter). unfold vote_at in Hat.
    destruct (vl_list x !! height) as [votes|] eqn:Evs; [|done]; cbn in Hat.
    apply (is_latest_fun hash (vl_list x) _ _ n height); [exact Hget|].
    split; cbn; [split; [done|]; exists votes; by rewrite elem_of_elems|].
    intros ht vs w Hin Hw. apply elem_of_elems in Hin.
    destruct (Z.le_gt_cases ht height); [by left|]. specialize (Hafter ht). unfold vote_at in Hafter.
    rewrite Hin in Hafter; cbn in Hafter. rewrite Hafter in Hw by lia. done.
Qed.

Lemma Get_ext x y hash :
  (forall height, vote_at x height hash = vote_at y height hash) ->
  CVoteList_Get x hash = CVoteList_Get y hash.
Proof.
  intros Heq. apply option_eq. intros v. rewrite !Get_spec. by setoid_rewrite Heq.
Qed.

Lemma vote_at_insert x height hash vote votes ht hash' :
  default ∅ (vl_list x !! height) = votes ->
  vote_at (mkCVoteList (vl_fDirty x) (<[height := <[hash := vote]> votes]> (vl_list x))) ht hash' =
    if bool_decide (ht = height /\ hash' = hash) then Some vote else vote_at x ht hash'.
Proof.
  intros Hv. unfold vote_at; cbn. case_bool_decide as E.
  - destruct E as [-> ->]. by rewrite lookup_insert_eq; cbn; rewrite lookup_insert_eq.
  - destruct (decide (ht = height)) as [->|Hne]; [|by rewrite lookup_insert_ne].
    rewrite lookup_insert_eq; cbn. rewrite lookup_insert_ne by (intros ->; auto).
    subst votes. destruct (vl_list x !! height); cbn; [done|]. apply lookup_empty.
Qed.

Lemma vote_at_Set x height hash vote ht hash' :
  CVoteList_Get x hash <> Some vote ->
  vote_at (CVoteList_Set x height hash vote).1 ht hash' =
    if bool_decide (ht = height /\ hash' = hash) then Some vote else vote_at x ht hash'.
Proof.
  intros Hne. unfold CVoteList_Set.
  assert (match CVoteList_Get x hash with Some p => p =? vote | None => false end = false) as ->.
  { destruct (CVoteList_Get x hash) eqn:E; [|done]. apply Z.eqb_neq. congruence. }
  destruct (vl_list x !! height) as [votes|] eqn:Ev; cbn.
  - apply vote_at_insert. by rewrite Ev.
  - rewrite <- insert_empty. apply vote_at_insert. by rewrite Ev.
Qed.

(** [CVoteList::GetList] lists, for every hash, exactly the vote
    [CVoteList::Get] returns for it; that is the vote recorded at the
    greatest positive height. *)
Theorem CVoteList_Get_GetList (x : CVoteList) (hash : uint256) :
  CVoteList_GetList x !! hash = CVoteList_Get x hash /\
  (forall v, CVoteList_Get x hash = Some v <->
     exists height, 0 < height /\ vote_at x height hash = Some v /\
       forall height', height < height' -> vote_at x height' hash = None).
Proof.
  split; [|apply Get_spec].
  destruct (Get_is_latest x hash) as [n Hget]. destruct (GetList_is_latest x hash) as [n' Hlist].
  exact (is_latest_fun _ _ _ _ _ _ Hlist Hget).
Qed.

(** A vote set at a positive height that no later vote for the same hash
    exceeds is the vote [Get] returns, the votes for the other hashes do not
    change, [Set] reports no change exactly when the vote was already
    current, and clearing a newly set vote gives back the previous one. *)
Theorem CVoteList_Set_Get (x : CVoteList) (height : Z) (hash : uint256) (vote : Z) :
  0 < height -> (forall height', height < height' -> vote_at x height' hash = None) ->
  let '(x', changed) := CVoteList_Set x height hash vote in
  CVoteList_Get x' hash = Some vote /\
  changed = bool_decide (CVoteList_Get x hash <> Some vote) /\
  (forall hash', hash' <> hash -> CVoteList_Get x' hash' = CVoteList_Get x hash') /\
  (changed = true -> vote_at x height hash = None ->
     forall hash', CVoteList_Get (CVoteList_Clear x' height hash) hash' = CVoteList_Get x hash').
Proof.
  intros Hpos Hafter. destruct (decide (CVoteList_Get x hash = Some vote)) as [Heq|Hne].
  { unfold CVoteList_Set. rewrite Heq, Z.eqb_refl. rewrite bool_decide_eq_false_2 by auto. done. }
  pose proof (fun ht hash' => vote_at_Set x height hash vote ht hash' Hne) as Hat.
  assert ((CVoteList_Set x height hash vote).2 = bool_decide (CVoteList_Get x hash <> Some vote)) as Hch.
  { rewrite bool_decide_eq_true_2 by done. unfold CVoteList_Set.
    destruct (CVoteList_Get x hash); [|done]. by rewrite (proj2 (Z.eqb_neq _ _)) by congruence. }
  assert (exists votes, vl_list (CVoteList_Set x height hash vote).1 !! height = Some votes) as [votes Hvotes].
  { specialize (Hat height hash). rewrite bool_decide_eq_true_2 in Hat by done. unfold vote_at in Hat.
    destruct (vl_list _ !! height); [by eexists|done]. }
  destruct (CVoteList_Set x height hash vote) as [x' changed]; cbn [fst snd] in *.
  split; [|split; [done|split]].
  - apply Get_spec. exists height. split; [done|]. rewrite Hat, bool_decide_eq_true_2 by done.
    split; [done|]. intros ht Hlt. rewrite Hat, bool_decide_eq_false_2 by lia. auto.
  - intros hash' Hh. apply Get_ext. intros ht. rewrite Hat. by rewrite bool_decide_eq_false_2 by naive_solver.
  - intros _ Hnone hash'. apply Get_ext. intros ht. unfold CVoteList_Clear. rewrite Hvotes.
    specialize (Hat ht hash'). unfold vote_at in Hat |- *; cbn.
    destruct (decide (ht = height)) as [->|Hht].
    + rewrite lookup_insert_eq; cbn. rewrite Hvotes in Hat; cbn in Hat.
      destruct (decide (hash' = hash)) as [->|Hh]; [by rewrite lookup_delete_eq|].
      rewrite lookup_delete_ne by done. rewrite Hat, bool_decide_eq_false_2; naive_solver.
    + rewrite lookup_insert_ne by done. rewrite Hat, bool_decide_eq_false_2; naive_solver.
Qed.

(** ** Consensus parameters *)

Lemma cp_fold_spec (l : list (Z * Z)) :
  let r := foldl (fun acc kv => if kv.1 <? acc.2 then acc else (Some kv.2, kv.1)) (None, 0) l in
  0 <= r.2 /\ (forall k v, (k, v) ∈ l -> k <= r.2) /\
  match r.1 with None => r.2 = 0 /\ forall k v, (k, v) ∈ l -> k < 0 | Some v => (r.2, v) ∈ l end.
Proof.
  apply foldl_visited.
  - cbn. split; [done|]. split; [|split; [done|]]; intros k v Hin; by apply not_elem_of_nil in Hin.
  - intros l' [k v] [r n]; cbn [fst snd]. intros (Hn & Hmax & Hr).
    destruct (k <? n) eqn:E; nav_bool; cbn [fst snd].
    + split; [done|]. split.
      * intros k' v' [Hin|Hin]%elem_of_app; [eauto|]. apply list_elem_of_singleton in Hin. simplify_eq. lia.
      * destruct r; [apply elem_of_app; by left|]. destruct Hr as [-> Hr]. split; [done|].
        intros k' v' [Hin|Hin]%elem_of_app; [eauto|]. apply list_elem_of_singleton in Hin. by simplify_eq.
    + split; [lia|]. split; [|apply elem_of_app; right; by apply list_elem_of_singleton].
      intros k' v' [Hin|Hin]%elem_of_app; [specialize (Hmax _ _ Hin); lia|].
      apply list_elem_of_singleton in Hin. by simplify_eq.
Qed.

Lemma cp_Get_spec x v :
  CConsensusParameter_Get x = Some v <->
    exists height, 0 <= height /\ cp_list x !! height = Some v /\
      forall height', height < height' -> cp_list x !! height' = None.
Proof.
  unfold CConsensusParameter_Get. destruct (cp_fold_spec (elems (cp_list x))) as (Hn & Hmax & Hr).
  destruct (foldl _ (None, 0) (elems (cp_list x))) as [r n]; cbn [fst snd] in *.
  assert (forall k w, cp_list x !! k = Some w -> k <= n) as Hmax'.
  { intros k w Hk. apply (Hmax k w). by apply elem_of_elems. }
  split.
  - intros ->. apply elem_of_elems in Hr. exists n. split; [done|]. split; [done|].
    intros ht Hlt. destruct (cp_list x !! ht) eqn:E; [|done]. specialize (Hmax' _ _ E). lia.
  - intros (height & Hpos & Hat & Hafter). pose proof (Hmax' _ _ Hat) as Hle.
    destruct r as [w|].
    + apply elem_of_elems in Hr. destruct (Z.eq_dec n height) as [->|]; [congruence|].
      rewrite Hafter in Hr by lia. done.
    + destruct Hr as [_ Hneg]. apply elem_of_elems in Hat. specialize (Hneg _ _ Hat). lia.
Qed.

(** A consensus parameter has the value set at its greatest height: a
    value set above every recorded height is the one [Get] returns, and
    clearing that height restores the previous value. *)
Theorem CConsensusParameter_Set_Get (x : CConsensusParameter) (height val : Z) :
  0 <= height -> (forall k v, cp_list x !! k = Some v -> k < height) ->
  CConsensusParameter_Get (CConsensusParameter_Set x height val) = Some val /\
  CConsensusParameter_Clear (CConsensusParameter_Set x height val) height = x.
Proof.
  intros Hpos Hbelow. split.
  - apply cp_Get_spec. exists height. split; [done|]. cbn. split; [apply lookup_insert_eq|].
    intros ht Hlt. rewrite lookup_insert_ne by lia. destruct (cp_list x !! ht) eqn:E; [|done].
    specialize (Hbelow _ _ E). lia.
  - destruct x as [d l]. unfold CConsensusParameter_Clear, CConsensusParameter_Set; cbn in *.
    f_equal. apply delete_insert_id. destruct (l !! height) eqn:E; [|done].
    specialize (Hbelow _ _ E). lia.
Qed.

(** ** Concrete instances *)

Lemma above_check h m k b :
  h !! k = Some b -> 0 < nHeight b ->
  forallb (fun kv => (kv.1 =? k) ||
    match h !! kv.1 with Some b' => nHeight b' <? nHeight b | None => true end) (elems m) = true ->
  above h m k.
Proof.
  intros Hb Hpos Hall. exists b. split; [done|]. split; [done|]. intros k' s b' Hk' Hne Hb'.
  rewrite forallb_forall in Hall. specialize (Hall (k', s)). cbn in Hall. rewrite Hb' in Hall.
  rewrite (proj2 (Z.eqb_neq k' k) Hne) in Hall. apply Z.ltb_lt, Hall, list_elem_of_In.
  by apply elem_of_elems.
Qed.

(** A proposal accepted in block 101. *)
Definition demo_proposal : CProposal :=
  set_p_mapState CProposal_null {[101 := ACCEPTED]}.

Lemma CProposal_SetState_ClearState_witness :
  CProposal_GetLastState demo_blocks (CProposal_SetState demo_proposal 103 ACCEPTED_EXPIRED) = ACCEPTED_EXPIRED /\
  CProposal_ClearState (CProposal_SetState demo_proposal 103 ACCEPTED_EXPIRED) 103 = demo_proposal.
Proof.
  destruct (CProposal_SetState_ClearState demo_blocks demo_proposal 103 ACCEPTED_EXPIRED) as (H1 & _ & H2).
  - eapply above_check; [vm_compute; reflexivity|vm_compute; reflexivity|vm_compute; reflexivity].
  - vm_compute. reflexivity.
  - split; [exact H1|exact H2].
Defined.

Definition demo_votes : CVoteList := mkCVoteList true {[5 := {[7 := VOTE_YES]}]}.

Lemma CVoteList_Set_Get_witness :
  CVoteList_Get (CVoteList_Set demo_votes 9 7 VOTE_NO).1 7 = Some VOTE_NO.
Proof.
  refine (proj1 (CVoteList_Set_Get demo_votes 9 7 VOTE_NO _ _)); [lia|].
  intros ht Hht. unfold vote_at. cbn [vl_list demo_votes]. rewrite lookup_singleton_ne by lia. reflexivity.
Defined.

Lemma CConsensusParameter_Set_Get_witness :
  CConsensusParameter_Get (CConsensusParameter_Set (mkCConsensusParameter true {[3 := 50]}) 8 60) = Some 60.
Proof.
  refine (proj1 (CConsensusParameter_Set_Get (mkCConsensusParameter true {[3 := 50]}) 8 60 _ _)); [lia|].
  intros k v Hk. cbn [cp_list] in Hk. apply lookup_singleton_Some in Hk as [<- _]. lia.
Defined.
