(* ===== verification/StateView.v ===== *)
(** * The view of the DAO state ([coins.h], [coins.cpp], [main.cpp])

    [View] is what a [CStateViewCache] shows its user: for every kind of
    entry a table from key to entry, in which an entry that [IsNull] counts
    as absent.  [StateCache] models the layers below it and proves that they
    implement this view.

    A [Modify...] function of the code returns a modifier object: its
    constructor inserts a null entry if there was none and remembers the
    entry ([Open]), the caller writes through it ([Put]), and its destructor
    runs last ([Close]).  [Modify] composes the three for a caller that only
    writes. *)
From S2P Require Import Prelude Float CxxString Chain VersionBits Params DaoTypes.

(** ** What a table needs to know about its entries *)

Class DaoEntry (A : Type) := {
  entry_null : A;
  entry_SetNull : A -> A;
  entry_IsNull : A -> bool;
  entry_eqb : A -> A -> bool;
  entry_fDirty : A -> bool;
  entry_set_fDirty : A -> bool -> A
}.

Definition set_vl_fDirty (x : CVoteList) (d : bool) : CVoteList := mkCVoteList d (vl_list x).
Definition set_cp_fDirty (x : CConsensusParameter) (d : bool) : CConsensusParameter :=
  mkCConsensusParameter d (cp_list x).

#[export] Instance proposal_entry : DaoEntry CProposal := {|
  entry_null := CProposal_null; entry_SetNull := CProposal_SetNull;
  entry_IsNull := CProposal_IsNull; entry_eqb := CProposal_eqb;
  entry_fDirty := p_fDirty; entry_set_fDirty := set_p_fDirty |}.

#[export] Instance prequest_entry : DaoEntry CPaymentRequest := {|
  entry_null := CPaymentRequest_null; entry_SetNull := fun _ => CPaymentRequest_null;
  entry_IsNull := CPaymentRequest_IsNull; entry_eqb := CPaymentRequest_eqb;
  entry_fDirty := pr_fDirty; entry_set_fDirty := set_pr_fDirty |}.

#[export] Instance consultation_entry : DaoEntry CConsultation := {|
  entry_null := CConsultation_null; entry_SetNull := fun _ => CConsultation_null;
  entry_IsNull := CConsultation_IsNull; entry_eqb := CConsultation_eqb;
  entry_fDirty := c_fDirty; entry_set_fDirty := set_c_fDirty |}.

#[export] Instance answer_entry : DaoEntry CConsultationAnswer := {|
  entry_null := CConsultationAnswer_null; entry_SetNull := fun _ => CConsultationAnswer_null;
  entry_IsNull := CConsultationAnswer_IsNull; entry_eqb := CConsultationAnswer_eqb;
  entry_fDirty := a_fDirty; entry_set_fDirty := set_a_fDirty |}.

#[export] Instance vote_entry : DaoEntry CVoteList := {|
  entry_null := CVoteList_null; entry_SetNull := fun _ => CVoteList_null;
  entry_IsNull := CVoteList_IsNull; entry_eqb := CVoteList_eqb;
  entry_fDirty := vl_fDirty; entry_set_fDirty := set_vl_fDirty |}.

#[export] Instance cparameter_entry : DaoEntry CConsensusParameter := {|
  entry_null := CConsensusParameter_null; entry_SetNull := fun _ => CConsensusParameter_null;
  entry_IsNull := CConsensusParameter_IsNull; entry_eqb := CConsensusParameter_eqb;
  entry_fDirty := cp_fDirty; entry_set_fDirty := set_cp_fDirty |}.

(** ** Tables *)

Section tables.
Context {K A : Type} `{Countable K, !DaoEntry A}.

Definition tbl_get (t : gmap K A) (k : K) : option A :=
  e ← t !! k; if entry_IsNull e then None else Some e.

Definition tbl_have (t : gmap K A) (k : K) : bool := bool_decide (is_Some (tbl_get t k)).

(** What [GetAll...] returns: every entry that is not null. *)
Definition tbl_all (t : gmap K A) : gmap K A := filter (fun ke => entry_IsNull ke.2 = false) t.

(** [insert(make_pair(key, A()))] of the modifier functions. *)
Definition tbl_open (t : gmap K A) (k : K) : gmap K A :=
  match t !! k with Some _ => t | None => <[k := entry_null]> t end.

Definition tbl_entry (t : gmap K A) (k : K) : A := default entry_null (t !! k).

(** [if (prev != it->second) it->second.fDirty = true], at the end of every
    destructor. *)
Definition tbl_mark (prev : A) (t : gmap K A) (k : K) : gmap K A :=
  match t !! k with
  | None => t
  | Some e => if entry_eqb prev e then t else <[k := entry_set_fDirty e true]> t
  end.

Definition tbl_setnull (t : gmap K A) (k : K) : gmap K A :=
  <[k := entry_SetNull (tbl_entry t k)]> t.

(** The destructor that clears its own null entry. *)
Definition tbl_close (prev : A) (t : gmap K A) (k : K) : gmap K A :=
  let t := if entry_IsNull (tbl_entry t k) then tbl_setnull t k else t in
  tbl_mark prev t k.

Definition tbl_modify (t : gmap K A) (k : K) (f : A -> A) : gmap K A :=
  let t := tbl_open t k in
  let prev := tbl_entry t k in
  tbl_close prev (<[k := f prev]> t) k.

(** [AddX]: refused when the entry exists; [None] is the failed assertion. *)
Definition tbl_add (t : gmap K A) (k : K) (e : A) : option (gmap K A * bool) :=
  if tbl_have t k then Some (t, false)
  else if entry_fDirty e then Some (<[k := e]> t, true) else None.

Definition tbl_remove (t : gmap K A) (k : K) : gmap K A * bool :=
  if tbl_have t k then (<[k := entry_SetNull entry_null]> t, true) else (t, false).
End tables.

(** ** What the tables rely on, and their basic laws *)

Class DaoEntryLaws (A : Type) `{!DaoEntry A} := {
  IsNull_set_fDirty (e : A) (b : bool) : entry_IsNull (entry_set_fDirty e b) = entry_IsNull e;
  IsNull_null : entry_IsNull (entry_null (A := A)) = true;
  IsNull_SetNull (e : A) : entry_IsNull (entry_SetNull e) = true
}.

#[export] Instance proposal_entry_laws : DaoEntryLaws CProposal.
Proof. split; done. Qed.
#[export] Instance prequest_entry_laws : DaoEntryLaws CPaymentRequest.
Proof. split; done. Qed.
#[export] Instance consultation_entry_laws : DaoEntryLaws CConsultation.
Proof. split; done. Qed.
#[export] Instance answer_entry_laws : DaoEntryLaws CConsultationAnswer.
Proof. split; done. Qed.
#[export] Instance vote_entry_laws : DaoEntryLaws CVoteList.
Proof. split; done. Qed.
#[export] Instance cparameter_entry_laws : DaoEntryLaws CConsensusParameter.
Proof. split; done. Qed.

Section table_laws.
Context {K A : Type} `{Countable K, !DaoEntry A, !DaoEntryLaws A}.
Implicit Types (t : gmap K A) (k : K) (e : A).

Lemma tbl_get_Some t k e : tbl_get t k = Some e <-> t !! k = Some e /\ entry_IsNull e = false.
Proof.
  unfold tbl_get. destruct (t !! k) as [x|]; cbn; [|split; [done|by intros [? _]]].
  destruct (entry_IsNull x) eqn:E; (split; [|intros [[= <-] ?]; congruence]); [done|].
  by intros [= <-].
Qed.

Lemma tbl_all_get t k : tbl_all t !! k = tbl_get t k.
Proof.
  unfold tbl_all, tbl_get. rewrite map_lookup_filter. destruct (t !! k) as [x|]; cbn; [|done].
  destruct (entry_IsNull x) eqn:E; [by rewrite option_guard_False by congruence|].
  by rewrite option_guard_True.
Qed.

Lemma tbl_entry_get t k e : tbl_get t k = Some e -> tbl_entry t k = e.
Proof. intros [Hk _]%tbl_get_Some. unfold tbl_entry. by rewrite Hk. Qed.

Lemma tbl_open_get t k e : tbl_get t k = Some e -> tbl_open t k = t.
Proof. intros [Hk _]%tbl_get_Some. unfold tbl_open. by rewrite Hk. Qed.

(** An entry and the same entry with the dirty flag set. *)
Definition dirtied (e e' : A) : Prop := e' = e \/ e' = entry_set_fDirty e true.

Lemma tbl_mark_insert t k e prev :
  exists e', tbl_mark prev (<[k := e]> t) k = <[k := e']> t /\ dirtied e e'.
Proof.
  unfold tbl_mark. rewrite lookup_insert_eq. destruct (entry_eqb prev e).
  - exists e. split; [done|by left].
  - eexists. split; [apply insert_insert_eq|by right].
Qed.

(** Modifying an existing entry into one that is not null. *)
Lemma tbl_modify_get t k e f :
  tbl_get t k = Some e -> entry_IsNull (f e) = false ->
  exists e', tbl_modify t k f = <[k := e']> t /\ dirtied (f e) e'.
Proof.
  intros Hk Hf. unfold tbl_modify. rewrite (tbl_open_get t k e) by done.
  rewrite (tbl_entry_get t k e) by done. unfold tbl_close.
  unfold tbl_entry at 1. rewrite lookup_insert_eq; cbn. rewrite Hf. apply tbl_mark_insert.
Qed.

Lemma dirtied_IsNull e e' : dirtied e e' -> entry_IsNull e' = entry_IsNull e.
Proof. intros [->| ->]; [done|]. apply IsNull_set_fDirty. Qed.

Lemma tbl_get_insert t k e k' :
  entry_IsNull e = false ->
  tbl_get (<[k := e]> t) k' = if decide (k = k') then Some e else tbl_get t k'.
Proof.
  intros He. unfold tbl_get. destruct (decide (k = k')) as [->|]; [|by rewrite lookup_insert_ne].
  rewrite lookup_insert_eq; cbn. by rewrite He.
Qed.
End table_laws.

(** ** The view *)

Abbreviation CVoteMapKey := (list Z).

Record View := mkView {
  v_proposals : gmap uint256 CProposal;
  v_prequests : gmap uint256 CPaymentRequest;
  v_votes : gmap CVoteMapKey CVoteList;
  v_consultations : gmap uint256 CConsultation;
  v_answers : gmap uint256 CConsultationAnswer;
  v_consensus : gmap Z CConsensusParameter;
  (** [nCacheExcludeVotes] *)
  v_exclude : Z;
  (** whether the scan of the database behind [GetAll...] succeeds *)
  v_readable : bool
}.

Definition set_v_proposals (v : View) (t : gmap uint256 CProposal) : View :=
  mkView t (v_prequests v) (v_votes v) (v_consultations v) (v_answers v) (v_consensus v)
    (v_exclude v) (v_readable v).
Definition set_v_prequests (v : View) (t : gmap uint256 CPaymentRequest) : View :=
  mkView (v_proposals v) t (v_votes v) (v_consultations v) (v_answers v) (v_consensus v)
    (v_exclude v) (v_readable v).
Definition set_v_votes (v : View) (t : gmap CVoteMapKey CVoteList) : View :=
  mkView (v_proposals v) (v_prequests v) t (v_consultations v) (v_answers v) (v_consensus v)
    (v_exclude v) (v_readable v).
Definition set_v_consultations (v : View) (t : gmap uint256 CConsultation) : View :=
  mkView (v_proposals v) (v_prequests v) (v_votes v) t (v_answers v) (v_consensus v)
    (v_exclude v) (v_readable v).
Definition set_v_answers (v : View) (t : gmap uint256 CConsultationAnswer) : View :=
  mkView (v_proposals v) (v_prequests v) (v_votes v) (v_consultations v) t (v_consensus v)
    (v_exclude v) (v_readable v).
Definition set_v_consensus (v : View) (t : gmap Z CConsensusParameter) : View :=
  mkView (v_proposals v) (v_prequests v) (v_votes v) (v_consultations v) (v_answers v) t
    (v_exclude v) (v_readable v).

Definition SetExcludeVotes (v : View) (count : Z) : View :=
  mkView (v_proposals v) (v_prequests v) (v_votes v) (v_consultations v) (v_answers v) (v_consensus v)
    count (v_readable v).
Definition GetExcludeVotes (v : View) : Z := v_exclude v.

Definition GetProposal (v : View) (k : uint256) : option CProposal := tbl_get (v_proposals v) k.
Definition GetPaymentRequest (v : View) (k : uint256) : option CPaymentRequest := tbl_get (v_prequests v) k.
Definition GetConsultation (v : View) (k : uint256) : option CConsultation := tbl_get (v_consultations v) k.
Definition GetConsultationAnswer (v : View) (k : uint256) : option CConsultationAnswer :=
  tbl_get (v_answers v) k.
Definition GetCachedVoter (v : View) (k : CVoteMapKey) : option CVoteList := tbl_get (v_votes v) k.
Definition view_GetConsensusParameter (v : View) (k : Z) : option CConsensusParameter :=
  tbl_get (v_consensus v) k.

Definition HaveProposal (v : View) (k : uint256) : bool := tbl_have (v_proposals v) k.
Definition HavePaymentRequest (v : View) (k : uint256) : bool := tbl_have (v_prequests v) k.
Definition HaveConsultation (v : View) (k : uint256) : bool := tbl_have (v_consultations v) k.
Definition HaveConsultationAnswer (v : View) (k : uint256) : bool := tbl_have (v_answers v) k.

(** [GetAll...]: [None] when the database cannot be read. *)
Definition GetAllProposals (v : View) : option (gmap uint256 CProposal) :=
  if v_readable v then Some (tbl_all (v_proposals v)) else None.
Definition GetAllPaymentRequests (v : View) : option (gmap uint256 CPaymentRequest) :=
  if v_readable v then Some (tbl_all (v_prequests v)) else None.
Definition GetAllVotes (v : View) : option (gmap CVoteMapKey CVoteList) :=
  if v_readable v then Some (tbl_all (v_votes v)) else None.
Definition GetAllConsultations (v : View) : option (gmap uint256 CConsultation) :=
  if v_readable v then Some (tbl_all (v_consultations v)) else None.
Definition GetAllConsultationAnswers (v : View) : option (gmap uint256 CConsultationAnswer) :=
  if v_readable v then Some (tbl_all (v_answers v)) else None.

(** *** Modifiers *)

Definition OpenProposal (v : View) (k : uint256) : View :=
  set_v_proposals v (tbl_open (v_proposals v) k).
Definition PutProposal (v : View) (k : uint256) (e : CProposal) : View :=
  set_v_proposals v (<[k := e]> (v_proposals v)).
Definition CloseProposal (v : View) (k : uint256) (prev : CProposal) : View :=
  set_v_proposals v (tbl_close prev (v_proposals v) k).
Definition ModifyProposal (v : View) (k : uint256) (f : CProposal -> CProposal) : View :=
  set_v_proposals v (tbl_modify (v_proposals v) k f).

Definition OpenPaymentRequest (v : View) (k : uint256) : View :=
  set_v_prequests v (tbl_open (v_prequests v) k).
Definition PutPaymentRequest (v : View) (k : uint256) (e : CPaymentRequest) : View :=
  set_v_prequests v (<[k := e]> (v_prequests v)).

(** The destructor clears the proposal with the key of a null payment request. *)
Definition ClosePaymentRequest (v : View) (k : uint256) (prev : CPaymentRequest) : View :=
  let v := if entry_IsNull (tbl_entry (v_prequests v) k)
           then set_v_proposals v (tbl_setnull (v_proposals v) k) else v in
  set_v_prequests v (tbl_mark prev (v_prequests v) k).

Definition ModifyPaymentRequest (v : View) (k : uint256) (f : CPaymentRequest -> CPaymentRequest) : View :=
  let v := OpenPaymentRequest v k in
  let prev := tbl_entry (v_prequests v) k in
  ClosePaymentRequest (PutPaymentRequest v k (f prev)) k prev.

Definition OpenConsultation (v : View) (k : uint256) : View :=
  set_v_consultations v (tbl_open (v_consultations v) k).
Definition PutConsultation (v : View) (k : uint256) (e : CConsultation) : View :=
  set_v_consultations v (<[k := e]> (v_consultations v)).
Definition CloseConsultation (v : View) (k : uint256) (prev : CConsultation) : View :=
  set_v_consultations v (tbl_close prev (v_consultations v) k).
Definition ModifyConsultation (v : View) (k : uint256) (f : CConsultation -> CConsultation) : View :=
  set_v_consultations v (tbl_modify (v_consultations v) k f).

Definition OpenConsultationAnswer (v : View) (k : uint256) : View :=
  set_v_answers v (tbl_open (v_answers v) k).
Definition PutConsultationAnswer (v : View) (k : uint256) (e : CConsultationAnswer) : View :=
  set_v_answers v (<[k := e]> (v_answers v)).
Definition CloseConsultationAnswer (v : View) (k : uint256) (prev : CConsultationAnswer) : View :=
  set_v_answers v (tbl_close prev (v_answers v) k).
Definition ModifyConsultationAnswer (v : View) (k : uint256)
    (f : CConsultationAnswer -> CConsultationAnswer) : View :=
  set_v_answers v (tbl_modify (v_answers v) k f).

Definition ModifyVote (v : View) (k : CVoteMapKey) (f : CVoteList -> CVoteList) : View :=
  set_v_votes v (tbl_modify (v_votes v) k f).
Definition ModifyConsensusParameter (v : View) (k : Z)
    (f : CConsensusParameter -> CConsensusParameter) : View :=
  set_v_consensus v (tbl_modify (v_consensus v) k f).

(** *** Adding and removing entries *)

Definition AddProposal (v : View) (p : CProposal) : option (View * bool) :=
  do '(t, b) <- tbl_add (v_proposals v) (p_hash p) p; Some (set_v_proposals v t, b).

Definition AddPaymentRequest (v : View) (pr : CPaymentRequest) : option (View * bool) :=
  do '(t, b) <- tbl_add (v_prequests v) (pr_hash pr) pr; Some (set_v_prequests v t, b).

Definition AddConsultation (v : View) (c : CConsultation) : option (View * bool) :=
  do '(t, b) <- tbl_add (v_consultations v) (c_hash c) c; Some (set_v_consultations v t, b).

Definition AddCachedVoter (v : View) (k : CVoteMapKey) (l : CVoteList) : option (View * bool) :=
  do '(t, b) <- tbl_add (v_votes v) k l; Some (set_v_votes v t, b).

(** The answer is also listed in its consultation; the modifier of the
    consultation is still open while the answer is stored. *)
Definition AddConsultationAnswer (v : View) (a : CConsultationAnswer) : option (View * bool) :=
  if tbl_have (v_answers v) (a_hash a) then Some (v, false)
  else
    let v := OpenConsultation v (a_parent a) in
    let prev := tbl_entry (v_consultations v) (a_parent a) in
    let v := PutConsultation v (a_parent a) (set_c_vAnswers prev (c_vAnswers prev ++ [a_hash a])) in
    check a_fDirty a;
    let v := set_v_answers v (<[a_hash a := a]> (v_answers v)) in
    Some (CloseConsultation v (a_parent a) prev, true).

Definition RemoveProposal (v : View) (k : uint256) : View * bool :=
  let '(t, b) := tbl_remove (v_proposals v) k in (set_v_proposals v t, b).

Definition RemovePaymentRequest (v : View) (k : uint256) : View * bool :=
  let '(t, b) := tbl_remove (v_prequests v) k in (set_v_prequests v t, b).

Definition RemoveCachedVoter (v : View) (k : CVoteMapKey) : View * bool :=
  let '(t, b) := tbl_remove (v_votes v) k in (set_v_votes v t, b).

(** The loop erases the element the iterator points at and then increments it: after an
    erase the iterator already is at the next element, which is skipped. *)
Fixpoint erase_loop (l : list uint256) (cid : uint256) : list uint256 :=
  match l with
  | [] => []
  | x :: l' =>
    if x =? cid then match l' with [] => [] | y :: l'' => y :: erase_loop l'' cid end
    else x :: erase_loop l' cid
  end.

Definition RemoveConsultationAnswer (v : View) (cid : uint256) : View * bool :=
  match GetConsultationAnswer v cid with
  | None => (v, false)
  | Some a =>
    let v := OpenConsultation v (a_parent a) in
    let prev := tbl_entry (v_consultations v) (a_parent a) in
    let v := PutConsultation v (a_parent a) (set_c_vAnswers prev (erase_loop (c_vAnswers prev) cid)) in
    let v := set_v_answers v (<[cid := CConsultationAnswer_null]> (v_answers v)) in
    (CloseConsultation v (a_parent a) prev, true)
  end.

(** The assertion reads [cachePaymentRequests[cid]] and creates that entry. *)
Definition RemoveConsultation (v : View) (cid : uint256) : option (View * bool) :=
  match GetConsultation v cid with
  | None => Some (v, false)
  | Some c =>
    let v := foldl (fun v a => (RemoveConsultationAnswer v a).1) v (c_vAnswers c) in
    let v := set_v_consultations v (<[cid := CConsultation_null]> (v_consultations v)) in
    let v := set_v_prequests v (tbl_open (v_prequests v) cid) in
    check entry_IsNull (tbl_entry (v_prequests v) cid);
    Some (v, true)
  end.

(** ** Consensus parameters ([main.cpp]) *)

Section consensus_parameters.
Context {params : Params}.

Definition GetConsensusParameter (pos : Z) (v : View) : Z :=
  let ret := vParameters pos in
  match view_GetConsensusParameter v pos with
  | Some cparameter => match CConsensusParameter_Get cparameter with Some val => val | None => ret end
  | None => ret
  end.

Definition GetFundContributionPerBlock (v : View) : Z :=
  u64 (GetConsensusParameter CONSENSUS_PARAM_GENERATION_PER_BLOCK v *
       GetConsensusParameter CONSENSUS_PARAM_FUND_PERCENT_PER_BLOCK v) / 10000.

Definition GetStakingRewardPerBlock (v : View) : Z :=
  u64 (GetConsensusParameter CONSENSUS_PARAM_GENERATION_PER_BLOCK v - GetFundContributionPerBlock v).
End consensus_parameters.
