(* ===== verification/StateCache.v ===== *)
(** * The layers below a view ([coins.h], [coins.cpp], [txdb.cpp])

    A [CStateViewCache] keeps the entries it has seen or changed in a map and
    asks its base for the others; the base is another cache or the database.
    [Store] is what a base offers ([CStateView], one table of it), with
    [StoreLaws] as its promise.  The database table and a cache over any
    lawful store are instances, so the theorems hold for every stack of
    caches.

    The tables of [StateView] are what such a stack shows: [cache_tbl].  The
    operations of the cache are proved to be the operations of [StateView] on
    that table, and [Flush] to keep it.  The destructor of the modifier is
    that of proposals, consultations, answers, votes and parameters; the one
    of payment requests also touches the proposals ([ClosePaymentRequest] of
    [StateView]).  Values are stored as they are: the byte serialization of
    the database is not modelled. *)
From S2P Require Import Prelude Float CxxString Chain VersionBits Params DaoTypes StateView.

(** [SetNull] and the constructor leave an entry dirty. *)
Class DirtyEntryLaws (A : Type) `{!DaoEntry A} := {
  fDirty_null : entry_fDirty (entry_null (A := A)) = true;
  SetNull_null : entry_SetNull entry_null = entry_null (A := A);
  fDirty_SetNull (e : A) : entry_fDirty (entry_SetNull e) = true;
  fDirty_set (e : A) (b : bool) : entry_fDirty (entry_set_fDirty e b) = b
}.

#[export] Instance proposal_dirty_laws : DirtyEntryLaws CProposal.
Proof. split; done. Qed.
#[export] Instance prequest_dirty_laws : DirtyEntryLaws CPaymentRequest.
Proof. split; done. Qed.
#[export] Instance consultation_dirty_laws : DirtyEntryLaws CConsultation.
Proof. split; done. Qed.
#[export] Instance answer_dirty_laws : DirtyEntryLaws CConsultationAnswer.
Proof. split; done. Qed.
#[export] Instance vote_dirty_laws : DirtyEntryLaws CVoteList.
Proof. split; done. Qed.
#[export] Instance cparameter_dirty_laws : DirtyEntryLaws CConsensusParameter.
Proof. split; done. Qed.

(** ** The interface of a base *)

(** A lookup of a cache can change it: it keeps what it fetched. *)
Class Store (S K A : Type) `{Countable K} := {
  st_get : S -> K -> S * option A;
  st_all : S -> option (gmap K A);
  st_batch : S -> gmap K A -> S
}.

(** The entries of a child that [BatchWrite] takes. *)
Definition dirty_part {K A : Type} `{Countable K, !DaoEntry A} (m : gmap K A) : gmap K A :=
  filter (fun ke => entry_fDirty ke.2 = true) m.

(** The promise: a store in a good state ([st_ok]) shows a table without null
    entries, and stays good. *)
Class StoreLaws (S K A : Type) `{Countable K, !DaoEntry A, !Store S K A} := {
  st_ok : S -> Prop;
  st_tbl : S -> gmap K A;
  st_readable : S -> bool;
  st_tbl_nonnull s k e : st_ok s -> st_tbl s !! k = Some e -> entry_IsNull e = false;
  st_get_spec s k : st_ok s -> (st_get s k).2 = st_tbl s !! k;
  st_get_ok s k : st_ok s -> st_ok (st_get s k).1;
  st_get_tbl s k : st_ok s -> st_tbl (st_get s k).1 = st_tbl s;
  st_get_readable s k : st_ok s -> st_readable (st_get s k).1 = st_readable s;
  st_all_spec s : st_ok s -> st_all s = if st_readable s then Some (st_tbl s) else None;
  st_batch_ok s m : st_ok s -> st_ok (st_batch s m);
  st_batch_tbl s m : st_ok s -> st_tbl (st_batch s m) = tbl_all (dirty_part m ∪ st_tbl s);
  st_batch_readable s m : st_ok s -> st_readable (st_batch s m) = st_readable s
}.

(** ** The cache *)

Record Cached (S K A : Type) `{Countable K} := mkCached { cc_map : gmap K A; cc_base : S }.
Arguments mkCached {S K A _ _}.
Arguments cc_map {S K A _ _}.
Arguments cc_base {S K A _ _}.

Section cache.
Context {S K A : Type} `{Countable K, !DaoEntry A, !Store S K A}.
Implicit Types (c : Cached S K A) (k : K).

(** [FetchX] and the test of [GetX]: the entry if there is one that is not
    null.  An entry of the base is kept. *)
Definition cache_get c k : Cached S K A * option A :=
  match cc_map c !! k with
  | Some e => (c, if entry_IsNull e then None else Some e)
  | None =>
    let '(s, o) := st_get (cc_base c) k in
    match o with
    | Some e => if entry_IsNull e then (mkCached (cc_map c) s, None)
                else (mkCached (<[k := e]> (cc_map c)) s, Some e)
    | None => (mkCached (cc_map c) s, None)
    end
  end.

Definition cache_have c k : Cached S K A * bool :=
  let '(c, o) := cache_get c k in (c, bool_decide (is_Some o)).

(** [GetAllX]: [insert] does not replace an entry that is there. *)
Definition cache_all c : option (gmap K A) :=
  do base <- st_all (cc_base c); Some (tbl_all (cc_map c ∪ tbl_all base)).

(** [ModifyX]: the entry of the cache, else of the base, else a null one. *)
Definition cache_open c k : Cached S K A :=
  match cc_map c !! k with
  | Some _ => c
  | None =>
    let '(s, o) := st_get (cc_base c) k in
    mkCached (<[k := match o with Some e => e | None => entry_SetNull entry_null end]> (cc_map c)) s
  end.

(** The modifier: open, write through it, destructor (of all tables but that of
    payment requests, whose destructor clears a proposal instead of its own null
    entry: [ClosePaymentRequest]). *)
Definition cache_modify c k (f : A -> A) : Cached S K A :=
  let c := cache_open c k in
  let prev := tbl_entry (cc_map c) k in
  mkCached (tbl_close prev (<[k := f prev]> (cc_map c)) k) (cc_base c).

Definition cache_add c k (e : A) : option (Cached S K A * bool) :=
  let '(c, b) := cache_have c k in
  if b then Some (c, false)
  else if entry_fDirty e then Some (mkCached (<[k := e]> (cc_map c)) (cc_base c), true) else None.

Definition cache_remove c k : Cached S K A * bool :=
  let '(c, b) := cache_have c k in
  if b then (mkCached (<[k := entry_SetNull entry_null]> (cc_map c)) (cc_base c), true) else (c, false).

(** [BatchWrite]: one iteration per entry of the child's map. *)
Definition batch_step (us : gmap K A) (ke : K * A) : gmap K A :=
  if entry_fDirty ke.2 then <[ke.1 := ke.2]> us else us.

Definition cache_batch c (child : gmap K A) : Cached S K A :=
  mkCached (foldl batch_step (cc_map c) (map_to_list child)) (cc_base c).

Definition cache_flush c : Cached S K A := mkCached ∅ (st_batch (cc_base c) (cc_map c)).
End cache.

#[export] Instance cache_store {S K A} `{Countable K, !DaoEntry A, !Store S K A} : Store (Cached S K A) K A := {|
  st_get := cache_get; st_all := cache_all; st_batch := cache_batch
|}.

(** ** The database table ([CStateViewDB]) *)

(** [db_ok] is whether the cursor reads every value. *)
Record DbTable (K A : Type) `{Countable K} := mkDbTable { db_map : gmap K A; db_ok : bool }.
Arguments mkDbTable {K A _ _}.
Arguments db_map {K A _ _}.
Arguments db_ok {K A _ _}.

Section database.
Context {K A : Type} `{Countable K, !DaoEntry A}.

(** [Erase] for a null entry, [Write] for another. *)
Definition db_step (t : gmap K A) (ke : K * A) : gmap K A :=
  if entry_fDirty ke.2 then if entry_IsNull ke.2 then delete ke.1 t else <[ke.1 := ke.2]> t else t.

#[export] Instance db_store : Store (DbTable K A) K A := {|
  st_get := fun t k => (t, db_map t !! k);
  st_all := fun t => if db_ok t then Some (db_map t) else None;
  st_batch := fun t m => mkDbTable (foldl db_step (db_map t) (map_to_list m)) (db_ok t)
|}.
End database.

(** ** A batch is a union with the dirty entries *)

Section batch.
Context {K A : Type} `{Countable K, !DaoEntry A}.

Lemma dirty_part_lookup (m : gmap K A) k :
  dirty_part m !! k = match m !! k with Some e => if entry_fDirty e then Some e else None | None => None end.
Proof.
  unfold dirty_part. rewrite map_lookup_filter. destruct (m !! k) as [e|]; cbn; [|done].
  destruct (entry_fDirty e) eqn:E; [by rewrite option_guard_True|by rewrite option_guard_False by congruence].
Qed.

Lemma batch_union (us child : gmap K A) : foldl batch_step us (map_to_list child) = dirty_part child ∪ us.
Proof.
  apply map_eq. intros k.
  rewrite (foldl_map_own_key batch_step (fun e o => if entry_fDirty e then Some e else o)).
  - rewrite lookup_union, dirty_part_lookup. destruct (child !! k) as [e|]; [|by rewrite (left_id None _)].
    destruct (entry_fDirty e); [by destruct (us !! k)|by rewrite (left_id None _)].
  - intros t [k0 e] k'. unfold batch_step; cbn. destruct (entry_fDirty e), (decide (k0 = k')) as [->|];
      by rewrite ?lookup_insert_eq, ?lookup_insert_ne.
Qed.

Lemma db_union (t m : gmap K A) k :
  foldl db_step t (map_to_list m) !! k =
  match dirty_part m !! k with Some e => if entry_IsNull e then None else Some e | None => t !! k end.
Proof.
  rewrite (foldl_map_own_key db_step (fun e o => if entry_fDirty e then if entry_IsNull e then None else Some e else o)).
  - rewrite dirty_part_lookup. destruct (m !! k) as [e|]; [|done]. by destruct (entry_fDirty e).
  - intros t0 [k0 e] k'. unfold db_step; cbn. destruct (entry_fDirty e), (entry_IsNull e), (decide (k0 = k')) as [->|];
      by rewrite ?lookup_delete_eq, ?lookup_delete_ne, ?lookup_insert_eq, ?lookup_insert_ne.
Qed.
End batch.

Lemma tbl_all_union_r {K A : Type} `{Countable K, !DaoEntry A} (d t : gmap K A) :
  tbl_all (d ∪ tbl_all t) = tbl_all (d ∪ t).
Proof.
  apply map_eq. intros k. rewrite !tbl_all_get. unfold tbl_get. rewrite !lookup_union, tbl_all_get.
  destruct (d !! k) as [x|]; [by rewrite !union_Some_l|]. rewrite !(left_id None _). unfold tbl_get.
  destruct (t !! k) as [x|]; cbn; [|done]. destruct (entry_IsNull x) eqn:E; cbn; by rewrite ?E.
Qed.

(** ** The database table keeps the promise *)

Section database_laws.
Context {K A : Type} `{Countable K, !DaoEntry A}.

(** Nothing null was ever written. *)
Definition db_good (t : DbTable K A) : Prop := forall k e, db_map t !! k = Some e -> entry_IsNull e = false.

Lemma db_batch_good t m : db_good t -> db_good (st_batch t m).
Proof.
  intros Ht k e. cbn [st_batch db_store db_map]. rewrite db_union.
  destruct (dirty_part m !! k) as [x|]; [|apply Ht]. destruct (entry_IsNull x) eqn:E; [done|]. by intros [= <-].
Qed.

Lemma db_batch_tbl t m : db_good t -> db_map (st_batch t m) = tbl_all (dirty_part m ∪ db_map t).
Proof.
  intros Ht. apply map_eq. intros k. cbn [st_batch db_store db_map]. rewrite db_union, tbl_all_get.
  unfold tbl_get. rewrite lookup_union. destruct (dirty_part m !! k) as [x|]; [by rewrite union_Some_l|].
  rewrite (left_id None _). destruct (db_map t !! k) as [x|] eqn:E; [|done]. cbn. by rewrite (Ht k x E).
Qed.

#[export] Instance db_laws : StoreLaws (DbTable K A) K A.
Proof.
  refine {| st_ok := db_good; st_tbl := db_map; st_readable := db_ok |}; try done.
  - intros s k e Hs. apply Hs.
  - intros s m. apply db_batch_good.
  - intros s m. apply db_batch_tbl.
Defined.
End database_laws.

(** ** A cache over a lawful store *)

Section cache_laws.
Context {S K A : Type} `{Countable K, !DaoEntry A, !DaoEntryLaws A, !DirtyEntryLaws A}.
Context `{!Store S K A, !StoreLaws S K A}.
Implicit Types (c : Cached S K A) (k : K) (e : A).

(** The table of [StateView] a cache shows, null entries of the cache
    included. *)
Definition cache_tbl c : gmap K A := cc_map c ∪ st_tbl (cc_base c).
Definition cache_ok c : Prop := st_ok (cc_base c).

Lemma cache_tbl_lookup c k :
  cache_tbl c !! k = match cc_map c !! k with Some e => Some e | None => st_tbl (cc_base c) !! k end.
Proof.
  unfold cache_tbl. rewrite lookup_union. destruct (cc_map c !! k); [by rewrite union_Some_l|by rewrite (left_id None _)].
Qed.

(** A cache that only kept an entry of its base shows the same table. *)
Lemma cache_tbl_keep c k e s :
  cc_map c !! k = None -> st_tbl s = st_tbl (cc_base c) -> st_tbl (cc_base c) !! k = Some e ->
  cache_tbl (mkCached (<[k := e]> (cc_map c)) s) = cache_tbl c.
Proof.
  intros Hk Hs He. unfold cache_tbl; cbn. rewrite Hs, <- insert_union_l. apply insert_id.
  rewrite lookup_union, Hk, He. done.
Qed.

Lemma cache_get_spec c k :
  cache_ok c ->
  (cache_get c k).2 = tbl_get (cache_tbl c) k /\ cache_tbl (cache_get c k).1 = cache_tbl c /\
  cache_ok (cache_get c k).1 /\ st_readable (cc_base (cache_get c k).1) = st_readable (cc_base c).
Proof.
  intros Hc. unfold cache_get, tbl_get. rewrite cache_tbl_lookup.
  destruct (cc_map c !! k) as [e|] eqn:Ek; [done|].
  pose proof (st_get_spec (cc_base c) k Hc) as Hg. pose proof (st_get_tbl (cc_base c) k Hc) as Ht.
  pose proof (st_get_ok (cc_base c) k Hc) as Ho. pose proof (st_get_readable (cc_base c) k Hc) as Hr.
  destruct (st_get (cc_base c) k) as [s o]. cbn in Hg, Ht, Ho, Hr. subst o.
  destruct (st_tbl (cc_base c) !! k) as [e|] eqn:Ee; cbn.
  - rewrite (st_tbl_nonnull _ _ _ Hc Ee). cbn. split; [done|]. split; [|done]. by apply cache_tbl_keep.
  - split; [done|]. split; [|done]. unfold cache_tbl; cbn. by rewrite Ht.
Qed.

Lemma cache_open_spec c k :
  cache_ok c ->
  cc_map (cache_open c k) !! k = Some (default (entry_SetNull entry_null) (cache_tbl c !! k)) /\
  (forall k', k' <> k -> cc_map (cache_open c k) !! k' = cc_map c !! k') /\
  st_tbl (cc_base (cache_open c k)) = st_tbl (cc_base c) /\ cache_ok (cache_open c k) /\
  st_readable (cc_base (cache_open c k)) = st_readable (cc_base c).
Proof.
  intros Hc. unfold cache_open. rewrite cache_tbl_lookup. destruct (cc_map c !! k) as [e|] eqn:Ek; [done|].
  pose proof (st_get_spec (cc_base c) k Hc) as Hg. pose proof (st_get_tbl (cc_base c) k Hc) as Ht.
  pose proof (st_get_ok (cc_base c) k Hc) as Ho. pose proof (st_get_readable (cc_base c) k Hc) as Hr.
  destruct (st_get (cc_base c) k) as [s o]. cbn in *. subst o. split; [|split; [|done]].
  - rewrite lookup_insert_eq. by destruct (st_tbl (cc_base c) !! k).
  - intros k' Hne. by rewrite lookup_insert_ne.
Qed.
(** What a destructor leaves in place of the entry [x] it finds. *)
Definition closed (prev x : A) : A :=
  let x := if entry_IsNull x then entry_SetNull x else x in
  if entry_eqb prev x then x else entry_set_fDirty x true.

Lemma tbl_close_insert prev x (t : gmap K A) k : tbl_close prev (<[k := x]> t) k = <[k := closed prev x]> t.
Proof.
  unfold tbl_close, tbl_setnull, tbl_mark, tbl_entry, closed. rewrite lookup_insert_eq; cbn.
  destruct (entry_IsNull x); rewrite ?insert_insert_eq, lookup_insert_eq;
    destruct (entry_eqb prev _); by rewrite ?insert_insert_eq.
Qed.

Lemma tbl_modify_insert (t : gmap K A) k f :
  tbl_modify t k f = <[k := closed (tbl_entry t k) (f (tbl_entry t k))]> t.
Proof.
  unfold tbl_modify. rewrite tbl_close_insert. unfold tbl_open, tbl_entry.
  destruct (t !! k) as [e|] eqn:E; rewrite ?lookup_insert_eq, ?E; cbn; [done|by rewrite insert_insert_eq].
Qed.

(** [ModifyX] of the cache is [tbl_modify] on the table it shows. *)
Lemma cache_modify_spec c k f :
  cache_ok c ->
  cache_tbl (cache_modify c k f) = tbl_modify (cache_tbl c) k f /\ cache_ok (cache_modify c k f) /\
  cc_map (cache_modify c k f) !! k = Some (closed (tbl_entry (cache_tbl c) k) (f (tbl_entry (cache_tbl c) k))) /\
  (forall k', k' <> k -> cc_map (cache_modify c k f) !! k' = cc_map c !! k') /\
  st_tbl (cc_base (cache_modify c k f)) = st_tbl (cc_base c) /\
  st_readable (cc_base (cache_modify c k f)) = st_readable (cc_base c).
Proof.
  intros Hc. destruct (cache_open_spec c k Hc) as (Hk & Hne & Ht & Ho & Hr).
  unfold cache_modify. rewrite tbl_modify_insert, tbl_close_insert.
  assert (tbl_entry (cc_map (cache_open c k)) k = tbl_entry (cache_tbl c) k) as ->.
  { unfold tbl_entry. rewrite Hk, SetNull_null. by destruct (cache_tbl c !! k). }
  cbn [cc_map cc_base]. split; [|split; [exact Ho|split; [by rewrite lookup_insert_eq|split; [|done]]]].
  - apply map_eq. intros k'. rewrite cache_tbl_lookup; cbn [cc_map cc_base]. rewrite Ht.
    destruct (decide (k = k')) as [<-|Hkk]; [by rewrite !lookup_insert_eq|].
    rewrite !lookup_insert_ne by done. rewrite Hne by done. by rewrite cache_tbl_lookup.
  - intros k' Hkk. by rewrite lookup_insert_ne, Hne.
Qed.

Lemma cache_have_spec c k :
  cache_ok c ->
  (cache_have c k).2 = tbl_have (cache_tbl c) k /\ (cache_have c k).1 = (cache_get c k).1.
Proof.
  intros Hc. destruct (cache_get_spec c k Hc) as (Hg & _). unfold cache_have, tbl_have. rewrite <- Hg.
  by destruct (cache_get c k).
Qed.

Lemma cache_tbl_insert c k e : cache_tbl (mkCached (<[k := e]> (cc_map c)) (cc_base c)) = <[k := e]> (cache_tbl c).
Proof. unfold cache_tbl; cbn. symmetry. apply insert_union_l. Qed.

Lemma cache_all_spec c :
  cache_ok c -> cache_all c = if st_readable (cc_base c) then Some (tbl_all (cache_tbl c)) else None.
Proof.
  intros Hc. unfold cache_all. rewrite st_all_spec by done. destruct (st_readable (cc_base c)); [|done]; cbn.
  do 2 f_equal. unfold cache_tbl. f_equal. apply map_eq. intros k. rewrite tbl_all_get. unfold tbl_get.
  destruct (st_tbl (cc_base c) !! k) as [e|] eqn:E; cbn; [|done]. by rewrite (st_tbl_nonnull _ _ _ Hc E).
Qed.

#[export] Instance cache_store_laws : StoreLaws (Cached S K A) K A.
Proof.
  refine {| st_ok := cache_ok; st_tbl := fun c => tbl_all (cache_tbl c);
            st_readable := fun c => st_readable (cc_base c) |}.
  - intros c k e _. rewrite tbl_all_get. intros [_ He]%tbl_get_Some. exact He.
  - intros c k Hc. rewrite tbl_all_get. by apply cache_get_spec.
  - intros c k Hc. by apply cache_get_spec.
  - intros c k Hc. f_equal. by apply cache_get_spec.
  - intros c k Hc. by apply cache_get_spec.
  - apply cache_all_spec.
  - done.
  - intros c m Hc. cbn [st_batch cache_store]. unfold cache_batch. rewrite batch_union. unfold cache_tbl at 1.
    cbn [cc_map cc_base]. rewrite <- (assoc_L (∪)). symmetry. apply tbl_all_union_r.
  - done.
Defined.
End cache_laws.

(** ** Sequences of operations *)

Inductive TblOp (K A : Type) :=
  | OpGet (k : K)
  | OpAll
  | OpModify (k : K) (f : A -> A)
  | OpAdd (k : K) (e : A)
  | OpRemove (k : K).
Arguments OpGet {K A}.
Arguments OpAll {K A}.
Arguments OpModify {K A}.
Arguments OpAdd {K A}.
Arguments OpRemove {K A}.

(** What the caller sees. *)
Inductive Obs (K A : Type) `{Countable K} :=
  | ObsEntry (o : option A)
  | ObsAll (o : option (gmap K A))
  | ObsBool (b : bool)
  | ObsDone.
Arguments ObsEntry {K A _ _}.
Arguments ObsAll {K A _ _}.
Arguments ObsBool {K A _ _}.
Arguments ObsDone {K A _ _}.

Section runs.
Context {S K A : Type} `{Countable K, !DaoEntry A, !DaoEntryLaws A, !DirtyEntryLaws A}.
Context `{!Store S K A, !StoreLaws S K A}.

(** On the cache. *)
Definition cache_op (op : TblOp K A) (c : Cached S K A) : option (Cached S K A * Obs K A) :=
  match op with
  | OpGet k => let '(c, o) := cache_get c k in Some (c, ObsEntry o)
  | OpAll => Some (c, ObsAll (cache_all c))
  | OpModify k f => Some (cache_modify c k f, ObsDone)
  | OpAdd k e => do '(c, b) <- cache_add c k e; Some (c, ObsBool b)
  | OpRemove k => let '(c, b) := cache_remove c k in Some (c, ObsBool b)
  end.

(** On a table of [StateView]; [readable] is whether [GetAll...] succeeds. *)
Definition tbl_op (readable : bool) (op : TblOp K A) (t : gmap K A) : option (gmap K A * Obs K A) :=
  match op with
  | OpGet k => Some (t, ObsEntry (tbl_get t k))
  | OpAll => Some (t, ObsAll (if readable then Some (tbl_all t) else None))
  | OpModify k f => Some (tbl_modify t k f, ObsDone)
  | OpAdd k e => do '(t, b) <- tbl_add t k e; Some (t, ObsBool b)
  | OpRemove k => let '(t, b) := tbl_remove t k in Some (t, ObsBool b)
  end.

(** A sequence, with the list of what was seen. *)
Fixpoint run_ops {X} (step : TblOp K A -> X -> option (X * Obs K A)) (ops : list (TblOp K A)) (x : X) :
    option (X * list (Obs K A)) :=
  match ops with
  | [] => Some (x, [])
  | op :: ops => do '(x, o) <- step op x; do '(x, os) <- run_ops step ops x; Some (x, o :: os)
  end.

(** The cache [c] stands for the table [t]. *)
Definition shows (readable : bool) (c : Cached S K A) (t : gmap K A) : Prop :=
  cache_ok c /\ cache_tbl c = t /\ st_readable (cc_base c) = readable.

Lemma cache_op_spec readable op c t :
  shows readable c t ->
  match cache_op op c, tbl_op readable op t with
  | Some (c', o), Some (t', o') => shows readable c' t' /\ o = o'
  | None, None => True
  | _, _ => False
  end.
Proof.
  intros (Hc & <- & Hr). destruct op as [k| |k f|k e|k]; cbn [cache_op tbl_op].
  - destruct (cache_get_spec c k Hc) as (Hg & Ht & Ho & Hr'). destruct (cache_get c k) as [c' o]. cbn in *. subst o.
    split; [|done]. repeat split; congruence.
  - rewrite cache_all_spec, Hr by done. done.
  - destruct (cache_modify_spec c k f Hc) as (Ht & Ho & _ & _ & _ & Hr'). split; [|done]. repeat split; congruence.
  - destruct (cache_get_spec c k Hc) as (_ & Ht & Ho & Hr'). destruct (cache_have_spec c k Hc) as [Hb E].
    unfold cache_add, tbl_add. destruct (cache_have c k) as [c' b]. cbn in Hb, E. subst b c'.
    destruct (tbl_have (cache_tbl c) k); cbn; [split; [|done]; repeat split; congruence|].
    destruct (entry_fDirty e); cbn; [|done]. split; [|done].
    split; [exact Ho|]. split; [by rewrite cache_tbl_insert, Ht|]. cbn. congruence.
  - destruct (cache_get_spec c k Hc) as (_ & Ht & Ho & Hr'). destruct (cache_have_spec c k Hc) as [Hb E].
    unfold cache_remove, tbl_remove. destruct (cache_have c k) as [c' b]. cbn in Hb, E. subst b c'.
    destruct (tbl_have (cache_tbl c) k); cbn; (split; [|done]); [|repeat split; congruence].
    split; [exact Ho|]. split; [by rewrite cache_tbl_insert, Ht|]. cbn. congruence.
Qed.

Lemma run_ops_spec readable ops c t :
  shows readable c t ->
  match run_ops cache_op ops c, run_ops (tbl_op readable) ops t with
  | Some (c', os), Some (t', os') => shows readable c' t' /\ os = os'
  | None, None => True
  | _, _ => False
  end.
Proof.
  revert c t; induction ops as [|op ops IH]; intros c t Hs; cbn [run_ops]; [done|].
  pose proof (cache_op_spec readable op c t Hs) as Hop.
  destruct (cache_op op c) as [[c1 o1]|], (tbl_op readable op t) as [[t1 o1']|]; try done; cbn.
  destruct Hop as [Hs1 <-]. specialize (IH c1 t1 Hs1).
  destruct (run_ops cache_op ops c1) as [[c2 os]|], (run_ops (tbl_op readable) ops t1) as [[t2 os']|]; try done; cbn.
  destruct IH as [? <-]. done.
Qed.

(** ** Flush *)

(** Every entry is dirty: the constructors set the flag and nothing clears
    it. *)
Definition all_dirty (t : gmap K A) : Prop := forall k e, t !! k = Some e -> entry_fDirty e = true.

Definition keeps_dirty (op : TblOp K A) : Prop :=
  match op with OpModify _ f => forall e, entry_fDirty e = true -> entry_fDirty (f e) = true | _ => True end.

Lemma all_dirty_insert t k e : all_dirty t -> entry_fDirty e = true -> all_dirty (<[k := e]> t).
Proof. intros Ht He k' x [[<- <-]|[_ Hx]]%lookup_insert_Some; [done|]. by apply (Ht k'). Qed.

Lemma tbl_op_dirty readable op t t' o :
  all_dirty t -> keeps_dirty op -> tbl_op readable op t = Some (t', o) -> all_dirty t'.
Proof.
  intros Ht Hop Hs. destruct op as [k| |k f|k e|k]; cbn [tbl_op] in Hs.
  - by injection Hs as <- <-.
  - by injection Hs as <- <-.
  - injection Hs as <- <-. rewrite tbl_modify_insert. apply all_dirty_insert; [done|].
    assert (entry_fDirty (tbl_entry t k) = true) as Hd.
    { unfold tbl_entry. destruct (t !! k) as [e|] eqn:E; [by apply (Ht k)|apply fDirty_null]. }
    unfold closed. destruct (entry_eqb _ _); [|apply fDirty_set].
    destruct (entry_IsNull _); [apply fDirty_SetNull|by apply Hop].
  - apply bind_Some in Hs as ([t1 b] & Hs & [= <- <-]). unfold tbl_add in Hs.
    destruct (tbl_have t k); [by injection Hs as <- <-|]. destruct (entry_fDirty e) eqn:E; [|done].
    injection Hs as <- <-. by apply all_dirty_insert.
  - unfold tbl_remove in Hs. destruct (tbl_have t k); injection Hs as <- <-; [|done].
    apply all_dirty_insert; [done|apply fDirty_SetNull].
Qed.

Lemma run_ops_dirty readable ops t t' os :
  all_dirty t -> Forall keeps_dirty ops -> run_ops (tbl_op readable) ops t = Some (t', os) -> all_dirty t'.
Proof.
  intros Ht Hops. revert t os Ht; induction Hops as [|op ops Hop _ IH]; intros t os Ht Hs; cbn [run_ops] in Hs.
  { by injection Hs as <- _. }
  apply bind_Some in Hs as ([t1 o] & H1 & Hs). apply bind_Some in Hs as ([t2 os2] & H2 & [= <- _]).
  eapply IH; [|exact H2]. by eapply tbl_op_dirty.
Qed.

Lemma cache_flush_spec (c : Cached S K A) :
  cache_ok c -> all_dirty (cache_tbl c) ->
  st_tbl (cc_base (cache_flush c)) = tbl_all (cache_tbl c) /\ cache_ok (cache_flush c).
Proof.
  intros Hc Hd. split; [|by apply st_batch_ok]. cbn [cache_flush cc_base]. rewrite st_batch_tbl by done.
  f_equal. unfold cache_tbl. apply map_eq. intros k. rewrite !lookup_union, dirty_part_lookup.
  destruct (cc_map c !! k) as [e|] eqn:E; [|done]. rewrite (Hd k e); [done|]. by rewrite cache_tbl_lookup, E.
Qed.

(** C28: A stack of caches is transparent: a sequence of operations on a cache
    over any lawful store, started with an empty cache, shows the caller the
    same results as on the table of the store, and after [Flush] the store
    holds exactly the table those operations produce. *)
Theorem cache_refines_view (s : S) ops t' os :
  st_ok s -> all_dirty (st_tbl s) -> Forall keeps_dirty ops ->
  run_ops (tbl_op (st_readable s)) ops (st_tbl s) = Some (t', os) ->
  exists c', run_ops cache_op ops (mkCached ∅ s) = Some (c', os) /\
    st_tbl (cc_base (cache_flush c')) = tbl_all t' /\ st_ok (cc_base (cache_flush c')).
Proof.
  intros Hs Hd Hops Hrun.
  assert (shows (st_readable s) (mkCached ∅ s) (st_tbl s)) as Hsh.
  { split; [done|]. split; [|done]. unfold cache_tbl; cbn. apply (left_id_L ∅ (∪)). }
  pose proof (run_ops_spec (st_readable s) ops _ _ Hsh) as H1. rewrite Hrun in H1.
  destruct (run_ops cache_op ops (mkCached ∅ s)) as [[c' os']|]; [|done].
  destruct H1 as [(Hok & Ht & _) ->]. exists c'. split; [done|].
  destruct (cache_flush_spec c' Hok) as [Hf Hk]; [rewrite Ht; by eapply run_ops_dirty|].
  rewrite Hf, Ht. done.
Qed.
End runs.

(** ** The count of excluded votes

    Every cache keeps [nCacheExcludeVotes], with -1 for a value it has not
    read.  A stack is the list of these members from the top cache down, over
    the value in the database. *)

Fixpoint GetExcludeVotes_stack (stack : list Z) (db : Z) : list Z * Z :=
  match stack with
  | [] => ([], db)
  | n :: below =>
    if n =? -1 then let '(below, v) := GetExcludeVotes_stack below db in (v :: below, v) else (stack, n)
  end.

Definition SetExcludeVotes_stack (stack : list Z) (count : Z) : list Z :=
  match stack with [] => [] | _ :: below => count :: below end.

(** [Flush] of the top cache: [BatchWrite] of the cache below copies the
    member, that of the database skips -1. *)
Definition Flush_exclude (stack : list Z) (db : Z) : list Z * Z :=
  match stack with
  | [] => ([], db)
  | [n] => ([-1], if n =? -1 then db else n)
  | n :: _ :: below => (-1 :: n :: below, db)
  end.

(** Flushing a cache that never read the count makes the cache below forget
    its own: whatever was set there, the value of the database comes back. *)
Lemma flush_forgets_exclude count db :
  let '(flushed, db') := Flush_exclude (-1 :: SetExcludeVotes_stack [-1] count) db in
  (GetExcludeVotes_stack flushed db').2 = db.
Proof. reflexivity. Qed.

(** ** Two caches over the database *)

Definition stored_proposal : CProposal :=
  mkCProposal 10 0 EmptyString EmptyString 100 ∅ 0 0 0 0 EmptyString 501 101 2 0 true.

Abbreviation DemoStore := (Cached (DbTable Z CProposal) Z CProposal).

Definition demo_store : DemoStore := mkCached ∅ (mkDbTable {[501 := stored_proposal; 502 := stored_proposal]} true).

Definition demo_ops : list (TblOp Z CProposal) :=
  [OpGet 501; OpModify 501 (fun p => set_p_nVotesYes p 3); OpRemove 502; OpGet 502; OpAdd 503 stored_proposal; OpAll].

Lemma all_dirty_check {K A} `{Countable K, !DaoEntry A} (t : gmap K A) :
  forallb (fun ke => entry_fDirty ke.2) (map_to_list t) = true -> all_dirty t.
Proof.
  intros Hf k e Hk. rewrite forallb_forall in Hf. apply (Hf (k, e)), list_elem_of_In. by apply elem_of_map_to_list.
Qed.

Lemma demo_store_ok : st_ok demo_store.
Proof.
  intros k e Hk. cbn in Hk. rewrite lookup_insert_Some in Hk. destruct Hk as [[_ <-]|[_ Hk]]; [done|].
  by apply lookup_singleton_Some in Hk as [_ <-].
Qed.

Lemma cache_refines_view_witness : exists t' os c',
  run_ops (tbl_op true) demo_ops (st_tbl demo_store) = Some (t', os) /\
  run_ops cache_op demo_ops (mkCached ∅ demo_store) = Some (c', os) /\
  st_tbl (cc_base (cache_flush c')) = tbl_all t' /\ st_ok (cc_base (cache_flush c')).
Proof.
  destruct (run_ops (tbl_op true) demo_ops (st_tbl demo_store)) as [[t' os]|] eqn:E;
    [|vm_compute in E; discriminate].
  exists t', os. destruct (cache_refines_view demo_store demo_ops t' os) as (c' & H1 & H2 & H3).
  - exact demo_store_ok.
  - apply all_dirty_check. vm_compute. reflexivity.
  - repeat (apply Forall_cons_2; [cbn; auto|]). apply Forall_nil_2.
  - exact E.
  - exists c'. split; [reflexivity|]. split; [exact H1|]. split; [exact H2|exact H3].
Defined.
