(* ===== verification/DaoRules.v ===== *)
(** * The rules of the DAO ([consensus/dao.cpp])

    The tests on proposals, payment requests, consultations and answers that
    decide what can be voted, what is accepted, rejected or expired.  They
    read the entry, the view, the block index [h] and the parameters; votes
    are compared in floating point as in the code.  A rule that divides by
    the cycle length returns [None] when it is zero.

    Amounts ([CAmount], [int64_t]) are kept as exact integers: their overflow
    is undefined in C++ and the amounts are bounded by [MAX_MONEY]. *)
From S2P Require Import Prelude Float CxxString Chain VersionBits Params DaoTypes StateView.
From Stdlib Require SpecFloat.

Section rules.
Context {params : Params} (h : BlockMap).

Implicit Types (v : View) (p : CProposal) (pr : CPaymentRequest)
  (c : CConsultation) (a : CConsultationAnswer).

(** ** Cycles *)

Definition div_u64 (x len : Z) : option Z := if len =? 0 then None else Some (u64 x / len).
Definition mod_u64 (x len : Z) : option Z := if len =? 0 then None else Some (u64 x mod len).

Definition cycle_length v : Z := GetConsensusParameter CONSENSUS_PARAM_VOTING_CYCLE_LENGTH v.

Definition IsBeginningCycle (b : CBlockIndex) v : option bool :=
  do r <- mod_u64 (nHeight b) (cycle_length v); Some (r =? 0).

Definition IsEndCycle (b : CBlockIndex) v : option bool :=
  do r <- mod_u64 (nHeight b + 1) (cycle_length v); Some (r =? 0).

(** ** Quorums

    [(cycle length - exclude) * quorum] with an unsigned subtraction and a
    product in [float], and [total * fraction] with a product in [double]. *)

Definition quorum_votes v (exclude : Z) (quorum : SpecFloat.spec_float) : SpecFloat.spec_float :=
  f32_scale (u64 (cycle_length v - exclude)) quorum.

Definition reaches_fraction (votes total : Z) (fraction : SpecFloat.spec_float) : bool :=
  float_gt (f64_of_f32 (f32_of_Z votes)) (f64_mul (f64_of_f32 (f32_of_Z total)) fraction).

(** ** Answers of a consultation *)

Definition CConsultationAnswer_IsSupported a v : bool :=
  let nMinimumSupport := f32_per_10000 (GetConsensusParameter CONSENSUS_PARAM_CONSULTATION_ANSWER_MIN_SUPPORT v) in
  float_ge (f32_of_Z (a_nSupport a)) (f32_scale (cycle_length v) nMinimumSupport).

Definition CConsultationAnswer_IsConsensusAccepted a v : bool :=
  let nMinimumQuorum := f32_per_10000 nConsensusChangeMinAccept in
  let exclude := if flag_set (a_nVersion a) CConsultationAnswer_EXCLUDE_VERSION then GetExcludeVotes v else 0 in
  float_ge (f32_of_Z (a_nVotes a)) (quorum_votes v exclude nMinimumQuorum).

Definition CConsultationAnswer_CanBeSupported a v : bool :=
  let fState := CConsultationAnswer_GetLastState h a in
  match GetConsultation v (a_parent a) with
  | None => false
  | Some consultation =>
    let fConsultationState := CConsultation_GetLastState h consultation in
    if negb (fConsultationState =? NIL) && negb (fConsultationState =? SUPPORTED) then false
    else fState =? NIL
  end.

Definition CConsultationAnswer_CanBeVoted a v : bool :=
  let fState := CConsultationAnswer_GetLastState h a in
  match GetConsultation v (a_parent a) with
  | None => false
  | Some consultation =>
    if CConsultation_IsRange consultation then false
    else
      let fConsultationState := CConsultation_GetLastState h consultation in
      (fState =? ACCEPTED) && (fConsultationState =? ACCEPTED) &&
      negb (flag_set (c_nVersion consultation) CConsultation_ANSWER_IS_A_RANGE_VERSION)
  end.

(** ** Consultations *)

Definition CConsultation_HaveEnoughAnswers c v : bool :=
  if flag_set (c_nVersion c) CConsultation_ANSWER_IS_A_RANGE_VERSION then true
  else
    let nSupportedAnswersCount := foldl (fun n it =>
      match GetConsultationAnswer v it with
      | None => n
      | Some answer =>
        if negb (a_parent answer =? c_hash c) then n
        else if negb (CConsultationAnswer_IsSupported answer v) then n
        else i32 (n + 1)
      end) 0 (c_vAnswers c) in
    (if CConsultation_IsAboutConsensusParameter c then 1 else 2) <=? nSupportedAnswersCount.

Definition CConsultation_IsFinished c : bool :=
  let fState := CConsultation_GetLastState h c in
  (fState =? EXPIRED) || (fState =? PASSED).

Definition CConsultation_IsSupported c v : bool :=
  if CConsultation_IsRange c then
    let nMinimumSupport := f32_per_10000 (GetConsensusParameter CONSENSUS_PARAM_CONSULTATION_MIN_SUPPORT v) in
    float_gt (f32_of_Z (c_nSupport c)) (f32_scale (cycle_length v) nMinimumSupport)
  else CConsultation_HaveEnoughAnswers c v.

Definition CConsultation_CanMoveInReflection c v : bool :=
  GetConsensusParameter CONSENSUS_PARAM_CONSULTATION_MIN_CYCLES v <=? c_nVotingCycle c.

Definition CConsultation_ExceededMaxVotingCycles c v : bool :=
  GetConsensusParameter CONSENSUS_PARAM_CONSULTATION_MAX_SUPPORT_CYCLES v <=? c_nVotingCycle c.

Definition CConsultation_IsExpired c (pindex : CBlockIndex) v : option bool :=
  let fState := CConsultation_GetLastState h c in
  match CConsultation_GetLastStateBlockIndexForState h c ACCEPTED with
  | Some pblockindex =>
    if fState =? ACCEPTED then
      do b <- h !! pblockindex;
      do nAcceptedOnCycle <- div_u64 (nHeight b) (cycle_length v);
      do nCurrentCycle <- div_u64 (nHeight pindex) (cycle_length v);
      let nElapsedCycles := Z.max (u64 (nCurrentCycle - nAcceptedOnCycle)) 0 in
      Some (GetConsensusParameter CONSENSUS_PARAM_CONSULTATION_MAX_VOTING_CYCLES v <=? nElapsedCycles)
    else Some ((fState =? EXPIRED) || (CConsultation_ExceededMaxVotingCycles c v && (fState =? NIL)))
  | None => Some ((fState =? EXPIRED) || (CConsultation_ExceededMaxVotingCycles c v && (fState =? NIL)))
  end.

Definition CConsultation_IsReflectionOver c (pindex : CBlockIndex) v : option bool :=
  let nVotingLength := cycle_length v in
  match CConsultation_GetLastStateBlockIndexForState h c REFLECTION with
  | None => Some false
  | Some pblockindex =>
    do b <- h !! pblockindex;
    do nCreated <- div_u64 (nHeight b) nVotingLength;
    do nCurrent <- div_u64 (nHeight pindex) nVotingLength;
    let nElapsedCycles := u32 (u32 nCurrent - u32 nCreated) in
    Some (GetConsensusParameter CONSENSUS_PARAM_CONSULTATION_REFLECTION_LENGTH v <=? nElapsedCycles)
  end.

Definition CConsultation_CanBeSupported c : bool :=
  (CConsultation_GetLastState h c =? NIL) && CConsultation_IsRange c.

Definition CConsultation_CanBeVoted c (vote : Z) : bool :=
  (CConsultation_GetLastState h c =? ACCEPTED) && (CConsultation_IsRange c || (vote =? VOTE_ABSTAIN)).

Definition CConsultation_CanHaveAnswers c : bool :=
  let fState := CConsultation_GetLastState h c in
  ((fState =? NIL) || (fState =? SUPPORTED)) && negb (CConsultation_IsRange c).

Definition CConsultation_CanHaveNewAnswers c : bool :=
  CConsultation_CanHaveAnswers c && flag_set (c_nVersion c) CConsultation_MORE_ANSWERS_VERSION.

(** The bounds are unsigned, so the vote is compared as an unsigned number. *)
Definition CConsultation_IsValidVote c (vote : Z) : bool :=
  (vote =? VOTE_ABSTAIN) ||
  (CConsultation_IsRange c && (c_nMin c <=? u64 vote) && (u64 vote <=? c_nMax c)).

(** ** Payment requests *)

Definition CPaymentRequest_ExceededMaxVotingCycles pr v : bool :=
  GetConsensusParameter CONSENSUS_PARAM_PAYMENT_REQUEST_MAX_VOTING_CYCLES v <? pr_nVotingCycle pr.

(** The quorum shared by [IsAccepted] and [IsRejected]. *)
Definition CPaymentRequest_quorum pr v : SpecFloat.spec_float :=
  if flag_set (pr_nVersion pr) CPaymentRequest_REDUCED_QUORUM_VERSION then
    if GetConsensusParameter CONSENSUS_PARAM_PAYMENT_REQUEST_MAX_VOTING_CYCLES v / 2 <? pr_nVotingCycle pr
    then nMinimumQuorumSecondHalf else nMinimumQuorumFirstHalf
  else f32_per_10000 (if CPaymentRequest_IsSuper pr then 7500
                      else GetConsensusParameter CONSENSUS_PARAM_PAYMENT_REQUEST_MIN_QUORUM v).

Definition CPaymentRequest_total pr : Z :=
  let nTotalVotes := i32 (pr_nVotesYes pr + pr_nVotesNo pr) in
  if flag_set (pr_nVersion pr) CPaymentRequest_ABSTAIN_VOTE_VERSION
  then i32 (nTotalVotes + pr_nVotesAbs pr) else nTotalVotes.

Definition CPaymentRequest_exclude pr v : Z :=
  if flag_set (pr_nVersion pr) CPaymentRequest_EXCLUDE_VERSION then GetExcludeVotes v else 0.

Definition CPaymentRequest_IsAccepted pr v : bool :=
  let nMinAcceptance := per_10000 (if CPaymentRequest_IsSuper pr then 9000
    else GetConsensusParameter CONSENSUS_PARAM_PAYMENT_REQUEST_MIN_ACCEPT v) in
  float_gt (f32_of_Z (CPaymentRequest_total pr))
    (quorum_votes v (CPaymentRequest_exclude pr v) (CPaymentRequest_quorum pr v)) &&
  reaches_fraction (pr_nVotesYes pr) (CPaymentRequest_total pr) nMinAcceptance.

Definition CPaymentRequest_IsRejected pr v : bool :=
  let nMinRejection := per_10000 (if CPaymentRequest_IsSuper pr then 9000
    else GetConsensusParameter CONSENSUS_PARAM_PAYMENT_REQUEST_MIN_REJECT v) in
  float_gt (f32_of_Z (CPaymentRequest_total pr))
    (quorum_votes v (CPaymentRequest_exclude pr v) (CPaymentRequest_quorum pr v)) &&
  reaches_fraction (pr_nVotesNo pr) (CPaymentRequest_total pr) nMinRejection.

Definition CPaymentRequest_IsExpired pr v : bool :=
  if CPaymentRequest_BASE_VERSION <=? u64 (pr_nVersion pr) then
    let fLastState := CPaymentRequest_GetLastState h pr in
    CPaymentRequest_ExceededMaxVotingCycles pr v && negb (fLastState =? ACCEPTED) &&
    negb (fLastState =? REJECTED) && negb (fLastState =? PAID)
  else false.

(** ** Proposals *)

Definition CProposal_ExceededMaxVotingCycles p v : bool :=
  GetConsensusParameter CONSENSUS_PARAM_PROPOSAL_MAX_VOTING_CYCLES v <? p_nVotingCycle p.

Definition CProposal_quorum p v : SpecFloat.spec_float :=
  if flag_set (p_nVersion p) CProposal_REDUCED_QUORUM_VERSION then
    if GetConsensusParameter CONSENSUS_PARAM_PROPOSAL_MAX_VOTING_CYCLES v / 2 <? p_nVotingCycle p
    then nMinimumQuorumSecondHalf else nMinimumQuorumFirstHalf
  else f32_per_10000 (if CProposal_IsSuper p then 7500
                      else GetConsensusParameter CONSENSUS_PARAM_PROPOSAL_MIN_QUORUM v).

Definition CProposal_total p : Z :=
  let nTotalVotes := i32 (p_nVotesYes p + p_nVotesNo p) in
  if flag_set (p_nVersion p) CProposal_ABSTAIN_VOTE_VERSION
  then i32 (nTotalVotes + p_nVotesAbs p) else nTotalVotes.

Definition CProposal_exclude p v : Z :=
  if flag_set (p_nVersion p) CProposal_EXCLUDE_VERSION then GetExcludeVotes v else 0.

Definition CProposal_IsAccepted p v : bool :=
  let minAcceptance := per_10000 (if CProposal_IsSuper p then 9000
    else GetConsensusParameter CONSENSUS_PARAM_PROPOSAL_MIN_ACCEPT v) in
  float_gt (f32_of_Z (CProposal_total p)) (quorum_votes v (CProposal_exclude p v) (CProposal_quorum p v)) &&
  reaches_fraction (p_nVotesYes p) (CProposal_total p) minAcceptance.

Definition CProposal_IsRejected p v : bool :=
  let minRejection := per_10000 (if CProposal_IsSuper p then 9000
    else GetConsensusParameter CONSENSUS_PARAM_PROPOSAL_MIN_REJECT v) in
  float_gt (f32_of_Z (CProposal_total p)) (quorum_votes v (CProposal_exclude p v) (CProposal_quorum p v)) &&
  reaches_fraction (p_nVotesNo p) (CProposal_total p) minRejection.

Definition CProposal_CanVote p : bool := CProposal_GetLastState h p =? NIL.

Definition CProposal_getTimeTillExpired p (currentTime : Z) : option Z :=
  if flag_set (p_nVersion p) CProposal_BASE_VERSION then
    match CProposal_GetLastStateBlockIndexForState h p ACCEPTED with
    | Some pblockindex => do b <- h !! pblockindex; Some (u64 (currentTime - (nTime b + p_nDeadline p)))
    | None => Some 0
    end
  else Some 0.

Definition CProposal_IsExpired p (currentTime : Z) v : option bool :=
  let currentTime := u32 currentTime in
  if flag_set (p_nVersion p) CProposal_BASE_VERSION then
    let fLastState := CProposal_GetLastState h p in
    let otherwise := (fLastState =? EXPIRED) || (fLastState =? PENDING_VOTING_PREQ) ||
      (CProposal_ExceededMaxVotingCycles p v && (fLastState =? NIL)) in
    match CProposal_GetLastStateBlockIndexForState h p ACCEPTED with
    | Some pblockindex =>
      if fLastState =? ACCEPTED then
        do b <- h !! pblockindex; Some (nTime b + p_nDeadline p <? currentTime)
      else Some otherwise
    | None => Some otherwise
    end
  else Some (p_nDeadline p <? currentTime).

(** What is left of a proposal after its payment requests; [fIncludeRequests]
    also counts the requests still being voted. *)
Definition CProposal_GetAvailable p v (fIncludeRequests : bool) : Z :=
  match GetAllPaymentRequests v with
  | None => p_nAmount p
  | Some mapPaymentRequests =>
    foldl (fun initial it =>
      match GetPaymentRequest v it.1 with
      | None => initial
      | Some prequest =>
        if negb (pr_proposalhash prequest =? p_hash p) then initial
        else
          let fLastState := CPaymentRequest_GetLastState h prequest in
          if (fIncludeRequests && negb (fLastState =? REJECTED) && negb (fLastState =? EXPIRED)) ||
             (negb fIncludeRequests && ((fLastState =? ACCEPTED) || (fLastState =? PAID)))
          then initial - pr_nAmount prequest else initial
      end) (p_nAmount p) (elems mapPaymentRequests)
  end.

Definition CPaymentRequest_CanVote pr v : bool :=
  match GetProposal v (pr_proposalhash pr) with
  | None => false
  | Some proposal =>
    let fLastState := CPaymentRequest_GetLastState h pr in
    let fProposalLastState := CProposal_GetLastState h proposal in
    let nProposalAvailable := CProposal_GetAvailable proposal v false in
    (pr_nAmount pr <=? nProposalAvailable) && (fLastState =? NIL) &&
    ((fProposalLastState =? ACCEPTED) || (fProposalLastState =? PENDING_VOTING_PREQ))
  end.

(** Whether a loop over the requests finds one that can still be voted. *)
Fixpoint pending_loop p v (l : list (uint256 * CPaymentRequest)) : bool :=
  match l with
  | [] => false
  | it :: l' =>
    match GetPaymentRequest v it.1 with
    | None => pending_loop p v l'
    | Some prequest =>
      if negb (pr_proposalhash prequest =? p_hash p) then pending_loop p v l'
      else if CPaymentRequest_CanVote prequest v then true
      else pending_loop p v l'
    end
  end.

Definition CProposal_HasPendingPaymentRequests p v : bool :=
  match GetAllPaymentRequests v with
  | None => false
  | Some mapPaymentRequests => pending_loop p v (elems mapPaymentRequests)
  end.

(** ** The masks of valid versions *)

Definition clear_bits (mask bits : Z) : Z := Z.ldiff mask bits.

(** Proposal, payment request, consultation and answer masks, in this order. *)
Definition GetVersionMask (pindex : option uint256) (cache : VersionBitsCache) :
    option (Z * Z * Z * Z * VersionBitsCache) :=
  do '(fReducedQuorum, cache) <- IsReducedCFundQuorumEnabled h pindex cache;
  do '(fAbstainVote, cache) <- IsDAOEnabled h pindex cache;
  do '(fExclude, cache) <- IsExcludeEnabled h pindex cache;
  do '(fSuper, cache) <- IsDaoSuperEnabled h pindex cache;
  let drop (f : bool) (mask bits : Z) := if f then mask else clear_bits mask bits in
  let nProposalMask := drop fSuper (drop fExclude (drop fAbstainVote (drop fReducedQuorum
    (u64 nProposalMaxVersion) CProposal_REDUCED_QUORUM_VERSION) CProposal_ABSTAIN_VOTE_VERSION)
    CProposal_EXCLUDE_VERSION) CProposal_SUPER_VERSION in
  let nPaymentRequestMask := drop fSuper (drop fExclude (drop fAbstainVote (drop fReducedQuorum
    (u64 nPaymentRequestMaxVersion) CPaymentRequest_REDUCED_QUORUM_VERSION)
    CPaymentRequest_ABSTAIN_VOTE_VERSION) CPaymentRequest_EXCLUDE_VERSION) CPaymentRequest_SUPER_VERSION in
  let nConsultationMask := drop fSuper (drop fExclude (u64 nConsultationMaxVersion)
    CConsultation_EXCLUDE_VERSION) CConsultation_SUPER_VERSION in
  let nConsultationAnswerMask := drop fSuper (drop fExclude (u64 nConsultationAnswerMaxVersion)
    CConsultationAnswer_EXCLUDE_VERSION) CConsultationAnswer_SUPER_VERSION in
  Some (nProposalMask, nPaymentRequestMask, nConsultationMask, nConsultationAnswerMask, cache).
End rules.
