(* ===== verification/VoteScript.v ===== *)
(** * Vote scripts ([script/script.h], [script/script.cpp],
    [consensus/dao.cpp])

    A vote travels in the script of an output of the coinstake or of a vote
    transaction.  [SetScriptFor...] write such a script, [Is...] recognise it
    and [Extract...Vote] read it back.  A script is the list of its bytes; an
    index is only read behind a test of the size, so the default of [byte_at]
    is never seen.  The last part is the script that identifies a voter. *)
From S2P Require Import Prelude Bytes Chain DaoTypes.

Abbreviation CScript := (list Z).

Definition OP_0 : Z := 0x00.
Definition OP_IF : Z := 0x63.
Definition OP_ELSE : Z := 0x67.
Definition OP_ENDIF : Z := 0x68.
Definition OP_DROP : Z := 0x75.
Definition OP_DUP : Z := 0x76.
Definition OP_EQUAL : Z := 0x87.
Definition OP_EQUALVERIFY : Z := 0x88.
Definition OP_HASH160 : Z := 0xa9.
Definition OP_CHECKSIG : Z := 0xac.
Definition OP_COINSTAKE : Z := 0xc6.
Definition OP_PUSHDATA1 : Z := 0x4c.
Definition OP_PUSHDATA2 : Z := 0x4d.
Definition OP_PUSHDATA4 : Z := 0x4e.
Definition OP_RETURN : Z := 0x6a.
Definition OP_CFUND : Z := 0xc1.
Definition OP_PROP : Z := 0xc2.
Definition OP_PREQ : Z := 0xc3.
Definition OP_YES : Z := 0xc4.
Definition OP_NO : Z := 0xc5.
Definition OP_ABSTAIN : Z := 0xc7.
Definition OP_REMOVE : Z := 0xc8.
Definition OP_DAO : Z := 0xc9.
Definition OP_ANSWER : Z := 0xca.
Definition OP_CONSULTATION : Z := 0xcb.

(** ** Script numbers *)

(** [while(absvalue)]: eight rounds are enough for 64 bits. *)
Fixpoint abs_bytes (fuel : nat) (absvalue : Z) : list Z :=
  match fuel with
  | O => []
  | S fuel => if absvalue =? 0 then [] else Z.land absvalue 0xff :: abs_bytes fuel (Z.shiftr absvalue 8)
  end.

Definition set_back (l : list Z) (f : Z -> Z) : list Z := alter f (pred (length l)) l.

Definition CScriptNum_serialize (value : Z) : list Z :=
  if value =? 0 then []
  else
    let neg := value <? 0 in
    let result := abs_bytes 8 (u64 (Z.abs value)) in
    if negb (Z.land (default 0 (last result)) 0x80 =? 0) then result ++ [if neg then 0x80 else 0]
    else if neg then set_back result (fun b => Z.lor b 0x80) else result.

Fixpoint or_bytes (i : Z) (result : Z) (vch : list Z) : Z :=
  match vch with
  | [] => result
  | b :: vch => or_bytes (i + 1) (Z.lor result (Z.shiftl b (8 * i))) vch
  end.

Definition CScriptNum_set_vch (vch : list Z) : Z :=
  match vch with
  | [] => 0
  | _ =>
    let result := or_bytes 0 0 vch in
    if negb (Z.land (default 0 (last vch)) 0x80 =? 0)
    then - Z.ldiff result (Z.shiftl 0x80 (8 * (Z.of_nat (length vch) - 1)))
    else result
  end.

Definition nDefaultMaxNumSize : nat := 4.

(** The constructor from bytes; [None] is the thrown [scriptnum_error]. *)
Definition CScriptNum_of_vch (vch : list Z) (fRequireMinimal : bool) (nMaxNumSize : nat) : option Z :=
  if (nMaxNumSize <? length vch)%nat then None
  else if fRequireMinimal && negb (length vch =? 0)%nat &&
          (Z.land (default 0 (last vch)) 0x7f =? 0) &&
          ((length vch <=? 1)%nat || (Z.land (default 0 (vch !! (length vch - 2)%nat)) 0x80 =? 0))
  then None
  else Some (CScriptNum_set_vch vch).

Definition CScriptNum_getint (m_value : Z) : Z :=
  if 2 ^ 31 - 1 <? m_value then 2 ^ 31 - 1 else if m_value <? - 2 ^ 31 then - 2 ^ 31 else m_value.

(** ** Pushing data *)

Definition push_data (script : CScript) (b : list Z) : CScript :=
  let n := Z.of_nat (length b) in
  script ++
  (if n <? OP_PUSHDATA1 then [n]
   else if n <=? 0xff then [OP_PUSHDATA1; n]
   else if n <=? 0xffff then OP_PUSHDATA2 :: le_bytes 2 n
   else OP_PUSHDATA4 :: le_bytes 4 n) ++ b.

(** ** Recognising *)

Definition byte_at (script : CScript) (i : nat) : Z := default 0 (script !! i).

(** [size() == n] and the first bytes are [prefix]. *)
Definition has_prefix (script : CScript) (prefix : list Z) : bool :=
  forallb (fun ib => byte_at script ib.1 =? ib.2) (zip (seq 0 (length prefix)) prefix).

Definition sized (n : nat) (script : CScript) (prefix : list Z) : bool :=
  (length script =? n)%nat && has_prefix script prefix.

Definition IsCommunityFundContribution s := sized 2 s [OP_RETURN; OP_CFUND].

Definition IsConsultationVoteAnswer s :=
  (36 <=? length s)%nat && has_prefix s [OP_RETURN; OP_CONSULTATION; OP_ANSWER; 0x20].
Definition IsConsultationVoteAbstention s := sized 36 s [OP_RETURN; OP_CONSULTATION; OP_ABSTAIN; 0x20].
Definition IsConsultationVoteRemove s := sized 36 s [OP_RETURN; OP_CONSULTATION; OP_REMOVE; 0x20].
Definition IsConsultationVote s :=
  IsConsultationVoteAnswer s || IsConsultationVoteAbstention s || IsConsultationVoteRemove s.

Definition IsSupportVoteYes s := sized 36 s [OP_RETURN; OP_DAO; OP_YES; 0x20].
Definition IsSupportVoteRemove s := sized 36 s [OP_RETURN; OP_DAO; OP_REMOVE; 0x20].
Definition IsSupportVote s := IsSupportVoteYes s || IsSupportVoteRemove s.

Definition IsProposalVoteYes s := sized 37 s [OP_RETURN; OP_CFUND; OP_PROP; OP_YES; 0x20].
Definition IsProposalVoteNo s := sized 37 s [OP_RETURN; OP_CFUND; OP_PROP; OP_NO; 0x20].
Definition IsProposalVoteAbs s := sized 37 s [OP_RETURN; OP_CFUND; OP_PROP; OP_ABSTAIN; 0x20].
Definition IsProposalVoteRemove s := sized 37 s [OP_RETURN; OP_CFUND; OP_PROP; OP_REMOVE; 0x20].
Definition IsProposalVote s :=
  IsProposalVoteYes s || IsProposalVoteNo s || IsProposalVoteAbs s || IsProposalVoteRemove s.

Definition IsPaymentRequestVoteYes s := sized 37 s [OP_RETURN; OP_CFUND; OP_PREQ; OP_YES; 0x20].
Definition IsPaymentRequestVoteNo s := sized 37 s [OP_RETURN; OP_CFUND; OP_PREQ; OP_NO; 0x20].
Definition IsPaymentRequestVoteAbs s := sized 37 s [OP_RETURN; OP_CFUND; OP_PREQ; OP_ABSTAIN; 0x20].
Definition IsPaymentRequestVoteRemove s := sized 37 s [OP_RETURN; OP_CFUND; OP_PREQ; OP_REMOVE; 0x20].
Definition IsPaymentRequestVote s :=
  IsPaymentRequestVoteYes s || IsPaymentRequestVoteNo s || IsPaymentRequestVoteAbs s ||
  IsPaymentRequestVoteRemove s.

(** ** Reading *)

Definition sub (s : CScript) (first end_ : nat) : list Z := take (end_ - first) (drop first s).

Definition ExtractVote (s : CScript) : option (uint256 * Z) :=
  if negb (IsPaymentRequestVote s) && negb (IsProposalVote s) then None
  else
    let hash := uint256_of_bytes (sub s 5 37) in
    let vote := if byte_at s 3 =? OP_YES then VOTE_YES else VOTE_NO in
    let vote := if byte_at s 3 =? OP_ABSTAIN then VOTE_ABSTAIN else vote in
    let vote := if byte_at s 3 =? OP_REMOVE then VOTE_REMOVE else vote in
    Some (hash, vote).

Definition ExtractSupportVote (s : CScript) : option (uint256 * Z) :=
  if negb (IsSupportVote s) then None
  else
    let hash := uint256_of_bytes (sub s 4 36) in
    let vote := if byte_at s 2 =? OP_REMOVE then SUPPORT_REMOVE else 0 in
    let vote := if byte_at s 2 =? OP_YES then SUPPORT else vote in
    Some (hash, vote).

(** The outer [None] is an exception of [CScriptNum]. *)
Definition ExtractConsultationVote (s : CScript) : option (option (uint256 * Z)) :=
  if negb (IsConsultationVote s) then Some None
  else
    let hash := uint256_of_bytes (sub s 4 36) in
    do vote <-
      (if byte_at s 2 =? OP_REMOVE then Some VOTE_REMOVE
       else if byte_at s 2 =? OP_ABSTAIN then Some VOTE_ABSTAIN
       else if (36 <? length s)%nat then
         if (length s =? 37)%nat && (byte_at s 36 =? 0) then Some 0
         else do nVote <- CScriptNum_of_vch (drop 37 s) false nDefaultMaxNumSize;
              Some (CScriptNum_getint nVote)
       else Some 1);
    Some (Some (hash, vote)).

(** ** Writing *)

Definition SetScriptForCommunityFundContribution : CScript := [OP_RETURN; OP_CFUND].

Definition vote_op (vote : Z) : Z :=
  if vote =? VOTE_REMOVE then OP_REMOVE
  else if vote =? VOTE_ABSTAIN then OP_ABSTAIN else if vote =? VOTE_YES then OP_YES else OP_NO.

Definition SetScriptForProposalVote (hash : uint256) (vote : Z) : CScript :=
  [OP_RETURN; OP_CFUND; OP_PROP; vote_op vote; 0x20] ++ uint256_bytes hash.
Definition SetScriptForPaymentRequestVote (hash : uint256) (vote : Z) : CScript :=
  [OP_RETURN; OP_CFUND; OP_PREQ; vote_op vote; 0x20] ++ uint256_bytes hash.
Definition SetScriptForConsultationSupport (hash : uint256) : CScript :=
  [OP_RETURN; OP_DAO; OP_YES; 0x20] ++ uint256_bytes hash.
Definition SetScriptForConsultationSupportRemove (hash : uint256) : CScript :=
  [OP_RETURN; OP_DAO; OP_REMOVE; 0x20] ++ uint256_bytes hash.
Definition SetScriptForConsultationVote (hash : uint256) (vote : Z) : CScript :=
  let script := [OP_RETURN; OP_CONSULTATION; if vote =? VOTE_ABSTAIN then OP_ABSTAIN else OP_ANSWER; 0x20]
    ++ uint256_bytes hash in
  if -1 <? vote then push_data script (CScriptNum_serialize vote) else script.
Definition SetScriptForConsultationVoteRemove (hash : uint256) : CScript :=
  [OP_RETURN; OP_CONSULTATION; OP_REMOVE; 0x20] ++ uint256_bytes hash.

(** ** Reading bytes *)

Lemma or_bytes_value l i result :
  Forall byte l -> 0 <= i -> 0 <= result < 2 ^ (8 * i) ->
  or_bytes i result l = result + le_value l * 2 ^ (8 * i).
Proof.
  intros Hl. revert i result; induction Hl as [|b l Hb Hl IH]; intros i result Hi Hr; cbn [or_bytes le_value]; [lia|].
  rewrite lor_shift by lia. assert (2 ^ (8 * (i + 1)) = 256 * 2 ^ (8 * i)) as E.
  { replace (8 * (i + 1)) with (8 + 8 * i) by lia. rewrite Z.pow_add_r by lia. done. }
  unfold byte in Hb. rewrite IH; rewrite ?E; [ring|lia|nia].
Qed.

Lemma or_bytes_0 l : Forall byte l -> or_bytes 0 0 l = le_value l.
Proof. intros H. rewrite or_bytes_value by (done || lia). cbn. lia. Qed.

(** ** The encoding of script numbers *)

Lemma abs_bytes_spec fuel a :
  0 <= a < 256 ^ Z.of_nat fuel ->
  Forall byte (abs_bytes fuel a) /\ le_value (abs_bytes fuel a) = a /\
  (length (abs_bytes fuel a) <= fuel)%nat /\
  (0 < a -> exists b l, abs_bytes fuel a = l ++ [b] /\ 0 < b).
Proof.
  revert a; induction fuel as [|fuel IH]; intros a Ha; cbn [abs_bytes].
  { cbn in Ha. assert (a = 0) as -> by lia. split; [done|]. split; [done|]. split; [done|lia]. }
  destruct (Z.eqb_spec a 0) as [->|Hne].
  { split; [done|]. split; [done|]. split; [cbn; lia|lia]. }
  rewrite Nat2Z.inj_succ, Z.pow_succ_r in Ha by lia.
  change 0xff with (Z.ones 8). rewrite Z.land_ones, Z.shiftr_div_pow2 by lia. change (2 ^ 8) with 256.
  pose proof (Z.div_mod a 256 ltac:(lia)) as Hd. pose proof (Z.mod_pos_bound a 256 ltac:(lia)) as Hm.
  destruct (IH (a / 256)) as (H1 & H2 & H3 & H4); [split; [apply Z.div_pos|apply Z.div_lt_upper_bound]; lia|].
  cbn [le_value length]. split; [constructor; [exact Hm|done]|]. split; [lia|]. split; [lia|]. intros _.
  destruct (decide (0 < a / 256)) as [Hp|Hp].
  - destruct (H4 Hp) as (b & l & -> & Hb). by exists b, (a mod 256 :: l).
  - assert (a / 256 = 0) as E by (pose proof (Z.div_pos a 256); lia). rewrite E in *.
    exists (a mod 256), []. split; [|lia]. by destruct fuel.
Qed.

Lemma land_0x80 b : byte b -> (Z.land b 0x80 =? 0) = (b <? 128).
Proof.
  intros Hb. assert (Z.land b 0x80 = 128 * (b / 128)) as ->.
  { change 0x80 with (2 ^ 7). apply Z.bits_inj'. intros i Hi. rewrite Z.land_spec, Z.pow2_bits_eqb by lia.
    change 128 with (2 ^ 7). rewrite (Z.mul_comm (2 ^ 7)), <- Z.shiftr_div_pow2, <- Z.shiftl_mul_pow2 by lia.
    destruct (Z.eqb_spec 7 i) as [<-|Hne].
    - rewrite Z.shiftl_spec, Z.shiftr_spec by lia. by rewrite andb_true_r.
    - rewrite andb_false_r. destruct (decide (i < 7)); [by rewrite Z.shiftl_spec_low by lia|].
      rewrite Z.shiftl_spec, Z.shiftr_spec by lia. symmetry. apply (small_bits b 8); unfold byte in Hb; [|lia].
      change (2 ^ 8) with 256. lia. }
  unfold byte in Hb. destruct (Z.ltb_spec b 128).
  - rewrite Z.div_small by lia. done.
  - apply Z.eqb_neq. assert (1 <= b / 128) by (apply Z.div_le_lower_bound; lia). lia.
Qed.

Lemma lor_0x80 b : 0 <= b < 128 -> Z.lor b 0x80 = b + 128.
Proof. intros Hb. exact (lor_shift b 1 7 ltac:(lia) Hb). Qed.

(** Clearing the sign bit gives the magnitude back. *)
Lemma clear_sign a k :
  0 <= k -> 0 <= a < 128 * 256 ^ k -> Z.ldiff (a + 128 * 256 ^ k) (Z.shiftl 0x80 (8 * k)) = a.
Proof.
  intros Hk Ha. assert (128 * 256 ^ k = 2 ^ (7 + 8 * k)) as E.
  { rewrite Z.pow_add_r by lia. f_equal. change 256 with (2 ^ 8). rewrite <- Z.pow_mul_r by lia. f_equal. }
  rewrite E in *. assert (Z.shiftl 0x80 (8 * k) = 2 ^ (7 + 8 * k)) as ->.
  { rewrite Z.shiftl_mul_pow2 by lia. rewrite Z.pow_add_r by lia. done. }
  replace (a + 2 ^ (7 + 8 * k)) with (Z.lor a (Z.shiftl 1 (7 + 8 * k)))
    by (rewrite lor_shift by lia; lia).
  apply Z.bits_inj'. intros i Hi. rewrite Z.ldiff_spec, Z.lor_spec, Z.shiftl_1_l, Z.pow2_bits_eqb by lia.
  destruct (Z.eqb_spec (7 + 8 * k) i) as [<-|Hne].
  - rewrite orb_true_r; cbn. symmetry. apply (small_bits a (7 + 8 * k)); lia.
  - by rewrite orb_false_r, andb_true_r.
Qed.

Lemma set_vch_snoc l b :
  Forall byte l -> byte b ->
  CScriptNum_set_vch (l ++ [b]) =
  if b <? 128 then le_value l + 256 ^ Z.of_nat (length l) * b
  else - (le_value l + 256 ^ Z.of_nat (length l) * (b - 128)).
Proof.
  intros Hl Hb. unfold CScriptNum_set_vch. rewrite last_snoc. change (default 0 (Some b)) with b. rewrite land_0x80 by done.
  assert (Forall byte (l ++ [b])) as Hlb by (apply Forall_app; auto).
  rewrite or_bytes_0 by done. rewrite le_value_app. cbn [le_value]. rewrite length_app; cbn [length].
  pose proof (le_value_range l Hl) as Hr. unfold byte in Hb.
  destruct (l ++ [b]) as [|x y] eqn:El; [by destruct l|].
  destruct (Z.ltb_spec b 128); cbn [negb]; [ring|]. f_equal.
  replace (Z.of_nat (length l + 1) - 1) with (Z.of_nat (length l)) by lia.
  replace (le_value l + 256 ^ Z.of_nat (length l) * (b + 256 * 0))
    with (le_value l + 256 ^ Z.of_nat (length l) * (b - 128) + 128 * 256 ^ Z.of_nat (length l)) by ring.
  apply clear_sign; [lia|]. nia.
Qed.

Lemma set_vch_serialize value :
  - 2 ^ 63 < value < 2 ^ 63 -> CScriptNum_set_vch (CScriptNum_serialize value) = value.
Proof.
  intros Hv. unfold CScriptNum_serialize. destruct (Z.eqb_spec value 0) as [->|Hne]; [done|].
  rewrite u64_small by lia.
  destruct (abs_bytes_spec 8 (Z.abs value)) as (Hb & Hval & _ & Hlast).
  { change (256 ^ Z.of_nat 8) with (2 ^ 64). lia. }
  destruct (Hlast ltac:(lia)) as (b & l & E & Hpos). rewrite E in *. rewrite last_snoc. change (default 0 (Some b)) with b.
  apply Forall_app in Hb as [Hl Hb]. apply Forall_inv in Hb. rewrite land_0x80 by done.
  rewrite le_value_app in Hval. cbn [le_value] in Hval. pose proof (le_value_range l Hl).
  destruct (Z.ltb_spec b 128) as [Hlt|Hge]; cbn [negb].
  - destruct (Z.ltb_spec value 0).
    + unfold set_back. rewrite length_app; cbn [length]. rewrite Nat.add_1_r; cbn [pred].
      rewrite alter_app_r_alt by lia. rewrite Nat.sub_diag. cbn [alter list_alter].
      rewrite lor_0x80 by (unfold byte in Hb; lia). rewrite set_vch_snoc by (done || (unfold byte in *; lia)).
      rewrite (proj2 (Z.ltb_ge _ _)) by lia. lia.
    + rewrite set_vch_snoc by done. rewrite (proj2 (Z.ltb_lt _ _)) by lia. lia.
  - assert (Forall byte (l ++ [b])) by (apply Forall_app; auto).
    destruct (Z.ltb_spec value 0); rewrite set_vch_snoc, le_value_app by (done || (unfold byte in *; lia)); cbn; lia.
Qed.

(** Script numbers round trip: every 64-bit value is read back from its
    bytes, with its sign. *)
Theorem CScriptNum_roundtrip value :
  - 2 ^ 63 < value < 2 ^ 63 -> CScriptNum_set_vch (CScriptNum_serialize value) = value.
Proof. apply set_vch_serialize. Qed.

Lemma CScriptNum_roundtrip_witness : CScriptNum_set_vch (CScriptNum_serialize (-255)) = -255.
Proof. apply (CScriptNum_roundtrip (-255)). lia. Defined.

(** ** Scripts *)

Lemma length_uint256_bytes hash : length (uint256_bytes hash) = 32%nat.
Proof. apply length_le_bytes. Qed.

Lemma sub_hash prefix hash rest n m :
  length prefix = n -> (m = n + 32)%nat ->
  0 <= hash < 2 ^ 256 -> uint256_of_bytes (sub (prefix ++ uint256_bytes hash ++ rest) n m) = hash.
Proof.
  intros <- -> Hh. unfold sub. rewrite drop_app_length. replace (length prefix + 32 - length prefix)%nat
    with (length (uint256_bytes hash)) by (rewrite length_uint256_bytes; lia).
  rewrite take_app_length. by apply uint256_roundtrip.
Qed.

Lemma sub_hash_end prefix hash n m :
  length prefix = n -> (m = n + 32)%nat ->
  0 <= hash < 2 ^ 256 -> uint256_of_bytes (sub (prefix ++ uint256_bytes hash) n m) = hash.
Proof. rewrite <- (app_nil_r (uint256_bytes hash)). apply sub_hash. Qed.

(** Replaces the bytes of a hash by 32 variables, so that a script computes. *)
Ltac spell_hash hash :=
  let l := fresh "l" in let Hl := fresh "Hl" in
  pose proof (length_uint256_bytes hash) as Hl; revert Hl; generalize (uint256_bytes hash); intros l Hl;
  do 32 (destruct l as [|? l]; [discriminate Hl|]); destruct l; [|discriminate Hl]; clear Hl.

(** Votes for proposals and payment requests and supports round trip: the
    script written for a hash and a vote is recognised as a vote of its kind
    and of no other, and gives back the hash and the vote. *)
Theorem VoteScript_roundtrip hash vote :
  0 <= hash < 2 ^ 256 -> vote ∈ [VOTE_YES; VOTE_NO; VOTE_ABSTAIN; VOTE_REMOVE] ->
  let p := SetScriptForProposalVote hash vote in
  let r := SetScriptForPaymentRequestVote hash vote in
  let s := SetScriptForConsultationSupport hash in
  let t := SetScriptForConsultationSupportRemove hash in
  (ExtractVote p = Some (hash, vote) /\ IsProposalVote p = true /\ IsPaymentRequestVote p = false) /\
  (ExtractVote r = Some (hash, vote) /\ IsPaymentRequestVote r = true /\ IsProposalVote r = false) /\
  (ExtractSupportVote s = Some (hash, SUPPORT) /\ ExtractSupportVote t = Some (hash, SUPPORT_REMOVE)) /\
  Forall (fun x => IsCommunityFundContribution x = false /\ IsConsultationVote x = false) [p; r; s; t].
Proof.
  intros Hh Hv p r s t. subst p r s t. unfold ExtractVote, ExtractSupportVote, SetScriptForProposalVote,
    SetScriptForPaymentRequestVote, SetScriptForConsultationSupport, SetScriptForConsultationSupportRemove.
  rewrite !sub_hash_end by done.
  spell_hash hash.
  repeat (apply elem_of_cons in Hv as [->|Hv]; [vm_compute; repeat split; repeat constructor|]).
  by apply elem_of_nil in Hv.
Qed.

Lemma VoteScript_roundtrip_witness :
  ExtractVote (SetScriptForProposalVote 77 VOTE_ABSTAIN) = Some (77, VOTE_ABSTAIN).
Proof.
  refine (proj1 (proj1 (VoteScript_roundtrip 77 VOTE_ABSTAIN _ _))).
  - split; [lia|vm_compute; reflexivity].
  - apply list_elem_of_In. cbn. tauto.
Defined.

(** ** Consultation votes *)

Lemma abs_bytes_length fuel a n :
  0 <= a < 256 ^ Z.of_nat fuel -> 0 <= a ->
  ((length (abs_bytes fuel a) <= n)%nat <-> a < 256 ^ Z.of_nat n).
Proof.
  intros Ha H0. destruct (abs_bytes_spec fuel a Ha) as (Hb & Hv & _ & Hl).
  pose proof (le_value_range _ Hb) as Hr. rewrite Hv in Hr. split.
  - intros Hn. assert (256 ^ Z.of_nat (length (abs_bytes fuel a)) <= 256 ^ Z.of_nat n)
      by (apply Z.pow_le_mono_r; lia). lia.
  - intros Hn. destruct (decide (length (abs_bytes fuel a) <= n)%nat) as [|Hgt]; [done|exfalso].
    destruct (decide (a = 0)) as [->|Hne]; [by destruct fuel; cbn in Hgt; lia|].
    destruct (Hl ltac:(lia)) as (b & l & E & Hpos). rewrite E, length_app in Hgt; cbn in Hgt.
    rewrite E, le_value_app in Hv. cbn [le_value] in Hv. rewrite E in Hb. apply Forall_app in Hb as [Hb _].
    apply le_value_range in Hb. assert (256 ^ Z.of_nat n <= 256 ^ Z.of_nat (length l))
      by (apply Z.pow_le_mono_r; lia). nia.
Qed.

Lemma serialize_short value :
  0 <= value < 2 ^ 63 -> ((length (CScriptNum_serialize value) <= 4)%nat <-> value < 2 ^ 31).
Proof.
  intros Hv. unfold CScriptNum_serialize. destruct (Z.eqb_spec value 0) as [->|Hne]; [cbn; lia|].
  rewrite u64_small by lia. rewrite (proj2 (Z.ltb_ge value 0)) by lia. rewrite Z.abs_eq by lia.
  assert (0 <= value < 256 ^ Z.of_nat 8) as Hr by (change (256 ^ Z.of_nat 8) with (2 ^ 64); lia).
  destruct (abs_bytes_spec 8 value Hr) as (Hb & Hval & _ & Hlast).
  pose proof (abs_bytes_length 8 value 4 Hr ltac:(lia)) as H4.
  pose proof (abs_bytes_length 8 value 3 Hr ltac:(lia)) as H3.
  change (256 ^ Z.of_nat 4) with (2 ^ 32) in H4. change (256 ^ Z.of_nat 3) with (2 ^ 24) in H3.
  destruct (Hlast ltac:(lia)) as (b & l & E & Hpos). rewrite E in *. rewrite last_snoc.
  change (default 0 (Some b)) with b. apply Forall_app in Hb as [Hl Hb]. apply Forall_inv in Hb.
  rewrite land_0x80 by done. rewrite le_value_app in Hval. cbn [le_value] in Hval. pose proof (le_value_range l Hl).
  rewrite !length_app in *; cbn [length] in *.
  destruct (Z.ltb_spec b 128) as [Hlt|Hge]; cbn [negb]; rewrite ?length_app; cbn [length].
  - split; [|lia]. intros Hle. assert (256 ^ Z.of_nat (length l) <= 256 ^ 3) by (apply Z.pow_le_mono_r; lia). nia.
  - split; [intros Hle; lia|]. intros Hlt. destruct (decide (length l + 1 <= 3)%nat) as [|Hgt]; [lia|exfalso].
    assert (256 ^ 3 <= 256 ^ Z.of_nat (length l)) by (apply Z.pow_le_mono_r; lia). nia.
Qed.

Lemma serialize_length value :
  0 < value < 2 ^ 63 -> (0 < length (CScriptNum_serialize value) <= 9)%nat.
Proof.
  intros Hv. unfold CScriptNum_serialize. rewrite (proj2 (Z.eqb_neq value 0)) by lia.
  rewrite u64_small by lia. rewrite (proj2 (Z.ltb_ge value 0)) by lia.
  destruct (abs_bytes_spec 8 (Z.abs value)) as (_ & _ & Hlen & Hlast).
  { change (256 ^ Z.of_nat 8) with (2 ^ 64). lia. }
  destruct (Hlast ltac:(lia)) as (b & l & E & _). rewrite E in *. rewrite length_app in *; cbn [length] in *.
  destruct (negb _); rewrite ?length_app; cbn [length]; lia.
Qed.

(** A vote with a value: the number follows the 36 bytes of the header. *)
Lemma consultation_vote_script hash vote :
  0 < vote < 2 ^ 63 -> 0 <= hash < 2 ^ 256 ->
  ExtractConsultationVote (SetScriptForConsultationVote hash vote) =
  (do nVote <- CScriptNum_of_vch (CScriptNum_serialize vote) false nDefaultMaxNumSize;
   Some (Some (hash, CScriptNum_getint nVote))).
Proof.
  intros Hv Hh. pose proof (serialize_length vote Hv) as Hlen.
  unfold SetScriptForConsultationVote. rewrite (proj2 (Z.ltb_lt (-1) vote)) by lia.
  rewrite (proj2 (Z.eqb_neq vote VOTE_ABSTAIN)) by (unfold VOTE_ABSTAIN; lia).
  unfold push_data. set (vch := CScriptNum_serialize vote) in *.
  rewrite (proj2 (Z.ltb_lt _ _)) by (unfold OP_PUSHDATA1; lia).
  unfold ExtractConsultationVote. rewrite <- app_assoc. rewrite sub_hash by done.
  spell_hash hash.
  destruct vch as [|b vch]; [cbn in Hlen; lia|].
  match goal with |- context [drop 37 ?s] => change (drop 37 s) with (b :: vch) end.
  destruct (CScriptNum_of_vch (b :: vch) false nDefaultMaxNumSize); reflexivity.
Qed.

(** Consultation votes round trip for values below 2^31, abstentions and
    removals.  For a larger value, which a range consultation may allow, the
    script is written but reading it throws. *)
Theorem ConsultationVote_roundtrip hash vote :
  0 <= hash < 2 ^ 256 -> 0 <= vote < 2 ^ 63 ->
  ExtractConsultationVote (SetScriptForConsultationVote hash vote) =
    (if vote <? 2 ^ 31 then Some (Some (hash, vote)) else None) /\
  ExtractConsultationVote (SetScriptForConsultationVote hash VOTE_ABSTAIN) = Some (Some (hash, VOTE_ABSTAIN)) /\
  ExtractConsultationVote (SetScriptForConsultationVoteRemove hash) = Some (Some (hash, VOTE_REMOVE)).
Proof.
  intros Hh Hv. split.
  - destruct (decide (vote = 0)) as [->|Hne].
    + unfold ExtractConsultationVote, SetScriptForConsultationVote, push_data.
      change (-1 <? 0) with true. cbv iota. rewrite <- app_assoc, sub_hash by done. spell_hash hash. reflexivity.
    + rewrite consultation_vote_script by lia. unfold CScriptNum_of_vch. cbn [andb].
      rewrite set_vch_serialize by lia. pose proof (serialize_short vote Hv) as Hs. unfold nDefaultMaxNumSize.
      destruct (Z.ltb_spec vote (2 ^ 31)) as [Hlt|Hge].
      * rewrite (proj2 (Nat.ltb_ge _ _)) by (apply Hs; lia). cbn [mbind option_bind].
        unfold CScriptNum_getint. rewrite !(proj2 (Z.ltb_ge _ _)) by lia. done.
      * rewrite (proj2 (Nat.ltb_lt _ _)) by lia. done.
  - unfold ExtractConsultationVote, SetScriptForConsultationVote, SetScriptForConsultationVoteRemove.
    change (-1 <? VOTE_ABSTAIN) with false. cbv iota. rewrite !sub_hash_end by done.
    spell_hash hash. split; reflexivity.
Qed.

Lemma ConsultationVote_roundtrip_witness :
  ExtractConsultationVote (SetScriptForConsultationVote 77 5) = Some (Some (77, 5)) /\
  ExtractConsultationVote (SetScriptForConsultationVote 77 (2 ^ 31)) = None.
Proof.
  split.
  - refine (proj1 (ConsultationVote_roundtrip 77 5 _ _)); split; [lia|vm_compute; reflexivity|lia|vm_compute; reflexivity].
  - refine (proj1 (ConsultationVote_roundtrip 77 (2 ^ 31) _ _)); split;
      [lia|vm_compute; reflexivity|lia|vm_compute; reflexivity].
Defined.

(** ** The script that identifies a voter

    The votes of a staker are kept under the bytes [GetStakerScript] takes
    from the script of the coins: the coins of a cold staking address are
    staked by others, and its voting key votes with a transaction that spends
    coins of the plain address of that key. *)

Definition IsColdStaking (s : CScript) : bool :=
  (2 <? length s)%nat && (byte_at s 0 =? OP_COINSTAKE) && (byte_at s 1 =? OP_IF).

Definition IsColdStakingv2 (s : CScript) : bool :=
  (24 <? length s)%nat && (byte_at s 0 =? 0x14) && (byte_at s 21 =? OP_DROP) && (byte_at s 22 =? OP_COINSTAKE) &&
  (byte_at s 23 =? OP_IF).

Definition IsPayToPublicKeyHash (s : CScript) : bool :=
  (length s =? 25)%nat && (byte_at s 0 =? OP_DUP) && (byte_at s 1 =? OP_HASH160) && (byte_at s 2 =? 0x14) &&
  (byte_at s 23 =? OP_EQUALVERIFY) && (byte_at s 24 =? OP_CHECKSIG).

Definition GetStakerScript (s : CScript) : CScript :=
  if IsColdStakingv2 s then sub s 0 20 else if IsPayToPublicKeyHash s then sub s 2 22 else s.

(** [CScriptVisitor]: the scripts of a key and of a cold staking address with
    its staking, spending and voting keys. *)
Definition script_for_key (keyID : list Z) : CScript :=
  push_data [OP_DUP; OP_HASH160] keyID ++ [OP_EQUALVERIFY; OP_CHECKSIG].

Definition script_for_cold_staking_v2 (staking spending voting : list Z) : CScript :=
  push_data (push_data (push_data [] voting ++ [OP_DROP; OP_COINSTAKE; OP_IF; OP_DUP; OP_HASH160]) staking ++
    [OP_EQUALVERIFY; OP_CHECKSIG; OP_ELSE; OP_DUP; OP_HASH160]) spending ++ [OP_EQUALVERIFY; OP_CHECKSIG; OP_ENDIF].

Lemma push_data_short (s b : list Z) :
  (length b < 76)%nat -> push_data s b = s ++ Z.of_nat (length b) :: b.
Proof. intros Hb. unfold push_data. rewrite (proj2 (Z.ltb_lt _ _)) by (unfold OP_PUSHDATA1; lia). done. Qed.

(** The voter of a cold staking address is the voter of the plain address
    of its voting key, so the votes that key casts are those its stakers'
    blocks count.  Keys are told apart by their first 19 bytes only. *)
Theorem GetStakerScript_voter staking spending voting key :
  length staking = 20%nat -> length spending = 20%nat -> length voting = 20%nat -> length key = 20%nat ->
  GetStakerScript (script_for_cold_staking_v2 staking spending voting) = GetStakerScript (script_for_key voting) /\
  (GetStakerScript (script_for_key voting) = GetStakerScript (script_for_key key) <-> take 19 voting = take 19 key).
Proof.
  intros H1 H2 H3 H4.
  assert (forall k, length k = 20%nat -> GetStakerScript (script_for_key k) = 20 :: take 19 k) as Hkey.
  { intros k Hk. unfold script_for_key. rewrite push_data_short, Hk by lia.
    do 20 (destruct k as [|? k]; [discriminate Hk|]). destruct k; [reflexivity|discriminate Hk]. }
  rewrite !Hkey by done. split; [|by split; [intros [= ?]|intros ->]].
  unfold script_for_cold_staking_v2. rewrite (push_data_short [] voting), H3 by lia.
  unfold GetStakerScript, IsColdStakingv2.
  do 20 (destruct voting as [|? voting]; [discriminate H3|]). destruct voting; [|discriminate H3].
  rewrite !push_data_short, H1, H2 by lia. reflexivity.
Qed.

Lemma GetStakerScript_voter_witness :
  GetStakerScript (script_for_cold_staking_v2 (replicate 20 1) (replicate 20 2) (replicate 20 3)) =
  GetStakerScript (script_for_key (replicate 20 3)).
Proof.
  exact (proj1 (GetStakerScript_voter (replicate 20 1) (replicate 20 2) (replicate 20 3) (replicate 20 4)
    eq_refl eq_refl eq_refl eq_refl)).
Defined.
