(* ===== verification/Transaction.v ===== *)
(** * Transactions ([primitives/transaction.h])

    [CTransaction] has the fields the DAO rules read.  [TxOut] and [CoinTx] have
    those of private outputs and tokens too, which the set of unspent outputs
    keeps.  Points and scalars of the range proofs are values of the BLS
    library and stand for their bytes. *)
From S2P Require Import Prelude Bytes Chain DaoTypes VoteScript.

(** ** Transactions *)

Record CTxOut := mkCTxOut { nValue : Z; scriptPubKey : CScript }.

Record COutPoint := mkCOutPoint { prevout_hash : uint256; prevout_n : Z }.

(** The bytes of an outpoint on the wire. *)
Definition outpoint_bytes (o : COutPoint) : list Z := uint256_bytes (prevout_hash o) ++ le_bytes 4 (prevout_n o).

Definition COutPoint_IsNull (o : COutPoint) : bool := (prevout_hash o =? 0) && (prevout_n o =? 2 ^ 32 - 1).

Record CTransaction := mkCTransaction {
  tx_nVersion : Z;
  tx_vin : list COutPoint;
  tx_vout : list CTxOut;
  tx_strDZeel : string;
  tx_hash : uint256
}.

Definition IsCoinBase (tx : CTransaction) : bool :=
  match tx_vin tx with [prevout] => COutPoint_IsNull prevout | _ => false end.

(** ** Outputs with their private part *)

(** Points are the bytes of [G1Element::Serialize], scalars are numbers. *)
Record BulletproofsRangeproof := mkRangeproof {
  rp_V : list (list Z);
  rp_L : list (list Z);
  rp_R : list (list Z);
  rp_A : list Z;
  rp_S : list Z;
  rp_T1 : list Z;
  rp_T2 : list Z;
  rp_taux : Z;
  rp_mu : Z;
  rp_a : Z;
  rp_b : Z;
  rp_t : Z
}.

(** The point at infinity, which the constructor of a point gives. *)
Definition G1_Infinity : list Z := 0xc0 :: replicate 47 0.

Definition Rangeproof_empty : BulletproofsRangeproof :=
  mkRangeproof [] [] [] G1_Infinity G1_Infinity G1_Infinity G1_Infinity 0 0 0 0 0.

Record TokenId := mkTokenId { tokenId_token : uint256; tokenId_subid : Z }.

Record PrivatePart := mkPrivatePart {
  ephemeralKey : list Z;
  outputKey : list Z;
  spendingKey : list Z;
  vData : list Z;
  tokenId : TokenId;
  bp : option BulletproofsRangeproof
}.

Record TxOut := mkTxOut { out_plain : CTxOut; out_private : PrivatePart }.

#[global] Instance CTxOut_eq_dec : EqDecision CTxOut.
Proof. solve_decision. Defined.
#[global] Instance Rangeproof_eq_dec : EqDecision BulletproofsRangeproof.
Proof. solve_decision. Defined.
#[global] Instance TokenId_eq_dec : EqDecision TokenId.
Proof. solve_decision. Defined.
#[global] Instance PrivatePart_eq_dec : EqDecision PrivatePart.
Proof. solve_decision. Defined.
#[global] Instance TxOut_eq_dec : EqDecision TxOut.
Proof. solve_decision. Defined.

Definition is_empty {A} (l : list A) : bool := match l with [] => true | _ => false end.

Definition TokenId_null : TokenId := mkTokenId 0 (2 ^ 64 - 1).
Definition no_private : PrivatePart := mkPrivatePart [] [] [] [] TokenId_null None.

(** [CTxOut(nValue, scriptPubKey)] *)
Definition plain_out (value : Z) (script : CScript) : TxOut := mkTxOut (mkCTxOut value script) no_private.

(** [SetNull] *)
Definition null_out : TxOut := plain_out (-1) [].

Definition HasRangeProof (o : TxOut) : bool :=
  match bp (out_private o) with Some p => negb (is_empty (rp_V p)) | None => false end.

Definition out_IsBLSCT (o : TxOut) : bool :=
  negb (is_empty (ephemeralKey (out_private o))) || negb (is_empty (spendingKey (out_private o))) ||
  negb (is_empty (outputKey (out_private o))).

Definition out_IsNull (o : TxOut) : bool :=
  (nValue (out_plain o) =? -1) && is_empty (scriptPubKey (out_plain o)) && is_empty (spendingKey (out_private o)) &&
  is_empty (ephemeralKey (out_private o)) && is_empty (outputKey (out_private o)).

Definition out_IsEmpty (o : TxOut) : bool :=
  (nValue (out_plain o) =? 0) && is_empty (scriptPubKey (out_plain o)) && is_empty (spendingKey (out_private o)) &&
  is_empty (ephemeralKey (out_private o)) && is_empty (outputKey (out_private o)) &&
  negb (HasRangeProof o) && is_empty (vData (out_private o)).

Definition OP_1 : Z := 0x51.
Definition MAX_SCRIPT_SIZE : Z := 10000.

Definition IsUnspendable (s : CScript) : bool :=
  negb (match s with [x] => x =? OP_1 | _ => false end) &&
  (match s with x :: _ => x =? OP_RETURN | [] => false end || (MAX_SCRIPT_SIZE <? Z.of_nat (length s))).

(** ** Transactions that spend outputs *)

Record CoinTx := mkCoinTx {
  ct_hash : uint256;
  ct_nVersion : Z;
  ct_nTime : Z;
  ct_vin : list COutPoint;
  ct_vout : list TxOut
}.

Definition ct_IsCoinBase (tx : CoinTx) : bool :=
  match ct_vin tx with [prevout] => COutPoint_IsNull prevout | _ => false end.

Definition ct_IsCoinStake (tx : CoinTx) : bool :=
  match ct_vin tx, ct_vout tx with
  | prevout :: _, first :: _ :: _ => negb (COutPoint_IsNull prevout) && out_IsEmpty first
  | _, _ => false
  end.

Lemma null_out_IsNull : out_IsNull null_out = true.
Proof. reflexivity. Qed.
