(* ===== verification/Serialize.v ===== *)
(** * Serialization primitives ([serialize.h], [compressor.cpp])

    Writers return the bytes they append; a reader takes the bytes of a stream
    and returns the value with the rest, or [None] when it throws.  The file
    has the two formats of numbers, byte vectors, and the compression of
    amounts. *)
From S2P Require Import Prelude Bytes.

(** ** Streams *)

Abbreviation Reader A := (list Z -> option (A * list Z)).

Definition ser_readdata8 : Reader Z := fun s => match s with b :: s => Some (b, s) | [] => None end.

(** [is.read]: a stream that is too short throws. *)
Definition read_bytes (n : nat) : Reader (list Z) :=
  fun s => if (n <=? length s)%nat then Some (take n s, drop n s) else None.

Definition read_le (n : nat) : Reader Z := fun s => do '(l, s) <- read_bytes n s; Some (le_value l, s).

(** ** [CompactSize] *)

Definition MAX_SIZE : Z := 0x02000000.

Definition GetSizeOfCompactSize (nSize : Z) : Z :=
  if nSize <? 253 then 1 else if nSize <=? 0xffff then 3 else if nSize <=? 0xffffffff then 5 else 9.

Definition WriteCompactSize (nSize : Z) : list Z :=
  if nSize <? 253 then le_bytes 1 nSize
  else if nSize <=? 0xffff then 253 :: le_bytes 2 nSize
  else if nSize <=? 0xffffffff then 254 :: le_bytes 4 nSize
  else 255 :: le_bytes 8 nSize.

Definition ReadCompactSize : Reader Z := fun s =>
  do '(chSize, s) <- ser_readdata8 s;
  do '(n, s) <-
    (if chSize <? 253 then Some (chSize, s)
     else if chSize =? 253 then do '(n, s) <- read_le 2 s; if n <? 253 then None else Some (n, s)
     else if chSize =? 254 then do '(n, s) <- read_le 4 s; if n <? 0x10000 then None else Some (n, s)
     else do '(n, s) <- read_le 8 s; if n <? 0x100000000 then None else Some (n, s));
  if MAX_SIZE <? n then None else Some (n, s).

(** ** [VarInt] *)

Fixpoint varint_size (fuel : nat) (n nRet : Z) : option Z :=
  let nRet := nRet + 1 in
  if n <=? 0x7f then Some nRet
  else match fuel with O => None | S fuel => varint_size fuel (Z.shiftr n 7 - 1) nRet end.

(** The bytes in [tmp], last one first; [tmp] has room for [fuel + 1]. *)
Fixpoint varint_loop (fuel : nat) (n : Z) (tmp : list Z) : option (list Z) :=
  let b := Z.lor (Z.land n 0x7f) (match tmp with [] => 0 | _ => 0x80 end) in
  if n <=? 0x7f then Some (b :: tmp)
  else match fuel with O => None | S fuel => varint_loop fuel (Z.shiftr n 7 - 1) (b :: tmp) end.

(** [width] is the number of bits of the type. *)
Definition GetSizeOfVarInt (width : nat) (n : Z) : option Z := varint_size ((width + 6) / 7 - 1) n 0.
Definition WriteVarInt (width : nat) (n : Z) : option (list Z) := varint_loop ((width + 6) / 7 - 1) n [].

(** [wrap] is the arithmetic of the type. *)
Fixpoint varint_read (wrap : Z -> Z) (n : Z) (s : list Z) : option (Z * list Z) :=
  match s with
  | [] => None
  | chData :: s =>
    let n := Z.lor (wrap (Z.shiftl n 7)) (Z.land chData 0x7f) in
    if flag_set chData 0x80 then varint_read wrap (wrap (n + 1)) s else Some (n, s)
  end.

Definition ReadVarInt (wrap : Z -> Z) : Reader Z := varint_read wrap 0.

(** ** Vectors of bytes *)

Definition WriteVector (v : list Z) : list Z := WriteCompactSize (Z.of_nat (length v)) ++ v.

Definition ReadVector : Reader (list Z) := fun s =>
  do '(n, s) <- ReadCompactSize s; read_bytes (Z.to_nat n) s.

(** ** Amounts *)

(** [while (((n % 10) == 0) && e < 9)] *)
Fixpoint strip_zeros (fuel : nat) (n e : Z) : Z * Z :=
  match fuel with
  | O => (n, e)
  | S fuel => if (n mod 10 =? 0) && (e <? 9) then strip_zeros fuel (n / 10) (e + 1) else (n, e)
  end.

Definition CompressAmount (n : Z) : Z :=
  if n =? 0 then 0
  else
    let '(n, e) := strip_zeros 9 n 0 in
    if e <? 9 then
      let d := n mod 10 in
      let n := n / 10 in
      u64 (1 + (n * 9 + d - 1) * 10 + e)
    else u64 (1 + (n - 1) * 10 + 9).

(** [while (e) { n *= 10; e--; }] *)
Fixpoint times_ten (e : nat) (n : Z) : Z := match e with O => n | S e => times_ten e (u64 (n * 10)) end.

Definition DecompressAmount (x : Z) : Z :=
  if x =? 0 then 0
  else
    let x := x - 1 in
    let e := x mod 10 in
    let x := x / 10 in
    let n := if e <? 9 then u64 (x / 9 * 10 + (x mod 9 + 1)) else u64 (x + 1) in
    times_ten (Z.to_nat e) n.

(** ** Facts *)

Lemma read_bytes_app l s : read_bytes (length l) (l ++ s) = Some (l, s).
Proof.
  unfold read_bytes. rewrite length_app, (proj2 (Nat.leb_le _ _)) by lia. by rewrite take_app_length, drop_app_length.
Qed.

Lemma read_le_bytes n z s : 0 <= z < 256 ^ Z.of_nat n -> read_le n (le_bytes n z ++ s) = Some (z, s).
Proof.
  intros Hz. unfold read_le. rewrite <- (length_le_bytes n z) at 1. rewrite read_bytes_app. cbn [mbind option_bind].
  by rewrite le_value_bytes, Z.mod_small.
Qed.

Lemma CompactSize_read nSize s :
  0 <= nSize <= MAX_SIZE -> ReadCompactSize (WriteCompactSize nSize ++ s) = Some (nSize, s).
Proof.
  intros Hn. unfold MAX_SIZE in Hn. unfold ReadCompactSize, WriteCompactSize.
  assert ((MAX_SIZE <? nSize) = false) as Hmax by (apply Z.ltb_ge; unfold MAX_SIZE; lia).
  destruct (Z.ltb_spec nSize 253) as [H1|H1].
  { cbn [le_bytes app ser_readdata8 mbind option_bind]. rewrite Z.mod_small by lia.
    rewrite (proj2 (Z.ltb_lt nSize 253)) by lia. cbn [mbind option_bind]. by rewrite Hmax. }
  destruct (Z.leb_spec nSize 0xffff) as [H2|H2].
  { cbn [app ser_readdata8 mbind option_bind]. change (253 <? 253) with false. change (253 =? 253) with true. cbn [mbind option_bind].
    rewrite read_le_bytes by (change (256 ^ Z.of_nat 2) with 65536; lia). cbn [mbind option_bind].
    rewrite (proj2 (Z.ltb_ge nSize 253)) by lia. cbn [mbind option_bind]. by rewrite Hmax. }
  rewrite (proj2 (Z.leb_le nSize 0xffffffff)) by lia.
  cbn [app ser_readdata8 mbind option_bind]. change (254 <? 253) with false. change (254 =? 253) with false. change (254 =? 254) with true.
  rewrite read_le_bytes by (change (256 ^ Z.of_nat 4) with 4294967296; lia). cbn [mbind option_bind].
  rewrite (proj2 (Z.ltb_ge nSize 0x10000)) by lia. cbn [mbind option_bind]. by rewrite Hmax.
Qed.

Lemma CompactSize_length nSize : Z.of_nat (length (WriteCompactSize nSize)) = GetSizeOfCompactSize nSize.
Proof.
  unfold WriteCompactSize, GetSizeOfCompactSize. repeat case_match; cbn [length]; rewrite length_le_bytes; done.
Qed.

Lemma ReadVector_write v s :
  Z.of_nat (length v) <= MAX_SIZE -> ReadVector (WriteVector v ++ s) = Some (v, s).
Proof.
  intros Hv. unfold ReadVector, WriteVector. rewrite <- app_assoc, CompactSize_read by lia. cbn [mbind option_bind].
  rewrite Nat2Z.id. apply read_bytes_app.
Qed.

Lemma read_le_inv n s z rest : Forall byte s -> read_le n s = Some (z, rest) ->
  s = le_bytes n z ++ rest /\ 0 <= z < 256 ^ Z.of_nat n.
Proof.
  intros Hs H. apply bind_Some in H as ([l s'] & H & E). injection E as <- <-. unfold read_bytes in H.
  destruct (Nat.leb_spec n (length s)) as [Hn|]; [|done]. injection H as <- <-.
  assert (length (take n s) = n) as Hl by (rewrite length_take; lia).
  assert (Forall byte (take n s)) as Hb by (by apply Forall_take). split.
  - by rewrite le_bytes_value, take_drop.
  - pose proof (le_value_range _ Hb) as Hr. by rewrite Hl in Hr.
Qed.

(** A size is read exactly from the bytes that are written for it: each size
    up to the limit of a message has one encoding, and the longer forms of a
    small number, sizes above the limit and short streams are refused. *)
Theorem CompactSize_canonical s n rest :
  Forall byte s ->
  (ReadCompactSize s = Some (n, rest) <-> 0 <= n <= MAX_SIZE /\ s = WriteCompactSize n ++ rest).
Proof.
  intros Hs. split; [|intros [Hn ->]; by apply CompactSize_read]. intros H.
  apply bind_Some in H as ([ch s1] & H1 & H). destruct s as [|b s]; [done|]. injection H1 as <- <-.
  apply Forall_cons in Hs as [Hb Hs]. unfold byte in Hb. apply bind_Some in H as ([m s2] & H1 & H).
  destruct (Z.ltb_spec MAX_SIZE m) as [|Hm]; [done|]. injection H as <- <-. unfold WriteCompactSize. unfold MAX_SIZE in *.
  destruct (Z.ltb_spec b 253) as [Hlt|Hge].
  { injection H1 as <- <-. rewrite (proj2 (Z.ltb_lt b 253)) by done. cbn [le_bytes app]. rewrite Z.mod_small by lia. split; [lia|done]. }
  destruct (Z.eqb_spec b 253) as [->|H253].
  { apply bind_Some in H1 as ([k s3] & Hk & H1). destruct (Z.ltb_spec k 253); [done|]. injection H1 as <- <-.
    apply read_le_inv in Hk as [-> Hr]; [|done]. change (256 ^ Z.of_nat 2) with 65536 in Hr.
    rewrite (proj2 (Z.ltb_ge k 253)), (proj2 (Z.leb_le k 0xffff)) by lia. split; [lia|done]. }
  destruct (Z.eqb_spec b 254) as [->|H254].
  { apply bind_Some in H1 as ([k s3] & Hk & H1). destruct (Z.ltb_spec k 0x10000); [done|]. injection H1 as <- <-.
    apply read_le_inv in Hk as [-> Hr]; [|done]. change (256 ^ Z.of_nat 4) with 4294967296 in Hr.
    rewrite (proj2 (Z.ltb_ge k 253)), (proj2 (Z.leb_gt k 0xffff)), (proj2 (Z.leb_le k 0xffffffff)) by lia. split; [lia|done]. }
  apply bind_Some in H1 as ([k s3] & Hk & H1). destruct (Z.ltb_spec k 0x100000000); [done|]. injection H1 as <- <-. lia.
Qed.

Lemma CompactSize_canonical_witness :
  ReadCompactSize [253; 0; 1; 9] = Some (256, [9]) <-> 0 <= 256 <= MAX_SIZE /\ [253; 0; 1; 9] = WriteCompactSize 256 ++ [9].
Proof. apply (CompactSize_canonical [253; 0; 1; 9] 256 [9]). repeat constructor; unfold byte; lia. Defined.

(** ** [VarInt] read back *)

Lemma digit_bits m : 0 <= m < 128 ->
  Z.land m 0x7f = m /\ Z.land (Z.lor m 0x80) 0x7f = m /\ flag_set m 0x80 = false /\ flag_set (Z.lor m 0x80) 0x80 = true.
Proof.
  intros Hm.
  assert (forallb (fun m => (Z.land m 0x7f =? m) && (Z.land (Z.lor m 0x80) 0x7f =? m) && negb (flag_set m 0x80) &&
    flag_set (Z.lor m 0x80) 0x80) (map Z.of_nat (seq 0 128)) = true) as Hall by (vm_compute; reflexivity).
  rewrite forallb_forall in Hall.
  specialize (Hall m ltac:(apply in_map_iff; exists (Z.to_nat m); split; [lia|]; apply in_seq; lia)). nav_bool. done.
Qed.

Lemma low_digit n : Z.land n 0x7f = n mod 128.
Proof. change 0x7f with (Z.ones 7). by rewrite Z.land_ones. Qed.

Section varint.
Context (wrap : Z -> Z) (bound : Z) (Hwrap : forall z, 0 <= z < bound -> wrap z = z) (Hbound : 256 <= bound).

(** One step of reading. *)
Lemma varint_read_step n b m s :
  0 <= n -> 0 <= m < 128 -> n * 128 + m + 1 < bound ->
  Z.land b 0x7f = m ->
  varint_read wrap n (b :: s) =
    if flag_set b 0x80 then varint_read wrap (n * 128 + m + 1) s else Some (n * 128 + m, s).
Proof.
  intros Hn Hm Hb Hd. cbn [varint_read]. rewrite Hd, Z.shiftl_mul_pow2 by lia. change (2 ^ 7) with 128.
  rewrite (Hwrap (n * 128)) by lia.
  replace (Z.lor (n * 128) m) with (n * 128 + m).
  2:{ rewrite Z.lor_comm. pose proof (lor_shift m n 7 ltac:(lia) ltac:(lia)) as E.
      rewrite Z.shiftl_mul_pow2 in E by lia. change (2 ^ 7) with 128 in E. rewrite E. lia. }
  by rewrite Hwrap by lia.
Qed.

Lemma shift_digit n : 127 < n -> 0 <= Z.shiftr n 7 - 1 /\ (Z.shiftr n 7 - 1 + 1) * 128 + n mod 128 = n.
Proof.
  intros Hn. rewrite Z.shiftr_div_pow2 by lia. change (2 ^ 7) with 128.
  pose proof (Z.div_mod n 128 ltac:(lia)). pose proof (Z.mod_pos_bound n 128 ltac:(lia)). lia.
Qed.

Lemma varint_loop_read fuel n tmp out s :
  tmp <> [] -> 0 <= n -> n + 1 < bound -> varint_loop fuel n tmp = Some out ->
  varint_read wrap 0 (out ++ s) = varint_read wrap (n + 1) (tmp ++ s).
Proof.
  revert n tmp; induction fuel as [|fuel IH]; intros n tmp Hne Hn Hb Hl; cbn [varint_loop] in Hl;
    (destruct tmp as [|t tmp]; [done|]); rewrite low_digit in Hl; pose proof (Z.mod_pos_bound n 128 ltac:(lia)) as Hm;
    destruct (digit_bits (n mod 128) Hm) as (_ & D1 & _ & D2); destruct (Z.leb_spec n 0x7f) as [Hle|Hgt];
    [injection Hl as <-|done|injection Hl as <-|];
    try (cbn [app]; rewrite (varint_read_step 0 _ (n mod 128)), D2 by (done || rewrite ?Z.mod_small; lia);
         rewrite Z.mod_small by lia; f_equal; lia).
  destruct (shift_digit n Hgt) as [Hp Hs]. rewrite (IH _ (Z.lor (n mod 128) 0x80 :: t :: tmp) ltac:(done) Hp ltac:(lia) Hl).
  cbn [app]. rewrite (varint_read_step _ _ (n mod 128)), D2 by (done || lia). f_equal. lia.
Qed.

Lemma varint_read_write fuel n out s :
  0 <= n -> n + 1 < bound -> varint_loop fuel n [] = Some out -> varint_read wrap 0 (out ++ s) = Some (n, s).
Proof.
  intros Hn Hb Hl. destruct fuel as [|fuel]; cbn [varint_loop] in Hl; rewrite low_digit, Z.lor_0_r in Hl;
    pose proof (Z.mod_pos_bound n 128 ltac:(lia)) as Hm; destruct (digit_bits (n mod 128) Hm) as (D0 & _ & D2 & _);
    destruct (Z.leb_spec n 0x7f) as [Hle|Hgt]; [injection Hl as <-|done|injection Hl as <-|];
    try (cbn [app]; rewrite (varint_read_step 0 _ (n mod 128)), D2 by (done || rewrite ?Z.mod_small; lia);
         rewrite Z.mod_small by lia; f_equal; f_equal; lia).
  destruct (shift_digit n Hgt) as [Hp Hs]. rewrite (varint_loop_read fuel _ [n mod 128] out s ltac:(done) Hp ltac:(lia) Hl).
  cbn [app]. rewrite (varint_read_step _ _ (n mod 128)), D2 by (done || lia). f_equal. f_equal. lia.
Qed.
End varint.

Lemma varint_loop_total fuel n tmp : n < 128 ^ Z.of_nat (S fuel) -> is_Some (varint_loop fuel n tmp).
Proof.
  revert n tmp; induction fuel as [|fuel IH]; intros n tmp Hn; cbn [varint_loop]; destruct (Z.leb_spec n 0x7f) as [Hle|Hgt];
    try (by eexists); [change (128 ^ Z.of_nat 1) with 128 in Hn; lia|].
  apply IH. rewrite Z.shiftr_div_pow2 by lia. change (2 ^ 7) with 128.
  rewrite Nat2Z.inj_succ, Z.pow_succ_r in Hn by lia.
  assert (n / 128 < 128 ^ Z.of_nat (S fuel)) by (apply Z.div_lt_upper_bound; lia). lia.
Qed.

Lemma varint_sizes fuel n tmp out r :
  varint_loop fuel n tmp = Some out -> varint_size fuel n r = Some (r + Z.of_nat (length out) - Z.of_nat (length tmp)).
Proof.
  revert n tmp r; induction fuel as [|fuel IH]; intros n tmp r Hl; cbn [varint_loop varint_size] in *;
    (destruct (n <=? 0x7f); [injection Hl as <-; cbn [length]; f_equal; lia|]); [done|].
  apply (IH _ _ (r + 1)) in Hl. rewrite Hl. cbn [length]. f_equal. lia.
Qed.

Lemma VarInt64_write n s :
  0 <= n < 2 ^ 64 -> exists out, WriteVarInt 64 n = Some out /\ (n + 1 < 2 ^ 64 -> ReadVarInt u64 (out ++ s) = Some (n, s)) /\
    GetSizeOfVarInt 64 n = Some (Z.of_nat (length out)).
Proof.
  intros Hn. unfold WriteVarInt, GetSizeOfVarInt, ReadVarInt. change ((64 + 6) / 7 - 1)%nat with 9%nat.
  destruct (varint_loop_total 9 n []) as [out Hout]; [change (128 ^ Z.of_nat 10) with (2 ^ 70); lia|].
  exists out. split; [done|]. split.
  - intros Hb. apply (varint_read_write u64 (2 ^ 64) u64_small ltac:(lia) 9); [lia|lia|done].
  - rewrite (varint_sizes 9 n [] out 0 Hout). cbn [length]. f_equal. lia.
Qed.

Lemma VarInt32_write n s :
  0 <= n < 2 ^ 31 - 1 -> exists out, WriteVarInt 32 n = Some out /\
    ReadVarInt u32 (out ++ s) = Some (n, s) /\ ReadVarInt i32 (out ++ s) = Some (n, s).
Proof.
  intros Hn. unfold WriteVarInt, ReadVarInt. change ((32 + 6) / 7 - 1)%nat with 4%nat.
  destruct (varint_loop_total 4 n []) as [out Hout]; [change (128 ^ Z.of_nat 5) with (2 ^ 35); lia|].
  exists out. split; [done|]. split.
  - apply (varint_read_write u32 (2 ^ 32) u32_small ltac:(lia) 4); [lia|lia|done].
  - apply (varint_read_write i32 (2 ^ 31) ltac:(intros z Hz; apply i32_small; lia) ltac:(lia) 4); [lia|lia|done].
Qed.

(** ** Amounts read back *)

Lemma strip_zeros_spec fuel n e :
  0 < n -> 0 <= e -> e + Z.of_nat fuel = 9 ->
  let '(m, e') := strip_zeros fuel n e in
  0 < m <= n /\ e <= e' <= 9 /\ n = m * 10 ^ (e' - e) /\ (e' < 9 -> m mod 10 <> 0).
Proof.
  revert n e; induction fuel as [|fuel IH]; intros n e Hn He Hf; cbn [strip_zeros].
  { replace e with 9 by lia. change (10 ^ (9 - 9)) with 1. lia. }
  destruct (Z.eqb_spec (n mod 10) 0) as [E|E]; cbn [andb].
  - rewrite (proj2 (Z.ltb_lt e 9)) by lia. pose proof (Z.div_mod n 10 ltac:(lia)) as Hd. rewrite E, Z.add_0_r in Hd.
    specialize (IH (n / 10) (e + 1) ltac:(lia) ltac:(lia) ltac:(lia)). destruct (strip_zeros fuel (n / 10) (e + 1)) as [m e'].
    destruct IH as (H1 & H2 & H3 & H4). split; [lia|]. split; [lia|]. split; [|done].
    replace (e' - e) with (1 + (e' - (e + 1))) by lia. rewrite Z.pow_add_r by lia. change (10 ^ 1) with 10. lia.
  - split; [lia|]. split; [lia|]. split; [|done]. rewrite Z.sub_diag. lia.
Qed.

Lemma times_ten_spec e n : 0 <= n -> n * 10 ^ Z.of_nat e < 2 ^ 64 -> times_ten e n = n * 10 ^ Z.of_nat e.
Proof.
  revert n; induction e as [|e IH]; intros n Hn Hb; cbn [times_ten]; [lia|].
  rewrite Nat2Z.inj_succ, Z.pow_succ_r in * by lia. assert (1 <= 10 ^ Z.of_nat e) by (pose proof (Z.pow_pos_nonneg 10 (Z.of_nat e)); lia).
  rewrite u64_small by nia. rewrite IH by lia. lia.
Qed.

Lemma CompressAmount_read n : 0 <= n <= 2 * 10 ^ 18 -> DecompressAmount (CompressAmount n) = n /\ 0 <= CompressAmount n < 2 ^ 64.
Proof.
  intros Hn. unfold CompressAmount. destruct (Z.eqb_spec n 0) as [->|Hne]; [done|].
  pose proof (strip_zeros_spec 9 n 0 ltac:(lia) ltac:(lia) ltac:(lia)) as Hs. destruct (strip_zeros 9 n 0) as [m e].
  destruct Hs as (Hm & He & Heq & Hmod). rewrite Z.sub_0_r in Heq.
  assert (10 ^ 18 < 2 ^ 60) as H18 by (vm_compute; reflexivity).
  assert (times_ten (Z.to_nat e) m = n) as Hten.
  { rewrite times_ten_spec by (rewrite ?Z2Nat.id by lia; lia). rewrite Z2Nat.id by lia. lia. }
  pose proof (Z.div_mod m 10 ltac:(lia)) as Hd. pose proof (Z.mod_pos_bound m 10 ltac:(lia)) as Hd'.
  destruct (Z.ltb_spec e 9) as [Hlt|Hge].
  - specialize (Hmod Hlt). set (q := m / 10) in *. set (d := m mod 10) in *.
    rewrite u64_small by lia. unfold DecompressAmount. rewrite (proj2 (Z.eqb_neq _ 0)) by lia.
    replace (1 + (q * 9 + d - 1) * 10 + e - 1) with (e + (q * 9 + d - 1) * 10) by lia.
    rewrite Z.mod_add, Z.div_add, (Z.mod_small e 10), (Z.div_small e 10), Z.add_0_l by lia. rewrite (proj2 (Z.ltb_lt e 9)) by lia.
    replace (q * 9 + d - 1) with (d - 1 + q * 9) by lia. rewrite Z.mod_add, Z.div_add, (Z.mod_small (d - 1)), (Z.div_small (d - 1)) by lia.
    rewrite u64_small by lia. replace ((0 + q) * 10 + (d - 1 + 1)) with m by lia. split; [exact Hten|lia].
  - assert (e = 9) as -> by lia. rewrite u64_small by lia. unfold DecompressAmount. rewrite (proj2 (Z.eqb_neq _ 0)) by lia.
    replace (1 + (m - 1) * 10 + 9 - 1) with (9 + (m - 1) * 10) by lia.
    rewrite Z.mod_add, Z.div_add, (Z.mod_small 9 10), (Z.div_small 9 10), Z.add_0_l by lia. change (9 <? 9) with false. cbn iota.
    rewrite u64_small by lia. replace (m - 1 + 1) with m by lia. split; [exact Hten|lia].
Qed.

(** ** The markers of private outputs *)

Definition MARKER_BLSCT : Z := 170000000 * 100000000.
Definition MARKER_TOKEN : Z := 170000000 * 100000000 + 1.

(** Only one amount compresses to the marker of tokens, and none to the other. *)
Lemma marker_amounts n :
  0 <= n <= 10 ^ 18 ->
  CompressAmount n <> MARKER_BLSCT /\ (CompressAmount n = MARKER_TOKEN <-> n = 1888888888888889).
Proof.
  intros Hn. destruct (CompressAmount_read n ltac:(lia)) as [Hr _]. split.
  - intros E. rewrite E in Hr. assert (DecompressAmount MARKER_BLSCT = 3406399148851724288) as Hd.
    { vm_compute. reflexivity. }
    rewrite Hd in Hr. assert (10 ^ 18 < 3406399148851724288) by (vm_compute; reflexivity). lia.
  - split; [|intros ->; vm_compute; reflexivity]. intros E. rewrite E in Hr. rewrite <- Hr. vm_compute. reflexivity.
Qed.
