(* ===== verification/Coins.v ===== *)
(** * Unspent outputs ([coins.h], [coins.cpp], [main.cpp])

    [CCoins] are the unspent outputs of a transaction.  A cache of coins keeps
    entries with the flags [DIRTY] and [FRESH] over a base, which is another
    cache or the database; [CoinStore] is what a base offers and [CoinLaws] its
    promise.  The abstract state is the map of available outputs ([utxo]); the
    cache is proved to implement it ([UpdateCoins_refines] and the laws of
    [Flush]), and [DisconnectBlock] to restore it. *)
From S2P Require Import Prelude Bytes Chain DaoTypes VoteScript Transaction.

Record CCoins := mkCCoins {
  fCoinBase : bool;
  fCoinStake : bool;
  vout : list TxOut;
  co_nHeight : Z;
  co_nVersion : Z
}.

(** ** Operations on the coins of a transaction *)

(** The empty constructor and [Clear]. *)
Definition CCoins_empty : CCoins := mkCCoins false false [] 0 0.

(** The loop of [Cleanup] takes null outputs from the end. *)
Fixpoint drop_null (l : list TxOut) : list TxOut :=
  match l with [] => [] | o :: l' => if out_IsNull o then drop_null l' else l end.
Definition cleanup (l : list TxOut) : list TxOut := rev (drop_null (rev l)).

Definition set_vout (c : CCoins) (l : list TxOut) : CCoins :=
  mkCCoins (fCoinBase c) (fCoinStake c) l (co_nHeight c) (co_nVersion c).

Definition Cleanup (c : CCoins) : CCoins := set_vout c (cleanup (vout c)).

Definition clear_unspendable (o : TxOut) : TxOut :=
  if negb (HasRangeProof o) && IsUnspendable (scriptPubKey (out_plain o)) then null_out else o.
Definition ClearUnspendable (c : CCoins) : CCoins := Cleanup (set_vout c (map clear_unspendable (vout c))).

Definition FromTx (tx : CoinTx) (nHeightIn : Z) : CCoins :=
  ClearUnspendable (mkCCoins (ct_IsCoinBase tx) (ct_IsCoinStake tx) (ct_vout tx) nHeightIn (ct_nVersion tx)).

Definition IsAvailable (c : CCoins) (nPos : Z) : bool :=
  match vout c !! Z.to_nat nPos with Some o => negb (out_IsNull o) | None => false end.

Definition IsPruned (c : CCoins) : bool := forallb out_IsNull (vout c).

(** The coins after [Spend] and what it returns. *)
Definition Spend (c : CCoins) (nPos : Z) : CCoins * bool :=
  if IsAvailable c nPos then (Cleanup (set_vout c (<[Z.to_nat nPos := null_out]> (vout c))), true) else (c, false).

(** [operator==] does not compare [fCoinStake]. *)
Definition CCoins_eqb (a b : CCoins) : bool :=
  if IsPruned a && IsPruned b then true
  else Bool.eqb (fCoinBase a) (fCoinBase b) && (co_nHeight a =? co_nHeight b) && (co_nVersion a =? co_nVersion b) &&
       bool_decide (vout a = vout b).

(** ** The cache *)

(** The flags [DIRTY] and [FRESH]. *)
Record CCoinsCacheEntry := mkEntry { e_coins : CCoins; e_dirty : bool; e_fresh : bool }.

Abbreviation CCoinsMap := (gmap uint256 CCoinsCacheEntry).

(** What a base offers: [GetCoins], which can change a cache, and [BatchWrite]. *)
Class CoinStore (S : Type) := {
  cs_get : S -> uint256 -> S * option CCoins;
  cs_batch : S -> CCoinsMap -> S
}.

Record CoinsCache (S : Type) := mkCoinsCache { cacheCoins : CCoinsMap; ca_base : S }.
Arguments mkCoinsCache {S}.
Arguments cacheCoins {S}.
Arguments ca_base {S}.

Section cache.
Context {S : Type} `{!CoinStore S}.
Implicit Types (c : CoinsCache S) (txid : uint256).

Definition FetchCoins c txid : CoinsCache S * option CCoinsCacheEntry :=
  match cacheCoins c !! txid with
  | Some e => (c, Some e)
  | None =>
    let '(s, o) := cs_get (ca_base c) txid in
    match o with
    | None => (mkCoinsCache (cacheCoins c) s, None)
    | Some tmp =>
      let e := mkEntry tmp false (IsPruned tmp) in
      (mkCoinsCache (<[txid := e]> (cacheCoins c)) s, Some e)
    end
  end.

(** [GetCoins] and [AccessCoins]. *)
Definition GetCoins c txid : CoinsCache S * option CCoins :=
  let '(c, o) := FetchCoins c txid in (c, e_coins <$> o).

Definition HaveCoins c txid : CoinsCache S * bool :=
  let '(c, o) := GetCoins c txid in (c, match o with Some x => negb (is_empty (vout x)) | None => false end).

Definition HaveCoinsInCache c txid : bool := bool_decide (is_Some (cacheCoins c !! txid)).

(** [ModifyCoins]: the entry that the modifier holds. *)
Definition open_coins c txid : CoinsCache S * CCoinsCacheEntry :=
  match cacheCoins c !! txid with
  | Some e => (c, mkEntry (e_coins e) true (e_fresh e))
  | None =>
    let '(s, o) := cs_get (ca_base c) txid in
    (mkCoinsCache (cacheCoins c) s,
     match o with
     | None => mkEntry CCoins_empty true true
     | Some x => mkEntry x true (IsPruned x)
     end)
  end.

(** The destructor of the modifier. *)
Definition close_coins c txid (e : CCoinsCacheEntry) : CoinsCache S :=
  let e := mkEntry (Cleanup (e_coins e)) (e_dirty e) (e_fresh e) in
  if e_fresh e && IsPruned (e_coins e) then mkCoinsCache (delete txid (cacheCoins c)) (ca_base c)
  else mkCoinsCache (<[txid := e]> (cacheCoins c)) (ca_base c).

(** The modifier: open, write the coins, destructor. *)
Definition ModifyCoins {A} c txid (f : CCoins -> CCoins * A) : CoinsCache S * A :=
  let '(c, e) := open_coins c txid in
  let '(x, a) := f (e_coins e) in
  (close_coins c txid (mkEntry x (e_dirty e) (e_fresh e)), a).

Definition ModifyNewCoins c txid (coinbase : bool) (x : CCoins) : CoinsCache S :=
  let fresh := if coinbase then match cacheCoins c !! txid with Some e => e_fresh e | None => false end else true in
  close_coins c txid (mkEntry x true fresh).

(** One entry of the child in [BatchWrite]. *)
Definition batch_entry (us : CCoinsMap) (ke : uint256 * CCoinsCacheEntry) : CCoinsMap :=
  let '(txid, e) := ke in
  if e_dirty e then
    match us !! txid with
    | None => if e_fresh e && IsPruned (e_coins e) then us
              else <[txid := mkEntry (e_coins e) true (e_fresh e)]> us
    | Some u => if e_fresh u && IsPruned (e_coins e) then delete txid us
                else <[txid := mkEntry (e_coins e) true (e_fresh u)]> us
    end
  else us.

#[global] Instance cache_store : CoinStore (CoinsCache S) := {
  cs_get c txid := GetCoins c txid;
  cs_batch c m := mkCoinsCache (foldl batch_entry (cacheCoins c) (map_to_list m)) (ca_base c)
}.

Definition Flush c : CoinsCache S := mkCoinsCache ∅ (cs_batch (ca_base c) (cacheCoins c)).

Definition Uncache c txid : CoinsCache S :=
  match cacheCoins c !! txid with
  | Some e => if negb (e_dirty e) && negb (e_fresh e) then mkCoinsCache (delete txid (cacheCoins c)) (ca_base c) else c
  | None => c
  end.

(** ** Inputs of a transaction *)

(** [None] is the failed assertion. *)
Definition GetOutputFor c (input : COutPoint) : CoinsCache S * option TxOut :=
  let '(c, o) := GetCoins c (prevout_hash input) in
  (c, match o with
      | Some x => if IsAvailable x (prevout_n input) then vout x !! Z.to_nat (prevout_n input) else None
      | None => None
      end).

Definition GetValueIn c (tx : CoinTx) : CoinsCache S * option Z :=
  if ct_IsCoinBase tx then (c, Some 0)
  else foldl (fun '(c, r) input =>
    match r with
    | None => (c, None)
    | Some n => let '(c, o) := GetOutputFor c input in (c, (fun out => i64 (n + nValue (out_plain out))) <$> o)
    end) (c, Some 0) (ct_vin tx).

Fixpoint have_inputs c (vin : list COutPoint) : CoinsCache S * bool :=
  match vin with
  | [] => (c, true)
  | prevout :: vin =>
    let '(c, o) := GetCoins c (prevout_hash prevout) in
    match o with
    | Some x => if IsAvailable x (prevout_n prevout) then have_inputs c vin else (c, false)
    | None => (c, false)
    end
  end.

Definition HaveInputs c (tx : CoinTx) : CoinsCache S * bool :=
  if ct_IsCoinBase tx then (c, true) else have_inputs c (ct_vin tx).

(** ** Connecting *)

Record CTxInUndo := mkUndo { un_txout : TxOut; un_fCoinBase : bool; un_nHeight : Z; un_nVersion : Z }.

(** Spending one input; [None] is the failed assertion. *)
Definition spend_input (acc : CoinsCache S * list CTxInUndo) (prevout : COutPoint) :
    option (CoinsCache S * list CTxInUndo) :=
  let '(c, vprevout) := acc in
  let '(c, undo) := ModifyCoins c (prevout_hash prevout) (fun coins =>
    if IsAvailable coins (prevout_n prevout) then
      match vout coins !! Z.to_nat (prevout_n prevout) with
      | Some out =>
        let coins := (Spend coins (prevout_n prevout)).1 in
        (coins, Some (if is_empty (vout coins)
                      then mkUndo out (fCoinBase coins) (u32 (co_nHeight coins)) (co_nVersion coins)
                      else mkUndo out false 0 0))
      | None => (coins, None)
      end
    else (coins, None)) in
  do u <- undo; Some (c, vprevout ++ [u]).

(** The view and [txundo.vprevout]. *)
Definition UpdateCoins (tx : CoinTx) c (nHeight : Z) : option (CoinsCache S * list CTxInUndo) :=
  do '(c, vprevout) <- (if ct_IsCoinBase tx then Some (c, []) else foldM spend_input (c, []) (ct_vin tx));
  Some (ModifyNewCoins c (ct_hash tx) (ct_IsCoinBase tx) (FromTx tx nHeight), vprevout).

(** ** Disconnecting *)

(** [std::vector::resize] with empty outputs; [CTxOut()] is null. *)
Definition resize_null (l : list TxOut) (n : nat) : list TxOut := take n l ++ replicate (n - length l) null_out.

Definition undo_coins (undo : CTxInUndo) (n : Z) (coins : CCoins) : CCoins * bool :=
  let '(coins, fClean) :=
    if negb (un_nHeight undo =? 0)
    then (mkCCoins (un_fCoinBase undo) false [] (i32 (un_nHeight undo)) (un_nVersion undo), IsPruned coins)
    else (coins, negb (IsPruned coins)) in
  let fClean := fClean && negb (IsAvailable coins n) in
  let l := vout coins in
  let l := if (length l <? Z.to_nat n + 1)%nat then resize_null l (Z.to_nat n + 1) else l in
  (set_vout coins (<[Z.to_nat n := un_txout undo]> l), fClean).

Definition ApplyTxInUndo (undo : CTxInUndo) c (out : COutPoint) : CoinsCache S * bool :=
  ModifyCoins c (prevout_hash out) (undo_coins undo (prevout_n out)).

(** The check of the outputs and their removal. *)
Definition remove_outputs (tx : CoinTx) c (nHeight : Z) : CoinsCache S * bool :=
  ModifyCoins c (ct_hash tx) (fun outs =>
    let outs := ClearUnspendable outs in
    let outsBlock := FromTx tx nHeight in
    let outs := if co_nVersion outsBlock <? 0
      then mkCCoins (fCoinBase outs) (fCoinStake outs) (vout outs) (co_nHeight outs) (co_nVersion outsBlock) else outs in
    (CCoins_empty, (length (vout outs) =? length (vout outsBlock))%nat && CCoins_eqb outs outsBlock)).

Definition restore_inputs (c : CoinsCache S) (fClean : bool) (ins : list (COutPoint * CTxInUndo)) : CoinsCache S * bool :=
  foldl (fun '(c, fClean) '(out, undo) =>
    let '(c, b) := ApplyTxInUndo undo c out in (c, fClean && b)) (c, fClean) (rev ins).

(** The coins part of the loop of [DisconnectBlock] for one transaction;
    [None] when block and undo data do not match. *)
Definition disconnect_tx (acc : CoinsCache S * bool) (x : CoinTx * Z * option (list CTxInUndo)) :
    option (CoinsCache S * bool) :=
  let '(c, fClean) := acc in
  let '(tx, nHeight, undo) := x in
  let '(c, b) := remove_outputs tx c nHeight in
  match undo with
  | None => Some (c, fClean && b)
  | Some vprevout =>
    if negb (length vprevout =? length (ct_vin tx))%nat then None
    else Some (restore_inputs c (fClean && b) (combine (ct_vin tx) vprevout))
  end.

(** The coins part of the loops of [ConnectBlock] and [DisconnectBlock] over
    the transactions; the first transaction has no undo data. *)
Fixpoint connect_coins (txs : list CoinTx) (height : Z) c : option (CoinsCache S * list (list CTxInUndo)) :=
  match txs with
  | [] => Some (c, [])
  | tx :: txs =>
    do '(c, undo) <- UpdateCoins tx c height;
    do '(c, undos) <- connect_coins txs height c;
    Some (c, undo :: undos)
  end.

Definition ConnectBlock_coins (vtx : list CoinTx) (height : Z) c : option (CoinsCache S * list (list CTxInUndo)) :=
  do '(c, undos) <- connect_coins vtx height c; Some (c, tail undos).

Definition DisconnectBlock_coins (vtx : list CoinTx) (height : Z) (vtxundo : list (list CTxInUndo)) c :
    option (CoinsCache S * bool) :=
  if negb (length vtxundo + 1 =? length vtx)%nat then None
  else foldM disconnect_tx (c, true)
         (rev (map (fun '(tx, undo) => (tx, height, undo)) (combine vtx (None :: map Some vtxundo)))).
End cache.

(** ** The database *)

(** The serialization has no bit for [fCoinStake]; reading leaves it false. *)
Definition db_coins (x : CCoins) : CCoins :=
  Cleanup (mkCCoins (fCoinBase x) false (vout x) (co_nHeight x) (co_nVersion x)).

Record CoinDB := mkCoinDB { cdb_map : gmap uint256 CCoins }.

Definition db_entry (t : gmap uint256 CCoins) (ke : uint256 * CCoinsCacheEntry) : gmap uint256 CCoins :=
  let '(txid, e) := ke in
  if e_dirty e then
    if IsPruned (e_coins e) then delete txid t else <[txid := db_coins (e_coins e)]> t
  else t.

#[global] Instance db_store : CoinStore CoinDB := {
  cs_get d txid := (d, cdb_map d !! txid);
  cs_batch d m := mkCoinDB (foldl db_entry (cdb_map d) (map_to_list m))
}.

(** ** The available outputs *)

Definition available (o : TxOut) : option TxOut := if out_IsNull o then None else Some o.

Definition outs_of (l : list TxOut) : gmap nat TxOut := omap available (map_seq 0 l).

Lemma outs_of_lookup l i : outs_of l !! i = (l !! i) ≫= available.
Proof. unfold outs_of. by rewrite lookup_omap, lookup_map_seq_0. Qed.

Lemma drop_null_split l : exists t, l = t ++ drop_null l /\ Forall (fun o => out_IsNull o = true) t.
Proof.
  induction l as [|o l (t & IH & Ht)]; [by exists []|]. cbn [drop_null]. destruct (out_IsNull o) eqn:E.
  - exists (o :: t). cbn. rewrite <- IH. split; [done|]. by constructor.
  - by exists [].
Qed.

Lemma cleanup_split l : exists t, l = cleanup l ++ t /\ Forall (fun o => out_IsNull o = true) t.
Proof.
  destruct (drop_null_split (rev l)) as (t & E & Ht). exists (rev t). split; [|by apply Forall_rev].
  unfold cleanup. rewrite <- rev_app_distr, <- E. by rewrite rev_involutive.
Qed.

Lemma outs_of_null l t : Forall (fun o => out_IsNull o = true) t -> outs_of (l ++ t) = outs_of l.
Proof.
  intros Ht. apply map_eq. intros i. rewrite !outs_of_lookup.
  destruct (decide (i < length l)%nat) as [Hlt|Hge]; [by rewrite lookup_app_l|].
  rewrite lookup_app_r, (lookup_ge_None_2 l i) by lia. cbn.
  destruct (t !! (i - length l)%nat) as [o|] eqn:E; [|done]. cbn. unfold available.
  rewrite Forall_lookup in Ht. by rewrite (Ht _ _ E).
Qed.

Lemma outs_of_cleanup l : outs_of (cleanup l) = outs_of l.
Proof. destruct (cleanup_split l) as (t & E & Ht). rewrite E at 2. symmetry. by apply outs_of_null. Qed.

Lemma outs_of_empty l : outs_of l = ∅ <-> forallb out_IsNull l = true.
Proof.
  rewrite forallb_forall. split.
  - intros E o Ho. apply list_elem_of_In, list_elem_of_lookup in Ho as [i Hi].
    pose proof (outs_of_lookup l i) as Hl. rewrite E, lookup_empty, Hi in Hl. cbn in Hl. unfold available in Hl.
    by destruct (out_IsNull o).
  - intros Hall. apply map_eq. intros i. rewrite outs_of_lookup, lookup_empty.
    destruct (l !! i) as [o|] eqn:E; [|done]. cbn. unfold available. rewrite Hall; [done|].
    apply list_elem_of_In. by apply list_elem_of_lookup_2 in E.
Qed.

Lemma cleanup_empty l : outs_of l = ∅ <-> cleanup l = [].
Proof.
  rewrite outs_of_empty. unfold cleanup. split.
  - intros Hall. assert (drop_null (rev l) = []) as ->; [|done].
    assert (Forall (fun o => out_IsNull o = true) (rev l)) as Hr.
    { apply Forall_rev, Forall_forall. intros o Ho. rewrite forallb_forall in Hall. by apply Hall, list_elem_of_In. }
    induction Hr as [|o r Ho _ IH]; [done|]. cbn. by rewrite Ho.
  - intros E. apply outs_of_empty. rewrite <- (outs_of_cleanup l). unfold cleanup. by rewrite E.
Qed.

Lemma outs_of_spend l n : outs_of (<[n := null_out]> l) = delete n (outs_of l).
Proof.
  apply map_eq. intros i. rewrite outs_of_lookup. destruct (decide (i = n)) as [->|Hne].
  - rewrite lookup_delete_eq. destruct (decide (n < length l)%nat).
    + by rewrite list_lookup_insert_eq.
    + rewrite list_insert_ge, lookup_ge_None_2 by lia. done.
  - by rewrite lookup_delete_ne, list_lookup_insert_ne, outs_of_lookup.
Qed.

Lemma outs_of_resize l n : (length l <= n)%nat -> outs_of (resize_null l n) = outs_of l.
Proof.
  intros H. unfold resize_null. rewrite take_ge by done. apply outs_of_null. apply Forall_replicate. done.
Qed.

Lemma outs_of_insert l n o :
  (n < length l)%nat -> out_IsNull o = false -> outs_of (<[n := o]> l) = <[n := o]> (outs_of l).
Proof.
  intros Hn Ho. apply map_eq. intros i. rewrite outs_of_lookup. destruct (decide (i = n)) as [->|Hne].
  - rewrite lookup_insert_eq, list_lookup_insert_eq by done. cbn. unfold available. by rewrite Ho.
  - by rewrite lookup_insert_ne, list_lookup_insert_ne, outs_of_lookup.
Qed.

(** The coins without [fCoinStake], and [None] when everything is spent. *)
Record Core := mkCore { k_fCoinBase : bool; k_outs : gmap nat TxOut; k_nHeight : Z; k_nVersion : Z }.

Definition core_of (cb : bool) (outs : gmap nat TxOut) (height version : Z) : option Core :=
  if decide (outs = ∅) then None else Some (mkCore cb outs height version).

Definition core (c : CCoins) : option Core :=
  core_of (fCoinBase c) (outs_of (vout c)) (co_nHeight c) (co_nVersion c).

Lemma core_pruned c : IsPruned c = true <-> core c = None.
Proof.
  unfold core, core_of, IsPruned. rewrite <- outs_of_empty. case_decide; split; done.
Qed.

Lemma core_not_pruned c : IsPruned c = false <-> is_Some (core c).
Proof.
  destruct (IsPruned c) eqn:E.
  - apply core_pruned in E. rewrite E. split; [done|]. by intros [? ?].
  - split; [|done]. intros _. destruct (core c) as [k|] eqn:Ek; [by eexists|]. apply core_pruned in Ek. congruence.
Qed.

Lemma core_Cleanup c : core (Cleanup c) = core c.
Proof. unfold core, Cleanup, set_vout. cbn [fCoinBase vout co_nHeight co_nVersion]. by rewrite outs_of_cleanup. Qed.

Lemma IsPruned_Cleanup c : IsPruned (Cleanup c) = IsPruned c.
Proof. apply eq_true_iff_eq. by rewrite !core_pruned, core_Cleanup. Qed.

(** What the database keeps. *)
Lemma core_db c : core (db_coins c) = core c.
Proof. unfold db_coins. by rewrite core_Cleanup. Qed.

(** ** The promise of a base *)

(** Entries a child marks as fresh are missing in the base. *)
Definition fresh_ok (show : uint256 -> option Core) (m : CCoinsMap) : Prop :=
  forall txid e, m !! txid = Some e -> e_fresh e = true -> show txid = None.

Class CoinLaws (S : Type) `{!CoinStore S} := {
  cs_ok : S -> Prop;
  cs_core : S -> uint256 -> option Core;
  cs_get_core s txid : cs_ok s -> (cs_get s txid).2 ≫= core = cs_core s txid;
  cs_get_ok s txid : cs_ok s -> cs_ok (cs_get s txid).1;
  cs_get_same s txid k : cs_ok s -> cs_core (cs_get s txid).1 k = cs_core s k;
  cs_batch_ok s m : cs_ok s -> fresh_ok (cs_core s) m -> cs_ok (cs_batch s m);
  cs_batch_core s m k : cs_ok s -> fresh_ok (cs_core s) m ->
    cs_core (cs_batch s m) k =
      match m !! k with Some e => if e_dirty e then core (e_coins e) else cs_core s k | None => cs_core s k end
}.

(** The database. *)
Definition db_core (d : CoinDB) (txid : uint256) : option Core := (cdb_map d !! txid) ≫= core.

Lemma db_batch_core d m k :
  db_core (cs_batch d m) k =
    match m !! k with Some e => if e_dirty e then core (e_coins e) else db_core d k | None => db_core d k end.
Proof.
  unfold db_core, cs_batch, db_store; cbn [cdb_map].
  rewrite (foldl_map_own_key db_entry (fun e o => if e_dirty e then
    if IsPruned (e_coins e) then None else Some (db_coins (e_coins e)) else o)).
  - destruct (m !! k) as [e|]; [|done]. destruct (e_dirty e); [|done]. destruct (IsPruned (e_coins e)) eqn:E.
    + apply core_pruned in E. by rewrite E.
    + cbn. apply core_db.
  - intros t [k0 e] k'. cbn [fst snd db_entry]. destruct (e_dirty e); [|by case_decide].
    destruct (IsPruned (e_coins e)); case_decide; subst;
      rewrite ?lookup_delete_eq, ?lookup_delete_ne, ?lookup_insert_eq, ?lookup_insert_ne by done; done.
Qed.

#[global] Program Instance db_laws : CoinLaws CoinDB := {
  cs_ok _ := True;
  cs_core := db_core
}.
Next Obligation. done. Qed.
Next Obligation. done. Qed.
Next Obligation. done. Qed.
Next Obligation. done. Qed.
Next Obligation. intros d m k _ _. apply db_batch_core. Qed.

(** ** The cache keeps the promise *)

Section laws.
Context {S : Type} `{!CoinStore S, !CoinLaws S}.
Implicit Types (c : CoinsCache S) (txid k : uint256).

Definition shown c k : option Core :=
  match cacheCoins c !! k with Some e => core (e_coins e) | None => cs_core (ca_base c) k end.

(** The flags tell the truth. *)
Record cache_ok c : Prop := {
  ok_base : cs_ok (ca_base c);
  ok_fresh : fresh_ok (cs_core (ca_base c)) (cacheCoins c);
  ok_clean : forall k e, cacheCoins c !! k = Some e -> e_dirty e = false -> core (e_coins e) = cs_core (ca_base c) k
}.

Lemma FetchCoins_spec c k :
  cache_ok c ->
  let '(c', o) := FetchCoins c k in
  cache_ok c' /\ (forall k', shown c' k' = shown c k') /\ (e_coins <$> o) ≫= core = shown c k /\
  (forall k', cs_core (ca_base c') k' = cs_core (ca_base c) k').
Proof.
  intros [Hb Hf Hc]. unfold FetchCoins, shown. destruct (cacheCoins c !! k) as [e|] eqn:Ek.
  { split; [by split|]. done. }
  pose proof (cs_get_core (ca_base c) k Hb) as Hcore. pose proof (cs_get_ok (ca_base c) k Hb) as Hok.
  pose proof (fun k' => cs_get_same (ca_base c) k k' Hb) as Hsame.
  destruct (cs_get (ca_base c) k) as [s o]. cbn [fst snd] in *. destruct o as [x|]; cbn [cacheCoins ca_base] in *.
  - cbn in Hcore. split; [split; cbn [cacheCoins ca_base]|split; [|split]]; [done| | | |done|done].
    + intros k' e. rewrite lookup_insert, Hsame. case_decide as E; [|by apply Hf]. intros [= <-] Hfr. cbn in Hfr. subst k'.
      apply core_pruned in Hfr. congruence.
    + intros k' e. rewrite lookup_insert, Hsame. case_decide as E; [|by apply Hc]. intros [= <-] _. cbn. by subst k'.
    + intros k'. rewrite lookup_insert, Hsame. case_decide as E; [subst k'; cbn; by rewrite Ek|done].
  - split; [split; cbn [cacheCoins ca_base]|split; [|split]]; [done| | | |done|done].
    + intros k' e Hk'. rewrite Hsame. by apply Hf.
    + intros k' e Hk'. rewrite Hsame. by apply Hc.
    + intros k'. by rewrite Hsame.
Qed.

Lemma GetCoins_spec c k :
  cache_ok c ->
  let '(c', o) := GetCoins c k in
  cache_ok c' /\ (forall k', shown c' k' = shown c k') /\ o ≫= core = shown c k /\
  (forall k', cs_core (ca_base c') k' = cs_core (ca_base c) k').
Proof. intros H. unfold GetCoins. pose proof (FetchCoins_spec c k H) as Hs. by destruct (FetchCoins c k). Qed.

Lemma open_coins_spec c k :
  cache_ok c ->
  let '(c', e) := open_coins c k in
  cs_ok (ca_base c') /\ cacheCoins c' = cacheCoins c /\
  (forall k', cs_core (ca_base c') k' = cs_core (ca_base c) k') /\
  core (e_coins e) = shown c k /\ e_dirty e = true /\ (e_fresh e = true -> cs_core (ca_base c) k = None).
Proof.
  intros [Hb Hf Hc]. unfold open_coins, shown. destruct (cacheCoins c !! k) as [e|] eqn:Ek.
  { cbn. repeat (split; [done|]). by apply Hf. }
  pose proof (cs_get_core (ca_base c) k Hb) as Hcore. pose proof (cs_get_ok (ca_base c) k Hb) as Hok.
  pose proof (fun k' => cs_get_same (ca_base c) k k' Hb) as Hsame.
  destruct (cs_get (ca_base c) k) as [s o]. cbn [fst snd cacheCoins ca_base] in *. split; [done|]. split; [done|]. split; [done|].
  destruct o as [x|]; cbn in *; (split; [done|]); (split; [done|]); intros Hfr; [|done].
  apply core_pruned in Hfr. congruence.
Qed.

(** Writing an entry back. *)
Lemma close_coins_spec c k e :
  cs_ok (ca_base c) -> fresh_ok (cs_core (ca_base c)) (delete k (cacheCoins c)) ->
  (forall k' e', delete k (cacheCoins c) !! k' = Some e' -> e_dirty e' = false -> core (e_coins e') = cs_core (ca_base c) k') ->
  e_dirty e = true -> (e_fresh e = true -> cs_core (ca_base c) k = None) ->
  cache_ok (close_coins c k e) /\ ca_base (close_coins c k e) = ca_base c /\
  forall k', shown (close_coins c k e) k' = if decide (k = k') then core (e_coins e) else shown c k'.
Proof.
  intros Hb Hf Hc Hd Hfr. unfold close_coins; cbn [e_coins e_dirty e_fresh].
  destruct (e_fresh e && IsPruned (Cleanup (e_coins e))) eqn:E.
  - apply andb_true_iff in E as [Ef Ep]. split; [by split|]. split; [done|]. intros k'. unfold shown; cbn [cacheCoins ca_base].
    rewrite lookup_delete. case_decide as E; [|done]. subst k'. rewrite Hfr by done.
    rewrite IsPruned_Cleanup in Ep. symmetry. by apply core_pruned.
  - split; [split; cbn [cacheCoins ca_base]|].
    + done.
    + intros k' e' Hk'. rewrite lookup_insert in Hk'. case_decide as Ek; [injection Hk' as <-; cbn; subst k'; done|].
      apply (Hf k'). by rewrite lookup_delete_ne.
    + intros k' e' Hk' Hd'. rewrite lookup_insert in Hk'. case_decide as Ek; [injection Hk' as <-; cbn in Hd'; congruence|].
      apply (Hc k'); [by rewrite lookup_delete_ne|done].
    + split; [done|]. intros k'. unfold shown; cbn [cacheCoins ca_base]. rewrite lookup_insert. case_decide; [|done].
      cbn. apply core_Cleanup.
Qed.

Lemma delete_fresh_ok show (m : CCoinsMap) k : fresh_ok show m -> fresh_ok show (delete k m).
Proof. intros H k' e Hk. apply lookup_delete_Some in Hk as [_ Hk]. by apply H. Qed.

Lemma ModifyCoins_spec {A} c k (f : CCoins -> CCoins * A) :
  cache_ok c ->
  exists x c' a, ModifyCoins c k f = (c', a) /\ core x = shown c k /\ (f x).2 = a /\ cache_ok c' /\
    (forall k', shown c' k' = if decide (k = k') then core (f x).1 else shown c k') /\
    (forall k', cs_core (ca_base c') k' = cs_core (ca_base c) k').
Proof.
  intros Hok. unfold ModifyCoins. pose proof (open_coins_spec c k Hok) as Ho. destruct (open_coins c k) as [c1 e].
  destruct Ho as (Hb & Hm & Hsame & Hcore & Hd & Hfr). destruct (f (e_coins e)) as [x a] eqn:Ef.
  destruct (close_coins_spec c1 k (mkEntry x (e_dirty e) (e_fresh e)) Hb) as (Hok' & Hbase & Hsh).
  - apply delete_fresh_ok. rewrite Hm. intros k' e' Hk' Hf'. rewrite Hsame. by apply (ok_fresh c Hok k' e').
  - intros k' e' Hk' Hd'. apply lookup_delete_Some in Hk' as [_ Hk']. rewrite Hm in Hk'. rewrite Hsame. by apply (ok_clean c Hok).
  - done.
  - cbn. rewrite Hsame. done.
  - exists (e_coins e), (close_coins c1 k (mkEntry x (e_dirty e) (e_fresh e))), a. rewrite Ef. cbn [fst snd].
    repeat (split; [done|]). split.
    + intros k'. rewrite Hsh. case_decide; [done|]. unfold shown. by rewrite Hm, Hsame.
    + intros k'. by rewrite Hbase.
Qed.

Lemma ModifyNewCoins_spec c k coinbase x :
  cache_ok c -> (coinbase = false -> cs_core (ca_base c) k = None) ->
  cache_ok (ModifyNewCoins c k coinbase x) /\
  (forall k', shown (ModifyNewCoins c k coinbase x) k' = if decide (k = k') then core x else shown c k') /\
  ca_base (ModifyNewCoins c k coinbase x) = ca_base c.
Proof.
  intros Hok Hnew. unfold ModifyNewCoins. destruct Hok as [Hb Hf Hc].
  set (fresh := if coinbase then _ else true).
  destruct (close_coins_spec c k (mkEntry x true fresh) Hb) as (Hok' & Hbase & Hsh).
  - by apply delete_fresh_ok.
  - intros k' e' Hk'. apply lookup_delete_Some in Hk' as [_ Hk']. by apply Hc.
  - done.
  - cbn. unfold fresh. destruct coinbase; [|auto]. destruct (cacheCoins c !! k) as [e|] eqn:E; [by apply Hf|done].
  - done.
Qed.

(** ** [BatchWrite] and [Flush] *)

Definition batch_upd (e : CCoinsCacheEntry) (us : option CCoinsCacheEntry) : option CCoinsCacheEntry :=
  if e_dirty e then
    match us with
    | None => if e_fresh e && IsPruned (e_coins e) then None else Some (mkEntry (e_coins e) true (e_fresh e))
    | Some u => if e_fresh u && IsPruned (e_coins e) then None else Some (mkEntry (e_coins e) true (e_fresh u))
    end
  else us.

Lemma batch_lookup c m k :
  cacheCoins (cs_batch c m) !! k =
    match m !! k with Some e => batch_upd e (cacheCoins c !! k) | None => cacheCoins c !! k end.
Proof.
  unfold cs_batch, cache_store; cbn [cacheCoins]. apply foldl_map_own_key.
  intros t [k0 e] k'. unfold batch_entry, batch_upd. cbn [fst snd].
  destruct (e_dirty e); [|by case_decide]. case_decide as E.
  - subst k'. destruct (t !! k0) as [u|] eqn:Et; (destruct (_ && _); [|by rewrite lookup_insert_eq]);
      [by rewrite lookup_delete_eq|done].
  - destruct (t !! k0) as [u|]; (destruct (_ && _); [|by rewrite lookup_insert_ne]); [by rewrite lookup_delete_ne|done].
Qed.

Lemma batch_shown c m k :
  cache_ok c -> fresh_ok (shown c) m ->
  shown (cs_batch c m) k =
    match m !! k with Some e => if e_dirty e then core (e_coins e) else shown c k | None => shown c k end.
Proof.
  intros [Hb Hf Hc] Hfr. unfold shown. rewrite batch_lookup. change (ca_base (cs_batch c m)) with (ca_base c).
  destruct (m !! k) as [e|] eqn:Em; [|done]. unfold batch_upd. destruct (e_dirty e); [|done].
  destruct (cacheCoins c !! k) as [u|] eqn:Eu.
  - destruct (e_fresh u && IsPruned (e_coins e)) eqn:E; [|done]. apply andb_true_iff in E as [E1 E2].
    rewrite (Hf k u Eu E1). symmetry. by apply core_pruned.
  - destruct (e_fresh e && IsPruned (e_coins e)) eqn:E; [|done]. apply andb_true_iff in E as [E1 E2].
    specialize (Hfr k e Em E1). unfold shown in Hfr. rewrite Eu in Hfr. rewrite Hfr. symmetry. by apply core_pruned.
Qed.

Lemma batch_ok c m : cache_ok c -> fresh_ok (shown c) m -> cache_ok (cs_batch c m).
Proof.
  intros [Hb Hf Hc] Hfr. split; change (ca_base (cs_batch c m)) with (ca_base c); [done| |].
  - intros k e. rewrite batch_lookup. destruct (m !! k) as [x|] eqn:Em; [|apply Hf]. unfold batch_upd.
    destruct (e_dirty x); [|apply Hf]. destruct (cacheCoins c !! k) as [u|] eqn:Eu.
    + destruct (_ && _); [done|]. intros [= <-] Hu. cbn in Hu. by apply (Hf k u).
    + destruct (_ && _); [done|]. intros [= <-] Hx. cbn in Hx. specialize (Hfr k x Em Hx). unfold shown in Hfr. by rewrite Eu in Hfr.
  - intros k e. rewrite batch_lookup. destruct (m !! k) as [x|] eqn:Em; [|apply Hc]. unfold batch_upd.
    destruct (e_dirty x); [|apply Hc]. destruct (cacheCoins c !! k); (destruct (_ && _); [done|]); intros [= <-]; done.
Qed.

#[global] Program Instance cache_laws : CoinLaws (CoinsCache S) := {
  cs_ok := cache_ok;
  cs_core := shown
}.
Next Obligation. intros c k Hok. pose proof (GetCoins_spec c k Hok) as H. unfold cs_get, cache_store. destruct (GetCoins c k). apply H. Qed.
Next Obligation. intros c k Hok. pose proof (GetCoins_spec c k Hok) as H. unfold cs_get, cache_store. destruct (GetCoins c k). apply H. Qed.
Next Obligation. intros c k k' Hok. pose proof (GetCoins_spec c k Hok) as H. unfold cs_get, cache_store. destruct (GetCoins c k). apply H. Qed.
Next Obligation. intros c m. apply batch_ok. Qed.
Next Obligation. intros c m k. apply batch_shown. Qed.

Lemma Flush_spec c :
  cache_ok c ->
  cache_ok (Flush c) /\ (forall k, shown (Flush c) k = shown c k) /\
  (forall k, cs_core (ca_base (Flush c)) k = shown c k).
Proof.
  intros [Hb Hf Hc]. unfold Flush.
  assert (forall k, cs_core (cs_batch (ca_base c) (cacheCoins c)) k = shown c k) as Hcore.
  { intros k. rewrite cs_batch_core by done. unfold shown. destruct (cacheCoins c !! k) as [e|] eqn:Ek; [|done].
    destruct (e_dirty e) eqn:Ed; [done|]. symmetry. by apply Hc. }
  split; [split; cbn [cacheCoins ca_base]|split].
  - by apply cs_batch_ok.
  - by intros k e.
  - by intros k e.
  - intros k. unfold shown at 1; cbn [cacheCoins ca_base]. by rewrite lookup_empty.
  - done.
Qed.

Lemma Uncache_spec c k : cache_ok c -> cache_ok (Uncache c k) /\ forall k', shown (Uncache c k) k' = shown c k'.
Proof.
  intros [Hb Hf Hc]. unfold Uncache. destruct (cacheCoins c !! k) as [e|] eqn:Ek; [|done].
  destruct (e_dirty e) eqn:Ed; [done|]. destruct (e_fresh e); [done|]. cbn [negb andb]. split; [split; cbn [cacheCoins ca_base]|].
  - done.
  - by apply delete_fresh_ok.
  - intros k' e' Hk'. apply lookup_delete_Some in Hk' as [_ Hk']. by apply Hc.
  - intros k'. unfold shown; cbn [cacheCoins ca_base]. rewrite lookup_delete. case_decide as E; [|done]. subst k'.
    rewrite Ek. symmetry. by apply Hc.
Qed.
End laws.

(** ** The set of unspent outputs *)

Abbreviation utxo := (uint256 -> option Core).

Definition u_set (u : utxo) (k : uint256) (x : option Core) : utxo := fun k' => if decide (k = k') then x else u k'.

(** Spending the output [n] of [k]: the undo data has the fields of the
    transaction only when it was the last output. *)
Definition u_spend (acc : utxo * list CTxInUndo) (prevout : COutPoint) : option (utxo * list CTxInUndo) :=
  let '(u, undo) := acc in
  let k := prevout_hash prevout in
  let n := Z.to_nat (prevout_n prevout) in
  do x <- u k;
  do out <- k_outs x !! n;
  let rest := core_of (k_fCoinBase x) (delete n (k_outs x)) (k_nHeight x) (k_nVersion x) in
  Some (u_set u k rest,
        undo ++ [match rest with
                 | None => mkUndo out (k_fCoinBase x) (u32 (k_nHeight x)) (k_nVersion x)
                 | Some _ => mkUndo out false 0 0
                 end]).

Definition u_update (tx : CoinTx) (u : utxo) (height : Z) : option (utxo * list CTxInUndo) :=
  do '(u, undo) <- (if ct_IsCoinBase tx then Some (u, []) else foldM u_spend (u, []) (ct_vin tx));
  Some (u_set u (ct_hash tx) (core (FromTx tx height)), undo).

Definition u_restore (u : utxo) (x : COutPoint * CTxInUndo) : utxo :=
  let '(prevout, undo) := x in
  let k := prevout_hash prevout in
  let n := Z.to_nat (prevout_n prevout) in
  u_set u k
    (if negb (un_nHeight undo =? 0)
     then Some (mkCore (un_fCoinBase undo) {[n := un_txout undo]} (i32 (un_nHeight undo)) (un_nVersion undo))
     else match u k with
          | Some x => Some (mkCore (k_fCoinBase x) (<[n := un_txout undo]> (k_outs x)) (k_nHeight x) (k_nVersion x))
          | None => None
          end).

Definition u_disconnect (u : utxo) (tx : CoinTx) (undo : list CTxInUndo) : utxo :=
  foldl u_restore (u_set u (ct_hash tx) None) (rev (combine (ct_vin tx) undo)).

(** Two sets of outputs are the same when they agree on every transaction. *)
Definition u_eq (u v : utxo) : Prop := forall k, u k = v k.
#[global] Instance u_eq_equivalence : Equivalence u_eq.
Proof. split; [by intros u k|by intros u v H k; rewrite H|by intros u v w H1 H2 k; rewrite H1, H2]. Qed.

Infix "≡ᵤ" := u_eq (at level 70).

Lemma u_set_eq k x u v : u ≡ᵤ v -> u_set u k x ≡ᵤ u_set v k x.
Proof. intros H k'. unfold u_set. by case_decide. Qed.

#[global] Instance u_restore_proper : Proper (u_eq ==> eq ==> u_eq) u_restore.
Proof. intros u v H [p un] ? <-. unfold u_restore. rewrite (H (prevout_hash p)). by apply u_set_eq. Qed.

#[global] Instance u_restores_proper : Proper (u_eq ==> eq ==> u_eq) (foldl u_restore).
Proof.
  intros u v H l ? <-. revert u v H; induction l as [|x l IH]; intros u v H; [done|]. cbn [foldl]. apply IH. by rewrite H.
Qed.

(** What holds of the outputs a cache shows, with known heights. *)
Record u_wf (u : utxo) : Prop := {
  uw_nonempty : forall k x, u k = Some x -> k_outs x <> ∅;
  uw_available : forall k x n o, u k = Some x -> k_outs x !! n = Some o -> out_IsNull o = false;
  uw_height : forall k x, u k = Some x -> 0 < k_nHeight x < 2 ^ 31
}.

Lemma core_of_Some cb outs h v x : core_of cb outs h v = Some x -> outs <> ∅ /\ x = mkCore cb outs h v.
Proof. unfold core_of. case_decide; [done|]. by intros [= <-]. Qed.

Lemma core_available c x n o : core c = Some x -> k_outs x !! n = Some o -> out_IsNull o = false.
Proof.
  intros Hc Ho. apply core_of_Some in Hc as [_ ->]. cbn in Ho. rewrite outs_of_lookup in Ho.
  destruct (vout c !! n) as [o'|]; [|done]. cbn in Ho. unfold available in Ho. destruct (out_IsNull o') eqn:E; [done|]. congruence.
Qed.

(** ** Spending and restoring *)

Lemma u_spend_inv u l p u' l' :
  u_spend (u, l) p = Some (u', l') ->
  exists x out un, u (prevout_hash p) = Some x /\ k_outs x !! Z.to_nat (prevout_n p) = Some out /\ l' = l ++ [un] /\
    un_txout un = out /\
    u' = u_set u (prevout_hash p) (core_of (k_fCoinBase x) (delete (Z.to_nat (prevout_n p)) (k_outs x)) (k_nHeight x) (k_nVersion x)) /\
    un = match core_of (k_fCoinBase x) (delete (Z.to_nat (prevout_n p)) (k_outs x)) (k_nHeight x) (k_nVersion x) with
         | None => mkUndo out (k_fCoinBase x) (u32 (k_nHeight x)) (k_nVersion x)
         | Some _ => mkUndo out false 0 0
         end.
Proof.
  unfold u_spend. destruct (u (prevout_hash p)) as [x|]; cbn [mbind option_bind]; [|done].
  destruct (k_outs x !! Z.to_nat (prevout_n p)) as [out|] eqn:Eo; cbn [mbind option_bind]; [|done]. intros [= <- <-].
  eexists x, out, _. split; [done|]. split; [done|]. split; [done|]. split; [by case_match|]. done.
Qed.

Lemma u_spend_wf u l p u' l' : u_wf u -> u_spend (u, l) p = Some (u', l') -> u_wf u'.
Proof.
  intros [H1 H2 H3] Hs. apply u_spend_inv in Hs as (x & out & un & Hx & Ho & _ & _ & -> & _).
  split; unfold u_set; intros k y; case_decide as E; subst; intros.
  - apply core_of_Some in H as [? ->]. done.
  - by apply (H1 k).
  - apply core_of_Some in H as [_ ->]. cbn in *. apply lookup_delete_Some in H0 as [_ H0]. by apply (H2 (prevout_hash p) x n).
  - by apply (H2 k y n).
  - apply core_of_Some in H as [_ ->]. cbn. by apply (H3 (prevout_hash p) x).
  - by apply (H3 k y).
Qed.

Lemma u_spend_restore u l p u' un :
  u_wf u -> u_spend (u, l) p = Some (u', l ++ [un]) -> u_restore u' (p, un) ≡ᵤ u.
Proof.
  intros [H1 H2 H3] Hs. apply u_spend_inv in Hs as (x & out & un' & Hx & Ho & Hl & Hout & -> & Hun).
  apply app_inj_tail in Hl as [_ ->]. intros k. unfold u_restore, u_set at 1. case_decide as E; [|unfold u_set; by rewrite decide_False].
  subst k. rewrite Hx, Hout. unfold u_set. rewrite decide_True by done. specialize (H3 _ _ Hx).
  destruct (core_of _ _ _ _) as [r|] eqn:Er; rewrite Hun; cbn [un_nHeight un_fCoinBase un_nVersion].
  - cbn. apply core_of_Some in Er as [_ ->]. cbn. rewrite insert_delete_id by done. by destruct x.
  - rewrite u32_small by lia. rewrite (proj2 (Z.eqb_neq _ _)) by lia. cbn [negb]. rewrite i32_small by lia.
    unfold core_of in Er. case_decide as Ed; [|done]. f_equal. destruct x as [cb outs h v]; cbn in *. f_equal.
    rewrite <- (insert_delete_id outs _ _ Ho), Ed. done.
Qed.

(** The undo data grows at the end. *)
Lemma u_spends_undo vin u l u' l' : foldM u_spend (u, l) vin = Some (u', l') -> exists t, l' = l ++ t.
Proof.
  revert u l; induction vin as [|p vin IH]; intros u l H; cbn [foldM] in H;
    [injection H as _ <-; exists []; by rewrite app_nil_r|].
  destruct (u_spend (u, l) p) as [[u1 l1]|] eqn:E; cbn [mbind option_bind] in H; [|done].
  apply u_spend_inv in E as (_ & _ & un & _ & _ & -> & _). apply IH in H as [t ->]. exists (un :: t). by rewrite <- app_assoc.
Qed.

Lemma u_spends_restore vin u l u' undo :
  u_wf u -> foldM u_spend (u, l) vin = Some (u', l ++ undo) ->
  foldl u_restore u' (rev (combine vin undo)) ≡ᵤ u /\ u_wf u' /\ length undo = length vin /\
  (forall k, u k = None -> u' k = None).
Proof.
  revert u l undo; induction vin as [|p vin IH]; intros u l undo Hwf Hf; cbn [foldM] in Hf.
  { injection Hf as <- Hu. rewrite <- (app_nil_r l) in Hu at 1. apply app_inv_head in Hu as <-. done. }
  destruct (u_spend (u, l) p) as [[u1 l1]|] eqn:Es; cbn [mbind option_bind] in Hf; [|done].
  pose proof (u_spend_inv _ _ _ _ _ Es) as (x & out & un & Hx & _ & -> & _ & Hu1 & _).
  assert (exists undo', undo = un :: undo') as [undo' ->].
  { destruct (u_spends_undo _ _ _ _ _ Hf) as [t Ht]. rewrite <- app_assoc in Ht. apply app_inv_head in Ht. by exists t. }
  replace (l ++ un :: undo') with ((l ++ [un]) ++ undo') in Hf by (by rewrite <- app_assoc).
  destruct (IH u1 (l ++ [un]) undo' (u_spend_wf _ _ _ _ _ Hwf Es) Hf) as (Hr & Hwf' & Hlen & Hnone).
  split; [|split; [done|]; split; [cbn; lia|]].
  - cbn [combine rev]. rewrite foldl_app. cbn [foldl]. rewrite Hr. by apply (u_spend_restore u l).
  - intros k Hk. apply Hnone. rewrite Hu1. unfold u_set. case_decide; [congruence|done].
Qed.

Lemma u_update_disconnect tx u height u' undo :
  u_wf u -> 0 < height < 2 ^ 31 -> u (ct_hash tx) = None -> u_update tx u height = Some (u', undo) ->
  u_disconnect u' tx undo ≡ᵤ u /\ u_wf u' /\ (ct_IsCoinBase tx = false -> length undo = length (ct_vin tx)) /\
  (forall k, k <> ct_hash tx -> u k = None -> u' k = None).
Proof.
  intros Hwf Hh Hnew Hu. unfold u_update in Hu.
  assert (exists u1, (ct_IsCoinBase tx = false -> length undo = length (ct_vin tx)) /\
    foldl u_restore u1 (rev (combine (ct_vin tx) undo)) ≡ᵤ u /\ u_wf u1 /\ (forall k, u k = None -> u1 k = None) /\
    u' = u_set u1 (ct_hash tx) (core (FromTx tx height))) as (u1 & Hlen & Hr & Hwf1 & Hnone & ->).
  { destruct (ct_IsCoinBase tx); cbn [mbind option_bind] in Hu.
    - injection Hu as <- <-. exists u. replace (combine (ct_vin tx) (@nil CTxInUndo)) with (@nil (COutPoint * CTxInUndo)) by (by destruct (ct_vin tx)).
      done.
    - destruct (foldM u_spend (u, []) (ct_vin tx)) as [[u1 l]|] eqn:Ef; cbn [mbind option_bind] in Hu; [|done].
      injection Hu as <- <-. destruct (u_spends_restore (ct_vin tx) u [] u1 l Hwf Ef) as (Hr & Hwf1 & Hlen & Hnone).
      by exists u1. }
  split; [|split; [|split; [done|]]].
  - unfold u_disconnect. rewrite <- Hr. assert (u_set (u_set u1 (ct_hash tx) (core (FromTx tx height))) (ct_hash tx) None ≡ᵤ u1) as ->.
    { intros k. unfold u_set. case_decide; [subst k; symmetry; by apply Hnone|done]. }
    done.
  - destruct Hwf1 as [W1 W2 W3]. split; unfold u_set; intros k x; case_decide as E; subst; intros.
    + by apply core_of_Some in H as [? ->].
    + by apply (W1 k).
    + by apply (core_available _ _ _ _ H H0).
    + by apply (W2 k x n).
    + apply core_of_Some in H as [_ ->]. done.
    + by apply (W3 k x).
  - intros k Hk Hn. unfold u_set. rewrite decide_False by done. by apply Hnone.
Qed.

(** ** The cache implements the set of outputs *)

Section refine.
Context {S : Type} `{!CoinStore S, !CoinLaws S}.
Implicit Types (c : CoinsCache S).

(** The cache is in order, shows [u], and its base shows [b]. *)
Record implements c (u b : utxo) : Prop := {
  im_ok : cache_ok c;
  im_shown : shown c ≡ᵤ u;
  im_base : cs_core (ca_base c) ≡ᵤ b
}.

Lemma IsAvailable_core x n :
  IsAvailable x n = match core x with Some X => bool_decide (is_Some (k_outs X !! Z.to_nat n)) | None => false end.
Proof.
  assert (IsAvailable x n = bool_decide (is_Some (outs_of (vout x) !! Z.to_nat n))) as ->.
  { unfold IsAvailable. rewrite outs_of_lookup. destruct (vout x !! Z.to_nat n) as [o|]; cbn.
    - unfold available. by destruct (out_IsNull o).
    - done. }
  unfold core, core_of. case_decide as E; [|done]. by rewrite E, lookup_empty.
Qed.

Lemma spend_input_refines c u b l p :
  implements c u b ->
  match u_spend (u, l) p with
  | Some (u', l') => exists c', spend_input (c, l) p = Some (c', l') /\ implements c' u' b
  | None => spend_input (c, l) p = None
  end.
Proof.
  intros [Hok Hsh Hb]. unfold spend_input, u_spend.
  set (f := fun coins => if IsAvailable coins (prevout_n p) then _ else (coins, None)).
  destruct (ModifyCoins_spec c (prevout_hash p) f Hok) as (x & c' & a & -> & Hx & <- & Hok' & Hsh' & Hb').
  rewrite Hsh in Hx. rewrite <- Hx. unfold f. rewrite IsAvailable_core.
  destruct (core x) as [X|] eqn:EX; cbn [mbind option_bind]; [|done].
  pose proof EX as EX'. apply core_of_Some in EX' as [Hne ->]. cbn [k_outs k_fCoinBase k_nHeight k_nVersion].
  destruct (outs_of (vout x) !! Z.to_nat (prevout_n p)) as [out|] eqn:Eo; cbn [mbind option_bind]; [|done].
  rewrite bool_decide_true by done. pose proof Eo as Ev. rewrite outs_of_lookup in Ev.
  destruct (vout x !! Z.to_nat (prevout_n p)) as [o|] eqn:El; [|done]. cbn in Ev. unfold available in Ev.
  destruct (out_IsNull o); [done|]. injection Ev as ->. unfold Spend. rewrite IsAvailable_core, EX. cbn [k_outs].
  rewrite Eo, bool_decide_true by done. cbn [fst snd mbind option_bind].
  set (y := Cleanup (set_vout x (<[Z.to_nat (prevout_n p) := null_out]> (vout x)))).
  assert (core y = core_of (fCoinBase x) (delete (Z.to_nat (prevout_n p)) (outs_of (vout x))) (co_nHeight x) (co_nVersion x)) as Hy.
  { unfold y. rewrite core_Cleanup. unfold core, set_vout; cbn [fCoinBase vout co_nHeight co_nVersion]. by rewrite outs_of_spend. }
  exists c'. split.
  - f_equal. f_equal. f_equal. f_equal.
    assert (is_empty (vout y) = bool_decide (delete (Z.to_nat (prevout_n p)) (outs_of (vout x)) = ∅)) as ->.
    { rewrite <- outs_of_spend. apply eq_true_iff_eq. rewrite bool_decide_eq_true, cleanup_empty.
      unfold y, Cleanup, set_vout; cbn [vout]. by destruct (cleanup _). }
    unfold core_of. case_decide; [by rewrite bool_decide_true|by rewrite bool_decide_false].
  - split; [done| |by intros k; rewrite Hb'].
    intros k. rewrite Hsh'. unfold u_set. case_decide; [|by rewrite Hsh]. unfold f. rewrite IsAvailable_core, EX. cbn [k_outs].
    rewrite Eo, bool_decide_true, El by done. unfold Spend. rewrite IsAvailable_core, EX. cbn [k_outs].
    rewrite Eo, bool_decide_true by done. exact Hy.
Qed.

Lemma spend_inputs_refines c u b l vin :
  implements c u b ->
  match foldM u_spend (u, l) vin with
  | Some (u', l') => exists c', foldM spend_input (c, l) vin = Some (c', l') /\ implements c' u' b
  | None => foldM spend_input (c, l) vin = None
  end.
Proof.
  revert c u l; induction vin as [|p vin IH]; intros c u l Him; cbn [foldM]; [by exists c|].
  pose proof (spend_input_refines c u b l p Him) as Hs. destruct (u_spend (u, l) p) as [[u1 l1]|]; cbn [mbind option_bind].
  - destruct Hs as (c1 & -> & Him1). cbn [mbind option_bind]. by apply IH.
  - by rewrite Hs.
Qed.

Lemma UpdateCoins_spec c u b tx height :
  implements c u b -> (ct_IsCoinBase tx = false -> b (ct_hash tx) = None) ->
  match u_update tx u height with
  | Some (u', undo) => exists c', UpdateCoins tx c height = Some (c', undo) /\ implements c' u' b
  | None => UpdateCoins tx c height = None
  end.
Proof.
  intros Him Hnew. unfold UpdateCoins, u_update.
  assert (forall c1 u1, implements c1 u1 b ->
    implements (ModifyNewCoins c1 (ct_hash tx) (ct_IsCoinBase tx) (FromTx tx height)) (u_set u1 (ct_hash tx) (core (FromTx tx height))) b) as Hadd.
  { intros c1 u1 [Hok1 Hsh1 Hb1]. destruct (ModifyNewCoins_spec c1 (ct_hash tx) (ct_IsCoinBase tx) (FromTx tx height) Hok1) as (H1 & H2 & H3).
    { intros E. rewrite Hb1. by apply Hnew. }
    split; [done| |by rewrite H3]. intros k. rewrite H2. unfold u_set. case_decide; [done|apply Hsh1]. }
  destruct (ct_IsCoinBase tx) eqn:Ecb; cbn [mbind option_bind].
  - eexists. split; [done|]. by apply Hadd.
  - pose proof (spend_inputs_refines c u b [] (ct_vin tx) Him) as Hs.
    destruct (foldM u_spend (u, []) (ct_vin tx)) as [[u1 l1]|]; cbn [mbind option_bind].
    + destruct Hs as (c1 & -> & Him1). cbn [mbind option_bind]. eexists. split; [done|]. by apply Hadd.
    + by rewrite Hs.
Qed.

Lemma ApplyTxInUndo_spec c u b un p :
  implements c u b -> out_IsNull (un_txout un) = false -> (un_nHeight un = 0 -> u (prevout_hash p) <> None) ->
  exists c' f, ApplyTxInUndo un c p = (c', f) /\ implements c' (u_restore u (p, un)) b.
Proof.
  intros [Hok Hsh Hb] Hout Hun. unfold ApplyTxInUndo.
  destruct (ModifyCoins_spec c (prevout_hash p) (undo_coins un (prevout_n p)) Hok) as (x & c' & a & -> & Hx & <- & Hok' & Hsh' & Hb').
  exists c', (undo_coins un (prevout_n p) x).2. split; [done|]. split; [done| |by intros k; rewrite Hb'].
  intros k. rewrite Hsh'. unfold u_restore, u_set. case_decide; [|by rewrite Hsh]. rewrite Hsh in Hx.
  set (n := Z.to_nat (prevout_n p)).
  assert (forall l o, out_IsNull o = false ->
    outs_of (<[n := o]> (if (length l <? n + 1)%nat then resize_null l (n + 1) else l)) = <[n := o]> (outs_of l)) as Hins.
  { intros l o Ho. destruct (Nat.ltb_spec (length l) (n + 1)).
    - rewrite outs_of_insert, outs_of_resize by (try done; unfold resize_null; rewrite ?length_app, ?length_take, ?length_replicate; lia). done.
    - by rewrite outs_of_insert by (done || lia). }
  unfold undo_coins. destruct (Z.eqb_spec (un_nHeight un) 0) as [E|E]; cbn [negb].
  - cbn [fst]. unfold core, set_vout; cbn [fCoinBase vout co_nHeight co_nVersion]. fold n. rewrite Hins by done.
    destruct (u (prevout_hash p)) as [X|] eqn:EX; [|by destruct (Hun E)].
    apply core_of_Some in Hx as [_ ->]. cbn. unfold core_of. rewrite decide_False by apply insert_non_empty. done.
  - cbn [fst]. unfold core, set_vout; cbn [fCoinBase vout co_nHeight co_nVersion]. fold n. rewrite Hins by done.
    unfold core_of. rewrite decide_False by apply insert_non_empty. done.
Qed.

Lemma implements_eq c u v b : u ≡ᵤ v -> implements c u b -> implements c v b.
Proof. intros E [H1 H2 H3]. split; [done|by rewrite H2|done]. Qed.

Lemma restore_inputs_refines vin c u l u' b undo fClean :
  u_wf u -> foldM u_spend (u, l) vin = Some (u', l ++ undo) -> implements c u' b ->
  exists c' f, restore_inputs c fClean (combine vin undo) = (c', f) /\ implements c' u b.
Proof.
  revert u l undo; induction vin as [|p vin IH]; intros u l undo Hwf Hf Him.
  { cbn [foldM] in Hf. injection Hf as <- _. exists c, fClean. done. }
  pose proof (u_spends_restore (p :: vin) u l u' undo Hwf Hf) as (_ & _ & Hlen & _).
  destruct undo as [|un undo]; [done|]. cbn [foldM] in Hf.
  destruct (u_spend (u, l) p) as [[u1 l1]|] eqn:Es; cbn [mbind option_bind] in Hf; [|done].
  pose proof (u_spend_inv _ _ _ _ _ Es) as (x & out & un' & Hx & Ho & -> & Hout & Hu1 & Hun).
  assert (un' = un) as ->.
  { destruct (u_spends_undo _ _ _ _ _ Hf) as [t Ht]. rewrite <- app_assoc in Ht. apply app_inv_head in Ht. by injection Ht. }
  replace (l ++ un :: undo) with ((l ++ [un]) ++ undo) in Hf by (by rewrite <- app_assoc).
  destruct (IH u1 (l ++ [un]) undo (u_spend_wf _ _ _ _ _ Hwf Es) Hf Him) as (c1 & f1 & Hc1 & Him1).
  destruct (ApplyTxInUndo_spec c1 u1 b un p Him1) as (c2 & f2 & Hc2 & Him2).
  { rewrite Hout. by apply (uw_available u Hwf (prevout_hash p) x (Z.to_nat (prevout_n p))). }
  { intros Hz. rewrite Hu1. unfold u_set. rewrite decide_True by done. intros E. rewrite E in Hun. rewrite Hun in Hz.
    cbn [un_nHeight] in Hz. pose proof (uw_height u Hwf _ x Hx). rewrite u32_small in Hz by lia. lia. }
  exists c2, (f1 && f2). split.
  - unfold restore_inputs. cbn [combine rev]. rewrite foldl_app. unfold restore_inputs in Hc1. rewrite Hc1. cbn [foldl].
    by rewrite Hc2.
  - eapply implements_eq; [|exact Him2]. by apply (u_spend_restore u l).
Qed.

Lemma remove_outputs_spec c u b tx height :
  implements c u b -> exists c' f, remove_outputs tx c height = (c', f) /\ implements c' (u_set u (ct_hash tx) None) b.
Proof.
  intros [Hok Hsh Hb]. unfold remove_outputs. set (f := fun outs : CCoins => _).
  destruct (ModifyCoins_spec c (ct_hash tx) f Hok) as (x & c' & a & -> & _ & <- & Hok' & Hsh' & Hb').
  exists c', (f x).2. split; [done|]. split; [done| |by intros k; rewrite Hb'].
  intros k. rewrite Hsh'. unfold u_set. case_decide; [done|apply Hsh].
Qed.

(** Connecting and disconnecting one transaction. *)
Lemma tx_roundtrip c c1 u u' b tx height undo fClean :
  u_wf u -> 0 < height < 2 ^ 31 -> u (ct_hash tx) = None -> u_update tx u height = Some (u', undo) ->
  implements c1 u' b ->
  exists c2 f, disconnect_tx (c1, fClean) (tx, height, if ct_IsCoinBase tx then None else Some undo) = Some (c2, f) /\
    implements c2 u b.
Proof.
  intros Hwf Hh Hnew Hu Him. destruct (u_update_disconnect tx u height u' undo Hwf Hh Hnew Hu) as (_ & _ & Hlen & _).
  unfold disconnect_tx. destruct (remove_outputs_spec c1 u' b tx height Him) as (c2 & f & -> & Him2).
  unfold u_update in Hu. destruct (ct_IsCoinBase tx); cbn [mbind option_bind] in Hu.
  - injection Hu as <- <-. eexists _, _. split; [done|]. eapply implements_eq; [|exact Him2].
    intros k. unfold u_set. case_decide; [by subst k|done].
  - rewrite Hlen, Nat.eqb_refl by done. cbn [negb].
    destruct (foldM u_spend (u, []) (ct_vin tx)) as [[u1 l]|] eqn:Ef; cbn [mbind option_bind] in Hu; [|done].
    injection Hu as <- <-. destruct (u_spends_restore (ct_vin tx) u [] u1 l Hwf Ef) as (_ & _ & _ & Hnone).
    destruct (restore_inputs_refines (ct_vin tx) c2 u [] u1 b l (fClean && f) Hwf Ef) as (c3 & f3 & -> & Him3).
    + eapply implements_eq; [|exact Him2]. intros k. unfold u_set. case_decide; [subst k; symmetry; by apply Hnone|done].
    + by exists c3, f3.
Qed.

(** The transactions of a block are new, and only the first one is a coinbase. *)
Definition new_txs (u b : utxo) (txs : list CoinTx) : Prop :=
  NoDup (map ct_hash txs) /\ Forall (fun tx => u (ct_hash tx) = None /\ b (ct_hash tx) = None) txs.

Definition mark_undo (txs : list CoinTx) (height : Z) (undos : list (list CTxInUndo)) :=
  map (fun '(tx, undo) => (tx, height, if ct_IsCoinBase tx then None else Some undo)) (combine txs undos).

Lemma connect_coins_roundtrip txs c c' u b height undos :
  implements c u b -> u_wf u -> 0 < height < 2 ^ 31 -> new_txs u b txs ->
  connect_coins txs height c = Some (c', undos) ->
  length undos = length txs /\
  exists u', implements c' u' b /\
    forall c1 fClean, implements c1 u' b ->
      exists c2 f, foldM disconnect_tx (c1, fClean) (rev (mark_undo txs height undos)) = Some (c2, f) /\ implements c2 u b.
Proof.
  revert c u undos; induction txs as [|tx txs IH]; intros c u undos Him Hwf Hh [Hnd Hnew] Hc; cbn [connect_coins] in Hc.
  { injection Hc as <- <-. split; [done|]. exists u. split; [done|]. intros c1 f Him1. by exists c1, f. }
  apply Forall_cons in Hnew as [[Hu Hb] Hnew]. cbn [map] in Hnd. apply NoDup_cons in Hnd as [Hnin Hnd].
  pose proof (UpdateCoins_spec c u b tx height Him ltac:(done)) as Hup.
  destruct (u_update tx u height) as [[u1 undo]|] eqn:Eu; [|by rewrite Hup in Hc].
  destruct Hup as (c1 & E1 & Him1). rewrite E1 in Hc. cbn [mbind option_bind] in Hc.
  destruct (u_update_disconnect tx u height u1 undo Hwf Hh Hu Eu) as (_ & Hwf1 & _ & Hkeep).
  destruct (connect_coins txs height c1) as [[c2 us]|] eqn:E2; cbn [mbind option_bind] in Hc; [|done]. injection Hc as <- <-.
  destruct (IH c1 u1 us Him1 Hwf1 Hh) as (Hlen & u2 & Him2 & Hdis); [|done|].
  { split; [done|]. apply Forall_forall. intros y Hy. rewrite Forall_forall in Hnew. destruct (Hnew y Hy) as [H1 H2].
    split; [|done]. apply Hkeep; [|done]. intros E. apply Hnin. rewrite <- E. apply list_elem_of_In, in_map, list_elem_of_In, Hy. }
  split; [cbn; lia|]. exists u2. split; [done|]. intros c3 f3 Him3.
  destruct (Hdis c3 f3 Him3) as (c4 & f4 & Hf4 & Him4).
  destruct (tx_roundtrip c c4 u u1 b tx height undo f4 Hwf Hh Hu Eu Him4) as (c5 & f5 & H5 & Him5).
  exists c5, f5. split; [|done]. unfold mark_undo in *. cbn [combine map rev]. rewrite foldM_app, Hf4. cbn [mbind option_bind foldM].
  by rewrite H5.
Qed.

(** ** Inputs *)

Definition u_available (u : utxo) (p : COutPoint) : bool :=
  match u (prevout_hash p) with
  | Some x => bool_decide (is_Some (k_outs x !! Z.to_nat (prevout_n p)))
  | None => false
  end.

Definition same_place (p : COutPoint) : uint256 * nat := (prevout_hash p, Z.to_nat (prevout_n p)).

Lemma u_spends_total vin u l :
  NoDup (map same_place vin) -> forallb (u_available u) vin = true -> is_Some (foldM u_spend (u, l) vin).
Proof.
  revert u l; induction vin as [|p vin IH]; intros u l Hnd Hav; [by eexists|].
  cbn [map] in Hnd. apply NoDup_cons in Hnd as [Hnin Hnd]. cbn [forallb] in Hav. apply andb_true_iff in Hav as [Hp Hav].
  cbn [foldM]. unfold u_available in Hp. destruct (u (prevout_hash p)) as [x|] eqn:Ex; [|done].
  apply bool_decide_eq_true in Hp as [out Ho].
  destruct (u_spend (u, l) p) as [[u1 l1]|] eqn:Es.
  2:{ unfold u_spend in Es. rewrite Ex in Es. cbn [mbind option_bind] in Es. rewrite Ho in Es. done. }
  pose proof (u_spend_inv _ _ _ _ _ Es) as (x' & out0 & un & Hx' & _ & _ & _ & -> & _). rewrite Ex in Hx'. injection Hx' as <-.
  cbn [mbind option_bind]. apply IH; [done|].
  rewrite forallb_forall in Hav |- *. intros q Hq. specialize (Hav q Hq). unfold u_available, u_set in *.
  case_decide as E; [|done]. rewrite <- E in Hav. rewrite Ex in Hav. apply bool_decide_eq_true in Hav as [out' Ho'].
  assert (Z.to_nat (prevout_n p) <> Z.to_nat (prevout_n q)) as Hne.
  { intros En. apply Hnin. apply list_elem_of_In, in_map_iff. exists q. split; [|done]. unfold same_place. by rewrite E, En. }
  assert (delete (Z.to_nat (prevout_n p)) (k_outs x) !! Z.to_nat (prevout_n q) = Some out') as Hd by (by rewrite lookup_delete_ne).
  unfold core_of. rewrite decide_False by (intros E0; by rewrite E0, lookup_empty in Hd). cbn. by rewrite bool_decide_true by (by rewrite Hd).
Qed.

Lemma have_inputs_spec c u b vin :
  implements c u b -> exists c', have_inputs c vin = (c', forallb (u_available u) vin) /\ implements c' u b.
Proof.
  revert c; induction vin as [|p vin IH]; intros c Him; cbn [have_inputs forallb]; [by exists c|].
  pose proof (GetCoins_spec c (prevout_hash p) (im_ok _ _ _ Him)) as Hg.
  destruct (GetCoins c (prevout_hash p)) as [c1 o]. destruct Hg as (Hok1 & Hsh1 & Ho & Hb1).
  assert (implements c1 u b) as Him1.
  { split; [done| |]; intros k; [rewrite Hsh1; apply (im_shown _ _ _ Him)|rewrite Hb1; apply (im_base _ _ _ Him)]. }
  unfold u_available at 1. rewrite (im_shown _ _ _ Him) in Ho. rewrite <- Ho. destruct o as [x|]; cbn [mbind option_bind]; [|by exists c1].
  rewrite <- IsAvailable_core. destruct (IsAvailable x (prevout_n p)); cbn [andb]; [by apply IH|by exists c1].
Qed.

(** The value an input spends. *)
Definition u_value (u : utxo) (p : COutPoint) : option Z :=
  do x <- u (prevout_hash p); do o <- k_outs x !! Z.to_nat (prevout_n p); Some (nValue (out_plain o)).

Lemma GetOutputFor_spec c u b p :
  implements c u b ->
  let '(c', o) := GetOutputFor c p in implements c' u b /\ (fun o => nValue (out_plain o)) <$> o = u_value u p.
Proof.
  intros Him. unfold GetOutputFor, u_value. pose proof (GetCoins_spec c (prevout_hash p) (im_ok _ _ _ Him)) as Hg.
  destruct (GetCoins c (prevout_hash p)) as [c1 o]. destruct Hg as (Hok1 & Hsh1 & Ho & Hb1). split.
  { split; [done| |]; intros k; [rewrite Hsh1; apply (im_shown _ _ _ Him)|rewrite Hb1; apply (im_base _ _ _ Him)]. }
  rewrite (im_shown _ _ _ Him) in Ho. rewrite <- Ho. destruct o as [x|]; [|done]. cbn [mbind option_bind].
  unfold IsAvailable, core, core_of. case_decide as E; cbn [mbind option_bind k_outs].
  - pose proof (outs_of_lookup (vout x) (Z.to_nat (prevout_n p))) as El. rewrite E, lookup_empty in El.
    destruct (vout x !! Z.to_nat (prevout_n p)) as [o|]; [|done]. cbn in El. unfold available in El. by destruct (out_IsNull o).
  - rewrite outs_of_lookup. destruct (vout x !! Z.to_nat (prevout_n p)) as [o|]; [|done]. cbn. unfold available. by destruct (out_IsNull o).
Qed.

(** The sum the view computes is the sum of the values, when it stays in
    range. *)
Lemma GetValueIn_spec c u b tx vals :
  implements c u b -> ct_IsCoinBase tx = false ->
  mapM (u_value u) (ct_vin tx) = Some vals -> Forall (fun v => 0 <= v) vals -> foldr Z.add 0 vals < 2 ^ 63 ->
  exists c', GetValueIn c tx = (c', Some (foldr Z.add 0 vals)) /\ implements c' u b.
Proof.
  intros Him Hcb Hv Hpos Hsum. unfold GetValueIn. rewrite Hcb.
  assert (forall vin vals n c, implements c u b -> mapM (u_value u) vin = Some vals -> Forall (fun v => 0 <= v) vals -> 0 <= n ->
    n + foldr Z.add 0 vals < 2 ^ 63 -> exists c',
    foldl (fun '(c, r) input => match r with None => (c, None)
      | Some n => let '(c, o) := GetOutputFor c input in (c, (fun out => i64 (n + nValue (out_plain out))) <$> o) end)
      (c, Some n) vin = (c', Some (n + foldr Z.add 0 vals)) /\ implements c' u b) as H.
  { clear. induction vin as [|p vin IH]; intros vals n c Him Hv Hpos Hn Hb.
    - injection Hv as <-. exists c. cbn. by rewrite Z.add_0_r.
    - apply mapM_Some, Forall2_cons_inv_l in Hv as (v & vs & Hp & Hvs%mapM_Some & ->). cbn [foldr] in *. apply Forall_cons in Hpos as [Hv0 Hpos].
      cbn [foldl]. pose proof (GetOutputFor_spec c u b p Him) as Hg. destruct (GetOutputFor c p) as [c1 o]. destruct Hg as [Him1 Ho].
      rewrite Hp in Ho. destruct o as [out|]; [|done]. cbn [fmap option_fmap option_map] in *. injection Ho as ->.
      assert (0 <= foldr Z.add 0 vs) by (clear -Hpos; induction Hpos; cbn; lia).
      rewrite i64_small by lia. destruct (IH vs (n + v) c1 Him1 Hvs Hpos ltac:(lia) ltac:(lia)) as (c' & E & Hc').
      exists c'. rewrite E. split; [|done]. f_equal. f_equal. lia. }
  destruct (H (ct_vin tx) vals 0 c Him Hv Hpos ltac:(lia) ltac:(lia)) as (c' & E & Hc'). exists c'. by rewrite E.
Qed.

Lemma Flush_implements c u b : implements c u b -> implements (Flush c) u u.
Proof.
  intros [H1 H2 H3]. destruct (Flush_spec c H1) as (F1 & F2 & F3).
  split; [done| |]; intros k; [rewrite F2|rewrite F3]; apply H2.
Qed.
End refine.

Lemma implements_self {S : Type} `{!CoinStore S, !CoinLaws S} (c : CoinsCache S) :
  cache_ok c -> implements c (shown c) (cs_core (ca_base c)).
Proof. intros H. by split. Qed.

(** Marking the undo data by position is marking it by kind of transaction. *)
Lemma mark_undo_position cb rest height us :
  ct_IsCoinBase cb = true -> Forall (fun tx => ct_IsCoinBase tx = false) rest -> length us = length (cb :: rest) ->
  mark_undo (cb :: rest) height us =
    map (fun '(tx, undo) => (tx, height, undo)) (combine (cb :: rest) (None :: map Some (tail us))).
Proof.
  intros Hcb Hrest Hlen. destruct us as [|u us]; [done|]. unfold mark_undo. cbn [combine map tail]. rewrite Hcb. f_equal.
  cbn in Hlen. injection Hlen as Hlen. revert us Hlen; induction Hrest as [|tx rest Htx _ IH]; intros us Hlen; [done|].
  destruct us as [|v us]; [done|]. cbn [combine map]. rewrite Htx. f_equal. apply IH. by injection Hlen.
Qed.

(** C6: on any stack of caches over the database, marking inputs as spent and
    adding the outputs of a transaction does to what the view shows what it
    does to the plain set of unspent outputs, with the same undo data, and
    trips over the assertion exactly when an input is not available; flushing
    afterwards hands the result to the base, so entries are neither lost nor
    revived by the flags DIRTY and FRESH. *)
Theorem UpdateCoins_refines {S : Type} `{!CoinStore S, !CoinLaws S} (c : CoinsCache S) u b tx height :
  implements c u b -> (ct_IsCoinBase tx = false -> b (ct_hash tx) = None) ->
  match u_update tx u height with
  | Some (u', undo) =>
    exists c', UpdateCoins tx c height = Some (c', undo) /\ implements c' u' b /\ implements (Flush c') u' u'
  | None => UpdateCoins tx c height = None
  end.
Proof.
  intros Him Hnew. pose proof (UpdateCoins_spec c u b tx height Him Hnew) as H.
  destruct (u_update tx u height) as [[u' undo]|]; [|done]. destruct H as (c' & H1 & H2).
  exists c'. split; [done|]. split; [done|]. by apply Flush_implements in H2.
Qed.

(** When [HaveInputs] says yes and no input is repeated, [UpdateCoins] does not
    run into its assertion. *)
Theorem HaveInputs_UpdateCoins {S : Type} `{!CoinStore S, !CoinLaws S} (c : CoinsCache S) tx height c1 :
  cache_ok c -> (ct_IsCoinBase tx = false -> cs_core (ca_base c) (ct_hash tx) = None) ->
  NoDup (map same_place (ct_vin tx)) -> HaveInputs c tx = (c1, true) ->
  exists c2 undo, UpdateCoins tx c1 height = Some (c2, undo) /\ cache_ok c2.
Proof.
  intros Hok Hnew Hnd Hh. pose proof (implements_self c Hok) as Him. unfold HaveInputs in Hh.
  assert (implements c1 (shown c) (cs_core (ca_base c)) /\ is_Some (u_update tx (shown c) height)) as [Him1 [[u' undo] Hu]].
  { unfold u_update. destruct (ct_IsCoinBase tx); [injection Hh as <-; split; [done|by eexists]|].
    destruct (have_inputs_spec c _ _ (ct_vin tx) Him) as (c1' & E & Him1). rewrite E in Hh. injection Hh as -> Hav.
    split; [done|]. destruct (u_spends_total (ct_vin tx) (shown c) [] Hnd Hav) as [[u1 l] ->]. cbn. by eexists. }
  pose proof (UpdateCoins_spec c1 _ _ tx height Him1 Hnew) as Hs. rewrite Hu in Hs. destruct Hs as (c2 & H1 & H2).
  exists c2, undo. split; [done|apply H2].
Qed.

(** C7: disconnecting a block restores the unspent outputs: after connecting its
    transactions and applying the undo data in reverse order every transaction
    shows the outputs, height, version and coinbase mark it had before, also
    when a transaction of the block spends another one's outputs. *)
Theorem coins_disconnect_restores {S : Type} `{!CoinStore S, !CoinLaws S} (c c' : CoinsCache S) cb rest height undos :
  cache_ok c -> u_wf (shown c) -> 0 < height < 2 ^ 31 ->
  ct_IsCoinBase cb = true -> Forall (fun tx => ct_IsCoinBase tx = false) rest ->
  new_txs (shown c) (cs_core (ca_base c)) (cb :: rest) ->
  ConnectBlock_coins (cb :: rest) height c = Some (c', undos) ->
  exists c'' fClean, DisconnectBlock_coins (cb :: rest) height undos c' = Some (c'', fClean) /\
    cache_ok c'' /\ forall k, shown c'' k = shown c k.
Proof.
  intros Hok Hwf Hh Hcb Hrest Hnew Hc. unfold ConnectBlock_coins in Hc.
  destruct (connect_coins (cb :: rest) height c) as [[c1 us]|] eqn:E; cbn [mbind option_bind] in Hc; [|done]. injection Hc as <- <-.
  destruct (connect_coins_roundtrip (cb :: rest) c c1 _ _ height us (implements_self c Hok) Hwf Hh Hnew E) as (Hlen & u' & Him & Hdis).
  destruct (Hdis c1 true Him) as (c2 & f & Hf & Him2). exists c2, f. unfold DisconnectBlock_coins.
  rewrite <- mark_undo_position by done. destruct us as [|u us]; [done|]. cbn [tail length] in *.
  rewrite (proj2 (Nat.eqb_eq _ _)) by lia. cbn [negb]. split; [done|]. split; [apply Him2|apply Him2].
Qed.

(** ** Examples *)

Definition demo_coins : CCoins := mkCCoins false false [plain_out 100 [1]; plain_out 50 [2]] 5 1.
Definition demo_db : CoinDB := mkCoinDB {[11 := demo_coins]}.

(** A cache over a cache over the database. *)
Definition demo_view : CoinsCache (CoinsCache CoinDB) := mkCoinsCache ∅ (mkCoinsCache ∅ demo_db).

Definition coinbase_in : COutPoint := mkCOutPoint 0 (2 ^ 32 - 1).
Definition demo_cb : CoinTx := mkCoinTx 21 1 0 [coinbase_in] [plain_out 7 [3]].
Definition demo_tx1 : CoinTx := mkCoinTx 22 1 0 [mkCOutPoint 11 0] [plain_out 60 [4]; plain_out 0 [OP_RETURN]; plain_out 40 [5]].
Definition demo_tx2 : CoinTx := mkCoinTx 23 1 0 [mkCOutPoint 22 0; mkCOutPoint 11 1] [plain_out 110 [6]].

Lemma empty_cache_ok {S : Type} `{!CoinStore S, !CoinLaws S} (s : S) : cs_ok s -> cache_ok (mkCoinsCache ∅ s).
Proof. intros H. split; [done| |]; by intros k e. Qed.

Lemma demo_view_ok : cache_ok demo_view.
Proof. by apply empty_cache_ok, (empty_cache_ok demo_db). Qed.

Lemma demo_shown k : shown demo_view k = if decide (k = 11) then core demo_coins else None.
Proof.
  change (shown demo_view k) with (db_core demo_db k). unfold db_core; cbn [cdb_map demo_db].
  rewrite lookup_singleton. by repeat case_decide.
Qed.

Lemma demo_coins_wf : u_wf (shown demo_view).
Proof.
  split; intros k x; rewrite demo_shown; (case_decide; [|done]); intros Hx.
  - by apply core_of_Some in Hx as [? ->].
  - intros o Ho. by apply (core_available demo_coins x).
  - apply core_of_Some in Hx as [_ ->]. cbn. lia.
Qed.

Lemma UpdateCoins_refines_witness :
  exists u' undo c', u_update demo_tx1 (shown demo_view) 10 = Some (u', undo) /\
    UpdateCoins demo_tx1 demo_view 10 = Some (c', undo) /\ implements (Flush c') u' u'.
Proof.
  pose proof (UpdateCoins_refines demo_view (shown demo_view) (cs_core (ca_base demo_view)) demo_tx1 10
    (implements_self demo_view demo_view_ok) ltac:(intros _; vm_compute; reflexivity)) as H.
  destruct (u_update demo_tx1 (shown demo_view) 10) as [[u' undo]|] eqn:E.
  - destruct H as (c' & H1 & _ & H3). exists u', undo, c'. split; [reflexivity|]. split; [exact H1|exact H3].
  - exfalso. vm_compute in E. discriminate E.
Defined.

Lemma HaveInputs_UpdateCoins_witness :
  exists c2 undo, UpdateCoins demo_tx1 (HaveInputs demo_view demo_tx1).1 10 = Some (c2, undo) /\ cache_ok c2.
Proof.
  apply (HaveInputs_UpdateCoins demo_view demo_tx1 10 (HaveInputs demo_view demo_tx1).1 demo_view_ok).
  - intros _. vm_compute. reflexivity.
  - apply NoDup_singleton.
  - vm_compute. reflexivity.
Defined.

Lemma coins_disconnect_restores_witness :
  exists c' undos c'' fClean, ConnectBlock_coins [demo_cb; demo_tx1; demo_tx2] 10 demo_view = Some (c', undos) /\
    DisconnectBlock_coins [demo_cb; demo_tx1; demo_tx2] 10 undos c' = Some (c'', fClean) /\
    forall k, shown c'' k = shown demo_view k.
Proof.
  destruct (ConnectBlock_coins [demo_cb; demo_tx1; demo_tx2] 10 demo_view) as [[c' undos]|] eqn:E.
  2:{ exfalso. vm_compute in E. discriminate E. }
  destruct (coins_disconnect_restores demo_view c' demo_cb [demo_tx1; demo_tx2] 10 undos) as (c'' & f & H1 & _ & H2).
  - exact demo_view_ok.
  - exact demo_coins_wf.
  - lia.
  - reflexivity.
  - repeat constructor.
  - split; [vm_compute; repeat constructor; set_solver|]. repeat constructor; vm_compute; reflexivity.
  - exact E.
  - exists c', undos, c'', f. split; [reflexivity|]. split; [exact H1|exact H2].
Defined.

(** A stake keeps its mark in the cache and loses it in the database. *)
Definition demo_stake_tx : CoinTx := mkCoinTx 31 1 0 [mkCOutPoint 11 0] [plain_out 0 []; plain_out 101 [1]].

Example coinstake_forgotten :
  let c := mkCoinsCache ∅ demo_db in
  exists c1 undo, UpdateCoins demo_stake_tx c 10 = Some (c1, undo) /\
    (fCoinStake <$> (GetCoins c1 31).2) = Some true /\ (fCoinStake <$> (GetCoins (Flush c1) 31).2) = Some false.
Proof. eexists _, _. split; [vm_compute; reflexivity|]. split; vm_compute; reflexivity. Qed.

(** A transaction whose last output was spent and restored forgets it too. *)
Example coinstake_undo_forgotten :
  let c := mkCoinsCache ∅ demo_db in
  let tx := mkCoinTx 32 1 0 [mkCOutPoint 31 0; mkCOutPoint 31 1] [plain_out 101 [1]] in
  exists c1 c2 c3 u1 u2 f, UpdateCoins demo_stake_tx c 10 = Some (c1, u1) /\ UpdateCoins tx c1 11 = Some (c2, u2) /\
    disconnect_tx (c2, true) (tx, 11, Some u2) = Some (c3, f) /\
    (fCoinStake <$> (GetCoins c1 31).2) = Some true /\ (fCoinStake <$> (GetCoins c3 31).2) = Some false.
Proof. eexists _, _, _, _, _, _. split; [vm_compute; reflexivity|]. repeat (split; [vm_compute; reflexivity|]). vm_compute. reflexivity. Qed.
