(* ===== verification/TxCheck.v ===== *)
(** * Checks of a transaction ([main.cpp])

    [CheckTransaction], the checks without context, and [CheckTxInputs], the
    checks of the inputs against the unspent outputs.  A verdict is [None] for
    [true], or the points and the reason of the rejection.  The size of the
    serialization, the comparison of private outputs (a [std::set] whose order
    is none) and the proof of private amounts are parameters. *)
From S2P Require Import Prelude Bytes Chain Params DaoTypes VoteScript Transaction Coins.

Record CTxIn := mkCTxIn { in_prevout : COutPoint; in_scriptSig : CScript; in_nSequence : Z }.

Record CheckedTx := mkCheckedTx {
  ck_hash : uint256;
  ck_nVersion : Z;
  ck_nTime : Z;
  ck_vin : list CTxIn;
  ck_vout : list TxOut;
  ck_nLockTime : Z;
  ck_vchTxSig : list Z;
  ck_vchBalanceSig : list Z
}.

(** The part the coins read. *)
Definition coin_tx (tx : CheckedTx) : CoinTx :=
  mkCoinTx (ck_hash tx) (ck_nVersion tx) (ck_nTime tx) (map in_prevout (ck_vin tx)) (ck_vout tx).

Definition TX_BLS_INPUT_FLAG : Z := 0x10.
Definition TX_BLS_CT_FLAG : Z := 0x20.
Definition MAX_BLOCK_BASE_SIZE : Z := 2000000.
Definition SEQUENCE_FINAL : Z := 0xffffffff.
Definition LOCKTIME_THRESHOLD : Z := 500000000.

Definition MoneyRange (nValue : Z) : bool := (0 <=? nValue) && (nValue <=? MAX_MONEY).

Definition IsBLSInput (tx : CheckedTx) : bool := flag_set (ck_nVersion tx) TX_BLS_INPUT_FLAG.
Definition IsCTOutput (tx : CheckedTx) : bool := flag_set (ck_nVersion tx) TX_BLS_CT_FLAG.
Definition tx_IsBLSCT (tx : CheckedTx) : bool := IsCTOutput tx || IsBLSInput tx.
Definition HasCTOutput (tx : CheckedTx) : bool := existsb HasRangeProof (ck_vout tx).

#[global] Instance COutPoint_eq_dec : EqDecision COutPoint.
Proof. solve_decision. Defined.

Abbreviation Verdict := (option (Z * string)).

(** ** [IsFinalTx] *)

Definition IsFinalTx (tx : CheckedTx) (nBlockHeight nBlockTime : Z) : bool :=
  if ck_nLockTime tx =? 0 then true
  else if ck_nLockTime tx <? (if ck_nLockTime tx <? LOCKTIME_THRESHOLD then nBlockHeight else nBlockTime) then true
  else if tx_IsBLSCT tx then true
  else forallb (fun txin => in_nSequence txin =? SEQUENCE_FINAL) (ck_vin tx).

(** ** [GetValueOut] *)

(** [None] is the exception. *)
Fixpoint value_out (nValueOut : Z) (outs : list TxOut) : option Z :=
  match outs with
  | [] => Some nValueOut
  | o :: outs =>
    let v := nValue (out_plain o) in
    let nValueOut := i64 (nValueOut + v) in
    if negb (MoneyRange v) || negb (MoneyRange nValueOut) then None else value_out nValueOut outs
  end.
Definition GetValueOut (tx : CheckedTx) : option Z := value_out 0 (ck_vout tx).

Section tx_check.
Context (GetSerializeSize : CheckedTx -> Z) (bls_duplicate : list TxOut -> bool).

(** ** [CheckTransaction] *)

Fixpoint check_outputs (tx : CheckedTx) (nValueOut : Z) (outs : list TxOut) : Verdict :=
  match outs with
  | [] => None
  | o :: outs =>
    let v := nValue (out_plain o) in
    if out_IsEmpty o && negb (ct_IsCoinBase (coin_tx tx)) && negb (ct_IsCoinStake (coin_tx tx))
    then Some (100, "txout empty for user transaction"%string)
    else if v <? 0 then Some (100, "bad-txns-vout-negative"%string)
    else if MAX_MONEY <? v then Some (100, "bad-txns-vout-toolarge"%string)
    else
      let nValueOut := i64 (nValueOut + v) in
      if negb (MoneyRange nValueOut) then Some (100, "bad-txns-txouttotal-toolarge"%string)
      else if negb (is_empty (vData (out_private o))) && negb (IsCTOutput tx) then Some (100, "tx-wrong-version-blsct-out"%string)
      else check_outputs tx nValueOut outs
  end.

(** [vInOutPoints] *)
Fixpoint check_duplicates (seen : list COutPoint) (vin : list COutPoint) : Verdict :=
  match vin with
  | [] => None
  | p :: vin => if bool_decide (p ∈ seen) then Some (100, "bad-txns-inputs-duplicate"%string) else check_duplicates (p :: seen) vin
  end.

Definition check_prevouts (tx : CheckedTx) : Verdict :=
  if ct_IsCoinBase (coin_tx tx) then
    match ck_vin tx with
    | txin :: _ =>
      let n := Z.of_nat (length (in_scriptSig txin)) in
      if (n <? 2) || (100 <? n) then Some (100, "bad-cb-length"%string) else None
    | [] => None
    end
  else if existsb (fun txin => COutPoint_IsNull (in_prevout txin)) (ck_vin tx) then Some (10, "bad-txns-prevout-null"%string) else None.

(** The first of two verdicts that rejects. *)
Definition or_else (a b : Verdict) : Verdict := match a with None => b | Some r => Some r end.

Definition reject_if (b : bool) (level : Z) (reason : string) : Verdict := if b then Some (level, reason) else None.

Definition CheckTransaction (tx : CheckedTx) : Verdict :=
  or_else (reject_if (is_empty (ck_vin tx)) 10 "bad-txns-vin-empty") (
  or_else (reject_if (is_empty (ck_vout tx)) 10 "bad-txns-vout-empty") (
  or_else (reject_if (MAX_BLOCK_BASE_SIZE <? GetSerializeSize tx) 100 "bad-txns-oversize") (
  or_else (reject_if ((IsCTOutput tx && is_empty (ck_vchBalanceSig tx)) ||
                      (negb (IsCTOutput tx) && (HasCTOutput tx || negb (is_empty (ck_vchBalanceSig tx)))))
             100 "bad-ctout-version-flag") (
  or_else (reject_if ((IsBLSInput tx && (is_empty (ck_vchBalanceSig tx) || is_empty (ck_vchTxSig tx))) ||
                      (negb (IsBLSInput tx) && negb (is_empty (ck_vchTxSig tx))))
             100 "bad-blsinput-version-flag") (
  or_else (reject_if (ct_IsCoinBase (coin_tx tx) && (IsBLSInput tx || IsCTOutput tx)) 100 "bad-blsct-coinbase") (
  or_else (check_outputs tx 0 (ck_vout tx)) (
  or_else (check_duplicates [] (map in_prevout (ck_vin tx))) (
  or_else (reject_if (bls_duplicate (List.filter out_IsBLSCT (ck_vout tx))) 100 "bad-txns-ctout-duplicate")
          (check_prevouts tx))))))))).

(** ** [CheckTxInputs] *)

Context (nCoinbaseMaturity : Z) (fTestNet fXNavSer : bool).
Context {S : Type} `{!CoinStore S}.
Implicit Types view : CoinsCache S.

(** The output of an input that counts as private. *)
Definition is_private (o : TxOut) : bool :=
  (negb fXNavSer && out_IsBLSCT o) || (fXNavSer && negb (is_empty (spendingKey (out_private o)))).

Definition premature (nSpendHeight : Z) (coins : CCoins) : bool :=
  (fCoinBase coins || fCoinStake coins) && negb fTestNet &&
  ((nSpendHeight - co_nHeight coins <? nCoinbaseMaturity) && (0 <? nSpendHeight - co_nHeight coins)).

(** The loop over the inputs: a verdict or [nValueIn]; [None] is the failed
    assertion. *)
Fixpoint check_inputs (nSpendHeight : Z) (first fHasBLSInput : bool) (nValueIn : Z) view (vin : list COutPoint) :
    option (CoinsCache S * (Verdict + Z)) :=
  match vin with
  | [] => Some (view, inr nValueIn)
  | prevout :: vin =>
    let '(view, e) := FetchCoins view (prevout_hash prevout) in
    do e <- e;
    do o <- vout (e_coins e) !! Z.to_nat (prevout_n prevout);
    let mix := Some (0, "bad-mix-bls-inputs"%string) in
    if is_private o && negb fHasBLSInput && negb first then Some (view, inl mix)
    else
      let fHasBLSInput := fHasBLSInput || is_private o in
      if fHasBLSInput && negb (is_private o) then Some (view, inl mix)
      else if premature nSpendHeight (e_coins e) then Some (view, inl (Some (0, "bad-txns-premature-spend-of-coinbase"%string)))
      else
        let v := nValue (out_plain o) in
        let nValueIn := i64 (nValueIn + v) in
        if negb (MoneyRange v) || negb (MoneyRange nValueIn)
        then Some (view, inl (Some (100, "bad-txns-inputvalues-outofrange"%string)))
        else check_inputs nSpendHeight false fHasBLSInput nValueIn view vin
  end.

(** The amounts of a transaction without private parts; [None] is the exception
    of [GetValueOut]. *)
Definition check_amounts (tx : CheckedTx) (nValueIn : Z) : option Verdict :=
  if negb (ct_IsCoinBase (coin_tx tx)) && negb (ct_IsCoinStake (coin_tx tx)) then
    do nValueOut <- GetValueOut tx;
    Some (if nValueIn <? nValueOut then Some (100, "bad-txns-in-belowout"%string)
          else let nTxFee := i64 (nValueIn - nValueOut) in
               if nTxFee <? 0 then Some (100, "bad-txns-fee-negative"%string)
               else if negb (MoneyRange nTxFee) then Some (100, "bad-txns-fee-outofrange"%string) else None)
  else Some None.

(** The verdict of [VerifyBLSCT]; an exception it throws is caught as [false]. *)
Context (VerifyBLSCT : CheckedTx -> Verdict).

Definition CheckTxInputs (tx : CheckedTx) view (nSpendHeight : Z) : option (CoinsCache S * Verdict) :=
  let '(view, have) := HaveInputs view (coin_tx tx) in
  if negb have then Some (view, Some (0, "Inputs unavailable"%string))
  else
    do '(view, r) <- check_inputs nSpendHeight true false 0 view (map in_prevout (ck_vin tx));
    match r with
    | inl v => Some (view, v)
    | inr nValueIn =>
      if negb (tx_IsBLSCT tx) then do v <- check_amounts tx nValueIn; Some (view, v)
      else Some (view, if negb (ct_IsCoinStake (coin_tx tx)) then VerifyBLSCT tx else None)
    end.
End tx_check.

(** ** What an accepted transaction guarantees *)

Lemma or_else_None a b : or_else a b = None <-> a = None /\ b = None.
Proof. destruct a; cbn; intuition congruence. Qed.

Lemma reject_if_None b level reason : reject_if b level reason = None <-> b = false.
Proof. unfold reject_if. destruct b; intuition congruence. Qed.

Lemma MoneyRange_spec v : MoneyRange v = true <-> 0 <= v <= MAX_MONEY.
Proof. unfold MoneyRange. rewrite andb_true_iff, !Z.leb_le. done. Qed.

Abbreviation out_values outs := (map (fun o : TxOut => nValue (out_plain o)) outs).
Abbreviation sum := (foldr Z.add 0).

Lemma sum_nonneg l : Forall (fun v => 0 <= v) l -> 0 <= sum l.
Proof. induction 1; cbn; lia. Qed.

Lemma check_outputs_spec tx n outs :
  check_outputs tx n outs = None -> 0 <= n <= MAX_MONEY ->
  Forall (fun v => 0 <= v <= MAX_MONEY) (out_values outs) /\ n + sum (out_values outs) <= MAX_MONEY /\
  value_out n outs = Some (n + sum (out_values outs)).
Proof.
  revert n; induction outs as [|o outs IH]; intros n H Hn; cbn [check_outputs map foldr value_out] in *.
  { split; [constructor|]. rewrite Z.add_0_r. split; [lia|done]. }
  destruct (_ && _ && _); [done|]. destruct (Z.ltb_spec (nValue (out_plain o)) 0); [done|].
  destruct (Z.ltb_spec MAX_MONEY (nValue (out_plain o))); [done|].
  assert (i64 (n + nValue (out_plain o)) = n + nValue (out_plain o)) as E by (apply i64_small; unfold MAX_MONEY, COIN in *; lia). rewrite E in *.
  destruct (MoneyRange (n + nValue (out_plain o))) eqn:Em; cbn [negb] in H; [|done]. apply MoneyRange_spec in Em.
  destruct (_ && _); [done|]. destruct (IH _ H Em) as (I1 & I2 & I3).
  rewrite (proj2 (MoneyRange_spec (nValue (out_plain o)))) by lia. cbn [negb orb]. split; [constructor; [lia|done]|].
  rewrite I3. split; [lia|]. f_equal. lia.
Qed.

Lemma check_duplicates_spec seen vin :
  check_duplicates seen vin = None -> NoDup vin /\ forall p, p ∈ vin -> p ∉ seen.
Proof.
  revert seen; induction vin as [|p vin IH]; intros seen H; cbn [check_duplicates] in H.
  { split; [constructor|]. intros p Hp. by apply not_elem_of_nil in Hp. }
  case_bool_decide as E; [done|]. destruct (IH _ H) as [H1 H2]. split.
  - constructor; [|done]. intros Hin. apply (H2 p Hin). constructor.
  - intros q Hq. apply elem_of_cons in Hq as [->|Hq]; [done|]. specialize (H2 q Hq). set_solver.
Qed.

Section accepted.
Context (GetSerializeSize : CheckedTx -> Z) (bls_duplicate : list TxOut -> bool).
Context (nCoinbaseMaturity : Z) (fTestNet fXNavSer : bool) (VerifyBLSCT : CheckedTx -> Verdict).
Context {S : Type} `{!CoinStore S, !CoinLaws S}.

(** A coinbase that is spent is mature, or of the same block. *)
Definition mature (u : utxo) (nSpendHeight : Z) (p : COutPoint) : Prop :=
  forall x, u (prevout_hash p) = Some x -> k_fCoinBase x = true -> fTestNet = false ->
    nCoinbaseMaturity <= nSpendHeight - k_nHeight x \/ nSpendHeight - k_nHeight x <= 0.

Lemma check_inputs_spec height u b vin first bls n (view view' : CoinsCache S) m :
  implements view u b -> forallb (u_available u) vin = true -> 0 <= n <= MAX_MONEY ->
  check_inputs nCoinbaseMaturity fTestNet fXNavSer height first bls n view vin = Some (view', inr m) ->
  implements view' u b /\ Forall (mature u height) vin /\
  exists vals, mapM (u_value u) vin = Some vals /\ Forall (fun v => 0 <= v <= MAX_MONEY) vals /\ m = n + sum vals /\ m <= MAX_MONEY.
Proof.
  revert first bls n view; induction vin as [|p vin IH]; intros first bls n view Him Hav Hn H; cbn [check_inputs forallb] in *.
  { injection H as <- <-. split; [done|]. split; [constructor|]. exists []. split; [done|]. split; [constructor|]. cbn. lia. }
  apply andb_true_iff in Hav as [Hp Hav]. pose proof (FetchCoins_spec view (prevout_hash p) (im_ok _ _ _ Him)) as Hf.
  destruct (FetchCoins view (prevout_hash p)) as [v1 e]. destruct Hf as (Hok1 & Hsh1 & He & Hb1).
  assert (implements v1 u b) as Him1.
  { split; [done| |]; intros k; [rewrite Hsh1; apply (im_shown _ _ _ Him)|rewrite Hb1; apply (im_base _ _ _ Him)]. }
  apply bind_Some in H as (x & -> & H). apply bind_Some in H as (o & Ho & H). cbn in He. rewrite (im_shown _ _ _ Him) in He.
  destruct (_ && _ && negb first); [done|]. destruct (_ && negb _); [done|].
  destruct (premature _ _ _ _) eqn:Epre; [done|].
  destruct (negb (MoneyRange (nValue (out_plain o))) || _) eqn:Em; [done|].
  apply orb_false_iff in Em as [Em1 Em2]. apply negb_false_iff, MoneyRange_spec in Em1, Em2.
  assert (i64 (n + nValue (out_plain o)) = n + nValue (out_plain o)) as E by (apply i64_small; unfold MAX_MONEY, COIN in *; lia). rewrite E in *.
  destruct (IH _ _ _ _ Him1 Hav Em2 H) as (I1 & I2 & vals & I3 & I4 & I5 & I6).
  assert (u_value u p = Some (nValue (out_plain o))) as Hval.
  { unfold u_available in Hp. unfold u_value. rewrite <- He in *. unfold core, core_of in *. case_decide as Ec; cbn in *; [done|].
    apply bool_decide_eq_true in Hp as [o' Ho']. rewrite outs_of_lookup, Ho in *. cbn in *. unfold available in *. by destruct (out_IsNull o). }
  split; [done|]. split.
  - constructor; [|done]. intros X HX Hcb Ht. rewrite HX in He. unfold core in He. apply core_of_Some in He as [_ ->]. cbn in *.
    unfold premature in Epre. rewrite Hcb, Ht in Epre. cbn in Epre. apply andb_false_iff in Epre as [Epre|Epre]; [left|right]; lia.
  - exists (nValue (out_plain o) :: vals). split; [apply mapM_Some; constructor; [done|by apply mapM_Some]|].
    split; [by constructor|]. cbn. lia.
Qed.

Lemma check_inputs_rejects height first bls n (view view' : CoinsCache S) vin v :
  check_inputs nCoinbaseMaturity fTestNet fXNavSer height first bls n view vin = Some (view', inl v) -> v <> None.
Proof.
  revert first bls n view; induction vin as [|p vin IH]; intros first bls n view H; cbn [check_inputs] in H; [done|].
  destruct (FetchCoins _ _) as [w e]. apply bind_Some in H as (x & _ & H). apply bind_Some in H as (o & _ & H).
  repeat case_match; simplify_eq; try done. by eapply IH.
Qed.

Lemma places_NoDup vin : Forall (fun p => 0 <= prevout_n p) vin -> NoDup vin -> NoDup (map same_place vin).
Proof.
  intros Hpos. induction 1 as [|p vin Hnin Hnd IH]; [constructor|]. apply Forall_cons in Hpos as [Hp Hpos]. cbn [map].
  constructor; [|by apply IH]. intros Hin. apply list_elem_of_In, in_map_iff in Hin as (q & E & Hq). apply list_elem_of_In in Hq.
  rewrite Forall_forall in Hpos. specialize (Hpos q Hq). unfold same_place in E. injection E as E1 E2.
  assert (q = p) as ->; [|done]. destruct p, q; cbn in *. f_equal; [done|lia].
Qed.

(** C5: an ordinary transaction that passes both checks creates no money: its
    inputs are unspent outputs of the view, their values and the values of its
    outputs are in range, and inputs exceed outputs by the fee.  Coinbases it
    spends are mature unless they are of the same block.  Connecting it to the
    unspent outputs then never trips over an assertion. *)
Theorem accepted_tx_conserves tx height (view view' : CoinsCache S) :
  cache_ok view -> cs_core (ca_base view) (ck_hash tx) = None ->
  Forall (fun p => 0 <= prevout_n p) (map in_prevout (ck_vin tx)) ->
  CheckTransaction GetSerializeSize bls_duplicate tx = None ->
  CheckTxInputs nCoinbaseMaturity fTestNet fXNavSer VerifyBLSCT tx view height = Some (view', None) ->
  ct_IsCoinBase (coin_tx tx) = false -> ct_IsCoinStake (coin_tx tx) = false -> tx_IsBLSCT tx = false ->
  exists vals fee, mapM (u_value (shown view)) (map in_prevout (ck_vin tx)) = Some vals /\
    Forall (fun v => 0 <= v <= MAX_MONEY) (vals ++ out_values (ck_vout tx)) /\
    sum vals = sum (out_values (ck_vout tx)) + fee /\ 0 <= fee <= MAX_MONEY /\
    Forall (mature (shown view) height) (map in_prevout (ck_vin tx)) /\
    exists view2 undo, UpdateCoins (coin_tx tx) view' height = Some (view2, undo) /\ cache_ok view2.
Proof.
  intros Hok Hnew Hpos Hct Hci Hcb Hcs Hbls. unfold CheckTransaction in Hct. rewrite !or_else_None in Hct.
  destruct Hct as (_ & _ & _ & _ & _ & _ & Houts & Hdup & _).
  apply check_outputs_spec in Houts as (Ho1 & Ho2 & Ho3); [|unfold MAX_MONEY, COIN; lia].
  apply check_duplicates_spec in Hdup as [Hnd _]. unfold CheckTxInputs in Hci.
  destruct (have_inputs_spec view _ _ (map in_prevout (ck_vin tx)) (implements_self view Hok)) as (v1 & Eh & Him1).
  unfold HaveInputs in Hci. rewrite Hcb in Hci. change (ct_vin (coin_tx tx)) with (map in_prevout (ck_vin tx)) in Hci. rewrite Eh in Hci.
  destruct (forallb _ _) eqn:Hav; cbn [negb] in Hci; [|done].
  apply bind_Some in Hci as ([v2 r] & Hin & Hci). destruct r as [v|n].
  { injection Hci as <- ->. by apply check_inputs_rejects in Hin. }
  destruct (check_inputs_spec height _ _ _ true false 0 _ _ _ Him1 Hav ltac:(unfold MAX_MONEY, COIN; lia) Hin) as (Him2 & Hmat & vals & Hv1 & Hv2 & -> & Hv4).
  rewrite Hbls in Hci. cbn [negb] in Hci. apply bind_Some in Hci as (v & Ha & Hci). injection Hci as <- ->.
  unfold check_amounts in Ha. rewrite Hcb, Hcs in Ha. cbn [negb andb] in Ha. unfold GetValueOut in Ha. rewrite Ho3 in Ha. cbn [mbind option_bind] in Ha.
  rewrite !Z.add_0_l in *. injection Ha as Ha. destruct (Z.ltb_spec (sum vals) (sum (out_values (ck_vout tx)))); [done|].
  assert (0 <= sum (out_values (ck_vout tx))) by (apply sum_nonneg; eapply Forall_impl; [exact Ho1|cbn; lia]).
  exists vals, (sum vals - sum (out_values (ck_vout tx))). split; [done|]. split; [by apply Forall_app|]. split; [lia|]. split; [lia|].
  split; [done|]. pose proof (UpdateCoins_spec v2 _ _ (coin_tx tx) height Him2 ltac:(done)) as Hu.
  unfold u_update in Hu. rewrite Hcb in Hu. change (ct_vin (coin_tx tx)) with (map in_prevout (ck_vin tx)) in Hu.
  destruct (u_spends_total (map in_prevout (ck_vin tx)) (shown view) [] (places_NoDup _ Hpos Hnd) Hav) as [[u1 l] Es]. rewrite Es in Hu.
  cbn [mbind option_bind] in Hu. destruct Hu as (view2 & H1 & H2). exists view2, l. split; [done|apply H2].
Qed.
End accepted.

(** ** Examples *)

Definition pay_in (hash n : Z) : CTxIn := mkCTxIn (mkCOutPoint hash n) [] SEQUENCE_FINAL.
Definition pay_tx (hash : Z) (outs : list TxOut) : CheckedTx := mkCheckedTx 51 1 0 [pay_in hash 0] outs 0 [] [].
Definition demo_pay : CheckedTx := pay_tx 11 [plain_out 60 [1]; plain_out 30 [2]].
Definition demo_verdict (view : CoinsCache CoinDB) (tx : CheckedTx) (height : Z) :=
  snd <$> CheckTxInputs 50 false false (fun _ => None) tx view height.
Definition pay_view (coinbase : bool) (height : Z) : CoinsCache CoinDB :=
  mkCoinsCache ∅ (mkCoinDB {[11 := mkCCoins coinbase false [plain_out 100 [1]] height 1]}).

Lemma accepted_tx_conserves_witness :
  exists vals fee, mapM (u_value (shown (pay_view false 5))) [mkCOutPoint 11 0] = Some vals /\
    Forall (fun v => 0 <= v <= MAX_MONEY) (vals ++ [60; 30]) /\ sum vals = 90 + fee /\ 0 <= fee <= MAX_MONEY /\
    Forall (mature 50 false (shown (pay_view false 5)) 9) [mkCOutPoint 11 0] /\
    exists view2 undo, UpdateCoins (coin_tx demo_pay)
      (mkCoinsCache {[11 := mkEntry (mkCCoins false false [plain_out 100 [1]] 5 1) false false]}
        (mkCoinDB {[11 := mkCCoins false false [plain_out 100 [1]] 5 1]})) 9 = Some (view2, undo) /\ cache_ok view2.
Proof.
  apply (accepted_tx_conserves (fun _ => 200) (fun _ => false) 50 false false (fun _ => None) demo_pay 9 (pay_view false 5)).
  - by apply empty_cache_ok.
  - vm_compute. reflexivity.
  - repeat constructor; cbn; lia.
  - vm_compute. reflexivity.
  - vm_compute. reflexivity.
  - reflexivity.
  - reflexivity.
  - reflexivity.
Defined.

(** Outputs above the inputs, or a premature coinbase, are rejected; a coinbase
    of the same block is not. *)
Example pay_too_much : demo_verdict (pay_view false 5) (pay_tx 11 [plain_out 101 [1]]) 9 = Some (Some (100, "bad-txns-in-belowout"%string)).
Proof. vm_compute. reflexivity. Qed.
Example premature_coinbase : demo_verdict (pay_view true 8) demo_pay 9 = Some (Some (0, "bad-txns-premature-spend-of-coinbase"%string)).
Proof. vm_compute. reflexivity. Qed.
Example same_block_coinbase : demo_verdict (pay_view true 9) demo_pay 9 = Some None.
Proof. vm_compute. reflexivity. Qed.

(** ** Relative lock times (BIP 68) *)

Definition SEQUENCE_LOCKTIME_DISABLE_FLAG : Z := 2 ^ 31.
Definition SEQUENCE_LOCKTIME_TYPE_FLAG : Z := 2 ^ 22.
Definition SEQUENCE_LOCKTIME_MASK : Z := 0x0000ffff.
Definition SEQUENCE_LOCKTIME_GRANULARITY : Z := 9.
Definition LOCKTIME_VERIFY_SEQUENCE : Z := 1.

Section locks.
Context (h : BlockMap) (block : uint256).

(** One iteration: [nMinHeight], [nMinTime] and the entry of [prevHeights]. *)
Definition lock_input (acc : Z * Z) (txin : CTxIn) (nCoinHeight : Z) : option (Z * Z * Z) :=
  let '(nMinHeight, nMinTime) := acc in
  if flag_set (in_nSequence txin) SEQUENCE_LOCKTIME_DISABLE_FLAG then Some (nMinHeight, nMinTime, 0)
  else if flag_set (in_nSequence txin) SEQUENCE_LOCKTIME_TYPE_FLAG then
    do a <- GetAncestor h block (Z.max (nCoinHeight - 1) 0);
    do q <- a;
    do nCoinTime <- GetMedianTimePast h q;
    Some (nMinHeight, Z.max nMinTime (nCoinTime + Z.shiftl (Z.land (in_nSequence txin) SEQUENCE_LOCKTIME_MASK) SEQUENCE_LOCKTIME_GRANULARITY - 1), nCoinHeight)
  else Some (Z.max nMinHeight (nCoinHeight + Z.land (in_nSequence txin) SEQUENCE_LOCKTIME_MASK - 1), nMinTime, nCoinHeight).

Fixpoint lock_inputs (acc : Z * Z) (ins : list (CTxIn * Z)) : option (Z * Z * list Z) :=
  match ins with
  | [] => Some (acc, [])
  | (txin, nCoinHeight) :: ins =>
    do '(m, t, hgt) <- lock_input acc txin nCoinHeight;
    do '(r, hs) <- lock_inputs (m, t) ins;
    Some (r, hgt :: hs)
  end.

(** [None] is the failed assertion or a null ancestor. *)
Definition CalculateSequenceLocks (tx : CheckedTx) (flags : Z) (prevHeights : list Z) : option (Z * Z * list Z) :=
  check (length prevHeights =? length (ck_vin tx))%nat;
  if (2 <=? u32 (ck_nVersion tx)) && flag_set flags LOCKTIME_VERIFY_SEQUENCE
  then lock_inputs (-1, -1) (combine (ck_vin tx) prevHeights)
  else Some (-1, -1, prevHeights).

Definition EvaluateSequenceLocks (lockPair : Z * Z) : option bool :=
  do b <- h !! block;
  do q <- pprev b;
  do nBlockTime <- GetMedianTimePast h q;
  Some (negb ((nHeight b <=? lockPair.1) || (nBlockTime <=? lockPair.2))).

Definition SequenceLocks (tx : CheckedTx) (flags : Z) (prevHeights : list Z) : option bool :=
  do '(lockPair, _) <- CalculateSequenceLocks tx flags prevHeights; EvaluateSequenceLocks lockPair.

(** The lock of one input is over for a block of that height after that time. *)
Definition lock_over (height time : Z) (txin : CTxIn) (nCoinHeight : Z) : Prop :=
  flag_set (in_nSequence txin) SEQUENCE_LOCKTIME_DISABLE_FLAG = true \/
  (if flag_set (in_nSequence txin) SEQUENCE_LOCKTIME_TYPE_FLAG
   then exists q t, GetAncestor h block (Z.max (nCoinHeight - 1) 0) = Some (Some q) /\ GetMedianTimePast h q = Some t /\
          t + 512 * Z.land (in_nSequence txin) SEQUENCE_LOCKTIME_MASK <= time
   else nCoinHeight + Z.land (in_nSequence txin) SEQUENCE_LOCKTIME_MASK <= height).

Lemma lock_input_spec m t txin c m' t' c' height time :
  lock_input (m, t) txin c = Some (m', t', c') ->
  (m' < height /\ t' < time <-> (m < height /\ t < time) /\ lock_over height time txin c).
Proof.
  unfold lock_input, lock_over. destruct (flag_set _ SEQUENCE_LOCKTIME_DISABLE_FLAG); [intros [= <- <- <-]; tauto|].
  destruct (flag_set _ SEQUENCE_LOCKTIME_TYPE_FLAG).
  - intros H. apply bind_Some in H as (a & Ha & H). apply bind_Some in H as (q & -> & H). apply bind_Some in H as (ct & Hq & H).
    injection H as <- <- <-. unfold SEQUENCE_LOCKTIME_GRANULARITY. rewrite Z.shiftl_mul_pow2 by lia. change (2 ^ 9) with 512. split.
    + intros [H1 H2]. split; [lia|]. right. exists q, ct. split; [done|]. split; [done|]. lia.
    + intros [[H1 H2] [H|(q' & ct' & Ha' & Hq' & H)]]; [done|]. simplify_eq. lia.
  - intros [= <- <- <-]. split; [intros [H1 H2]; split; [lia|right; lia]|]. intros [[H1 H2] [H|H]]; [done|lia].
Qed.

Lemma lock_inputs_spec acc ins r hs height time :
  lock_inputs acc ins = Some (r, hs) ->
  (r.1 < height /\ r.2 < time <-> (acc.1 < height /\ acc.2 < time) /\ Forall (fun x => lock_over height time x.1 x.2) ins).
Proof.
  revert acc r hs; induction ins as [|[txin c] ins IH]; intros acc r hs H; cbn [lock_inputs] in H.
  { injection H as <- <-. rewrite Forall_nil. tauto. }
  apply bind_Some in H as ([[m t] hgt] & H1 & H). apply bind_Some in H as ([r' hs'] & H2 & H). injection H as <- <-.
  rewrite (IH _ _ _ H2), Forall_cons. destruct acc as [m0 t0]. rewrite (lock_input_spec _ _ _ _ _ _ _ height time H1). cbn. tauto.
Qed.

(** the locks of a transaction are over in a block exactly when, with the
    rule enforced for the version and the flags, the lock of every single input
    is: the height or the median time of its coin plus the relative lock has
    been reached. *)
Theorem SequenceLocks_correct tx flags heights b q time r :
  h !! block = Some b -> pprev b = Some q -> GetMedianTimePast h q = Some time -> 0 <= nHeight b -> 0 <= time ->
  SequenceLocks tx flags heights = Some r ->
  (r = true <-> ((2 <=? u32 (ck_nVersion tx)) && flag_set flags LOCKTIME_VERIFY_SEQUENCE = true ->
                 Forall (fun x => lock_over (nHeight b) time x.1 x.2) (combine (ck_vin tx) heights))).
Proof.
  intros Hb Hq Ht H0 H1 Hs. unfold SequenceLocks in Hs. apply bind_Some in Hs as ([lp hs] & Hc & He).
  unfold EvaluateSequenceLocks in He. rewrite Hb in He. cbn [mbind option_bind] in He. rewrite Hq in He. cbn [mbind option_bind] in He.
  rewrite Ht in He. cbn [mbind option_bind] in He. injection He as <-.
  assert (negb ((nHeight b <=? lp.1) || (time <=? lp.2)) = true <-> lp.1 < nHeight b /\ lp.2 < time) as ->
    by (rewrite negb_true_iff, orb_false_iff, !Z.leb_gt; done).
  unfold CalculateSequenceLocks in Hc. destruct (_ =? _)%nat; [|done]. destruct (_ && _) eqn:E.
  - rewrite (lock_inputs_spec _ _ _ _ (nHeight b) time Hc). cbn. intuition lia.
  - injection Hc as <- <-. cbn. intuition lia.
Qed.
End locks.

(** The coin of height 3 can be spent from height 4 on after one block. *)
Lemma SequenceLocks_correct_witness :
  true = true <-> ((2 <=? u32 2) && flag_set 1 LOCKTIME_VERIFY_SEQUENCE = true ->
    Forall (fun x => lock_over demo_blocks 104 4 1060 x.1 x.2) [(mkCTxIn (mkCOutPoint 11 0) [] 1, 3)]).
Proof.
  apply (SequenceLocks_correct demo_blocks 104 (mkCheckedTx 51 2 0 [mkCTxIn (mkCOutPoint 11 0) [] 1] [] 0 [] []) 1 [3]
    (demo_block (Some 103) (Some 100) 4 1120) 103 1060 true); [reflexivity|reflexivity|vm_compute; reflexivity|cbn; lia|lia|vm_compute; reflexivity].
Defined.
