(* ===== verification/PartialMerkle.v ===== *)
(** * Partial Merkle trees ([merkleblock.h], [merkleblock.cpp])

    A filtered block carries bits and hashes in depth-first order, from which
    the receiver computes the root and the matched transactions.  [build] and
    [extract] are the two traversals; the reference is the tree of [Merkle.v].
    The counters of the code are [unsigned int]; the hash of two hashes is a
    parameter. *)
From S2P Require Import Prelude Bytes Merkle Serialize TxCheck.

Section partial.
Context (Hash : uint256 -> uint256 -> uint256).

(** ** The code *)

Record CPartialMerkleTree := mkPartial {
  nTransactions : Z;
  vBits : list bool;
  vHash : list uint256;
  fBad : bool
}.

Definition CalcTreeWidth (n : Z) (height : nat) : Z :=
  Z.shiftr (u32 (n + Z.shiftl 1 (Z.of_nat height) - 1)) (Z.of_nat height).

(** [while (CalcTreeWidth(nHeight) > 1) nHeight++]. *)
Fixpoint tree_height_loop (fuel : nat) (n : Z) (nHeight : nat) : option nat :=
  if CalcTreeWidth n nHeight <=? 1 then Some nHeight
  else match fuel with O => None | S fuel => tree_height_loop fuel n (S nHeight) end.

Definition nHeight_of (n : Z) : option nat := tree_height_loop 31 n 0.

(** [None] is an access outside of [vTxid] or [vMatch]. *)
Fixpoint CalcHash (n : Z) (vTxid : list uint256) (height : nat) (pos : Z) : option uint256 :=
  match height with
  | O => vTxid !! Z.to_nat pos
  | S height =>
    do lhs <- CalcHash n vTxid height (u32 (pos * 2));
    do rhs <- (if u32 (pos * 2 + 1) <? CalcTreeWidth n height then CalcHash n vTxid height (u32 (pos * 2 + 1)) else Some lhs);
    Some (Hash lhs rhs)
  end.

(** The loop over the leaves below a node. *)
Fixpoint any_match (fuel : nat) (n : Z) (vMatch : list bool) (p last_ : Z) (fParentOfMatch : bool) : option bool :=
  if (p <? last_) && (p <? n) then
    match fuel with
    | O => None
    | S fuel => do b <- vMatch !! Z.to_nat p; any_match fuel n vMatch (u32 (p + 1)) last_ (fParentOfMatch || b)
    end
  else Some fParentOfMatch.

(** What it appends to: [vBits] and [vHash]. *)
Fixpoint TraverseAndBuild (n : Z) (vTxid : list uint256) (vMatch : list bool) (height : nat) (pos : Z)
    (s : list bool * list uint256) : option (list bool * list uint256) :=
  do fParentOfMatch <-
    any_match (length vMatch) n vMatch (u32 (Z.shiftl pos (Z.of_nat height))) (u32 (Z.shiftl (pos + 1) (Z.of_nat height))) false;
  let s := (s.1 ++ [fParentOfMatch], s.2) in
  let store := do h <- CalcHash n vTxid height pos; Some (s.1, s.2 ++ [h]) in
  match height with
  | O => store
  | S height =>
    if negb fParentOfMatch then store
    else
      do s <- TraverseAndBuild n vTxid vMatch height (u32 (pos * 2)) s;
      if u32 (pos * 2 + 1) <? CalcTreeWidth n height
      then TraverseAndBuild n vTxid vMatch height (u32 (pos * 2 + 1)) s else Some s
  end.

Definition CPartialMerkleTree_new (vTxid : list uint256) (vMatch : list bool) : option CPartialMerkleTree :=
  let n := u32 (Z.of_nat (length vTxid)) in
  do h <- nHeight_of n;
  do '(bits, hashes) <- TraverseAndBuild n vTxid vMatch h 0 ([], []);
  Some (mkPartial n bits hashes false).

(** What the other traversal changes: the two counters, the vectors of the
    caller and the flag of the object. *)
Record Extraction := mkExtraction {
  nBitsUsed : nat;
  nHashUsed : nat;
  ex_vMatch : list uint256;
  ex_vnIndex : list Z;
  ex_fBad : bool
}.

Definition bad (s : Extraction) : Extraction :=
  mkExtraction (nBitsUsed s) (nHashUsed s) (ex_vMatch s) (ex_vnIndex s) true.

Definition next_bit (s : Extraction) : Extraction :=
  mkExtraction (S (nBitsUsed s)) (nHashUsed s) (ex_vMatch s) (ex_vnIndex s) (ex_fBad s).

Fixpoint TraverseAndExtract (t : CPartialMerkleTree) (height : nat) (pos : Z) (s : Extraction) : uint256 * Extraction :=
  match vBits t !! nBitsUsed s with
  | None => (0, bad s)
  | Some fParentOfMatch =>
    let s := next_bit s in
    let use :=
      match vHash t !! nHashUsed s with
      | None => (0, bad s)
      | Some hash =>
        let matched := (height =? 0)%nat && fParentOfMatch in
        (hash, mkExtraction (nBitsUsed s) (S (nHashUsed s))
                 (if matched then ex_vMatch s ++ [hash] else ex_vMatch s)
                 (if matched then ex_vnIndex s ++ [pos] else ex_vnIndex s) (ex_fBad s))
      end in
    match height with
    | O => use
    | S height =>
      if negb fParentOfMatch then use
      else
        let '(lhs, s) := TraverseAndExtract t height (u32 (pos * 2)) s in
        if u32 (pos * 2 + 1) <? CalcTreeWidth (nTransactions t) height then
          let '(rhs, s) := TraverseAndExtract t height (u32 (pos * 2 + 1)) s in
          (Hash lhs rhs, if rhs =? lhs then bad s else s)
        else (Hash lhs lhs, s)
    end
  end.

(** The root (zero on failure), the vectors of the caller and the object.
    [vMatch] is cleared and [vnIndex] is not. *)
Definition ExtractMatches (t : CPartialMerkleTree) (vnIndex : list Z) :
    uint256 * list uint256 * list Z * CPartialMerkleTree :=
  if nTransactions t =? 0 then (0, [], vnIndex, t)
  else if MAX_BLOCK_BASE_SIZE / 60 <? nTransactions t then (0, [], vnIndex, t)
  else if nTransactions t <? Z.of_nat (length (vHash t)) then (0, [], vnIndex, t)
  else if (length (vBits t) <? length (vHash t))%nat then (0, [], vnIndex, t)
  else
    let nHeight := default 0%nat (nHeight_of (nTransactions t)) in
    let '(hashMerkleRoot, s) := TraverseAndExtract t nHeight 0 (mkExtraction 0 0 [] vnIndex (fBad t)) in
    let t' := mkPartial (nTransactions t) (vBits t) (vHash t) (ex_fBad s) in
    let root :=
      if ex_fBad s then 0
      else if negb ((nBitsUsed s + 7) / 8 =? (length (vBits t) + 7) / 8)%nat then 0
      else if negb (nHashUsed s =? length (vHash t))%nat then 0
      else hashMerkleRoot in
    (root, ex_vMatch s, ex_vnIndex s, t').

(** The constructor of [CMerkleBlock] from a set of transactions. *)
Definition CMerkleBlock_of (vtx : list uint256) (txids : gset uint256) : option CPartialMerkleTree :=
  CPartialMerkleTree_new vtx (map (fun hash => bool_decide (hash ∈ txids)) vtx).

(** ** The tree below a node *)

(** The leaves below node [q] of height [k]. *)
Definition below {A} (k q : nat) (l : list A) : list A := take (2 ^ k) (drop (q * 2 ^ k) l).

(** Two children of a node that has both differ, down to the leaves. *)
Fixpoint siblings_differ (k : nat) (l : list uint256) : bool :=
  match k with
  | O => true
  | S k =>
    let lhs := take (2 ^ k) l in
    let rhs := drop (2 ^ k) l in
    match rhs with [] => true | _ => negb (tree Hash k lhs =? tree Hash k rhs) end &&
    siblings_differ k lhs && siblings_differ k rhs
  end.

(** The marked elements with their positions. *)
Fixpoint selected (i : nat) (l : list uint256) (m : list bool) : list (Z * uint256) :=
  match l, m with
  | x :: l, b :: m => (if b then [(Z.of_nat i, x)] else []) ++ selected (S i) l m
  | _, _ => []
  end.

Lemma selected_app i l1 l2 m1 m2 :
  length l1 = length m1 -> selected i (l1 ++ l2) (m1 ++ m2) = selected i l1 m1 ++ selected (i + length l1) l2 m2.
Proof.
  revert i m1; induction l1 as [|x l1 IH]; intros i [|b m1] E; try done; cbn [app selected length] in *.
  - by rewrite Nat.add_0_r.
  - rewrite IH by lia. rewrite <- app_assoc. do 3 f_equal. lia.
Qed.

Lemma selected_none i l m : existsb id m = false -> selected i l m = [].
Proof.
  revert i l; induction m as [|[] m IH]; intros i [|x l] E; try done. cbn in *. by rewrite IH.
Qed.

Lemma below_split {A} k q (l : list A) : below (S k) q l = below k (2 * q) l ++ below k (2 * q + 1) l.
Proof.
  unfold below. rewrite Nat.pow_succ_r'. generalize (2 ^ k)%nat. intros p.
  replace (q * (2 * p))%nat with (2 * q * p)%nat by lia. replace ((2 * q + 1) * p)%nat with (2 * q * p + p)%nat by lia.
  rewrite <- drop_drop. generalize (drop (2 * q * p) l). intros r.
  rewrite <- (take_drop p r) at 1. rewrite take_app, take_take, length_take.
  replace ((2 * p) `min` p)%nat with p by lia. destruct (decide (p <= length r)%nat).
  - do 2 f_equal. lia.
  - rewrite (drop_ge r) by lia. by rewrite !take_nil.
Qed.

Lemma below_length {A} k q (l : list A) : length (below k q l) = (2 ^ k `min` (length l - q * 2 ^ k))%nat.
Proof. unfold below. by rewrite length_take, length_drop. Qed.

Section node.
Context (N : nat) (HN : Z.of_nat N < 2 ^ 30).

Abbreviation n := (Z.of_nat N).

Lemma pow_small k : (k <= 30)%nat -> 1 <= Z.of_nat (2 ^ k) <= 2 ^ 30.
Proof.
  intros. rewrite Nat2Z.inj_pow. split; [|apply Z.pow_le_mono_r; lia]. pose proof (Z.pow_pos_nonneg (Z.of_nat 2) (Z.of_nat k)). lia.
Qed.

Lemma width_spec k q : (k <= 30)%nat -> (Z.of_nat q <? CalcTreeWidth n k) = (q * 2 ^ k <? N)%nat.
Proof.
  intros Hk. pose proof (pow_small k Hk) as Hp.
  unfold CalcTreeWidth. rewrite Z.shiftl_mul_pow2, Z.mul_1_l, <- (Nat2Z.inj_pow 2) by lia.
  rewrite Z.shiftr_div_pow2, <- (Nat2Z.inj_pow 2) by lia. revert Hp. generalize (2 ^ k)%nat. intros p Hp.
  rewrite u32_small by lia.
  apply Bool.eq_iff_eq_true. rewrite Z.ltb_lt, Nat.ltb_lt. split; intros H.
  - assert (Z.of_nat q + 1 <= (n + Z.of_nat p - 1) / Z.of_nat p) as H1 by lia.
    apply (Z.mul_le_mono_nonneg_l _ _ (Z.of_nat p)) in H1; [|lia].
    pose proof (Z.mul_div_le (n + Z.of_nat p - 1) (Z.of_nat p) ltac:(lia)). nia.
  - assert (Z.of_nat q + 1 <= (n + Z.of_nat p - 1) / Z.of_nat p) as H1; [|lia].
    apply Z.div_le_lower_bound; [lia|]. nia.
Qed.

(** The children of a node: the left one exists, the right one when the code
    says so. *)
Lemma children k q :
  (S k <= 30)%nat -> (q * 2 ^ S k < N)%nat ->
  u32 (Z.of_nat q * 2) = Z.of_nat (2 * q) /\ u32 (Z.of_nat q * 2 + 1) = Z.of_nat (2 * q + 1) /\
  (2 * q * 2 ^ k < N)%nat /\
  (u32 (Z.of_nat q * 2 + 1) <? CalcTreeWidth n k) = ((2 * q + 1) * 2 ^ k <? N)%nat.
Proof.
  intros Hk Hq. pose proof (pow_small k ltac:(lia)) as Hp. rewrite Nat.pow_succ_r' in Hq.
  replace (Z.of_nat q * 2 + 1) with (Z.of_nat (2 * q + 1)) by lia. rewrite <- (width_spec k (2 * q + 1)) by lia.
  revert Hq Hp. generalize (2 ^ k)%nat. intros p Hq Hp. assert (2 * q + 1 <= N)%nat by nia.
  rewrite !u32_small by lia. split; [lia|]. split; [lia|]. split; [nia|done].
Qed.

Lemma tree_below l k q :
  length l = N -> (q * 2 ^ S k < N)%nat ->
  tree Hash (S k) (below (S k) q l) =
  if ((2 * q + 1) * 2 ^ k <? N)%nat then Hash (tree Hash k (below k (2 * q) l)) (tree Hash k (below k (2 * q + 1) l))
  else Hash (tree Hash k (below k (2 * q) l)) (tree Hash k (below k (2 * q) l)).
Proof.
  intros Hl Hq. rewrite below_split. pose proof (below_length k (2 * q) l) as L1.
  pose proof (below_length k (2 * q + 1) l) as L2. pose proof (Nat.pow_nonzero 2 k ltac:(lia)).
  destruct (Nat.ltb_spec ((2 * q + 1) * 2 ^ k) N).
  - apply tree_full; [nia|]. intros E. rewrite E in L2. cbn [length] in L2. nia.
  - assert (below k (2 * q + 1) l = []) as -> by (apply length_zero_iff_nil; nia).
    rewrite app_nil_r. apply tree_half. nia.
Qed.

Lemma CalcHash_spec l k q :
  length l = N -> (k <= 30)%nat -> (q * 2 ^ k < N)%nat -> CalcHash n l k (Z.of_nat q) = Some (tree Hash k (below k q l)).
Proof.
  intros Hl. revert q; induction k as [|k IH]; intros q Hk Hq.
  - cbn [CalcHash tree]. rewrite Nat2Z.id. unfold below. rewrite Nat.pow_0_r, Nat.mul_1_r in *.
    destruct (lookup_lt_is_Some_2 l q) as [x Hx]; [lia|]. by rewrite (drop_S _ _ _ Hx), Hx.
  - destruct (children k q Hk Hq) as (E1 & E2 & Hq1 & Hw). cbn [CalcHash]. rewrite Hw, E1, E2, (IH (2 * q)%nat) by (done || lia).
    cbn [mbind option_bind]. rewrite tree_below by done. destruct (Nat.ltb_spec ((2 * q + 1) * 2 ^ k) N); [|done].
    by rewrite IH by (done || lia).
Qed.

Lemma any_match_spec m fuel p last_ f :
  length m = N -> Z.of_nat last_ < 2 ^ 31 -> (p <= last_)%nat -> (N - p <= fuel)%nat ->
  any_match fuel n m (Z.of_nat p) (Z.of_nat last_) f = Some (f || existsb id (take (last_ - p) (drop p m))).
Proof.
  intros Hm Hlast.
  revert p f; induction fuel as [|fuel IH]; intros p f Hp Hf; cbn [any_match].
  - rewrite (proj2 (Z.ltb_ge (Z.of_nat p) n)), andb_false_r by lia.
    rewrite drop_ge, take_nil by lia. by rewrite orb_false_r.
  - destruct (Z.ltb_spec (Z.of_nat p) (Z.of_nat last_)) as [H1|H1]; cbn [andb].
    2: { replace (last_ - p)%nat with 0%nat by lia. by rewrite take_0, orb_false_r. }
    destruct (Z.ltb_spec (Z.of_nat p) n) as [H2|H2].
    2: { rewrite drop_ge, take_nil by lia. by rewrite orb_false_r. }
    destruct (lookup_lt_is_Some_2 m p) as [b Hb]; [lia|]. rewrite Nat2Z.id, Hb. cbn [mbind option_bind].
    rewrite u32_small by lia. replace (Z.of_nat p + 1) with (Z.of_nat (S p)) by lia. rewrite IH by lia.
    rewrite (drop_S _ _ _ Hb). replace (last_ - p)%nat with (S (last_ - S p)) by lia. cbn [take existsb id].
    by rewrite orb_assoc.
Qed.

Lemma parent_of_match m k q :
  length m = N -> (k <= 30)%nat -> (q * 2 ^ k < N)%nat ->
  any_match (length m) n m (u32 (Z.shiftl (Z.of_nat q) (Z.of_nat k))) (u32 (Z.shiftl (Z.of_nat q + 1) (Z.of_nat k))) false =
  Some (existsb id (below k q m)).
Proof.
  intros Hm Hk Hq. pose proof (pow_small k Hk) as Hp.
  rewrite !Z.shiftl_mul_pow2, <- (Nat2Z.inj_pow 2) by lia. unfold below. revert Hq Hp. generalize (2 ^ k)%nat. intros p Hq Hp.
  replace (Z.of_nat q + 1) with (Z.of_nat (S q)) by lia. rewrite <- !Nat2Z.inj_mul. rewrite !u32_small by nia.
  rewrite any_match_spec by (done || nia). cbn [orb]. do 3 f_equal. nia.
Qed.

(** ** Reading back what was built *)

Lemma below_cut {A B} k q (l : list A) (m : list B) : length l = length m -> length (below k q l) = length (below k q m).
Proof. intros E. by rewrite !below_length, E. Qed.

Lemma siblings_below l k q :
  length l = N -> (q * 2 ^ S k < N)%nat -> siblings_differ (S k) (below (S k) q l) = true ->
  siblings_differ k (below k (2 * q) l) = true /\
  (((2 * q + 1) * 2 ^ k < N)%nat ->
   tree Hash k (below k (2 * q + 1) l) <> tree Hash k (below k (2 * q) l) /\ siblings_differ k (below k (2 * q + 1) l) = true).
Proof.
  intros Hl Hq. rewrite below_split. pose proof (below_length k (2 * q) l) as L1.
  pose proof (below_length k (2 * q + 1) l) as L2. rewrite Hl in L1, L2. pose proof (Nat.pow_nonzero 2 k ltac:(lia)).
  cbn [siblings_differ]. destruct (decide ((2 * q + 1) * 2 ^ k < N)%nat) as [Hr|Hr].
  - destruct (split_full k (below k (2 * q) l) (below k (2 * q + 1) l)) as [-> ->]; [nia|].
    destruct (below k (2 * q + 1) l) as [|y r] eqn:Er; [cbn [length] in L2; nia|].
    intros ((H1 & H2)%andb_prop & H3)%andb_prop. split; [done|]. intros _. split; [|done]. intros E. rewrite E, Z.eqb_refl in H1. done.
  - assert (below k (2 * q + 1) l = []) as -> by (apply length_zero_iff_nil; nia). rewrite app_nil_r.
    destruct (split_half k (below k (2 * q) l)) as [-> ->]; [nia|]. cbn [andb].
    intros (H1 & _)%andb_prop. split; [done|]. intros. lia.
Qed.

(** What the second traversal finds where the first one wrote. *)
Definition reads_back (t : CPartialMerkleTree) (k q : nat) (bits : list bool) (hashes : list uint256) (l : list uint256)
    (m : list bool) : Prop :=
  forall e b1 b2 h1 h2,
    vBits t = b1 ++ bits ++ b2 -> nBitsUsed e = length b1 -> vHash t = h1 ++ hashes ++ h2 -> nHashUsed e = length h1 ->
    TraverseAndExtract t k (Z.of_nat q) e =
    (tree Hash k (below k q l),
     mkExtraction (length (b1 ++ bits)) (length (h1 ++ hashes))
       (ex_vMatch e ++ (selected (q * 2 ^ k) (below k q l) (below k q m)).*2)
       (ex_vnIndex e ++ (selected (q * 2 ^ k) (below k q l) (below k q m)).*1) (ex_fBad e)).

Lemma leaf_reads_back t k q l m x :
  nTransactions t = n -> existsb id (below k q m) = x -> (k = 0%nat \/ x = false) -> length l = N -> length m = N ->
  (q * 2 ^ k < N)%nat -> reads_back t k q [x] [tree Hash k (below k q l)] l m.
Proof.
  intros Ht Hx Hk Hl Hm Hq e b1 b2 h1 h2 Hb Eb Hh Eh.
  assert (TraverseAndExtract t k (Z.of_nat q) e =
    (tree Hash k (below k q l),
     mkExtraction (S (length b1)) (S (length h1))
       (if (k =? 0)%nat && x then ex_vMatch e ++ [tree Hash k (below k q l)] else ex_vMatch e)
       (if (k =? 0)%nat && x then ex_vnIndex e ++ [Z.of_nat q] else ex_vnIndex e) (ex_fBad e))) as ->.
  { assert (vBits t !! nBitsUsed e = Some x) as Lb by (rewrite Hb, Eb; by apply list_lookup_middle).
    assert (vHash t !! nHashUsed e = Some (tree Hash k (below k q l))) as Lh by (rewrite Hh, Eh; by apply list_lookup_middle).
    destruct k as [|k]; cbn [TraverseAndExtract]; rewrite Lb; cbn [nHashUsed next_bit nBitsUsed ex_vMatch ex_vnIndex ex_fBad].
    - rewrite Lh, Eb, Eh. done.
    - destruct Hk as [Hk0 | ->]; [done|]. cbn [negb]. rewrite Lh, Eb, Eh. done. }
  rewrite !length_app. cbn [length]. rewrite !Nat.add_1_r. destruct x.
  - destruct Hk as [->|]; [|done]. cbn [Nat.eqb andb]. unfold below in *. rewrite Nat.pow_0_r, Nat.mul_1_r in *.
    destruct (lookup_lt_is_Some_2 l q) as [y Hy]; [lia|]. destruct (lookup_lt_is_Some_2 m q) as [b Hb']; [lia|].
    rewrite (drop_S _ _ _ Hy), (drop_S _ _ _ Hb') in *. cbn in Hx. destruct b; [|done]. cbn. done.
  - rewrite andb_false_r, selected_none by done. cbn. by rewrite !app_nil_r.
Qed.

(** The leaves selected below a node are those selected below its children. *)
Lemma selected_below k q l m : length l = N -> length m = N ->
  selected (q * 2 ^ S k) (below (S k) q l) (below (S k) q m) =
  selected (2 * q * 2 ^ k) (below k (2 * q) l) (below k (2 * q) m) ++
  selected ((2 * q + 1) * 2 ^ k) (below k (2 * q + 1) l) (below k (2 * q + 1) m).
Proof.
  intros Hl Hm. destruct (decide ((2 * q + 1) * 2 ^ k < N)%nat).
  - rewrite !below_split, selected_app by (apply below_cut; lia). rewrite Nat.pow_succ_r'. do 2 f_equal; [lia|].
    rewrite below_length. nia.
  - assert (below k (2 * q + 1) l = [] /\ below k (2 * q + 1) m = []) as [El Em]
      by (split; apply length_zero_iff_nil; rewrite below_length; nia).
    rewrite !below_split, El, Em, !app_nil_r, Nat.pow_succ_r'. f_equal. lia.
Qed.

(** What an inner node wrote is read back when its children's parts are. *)
Lemma inner_reads_back t k q l m bits1 hashes1 bits2 hashes2 :
  nTransactions t = n -> length l = N -> length m = N -> (S k <= 30)%nat -> (q * 2 ^ S k < N)%nat ->
  ((2 * q + 1) * 2 ^ k < N)%nat ->
  tree Hash k (below k (2 * q + 1) l) <> tree Hash k (below k (2 * q) l) ->
  reads_back t k (2 * q) bits1 hashes1 l m -> reads_back t k (2 * q + 1) bits2 hashes2 l m ->
  reads_back t (S k) q ([true] ++ bits1 ++ bits2) (hashes1 ++ hashes2) l m.
Proof.
  intros Ht Hl Hm Hk Hq Hr Hne R1 R2 e b1 b2 h1 h2 Hb Eb Hh Eh.
  destruct (children k q Hk Hq) as (E1 & E2 & Hq1 & Hw). cbn [TraverseAndExtract].
  assert (vBits t !! nBitsUsed e = Some true) as -> by (rewrite Hb, Eb; by apply list_lookup_middle).
  cbn [negb]. rewrite E1, E2, Ht.
  rewrite (R1 (next_bit e) (b1 ++ [true]) (bits2 ++ b2) h1 (hashes2 ++ h2));
    [|rewrite Hb, <- !app_assoc; done|rewrite length_app; cbn; lia|rewrite Hh, <- !app_assoc; done|done].
  rewrite width_spec, (proj2 (Nat.ltb_lt _ _)) by (done || lia).
  rewrite (R2 _ ((b1 ++ [true]) ++ bits1) b2 (h1 ++ hashes1) h2);
    [|rewrite Hb, <- !app_assoc; done|done|rewrite Hh, <- !app_assoc; done|done].
  cbn [ex_vMatch ex_vnIndex ex_fBad next_bit]. rewrite (proj2 (Z.eqb_neq _ _)) by done.
  rewrite tree_below, (proj2 (Nat.ltb_lt _ _)), selected_below by done.
  rewrite !fmap_app, !app_assoc, <- !app_assoc. done.
Qed.

Lemma single_reads_back t k q l m bits hashes :
  nTransactions t = n -> length l = N -> length m = N -> (S k <= 30)%nat -> (q * 2 ^ S k < N)%nat ->
  (N <= (2 * q + 1) * 2 ^ k)%nat ->
  reads_back t k (2 * q) bits hashes l m -> reads_back t (S k) q ([true] ++ bits) hashes l m.
Proof.
  intros Ht Hl Hm Hk Hq Hr R e b1 b2 h1 h2 Hb Eb Hh Eh.
  destruct (children k q Hk Hq) as (E1 & _ & _ & Hw). cbn [TraverseAndExtract].
  assert (vBits t !! nBitsUsed e = Some true) as -> by (rewrite Hb, Eb; by apply list_lookup_middle).
  cbn [negb]. rewrite E1, Ht.
  rewrite (R (next_bit e) (b1 ++ [true]) b2 h1 h2);
    [|rewrite Hb, <- !app_assoc; done|rewrite length_app; cbn; lia|done|done].
  rewrite Hw. cbn [ex_vMatch ex_vnIndex ex_fBad next_bit].
  rewrite tree_below, (proj2 (Nat.ltb_ge _ _)), selected_below by done.
  assert (below k (2 * q + 1) l = []) as -> by (apply length_zero_iff_nil; rewrite below_length; nia).
  cbn [selected]. rewrite app_nil_r. by rewrite <- !app_assoc.
Qed.

Lemma build_extract l m k q s :
  length l = N -> length m = N -> (k <= 30)%nat -> (q * 2 ^ k < N)%nat -> siblings_differ k (below k q l) = true ->
  exists bits hashes,
    TraverseAndBuild n l m k (Z.of_nat q) s = Some (s.1 ++ bits, s.2 ++ hashes) /\
    (length hashes <= length bits < 2 ^ S k)%nat /\ (length hashes <= length (below k q l))%nat /\
    Forall (fun h => exists k q, (k <= 30)%nat /\ (q * 2 ^ k < N)%nat /\ h = tree Hash k (below k q l)) hashes /\
    forall t, nTransactions t = n -> reads_back t k q bits hashes l m.
Proof.
  intros Hl Hm. revert q s; induction k as [|k IH]; intros q s Hk Hq Hd.
  { exists [existsb id (below 0 q m)], [tree Hash 0 (below 0 q l)]. cbn [TraverseAndBuild].
    rewrite parent_of_match by done. cbn [mbind option_bind]. rewrite CalcHash_spec by done. split; [done|].
    split; [cbn; lia|]. split; [rewrite below_length, Nat.pow_0_r, Hl in *; cbn [length]; lia|]. split; [constructor; [by exists 0%nat, q|done]|].
    intros t Ht. by apply leaf_reads_back; try done; left. }
  destruct (children k q Hk Hq) as (E1 & E2 & Hq1 & Hw). destruct (siblings_below l k q Hl Hq Hd) as [Hd1 Hd2].
  cbn [TraverseAndBuild]. rewrite parent_of_match by done. cbn [mbind option_bind fst snd].
  destruct (existsb id (below (S k) q m)) eqn:Ex; cbn [negb].
  2: { exists [false], [tree Hash (S k) (below (S k) q l)].
       pose proof (Nat.pow_nonzero 2 (S k) ltac:(lia)) as Hz.
       rewrite CalcHash_spec by done. split; [done|]. split; [rewrite (Nat.pow_succ_r' 2 (S k)); cbn [length]; lia|].
       split; [rewrite below_length, Hl; cbn [length]; lia|].
       split; [constructor; [by exists (S k), q|done]|]. intros t Ht. by apply leaf_reads_back; try done; right. }
  destruct (IH (2 * q)%nat (s.1 ++ [true], s.2) ltac:(lia) Hq1 Hd1) as (bits1 & hashes1 & B1 & L1 & M1 & F1 & R1).
  rewrite E1, B1. cbn [mbind option_bind fst snd]. rewrite Hw, E2.
  assert (length (below (S k) q l) = length (below k (2 * q) l) + length (below k (2 * q + 1) l))%nat as Lb
    by (by rewrite below_split, length_app).
  destruct (Nat.ltb_spec ((2 * q + 1) * 2 ^ k) N) as [Hr|Hr].
  - destruct (Hd2 Hr) as [Hne Hd3].
    destruct (IH (2 * q + 1)%nat ((s.1 ++ [true]) ++ bits1, s.2 ++ hashes1) ltac:(lia) Hr Hd3)
      as (bits2 & hashes2 & B2 & L2 & M2 & F2 & R2).
    exists ([true] ++ bits1 ++ bits2), (hashes1 ++ hashes2). rewrite B2. cbn [fst snd]. rewrite <- !app_assoc. split; [done|].
    rewrite !length_app. cbn [length]. rewrite (Nat.pow_succ_r' 2 (S k)). split; [lia|]. split; [lia|]. split; [by apply Forall_app|].
    intros t Ht. apply inner_reads_back; auto.
  - exists ([true] ++ bits1), hashes1. split; [by rewrite <- app_assoc|]. cbn [app length].
    rewrite (Nat.pow_succ_r' 2 (S k)). split; [lia|]. split; [lia|]. split; [done|].
    intros t Ht. apply single_reads_back; auto.
Qed.

Lemma nHeight_spec : (0 < N)%nat -> nHeight_of n = Some (height N) /\ (height N <= 30)%nat.
Proof.
  intros Hpos. unfold nHeight_of, height.
  assert (Nat.log2_up N <= 30)%nat as H30.
  { destruct (decide (N = 1)%nat) as [->|]; [cbn; lia|]. apply Nat.log2_up_le_pow2; [lia|]. apply Nat2Z.inj_le.
    rewrite Nat2Z.inj_pow. change (Z.of_nat 2 ^ Z.of_nat 30) with (2 ^ 30). lia. }
  split; [|done].
  assert (forall fuel h, (h <= Nat.log2_up N)%nat -> (Nat.log2_up N <= h + fuel)%nat ->
    tree_height_loop fuel n h = Some (Nat.log2_up N)) as Hloop; [|apply Hloop; lia].
  assert (forall h, (h <= 30)%nat -> (CalcTreeWidth n h <=? 1) = negb (2 ^ h <? N)%nat) as Hw.
  { intros h Hh. rewrite <- (Nat.mul_1_l (2 ^ h)), <- (width_spec h 1) by done. rewrite Z.leb_antisym. done. }
  assert (forall h, (h < Nat.log2_up N)%nat -> (2 ^ h < N)%nat) as Hlt by (intros h Hh; by apply Nat.log2_up_lt_pow2).
  assert (N <= 2 ^ Nat.log2_up N)%nat as Htop.
  { destruct (decide (N = 1)%nat) as [->|]; [cbn; lia|]. apply Nat.log2_up_spec. lia. }
  induction fuel as [|fuel IH]; intros h H1 H2; cbn [tree_height_loop]; rewrite Hw by lia.
  - assert (h = Nat.log2_up N) as -> by lia. by rewrite (proj2 (Nat.ltb_ge _ _)).
  - destruct (decide (h = Nat.log2_up N)) as [->|Hne]; [by rewrite (proj2 (Nat.ltb_ge _ _))|].
    rewrite (proj2 (Nat.ltb_lt _ _)) by (apply Hlt; lia). cbn [negb]. apply IH; lia.
Qed.

End node.

(** The whole list is below the root. *)
Lemma below_root (l : list uint256) : (0 < length l)%nat -> below (height (length l)) 0 l = l.
Proof. intros H. unfold below. rewrite drop_0. apply take_ge. by apply height_bound. Qed.

Lemma below_root_bits (m : list bool) (l : list uint256) : (0 < length l)%nat -> length m = length l ->
  below (height (length l)) 0 m = m.
Proof. intros H E. unfold below. rewrite drop_0. apply take_ge. rewrite E. by apply height_bound. Qed.

Definition max_transactions : Z := MAX_BLOCK_BASE_SIZE / 60.

(** Reading with bits behind those written, as many as fill the last byte. *)
Lemma new_extract vTxid vMatch vnIndex :
  (0 < length vTxid)%nat -> Z.of_nat (length vTxid) <= max_transactions -> length vMatch = length vTxid ->
  siblings_differ (height (length vTxid)) vTxid = true ->
  exists bits hashes,
    CPartialMerkleTree_new vTxid vMatch = Some (mkPartial (Z.of_nat (length vTxid)) bits hashes false) /\
    (length hashes <= length vTxid)%nat /\ (length bits < 2 ^ S (height (length vTxid)))%nat /\
    Forall (fun h => exists k q, (k <= 30)%nat /\ (q * 2 ^ k < length vTxid)%nat /\ h = tree Hash k (below k q vTxid)) hashes /\
    forall pad, ((length bits + 7) / 8 = (length (bits ++ pad) + 7) / 8)%nat ->
      let t := mkPartial (Z.of_nat (length vTxid)) (bits ++ pad) hashes false in
      ExtractMatches t vnIndex =
      (level_root Hash (height (length vTxid)) vTxid, (selected 0 vTxid vMatch).*2, vnIndex ++ (selected 0 vTxid vMatch).*1, t).
Proof.
  intros Hpos Hmax Hm Hd. assert (max_transactions = 33333) as Emax by done.
  assert (Z.of_nat (length vTxid) < 2 ^ 30) as HN by lia.
  destruct (nHeight_spec (length vTxid) HN Hpos) as [Hh Hh30].
  destruct (build_extract (length vTxid) HN vTxid vMatch (height (length vTxid)) 0 ([], [])) as
    (bits & hashes & B & L1 & L2 & F & R); [done|done|done|cbn; lia|by rewrite below_root|].
  exists bits, hashes. unfold CPartialMerkleTree_new. rewrite u32_small by lia. rewrite Hh. cbn [mbind option_bind].
  change 0 with (Z.of_nat 0) at 1. rewrite B. cbn [mbind option_bind fst snd app]. split; [done|]. rewrite below_root in L2 by done.
  split; [done|]. split; [lia|]. split; [done|]. intros pad Hpad.
  pose proof (R (mkPartial (Z.of_nat (length vTxid)) (bits ++ pad) hashes false) eq_refl (mkExtraction 0 0 [] vnIndex false) [] pad [] []
    eq_refl eq_refl (eq_sym (app_nil_r _)) eq_refl) as E. change (Z.of_nat 0) with 0 in E.
  unfold ExtractMatches. cbn [nTransactions vHash vBits fBad].
  rewrite (proj2 (Z.eqb_neq _ _)) by lia. fold max_transactions. rewrite (proj2 (Z.ltb_ge _ _)) by lia.
  rewrite (proj2 (Z.ltb_ge _ _)) by lia. rewrite (proj2 (Nat.ltb_ge _ _)) by (rewrite length_app; lia).
  rewrite Hh. change (default 0%nat (Some (height (length vTxid)))) with (height (length vTxid)). rewrite E.
  cbn [ex_fBad nBitsUsed nHashUsed ex_vMatch ex_vnIndex app]. rewrite <- Hpad, Nat.eqb_refl, Nat.eqb_refl. cbn [negb].
  rewrite below_root by done. rewrite (below_root_bits vMatch vTxid) by done. rewrite Nat.mul_0_l.
  rewrite tree_levels; [done|]. split; [done|by apply height_bound].
Qed.

(** ** Soundness *)

Lemma bad_sticky t k pos e : ex_fBad e = true -> ex_fBad (TraverseAndExtract t k pos e).2 = true.
Proof.
  revert pos e; induction k as [|k IH]; intros pos e He; cbn [TraverseAndExtract].
  - destruct (vBits t !! _); [|done]. by destruct (vHash t !! _).
  - destruct (vBits t !! _) as [b|]; [|done]. destruct b; cbn [negb]; [|by destruct (vHash t !! _)].
    specialize (IH (u32 (pos * 2)) (next_bit e) He) as H1. destruct (TraverseAndExtract t k (u32 (pos * 2)) (next_bit e)) as [lhs s1].
    destruct (_ <? _); [|done]. specialize (IH (u32 (pos * 2 + 1)) s1 H1) as H2.
    destruct (TraverseAndExtract t k (u32 (pos * 2 + 1)) s1) as [rhs s2]. cbn [snd] in *. by destruct (rhs =? lhs).
Qed.

Definition node (x : uint256) : Prop := exists y z, x = Hash y z.

Section sound.
Context (Hinj : forall x1 x2 y1 y2, Hash x1 x2 = Hash y1 y2 -> x1 = y1 /\ x2 = y2).
Context (t : CPartialMerkleTree) (N : nat) (HN : Z.of_nat N < 2 ^ 30) (Ht : nTransactions t = Z.of_nat N).

(** What a leaf adds. *)
Lemma extract_leaf_sound q e h e' k2 l :
  TraverseAndExtract t 0 (Z.of_nat q) e = (h, e') -> ex_fBad e' = false ->
  h = tree Hash k2 l -> (0 < length l <= 2 ^ k2)%nat ->
  exists ms ix, ex_vMatch e' = ex_vMatch e ++ ms /\ ex_vnIndex e' = ex_vnIndex e ++ ix /\
    ((forall x, x ∈ ms -> ~ node x) ->
     Forall2 (fun i x => 0%nat = k2 /\ exists j, i = Z.of_nat (q * 2 ^ 0 + j) /\ l !! j = Some x) ix ms).
Proof.
  cbn [TraverseAndExtract]. intros E Hbad Eh Hl.
  destruct (vBits t !! _) as [b|]; [|injection E as <- <-; done]. destruct (vHash t !! _) as [hash|]; [|injection E as <- <-; done].
  injection E as <- <-. cbn [Nat.eqb andb ex_vMatch ex_vnIndex next_bit]. destruct b.
  - exists [hash], [Z.of_nat q]. split; [done|]. split; [done|]. intros Hn. constructor; [|done]. destruct k2 as [|k2].
    + split; [done|]. exists 0%nat. split; [rewrite Nat.pow_0_r; f_equal; lia|]. destruct l as [|x l]; [cbn in Hl; lia|]. cbn in Eh. by subst.
    + exfalso. apply (Hn hash); [left|]. rewrite Eh. cbn [tree]. destruct (drop _ l); by eexists _, _.
  - exists [], []. by rewrite !app_nil_r.
Qed.

(** What a traversal adds, when the hash it returns is the one of a tree of
    any height over [l]. *)
Lemma extract_sound k1 q e h e' k2 l :
  (k1 <= 30)%nat -> (q * 2 ^ k1 < N)%nat ->
  TraverseAndExtract t k1 (Z.of_nat q) e = (h, e') -> ex_fBad e' = false ->
  h = tree Hash k2 l -> (0 < length l <= 2 ^ k2)%nat -> (forall x, x ∈ l -> ~ node x) ->
  exists ms ix, ex_vMatch e' = ex_vMatch e ++ ms /\ ex_vnIndex e' = ex_vnIndex e ++ ix /\
    ((forall x, x ∈ ms -> ~ node x) ->
     Forall2 (fun i x => k1 = k2 /\ exists j, i = Z.of_nat (q * 2 ^ k1 + j) /\ l !! j = Some x) ix ms).
Proof.
  revert q e h e' k2 l; induction k1 as [|k1 IH]; intros q e h e' k2 l Hk Hq E Hbad Eh Hl Hleaf; cbn [TraverseAndExtract] in E.
  - by apply (extract_leaf_sound q e h e' k2 l).
  - destruct (vBits t !! _) as [b|]; [|injection E as <- <-; done]. destruct b; cbn [negb] in E.
    2: { destruct (vHash t !! _) as [hash|]; injection E as <- <-; [|done]. exists [], []. cbn [Nat.eqb andb]. by rewrite !app_nil_r. }
    destruct (children N HN k1 q Hk Hq) as (E1 & E2 & Hq1 & Hw). rewrite E1, Ht in E. rewrite Hw in E.
    destruct k2 as [|k2].
    { exfalso. destruct l as [|x l]; [cbn in Hl; lia|]. cbn in Eh. apply (Hleaf x); [left|]. rewrite <- Eh.
      destruct (TraverseAndExtract t k1 _ (next_bit e)) as [lhs s1]. case_match; [|injection E as <- _; by eexists _, _].
      destruct (TraverseAndExtract t k1 _ s1) as [rhs s2]. injection E as <- _. by eexists _, _. }
    assert (forall x, x ∈ take (2 ^ k2) l -> ~ node x) as Hleaf1.
    { intros x (i & Hi & _)%elem_of_take. apply Hleaf. by apply list_elem_of_lookup_2 in Hi. }
    assert (0 < length (take (2 ^ k2) l) <= 2 ^ k2)%nat as Hl1.
    { rewrite length_take. pose proof (Nat.pow_nonzero 2 k2). lia. }
    destruct (TraverseAndExtract t k1 (Z.of_nat (2 * q)) (next_bit e)) as [lhs s1] eqn:T1.
    assert (forall i x, (k1 = k2 /\ exists j, i = Z.of_nat (2 * q * 2 ^ k1 + j) /\ take (2 ^ k2) l !! j = Some x) ->
      S k1 = S k2 /\ exists j, i = Z.of_nat (q * 2 ^ S k1 + j) /\ l !! j = Some x) as Hleft.
    { intros i x (-> & j & -> & Hj). split; [done|]. exists j. rewrite Nat.pow_succ_r'. split; [f_equal; lia|].
      apply lookup_take_Some in Hj. tauto. }
    destruct (Nat.ltb_spec ((2 * q + 1) * 2 ^ k1) N) as [Hr|Hr].
    + rewrite E2 in E. destruct (TraverseAndExtract t k1 (Z.of_nat (2 * q + 1)) s1) as [rhs s2] eqn:T2.
      injection E as <- Es. destruct (Z.eqb_spec rhs lhs) as [->|Hne]; [by subst e'|]. subst s2.
      assert (ex_fBad s1 = false) as Hb1.
      { apply not_true_is_false. intros Hb. pose proof (bad_sticky t k1 (Z.of_nat (2 * q + 1)) s1 Hb) as H. rewrite T2 in H. cbn in H. congruence. }
      cbn [tree] in Eh. destruct (drop (2 ^ k2) l) as [|y r] eqn:Ed; apply Hinj in Eh as [Ea Eb]; [congruence|].
      destruct (IH _ _ _ _ k2 (take (2 ^ k2) l) ltac:(lia) Hq1 T1 Hb1 Ea Hl1 Hleaf1) as (ms1 & is1 & V1 & I1 & F1).
      destruct (IH _ _ _ _ k2 (y :: r) ltac:(lia) Hr T2 Hbad Eb) as (ms2 & is2 & V2 & I2 & F2).
      { rewrite <- Ed, length_drop. assert (length (drop (2 ^ k2) l) = length (y :: r)) as Hlen by by rewrite Ed.
        rewrite length_drop in Hlen. cbn [length] in Hlen. rewrite Nat.pow_succ_r' in Hl. lia. }
      { intros x Hx. apply Hleaf. rewrite <- (take_drop (2 ^ k2) l), Ed. apply elem_of_app. by right. }
      exists (ms1 ++ ms2), (is1 ++ is2). rewrite V2, V1, I2, I1. cbn [ex_vMatch ex_vnIndex next_bit]. rewrite <- !app_assoc.
      split; [done|]. split; [done|]. intros Hn. apply Forall2_app.
      * eapply Forall2_impl; [apply F1; intros x Hx; apply Hn, elem_of_app; by left|]. exact Hleft.
      * eapply Forall2_impl; [apply F2; intros x Hx; apply Hn, elem_of_app; by right|].
        intros i x (-> & j & -> & Hj). split; [done|]. exists (2 ^ k2 + j)%nat. rewrite Nat.pow_succ_r'. split; [f_equal; nia|].
        rewrite <- Ed, lookup_drop in Hj. exact Hj.
    + injection E as <- <-. cbn [tree] in Eh.
      assert (lhs = tree Hash k2 (take (2 ^ k2) l)) as Ea by (destruct (drop (2 ^ k2) l); by apply Hinj in Eh as [? _]).
      destruct (IH _ _ _ _ k2 (take (2 ^ k2) l) ltac:(lia) Hq1 T1 Hbad Ea Hl1 Hleaf1) as (ms1 & is1 & V1 & I1 & F1).
      exists ms1, is1. split; [done|]. split; [done|]. intros Hn. eapply Forall2_impl; [by apply F1|]. exact Hleft.
Qed.

End sound.

(** With an injective hash function, different transactions are enough. *)
Lemma NoDup_siblings k l :
  (forall x1 x2 y1 y2, Hash x1 x2 = Hash y1 y2 -> x1 = y1 /\ x2 = y2) -> NoDup l -> siblings_differ k l = true.
Proof.
  intros Hinj. assert (forall k b c, b <> [] -> c <> [] -> tree Hash k b = tree Hash k c -> hd 0 b = hd 0 c) as Hhd.
  { intros j; induction j as [|j IH]; intros b c Hb Hc E; [done|].
    assert (forall l, exists y, tree Hash (S j) l = Hash (tree Hash j (take (2 ^ j) l)) y) as Hnode
      by (intros r; cbn [tree]; destruct (drop (2 ^ j) r); by eexists).
    destruct (Hnode b) as [y1 E1], (Hnode c) as [y2 E2]. rewrite E1, E2 in E. apply Hinj in E as [E _].
    assert (exists p, 2 ^ j = S p)%nat as [p Hp] by (exists (2 ^ j - 1)%nat; pose proof (Nat.pow_nonzero 2 j); lia).
    rewrite Hp in E. destruct b as [|x b], c as [|z c]; try done. by apply IH in E. }
  revert l; induction k as [|k IH]; intros l Hnd; [done|]. cbn [siblings_differ].
  rewrite <- (take_drop (2 ^ k) l) in Hnd. apply NoDup_app in Hnd as (H1 & H2 & H3).
  rewrite !IH by done. rewrite !andb_true_r. destruct (drop (2 ^ k) l) as [|z r] eqn:Ed; [done|].
  apply negb_true_iff, Z.eqb_neq. intros E. apply Hhd in E; [|intros Et|done].
  - destruct (take (2 ^ k) l) as [|x b] eqn:Et.
    + apply (f_equal length) in Ed. apply (f_equal length) in Et. rewrite length_drop in Ed. rewrite length_take in Et.
      pose proof (Nat.pow_nonzero 2 k). cbn in *. lia.
    + cbn in E. subst z. apply (H2 x); left.
  - apply (f_equal length) in Ed. apply (f_equal length) in Et. rewrite length_drop in Ed. rewrite length_take in Et.
    pose proof (Nat.pow_nonzero 2 k). cbn in *. lia.
Qed.

End partial.

(** ** On the wire ([CPartialMerkleTree::SerializationOp]) *)

Definition pack_bit (bits : list bool) (vBytes : list Z) (p : nat) : list Z :=
  <[(p / 8)%nat := Z.lor (nth (p / 8) vBytes 0) (Z.shiftl (Z.b2z (nth p bits false)) (Z.of_nat (p mod 8)))]> vBytes.

Definition pack_bits (bits : list bool) : list Z :=
  foldl (pack_bit bits) (replicate ((length bits + 7) / 8) 0) (seq 0 (length bits)).

Definition unpack_bits (vBytes : list Z) : list bool :=
  map (fun p => flag_set (nth (p / 8) vBytes 0) (Z.shiftl 1 (Z.of_nat (p mod 8)))) (seq 0 (length vBytes * 8)).

Definition ser_partial (t : CPartialMerkleTree) : list Z :=
  le_bytes 4 (nTransactions t) ++ WriteCompactSize (Z.of_nat (length (vHash t))) ++ flat_map uint256_bytes (vHash t) ++
  WriteVector (pack_bits (vBits t)).

Fixpoint read_hashes (n : nat) : Reader (list uint256) := fun s =>
  match n with
  | O => Some ([], s)
  | S n => do '(h, s) <- read_le 32 s; do '(l, s) <- read_hashes n s; Some (h :: l, s)
  end.

Definition read_partial : Reader CPartialMerkleTree := fun s =>
  do '(n, s) <- read_le 4 s;
  do '(size, s) <- ReadCompactSize s;
  do '(hashes, s) <- read_hashes (Z.to_nat size) s;
  do '(vBytes, s) <- ReadVector s;
  Some (mkPartial n (unpack_bits vBytes) hashes false, s).

Lemma read_hashes_ser l s :
  Forall (fun h => 0 <= h < 2 ^ 256) l -> read_hashes (length l) (flat_map uint256_bytes l ++ s) = Some (l, s).
Proof.
  induction 1 as [|h l Hh _ IH]; [done|]. cbn [length read_hashes flat_map]. rewrite <- app_assoc. unfold uint256_bytes at 1.
  rewrite read_le_bytes by (change (256 ^ Z.of_nat 32) with (2 ^ 256); done). cbn [mbind option_bind]. by rewrite IH.
Qed.

Lemma pack_length bits c : length (foldl (pack_bit bits) (replicate ((length bits + 7) / 8) 0) (seq 0 c)) = ((length bits + 7) / 8)%nat.
Proof.
  induction c as [|c IH]; [apply length_replicate|]. rewrite seq_S, foldl_app. cbn [foldl]. unfold pack_bit at 1.
  by rewrite length_insert.
Qed.

Lemma pack_testbit bits c i j :
  (c <= length bits)%nat -> (j < 8)%nat ->
  Z.testbit (nth i (foldl (pack_bit bits) (replicate ((length bits + 7) / 8) 0) (seq 0 c)) 0) (Z.of_nat j) =
  (8 * i + j <? c)%nat && nth (8 * i + j) bits false.
Proof.
  intros Hc Hj. revert Hc; induction c as [|c IH]; intros Hc.
  { cbn [seq foldl Nat.ltb Nat.leb andb]. rewrite nth_lookup. destruct (replicate _ _ !! i) as [x|] eqn:E; cbn; [|apply Z.bits_0].
    apply lookup_replicate in E as [-> _]. apply Z.bits_0. }
  rewrite seq_S, foldl_app. cbn [foldl Nat.add]. unfold pack_bit at 1. set (bytes := foldl _ _ _) in *.
  assert (length bytes = ((length bits + 7) / 8)%nat) as Hl by apply pack_length.
  pose proof (Nat.div_mod_eq c 8) as Ediv. pose proof (Nat.mod_upper_bound c 8 ltac:(lia)) as Hmod.
  assert (c / 8 < length bytes)%nat as Hlt.
  { rewrite Hl. apply Nat.Div0.div_lt_upper_bound. pose proof (Nat.div_mod_eq (length bits + 7) 8).
    pose proof (Nat.mod_upper_bound (length bits + 7) 8 ltac:(lia)). lia. }
  rewrite nth_lookup. destruct (decide (i = (c / 8)%nat)) as [->|Hne].
  - rewrite list_lookup_insert_eq by done.
    lazymatch goal with |- context [default ?d (Some ?v)] => change (default d (Some v)) with v end. rewrite Z.lor_spec, IH by lia.
    destruct (decide (j = (c mod 8)%nat)) as [->|Hj'].
    + rewrite Z.shiftl_spec, Z.sub_diag by lia. rewrite <- Ediv. rewrite (proj2 (Nat.ltb_ge c c)) by lia.
      rewrite (proj2 (Nat.ltb_lt c (S c))) by lia. cbn [andb orb]. by destruct (nth c bits false).
    + assert (Z.testbit (Z.shiftl (Z.b2z (nth c bits false)) (Z.of_nat (c mod 8))) (Z.of_nat j) = false) as ->.
      { rewrite Z.shiftl_spec by lia. destruct (decide (j < c mod 8)%nat); [apply Z.testbit_neg_r; lia|].
        apply (small_bits _ 1); [|lia]. destruct (nth c bits false); cbn; lia. }
      rewrite orb_false_r. f_equal. destruct (Nat.ltb_spec (8 * (c / 8) + j) c), (Nat.ltb_spec (8 * (c / 8) + j) (S c)); lia || done.
  - rewrite list_lookup_insert_ne by done. rewrite <- nth_lookup, IH by lia. f_equal.
    destruct (Nat.ltb_spec (8 * i + j) c), (Nat.ltb_spec (8 * i + j) (S c)); [done|lia| |done].
    exfalso. apply Hne. assert (8 * i + j = c)%nat as Ec by lia. rewrite <- Ec, Nat.add_comm, Nat.mul_comm, Nat.div_add by lia.
    rewrite Nat.div_small by lia. done.
Qed.

(** Reading gives the bits back, filled with zeros up to a byte. *)
Lemma unpack_pack bits :
  exists pad, unpack_bits (pack_bits bits) = bits ++ pad /\ ((length bits + 7) / 8 = (length (bits ++ pad) + 7) / 8)%nat.
Proof.
  set (c := ((length bits + 7) / 8)%nat). assert (length bits <= c * 8 /\ (c * 8 + 7) / 8 = c)%nat as [Hle Hdiv].
  { unfold c. pose proof (Nat.div_mod_eq (length bits + 7) 8). pose proof (Nat.mod_upper_bound (length bits + 7) 8 ltac:(lia)).
    split; [lia|]. rewrite Nat.add_comm, Nat.div_add, Nat.div_small by lia. done. }
  assert (length (pack_bits bits) = c) as Hc by apply pack_length.
  exists (replicate (c * 8 - length bits) false). split; [|rewrite length_app, length_replicate; fold c; rewrite <- Hdiv at 1; do 2 f_equal; lia].
  apply list_eq. intros p. unfold unpack_bits. rewrite Hc, list_lookup_fmap.
  destruct (decide (p < c * 8)%nat) as [Hp|Hp].
  - rewrite lookup_seq_lt by done. cbn [fmap option_fmap option_map Nat.add]. rewrite flag_testbit by lia. unfold pack_bits.
    rewrite pack_testbit by (done || apply Nat.mod_upper_bound; lia). rewrite <- Nat.div_mod_eq.
    destruct (Nat.ltb_spec p (length bits)) as [Hlt|Hge]; cbn [andb].
    + rewrite lookup_app_l by done. destruct (lookup_lt_is_Some_2 bits p Hlt) as [b Hb]. by rewrite nth_lookup, Hb.
    + rewrite lookup_app_r by done. rewrite lookup_replicate_2 by lia. done.
  - rewrite lookup_seq_ge by lia. symmetry. apply lookup_ge_None. rewrite length_app, length_replicate. lia.
Qed.

Lemma selected_filter i l (txids : gset uint256) :
  (selected i l (map (fun hash => bool_decide (hash ∈ txids)) l)).*2 = filter (fun hash => hash ∈ txids) l.
Proof.
  revert i; induction l as [|x l IH]; intros i; [done|]. cbn [map selected]. rewrite fmap_app, IH, filter_cons.
  repeat case_bool_decide; by repeat case_decide.
Qed.

(** The tree for any marking of the transactions, over the wire. *)
Lemma partial_wire Hash vtx vMatch rest :
  vtx <> [] -> Z.of_nat (length vtx) <= max_transactions -> length vMatch = length vtx ->
  siblings_differ Hash (height (length vtx)) vtx = true ->
  Forall (fun h => 0 <= h < 2 ^ 256) vtx -> (forall x y, 0 <= Hash x y < 2 ^ 256) ->
  exists t t' root,
    CPartialMerkleTree_new Hash vtx vMatch = Some t /\
    read_partial (ser_partial t ++ rest) = Some (t', rest) /\
    ExtractMatches Hash t' [] = (root, (selected 0 vtx vMatch).*2, (selected 0 vtx vMatch).*1, t') /\
    fst <$> ComputeMerkleRoot Hash vtx = Some root.
Proof.
  intros Hne Hmax Hlen Hd Hrange HHash. assert (0 < length vtx)%nat as Hpos by (destruct vtx; cbn; [done|lia]).
  assert (max_transactions = 33333) as Emax by done.
  destruct (new_extract Hash vtx vMatch [] Hpos Hmax Hlen Hd)
    as (bits & hashes & B & Lh & Lb & F & X).
  destruct (unpack_pack bits) as (pad & Ep & Hpad). specialize (X pad Hpad). cbv zeta in X.
  assert (Forall (fun h => 0 <= h < 2 ^ 256) hashes) as Hh.
  { eapply Forall_impl; [exact F|]. intros h (k & q & Hk & Hq & ->). destruct k as [|k]; cbn [tree].
    - rewrite Nat.pow_0_r, Nat.mul_1_r in Hq. unfold below. rewrite Nat.pow_0_r, Nat.mul_1_r.
      destruct (lookup_lt_is_Some_2 vtx q Hq) as [x Hx]. rewrite (drop_S _ _ _ Hx). cbn.
      by apply (Forall_lookup_1 _ _ _ _ Hrange Hx).
    - destruct (drop (2 ^ k) _); apply HHash. }
  eexists _, _, _. split; [exact B|]. split; [|split; [exact X|]].
  - unfold read_partial, ser_partial. cbn [nTransactions vHash vBits]. rewrite <- !app_assoc.
    rewrite read_le_bytes by (change (256 ^ Z.of_nat 4) with (2 ^ 32); lia). cbn [mbind option_bind].
    rewrite CompactSize_read by (unfold MAX_SIZE; lia). cbn [mbind option_bind]. rewrite Nat2Z.id.
    rewrite read_hashes_ser by done. cbn [mbind option_bind].
    assert (Z.of_nat (length bits) < 2 ^ 17) as Hbits.
    { assert (height (length vtx) <= 16)%nat as H16.
      { unfold height. destruct (decide (length vtx = 1%nat)) as [->|]; [cbn; lia|]. apply Nat.log2_up_le_pow2; [lia|].
        apply Nat2Z.inj_le. rewrite Nat2Z.inj_pow. change (Z.of_nat 2 ^ Z.of_nat 16) with 65536. lia. }
      apply Nat2Z.inj_lt in Lb. rewrite Nat2Z.inj_pow in Lb.
      assert (Z.of_nat 2 ^ Z.of_nat (S (height (length vtx))) <= 2 ^ 17) by (apply Z.pow_le_mono_r; lia). lia. }
    rewrite ReadVector_write; [cbn [mbind option_bind]; by rewrite Ep|].
    unfold pack_bits. rewrite pack_length, Nat2Z.inj_div. unfold MAX_SIZE. apply Z.div_le_upper_bound; lia.
  - rewrite ComputeMerkleRoot_tree by (done || lia). cbn. f_equal. apply tree_levels. split; [done|by apply height_bound].
Qed.

(** A filtered block survives the wire: the tree a node builds for the
    transactions a peer asks for, written to bytes and read back (with the bits
    filled up to a byte), gives the peer exactly those transactions in the
    order of the block, and the Merkle root of the block, so that the peer
    accepts it.  No access leaves the vectors and the heights are those of the
    tree. *)
Theorem filtered_block_roundtrip Hash vtx txids rest :
  vtx <> [] -> Z.of_nat (length vtx) <= max_transactions ->
  siblings_differ Hash (height (length vtx)) vtx = true ->
  Forall (fun h => 0 <= h < 2 ^ 256) vtx -> (forall x y, 0 <= Hash x y < 2 ^ 256) ->
  exists t t' root vnIndex,
    CMerkleBlock_of Hash vtx txids = Some t /\
    read_partial (ser_partial t ++ rest) = Some (t', rest) /\
    ExtractMatches Hash t' [] = (root, filter (fun hash => hash ∈ txids) vtx, vnIndex, t') /\
    fst <$> ComputeMerkleRoot Hash vtx = Some root.
Proof.
  intros Hne Hmax Hd Hrange HHash.
  destruct (partial_wire Hash vtx (map (fun hash => bool_decide (hash ∈ txids)) vtx) rest Hne Hmax (length_map _ _) Hd Hrange HHash)
    as (t & t' & root & E1 & E2 & E3 & E4).
  rewrite selected_filter in E3. eauto 10.
Qed.

(** C18: A filtered block is authentic: if the tree a peer sends, whatever its
    bits, hashes and number of transactions, gives the Merkle root of a block,
    then every transaction it reports is at the reported position of that
    block.  The hash function is taken to be injective, and neither the
    transactions of the block nor the reported ones to be hashes of inner nodes
    (a transaction of 64 bytes could be). *)
Theorem filtered_block_authentic Hash vtx t root vMatch vnIndex t' mutated :
  (forall x1 x2 y1 y2, Hash x1 x2 = Hash y1 y2 -> x1 = y1 /\ x2 = y2) ->
  (forall x, x ∈ vtx ++ vMatch -> ~ node Hash x) ->
  vtx <> [] -> Z.of_nat (length vtx) <= 2 ^ 31 -> 0 <= nTransactions t ->
  ComputeMerkleRoot Hash vtx = Some (root, mutated) -> root <> 0 ->
  ExtractMatches Hash t [] = (root, vMatch, vnIndex, t') ->
  Forall2 (fun i x => exists j, i = Z.of_nat j /\ vtx !! j = Some x) vnIndex vMatch.
Proof.
  intros Hinj Hleaf Hne Hsz Hn Hroot Hz HE. assert (max_transactions = 33333) as Emax by done.
  rewrite ComputeMerkleRoot_tree in Hroot by done. injection Hroot as Hroot _.
  unfold ExtractMatches in HE. fold max_transactions in HE.
  destruct (Z.eqb_spec (nTransactions t) 0); [congruence|]. destruct (Z.ltb_spec max_transactions (nTransactions t)); [congruence|].
  destruct (_ <? Z.of_nat _); [congruence|]. destruct (_ <? _)%nat; [congruence|].
  assert (Z.of_nat (Z.to_nat (nTransactions t)) = nTransactions t) as EN by lia. set (N := Z.to_nat (nTransactions t)) in *.
  destruct (nHeight_spec N ltac:(lia) ltac:(lia)) as [Hh H30]. rewrite <- EN, Hh in HE.
  change (default 0%nat (Some (height N))) with (height N) in HE.
  destruct (TraverseAndExtract Hash t (height N) 0 _) as [h s] eqn:ET. cbn zeta beta iota in HE. injection HE as Er Ev Ei _.
  destruct (ex_fBad s) eqn:Eb; [congruence|]. destruct (negb _); [congruence|]. destruct (negb _); [congruence|].
  assert (0 < length vtx)%nat as Hpos by (destruct vtx; cbn; [done|lia]).
  destruct (extract_sound Hash Hinj t N ltac:(lia) (eq_sym EN) (height N) 0 _ h s (height (length vtx)) vtx H30 ltac:(lia) ET Eb ltac:(congruence))
    as (ms & ix & V & I & F).
  { split; [done|by apply height_bound]. }
  { intros x Hx. apply Hleaf, elem_of_app. by left. }
  cbn [ex_vMatch ex_vnIndex app] in V, I. rewrite <- Ev, <- Ei, V, I.
  eapply Forall2_impl; [apply F; intros x Hx; apply Hleaf, elem_of_app; right; congruence|].
  intros i x (_ & j & -> & Hj). by exists j.
Qed.

(** A block of five transactions, of which two are asked for. *)
Definition sum_hash (a b : uint256) : uint256 := (100 + 10 * a + b) mod 2 ^ 256.

Lemma filtered_block_roundtrip_witness :
  exists t t' root vnIndex,
    CMerkleBlock_of sum_hash [1; 2; 3; 4; 5] {[2; 5]} = Some t /\ read_partial (ser_partial t ++ [7]) = Some (t', [7]) /\
    ExtractMatches sum_hash t' [] = (root, [2; 5], vnIndex, t').
Proof.
  destruct (filtered_block_roundtrip sum_hash [1; 2; 3; 4; 5] {[2; 5]} [7]) as (t & t' & root & vn & H1 & H2 & H3 & _).
  - done.
  - vm_compute. discriminate.
  - vm_compute. reflexivity.
  - repeat constructor; vm_compute; done.
  - intros x y. apply Z.mod_pos_bound. vm_compute. reflexivity.
  - exists t, t', root, vn. split; [exact H1|]. split; [exact H2|]. exact H3.
Defined.

(** The position of the transaction in the block, from the proof alone. *)
Lemma filtered_block_authentic_witness :
  exists t root, CMerkleBlock_of pair_hash [-1; -2; -3] {[-3]} = Some t /\
    ExtractMatches pair_hash t [] = (root, [-3], [2], t) /\
    Forall2 (fun i x => exists j, i = Z.of_nat j /\ [-1; -2; -3] !! j = Some x) [2] [-3].
Proof.
  assert (exists t root mutated, CMerkleBlock_of pair_hash [-1; -2; -3] {[-3]} = Some t /\
    ExtractMatches pair_hash t [] = (root, [-3], [2], t) /\ nTransactions t = 3 /\
    ComputeMerkleRoot pair_hash [-1; -2; -3] = Some (root, mutated) /\ root <> 0)
    as (t & root & mutated & H1 & H2 & H3 & H4 & H5).
  { eexists _, _, _. split; [vm_compute; reflexivity|]. split; [vm_compute; reflexivity|]. split; [reflexivity|].
    split; [vm_compute; reflexivity|]. discriminate. }
  exists t, root. split; [exact H1|]. split; [exact H2|].
  apply (filtered_block_authentic pair_hash [-1; -2; -3] t root [-3] [2] t mutated); [| | | | |exact H4|exact H5|exact H2].
  - unfold pair_hash. intros x1 x2 y1 y2 E. injection E as E. apply (inj encode) in E. by injection E.
  - intros x Hx. assert (x < 0) as Hneg; [|intros (y & z & ->); unfold pair_hash in Hneg; lia].
    cbn [app] in Hx. rewrite !elem_of_cons in Hx. destruct_or?; subst; try lia. by apply not_elem_of_nil in Hx.
  - done.
  - vm_compute. discriminate.
  - rewrite H3. lia.
Defined.
