(* ===== verification/HashStream.v ===== *)
(** * Hash functions over streams ([crypto/sha256.cpp], [crypto/sha1.cpp],
    [crypto/ripemd160.cpp], [crypto/sha512.cpp])

    [CSHA256], [CSHA1], [CRIPEMD160] and [CSHA512] are the same class over
    different block functions: a buffer that is not initialized, a count of
    bytes, and [Write] that hashes full blocks as they come.  The reference is
    the hash of a whole message, padded and cut into blocks; however a message
    is cut into writes, the result is the same. *)
From S2P Require Import Prelude Bytes.

(** Big-endian numbers ([crypto/common.h]). *)
Definition be_bytes (n : nat) (z : Z) : list Z := rev (le_bytes n z).
Definition be_value (l : list Z) : Z := le_value (rev l).

(** What distinguishes the four classes. *)
Record HashParams := mkHashParams {
  BLOCK : nat;
  Transform : list Z -> list Z -> list Z;
  Initialize : list Z;
  pad_from : Z;
  sizedesc : Z -> list Z;
  output : list Z -> list Z
}.

(** The laws the code relies on: the block size divides [2 ^ 64], and padding
    and length end a block. *)
Record HashParamsLaws (H : HashParams) : Prop := {
  block_pos : (0 < BLOCK H)%nat;
  block_divides : (Z.of_nat (BLOCK H) | 2 ^ 64);
  sizedesc_length n : pad_from H = 2 * Z.of_nat (BLOCK H) - 1 - Z.of_nat (length (sizedesc H n));
  sizedesc_short n : (length (sizedesc H n) < BLOCK H)%nat
}.

Record Hasher := mkHasher { hs_s : list Z; hs_buf : list Z; hs_bytes : Z }.

Section hasher.
Context (H : HashParams).

Abbreviation B := (BLOCK H).

(** The constructor; the bytes of the buffer are what the memory held. *)
Definition hasher_new (garbage : list Z) : Hasher := mkHasher (Initialize H) garbage 0.

Definition memcpy (dst : list Z) (offset : nat) (src : list Z) : list Z :=
  take offset dst ++ src ++ drop (offset + length src) dst.

(** [while (end >= data + 64)]; a round takes at least one byte. *)
Fixpoint write_blocks (fuel : nat) (h : Hasher) (data : list Z) : Hasher * list Z :=
  match fuel with
  | O => (h, data)
  | S fuel =>
    if (B <=? length data)%nat then
      write_blocks fuel (mkHasher (Transform H (hs_s h) (take B data)) (hs_buf h) (u64 (hs_bytes h + Z.of_nat B))) (drop B data)
    else (h, data)
  end.

Definition hasher_Write (h : Hasher) (data : list Z) : Hasher :=
  let bufsize := Z.to_nat (hs_bytes h mod Z.of_nat B) in
  let '(h, data, bufsize) :=
    if negb (bufsize =? 0)%nat && (B <=? bufsize + length data)%nat then
      let buf := memcpy (hs_buf h) bufsize (take (B - bufsize) data) in
      (mkHasher (Transform H (hs_s h) buf) buf (u64 (hs_bytes h + Z.of_nat (B - bufsize))), drop (B - bufsize) data, 0%nat)
    else (h, data, bufsize) in
  let '(h, data) := write_blocks (length data) h data in
  if (0 <? length data)%nat then
    mkHasher (hs_s h) (memcpy (hs_buf h) bufsize data) (u64 (hs_bytes h + Z.of_nat (length data)))
  else h.

Definition pad_bytes : list Z := 0x80 :: replicate (B - 1) 0.

(** The hash, and the object it leaves. *)
Definition hasher_Finalize (h : Hasher) : list Z * Hasher :=
  let size := sizedesc H (u64 (Z.shiftl (hs_bytes h) 3)) in
  let h := hasher_Write h (take (1 + Z.to_nat ((pad_from H - hs_bytes h mod Z.of_nat B) mod Z.of_nat B)) pad_bytes) in
  let h := hasher_Write h size in
  (output H (hs_s h), h).

Definition hasher_Reset (h : Hasher) : Hasher := mkHasher (Initialize H) (hs_buf h) 0.

(** ** The reference *)

(** The full blocks of a message go through the block function. *)
Fixpoint absorb_loop (fuel : nat) (s : list Z) (m : list Z) : list Z :=
  match fuel with
  | O => s
  | S fuel => if (B <=? length m)%nat then absorb_loop fuel (Transform H s (take B m)) (drop B m) else s
  end.

Definition absorb (s m : list Z) : list Z := absorb_loop (length m) s m.

(** The bytes behind the last full block. *)
Definition unread (m : list Z) : list Z := drop (B * (length m / B)) m.

(** Padding: a one bit, the fewest zeros that let the length end a block, and
    the number of bits. *)
Definition padded (m : list Z) : list Z :=
  let size := sizedesc H (u64 (8 * Z.of_nat (length m))) in
  m ++ [0x80] ++
  replicate (Z.to_nat ((Z.of_nat B - 1 - Z.of_nat (length size) - Z.of_nat (length m)) mod Z.of_nat B)) 0 ++ size.

Definition hash_message (m : list Z) : list Z := output H (absorb (Initialize H) (padded m)).

(** ** Correctness *)

Context (L : HashParamsLaws H).

Lemma absorb_loop_fuel f1 f2 s m : (length m <= f1)%nat -> (length m <= f2)%nat -> absorb_loop f1 s m = absorb_loop f2 s m.
Proof.
  pose proof (block_pos H L) as Hb. revert f2 s m; induction f1 as [|f1 IH]; intros f2 s m H1 H2.
  - assert (m = []) as -> by (destruct m; [done|cbn in H1; lia]). destruct f2; cbn; [done|].
    rewrite (proj2 (Nat.leb_gt _ _)) by lia. done.
  - destruct f2 as [|f2].
    + assert (m = []) as -> by (destruct m; [done|cbn in H2; lia]). cbn. rewrite (proj2 (Nat.leb_gt _ _)) by lia. done.
    + cbn [absorb_loop]. destruct (Nat.leb_spec B (length m)); [|done]. apply IH; rewrite length_drop; lia.
Qed.

Lemma absorb_step s m :
  (B <= length m)%nat -> absorb s m = absorb (Transform H s (take B m)) (drop B m).
Proof.
  intros Hm. pose proof (block_pos H L). unfold absorb. destruct (length m) as [|n] eqn:E; [lia|].
  cbn [absorb_loop]. rewrite (proj2 (Nat.leb_le _ _)) by lia. apply absorb_loop_fuel; rewrite length_drop; lia.
Qed.

Lemma absorb_short s m : (length m < B)%nat -> absorb s m = s.
Proof.
  intros Hm. unfold absorb. destruct (length m) as [|n] eqn:E; [done|]. cbn [absorb_loop].
  by rewrite (proj2 (Nat.leb_gt _ _)) by lia.
Qed.

(** A message of whole blocks is absorbed before what follows. *)
Lemma absorb_app n s m1 m2 : length m1 = (B * n)%nat -> absorb s (m1 ++ m2) = absorb (absorb s m1) m2.
Proof.
  pose proof (block_pos H L). revert s m1; induction n as [|n IH]; intros s m1 Hm.
  { assert (m1 = []) as -> by (destruct m1; [done|cbn in Hm; lia]). by rewrite (absorb_short s []) by (cbn; lia). }
  rewrite (absorb_step s (m1 ++ m2)) by (rewrite length_app; lia). rewrite (absorb_step s m1) by lia.
  rewrite take_app_le, drop_app_le by lia. apply IH. rewrite length_drop. lia.
Qed.

Lemma unread_split m : exists m1, m = m1 ++ unread m /\ length m1 = (B * (length m / B))%nat.
Proof.
  exists (take (B * (length m / B)) m). unfold unread. split; [by rewrite take_drop|]. rewrite length_take.
  pose proof (block_pos H L). pose proof (Nat.Div0.mul_div_le (length m) B). lia.
Qed.

Lemma unread_length m : length (unread m) = (length m mod B)%nat.
Proof.
  unfold unread. rewrite length_drop. pose proof (Nat.div_mod_eq (length m) B). lia.
Qed.

Lemma unread_app m1 m2 n : length m1 = (B * n)%nat -> unread (m1 ++ m2) = unread m2.
Proof.
  intros Hm. pose proof (block_pos H L). unfold unread. rewrite length_app, Hm.
  rewrite (Nat.mul_comm B n), Nat.div_add_l, Nat.mul_add_distr_l by lia.
  rewrite drop_app_ge by lia. f_equal. lia.
Qed.

(** What the object stands for: the bytes written so far. *)
Record reads (h : Hasher) (m : list Z) : Prop := {
  reads_s : hs_s h = absorb (Initialize H) m;
  reads_bytes : hs_bytes h = u64 (Z.of_nat (length m));
  reads_size : length (hs_buf h) = B;
  reads_buf : take (length m mod B) (hs_buf h) = unread m
}.

Lemma reads_new garbage : length garbage = B -> reads (hasher_new garbage) [].
Proof.
  intros Hg. pose proof (block_pos H L). split; cbn [hasher_new hs_s hs_buf hs_bytes length].
  - by rewrite absorb_short by (cbn; lia).
  - done.
  - done.
  - unfold unread. by rewrite Nat.Div0.mod_0_l, drop_nil.
Qed.

Lemma u64_mod_block z : u64 z mod Z.of_nat B = z mod Z.of_nat B.
Proof. apply Z.mod_mod_divide, (block_divides H L). Qed.

Lemma bufsize_spec h m : reads h m -> Z.to_nat (hs_bytes h mod Z.of_nat B) = (length m mod B)%nat.
Proof. intros Hr. rewrite (reads_bytes _ _ Hr), u64_mod_block, <- Nat2Z.inj_mod. apply Nat2Z.id. Qed.

Lemma u64_add_length (l1 l2 : list Z) : u64 (u64 (Z.of_nat (length l1)) + Z.of_nat (length l2)) = u64 (Z.of_nat (length (l1 ++ l2))).
Proof. unfold u64. rewrite Z.add_mod_idemp_l by lia. rewrite length_app. f_equal. lia. Qed.

(** The state behind whole blocks [p]; the buffer may hold anything. *)
Record processed (h : Hasher) (p : list Z) : Prop := {
  processed_s : hs_s h = absorb (Initialize H) p;
  processed_bytes : hs_bytes h = u64 (Z.of_nat (length p));
  processed_size : length (hs_buf h) = B;
  processed_blocks : exists n, length p = (B * n)%nat
}.

Lemma write_blocks_spec fuel h p d :
  processed h p -> (length d <= fuel)%nat ->
  exists h' d1 d2, write_blocks fuel h d = (h', d2) /\ d = d1 ++ d2 /\ (length d2 < B)%nat /\ processed h' (p ++ d1).
Proof.
  pose proof (block_pos H L) as Hb.
  revert h p d; induction fuel as [|fuel IH]; intros h p d Hp Hd.
  { assert (d = []) as -> by (destruct d; [done|cbn in Hd; lia]). exists h, [], []. rewrite !app_nil_r. split_and!; [done|done|cbn; lia|done]. }
  cbn [write_blocks]. destruct (Nat.leb_spec B (length d)) as [Hle|Hlt].
  2: { exists h, [], d. rewrite app_nil_r. by split_and!. }
  destruct Hp as [Hs Hn Hl [n Hp]].
  assert (length (take B d) = B) as Ht by (rewrite length_take; lia).
  destruct (IH (mkHasher (Transform H (hs_s h) (take B d)) (hs_buf h) (u64 (hs_bytes h + Z.of_nat B))) (p ++ take B d) (drop B d))
    as (h' & d1 & d2 & E & Ed & Hd2 & Hp').
  - split; cbn [hs_s hs_buf hs_bytes].
    + rewrite (absorb_app n) by done. rewrite <- Hs. rewrite absorb_step, absorb_short by (rewrite ?length_drop; lia).
      by rewrite take_take, Nat.min_id.
    + rewrite Hn. rewrite <- Ht at 1. apply u64_add_length.
    + done.
    + exists (S n). rewrite length_app. lia.
  - rewrite length_drop. lia.
  - exists h', (take B d ++ d1), d2. split; [done|]. split; [by rewrite <- app_assoc, <- Ed, take_drop|]. split; [done|].
    by rewrite app_assoc.
Qed.

(** The bytes left over go to the beginning of the buffer. *)
Lemma buffer_rest h p d :
  processed h p -> (length d < B)%nat ->
  reads (if (0 <? length d)%nat
         then mkHasher (hs_s h) (memcpy (hs_buf h) 0 d) (u64 (hs_bytes h + Z.of_nat (length d))) else h) (p ++ d).
Proof.
  intros [Hs Hn Hl [n Hp]] Hd. pose proof (block_pos H L).
  assert ((length (p ++ d)) mod B = length d)%nat as Hm.
  { rewrite length_app, Hp, Nat.add_comm, Nat.mul_comm, Nat.Div0.mod_add. by apply Nat.mod_small. }
  assert (absorb (Initialize H) (p ++ d) = absorb (Initialize H) p) as Ha
    by (by rewrite (absorb_app n), absorb_short).
  assert (unread (p ++ d) = d) as Hu.
  { rewrite (unread_app p d n) by done. unfold unread. by rewrite Nat.div_small, Nat.mul_0_r, drop_0. }
  destruct (Nat.ltb_spec 0 (length d)) as [Hpos|Hz].
  - split; cbn [hs_s hs_buf hs_bytes].
    + congruence.
    + rewrite Hn. apply u64_add_length.
    + unfold memcpy. rewrite take_0, !length_app, length_drop. cbn. lia.
    + rewrite Hm, Hu. unfold memcpy. rewrite take_0. cbn [app]. by rewrite take_app_length.
  - assert (d = []) as -> by (destruct d; [done|cbn in Hz; lia]). rewrite app_nil_r in *. split; [done..|].
    rewrite Hm, Hu. done.
Qed.

Lemma reads_processed h m : reads h m -> (length m mod B = 0)%nat -> processed h m.
Proof.
  intros [Hs Hn Hl Hb] Hm. split; [done..|]. exists (length m / B)%nat. pose proof (Nat.div_mod_eq (length m) B). lia.
Qed.

Lemma absorb_reads h m m1 : reads h m -> m = m1 ++ unread m -> length m1 = (B * (length m / B))%nat ->
  hs_s h = absorb (Initialize H) m1.
Proof.
  intros Hr Hm Hl. rewrite (reads_s _ _ Hr). rewrite Hm at 1. rewrite (absorb_app _ _ _ _ Hl), absorb_short; [done|].
  rewrite unread_length. apply Nat.mod_upper_bound. pose proof (block_pos H L). lia.
Qed.

Lemma Write_reads h m data : reads h m -> reads (hasher_Write h data) (m ++ data).
Proof.
  intros Hr. pose proof (block_pos H L) as Hb. unfold hasher_Write. cbv zeta. rewrite (bufsize_spec h m Hr).
  set (bufsize := (length m mod B)%nat). assert (bufsize < B)%nat as Hlt by (apply Nat.mod_upper_bound; lia).
  destruct (Nat.eqb_spec bufsize 0) as [Hz|Hnz]; cbn [negb andb].
  - destruct (write_blocks_spec (length data) h m data) as (h' & d1 & d2 & -> & -> & Hd2 & Hp); [by apply reads_processed|done|].
    rewrite Hz, app_assoc. by apply buffer_rest.
  - destruct (unread_split m) as (m1 & Em & Hm1). pose proof (absorb_reads h m m1 Hr Em Hm1) as Hs.
    pose proof (unread_length m) as Hu. fold bufsize in Hu. pose proof (reads_buf _ _ Hr) as Hbuf. fold bufsize in Hbuf.
    pose proof (reads_size _ _ Hr) as Hsize.
    destruct (Nat.leb_spec B (bufsize + length data)) as [Hfull|Hpart].
    + set (d0 := take (B - bufsize) data). assert (length d0 = B - bufsize)%nat as Hd0 by (unfold d0; rewrite length_take; lia).
      assert (memcpy (hs_buf h) bufsize d0 = unread m ++ d0) as ->.
      { unfold memcpy. rewrite Hbuf, Hd0. rewrite drop_ge by lia. by rewrite app_nil_r. }
      destruct (write_blocks_spec (length (drop (B - bufsize) data))
        (mkHasher (Transform H (hs_s h) (unread m ++ d0)) (unread m ++ d0) (u64 (hs_bytes h + Z.of_nat (B - bufsize)))) (m ++ d0)
        (drop (B - bufsize) data)) as (h' & d1 & d2 & -> & Ed & Hd2 & Hp); [|done|].
      * split; cbn [hs_s hs_buf hs_bytes].
        -- rewrite Hs. rewrite Em at 2. rewrite <- app_assoc, (absorb_app _ _ _ _ Hm1).
           rewrite (absorb_step _ (unread m ++ d0)), (absorb_short (Transform _ _ _)) by (rewrite ?length_drop, length_app; lia).
           by rewrite take_ge by (rewrite length_app; lia).
        -- rewrite (reads_bytes _ _ Hr), <- Hd0. apply u64_add_length.
        -- rewrite length_app. lia.
        -- exists (S (length m / B)). rewrite length_app, Hd0. pose proof (Nat.div_mod_eq (length m) B). lia.
      * replace (m ++ data) with ((m ++ d0 ++ d1) ++ d2)
          by (rewrite <- !app_assoc, <- Ed; unfold d0; by rewrite take_drop).
        rewrite (app_assoc m). by apply buffer_rest.
    + assert (write_blocks (length data) h data = (h, data)) as ->.
      { destruct (length data) as [|n] eqn:E; [done|]. cbn [write_blocks]. by rewrite (proj2 (Nat.leb_gt _ _)) by lia. }
      destruct (Nat.ltb_spec 0 (length data)) as [Hpos|Hemp].
      2: { assert (data = []) as -> by (destruct data; [done|cbn in Hemp; lia]). by rewrite app_nil_r. }
      assert (unread (m ++ data) = unread m ++ data) as Hu'.
      { rewrite Em at 1. rewrite <- app_assoc, (unread_app _ _ _ Hm1). unfold unread at 1.
        rewrite Nat.div_small, Nat.mul_0_r, drop_0 by (rewrite length_app; lia). done. }
      split; cbn [hs_s hs_buf hs_bytes].
      * rewrite Hs. rewrite Em at 1. rewrite <- app_assoc, (absorb_app _ _ _ _ Hm1), (absorb_short (absorb _ _)); [done|].
        rewrite length_app. lia.
      * rewrite (reads_bytes _ _ Hr). apply u64_add_length.
      * unfold memcpy. rewrite !length_app, length_take, length_drop. lia.
      * rewrite <- unread_length, Hu'. unfold memcpy. rewrite Hbuf, app_assoc. by rewrite take_app_length.
Qed.

Lemma zeros_taken k : (k <= B - 1)%nat -> take (1 + k) pad_bytes = 0x80 :: replicate k 0.
Proof.
  intros Hk. unfold pad_bytes. cbn [Nat.add take]. f_equal. rewrite take_replicate. f_equal. lia.
Qed.

(** The padding the code computes from the count of bytes is the reference. *)
Lemma padding_length h m n :
  reads h m ->
  (pad_from H - hs_bytes h mod Z.of_nat B) mod Z.of_nat B =
  (Z.of_nat B - 1 - Z.of_nat (length (sizedesc H n)) - Z.of_nat (length m)) mod Z.of_nat B.
Proof.
  intros Hr. pose proof (block_pos H L). rewrite (reads_bytes _ _ Hr), u64_mod_block, (sizedesc_length H L n).
  rewrite Zminus_mod_idemp_r.
  replace (2 * Z.of_nat B - 1 - Z.of_nat (length (sizedesc H n)) - Z.of_nat (length m))
    with (Z.of_nat B - 1 - Z.of_nat (length (sizedesc H n)) - Z.of_nat (length m) + 1 * Z.of_nat B) by lia.
  apply Z.mod_add. lia.
Qed.

Lemma Finalize_hash h m : reads h m -> fst (hasher_Finalize h) = hash_message m.
Proof.
  intros Hr. pose proof (block_pos H L) as Hb. unfold hasher_Finalize, hash_message. cbn [fst].
  assert (u64 (Z.shiftl (hs_bytes h) 3) = u64 (8 * Z.of_nat (length m))) as Hsize.
  { rewrite (reads_bytes _ _ Hr), Z.shiftl_mul_pow2 by lia. unfold u64. rewrite Z.mul_mod_idemp_l by lia. f_equal. lia. }
  set (k := (pad_from H - hs_bytes h mod Z.of_nat B) mod Z.of_nat B).
  assert (0 <= k < Z.of_nat B) as Hk by (apply Z.mod_pos_bound; lia).
  rewrite zeros_taken by lia. rewrite Hsize.
  pose proof (Write_reads _ _ (0x80 :: replicate (Z.to_nat k) 0) Hr) as H1.
  pose proof (Write_reads _ _ (sizedesc H (u64 (8 * Z.of_nat (length m)))) H1) as H2.
  rewrite (reads_s _ _ H2). do 2 f_equal. unfold padded. subst k.
  rewrite (padding_length h m (u64 (8 * Z.of_nat (length m))) Hr). by rewrite <- !app_assoc.
Qed.

Lemma Reset_reads h m : reads h m -> reads (hasher_Reset h) [].
Proof. intros Hr. exact (reads_new _ (reads_size _ _ Hr)). Qed.

Lemma Finalize_buf h m : reads h m -> length (hs_buf (snd (hasher_Finalize h))) = B.
Proof. intros Hr. exact (reads_size _ _ (Write_reads _ _ _ (Write_reads _ _ _ Hr))). Qed.

Lemma writes_reads parts h m : reads h m -> reads (foldl hasher_Write h parts) (m ++ concat parts).
Proof.
  revert h m; induction parts as [|d parts IH]; intros h m Hr; cbn [foldl concat]; [by rewrite app_nil_r|].
  rewrite app_assoc. by apply IH, Write_reads.
Qed.

(** However a message is written, and whatever the buffer held, the hash is
    the one of the message. *)
Lemma stream_hash garbage parts :
  length garbage = B -> fst (hasher_Finalize (foldl hasher_Write (hasher_new garbage) parts)) = hash_message (concat parts).
Proof. intros Hg. apply Finalize_hash. exact (writes_reads parts _ [] (reads_new _ Hg)). Qed.

End hasher.

(** Two hash functions with the same block function agree. *)
Lemma hash_message_ext b T T' i i' p sz o m :
  (forall s c, T s c = T' s c) -> i = i' ->
  hash_message (mkHashParams b T i p sz o) m = hash_message (mkHashParams b T' i' p sz o) m.
Proof.
  intros Et <-. unfold hash_message, padded, absorb. cbn [BLOCK Initialize sizedesc output]. f_equal.
  set (l := m ++ _). generalize (length l) as fuel. intros fuel.
  assert (forall d s, absorb_loop (mkHashParams b T i p sz o) fuel s d = absorb_loop (mkHashParams b T' i p sz o) fuel s d) as ->;
    [|done].
  induction fuel as [|fuel IH]; intros d s; cbn [absorb_loop BLOCK Transform]; [done|]. destruct (_ <=? _)%nat; [|done].
  by rewrite Et, IH.
Qed.

(** What the block function and the initial state have, every state has. *)
Lemma absorb_inv H (P : list Z -> Prop) m :
  P (Initialize H) -> (forall s c, P (Transform H s c)) -> P (absorb H (Initialize H) m).
Proof.
  intros Hi Ht. unfold absorb. generalize (length m) as fuel. intros fuel. revert Hi. generalize (Initialize H) as s.
  revert m; induction fuel as [|fuel IH]; intros m s Hi; cbn [absorb_loop]; [done|]. destruct (_ <=? _)%nat; auto.
Qed.

Lemma flat_map_bytes n (f : nat -> Z -> list Z) l :
  (forall z, length (f n z) = n /\ Forall byte (f n z)) ->
  length (flat_map (f n) l) = (n * length l)%nat /\ Forall byte (flat_map (f n) l).
Proof.
  intros Hf. induction l as [|z l [IH1 IH2]]; cbn [flat_map length]; [split; [lia|done]|].
  destruct (Hf z) as [H1 H2]. rewrite length_app, H1, IH1. split; [lia|by apply Forall_app_2].
Qed.

Lemma be_bytes_ok n z : length (be_bytes n z) = n /\ Forall byte (be_bytes n z).
Proof.
  unfold be_bytes. rewrite length_rev, length_le_bytes. split; [done|]. apply Forall_rev, le_bytes_byte.
Qed.

Lemma le_bytes_ok n z : length (le_bytes n z) = n /\ Forall byte (le_bytes n z).
Proof. split; [apply length_le_bytes|apply le_bytes_byte]. Qed.

Lemma block_size_laws H n len :
  (n = 64 \/ n = 128)%nat -> BLOCK H = n -> (len < n)%nat -> (forall z, length (sizedesc H z) = len) ->
  pad_from H = 2 * Z.of_nat n - 1 - Z.of_nat len -> HashParamsLaws H.
Proof.
  intros Hn Hb Hl Hs Hp. split.
  - lia.
  - rewrite Hb. destruct Hn as [-> | ->]; [by exists (2 ^ 58)|by exists (2 ^ 57)].
  - intros z. rewrite Hs, Hb. done.
  - intros z. rewrite Hs, Hb. done.
Qed.
