(* ===== verification/Sha2.v ===== *)
(** * SHA-256 and SHA-512 ([crypto/sha256.cpp], [crypto/sha512.cpp])

    [Transform] is the unrolled code: the eight registers change their names
    instead of their places, and the schedule of the message lives in sixteen
    words that are overwritten.  The reference is the standard, FIPS 180-4:
    registers that move, a schedule computed from the sixteen words before it,
    and constants that are the first bits of the cube roots of the primes. *)
From S2P Require Import Prelude Bytes HashStream.

(** A variable that is assigned: [set x := v; rest]. *)
Definition assign {A B : Type} (v : A) (rest : A -> B) : B := rest v.

Notation "'set' x := v ; rest" := (assign v (fun x => rest))
  (at level 60, x binder, v at next level, right associativity) : nav_scope.
Notation "'set' ' pat := v ; rest" := (assign v (fun x => match x with pat => rest end))
  (at level 60, pat pattern, v at next level, right associativity) : nav_scope.

Definition s_at (s : list Z) (i : nat) : Z := nth i s 0.

Definition ReadBE32 (chunk : list Z) (i : nat) : Z := be_value (take 4 (drop i chunk)).
Definition ReadBE64 (chunk : list Z) (i : nat) : Z := be_value (take 8 (drop i chunk)).

(** ** The standard *)

(** Rotation to the right of a word of [w] bits, and the functions of the
    standard made of three of them, or of two and a shift. *)
Definition ROTR (w n x : Z) : Z := Z.lor (Z.shiftr x n) (Z.shiftl x (w - n) mod 2 ^ w).
Definition fips_Sigma (w n1 n2 n3 x : Z) : Z := Z.lxor (Z.lxor (ROTR w n1 x) (ROTR w n2 x)) (ROTR w n3 x).
Definition fips_sigma (w n1 n2 n3 x : Z) : Z := Z.lxor (Z.lxor (ROTR w n1 x) (ROTR w n2 x)) (Z.shiftr x n3).

Section fips.
Context (word : Z -> Z) (bits : Z) (Sigma0 Sigma1 sigma0 sigma1 : Z -> Z).

Definition fips_Ch (x y z : Z) : Z := Z.lxor (Z.land x y) (Z.land (Z.lnot x) z).
Definition fips_Maj (x y z : Z) : Z := Z.lxor (Z.lxor (Z.land x y) (Z.land x z)) (Z.land y z).

Definition Registers : Type := Z * Z * Z * Z * Z * Z * Z * Z.

Definition fips_round (r : Registers) (k w : Z) : Registers :=
  let '(a, b, c, d, e, f, g, h) := r in
  let t1 := word (h + Sigma1 e + fips_Ch e f g + k + w) in
  let t2 := word (Sigma0 a + fips_Maj a b c) in
  (word (t1 + t2), a, b, c, word (d + t1), e, f, g).

(** The rounds with the words of the block. *)
Fixpoint first_rounds (ks ws : list Z) (r : Registers) : Registers :=
  match ks, ws with k :: ks, w :: ws => first_rounds ks ws (fips_round r k w) | _, _ => r end.

(** The next word of the schedule, from the last sixteen. *)
Definition next_word (window : list Z) : Z :=
  word (s_at window 0 + (sigma1 (s_at window 14) + s_at window 9 + sigma0 (s_at window 1))).

Fixpoint later_rounds (ks window : list Z) (r : Registers) : Registers :=
  match ks with
  | [] => r
  | k :: ks => let w := next_word window in later_rounds ks (tl window ++ [w]) (fips_round r k w)
  end.

Definition registers (s : list Z) : Registers :=
  (s_at s 0, s_at s 1, s_at s 2, s_at s 3, s_at s 4, s_at s 5, s_at s 6, s_at s 7).

Definition add_registers (s : list Z) (r : Registers) : list Z :=
  let '(a, b, c, d, e, f, g, h) := r in
  [word (s_at s 0 + a); word (s_at s 1 + b); word (s_at s 2 + c); word (s_at s 3 + d); word (s_at s 4 + e);
   word (s_at s 5 + f); word (s_at s 6 + g); word (s_at s 7 + h)].

Definition fips_compress (ks s ws : list Z) : list Z :=
  add_registers s (later_rounds (drop 16 ks) ws (first_rounds (take 16 ks) ws (registers s))).

Lemma first_cons k ks w ws a b c d e f g h :
  first_rounds (k :: ks) (w :: ws) (a, b, c, d, e, f, g, h) =
  first_rounds ks ws
    (word (word (h + Sigma1 e + fips_Ch e f g + k + w) + word (Sigma0 a + fips_Maj a b c)), a, b, c,
     word (d + word (h + Sigma1 e + fips_Ch e f g + k + w)), e, f, g).
Proof. done. Qed.

Lemma later_word k ks w0 w1 w2 w3 w4 w5 w6 w7 w8 w9 w10 w11 w12 w13 w14 w15 r :
  later_rounds (k :: ks) [w0; w1; w2; w3; w4; w5; w6; w7; w8; w9; w10; w11; w12; w13; w14; w15] r =
  assign (word (w0 + (sigma1 w14 + w9 + sigma0 w1))) (fun w =>
    later_rounds ks [w1; w2; w3; w4; w5; w6; w7; w8; w9; w10; w11; w12; w13; w14; w15; w] (fips_round r k w)).
Proof. done. Qed.

Lemma fips_round_at k w a b c d e f g h :
  fips_round (a, b, c, d, e, f, g, h) k w =
  (word (word (h + Sigma1 e + fips_Ch e f g + k + w) + word (Sigma0 a + fips_Maj a b c)), a, b, c,
   word (d + word (h + Sigma1 e + fips_Ch e f g + k + w)), e, f, g).
Proof. done. Qed.

End fips.

(** *** The constants *)

Definition divides_any (n : Z) (ps : list Z) : bool := existsb (fun p => n mod p =? 0) ps.

(** The first primes, by trial division. *)
Fixpoint primes_from (fuel : nat) (n : Z) (found : list Z) : list Z :=
  match fuel with
  | O => found
  | S fuel => primes_from fuel (n + 1) (if divides_any n found then found else found ++ [n])
  end.

Definition primes : list Z := primes_from 420 2 [].

(** The largest number whose power of [e] is at most [n], bit by bit. *)
Fixpoint root_bits (e : Z) (n : Z) (bit : nat) (r : Z) : Z :=
  match bit with
  | O => r
  | S bit => let r' := r + 2 ^ Z.of_nat bit in root_bits e n bit (if r' ^ e <=? n then r' else r)
  end.

(** The first [bits] bits behind the point of the root of a prime. *)
Definition root_fraction (e bits p : Z) : Z := root_bits e (p * 2 ^ (e * bits)) (Z.to_nat bits + 5) 0 mod 2 ^ bits.

Definition cube_roots (bits : Z) (n : nat) : list Z := map (root_fraction 3 bits) (take n primes).
Definition square_roots (bits : Z) (n : nat) : list Z := map (root_fraction 2 bits) (take n primes).

Lemma Ch_fips x y z : Z.lxor z (Z.land x (Z.lxor y z)) = fips_Ch x y z.
Proof.
  unfold fips_Ch. apply Z.bits_inj'. intros i Hi. rewrite !Z.lxor_spec, !Z.land_spec, Z.lnot_spec, Z.lxor_spec by done.
  by destruct (Z.testbit x i), (Z.testbit y i), (Z.testbit z i).
Qed.

Lemma Maj_fips x y z : Z.lor (Z.land x y) (Z.land z (Z.lor x y)) = fips_Maj x y z.
Proof.
  unfold fips_Maj. apply Z.bits_inj'. intros i Hi. rewrite !Z.lxor_spec, Z.lor_spec, !Z.land_spec, Z.lor_spec.
  by destruct (Z.testbit x i), (Z.testbit y i), (Z.testbit z i).
Qed.

(** A step of the code and of the reference: values become variables. *)
Lemma assign_elim {A B : Type} (v : A) (F : A -> B) (r : B) : F v = r -> assign v F = r.
Proof. done. Qed.

Ltac assign_head :=
  lazymatch goal with |- assign ?v ?F = ?R => apply (assign_elim v F R) end; cbv beta iota.

(** A word of the block or of the schedule. *)
Ltac assign_word := lazymatch goal with |- assign ?v _ = _ => generalize v; intros ? end; assign_head.

(** The two registers a round changes. *)
Ltac assign_round fips :=
  rewrite fips; lazymatch goal with |- assign (?x, ?y) _ = _ => generalize x, y; intros ? ? end; assign_head.

Ltac reference_word :=
  rewrite later_word;
  match goal with |- context [add_registers _ _ (assign ?v ?F)] => rewrite (assign_elim v F (F v) eq_refl) end;
  cbv beta; rewrite fips_round_at.

Module Sha256.

Definition Ch (x y z : Z) : Z := Z.lxor z (Z.land x (Z.lxor y z)).
Definition Maj (x y z : Z) : Z := Z.lor (Z.land x y) (Z.land z (Z.lor x y)).
Definition Sigma0 (x : Z) : Z :=
  Z.lxor (Z.lxor (Z.lor (Z.shiftr x 2) (u32 (Z.shiftl x 30)))
    (Z.lor (Z.shiftr x 13) (u32 (Z.shiftl x 19)))) (Z.lor (Z.shiftr x 22) (u32 (Z.shiftl x 10))).
Definition Sigma1 (x : Z) : Z :=
  Z.lxor (Z.lxor (Z.lor (Z.shiftr x 6) (u32 (Z.shiftl x 26)))
    (Z.lor (Z.shiftr x 11) (u32 (Z.shiftl x 21)))) (Z.lor (Z.shiftr x 25) (u32 (Z.shiftl x 7))).
Definition sigma0 (x : Z) : Z :=
  Z.lxor (Z.lxor (Z.lor (Z.shiftr x 7) (u32 (Z.shiftl x 25)))
    (Z.lor (Z.shiftr x 18) (u32 (Z.shiftl x 14)))) (Z.shiftr x 3).
Definition sigma1 (x : Z) : Z :=
  Z.lxor (Z.lxor (Z.lor (Z.shiftr x 17) (u32 (Z.shiftl x 15)))
    (Z.lor (Z.shiftr x 19) (u32 (Z.shiftl x 13)))) (Z.shiftr x 10).

(** The new values of [d] and [h]. *)
Definition Round (a b c d e f g h k w : Z) : Z * Z :=
  let t1 := u32 (h + Sigma1 e + Ch e f g + k + w) in
  let t2 := u32 (Sigma0 a + Maj a b c) in
  (u32 (d + t1), u32 (t1 + t2)).

Definition Initialize : list Z :=
  [0x6a09e667; 0xbb67ae85; 0x3c6ef372; 0xa54ff53a; 0x510e527f; 0x9b05688c; 0x1f83d9ab; 0x5be0cd19].

Definition Transform (s chunk : list Z) : list Z :=
  set a := s_at s 0;
  set b := s_at s 1;
  set c := s_at s 2;
  set d := s_at s 3;
  set e := s_at s 4;
  set f := s_at s 5;
  set g := s_at s 6;
  set h := s_at s 7;
  set w0 := ReadBE32 chunk 0;
  set '(d, h) := Round a b c d e f g h 0x428a2f98 w0;
  set w1 := ReadBE32 chunk 4;
  set '(c, g) := Round h a b c d e f g 0x71374491 w1;
  set w2 := ReadBE32 chunk 8;
  set '(b, f) := Round g h a b c d e f 0xb5c0fbcf w2;
  set w3 := ReadBE32 chunk 12;
  set '(a, e) := Round f g h a b c d e 0xe9b5dba5 w3;
  set w4 := ReadBE32 chunk 16;
  set '(h, d) := Round e f g h a b c d 0x3956c25b w4;
  set w5 := ReadBE32 chunk 20;
  set '(g, c) := Round d e f g h a b c 0x59f111f1 w5;
  set w6 := ReadBE32 chunk 24;
  set '(f, b) := Round c d e f g h a b 0x923f82a4 w6;
  set w7 := ReadBE32 chunk 28;
  set '(e, a) := Round b c d e f g h a 0xab1c5ed5 w7;
  set w8 := ReadBE32 chunk 32;
  set '(d, h) := Round a b c d e f g h 0xd807aa98 w8;
  set w9 := ReadBE32 chunk 36;
  set '(c, g) := Round h a b c d e f g 0x12835b01 w9;
  set w10 := ReadBE32 chunk 40;
  set '(b, f) := Round g h a b c d e f 0x243185be w10;
  set w11 := ReadBE32 chunk 44;
  set '(a, e) := Round f g h a b c d e 0x550c7dc3 w11;
  set w12 := ReadBE32 chunk 48;
  set '(h, d) := Round e f g h a b c d 0x72be5d74 w12;
  set w13 := ReadBE32 chunk 52;
  set '(g, c) := Round d e f g h a b c 0x80deb1fe w13;
  set w14 := ReadBE32 chunk 56;
  set '(f, b) := Round c d e f g h a b 0x9bdc06a7 w14;
  set w15 := ReadBE32 chunk 60;
  set '(e, a) := Round b c d e f g h a 0xc19bf174 w15;
  set w0 := u32 (w0 + (sigma1 w14 + w9 + sigma0 w1));
  set '(d, h) := Round a b c d e f g h 0xe49b69c1 w0;
  set w1 := u32 (w1 + (sigma1 w15 + w10 + sigma0 w2));
  set '(c, g) := Round h a b c d e f g 0xefbe4786 w1;
  set w2 := u32 (w2 + (sigma1 w0 + w11 + sigma0 w3));
  set '(b, f) := Round g h a b c d e f 0x0fc19dc6 w2;
  set w3 := u32 (w3 + (sigma1 w1 + w12 + sigma0 w4));
  set '(a, e) := Round f g h a b c d e 0x240ca1cc w3;
  set w4 := u32 (w4 + (sigma1 w2 + w13 + sigma0 w5));
  set '(h, d) := Round e f g h a b c d 0x2de92c6f w4;
  set w5 := u32 (w5 + (sigma1 w3 + w14 + sigma0 w6));
  set '(g, c) := Round d e f g h a b c 0x4a7484aa w5;
  set w6 := u32 (w6 + (sigma1 w4 + w15 + sigma0 w7));
  set '(f, b) := Round c d e f g h a b 0x5cb0a9dc w6;
  set w7 := u32 (w7 + (sigma1 w5 + w0 + sigma0 w8));
  set '(e, a) := Round b c d e f g h a 0x76f988da w7;
  set w8 := u32 (w8 + (sigma1 w6 + w1 + sigma0 w9));
  set '(d, h) := Round a b c d e f g h 0x983e5152 w8;
  set w9 := u32 (w9 + (sigma1 w7 + w2 + sigma0 w10));
  set '(c, g) := Round h a b c d e f g 0xa831c66d w9;
  set w10 := u32 (w10 + (sigma1 w8 + w3 + sigma0 w11));
  set '(b, f) := Round g h a b c d e f 0xb00327c8 w10;
  set w11 := u32 (w11 + (sigma1 w9 + w4 + sigma0 w12));
  set '(a, e) := Round f g h a b c d e 0xbf597fc7 w11;
  set w12 := u32 (w12 + (sigma1 w10 + w5 + sigma0 w13));
  set '(h, d) := Round e f g h a b c d 0xc6e00bf3 w12;
  set w13 := u32 (w13 + (sigma1 w11 + w6 + sigma0 w14));
  set '(g, c) := Round d e f g h a b c 0xd5a79147 w13;
  set w14 := u32 (w14 + (sigma1 w12 + w7 + sigma0 w15));
  set '(f, b) := Round c d e f g h a b 0x06ca6351 w14;
  set w15 := u32 (w15 + (sigma1 w13 + w8 + sigma0 w0));
  set '(e, a) := Round b c d e f g h a 0x14292967 w15;
  set w0 := u32 (w0 + (sigma1 w14 + w9 + sigma0 w1));
  set '(d, h) := Round a b c d e f g h 0x27b70a85 w0;
  set w1 := u32 (w1 + (sigma1 w15 + w10 + sigma0 w2));
  set '(c, g) := Round h a b c d e f g 0x2e1b2138 w1;
  set w2 := u32 (w2 + (sigma1 w0 + w11 + sigma0 w3));
  set '(b, f) := Round g h a b c d e f 0x4d2c6dfc w2;
  set w3 := u32 (w3 + (sigma1 w1 + w12 + sigma0 w4));
  set '(a, e) := Round f g h a b c d e 0x53380d13 w3;
  set w4 := u32 (w4 + (sigma1 w2 + w13 + sigma0 w5));
  set '(h, d) := Round e f g h a b c d 0x650a7354 w4;
  set w5 := u32 (w5 + (sigma1 w3 + w14 + sigma0 w6));
  set '(g, c) := Round d e f g h a b c 0x766a0abb w5;
  set w6 := u32 (w6 + (sigma1 w4 + w15 + sigma0 w7));
  set '(f, b) := Round c d e f g h a b 0x81c2c92e w6;
  set w7 := u32 (w7 + (sigma1 w5 + w0 + sigma0 w8));
  set '(e, a) := Round b c d e f g h a 0x92722c85 w7;
  set w8 := u32 (w8 + (sigma1 w6 + w1 + sigma0 w9));
  set '(d, h) := Round a b c d e f g h 0xa2bfe8a1 w8;
  set w9 := u32 (w9 + (sigma1 w7 + w2 + sigma0 w10));
  set '(c, g) := Round h a b c d e f g 0xa81a664b w9;
  set w10 := u32 (w10 + (sigma1 w8 + w3 + sigma0 w11));
  set '(b, f) := Round g h a b c d e f 0xc24b8b70 w10;
  set w11 := u32 (w11 + (sigma1 w9 + w4 + sigma0 w12));
  set '(a, e) := Round f g h a b c d e 0xc76c51a3 w11;
  set w12 := u32 (w12 + (sigma1 w10 + w5 + sigma0 w13));
  set '(h, d) := Round e f g h a b c d 0xd192e819 w12;
  set w13 := u32 (w13 + (sigma1 w11 + w6 + sigma0 w14));
  set '(g, c) := Round d e f g h a b c 0xd6990624 w13;
  set w14 := u32 (w14 + (sigma1 w12 + w7 + sigma0 w15));
  set '(f, b) := Round c d e f g h a b 0xf40e3585 w14;
  set w15 := u32 (w15 + (sigma1 w13 + w8 + sigma0 w0));
  set '(e, a) := Round b c d e f g h a 0x106aa070 w15;
  set w0 := u32 (w0 + (sigma1 w14 + w9 + sigma0 w1));
  set '(d, h) := Round a b c d e f g h 0x19a4c116 w0;
  set w1 := u32 (w1 + (sigma1 w15 + w10 + sigma0 w2));
  set '(c, g) := Round h a b c d e f g 0x1e376c08 w1;
  set w2 := u32 (w2 + (sigma1 w0 + w11 + sigma0 w3));
  set '(b, f) := Round g h a b c d e f 0x2748774c w2;
  set w3 := u32 (w3 + (sigma1 w1 + w12 + sigma0 w4));
  set '(a, e) := Round f g h a b c d e 0x34b0bcb5 w3;
  set w4 := u32 (w4 + (sigma1 w2 + w13 + sigma0 w5));
  set '(h, d) := Round e f g h a b c d 0x391c0cb3 w4;
  set w5 := u32 (w5 + (sigma1 w3 + w14 + sigma0 w6));
  set '(g, c) := Round d e f g h a b c 0x4ed8aa4a w5;
  set w6 := u32 (w6 + (sigma1 w4 + w15 + sigma0 w7));
  set '(f, b) := Round c d e f g h a b 0x5b9cca4f w6;
  set w7 := u32 (w7 + (sigma1 w5 + w0 + sigma0 w8));
  set '(e, a) := Round b c d e f g h a 0x682e6ff3 w7;
  set w8 := u32 (w8 + (sigma1 w6 + w1 + sigma0 w9));
  set '(d, h) := Round a b c d e f g h 0x748f82ee w8;
  set w9 := u32 (w9 + (sigma1 w7 + w2 + sigma0 w10));
  set '(c, g) := Round h a b c d e f g 0x78a5636f w9;
  set w10 := u32 (w10 + (sigma1 w8 + w3 + sigma0 w11));
  set '(b, f) := Round g h a b c d e f 0x84c87814 w10;
  set w11 := u32 (w11 + (sigma1 w9 + w4 + sigma0 w12));
  set '(a, e) := Round f g h a b c d e 0x8cc70208 w11;
  set w12 := u32 (w12 + (sigma1 w10 + w5 + sigma0 w13));
  set '(h, d) := Round e f g h a b c d 0x90befffa w12;
  set w13 := u32 (w13 + (sigma1 w11 + w6 + sigma0 w14));
  set '(g, c) := Round d e f g h a b c 0xa4506ceb w13;
  set '(f, b) := Round c d e f g h a b 0xbef9a3f7 (u32 (w14 + sigma1 w12 + w7 + sigma0 w15));
  set '(e, a) := Round b c d e f g h a 0xc67178f2 (u32 (w15 + sigma1 w13 + w8 + sigma0 w0));
  [u32 (s_at s 0 + a); u32 (s_at s 1 + b); u32 (s_at s 2 + c); u32 (s_at s 3 + d); u32 (s_at s 4 + e); u32 (s_at s 5 + f); u32 (s_at s 6 + g); u32 (s_at s 7 + h)].

(** The object. *)
Definition params : HashParams :=
  mkHashParams 64 Transform Initialize 119 (fun n => be_bytes 8 n) (flat_map (be_bytes 4)).

(** ** The standard *)

Definition words (chunk : list Z) : list Z := map (fun i => ReadBE32 chunk (4 * i)) (seq 0 16).

Definition standard_Transform (s chunk : list Z) : list Z :=
  fips_compress u32 (fips_Sigma 32 2 13 22) (fips_Sigma 32 6 11 25) (fips_sigma 32 7 18 3) (fips_sigma 32 17 19 10)
    (cube_roots 32 64) s (words chunk).

Definition standard : HashParams :=
  mkHashParams 64 standard_Transform (square_roots 32 8) 119 (fun n => be_bytes 8 n) (flat_map (be_bytes 4)).

Lemma sha256_Round_fips a b c d e f g h k w :
  Round a b c d e f g h k w =
  (u32 (d + u32 (h + Sigma1 e + fips_Ch e f g + k + w)),
   u32 (u32 (h + Sigma1 e + fips_Ch e f g + k + w) + u32 (Sigma0 a + fips_Maj a b c))).
Proof. unfold Round, Ch, Maj. by rewrite Ch_fips, Maj_fips. Qed.

Lemma sha256_last_word a b c d : u32 (a + b + c + d) = u32 (a + (b + c + d)).
Proof. f_equal. lia. Qed.

Lemma sha256_functions ks s ws :
  fips_compress u32 (fips_Sigma 32 2 13 22) (fips_Sigma 32 6 11 25) (fips_sigma 32 7 18 3) (fips_sigma 32 17 19 10) ks s ws =
  fips_compress u32 Sigma0 Sigma1 sigma0 sigma1 ks s ws.
Proof. reflexivity. Qed.

Lemma sha256_Transform_standard s chunk : Transform s chunk = standard_Transform s chunk.
Proof.
  unfold standard_Transform. rewrite sha256_functions. unfold fips_compress.
  let ks := eval vm_compute in (take 16 (cube_roots 32 64)) in replace (take 16 (cube_roots 32 64)) with ks by (by vm_compute).
  let ks := eval vm_compute in (drop 16 (cube_roots 32 64)) in replace (drop 16 (cube_roots 32 64)) with ks by (by vm_compute).
  let ws := eval cbv -[ReadBE32] in (words chunk) in change (words chunk) with ws.
  unfold registers, Transform. do 8 assign_head.
  do 16 (assign_word; rewrite first_cons; assign_round sha256_Round_fips). cbn [first_rounds].
  do 46 (reference_word; assign_word; assign_round sha256_Round_fips).
  do 2 (reference_word; rewrite sha256_last_word; assign_round sha256_Round_fips). done.
Qed.

Lemma sha256_laws : HashParamsLaws params.
Proof. apply (block_size_laws _ 64 8); try done; [by left|lia]. Qed.

Lemma sha256_hash_standard m : hash_message params m = hash_message standard m.
Proof.
  unfold params, standard. apply hash_message_ext; [exact sha256_Transform_standard|by vm_compute].
Qed.

Lemma sha256_hash_bytes m : length (hash_message params m) = 32%nat /\ Forall byte (hash_message params m).
Proof.
  assert (length (absorb params Initialize (padded params m)) = 8%nat) as Hl.
  { apply (absorb_inv params (fun s => length s = 8%nat)); [done|]. intros s c.
    change (length (Transform s c) = 8%nat). rewrite sha256_Transform_standard. unfold standard_Transform, fips_compress, add_registers.
    by destruct (later_rounds _ _ _ _ _ _ _ _) as [[[[[[[??]?]?]?]?]?]?]. }
  destruct (flat_map_bytes 4 be_bytes (absorb params Initialize (padded params m)) (be_bytes_ok 4)) as [H1 H2].
  rewrite Hl in H1. split; [exact H1|exact H2].
Qed.

End Sha256.

Module Sha512.

Definition Ch (x y z : Z) : Z := Z.lxor z (Z.land x (Z.lxor y z)).
Definition Maj (x y z : Z) : Z := Z.lor (Z.land x y) (Z.land z (Z.lor x y)).
Definition Sigma0 (x : Z) : Z :=
  Z.lxor (Z.lxor (Z.lor (Z.shiftr x 28) (u64 (Z.shiftl x 36)))
    (Z.lor (Z.shiftr x 34) (u64 (Z.shiftl x 30)))) (Z.lor (Z.shiftr x 39) (u64 (Z.shiftl x 25))).
Definition Sigma1 (x : Z) : Z :=
  Z.lxor (Z.lxor (Z.lor (Z.shiftr x 14) (u64 (Z.shiftl x 50)))
    (Z.lor (Z.shiftr x 18) (u64 (Z.shiftl x 46)))) (Z.lor (Z.shiftr x 41) (u64 (Z.shiftl x 23))).
Definition sigma0 (x : Z) : Z :=
  Z.lxor (Z.lxor (Z.lor (Z.shiftr x 1) (u64 (Z.shiftl x 63)))
    (Z.lor (Z.shiftr x 8) (u64 (Z.shiftl x 56)))) (Z.shiftr x 7).
Definition sigma1 (x : Z) : Z :=
  Z.lxor (Z.lxor (Z.lor (Z.shiftr x 19) (u64 (Z.shiftl x 45)))
    (Z.lor (Z.shiftr x 61) (u64 (Z.shiftl x 3)))) (Z.shiftr x 6).

(** The new values of [d] and [h]. *)
Definition Round (a b c d e f g h k w : Z) : Z * Z :=
  let t1 := u64 (h + Sigma1 e + Ch e f g + k + w) in
  let t2 := u64 (Sigma0 a + Maj a b c) in
  (u64 (d + t1), u64 (t1 + t2)).

Definition Initialize : list Z :=
  [0x6a09e667f3bcc908; 0xbb67ae8584caa73b; 0x3c6ef372fe94f82b; 0xa54ff53a5f1d36f1; 0x510e527fade682d1; 0x9b05688c2b3e6c1f; 0x1f83d9abfb41bd6b; 0x5be0cd19137e2179].

Definition Transform (s chunk : list Z) : list Z :=
  set a := s_at s 0;
  set b := s_at s 1;
  set c := s_at s 2;
  set d := s_at s 3;
  set e := s_at s 4;
  set f := s_at s 5;
  set g := s_at s 6;
  set h := s_at s 7;
  set w0 := ReadBE64 chunk 0;
  set '(d, h) := Round a b c d e f g h 0x428a2f98d728ae22 w0;
  set w1 := ReadBE64 chunk 8;
  set '(c, g) := Round h a b c d e f g 0x7137449123ef65cd w1;
  set w2 := ReadBE64 chunk 16;
  set '(b, f) := Round g h a b c d e f 0xb5c0fbcfec4d3b2f w2;
  set w3 := ReadBE64 chunk 24;
  set '(a, e) := Round f g h a b c d e 0xe9b5dba58189dbbc w3;
  set w4 := ReadBE64 chunk 32;
  set '(h, d) := Round e f g h a b c d 0x3956c25bf348b538 w4;
  set w5 := ReadBE64 chunk 40;
  set '(g, c) := Round d e f g h a b c 0x59f111f1b605d019 w5;
  set w6 := ReadBE64 chunk 48;
  set '(f, b) := Round c d e f g h a b 0x923f82a4af194f9b w6;
  set w7 := ReadBE64 chunk 56;
  set '(e, a) := Round b c d e f g h a 0xab1c5ed5da6d8118 w7;
  set w8 := ReadBE64 chunk 64;
  set '(d, h) := Round a b c d e f g h 0xd807aa98a3030242 w8;
  set w9 := ReadBE64 chunk 72;
  set '(c, g) := Round h a b c d e f g 0x12835b0145706fbe w9;
  set w10 := ReadBE64 chunk 80;
  set '(b, f) := Round g h a b c d e f 0x243185be4ee4b28c w10;
  set w11 := ReadBE64 chunk 88;
  set '(a, e) := Round f g h a b c d e 0x550c7dc3d5ffb4e2 w11;
  set w12 := ReadBE64 chunk 96;
  set '(h, d) := Round e f g h a b c d 0x72be5d74f27b896f w12;
  set w13 := ReadBE64 chunk 104;
  set '(g, c) := Round d e f g h a b c 0x80deb1fe3b1696b1 w13;
  set w14 := ReadBE64 chunk 112;
  set '(f, b) := Round c d e f g h a b 0x9bdc06a725c71235 w14;
  set w15 := ReadBE64 chunk 120;
  set '(e, a) := Round b c d e f g h a 0xc19bf174cf692694 w15;
  set w0 := u64 (w0 + (sigma1 w14 + w9 + sigma0 w1));
  set '(d, h) := Round a b c d e f g h 0xe49b69c19ef14ad2 w0;
  set w1 := u64 (w1 + (sigma1 w15 + w10 + sigma0 w2));
  set '(c, g) := Round h a b c d e f g 0xefbe4786384f25e3 w1;
  set w2 := u64 (w2 + (sigma1 w0 + w11 + sigma0 w3));
  set '(b, f) := Round g h a b c d e f 0x0fc19dc68b8cd5b5 w2;
  set w3 := u64 (w3 + (sigma1 w1 + w12 + sigma0 w4));
  set '(a, e) := Round f g h a b c d e 0x240ca1cc77ac9c65 w3;
  set w4 := u64 (w4 + (sigma1 w2 + w13 + sigma0 w5));
  set '(h, d) := Round e f g h a b c d 0x2de92c6f592b0275 w4;
  set w5 := u64 (w5 + (sigma1 w3 + w14 + sigma0 w6));
  set '(g, c) := Round d e f g h a b c 0x4a7484aa6ea6e483 w5;
  set w6 := u64 (w6 + (sigma1 w4 + w15 + sigma0 w7));
  set '(f, b) := Round c d e f g h a b 0x5cb0a9dcbd41fbd4 w6;
  set w7 := u64 (w7 + (sigma1 w5 + w0 + sigma0 w8));
  set '(e, a) := Round b c d e f g h a 0x76f988da831153b5 w7;
  set w8 := u64 (w8 + (sigma1 w6 + w1 + sigma0 w9));
  set '(d, h) := Round a b c d e f g h 0x983e5152ee66dfab w8;
  set w9 := u64 (w9 + (sigma1 w7 + w2 + sigma0 w10));
  set '(c, g) := Round h a b c d e f g 0xa831c66d2db43210 w9;
  set w10 := u64 (w10 + (sigma1 w8 + w3 + sigma0 w11));
  set '(b, f) := Round g h a b c d e f 0xb00327c898fb213f w10;
  set w11 := u64 (w11 + (sigma1 w9 + w4 + sigma0 w12));
  set '(a, e) := Round f g h a b c d e 0xbf597fc7beef0ee4 w11;
  set w12 := u64 (w12 + (sigma1 w10 + w5 + sigma0 w13));
  set '(h, d) := Round e f g h a b c d 0xc6e00bf33da88fc2 w12;
  set w13 := u64 (w13 + (sigma1 w11 + w6 + sigma0 w14));
  set '(g, c) := Round d e f g h a b c 0xd5a79147930aa725 w13;
  set w14 := u64 (w14 + (sigma1 w12 + w7 + sigma0 w15));
  set '(f, b) := Round c d e f g h a b 0x06ca6351e003826f w14;
  set w15 := u64 (w15 + (sigma1 w13 + w8 + sigma0 w0));
  set '(e, a) := Round b c d e f g h a 0x142929670a0e6e70 w15;
  set w0 := u64 (w0 + (sigma1 w14 + w9 + sigma0 w1));
  set '(d, h) := Round a b c d e f g h 0x27b70a8546d22ffc w0;
  set w1 := u64 (w1 + (sigma1 w15 + w10 + sigma0 w2));
  set '(c, g) := Round h a b c d e f g 0x2e1b21385c26c926 w1;
  set w2 := u64 (w2 + (sigma1 w0 + w11 + sigma0 w3));
  set '(b, f) := Round g h a b c d e f 0x4d2c6dfc5ac42aed w2;
  set w3 := u64 (w3 + (sigma1 w1 + w12 + sigma0 w4));
  set '(a, e) := Round f g h a b c d e 0x53380d139d95b3df w3;
  set w4 := u64 (w4 + (sigma1 w2 + w13 + sigma0 w5));
  set '(h, d) := Round e f g h a b c d 0x650a73548baf63de w4;
  set w5 := u64 (w5 + (sigma1 w3 + w14 + sigma0 w6));
  set '(g, c) := Round d e f g h a b c 0x766a0abb3c77b2a8 w5;
  set w6 := u64 (w6 + (sigma1 w4 + w15 + sigma0 w7));
  set '(f, b) := Round c d e f g h a b 0x81c2c92e47edaee6 w6;
  set w7 := u64 (w7 + (sigma1 w5 + w0 + sigma0 w8));
  set '(e, a) := Round b c d e f g h a 0x92722c851482353b w7;
  set w8 := u64 (w8 + (sigma1 w6 + w1 + sigma0 w9));
  set '(d, h) := Round a b c d e f g h 0xa2bfe8a14cf10364 w8;
  set w9 := u64 (w9 + (sigma1 w7 + w2 + sigma0 w10));
  set '(c, g) := Round h a b c d e f g 0xa81a664bbc423001 w9;
  set w10 := u64 (w10 + (sigma1 w8 + w3 + sigma0 w11));
  set '(b, f) := Round g h a b c d e f 0xc24b8b70d0f89791 w10;
  set w11 := u64 (w11 + (sigma1 w9 + w4 + sigma0 w12));
  set '(a, e) := Round f g h a b c d e 0xc76c51a30654be30 w11;
  set w12 := u64 (w12 + (sigma1 w10 + w5 + sigma0 w13));
  set '(h, d) := Round e f g h a b c d 0xd192e819d6ef5218 w12;
  set w13 := u64 (w13 + (sigma1 w11 + w6 + sigma0 w14));
  set '(g, c) := Round d e f g h a b c 0xd69906245565a910 w13;
  set w14 := u64 (w14 + (sigma1 w12 + w7 + sigma0 w15));
  set '(f, b) := Round c d e f g h a b 0xf40e35855771202a w14;
  set w15 := u64 (w15 + (sigma1 w13 + w8 + sigma0 w0));
  set '(e, a) := Round b c d e f g h a 0x106aa07032bbd1b8 w15;
  set w0 := u64 (w0 + (sigma1 w14 + w9 + sigma0 w1));
  set '(d, h) := Round a b c d e f g h 0x19a4c116b8d2d0c8 w0;
  set w1 := u64 (w1 + (sigma1 w15 + w10 + sigma0 w2));
  set '(c, g) := Round h a b c d e f g 0x1e376c085141ab53 w1;
  set w2 := u64 (w2 + (sigma1 w0 + w11 + sigma0 w3));
  set '(b, f) := Round g h a b c d e f 0x2748774cdf8eeb99 w2;
  set w3 := u64 (w3 + (sigma1 w1 + w12 + sigma0 w4));
  set '(a, e) := Round f g h a b c d e 0x34b0bcb5e19b48a8 w3;
  set w4 := u64 (w4 + (sigma1 w2 + w13 + sigma0 w5));
  set '(h, d) := Round e f g h a b c d 0x391c0cb3c5c95a63 w4;
  set w5 := u64 (w5 + (sigma1 w3 + w14 + sigma0 w6));
  set '(g, c) := Round d e f g h a b c 0x4ed8aa4ae3418acb w5;
  set w6 := u64 (w6 + (sigma1 w4 + w15 + sigma0 w7));
  set '(f, b) := Round c d e f g h a b 0x5b9cca4f7763e373 w6;
  set w7 := u64 (w7 + (sigma1 w5 + w0 + sigma0 w8));
  set '(e, a) := Round b c d e f g h a 0x682e6ff3d6b2b8a3 w7;
  set w8 := u64 (w8 + (sigma1 w6 + w1 + sigma0 w9));
  set '(d, h) := Round a b c d e f g h 0x748f82ee5defb2fc w8;
  set w9 := u64 (w9 + (sigma1 w7 + w2 + sigma0 w10));
  set '(c, g) := Round h a b c d e f g 0x78a5636f43172f60 w9;
  set w10 := u64 (w10 + (sigma1 w8 + w3 + sigma0 w11));
  set '(b, f) := Round g h a b c d e f 0x84c87814a1f0ab72 w10;
  set w11 := u64 (w11 + (sigma1 w9 + w4 + sigma0 w12));
  set '(a, e) := Round f g h a b c d e 0x8cc702081a6439ec w11;
  set w12 := u64 (w12 + (sigma1 w10 + w5 + sigma0 w13));
  set '(h, d) := Round e f g h a b c d 0x90befffa23631e28 w12;
  set w13 := u64 (w13 + (sigma1 w11 + w6 + sigma0 w14));
  set '(g, c) := Round d e f g h a b c 0xa4506cebde82bde9 w13;
  set w14 := u64 (w14 + (sigma1 w12 + w7 + sigma0 w15));
  set '(f, b) := Round c d e f g h a b 0xbef9a3f7b2c67915 w14;
  set w15 := u64 (w15 + (sigma1 w13 + w8 + sigma0 w0));
  set '(e, a) := Round b c d e f g h a 0xc67178f2e372532b w15;
  set w0 := u64 (w0 + (sigma1 w14 + w9 + sigma0 w1));
  set '(d, h) := Round a b c d e f g h 0xca273eceea26619c w0;
  set w1 := u64 (w1 + (sigma1 w15 + w10 + sigma0 w2));
  set '(c, g) := Round h a b c d e f g 0xd186b8c721c0c207 w1;
  set w2 := u64 (w2 + (sigma1 w0 + w11 + sigma0 w3));
  set '(b, f) := Round g h a b c d e f 0xeada7dd6cde0eb1e w2;
  set w3 := u64 (w3 + (sigma1 w1 + w12 + sigma0 w4));
  set '(a, e) := Round f g h a b c d e 0xf57d4f7fee6ed178 w3;
  set w4 := u64 (w4 + (sigma1 w2 + w13 + sigma0 w5));
  set '(h, d) := Round e f g h a b c d 0x06f067aa72176fba w4;
  set w5 := u64 (w5 + (sigma1 w3 + w14 + sigma0 w6));
  set '(g, c) := Round d e f g h a b c 0x0a637dc5a2c898a6 w5;
  set w6 := u64 (w6 + (sigma1 w4 + w15 + sigma0 w7));
  set '(f, b) := Round c d e f g h a b 0x113f9804bef90dae w6;
  set w7 := u64 (w7 + (sigma1 w5 + w0 + sigma0 w8));
  set '(e, a) := Round b c d e f g h a 0x1b710b35131c471b w7;
  set w8 := u64 (w8 + (sigma1 w6 + w1 + sigma0 w9));
  set '(d, h) := Round a b c d e f g h 0x28db77f523047d84 w8;
  set w9 := u64 (w9 + (sigma1 w7 + w2 + sigma0 w10));
  set '(c, g) := Round h a b c d e f g 0x32caab7b40c72493 w9;
  set w10 := u64 (w10 + (sigma1 w8 + w3 + sigma0 w11));
  set '(b, f) := Round g h a b c d e f 0x3c9ebe0a15c9bebc w10;
  set w11 := u64 (w11 + (sigma1 w9 + w4 + sigma0 w12));
  set '(a, e) := Round f g h a b c d e 0x431d67c49c100d4c w11;
  set w12 := u64 (w12 + (sigma1 w10 + w5 + sigma0 w13));
  set '(h, d) := Round e f g h a b c d 0x4cc5d4becb3e42b6 w12;
  set w13 := u64 (w13 + (sigma1 w11 + w6 + sigma0 w14));
  set '(g, c) := Round d e f g h a b c 0x597f299cfc657e2a w13;
  set '(f, b) := Round c d e f g h a b 0x5fcb6fab3ad6faec (u64 (w14 + sigma1 w12 + w7 + sigma0 w15));
  set '(e, a) := Round b c d e f g h a 0x6c44198c4a475817 (u64 (w15 + sigma1 w13 + w8 + sigma0 w0));
  [u64 (s_at s 0 + a); u64 (s_at s 1 + b); u64 (s_at s 2 + c); u64 (s_at s 3 + d); u64 (s_at s 4 + e); u64 (s_at s 5 + f); u64 (s_at s 6 + g); u64 (s_at s 7 + h)].

(** The object. *)
Definition params : HashParams :=
  mkHashParams 128 Transform Initialize 239 (fun n => replicate 8 0 ++ be_bytes 8 n) (flat_map (be_bytes 8)).

(** ** The standard *)

Definition words (chunk : list Z) : list Z := map (fun i => ReadBE64 chunk (8 * i)) (seq 0 16).

Definition standard_Transform (s chunk : list Z) : list Z :=
  fips_compress u64 (fips_Sigma 64 28 34 39) (fips_Sigma 64 14 18 41) (fips_sigma 64 1 8 7) (fips_sigma 64 19 61 6)
    (cube_roots 64 80) s (words chunk).

Definition standard : HashParams :=
  mkHashParams 128 standard_Transform (square_roots 64 8) 239 (fun n => replicate 8 0 ++ be_bytes 8 n) (flat_map (be_bytes 8)).

Lemma sha512_Round_fips a b c d e f g h k w :
  Round a b c d e f g h k w =
  (u64 (d + u64 (h + Sigma1 e + fips_Ch e f g + k + w)),
   u64 (u64 (h + Sigma1 e + fips_Ch e f g + k + w) + u64 (Sigma0 a + fips_Maj a b c))).
Proof. unfold Round, Ch, Maj. by rewrite Ch_fips, Maj_fips. Qed.

Lemma sha512_last_word a b c d : u64 (a + b + c + d) = u64 (a + (b + c + d)).
Proof. f_equal. lia. Qed.

Lemma sha512_functions ks s ws :
  fips_compress u64 (fips_Sigma 64 28 34 39) (fips_Sigma 64 14 18 41) (fips_sigma 64 1 8 7) (fips_sigma 64 19 61 6) ks s ws =
  fips_compress u64 Sigma0 Sigma1 sigma0 sigma1 ks s ws.
Proof. reflexivity. Qed.

Lemma sha512_Transform_standard s chunk : Transform s chunk = standard_Transform s chunk.
Proof.
  unfold standard_Transform. rewrite sha512_functions. unfold fips_compress.
  let ks := eval vm_compute in (take 16 (cube_roots 64 80)) in replace (take 16 (cube_roots 64 80)) with ks by (by vm_compute).
  let ks := eval vm_compute in (drop 16 (cube_roots 64 80)) in replace (drop 16 (cube_roots 64 80)) with ks by (by vm_compute).
  let ws := eval cbv -[ReadBE64] in (words chunk) in change (words chunk) with ws.
  unfold registers, Transform. do 8 assign_head.
  do 16 (assign_word; rewrite first_cons; assign_round sha512_Round_fips). cbn [first_rounds].
  do 62 (reference_word; assign_word; assign_round sha512_Round_fips).
  do 2 (reference_word; rewrite sha512_last_word; assign_round sha512_Round_fips). done.
Qed.

Lemma sha512_laws : HashParamsLaws params.
Proof. apply (block_size_laws _ 128 16); try done; [by right|lia]. Qed.

Lemma sha512_hash_standard m : hash_message params m = hash_message standard m.
Proof.
  unfold params, standard. apply hash_message_ext; [exact sha512_Transform_standard|by vm_compute].
Qed.

Lemma sha512_hash_bytes m : length (hash_message params m) = 64%nat /\ Forall byte (hash_message params m).
Proof.
  assert (length (absorb params Initialize (padded params m)) = 8%nat) as Hl.
  { apply (absorb_inv params (fun s => length s = 8%nat)); [done|]. intros s c.
    change (length (Transform s c) = 8%nat). rewrite sha512_Transform_standard. unfold standard_Transform, fips_compress, add_registers.
    by destruct (later_rounds _ _ _ _ _ _ _ _) as [[[[[[[??]?]?]?]?]?]?]. }
  destruct (flat_map_bytes 8 be_bytes (absorb params Initialize (padded params m)) (be_bytes_ok 8)) as [H1 H2].
  rewrite Hl in H1. split; [exact H1|exact H2].
Qed.

End Sha512.

(** C24: [CSHA256] and [CSHA512] compute the hash functions of FIPS 180-4: the
    unrolled block functions with renamed registers and overwritten schedule,
    their rotations and shifts, are those of the standard, the constants are the
    roots of the primes, and the result does not depend on how the message is
    cut into writes or on what the buffer held. *)
Theorem sha2_correct garbage parts :
  (length garbage = 64%nat ->
   fst (hasher_Finalize Sha256.params (foldl (hasher_Write Sha256.params) (hasher_new Sha256.params garbage) parts)) =
   hash_message Sha256.standard (concat parts)) /\
  (length garbage = 128%nat ->
   fst (hasher_Finalize Sha512.params (foldl (hasher_Write Sha512.params) (hasher_new Sha512.params garbage) parts)) =
   hash_message Sha512.standard (concat parts)).
Proof.
  split; intros Hg.
  - rewrite (stream_hash _ Sha256.sha256_laws) by done. apply Sha256.sha256_hash_standard.
  - rewrite (stream_hash _ Sha512.sha512_laws) by done. apply Sha512.sha512_hash_standard.
Qed.

(** The digest of the three bytes [abc] and of the empty message in the
    standard. *)
Example sha256_abc :
  be_value (hash_message Sha256.params [0x61; 0x62; 0x63]) =
  0xba7816bf8f01cfea414140de5dae2223b00361a396177a9cb410ff61f20015ad.
Proof. by vm_compute. Qed.

Example sha512_empty :
  be_value (hash_message Sha512.params []) =
  0xcf83e1357eefb8bdf1542850d66d8007d620e4050b5715dc83f4a921d36ce9ce47d0d13c5d85f2b0ff8318d2877eec2f63b931bd47417a81a538327af927da3e.
Proof. by vm_compute. Qed.

Lemma sha2_correct_witness :
  fst (hasher_Finalize Sha256.params
         (foldl (hasher_Write Sha256.params) (hasher_new Sha256.params (replicate 64 7)) [[0x61]; []; [0x62; 0x63]])) =
  hash_message Sha256.standard [0x61; 0x62; 0x63].
Proof. exact (proj1 (sha2_correct (replicate 64 7) [[0x61]; []; [0x62; 0x63]]) eq_refl). Defined.
