(* ===== verification/Sha1Ripemd.v ===== *)
(** * SHA-1 and RIPEMD-160 ([crypto/sha1.cpp], [crypto/ripemd160.cpp])

    As for SHA-256, [Transform] is the unrolled code.  The references are FIPS
    180-4 for SHA-1, and for RIPEMD-160 the description by its authors: two
    lines of eighty steps whose words are permuted by rho and pi, with one
    table of shifts for both lines and constants that are roots of primes. *)
From S2P Require Import Prelude Bytes HashStream Sha2.

(** The two registers a round changes become variables. *)
Ltac assign_pair step :=
  rewrite step; lazymatch goal with |- assign (?x, ?y) _ = _ => generalize x, y; intros ? ? end; assign_head.

Module Sha1.

Definition Round (a b c d e f k w : Z) : Z * Z :=
  (Z.lor (u32 (Z.shiftl b 30)) (Z.shiftr b 2), u32 (e + (Z.lor (u32 (Z.shiftl a 5)) (Z.shiftr a 27) + f + k + w))).

Definition f1 (b c d : Z) : Z := Z.lxor d (Z.land b (Z.lxor c d)).
Definition f2 (b c d : Z) : Z := Z.lxor (Z.lxor b c) d.
Definition f3 (b c d : Z) : Z := Z.lor (Z.land b c) (Z.land d (Z.lor b c)).

Definition left (x : Z) : Z := Z.lor (u32 (Z.shiftl x 1)) (Z.shiftr x 31).

Definition Initialize : list Z := [0x67452301; 0xEFCDAB89; 0x98BADCFE; 0x10325476; 0xC3D2E1F0].

Definition k1 : Z := 0x5A827999.
Definition k2 : Z := 0x6ED9EBA1.
Definition k3 : Z := 0x8F1BBCDC.
Definition k4 : Z := 0xCA62C1D6.

Definition Transform (s chunk : list Z) : list Z :=
  set a := s_at s 0;
  set b := s_at s 1;
  set c := s_at s 2;
  set d := s_at s 3;
  set e := s_at s 4;
  set w0 := ReadBE32 chunk 0;
  set '(b, e) := Round a b c d e (f1 b c d) k1 w0;
  set w1 := ReadBE32 chunk 4;
  set '(a, d) := Round e a b c d (f1 a b c) k1 w1;
  set w2 := ReadBE32 chunk 8;
  set '(e, c) := Round d e a b c (f1 e a b) k1 w2;
  set w3 := ReadBE32 chunk 12;
  set '(d, b) := Round c d e a b (f1 d e a) k1 w3;
  set w4 := ReadBE32 chunk 16;
  set '(c, a) := Round b c d e a (f1 c d e) k1 w4;
  set w5 := ReadBE32 chunk 20;
  set '(b, e) := Round a b c d e (f1 b c d) k1 w5;
  set w6 := ReadBE32 chunk 24;
  set '(a, d) := Round e a b c d (f1 a b c) k1 w6;
  set w7 := ReadBE32 chunk 28;
  set '(e, c) := Round d e a b c (f1 e a b) k1 w7;
  set w8 := ReadBE32 chunk 32;
  set '(d, b) := Round c d e a b (f1 d e a) k1 w8;
  set w9 := ReadBE32 chunk 36;
  set '(c, a) := Round b c d e a (f1 c d e) k1 w9;
  set w10 := ReadBE32 chunk 40;
  set '(b, e) := Round a b c d e (f1 b c d) k1 w10;
  set w11 := ReadBE32 chunk 44;
  set '(a, d) := Round e a b c d (f1 a b c) k1 w11;
  set w12 := ReadBE32 chunk 48;
  set '(e, c) := Round d e a b c (f1 e a b) k1 w12;
  set w13 := ReadBE32 chunk 52;
  set '(d, b) := Round c d e a b (f1 d e a) k1 w13;
  set w14 := ReadBE32 chunk 56;
  set '(c, a) := Round b c d e a (f1 c d e) k1 w14;
  set w15 := ReadBE32 chunk 60;
  set '(b, e) := Round a b c d e (f1 b c d) k1 w15;
  set w0 := left (Z.lxor (Z.lxor (Z.lxor w0 w13) w8) w2);
  set '(a, d) := Round e a b c d (f1 a b c) k1 w0;
  set w1 := left (Z.lxor (Z.lxor (Z.lxor w1 w14) w9) w3);
  set '(e, c) := Round d e a b c (f1 e a b) k1 w1;
  set w2 := left (Z.lxor (Z.lxor (Z.lxor w2 w15) w10) w4);
  set '(d, b) := Round c d e a b (f1 d e a) k1 w2;
  set w3 := left (Z.lxor (Z.lxor (Z.lxor w3 w0) w11) w5);
  set '(c, a) := Round b c d e a (f1 c d e) k1 w3;
  set w4 := left (Z.lxor (Z.lxor (Z.lxor w4 w1) w12) w6);
  set '(b, e) := Round a b c d e (f2 b c d) k2 w4;
  set w5 := left (Z.lxor (Z.lxor (Z.lxor w5 w2) w13) w7);
  set '(a, d) := Round e a b c d (f2 a b c) k2 w5;
  set w6 := left (Z.lxor (Z.lxor (Z.lxor w6 w3) w14) w8);
  set '(e, c) := Round d e a b c (f2 e a b) k2 w6;
  set w7 := left (Z.lxor (Z.lxor (Z.lxor w7 w4) w15) w9);
  set '(d, b) := Round c d e a b (f2 d e a) k2 w7;
  set w8 := left (Z.lxor (Z.lxor (Z.lxor w8 w5) w0) w10);
  set '(c, a) := Round b c d e a (f2 c d e) k2 w8;
  set w9 := left (Z.lxor (Z.lxor (Z.lxor w9 w6) w1) w11);
  set '(b, e) := Round a b c d e (f2 b c d) k2 w9;
  set w10 := left (Z.lxor (Z.lxor (Z.lxor w10 w7) w2) w12);
  set '(a, d) := Round e a b c d (f2 a b c) k2 w10;
  set w11 := left (Z.lxor (Z.lxor (Z.lxor w11 w8) w3) w13);
  set '(e, c) := Round d e a b c (f2 e a b) k2 w11;
  set w12 := left (Z.lxor (Z.lxor (Z.lxor w12 w9) w4) w14);
  set '(d, b) := Round c d e a b (f2 d e a) k2 w12;
  set w13 := left (Z.lxor (Z.lxor (Z.lxor w13 w10) w5) w15);
  set '(c, a) := Round b c d e a (f2 c d e) k2 w13;
  set w14 := left (Z.lxor (Z.lxor (Z.lxor w14 w11) w6) w0);
  set '(b, e) := Round a b c d e (f2 b c d) k2 w14;
  set w15 := left (Z.lxor (Z.lxor (Z.lxor w15 w12) w7) w1);
  set '(a, d) := Round e a b c d (f2 a b c) k2 w15;
  set w0 := left (Z.lxor (Z.lxor (Z.lxor w0 w13) w8) w2);
  set '(e, c) := Round d e a b c (f2 e a b) k2 w0;
  set w1 := left (Z.lxor (Z.lxor (Z.lxor w1 w14) w9) w3);
  set '(d, b) := Round c d e a b (f2 d e a) k2 w1;
  set w2 := left (Z.lxor (Z.lxor (Z.lxor w2 w15) w10) w4);
  set '(c, a) := Round b c d e a (f2 c d e) k2 w2;
  set w3 := left (Z.lxor (Z.lxor (Z.lxor w3 w0) w11) w5);
  set '(b, e) := Round a b c d e (f2 b c d) k2 w3;
  set w4 := left (Z.lxor (Z.lxor (Z.lxor w4 w1) w12) w6);
  set '(a, d) := Round e a b c d (f2 a b c) k2 w4;
  set w5 := left (Z.lxor (Z.lxor (Z.lxor w5 w2) w13) w7);
  set '(e, c) := Round d e a b c (f2 e a b) k2 w5;
  set w6 := left (Z.lxor (Z.lxor (Z.lxor w6 w3) w14) w8);
  set '(d, b) := Round c d e a b (f2 d e a) k2 w6;
  set w7 := left (Z.lxor (Z.lxor (Z.lxor w7 w4) w15) w9);
  set '(c, a) := Round b c d e a (f2 c d e) k2 w7;
  set w8 := left (Z.lxor (Z.lxor (Z.lxor w8 w5) w0) w10);
  set '(b, e) := Round a b c d e (f3 b c d) k3 w8;
  set w9 := left (Z.lxor (Z.lxor (Z.lxor w9 w6) w1) w11);
  set '(a, d) := Round e a b c d (f3 a b c) k3 w9;
  set w10 := left (Z.lxor (Z.lxor (Z.lxor w10 w7) w2) w12);
  set '(e, c) := Round d e a b c (f3 e a b) k3 w10;
  set w11 := left (Z.lxor (Z.lxor (Z.lxor w11 w8) w3) w13);
  set '(d, b) := Round c d e a b (f3 d e a) k3 w11;
  set w12 := left (Z.lxor (Z.lxor (Z.lxor w12 w9) w4) w14);
  set '(c, a) := Round b c d e a (f3 c d e) k3 w12;
  set w13 := left (Z.lxor (Z.lxor (Z.lxor w13 w10) w5) w15);
  set '(b, e) := Round a b c d e (f3 b c d) k3 w13;
  set w14 := left (Z.lxor (Z.lxor (Z.lxor w14 w11) w6) w0);
  set '(a, d) := Round e a b c d (f3 a b c) k3 w14;
  set w15 := left (Z.lxor (Z.lxor (Z.lxor w15 w12) w7) w1);
  set '(e, c) := Round d e a b c (f3 e a b) k3 w15;
  set w0 := left (Z.lxor (Z.lxor (Z.lxor w0 w13) w8) w2);
  set '(d, b) := Round c d e a b (f3 d e a) k3 w0;
  set w1 := left (Z.lxor (Z.lxor (Z.lxor w1 w14) w9) w3);
  set '(c, a) := Round b c d e a (f3 c d e) k3 w1;
  set w2 := left (Z.lxor (Z.lxor (Z.lxor w2 w15) w10) w4);
  set '(b, e) := Round a b c d e (f3 b c d) k3 w2;
  set w3 := left (Z.lxor (Z.lxor (Z.lxor w3 w0) w11) w5);
  set '(a, d) := Round e a b c d (f3 a b c) k3 w3;
  set w4 := left (Z.lxor (Z.lxor (Z.lxor w4 w1) w12) w6);
  set '(e, c) := Round d e a b c (f3 e a b) k3 w4;
  set w5 := left (Z.lxor (Z.lxor (Z.lxor w5 w2) w13) w7);
  set '(d, b) := Round c d e a b (f3 d e a) k3 w5;
  set w6 := left (Z.lxor (Z.lxor (Z.lxor w6 w3) w14) w8);
  set '(c, a) := Round b c d e a (f3 c d e) k3 w6;
  set w7 := left (Z.lxor (Z.lxor (Z.lxor w7 w4) w15) w9);
  set '(b, e) := Round a b c d e (f3 b c d) k3 w7;
  set w8 := left (Z.lxor (Z.lxor (Z.lxor w8 w5) w0) w10);
  set '(a, d) := Round e a b c d (f3 a b c) k3 w8;
  set w9 := left (Z.lxor (Z.lxor (Z.lxor w9 w6) w1) w11);
  set '(e, c) := Round d e a b c (f3 e a b) k3 w9;
  set w10 := left (Z.lxor (Z.lxor (Z.lxor w10 w7) w2) w12);
  set '(d, b) := Round c d e a b (f3 d e a) k3 w10;
  set w11 := left (Z.lxor (Z.lxor (Z.lxor w11 w8) w3) w13);
  set '(c, a) := Round b c d e a (f3 c d e) k3 w11;
  set w12 := left (Z.lxor (Z.lxor (Z.lxor w12 w9) w4) w14);
  set '(b, e) := Round a b c d e (f2 b c d) k4 w12;
  set w13 := left (Z.lxor (Z.lxor (Z.lxor w13 w10) w5) w15);
  set '(a, d) := Round e a b c d (f2 a b c) k4 w13;
  set w14 := left (Z.lxor (Z.lxor (Z.lxor w14 w11) w6) w0);
  set '(e, c) := Round d e a b c (f2 e a b) k4 w14;
  set w15 := left (Z.lxor (Z.lxor (Z.lxor w15 w12) w7) w1);
  set '(d, b) := Round c d e a b (f2 d e a) k4 w15;
  set w0 := left (Z.lxor (Z.lxor (Z.lxor w0 w13) w8) w2);
  set '(c, a) := Round b c d e a (f2 c d e) k4 w0;
  set w1 := left (Z.lxor (Z.lxor (Z.lxor w1 w14) w9) w3);
  set '(b, e) := Round a b c d e (f2 b c d) k4 w1;
  set w2 := left (Z.lxor (Z.lxor (Z.lxor w2 w15) w10) w4);
  set '(a, d) := Round e a b c d (f2 a b c) k4 w2;
  set w3 := left (Z.lxor (Z.lxor (Z.lxor w3 w0) w11) w5);
  set '(e, c) := Round d e a b c (f2 e a b) k4 w3;
  set w4 := left (Z.lxor (Z.lxor (Z.lxor w4 w1) w12) w6);
  set '(d, b) := Round c d e a b (f2 d e a) k4 w4;
  set w5 := left (Z.lxor (Z.lxor (Z.lxor w5 w2) w13) w7);
  set '(c, a) := Round b c d e a (f2 c d e) k4 w5;
  set w6 := left (Z.lxor (Z.lxor (Z.lxor w6 w3) w14) w8);
  set '(b, e) := Round a b c d e (f2 b c d) k4 w6;
  set w7 := left (Z.lxor (Z.lxor (Z.lxor w7 w4) w15) w9);
  set '(a, d) := Round e a b c d (f2 a b c) k4 w7;
  set w8 := left (Z.lxor (Z.lxor (Z.lxor w8 w5) w0) w10);
  set '(e, c) := Round d e a b c (f2 e a b) k4 w8;
  set w9 := left (Z.lxor (Z.lxor (Z.lxor w9 w6) w1) w11);
  set '(d, b) := Round c d e a b (f2 d e a) k4 w9;
  set w10 := left (Z.lxor (Z.lxor (Z.lxor w10 w7) w2) w12);
  set '(c, a) := Round b c d e a (f2 c d e) k4 w10;
  set w11 := left (Z.lxor (Z.lxor (Z.lxor w11 w8) w3) w13);
  set '(b, e) := Round a b c d e (f2 b c d) k4 w11;
  set w12 := left (Z.lxor (Z.lxor (Z.lxor w12 w9) w4) w14);
  set '(a, d) := Round e a b c d (f2 a b c) k4 w12;
  set '(e, c) := Round d e a b c (f2 e a b) k4 (left (Z.lxor (Z.lxor (Z.lxor w13 w10) w5) w15));
  set '(d, b) := Round c d e a b (f2 d e a) k4 (left (Z.lxor (Z.lxor (Z.lxor w14 w11) w6) w0));
  set '(c, a) := Round b c d e a (f2 c d e) k4 (left (Z.lxor (Z.lxor (Z.lxor w15 w12) w7) w1));
  [u32 (s_at s 0 + a); u32 (s_at s 1 + b); u32 (s_at s 2 + c); u32 (s_at s 3 + d); u32 (s_at s 4 + e)].

Definition params : HashParams := mkHashParams 64 Transform Initialize 119 (be_bytes 8) (flat_map (be_bytes 4)).

(** ** The standard *)

Definition rotl (n x : Z) : Z := Z.lor (u32 (Z.shiftl x n)) (Z.shiftr x (32 - n)).

Definition fips_parity (x y z : Z) : Z := Z.lxor (Z.lxor x y) z.

(** The function and the constant of a step. *)
Definition fips_step (t : nat) : (Z -> Z -> Z -> Z) * Z :=
  let root n := root_bits 2 (n * 2 ^ 60) 33 0 in
  if (t <? 20)%nat then (fips_Ch, root 2)
  else if (t <? 40)%nat then (fips_parity, root 3)
  else if (t <? 60)%nat then (fips_Maj, root 5)
  else (fips_parity, root 10).

Definition Registers5 : Type := Z * Z * Z * Z * Z.

Definition fips_round5 (r : Registers5) (fk : (Z -> Z -> Z -> Z) * Z) (w : Z) : Registers5 :=
  let '(a, b, c, d, e) := r in
  (u32 (e + (rotl 5 a + fk.1 b c d + fk.2 + w)), a, rotl 30 b, c, d).

Fixpoint first_steps (fks : list ((Z -> Z -> Z -> Z) * Z)) (ws : list Z) (r : Registers5) : Registers5 :=
  match fks, ws with fk :: fks, w :: ws => first_steps fks ws (fips_round5 r fk w) | _, _ => r end.

Fixpoint later_steps (fks : list ((Z -> Z -> Z -> Z) * Z)) (window : list Z) (r : Registers5) : Registers5 :=
  match fks with
  | [] => r
  | fk :: fks =>
    let w := rotl 1 (Z.lxor (Z.lxor (Z.lxor (s_at window 0) (s_at window 13)) (s_at window 8)) (s_at window 2)) in
    later_steps fks (tl window ++ [w]) (fips_round5 r fk w)
  end.

Definition registers5 (s : list Z) : Registers5 := (s_at s 0, s_at s 1, s_at s 2, s_at s 3, s_at s 4).

Definition add_registers5 (s : list Z) (r : Registers5) : list Z :=
  let '(a, b, c, d, e) := r in
  [u32 (s_at s 0 + a); u32 (s_at s 1 + b); u32 (s_at s 2 + c); u32 (s_at s 3 + d); u32 (s_at s 4 + e)].

Definition steps : list ((Z -> Z -> Z -> Z) * Z) := map fips_step (seq 0 80).

Definition standard_Transform (s chunk : list Z) : list Z :=
  let ws := map (fun i => ReadBE32 chunk (4 * i)) (seq 0 16) in
  add_registers5 s (later_steps (drop 16 steps) ws (first_steps (take 16 steps) ws (registers5 s))).

Definition standard : HashParams :=
  mkHashParams 64 standard_Transform Initialize 119 (be_bytes 8) (flat_map (be_bytes 4)).

Lemma f1_fips b c d : f1 b c d = fips_Ch b c d.
Proof. apply Ch_fips. Qed.
Lemma f2_fips b c d : f2 b c d = fips_parity b c d.
Proof. done. Qed.
Lemma f3_fips b c d : f3 b c d = fips_Maj b c d.
Proof. apply Maj_fips. Qed.

Lemma sha1_Round_fips a b c d e f k w : Round a b c d e f k w = (rotl 30 b, u32 (e + (rotl 5 a + f + k + w))).
Proof. done. Qed.

Lemma first_step fk fks w ws a b c d e :
  first_steps (fk :: fks) (w :: ws) (a, b, c, d, e) =
  first_steps fks ws (u32 (e + (rotl 5 a + fk.1 b c d + fk.2 + w)), a, rotl 30 b, c, d).
Proof. done. Qed.

Lemma later_word1 fk fks w0 w1 w2 w3 w4 w5 w6 w7 w8 w9 w10 w11 w12 w13 w14 w15 r :
  later_steps (fk :: fks) [w0; w1; w2; w3; w4; w5; w6; w7; w8; w9; w10; w11; w12; w13; w14; w15] r =
  assign (left (Z.lxor (Z.lxor (Z.lxor w0 w13) w8) w2)) (fun w =>
    later_steps fks [w1; w2; w3; w4; w5; w6; w7; w8; w9; w10; w11; w12; w13; w14; w15; w] (fips_round5 r fk w)).
Proof. done. Qed.

Lemma fips_round5_at fk w a b c d e :
  fips_round5 (a, b, c, d, e) fk w = (u32 (e + (rotl 5 a + fk.1 b c d + fk.2 + w)), a, rotl 30 b, c, d).
Proof. done. Qed.

Ltac reference_step :=
  rewrite later_word1;
  match goal with |- context [add_registers5 _ (assign ?v ?F)] => rewrite (assign_elim v F (F v) eq_refl) end;
  cbv beta; rewrite fips_round5_at; cbn [fst snd].

Ltac round_step := rewrite ?f1_fips, ?f2_fips, ?f3_fips; assign_pair sha1_Round_fips.

Lemma sha1_Transform_standard s chunk : Transform s chunk = standard_Transform s chunk.
Proof.
  unfold standard_Transform. cbv zeta.
  replace steps with (replicate 20 (fips_Ch, k1) ++ replicate 20 (fips_parity, k2) ++ replicate 20 (fips_Maj, k3) ++
    replicate 20 (fips_parity, k4)) by (by vm_compute). cbn [replicate app take drop].
  let ws := eval cbv -[ReadBE32] in (map (fun i => ReadBE32 chunk (4 * i)) (seq 0 16)) in
    change (map (fun i => ReadBE32 chunk (4 * i)) (seq 0 16)) with ws.
  unfold registers5, Transform. do 5 assign_head.
  do 16 (assign_word; rewrite first_step; cbn [fst snd]; round_step). cbn [first_steps].
  do 61 (reference_step; assign_word; round_step).
  do 3 (reference_step; round_step). done.
Qed.

Lemma sha1_laws : HashParamsLaws params.
Proof. apply (block_size_laws _ 64 8); try done; [by left|lia]. Qed.

Lemma sha1_hash_standard m : hash_message params m = hash_message standard m.
Proof. unfold params, standard. by apply hash_message_ext; [exact sha1_Transform_standard|]. Qed.

Lemma sha1_hash_bytes m : length (hash_message params m) = 20%nat /\ Forall byte (hash_message params m).
Proof.
  assert (length (absorb params Initialize (padded params m)) = 5%nat) as Hl.
  { apply (absorb_inv params (fun s => length s = 5%nat)); [done|]. intros s c.
    change (length (Transform s c) = 5%nat). rewrite sha1_Transform_standard. unfold standard_Transform, add_registers5.
    by destruct (later_steps _ _ _) as [[[[??]?]?]?]. }
  destruct (flat_map_bytes 4 be_bytes (absorb params Initialize (padded params m)) (be_bytes_ok 4)) as [H1 H2].
  rewrite Hl in H1. split; [exact H1|exact H2].
Qed.

End Sha1.

Module Ripemd160.

Definition f1 (x y z : Z) : Z := Z.lxor (Z.lxor x y) z.
Definition f2 (x y z : Z) : Z := Z.lor (Z.land x y) (Z.land (u32 (Z.lnot x)) z).
Definition f3 (x y z : Z) : Z := Z.lxor (Z.lor x (u32 (Z.lnot y))) z.
Definition f4 (x y z : Z) : Z := Z.lor (Z.land x z) (Z.land y (u32 (Z.lnot z))).
Definition f5 (x y z : Z) : Z := Z.lxor x (Z.lor y (u32 (Z.lnot z))).

Definition Initialize : list Z := [0x67452301; 0xEFCDAB89; 0x98BADCFE; 0x10325476; 0xC3D2E1F0].

Definition rol (x i : Z) : Z := Z.lor (u32 (Z.shiftl x i)) (Z.shiftr x (32 - i)).

(** The new values of [a] and [c]. *)
Definition Round (a b c d e f x k r : Z) : Z * Z := (u32 (rol (u32 (a + f + x + k)) r + e), rol c 10).

Definition R11 (a b c d e x r : Z) : Z * Z := Round a b c d e (f1 b c d) x 0 r.
Definition R21 (a b c d e x r : Z) : Z * Z := Round a b c d e (f2 b c d) x 0x5A827999 r.
Definition R31 (a b c d e x r : Z) : Z * Z := Round a b c d e (f3 b c d) x 0x6ED9EBA1 r.
Definition R41 (a b c d e x r : Z) : Z * Z := Round a b c d e (f4 b c d) x 0x8F1BBCDC r.
Definition R51 (a b c d e x r : Z) : Z * Z := Round a b c d e (f5 b c d) x 0xA953FD4E r.

Definition R12 (a b c d e x r : Z) : Z * Z := Round a b c d e (f5 b c d) x 0x50A28BE6 r.
Definition R22 (a b c d e x r : Z) : Z * Z := Round a b c d e (f4 b c d) x 0x5C4DD124 r.
Definition R32 (a b c d e x r : Z) : Z * Z := Round a b c d e (f3 b c d) x 0x6D703EF3 r.
Definition R42 (a b c d e x r : Z) : Z * Z := Round a b c d e (f2 b c d) x 0x7A6D76E9 r.
Definition R52 (a b c d e x r : Z) : Z * Z := Round a b c d e (f1 b c d) x 0 r.

Definition ReadLE32 (chunk : list Z) (i : nat) : Z := le_value (take 4 (drop i chunk)).

Definition Transform (s chunk : list Z) : list Z :=
  set a1 := s_at s 0;
  set b1 := s_at s 1;
  set c1 := s_at s 2;
  set d1 := s_at s 3;
  set e1 := s_at s 4;
  set a2 := a1;
  set b2 := b1;
  set c2 := c1;
  set d2 := d1;
  set e2 := e1;
  set w0 := ReadLE32 chunk 0;
  set w1 := ReadLE32 chunk 4;
  set w2 := ReadLE32 chunk 8;
  set w3 := ReadLE32 chunk 12;
  set w4 := ReadLE32 chunk 16;
  set w5 := ReadLE32 chunk 20;
  set w6 := ReadLE32 chunk 24;
  set w7 := ReadLE32 chunk 28;
  set w8 := ReadLE32 chunk 32;
  set w9 := ReadLE32 chunk 36;
  set w10 := ReadLE32 chunk 40;
  set w11 := ReadLE32 chunk 44;
  set w12 := ReadLE32 chunk 48;
  set w13 := ReadLE32 chunk 52;
  set w14 := ReadLE32 chunk 56;
  set w15 := ReadLE32 chunk 60;
  set '(a1, c1) := R11 a1 b1 c1 d1 e1 w0 11;
  set '(a2, c2) := R12 a2 b2 c2 d2 e2 w5 8;
  set '(e1, b1) := R11 e1 a1 b1 c1 d1 w1 14;
  set '(e2, b2) := R12 e2 a2 b2 c2 d2 w14 9;
  set '(d1, a1) := R11 d1 e1 a1 b1 c1 w2 15;
  set '(d2, a2) := R12 d2 e2 a2 b2 c2 w7 9;
  set '(c1, e1) := R11 c1 d1 e1 a1 b1 w3 12;
  set '(c2, e2) := R12 c2 d2 e2 a2 b2 w0 11;
  set '(b1, d1) := R11 b1 c1 d1 e1 a1 w4 5;
  set '(b2, d2) := R12 b2 c2 d2 e2 a2 w9 13;
  set '(a1, c1) := R11 a1 b1 c1 d1 e1 w5 8;
  set '(a2, c2) := R12 a2 b2 c2 d2 e2 w2 15;
  set '(e1, b1) := R11 e1 a1 b1 c1 d1 w6 7;
  set '(e2, b2) := R12 e2 a2 b2 c2 d2 w11 15;
  set '(d1, a1) := R11 d1 e1 a1 b1 c1 w7 9;
  set '(d2, a2) := R12 d2 e2 a2 b2 c2 w4 5;
  set '(c1, e1) := R11 c1 d1 e1 a1 b1 w8 11;
  set '(c2, e2) := R12 c2 d2 e2 a2 b2 w13 7;
  set '(b1, d1) := R11 b1 c1 d1 e1 a1 w9 13;
  set '(b2, d2) := R12 b2 c2 d2 e2 a2 w6 7;
  set '(a1, c1) := R11 a1 b1 c1 d1 e1 w10 14;
  set '(a2, c2) := R12 a2 b2 c2 d2 e2 w15 8;
  set '(e1, b1) := R11 e1 a1 b1 c1 d1 w11 15;
  set '(e2, b2) := R12 e2 a2 b2 c2 d2 w8 11;
  set '(d1, a1) := R11 d1 e1 a1 b1 c1 w12 6;
  set '(d2, a2) := R12 d2 e2 a2 b2 c2 w1 14;
  set '(c1, e1) := R11 c1 d1 e1 a1 b1 w13 7;
  set '(c2, e2) := R12 c2 d2 e2 a2 b2 w10 14;
  set '(b1, d1) := R11 b1 c1 d1 e1 a1 w14 9;
  set '(b2, d2) := R12 b2 c2 d2 e2 a2 w3 12;
  set '(a1, c1) := R11 a1 b1 c1 d1 e1 w15 8;
  set '(a2, c2) := R12 a2 b2 c2 d2 e2 w12 6;
  set '(e1, b1) := R21 e1 a1 b1 c1 d1 w7 7;
  set '(e2, b2) := R22 e2 a2 b2 c2 d2 w6 9;
  set '(d1, a1) := R21 d1 e1 a1 b1 c1 w4 6;
  set '(d2, a2) := R22 d2 e2 a2 b2 c2 w11 13;
  set '(c1, e1) := R21 c1 d1 e1 a1 b1 w13 8;
  set '(c2, e2) := R22 c2 d2 e2 a2 b2 w3 15;
  set '(b1, d1) := R21 b1 c1 d1 e1 a1 w1 13;
  set '(b2, d2) := R22 b2 c2 d2 e2 a2 w7 7;
  set '(a1, c1) := R21 a1 b1 c1 d1 e1 w10 11;
  set '(a2, c2) := R22 a2 b2 c2 d2 e2 w0 12;
  set '(e1, b1) := R21 e1 a1 b1 c1 d1 w6 9;
  set '(e2, b2) := R22 e2 a2 b2 c2 d2 w13 8;
  set '(d1, a1) := R21 d1 e1 a1 b1 c1 w15 7;
  set '(d2, a2) := R22 d2 e2 a2 b2 c2 w5 9;
  set '(c1, e1) := R21 c1 d1 e1 a1 b1 w3 15;
  set '(c2, e2) := R22 c2 d2 e2 a2 b2 w10 11;
  set '(b1, d1) := R21 b1 c1 d1 e1 a1 w12 7;
  set '(b2, d2) := R22 b2 c2 d2 e2 a2 w14 7;
  set '(a1, c1) := R21 a1 b1 c1 d1 e1 w0 12;
  set '(a2, c2) := R22 a2 b2 c2 d2 e2 w15 7;
  set '(e1, b1) := R21 e1 a1 b1 c1 d1 w9 15;
  set '(e2, b2) := R22 e2 a2 b2 c2 d2 w8 12;
  set '(d1, a1) := R21 d1 e1 a1 b1 c1 w5 9;
  set '(d2, a2) := R22 d2 e2 a2 b2 c2 w12 7;
  set '(c1, e1) := R21 c1 d1 e1 a1 b1 w2 11;
  set '(c2, e2) := R22 c2 d2 e2 a2 b2 w4 6;
  set '(b1, d1) := R21 b1 c1 d1 e1 a1 w14 7;
  set '(b2, d2) := R22 b2 c2 d2 e2 a2 w9 15;
  set '(a1, c1) := R21 a1 b1 c1 d1 e1 w11 13;
  set '(a2, c2) := R22 a2 b2 c2 d2 e2 w1 13;
  set '(e1, b1) := R21 e1 a1 b1 c1 d1 w8 12;
  set '(e2, b2) := R22 e2 a2 b2 c2 d2 w2 11;
  set '(d1, a1) := R31 d1 e1 a1 b1 c1 w3 11;
  set '(d2, a2) := R32 d2 e2 a2 b2 c2 w15 9;
  set '(c1, e1) := R31 c1 d1 e1 a1 b1 w10 13;
  set '(c2, e2) := R32 c2 d2 e2 a2 b2 w5 7;
  set '(b1, d1) := R31 b1 c1 d1 e1 a1 w14 6;
  set '(b2, d2) := R32 b2 c2 d2 e2 a2 w1 15;
  set '(a1, c1) := R31 a1 b1 c1 d1 e1 w4 7;
  set '(a2, c2) := R32 a2 b2 c2 d2 e2 w3 11;
  set '(e1, b1) := R31 e1 a1 b1 c1 d1 w9 14;
  set '(e2, b2) := R32 e2 a2 b2 c2 d2 w7 8;
  set '(d1, a1) := R31 d1 e1 a1 b1 c1 w15 9;
  set '(d2, a2) := R32 d2 e2 a2 b2 c2 w14 6;
  set '(c1, e1) := R31 c1 d1 e1 a1 b1 w8 13;
  set '(c2, e2) := R32 c2 d2 e2 a2 b2 w6 6;
  set '(b1, d1) := R31 b1 c1 d1 e1 a1 w1 15;
  set '(b2, d2) := R32 b2 c2 d2 e2 a2 w9 14;
  set '(a1, c1) := R31 a1 b1 c1 d1 e1 w2 14;
  set '(a2, c2) := R32 a2 b2 c2 d2 e2 w11 12;
  set '(e1, b1) := R31 e1 a1 b1 c1 d1 w7 8;
  set '(e2, b2) := R32 e2 a2 b2 c2 d2 w8 13;
  set '(d1, a1) := R31 d1 e1 a1 b1 c1 w0 13;
  set '(d2, a2) := R32 d2 e2 a2 b2 c2 w12 5;
  set '(c1, e1) := R31 c1 d1 e1 a1 b1 w6 6;
  set '(c2, e2) := R32 c2 d2 e2 a2 b2 w2 14;
  set '(b1, d1) := R31 b1 c1 d1 e1 a1 w13 5;
  set '(b2, d2) := R32 b2 c2 d2 e2 a2 w10 13;
  set '(a1, c1) := R31 a1 b1 c1 d1 e1 w11 12;
  set '(a2, c2) := R32 a2 b2 c2 d2 e2 w0 13;
  set '(e1, b1) := R31 e1 a1 b1 c1 d1 w5 7;
  set '(e2, b2) := R32 e2 a2 b2 c2 d2 w4 7;
  set '(d1, a1) := R31 d1 e1 a1 b1 c1 w12 5;
  set '(d2, a2) := R32 d2 e2 a2 b2 c2 w13 5;
  set '(c1, e1) := R41 c1 d1 e1 a1 b1 w1 11;
  set '(c2, e2) := R42 c2 d2 e2 a2 b2 w8 15;
  set '(b1, d1) := R41 b1 c1 d1 e1 a1 w9 12;
  set '(b2, d2) := R42 b2 c2 d2 e2 a2 w6 5;
  set '(a1, c1) := R41 a1 b1 c1 d1 e1 w11 14;
  set '(a2, c2) := R42 a2 b2 c2 d2 e2 w4 8;
  set '(e1, b1) := R41 e1 a1 b1 c1 d1 w10 15;
  set '(e2, b2) := R42 e2 a2 b2 c2 d2 w1 11;
  set '(d1, a1) := R41 d1 e1 a1 b1 c1 w0 14;
  set '(d2, a2) := R42 d2 e2 a2 b2 c2 w3 14;
  set '(c1, e1) := R41 c1 d1 e1 a1 b1 w8 15;
  set '(c2, e2) := R42 c2 d2 e2 a2 b2 w11 14;
  set '(b1, d1) := R41 b1 c1 d1 e1 a1 w12 9;
  set '(b2, d2) := R42 b2 c2 d2 e2 a2 w15 6;
  set '(a1, c1) := R41 a1 b1 c1 d1 e1 w4 8;
  set '(a2, c2) := R42 a2 b2 c2 d2 e2 w0 14;
  set '(e1, b1) := R41 e1 a1 b1 c1 d1 w13 9;
  set '(e2, b2) := R42 e2 a2 b2 c2 d2 w5 6;
  set '(d1, a1) := R41 d1 e1 a1 b1 c1 w3 14;
  set '(d2, a2) := R42 d2 e2 a2 b2 c2 w12 9;
  set '(c1, e1) := R41 c1 d1 e1 a1 b1 w7 5;
  set '(c2, e2) := R42 c2 d2 e2 a2 b2 w2 12;
  set '(b1, d1) := R41 b1 c1 d1 e1 a1 w15 6;
  set '(b2, d2) := R42 b2 c2 d2 e2 a2 w13 9;
  set '(a1, c1) := R41 a1 b1 c1 d1 e1 w14 8;
  set '(a2, c2) := R42 a2 b2 c2 d2 e2 w9 12;
  set '(e1, b1) := R41 e1 a1 b1 c1 d1 w5 6;
  set '(e2, b2) := R42 e2 a2 b2 c2 d2 w7 5;
  set '(d1, a1) := R41 d1 e1 a1 b1 c1 w6 5;
  set '(d2, a2) := R42 d2 e2 a2 b2 c2 w10 15;
  set '(c1, e1) := R41 c1 d1 e1 a1 b1 w2 12;
  set '(c2, e2) := R42 c2 d2 e2 a2 b2 w14 8;
  set '(b1, d1) := R51 b1 c1 d1 e1 a1 w4 9;
  set '(b2, d2) := R52 b2 c2 d2 e2 a2 w12 8;
  set '(a1, c1) := R51 a1 b1 c1 d1 e1 w0 15;
  set '(a2, c2) := R52 a2 b2 c2 d2 e2 w15 5;
  set '(e1, b1) := R51 e1 a1 b1 c1 d1 w5 5;
  set '(e2, b2) := R52 e2 a2 b2 c2 d2 w10 12;
  set '(d1, a1) := R51 d1 e1 a1 b1 c1 w9 11;
  set '(d2, a2) := R52 d2 e2 a2 b2 c2 w4 9;
  set '(c1, e1) := R51 c1 d1 e1 a1 b1 w7 6;
  set '(c2, e2) := R52 c2 d2 e2 a2 b2 w1 12;
  set '(b1, d1) := R51 b1 c1 d1 e1 a1 w12 8;
  set '(b2, d2) := R52 b2 c2 d2 e2 a2 w5 5;
  set '(a1, c1) := R51 a1 b1 c1 d1 e1 w2 13;
  set '(a2, c2) := R52 a2 b2 c2 d2 e2 w8 14;
  set '(e1, b1) := R51 e1 a1 b1 c1 d1 w10 12;
  set '(e2, b2) := R52 e2 a2 b2 c2 d2 w7 6;
  set '(d1, a1) := R51 d1 e1 a1 b1 c1 w14 5;
  set '(d2, a2) := R52 d2 e2 a2 b2 c2 w6 8;
  set '(c1, e1) := R51 c1 d1 e1 a1 b1 w1 12;
  set '(c2, e2) := R52 c2 d2 e2 a2 b2 w2 13;
  set '(b1, d1) := R51 b1 c1 d1 e1 a1 w3 13;
  set '(b2, d2) := R52 b2 c2 d2 e2 a2 w13 6;
  set '(a1, c1) := R51 a1 b1 c1 d1 e1 w8 14;
  set '(a2, c2) := R52 a2 b2 c2 d2 e2 w14 5;
  set '(e1, b1) := R51 e1 a1 b1 c1 d1 w11 11;
  set '(e2, b2) := R52 e2 a2 b2 c2 d2 w0 15;
  set '(d1, a1) := R51 d1 e1 a1 b1 c1 w6 8;
  set '(d2, a2) := R52 d2 e2 a2 b2 c2 w3 13;
  set '(c1, e1) := R51 c1 d1 e1 a1 b1 w15 5;
  set '(c2, e2) := R52 c2 d2 e2 a2 b2 w9 11;
  set '(b1, d1) := R51 b1 c1 d1 e1 a1 w13 6;
  set '(b2, d2) := R52 b2 c2 d2 e2 a2 w11 11;
  [u32 (s_at s 1 + c1 + d2); u32 (s_at s 2 + d1 + e2); u32 (s_at s 3 + e1 + a2); u32 (s_at s 4 + a1 + b2); u32 (s_at s 0 + b1 + c2)].

Definition params : HashParams := mkHashParams 64 Transform Initialize 119 (le_bytes 8) (flat_map (le_bytes 4)).

(** ** The description *)

(** The permutations of the words. *)
Definition rho : list nat := [7; 4; 13; 1; 10; 6; 15; 3; 12; 0; 9; 5; 2; 14; 11; 8]%nat.
Definition pi : list nat := map (fun i => (9 * i + 5) mod 16)%nat (seq 0 16).

(** The words of the five rounds of a line, from those of its first round. *)
Fixpoint orders (n : nat) (order : list nat) : list (list nat) :=
  match n with O => [] | S n => order :: orders n (map (fun i => nth i rho 0%nat) order) end.

(** The shifts of a round, by word. *)
Definition shifts : list (list Z) :=
  [[11; 14; 15; 12; 5; 8; 7; 9; 11; 13; 14; 15; 6; 7; 9; 8];
   [12; 13; 11; 15; 6; 9; 9; 7; 12; 15; 11; 13; 7; 8; 7; 7];
   [13; 15; 14; 11; 7; 7; 6; 8; 13; 14; 13; 12; 5; 5; 6; 9];
   [14; 11; 12; 14; 8; 6; 5; 5; 15; 12; 15; 14; 9; 9; 8; 6];
   [15; 12; 13; 13; 9; 5; 8; 6; 14; 11; 12; 11; 8; 6; 5; 5]].

Definition left_constants : list Z := 0 :: map (fun p => root_bits 2 (p * 2 ^ 60) 33 0) [2; 3; 5; 7].
Definition right_constants : list Z := map (fun p => root_bits 3 (p * 2 ^ 90) 33 0) [2; 3; 5; 7] ++ [0].

(** The five functions by number. *)
Definition fn (j : nat) : Z -> Z -> Z -> Z :=
  match j with 1%nat => f1 | 2%nat => f2 | 3%nat => f3 | 4%nat => f4 | _ => f5 end.

(** A step: the number of the function, the constant, the word and the shift. *)
Definition Step : Type := nat * Z * nat * Z.

Definition line_steps (fs : list nat) (ks : list Z) (order : list nat) : list Step :=
  concat (zip_with (fun '(f, k) '(order, shift) => map (fun w => (f, k, w, nth w shift 0)) order)
            (zip fs ks) (zip (orders 5 order) shifts)).

Definition left_steps : list Step := line_steps [1; 2; 3; 4; 5]%nat left_constants (seq 0 16).
Definition right_steps : list Step := line_steps [5; 4; 3; 2; 1]%nat right_constants pi.

Definition Registers5 : Type := Z * Z * Z * Z * Z.

Fixpoint line (words : list Z) (steps : list Step) (r : Registers5) : Registers5 :=
  match steps with
  | [] => r
  | (f, k, w, shift) :: steps =>
    let '(a, b, c, d, e) := r in
    line words steps (e, u32 (rol (u32 (a + fn f b c d + nth w words 0 + k)) shift + e), b, rol c 10, d)
  end.

(** The left and the right line, told apart for the proof. *)
Definition left_line := line.
Definition right_line := line.

Definition combine_lines (s : list Z) (l r : Registers5) : list Z :=
  let '(a1, b1, c1, d1, e1) := l in
  let '(a2, b2, c2, d2, e2) := r in
  [u32 (s_at s 1 + c1 + d2); u32 (s_at s 2 + d1 + e2); u32 (s_at s 3 + e1 + a2); u32 (s_at s 4 + a1 + b2);
   u32 (s_at s 0 + b1 + c2)].

Definition reference_Transform (s chunk : list Z) : list Z :=
  let words := map (fun i => ReadLE32 chunk (4 * i)) (seq 0 16) in
  let r := (s_at s 0, s_at s 1, s_at s 2, s_at s 3, s_at s 4) in
  combine_lines s (left_line words left_steps r) (right_line words right_steps r).

Definition reference : HashParams :=
  mkHashParams 64 reference_Transform Initialize 119 (le_bytes 8) (flat_map (le_bytes 4)).

(** A step of the code is a step of its line: the registers it changes become
    variables. *)
Lemma left_step F s words f k w shift steps a b c d e r :
  (forall x y, F (x, y) = combine_lines s (left_line words steps (e, x, b, y, d)) r) ->
  assign (Round a b c d e (fn f b c d) (nth w words 0) k shift) F =
  combine_lines s (left_line words ((f, k, w, shift) :: steps) (a, b, c, d, e)) r.
Proof. intros H. apply H. Qed.

Lemma right_step F s words f k w shift steps a b c d e l :
  (forall x y, F (x, y) = combine_lines s l (right_line words steps (e, x, b, y, d))) ->
  assign (Round a b c d e (fn f b c d) (nth w words 0) k shift) F =
  combine_lines s l (right_line words ((f, k, w, shift) :: steps) (a, b, c, d, e)).
Proof. intros H. apply H. Qed.

Ltac left_one :=
  lazymatch goal with
  | |- assign _ ?F = combine_lines ?s (left_line ?words ((?f, ?k, ?w, ?shift) :: ?steps) (?a, ?b, ?c, ?d, ?e)) ?r =>
    apply (left_step F s words f k w shift steps a b c d e r)
  end; intros ? ?; cbv beta iota.

Ltac right_one :=
  lazymatch goal with
  | |- assign _ ?F = combine_lines ?s ?l (right_line ?words ((?f, ?k, ?w, ?shift) :: ?steps) (?a, ?b, ?c, ?d, ?e)) =>
    apply (right_step F s words f k w shift steps a b c d e l)
  end; intros ? ?; cbv beta iota.


Lemma ripemd160_Transform_reference s chunk : Transform s chunk = reference_Transform s chunk.
Proof.
  unfold reference_Transform. cbv zeta.
  let l := eval vm_compute in left_steps in replace left_steps with l by (by vm_compute).
  let l := eval vm_compute in right_steps in replace right_steps with l by (by vm_compute).
  let ws := eval cbv -[ReadLE32] in (map (fun i => ReadLE32 chunk (4 * i)) (seq 0 16)) in
    change (map (fun i => ReadLE32 chunk (4 * i)) (seq 0 16)) with ws.
  unfold Transform. do 10 assign_head. do 16 assign_word.
  do 80 (left_one; right_one). done.
Qed.

Lemma ripemd160_laws : HashParamsLaws params.
Proof. apply (block_size_laws _ 64 8); try done; [by left|lia]. Qed.

Lemma ripemd160_hash_reference m : hash_message params m = hash_message reference m.
Proof. unfold params, reference. by apply hash_message_ext; [exact ripemd160_Transform_reference|]. Qed.

Lemma ripemd160_hash_bytes m : length (hash_message params m) = 20%nat /\ Forall byte (hash_message params m).
Proof.
  assert (length (absorb params Initialize (padded params m)) = 5%nat) as Hl.
  { apply (absorb_inv params (fun s => length s = 5%nat)); [done|]. intros s c.
    change (length (Transform s c) = 5%nat). rewrite ripemd160_Transform_reference. unfold reference_Transform, combine_lines.
    cbv zeta. destruct (left_line _ _ _) as [[[[??]?]?]?]. by destruct (right_line _ _ _) as [[[[??]?]?]?]. }
  destruct (flat_map_bytes 4 le_bytes (absorb params Initialize (padded params m)) (le_bytes_ok 4)) as [H1 H2].
  rewrite Hl in H1. split; [exact H1|exact H2].
Qed.

End Ripemd160.

(** [CSHA1] and [CRIPEMD160] compute SHA-1 and RIPEMD-160 as their
    definitions state them, for every way to cut the message into writes. *)
Theorem sha1_ripemd160_correct garbage parts :
  length garbage = 64%nat ->
  fst (hasher_Finalize Sha1.params (foldl (hasher_Write Sha1.params) (hasher_new Sha1.params garbage) parts)) =
  hash_message Sha1.standard (concat parts) /\
  fst (hasher_Finalize Ripemd160.params
         (foldl (hasher_Write Ripemd160.params) (hasher_new Ripemd160.params garbage) parts)) =
  hash_message Ripemd160.reference (concat parts).
Proof.
  intros Hg. split.
  - rewrite (stream_hash _ Sha1.sha1_laws) by done. apply Sha1.sha1_hash_standard.
  - rewrite (stream_hash _ Ripemd160.ripemd160_laws) by done. apply Ripemd160.ripemd160_hash_reference.
Qed.

(** The digests of the three bytes [abc]. *)
Example sha1_abc :
  be_value (hash_message Sha1.params [0x61; 0x62; 0x63]) = 0xa9993e364706816aba3e25717850c26c9cd0d89d.
Proof. by vm_compute. Qed.

Example ripemd160_abc :
  be_value (hash_message Ripemd160.params [0x61; 0x62; 0x63]) = 0x8eb208f7e05d987a9b044a8e98c6b087f15a0bfc.
Proof. by vm_compute. Qed.

Lemma sha1_ripemd160_correct_witness :
  fst (hasher_Finalize Ripemd160.params
         (foldl (hasher_Write Ripemd160.params) (hasher_new Ripemd160.params (replicate 64 7)) [[0x61]; []; [0x62; 0x63]])) =
  hash_message Ripemd160.reference [0x61; 0x62; 0x63].
Proof. exact (proj2 (sha1_ripemd160_correct (replicate 64 7) [[0x61]; []; [0x62; 0x63]] eq_refl)). Defined.
