(* ===== verification/HashFunctions.v ===== *)
(** * Hash functions built on others ([hash.h], [hash.cpp], [crypto/hmac_sha256.cpp],
    [crypto/hmac_sha512.cpp])

    The double hash of blocks and transactions, the hash of addresses, the
    keyed hash of RFC 2104, the derivation of child keys, MurmurHash3 of the
    bloom filters and SipHash-2-4 of the hash tables.  Buffers that are not
    initialized are arguments ([garbage]), so no result may depend on them. *)
From S2P Require Import Prelude Bytes HashStream Sha2 Sha1Ripemd.

(** ** Double hashes *)

(** [CHash256::Finalize]: the object is used again for its own digest. *)
Definition CHash256_Finalize (sha : Hasher) : list Z :=
  let '(buf, sha) := hasher_Finalize Sha256.params sha in
  fst (hasher_Finalize Sha256.params (hasher_Write Sha256.params (hasher_Reset Sha256.params sha) buf)).

Definition CHash160_Finalize (garbage : list Z) (sha : Hasher) : list Z :=
  let buf := fst (hasher_Finalize Sha256.params sha) in
  fst (hasher_Finalize Ripemd160.params (hasher_Write Ripemd160.params (hasher_new Ripemd160.params garbage) buf)).

(** [Hash] of one, two or three ranges. *)
Definition Hash (garbage : list Z) (ranges : list (list Z)) : list Z :=
  CHash256_Finalize (foldl (hasher_Write Sha256.params) (hasher_new Sha256.params garbage) ranges).

Definition Hash160_range (garbage garbage' : list Z) (range : list Z) : list Z :=
  CHash160_Finalize garbage' (hasher_Write Sha256.params (hasher_new Sha256.params garbage) range).

(** The three functions on whole messages. *)
Definition SHA256 : list Z -> list Z := hash_message Sha256.params.
Definition SHA1 : list Z -> list Z := hash_message Sha1.params.
Definition RIPEMD160 : list Z -> list Z := hash_message Ripemd160.params.
Definition SHA512 : list Z -> list Z := hash_message Sha512.params.

Lemma Hash_message garbage ranges : length garbage = 64%nat -> Hash garbage ranges = SHA256 (SHA256 (concat ranges)).
Proof.
  intros Hg. unfold Hash, CHash256_Finalize.
  pose proof (writes_reads _ Sha256.sha256_laws ranges _ [] (reads_new _ Sha256.sha256_laws garbage Hg)) as Hr.
  pose proof (Finalize_hash _ Sha256.sha256_laws _ _ Hr) as Hf. pose proof (Finalize_buf _ Sha256.sha256_laws _ _ Hr) as Hb.
  destruct (hasher_Finalize _ _) as [buf sha]. cbn [fst snd] in Hf, Hb. subst buf.
  apply (Finalize_hash _ Sha256.sha256_laws). apply (Write_reads _ Sha256.sha256_laws _ []).
  by apply (reads_new _ Sha256.sha256_laws).
Qed.

Lemma Hash160_message garbage garbage' range :
  length garbage = 64%nat -> length garbage' = 64%nat -> Hash160_range garbage garbage' range = RIPEMD160 (SHA256 range).
Proof.
  intros Hg Hg'. unfold Hash160_range, CHash160_Finalize.
  pose proof (stream_hash _ Sha256.sha256_laws garbage [range] Hg) as E. cbn [foldl concat] in E. rewrite app_nil_r in E.
  rewrite E. pose proof (stream_hash _ Ripemd160.ripemd160_laws garbage' [SHA256 range] Hg') as E'.
  cbn [foldl concat] in E'. rewrite app_nil_r in E'. exact E'.
Qed.

(** ** Keyed hashes *)

Section hmac.
Context (H : HashParams) (OUTPUT_SIZE : nat).

Record Hmac := mkHmac { outer : Hasher; inner : Hasher }.

(** The key in a block: [memcpy] and [memset], or the digest of a long key. *)
Definition hmac_rkey (rkey garbage key : list Z) : list Z :=
  if (length key <=? BLOCK H)%nat then
    memcpy (memcpy rkey 0 key) (length key) (replicate (BLOCK H - length key) 0)
  else
    memcpy (memcpy rkey 0 (fst (hasher_Finalize H (hasher_Write H (hasher_new H garbage) key))))
      OUTPUT_SIZE (replicate (BLOCK H - OUTPUT_SIZE) 0).

(** The constructor; the arguments before the key are the memory it gets. *)
Definition hmac_new (rkey garbage outer inner key : list Z) : Hmac :=
  let rkey := hmac_rkey rkey garbage key in
  let rkey := map (Z.lxor 0x5c) rkey in
  let outer := hasher_Write H (hasher_new H outer) rkey in
  let rkey := map (Z.lxor (Z.lxor 0x5c 0x36)) rkey in
  mkHmac outer (hasher_Write H (hasher_new H inner) rkey).

Definition hmac_Write (h : Hmac) (data : list Z) : Hmac := mkHmac (outer h) (hasher_Write H (inner h) data).

Definition hmac_Finalize (h : Hmac) : list Z :=
  let temp := fst (hasher_Finalize H (inner h)) in
  fst (hasher_Finalize H (hasher_Write H (outer h) temp)).

(** The definition of RFC 2104. *)
Definition hmac_message (key m : list Z) : list Z :=
  let key := if (length key <=? BLOCK H)%nat then key else hash_message H key in
  let key := key ++ replicate (BLOCK H - length key) 0 in
  hash_message H (map (Z.lxor 0x5c) key ++ hash_message H (map (Z.lxor 0x36) key ++ m)).

Context (L : HashParamsLaws H) (Hout : forall m, length (hash_message H m) = OUTPUT_SIZE) (Hsize : (OUTPUT_SIZE <= BLOCK H)%nat).

Lemma fill_block rkey k :
  length rkey = BLOCK H -> (length k <= BLOCK H)%nat ->
  memcpy (memcpy rkey 0 k) (length k) (replicate (BLOCK H - length k) 0) = k ++ replicate (BLOCK H - length k) 0.
Proof.
  intros Hr Hk. unfold memcpy. rewrite take_0, length_replicate. cbn [app Nat.add]. rewrite take_app_length.
  rewrite (drop_ge (k ++ _)) by (rewrite length_app, length_drop; lia). by rewrite app_nil_r.
Qed.

Lemma hmac_rkey_spec rkey garbage key :
  length rkey = BLOCK H -> length garbage = BLOCK H ->
  hmac_rkey rkey garbage key =
  let key := if (length key <=? BLOCK H)%nat then key else hash_message H key in key ++ replicate (BLOCK H - length key) 0.
Proof.
  intros Hr Hg. unfold hmac_rkey. cbv zeta. destruct (Nat.leb_spec (length key) (BLOCK H)); [by apply fill_block|].
  pose proof (stream_hash _ L garbage [key] Hg) as E. cbn [foldl concat] in E. rewrite app_nil_r in E. rewrite E, <- (Hout key).
  apply fill_block; [done|]. rewrite Hout. lia.
Qed.

Lemma hmac_writes parts h :
  foldl hmac_Write h parts = mkHmac (outer h) (foldl (hasher_Write H) (inner h) parts).
Proof. revert h; induction parts as [|d parts IH]; intros [o i]; cbn; [done|]. by rewrite IH. Qed.

Lemma hmac_stream rkey garbage o i key parts :
  length rkey = BLOCK H -> length garbage = BLOCK H -> length o = BLOCK H -> length i = BLOCK H ->
  hmac_Finalize (foldl hmac_Write (hmac_new rkey garbage o i key) parts) = hmac_message key (concat parts).
Proof.
  intros Hr Hg Ho Hi. rewrite hmac_writes. unfold hmac_new, hmac_Finalize, hmac_message. rewrite hmac_rkey_spec by done.
  cbv zeta. set (k := (if (length key <=? BLOCK H)%nat then key else hash_message H key) ++ _). cbn [outer inner].
  pose proof (Write_reads _ L _ _ (map (Z.lxor 0x5c) k) (reads_new _ L o Ho)) as Hro.
  pose proof (Write_reads _ L _ _ (map (Z.lxor (Z.lxor 0x5c 0x36)) (map (Z.lxor 0x5c) k)) (reads_new _ L i Hi)) as Hri.
  apply (writes_reads _ L parts) in Hri. rewrite (Finalize_hash _ L _ _ Hri).
  rewrite (Finalize_hash _ L _ _ (Write_reads _ L _ _ _ Hro)). cbn [app]. do 4 f_equal.
  rewrite map_map. apply map_ext. intros z. by rewrite <- Z.lxor_assoc.
Qed.

End hmac.

(** [BIP32Hash] ([hash.cpp]). *)
Definition BIP32Hash (memory : list Z) (chainCode : list Z) (nChild header : Z) (data : list Z) : list Z :=
  let num := map (fun s => Z.land (Z.shiftr nChild s) 0xFF) [24; 16; 8; 0] in
  hmac_Finalize Sha512.params
    (foldl (hmac_Write Sha512.params) (hmac_new Sha512.params 64 memory memory memory memory chainCode) [[header]; data; num]).

Lemma child_number n : map (fun s => Z.land (Z.shiftr n s) 0xFF) [24; 16; 8; 0] = be_bytes 4 n.
Proof.
  unfold be_bytes. cbn [le_bytes rev app map].
  assert (forall s, 0 <= s -> Z.land (Z.shiftr n s) 255 = n / 2 ^ s mod 256) as E.
  { intros s Hs. rewrite Z.shiftr_div_pow2 by done. apply (Z.land_ones _ 8). lia. }
  rewrite !E by lia. rewrite !Z.div_div by lia. by rewrite Z.div_1_r.
Qed.

(** [Hash] is SHA-256 twice and [Hash160] RIPEMD-160 of SHA-256, of the
    concatenation of their ranges, with the digest of the object's own state
    restarted; [CHMAC_SHA256] and [CHMAC_SHA512] are RFC 2104 for keys of any
    length and any cut of the message, and [BIP32Hash] is the HMAC of its parts
    with the child number in big-endian order. *)
Theorem composed_hashes_correct memory64 memory128 parts key header data nChild :
  length memory64 = 64%nat -> length memory128 = 128%nat ->
  Hash memory64 parts = SHA256 (SHA256 (concat parts)) /\
  Hash160_range memory64 memory64 data = RIPEMD160 (SHA256 data) /\
  hmac_Finalize Sha256.params
    (foldl (hmac_Write Sha256.params) (hmac_new Sha256.params 32 memory64 memory64 memory64 memory64 key) parts) =
  hmac_message Sha256.params key (concat parts) /\
  hmac_Finalize Sha512.params
    (foldl (hmac_Write Sha512.params) (hmac_new Sha512.params 64 memory128 memory128 memory128 memory128 key) parts) =
  hmac_message Sha512.params key (concat parts) /\
  BIP32Hash memory128 key nChild header data =
  hmac_message Sha512.params key (header :: data ++ be_bytes 4 nChild).
Proof.
  intros H64 H128.
  pose proof (hmac_stream Sha512.params 64 Sha512.sha512_laws (fun m => proj1 (Sha512.sha512_hash_bytes m)) ltac:(cbn; lia)) as E.
  split_and!.
  - by apply Hash_message.
  - by apply Hash160_message.
  - apply hmac_stream; try done; [apply Sha256.sha256_laws|apply Sha256.sha256_hash_bytes|cbn; lia].
  - by apply E.
  - unfold BIP32Hash. rewrite E by done. cbn [concat app]. by rewrite app_nil_r, child_number.
Qed.

Lemma composed_hashes_correct_witness :
  Hash (replicate 64 7) [[0x61]; [0x62]] = SHA256 (SHA256 [0x61; 0x62]) /\
  BIP32Hash (replicate 128 7) (replicate 32 1) 0x80000000 0 (replicate 32 2) =
  hmac_message Sha512.params (replicate 32 1) (0 :: replicate 32 2 ++ [0x80; 0; 0; 0]).
Proof.
  destruct (composed_hashes_correct (replicate 64 7) (replicate 128 7) [[0x61]; [0x62]] (replicate 32 1) 0 (replicate 32 2)
    0x80000000 eq_refl eq_refl) as (H1 & _ & _ & _ & H2).
  split; [exact H1|exact H2].
Defined.
