(* ===== verification/SipHash.v ===== *)
(** * SipHash-2-4 and MurmurHash3 ([hash.cpp])

    [CSipHasher] takes a message byte by byte or word by word, and
    [SipHashUint256] is written out for messages of four words.  The reference
    is the definition of SipHash-2-4 on a whole message: padded with zeros and
    its length, and cut into words. *)
From S2P Require Import Prelude Bytes HashStream.

(** ** MurmurHash3 *)

Definition ROTL32 (x r : Z) : Z := Z.lor (u32 (Z.shiftl x r)) (Z.shiftr x (32 - r)).

Definition murmur_k1 (k1 : Z) : Z := u32 (ROTL32 (u32 (k1 * 0xcc9e2d51)) 15 * 0x1b873593).

(** [for (int i = -nblocks; i; i++)]. *)
Fixpoint murmur_body (nblocks : nat) (h1 : Z) (data : list Z) : Z :=
  match nblocks with
  | O => h1
  | S n =>
    let h1 := Z.lxor h1 (murmur_k1 (le_value (take 4 data))) in
    murmur_body n (u32 (ROTL32 h1 13 * 5 + 0xe6546b64)) (drop 4 data)
  end.

(** The switch without breaks. *)
Definition murmur_tail (h1 : Z) (tail : list Z) : Z :=
  match tail with
  | [] => h1
  | t0 :: tail =>
    let k1 := match tail with
              | [] => 0
              | t1 :: tail => Z.lxor (match tail with [] => 0 | t2 :: _ => Z.shiftl t2 16 end) (Z.shiftl t1 8)
              end in
    Z.lxor h1 (murmur_k1 (Z.lxor k1 t0))
  end.

Definition MurmurHash3 (nHashSeed : Z) (vDataToHash : list Z) : Z :=
  let nblocks := (length vDataToHash / 4)%nat in
  let h1 := if (0 <? length vDataToHash)%nat
            then murmur_tail (murmur_body nblocks nHashSeed vDataToHash) (drop (nblocks * 4) vDataToHash) else nHashSeed in
  let h1 := u32 (Z.lxor h1 (Z.of_nat (length vDataToHash))) in
  let h1 := u32 (Z.lxor h1 (Z.shiftr h1 16) * 0x85ebca6b) in
  let h1 := u32 (Z.lxor h1 (Z.shiftr h1 13) * 0xc2b2ae35) in
  Z.lxor h1 (Z.shiftr h1 16).

(** Vectors of [test/hash_tests.cpp]. *)
Example murmur_vectors :
  map (MurmurHash3 0) [[]; [0]; [0xff]; [0; 0x11]; [0; 0x11; 0x22]; [0; 0x11; 0x22; 0x33]; [0; 0x11; 0x22; 0x33; 0x44; 0x55; 0x66]] =
  [0; 0x514e28b7; 0xfd6cf10d; 0x16c6b7ab; 0x8eb51c3d; 0xb4471bf8; 0xb074502c] /\
  MurmurHash3 0xFBA4C795 [] = 0x6a396f08.
Proof. by vm_compute. Qed.

(** ** SipHash *)

Definition ROTL (x b : Z) : Z := Z.lor (u64 (Z.shiftl x b)) (Z.shiftr x (64 - b)).

Definition SipState : Type := Z * Z * Z * Z.

Definition SIPROUND (v : SipState) : SipState :=
  let '(v0, v1, v2, v3) := v in
  let v0 := u64 (v0 + v1) in let v1 := ROTL v1 13 in let v1 := Z.lxor v1 v0 in
  let v0 := ROTL v0 32 in
  let v2 := u64 (v2 + v3) in let v3 := ROTL v3 16 in let v3 := Z.lxor v3 v2 in
  let v0 := u64 (v0 + v3) in let v3 := ROTL v3 21 in let v3 := Z.lxor v3 v0 in
  let v2 := u64 (v2 + v1) in let v1 := ROTL v1 17 in let v1 := Z.lxor v1 v2 in
  let v2 := ROTL v2 32 in
  (v0, v1, v2, v3).

Record CSipHasher := mkSip { sip_v : SipState; sip_tmp : Z; sip_count : Z }.

Definition sip_init (k0 k1 : Z) : SipState :=
  (Z.lxor 0x736f6d6570736575 k0, Z.lxor 0x646f72616e646f6d k1, Z.lxor 0x6c7967656e657261 k0, Z.lxor 0x7465646279746573 k1).

Definition CSipHasher_new (k0 k1 : Z) : CSipHasher := mkSip (sip_init k0 k1) 0 0.

(** [v3 ^= d; SIPROUND; SIPROUND; v0 ^= d]. *)
Definition sip_compress (v : SipState) (d : Z) : SipState :=
  let '(v0, v1, v2, v3) := v in
  let '(v0, v1, v2, v3) := SIPROUND (SIPROUND (v0, v1, v2, Z.lxor v3 d)) in
  (Z.lxor v0 d, v1, v2, v3).

Definition sip_finish (v : SipState) : Z :=
  let '(v0, v1, v2, v3) := v in
  let '(v0, v1, v2, v3) := SIPROUND (SIPROUND (SIPROUND (SIPROUND (v0, v1, Z.lxor v2 0xFF, v3)))) in
  Z.lxor (Z.lxor (Z.lxor v0 v1) v2) v3.

(** [Write(uint64_t)]; [None] is the failure of its assertion.  [%] is the
    remainder of C++. *)
Definition sip_WriteWord (h : CSipHasher) (data : Z) : option CSipHasher :=
  if Z.rem (sip_count h) 8 =? 0
  then Some (mkSip (sip_compress (sip_v h) data) (sip_tmp h) (sip_count h + 8)) else None.

Definition sip_byte (h : CSipHasher) (b : Z) : CSipHasher :=
  let t := Z.lor (sip_tmp h) (u64 (Z.shiftl b (8 * Z.rem (sip_count h) 8))) in
  let c := sip_count h + 1 in
  if Z.land c 7 =? 0 then mkSip (sip_compress (sip_v h) t) 0 c else mkSip (sip_v h) t c.

Definition sip_Write (h : CSipHasher) (data : list Z) : CSipHasher := foldl sip_byte h data.

Definition sip_Finalize (h : CSipHasher) : Z :=
  let t := Z.lor (sip_tmp h) (u64 (Z.shiftl (u64 (sip_count h)) 56)) in
  sip_finish (sip_compress (sip_v h) t).

(** [uint256::GetUint64]. *)
Definition GetUint64 (val : list Z) (pos : nat) : Z := le_value (take 8 (drop (pos * 8) val)).

Definition SipHashUint256 (k0 k1 : Z) (val : list Z) : Z :=
  let d := GetUint64 val 0 in
  let '(v0, v1, v2, v3) := sip_init k0 k1 in
  let v3 := Z.lxor v3 d in
  let '(v0, v1, v2, v3) := SIPROUND (SIPROUND (v0, v1, v2, v3)) in
  let v0 := Z.lxor v0 d in
  let d := GetUint64 val 1 in
  let v3 := Z.lxor v3 d in
  let '(v0, v1, v2, v3) := SIPROUND (SIPROUND (v0, v1, v2, v3)) in
  let v0 := Z.lxor v0 d in
  let d := GetUint64 val 2 in
  let v3 := Z.lxor v3 d in
  let '(v0, v1, v2, v3) := SIPROUND (SIPROUND (v0, v1, v2, v3)) in
  let v0 := Z.lxor v0 d in
  let d := GetUint64 val 3 in
  let v3 := Z.lxor v3 d in
  let '(v0, v1, v2, v3) := SIPROUND (SIPROUND (v0, v1, v2, v3)) in
  let v0 := Z.lxor v0 d in
  let v3 := Z.lxor v3 (Z.shiftl 4 59) in
  let '(v0, v1, v2, v3) := SIPROUND (SIPROUND (v0, v1, v2, v3)) in
  let v0 := Z.lxor v0 (Z.shiftl 4 59) in
  let v2 := Z.lxor v2 0xFF in
  let '(v0, v1, v2, v3) := SIPROUND (SIPROUND (SIPROUND (SIPROUND (v0, v1, v2, v3)))) in
  Z.lxor (Z.lxor (Z.lxor v0 v1) v2) v3.

(** ** The reference *)

(** The words of a message of whole words. *)
Fixpoint words (n : nat) (m : list Z) : list Z :=
  match n with O => [] | S n => le_value (take 8 m) :: words n (drop 8 m) end.

(** The message ends with zeros and the low byte of its length. *)
Definition sip_padded (m : list Z) : list Z :=
  m ++ replicate (7 - length m mod 8) 0 ++ [Z.of_nat (length m) mod 256].

Definition siphash (k0 k1 : Z) (m : list Z) : Z :=
  sip_finish (foldl sip_compress (sip_init k0 k1) (words (length m / 8 + 1) (sip_padded m))).

(** ** Correctness *)

(** What the object stands for: the words before, and the bytes since. *)
Definition sip_reads (k0 k1 : Z) (h : CSipHasher) (m : list Z) : Prop :=
  exists n p r, m = p ++ r /\ length p = (8 * n)%nat /\ (length r < 8)%nat /\
    sip_v h = foldl sip_compress (sip_init k0 k1) (words n p) /\ sip_tmp h = le_value r /\
    sip_count h = Z.of_nat (length m).

Lemma words_app n p d : length p = (8 * n)%nat -> words (n + 1) (p ++ d) = words n p ++ [le_value (take 8 d)].
Proof.
  revert p; induction n as [|n IH]; intros p Hp.
  - assert (p = []) as -> by (destruct p; [done|cbn in Hp; lia]). done.
  - cbn [Nat.add words app]. rewrite take_app_le, drop_app_le by lia. rewrite IH by (rewrite length_drop; lia). done.
Qed.

Lemma sip_position h (m : list Z) n p r :
  m = p ++ r -> length p = (8 * n)%nat -> (length r < 8)%nat -> sip_count h = Z.of_nat (length m) ->
  Z.rem (sip_count h) 8 = Z.of_nat (length r).
Proof.
  intros -> Hp Hr ->. rewrite Z.rem_mod_nonneg, length_app, Hp by lia.
  replace (Z.of_nat (8 * n + length r)) with (Z.of_nat (length r) + Z.of_nat n * 8) by lia.
  rewrite Z.mod_add by lia. apply Z.mod_small. lia.
Qed.

(** A byte joins the word above the bytes before it. *)
Lemma join_byte r b :
  Forall byte r -> byte b -> (length r < 8)%nat ->
  Z.lor (le_value r) (u64 (Z.shiftl b (8 * Z.of_nat (length r)))) = le_value (r ++ [b]).
Proof.
  intros Hr Hb Hl. pose proof (le_value_range r Hr) as Hv. unfold byte in Hb.
  assert (256 ^ Z.of_nat (length r) = 2 ^ (8 * Z.of_nat (length r))) as Ep
    by (rewrite Z.pow_mul_r by lia; done).
  assert (0 < 2 ^ (8 * Z.of_nat (length r)) <= 2 ^ 56) as Hp.
  { split; [lia|]. apply Z.pow_le_mono_r; lia. }
  unfold u64. rewrite Z.shiftl_mul_pow2 by lia. rewrite Z.mod_small by nia. rewrite <- Z.shiftl_mul_pow2 by lia.
  rewrite lor_shift by lia. rewrite le_value_app, Ep. cbn [le_value]. lia.
Qed.

Lemma sip_byte_reads k0 k1 h m b :
  Forall byte m -> byte b -> sip_reads k0 k1 h m -> sip_reads k0 k1 (sip_byte h b) (m ++ [b]).
Proof.
  intros Hm Hb (n & p & r & -> & Hp & Hr & Hv & Ht & Hc). apply Forall_app in Hm as [_ Hrb].
  unfold sip_byte. rewrite (sip_position h _ n p r eq_refl Hp Hr Hc), Ht, join_byte by done.
  assert (Z.land (sip_count h + 1) 7 = Z.of_nat (length r + 1) mod 8) as ->.
  { rewrite Hc, length_app, Hp. rewrite (Z.land_ones _ 3) by lia. change (2 ^ 3) with 8.
    replace (Z.of_nat (8 * n + length r) + 1) with (Z.of_nat (length r + 1) + Z.of_nat n * 8) by lia. apply Z.mod_add. lia. }
  assert (length (r ++ [b]) = length r + 1)%nat as Hl by apply length_app.
  destruct (Z.eqb_spec (Z.of_nat (length r + 1) mod 8) 0) as [Hz|Hz].
  - assert (length r = 7)%nat as Hr7. { destruct (decide (length r = 7)%nat); [done|]. rewrite Z.mod_small in Hz; lia. }
    exists (n + 1)%nat, (p ++ r ++ [b]), []. cbn [sip_v sip_tmp sip_count]. split_and!; try done.
    + by rewrite app_nil_r, app_assoc.
    + rewrite length_app. lia.
    + cbn. lia.
    + rewrite words_app, foldl_app by done. cbn [foldl]. rewrite Hv. f_equal. rewrite take_ge by lia. done.
    + rewrite Hc, !length_app. cbn [length]. lia.
  - exists n, p, (r ++ [b]). cbn [sip_v sip_tmp sip_count]. split_and!; try done.
    + by rewrite app_assoc.
    + rewrite Hl. destruct (decide (length r = 7)%nat) as [E|]; [by rewrite E in Hz|lia].
    + rewrite Hc, !length_app. cbn [length]. lia.
Qed.

Lemma sip_Write_reads k0 k1 d h m :
  Forall byte m -> Forall byte d -> sip_reads k0 k1 h m -> sip_reads k0 k1 (sip_Write h d) (m ++ d).
Proof.
  revert h m; induction d as [|b d IH]; intros h m Hm Hd Hr; [by rewrite app_nil_r|].
  apply Forall_cons in Hd as [Hb Hd]. cbn [sip_Write foldl]. replace (m ++ b :: d) with ((m ++ [b]) ++ d) by by rewrite <- app_assoc.
  apply IH; [|done|by apply sip_byte_reads]. apply Forall_app; split; [done|by constructor].
Qed.

(** A word is its eight bytes. *)
Lemma sip_WriteWord_reads k0 k1 h m d :
  Forall byte m -> sip_reads k0 k1 h m -> (length m mod 8 = 0)%nat -> 0 <= d < 2 ^ 64 ->
  exists h', sip_WriteWord h d = Some h' /\ sip_reads k0 k1 h' (m ++ le_bytes 8 d).
Proof.
  intros Hm (n & p & r & -> & Hp & Hr & Hv & Ht & Hc) H8 Hd.
  assert (r = []) as ->.
  { rewrite length_app, Hp, Nat.add_comm, Nat.mul_comm, Nat.Div0.mod_add, Nat.mod_small in H8 by lia. by destruct r. }
  unfold sip_WriteWord. rewrite (sip_position h _ n p [] eq_refl Hp Hr Hc). cbn [length Z.of_nat Z.eqb].
  eexists; split; [done|]. rewrite app_nil_r in *.
  exists (n + 1)%nat, (p ++ le_bytes 8 d), []. cbn [sip_v sip_tmp sip_count]. split_and!; try done.
  - by rewrite app_nil_r.
  - rewrite length_app, length_le_bytes. lia.
  - rewrite words_app, foldl_app by done. cbn [foldl]. rewrite Hv. f_equal.
    rewrite take_ge by (by rewrite length_le_bytes). rewrite le_value_bytes. rewrite Z.mod_small; [done|]. lia.
  - rewrite Hc, length_app, length_le_bytes. lia.
Qed.

Lemma sip_new_reads k0 k1 : sip_reads k0 k1 (CSipHasher_new k0 k1) [].
Proof. exists 0%nat, [], []. split_and!; try done. cbn. lia. Qed.

Lemma sip_Finalize_reads k0 k1 h m :
  Forall byte m -> sip_reads k0 k1 h m -> sip_Finalize h = siphash k0 k1 m.
Proof.
  intros Hm (n & p & r & -> & Hp & Hr & Hv & Ht & Hc). apply Forall_app in Hm as [_ Hrb].
  assert (length (p ++ r) mod 8 = length r)%nat as Hmod.
  { rewrite length_app, Hp, Nat.add_comm, Nat.mul_comm, Nat.Div0.mod_add. by apply Nat.mod_small. }
  assert (length (p ++ r) / 8 = n)%nat as Hdiv.
  { rewrite length_app, Hp, Nat.add_comm, Nat.mul_comm, Nat.div_add by lia. rewrite Nat.div_small by lia. lia. }
  unfold sip_Finalize, siphash, sip_padded. rewrite Hmod, Hdiv, <- app_assoc, words_app, foldl_app by done. cbn [foldl].
  do 2 f_equal; [done|]. set (z := replicate (7 - length r) 0). set (c := Z.of_nat (length (p ++ r))).
  rewrite take_ge by (unfold z; rewrite !length_app, length_replicate; cbn; lia).
  rewrite Ht, Hc. fold c. assert (Forall byte (r ++ z)) as Hz.
  { apply Forall_app; split; [done|]. apply Forall_replicate. unfold byte. lia. }
  assert (length (r ++ z) = 7)%nat as H7 by (unfold z; rewrite length_app, length_replicate; lia).
  assert (le_value (r ++ z) = le_value r) as Er.
  { rewrite le_value_app. unfold z. assert (forall k, le_value (replicate k 0) = 0) as -> by
      (induction k as [|k IH]; cbn [replicate le_value]; [done|rewrite IH; lia]). lia. }
  rewrite app_assoc, <- join_byte; [| done | unfold byte; pose proof (Z.mod_pos_bound c 256); lia | lia ].
  rewrite Er, H7. f_equal. unfold u64. rewrite !Z.shiftl_mul_pow2 by lia. change (8 * Z.of_nat 7) with 56.
  rewrite (Z.mod_small (c mod 256 * 2 ^ 56)) by (pose proof (Z.mod_pos_bound c 256); lia).
  rewrite Z.mul_mod_idemp_l by lia. change (2 ^ 64) with (256 * 2 ^ 56). rewrite Z.mul_mod_distr_r by lia. done.
Qed.

Lemma sip_Uint256_words k0 k1 val :
  SipHashUint256 k0 k1 val =
  sip_finish (sip_compress (foldl sip_compress (sip_init k0 k1) (map (GetUint64 val) [0; 1; 2; 3]%nat)) (Z.shiftl 4 59)).
Proof.
  unfold SipHashUint256, sip_finish, sip_compress. cbn [foldl map]. destruct (sip_init k0 k1) as [[[v0 v1] v2] v3].
  by repeat (destruct (SIPROUND (SIPROUND _)) as [[[? ?] ?] ?]).
Qed.

(** The writes of a stream: bytes, or a word. *)
Inductive SipWrite := SipBytes (data : list Z) | SipWord (d : Z).

Definition sip_apply (h : option CSipHasher) (w : SipWrite) : option CSipHasher :=
  h ← h; match w with SipBytes data => Some (sip_Write h data) | SipWord d => sip_WriteWord h d end.

Definition sip_message (ws : list SipWrite) : list Z :=
  flat_map (fun w => match w with SipBytes data => data | SipWord d => le_bytes 8 d end) ws.

(** Words come at multiples of eight bytes, as the comment on [Write] asks. *)
Fixpoint sip_aligned (pos : nat) (ws : list SipWrite) : Prop :=
  match ws with
  | [] => True
  | SipBytes data :: ws => Forall byte data /\ sip_aligned (pos + length data) ws
  | SipWord d :: ws => (pos mod 8 = 0)%nat /\ 0 <= d < 2 ^ 64 /\ sip_aligned (pos + 8) ws
  end.

Lemma sip_writes k0 k1 ws h m :
  Forall byte m -> sip_reads k0 k1 h m -> sip_aligned (length m) ws ->
  exists h', foldl sip_apply (Some h) ws = Some h' /\ sip_reads k0 k1 h' (m ++ sip_message ws) /\ Forall byte (sip_message ws).
Proof.
  revert h m; induction ws as [|[data|d] ws IH]; intros h m Hm Hr Ha; cbn [foldl sip_message flat_map sip_aligned] in *.
  - exists h. by rewrite app_nil_r.
  - destruct Ha as [Hd Ha]. destruct (IH (sip_Write h data) (m ++ data)) as (h' & E & Hr' & Hb).
    + by apply Forall_app.
    + by apply sip_Write_reads.
    + by rewrite length_app.
    + exists h'. split; [exact E|]. rewrite app_assoc. split; [done|by apply Forall_app].
  - destruct Ha as (H8 & Hd & Ha). destruct (sip_WriteWord_reads k0 k1 h m d Hm Hr H8 Hd) as (h1 & E1 & Hr1).
    destruct (IH h1 (m ++ le_bytes 8 d)) as (h' & E & Hr' & Hb).
    + apply Forall_app; split; [done|apply le_bytes_byte].
    + done.
    + by rewrite length_app, length_le_bytes.
    + exists h'. cbn [sip_apply mbind option_bind]. rewrite E1. split; [exact E|]. rewrite app_assoc. split; [done|].
      apply Forall_app; split; [apply le_bytes_byte|done].
Qed.

(** ** The words of a hash *)

Definition hash_words (val : list Z) : list SipWrite := map (fun i => SipWord (GetUint64 val i)) [0; 1; 2; 3]%nat.

Lemma GetUint64_bytes val i :
  length val = 32%nat -> Forall byte val -> (i < 4)%nat ->
  le_bytes 8 (GetUint64 val i) = take 8 (drop (i * 8) val) /\ 0 <= GetUint64 val i < 2 ^ 64.
Proof.
  intros Hv Hb Hi. unfold GetUint64. set (l := take 8 (drop (i * 8) val)).
  assert (length l = 8%nat) as Hl by (unfold l; rewrite length_take, length_drop; lia).
  assert (Forall byte l) as Hlb by (by apply Forall_take, Forall_drop). split; [by apply le_bytes_value|].
  pose proof (le_value_range l Hlb) as Hrange. rewrite Hl in Hrange. exact Hrange.
Qed.

Lemma hash_words_message val : length val = 32%nat -> Forall byte val -> sip_message (hash_words val) = val.
Proof.
  intros Hv Hb. unfold hash_words, sip_message. cbn [map flat_map].
  rewrite !(fun i Hi => proj1 (GetUint64_bytes val i Hv Hb Hi)) by lia. rewrite app_nil_r. cbn [Nat.mul Nat.add].
  do 32 (destruct val as [|? val]; [done|]). by destruct val.
Qed.

Lemma hash_words_aligned val : length val = 32%nat -> Forall byte val -> sip_aligned 0 (hash_words val).
Proof.
  intros Hv Hb. cbn [hash_words map sip_aligned]. pose proof (fun i Hi => proj2 (GetUint64_bytes val i Hv Hb Hi)) as Hd.
  repeat (split; [done|]; split; [apply Hd; lia|]). done.
Qed.

#[local] Opaque SIPROUND.

Lemma SipHashUint256_words k0 k1 val :
  sip_Finalize <$> foldl sip_apply (Some (CSipHasher_new k0 k1)) (hash_words val) = Some (SipHashUint256 k0 k1 val).
Proof. by rewrite sip_Uint256_words. Qed.

(** [CSipHasher] computes SipHash-2-4 of the bytes written, for every mix of
    byte and word writes in which words are aligned (the assertion of [Write]
    never fails there) and less than [2 ^ 31] bytes, where its counter does not
    overflow; and [SipHashUint256], written out by hand, is the hash of the four
    words of its argument, as its comment says. *)
Theorem siphash_correct k0 k1 ws val :
  sip_aligned 0 ws -> Z.of_nat (length (sip_message ws)) < 2 ^ 31 -> length val = 32%nat -> Forall byte val ->
  (exists h, foldl sip_apply (Some (CSipHasher_new k0 k1)) ws = Some h /\ sip_count h < 2 ^ 31 /\
     sip_Finalize h = siphash k0 k1 (sip_message ws)) /\
  SipHashUint256 k0 k1 val = siphash k0 k1 val /\
  sip_Finalize <$> foldl sip_apply (Some (CSipHasher_new k0 k1)) (hash_words val) =
  Some (SipHashUint256 k0 k1 val).
Proof.
  intros Ha Hl Hv Hb. split.
  - destruct (sip_writes k0 k1 ws _ [] (Forall_nil_2 _) (sip_new_reads k0 k1) Ha) as (h & E & Hr & Hm).
    exists h. split; [done|]. split; [|by apply sip_Finalize_reads]. destruct Hr as (? & ? & ? & ? & _ & _ & _ & _ & ->). done.
  - rewrite SipHashUint256_words. split; [|done].
    destruct (sip_writes k0 k1 (hash_words val) _ [] (Forall_nil_2 _) (sip_new_reads k0 k1) (hash_words_aligned val Hv Hb))
      as (h & E & Hr & Hm). rewrite hash_words_message in Hr, Hm by done.
    pose proof (SipHashUint256_words k0 k1 val) as Es. rewrite E in Es. apply (inj Some) in Es. rewrite <- Es.
    exact (sip_Finalize_reads k0 k1 h val Hm Hr).
Qed.

(** The vectors of [test/hash_tests.cpp]. *)
Lemma siphash_correct_witness :
  (exists h, foldl sip_apply (Some (CSipHasher_new 0x0706050403020100 0x0F0E0D0C0B0A0908))
     [SipBytes [0]; SipBytes [1; 2; 3; 4; 5; 6; 7]; SipWord 0x0F0E0D0C0B0A0908; SipBytes [16; 17]] = Some h /\
     sip_Finalize h = 0x4bc1b3f0968dd39c) /\
  SipHashUint256 0x0706050403020100 0x0F0E0D0C0B0A0908 (map Z.of_nat (seq 0 32)) = 0x7127512f72f27cce.
Proof.
  destruct (siphash_correct 0x0706050403020100 0x0F0E0D0C0B0A0908
    [SipBytes [0]; SipBytes [1; 2; 3; 4; 5; 6; 7]; SipWord 0x0F0E0D0C0B0A0908; SipBytes [16; 17]] (map Z.of_nat (seq 0 32)))
    as ((h & E & _ & Hh) & H2 & _).
  - cbn. unfold byte. split_and!; repeat constructor; lia.
  - vm_compute. done.
  - done.
  - apply Forall_map, Forall_seq. unfold byte. lia.
  - split; [exists h; split; [exact E|rewrite Hh; vm_compute; reflexivity]|rewrite H2; vm_compute; reflexivity].
Defined.
