(* ===== verification/Script.v ===== *)
(** * Scripts ([script/script.h], [script/script.cpp])

    The opcodes, the instruction reader, the removal of a signature from a
    script, the tests for standard forms and the counting of signature
    operations.  An iterator into a script is the rest of the script from
    there. *)
From S2P Require Import Prelude Bytes VoteScript Transaction.

(** ** Opcodes *)

Definition OP_1NEGATE : Z := 0x4f.
Definition OP_16 : Z := 0x60.
Definition OP_NOP : Z := 0x61.
Definition OP_NOTIF : Z := 0x64.
Definition OP_VERIFY : Z := 0x69.
Definition OP_TOALTSTACK : Z := 0x6b.
Definition OP_FROMALTSTACK : Z := 0x6c.
Definition OP_2DROP : Z := 0x6d.
Definition OP_2DUP : Z := 0x6e.
Definition OP_3DUP : Z := 0x6f.
Definition OP_2OVER : Z := 0x70.
Definition OP_2ROT : Z := 0x71.
Definition OP_2SWAP : Z := 0x72.
Definition OP_IFDUP : Z := 0x73.
Definition OP_DEPTH : Z := 0x74.
Definition OP_NIP : Z := 0x77.
Definition OP_OVER : Z := 0x78.
Definition OP_PICK : Z := 0x79.
Definition OP_ROLL : Z := 0x7a.
Definition OP_ROT : Z := 0x7b.
Definition OP_SWAP : Z := 0x7c.
Definition OP_TUCK : Z := 0x7d.
Definition OP_CAT : Z := 0x7e.
Definition OP_SUBSTR : Z := 0x7f.
Definition OP_LEFT : Z := 0x80.
Definition OP_RIGHT : Z := 0x81.
Definition OP_SIZE : Z := 0x82.
Definition OP_INVERT : Z := 0x83.
Definition OP_AND : Z := 0x84.
Definition OP_OR : Z := 0x85.
Definition OP_XOR : Z := 0x86.
Definition OP_1ADD : Z := 0x8b.
Definition OP_1SUB : Z := 0x8c.
Definition OP_2MUL : Z := 0x8d.
Definition OP_2DIV : Z := 0x8e.
Definition OP_NEGATE : Z := 0x8f.
Definition OP_ABS : Z := 0x90.
Definition OP_NOT : Z := 0x91.
Definition OP_0NOTEQUAL : Z := 0x92.
Definition OP_ADD : Z := 0x93.
Definition OP_SUB : Z := 0x94.
Definition OP_MUL : Z := 0x95.
Definition OP_DIV : Z := 0x96.
Definition OP_MOD : Z := 0x97.
Definition OP_LSHIFT : Z := 0x98.
Definition OP_RSHIFT : Z := 0x99.
Definition OP_BOOLAND : Z := 0x9a.
Definition OP_BOOLOR : Z := 0x9b.
Definition OP_NUMEQUAL : Z := 0x9c.
Definition OP_NUMEQUALVERIFY : Z := 0x9d.
Definition OP_NUMNOTEQUAL : Z := 0x9e.
Definition OP_LESSTHAN : Z := 0x9f.
Definition OP_GREATERTHAN : Z := 0xa0.
Definition OP_LESSTHANOREQUAL : Z := 0xa1.
Definition OP_GREATERTHANOREQUAL : Z := 0xa2.
Definition OP_MIN : Z := 0xa3.
Definition OP_MAX : Z := 0xa4.
Definition OP_WITHIN : Z := 0xa5.
Definition OP_RIPEMD160 : Z := 0xa6.
Definition OP_SHA1 : Z := 0xa7.
Definition OP_SHA256 : Z := 0xa8.
Definition OP_HASH256 : Z := 0xaa.
Definition OP_CODESEPARATOR : Z := 0xab.
Definition OP_CHECKSIGVERIFY : Z := 0xad.
Definition OP_CHECKMULTISIG : Z := 0xae.
Definition OP_CHECKMULTISIGVERIFY : Z := 0xaf.
Definition OP_NOP1 : Z := 0xb0.
Definition OP_CHECKLOCKTIMEVERIFY : Z := 0xb1.
Definition OP_CHECKSEQUENCEVERIFY : Z := 0xb2.
Definition OP_NOP4 : Z := 0xb3.
Definition OP_NOP5 : Z := 0xb4.
Definition OP_NOP6 : Z := 0xb5.
Definition OP_NOP7 : Z := 0xb6.
Definition OP_NOP8 : Z := 0xb7.
Definition OP_NOP9 : Z := 0xb8.
Definition OP_NOP10 : Z := 0xb9.
Definition OP_POOL : Z := 0xd0.
Definition OP_SMALLINTEGER : Z := 0xfa.
Definition OP_PUBKEYS : Z := 0xfb.
Definition OP_PUBKEYHASH : Z := 0xfd.
Definition OP_PUBKEY : Z := 0xfe.
Definition OP_INVALIDOPCODE : Z := 0xff.

Definition MAX_SCRIPT_ELEMENT_SIZE : Z := 520.
Definition MAX_OPS_PER_SCRIPT : Z := 201.
Definition MAX_PUBKEYS_PER_MULTISIG : Z := 20.

(** ** Reading an instruction *)

(** The length of the data an opcode pushes, with the rest after the length;
    [None] is a length that is cut off. *)
Definition push_size (opcode : Z) (pc : CScript) : option (Z * CScript) :=
  if opcode <? OP_PUSHDATA1 then Some (opcode, pc)
  else
    let n := if opcode =? OP_PUSHDATA1 then 1%nat else if opcode =? OP_PUSHDATA2 then 2%nat else 4%nat in
    if (length pc <? n)%nat then None else Some (le_value (take n pc), drop n pc).

(** [GetOp2]: the iterator after the call, and the instruction unless it
    returns [false].  A failed read leaves the iterator behind the bytes it
    has read. *)
Definition GetOp (pc : CScript) : CScript * option (Z * list Z) :=
  match pc with
  | [] => ([], None)
  | opcode :: pc =>
    if opcode <=? OP_PUSHDATA4 then
      match push_size opcode pc with
      | None => (pc, None)
      | Some (nSize, pc) =>
        if Z.of_nat (length pc) <? nSize then (pc, None)
        else (drop (Z.to_nat nSize) pc, Some (opcode, take (Z.to_nat nSize) pc))
      end
    else (pc, Some (opcode, []))
  end.

(** A loop [while (pc < end())] over the instructions; a failed read stops it
    with [bad].  One round for each byte is enough. *)
Fixpoint fold_ops {A : Type} (fuel : nat) (f : A -> Z -> list Z -> A + A) (bad : A -> A) (a : A) (pc : CScript) : A :=
  match fuel, pc with
  | S fuel, _ :: _ =>
    match GetOp pc with
    | (_, None) => bad a
    | (pc', Some (opcode, data)) =>
      match f a opcode data with
      | inl a => fold_ops fuel f bad a pc'
      | inr a => a
      end
    end
  | _, _ => a
  end.

(** ** Removing a signature *)

(** The bytes between two iterators. *)
Definition between (first last_ : CScript) : list Z := take (length first - length last_) first.

(** The inner [while]: occurrences of [b] at the iterator are skipped. *)
Fixpoint skip_found (fuel : nat) (b pc : CScript) (nFound : Z) : CScript * Z :=
  match fuel with
  | O => (pc, nFound)
  | S fuel =>
    if (length b <=? length pc)%nat && bool_decide (take (length b) pc = b)
    then skip_found fuel b (drop (length b) pc) (nFound + 1)
    else (pc, nFound)
  end.

Fixpoint find_loop (fuel : nat) (b result pc2 pc : CScript) (nFound : Z) : CScript * CScript * Z :=
  let result := result ++ between pc2 pc in
  let '(pc, nFound) := skip_found (length pc) b pc nFound in
  match fuel, GetOp pc with
  | S fuel, (pc', Some _) => find_loop fuel b result pc pc' nFound
  | _, _ => (result, pc, nFound)
  end.

(** The script after the call, and the number returned. *)
Definition FindAndDelete (script b : CScript) : CScript * Z :=
  match b with
  | [] => (script, 0)
  | _ =>
    let '(result, pc2, nFound) := find_loop (length script) b [] script script 0 in
    (if 0 <? nFound then result ++ pc2 else script, nFound)
  end.

(** ** Forms of scripts *)

Definition IsPayToScriptHash (s : CScript) : bool :=
  (length s =? 23)%nat && (byte_at s 0 =? OP_HASH160) && (byte_at s 1 =? 0x14) && (byte_at s 22 =? OP_EQUAL).

Definition IsPayToWitnessScriptHash (s : CScript) : bool :=
  (length s =? 34)%nat && (byte_at s 0 =? OP_0) && (byte_at s 1 =? 0x20).

Definition IsPayToPublicKey (s : CScript) : bool :=
  ((length s =? 35)%nat && (byte_at s 0 =? 0x21) && (byte_at s 34 =? OP_CHECKSIG)) ||
  ((length s =? 67)%nat && (byte_at s 0 =? 0x41) && (byte_at s 66 =? OP_CHECKSIG)).

Definition has_bytes (s : CScript) (l : list (nat * Z)) : bool := forallb (fun '(i, b) => byte_at s i =? b) l.

Definition HasColdStakingP2PKHStaking (s : CScript) : bool :=
  (27 <? length s)%nat &&
  has_bytes s [(0%nat, OP_COINSTAKE); (1%nat, OP_IF); (2%nat, OP_DUP); (3%nat, OP_HASH160); (4%nat, 0x14);
               (25%nat, OP_EQUALVERIFY); (26%nat, OP_CHECKSIG); (27%nat, OP_ELSE)].

Definition HasColdStakingP2PKHSpending (s : CScript) : bool :=
  (length s =? 54)%nat &&
  has_bytes s [(0%nat, OP_COINSTAKE); (1%nat, OP_IF); (2%nat, OP_DUP); (3%nat, OP_HASH160); (4%nat, 0x14);
               (25%nat, OP_EQUALVERIFY); (26%nat, OP_CHECKSIG); (27%nat, OP_ELSE); (28%nat, OP_DUP);
               (29%nat, OP_HASH160); (30%nat, 0x14); (51%nat, OP_EQUALVERIFY); (52%nat, OP_CHECKSIG);
               (53%nat, OP_ENDIF)].

Definition HasColdStakingv2P2PKHStaking (s : CScript) : bool :=
  (50 <? length s)%nat &&
  has_bytes s [(0%nat, 0x14); (21%nat, OP_DROP); (22%nat, OP_COINSTAKE); (23%nat, OP_IF); (24%nat, OP_DUP);
               (25%nat, OP_HASH160); (26%nat, 0x14); (47%nat, OP_EQUALVERIFY); (48%nat, OP_CHECKSIG); (49%nat, OP_ELSE)].

Definition HasColdStakingv2P2PKHSpending (s : CScript) : bool :=
  (length s =? 76)%nat &&
  has_bytes s [(0%nat, 0x14); (21%nat, OP_DROP); (22%nat, OP_COINSTAKE); (23%nat, OP_IF); (24%nat, OP_DUP);
               (25%nat, OP_HASH160); (26%nat, 0x14); (47%nat, OP_EQUALVERIFY); (48%nat, OP_CHECKSIG); (49%nat, OP_ELSE);
               (50%nat, OP_DUP); (51%nat, OP_HASH160); (52%nat, 0x14); (73%nat, OP_EQUALVERIFY); (74%nat, OP_CHECKSIG);
               (75%nat, OP_ENDIF)].

(** [DecodeOP_N]; its callers have tested the assertion. *)
Definition DecodeOP_N (opcode : Z) : Z := if opcode =? OP_0 then 0 else opcode - (OP_1 - 1).

(** The version and the program. *)
Definition IsWitnessProgram (s : CScript) : option (Z * list Z) :=
  if (length s <? 4)%nat || (42 <? length s)%nat then None
  else if negb (byte_at s 0 =? OP_0) && ((byte_at s 0 <? OP_1) || (OP_16 <? byte_at s 0)) then None
  else if byte_at s 1 + 2 =? Z.of_nat (length s) then Some (DecodeOP_N (byte_at s 0), drop 2 s)
  else None.

Definition IsPushOnly (s : CScript) : bool :=
  fold_ops (length s) (fun _ opcode _ => if OP_16 <? opcode then inr false else inl true) (fun _ => false) true s.

Definition IsPool (s : CScript) : bool := sized 2 s [OP_RETURN; OP_POOL].

Definition IsFee (s : CScript) : bool := (length s =? 1)%nat && (byte_at s 0 =? OP_RETURN).

(** [CScriptVisitor]: the scripts of a cold staking address without a voting
    key, and of a script. *)
Definition script_for_cold_staking (staking spending : list Z) : CScript :=
  push_data (push_data [OP_COINSTAKE; OP_IF; OP_DUP; OP_HASH160] staking ++
    [OP_EQUALVERIFY; OP_CHECKSIG; OP_ELSE; OP_DUP; OP_HASH160]) spending ++ [OP_EQUALVERIFY; OP_CHECKSIG; OP_ENDIF].

Definition script_for_script (scriptID : list Z) : CScript := push_data [OP_HASH160] scriptID ++ [OP_EQUAL].

(** ** Signature operations *)

(** [GetSigOpCount(bool)] with [lastOpcode]. *)
Definition GetSigOpCount (fAccurate : bool) (s : CScript) : Z :=
  fst (fold_ops (length s)
    (fun '(n, lastOpcode) opcode _ =>
       inl (if (opcode =? OP_CHECKSIG) || (opcode =? OP_CHECKSIGVERIFY) then u32 (n + 1)
            else if (opcode =? OP_CHECKMULTISIG) || (opcode =? OP_CHECKMULTISIGVERIFY) then
              if fAccurate && (OP_1 <=? lastOpcode) && (lastOpcode <=? OP_16) then u32 (n + DecodeOP_N lastOpcode)
              else u32 (n + MAX_PUBKEYS_PER_MULTISIG)
            else n, opcode))
    id (0, OP_INVALIDOPCODE) s).

(** The last data a script of pushes leaves in [data]; [None] is [return 0]. *)
Definition last_push (scriptSig : CScript) : option (list Z) :=
  fold_ops (length scriptSig)
    (fun _ opcode data => if OP_16 <? opcode then inr None else inl (Some data)) (fun _ => None) (Some []) scriptSig.

(** [GetSigOpCount(const CScript&)] *)
Definition GetSigOpCount_p2sh (s scriptSig : CScript) : Z :=
  if negb (IsPayToScriptHash s) then GetSigOpCount true s
  else match last_push scriptSig with None => 0 | Some data => GetSigOpCount true data end.
