(* ===== verification/Interpreter.v ===== *)
(** * The script interpreter ([script/interpreter.cpp])

    [EvalScript] runs a script on a stack, [VerifyScript] the two scripts of
    an input.  A stack is the list of its elements with the top first; an
    iterator is the rest of the script.  The hash functions and the check of
    the half of the curve order are parameters, and so is the checker of
    signatures and lock times, which the code passes as an object. *)
From S2P Require Import Prelude Bytes VoteScript Transaction TxCheck Script.

(** ** Outcomes *)

Inductive ScriptError :=
  | SCRIPT_ERR_UNKNOWN_ERROR | SCRIPT_ERR_EVAL_FALSE | SCRIPT_ERR_OP_RETURN
  | SCRIPT_ERR_SCRIPT_SIZE | SCRIPT_ERR_PUSH_SIZE | SCRIPT_ERR_OP_COUNT | SCRIPT_ERR_STACK_SIZE
  | SCRIPT_ERR_SIG_COUNT | SCRIPT_ERR_PUBKEY_COUNT
  | SCRIPT_ERR_VERIFY | SCRIPT_ERR_EQUALVERIFY | SCRIPT_ERR_CHECKMULTISIGVERIFY | SCRIPT_ERR_CHECKSIGVERIFY
  | SCRIPT_ERR_NUMEQUALVERIFY
  | SCRIPT_ERR_BAD_OPCODE | SCRIPT_ERR_DISABLED_OPCODE | SCRIPT_ERR_INVALID_STACK_OPERATION
  | SCRIPT_ERR_INVALID_ALTSTACK_OPERATION | SCRIPT_ERR_UNBALANCED_CONDITIONAL
  | SCRIPT_ERR_NEGATIVE_LOCKTIME | SCRIPT_ERR_UNSATISFIED_LOCKTIME
  | SCRIPT_ERR_SIG_HASHTYPE | SCRIPT_ERR_SIG_DER | SCRIPT_ERR_MINIMALDATA | SCRIPT_ERR_SIG_PUSHONLY
  | SCRIPT_ERR_SIG_HIGH_S | SCRIPT_ERR_SIG_NULLDUMMY | SCRIPT_ERR_PUBKEYTYPE | SCRIPT_ERR_CLEANSTACK
  | SCRIPT_ERR_MINIMALIF | SCRIPT_ERR_SIG_NULLFAIL
  | SCRIPT_ERR_DISCOURAGE_UPGRADABLE_NOPS | SCRIPT_ERR_DISCOURAGE_UPGRADABLE_WITNESS_PROGRAM
  | SCRIPT_ERR_WITNESS_PROGRAM_WRONG_LENGTH | SCRIPT_ERR_WITNESS_PROGRAM_WITNESS_EMPTY
  | SCRIPT_ERR_WITNESS_PROGRAM_MISMATCH | SCRIPT_ERR_WITNESS_MALLEATED | SCRIPT_ERR_WITNESS_MALLEATED_P2SH
  | SCRIPT_ERR_WITNESS_UNEXPECTED | SCRIPT_ERR_WITNESS_PUBKEYTYPE.

(** The exceptions of the script numbers, of [vector::at] and of [popstack]. *)
Inductive Exn := scriptnum_error | out_of_range | popstack_empty.

(** [Fail e] is [return set_error(serror, e)]; [Undef] is a failed assertion,
    an overflow of a signed integer, or a loop that does not end. *)
Inductive Ev (A : Type) :=
  | Val (a : A)
  | Fail (e : ScriptError)
  | Throw (x : Exn)
  | Undef.
Arguments Val {A} _.
Arguments Fail {A} _.
Arguments Throw {A} _.
Arguments Undef {A}.

Definition ev_bind {A B : Type} (m : Ev A) (f : A -> Ev B) : Ev B :=
  match m with Val a => f a | Fail e => Fail e | Throw x => Throw x | Undef => Undef end.

Declare Scope ev_scope.
Delimit Scope ev_scope with ev.
Notation "'let*' x := c1 'in' c2" := (ev_bind c1 (fun x => c2))
  (at level 60, x binder, c1 at next level, right associativity) : ev_scope.
Notation "'guard' b 'else' e ; c" := (if b then c else Fail e)
  (at level 60, b at level 85, e at level 9, right associativity) : ev_scope.
Open Scope ev_scope.

(** [catch (...)] *)
Definition catch_all {A : Type} (m : Ev A) : Ev A :=
  match m with Throw _ => Fail SCRIPT_ERR_UNKNOWN_ERROR | _ => m end.

(** ** Flags *)

Definition SCRIPT_VERIFY_P2SH : Z := Z.shiftl 1 0.
Definition SCRIPT_VERIFY_STRICTENC : Z := Z.shiftl 1 1.
Definition SCRIPT_VERIFY_DERSIG : Z := Z.shiftl 1 2.
Definition SCRIPT_VERIFY_LOW_S : Z := Z.shiftl 1 3.
Definition SCRIPT_VERIFY_NULLDUMMY : Z := Z.shiftl 1 4.
Definition SCRIPT_VERIFY_SIGPUSHONLY : Z := Z.shiftl 1 5.
Definition SCRIPT_VERIFY_MINIMALDATA : Z := Z.shiftl 1 6.
Definition SCRIPT_VERIFY_DISCOURAGE_UPGRADABLE_NOPS : Z := Z.shiftl 1 7.
Definition SCRIPT_VERIFY_CLEANSTACK : Z := Z.shiftl 1 8.
Definition SCRIPT_VERIFY_CHECKLOCKTIMEVERIFY : Z := Z.shiftl 1 9.
Definition SCRIPT_VERIFY_CHECKSEQUENCEVERIFY : Z := Z.shiftl 1 10.
Definition SCRIPT_VERIFY_WITNESS : Z := Z.shiftl 1 11.
Definition SCRIPT_VERIFY_DISCOURAGE_UPGRADABLE_WITNESS_PROGRAM : Z := Z.shiftl 1 12.
Definition SCRIPT_VERIFY_MINIMALIF : Z := Z.shiftl 1 13.
Definition SCRIPT_VERIFY_NULLFAIL : Z := Z.shiftl 1 14.
Definition SCRIPT_VERIFY_WITNESS_PUBKEYTYPE : Z := Z.shiftl 1 15.

Definition SIGHASH_ALL : Z := 1.
Definition SIGHASH_NONE : Z := 2.
Definition SIGHASH_SINGLE : Z := 3.
Definition SIGHASH_ANYONECANPAY : Z := 0x80.

Inductive SigVersion := SIGVERSION_BASE | SIGVERSION_WITNESS_V0.

#[global] Instance SigVersion_eq_dec : EqDecision SigVersion.
Proof. solve_decision. Defined.

(** ** Checks of bytes *)

Abbreviation valtype := (list Z).

Definition vchFalse : valtype := [].
Definition vchTrue : valtype := [1].
Definition vchBool (b : bool) : valtype := if b then vchTrue else vchFalse.

Fixpoint CastToBool (vch : valtype) : bool :=
  match vch with
  | [] => false
  | b :: vch =>
    if negb (b =? 0) then negb (match vch with [] => b =? 0x80 | _ => false end) else CastToBool vch
  end.

Definition vsize (vch : valtype) : Z := Z.of_nat (length vch).

Definition IsCompressedOrUncompressedPubKey (vchPubKey : valtype) : bool :=
  if vsize vchPubKey <? 33 then false
  else if byte_at vchPubKey 0 =? 0x04 then vsize vchPubKey =? 65
  else if (byte_at vchPubKey 0 =? 0x02) || (byte_at vchPubKey 0 =? 0x03) then vsize vchPubKey =? 33
  else false.

Definition IsCompressedPubKey (vchPubKey : valtype) : bool :=
  if negb (vsize vchPubKey =? 33) then false
  else negb (negb (byte_at vchPubKey 0 =? 0x02) && negb (byte_at vchPubKey 0 =? 0x03)).

Definition IsValidSignatureEncoding (sig : valtype) : bool :=
  let lenR := byte_at sig 3 in
  let lenS := byte_at sig (5 + Z.to_nat lenR) in
  let at_R (k : Z) := byte_at sig (Z.to_nat (lenR + k)) in
  if vsize sig <? 9 then false
  else if 73 <? vsize sig then false
  else if negb (byte_at sig 0 =? 0x30) then false
  else if negb (byte_at sig 1 =? vsize sig - 3) then false
  else if vsize sig <=? 5 + lenR then false
  else if negb (lenR + lenS + 7 =? vsize sig) then false
  else if negb (byte_at sig 2 =? 0x02) then false
  else if lenR =? 0 then false
  else if flag_set (byte_at sig 4) 0x80 then false
  else if (1 <? lenR) && (byte_at sig 4 =? 0x00) && negb (flag_set (byte_at sig 5) 0x80) then false
  else if negb (at_R 4 =? 0x02) then false
  else if lenS =? 0 then false
  else if flag_set (at_R 6) 0x80 then false
  else if (1 <? lenS) && (at_R 6 =? 0x00) && negb (flag_set (at_R 7) 0x80) then false
  else true.

Definition IsDefinedHashtypeSignature (vchSig : valtype) : bool :=
  match last vchSig with
  | None => false
  | Some b =>
    let nHashType := Z.ldiff b SIGHASH_ANYONECANPAY in
    negb ((nHashType <? SIGHASH_ALL) || (SIGHASH_SINGLE <? nHashType))
  end.

Definition CheckMinimalPush (data : valtype) (opcode : Z) : bool :=
  if vsize data =? 0 then opcode =? OP_0
  else if (vsize data =? 1) && (1 <=? byte_at data 0) && (byte_at data 0 <=? 16) then
    opcode =? OP_1 + (byte_at data 0 - 1)
  else if (vsize data =? 1) && (byte_at data 0 =? 0x81) then opcode =? OP_1NEGATE
  else if vsize data <=? 75 then opcode =? vsize data
  else if vsize data <=? 255 then opcode =? OP_PUSHDATA1
  else if vsize data <=? 65535 then opcode =? OP_PUSHDATA2
  else true.

(** What [EvalScript] asks of the transaction. *)
Record BaseSignatureChecker := mkChecker {
  CheckSig : valtype -> valtype -> CScript -> SigVersion -> bool;
  CheckLockTime : Z -> bool;
  CheckSequence : Z -> bool;
  checker_IsCoinStake : bool
}.

(** ** The machine *)

(** The local variables of [EvalScript] that its loop changes; [vfExec] and
    the stacks have their back first, [pbegincodehash] is the rest of the
    script from there. *)
Record EvalState := mkEval {
  es_stack : list valtype;
  es_altstack : list valtype;
  es_vfExec : list bool;
  es_nOpCount : Z;
  es_begincodehash : CScript
}.

Definition with_stack (st : EvalState) (s : list valtype) : EvalState :=
  mkEval s (es_altstack st) (es_vfExec st) (es_nOpCount st) (es_begincodehash st).
Definition with_vfExec (st : EvalState) (v : list bool) : EvalState :=
  mkEval (es_stack st) (es_altstack st) v (es_nOpCount st) (es_begincodehash st).
Definition with_nOpCount (st : EvalState) (n : Z) : EvalState :=
  mkEval (es_stack st) (es_altstack st) (es_vfExec st) n (es_begincodehash st).

Section script.
Context (RIPEMD160 SHA1 SHA256 : list Z -> list Z) (CheckLowS : list Z -> bool).
Context (checker : BaseSignatureChecker).

Definition Hash160 (l : list Z) : list Z := RIPEMD160 (SHA256 l).
Definition Hash256 (l : list Z) : list Z := SHA256 (SHA256 l).

Section flags.
Context (flags : Z) (sigversion : SigVersion).

Definition has (flag : Z) : bool := flag_set flags flag.
Definition fRequireMinimal : bool := has SCRIPT_VERIFY_MINIMALDATA.

Definition IsLowDERSignature (vchSig : valtype) : Ev () :=
  guard IsValidSignatureEncoding vchSig else SCRIPT_ERR_SIG_DER;
  guard CheckLowS (take (length vchSig - 1) vchSig) else SCRIPT_ERR_SIG_HIGH_S;
  Val tt.

Definition CheckSignatureEncoding (vchSig : valtype) : Ev () :=
  if (length vchSig =? 0)%nat then Val tt
  else if flag_set flags (Z.lor SCRIPT_VERIFY_DERSIG (Z.lor SCRIPT_VERIFY_LOW_S SCRIPT_VERIFY_STRICTENC)) &&
          negb (IsValidSignatureEncoding vchSig) then Fail SCRIPT_ERR_SIG_DER
  else
    let* _ := (if has SCRIPT_VERIFY_LOW_S then IsLowDERSignature vchSig else Val tt) in
    if has SCRIPT_VERIFY_STRICTENC && negb (IsDefinedHashtypeSignature vchSig) then Fail SCRIPT_ERR_SIG_HASHTYPE
    else Val tt.

Definition CheckPubKeyEncoding (vchPubKey : valtype) : Ev () :=
  if has SCRIPT_VERIFY_STRICTENC && negb (IsCompressedOrUncompressedPubKey vchPubKey) then Fail SCRIPT_ERR_PUBKEYTYPE
  else if has SCRIPT_VERIFY_WITNESS_PUBKEYTYPE && bool_decide (sigversion = SIGVERSION_WITNESS_V0) &&
          negb (IsCompressedPubKey vchPubKey) then Fail SCRIPT_ERR_WITNESS_PUBKEYTYPE
  else Val tt.

(** The constructor of [CScriptNum] from an element of the stack. *)
Definition ScriptNum (vch : valtype) (nMaxNumSize : nat) : Ev Z :=
  match CScriptNum_of_vch vch fRequireMinimal nMaxNumSize with Some n => Val n | None => Throw scriptnum_error end.

(** The result of an operator of [CScriptNum]: the assertions of [+=], [-=]
    and unary minus, and the sum of two [int64_t], ask that it fits. *)
Definition fits_int64 (z : Z) : Ev Z := if (- 2 ^ 63 <=? z) && (z <? 2 ^ 63) then Val z else Undef.

(** [stacktop(-i)] *)
Definition stacktop (s : list valtype) (i : Z) : Ev valtype :=
  match s !! Z.to_nat (i - 1) with Some v => Val v | None => Throw out_of_range end.

Definition popstack (s : list valtype) : Ev (list valtype) :=
  match s with _ :: s => Val s | [] => Throw popstack_empty end.

(** A case of the [switch]: the opcode, the iterator after the instruction
    and [fExec]. *)
Definition Handler : Type := Z -> CScript -> bool -> EvalState -> Ev EvalState.

Definition on_stack (f : list valtype -> Ev (list valtype)) : Handler :=
  fun _ _ _ st => let* s := f (es_stack st) in Val (with_stack st s).

(** ** Push value *)

Definition op_number : Handler :=
  fun opcode _ _ st => Val (with_stack st (CScriptNum_serialize (opcode - (OP_1 - 1)) :: es_stack st)).

(** ** Control *)

Definition op_nop : Handler := fun _ _ _ st => Val st.

Definition discouraged_nop (st : EvalState) : Ev EvalState :=
  if has SCRIPT_VERIFY_DISCOURAGE_UPGRADABLE_NOPS then Fail SCRIPT_ERR_DISCOURAGE_UPGRADABLE_NOPS else Val st.

Definition op_upgradable_nop : Handler := fun _ _ _ st => discouraged_nop st.

Definition op_checklocktimeverify : Handler :=
  fun _ _ _ st =>
  if negb (has SCRIPT_VERIFY_CHECKLOCKTIMEVERIFY) then discouraged_nop st
  else match es_stack st with
  | [] => Fail SCRIPT_ERR_INVALID_STACK_OPERATION
  | x :: _ =>
    let* nLockTime := ScriptNum x 5 in
    if nLockTime <? 0 then Fail SCRIPT_ERR_NEGATIVE_LOCKTIME
    else guard CheckLockTime checker nLockTime else SCRIPT_ERR_UNSATISFIED_LOCKTIME; Val st
  end.

Definition op_checksequenceverify : Handler :=
  fun _ _ _ st =>
  if negb (has SCRIPT_VERIFY_CHECKSEQUENCEVERIFY) then discouraged_nop st
  else match es_stack st with
  | [] => Fail SCRIPT_ERR_INVALID_STACK_OPERATION
  | x :: _ =>
    let* nSequence := ScriptNum x 5 in
    if nSequence <? 0 then Fail SCRIPT_ERR_NEGATIVE_LOCKTIME
    else if flag_set nSequence SEQUENCE_LOCKTIME_DISABLE_FLAG then Val st
    else guard CheckSequence checker nSequence else SCRIPT_ERR_UNSATISFIED_LOCKTIME; Val st
  end.

(** The argument of a conditional in a witness script is empty or one. *)
Definition minimal_if (vch : valtype) : bool :=
  negb (bool_decide (sigversion = SIGVERSION_WITNESS_V0) && has SCRIPT_VERIFY_MINIMALIF &&
        ((1 <? vsize vch) || ((vsize vch =? 1) && negb (byte_at vch 0 =? 1)))).

Definition op_if : Handler :=
  fun opcode _ fExec st =>
  if fExec then
    match es_stack st with
    | [] => Fail SCRIPT_ERR_UNBALANCED_CONDITIONAL
    | vch :: s =>
      guard minimal_if vch else SCRIPT_ERR_MINIMALIF;
      let fValue := if opcode =? OP_NOTIF then negb (CastToBool vch) else CastToBool vch in
      Val (with_vfExec (with_stack st s) (fValue :: es_vfExec st))
    end
  else Val (with_vfExec st (false :: es_vfExec st)).

Definition op_else : Handler :=
  fun _ _ _ st =>
  match es_vfExec st with
  | [] => Fail SCRIPT_ERR_UNBALANCED_CONDITIONAL
  | b :: v => Val (with_vfExec st (negb b :: v))
  end.

Definition op_endif : Handler :=
  fun _ _ _ st =>
  match es_vfExec st with
  | [] => Fail SCRIPT_ERR_UNBALANCED_CONDITIONAL
  | _ :: v => Val (with_vfExec st v)
  end.

Definition invalid {A} : Ev A := Fail SCRIPT_ERR_INVALID_STACK_OPERATION.

Definition op_verify : Handler :=
  on_stack (fun s => match s with
    | x :: s => guard CastToBool x else SCRIPT_ERR_VERIFY; Val s | _ => invalid end).

Definition op_return : Handler := fun _ _ _ _ => Fail SCRIPT_ERR_OP_RETURN.

(** ** Stack operations *)

Definition op_toaltstack : Handler :=
  fun _ _ _ st =>
  match es_stack st with
  | x :: s => Val (mkEval s (x :: es_altstack st) (es_vfExec st) (es_nOpCount st) (es_begincodehash st))
  | [] => invalid
  end.

Definition op_fromaltstack : Handler :=
  fun _ _ _ st =>
  match es_altstack st with
  | x :: a => Val (mkEval (x :: es_stack st) a (es_vfExec st) (es_nOpCount st) (es_begincodehash st))
  | [] => Fail SCRIPT_ERR_INVALID_ALTSTACK_OPERATION
  end.

Definition op_2drop : Handler := on_stack (fun s => match s with _ :: _ :: s => Val s | _ => invalid end).

Definition op_2dup : Handler :=
  on_stack (fun s => match s with x2 :: x1 :: s => Val (x2 :: x1 :: x2 :: x1 :: s) | _ => invalid end).

Definition op_3dup : Handler :=
  on_stack (fun s => match s with
    | x3 :: x2 :: x1 :: s => Val (x3 :: x2 :: x1 :: x3 :: x2 :: x1 :: s) | _ => invalid end).

Definition op_2over : Handler :=
  on_stack (fun s => match s with
    | x4 :: x3 :: x2 :: x1 :: s => Val (x2 :: x1 :: x4 :: x3 :: x2 :: x1 :: s) | _ => invalid end).

Definition op_2rot : Handler :=
  on_stack (fun s => match s with
    | x6 :: x5 :: x4 :: x3 :: x2 :: x1 :: s => Val (x2 :: x1 :: x6 :: x5 :: x4 :: x3 :: s) | _ => invalid end).

Definition op_2swap : Handler :=
  on_stack (fun s => match s with x4 :: x3 :: x2 :: x1 :: s => Val (x2 :: x1 :: x4 :: x3 :: s) | _ => invalid end).

Definition op_ifdup : Handler :=
  on_stack (fun s => match s with x :: _ => Val (if CastToBool x then x :: s else s) | _ => invalid end).

Definition op_depth : Handler := on_stack (fun s => Val (CScriptNum_serialize (Z.of_nat (length s)) :: s)).

Definition op_drop : Handler := on_stack (fun s => match s with _ :: s => Val s | _ => invalid end).

Definition op_dup : Handler := on_stack (fun s => match s with x :: _ => Val (x :: s) | _ => invalid end).

Definition op_nip : Handler := on_stack (fun s => match s with x2 :: _ :: s => Val (x2 :: s) | _ => invalid end).

Definition op_over : Handler := on_stack (fun s => match s with _ :: x1 :: _ => Val (x1 :: s) | _ => invalid end).

Definition op_pick_roll : Handler :=
  fun opcode _ _ st =>
  match es_stack st with
  | x :: _ :: _ =>
    let* n := ScriptNum x nDefaultMaxNumSize in
    let n := CScriptNum_getint n in
    let* s := popstack (es_stack st) in
    if (n <? 0) || (Z.of_nat (length s) <=? n) then invalid
    else
      let* vch := stacktop s (n + 1) in
      let s := if opcode =? OP_ROLL then take (Z.to_nat n) s ++ drop (S (Z.to_nat n)) s else s in
      Val (with_stack st (vch :: s))
  | _ => invalid
  end.

Definition op_rot : Handler :=
  on_stack (fun s => match s with x3 :: x2 :: x1 :: s => Val (x1 :: x3 :: x2 :: s) | _ => invalid end).

Definition op_swap : Handler :=
  on_stack (fun s => match s with x2 :: x1 :: s => Val (x1 :: x2 :: s) | _ => invalid end).

Definition op_tuck : Handler :=
  on_stack (fun s => match s with x2 :: x1 :: s => Val (x2 :: x1 :: x2 :: s) | _ => invalid end).

Definition op_size : Handler :=
  on_stack (fun s => match s with x :: _ => Val (CScriptNum_serialize (vsize x) :: s) | _ => invalid end).

(** ** Logic and numbers *)

Definition op_equal : Handler :=
  fun opcode _ _ st =>
  match es_stack st with
  | vch2 :: vch1 :: s =>
    let fEqual := bool_decide (vch1 = vch2) in
    if opcode =? OP_EQUALVERIFY then guard fEqual else SCRIPT_ERR_EQUALVERIFY; Val (with_stack st s)
    else Val (with_stack st (vchBool fEqual :: s))
  | _ => invalid
  end.

Definition unary (opcode bn : Z) : Ev Z :=
  if opcode =? OP_1ADD then fits_int64 (bn + 1)
  else if opcode =? OP_1SUB then fits_int64 (bn - 1)
  else if opcode =? OP_NEGATE then fits_int64 (- bn)
  else if opcode =? OP_ABS then if bn <? 0 then fits_int64 (- bn) else Val bn
  else if opcode =? OP_NOT then Val (Z.b2z (bn =? 0))
  else if opcode =? OP_0NOTEQUAL then Val (Z.b2z (negb (bn =? 0)))
  else Undef.

Definition op_unary : Handler :=
  fun opcode _ _ st =>
  match es_stack st with
  | x :: s =>
    let* bn := ScriptNum x nDefaultMaxNumSize in
    let* bn := unary opcode bn in
    Val (with_stack st (CScriptNum_serialize bn :: s))
  | [] => invalid
  end.

Definition binary (opcode bn1 bn2 : Z) : Ev Z :=
  if opcode =? OP_ADD then fits_int64 (bn1 + bn2)
  else if opcode =? OP_SUB then fits_int64 (bn1 - bn2)
  else if opcode =? OP_BOOLAND then Val (Z.b2z (negb (bn1 =? 0) && negb (bn2 =? 0)))
  else if opcode =? OP_BOOLOR then Val (Z.b2z (negb (bn1 =? 0) || negb (bn2 =? 0)))
  else if (opcode =? OP_NUMEQUAL) || (opcode =? OP_NUMEQUALVERIFY) then Val (Z.b2z (bn1 =? bn2))
  else if opcode =? OP_NUMNOTEQUAL then Val (Z.b2z (negb (bn1 =? bn2)))
  else if opcode =? OP_LESSTHAN then Val (Z.b2z (bn1 <? bn2))
  else if opcode =? OP_GREATERTHAN then Val (Z.b2z (bn2 <? bn1))
  else if opcode =? OP_LESSTHANOREQUAL then Val (Z.b2z (bn1 <=? bn2))
  else if opcode =? OP_GREATERTHANOREQUAL then Val (Z.b2z (bn2 <=? bn1))
  else if opcode =? OP_MIN then Val (if bn1 <? bn2 then bn1 else bn2)
  else if opcode =? OP_MAX then Val (if bn2 <? bn1 then bn1 else bn2)
  else Undef.

Definition op_binary : Handler :=
  fun opcode _ _ st =>
  match es_stack st with
  | x2 :: x1 :: s =>
    let* bn1 := ScriptNum x1 nDefaultMaxNumSize in
    let* bn2 := ScriptNum x2 nDefaultMaxNumSize in
    let* bn := binary opcode bn1 bn2 in
    let vch := CScriptNum_serialize bn in
    if opcode =? OP_NUMEQUALVERIFY then guard CastToBool vch else SCRIPT_ERR_NUMEQUALVERIFY; Val (with_stack st s)
    else Val (with_stack st (vch :: s))
  | _ => invalid
  end.

Definition op_within : Handler :=
  on_stack (fun s =>
  match s with
  | x3 :: x2 :: x1 :: s =>
    let* bn1 := ScriptNum x1 nDefaultMaxNumSize in
    let* bn2 := ScriptNum x2 nDefaultMaxNumSize in
    let* bn3 := ScriptNum x3 nDefaultMaxNumSize in
    Val (vchBool ((bn2 <=? bn1) && (bn1 <? bn3)) :: s)
  | _ => invalid
  end).

(** ** Crypto *)

Definition hash_of (opcode : Z) : list Z -> list Z :=
  if opcode =? OP_RIPEMD160 then RIPEMD160
  else if opcode =? OP_SHA1 then SHA1
  else if opcode =? OP_SHA256 then SHA256
  else if opcode =? OP_HASH160 then Hash160
  else Hash256.

Definition op_hash : Handler :=
  fun opcode _ _ st =>
  match es_stack st with
  | vch :: s => Val (with_stack st (hash_of opcode vch :: s))
  | [] => invalid
  end.

Definition op_codeseparator : Handler :=
  fun _ pc _ st => Val (mkEval (es_stack st) (es_altstack st) (es_vfExec st) (es_nOpCount st) pc).

(** [scriptCode.FindAndDelete(CScript(vchSig))] before segregated witness. *)
Definition drop_signature (scriptCode : CScript) (vchSig : valtype) : CScript :=
  if bool_decide (sigversion = SIGVERSION_BASE) then fst (FindAndDelete scriptCode (push_data [] vchSig))
  else scriptCode.

Definition op_checksig : Handler :=
  fun opcode _ _ st =>
  match es_stack st with
  | vchPubKey :: vchSig :: s =>
    let scriptCode := drop_signature (es_begincodehash st) vchSig in
    let* _ := CheckSignatureEncoding vchSig in
    let* _ := CheckPubKeyEncoding vchPubKey in
    let fSuccess := CheckSig checker vchSig vchPubKey scriptCode sigversion in
    if negb fSuccess && has SCRIPT_VERIFY_NULLFAIL && negb (length vchSig =? 0)%nat then Fail SCRIPT_ERR_SIG_NULLFAIL
    else if opcode =? OP_CHECKSIGVERIFY then
      guard fSuccess else SCRIPT_ERR_CHECKSIGVERIFY; Val (with_stack st s)
    else Val (with_stack st (vchBool fSuccess :: s))
  | _ => invalid
  end.

(** The loop that drops the signatures [stacktop(-isig-k)]. *)
Fixpoint drop_signatures (s : list valtype) (isig : Z) (n : nat) (scriptCode : CScript) : Ev CScript :=
  match n with
  | O => Val scriptCode
  | S n =>
    let* vchSig := stacktop s isig in
    drop_signatures s (isig + 1) n (drop_signature scriptCode vchSig)
  end.

(** [while (fSuccess && nSigsCount > 0)]; one round for each key is enough. *)
Fixpoint multisig_loop (fuel : nat) (s : list valtype) (scriptCode : CScript) (isig ikey nSigsCount nKeysCount : Z)
    (fSuccess : bool) : Ev bool :=
  if negb (fSuccess && (0 <? nSigsCount)) then Val fSuccess
  else match fuel with
  | O => Undef
  | S fuel =>
    let* vchSig := stacktop s isig in
    let* vchPubKey := stacktop s ikey in
    let* _ := CheckSignatureEncoding vchSig in
    let* _ := CheckPubKeyEncoding vchPubKey in
    let fOk := CheckSig checker vchSig vchPubKey scriptCode sigversion in
    let isig := if fOk then isig + 1 else isig in
    let nSigsCount := if fOk then nSigsCount - 1 else nSigsCount in
    let nKeysCount := nKeysCount - 1 in
    multisig_loop fuel s scriptCode isig (ikey + 1) nSigsCount nKeysCount (negb (nKeysCount <? nSigsCount))
  end.

(** [while (i-- > 1)] *)
Fixpoint multisig_cleanup (n : nat) (fSuccess : bool) (ikey2 : Z) (s : list valtype) : Ev (list valtype) :=
  match n with
  | O => Val s
  | S n =>
    let* _ :=
      (if negb fSuccess && has SCRIPT_VERIFY_NULLFAIL && (ikey2 =? 0) then
         let* top := stacktop s 1 in
         if negb (length top =? 0)%nat then Fail SCRIPT_ERR_SIG_NULLFAIL else Val tt
       else Val tt) in
    let* s := popstack s in
    multisig_cleanup n fSuccess (if 0 <? ikey2 then ikey2 - 1 else ikey2) s
  end.

Definition op_checkmultisig : Handler :=
  fun opcode _ _ st =>
  let s := es_stack st in
  let size := Z.of_nat (length s) in
  if size <? 1 then invalid
  else
    let* top := stacktop s 1 in
    let* n := ScriptNum top nDefaultMaxNumSize in
    let nKeysCount := CScriptNum_getint n in
    if (nKeysCount <? 0) || (MAX_PUBKEYS_PER_MULTISIG <? nKeysCount) then Fail SCRIPT_ERR_PUBKEY_COUNT
    else
      let nOpCount := es_nOpCount st + nKeysCount in
      if MAX_OPS_PER_SCRIPT <? nOpCount then Fail SCRIPT_ERR_OP_COUNT
      else
        let ikey := 2 in
        let ikey2 := nKeysCount + 2 in
        let i := 2 + nKeysCount in
        if size <? i then invalid
        else
          let* top := stacktop s i in
          let* n := ScriptNum top nDefaultMaxNumSize in
          let nSigsCount := CScriptNum_getint n in
          if (nSigsCount <? 0) || (nKeysCount <? nSigsCount) then Fail SCRIPT_ERR_SIG_COUNT
          else
            let isig := i + 1 in
            let i := i + 1 + nSigsCount in
            if size <? i then invalid
            else
              let* scriptCode := drop_signatures s isig (Z.to_nat nSigsCount) (es_begincodehash st) in
              let* fSuccess :=
                multisig_loop (Z.to_nat nKeysCount) s scriptCode isig ikey nSigsCount nKeysCount true in
              let* s := multisig_cleanup (Z.to_nat (i - 1)) fSuccess ikey2 s in
              match s with
              | [] => invalid
              | dummy :: s =>
                if has SCRIPT_VERIFY_NULLDUMMY && negb (length dummy =? 0)%nat then Fail SCRIPT_ERR_SIG_NULLDUMMY
                else
                  let st := with_nOpCount st nOpCount in
                  if opcode =? OP_CHECKMULTISIGVERIFY then
                    guard fSuccess else SCRIPT_ERR_CHECKMULTISIGVERIFY; Val (with_stack st s)
                  else Val (with_stack st (vchBool fSuccess :: s))
              end.

Definition op_coinstake : Handler :=
  fun _ _ _ st => Val (with_stack st (vchBool (checker_IsCoinStake checker) :: es_stack st)).

(** ** The [switch] *)

Definition op_table : list (list Z * Handler) :=
  [ (OP_1NEGATE :: map (fun n => OP_1 + Z.of_nat n) (seq 0 16), op_number);
    ([OP_NOP], op_nop);
    ([OP_CHECKLOCKTIMEVERIFY], op_checklocktimeverify);
    ([OP_CHECKSEQUENCEVERIFY], op_checksequenceverify);
    ([OP_NOP1; OP_NOP4; OP_NOP5; OP_NOP6; OP_NOP7; OP_NOP8; OP_NOP9; OP_NOP10], op_upgradable_nop);
    ([OP_IF; OP_NOTIF], op_if);
    ([OP_ELSE], op_else);
    ([OP_ENDIF], op_endif);
    ([OP_VERIFY], op_verify);
    ([OP_RETURN], op_return);
    ([OP_TOALTSTACK], op_toaltstack);
    ([OP_FROMALTSTACK], op_fromaltstack);
    ([OP_2DROP], op_2drop);
    ([OP_2DUP], op_2dup);
    ([OP_3DUP], op_3dup);
    ([OP_2OVER], op_2over);
    ([OP_2ROT], op_2rot);
    ([OP_2SWAP], op_2swap);
    ([OP_IFDUP], op_ifdup);
    ([OP_DEPTH], op_depth);
    ([OP_DROP], op_drop);
    ([OP_DUP], op_dup);
    ([OP_NIP], op_nip);
    ([OP_OVER], op_over);
    ([OP_PICK; OP_ROLL], op_pick_roll);
    ([OP_ROT], op_rot);
    ([OP_SWAP], op_swap);
    ([OP_TUCK], op_tuck);
    ([OP_SIZE], op_size);
    ([OP_EQUAL; OP_EQUALVERIFY], op_equal);
    ([OP_1ADD; OP_1SUB; OP_NEGATE; OP_ABS; OP_NOT; OP_0NOTEQUAL], op_unary);
    ([OP_ADD; OP_SUB; OP_BOOLAND; OP_BOOLOR; OP_NUMEQUAL; OP_NUMEQUALVERIFY; OP_NUMNOTEQUAL; OP_LESSTHAN;
      OP_GREATERTHAN; OP_LESSTHANOREQUAL; OP_GREATERTHANOREQUAL; OP_MIN; OP_MAX], op_binary);
    ([OP_WITHIN], op_within);
    ([OP_RIPEMD160; OP_SHA1; OP_SHA256; OP_HASH160; OP_HASH256], op_hash);
    ([OP_CODESEPARATOR], op_codeseparator);
    ([OP_CHECKSIG; OP_CHECKSIGVERIFY], op_checksig);
    ([OP_CHECKMULTISIG; OP_CHECKMULTISIGVERIFY], op_checkmultisig);
    ([OP_COINSTAKE], op_coinstake) ].

Definition switch (opcode : Z) : Handler :=
  match find (fun c => existsb (Z.eqb opcode) c.1) op_table with
  | Some (_, h) => h
  | None => fun _ _ _ _ => Fail SCRIPT_ERR_BAD_OPCODE
  end.

(** ** The loop *)

Definition disabled (opcode : Z) : bool :=
  existsb (Z.eqb opcode)
    [OP_CAT; OP_SUBSTR; OP_LEFT; OP_RIGHT; OP_INVERT; OP_AND; OP_OR; OP_XOR; OP_2MUL; OP_2DIV; OP_MUL; OP_DIV;
     OP_MOD; OP_LSHIFT; OP_RSHIFT].

(** [!count(vfExec.begin(), vfExec.end(), false)] *)
Definition executing (st : EvalState) : bool := forallb id (es_vfExec st).

Definition size_limit (st : EvalState) : Ev EvalState :=
  if (1000 <? length (es_stack st) + length (es_altstack st))%nat then Fail SCRIPT_ERR_STACK_SIZE else Val st.

(** The body of the loop behind the reading of the instruction. *)
Definition eval_op (opcode : Z) (vchPushValue : valtype) (pc : CScript) (st : EvalState) : Ev EvalState :=
  let fExec := executing st in
  if MAX_SCRIPT_ELEMENT_SIZE <? vsize vchPushValue then Fail SCRIPT_ERR_PUSH_SIZE
  else
    let st := if OP_16 <? opcode then with_nOpCount st (es_nOpCount st + 1) else st in
    if (OP_16 <? opcode) && (MAX_OPS_PER_SCRIPT <? es_nOpCount st) then Fail SCRIPT_ERR_OP_COUNT
    else if disabled opcode then Fail SCRIPT_ERR_DISABLED_OPCODE
    else
      let* st :=
        (if fExec && (0 <=? opcode) && (opcode <=? OP_PUSHDATA4) then
           if fRequireMinimal && negb (CheckMinimalPush vchPushValue opcode) then Fail SCRIPT_ERR_MINIMALDATA
           else Val (with_stack st (vchPushValue :: es_stack st))
         else if fExec || ((OP_IF <=? opcode) && (opcode <=? OP_ENDIF)) then switch opcode opcode pc fExec st
         else Val st) in
      size_limit st.

Fixpoint eval_loop (fuel : nat) (pc : CScript) (st : EvalState) : Ev EvalState :=
  match pc with
  | [] => Val st
  | _ =>
    match fuel with
    | O => Undef
    | S fuel =>
      match GetOp pc with
      | (_, None) => Fail SCRIPT_ERR_BAD_OPCODE
      | (pc', Some (opcode, vchPushValue)) =>
        let* st := eval_op opcode vchPushValue pc' st in
        eval_loop fuel pc' st
      end
    end
  end.

(** The stack after a successful run. *)
Definition EvalScript (stack : list valtype) (script : CScript) : Ev (list valtype) :=
  if MAX_SCRIPT_SIZE <? Z.of_nat (length script) then Fail SCRIPT_ERR_SCRIPT_SIZE
  else
    let* st := catch_all (eval_loop (length script) script (mkEval stack [] [] 0 script)) in
    match es_vfExec st with
    | _ :: _ => Fail SCRIPT_ERR_UNBALANCED_CONDITIONAL
    | [] => Val (es_stack st)
    end.

End flags.

(** ** Programs of witnesses *)

Section verify.
Context (flags : Z).

Abbreviation hasv := (flag_set flags).

(** The elements of a witness, the back first. *)
Abbreviation CScriptWitness := (list valtype).

(** The script and the stack of a version 0 program. *)
Definition witness_script (witness : CScriptWitness) (program : valtype) : Ev (CScript * list valtype) :=
  if (length program =? 32)%nat then
    match witness with
    | [] => Fail SCRIPT_ERR_WITNESS_PROGRAM_WITNESS_EMPTY
    | scriptPubKey :: stack =>
      guard bool_decide (SHA256 scriptPubKey = program) else SCRIPT_ERR_WITNESS_PROGRAM_MISMATCH;
      Val (scriptPubKey, stack)
    end
  else if (length program =? 20)%nat then
    guard (length witness =? 2)%nat else SCRIPT_ERR_WITNESS_PROGRAM_MISMATCH;
    Val (push_data [OP_DUP; OP_HASH160] program ++ [OP_EQUALVERIFY; OP_CHECKSIG], witness)
  else Fail SCRIPT_ERR_WITNESS_PROGRAM_WRONG_LENGTH.

Definition VerifyWitnessProgram (witness : CScriptWitness) (witversion : Z) (program : valtype) : Ev () :=
  if witversion =? 0 then
    let* p := witness_script witness program in
    let '(scriptPubKey, stack) := p in
    guard forallb (fun v => vsize v <=? MAX_SCRIPT_ELEMENT_SIZE) stack else SCRIPT_ERR_PUSH_SIZE;
    let* stack := EvalScript flags SIGVERSION_WITNESS_V0 stack scriptPubKey in
    match stack with
    | [x] => guard CastToBool x else SCRIPT_ERR_EVAL_FALSE; Val tt
    | _ => Fail SCRIPT_ERR_EVAL_FALSE
    end
  else if hasv SCRIPT_VERIFY_DISCOURAGE_UPGRADABLE_WITNESS_PROGRAM then
    Fail SCRIPT_ERR_DISCOURAGE_UPGRADABLE_WITNESS_PROGRAM
  else Val tt.

(** ** The scripts of an input *)

(** [stack.resize(1)] keeps the bottom. *)
Definition resize1 (s : list valtype) : list valtype := [default [] (last s)].

Definition top_true (s : list valtype) : Ev () :=
  match s with
  | [] => Fail SCRIPT_ERR_EVAL_FALSE
  | x :: _ => guard CastToBool x else SCRIPT_ERR_EVAL_FALSE; Val tt
  end.

(** A witness program in the script of the output, or in the redeem script:
    [ok] says that the script of the input is what it must be.  The result is
    the stack and [hadWitness]. *)
Definition check_witness (witness : CScriptWitness) (script : CScript) (ok : bool) (malleated : ScriptError)
    (stack : list valtype) (hadWitness : bool) : Ev (list valtype * bool) :=
  if hasv SCRIPT_VERIFY_WITNESS then
    match IsWitnessProgram script with
    | Some (witnessversion, witnessprogram) =>
      guard ok else malleated;
      let* _ := VerifyWitnessProgram witness witnessversion witnessprogram in
      Val (resize1 stack, true)
    | None => Val (stack, hadWitness)
    end
  else Val (stack, hadWitness).

(** The evaluation of the redeem script, the top of the stack the script of
    the input left. *)
Definition check_p2sh (witness : CScriptWitness) (scriptSig : CScript) (stackCopy : list valtype) (hadWitness : bool) :
    Ev (list valtype * bool) :=
  guard IsPushOnly scriptSig else SCRIPT_ERR_SIG_PUSHONLY;
  match stackCopy with
  | [] => Undef
  | pubKey2 :: stack =>
    let* stack := EvalScript flags SIGVERSION_BASE stack pubKey2 in
    let* _ := top_true stack in
    check_witness witness pubKey2 (bool_decide (scriptSig = push_data [] pubKey2)) SCRIPT_ERR_WITNESS_MALLEATED_P2SH
      stack hadWitness
  end.

Definition ev_assert (b : bool) : Ev () := if b then Val tt else Undef.

(** A null pointer to a witness is the empty witness. *)
Definition VerifyScript (scriptSig scriptPubKey : CScript) (witness : CScriptWitness) : Ev () :=
  if hasv SCRIPT_VERIFY_SIGPUSHONLY && negb (IsPushOnly scriptSig) then Fail SCRIPT_ERR_SIG_PUSHONLY
  else
    let* stackCopy := EvalScript flags SIGVERSION_BASE [] scriptSig in
    let* stack := EvalScript flags SIGVERSION_BASE stackCopy scriptPubKey in
    let* _ := top_true stack in
    let* r := check_witness witness scriptPubKey (length scriptSig =? 0)%nat SCRIPT_ERR_WITNESS_MALLEATED stack false in
    let* r :=
      (if hasv SCRIPT_VERIFY_P2SH && IsPayToScriptHash scriptPubKey then check_p2sh witness scriptSig stackCopy r.2
       else Val r) in
    let '(stack, hadWitness) := r in
    let* _ :=
      (if hasv SCRIPT_VERIFY_CLEANSTACK then
         let* _ := ev_assert (hasv SCRIPT_VERIFY_P2SH) in
         let* _ := ev_assert (hasv SCRIPT_VERIFY_WITNESS) in
         guard (length stack =? 1)%nat else SCRIPT_ERR_CLEANSTACK; Val tt
       else Val tt) in
    if hasv SCRIPT_VERIFY_WITNESS then
      let* _ := ev_assert (hasv SCRIPT_VERIFY_P2SH) in
      if negb hadWitness && negb (length witness =? 0)%nat then Fail SCRIPT_ERR_WITNESS_UNEXPECTED else Val tt
    else Val tt.

(** ** Signature operations of witnesses *)

Definition WitnessSigOps (witversion : Z) (witprogram : valtype) (witness : CScriptWitness) : Z :=
  if witversion =? 0 then
    if (length witprogram =? 20)%nat then 1
    else match witness with
    | subscript :: _ => if (length witprogram =? 32)%nat then GetSigOpCount true subscript else 0
    | [] => 0
    end
  else 0.

(** The data the last [GetOp] returned; the script is one of pushes, so that
    no read fails. *)
Definition last_data (scriptSig : CScript) : valtype :=
  fold_ops (length scriptSig) (fun _ _ data => inl data) (fun _ => []) [] scriptSig.

(** [None] is the failed assertion. *)
Definition CountWitnessSigOps (scriptSig scriptPubKey : CScript) (witness : CScriptWitness) : option Z :=
  if negb (hasv SCRIPT_VERIFY_WITNESS) then Some 0
  else if negb (hasv SCRIPT_VERIFY_P2SH) then None
  else match IsWitnessProgram scriptPubKey with
  | Some (v, p) => Some (WitnessSigOps v p witness)
  | None =>
    if IsPayToScriptHash scriptPubKey && IsPushOnly scriptSig then
      match IsWitnessProgram (last_data scriptSig) with
      | Some (v, p) => Some (WitnessSigOps v p witness)
      | None => Some 0
      end
    else Some 0
  end.

End verify.
End script.
