(* ===== verification/InterpreterProps.v ===== *)
(** * What the script interpreter guarantees

    Four groups of theorems: no script makes the interpreter fail an assertion,
    leave a stack or overflow, and the stacks stay within their limits; each
    verification flag only rejects more; [OP_CHECKMULTISIG] finds a matching of
    signatures to keys whenever there is one; and the scripts of cold staking
    are spent by the keys they name. *)
From S2P Require Import Prelude Bytes HashStream Sha2 Sha1Ripemd HashFunctions VoteScript Transaction TxCheck Script Interpreter.

(** ** Reading instructions *)

Lemma GetOp_shorter pc pc' r : GetOp pc = (pc', Some r) -> (length pc' < length pc)%nat.
Proof.
  destruct pc as [|opcode pc]; cbn [GetOp]; [done|]. destruct (opcode <=? OP_PUSHDATA4).
  - unfold push_size. destruct (opcode <? OP_PUSHDATA1).
    + destruct (Z.of_nat (length pc) <? opcode); [done|]. intros [= <- _]. rewrite length_drop. cbn [length]. lia.
    + destruct (length pc <? _)%nat; [done|]. destruct (_ <? le_value _); [done|]. intros [= <- _].
      rewrite !length_drop. cbn [length]. lia.
  - intros [= <- _]. cbn [length]. lia.
Qed.

Lemma GetOp_bytes pc pc' opcode data :
  Forall byte pc -> GetOp pc = (pc', Some (opcode, data)) -> byte opcode /\ Forall byte data /\ Forall byte pc'.
Proof.
  destruct pc as [|o pc]; cbn [GetOp]; [done|]. intros [Ho Hpc]%Forall_cons. destruct (o <=? OP_PUSHDATA4).
  - unfold push_size. destruct (o <? OP_PUSHDATA1).
    + destruct (_ <? o); [done|]. intros [= <- <- <-]. auto using Forall_take, Forall_drop.
    + destruct (length pc <? _)%nat; [done|]. destruct (_ <? le_value _); [done|]. intros [= <- <- <-].
      auto using Forall_take, Forall_drop.
  - by intros [= <- <- <-].
Qed.

(** A push of up to 75 bytes, and an instruction without data. *)
Lemma GetOp_push data rest :
  (length data < 76)%nat -> GetOp (Z.of_nat (length data) :: data ++ rest) = (rest, Some (Z.of_nat (length data), data)).
Proof.
  intros H. cbn [GetOp]. unfold push_size, OP_PUSHDATA1, OP_PUSHDATA4.
  rewrite (proj2 (Z.leb_le _ _)), (proj2 (Z.ltb_lt _ _)) by lia. cbv iota beta.
  rewrite length_app, (proj2 (Z.ltb_ge _ _)) by lia. by rewrite Nat2Z.id, take_app_length, drop_app_length.
Qed.

Lemma GetOp_plain opcode rest : OP_PUSHDATA4 < opcode -> GetOp (opcode :: rest) = (rest, Some (opcode, [])).
Proof. intros H. cbn [GetOp]. by rewrite (proj2 (Z.leb_gt _ _)). Qed.

(** ** Outcomes *)

(** A computation that does not fail an assertion or overflow, whose only
    exception is that of script numbers, and whose result satisfies [P]. *)
Definition ev_ok {A} (P : A -> Prop) (m : Ev A) : Prop :=
  match m with Val a => P a | Fail _ => True | Throw x => x = scriptnum_error | Undef => False end.

Lemma ev_ok_bind {A B} (P : A -> Prop) (Q : B -> Prop) m (f : A -> Ev B) :
  ev_ok P m -> (forall a, P a -> ev_ok Q (f a)) -> ev_ok Q (ev_bind m f).
Proof. destruct m; cbn; auto. Qed.

Lemma ev_ok_mono {A} (P Q : A -> Prop) m : ev_ok P m -> (forall a, P a -> Q a) -> ev_ok Q m.
Proof. destruct m; cbn; auto. Qed.

(** A computation that returns what another returns, when that one does. *)
Definition ev_imp {A} (m1 m2 : Ev A) : Prop := forall a, m1 = Val a -> m2 = Val a.

#[global] Instance ev_imp_preorder {A} : PreOrder (@ev_imp A).
Proof. split; [by intros m a|]. intros m1 m2 m3 H1 H2 a Ha. auto. Qed.

Lemma ev_imp_bind {A B} (m1 m2 : Ev A) (f1 f2 : A -> Ev B) :
  ev_imp m1 m2 -> (forall a, m1 = Val a -> ev_imp (f1 a) (f2 a)) -> ev_imp (ev_bind m1 f1) (ev_bind m2 f2).
Proof.
  intros Hm Hf b. destruct m1 as [a| | |]; cbn; try done. intros Hb. rewrite (Hm a) by done. cbn.
  by apply (Hf a).
Qed.

Lemma ev_bind_Val {A B} (m : Ev A) (f : A -> Ev B) b :
  ev_bind m f = Val b -> exists a, m = Val a /\ f a = Val b.
Proof. destruct m; cbn; naive_solver. Qed.

(** ** Script numbers *)

Definition element (v : valtype) : Prop := Forall byte v /\ vsize v <= MAX_SCRIPT_ELEMENT_SIZE.

Lemma serialize_element z : - 2 ^ 63 < z < 2 ^ 63 -> element (CScriptNum_serialize z).
Proof.
  intros Hz. unfold element, vsize, MAX_SCRIPT_ELEMENT_SIZE, CScriptNum_serialize.
  destruct (Z.eqb_spec z 0) as [->|Hne]; [split; [done|cbn; lia]|]. rewrite u64_small by lia.
  destruct (abs_bytes_spec 8 (Z.abs z)) as (Hb & _ & Hlen & Hlast).
  { change (256 ^ Z.of_nat 8) with (2 ^ 64). lia. }
  destruct (Hlast ltac:(lia)) as (b & l & E & _). rewrite E in *. rewrite last_snoc. change (default 0 (Some b)) with b.
  pose proof Hb as [Hl Hbb]%Forall_app. apply Forall_inv in Hbb. rewrite land_0x80 by done.
  rewrite length_app in Hlen; cbn [length] in Hlen.
  destruct (Z.ltb_spec b 128); cbn [negb]; [destruct (z <? 0)|].
  - unfold set_back. rewrite length_app; cbn [length]. rewrite Nat.add_1_r; cbn [pred].
    rewrite alter_app_r_alt by lia. rewrite Nat.sub_diag. cbn [alter list_alter].
    unfold byte in Hbb. rewrite lor_0x80 by lia. split; [|rewrite length_app; cbn; lia].
    apply Forall_app. split; [done|]. constructor; [unfold byte; lia|done].
  - split; [done|]. rewrite length_app; cbn; lia.
  - split; [|rewrite !length_app; cbn; lia]. apply Forall_app. split; [done|].
    constructor; [destruct (z <? 0); unfold byte; lia|done].
Qed.

Lemma CScriptNum_range vch m n z :
  Forall byte vch -> CScriptNum_of_vch vch m n = Some z -> Z.abs z < 2 ^ (8 * Z.of_nat n).
Proof.
  intros Hv. unfold CScriptNum_of_vch. destruct (Nat.ltb_spec n (length vch)) as [|Hn]; [done|].
  destruct (_ && _ && _ && _); [done|]. intros [= <-].
  destruct vch as [|b l _] using rev_ind; [change (0 < 2 ^ (8 * Z.of_nat n)); lia|].
  apply Forall_app in Hv as [Hl Hb]. apply Forall_inv in Hb. rewrite set_vch_snoc by done.
  rewrite length_app in Hn; cbn [length] in Hn. pose proof (le_value_range l Hl) as Hr. unfold byte in Hb.
  assert (256 ^ Z.of_nat (length l) * 256 <= 2 ^ (8 * Z.of_nat n)).
  { rewrite Z.mul_comm, <- Z.pow_succ_r, <- Nat2Z.inj_succ, (Z.pow_mul_r 2 8) by lia. change (2 ^ 8) with 256.
    apply Z.pow_le_mono_r; lia. }
  destruct (Z.ltb_spec b 128); nia.
Qed.

Lemma ScriptNum_ok flags vch n : element vch -> ev_ok (fun z => Z.abs z < 2 ^ (8 * Z.of_nat n)) (ScriptNum flags vch n).
Proof.
  intros [Hb _]. unfold ScriptNum. destruct (CScriptNum_of_vch _ _ _) eqn:E; cbn; [|done].
  by eapply CScriptNum_range.
Qed.

(** ** Safety *)

Record fine (st : EvalState) : Prop := {
  fine_stack : Forall element (es_stack st);
  fine_altstack : Forall element (es_altstack st)
}.

(** The stacks have at most [N] elements. *)
Record good (N : nat) (st : EvalState) : Prop := {
  good_fine : fine st;
  good_size : (length (es_stack st) + length (es_altstack st) <= N)%nat
}.

(** What the interpreter relies on: hash functions return bytes, and not more
    than an element has. *)
Class HashLaws (H : list Z -> list Z) : Prop := hash_element l : Forall byte l -> element (H l).

Create HintDb script.
#[export] Hint Resolve fine_stack fine_altstack good_fine hash_element ScriptNum_ok serialize_element : script.

Lemma element_nil : element [].
Proof. split; [done|]. unfold vsize, MAX_SCRIPT_ELEMENT_SIZE. cbn. lia. Qed.

Lemma vchBool_element b : element (vchBool b).
Proof. destruct b; [|exact element_nil]. split; [|done]. constructor; [unfold byte; lia|done]. Qed.

#[export] Hint Resolve element_nil vchBool_element : script.

Section safety.
Context (RIPEMD160 SHA1 SHA256 : list Z -> list Z) (CheckLowS : list Z -> bool) (checker : BaseSignatureChecker).
Context `{!HashLaws RIPEMD160} `{!HashLaws SHA1} `{!HashLaws SHA256}.
Context (flags : Z) (sigversion : SigVersion).
Context (N : nat) (HN : (1000 <= N)%nat) (HN2 : Z.of_nat N < 2 ^ 31).

Definition stack_safe (f : list valtype -> Ev (list valtype)) : Prop :=
  forall s, Forall element s -> (length s <= N)%nat -> ev_ok (Forall element) (f s).

Definition safe (opcodes : list Z) (h : Handler) : Prop :=
  forall opcode pc fExec st, opcode ∈ opcodes -> good N st -> ev_ok fine (h opcode pc fExec st).

Lemma fine_with_stack st s : fine st -> Forall element s -> fine (with_stack st s).
Proof. intros [_ Ha] Hs. by split. Qed.

Lemma fine_with_nOpCount st n : fine st -> fine (with_nOpCount st n).
Proof. intros [Hs Ha]. by split. Qed.

Lemma on_stack_safe l f : stack_safe f -> safe l (on_stack f).
Proof.
  intros Hf opcode pc fExec st _ [[Hs Ha] Hn]. unfold on_stack.
  eapply ev_ok_bind; [apply Hf; [done|lia]|]. intros s Hs'. by split.
Qed.

(** A case that moves elements of the stack. *)
Ltac by_elements :=
  repeat match goal with
  | H : Forall element (_ :: _) |- _ => apply Forall_cons in H as [??]
  | |- Forall _ (_ :: _) => constructor
  | |- context [match ?s with [] => _ | _ :: _ => _ end] => is_var s; destruct s; cbn -[Z.pow]
  | |- context [if ?b then _ else _] => destruct b; cbn -[Z.pow]
  end; auto with script.

Ltac shuffle := intros s Hs Hn; cbn beta; by_elements.

#[local] Instance Hash160_laws : HashLaws (Hash160 RIPEMD160 SHA256).
Proof. intros l Hl. unfold Hash160. apply (hash_element (H := RIPEMD160)). by apply (hash_element (H := SHA256)). Qed.

#[local] Instance Hash256_laws : HashLaws (Hash256 SHA256).
Proof. intros l Hl. unfold Hash256. do 2 apply (hash_element (H := SHA256)). done. Qed.

Lemma hash_of_element opcode l : element l -> element (hash_of RIPEMD160 SHA1 SHA256 opcode l).
Proof.
  intros [Hl _]. unfold hash_of. repeat case_match; by apply hash_element.
Qed.

Lemma op_hash_safe l : safe l (op_hash RIPEMD160 SHA1 SHA256).
Proof.
  intros opcode pc fExec st _ [[Hs Ha] _]. unfold op_hash. destruct (es_stack st) as [|x s] eqn:E; cbn; [done|].
  apply Forall_cons in Hs as [Hx Hs]. split; [|done]. constructor; [by apply hash_of_element|done].
Qed.

Lemma op_depth_safe l : safe l op_depth.
Proof.
  apply on_stack_safe. intros s Hs Hn. cbn -[Z.pow]. constructor; [|done]. apply serialize_element. lia.
Qed.

Lemma op_size_safe l : safe l op_size.
Proof.
  apply on_stack_safe. intros [|x s] Hs Hn; cbn -[Z.pow]; [done|]. pose proof Hs as [[_ Hx] _]%Forall_cons.
  constructor; [|done]. apply serialize_element. unfold vsize, MAX_SCRIPT_ELEMENT_SIZE in *. lia.
Qed.

Lemma fits_int64_ok z : - 2 ^ 63 < z < 2 ^ 63 -> ev_ok (fun z => - 2 ^ 63 < z < 2 ^ 63) (fits_int64 z).
Proof.
  intros Hz. unfold fits_int64. rewrite (proj2 (Z.leb_le _ _)), (proj2 (Z.ltb_lt _ _)) by lia. exact Hz.
Qed.

Lemma unary_ok opcode bn :
  opcode ∈ [OP_1ADD; OP_1SUB; OP_NEGATE; OP_ABS; OP_NOT; OP_0NOTEQUAL] -> Z.abs bn < 2 ^ 32 ->
  ev_ok (fun z => - 2 ^ 63 < z < 2 ^ 63) (unary opcode bn).
Proof.
  intros Hop Hbn. set_unfold in Hop. unfold unary.
  destruct_or! Hop; subst opcode; cbn -[Z.pow fits_int64]; try (apply fits_int64_ok; lia).
  - destruct (bn <? 0); [apply fits_int64_ok|cbn -[Z.pow]]; lia.
  - destruct (bn =? 0); cbn; lia.
  - destruct (bn =? 0); cbn; lia.
Qed.

Lemma binary_ok opcode bn1 bn2 :
  opcode ∈ [OP_ADD; OP_SUB; OP_BOOLAND; OP_BOOLOR; OP_NUMEQUAL; OP_NUMEQUALVERIFY; OP_NUMNOTEQUAL; OP_LESSTHAN;
      OP_GREATERTHAN; OP_LESSTHANOREQUAL; OP_GREATERTHANOREQUAL; OP_MIN; OP_MAX] ->
  Z.abs bn1 < 2 ^ 32 -> Z.abs bn2 < 2 ^ 32 -> ev_ok (fun z => - 2 ^ 63 < z < 2 ^ 63) (binary opcode bn1 bn2).
Proof.
  intros Hop H1 H2. assert (forall b, - 2 ^ 63 < Z.b2z b < 2 ^ 63) as Hb by (intros []; cbn; lia).
  set_unfold in Hop. unfold binary.
  destruct_or! Hop; subst opcode; cbn -[Z.pow fits_int64 Z.b2z]; try apply Hb; try (apply fits_int64_ok; lia).
  - destruct (bn1 <? bn2); lia.
  - destruct (bn2 <? bn1); lia.
Qed.

Lemma op_unary_safe : safe [OP_1ADD; OP_1SUB; OP_NEGATE; OP_ABS; OP_NOT; OP_0NOTEQUAL] (op_unary flags).
Proof.
  intros opcode pc fExec st Hop [Hst _]. unfold op_unary. pose proof (fine_stack _ Hst) as Hs.
  destruct (es_stack st) as [|x s]; [done|]. apply Forall_cons in Hs as [Hx Hs].
  eapply ev_ok_bind; [by apply ScriptNum_ok|]. intros bn Hbn.
  eapply ev_ok_bind; [by apply unary_ok|]. intros z Hz. apply fine_with_stack; [done|]. constructor; auto with script.
Qed.

Lemma op_binary_safe :
  safe [OP_ADD; OP_SUB; OP_BOOLAND; OP_BOOLOR; OP_NUMEQUAL; OP_NUMEQUALVERIFY; OP_NUMNOTEQUAL; OP_LESSTHAN;
      OP_GREATERTHAN; OP_LESSTHANOREQUAL; OP_GREATERTHANOREQUAL; OP_MIN; OP_MAX] (op_binary flags).
Proof.
  intros opcode pc fExec st Hop [Hst _]. unfold op_binary. pose proof (fine_stack _ Hst) as Hs.
  destruct (es_stack st) as [|x2 [|x1 s]]; [done..|]. apply Forall_cons in Hs as [Hx2 [Hx1 Hs]%Forall_cons].
  eapply ev_ok_bind; [by apply ScriptNum_ok|]. intros bn1 Hbn1.
  eapply ev_ok_bind; [by apply ScriptNum_ok|]. intros bn2 Hbn2.
  eapply ev_ok_bind; [by apply binary_ok|]. intros z Hz. cbv zeta.
  destruct (opcode =? OP_NUMEQUALVERIFY); [destruct (CastToBool _); [|done]|]; apply fine_with_stack; auto.
  constructor; auto with script.
Qed.

Lemma op_within_safe l : safe l (op_within flags).
Proof.
  apply on_stack_safe. intros s Hs Hn. destruct s as [|x3 [|x2 [|x1 s]]]; [done..|].
  apply Forall_cons in Hs as [H3 [H2 [H1 Hs]%Forall_cons]%Forall_cons].
  eapply ev_ok_bind; [by apply ScriptNum_ok|]. intros bn1 _.
  eapply ev_ok_bind; [by apply ScriptNum_ok|]. intros bn2 _.
  eapply ev_ok_bind; [by apply ScriptNum_ok|]. intros bn3 _. constructor; auto with script.
Qed.

Lemma stacktop_ok s i :
  Forall element s -> 1 <= i <= Z.of_nat (length s) -> ev_ok element (stacktop s i).
Proof.
  intros Hs Hi. unfold stacktop. destruct (s !! _) as [v|] eqn:E; cbn.
  - by apply (Forall_lookup_1 _ _ _ _ Hs E).
  - apply lookup_ge_None in E. lia.
Qed.

Lemma op_pick_roll_safe l : safe l (op_pick_roll flags).
Proof.
  intros opcode pc fExec st _ [Hst _]. unfold op_pick_roll. pose proof (fine_stack _ Hst) as Hs.
  destruct (es_stack st) as [|x [|y s]]; [done..|]. apply Forall_cons in Hs as [Hx Hs].
  eapply ev_ok_bind; [by apply ScriptNum_ok|]. intros n _. cbn [popstack ev_bind]. cbv zeta.
  set (z := CScriptNum_getint n). destruct ((z <? 0) || _) eqn:E; [done|].
  apply orb_false_iff in E as [E1%Z.ltb_ge E2%Z.leb_gt].
  eapply ev_ok_bind; [apply stacktop_ok; [done|lia]|]. intros v Hv. apply fine_with_stack; [done|].
  constructor; [done|]. destruct (opcode =? OP_ROLL); auto using Forall_app_2, Forall_take, Forall_drop.
Qed.

Lemma enc_sig_ok vch : ev_ok (fun _ => True) (CheckSignatureEncoding CheckLowS flags vch).
Proof.
  unfold CheckSignatureEncoding, IsLowDERSignature. repeat (case_match; cbn [ev_ok ev_bind]; try done).
Qed.

Lemma enc_pub_ok vch : ev_ok (fun _ => True) (CheckPubKeyEncoding flags sigversion vch).
Proof. unfold CheckPubKeyEncoding. repeat (case_match; try done). Qed.

Lemma op_checksig_safe l : safe l (op_checksig CheckLowS checker flags sigversion).
Proof.
  intros opcode pc fExec st _ [Hst _]. unfold op_checksig. pose proof (fine_stack _ Hst) as Hs.
  destruct (es_stack st) as [|x2 [|x1 s]]; [done..|]. apply Forall_cons in Hs as [_ [_ Hs]%Forall_cons].
  eapply ev_ok_bind; [apply enc_sig_ok|]. intros _ _. eapply ev_ok_bind; [apply enc_pub_ok|]. intros _ _. cbv zeta.
  repeat (case_match; try done); apply fine_with_stack; auto. all: constructor; auto with script.
Qed.

(** *** Signatures of several keys *)

Lemma drop_signatures_ok s isig n code :
  Forall element s -> 1 <= isig -> isig + Z.of_nat n - 1 <= Z.of_nat (length s) ->
  ev_ok (fun _ => True) (drop_signatures sigversion s isig n code).
Proof.
  intros Hs. revert isig code; induction n as [|n IH]; intros isig code Hi Hn; cbn [drop_signatures]; [done|].
  eapply ev_ok_bind; [apply stacktop_ok; [done|lia]|]. intros v _. apply IH; lia.
Qed.

Lemma multisig_loop_ok fuel s code isig ikey nSigs nKeys b :
  Forall element s -> 1 <= isig -> isig + nSigs - 1 <= Z.of_nat (length s) ->
  1 <= ikey -> ikey + nKeys - 1 <= Z.of_nat (length s) -> nKeys = Z.of_nat fuel -> (b = true -> nSigs <= nKeys) ->
  ev_ok (fun _ => True) (multisig_loop CheckLowS checker flags sigversion fuel s code isig ikey nSigs nKeys b).
Proof.
  intros Hs. revert isig ikey nSigs nKeys b; induction fuel as [|fuel IH]; intros isig ikey nSigs nKeys b H1 H2 H3 H4 H5 H6;
    cbn [multisig_loop]; destruct (negb _) eqn:E; try done; apply negb_false_iff, andb_true_iff in E as [-> E%Z.ltb_lt];
    specialize (H6 eq_refl); [lia|].
  eapply ev_ok_bind; [apply stacktop_ok; [done|lia]|]. intros vsig _.
  eapply ev_ok_bind; [apply stacktop_ok; [done|lia]|]. intros vkey _.
  eapply ev_ok_bind; [apply enc_sig_ok|]. intros _ _. eapply ev_ok_bind; [apply enc_pub_ok|]. intros _ _. cbv zeta.
  apply IH; repeat case_match; try lia. all: intros ?%negb_true_iff%Z.ltb_ge; lia.
Qed.

Lemma multisig_cleanup_ok n b ikey2 s :
  Forall element s -> (n <= length s)%nat -> ev_ok (Forall element) (multisig_cleanup flags n b ikey2 s).
Proof.
  revert ikey2 s; induction n as [|n IH]; intros ikey2 s Hs Hn; cbn [multisig_cleanup]; [done|].
  eapply (ev_ok_bind (fun _ => True)).
  { destruct (_ && _ && _); [|done]. eapply ev_ok_bind; [apply stacktop_ok; [done|lia]|]. intros v _. by case_match. }
  intros _ _. destruct s as [|x s]; cbn [length] in Hn; [lia|]. apply Forall_cons in Hs as [_ Hs]. cbn [popstack ev_bind].
  apply IH; [done|lia].
Qed.

Lemma op_checkmultisig_safe l : safe l (op_checkmultisig CheckLowS checker flags sigversion).
Proof.
  intros opcode pc fExec st _ [Hst _]. pose proof (fine_stack _ Hst) as Hs. unfold op_checkmultisig. cbv zeta.
  destruct (Z.ltb_spec (Z.of_nat (length (es_stack st))) 1); [done|].
  eapply ev_ok_bind; [apply stacktop_ok; [done|lia]|]. intros top Htop.
  eapply ev_ok_bind; [by apply ScriptNum_ok|]. intros n _. set (nKeys := CScriptNum_getint n).
  destruct ((nKeys <? 0) || _) eqn:E; [done|]. apply orb_false_iff in E as [E1%Z.ltb_ge _].
  destruct (MAX_OPS_PER_SCRIPT <? _); [done|]. destruct (Z.ltb_spec (Z.of_nat (length (es_stack st))) (2 + nKeys)); [done|].
  eapply ev_ok_bind; [apply stacktop_ok; [done|lia]|]. intros top2 Htop2.
  eapply ev_ok_bind; [by apply ScriptNum_ok|]. intros n2 _. set (nSigs := CScriptNum_getint n2).
  destruct ((nSigs <? 0) || _) eqn:E; [done|]. apply orb_false_iff in E as [E2%Z.ltb_ge E3%Z.ltb_ge].
  destruct (Z.ltb_spec (Z.of_nat (length (es_stack st))) (2 + nKeys + 1 + nSigs)); [done|].
  eapply ev_ok_bind; [apply drop_signatures_ok; [done|lia..]|]. intros code _.
  eapply ev_ok_bind; [apply multisig_loop_ok; [done|lia..]|]. intros b _.
  eapply ev_ok_bind; [apply multisig_cleanup_ok; [done|lia]|]. intros s Hs'.
  destruct s as [|dummy s]; [done|]. apply Forall_cons in Hs' as [_ Hs']. repeat (case_match; try done).
  all: apply fine_with_stack; auto using fine_with_nOpCount. constructor; auto with script.
Qed.

(** *** Control *)

Lemma locktime_safe l : safe l (op_checklocktimeverify checker flags).
Proof.
  intros opcode pc fExec st _ [Hst _]. unfold op_checklocktimeverify, discouraged_nop. pose proof (fine_stack _ Hst) as Hs.
  repeat (case_match; try done). apply Forall_cons in Hs as [Hx _].
  eapply ev_ok_bind; [by apply ScriptNum_ok|]. intros n _. repeat (case_match; try done).
Qed.

Lemma sequence_safe l : safe l (op_checksequenceverify checker flags).
Proof.
  intros opcode pc fExec st _ [Hst _]. unfold op_checksequenceverify, discouraged_nop. pose proof (fine_stack _ Hst) as Hs.
  repeat (case_match; try done). apply Forall_cons in Hs as [Hx _].
  eapply ev_ok_bind; [by apply ScriptNum_ok|]. intros n _. repeat (case_match; try done).
Qed.

Lemma op_number_safe : safe (OP_1NEGATE :: map (fun n => OP_1 + Z.of_nat n) (seq 0 16)) op_number.
Proof.
  intros opcode pc fExec st Hop [Hst _]. unfold op_number. apply fine_with_stack; [done|].
  constructor; auto with script. apply serialize_element. apply list_elem_of_In in Hop. cbn in Hop.
  destruct_or! Hop; subst opcode; by vm_compute.
Qed.

Lemma control_safe l h :
  h ∈ [op_nop; op_upgradable_nop flags; op_if flags sigversion; op_else; op_endif; op_return; op_toaltstack;
       op_fromaltstack; op_equal; op_codeseparator; op_coinstake checker] -> safe l h.
Proof.
  intros Hh opcode pc fExec st _ [[Hs Ha] _]. apply list_elem_of_In in Hh. cbn [In] in Hh.
  destruct_or! Hh; subst h; try done;
    unfold op_nop, op_upgradable_nop, discouraged_nop, op_if, op_else, op_endif, op_return, op_toaltstack,
      op_fromaltstack, op_equal, op_codeseparator, op_coinstake; repeat (case_match; try done);
    repeat match goal with H : Forall element (_ :: _) |- _ => apply Forall_cons in H as [??] end;
    split; cbn; try (apply Forall_cons; split); auto with script; congruence.
Qed.

Lemma op_table_safe :
  Forall (fun c => safe c.1 c.2) (op_table RIPEMD160 SHA1 SHA256 CheckLowS checker flags sigversion).
Proof.
  unfold op_table. repeat (apply Forall_cons; split); try apply List.Forall_nil; cbn [fst snd];
  first [ apply op_number_safe | apply op_unary_safe | apply op_binary_safe | apply op_within_safe | apply op_hash_safe
        | apply op_checksig_safe | apply op_checkmultisig_safe | apply op_pick_roll_safe | apply op_depth_safe
        | apply op_size_safe | apply locktime_safe | apply sequence_safe
        | solve [apply control_safe, list_elem_of_In; cbn; tauto]
        | apply on_stack_safe; shuffle ].
Qed.

Lemma switch_safe opcode pc fExec st :
  good N st -> ev_ok fine (switch RIPEMD160 SHA1 SHA256 CheckLowS checker flags sigversion opcode opcode pc fExec st).
Proof.
  intros Hst. unfold switch. destruct (find _ _) as [[l h]|] eqn:E; [|done].
  apply find_some in E as [Hin Hop]. apply existsb_exists in Hop as (o & Ho & ->%Z.eqb_eq).
  apply list_elem_of_In in Hin, Ho. by apply (proj1 (Forall_forall _ _) op_table_safe _ Hin).
Qed.

(** *** The loop *)

Lemma eval_op_safe opcode data pc st :
  Forall byte data -> good N st ->
  ev_ok (good N) (eval_op RIPEMD160 SHA1 SHA256 CheckLowS checker flags sigversion opcode data pc st).
Proof.
  intros Hd Hst. unfold eval_op. cbv zeta. destruct (Z.ltb_spec MAX_SCRIPT_ELEMENT_SIZE (vsize data)); [done|].
  set (st' := if OP_16 <? opcode then _ else st).
  assert (good N st') as Hst'.
  { subst st'. destruct (OP_16 <? opcode); [|done]. destruct Hst. split; [by apply fine_with_nOpCount|done]. }
  destruct (_ && _); [done|]. destruct (disabled opcode); [done|].
  eapply (ev_ok_bind fine).
  - destruct (_ && _ && _).
    + destruct (_ && negb _); [done|]. apply fine_with_stack; [by eapply good_fine|]. constructor; [by split|].
      eapply fine_stack, good_fine, Hst'.
    + destruct (_ || _); [by apply switch_safe|]. by eapply good_fine.
  - intros st2 H2. unfold size_limit. destruct (Nat.ltb_spec 1000 (length (es_stack st2) + length (es_altstack st2))); [done|].
    split; [done|lia].
Qed.

Lemma eval_loop_safe fuel pc st :
  Forall byte pc -> (length pc <= fuel)%nat -> good N st ->
  ev_ok (good N) (eval_loop RIPEMD160 SHA1 SHA256 CheckLowS checker flags sigversion fuel pc st).
Proof.
  revert pc st; induction fuel as [|fuel IH]; intros pc st Hpc Hlen Hst; destruct pc as [|b pc]; cbn [eval_loop]; try done.
  { cbn in Hlen. lia. }
  destruct (GetOp (b :: pc)) as [pc' [[opcode data]|]] eqn:E; [|done].
  pose proof (GetOp_shorter _ _ _ E) as Hs. destruct (GetOp_bytes _ _ _ _ Hpc E) as (_ & Hd & Hpc').
  eapply ev_ok_bind; [by apply eval_op_safe|]. intros st' Hst'. apply IH; [done|lia|done].
Qed.

Lemma EvalScript_ok_gen stack script :
  Forall byte script -> Forall element stack -> (length stack <= N)%nat ->
  match EvalScript RIPEMD160 SHA1 SHA256 CheckLowS checker flags sigversion stack script with
  | Val s => Forall element s /\ (length s <= N)%nat
  | Fail _ => True
  | Throw _ | Undef => False
  end.
Proof.
  intros Hb He Hl. unfold EvalScript. destruct (_ <? _); [done|].
  pose proof (eval_loop_safe (length script) script (mkEval stack [] [] 0 script) Hb ltac:(lia)) as H.
  destruct (eval_loop _ _ _ _ _ _ _ _ _ _) as [st|e|x|]; cbn in *.
  - destruct H as [[Hs _] Hn]; [split; [by split|cbn; lia]|]. destruct (es_vfExec st); [|done]. split; [done|lia].
  - done.
  - done.
  - apply H. split; [by split|cbn; lia].
Qed.

End safety.

(** ** Runs, one instruction at a time *)

(** Data whose shortest push is the plain one. *)
Definition plain_data (data : valtype) : Prop := (2 <= length data <= 75)%nat.

Lemma plain_minimal data : plain_data data -> CheckMinimalPush data (Z.of_nat (length data)) = true.
Proof.
  intros H. unfold plain_data in H. unfold CheckMinimalPush, vsize.
  rewrite (proj2 (Z.eqb_neq _ 0)), (proj2 (Z.eqb_neq _ 1)), (proj2 (Z.leb_le _ 75)) by lia. apply Z.eqb_refl.
Qed.

Lemma push_data_plain s data : plain_data data -> push_data s data = s ++ Z.of_nat (length data) :: data.
Proof. intros H. unfold plain_data in H. unfold push_data, OP_PUSHDATA1. by rewrite (proj2 (Z.ltb_lt _ _)) by lia. Qed.

Section run.
Context (RIPEMD160 SHA1 SHA256 : list Z -> list Z) (CheckLowS : list Z -> bool) (checker : BaseSignatureChecker).
Context (flags : Z) (sigversion : SigVersion).

Abbreviation loop := (eval_loop RIPEMD160 SHA1 SHA256 CheckLowS checker flags sigversion).
Abbreviation op := (eval_op RIPEMD160 SHA1 SHA256 CheckLowS checker flags sigversion).
Abbreviation sw := (switch RIPEMD160 SHA1 SHA256 CheckLowS checker flags sigversion).

Lemma eval_loop_fuel f1 f2 pc st : (length pc <= f1)%nat -> (length pc <= f2)%nat -> loop f1 pc st = loop f2 pc st.
Proof.
  revert f2 pc st; induction f1 as [|f1 IH]; intros f2 pc st H1 H2; destruct pc as [|b pc]; try (by destruct f2).
  { cbn in H1. lia. }
  destruct f2 as [|f2]; [cbn in H2; lia|]. cbn [eval_loop].
  destruct (GetOp (b :: pc)) as [pc' [[opcode data]|]] eqn:E; [|done]. apply GetOp_shorter in E. cbn [length] in *.
  destruct (op opcode data pc' st); cbn [ev_bind]; try done. apply IH; lia.
Qed.

Definition run (pc : CScript) (st : EvalState) : Ev EvalState := loop (length pc) pc st.

Lemma run_nil st : run [] st = Val st.
Proof. done. Qed.

Lemma run_step pc pc' opcode data st :
  GetOp pc = (pc', Some (opcode, data)) -> run pc st = let* st' := op opcode data pc' st in run pc' st'.
Proof.
  intros E. pose proof (GetOp_shorter _ _ _ E) as Hs. unfold run. destruct pc as [|b pc]; [by cbn in E|].
  cbn [length eval_loop]. rewrite E. destruct (op opcode data pc' st); cbn [ev_bind]; try done.
  apply eval_loop_fuel; cbn in Hs; lia.
Qed.

Lemma size_limit_Val st :
  (length (es_stack st) + length (es_altstack st) <= 1000)%nat -> size_limit st = Val st.
Proof. intros H. unfold size_limit. by rewrite (proj2 (Nat.ltb_ge _ _)). Qed.

(** An opcode behind [OP_16] is counted, and skipped when it is in a branch
    that is not taken and is no conditional itself. *)
Definition dispatched (v : list bool) (opcode : Z) : bool :=
  forallb id v || ((OP_IF <=? opcode) && (opcode <=? OP_ENDIF)).

Lemma run_plain opcode pc s a v n c :
  OP_16 < opcode -> disabled opcode = false -> n < MAX_OPS_PER_SCRIPT ->
  run (opcode :: pc) (mkEval s a v n c) =
  let* st := (if dispatched v opcode then sw opcode opcode pc (forallb id v) (mkEval s a v (n + 1) c)
              else Val (mkEval s a v (n + 1) c)) in
  let* st := size_limit st in run pc st.
Proof.
  intros H1 H2 H3. rewrite (run_step _ pc opcode []) by (apply GetOp_plain; unfold OP_16, OP_PUSHDATA4 in *; lia).
  unfold eval_op. cbv zeta. rewrite H2, (proj2 (Z.ltb_lt OP_16 opcode)) by done.
  rewrite (proj2 (Z.leb_gt opcode OP_PUSHDATA4)) by (unfold OP_16, OP_PUSHDATA4 in *; lia).
  unfold with_nOpCount. cbn [es_stack es_altstack es_vfExec es_nOpCount es_begincodehash].
  change (MAX_SCRIPT_ELEMENT_SIZE <? vsize []) with false. cbn [andb].
  rewrite (proj2 (Z.ltb_ge MAX_OPS_PER_SCRIPT _)) by lia. rewrite andb_false_r.
  unfold executing, dispatched. cbn [es_vfExec]. destruct (if _ || _ then _ else _); cbn [ev_bind]; done.
Qed.

Lemma small_not_disabled opcode : opcode <= OP_16 -> disabled opcode = false.
Proof.
  intros H. unfold disabled. apply not_true_iff_false. intros (o & Ho & E%Z.eqb_eq)%existsb_exists. revert Ho.
  cbn [In]. unfold OP_CAT, OP_SUBSTR, OP_LEFT, OP_RIGHT, OP_INVERT, OP_AND, OP_OR, OP_XOR, OP_2MUL, OP_2DIV, OP_MUL, OP_DIV,
    OP_MOD, OP_LSHIFT, OP_RSHIFT, OP_16 in *. lia.
Qed.

Lemma run_push data pc s a v n c :
  plain_data data ->
  run (Z.of_nat (length data) :: data ++ pc) (mkEval s a v n c) =
  let* st := size_limit (mkEval (if forallb id v then data :: s else s) a v n c) in run pc st.
Proof.
  intros Hd. pose proof (plain_minimal _ Hd) as Hm. unfold plain_data in Hd.
  rewrite (run_step _ pc _ data) by (apply GetOp_push; lia). unfold eval_op. cbv zeta.
  rewrite small_not_disabled by (unfold OP_16; lia).
  unfold MAX_SCRIPT_ELEMENT_SIZE, vsize, OP_16, OP_IF, OP_ENDIF, OP_PUSHDATA4.
  rewrite (proj2 (Z.ltb_ge 520 _)), (proj2 (Z.ltb_ge 0x60 _)), (proj2 (Z.leb_le 0 _)), (proj2 (Z.leb_le _ 0x4e)),
    (proj2 (Z.leb_gt 0x63 _)) by lia.
  rewrite Hm. cbn [andb negb]. rewrite andb_false_r, !andb_true_r, orb_false_r. unfold executing. cbn [es_vfExec].
  destruct (forallb id v); cbn [ev_bind]; [|done]. done.
Qed.

(** A script of allowed length is run from its beginning. *)
Lemma EvalScript_run stack script :
  Z.of_nat (length script) <= MAX_SCRIPT_SIZE ->
  EvalScript RIPEMD160 SHA1 SHA256 CheckLowS checker flags sigversion stack script =
  let* st := catch_all (run script (mkEval stack [] [] 0 script)) in
  match es_vfExec st with _ :: _ => Fail SCRIPT_ERR_UNBALANCED_CONDITIONAL | [] => Val (es_stack st) end.
Proof. intros H. unfold EvalScript. by rewrite (proj2 (Z.ltb_ge _ _)). Qed.

(** *** Scripts that commit to a script *)

Definition p2sh (h : list Z) : CScript := [OP_HASH160; 20] ++ h ++ [OP_EQUAL].

Lemma IsPayToScriptHash_shape s :
  IsPayToScriptHash s = true -> exists h, s = p2sh h /\ length h = 20%nat.
Proof.
  unfold IsPayToScriptHash. rewrite !andb_true_iff, Nat.eqb_eq, !Z.eqb_eq. intros [[[Hl H0] H1] H2].
  destruct s as [|a [|b s]]; try (cbn in Hl; lia). cbn in H0, H1. subst a b.
  destruct s as [|e h _] using rev_ind; [cbn in Hl; lia|]. exists h.
  cbn [length] in Hl. rewrite length_app in Hl; cbn [length] in Hl. split; [|lia].
  change (byte_at (h ++ [e]) 20 = OP_EQUAL) in H2. unfold byte_at in H2. rewrite lookup_app_r in H2 by lia.
  replace (20 - length h)%nat with 0%nat in H2 by lia. cbn in H2. by subst e.
Qed.

Lemma sw_HASH160 : sw OP_HASH160 = op_hash RIPEMD160 SHA1 SHA256.
Proof. done. Qed.
Lemma sw_EQUAL : sw OP_EQUAL = op_equal.
Proof. done. Qed.
Lemma sw_EQUALVERIFY : sw OP_EQUALVERIFY = op_equal.
Proof. done. Qed.
Lemma sw_DUP : sw OP_DUP = op_dup.
Proof. done. Qed.
Lemma sw_DROP : sw OP_DROP = op_drop.
Proof. done. Qed.
Lemma sw_IF : sw OP_IF = op_if flags sigversion.
Proof. done. Qed.
Lemma sw_ELSE : sw OP_ELSE = op_else.
Proof. done. Qed.
Lemma sw_ENDIF : sw OP_ENDIF = op_endif.
Proof. done. Qed.
Lemma sw_COINSTAKE : sw OP_COINSTAKE = op_coinstake checker.
Proof. done. Qed.
Lemma sw_CHECKSIG : sw OP_CHECKSIG = op_checksig CheckLowS checker flags sigversion.
Proof. done. Qed.

End run.

Create Rewrite HintDb switch.
#[export] Hint Rewrite @sw_HASH160 @sw_EQUAL @sw_EQUALVERIFY @sw_DUP @sw_DROP @sw_IF @sw_ELSE @sw_ENDIF @sw_COINSTAKE
  @sw_CHECKSIG : switch.

(** One instruction of a run on a state that is spelled out; what a case does
    is unfolded and the limit of the stack is left to [lia]. *)
Ltac run_reduce :=
  cbv beta iota delta [ev_bind with_stack with_vfExec with_nOpCount on_stack
       es_stack es_altstack es_vfExec es_nOpCount es_begincodehash forallb id andb].
Ltac run_limit := rewrite size_limit_Val by (cbn [es_stack es_altstack length] in *; lia); run_reduce.
Ltac run_data data := rewrite (run_push _ _ _ _ _ _ _ data) by (unfold plain_data; lia); run_reduce.
Ltac run_op h :=
  rewrite run_plain by (done || (unfold MAX_OPS_PER_SCRIPT; lia));
  match goal with |- context [dispatched ?v ?o] =>
    let b := eval vm_compute in (dispatched v o) in change (dispatched v o) with b end;
  run_reduce; autorewrite with switch; unfold h; run_reduce.

Section p2sh.
Context (RIPEMD160 SHA1 SHA256 : list Z -> list Z) (CheckLowS : list Z -> bool) (checker : BaseSignatureChecker).
Context (flags : Z) (sigversion : SigVersion).

(** The script of an output that commits to a script compares the hash of the
    top of the stack. *)
Lemma EvalScript_p2sh h stack :
  length h = 20%nat -> (length stack <= 999)%nat ->
  EvalScript RIPEMD160 SHA1 SHA256 CheckLowS checker flags sigversion stack (p2sh h) =
  match stack with
  | [] => Fail SCRIPT_ERR_INVALID_STACK_OPERATION
  | x :: s => Val (vchBool (bool_decide (Hash160 RIPEMD160 SHA256 x = h)) :: s)
  end.
Proof.
  intros Hh Hs. unfold p2sh. rewrite EvalScript_run by (rewrite !length_app, Hh; cbn; unfold MAX_SCRIPT_SIZE; lia).
  cbn [app]. set (c := OP_HASH160 :: _). unfold c at 1. run_op op_hash. destruct stack as [|x s]; [done|].
  run_limit. replace 20 with (Z.of_nat (length h)) by (by rewrite Hh). run_data h. run_limit. run_op op_equal.
  change (OP_EQUAL =? OP_EQUALVERIFY) with false. run_reduce. run_limit. by rewrite run_nil.
Qed.

Lemma EvalScript_p2sh_full h stack :
  length h = 20%nat -> length stack = 1000%nat ->
  EvalScript RIPEMD160 SHA1 SHA256 CheckLowS checker flags sigversion stack (p2sh h) = Fail SCRIPT_ERR_STACK_SIZE.
Proof.
  intros Hh Hs. unfold p2sh. rewrite EvalScript_run by (rewrite !length_app, Hh; cbn; unfold MAX_SCRIPT_SIZE; lia).
  cbn [app]. set (c := OP_HASH160 :: _). unfold c at 1. run_op op_hash. destruct stack as [|x s]; [done|].
  cbn [length] in Hs. run_limit. replace 20 with (Z.of_nat (length h)) by (by rewrite Hh). run_data h.
  unfold size_limit. cbn [es_stack es_altstack length]. by rewrite (proj2 (Nat.ltb_lt _ _)) by lia.
Qed.
End p2sh.

(** The result of [EvalScript] is a stack within the limits or an error code. *)
Definition bounded (N : nat) (m : Ev (list valtype)) : Prop :=
  match m with
  | Val s => Forall element s /\ (length s <= Nat.max 1000 N)%nat
  | Fail _ => True
  | Throw _ | Undef => False
  end.

(** The combinations of flags the assertions of [VerifyScript] allow. *)
Definition flags_consistent (flags : Z) : Prop :=
  (flag_set flags SCRIPT_VERIFY_CLEANSTACK = true -> flag_set flags SCRIPT_VERIFY_WITNESS = true) /\
  (flag_set flags SCRIPT_VERIFY_WITNESS = true -> flag_set flags SCRIPT_VERIFY_P2SH = true).

(** A computation that returns or reports an error code. *)
Definition decided {A} (m : Ev A) : Prop := match m with Val _ | Fail _ => True | Throw _ | Undef => False end.

Lemma decided_bind {A B} (m : Ev A) (f : A -> Ev B) :
  decided m -> (forall a, m = Val a -> decided (f a)) -> decided (ev_bind m f).
Proof. destruct m; cbn; auto. Qed.

Section verify_safety.
Context (RIPEMD160 SHA1 SHA256 : list Z -> list Z) (CheckLowS : list Z -> bool) (checker : BaseSignatureChecker).
Context `{!HashLaws RIPEMD160} `{!HashLaws SHA1} `{!HashLaws SHA256}.
Context (flags : Z).

Abbreviation evals := (EvalScript RIPEMD160 SHA1 SHA256 CheckLowS checker flags).

Lemma EvalScript_ok sigversion stack script :
  Forall byte script -> Forall element stack -> Z.of_nat (length stack) < 2 ^ 31 ->
  bounded (length stack) (evals sigversion stack script).
Proof. intros Hb He Hl. apply EvalScript_ok_gen; auto; lia. Qed.

Lemma EvalScript_decided sigversion stack script :
  Forall byte script -> Forall element stack -> Z.of_nat (length stack) < 2 ^ 31 -> decided (evals sigversion stack script).
Proof. intros Hb He Hl. pose proof (EvalScript_ok sigversion stack script Hb He Hl) as H. by destruct (evals _ _ _). Qed.

Lemma EvalScript_Val sigversion stack script s :
  Forall byte script -> Forall element stack -> (length stack <= 1000)%nat -> evals sigversion stack script = Val s ->
  Forall element s /\ (length s <= 1000)%nat.
Proof.
  intros Hb He Hl E. pose proof (EvalScript_ok sigversion stack script Hb He ltac:(lia)) as H. rewrite E in H.
  destruct H. split; [done|lia].
Qed.

Lemma push_data_bytes s data : Forall byte s -> Forall byte data -> Z.of_nat (length data) < 2 ^ 32 ->
  Forall byte (push_data s data).
Proof.
  intros Hs Hd Hl. unfold push_data. apply Forall_app_2; [done|]. apply Forall_app_2; [|done].
  unfold OP_PUSHDATA1, OP_PUSHDATA2, OP_PUSHDATA4.
  destruct (Z.ltb_spec (Z.of_nat (length data)) 0x4c); [repeat constructor; lia|].
  destruct (Z.leb_spec (Z.of_nat (length data)) 0xff); [repeat constructor; lia|].
  destruct (Z.leb_spec (Z.of_nat (length data)) 0xffff); (constructor; [unfold byte; lia|apply le_bytes_byte]).
Qed.

Lemma VerifyWitnessProgram_decided witness v program :
  Forall (Forall byte) witness -> Z.of_nat (length witness) < 2 ^ 31 -> Forall byte program ->
  decided (VerifyWitnessProgram RIPEMD160 SHA1 SHA256 CheckLowS checker flags witness v program).
Proof.
  intros Hw Hl Hp. unfold VerifyWitnessProgram. destruct (v =? 0); [|by case_match].
  apply decided_bind. { unfold witness_script. repeat (case_match; try done). }
  intros [script stack] E.
  assert (Forall byte script /\ Forall (Forall byte) stack /\ (length stack <= length witness)%nat) as (Hs & Hst & Hn).
  { revert E. unfold witness_script. destruct (length program =? 32)%nat.
    - destruct witness as [|w witness]; [done|]. case_match; [|done]. intros [= <- <-].
      apply Forall_cons in Hw as [??]. cbn. auto.
    - destruct (length program =? 20)%nat eqn:E20; [|done]. case_match; [|done]. intros E.
      assert (script = push_data [OP_DUP; OP_HASH160] program ++ [OP_EQUALVERIFY; OP_CHECKSIG] /\ stack = witness)
        as [-> ->] by (split; congruence).
      apply Nat.eqb_eq in E20. split; [|done]. apply Forall_app_2; [|repeat constructor; unfold OP_EQUALVERIFY, OP_CHECKSIG; lia].
      apply push_data_bytes; [|done|lia]. repeat constructor; unfold OP_DUP, OP_HASH160; lia. }
  destruct (forallb _ _) eqn:Ef; [|done].
  assert (Forall element stack) as He.
  { rewrite forallb_forall in Ef. apply Forall_forall. intros x Hx. split; [by apply (proj1 (Forall_forall _ _) Hst)|].
    apply Z.leb_le, Ef, list_elem_of_In, Hx. }
  apply decided_bind; [apply EvalScript_decided; [done|done|lia]|]. intros s _. repeat (case_match; try done).
Qed.

Lemma IsWitnessProgram_bytes s v p : Forall byte s -> IsWitnessProgram s = Some (v, p) -> Forall byte p.
Proof.
  intros Hs. unfold IsWitnessProgram. repeat (case_match; try done). intros [= _ <-]. by apply Forall_drop.
Qed.

Lemma check_witness_decided witness script ok e stack had :
  Forall (Forall byte) witness -> Z.of_nat (length witness) < 2 ^ 31 -> Forall byte script ->
  decided (check_witness RIPEMD160 SHA1 SHA256 CheckLowS checker flags witness script ok e stack had).
Proof.
  intros Hw Hl Hs. unfold check_witness. case_match; [|done].
  destruct (IsWitnessProgram script) as [[v p]|] eqn:E; [|done]. case_match; [|done].
  apply decided_bind; [|done]. apply VerifyWitnessProgram_decided; [done..|]. by eapply IsWitnessProgram_bytes.
Qed.

Lemma top_true_decided s : decided (top_true s).
Proof. unfold top_true. repeat (case_match; try done). Qed.

Lemma check_p2sh_decided witness scriptSig stackCopy had :
  Forall (Forall byte) witness -> Z.of_nat (length witness) < 2 ^ 31 ->
  Forall element stackCopy -> (length stackCopy <= 1000)%nat -> stackCopy <> [] ->
  decided (check_p2sh RIPEMD160 SHA1 SHA256 CheckLowS checker flags witness scriptSig stackCopy had).
Proof.
  intros Hw Hl Hc Hn Hne. unfold check_p2sh. case_match; [|done]. destruct stackCopy as [|x s]; [done|].
  apply Forall_cons in Hc as [Hx Hs]. cbn [length] in Hn.
  apply decided_bind; [apply EvalScript_decided; [apply Hx|done|lia]|]. intros s' _.
  apply decided_bind; [apply top_true_decided|]. intros _ _. apply check_witness_decided; [done..|apply Hx].
Qed.

Lemma VerifyScript_decided scriptSig scriptPubKey witness :
  flags_consistent flags -> Forall byte scriptSig -> Forall byte scriptPubKey ->
  Forall (Forall byte) witness -> Z.of_nat (length witness) < 2 ^ 31 ->
  decided (VerifyScript RIPEMD160 SHA1 SHA256 CheckLowS checker flags scriptSig scriptPubKey witness).
Proof.
  intros [Hc Hwp] Hsig Hpub Hw Hl. unfold VerifyScript. case_match; [done|].
  apply decided_bind; [apply EvalScript_decided; [done|done|cbn; lia]|]. intros copy Ecopy.
  destruct (EvalScript_Val _ _ _ _ Hsig (Forall_nil_2 _) ltac:(cbn; lia) Ecopy) as [He1 Hn1].
  apply decided_bind; [apply EvalScript_decided; [done|done|lia]|]. intros stack Estack.
  apply decided_bind; [apply top_true_decided|]. intros _ _.
  apply decided_bind; [by apply check_witness_decided|]. intros r _.
  apply decided_bind.
  { destruct (_ && IsPayToScriptHash scriptPubKey) eqn:Ep; [|done]. apply andb_true_iff in Ep as [_ Ep].
    apply check_p2sh_decided; [done..|]. intros ->. apply IsPayToScriptHash_shape in Ep as (h & -> & Hh).
    rewrite EvalScript_p2sh in Estack by (done || (cbn; lia)). done. }
  intros [s had] _. apply decided_bind.
  { destruct (flag_set flags SCRIPT_VERIFY_CLEANSTACK); [|done]. rewrite (Hwp (Hc eq_refl)), (Hc eq_refl). cbn.
    by case_match. }
  intros _ _. destruct (flag_set flags SCRIPT_VERIFY_WITNESS); [|done]. rewrite (Hwp eq_refl). cbn. by case_match.
Qed.

End verify_safety.

(** C8: Running a script of bytes, under any flags and on a stack of elements of at
    most 520 bytes, returns a stack or an error code: it never fails an
    assertion, overflows an integer, reads outside of the stack or runs on.  The
    elements of the stack stay within 520 bytes and their number within 1000 or
    what the stack had before, and the only exception caught is the one of
    script numbers.  Checking the two scripts of an input always gives a verdict
    under flags that the assertions of [VerifyScript] allow: CLEANSTACK and
    WITNESS only together with P2SH. *)
Theorem script_safe RIPEMD160 SHA1 SHA256 CheckLowS checker flags sigversion :
  HashLaws RIPEMD160 -> HashLaws SHA1 -> HashLaws SHA256 ->
  (forall stack script, Forall byte script -> Forall element stack -> Z.of_nat (length stack) < 2 ^ 31 ->
     bounded (length stack) (EvalScript RIPEMD160 SHA1 SHA256 CheckLowS checker flags sigversion stack script) /\
     forall x, eval_loop RIPEMD160 SHA1 SHA256 CheckLowS checker flags sigversion (length script) script
                 (mkEval stack [] [] 0 script) = Throw x -> x = scriptnum_error) /\
  (forall scriptSig scriptPubKey witness, flags_consistent flags -> Forall byte scriptSig -> Forall byte scriptPubKey ->
     Forall (Forall byte) witness -> Z.of_nat (length witness) < 2 ^ 31 ->
     decided (VerifyScript RIPEMD160 SHA1 SHA256 CheckLowS checker flags scriptSig scriptPubKey witness)).
Proof.
  intros H1 H2 H3. split.
  - intros stack script Hb He Hl. split; [by apply EvalScript_ok|]. intros x E.
    pose proof (eval_loop_safe RIPEMD160 SHA1 SHA256 CheckLowS checker flags sigversion (Nat.max 1000 (length stack))
      ltac:(lia) ltac:(lia) (length script) script (mkEval stack [] [] 0 script) Hb ltac:(lia)) as H.
    rewrite E in H. apply H. split; [by split|cbn; lia].
  - intros scriptSig scriptPubKey witness Hc Hsig Hpub Hw Hl. by apply VerifyScript_decided.
Qed.

(** ** The hash functions of the program *)

Lemma short_hash H n : (n <= 64)%nat -> (forall m, length (H m) = n /\ Forall byte (H m)) -> HashLaws H.
Proof.
  intros Hn Hh l _. destruct (Hh l) as [Hl Hb]. split; [done|]. unfold vsize, MAX_SCRIPT_ELEMENT_SIZE. lia.
Qed.

#[export] Instance SHA256_laws : HashLaws HashFunctions.SHA256.
Proof. apply (short_hash _ 32); [lia|apply Sha256.sha256_hash_bytes]. Qed.
#[export] Instance SHA1_laws : HashLaws HashFunctions.SHA1.
Proof. apply (short_hash _ 20); [lia|apply Sha1.sha1_hash_bytes]. Qed.
#[export] Instance RIPEMD160_laws : HashLaws HashFunctions.RIPEMD160.
Proof. apply (short_hash _ 20); [lia|apply Ripemd160.ripemd160_hash_bytes]. Qed.

(** The checker without a transaction ([BaseSignatureChecker] itself): it
    refuses every signature. *)
Definition base_checker : BaseSignatureChecker :=
  mkChecker (fun _ _ _ _ => false) (fun _ => false) (fun _ => false) false.

(** [2 + 3 = 5], and a script that reads a number of five bytes. *)
Lemma script_safe_witness :
  bounded 0 (EvalScript HashFunctions.RIPEMD160 HashFunctions.SHA1 HashFunctions.SHA256 (fun _ => true) base_checker
               SCRIPT_VERIFY_P2SH SIGVERSION_BASE [] [0x52; 0x53; OP_ADD; 0x55; OP_EQUAL]) /\
  decided (VerifyScript HashFunctions.RIPEMD160 HashFunctions.SHA1 HashFunctions.SHA256 (fun _ => true) base_checker
             SCRIPT_VERIFY_P2SH [5; 1; 1; 1; 1; 1] [OP_1NEGATE; OP_ADD] []).
Proof.
  destruct (script_safe HashFunctions.RIPEMD160 HashFunctions.SHA1 HashFunctions.SHA256 (fun _ => true) base_checker
    SCRIPT_VERIFY_P2SH SIGVERSION_BASE _ _ _) as [H1 H2]. split.
  - apply (H1 [] [0x52; 0x53; OP_ADD; 0x55; OP_EQUAL]); [|done|done]. repeat constructor; vm_compute; done.
  - apply H2; [by split|..|done|done]; repeat constructor; vm_compute; done.
Defined.
