(* ===== verification/Standard.v ===== *)
(** * Standard scripts and addresses ([script/standard.cpp], [pubkey.h])

    [Solver] recognises the forms of output scripts and takes the keys and
    hashes out of them, by shortcuts and by templates; [CScriptVisitor] writes
    the script of an address. *)
From S2P Require Import Prelude Bytes VoteScript Transaction TxCheck Script Interpreter InterpreterProps.

Inductive txnouttype :=
  | TX_NONSTANDARD
  | TX_PUBKEY | TX_PUBKEYHASH | TX_SCRIPTHASH | TX_MULTISIG | TX_NULL_DATA
  | TX_WITNESS_V0_SCRIPTHASH | TX_WITNESS_V0_KEYHASH
  | TX_CONTRIBUTION
  | TX_PROPOSALYESVOTE | TX_PAYMENTREQUESTYESVOTE | TX_PROPOSALNOVOTE | TX_PAYMENTREQUESTNOVOTE
  | TX_PROPOSALABSVOTE | TX_PAYMENTREQUESTABSVOTE | TX_PROPOSALREMOVEVOTE | TX_PAYMENTREQUESTREMOVEVOTE
  | TX_DAOSUPPORT | TX_DAOSUPPORTREMOVE
  | TX_CONSULTATIONVOTE | TX_CONSULTATIONVOTEREMOVE | TX_CONSULTATIONVOTEABSTENTION
  | TX_COLDSTAKING | TX_COLDSTAKING_V2 | TX_POOL.

#[export] Instance txnouttype_eq : EqDecision txnouttype.
Proof. solve_decision. Defined.

(** ** Templates *)

(** In the order of the multimap. *)
Definition mTemplates : list (txnouttype * CScript) :=
  [(TX_PUBKEY, [OP_PUBKEY; OP_CHECKSIG]);
   (TX_PUBKEYHASH, [OP_DUP; OP_HASH160; OP_PUBKEYHASH; OP_EQUALVERIFY; OP_CHECKSIG]);
   (TX_MULTISIG, [OP_SMALLINTEGER; OP_PUBKEYS; OP_SMALLINTEGER; OP_CHECKMULTISIG])].

(** The size of a public key. *)
Definition key_size (vch : valtype) : bool := (33 <=? length vch)%nat && (length vch <=? 65)%nat.

(** [while (vch1.size() >= 33 && vch1.size() <= 65)]: a failed read leaves an
    invalid opcode and no data. *)
Fixpoint take_keys (fuel : nat) (opcode1 : Z) (vch1 : valtype) (pc1 : CScript) (vSolutions : list valtype) :
    Z * valtype * CScript * list valtype :=
  if key_size vch1 then
    match fuel, GetOp pc1 with
    | S fuel, (pc1, Some (opcode1, vch1')) => take_keys fuel opcode1 vch1' pc1 (vSolutions ++ [vch1])
    | _, (pc1, _) => (OP_INVALIDOPCODE, [], pc1, vSolutions ++ [vch1])
    end
  else (opcode1, vch1, pc1, vSolutions).

Definition small_integer (opcode : Z) : bool := (opcode =? OP_0) || ((OP_1 <=? opcode) && (opcode <=? OP_16)).

(** What an instruction of the template other than [OP_PUBKEYS] accepts. *)
Definition match_op (opcode1 : Z) (vch1 : valtype) (opcode2 : Z) (vch2 : valtype) (vSolutions : list valtype) :
    option (list valtype) :=
  if opcode2 =? OP_PUBKEY then if key_size vch1 then Some (vSolutions ++ [vch1]) else None
  else if opcode2 =? OP_PUBKEYHASH then if (length vch1 =? 20)%nat then Some (vSolutions ++ [vch1]) else None
  else if opcode2 =? OP_SMALLINTEGER then
    if small_integer opcode1 then Some (vSolutions ++ [[DecodeOP_N opcode1]]) else None
  else if (opcode1 =? opcode2) && bool_decide (vch1 = vch2) then Some vSolutions
  else None.

(** The comparison with a template; [None] is a [break]. *)
Fixpoint match_loop (fuel : nat) (pc1 pc2 : CScript) (vSolutions : list valtype) : option (list valtype) :=
  match pc1, pc2 with
  | [], [] => Some vSolutions
  | _, _ =>
    match fuel with
    | O => None
    | S fuel =>
      match GetOp pc1, GetOp pc2 with
      | (pc1, Some (opcode1, vch1)), (pc2, Some (opcode2, vch2)) =>
        if opcode2 =? OP_PUBKEYS then
          let '(opcode1, vch1, pc1, vSolutions) := take_keys (length pc1) opcode1 vch1 pc1 vSolutions in
          match GetOp pc2 with
          | (pc2, Some (opcode2, vch2)) =>
            do vSolutions <- match_op opcode1 vch1 opcode2 vch2 vSolutions; match_loop fuel pc1 pc2 vSolutions
          | (_, None) => None
          end
        else do vSolutions <- match_op opcode1 vch1 opcode2 vch2 vSolutions; match_loop fuel pc1 pc2 vSolutions
      | _, _ => None
      end
    end
  end.

(** The result, [typeRet] unless it is not assigned, and [vSolutionsRet]. *)
Record Solved := mkSolved { sv_ok : bool; sv_type : option txnouttype; sv_solutions : list valtype }.

(** The additional checks of a multisig script. *)
Definition multisig_ok (vSolutions : list valtype) : bool :=
  let m := byte_at (default [] (head vSolutions)) 0 in
  let n := byte_at (default [] (last vSolutions)) 0 in
  negb ((m <? 1) || (n <? 1) || (n <? m) || negb (Z.of_nat (length vSolutions) - 2 =? n)).

Fixpoint match_templates (script : CScript) (templates : list (txnouttype * CScript)) : Solved :=
  match templates with
  | [] => mkSolved false (Some TX_NONSTANDARD) []
  | (type, template) :: templates =>
    match match_loop (S (length template)) script template [] with
    | Some vSolutions =>
      mkSolved (if bool_decide (type = TX_MULTISIG) then multisig_ok vSolutions else true) (Some type) vSolutions
    | None => match_templates script templates
    end
  end.

(** ** Solver *)

Definition vote_type (s : CScript) : option txnouttype :=
  if IsProposalVoteYes s then Some TX_PROPOSALYESVOTE
  else if IsProposalVoteNo s then Some TX_PROPOSALNOVOTE
  else if IsProposalVoteAbs s then Some TX_PROPOSALABSVOTE
  else if IsProposalVoteRemove s then Some TX_PROPOSALREMOVEVOTE
  else if IsPaymentRequestVoteYes s then Some TX_PAYMENTREQUESTYESVOTE
  else if IsPaymentRequestVoteNo s then Some TX_PAYMENTREQUESTNOVOTE
  else if IsPaymentRequestVoteAbs s then Some TX_PAYMENTREQUESTABSVOTE
  else if IsPaymentRequestVoteRemove s then Some TX_PAYMENTREQUESTREMOVEVOTE
  else None.

Definition zero_key : valtype := replicate 20 0.

Definition Solver (s : CScript) : Solved :=
  if IsPayToScriptHash s then mkSolved true (Some TX_SCRIPTHASH) [sub s 2 22]
  else if IsColdStaking s && (54 <=? length s)%nat then
    mkSolved true (Some TX_COLDSTAKING)
      [if HasColdStakingP2PKHStaking s then sub s 5 25 else zero_key;
       if HasColdStakingP2PKHSpending s then sub s 31 51 else zero_key]
  else if IsColdStakingv2 s && (length s =? 76)%nat then
    mkSolved true (Some TX_COLDSTAKING_V2)
      [if HasColdStakingv2P2PKHStaking s then sub s 27 47 else zero_key;
       if HasColdStakingv2P2PKHSpending s then sub s 53 73 else zero_key;
       sub s 1 21]
  else if IsCommunityFundContribution s then mkSolved true (Some TX_CONTRIBUTION) []
  else if IsProposalVote s || IsPaymentRequestVote s then mkSolved true (vote_type s) [sub s 5 37]
  else if IsSupportVote s then
    mkSolved true (if IsSupportVoteYes s then Some TX_DAOSUPPORT else if IsSupportVoteRemove s then Some TX_DAOSUPPORTREMOVE else None)
      [sub s 4 36]
  else if IsConsultationVote s then
    mkSolved true
      (if IsConsultationVoteAnswer s then Some TX_CONSULTATIONVOTE
       else if IsConsultationVoteAbstention s then Some TX_CONSULTATIONVOTEABSTENTION
       else if IsConsultationVoteRemove s then Some TX_CONSULTATIONVOTEREMOVE else None)
      (sub s 4 36 :: (if (36 <? length s)%nat then [drop 37 s] else []))
  else if IsPool s then mkSolved true (Some TX_POOL) []
  else match IsWitnessProgram s with
  | Some (witnessversion, witnessprogram) =>
    if (witnessversion =? 0) && (length witnessprogram =? 20)%nat then
      mkSolved true (Some TX_WITNESS_V0_KEYHASH) [witnessprogram]
    else if (witnessversion =? 0) && (length witnessprogram =? 32)%nat then
      mkSolved true (Some TX_WITNESS_V0_SCRIPTHASH) [witnessprogram]
    else mkSolved false None []
  | None =>
    if (1 <=? length s)%nat && (byte_at s 0 =? OP_RETURN) && IsPushOnly (drop 1 s) then mkSolved true (Some TX_NULL_DATA) []
    else match_templates s mTemplates
  end.

(** ** Addresses *)

Inductive CTxDestination :=
  | CNoDestination
  | CKeyID (hash : list Z)
  | CScriptID (hash : list Z)
  | ColdStaking (staking spending : list Z)
  | blsctDoublePublicKey (keys : list Z)
  | ColdStakingV2 (staking spending voting : list Z)
  | DestScript (script : CScript).

(** [CPubKey(vch)] is valid ([GetLen], [Set], [IsValid]). *)
Definition GetLen (chHeader : Z) : nat :=
  if (chHeader =? 2) || (chHeader =? 3) then 33
  else if (chHeader =? 4) || (chHeader =? 6) || (chHeader =? 7) then 65
  else 0.

Definition pubkey_valid (vch : valtype) : bool :=
  match vch with [] => false | h :: _ => (0 <? GetLen h)%nat && (GetLen h =? length vch)%nat end.

(** [uint160(vch)]; [None] is the failure of its assertion. *)
Definition uint160_of (vch : valtype) : option (list Z) := if (length vch =? 20)%nat then Some vch else None.

Section address.
Context (Hash160 : list Z -> list Z).

(** [None] is a failed assertion or an element that is missing; the value is
    [addressRet] when the result is [true]. *)
Definition ExtractDestination (s : CScript) : option (option CTxDestination) :=
  let r := Solver s in
  if negb (sv_ok r) then Some None
  else match sv_type r with
  | Some TX_PUBKEY =>
    do key <- sv_solutions r !! 0%nat;
    Some (if pubkey_valid key then Some (CKeyID (Hash160 key)) else None)
  | Some TX_PUBKEYHASH => do h <- sv_solutions r !! 0%nat; do h <- uint160_of h; Some (Some (CKeyID h))
  | Some TX_SCRIPTHASH => do h <- sv_solutions r !! 0%nat; do h <- uint160_of h; Some (Some (CScriptID h))
  | Some TX_COLDSTAKING =>
    do a <- sv_solutions r !! 0%nat; do a <- uint160_of a;
    do b <- sv_solutions r !! 1%nat; do b <- uint160_of b; Some (Some (ColdStaking a b))
  | Some TX_COLDSTAKING_V2 =>
    do a <- sv_solutions r !! 0%nat; do a <- uint160_of a;
    do b <- sv_solutions r !! 1%nat; do b <- uint160_of b;
    do c <- sv_solutions r !! 2%nat; do c <- uint160_of c; Some (Some (ColdStakingV2 a b c))
  | Some _ => Some None
  | None => None
  end.

End address.

(** [CScriptVisitor] through [GetScriptForDestination]. *)
Definition GetScriptForDestination (dest : CTxDestination) : CScript :=
  match dest with
  | CNoDestination => []
  | CKeyID hash => script_for_key hash
  | CScriptID hash => script_for_script hash
  | ColdStaking staking spending => script_for_cold_staking staking spending
  | blsctDoublePublicKey _ => [OP_1]
  | ColdStakingV2 staking spending voting => script_for_cold_staking_v2 staking spending voting
  | DestScript script => script
  end.

Definition GetScriptForRawPubKey (pubKey : valtype) : CScript := push_data [] pubKey ++ [OP_CHECKSIG].

(** [None] is the assertion of [EncodeOP_N]. *)
Definition EncodeOP_N (n : Z) : option Z :=
  if (0 <=? n) && (n <=? 16) then Some (if n =? 0 then OP_0 else OP_1 + n - 1) else None.

Definition GetScriptForMultisig (nRequired : Z) (keys : list valtype) : option CScript :=
  do m <- EncodeOP_N nRequired;
  do n <- EncodeOP_N (Z.of_nat (length keys));
  Some (foldl push_data [m] keys ++ [n; OP_CHECKMULTISIG]).

(** ** Facts *)

Lemma GetOp_code opcode rest : OP_PUSHDATA4 < opcode -> GetOp (opcode :: rest) = (rest, Some (opcode, [])).
Proof. intros H. cbn [GetOp]. by rewrite (proj2 (Z.leb_gt _ _)). Qed.

(** One instruction of a template. *)
Lemma match_loop_step fuel pc1 opcode pc2 vs :
  OP_PUSHDATA4 < opcode -> opcode <> OP_PUBKEYS ->
  match_loop (S fuel) pc1 (opcode :: pc2) vs =
  match GetOp pc1 with
  | (pc1, Some (opcode1, vch1)) => do vs <- match_op opcode1 vch1 opcode [] vs; match_loop fuel pc1 pc2 vs
  | _ => None
  end.
Proof.
  intros H1 H2. cbn [match_loop]. rewrite GetOp_code by done.
  destruct pc1; destruct (GetOp _) as [? [[]|]]; try done; by rewrite (proj2 (Z.eqb_neq _ _)).
Qed.

Lemma match_loop_step_keys fuel pc1 opcode pc2 vs :
  OP_PUSHDATA4 < opcode ->
  match_loop (S fuel) pc1 (OP_PUBKEYS :: opcode :: pc2) vs =
  match GetOp pc1 with
  | (pc1, Some (opcode1, vch1)) =>
    let '(opcode1, vch1, pc1, vs) := take_keys (length pc1) opcode1 vch1 pc1 vs in
    do vs <- match_op opcode1 vch1 opcode [] vs; match_loop fuel pc1 pc2 vs
  | _ => None
  end.
Proof.
  intros H1. cbn [match_loop]. rewrite (GetOp_code OP_PUBKEYS) by done. rewrite GetOp_code by done.
  destruct pc1; destruct (GetOp _) as [? [[]|]]; try done; change (OP_PUBKEYS =? OP_PUBKEYS) with true; cbv iota;
    by destruct (take_keys _ _ _ _ _) as [[[??]?]?].
Qed.

Lemma match_loop_cons fuel pc1 opcode pc2 vSolutions r :
  OP_PUSHDATA4 < opcode -> opcode <> OP_PUBKEYS ->
  match_loop (S fuel) pc1 (opcode :: pc2) vSolutions = Some r ->
  exists pc1' opcode1 vch1 vSolutions', GetOp pc1 = (pc1', Some (opcode1, vch1)) /\
    match_op opcode1 vch1 opcode [] vSolutions = Some vSolutions' /\ match_loop fuel pc1' pc2 vSolutions' = Some r.
Proof.
  intros H1 H2. rewrite match_loop_step by done. destruct (GetOp pc1) as [pc1' [[opcode1 vch1]|]]; [|done].
  intros (vs & Em & E)%bind_Some. by exists pc1', opcode1, vch1, vs.
Qed.

Lemma match_loop_keys fuel pc1 opcode pc2 vSolutions r :
  OP_PUSHDATA4 < opcode -> match_loop (S fuel) pc1 (OP_PUBKEYS :: opcode :: pc2) vSolutions = Some r ->
  exists pc0 op0 v0 pc1' opcode1 vch1 keys vSolutions', GetOp pc1 = (pc0, Some (op0, v0)) /\
    take_keys (length pc0) op0 v0 pc0 vSolutions = (opcode1, vch1, pc1', keys) /\
    match_op opcode1 vch1 opcode [] keys = Some vSolutions' /\ match_loop fuel pc1' pc2 vSolutions' = Some r.
Proof.
  intros H1. rewrite match_loop_step_keys by done. destruct (GetOp pc1) as [pc0 [[op0 v0]|]]; [|done].
  destruct (take_keys _ _ _ _ _) as [[[opcode1 vch1] pc1'] keys] eqn:Ek. intros (vs & Em & E)%bind_Some.
  by exists pc0, op0, v0, pc1', opcode1, vch1, keys, vs.
Qed.

Lemma match_loop_end fuel pc1 vSolutions r : match_loop fuel pc1 [] vSolutions = Some r -> pc1 = [] /\ r = vSolutions.
Proof. destruct pc1 as [|o pc1]; [destruct fuel; by intros [= ->]|]. destruct fuel; [done|]. cbn [match_loop]. by destruct (GetOp (o :: pc1)) as [? [[]|]]. Qed.

Lemma take_keys_spec fuel op v pc vs op' v' pc' vs' :
  take_keys fuel op v pc vs = (op', v', pc', vs') -> exists keys, vs' = vs ++ keys /\ Forall (fun k => key_size k = true) keys.
Proof.
  revert op v pc vs; induction fuel as [|fuel IH]; intros op v pc vs E; cbn [take_keys] in E; destruct (key_size v) eqn:Ev.
  - destruct (GetOp pc) as [pc1 r]. injection E as _ _ _ <-. exists [v]. split; [done|]. by constructor.
  - injection E as _ _ _ <-. exists []. by rewrite app_nil_r.
  - destruct (GetOp pc) as [pc1 [[op1 v1]|]].
    + apply IH in E as (keys & -> & Hk). exists (v :: keys). rewrite <- app_assoc. split; [done|]. by constructor.
    + injection E as _ _ _ <-. exists [v]. split; [done|]. by constructor.
  - injection E as _ _ _ <-. exists []. by rewrite app_nil_r.
Qed.

Lemma small_integer_range opcode : small_integer opcode = true -> 0 <= DecodeOP_N opcode <= 16.
Proof.
  unfold small_integer, DecodeOP_N, OP_0, OP_1, OP_16. intros [H%Z.eqb_eq|(H1%Z.leb_le & H2%Z.leb_le)%andb_prop]%orb_prop.
  - subst. cbn. lia.
  - case_match; lia.
Qed.

(** The shape of the solutions of each type. *)
Definition solved_shape (type : txnouttype) (vs : list valtype) : Prop :=
  match type with
  | TX_NONSTANDARD => False
  | TX_PUBKEY => exists key, vs = [key] /\ key_size key = true
  | TX_PUBKEYHASH | TX_SCRIPTHASH | TX_WITNESS_V0_KEYHASH => exists h, vs = [h] /\ length h = 20%nat
  | TX_WITNESS_V0_SCRIPTHASH => exists h, vs = [h] /\ length h = 32%nat
  | TX_MULTISIG => exists m keys, vs = [[m]] ++ keys ++ [[Z.of_nat (length keys)]] /\
      1 <= m <= Z.of_nat (length keys) /\ Z.of_nat (length keys) <= 16 /\ Forall (fun k => key_size k = true) keys
  | TX_COLDSTAKING => exists a b, vs = [a; b] /\ length a = 20%nat /\ length b = 20%nat
  | TX_COLDSTAKING_V2 => exists a b c, vs = [a; b; c] /\ length a = 20%nat /\ length b = 20%nat /\ length c = 20%nat
  | TX_NULL_DATA | TX_CONTRIBUTION | TX_POOL => vs = []
  | TX_CONSULTATIONVOTE => exists h v, vs = h :: v /\ length h = 32%nat /\ (length v <= 1)%nat
  | _ => exists h, vs = [h] /\ length h = 32%nat
  end.

Lemma templates_shape s :
  sv_ok (match_templates s mTemplates) = true ->
  exists type, sv_type (match_templates s mTemplates) = Some type /\ solved_shape type (sv_solutions (match_templates s mTemplates)).
Proof.
  unfold mTemplates. cbn [match_templates length].
  destruct (match_loop 3 s _ []) as [vs|] eqn:E1.
  { intros _. exists TX_PUBKEY. split; [done|]. cbn [sv_solutions solved_shape].
    apply match_loop_cons in E1 as (pc & op & v & vs1 & _ & Em & E1); [|done|done]. unfold match_op in Em. cbn in Em.
    destruct (key_size v) eqn:Ek; [|done]. injection Em as <-.
    apply match_loop_cons in E1 as (pc' & op' & v' & vs' & _ & Em & E1); [|done|done]. unfold match_op in Em. cbn in Em.
    destruct (_ && _); [|done]. injection Em as <-. apply match_loop_end in E1 as [_ ->]. by exists v. }
  destruct (match_loop 6 s _ []) as [vs|] eqn:E2.
  { intros _. exists TX_PUBKEYHASH. split; [done|]. cbn [sv_solutions solved_shape].
    do 2 (apply match_loop_cons in E2 as (? & ? & ? & ? & _ & Em & E2); [|done|done]; unfold match_op in Em; cbn in Em;
      destruct (_ && _); [|done]; injection Em as <-).
    apply match_loop_cons in E2 as (? & ? & v & ? & _ & Em & E2); [|done|done]. unfold match_op in Em. cbn in Em.
    destruct (Nat.eqb_spec (length v) 20) as [Hl|]; [|done]. injection Em as <-.
    do 2 (apply match_loop_cons in E2 as (? & ? & ? & ? & _ & Em & E2); [|done|done]; unfold match_op in Em; cbn in Em;
      destruct (_ && _); [|done]; injection Em as <-).
    apply match_loop_end in E2 as [_ ->]. by exists v. }
  destruct (match_loop 5 s _ []) as [vs|] eqn:E3; [|done]. cbn [sv_ok sv_type sv_solutions]. rewrite bool_decide_true by done.
  intros Hok. exists TX_MULTISIG. split; [done|]. cbn [solved_shape].
  apply match_loop_cons in E3 as (? & op1 & ? & ? & _ & Em & E3); [|done|done]. unfold match_op in Em. cbn in Em.
  destruct (small_integer op1) eqn:S1; [|done]. injection Em as <-. apply small_integer_range in S1.
  apply match_loop_keys in E3 as (? & ? & ? & ? & op2 & ? & keys & ? & _ & Ek & Em & E3); [|done].
  apply take_keys_spec in Ek as (ks & -> & Hks). unfold match_op in Em. cbn in Em.
  destruct (small_integer op2) eqn:S2; [|done]. injection Em as <-. apply small_integer_range in S2.
  apply match_loop_cons in E3 as (? & ? & ? & ? & _ & Em & E3); [|done|done]. unfold match_op in Em. cbn in Em.
  destruct (_ && _); [|done]. injection Em as <-. apply match_loop_end in E3 as [_ ->].
  unfold multisig_ok in Hok. cbn [head app] in Hok. rewrite app_comm_cons, last_snoc in Hok.
  change (byte_at (default [] (Some [DecodeOP_N op2])) 0) with (DecodeOP_N op2) in Hok.
  change (byte_at (default [] (Some [DecodeOP_N op1])) 0) with (DecodeOP_N op1) in Hok.
  apply negb_true_iff in Hok. apply orb_false_iff in Hok as [Hok H4]. apply orb_false_iff in Hok as [Hok H3].
  apply orb_false_iff in Hok as [H1 H2]. apply negb_false_iff, Z.eqb_eq in H4.
  apply Z.ltb_ge in H1, H2, H3. cbn [length] in H4. rewrite length_app in H4. cbn [length] in H4.
  exists (DecodeOP_N op1), ks. assert (DecodeOP_N op2 = Z.of_nat (length ks)) as E by lia. rewrite E in *.
  split; [done|]. split; [lia|]. split; [lia|done].
Qed.

Lemma sized_length n s prefix : sized n s prefix = true -> length s = n.
Proof. unfold sized. intros [H _]%andb_prop. by apply Nat.eqb_eq in H. Qed.

Lemma sub_size (s : CScript) a b : (b <= length s)%nat -> length (sub s a b) = (b - a)%nat.
Proof. intros H. unfold sub. rewrite length_take, length_drop. lia. Qed.

Lemma key_or_zero (b : bool) (l : valtype) : length l = 20%nat -> length (if b then l else zero_key) = 20%nat.
Proof. by destruct b. Qed.

Lemma vote_shape s : IsProposalVote s || IsPaymentRequestVote s = true ->
  length s = 37%nat /\ exists type, vote_type s = Some type /\ solved_shape type [sub s 5 37].
Proof.
  intros Hv. assert (length s = 37%nat) as Hl.
  { unfold IsProposalVote, IsPaymentRequestVote in Hv. rewrite !orb_true_iff in Hv.
    destruct_or?; eapply sized_length; done. }
  split; [done|]. assert (length (sub s 5 37) = 32%nat) as H32 by (apply sub_size; lia).
  unfold vote_type. unfold IsProposalVote, IsPaymentRequestVote in Hv.
  repeat (case_match; [by eexists; split; [done|]; exists (sub s 5 37)|]). done.
Qed.

Lemma Solver_shape s :
  sv_ok (Solver s) = true -> exists type, sv_type (Solver s) = Some type /\ solved_shape type (sv_solutions (Solver s)).
Proof.
  unfold Solver. destruct (IsPayToScriptHash s) eqn:E1.
  { intros _. eexists; split; [done|]. eexists; split; [done|]. unfold IsPayToScriptHash in E1.
    rewrite !andb_true_iff, Nat.eqb_eq in E1. apply sub_size. lia. }
  destruct (IsColdStaking s && _) eqn:E2.
  { intros _. apply andb_prop in E2 as [_ H%Nat.leb_le]. eexists; split; [done|]. eexists _, _. split; [done|].
    split; apply key_or_zero; apply sub_size; lia. }
  destruct (IsColdStakingv2 s && _) eqn:E3.
  { intros _. apply andb_prop in E3 as [_ H%Nat.eqb_eq]. eexists; split; [done|]. eexists _, _, _. split; [done|].
    split; [apply key_or_zero; apply sub_size; lia|]. split; [apply key_or_zero; apply sub_size; lia|]. apply sub_size. lia. }
  destruct (IsCommunityFundContribution s); [by eexists|]. destruct (IsProposalVote s || IsPaymentRequestVote s) eqn:E4.
  { intros _. destruct (vote_shape s E4) as (_ & type & Ht & Hs). by exists type. }
  destruct (IsSupportVote s) eqn:E5.
  { intros _. unfold IsSupportVote in E5. cbn [sv_type sv_solutions]. destruct (IsSupportVoteYes s) eqn:E6.
    - eexists; split; [done|]. eexists; split; [done|]. apply sub_size. apply sized_length in E6. lia.
    - cbn [orb] in E5. rewrite E5. eexists; split; [done|]. eexists; split; [done|]. apply sub_size. apply sized_length in E5. lia. }
  destruct (IsConsultationVote s) eqn:E7.
  { intros _. cbn [sv_type sv_solutions]. unfold IsConsultationVote in E7. destruct (IsConsultationVoteAnswer s) eqn:E8.
    - eexists; split; [done|]. unfold IsConsultationVoteAnswer in E8. apply andb_prop in E8 as [H%Nat.leb_le _].
      eexists _, _. split; [done|]. split; [apply sub_size; lia|]. destruct (_ <? _)%nat; cbn; lia.
    - cbn [orb] in E7. destruct (IsConsultationVoteAbstention s) eqn:E9.
      + pose proof (sized_length _ _ _ E9) as Hl. rewrite Hl. eexists; split; [done|]. eexists; split; [done|]. apply sub_size. lia.
      + cbn [orb] in E7. rewrite E7. pose proof (sized_length _ _ _ E7) as Hl. rewrite Hl.
        eexists; split; [done|]. eexists; split; [done|]. apply sub_size. lia. }
  destruct (IsPool s); [by eexists|]. destruct (IsWitnessProgram s) as [[v p]|].
  { destruct ((v =? 0) && (length p =? 20)%nat) eqn:E8.
    { intros _. apply andb_prop in E8 as [_ H%Nat.eqb_eq]. eexists; split; [done|]. by eexists. }
    destruct ((v =? 0) && (length p =? 32)%nat) eqn:E9; [|done].
    intros _. apply andb_prop in E9 as [_ H%Nat.eqb_eq]. eexists; split; [done|]. by eexists. }
  destruct (_ && IsPushOnly _); [by eexists|]. apply templates_shape.
Qed.

Section address_facts.
Context (Hash160 : list Z -> list Z).

Lemma uint160_of_20 h : length h = 20%nat -> uint160_of h = Some h.
Proof. intros H. unfold uint160_of. by rewrite H. Qed.

Lemma ExtractDestination_total s : is_Some (ExtractDestination Hash160 s).
Proof.
  unfold ExtractDestination. destruct (sv_ok (Solver s)) eqn:Eok; cbn [negb]; [|by eexists].
  destruct (Solver_shape s Eok) as (type & -> & Hs).
  destruct type; cbn [solved_shape] in Hs; try (by eexists); destruct_and?.
  all: repeat match goal with H : exists _, _ |- _ => destruct H end; destruct_and?.
  all: match goal with H : sv_solutions _ = _ |- _ => rewrite H end.
  all: cbn [lookup list_lookup mbind option_bind]; rewrite ?uint160_of_20 by done; by eexists.
Qed.

(** Keys have one of the two sizes of [CPubKey]. *)
Definition valid_destination (d : CTxDestination) : Prop :=
  match d with
  | CKeyID h | CScriptID h => length h = 20%nat
  | ColdStaking a b => length a = 20%nat /\ length b = 20%nat
  | ColdStakingV2 a b c => length a = 20%nat /\ length b = 20%nat /\ length c = 20%nat
  | _ => False
  end.

Ltac twenty l H := do 20 (destruct l as [|? l]; [discriminate H|]); destruct l; [|discriminate H].

Lemma destination_read_back d :
  valid_destination d -> ExtractDestination Hash160 (GetScriptForDestination d) = Some (Some d).
Proof.
  destruct d as [|h|h|a b|k|a b c|s]; cbn [valid_destination]; try done; cbn [GetScriptForDestination].
  - intros H. unfold script_for_key. rewrite push_data_short, H by lia. twenty h H. by vm_compute.
  - intros H. unfold script_for_script. rewrite push_data_short, H by lia. twenty h H. by vm_compute.
  - intros [Ha Hb]. unfold script_for_cold_staking. rewrite (push_data_short _ a), Ha by lia.
    rewrite push_data_short, Hb by lia. twenty a Ha. twenty b Hb. by vm_compute.
  - intros (Ha & Hb & Hc). unfold script_for_cold_staking_v2. rewrite (push_data_short [] c), Hc by lia.
    rewrite (push_data_short _ a), Ha by lia. rewrite (push_data_short _ b), Hb by lia.
    twenty a Ha. twenty b Hb. twenty c Hc. by vm_compute.
Qed.

End address_facts.

(** ** Scripts of keys *)

Lemma key_size_spec k : key_size k = true <-> (33 <= length k <= 65)%nat.
Proof. unfold key_size. rewrite andb_true_iff, !Nat.leb_le. done. Qed.

Lemma pushes_shape keys s :
  Forall (fun k => key_size k = true) keys ->
  foldl push_data s keys = s ++ flat_map (fun k => Z.of_nat (length k) :: k) keys.
Proof.
  intros H. revert s; induction H as [|k keys Hk _ IH]; intros s; cbn [foldl flat_map]; [by rewrite app_nil_r|].
  apply key_size_spec in Hk. rewrite push_data_short by lia. rewrite IH, <- app_assoc. done.
Qed.

Lemma pushes_length (keys : list (list Z)) : (length keys <= length (flat_map (fun k : list Z => Z.of_nat (length k) :: k) keys))%nat.
Proof. induction keys as [|k keys IH]; cbn [length flat_map app]; [done|]. rewrite length_app. lia. Qed.

Lemma take_keys_pushes keys fuel k opcode n rest vs :
  Forall (fun k => key_size k = true) (k :: keys) -> OP_PUSHDATA4 < n ->
  (length keys < fuel)%nat ->
  take_keys fuel opcode k (flat_map (fun k => Z.of_nat (length k) :: k) keys ++ n :: rest) vs =
  (n, [], rest, vs ++ k :: keys).
Proof.
  intros H Hn. revert fuel k opcode vs H; induction keys as [|k' keys IH]; intros fuel k opcode vs H Hf.
  - apply Forall_cons in H as [Hk _]. destruct fuel as [|fuel]; [cbn in Hf; lia|]. cbn [take_keys flat_map app].
    rewrite Hk, GetOp_code by done. destruct fuel; done.
  - apply Forall_cons in H as [Hk H]. destruct fuel as [|fuel]; [cbn in Hf; lia|]. cbn [take_keys]. rewrite Hk.
    assert (flat_map (fun k => Z.of_nat (length k) :: k) (k' :: keys) ++ n :: rest =
      Z.of_nat (length k') :: k' ++ flat_map (fun k => Z.of_nat (length k) :: k) keys ++ n :: rest) as ->
      by (cbn [flat_map app]; by rewrite <- app_assoc).
    pose proof (proj1 (Forall_cons _ _ _) H) as [Hk' _]. apply key_size_spec in Hk'.
    rewrite GetOp_push by lia. rewrite IH by (done || cbn in Hf; lia). by rewrite <- app_assoc.
Qed.

(** The shortcuts do not apply to a script that begins with a small integer or
    the push of a public key. *)
Lemma Solver_templates s :
  match s with
  | o :: s' =>
    o <> OP_HASH160 /\ o <> OP_COINSTAKE /\ o <> OP_RETURN /\ o <> 0x14 /\
    ((o <> OP_0 /\ (o < OP_1 \/ OP_16 < o)) \/ byte_at s 1 + 2 <> Z.of_nat (length s))
  | [] => False
  end -> Solver s = match_templates s mTemplates.
Proof.
  destruct s as [|o s]; [done|]. intros (H1 & H2 & H3 & H4 & H5).
  assert (byte_at (o :: s) 0 = o) as E0 by done.
  assert (forall p, has_prefix (o :: s) (OP_RETURN :: p) = false) as Hpre.
  { intros p. unfold has_prefix. cbn [length seq zip zip_with forallb fst snd]. by rewrite E0, (proj2 (Z.eqb_neq _ _) H3). }
  assert (forall n p, sized n (o :: s) (OP_RETURN :: p) = false) as Hret.
  { intros n p. unfold sized. by rewrite Hpre, andb_false_r. }
  assert (IsConsultationVoteAnswer (o :: s) = false) as Hans by (unfold IsConsultationVoteAnswer; by rewrite Hpre, andb_false_r).
  unfold Solver, IsPayToScriptHash, IsColdStaking, IsColdStakingv2.
  rewrite !E0, (proj2 (Z.eqb_neq _ _) H1), (proj2 (Z.eqb_neq _ _) H2), (proj2 (Z.eqb_neq _ _) H4), !andb_false_r. cbn [andb].
  unfold IsCommunityFundContribution, IsProposalVote, IsPaymentRequestVote, IsSupportVote, IsConsultationVote, IsPool.
  unfold IsProposalVoteYes, IsProposalVoteNo, IsProposalVoteAbs, IsProposalVoteRemove, IsPaymentRequestVoteYes, IsPaymentRequestVoteNo,
    IsPaymentRequestVoteAbs, IsPaymentRequestVoteRemove, IsSupportVoteYes, IsSupportVoteRemove, IsConsultationVoteAbstention,
    IsConsultationVoteRemove. rewrite !Hret, Hans. cbn [orb].
  rewrite (proj2 (Z.eqb_neq _ _) H3), !andb_false_r. cbn [andb].
  assert (IsWitnessProgram (o :: s) = None) as ->; [|done]. unfold IsWitnessProgram. rewrite E0. destruct (_ || _); [done|].
  destruct H5 as [[H5 H6]|H5].
  - rewrite (proj2 (Z.eqb_neq _ _) H5). cbn [negb andb].
    destruct (Z.ltb_spec o OP_1), (Z.ltb_spec OP_16 o); try done. lia.
  - destruct (_ && _); [done|]. by rewrite (proj2 (Z.eqb_neq _ _) H5).
Qed.

Lemma Solver_raw_key key : key_size key = true -> Solver (GetScriptForRawPubKey key) = mkSolved true (Some TX_PUBKEY) [key].
Proof.
  intros Hk. pose proof (proj1 (key_size_spec _) Hk) as Hl. unfold GetScriptForRawPubKey. rewrite push_data_short by lia. cbn [app].
  rewrite Solver_templates.
  - unfold mTemplates. cbn [match_templates length].
    assert (match_loop 3 (Z.of_nat (length key) :: key ++ [OP_CHECKSIG]) [OP_PUBKEY; OP_CHECKSIG] [] = Some [key]) as ->; [|done].
    cbn [match_loop]. rewrite GetOp_push by lia. cbn. unfold match_op. cbn. rewrite Hk. done.
  - unfold OP_HASH160, OP_COINSTAKE, OP_RETURN, OP_0, OP_1, OP_16. lia.
Qed.

Lemma small_integer_op n : 1 <= n <= 16 -> exists o, EncodeOP_N n = Some o /\ small_integer o = true /\ DecodeOP_N o = n /\ OP_1 <= o <= OP_16.
Proof.
  intros H. unfold EncodeOP_N. rewrite (proj2 (Z.leb_le 0 n)), (proj2 (Z.leb_le n 16)) by lia. cbn [andb].
  rewrite (proj2 (Z.eqb_neq n 0)) by lia. eexists; split; [done|]. unfold small_integer, DecodeOP_N, OP_0, OP_1, OP_16.
  rewrite (proj2 (Z.eqb_neq _ _)), (proj2 (Z.leb_le _ _)), (proj2 (Z.leb_le _ _)) by lia. split; [done|]. lia.
Qed.

Lemma Solver_multisig m keys :
  1 <= m <= Z.of_nat (length keys) -> Z.of_nat (length keys) <= 16 -> Forall (fun k => key_size k = true) keys ->
  exists s, GetScriptForMultisig m keys = Some s /\
    Solver s = mkSolved true (Some TX_MULTISIG) ([[m]] ++ keys ++ [[Z.of_nat (length keys)]]).
Proof.
  intros Hm Hn Hk. destruct (small_integer_op m ltac:(lia)) as (om & Em & Sm & Dm & Rm).
  destruct (small_integer_op (Z.of_nat (length keys)) ltac:(lia)) as (on & En & Sn & Dn & Rn).
  unfold GetScriptForMultisig. rewrite Em, En. cbn [mbind option_bind]. eexists; split; [done|].
  rewrite pushes_shape by done. destruct keys as [|k keys]; [cbn in Hm; lia|].
  pose proof (proj1 (Forall_cons _ _ _) Hk) as [Hk1 _]. apply key_size_spec in Hk1.
  set (tail := flat_map (fun k => Z.of_nat (length k) :: k) keys).
  assert (([om] ++ flat_map (fun k => Z.of_nat (length k) :: k) (k :: keys)) ++ [on; OP_CHECKMULTISIG] =
    om :: Z.of_nat (length k) :: k ++ tail ++ on :: [OP_CHECKMULTISIG]) as ->
    by (cbn [flat_map app]; fold tail; by rewrite <- !app_assoc).
  assert (OP_PUSHDATA4 < om /\ OP_PUSHDATA4 < on) as [Ho1 Ho2] by (unfold OP_PUSHDATA4, OP_1, OP_16 in *; lia).
  rewrite Solver_templates.
  2: { unfold OP_HASH160, OP_COINSTAKE, OP_RETURN, OP_0, OP_1, OP_16 in *. split_and!; try lia. right.
       change (byte_at _ 1) with (Z.of_nat (length k)). cbn [length]. rewrite !length_app. cbn [length]. lia. }
  unfold mTemplates. cbn [match_templates length]. set (s := om :: _).
  assert (GetOp s = (Z.of_nat (length k) :: k ++ tail ++ on :: [OP_CHECKMULTISIG], Some (om, []))) as Es by (by apply GetOp_code).
  assert (match_loop 3 s [OP_PUBKEY; OP_CHECKSIG] [] = None) as ->.
  { unfold s in *. cbn [match_loop]. rewrite Es. done. }
  assert (match_loop 6 s [OP_DUP; OP_HASH160; OP_PUBKEYHASH; OP_EQUALVERIFY; OP_CHECKSIG] [] = None) as ->.
  { unfold s in *. cbn [match_loop]. rewrite Es. change (GetOp (OP_DUP :: _)) with
      ([OP_HASH160; OP_PUBKEYHASH; OP_EQUALVERIFY; OP_CHECKSIG], Some (OP_DUP, [] : list Z)). cbv iota beta. unfold match_op. cbn -[Z.eqb].
    rewrite (proj2 (Z.eqb_neq om OP_DUP)) by (unfold OP_1, OP_16, OP_DUP in *; lia). done. }
  assert (match_loop 5 s [OP_SMALLINTEGER; OP_PUBKEYS; OP_SMALLINTEGER; OP_CHECKMULTISIG] [] =
    Some ([[m]] ++ (k :: keys) ++ [[Z.of_nat (length (k :: keys))]])) as ->.
  2: { rewrite bool_decide_true by done. f_equal. unfold multisig_ok. cbn [head app]. rewrite app_comm_cons, app_comm_cons, last_snoc.
       change (byte_at (default [] (Some [Z.of_nat (length (k :: keys))])) 0) with (Z.of_nat (length (k :: keys))).
       change (byte_at (default [] (Some [m])) 0) with m. rewrite length_app. cbn [length] in *.
       rewrite !(proj2 (Z.ltb_ge _ _)), (proj2 (Z.eqb_eq _ _)) by lia. done. }
  rewrite match_loop_step, Es by done.
  assert (match_op om [] OP_SMALLINTEGER [] [] = Some [[m]]) as -> by (unfold match_op; cbn; by rewrite Sm, Dm).
  cbn [mbind option_bind]. rewrite match_loop_step_keys, GetOp_push by (done || lia). unfold tail.
  rewrite take_keys_pushes by (done || rewrite length_app; cbn; assert (length keys <= length (flat_map (fun k : list Z => Z.of_nat (length k) :: k) keys))%nat by (apply pushes_length); lia).
  cbn beta iota zeta.
  assert (match_op on [] OP_SMALLINTEGER [] ([[m]] ++ k :: keys) = Some (([[m]] ++ k :: keys) ++ [[Z.of_nat (length (k :: keys))]])) as ->
    by (unfold match_op; cbn -[Z.of_nat length]; by rewrite Sn, Dn).
  cbn [mbind option_bind]. rewrite match_loop_step, GetOp_code by done. by cbn.
Qed.

(** C23: [Solver] is sound for every script: when it recognises one, the type is
    set and the solutions have the number and the sizes of that type, so that
    [ExtractDestination] never indexes past them and never fails the assertion
    of [uint160]; a multisig script has between one and sixteen keys of the
    size of a key, and asks for at least one and at most all of them. *)
Theorem solver_types Hash160 s :
  (sv_ok (Solver s) = true ->
   exists type, sv_type (Solver s) = Some type /\ solved_shape type (sv_solutions (Solver s))) /\
  is_Some (ExtractDestination Hash160 s).
Proof. split; [apply Solver_shape|apply ExtractDestination_total]. Qed.

Lemma solver_types_witness :
  exists m keys, sv_solutions (Solver ([OP_1; 33] ++ replicate 33 2 ++ [33] ++ replicate 33 3 ++ [OP_1 + 1; OP_CHECKMULTISIG])) =
    [[m]] ++ keys ++ [[Z.of_nat (length keys)]] /\ 1 <= m <= Z.of_nat (length keys).
Proof.
  destruct (proj1 (solver_types id ([OP_1; 33] ++ replicate 33 2 ++ [33] ++ replicate 33 3 ++ [OP_1 + 1; OP_CHECKMULTISIG])) ltac:(vm_compute; reflexivity))
    as (type & Et & Hs). assert (type = TX_MULTISIG) as -> by (vm_compute in Et; congruence).
  destruct Hs as (m & keys & E & Hm & _). exists m, keys. split; [exact E|exact Hm].
Defined.

(** Addresses survive their scripts: the script written for a key hash, a
    script hash or a cold staking contract of either version is read back as
    the same address; the script of a public key is read as that key and its
    address, and the script of [m] of [n] keys as its number and its keys, for
    every [m] up to [n] and [n] up to 16. *)
Theorem address_roundtrip Hash160 d key m keys :
  valid_destination d -> pubkey_valid key = true ->
  1 <= m <= Z.of_nat (length keys) -> Z.of_nat (length keys) <= 16 -> Forall (fun k => pubkey_valid k = true) keys ->
  ExtractDestination Hash160 (GetScriptForDestination d) = Some (Some d) /\
  Solver (GetScriptForRawPubKey key) = mkSolved true (Some TX_PUBKEY) [key] /\
  ExtractDestination Hash160 (GetScriptForRawPubKey key) = Some (Some (CKeyID (Hash160 key))) /\
  exists s, GetScriptForMultisig m keys = Some s /\
    Solver s = mkSolved true (Some TX_MULTISIG) ([[m]] ++ keys ++ [[Z.of_nat (length keys)]]).
Proof.
  intros Hd Hkey Hm Hn Hkeys.
  assert (forall k, pubkey_valid k = true -> key_size k = true) as Hsize.
  { intros [|h k]; [done|]. unfold pubkey_valid, GetLen. intros (H1%Nat.ltb_lt & H2%Nat.eqb_eq)%andb_prop. apply key_size_spec.
    rewrite <- H2 in *. repeat case_match; lia. }
  split; [by apply destination_read_back|]. pose proof (Solver_raw_key key (Hsize _ Hkey)) as E. split; [done|].
  split; [unfold ExtractDestination; rewrite E; cbn; by rewrite Hkey|].
  apply Solver_multisig; [done|done|]. eapply Forall_impl; [exact Hkeys|exact Hsize].
Qed.

Lemma address_roundtrip_witness :
  ExtractDestination id (GetScriptForDestination (ColdStakingV2 (replicate 20 1) (replicate 20 2) (replicate 20 3))) =
    Some (Some (ColdStakingV2 (replicate 20 1) (replicate 20 2) (replicate 20 3))) /\
  exists s, GetScriptForMultisig 1 [2 :: replicate 32 9; 3 :: replicate 32 8] = Some s /\ sv_type (Solver s) = Some TX_MULTISIG.
Proof.
  destruct (address_roundtrip id (ColdStakingV2 (replicate 20 1) (replicate 20 2) (replicate 20 3)) (2 :: replicate 32 9) 1
    [2 :: replicate 32 9; 3 :: replicate 32 8]) as (H1 & _ & _ & s & H2 & H3).
  - done.
  - reflexivity.
  - cbn. lia.
  - cbn. lia.
  - repeat constructor.
  - split; [exact H1|]. exists s. split; [exact H2|]. by rewrite H3.
Defined.
