(* ===== verification/Bloom.v ===== *)
(** * Bloom filters ([bloom.h], [bloom.cpp])

    [CBloomFilter] of the peers that ask for filtered blocks, and
    [CRollingBloomFilter], which forgets what was inserted long ago.  The
    number of hash functions and the size, which the constructors compute with
    logarithms, are arguments of the models of the constructors, and so is the
    random tweak. *)
From S2P Require Import Prelude Bytes SipHash VoteScript Transaction TxCheck Script Standard.

(** ** [CBloomFilter] *)

Definition MAX_BLOOM_FILTER_SIZE : Z := 36000.
Definition MAX_HASH_FUNCS : Z := 50.
Definition BLOOM_UPDATE_ALL : Z := 1.
Definition BLOOM_UPDATE_P2PUBKEY_ONLY : Z := 2.
Definition BLOOM_UPDATE_MASK : Z := 3.

Record CBloomFilter := mkBloom {
  bf_vData : list Z;
  bf_isFull : bool;
  bf_isEmpty : bool;
  bf_nHashFuncs : Z;
  bf_nTweak : Z;
  bf_nFlags : Z
}.

Definition with_data (f : CBloomFilter) (vData : list Z) (isEmpty : bool) : CBloomFilter :=
  mkBloom vData (bf_isFull f) isEmpty (bf_nHashFuncs f) (bf_nTweak f) (bf_nFlags f).

(** [None] is a division by zero. *)
Definition bloom_Hash (f : CBloomFilter) (nHashNum : Z) (vDataToHash : list Z) : option Z :=
  let bits := Z.of_nat (length (bf_vData f)) * 8 in
  if bits =? 0 then None
  else Some (MurmurHash3 (u32 (nHashNum * 0xFBA4C795 + bf_nTweak f)) vDataToHash mod bits).

Definition set_bit (vData : list Z) (nIndex : Z) : list Z :=
  alter (fun b => Z.lor b (Z.shiftl 1 (Z.land 7 nIndex))) (Z.to_nat (Z.shiftr nIndex 3)) vData.

Definition get_bit (vData : list Z) (nIndex : Z) : bool :=
  flag_set (nth (Z.to_nat (Z.shiftr nIndex 3)) vData 0) (Z.shiftl 1 (Z.land 7 nIndex)).

(** The loop over the hash functions, from [i] on. *)
Fixpoint insert_loop (n : nat) (i : Z) (vKey : list Z) (f : CBloomFilter) : option CBloomFilter :=
  match n with
  | O => Some f
  | S n =>
    do nIndex <- bloom_Hash f i vKey;
    insert_loop n (i + 1) vKey (with_data f (set_bit (bf_vData f) nIndex) (bf_isEmpty f))
  end.

Definition bloom_insert (f : CBloomFilter) (vKey : list Z) : option CBloomFilter :=
  if bf_isFull f then Some f
  else do f <- insert_loop (Z.to_nat (bf_nHashFuncs f)) 0 vKey f; Some (with_data f (bf_vData f) false).

Fixpoint contains_loop (n : nat) (i : Z) (vKey : list Z) (f : CBloomFilter) : option bool :=
  match n with
  | O => Some true
  | S n =>
    do nIndex <- bloom_Hash f i vKey;
    if get_bit (bf_vData f) nIndex then contains_loop n (i + 1) vKey f else Some false
  end.

Definition bloom_contains (f : CBloomFilter) (vKey : list Z) : option bool :=
  if bf_isFull f then Some true
  else if bf_isEmpty f then Some false
  else contains_loop (Z.to_nat (bf_nHashFuncs f)) 0 vKey f.

Definition bloom_clear (f : CBloomFilter) : CBloomFilter :=
  mkBloom (replicate (length (bf_vData f)) 0) false true (bf_nHashFuncs f) (bf_nTweak f) (bf_nFlags f).

Definition bloom_reset (f : CBloomFilter) (nNewTweak : Z) : CBloomFilter :=
  mkBloom (replicate (length (bf_vData f)) 0) false true (bf_nHashFuncs f) nNewTweak (bf_nFlags f).

Definition IsWithinSizeConstraints (f : CBloomFilter) : bool :=
  (Z.of_nat (length (bf_vData f)) <=? MAX_BLOOM_FILTER_SIZE) && (bf_nHashFuncs f <=? MAX_HASH_FUNCS).

Definition UpdateEmptyFull (f : CBloomFilter) : CBloomFilter :=
  mkBloom (bf_vData f) (forallb (Z.eqb 0xff) (bf_vData f)) (forallb (Z.eqb 0) (bf_vData f))
    (bf_nHashFuncs f) (bf_nTweak f) (bf_nFlags f).

(** Whether a matched output is added to the filter. *)
Definition updates_filter (f : CBloomFilter) (s : CScript) : bool :=
  let mode := Z.land (bf_nFlags f) BLOOM_UPDATE_MASK in
  if mode =? BLOOM_UPDATE_ALL then true
  else if mode =? BLOOM_UPDATE_P2PUBKEY_ONLY then
    let r := Solver s in sv_ok r && (bool_decide (sv_type r = Some TX_PUBKEY) || bool_decide (sv_type r = Some TX_MULTISIG))
  else false.

(** The loop over the data of a script: whether an element matches. *)
Fixpoint script_matches (fuel : nat) (f : CBloomFilter) (pc : CScript) : option bool :=
  match fuel, pc with
  | S fuel, _ :: _ =>
    match GetOp pc with
    | (_, None) => Some false
    | (pc, Some (_, data)) =>
      do b <- (if is_empty data then Some false else bloom_contains f data);
      if (b : bool) then Some true else script_matches fuel f pc
    end
  | _, _ => Some false
  end.

(** The loop over the outputs: [fFound] and the filter it leaves. *)
Fixpoint match_outputs (i : Z) (hash : uint256) (outs : list TxOut) (fFound : bool) (f : CBloomFilter) :
    option (bool * CBloomFilter) :=
  match outs with
  | [] => Some (fFound, f)
  | o :: outs =>
    let s := scriptPubKey (out_plain o) in
    do b <- script_matches (length s) f s;
    do f <- (if (b : bool) && updates_filter f s then bloom_insert f (outpoint_bytes (mkCOutPoint hash i)) else Some f);
    match_outputs (i + 1) hash outs (fFound || b) f
  end.

Fixpoint match_inputs (f : CBloomFilter) (vin : list CTxIn) : option bool :=
  match vin with
  | [] => Some false
  | txin :: vin =>
    do b <- bloom_contains f (outpoint_bytes (in_prevout txin));
    if (b : bool) then Some true
    else
      do b <- script_matches (length (in_scriptSig txin)) f (in_scriptSig txin);
      if (b : bool) then Some true else match_inputs f vin
  end.

Definition IsRelevantAndUpdate (f : CBloomFilter) (tx : CheckedTx) : option (bool * CBloomFilter) :=
  if bf_isFull f then Some (true, f)
  else if bf_isEmpty f then Some (false, f)
  else
    do fFound <- bloom_contains f (uint256_bytes (ck_hash tx));
    do '(fFound, f) <- match_outputs 0 (ck_hash tx) (ck_vout tx) fFound f;
    if (fFound : bool) then Some (true, f) else do b <- match_inputs f (ck_vin tx); Some (b, f).

(** ** [CRollingBloomFilter] *)

Record CRollingBloomFilter := mkRolling {
  nEntriesPerGeneration : Z;
  nEntriesThisGeneration : Z;
  nGeneration : Z;
  rb_data : list Z;
  rb_nTweak : Z;
  rb_nHashFuncs : nat
}.

(** The constructor, with what it computes from the rate of false positives. *)
Definition CRollingBloomFilter_new (nElements : Z) (nHashFuncs : nat) (nFilterBits nTweak : Z) : CRollingBloomFilter :=
  mkRolling (u32 (nElements + 1) / 2) 0 1
    (replicate (Z.to_nat (Z.shiftl (u32 (nFilterBits + 63) / 64) 1)) 0) nTweak nHashFuncs.

Definition RollingBloomHash (nHashNum nTweak : Z) (vDataToHash : list Z) : Z :=
  MurmurHash3 (u32 (nHashNum * 0xFBA4C795 + nTweak)) vDataToHash.

(** Entries of an old generation are wiped, two words at a time. *)
Fixpoint wipe (mask1 mask2 : Z) (data : list Z) : list Z :=
  match data with
  | p1 :: p2 :: data =>
    let mask := Z.lor (Z.lxor p1 mask1) (Z.lxor p2 mask2) in
    Z.land p1 mask :: Z.land p2 mask :: wipe mask1 mask2 data
  | _ => data
  end.

Definition new_generation (r : CRollingBloomFilter) : CRollingBloomFilter :=
  let g := if nGeneration r + 1 =? 4 then 1 else nGeneration r + 1 in
  mkRolling (nEntriesPerGeneration r) 0 g
    (wipe (u64 (- Z.land g 1)) (u64 (- Z.shiftr g 1)) (rb_data r)) (rb_nTweak r) (rb_nHashFuncs r).

(** [pos & ~1] and [pos | 1]. *)
Definition even_pos (pos : Z) : nat := Z.to_nat (Z.ldiff pos 1).
Definition odd_pos (pos : Z) : nat := Z.to_nat (Z.lor pos 1).

Definition bit_of (h : Z) : Z := Z.land h 0x3F.
Definition pos_of (data : list Z) (h : Z) : Z := Z.shiftr h 6 mod Z.of_nat (length data).

Definition write_bit (x bit v : Z) : Z := Z.lor (Z.ldiff x (Z.shiftl 1 bit)) (Z.shiftl v bit).

Fixpoint rolling_loop (n : nat) (i g nTweak : Z) (vKey : list Z) (data : list Z) : list Z :=
  match n with
  | O => data
  | S n =>
    let h := RollingBloomHash i nTweak vKey in
    let pos := pos_of data h in
    let data := alter (fun x => write_bit x (bit_of h) (Z.land g 1)) (even_pos pos) data in
    let data := alter (fun x => write_bit x (bit_of h) (Z.shiftr g 1)) (odd_pos pos) data in
    rolling_loop n (i + 1) g nTweak vKey data
  end.

Definition rolling_insert (r : CRollingBloomFilter) (vKey : list Z) : CRollingBloomFilter :=
  let r := if nEntriesThisGeneration r =? nEntriesPerGeneration r then new_generation r else r in
  mkRolling (nEntriesPerGeneration r) (nEntriesThisGeneration r + 1) (nGeneration r)
    (rolling_loop (rb_nHashFuncs r) 0 (nGeneration r) (rb_nTweak r) vKey (rb_data r)) (rb_nTweak r) (rb_nHashFuncs r).

Fixpoint rolling_contains_loop (n : nat) (i nTweak : Z) (vKey : list Z) (data : list Z) : bool :=
  match n with
  | O => true
  | S n =>
    let h := RollingBloomHash i nTweak vKey in
    let pos := pos_of data h in
    if negb (flag_set (Z.shiftr (Z.lor (nth (even_pos pos) data 0) (nth (odd_pos pos) data 0)) (bit_of h)) 1) then false
    else rolling_contains_loop n (i + 1) nTweak vKey data
  end.

Definition rolling_contains (r : CRollingBloomFilter) (vKey : list Z) : bool :=
  rolling_contains_loop (rb_nHashFuncs r) 0 (rb_nTweak r) vKey (rb_data r).

Definition rolling_reset (r : CRollingBloomFilter) (nTweak : Z) : CRollingBloomFilter :=
  mkRolling (nEntriesPerGeneration r) 0 1 (replicate (length (rb_data r)) 0) nTweak (rb_nHashFuncs r).

(** ** Bits *)

Lemma bit_index nIndex : 0 <= nIndex -> Z.land 7 nIndex = nIndex mod 8 /\ Z.shiftr nIndex 3 = nIndex / 8.
Proof. intros H. split; [rewrite Z.land_comm; by apply (Z.land_ones _ 3)|by rewrite Z.shiftr_div_pow2]. Qed.

Lemma get_bit_testbit d i : 0 <= i -> get_bit d i = Z.testbit (nth (Z.to_nat (i / 8)) d 0) (i mod 8).
Proof.
  intros H. unfold get_bit. destruct (bit_index i H) as [-> ->]. apply flag_testbit. apply Z.mod_pos_bound. lia.
Qed.

Lemma nth_alter (f : Z -> Z) i j d : nth i (alter f j d) 0 = if bool_decide (i = j /\ (i < length d)%nat) then f (nth i d 0) else nth i d 0.
Proof.
  rewrite !nth_lookup. destruct (decide (i = j)) as [->|Hne].
  - rewrite list_lookup_alter_eq. case_bool_decide as H.
    + destruct (lookup_lt_is_Some_2 d j) as [x Hx]; [tauto|]. by rewrite Hx.
    + rewrite lookup_ge_None_2; [done|]. lia.
  - rewrite list_lookup_alter_ne by done. rewrite bool_decide_eq_false_2; [done|]. tauto.
Qed.

Lemma get_set_bit d i j :
  0 <= i -> 0 <= j -> get_bit (set_bit d i) j = get_bit d j || bool_decide (i = j /\ j < 8 * Z.of_nat (length d)).
Proof.
  intros Hi Hj. rewrite !get_bit_testbit by done. unfold set_bit. destruct (bit_index i Hi) as [-> ->]. rewrite nth_alter.
  pose proof (Z.div_mod i 8 ltac:(lia)). pose proof (Z.div_mod j 8 ltac:(lia)).
  pose proof (Z.mod_pos_bound i 8 ltac:(lia)). pose proof (Z.mod_pos_bound j 8 ltac:(lia)).
  pose proof (Z.div_pos i 8 Hi ltac:(lia)). pose proof (Z.div_pos j 8 Hj ltac:(lia)).
  case_bool_decide as H5.
  - rewrite Z.lor_spec, shift_one by lia. f_equal. apply bool_decide_ext. lia.
  - rewrite bool_decide_eq_false_2; [by rewrite orb_false_r|]. intros [-> Hlt]. apply H5. lia.
Qed.

(** ** A filter that holds more *)

Record fewer (f g : CBloomFilter) : Prop := {
  fewer_full : bf_isFull g = bf_isFull f;
  fewer_funcs : bf_nHashFuncs g = bf_nHashFuncs f;
  fewer_tweak : bf_nTweak g = bf_nTweak f;
  fewer_flags : bf_nFlags g = bf_nFlags f;
  fewer_size : length (bf_vData g) = length (bf_vData f);
  fewer_empty : bf_isEmpty f = false -> bf_isEmpty g = false;
  fewer_bits i : 0 <= i -> get_bit (bf_vData f) i = true -> get_bit (bf_vData g) i = true
}.

#[export] Instance fewer_preorder : PreOrder fewer.
Proof.
  split; [by split|]. intros f g h [] []. split; try congruence; auto.
Qed.

(** No division by zero. *)
Definition usable (f : CBloomFilter) : Prop := bf_isFull f = true \/ bf_vData f <> [].

Lemma usable_fewer f g : fewer f g -> usable f -> usable g.
Proof.
  intros Hfg [H|H]; [left; by rewrite (fewer_full _ _ Hfg)|]. right. intros E. apply H. apply length_zero_iff_nil.
  rewrite <- (fewer_size _ _ Hfg). by rewrite E.
Qed.

Lemma murmur_nonneg seed data : 0 <= MurmurHash3 seed data.
Proof.
  unfold MurmurHash3. cbv zeta. apply Z.lxor_nonneg. set (x := u32 _). assert (0 <= x) by apply u32_range.
  split; intros _; [by apply Z.shiftr_nonneg|done].
Qed.

Lemma bloom_Hash_range f i key idx :
  bloom_Hash f i key = Some idx -> 0 <= idx < 8 * Z.of_nat (length (bf_vData f)).
Proof.
  unfold bloom_Hash. case_match eqn:E; [done|]. apply Z.eqb_neq in E. intros [= <-].
  pose proof (Z.mod_pos_bound (MurmurHash3 (u32 (i * 0xFBA4C795 + bf_nTweak f)) key) (Z.of_nat (length (bf_vData f)) * 8)). lia.
Qed.

Lemma bloom_Hash_fewer f g i key : fewer f g -> bloom_Hash g i key = bloom_Hash f i key.
Proof. intros H. unfold bloom_Hash. by rewrite (fewer_size _ _ H), (fewer_tweak _ _ H). Qed.

Lemma bloom_Hash_some f i key : bf_vData f <> [] -> is_Some (bloom_Hash f i key).
Proof.
  intros H. unfold bloom_Hash. rewrite (proj2 (Z.eqb_neq _ _)); [by eexists|]. destruct (bf_vData f); [done|cbn; lia].
Qed.

Lemma contains_loop_fewer f g n i key :
  fewer f g -> contains_loop n i key f = Some true -> contains_loop n i key g = Some true.
Proof.
  intros H. revert i; induction n as [|n IH]; intros i; cbn [contains_loop]; [done|].
  rewrite (bloom_Hash_fewer f g) by done. intros (idx & E & Hb)%bind_Some. rewrite E. cbn [mbind option_bind].
  destruct (get_bit (bf_vData f) idx) eqn:Eb; [|done]. apply bloom_Hash_range in E.
  rewrite (fewer_bits _ _ H) by (done || lia). auto.
Qed.

Lemma contains_fewer f g key : fewer f g -> bloom_contains f key = Some true -> bloom_contains g key = Some true.
Proof.
  intros H. unfold bloom_contains. rewrite (fewer_full _ _ H). destruct (bf_isFull f); [done|].
  destruct (bf_isEmpty f) eqn:E; [done|]. rewrite (fewer_empty _ _ H E), (fewer_funcs _ _ H). by apply contains_loop_fewer.
Qed.

Lemma contains_total f key : usable f -> is_Some (bloom_contains f key).
Proof.
  intros Hu. unfold bloom_contains. destruct Hu as [->|Hd]; [by eexists|]. destruct (bf_isFull f), (bf_isEmpty f); try by eexists.
  generalize 0. generalize (Z.to_nat (bf_nHashFuncs f)) as n. induction n as [|n IH]; intros i; cbn [contains_loop]; [by eexists|].
  destruct (bloom_Hash_some f i key Hd) as [idx ->]. cbn [mbind option_bind]. destruct (get_bit _ _); [apply IH|by eexists].
Qed.

Lemma set_bit_fewer f idx : 0 <= idx -> fewer f (with_data f (set_bit (bf_vData f) idx) (bf_isEmpty f)).
Proof.
  intros Hi. split; try done.
  - apply length_alter.
  - intros j Hj Hb. cbn [with_data bf_vData]. rewrite get_set_bit by done. by rewrite Hb.
Qed.

Lemma insert_loop_spec n i key f :
  bf_vData f <> [] ->
  exists g, insert_loop n i key f = Some g /\ fewer f g /\ contains_loop n i key g = Some true.
Proof.
  revert i f; induction n as [|n IH]; intros i f Hd; cbn [insert_loop]; [by exists f|].
  destruct (bloom_Hash_some f i key Hd) as [idx E]. rewrite E. cbn [mbind option_bind].
  pose proof (bloom_Hash_range _ _ _ _ E) as Hr.
  pose proof (set_bit_fewer f idx ltac:(lia)) as H1. destruct (IH (i + 1) _ ltac:(intros E0; apply Hd, length_zero_iff_nil;
    rewrite <- (fewer_size _ _ H1); by rewrite E0)) as (g & Eg & H2 & Hc).
  exists g. split; [done|]. split; [by etrans|]. cbn [contains_loop].
  rewrite (bloom_Hash_fewer f g) by (by etrans). rewrite E. cbn [mbind option_bind].
  rewrite (fewer_bits _ _ H2); [done|lia|]. cbn [with_data bf_vData]. rewrite get_set_bit by lia.
  rewrite bool_decide_eq_true_2; [by rewrite orb_true_r|]. lia.
Qed.

Lemma insert_spec f key :
  usable f -> exists g, bloom_insert f key = Some g /\ fewer f g /\ bloom_contains g key = Some true.
Proof.
  intros Hu. unfold bloom_insert. destruct (bf_isFull f) eqn:Ef.
  { exists f. split; [done|]. split; [done|]. unfold bloom_contains. by rewrite Ef. }
  destruct Hu as [|Hd]; [congruence|]. destruct (insert_loop_spec (Z.to_nat (bf_nHashFuncs f)) 0 key f Hd) as (g & -> & H & Hc).
  cbn [mbind option_bind]. assert (fewer g (with_data g (bf_vData g) false)) as Hg by (by split).
  eexists. split; [done|]. split; [by etrans|]. unfold bloom_contains. cbn [with_data bf_isFull bf_isEmpty bf_nHashFuncs].
  rewrite (fewer_full _ _ H), Ef, (fewer_funcs _ _ H). by apply (contains_loop_fewer g).
Qed.

Lemma script_matches_total fuel f pc : usable f -> is_Some (script_matches fuel f pc).
Proof.
  intros Hu. revert pc; induction fuel as [|fuel IH]; intros pc; cbn [script_matches]; [by eexists|].
  destruct pc as [|o pc]; [by eexists|]. destruct (GetOp (o :: pc)) as [pc' [[op data]|]]; [|by eexists].
  destruct (is_empty data); cbn [mbind option_bind]; [apply IH|]. destruct (contains_total f data Hu) as [b ->].
  cbn [mbind option_bind]. destruct b; [by eexists|apply IH].
Qed.

Lemma match_outputs_spec outs i hash b f :
  usable f -> exists b' g, match_outputs i hash outs b f = Some (b', g) /\ fewer f g /\ (b = true -> b' = true).
Proof.
  revert i b f; induction outs as [|o outs IH]; intros i b f Hu; cbn [match_outputs]; [by exists b, f|].
  destruct (script_matches_total (length (scriptPubKey (out_plain o))) f (scriptPubKey (out_plain o)) Hu) as [m ->].
  cbn [mbind option_bind]. destruct (m && updates_filter f _).
  - destruct (insert_spec f (outpoint_bytes (mkCOutPoint hash i)) Hu) as (g & -> & Hg & _). cbn [mbind option_bind].
    destruct (IH (i + 1) (b || m) g (usable_fewer _ _ Hg Hu)) as (b' & h & -> & Hh & Hb). exists b', h.
    split; [done|]. split; [by etrans|]. intros ->. by apply Hb.
  - cbn [mbind option_bind]. destruct (IH (i + 1) (b || m) f Hu) as (b' & h & -> & Hh & Hb). exists b', h.
    split; [done|]. split; [done|]. intros ->. by apply Hb.
Qed.

Lemma match_inputs_total f vin : usable f -> is_Some (match_inputs f vin).
Proof.
  intros Hu. induction vin as [|txin vin IH]; cbn [match_inputs]; [by eexists|].
  destruct (contains_total f (outpoint_bytes (in_prevout txin)) Hu) as [b ->]. cbn [mbind option_bind]. destruct b; [by eexists|].
  destruct (script_matches_total (length (in_scriptSig txin)) f (in_scriptSig txin) Hu) as [m ->]. cbn [mbind option_bind].
  by destruct m; [eexists|].
Qed.

Lemma relevant_total f tx : usable f -> exists b g, IsRelevantAndUpdate f tx = Some (b, g) /\ fewer f g.
Proof.
  intros Hu. unfold IsRelevantAndUpdate. destruct (bf_isFull f); [by eexists _, _|]. destruct (bf_isEmpty f); [by eexists _, _|].
  destruct (contains_total f (uint256_bytes (ck_hash tx)) Hu) as [b ->]. cbn [mbind option_bind].
  destruct (match_outputs_spec (ck_vout tx) 0 (ck_hash tx) b f Hu) as (b' & g & -> & Hg & _). cbn [mbind option_bind].
  destruct b'; [by eexists _, _|]. destruct (match_inputs_total g (ck_vin tx) (usable_fewer _ _ Hg Hu)) as [m ->]. by eexists _, _.
Qed.

(** ** What a transaction shows to a filter *)

(** The data a script pushes, up to its first malformed operation. *)
Fixpoint pushed_data (fuel : nat) (pc : CScript) : list (list Z) :=
  match fuel, pc with
  | S fuel, _ :: _ =>
    match GetOp pc with
    | (_, None) => []
    | (pc, Some (_, data)) => data :: pushed_data fuel pc
    end
  | _, _ => []
  end.

Definition script_data (s : CScript) : list (list Z) := pushed_data (length s) s.

(** [key] is the hash of the transaction, an outpoint it spends, or some data
    that one of its scripts pushes. *)
Definition shows (tx : CheckedTx) (key : list Z) : Prop :=
  key = uint256_bytes (ck_hash tx) \/
  (exists o, o ∈ ck_vout tx /\ key <> [] /\ key ∈ script_data (scriptPubKey (out_plain o))) \/
  (exists txin, txin ∈ ck_vin tx /\
     (key = outpoint_bytes (in_prevout txin) \/ key <> [] /\ key ∈ script_data (in_scriptSig txin))).

Lemma script_matches_data f s key :
  usable f -> bloom_contains f key = Some true -> key <> [] -> key ∈ script_data s ->
  script_matches (length s) f s = Some true.
Proof.
  intros Hu Hc Hk. unfold script_data. generalize (length s) as fuel. intros fuel.
  revert s; induction fuel as [|fuel IH]; intros s; cbn [pushed_data script_matches]; [by intros ?%not_elem_of_nil|].
  destruct s as [|o s]; [by intros ?%not_elem_of_nil|]. destruct (GetOp (o :: s)) as [pc [[op data]|]]; [|by intros ?%not_elem_of_nil].
  intros [->|Hin]%elem_of_cons.
  - destruct data as [|x data]; [done|]. cbn [is_empty]. rewrite Hc. done.
  - destruct (is_empty data); cbn [mbind option_bind]; [auto|]. destruct (contains_total f data Hu) as [b ->].
    cbn [mbind option_bind]. destruct b; auto.
Qed.

Lemma match_outputs_hit outs i hash b f n o key :
  usable f -> bloom_contains f key = Some true -> outs !! n = Some o ->
  key <> [] -> key ∈ script_data (scriptPubKey (out_plain o)) ->
  exists g, match_outputs i hash outs b f = Some (true, g) /\ fewer f g /\
    (Z.land (bf_nFlags f) BLOOM_UPDATE_MASK = BLOOM_UPDATE_ALL ->
     bloom_contains g (outpoint_bytes (mkCOutPoint hash (i + Z.of_nat n))) = Some true).
Proof.
  intros Hu Hc Hn Hk Hin. revert i b f n Hu Hc Hn; induction outs as [|o' outs IH]; intros i b f n Hu Hc Hn; [done|].
  cbn [match_outputs]. destruct n as [|n]; cbn in Hn.
  - injection Hn as ->. rewrite (script_matches_data f _ key) by done. cbn [mbind option_bind andb]. rewrite orb_true_r.
    destruct (updates_filter f _) eqn:Eu.
    + destruct (insert_spec f (outpoint_bytes (mkCOutPoint hash i)) Hu) as (g & -> & Hg & Hgc). cbn [mbind option_bind].
      destruct (match_outputs_spec outs (i + 1) hash true g (usable_fewer _ _ Hg Hu)) as (b' & h & -> & Hh & Hb).
      rewrite Hb by done. exists h. split; [done|]. split; [by etrans|]. intros _. rewrite Z.add_0_r. by apply (contains_fewer g).
    + cbn [mbind option_bind]. destruct (match_outputs_spec outs (i + 1) hash true f Hu) as (b' & h & -> & Hh & Hb).
      rewrite Hb by done. exists h. split; [done|]. split; [done|]. intros Hall. unfold updates_filter in Eu. by rewrite Hall in Eu.
  - destruct (script_matches_total (length (scriptPubKey (out_plain o'))) f (scriptPubKey (out_plain o')) Hu) as [m ->].
    cbn [mbind option_bind].
    assert (exists g, (if m && updates_filter f (scriptPubKey (out_plain o'))
      then bloom_insert f (outpoint_bytes (mkCOutPoint hash i)) else Some f) = Some g /\ fewer f g) as (g & -> & Hg).
    { destruct (m && _); [|by exists f]. destruct (insert_spec f (outpoint_bytes (mkCOutPoint hash i)) Hu) as (g & -> & Hg & _). by exists g. }
    cbn [mbind option_bind].
    destruct (IH (i + 1) (b || m) g n (usable_fewer _ _ Hg Hu) (contains_fewer _ _ _ Hg Hc) Hn) as (h & -> & Hh & Ha).
    exists h. split; [done|]. split; [by etrans|]. rewrite <- (fewer_flags _ _ Hg). intros Hall. rewrite <- Ha by done.
    by replace (i + Z.of_nat (S n)) with (i + 1 + Z.of_nat n) by lia.
Qed.

Lemma match_inputs_hit vin txin f key :
  usable f -> bloom_contains f key = Some true -> txin ∈ vin ->
  key = outpoint_bytes (in_prevout txin) \/ key <> [] /\ key ∈ script_data (in_scriptSig txin) ->
  match_inputs f vin = Some true.
Proof.
  intros Hu Hc Hin Hkey. induction vin as [|t vin IH]; [by apply not_elem_of_nil in Hin|]. cbn [match_inputs].
  destruct (contains_total f (outpoint_bytes (in_prevout t)) Hu) as [b Eb].
  destruct (script_matches_total (length (in_scriptSig t)) f (in_scriptSig t) Hu) as [m Em].
  rewrite Eb. cbn [mbind option_bind]. destruct b; [done|]. rewrite Em. cbn [mbind option_bind]. destruct m; [done|].
  apply elem_of_cons in Hin as [->|Hin]; [|auto]. destruct Hkey as [->|[Hk Hs]]; [congruence|].
  rewrite (script_matches_data f _ key) in Em by done. congruence.
Qed.

Lemma contains_not_empty f key : bloom_contains f key = Some true -> bf_isFull f = true \/ bf_isEmpty f = false.
Proof. unfold bloom_contains. destruct (bf_isFull f), (bf_isEmpty f); naive_solver. Qed.

(** A transaction that shows a key of the filter is relevant. *)
Lemma shows_relevant f tx key :
  usable f -> bloom_contains f key = Some true -> shows tx key ->
  exists g, IsRelevantAndUpdate f tx = Some (true, g) /\ fewer f g.
Proof.
  intros Hu Hc Hs. destruct (relevant_total f tx Hu) as (b & g & E & Hg). enough (b = true) as -> by eauto.
  revert E. unfold IsRelevantAndUpdate. destruct (contains_not_empty _ _ Hc) as [->| ->]; [congruence|].
  destruct (bf_isFull f); [congruence|]. destruct (contains_total f (uint256_bytes (ck_hash tx)) Hu) as [c Ec]. rewrite Ec.
  cbn [mbind option_bind]. destruct Hs as [->|[(o & Ho & Hk & Hin)|(txin & Ht & Hkey)]].
  - rewrite Hc in Ec. injection Ec as <-.
    destruct (match_outputs_spec (ck_vout tx) 0 (ck_hash tx) true f Hu) as (b' & h & -> & Hh & Hb). rewrite Hb by done.
    cbn [mbind option_bind]. congruence.
  - apply list_elem_of_lookup in Ho as [n Hn].
    destruct (match_outputs_hit (ck_vout tx) 0 (ck_hash tx) c f n o key Hu Hc Hn Hk Hin) as (h & -> & _ & _).
    cbn [mbind option_bind]. congruence.
  - destruct (match_outputs_spec (ck_vout tx) 0 (ck_hash tx) c f Hu) as (b' & h & -> & Hh & Hb). cbn [mbind option_bind].
    destruct b'; [congruence|].
    rewrite (match_inputs_hit (ck_vin tx) txin h key (usable_fewer _ _ Hh Hu) (contains_fewer _ _ _ Hh Hc) Ht Hkey).
    cbn [mbind option_bind]. congruence.
Qed.

(** An output that pushes a key of a filter that updates itself is watched. *)
Lemma output_watched f tx n o key :
  usable f -> bf_isFull f = false -> bloom_contains f key = Some true -> ck_vout tx !! n = Some o ->
  key <> [] -> key ∈ script_data (scriptPubKey (out_plain o)) -> Z.land (bf_nFlags f) BLOOM_UPDATE_MASK = BLOOM_UPDATE_ALL ->
  exists g, IsRelevantAndUpdate f tx = Some (true, g) /\ fewer f g /\
    bloom_contains g (outpoint_bytes (mkCOutPoint (ck_hash tx) (Z.of_nat n))) = Some true.
Proof.
  intros Hu Hf Hc Hn Hk Hin Hall. unfold IsRelevantAndUpdate. rewrite Hf.
  destruct (contains_not_empty _ _ Hc) as [H| ->]; [congruence|].
  destruct (contains_total f (uint256_bytes (ck_hash tx)) Hu) as [c ->]. cbn [mbind option_bind].
  destruct (match_outputs_hit (ck_vout tx) 0 (ck_hash tx) c f n o key Hu Hc Hn Hk Hin) as (h & -> & Hh & Ha).
  cbn [mbind option_bind]. exists h. auto.
Qed.

(** ** The life of a filter that a peer loads *)

Inductive FilterOp := FilterAdd (vKey : list Z) | FilterTx (tx : CheckedTx).

Definition filter_step (f : CBloomFilter) (op : FilterOp) : option CBloomFilter :=
  match op with
  | FilterAdd vKey => bloom_insert f vKey
  | FilterTx tx => do '(_, f) <- IsRelevantAndUpdate f tx; Some f
  end.

Fixpoint filter_run (f : CBloomFilter) (ops : list FilterOp) : option CBloomFilter :=
  match ops with
  | [] => Some f
  | op :: ops => do f <- filter_step f op; filter_run f ops
  end.

Lemma UpdateEmptyFull_usable f : usable (UpdateEmptyFull f).
Proof. unfold usable, UpdateEmptyFull. cbn. destruct (bf_vData f); [by left|by right]. Qed.

Lemma filter_step_spec f op : usable f -> exists g, filter_step f op = Some g /\ fewer f g.
Proof.
  intros Hu. destruct op as [key|tx]; cbn [filter_step].
  - destruct (insert_spec f key Hu) as (g & -> & Hg & _). eauto.
  - destruct (relevant_total f tx Hu) as (b & g & -> & Hg). cbn [mbind option_bind]. eauto.
Qed.

Lemma filter_run_spec ops f : usable f -> exists g, filter_run f ops = Some g /\ fewer f g.
Proof.
  revert f; induction ops as [|op ops IH]; intros f Hu; cbn [filter_run]; [by exists f|].
  destruct (filter_step_spec f op Hu) as (g & -> & Hg). cbn [mbind option_bind].
  destruct (IH g (usable_fewer _ _ Hg Hu)) as (h & -> & Hh). exists h. split; [done|by etrans].
Qed.

Lemma filter_run_app ops1 ops2 f : filter_run f (ops1 ++ ops2) = do g <- filter_run f ops1; filter_run g ops2.
Proof.
  revert f; induction ops1 as [|op ops1 IH]; intros f; cbn [app filter_run]; [done|].
  destruct (filter_step f op); cbn [mbind option_bind]; auto.
Qed.

(** The operations that follow keep what the one at the split established. *)
Lemma filter_run_split ops1 op ops2 f (P : CBloomFilter -> Prop) :
  usable f -> (forall g h, fewer g h -> P g -> P h) ->
  (forall g, filter_run f ops1 = Some g -> usable g -> fewer f g -> exists h, filter_step g op = Some h /\ P h) ->
  exists g, filter_run f (ops1 ++ op :: ops2) = Some g /\ usable g /\ P g.
Proof.
  intros Hu HP Hop. rewrite filter_run_app. destruct (filter_run_spec ops1 f Hu) as (g & Eg & Hg).
  pose proof (usable_fewer _ _ Hg Hu) as Hug. destruct (Hop g Eg Hug Hg) as (h & Eh & Ph).
  destruct (filter_step_spec g op Hug) as (h' & Eh' & Hh). assert (h' = h) as -> by congruence.
  pose proof (usable_fewer _ _ Hh Hug) as Huh. destruct (filter_run_spec ops2 h Huh) as (k & Ek & Hk).
  exists k. rewrite Eg. cbn [mbind option_bind filter_run]. rewrite Eh. cbn [mbind option_bind].
  split; [done|]. split; [by apply (usable_fewer h)|by apply (HP h)].
Qed.

Lemma key_kept ops1 key ops2 f :
  usable f -> exists g, filter_run f (ops1 ++ FilterAdd key :: ops2) = Some g /\ usable g /\ bloom_contains g key = Some true.
Proof.
  intros Hu. apply (filter_run_split ops1 _ ops2 f (fun g => bloom_contains g key = Some true)); [done| |].
  - intros g h. apply contains_fewer.
  - intros g _ Hg _. destruct (insert_spec g key Hg) as (h & Eh & _ & Hc). by exists h.
Qed.

(** A filter that a peer loads never misses what it was asked for and never
    divides by zero: whatever its bytes are, once [UpdateEmptyFull] has looked
    at it every sequence of added keys and examined transactions goes through;
    at the end each added key is contained and every transaction that shows
    one of them (its hash, an outpoint it spends, data of one of its scripts)
    is relevant; and if the filter updates itself with all the outputs, a
    transaction that spends an output whose script pushed an added key is
    relevant as well, provided the paying transaction was examined after the
    key was added. *)
Theorem bloom_no_false_negatives (f : CBloomFilter) (ops : list FilterOp) :
  exists g, filter_run (UpdateEmptyFull f) ops = Some g /\
    (forall key, FilterAdd key ∈ ops ->
       bloom_contains g key = Some true /\
       forall tx, shows tx key -> exists h, IsRelevantAndUpdate g tx = Some (true, h)) /\
    (forall ops1 ops2 ops3 key tx n o spender,
       ops = ops1 ++ FilterAdd key :: ops2 ++ FilterTx tx :: ops3 ->
       Z.land (bf_nFlags f) BLOOM_UPDATE_MASK = BLOOM_UPDATE_ALL ->
       key <> [] -> ck_vout tx !! n = Some o -> key ∈ script_data (scriptPubKey (out_plain o)) ->
       mkCOutPoint (ck_hash tx) (Z.of_nat n) ∈ map in_prevout (ck_vin spender) ->
       exists h, IsRelevantAndUpdate g spender = Some (true, h)).
Proof.
  pose proof (UpdateEmptyFull_usable f) as Hu. destruct (filter_run_spec ops _ Hu) as (g & Eg & Hg). exists g. split; [done|]. split.
  - intros key (ops1 & ops2 & ->)%list_elem_of_split.
    destruct (key_kept ops1 key ops2 _ Hu) as (g' & Eg' & Hug & Hc). assert (g' = g) as -> by congruence. split; [done|].
    intros tx Hs. destruct (shows_relevant g tx key Hug Hc Hs) as (h & Eh & _). eauto.
  - intros ops1 ops2 ops3 key tx n o spender Eops Hall Hk Ho Hin (txin & Ep & Ht)%list_elem_of_fmap.
    set (op := outpoint_bytes (mkCOutPoint (ck_hash tx) (Z.of_nat n))).
    destruct (filter_run_split (ops1 ++ FilterAdd key :: ops2) (FilterTx tx) ops3 _
      (fun g => bloom_contains g op = Some true) Hu) as (g' & Eg' & Hug & Hc).
    + intros g1 g2. apply contains_fewer.
    + intros g1 E1 Hu1 H1. destruct (key_kept ops1 key ops2 _ Hu) as (g2 & E2 & _ & Hc2). assert (g2 = g1) as -> by congruence.
      cbn [filter_step]. destruct (bf_isFull g1) eqn:Efull.
      * unfold IsRelevantAndUpdate. rewrite Efull. cbn [mbind option_bind]. exists g1. split; [done|].
        unfold bloom_contains. by rewrite Efull.
      * destruct (output_watched g1 tx n o key Hu1 Efull Hc2 Ho Hk Hin) as (g3 & -> & _ & Hw); [by rewrite (fewer_flags _ _ H1)|].
        cbn [mbind option_bind]. eauto.
    + rewrite Eops, <- app_assoc in *. cbn [app] in Eg'. assert (g' = g) as -> by congruence.
      destruct (shows_relevant g spender op Hug Hc) as (h & Eh & _); [|eauto].
      right; right. exists txin. split; [done|]. left. unfold op. by rewrite Ep.
Qed.

(** ** The rolling filter *)

(** The generation of a place: bit [b] of the words of the pair [j]. *)
Definition gen_at (data : list Z) (p : nat * Z) : Z :=
  Z.b2z (Z.testbit (nth (2 * p.1) data 0) p.2) + 2 * Z.b2z (Z.testbit (nth (2 * p.1 + 1) data 0) p.2).

Definition place (len : nat) (nTweak m : Z) (vKey : list Z) : nat * Z :=
  let h := RollingBloomHash m nTweak vKey in
  (Z.to_nat (Z.shiftr h 6 mod Z.of_nat len / 2), bit_of h).

(** The places that the hash functions from [i] on give a key. *)
Definition hits_from (n : nat) (i : Z) (len : nat) (nTweak : Z) (vKey : list Z) (p : nat * Z) : Prop :=
  exists m, i <= m < i + Z.of_nat n /\ place len nTweak m vKey = p.

#[export] Instance hits_from_dec n i len t k p : Decision (hits_from n i len t k p).
Proof.
  revert i; induction n as [|n IH]; intros i.
  - right. intros (m & Hm & _). lia.
  - destruct (decide (place len t i k = p)) as [E|E]; [left; exists i; split; [lia|done]|].
    destruct (IH (i + 1)) as [H|H]; [left|right].
    + destruct H as (m & Hm & Em). exists m. split; [lia|done].
    + intros (m & Hm & Em). apply H. exists m. split; [|done]. destruct (decide (m = i)); [congruence|lia].
Defined.

Lemma hits_from_S n i len t k p : hits_from (S n) i len t k p <-> place len t i k = p \/ hits_from n (i + 1) len t k p.
Proof.
  split.
  - intros (m & Hm & Em). destruct (decide (m = i)) as [->|]; [by left|]. right. exists m. split; [lia|done].
  - intros [E|(m & Hm & Em)]; [exists i|exists m]; split; try done; lia.
Qed.

Lemma testbit_write x bit v b :
  0 <= bit -> 0 <= b -> v = 0 \/ v = 1 ->
  Z.testbit (write_bit x bit v) b = if bool_decide (bit = b) then v =? 1 else Z.testbit x b.
Proof.
  intros Hb Hb' Hv. unfold write_bit. rewrite Z.lor_spec, Z.ldiff_spec, shift_one by done.
  assert (Z.testbit (Z.shiftl v bit) b = bool_decide (bit = b) && (v =? 1)) as ->.
  { destruct Hv as [-> | ->]; [by rewrite Z.shiftl_0_l, Z.bits_0, andb_false_r|by rewrite shift_one, andb_true_r]. }
  case_bool_decide; cbn; [by rewrite andb_false_r|by rewrite andb_true_r, orb_false_r].
Qed.

Lemma even_odd_pos pos : 0 <= pos -> even_pos pos = (2 * Z.to_nat (pos / 2))%nat /\ odd_pos pos = (2 * Z.to_nat (pos / 2) + 1)%nat.
Proof.
  intros H. pose proof (Z.div_pos pos 2 H ltac:(lia)). unfold even_pos, odd_pos.
  assert (Z.ldiff pos 1 = 2 * (pos / 2)) as ->.
  { change 1 with (Z.ones 1). rewrite Z.ldiff_ones_r, Z.shiftr_div_pow2, Z.shiftl_mul_pow2 by lia. change (2 ^ 1) with 2. lia. }
  assert (Z.lor pos 1 = 2 * (pos / 2) + 1) as ->; [|lia].
  apply Z.bits_inj'. intros n Hn. rewrite Z.lor_spec. destruct (decide (n = 0)) as [->|].
  { rewrite Z.testbit_odd_0. apply orb_true_r. }
  replace n with (Z.succ (n - 1)) by lia. rewrite Z.testbit_odd_succ by lia. assert (Z.testbit (pos / 2) (n - 1) = Z.testbit pos (Z.succ (n - 1))) as -> by (apply (Z.div_pow2_bits pos 1 (n - 1)); lia).
  rewrite (small_bits 1 1) by lia. apply orb_false_r.
Qed.

Lemma place_bounds len t m k :
  (0 < len)%nat -> Nat.Even len ->
  (2 * (place len t m k).1 + 1 < len)%nat /\ 0 <= (place len t m k).2 < 64.
Proof.
  intros Hl [h ->]. unfold place, bit_of. cbn [fst snd]. set (x := RollingBloomHash m t k). split.
  - pose proof (Z.mod_pos_bound (Z.shiftr x 6) (Z.of_nat (2 * h)) ltac:(lia)) as H.
    pose proof (Z.div_lt_upper_bound (Z.shiftr x 6 mod Z.of_nat (2 * h)) 2 (Z.of_nat h) ltac:(lia) ltac:(lia)).
    pose proof (Z.div_pos (Z.shiftr x 6 mod Z.of_nat (2 * h)) 2). lia.
  - change 0x3F with (Z.ones 6). rewrite Z.land_ones by lia. apply Z.mod_pos_bound. lia.
Qed.

(** One write of the loop of [insert]. *)
Lemma gen_at_write data (j : nat) bit g p :
  (2 * j + 1 < length data)%nat -> 0 <= bit -> 0 <= p.2 -> 1 <= g <= 3 ->
  gen_at (alter (fun x => write_bit x bit (Z.shiftr g 1)) (2 * j + 1)%nat
    (alter (fun x => write_bit x bit (Z.land g 1)) (2 * j)%nat data)) p
  = if bool_decide ((j, bit) = p) then g else gen_at data p.
Proof.
  intros Hj Hbit Hp Hg. destruct p as [j' b]. unfold gen_at. cbn [fst snd] in *. rewrite !nth_alter, length_alter.
  assert ((g = 1 \/ g = 2 \/ g = 3)) as Hc by lia. destruct (decide (j = j')) as [<-|Hne].
  - rewrite (bool_decide_eq_false_2 ((2 * j)%nat = (2 * j + 1)%nat /\ _)) by lia.
    rewrite (bool_decide_eq_true_2 ((2 * j)%nat = (2 * j)%nat /\ _)) by lia.
    rewrite (bool_decide_eq_false_2 ((2 * j + 1)%nat = (2 * j)%nat /\ _)) by lia.
    rewrite (bool_decide_eq_true_2 ((2 * j + 1)%nat = (2 * j + 1)%nat /\ _)) by lia.
    rewrite !testbit_write; try done; [|by destruct Hc as [->|[->| ->]]; cbn; auto..].
    case_bool_decide as E.
    + rewrite bool_decide_eq_true_2 by congruence. by destruct Hc as [->|[->| ->]].
    + by rewrite bool_decide_eq_false_2 by congruence.
  - rewrite !bool_decide_eq_false_2; [done|congruence|lia..].
Qed.

Lemma rolling_loop_spec n i g t k data p :
  (0 < length data)%nat -> Nat.Even (length data) -> 1 <= g <= 3 -> 0 <= p.2 ->
  length (rolling_loop n i g t k data) = length data /\
  gen_at (rolling_loop n i g t k data) p
  = if bool_decide (hits_from n i (length data) t k p) then g else gen_at data p.
Proof.
  intros Hl He Hg Hp. revert i data Hl He; induction n as [|n IH]; intros i data Hl He; cbn [rolling_loop].
  { split; [done|]. rewrite bool_decide_eq_false_2; [done|]. intros (m & Hm & _). lia. }
  destruct (place_bounds (length data) t i k Hl He) as [Hb1 Hb2]. unfold place in Hb1, Hb2. cbn [fst snd] in Hb1, Hb2.
  unfold pos_of. pose proof (Z.mod_pos_bound (Z.shiftr (RollingBloomHash i t k) 6) (Z.of_nat (length data)) ltac:(lia)) as Hpos.
  destruct (even_odd_pos _ (proj1 Hpos)) as [-> ->].
  match goal with |- context [rolling_loop n (i + 1) g t k ?d] => set (data' := d) end.
  assert (length data' = length data) as El by (unfold data'; by rewrite !length_alter).
  destruct (IH (i + 1) data') as [-> ->]; [by rewrite El..|]. rewrite El. split; [done|].
  unfold data'. rewrite gen_at_write by (done || lia).
  rewrite (bool_decide_ext _ _ (hits_from_S n i (length data) t k p)). unfold place.
  repeat case_bool_decide; tauto.
Qed.

Lemma wipe_spec g data p :
  1 <= g <= 3 -> 0 <= p.2 < 64 -> Nat.Even (length data) ->
  length (wipe (u64 (- Z.land g 1)) (u64 (- Z.shiftr g 1)) data) = length data /\
  gen_at (wipe (u64 (- Z.land g 1)) (u64 (- Z.shiftr g 1)) data) p
  = if bool_decide (gen_at data p = g) then 0 else gen_at data p.
Proof.
  intros Hg Hp [h Eh]. destruct p as [j b]. cbn [snd] in Hp. revert data j Eh; induction h as [|h IH]; intros data j Eh.
  { destruct data; [|done]. cbn [wipe]. split; [done|]. unfold gen_at. cbn [fst snd].
    rewrite !nth_overflow by (cbn; lia). rewrite Z.bits_0. rewrite bool_decide_eq_false_2; [done|]. cbn. lia. }
  destruct data as [|p1 [|p2 data]]; cbn [length] in Eh; [lia|lia|]. cbn [wipe].
  destruct (IH data (pred j) ltac:(lia)) as [IHl IHg]. cbn [length]. rewrite IHl. split; [done|].
  destruct j as [|j].
  - unfold gen_at. cbn [fst snd Nat.mul Nat.add nth]. rewrite !Z.land_spec, Z.lor_spec, !Z.lxor_spec.
    assert (g = 1 \/ g = 2 \/ g = 3) as Hc by lia.
    assert (Z.testbit (u64 (Z.opp 1)) b = true) as H1 by (change (u64 (Z.opp 1)) with (Z.ones 64); apply Z.ones_spec_low; lia).
    assert (Z.testbit (u64 (Z.opp 0)) b = false) as H0 by apply Z.bits_0.
    destruct Hc as [->|[->| ->]];
      change (Z.land 1 1) with 1; change (Z.shiftr 1 1) with 0; change (Z.land 2 1) with 0; change (Z.shiftr 2 1) with 1;
      change (Z.land 3 1) with 1; change (Z.shiftr 3 1) with 1; rewrite ?H1, ?H0;
      by destruct (Z.testbit p1 b), (Z.testbit p2 b).
  - cbn [pred] in IHg. assert (forall x y d, gen_at (x :: y :: d) (S j, b) = gen_at d (j, b)) as Hs.
    { intros x y d. unfold gen_at. cbn [fst snd]. by replace (2 * S j)%nat with (S (S (2 * j))) by lia. }
    by rewrite !Hs.
Qed.

(** The code of generation [a] when the current one is [G]. *)
Definition gen_code (G a : Z) : Z := if a + 3 <=? G then 0 else a mod 3 + 1.

Lemma gen_code_wiped G a :
  a <= G -> (if bool_decide (gen_code G a = (G + 1) mod 3 + 1) then 0 else gen_code G a) = gen_code (G + 1) a.
Proof.
  intros Ha. unfold gen_code. pose proof (Z.div_mod a 3 ltac:(lia)). pose proof (Z.div_mod (G + 1) 3 ltac:(lia)).
  pose proof (Z.mod_pos_bound a 3 ltac:(lia)). pose proof (Z.mod_pos_bound (G + 1) 3 ltac:(lia)).
  destruct (Z.leb_spec (a + 3) G), (Z.leb_spec (a + 3) (G + 1)); case_bool_decide; try lia.
Qed.

(** *** The window of the rolling filter *)

Section Window.
  Context (E : Z) (nf : nat) (t : Z) (len : nat).
  Hypothesis HE : 1 <= E.
  Hypothesis Hlen : (0 < len)%nat.
  Hypothesis Heven : Nat.Even len.

Local Notation hits := (hits_from nf 0 len t).

(** The generation of the insert number [i]. *)
Definition gen_of (i : nat) : Z := Z.of_nat i / E.

(** The current generation after [n] inserts. *)
Definition gen_now (n : nat) : Z := match n with O => 0 | S n => gen_of n end.

(** A place shows its last insert, if it was not too long ago. *)
Definition place_ok (keys : list (list Z)) (data : list Z) (p : nat * Z) : Prop :=
  ((forall k, k ∈ keys -> ~ hits k p) /\ gen_at data p = 0) \/
  exists i k, keys !! i = Some k /\ hits k p /\
    (forall i' k', (i < i')%nat -> keys !! i' = Some k' -> ~ hits k' p) /\
    gen_at data p = gen_code (gen_now (length keys)) (gen_of i).

Record window_inv (keys : list (list Z)) (r : CRollingBloomFilter) : Prop := {
  wi_per : nEntriesPerGeneration r = E;
  wi_this : nEntriesThisGeneration r = Z.of_nat (length keys) - gen_now (length keys) * E;
  wi_gen : nGeneration r = gen_now (length keys) mod 3 + 1;
  wi_len : length (rb_data r) = len;
  wi_tweak : rb_nTweak r = t;
  wi_funcs : rb_nHashFuncs r = nf;
  wi_place p : 0 <= p.2 < 64 -> place_ok keys (rb_data r) p
}.

Lemma gen_now_div n : (0 < n)%nat -> gen_now n * E < Z.of_nat n <= gen_now n * E + E.
Proof.
  destruct n as [|n]; [lia|]. intros _. cbn [gen_now]. unfold gen_of.
  pose proof (Z.div_mod (Z.of_nat n) E ltac:(lia)). pose proof (Z.mod_pos_bound (Z.of_nat n) E ltac:(lia)). lia.
Qed.

Lemma gen_now_S n :
  gen_now (S n) = if Z.of_nat n - gen_now n * E =? E then gen_now n + 1 else gen_now n.
Proof.
  destruct n as [|n]; [unfold gen_now, gen_of; rewrite Z.div_0_l, (proj2 (Z.eqb_neq _ _)) by lia; done|].
  pose proof (gen_now_div (S n) ltac:(lia)). set (G := gen_now (S n)) in *. cbn [gen_now]. unfold gen_of. symmetry.
  case_match eqn:Ee; [apply Z.eqb_eq in Ee|apply Z.eqb_neq in Ee].
  - apply (Z.div_unique_pos _ E _ 0); lia.
  - apply (Z.div_unique_pos _ E _ (Z.of_nat (S n) - G * E)); lia.
Qed.

Lemma gen_of_now i n : (i < n)%nat -> gen_of i <= gen_now n.
Proof. intros H. destruct n as [|n]; [lia|]. cbn [gen_now]. unfold gen_of. apply Z.div_le_mono; lia. Qed.

Lemma gen_now_nonneg n : 0 <= gen_now n.
Proof. destruct n as [|n]; [done|]. cbn. unfold gen_of. apply Z.div_pos; lia. Qed.

(** The new generation keeps every place in step. *)
Lemma new_generation_place keys r p :
  window_inv keys r -> nGeneration (new_generation r) = (gen_now (length keys) + 1) mod 3 + 1 /\
  length (rb_data (new_generation r)) = len /\
  (0 <= p.2 < 64 -> gen_at (rb_data (new_generation r)) p
   = if bool_decide (gen_at (rb_data r) p = (gen_now (length keys) + 1) mod 3 + 1) then 0 else gen_at (rb_data r) p).
Proof.
  intros H. set (G := gen_now (length keys)). unfold new_generation. cbn [nGeneration rb_data]. rewrite (wi_gen _ _ H). fold G.
  assert ((if G mod 3 + 1 + 1 =? 4 then 1 else G mod 3 + 1 + 1) = (G + 1) mod 3 + 1) as ->.
  { pose proof (Z.mod_pos_bound G 3 ltac:(lia)). rewrite Z.add_mod by lia. change (1 mod 3) with 1.
    assert (G mod 3 = 0 \/ G mod 3 = 1 \/ G mod 3 = 2) as [->|[->| ->]] by lia; reflexivity. }
  pose proof (Z.mod_pos_bound (G + 1) 3 ltac:(lia)). assert (Nat.Even (length (rb_data r))) as He by by rewrite (wi_len _ _ H).
  split; [done|]. split.
  - rewrite <- (wi_len _ _ H). apply (wipe_spec _ (rb_data r) (0%nat, 0)); cbn; [lia|lia|done].
  - intros Hp. apply wipe_spec; [lia|done|done].
Qed.

(** The data before the writes of an insert, with the current generation. *)
Lemma rolled keys r :
  window_inv keys r ->
  let r' := if nEntriesThisGeneration r =? nEntriesPerGeneration r then new_generation r else r in
  let G := gen_now (S (length keys)) in
  nEntriesPerGeneration r' = E /\ nEntriesThisGeneration r' + 1 = Z.of_nat (S (length keys)) - G * E /\
  nGeneration r' = G mod 3 + 1 /\ length (rb_data r') = len /\ rb_nTweak r' = t /\ rb_nHashFuncs r' = nf /\
  forall p, 0 <= p.2 < 64 ->
    ((forall k, k ∈ keys -> ~ hits k p) /\ gen_at (rb_data r') p = 0) \/
    exists i k, keys !! i = Some k /\ hits k p /\
      (forall i' k', (i < i')%nat -> keys !! i' = Some k' -> ~ hits k' p) /\
      gen_at (rb_data r') p = gen_code G (gen_of i).
Proof.
  intros H. cbv zeta. rewrite gen_now_S. destruct (new_generation_place keys r (0%nat, 0) H) as (Hg & Hl & _).
  pose proof (gen_now_nonneg (length keys)) as Hnn. pose proof (gen_now_div (length keys)) as Hd.
  rewrite (wi_this _ _ H), (wi_per _ _ H). case_match eqn:Ee.
  - apply Z.eqb_eq in Ee. split; [apply H|]. split; [cbn [nEntriesThisGeneration new_generation]; lia|].
    split; [done|]. split; [done|]. split; [apply H|]. split; [apply H|]. intros p Hp.
    destruct (new_generation_place keys r p H) as (_ & _ & Hw). rewrite Hw by done.
    pose proof (Z.mod_pos_bound (gen_now (length keys) + 1) 3 ltac:(lia)).
    destruct (wi_place _ _ H p Hp) as [[Hno ->]|(i & k & Hi & Hk & Hlast & ->)].
    + left. split; [done|]. rewrite bool_decide_eq_false_2 by lia. done.
    + right. exists i, k. split; [done|]. split; [done|]. split; [done|].
      apply gen_code_wiped, gen_of_now. by apply lookup_lt_Some in Hi.
  - repeat (split; [first [apply H | rewrite (wi_this _ _ H); lia]|]). intros p Hp. by apply H.
Qed.

Lemma rolling_insert_inv keys r k : window_inv keys r -> window_inv (keys ++ [k]) (rolling_insert r k).
Proof.
  intros H. unfold rolling_insert. pose proof (rolled keys r H) as Hr. cbv zeta in Hr.
  set (r' := if nEntriesThisGeneration r =? nEntriesPerGeneration r then new_generation r else r) in *.
  destruct Hr as (H1 & H2 & H3 & H4 & H5 & H6 & H7).
  assert (length (keys ++ [k]) = S (length keys)) as El by (rewrite length_app; cbn; lia).
  pose proof (Z.mod_pos_bound (gen_now (S (length keys))) 3 ltac:(lia)) as Hm.
  assert (forall p, 0 <= p.2 -> length (rolling_loop nf 0 (nGeneration r') t k (rb_data r')) = len /\
    gen_at (rolling_loop nf 0 (nGeneration r') t k (rb_data r')) p
    = if bool_decide (hits k p) then nGeneration r' else gen_at (rb_data r') p) as Hloop.
  { intros p Hp. pose proof (rolling_loop_spec nf 0 (nGeneration r') t k (rb_data r') p) as Hs. rewrite H4 in Hs.
    apply Hs; [done|done|rewrite H3; lia|done]. }
  split; cbn [nEntriesPerGeneration nEntriesThisGeneration nGeneration rb_data rb_nTweak rb_nHashFuncs]; rewrite ?El, ?H5, ?H6; try done.
  { by apply (Hloop (0%nat, 0)). }
  intros p Hp. destruct (Hloop p ltac:(lia)) as [_ Hl]. unfold place_ok. rewrite Hl, El. case_bool_decide as Hk.
  - right. exists (length keys), k. split; [by apply list_lookup_middle|]. split; [done|]. split.
    { intros i' k' Hlt E'%lookup_lt_Some. rewrite El in E'. lia. }
    rewrite H3. unfold gen_code. cbn [gen_now]. rewrite (proj2 (Z.leb_gt _ _)) by lia. done.
  - destruct (H7 p Hp) as [[Hno ->]|(i & k0 & Hi & Hk0 & Hlast & ->)].
    + left. split; [|done]. intros k1 [Hin|E1%list_elem_of_singleton]%elem_of_app; [by apply Hno|by subst].
    + right. exists i, k0. split; [by apply lookup_app_l_Some|]. split; [done|]. split; [|done].
      intros i' k' Hlt [E'|[Hge E']]%lookup_app_Some; [by apply (Hlast i')|].
      apply list_lookup_singleton_Some in E' as [_ <-]. done.
Qed.

(** A place is set exactly if an insert of the window hits it. *)
Lemma place_set keys r p :
  window_inv keys r -> 0 <= p.2 < 64 ->
  gen_at (rb_data r) p <> 0 <->
  exists i k, keys !! i = Some k /\ gen_now (length keys) < gen_of i + 3 /\ hits k p.
Proof.
  intros H Hp. destruct (wi_place _ _ H p Hp) as [[Hno ->]|(i & k & Hi & Hk & Hlast & ->)].
  - split; [done|]. intros (i & k & Hi & _ & Hk). exfalso. apply (Hno k); [by apply list_elem_of_lookup_2 in Hi|done].
  - pose proof (Z.mod_pos_bound (gen_of i) 3 ltac:(lia)). unfold gen_code. destruct (Z.leb_spec (gen_of i + 3) (gen_now (length keys))).
    + split; [done|]. intros (i' & k' & Hi' & Hw & Hk'). exfalso. apply (Hlast i' k'); [|done|done].
      destruct (decide (i < i')%nat); [done|]. unfold gen_of in *. pose proof (Z.div_le_mono (Z.of_nat i') (Z.of_nat i) E). lia.
    + split; [|lia]. intros _. exists i, k. done.
Qed.

Lemma contains_places n i k data :
  length data = len ->
  rolling_contains_loop n i t k data = true <-> forall p, hits_from n i len t k p -> gen_at data p <> 0.
Proof.
  intros El. revert i; induction n as [|n IH]; intros i; cbn [rolling_contains_loop].
  { split; [|done]. intros _ p (m & Hm & _). lia. }
  set (h := RollingBloomHash i t k). unfold pos_of. rewrite El.
  pose proof (Z.mod_pos_bound (Z.shiftr h 6) (Z.of_nat len) ltac:(lia)) as Hpos.
  destruct (even_odd_pos _ (proj1 Hpos)) as [-> ->]. destruct (place_bounds len t i k Hlen Heven) as [_ Hb].
  assert (flag_set (Z.shiftr (Z.lor (nth (2 * (place len t i k).1) data 0) (nth (2 * (place len t i k).1 + 1) data 0)) (bit_of h)) 1
    = negb (gen_at data (place len t i k) =? 0)) as Ef.
  { unfold gen_at. change 1 with (Z.shiftl 1 0) at 1. rewrite flag_testbit, Z.shiftr_spec, Z.lor_spec by lia. cbn [Z.add].
    change (bit_of h) with (place len t i k).2. by destruct (Z.testbit _ _), (Z.testbit _ _). }
  change (Z.to_nat (Z.shiftr h 6 mod Z.of_nat len / 2)) with (place len t i k).1. rewrite Ef.
  destruct (Z.eqb_spec (gen_at data (place len t i k)) 0) as [E0|E0]; cbn [negb].
  - split; [done|]. intros Hall. exfalso. apply (Hall (place len t i k)); [|done]. apply hits_from_S. by left.
  - rewrite IH. split.
    + intros Hall p [<-|Hh]%hits_from_S; auto.
    + intros Hall p Hh. apply Hall, hits_from_S. by right.
Qed.

End Window.

Lemma rolling_new_inv nElements nf nFilterBits t :
  1 <= nElements < 2 ^ 32 - 1 -> 0 < nFilterBits <= 2 ^ 32 - 64 ->
  let len := Z.to_nat (2 * ((nFilterBits + 63) / 64)) in
  (0 < len)%nat /\ Nat.Even len /\
  window_inv ((nElements + 1) / 2) nf t len [] (CRollingBloomFilter_new nElements nf nFilterBits t).
Proof.
  intros He Hb. cbv zeta. pose proof (Z.div_le_lower_bound (nFilterBits + 63) 64 1 ltac:(lia) ltac:(lia)) as H1.
  split; [lia|]. split; [exists (Z.to_nat ((nFilterBits + 63) / 64)); lia|].
  unfold CRollingBloomFilter_new. unfold u32. rewrite !Z.mod_small by lia. rewrite Z.shiftl_mul_pow2 by lia.
  change (2 ^ 1) with 2. rewrite (Z.mul_comm _ 2).
  split; cbn [nEntriesPerGeneration nEntriesThisGeneration nGeneration rb_data rb_nTweak rb_nHashFuncs]; try done.
  - apply length_replicate.
  - intros p _. left. split; [by intros k ?%not_elem_of_nil|]. unfold gen_at.
    assert (forall i, nth i (replicate (Z.to_nat (2 * ((nFilterBits + 63) / 64))) 0) 0 = 0) as Hz.
    { intros i. rewrite nth_lookup. destruct (replicate _ _ !! i) as [x|] eqn:Ex; [|done]. by apply lookup_replicate in Ex as [-> _]. }
    rewrite !Hz. by rewrite !Z.bits_0.
Qed.

Lemma rolling_inserts_inv E nf t len keys r :
  1 <= E -> (0 < len)%nat -> Nat.Even len -> window_inv E nf t len [] r ->
  window_inv E nf t len keys (foldl rolling_insert r keys).
Proof.
  intros HE Hl He Hr. induction keys as [|k keys IH] using rev_ind; [done|]. rewrite foldl_app. cbn [foldl].
  by apply rolling_insert_inv.
Qed.

(** C19: The rolling filter is a sliding window: after any number of inserts it
    contains a key exactly if each of the key's places was hit by an insert of
    the last three generations (each of half the promised number of elements,
    rounded up), however often the two-bit generation numbers were reused;
    so it contains each of the last [nElements] keys, and everything older
    than three generations is forgotten. *)
Theorem rolling_window (nElements : Z) (nHashFuncs : nat) (nFilterBits nTweak : Z) (keys : list (list Z)) :
  1 <= nElements < 2 ^ 32 - 1 -> 0 < nFilterBits <= 2 ^ 32 - 64 ->
  let r := foldl rolling_insert (CRollingBloomFilter_new nElements nHashFuncs nFilterBits nTweak) keys in
  let hits := hits_from nHashFuncs 0 (Z.to_nat (2 * ((nFilterBits + 63) / 64))) nTweak in
  let E := (nElements + 1) / 2 in
  (forall key, rolling_contains r key = true <->
     forall p, hits key p -> exists i k, keys !! i = Some k /\ hits k p /\
       (Z.of_nat (length keys) - 1) / E - 2 <= Z.of_nat i / E) /\
  (forall i key, keys !! i = Some key -> Z.of_nat (length keys) - nElements <= Z.of_nat i -> rolling_contains r key = true).
Proof.
  intros He Hb r hits E. destruct (rolling_new_inv nElements nHashFuncs nFilterBits nTweak He Hb) as (Hl & Hev & H0).
  assert (1 <= E) as HE by (apply Z.div_le_lower_bound; lia).
  pose proof (rolling_inserts_inv _ _ _ _ keys _ HE Hl Hev H0) as Hr. fold r in Hr. set (len := Z.to_nat _) in *.
  assert (forall n, (0 < n)%nat -> gen_now E n = (Z.of_nat n - 1) / E) as Hnow.
  { intros [|n] Hn; [lia|]. cbn [gen_now]. unfold gen_of. f_equal. lia. }
  assert (forall key, rolling_contains r key = true <->
     forall p, hits key p -> exists i k, keys !! i = Some k /\ hits k p /\
       (Z.of_nat (length keys) - 1) / E - 2 <= Z.of_nat i / E) as Hc.
  { intros key. unfold rolling_contains. rewrite (wi_tweak _ _ _ _ _ _ Hr), (wi_funcs _ _ _ _ _ _ Hr).
    rewrite (contains_places _ _ Hl Hev) by apply Hr. apply forall_proper. intros p. 
    enough (hits key p -> gen_at (rb_data r) p <> 0 <-> exists i k, keys !! i = Some k /\ hits k p /\
      (Z.of_nat (length keys) - 1) / E - 2 <= Z.of_nat i / E) by tauto. intros Hp.
    assert (0 <= p.2 < 64) as Hpb by (destruct Hp as (m & _ & <-); apply (place_bounds len nTweak m key Hl Hev)).
    rewrite (place_set E nHashFuncs nTweak len HE Hl keys r p Hr Hpb). apply exist_proper. intros i. apply exist_proper. intros k.
    split; intros (Hi & H1 & H2); pose proof (lookup_lt_Some _ _ _ Hi); rewrite Hnow in * by lia; unfold gen_of in *;
      (split; [done|]); split; first [done|lia]. }
  split; [done|]. intros i key Hi Hrec. apply Hc. intros p Hp. exists i, key. split; [done|]. split; [done|].
  pose proof (lookup_lt_Some _ _ _ Hi). set (n := Z.of_nat (length keys)) in *.
  assert (nElements <= 2 * E) by (unfold E; pose proof (Z.div_mod (nElements + 1) 2); pose proof (Z.mod_pos_bound (nElements + 1) 2); lia).
  replace ((n - 1) / E - 2) with ((n - 1 + (-2) * E) / E) by (rewrite Z.div_add; lia). apply Z.div_le_mono; lia.
Qed.

(** Five keys in a filter for two, with one key per generation and four words. *)
Lemma rolling_window_witness :
  (1 <= 2 < 2 ^ 32 - 1 /\ 0 < 100 <= 2 ^ 32 - 64) /\
  let r := foldl rolling_insert (CRollingBloomFilter_new 2 3 100 7) [[1]; [2]; [3]; [4]; [5]] in
  rolling_contains r [4] = true /\ rolling_contains r [5] = true /\ rolling_contains r [1] = false.
Proof.
  assert (1 <= 2 < 2 ^ 32 - 1) as H1 by lia. assert (0 < 100 <= 2 ^ 32 - 64) as H2 by lia. split; [done|].
  pose proof (rolling_window 2 3 100 7 [[1]; [2]; [3]; [4]; [5]] H1 H2) as [_ H]. cbv zeta in *.
  split; [by apply (H 3%nat)|]. split; [by apply (H 4%nat)|]. vm_compute. reflexivity.
Defined.

(** A wallet adds a key hash; the payment to it is examined and then spent. *)
Definition demo_hash : uint256 := 77.
Definition demo_payment : CheckedTx := mkCheckedTx demo_hash 1 0 [] [plain_out 5 [2; 7; 9; 0x87]] 0 [] [].
Definition demo_spend : CheckedTx := mkCheckedTx demo_hash 1 0 [mkCTxIn (mkCOutPoint demo_hash 0) [] 0] [] 0 [] [].

Lemma bloom_no_false_negatives_witness :
  exists g h, filter_run (UpdateEmptyFull (mkBloom (replicate 16 0) false false 5 3 BLOOM_UPDATE_ALL))
      [FilterAdd [7; 9]; FilterTx demo_payment] = Some g /\
    bloom_contains g [7; 9] = Some true /\ bloom_contains g [7; 8] = Some false /\
    IsRelevantAndUpdate g demo_spend = Some (true, h).
Proof.
  set (f := mkBloom _ _ _ _ _ _). destruct (bloom_no_false_negatives f [FilterAdd [7; 9]; FilterTx demo_payment]) as (g & Eg & Hk & Hs).
  destruct (Hs [] [] [] [7; 9] demo_payment 0%nat (plain_out 5 [2; 7; 9; 0x87]) demo_spend) as [h Eh];
    [done|done|done|done|by apply (bool_decide_unpack _); vm_compute|by apply (bool_decide_unpack _); vm_compute|].
  exists g, h. split; [done|]. split; [apply Hk; by left|]. split; [|done]. vm_compute in Eg. by injection Eg as <-.
Defined.
