(* ===== verification/FilteredBlock.v ===== *)
(** * The filtered block of a peer ([merkleblock.cpp] over [bloom.cpp])

    The constructor of [CMerkleBlock] from a block and the filter of a peer,
    and what the peer learns from it: the composition of the bloom filter with
    the partial Merkle tree and its bytes. *)
From S2P Require Import Prelude Bytes Merkle Serialize Transaction TxCheck PartialMerkle Standard Bloom.

(** The loop over the transactions: the marks, the matched transactions with
    their positions, and the filter, which the matched outputs change. *)
Fixpoint filter_block (i : Z) (vtx : list CheckedTx) (filter : CBloomFilter) :
    option (list bool * list (Z * uint256) * CBloomFilter) :=
  match vtx with
  | [] => Some ([], [], filter)
  | tx :: vtx =>
    do '(b, filter) <- IsRelevantAndUpdate filter tx;
    do '(vMatch, vMatchedTxn, filter) <- filter_block (i + 1) vtx filter;
    Some (b :: vMatch, (if (b : bool) then [(i, ck_hash tx)] else []) ++ vMatchedTxn, filter)
  end.

(** The tree, [vMatchedTxn] and the filter that is left. *)
Definition CMerkleBlock_filter (Hash : uint256 -> uint256 -> uint256) (vtx : list CheckedTx) (filter : CBloomFilter) :
    option (CPartialMerkleTree * list (Z * uint256) * CBloomFilter) :=
  do '(vMatch, vMatchedTxn, filter) <- filter_block 0 vtx filter;
  do t <- CPartialMerkleTree_new Hash (map ck_hash vtx) vMatch;
  Some (t, vMatchedTxn, filter).

(** ** The marks *)

Lemma filter_block_spec vtx i f :
  usable f -> exists vMatch matched g,
    filter_block (Z.of_nat i) vtx f = Some (vMatch, matched, g) /\ fewer f g /\ length vMatch = length vtx /\
    matched = selected i (map ck_hash vtx) vMatch.
Proof.
  revert i f; induction vtx as [|tx vtx IH]; intros i f Hu; cbn [filter_block]; [by exists [], [], f|].
  destruct (relevant_total f tx Hu) as (b & g & -> & Hg). cbn [mbind option_bind].
  destruct (IH (S i) g (usable_fewer _ _ Hg Hu)) as (vMatch & matched & h & E & Hh & El & ->).
  replace (Z.of_nat i + 1) with (Z.of_nat (S i)) by lia. rewrite E. cbn [mbind option_bind].
  eexists _, _, h. split; [done|]. split; [by etrans|]. split; [cbn; lia|]. done.
Qed.

(** A transaction that shows a key of the filter is marked. *)
Lemma filter_block_marks vtx i f key n tx vMatch matched g :
  usable f -> bloom_contains f key = Some true -> filter_block i vtx f = Some (vMatch, matched, g) ->
  vtx !! n = Some tx -> shows tx key -> vMatch !! n = Some true.
Proof.
  revert i f n vMatch matched; induction vtx as [|tx0 vtx IH]; intros i f n vMatch matched Hu Hc E Hn Hs; [done|].
  cbn [filter_block] in E. destruct (relevant_total f tx0 Hu) as (b & f1 & Er & H1). rewrite Er in E. cbn [mbind option_bind] in E.
  destruct (filter_block (i + 1) vtx f1) as [[[vm ma] g']|] eqn:Eb; [|done]. cbn [mbind option_bind] in E.
  injection E as <- <- <-. destruct n as [|n]; cbn in Hn |- *.
  - injection Hn as ->. destruct (shows_relevant f tx key Hu Hc Hs) as (h & Eh & _). congruence.
  - apply (IH (i + 1) f1 n vm ma); [by apply (usable_fewer f)|by apply (contains_fewer f)|done..].
Qed.

(** A later transaction that spends a watched output of the block is marked. *)
Lemma filter_block_spends vtx i f key n1 n2 tx1 tx2 k o vMatch matched g :
  usable f -> bloom_contains f key = Some true -> filter_block i vtx f = Some (vMatch, matched, g) ->
  Z.land (bf_nFlags f) BLOOM_UPDATE_MASK = BLOOM_UPDATE_ALL ->
  (n1 < n2)%nat -> vtx !! n1 = Some tx1 -> vtx !! n2 = Some tx2 ->
  ck_vout tx1 !! k = Some o -> key <> [] -> key ∈ script_data (scriptPubKey (out_plain o)) ->
  mkCOutPoint (ck_hash tx1) (Z.of_nat k) ∈ map in_prevout (ck_vin tx2) -> vMatch !! n2 = Some true.
Proof.
  revert i f n1 n2 vMatch matched; induction vtx as [|tx0 vtx IH]; intros i f n1 n2 vMatch matched Hu Hc E Hall Hlt H1 H2 Ho Hk Hin Hsp; [done|].
  cbn [filter_block] in E. destruct (relevant_total f tx0 Hu) as (b & f1 & Er & Hf). rewrite Er in E. cbn [mbind option_bind] in E.
  destruct (filter_block (i + 1) vtx f1) as [[[vm ma] g']|] eqn:Eb; [|done]. cbn [mbind option_bind] in E.
  injection E as <- <- <-. destruct n2 as [|n2]; [lia|]. cbn in H2 |- *. destruct n1 as [|n1]; cbn in H1.
  - injection H1 as ->. apply (filter_block_marks vtx (i + 1) f1 (outpoint_bytes (mkCOutPoint (ck_hash tx1) (Z.of_nat k))) n2 tx2 vm ma g');
      [by apply (usable_fewer f)| |done|done|].
    + destruct (bf_isFull f) eqn:Ef.
      * unfold IsRelevantAndUpdate in Er. rewrite Ef in Er. injection Er as _ <-. unfold bloom_contains. by rewrite Ef.
      * destruct (output_watched f tx1 k o key Hu Ef Hc Ho Hk Hin Hall) as (h & Eh & _ & Hw). congruence.
    + apply list_elem_of_fmap in Hsp as (txin & Ep & Ht). right; right. exists txin. split; [done|]. left. by rewrite Ep.
  - apply (IH (i + 1) f1 n1 n2 vm ma); try done; [by apply (usable_fewer f)|by apply (contains_fewer f)|by rewrite (fewer_flags _ _ Hf)|lia].
Qed.

Lemma selected_lookup l m i n x :
  l !! n = Some x -> m !! n = Some true -> (Z.of_nat (i + n), x) ∈ selected i l m.
Proof.
  revert m i n; induction l as [|y l IH]; intros m i n Hl Hm; [done|]. destruct m as [|b m]; [done|]. cbn [selected].
  destruct n as [|n]; cbn in Hl, Hm.
  - injection Hl as ->. injection Hm as ->. rewrite Nat.add_0_r. by left.
  - apply elem_of_app. right. replace (i + S n)%nat with (S i + n)%nat by lia. by apply IH.
Qed.

(** C17: A peer that loads a filter, adds a key and asks for a filtered block
    misses nothing: for every block of distinct subtrees the node answers
    without failing; the peer reads the tree from the bytes, computes the root
    of the block and exactly the transactions the node matched with their
    positions, and among them are every transaction that shows the key and, if
    the filter updates itself, every later transaction of the block that spends
    an output to the key. *)
Theorem filtered_block_complete (Hash : uint256 -> uint256 -> uint256) (vtx : list CheckedTx) (f : CBloomFilter)
    (key : list Z) (rest : list Z) :
  vtx <> [] -> Z.of_nat (length vtx) <= max_transactions ->
  siblings_differ Hash (height (length vtx)) (map ck_hash vtx) = true ->
  Forall (fun tx => 0 <= ck_hash tx < 2 ^ 256) vtx -> (forall x y, 0 <= Hash x y < 2 ^ 256) ->
  exists g t vMatchedTxn h t' root,
    bloom_insert (UpdateEmptyFull f) key = Some g /\
    CMerkleBlock_filter Hash vtx g = Some (t, vMatchedTxn, h) /\
    read_partial (ser_partial t ++ rest) = Some (t', rest) /\
    ExtractMatches Hash t' [] = (root, vMatchedTxn.*2, vMatchedTxn.*1, t') /\
    fst <$> ComputeMerkleRoot Hash (map ck_hash vtx) = Some root /\
    (forall n tx, vtx !! n = Some tx -> shows tx key -> (Z.of_nat n, ck_hash tx) ∈ vMatchedTxn) /\
    (forall n1 n2 tx1 tx2 k o,
       Z.land (bf_nFlags f) BLOOM_UPDATE_MASK = BLOOM_UPDATE_ALL ->
       (n1 < n2)%nat -> vtx !! n1 = Some tx1 -> vtx !! n2 = Some tx2 -> ck_vout tx1 !! k = Some o ->
       key <> [] -> key ∈ script_data (scriptPubKey (out_plain o)) ->
       mkCOutPoint (ck_hash tx1) (Z.of_nat k) ∈ map in_prevout (ck_vin tx2) ->
       (Z.of_nat n2, ck_hash tx2) ∈ vMatchedTxn).
Proof.
  intros Hne Hmax Hd Hrange HHash. pose proof (UpdateEmptyFull_usable f) as Hu.
  destruct (insert_spec _ key Hu) as (g & Eg & Hg & Hc). pose proof (usable_fewer _ _ Hg Hu) as Hug.
  destruct (filter_block_spec vtx 0 g Hug) as (vMatch & matched & h & Eb & Hh & El & Em). change (Z.of_nat 0) with 0 in Eb.
  destruct (partial_wire Hash (map ck_hash vtx) vMatch rest) as (t & t' & root & E1 & E2 & E3 & E4).
  { by destruct vtx. } { by rewrite length_map. } { by rewrite length_map. } { by rewrite length_map. } { by apply Forall_map. } { done. }
  exists g, t, matched, h, t', root. split; [done|]. unfold CMerkleBlock_filter. rewrite Eb. cbn [mbind option_bind]. rewrite E1.
  split; [done|]. split; [done|]. split; [by rewrite Em|]. split; [done|]. split.
  - intros n tx Hn Hs. rewrite Em. apply (selected_lookup _ _ 0 n); [by rewrite list_lookup_fmap, Hn|].
    by apply (filter_block_marks vtx 0 g key n tx vMatch matched h).
  - intros n1 n2 tx1 tx2 k o Hall Hlt H1 H2 Ho Hk Hin Hsp. rewrite Em. apply (selected_lookup _ _ 0 n2); [by rewrite list_lookup_fmap, H2|].
    apply (filter_block_spends vtx 0 g key n1 n2 tx1 tx2 k o vMatch matched h); try done. by rewrite (fewer_flags _ _ Hg).
Qed.

(** A payment to the key in the second transaction, spent by the fourth. *)
Lemma filtered_block_complete_witness :
  let out := plain_out 5 [2; 7; 9; 0x87] in
  let tx h vin vout := mkCheckedTx h 1 0 vin vout 0 [] [] in
  let vtx := [tx 1 [] []; tx 2 [] [out]; tx 3 [] []; tx 4 [mkCTxIn (mkCOutPoint 2 0) [] 0] []; tx 5 [] []] in
  exists g t matched h t' root,
    bloom_insert (UpdateEmptyFull (mkBloom (replicate 32 0) false false 5 3 BLOOM_UPDATE_ALL)) [7; 9] = Some g /\
    CMerkleBlock_filter sum_hash vtx g = Some (t, matched, h) /\
    read_partial (ser_partial t ++ [7]) = Some (t', [7]) /\ ExtractMatches sum_hash t' [] = (root, matched.*2, matched.*1, t') /\
    (1, 2) ∈ matched /\ (3, 4) ∈ matched.
Proof.
  intros out tx vtx.
  destruct (filtered_block_complete sum_hash vtx (mkBloom (replicate 32 0) false false 5 3 BLOOM_UPDATE_ALL) [7; 9] [7])
    as (g & t & matched & h & t' & root & E1 & E2 & E3 & E4 & _ & H1 & H2).
  - done.
  - vm_compute. discriminate.
  - vm_compute. reflexivity.
  - repeat constructor; vm_compute; done.
  - intros x y. apply Z.mod_pos_bound. vm_compute. reflexivity.
  - assert ([7; 9] ∈ script_data (scriptPubKey (out_plain out))) as Hin by (by apply (bool_decide_unpack _); vm_compute).
    exists g, t, matched, h, t', root. split; [exact E1|]. split; [exact E2|]. split; [exact E3|]. split; [exact E4|]. split.
    + apply (H1 1%nat (tx 2 [] [out])); [reflexivity|]. right; left. exists out. split; [by left|]. split; [discriminate|exact Hin].
    + apply (H2 1%nat 3%nat (tx 2 [] [out]) (tx 4 [mkCTxIn (mkCOutPoint 2 0) [] 0] []) 0%nat out);
        [reflexivity|lia|reflexivity|reflexivity|reflexivity|discriminate|exact Hin|by left].
Defined.
