(* ===== verification/ScriptFlags.v ===== *)
(** * Verification flags only reject more ([script/interpreter.h])

    The comments of the flags call them safe for a soft fork: a script that is
    accepted with a flag is accepted without it, with the same result.  Two
    combinations are left out: the opcodes of lock times are rejected as
    unknown instructions by the flag that discourages those, and some
    assertions tie flags to each other. *)
From S2P Require Import Prelude Bytes HashFunctions VoteScript Transaction TxCheck Script Interpreter InterpreterProps.

(** The flags of [f] are flags of [g]. *)
Definition flags_le (f g : Z) : Prop := Z.land f g = f.

(** A set that discourages unknown instructions knows the same ones. *)
Definition nops_agree (f g : Z) : Prop :=
  flag_set f SCRIPT_VERIFY_DISCOURAGE_UPGRADABLE_NOPS = true ->
  flag_set f SCRIPT_VERIFY_CHECKLOCKTIMEVERIFY = flag_set g SCRIPT_VERIFY_CHECKLOCKTIMEVERIFY /\
  flag_set f SCRIPT_VERIFY_CHECKSEQUENCEVERIFY = flag_set g SCRIPT_VERIFY_CHECKSEQUENCEVERIFY.

Create HintDb imp.

Section flags.
Context (RIPEMD160 SHA1 SHA256 : list Z -> list Z) (CheckLowS : list Z -> bool) (checker : BaseSignatureChecker).
Context (f g : Z) (Hle : flags_le f g) (Hnops : nops_agree f g).

Lemma flag_mono m : flag_set f m = true -> flag_set g m = true.
Proof.
  unfold flag_set. rewrite !negb_true_iff, !Z.eqb_neq. intros Hf Hg. apply Hf. rewrite <- Hle, <- Z.land_assoc, Hg.
  apply Z.land_0_r.
Qed.

(** A test that only rejects when the flag is set. *)
Lemma imp_reject {A} m b e (m1 m2 : Ev A) :
  ev_imp m1 m2 -> ev_imp (if flag_set g m && b then Fail e else m1) (if flag_set f m && b then Fail e else m2).
Proof.
  intros H. pose proof (flag_mono m) as Hm. destruct (flag_set g m), (flag_set f m), b; cbn; try done;
    try (specialize (Hm eq_refl); done).
Qed.

Lemma imp_if {A} (b : bool) (m1 m2 m1' m2' : Ev A) :
  ev_imp m1 m2 -> ev_imp m1' m2' -> ev_imp (if b then m1 else m1') (if b then m2 else m2').
Proof. by destruct b. Qed.

Lemma imp_refl {A} (m : Ev A) : ev_imp m m.
Proof. done. Qed.

Lemma imp_bind {A B} (m1 m2 : Ev A) (f1 f2 : A -> Ev B) :
  ev_imp m1 m2 -> (forall a, ev_imp (f1 a) (f2 a)) -> ev_imp (ev_bind m1 f1) (ev_bind m2 f2).
Proof. intros H1 H2. by apply ev_imp_bind. Qed.

Hint Resolve imp_refl imp_if imp_bind imp_reject : imp.

Lemma ScriptNum_imp vch n : ev_imp (ScriptNum g vch n) (ScriptNum f vch n).
Proof.
  unfold ScriptNum, CScriptNum_of_vch, fRequireMinimal, has. intros z. destruct (n <? length vch)%nat; [done|].
  pose proof (flag_mono SCRIPT_VERIFY_MINIMALDATA) as Hm.
  destruct (flag_set g _), (flag_set f _); cbn [andb]; try done. 2: by specialize (Hm eq_refl).
  by destruct (_ && _ && _).
Qed.

Lemma enc_sig_imp vch : ev_imp (CheckSignatureEncoding CheckLowS g vch) (CheckSignatureEncoding CheckLowS f vch).
Proof.
  unfold CheckSignatureEncoding, has. apply imp_if; [done|]. apply imp_reject. apply imp_bind; [|intros _; by apply imp_reject].
  pose proof (flag_mono SCRIPT_VERIFY_LOW_S) as Hm. destruct (flag_set g _), (flag_set f _); try done.
  - by intros [] _.
  - by specialize (Hm eq_refl).
Qed.

Section sigversion.
Context (sigversion : SigVersion).

Lemma enc_pub_imp vch : ev_imp (CheckPubKeyEncoding g sigversion vch) (CheckPubKeyEncoding f sigversion vch).
Proof. unfold CheckPubKeyEncoding, has. rewrite <- !andb_assoc. auto with imp. Qed.

Hint Resolve ScriptNum_imp enc_sig_imp enc_pub_imp : imp.

Definition imp (h1 h2 : Handler) : Prop := forall opcode pc fExec st, ev_imp (h1 opcode pc fExec st) (h2 opcode pc fExec st).

Lemma nop_imp st : ev_imp (discouraged_nop g st) (discouraged_nop f st).
Proof.
  unfold discouraged_nop, has. pose proof (flag_mono SCRIPT_VERIFY_DISCOURAGE_UPGRADABLE_NOPS) as Hm.
  destruct (flag_set g _), (flag_set f _); try done. by specialize (Hm eq_refl).
Qed.

(** A lock time opcode, a no-op without its flag [m]. *)
Lemma locktime_imp m (st : EvalState) (body : Z -> Ev EvalState) :
  (flag_set f SCRIPT_VERIFY_DISCOURAGE_UPGRADABLE_NOPS = true -> flag_set f m = flag_set g m) ->
  (forall fl, body fl = Val st \/ forall st', body fl <> Val st') -> ev_imp (body g) (body f) ->
  ev_imp (if negb (flag_set g m) then discouraged_nop g st else body g)
         (if negb (flag_set f m) then discouraged_nop f st else body f).
Proof.
  intros Hag Hval Hb. pose proof (flag_mono m) as Hm. destruct (flag_set g m), (flag_set f m); cbn [negb]; try done.
  - intros st' E. destruct (Hval g) as [E'|E']; [|by specialize (E' st')]. assert (st' = st) as -> by congruence.
    unfold discouraged_nop, has. destruct (flag_set f SCRIPT_VERIFY_DISCOURAGE_UPGRADABLE_NOPS); [|done].
    by specialize (Hag eq_refl).
  - by specialize (Hm eq_refl).
  - apply nop_imp.
Qed.

Lemma cltv_imp : imp (op_checklocktimeverify checker g) (op_checklocktimeverify checker f).
Proof.
  intros opcode pc fExec st. unfold op_checklocktimeverify, has.
  apply (locktime_imp _ st (fun fl => match es_stack st with
    | [] => Fail SCRIPT_ERR_INVALID_STACK_OPERATION
    | x :: _ => let* nLockTime := ScriptNum fl x 5 in
       if nLockTime <? 0 then Fail SCRIPT_ERR_NEGATIVE_LOCKTIME
       else guard CheckLockTime checker nLockTime else SCRIPT_ERR_UNSATISFIED_LOCKTIME; Val st end)).
  - intros H. by apply Hnops.
  - intros fl. destruct (es_stack st) as [|x s]; [by right|]. destruct (ScriptNum fl x 5); cbn [ev_bind]; try (by right).
    repeat case_match; first [by left|by right].
  - destruct (es_stack st); auto with imp.
Qed.

Lemma csv_imp : imp (op_checksequenceverify checker g) (op_checksequenceverify checker f).
Proof.
  intros opcode pc fExec st. unfold op_checksequenceverify, has.
  apply (locktime_imp _ st (fun fl => match es_stack st with
    | [] => Fail SCRIPT_ERR_INVALID_STACK_OPERATION
    | x :: _ => let* nSequence := ScriptNum fl x 5 in
       if nSequence <? 0 then Fail SCRIPT_ERR_NEGATIVE_LOCKTIME
       else if flag_set nSequence SEQUENCE_LOCKTIME_DISABLE_FLAG then Val st
       else guard CheckSequence checker nSequence else SCRIPT_ERR_UNSATISFIED_LOCKTIME; Val st end)).
  - intros H. by apply Hnops.
  - intros fl. destruct (es_stack st) as [|x s]; [by right|]. destruct (ScriptNum fl x 5); cbn [ev_bind]; try (by right).
    repeat case_match; first [by left|by right].
  - destruct (es_stack st); auto with imp.
Qed.

Lemma op_if_imp : imp (op_if g sigversion) (op_if f sigversion).
Proof.
  intros opcode pc fExec st. unfold op_if. destruct fExec; [|done]. destruct (es_stack st) as [|vch s]; [done|].
  unfold minimal_if, has. rewrite (andb_comm (bool_decide _) (flag_set g _)), (andb_comm (bool_decide _) (flag_set f _)).
  rewrite <- !andb_assoc, !if_negb. auto with imp.
Qed.

Lemma op_pick_roll_imp : imp (op_pick_roll g) (op_pick_roll f).
Proof. intros opcode pc fExec st. unfold op_pick_roll. destruct (es_stack st) as [|? []]; auto with imp. Qed.

Lemma op_unary_imp : imp (op_unary g) (op_unary f).
Proof. intros opcode pc fExec st. unfold op_unary. destruct (es_stack st); auto with imp. Qed.

Lemma op_binary_imp : imp (op_binary g) (op_binary f).
Proof. intros opcode pc fExec st. unfold op_binary. destruct (es_stack st) as [|? []]; auto with imp. Qed.

Lemma op_within_imp : imp (op_within g) (op_within f).
Proof.
  intros opcode pc fExec st. unfold op_within, on_stack. destruct (es_stack st) as [|? [|? []]]; auto 10 with imp.
Qed.

Lemma op_checksig_imp : imp (op_checksig CheckLowS checker g sigversion) (op_checksig CheckLowS checker f sigversion).
Proof.
  intros opcode pc fExec st. unfold op_checksig. destruct (es_stack st) as [|x1 [|x2 s]]; [done..|].
  apply imp_bind; [auto with imp|intros _]. apply imp_bind; [auto with imp|intros _]. cbv zeta. unfold has.
  rewrite (andb_comm (negb _) (flag_set g _)), (andb_comm (negb _) (flag_set f _)). rewrite <- !andb_assoc. auto with imp.
Qed.

Lemma multisig_loop_imp fuel s code isig ikey nSigs nKeys b :
  ev_imp (multisig_loop CheckLowS checker g sigversion fuel s code isig ikey nSigs nKeys b)
         (multisig_loop CheckLowS checker f sigversion fuel s code isig ikey nSigs nKeys b).
Proof.
  revert isig ikey nSigs nKeys b; induction fuel as [|fuel IH]; intros isig ikey nSigs nKeys b; cbn [multisig_loop];
    apply imp_if; try done. repeat (apply imp_bind; [auto with imp|intros ?]). apply IH.
Qed.

Lemma multisig_cleanup_imp n b ikey2 s : ev_imp (multisig_cleanup g n b ikey2 s) (multisig_cleanup f n b ikey2 s).
Proof.
  revert ikey2 s; induction n as [|n IH]; intros ikey2 s; cbn [multisig_cleanup]; [done|].
  apply imp_bind; [|intros _; apply imp_bind; [done|intros s'; apply IH]]. unfold has.
  pose proof (flag_mono SCRIPT_VERIFY_NULLFAIL) as Hm. destruct (flag_set g _), (flag_set f _); try done.
  - rewrite andb_false_r. cbn [andb]. intros [] _. done.
  - by specialize (Hm eq_refl).
Qed.

Hint Resolve multisig_loop_imp multisig_cleanup_imp : imp.

Lemma op_checkmultisig_imp :
  imp (op_checkmultisig CheckLowS checker g sigversion) (op_checkmultisig CheckLowS checker f sigversion).
Proof.
  intros opcode pc fExec st. unfold op_checkmultisig. cbv zeta.
  repeat first [apply imp_refl | apply imp_bind; [auto with imp|intros ?] | apply imp_if].
  case_match; [done|]. unfold has. auto with imp.
Qed.

(** The two tables of the [switch], case by case. *)
Lemma op_table_imp :
  Forall2 (fun c1 c2 => c1.1 = c2.1 /\ imp c1.2 c2.2)
    (op_table RIPEMD160 SHA1 SHA256 CheckLowS checker g sigversion)
    (op_table RIPEMD160 SHA1 SHA256 CheckLowS checker f sigversion).
Proof.
  unfold op_table. repeat apply Forall2_cons_2; try apply Forall2_nil_2; cbn [fst snd]; split; try reflexivity;
  first [ apply cltv_imp | apply csv_imp | apply op_if_imp | apply op_pick_roll_imp | apply op_unary_imp | apply op_binary_imp
        | apply op_within_imp | apply op_checksig_imp | apply op_checkmultisig_imp
        | intros opcode pc fExec st; first [apply nop_imp | apply imp_refl] ].
Qed.

Lemma switch_imp opcode :
  imp (switch RIPEMD160 SHA1 SHA256 CheckLowS checker g sigversion opcode)
      (switch RIPEMD160 SHA1 SHA256 CheckLowS checker f sigversion opcode).
Proof.
  unfold switch. pose proof op_table_imp as H. induction H as [|[l1 h1] [l2 h2] t1 t2 [E Hh] _ IH]; [by intros ????|].
  cbn [find fst snd] in *. subst l2. by destruct (existsb _ l1).
Qed.

Lemma eval_op_imp opcode data pc st :
  ev_imp (eval_op RIPEMD160 SHA1 SHA256 CheckLowS checker g sigversion opcode data pc st)
         (eval_op RIPEMD160 SHA1 SHA256 CheckLowS checker f sigversion opcode data pc st).
Proof.
  unfold eval_op. cbv zeta. do 3 (apply imp_if; [done|]). apply imp_bind; [|done].
  apply imp_if; [unfold fRequireMinimal, has; by apply imp_reject|]. apply imp_if; [apply switch_imp|done].
Qed.

Lemma eval_loop_imp fuel pc st :
  ev_imp (eval_loop RIPEMD160 SHA1 SHA256 CheckLowS checker g sigversion fuel pc st)
         (eval_loop RIPEMD160 SHA1 SHA256 CheckLowS checker f sigversion fuel pc st).
Proof.
  revert pc st; induction fuel as [|fuel IH]; intros pc st; cbn [eval_loop];
    (destruct pc as [|b pc]; [apply imp_refl|]); [apply imp_refl|].
  destruct (GetOp _) as [pc' [[opcode data]|]]; [|apply imp_refl]. apply imp_bind; [apply eval_op_imp|]. intros st'. apply IH.
Qed.

Lemma EvalScript_imp stack script :
  ev_imp (EvalScript RIPEMD160 SHA1 SHA256 CheckLowS checker g sigversion stack script)
         (EvalScript RIPEMD160 SHA1 SHA256 CheckLowS checker f sigversion stack script).
Proof.
  unfold EvalScript. apply imp_if; [done|]. apply imp_bind; [|done].
  pose proof (eval_loop_imp (length script) script (mkEval stack [] [] 0 script)) as H.
  destruct (eval_loop _ _ _ _ _ g _ _ _ _) as [st|e|x|]; [by rewrite (H st eq_refl)|intros ?; discriminate..].
Qed.

End sigversion.

Abbreviation witness_program := (VerifyWitnessProgram RIPEMD160 SHA1 SHA256 CheckLowS checker).
Abbreviation with_witness := (check_witness RIPEMD160 SHA1 SHA256 CheckLowS checker).
Abbreviation redeem := (check_p2sh RIPEMD160 SHA1 SHA256 CheckLowS checker).

Lemma witness_program_imp witness v program : ev_imp (witness_program g witness v program) (witness_program f witness v program).
Proof.
  unfold VerifyWitnessProgram. apply imp_if.
  - apply imp_bind; [apply imp_refl|]. intros [script stack]. apply imp_if; [|apply imp_refl].
    apply imp_bind; [apply EvalScript_imp|]. intros s. apply imp_refl.
  - pose proof (flag_mono SCRIPT_VERIFY_DISCOURAGE_UPGRADABLE_WITNESS_PROGRAM) as Hm.
    destruct (flag_set g _), (flag_set f _); try apply imp_refl; [intros ?; discriminate|by specialize (Hm eq_refl)].
Qed.

(** With the flag for witnesses the result is the same, without it the check
    is not made. *)
Lemma with_witness_imp witness script ok e stack had :
  flag_set f SCRIPT_VERIFY_WITNESS = true ->
  ev_imp (with_witness g witness script ok e stack had) (with_witness f witness script ok e stack had).
Proof.
  intros Hf. unfold check_witness. rewrite Hf, (flag_mono _ Hf). destruct (IsWitnessProgram script) as [[v p]|]; [|apply imp_refl].
  apply imp_if; [|apply imp_refl]. apply imp_bind; [apply witness_program_imp|]. intros _. apply imp_refl.
Qed.

Lemma redeem_imp witness scriptSig copy had :
  flag_set f SCRIPT_VERIFY_WITNESS = true ->
  ev_imp (redeem g witness scriptSig copy had) (redeem f witness scriptSig copy had).
Proof.
  intros Hf. unfold check_p2sh. apply imp_if; [|apply imp_refl]. destruct copy as [|x s]; [apply imp_refl|].
  apply imp_bind; [apply EvalScript_imp|]. intros s'. apply imp_bind; [apply imp_refl|]. intros _. by apply with_witness_imp.
Qed.

Lemma redeem_plain witness scriptSig copy had had' r :
  flag_set f SCRIPT_VERIFY_WITNESS = false -> redeem g witness scriptSig copy had = Val r ->
  exists r', redeem f witness scriptSig copy had' = Val r'.
Proof.
  intros Hf. unfold check_p2sh. destruct (IsPushOnly scriptSig); [|done]. destruct copy as [|x s]; [done|].
  intros (s' & E1 & (u & E2 & _)%ev_bind_Val)%ev_bind_Val. apply EvalScript_imp in E1. rewrite E1. cbn [ev_bind]. rewrite E2.
  cbn [ev_bind]. unfold check_witness. rewrite Hf. eauto.
Qed.

Lemma clean_imp (stack : list valtype) :
  flags_consistent f ->
  ev_imp (if flag_set g SCRIPT_VERIFY_CLEANSTACK then
            let* _ := ev_assert (flag_set g SCRIPT_VERIFY_P2SH) in
            let* _ := ev_assert (flag_set g SCRIPT_VERIFY_WITNESS) in
            guard (length stack =? 1)%nat else SCRIPT_ERR_CLEANSTACK; Val tt
          else Val tt)
         (if flag_set f SCRIPT_VERIFY_CLEANSTACK then
            let* _ := ev_assert (flag_set f SCRIPT_VERIFY_P2SH) in
            let* _ := ev_assert (flag_set f SCRIPT_VERIFY_WITNESS) in
            guard (length stack =? 1)%nat else SCRIPT_ERR_CLEANSTACK; Val tt
          else Val tt).
Proof.
  intros [H1 H2]. destruct (flag_set f SCRIPT_VERIFY_CLEANSTACK) eqn:Ec; [|by intros []].
  rewrite (flag_mono _ Ec), (H1 eq_refl), (H2 (H1 eq_refl)), (flag_mono _ (H1 eq_refl)), (flag_mono _ (H2 (H1 eq_refl))).
  apply imp_refl.
Qed.

Lemma VerifyScript_imp scriptSig scriptPubKey witness :
  flags_consistent f ->
  ev_imp (VerifyScript RIPEMD160 SHA1 SHA256 CheckLowS checker g scriptSig scriptPubKey witness)
         (VerifyScript RIPEMD160 SHA1 SHA256 CheckLowS checker f scriptSig scriptPubKey witness).
Proof.
  intros Hc. pose proof Hc as [Hcw Hwp]. unfold VerifyScript. apply imp_reject.
  apply imp_bind; [apply EvalScript_imp|]. intros copy. apply imp_bind; [apply EvalScript_imp|]. intros stack.
  apply imp_bind; [apply imp_refl|]. intros _. destruct (flag_set f SCRIPT_VERIFY_WITNESS) eqn:Ew.
  - rewrite (Hwp eq_refl), (flag_mono _ Ew), (flag_mono _ (Hwp eq_refl)).
    apply imp_bind; [by apply with_witness_imp|]. intros r. apply imp_bind; [apply imp_if; [by apply redeem_imp|apply imp_refl]|].
    intros [s had]. apply imp_bind; [|intros _; apply imp_refl].
    pose proof (clean_imp s Hc) as H. by rewrite Ew, (Hwp eq_refl), (flag_mono _ Ew), (flag_mono _ (Hwp eq_refl)) in H.
  - assert (flag_set f SCRIPT_VERIFY_CLEANSTACK = false) as -> by (apply not_true_is_false; intros E; by specialize (Hcw E)).
    intros [] (r & _ & ([s had] & E & _)%ev_bind_Val)%ev_bind_Val. unfold check_witness at 1. rewrite Ew. cbn [ev_bind].
    destruct (flag_set f SCRIPT_VERIFY_P2SH && _) eqn:Ep; [|done]. apply andb_true_iff in Ep as [Ep1 Ep2].
    rewrite (flag_mono _ Ep1), Ep2 in E. cbn [andb] in E.
    destruct (redeem_plain _ _ _ _ false _ Ew E) as [[s' had'] E']. cbn [snd]. by rewrite E'.
Qed.

End flags.

(** C9: Adding verification flags is a soft fork: what is accepted with the
    flags of [g] is accepted with every part [f] of them, and a run of
    [EvalScript] that succeeds leaves the same stack.  [f] must respect the
    assertions on combinations, and must know the lock time opcodes of [g] when
    it discourages unknown instructions. *)
Theorem flags_soft_fork RIPEMD160 SHA1 SHA256 CheckLowS checker f g :
  flags_le f g -> nops_agree f g -> flags_consistent f ->
  (forall sigversion stack script s,
     EvalScript RIPEMD160 SHA1 SHA256 CheckLowS checker g sigversion stack script = Val s ->
     EvalScript RIPEMD160 SHA1 SHA256 CheckLowS checker f sigversion stack script = Val s) /\
  (forall scriptSig scriptPubKey witness,
     VerifyScript RIPEMD160 SHA1 SHA256 CheckLowS checker g scriptSig scriptPubKey witness = Val tt ->
     VerifyScript RIPEMD160 SHA1 SHA256 CheckLowS checker f scriptSig scriptPubKey witness = Val tt).
Proof.
  intros Hle Hn Hc. split.
  - intros sigversion stack script s. by apply EvalScript_imp.
  - intros scriptSig scriptPubKey witness. by apply VerifyScript_imp.
Qed.

(** A script of the time before witnesses, under the old and the new rules. *)
Lemma flags_soft_fork_witness :
  let new := Z.lor SCRIPT_VERIFY_WITNESS (Z.lor SCRIPT_VERIFY_P2SH SCRIPT_VERIFY_MINIMALDATA) in
  VerifyScript HashFunctions.RIPEMD160 HashFunctions.SHA1 HashFunctions.SHA256 (fun _ => true) base_checker
    SCRIPT_VERIFY_P2SH [0x52; 0x53] [OP_ADD; 0x55; OP_EQUAL] [] = Val tt /\
  VerifyScript HashFunctions.RIPEMD160 HashFunctions.SHA1 HashFunctions.SHA256 (fun _ => true) base_checker
    new [0x52; 0x53] [OP_ADD; 0x55; OP_EQUAL] [] = Val tt.
Proof.
  intros new. assert (VerifyScript HashFunctions.RIPEMD160 HashFunctions.SHA1 HashFunctions.SHA256 (fun _ => true) base_checker
    new [0x52; 0x53] [OP_ADD; 0x55; OP_EQUAL] [] = Val tt) as E by (vm_compute; reflexivity).
  split; [|exact E].
  refine (proj2 (flags_soft_fork HashFunctions.RIPEMD160 HashFunctions.SHA1 HashFunctions.SHA256 (fun _ => true) base_checker
    SCRIPT_VERIFY_P2SH new _ _ _) [0x52; 0x53] [OP_ADD; 0x55; OP_EQUAL] [] E).
  - vm_compute. reflexivity.
  - intros H. vm_compute in H. discriminate H.
  - split; intros H; vm_compute in H; discriminate H.
Defined.
