(* ===== verification/ScriptSpend.v ===== *)
(** * What it takes to spend an output ([script/interpreter.cpp])

    [OP_CHECKMULTISIG] against its specification, outputs that commit to a
    script, and the scripts of cold staking. *)
From S2P Require Import Prelude Bytes HashFunctions VoteScript Transaction TxCheck Script Interpreter InterpreterProps.

(** ** Signatures of several keys *)

Definition is_empty (v : valtype) : bool := (length v =? 0)%nat.

Section matching.
Context {A B : Type} (ok : A -> B -> bool).

(** Signatures match keys in order: each signature a later key. *)
Definition matched (sigs : list A) (keys : list B) : Prop :=
  exists ks, ks `sublist_of` keys /\ Forall2 (fun s k => ok s k = true) sigs ks.

(** The first key a signature fits is taken. *)
Fixpoint match_first (sigs : list A) (keys : list B) : bool :=
  match keys with
  | [] => match sigs with [] => true | _ => false end
  | key :: keys =>
    match sigs with
    | [] => true
    | sig :: sigs' => if ok sig key then match_first sigs' keys else match_first sigs keys
    end
  end.

Lemma match_first_short sigs keys : (length keys < length sigs)%nat -> match_first sigs keys = false.
Proof.
  revert sigs; induction keys as [|k keys IH]; intros [|s sigs] H; cbn in *; try lia; try done.
  destruct (ok s k); apply IH; cbn; lia.
Qed.

Lemma matched_tail sig sigs keys : matched (sig :: sigs) keys -> matched sigs keys.
Proof.
  intros (ks & Hs & H). inversion H as [|? k ? ks' _ H' E1 E2]; subst. exists ks'. split; [|done].
  etrans; [|exact Hs]. by apply sublist_cons.
Qed.

(** Taking the first fit is no loss. *)
Lemma match_first_spec sigs keys : match_first sigs keys = true <-> matched sigs keys.
Proof.
  revert sigs; induction keys as [|k keys IH]; intros sigs; cbn [match_first].
  - destruct sigs as [|s sigs]; split; try done.
    + intros _. exists []. by split.
    + intros (ks & Hs & H). apply sublist_nil_r in Hs as ->. inversion H.
  - destruct sigs as [|s sigs].
    + split; [|done]. intros _. exists []. split; [apply sublist_nil_l|done].
    + destruct (ok s k) eqn:E; rewrite IH.
      * split.
        -- intros (ks & Hs & H). exists (k :: ks). split; [by constructor|by constructor].
        -- intros (ks & Hs & H). inversion H as [|? k' ? ks' Hk H' E1 E2]; subst. exists ks'. split; [|done].
           apply sublist_cons_r in Hs as [Hs|(l & [= -> ->] & Hs)]; [|done]. etrans; [|exact Hs]. by apply sublist_cons.
      * split.
        -- intros (ks & Hs & H). exists ks. split; [by constructor|done].
        -- intros (ks & Hs & H). exists ks. split; [|done].
           apply sublist_cons_r in Hs as [Hs|(l & -> & Hs)]; [done|]. inversion H. congruence.
Qed.
End matching.

Lemma small_number z m : 0 <= z <= 20 -> CScriptNum_of_vch (CScriptNum_serialize z) m nDefaultMaxNumSize = Some z.
Proof.
  intros Hz. assert (z ∈ seqZ 0 21) as H by (apply elem_of_seqZ; lia). revert H. clear Hz.
  destruct m; revert z; rewrite <- Forall_forall; repeat (apply Forall_cons; split); done.
Qed.

Section multisig.
Context (CheckLowS : list Z -> bool) (checker : BaseSignatureChecker) (flags : Z) (sigversion : SigVersion).

Lemma ScriptNum_small z : 0 <= z <= 20 -> ScriptNum flags (CScriptNum_serialize z) nDefaultMaxNumSize = Val z.
Proof. intros Hz. unfold ScriptNum. by rewrite small_number. Qed.

Lemma getint_small z : 0 <= z <= 20 -> CScriptNum_getint z = z.
Proof.
  intros Hz. unfold CScriptNum_getint. by rewrite (proj2 (Z.ltb_ge _ _)), (proj2 (Z.ltb_ge _ _)) by lia.
Qed.

Lemma stacktop_app s1 x s2 i : i = Z.of_nat (length s1) + 1 -> stacktop (s1 ++ x :: s2) i = Val x.
Proof. intros ->. unfold stacktop. rewrite list_lookup_middle by lia. done. Qed.

Lemma drop_signatures_spec s1 sigs s2 code :
  drop_signatures sigversion (s1 ++ sigs ++ s2) (Z.of_nat (length s1) + 1) (length sigs) code =
  Val (foldl (drop_signature sigversion) code sigs).
Proof.
  revert s1 code; induction sigs as [|sig sigs IH]; intros s1 code; cbn [length drop_signatures foldl]; [done|].
  rewrite <- app_comm_cons, stacktop_app by done. cbn [ev_bind].
  specialize (IH (s1 ++ [sig]) (drop_signature sigversion code sig)).
  rewrite length_app, <- app_assoc in IH. cbn [length app] in IH. rewrite <- IH. f_equal. lia.
Qed.

(** Signatures and keys are encoded as the flags ask. *)
Definition encoded (sigs keys : list valtype) : Prop :=
  Forall (fun v => CheckSignatureEncoding CheckLowS flags v = Val tt) sigs /\
  Forall (fun v => CheckPubKeyEncoding flags sigversion v = Val tt) keys.

Lemma multisig_loop_spec code s sigs keys p1 p2 t1 t2 b :
  s = p1 ++ sigs ++ t1 -> s = p2 ++ keys ++ t2 -> encoded sigs keys ->
  b = (length sigs <=? length keys)%nat ->
  multisig_loop CheckLowS checker flags sigversion (length keys) s code (Z.of_nat (length p1) + 1)
    (Z.of_nat (length p2) + 1) (Z.of_nat (length sigs)) (Z.of_nat (length keys)) b =
  Val (match_first (fun sig key => CheckSig checker sig key code sigversion) sigs keys).
Proof.
  revert sigs p1 p2 b; induction keys as [|key keys IH]; intros sigs p1 p2 b E1 E2 [Hs Hk] ->.
  { destruct sigs; cbn; done. }
  destruct sigs as [|sig sigs].
  { cbn [length multisig_loop]. by rewrite andb_false_r. }
  destruct (Nat.leb_spec (length (sig :: sigs)) (length (key :: keys))) as [Hle|Hlt].
  2: { rewrite match_first_short by done. by destruct keys. }
  apply Forall_cons in Hs as [Hs1 Hs2]. apply Forall_cons in Hk as [Hk1 Hk2].
  cbn [multisig_loop match_first length]. rewrite (proj2 (Z.ltb_lt 0 _)) by lia. cbn [andb negb].
  rewrite E1 at 1. rewrite <- app_comm_cons, stacktop_app by done. cbn [ev_bind].
  rewrite E2 at 1. rewrite <- app_comm_cons, stacktop_app by done. cbn [ev_bind]. rewrite Hs1, Hk1. cbn [ev_bind].
  cbn [length] in Hle.
  assert (forall l, Z.of_nat (length p2) + 1 + 1 = Z.of_nat (length (p2 ++ [l] : list valtype)) + 1) as L2
    by (intros l; rewrite length_app; cbn [length]; lia).
  replace (Z.of_nat (S (length keys)) - 1) with (Z.of_nat (length keys)) by lia.
  destruct (CheckSig checker sig key code sigversion).
  - specialize (IH sigs (p1 ++ [sig]) (p2 ++ [key]) (length sigs <=? length keys)%nat).
    rewrite <- IH; [|by rewrite <- app_assoc|by rewrite <- app_assoc|by split|done].
    rewrite !length_app. cbn [length]. f_equal; try lia. apply eq_true_iff_eq. rewrite negb_true_iff, Z.ltb_ge, Nat.leb_le. lia.
  - specialize (IH (sig :: sigs) p1 (p2 ++ [key]) (length (sig :: sigs) <=? length keys)%nat).
    rewrite <- IH; [|done|by rewrite <- app_assoc|by split; [constructor|]|done].
    rewrite !length_app. cbn [length]. f_equal; try lia. apply eq_true_iff_eq. rewrite negb_true_iff, Z.ltb_ge, Nat.leb_le. lia.
Qed.

(** Popping the arguments; a failed check asks that the signatures are
    empty. *)
Lemma multisig_cleanup_spec a sigs rest b :
  multisig_cleanup flags (length a + length sigs) b (Z.of_nat (length a)) (a ++ sigs ++ rest) =
  if negb b && has flags SCRIPT_VERIFY_NULLFAIL && negb (forallb is_empty sigs) then Fail SCRIPT_ERR_SIG_NULLFAIL
  else Val rest.
Proof.
  induction a as [|x a IH].
  - change (Z.of_nat (length [])) with 0. cbn [length Nat.add app]. induction sigs as [|sig sigs IH]; cbn [length multisig_cleanup app].
    { by rewrite andb_false_r. }
    rewrite andb_true_r. change (0 =? 0) with true. change (0 <? 0) with false. cbn [forallb popstack ev_bind]. cbv iota.
    rewrite IH. unfold is_empty. destruct (negb b && has flags SCRIPT_VERIFY_NULLFAIL); [|done].
    change (stacktop (sig :: sigs ++ rest) 1) with (Val sig). cbn [ev_bind andb]. by destruct (length sig =? 0)%nat.
  - cbn [length Nat.add multisig_cleanup app]. rewrite (proj2 (Z.eqb_neq _ 0)), andb_false_r by lia. cbn [ev_bind popstack].
    rewrite (proj2 (Z.ltb_lt 0 _)) by lia. replace (Z.of_nat (S (length a)) - 1) with (Z.of_nat (length a)) by lia. apply IH.
Qed.

(** The arguments on the stack, the top first. *)
Definition multisig_stack (sigs keys : list valtype) (dummy : valtype) (s : list valtype) : list valtype :=
  CScriptNum_serialize (Z.of_nat (length keys)) :: keys ++
  CScriptNum_serialize (Z.of_nat (length sigs)) :: sigs ++ dummy :: s.

Lemma op_checkmultisig_spec opcode pc fExec st sigs keys dummy s :
  es_stack st = multisig_stack sigs keys dummy s ->
  (length keys <= 20)%nat -> (length sigs <= length keys)%nat ->
  es_nOpCount st + Z.of_nat (length keys) <= MAX_OPS_PER_SCRIPT -> encoded sigs keys ->
  let code := foldl (drop_signature sigversion) (es_begincodehash st) sigs in
  let b := match_first (fun sig key => CheckSig checker sig key code sigversion) sigs keys in
  let st' := with_nOpCount st (es_nOpCount st + Z.of_nat (length keys)) in
  op_checkmultisig CheckLowS checker flags sigversion opcode pc fExec st =
  if negb b && has flags SCRIPT_VERIFY_NULLFAIL && negb (forallb is_empty sigs) then Fail SCRIPT_ERR_SIG_NULLFAIL
  else if has flags SCRIPT_VERIFY_NULLDUMMY && negb (is_empty dummy) then Fail SCRIPT_ERR_SIG_NULLDUMMY
  else if opcode =? OP_CHECKMULTISIGVERIFY then
    guard b else SCRIPT_ERR_CHECKMULTISIGVERIFY; Val (with_stack st' s)
  else Val (with_stack st' (vchBool b :: s)).
Proof.
  intros Es Hk Hsk Hop Henc code b st'. set (n := Z.of_nat (length keys)) in *. set (m := Z.of_nat (length sigs)) in *.
  assert (length (es_stack st) = 3 + length keys + length sigs + length s)%nat as Hl.
  { rewrite Es. unfold multisig_stack. cbn [length]. rewrite length_app. cbn [length]. rewrite length_app. cbn [length]. lia. }
  set (pk := [CScriptNum_serialize n] : list valtype).
  set (ps := pk ++ keys ++ [CScriptNum_serialize m]).
  assert (es_stack st = pk ++ keys ++ (CScriptNum_serialize m :: sigs ++ dummy :: s)) as E1 by exact Es.
  assert (es_stack st = ps ++ sigs ++ dummy :: s) as E2 by (rewrite Es; subst ps pk; unfold multisig_stack; cbn; by rewrite <- app_assoc).
  assert (Z.of_nat (length ps) = n + 2) as Hps by (subst ps pk; rewrite !length_app; cbn [length]; lia).
  unfold op_checkmultisig. cbv zeta. rewrite Hl. rewrite (proj2 (Z.ltb_ge _ 1)) by lia.
  assert (stacktop (es_stack st) 1 = Val (CScriptNum_serialize n)) as -> by (rewrite Es; done). cbn [ev_bind].
  rewrite ScriptNum_small by (unfold n; lia). cbn [ev_bind]. rewrite getint_small by (unfold n; lia).
  unfold MAX_PUBKEYS_PER_MULTISIG. rewrite (proj2 (Z.ltb_ge n 0)), (proj2 (Z.ltb_ge 20 n)) by (unfold n; lia). cbn [orb].
  rewrite (proj2 (Z.ltb_ge MAX_OPS_PER_SCRIPT _)) by lia. rewrite (proj2 (Z.ltb_ge _ (2 + n))) by (unfold n; lia).
  rewrite E1 at 1. rewrite app_assoc, stacktop_app by (subst pk; rewrite length_app; cbn [length]; unfold n; lia). cbn [ev_bind].
  rewrite ScriptNum_small by (unfold m; lia). cbn [ev_bind]. rewrite getint_small by (unfold m; lia).
  rewrite (proj2 (Z.ltb_ge m 0)), (proj2 (Z.ltb_ge n m)) by (unfold n, m; lia). cbn [orb].
  rewrite (proj2 (Z.ltb_ge _ (2 + n + 1 + m))) by (unfold n, m; lia).
  replace (2 + n + 1) with (Z.of_nat (length ps) + 1) by lia. unfold m at 1. rewrite Nat2Z.id.
  rewrite E2 at 1. rewrite drop_signatures_spec. cbn [ev_bind]. fold code.
  assert (multisig_loop CheckLowS checker flags sigversion (Z.to_nat n) (es_stack st) code (Z.of_nat (length ps) + 1) 2 m n
    true = Val b) as ->.
  { unfold n, m. rewrite Nat2Z.id. apply (multisig_loop_spec code _ sigs keys ps pk _ _ true E2 E1 Henc).
    symmetry. by apply Nat.leb_le. }
  cbn [ev_bind]. replace (Z.to_nat (Z.of_nat (length ps) + 1 + m - 1)) with (length ps + length sigs)%nat by (unfold m; lia).
  rewrite <- Hps, E2, multisig_cleanup_spec. destruct (_ && _ && _); [done|]. cbn [ev_bind]. done.
Qed.

End multisig.

(** C12: [OP_CHECKMULTISIG] succeeds exactly when the signatures can be matched
    in order to keys that check: taking the first key that fits each signature
    never misses a matching.  Its error codes, the dummy element it pops and
    the rule that failed signatures are empty are those of the code. *)
Theorem checkmultisig_correct CheckLowS checker flags sigversion pc fExec st sigs keys dummy s :
  es_stack st = multisig_stack sigs keys dummy s ->
  (length keys <= 20)%nat -> (length sigs <= length keys)%nat ->
  es_nOpCount st + Z.of_nat (length keys) <= MAX_OPS_PER_SCRIPT ->
  encoded CheckLowS flags sigversion sigs keys ->
  let code := foldl (drop_signature sigversion) (es_begincodehash st) sigs in
  exists b,
    (b = true <-> matched (fun sig key => CheckSig checker sig key code sigversion) sigs keys) /\
    op_checkmultisig CheckLowS checker flags sigversion OP_CHECKMULTISIG pc fExec st =
    if negb b && has flags SCRIPT_VERIFY_NULLFAIL && negb (forallb is_empty sigs) then Fail SCRIPT_ERR_SIG_NULLFAIL
    else if has flags SCRIPT_VERIFY_NULLDUMMY && negb (is_empty dummy) then Fail SCRIPT_ERR_SIG_NULLDUMMY
    else Val (with_stack (with_nOpCount st (es_nOpCount st + Z.of_nat (length keys))) (vchBool b :: s)).
Proof.
  intros Es Hk Hs Hop Henc code. eexists. split; [apply match_first_spec|].
  by rewrite (op_checkmultisig_spec _ _ _ _ _ _ _ _ _ _ _ _ Es Hk Hs Hop Henc).
Qed.

(** ** Outputs of keys *)

Section spend.
Context (RIPEMD160 SHA1 SHA256 : list Z -> list Z) (CheckLowS : list Z -> bool) (checker : BaseSignatureChecker).
Context (flags : Z).

Abbreviation runs := (run RIPEMD160 SHA1 SHA256 CheckLowS checker flags SIGVERSION_BASE).
Abbreviation evals := (EvalScript RIPEMD160 SHA1 SHA256 CheckLowS checker flags SIGVERSION_BASE).
Abbreviation hash160 := (Hash160 RIPEMD160 SHA256).

(** What [OP_CHECKSIG] decides. *)
Definition signed (sig pub : valtype) (code : CScript) : Ev bool :=
  let* _ := CheckSignatureEncoding CheckLowS flags sig in
  let* _ := CheckPubKeyEncoding flags SIGVERSION_BASE pub in
  let fSuccess := CheckSig checker sig pub (drop_signature SIGVERSION_BASE code sig) SIGVERSION_BASE in
  if negb fSuccess && has flags SCRIPT_VERIFY_NULLFAIL && negb (length sig =? 0)%nat then Fail SCRIPT_ERR_SIG_NULLFAIL
  else Val fSuccess.

Lemma signed_decided sig pub code : decided (signed sig pub code).
Proof.
  unfold signed, CheckSignatureEncoding, CheckPubKeyEncoding, IsLowDERSignature.
  repeat (case_match; cbn [ev_bind]; try done).
Qed.

Lemma op_checksig_signed pc fExec st pub sig s :
  es_stack st = pub :: sig :: s ->
  op_checksig CheckLowS checker flags SIGVERSION_BASE OP_CHECKSIG pc fExec st =
  let* b := signed sig pub (es_begincodehash st) in Val (with_stack st (vchBool b :: s)).
Proof.
  intros Es. unfold op_checksig, signed. rewrite Es. destruct (CheckSignatureEncoding _ _ _); cbn [ev_bind]; try done.
  destruct (CheckPubKeyEncoding _ _ _); cbn [ev_bind]; try done. cbv zeta. by destruct (_ && _ && _).
Qed.

(** The check of a key and a signature, the rest of the script behind it. *)
Definition key_check (key : list Z) (rest : CScript) : CScript :=
  OP_DUP :: OP_HASH160 :: Z.of_nat (length key) :: key ++ OP_EQUALVERIFY :: OP_CHECKSIG :: rest.

Lemma dispatched_true v opcode : forallb id v = true -> dispatched v opcode = true.
Proof. intros H. unfold dispatched. by rewrite H. Qed.

Lemma run_key key rest pub sig s v n c :
  length key = 20%nat -> forallb id v = true -> 0 <= n <= 197 -> (length s <= 990)%nat ->
  runs (key_check key rest) (mkEval (pub :: sig :: s) [] v n c) =
  if bool_decide (hash160 pub = key) then
    let* b := signed sig pub c in runs rest (mkEval (vchBool b :: s) [] v (n + 4) c)
  else Fail SCRIPT_ERR_EQUALVERIFY.
Proof.
  intros Hk Hv Hn Hs. unfold key_check. set (tail := OP_EQUALVERIFY :: _).
  assert (0 <= n < MAX_OPS_PER_SCRIPT /\ n + 1 < MAX_OPS_PER_SCRIPT /\ n + 1 + 1 < MAX_OPS_PER_SCRIPT /\
          n + 1 + 1 + 1 < MAX_OPS_PER_SCRIPT) as (? & ? & ? & ?) by (unfold MAX_OPS_PER_SCRIPT; lia).
  rewrite run_plain, (dispatched_true _ _ Hv) by (done || lia). autorewrite with switch. unfold op_dup. run_reduce. run_limit.
  rewrite run_plain, (dispatched_true _ _ Hv) by (done || lia). autorewrite with switch. unfold op_hash. run_reduce. run_limit.
  rewrite (run_push _ _ _ _ _ _ _ key) by (unfold plain_data; lia). rewrite Hv. run_reduce. run_limit. subst tail.
  rewrite run_plain, (dispatched_true _ _ Hv) by (done || lia). autorewrite with switch. unfold op_equal. run_reduce.
  change (OP_EQUALVERIFY =? OP_EQUALVERIFY) with true. change (hash_of RIPEMD160 SHA1 SHA256 OP_HASH160 pub) with (hash160 pub).
  destruct (bool_decide (hash160 pub = key)); run_reduce; [|done]. run_limit.
  rewrite run_plain, (dispatched_true _ _ Hv) by (done || lia). autorewrite with switch.
  erewrite op_checksig_signed by reflexivity. run_reduce. destruct (signed sig pub c); try done.
  run_limit. replace (n + 1 + 1 + 1 + 1) with (n + 4) by lia. done.
Qed.

(** The check is passed over in the branch that is not taken. *)
Lemma run_key_skipped key rest s n c :
  length key = 20%nat -> 0 <= n <= 197 -> (length s <= 990)%nat ->
  runs (key_check key rest) (mkEval s [] [false] n c) = runs rest (mkEval s [] [false] (n + 4) c).
Proof.
  intros Hk Hn Hs. unfold key_check. set (tail := OP_EQUALVERIFY :: _).
  assert (0 <= n < MAX_OPS_PER_SCRIPT /\ n + 1 < MAX_OPS_PER_SCRIPT /\ n + 1 + 1 < MAX_OPS_PER_SCRIPT /\
          n + 1 + 1 + 1 < MAX_OPS_PER_SCRIPT) as (? & ? & ? & ?) by (unfold MAX_OPS_PER_SCRIPT; lia).
  do 2 (rewrite run_plain by (done || lia); change (dispatched [false] _) with false; run_reduce; run_limit).
  rewrite (run_push _ _ _ _ _ _ _ key) by (unfold plain_data; lia). run_reduce. run_limit. subst tail.
  do 2 (rewrite run_plain by (done || lia); change (dispatched [false] _) with false; run_reduce; run_limit).
  by replace (n + 1 + 1 + 1 + 1) with (n + 4) by lia.
Qed.

(** The branches of a cold staking script. *)
Definition cold_body (staking spending : list Z) : CScript :=
  OP_COINSTAKE :: OP_IF :: key_check staking (OP_ELSE :: key_check spending [OP_ENDIF]).

Definition cold_key (staking spending : list Z) : list Z := if checker_IsCoinStake checker then staking else spending.

Lemma run_cold staking spending pub sig s n c :
  length staking = 20%nat -> length spending = 20%nat -> 0 <= n <= 150 -> (length s <= 985)%nat ->
  runs (cold_body staking spending) (mkEval (pub :: sig :: s) [] [] n c) =
  if bool_decide (hash160 pub = cold_key staking spending) then
    let* b := signed sig pub c in Val (mkEval (vchBool b :: s) [] [] (n + 12) c)
  else Fail SCRIPT_ERR_EQUALVERIFY.
Proof.
  intros H1 H2 Hn Hs. unfold cold_body, cold_key. run_op op_coinstake. run_limit. run_op op_if.
  replace (minimal_if _ _ (vchBool _)) with true
    by (symmetry; unfold minimal_if; apply negb_true_iff; destruct (checker_IsCoinStake checker); apply andb_false_r).
  change (OP_IF =? OP_NOTIF) with false. run_reduce. run_limit.
  destruct (checker_IsCoinStake checker); change (CastToBool (vchBool true)) with true;
    change (CastToBool (vchBool false)) with false.
  - rewrite run_key by (done || lia). destruct (bool_decide _); [|done].
    pose proof (signed_decided sig pub c). destruct (signed sig pub c) as [b| | |]; try done. run_reduce.
    run_op op_else. change (negb true) with false. run_limit. rewrite run_key_skipped by (cbn [length]; lia).
    run_op op_endif. run_limit. rewrite run_nil. do 2 f_equal. lia.
  - rewrite run_key_skipped by (cbn [length]; lia). run_op op_else. change (negb false) with true. run_limit.
    rewrite run_key by (done || lia). destruct (bool_decide _); [|done].
    pose proof (signed_decided sig pub c). destruct (signed sig pub c) as [b| | |]; try done. run_reduce.
    run_op op_endif. run_limit. rewrite run_nil. do 2 f_equal. lia.
Qed.

(** The scripts of addresses with the key that may spend them: staking a cold
    staked output is up to its staking key, any other transaction to its
    spending key. *)
Inductive locked_by : CScript -> list Z -> Prop :=
  | locked_key key : length key = 20%nat -> locked_by (script_for_key key) key
  | locked_cold staking spending : length staking = 20%nat -> length spending = 20%nat ->
      locked_by (script_for_cold_staking staking spending) (cold_key staking spending)
  | locked_cold_v2 staking spending voting :
      length staking = 20%nat -> length spending = 20%nat -> length voting = 20%nat ->
      locked_by (script_for_cold_staking_v2 staking spending voting) (cold_key staking spending).

Lemma script_for_key_shape key : length key = 20%nat -> script_for_key key = key_check key [].
Proof. intros H. unfold script_for_key, key_check. rewrite push_data_plain by (unfold plain_data; lia). done. Qed.

Lemma script_for_cold_staking_shape staking spending :
  length staking = 20%nat -> length spending = 20%nat ->
  script_for_cold_staking staking spending = cold_body staking spending.
Proof.
  intros H1 H2. unfold script_for_cold_staking, cold_body, key_check. rewrite !push_data_plain by (unfold plain_data; lia).
  do 3 (cbn [app]; rewrite <- ?app_assoc). done.
Qed.

Lemma script_for_cold_staking_v2_shape staking spending voting :
  length staking = 20%nat -> length spending = 20%nat -> length voting = 20%nat ->
  script_for_cold_staking_v2 staking spending voting =
  Z.of_nat (length voting) :: voting ++ OP_DROP :: cold_body staking spending.
Proof.
  intros H1 H2 H3. unfold script_for_cold_staking_v2, cold_body, key_check. rewrite !push_data_plain by (unfold plain_data; lia).
  do 4 (cbn [app]; rewrite <- ?app_assoc). done.
Qed.

(** What running such a script leaves. *)
Definition key_result (key : list Z) (script : CScript) (sig pub : valtype) : Ev (list valtype) :=
  if bool_decide (hash160 pub = key) then let* b := signed sig pub script in Val [vchBool b]
  else Fail SCRIPT_ERR_EQUALVERIFY.

Lemma locked_length script key : locked_by script key -> (length script <= 100)%nat.
Proof.
  intros [key' H|staking spending H1 H2|staking spending voting H1 H2 H3];
    [rewrite script_for_key_shape by done|rewrite script_for_cold_staking_shape by done|
     rewrite script_for_cold_staking_v2_shape by done];
    unfold cold_body, key_check; cbn [length]; rewrite !length_app; cbn [length]; rewrite ?length_app; cbn [length];
    rewrite ?length_app; cbn [length]; lia.
Qed.

Lemma locked_eval script key sig pub :
  locked_by script key -> evals [pub; sig] script = key_result key script sig pub.
Proof.
  intros Hl. pose proof (locked_length _ _ Hl). rewrite EvalScript_run by (unfold MAX_SCRIPT_SIZE; lia).
  unfold key_result. set (c := script) at 2 3. clearbody c.
  assert (forall m : Ev bool, decided m -> forall n,
    (let* st := catch_all (let* b := m in Val (mkEval [vchBool b] [] [] n c)) in
     match es_vfExec st with [] => Val (es_stack st) | _ :: _ => Fail SCRIPT_ERR_UNBALANCED_CONDITIONAL end) =
    (let* b := m in Val [vchBool b])) as Hc by (by intros [] ? ?).
  destruct Hl as [key' H1|staking spending H1 H2|staking spending voting H1 H2 H3].
  - rewrite script_for_key_shape by done. rewrite run_key by (done || cbn; lia). destruct (bool_decide _); [|done].
    change (runs [] ?st) with (Val (A := EvalState) st).
    rewrite <- (Hc _ (signed_decided sig pub c) (0 + 4)). done.
  - rewrite script_for_cold_staking_shape by done. rewrite run_cold by (done || cbn; lia). destruct (bool_decide _); [|done].
    apply Hc, signed_decided.
  - rewrite script_for_cold_staking_v2_shape by done. run_data voting. run_limit. run_op op_drop. run_limit.
    rewrite run_cold by (done || cbn; lia). destruct (bool_decide _); [|done]. apply Hc, signed_decided.
Qed.

(** The script of the input: a signature and a key. *)
Definition sig_script (sig pub : valtype) : CScript := push_data (push_data [] sig) pub.

Lemma sig_script_shape sig pub :
  plain_data sig -> plain_data pub ->
  sig_script sig pub = Z.of_nat (length sig) :: sig ++ Z.of_nat (length pub) :: pub ++ [].
Proof. intros H1 H2. unfold sig_script. rewrite !push_data_plain by done. rewrite app_nil_r. done. Qed.

Lemma sig_script_pushes sig pub : plain_data sig -> plain_data pub -> IsPushOnly (sig_script sig pub) = true.
Proof.
  intros H1 H2. rewrite sig_script_shape by done. unfold plain_data in *. unfold IsPushOnly. cbn [length].
  destruct (length (sig ++ _)) as [|k] eqn:Ek; [rewrite length_app in Ek; lia|]. cbn [fold_ops].
  rewrite GetOp_push by lia. rewrite (proj2 (Z.ltb_ge OP_16 _)) by (unfold OP_16; lia). cbv iota.
  rewrite GetOp_push by lia. rewrite (proj2 (Z.ltb_ge OP_16 _)) by (unfold OP_16; lia). by destruct k.
Qed.

Lemma sig_script_eval sig pub : plain_data sig -> plain_data pub -> evals [] (sig_script sig pub) = Val [pub; sig].
Proof.
  intros H1 H2. pose proof H1 as [_ L1]. pose proof H2 as [_ L2]. rewrite sig_script_shape by done.
  rewrite EvalScript_run
    by (cbn [length]; rewrite !length_app; cbn [length]; rewrite length_app; cbn [length]; unfold MAX_SCRIPT_SIZE; lia).
  rewrite run_push by done. run_reduce. run_limit. rewrite run_push by done. run_reduce. run_limit. done.
Qed.

Lemma locked_forms script key : locked_by script key -> IsWitnessProgram script = None /\ IsPayToScriptHash script = false.
Proof.
  intros [key' H|staking spending H1 H2|staking spending voting H1 H2 H3].
  - rewrite script_for_key_shape by done. unfold IsWitnessProgram, IsPayToScriptHash, key_check.
    cbn [length]. rewrite length_app, H. done.
  - rewrite script_for_cold_staking_shape by done. unfold IsWitnessProgram, IsPayToScriptHash, cold_body, key_check.
    cbn [length]. rewrite length_app, H1. cbn [length]. rewrite length_app, H2. done.
  - rewrite script_for_cold_staking_v2_shape, H3 by done. unfold IsWitnessProgram, IsPayToScriptHash, cold_body, key_check.
    cbn [length]. rewrite length_app, H3. cbn [length]. rewrite length_app, H1. cbn [length]. rewrite length_app, H2. done.
Qed.

Lemma VerifyScript_locked script key sig pub :
  flags_consistent flags -> locked_by script key -> plain_data sig -> plain_data pub ->
  VerifyScript RIPEMD160 SHA1 SHA256 CheckLowS checker flags (sig_script sig pub) script [] =
  let* s := key_result key script sig pub in top_true s.
Proof.
  intros [Hc1 Hc2] Hl H1 H2. destruct (locked_forms _ _ Hl) as [Hw Hp]. unfold VerifyScript.
  rewrite sig_script_pushes, andb_false_r by done. rewrite sig_script_eval by done. cbn [ev_bind].
  rewrite (locked_eval _ _ sig pub Hl). unfold key_result. destruct (bool_decide _); [|done].
  destruct (signed sig pub script) as [b| | |]; cbn [ev_bind]; try done.
  destruct (top_true [vchBool b]) as [[]| | |]; cbn [ev_bind]; try done. unfold check_witness. rewrite Hw, Hp, andb_false_r.
  cbn [ev_bind]. replace (if flag_set flags SCRIPT_VERIFY_WITNESS then _ else _)
    with (Val (A := list valtype * bool) ([vchBool b], false)) by (by case_match). cbn [ev_bind].
  destruct (flag_set flags SCRIPT_VERIFY_CLEANSTACK).
  - rewrite (Hc2 (Hc1 eq_refl)), (Hc1 eq_refl). done.
  - cbn [ev_bind]. destruct (flag_set flags SCRIPT_VERIFY_WITNESS); [|done]. by rewrite (Hc2 eq_refl).
Qed.

(** A script that commits to a script. *)
Lemma script_for_script_shape h : length h = 20%nat -> script_for_script h = p2sh h.
Proof. intros H. unfold script_for_script, p2sh. rewrite push_data_plain, H by (unfold plain_data; lia). done. Qed.

End spend.

(** A key address, a signature and a key. *)
Lemma key_spend RIPEMD160 SHA1 SHA256 CheckLowS checker flags script key sig pub :
  flags_consistent flags -> locked_by checker script key -> plain_data sig -> plain_data pub ->
  VerifyScript RIPEMD160 SHA1 SHA256 CheckLowS checker flags (sig_script sig pub) script [] = Val tt <->
  Hash160 RIPEMD160 SHA256 pub = key /\
  CheckSignatureEncoding CheckLowS flags sig = Val tt /\ CheckPubKeyEncoding flags SIGVERSION_BASE pub = Val tt /\
  CheckSig checker sig pub (fst (FindAndDelete script (push_data [] sig))) SIGVERSION_BASE = true.
Proof.
  intros Hc Hl H1 H2. rewrite (VerifyScript_locked _ _ _ _ _ _ _ _ _ _ Hc Hl H1 H2). unfold key_result, signed.
  change (drop_signature SIGVERSION_BASE script sig) with (fst (FindAndDelete script (push_data [] sig))).
  case_bool_decide as Hh; [|split; [done|]; by intros (? & _)].
  destruct (CheckSignatureEncoding CheckLowS flags sig) as [[]| | |]; cbn [ev_bind]; try (split; [done|]; by intros (_ & ? & _)).
  destruct (CheckPubKeyEncoding flags SIGVERSION_BASE pub) as [[]| | |]; cbn [ev_bind];
    try (split; [done|]; by intros (_ & _ & ? & _)).
  destruct (CheckSig checker sig pub _ _); cbn [negb andb].
  - cbn. tauto.
  - split; [|by intros (_ & _ & _ & ?)]. by destruct (has _ _ && _).
Qed.

(** C10: An output of a key address is spent by exactly the signature of the
    key the address names: the key's hash, the encodings the flags ask for and
    the signature must check.  For a cold staking output that key is the
    staking key in a coinstake and the spending key in any other transaction. *)
Theorem address_spend RIPEMD160 SHA1 SHA256 CheckLowS checker flags script key sig pub :
  flags_consistent flags -> locked_by checker script key -> plain_data sig -> plain_data pub ->
  VerifyScript RIPEMD160 SHA1 SHA256 CheckLowS checker flags (sig_script sig pub) script [] = Val tt <->
  Hash160 RIPEMD160 SHA256 pub = key /\
  CheckSignatureEncoding CheckLowS flags sig = Val tt /\ CheckPubKeyEncoding flags SIGVERSION_BASE pub = Val tt /\
  CheckSig checker sig pub (fst (FindAndDelete script (push_data [] sig))) SIGVERSION_BASE = true.
Proof. apply key_spend. Qed.

(** C13: An output that commits to a script is spent only by pushing a script
    with that hash, whose evaluation on the other elements ends in true. *)
Theorem script_address_spend RIPEMD160 SHA1 SHA256 CheckLowS checker flags h scriptSig witness :
  HashLaws RIPEMD160 -> HashLaws SHA1 -> HashLaws SHA256 ->
  flag_set flags SCRIPT_VERIFY_P2SH = true -> length h = 20%nat -> Forall byte scriptSig ->
  VerifyScript RIPEMD160 SHA1 SHA256 CheckLowS checker flags scriptSig (script_for_script h) witness = Val tt ->
  IsPushOnly scriptSig = true /\
  exists redeem s x s',
    EvalScript RIPEMD160 SHA1 SHA256 CheckLowS checker flags SIGVERSION_BASE [] scriptSig = Val (redeem :: s) /\
    Hash160 RIPEMD160 SHA256 redeem = h /\
    EvalScript RIPEMD160 SHA1 SHA256 CheckLowS checker flags SIGVERSION_BASE s redeem = Val (x :: s') /\
    CastToBool x = true.
Proof.
  intros HR HS1 HS2 Hp Hh Hb. rewrite script_for_script_shape by done. unfold VerifyScript. case_match; [done|].
  intros (copy & E1 & (stack & E2 & (u & E3 & (r & _ & (r' & E4 & _)%ev_bind_Val)%ev_bind_Val)%ev_bind_Val)%ev_bind_Val)%ev_bind_Val.
  destruct (EvalScript_Val RIPEMD160 SHA1 SHA256 CheckLowS checker flags _ _ _ _ Hb (Forall_nil_2 _) ltac:(cbn; lia) E1) as [_ Hn].
  assert (IsPayToScriptHash (p2sh h) = true) as Hf.
  { unfold IsPayToScriptHash, p2sh. rewrite !length_app, Hh. cbn [length andb Nat.add Nat.eqb].
    change (byte_at ([OP_HASH160; 20] ++ h ++ [OP_EQUAL]) 22) with (byte_at (h ++ [OP_EQUAL]) 20).
    unfold byte_at at 3. rewrite lookup_app_r by lia. rewrite Hh. done. }
  rewrite Hp, Hf in E4. cbn [andb] in E4. unfold check_p2sh in E4. destruct (IsPushOnly scriptSig); [|done]. split; [done|].
  destruct copy as [|redeem s]; [done|]. apply ev_bind_Val in E4 as (s' & E4 & (u' & E5 & _)%ev_bind_Val).
  destruct s' as [|x s']; [done|]. cbn in E5. destruct (CastToBool x) eqn:Ex; [|done].
  exists redeem, s, x, s'. split; [done|]. split; [|by split].
  destruct (decide (length (redeem :: s) <= 999)%nat) as [Hs|Hs].
  - rewrite EvalScript_p2sh in E2 by done. injection E2 as <-. cbn in E3. by case_bool_decide.
  - cbn [length] in Hs, Hn. rewrite EvalScript_p2sh_full in E2 by (done || cbn; lia). done.
Qed.

(** ** Concrete spends *)

(** A toy signature scheme: a signature is the key with a byte of the hash type
    behind. *)
Definition toy_checker : BaseSignatureChecker :=
  mkChecker (fun sig key _ _ => bool_decide (sig = key ++ [1])) (fun _ => false) (fun _ => false) false.

Lemma checkmultisig_correct_witness :
  op_checkmultisig (fun _ => true) toy_checker SCRIPT_VERIFY_NULLDUMMY SIGVERSION_BASE OP_CHECKMULTISIG [] true
    (mkEval (multisig_stack [[9; 1]; [7; 1]] [[9]; [8]; [7]] [] []) [] [] 0 []) =
  Val (with_stack (with_nOpCount (mkEval (multisig_stack [[9; 1]; [7; 1]] [[9]; [8]; [7]] [] []) [] [] 0 []) 3) [[1]]).
Proof.
  destruct (checkmultisig_correct (fun _ => true) toy_checker SCRIPT_VERIFY_NULLDUMMY SIGVERSION_BASE [] true
    (mkEval (multisig_stack [[9; 1]; [7; 1]] [[9]; [8]; [7]] [] []) [] [] 0 []) [[9; 1]; [7; 1]] [[9]; [8]; [7]] [] [])
    as (b & Hb & E).
  - reflexivity.
  - cbn. lia.
  - cbn. lia.
  - vm_compute. discriminate.
  - split; repeat constructor.
  - assert (b = true) as ->.
    { apply Hb. exists [[9]; [7]]. split; [repeat constructor|]. repeat constructor. }
    exact E.
Defined.

(** The key hash of the address of the key [9; 9; 9]. *)
Definition toy_key : list Z := Hash160 HashFunctions.RIPEMD160 HashFunctions.SHA256 [9; 9; 9].

Lemma address_spend_witness :
  length toy_key = 20%nat /\
  VerifyScript HashFunctions.RIPEMD160 HashFunctions.SHA1 HashFunctions.SHA256 (fun _ => true) toy_checker
    SCRIPT_VERIFY_P2SH (sig_script [9; 9; 9; 1] [9; 9; 9]) (script_for_key toy_key) [] = Val tt.
Proof.
  assert (length toy_key = 20%nat) as Hl by (vm_compute; reflexivity). split; [exact Hl|].
  apply (address_spend HashFunctions.RIPEMD160 HashFunctions.SHA1 HashFunctions.SHA256 (fun _ => true) toy_checker
    SCRIPT_VERIFY_P2SH (script_for_key toy_key) toy_key [9; 9; 9; 1] [9; 9; 9]).
  - split; intros H; vm_compute in H; discriminate H.
  - exact (locked_key toy_checker toy_key Hl).
  - split; cbn; lia.
  - split; cbn; lia.
  - unfold toy_key. split; [reflexivity|]. split; [reflexivity|]. split; [reflexivity|]. vm_compute. reflexivity.
Defined.

(** The script that adds to five behind its hash. *)
Lemma script_address_spend_witness :
  let redeem := [OP_ADD; 0x55; OP_EQUAL] in
  IsPushOnly ([0x52; 0x53] ++ push_data [] redeem) = true.
Proof.
  intros redeem.
  apply (script_address_spend HashFunctions.RIPEMD160 HashFunctions.SHA1 HashFunctions.SHA256 (fun _ => true) base_checker
    SCRIPT_VERIFY_P2SH (Hash160 HashFunctions.RIPEMD160 HashFunctions.SHA256 redeem) ([0x52; 0x53] ++ push_data [] redeem) []).
  - apply _.
  - apply _.
  - apply _.
  - vm_compute. reflexivity.
  - vm_compute. reflexivity.
  - repeat constructor; vm_compute; done.
  - vm_compute. reflexivity.
Defined.
