(* ===== verification/CoinsDisk.v ===== *)
(** * Coins on disk ([compressor.h], [compressor.cpp], [coins.h], [undo.h])

    The compressed formats of scripts and outputs, the record of the unspent
    outputs of a transaction with its mask of available outputs, and the undo
    data of an input.  The curves are code of libraries: the checks of their
    points are parameters. *)
From S2P Require Import Prelude Bytes Chain DaoTypes VoteScript Transaction Serialize Coins.

Definition nSpecialScripts : Z := 6.

Section disk.
Context (pub_IsFullyValid : list Z -> bool) (pub_Decompress : list Z -> option (list Z)).
(** [FromByteVector], the bytes of the point it returns, or [None] when it
    throws. *)
Context (G1_FromByteVector : list Z -> option (list Z)).

(** ** Scripts *)

Definition IsToKeyID (s : CScript) : option (list Z) :=
  if (length s =? 25)%nat && (byte_at s 0 =? OP_DUP) && (byte_at s 1 =? OP_HASH160) && (byte_at s 2 =? 20) &&
     (byte_at s 23 =? OP_EQUALVERIFY) && (byte_at s 24 =? OP_CHECKSIG)
  then Some (sub s 3 23) else None.

Definition IsToScriptID (s : CScript) : option (list Z) :=
  if (length s =? 23)%nat && (byte_at s 0 =? OP_HASH160) && (byte_at s 1 =? 20) && (byte_at s 22 =? OP_EQUAL)
  then Some (sub s 2 22) else None.

Definition IsToPubKey (s : CScript) : option (list Z) :=
  if (length s =? 35)%nat && (byte_at s 0 =? 33) && (byte_at s 34 =? OP_CHECKSIG) &&
     ((byte_at s 1 =? 0x02) || (byte_at s 1 =? 0x03))
  then Some (sub s 1 34)
  else if (length s =? 67)%nat && (byte_at s 0 =? 65) && (byte_at s 66 =? OP_CHECKSIG) && (byte_at s 1 =? 0x04)
  then if pub_IsFullyValid (sub s 1 66) then Some (sub s 1 66) else None
  else None.

Definition Compress (s : CScript) : option (list Z) :=
  match IsToKeyID s with
  | Some keyID => Some (0x00 :: keyID)
  | None =>
    match IsToScriptID s with
    | Some scriptID => Some (0x01 :: scriptID)
    | None =>
      match IsToPubKey s with
      | Some pubkey =>
        let c := byte_at pubkey 0 in
        if (c =? 0x02) || (c =? 0x03) then Some (c :: sub pubkey 1 33)
        else if c =? 0x04 then Some (Z.lor 0x04 (Z.land (byte_at pubkey 64) 0x01) :: sub pubkey 1 33)
        else None
      | None => None
      end
    end
  end.

Definition GetSpecialSize (nSize : Z) : nat :=
  if (nSize =? 0) || (nSize =? 1) then 20
  else if (nSize =? 2) || (nSize =? 3) || (nSize =? 4) || (nSize =? 5) then 32 else 0.

(** The script [Decompress] writes; [None] is [false], which leaves the empty
    script. *)
Definition Decompress (nSize : Z) (x : list Z) : option CScript :=
  if nSize =? 0 then Some ([OP_DUP; OP_HASH160; 20] ++ x ++ [OP_EQUALVERIFY; OP_CHECKSIG])
  else if nSize =? 1 then Some ([OP_HASH160; 20] ++ x ++ [OP_EQUAL])
  else if (nSize =? 2) || (nSize =? 3) then Some ([33; nSize] ++ x ++ [OP_CHECKSIG])
  else if (nSize =? 4) || (nSize =? 5) then
    match pub_Decompress ((nSize - 2) :: x) with
    | Some pubkey => Some ([65] ++ pubkey ++ [OP_CHECKSIG])
    | None => None
    end
  else None.

Definition ser_script (s : CScript) : option (list Z) :=
  match Compress s with
  | Some compr => Some compr
  | None => do n <- WriteVarInt 32 (Z.of_nat (length s) + nSpecialScripts); Some (n ++ s)
  end.

Definition read_script : Reader CScript := fun s =>
  do '(nSize, s) <- ReadVarInt u32 s;
  if nSize <? nSpecialScripts then
    do '(vch, s) <- read_bytes (GetSpecialSize nSize) s;
    Some (default [] (Decompress nSize vch), s)
  else
    let nSize := nSize - nSpecialScripts in
    if MAX_SCRIPT_SIZE <? nSize then do '(_, s) <- read_bytes (Z.to_nat nSize) s; Some ([OP_RETURN], s)
    else read_bytes (Z.to_nat nSize) s.

(** ** Range proofs *)

(** A point that does not decode stays at infinity: the exception is caught. *)
Definition read_G1 : Reader (list Z) := fun s =>
  do '(f, s) <- ReadVector s; Some (default G1_Infinity (G1_FromByteVector f), s).

(** [GetVch] writes 32 bytes, the high one first; [SetVch] reads any number. *)
Definition ser_Scalar (x : Z) : list Z := WriteVector (rev (le_bytes 32 x)).
Definition read_Scalar : Reader Z := fun s => do '(v, s) <- ReadVector s; Some (le_value (rev v), s).

Definition ser_points (v : list (list Z)) : list Z := WriteCompactSize (Z.of_nat (length v)) ++ concat (map WriteVector v).

Fixpoint read_n {A} (r : Reader A) (n : nat) (s : list Z) : option (list A * list Z) :=
  match n with
  | O => Some ([], s)
  | S n => do '(x, s) <- r s; do '(l, s) <- read_n r n s; Some (x :: l, s)
  end.

Definition read_points : Reader (list (list Z)) := fun s =>
  do '(n, s) <- ReadCompactSize s; read_n read_G1 (Z.to_nat n) s.

Definition ser_bp (x : BulletproofsRangeproof) : list Z :=
  ser_points (rp_V x) ++ ser_points (rp_L x) ++ ser_points (rp_R x) ++
  WriteVector (rp_A x) ++ WriteVector (rp_S x) ++ WriteVector (rp_T1 x) ++ WriteVector (rp_T2 x) ++
  ser_Scalar (rp_taux x) ++ ser_Scalar (rp_mu x) ++ ser_Scalar (rp_a x) ++ ser_Scalar (rp_b x) ++ ser_Scalar (rp_t x).

Definition read_bp : Reader BulletproofsRangeproof := fun s =>
  do '(V, s) <- read_points s; do '(L, s) <- read_points s; do '(R, s) <- read_points s;
  do '(A, s) <- read_G1 s; do '(S', s) <- read_G1 s; do '(T1, s) <- read_G1 s; do '(T2, s) <- read_G1 s;
  do '(taux, s) <- read_Scalar s; do '(mu, s) <- read_Scalar s; do '(a, s) <- read_Scalar s;
  do '(b, s) <- read_Scalar s; do '(t, s) <- read_Scalar s;
  Some (mkRangeproof V L R A S' T1 T2 taux mu a b t, s).

(** ** Outputs *)

Definition GetBulletproof (o : TxOut) : BulletproofsRangeproof := default Rangeproof_empty (bp (out_private o)).

Definition ser_tokenId (t : TokenId) : list Z := uint256_bytes (tokenId_token t) ++ le_bytes 8 (tokenId_subid t).
Definition read_tokenId : Reader TokenId := fun s =>
  do '(token, s) <- read_le 32 s; do '(subid, s) <- read_le 8 s; Some (mkTokenId token subid, s).

Definition ser_keys (o : TxOut) : list Z :=
  let p := out_private o in
  WriteVector (ephemeralKey p) ++ WriteVector (outputKey p) ++ WriteVector (spendingKey p) ++ ser_bp (GetBulletproof o).

Definition ser_txout (o : TxOut) : option (list Z) :=
  let p := out_private o in
  do nVal <- WriteVarInt 64 (CompressAmount (u64 (nValue (out_plain o))));
  do head <-
    (if negb (is_empty (vData p)) || negb (tokenId_token (tokenId p) =? 0) then
       do m <- WriteVarInt 64 MARKER_TOKEN; Some (m ++ nVal ++ ser_keys o ++ WriteVector (vData p) ++ ser_tokenId (tokenId p))
     else if out_IsBLSCT o then do m <- WriteVarInt 64 MARKER_BLSCT; Some (m ++ nVal ++ ser_keys o)
     else Some nVal);
  do script <- ser_script (scriptPubKey (out_plain o));
  Some (head ++ script).

Definition read_keys : Reader (list Z * list Z * list Z * BulletproofsRangeproof) := fun s =>
  do '(e, s) <- ReadVector s; do '(k, s) <- ReadVector s; do '(p, s) <- ReadVector s; do '(b, s) <- read_bp s;
  Some ((e, k, p, b), s).

Definition read_txout : Reader TxOut := fun s =>
  do '(nVal, s) <- ReadVarInt u64 s;
  do '(value, private, s) <-
    (if nVal =? MARKER_BLSCT then
       do '(nVal, s) <- ReadVarInt u64 s; do '((e, k, p, b), s) <- read_keys s;
       Some (i64 (DecompressAmount nVal), mkPrivatePart e k p [] TokenId_null (Some b), s)
     else if nVal =? MARKER_TOKEN then
       do '(nVal, s) <- ReadVarInt u64 s; do '((e, k, p, b), s) <- read_keys s;
       do '(d, s) <- ReadVector s; do '(t, s) <- read_tokenId s;
       Some (i64 (DecompressAmount nVal), mkPrivatePart e k p d t (Some b), s)
     else Some (i64 (DecompressAmount nVal), no_private, s));
  do '(script, s) <- read_script s;
  Some (mkTxOut (mkCTxOut value script) private, s).

(** ** The coins of a transaction *)

Definition used (o : TxOut) : bool := negb (out_IsNull o).

(** The outputs of byte [b] of the mask. *)
Definition chunk (l : list TxOut) (b : nat) : list TxOut := take 8 (drop (2 + b * 8) l).

Definition mask_step (l : list TxOut) (acc : nat * Z) (b : nat) : nat * Z :=
  if existsb used (chunk l b) then (S b, acc.2 + 1) else acc.

(** [nBytes] and [nNonzeroBytes]. *)
Definition CalcMaskSize (l : list TxOut) : nat * Z :=
  foldl (mask_step l) (0%nat, 0) (seq 0 ((length l - 2 + 7) / 8)).

Definition mask_byte (l : list TxOut) : Z :=
  foldl (fun chAvail i => if match l !! i with Some o => used o | None => false end
                          then Z.lor chAvail (Z.shiftl 1 (Z.of_nat i)) else chAvail) 0 (seq 0 8).

Definition is_used (l : list TxOut) (i : nat) : bool := match l !! i with Some o => used o | None => false end.

(** [None] is the failed assertion, for coins that are all spent. *)
Definition ser_coins (c : CCoins) : option (list Z) :=
  let l := vout c in
  let '(nMaskSize, nMaskCode) := CalcMaskSize l in
  let fFirst := is_used l 0 in
  let fSecond := is_used l 1 in
  check fFirst || fSecond || negb (nMaskCode =? 0);
  let nCode := u32 (8 * (nMaskCode - (if fFirst || fSecond then 0 else 1)) + (if fCoinBase c then 1 else 0) +
                    (if fFirst then 2 else 0) + (if fSecond then 4 else 0)) in
  do version <- WriteVarInt 32 (co_nVersion c);
  do code <- WriteVarInt 32 nCode;
  let mask := map (fun b => mask_byte (chunk l b)) (seq 0 nMaskSize) in
  do outs <- mapM ser_txout (filter (fun o => used o = true) l);
  do height <- WriteVarInt 32 (co_nHeight c);
  Some (version ++ code ++ mask ++ concat outs ++ height).

Definition mask_bits (chAvail : Z) : list bool :=
  map (fun p => flag_set chAvail (Z.shiftl 1 (Z.of_nat p))) (seq 0 8).

Fixpoint read_mask (nMaskCode : Z) (s : list Z) : option (list bool * list Z) :=
  if nMaskCode <=? 0 then Some ([], s)
  else match s with
  | [] => None
  | chAvail :: s =>
    do '(bits, s) <- read_mask (if chAvail =? 0 then nMaskCode else nMaskCode - 1) s;
    Some (mask_bits chAvail ++ bits, s)
  end.

Fixpoint read_outs (vAvail : list bool) (s : list Z) : option (list TxOut * list Z) :=
  match vAvail with
  | [] => Some ([], s)
  | b :: vAvail =>
    do '(o, s) <- (if b : bool then read_txout s else Some (null_out, s));
    do '(l, s) <- read_outs vAvail s;
    Some (o :: l, s)
  end.

(** [fCoinStake] is not written; the constructor leaves it false. *)
Definition read_coins : Reader CCoins := fun s =>
  do '(version, s) <- ReadVarInt i32 s;
  do '(nCode, s) <- ReadVarInt u32 s;
  let nMaskCode := nCode / 8 + (if flag_set nCode 6 then 0 else 1) in
  do '(bits, s) <- read_mask nMaskCode s;
  do '(l, s) <- read_outs (flag_set nCode 2 :: flag_set nCode 4 :: bits) s;
  do '(height, s) <- ReadVarInt i32 s;
  Some (Cleanup (mkCCoins (flag_set nCode 1) false l height version), s).

(** ** Undo data *)

Definition ser_undo (u : CTxInUndo) : option (list Z) :=
  do code <- WriteVarInt 32 (u32 (un_nHeight u * 2 + (if un_fCoinBase u then 1 else 0)));
  do version <- (if 0 <? un_nHeight u then WriteVarInt 32 (un_nVersion u) else Some []);
  do out <- ser_txout (un_txout u);
  Some (code ++ version ++ out).

Definition read_undo : Reader CTxInUndo := fun s =>
  do '(nCode, s) <- ReadVarInt u32 s;
  let height := nCode / 2 in
  do '(version, s) <- (if 0 <? height then ReadVarInt i32 s else Some (0, s));
  do '(out, s) <- read_txout s;
  Some (mkUndo out (flag_set nCode 1) height version, s).

(** ** Scripts read back *)

(** What the code relies on: a valid uncompressed key is the decompression of
    its abscissa and parity. *)
Context (pub_roundtrip : forall pk, length pk = 65%nat -> byte_at pk 0 = 4 -> pub_IsFullyValid pk = true ->
  pub_Decompress ((Z.lor 0x04 (Z.land (byte_at pk 64) 0x01) - 2) :: sub pk 1 33) = Some pk).

Tactic Notation "spell" integer(n) ident(s) := do n (destruct s as [|? s]; [discriminate|]); destruct s; [|discriminate].

Lemma parity_bits x : Z.land x 0x01 = 0 \/ Z.land x 0x01 = 1.
Proof.
  pose proof (Z.land_ones x 1 ltac:(lia)) as E. change (Z.ones 1) with 1 in E. change (2 ^ 1) with 2 in E.
  rewrite E. pose proof (Z.mod_pos_bound x 2 ltac:(lia)). lia.
Qed.

Lemma sub_length (s : CScript) a b : (a <= b <= length s)%nat -> length (sub s a b) = (b - a)%nat.
Proof. intros H. unfold sub. rewrite length_take, length_drop. lia. Qed.

(** A compressed script starts with its kind and has the size of that kind. *)
Lemma Compress_spec s c :
  Compress s = Some c -> exists k x, c = k :: x /\ 0 <= k < 6 /\ length x = GetSpecialSize k /\ Decompress k x = Some s.
Proof.
  unfold Compress, IsToKeyID. intros Hc. destruct (_ && _) eqn:E in Hc.
  { nav_bool. rewrite Nat.eqb_eq in *. injection Hc as <-. exists 0, (sub s 3 23). split; [done|]. split; [lia|].
    spell 25 s. unfold byte_at in *. cbn in *. subst. done. }
  clear E. unfold IsToScriptID in Hc. destruct (_ && _) eqn:E in Hc.
  { nav_bool. rewrite Nat.eqb_eq in *. injection Hc as <-. exists 1, (sub s 2 22). split; [done|]. split; [lia|].
    spell 23 s. unfold byte_at in *. cbn in *. subst. done. }
  clear E. unfold IsToPubKey in Hc. destruct (_ && _) eqn:E in Hc.
  { apply andb_true_iff in E as [E E2]. nav_bool. rewrite Nat.eqb_eq in *.
    assert (byte_at (sub s 1 34) 0 = byte_at s 1) as Eb by (spell 35 s; reflexivity). rewrite Eb, E2 in Hc. injection Hc as <-.
    exists (byte_at s 1), (sub (sub s 1 34) 1 33). split; [done|].
    assert (byte_at s 1 = 2 \/ byte_at s 1 = 3) as Hk by (apply orb_true_iff in E2 as [?|?]; nav_bool; auto). split; [lia|].
    spell 35 s. unfold byte_at in *. cbn in Hk, H0, H1. subst. destruct Hk; subst; done. }
  clear E. destruct (_ && _) eqn:E in Hc; [|done]. nav_bool. rewrite Nat.eqb_eq in *.
  destruct (pub_IsFullyValid (sub s 1 66)) eqn:Ev; [|done].
  assert (byte_at (sub s 1 66) 0 = 4) as E4 by (spell 67 s; exact H0). rewrite E4 in Hc. cbn [Z.eqb orb] in Hc.
  change (4 =? 2) with false in Hc. change (4 =? 3) with false in Hc. change (4 =? 4) with true in Hc. cbn [orb] in Hc. injection Hc as <-.
  pose proof (pub_roundtrip (sub s 1 66) ltac:(rewrite sub_length; lia) E4 Ev) as Hp.
  eexists _, _. split; [done|]. destruct (parity_bits (byte_at (sub s 1 66) 64)) as [Hb|Hb]; rewrite Hb in *.
  - change (Z.lor 4 0) with 4 in *. split; [lia|]. split; [by rewrite !sub_length by (rewrite ?sub_length; lia)|].
    unfold Decompress. change (4 =? 0) with false. change (4 =? 1) with false. cbn [Z.eqb orb]. change (4 =? 2) with false. change (4 =? 3) with false.
    change (4 =? 4) with true. cbn [orb]. rewrite Hp. f_equal. spell 67 s. unfold byte_at in *. cbn in *. by subst.
  - change (Z.lor 4 1) with 5 in *. split; [lia|]. split; [by rewrite !sub_length by (rewrite ?sub_length; lia)|].
    unfold Decompress. change (5 =? 0) with false. change (5 =? 1) with false. change (5 =? 2) with false. change (5 =? 3) with false.
    change (5 =? 4) with false. change (5 =? 5) with true. cbn [orb]. rewrite Hp. f_equal. spell 67 s. unfold byte_at in *. cbn in *. by subst.
Qed.

Lemma read_kind k x : 0 <= k < 6 -> ReadVarInt u32 (k :: x) = Some (k, x).
Proof.
  intros Hk. destruct (digit_bits k ltac:(lia)) as (E & _ & F & _). unfold ReadVarInt.
  rewrite (varint_read_step u32 (2 ^ 32) u32_small 0 k k x ltac:(lia) ltac:(lia) ltac:(lia) E), F. done.
Qed.

Lemma script_roundtrip s rest :
  Z.of_nat (length s) <= MAX_SCRIPT_SIZE ->
  exists l, ser_script s = Some l /\ read_script (l ++ rest) = Some (s, rest).
Proof.
  intros Hs. unfold MAX_SCRIPT_SIZE in Hs. unfold ser_script. destruct (Compress s) as [c|] eqn:Ec.
  - apply Compress_spec in Ec as (k & x & -> & Hk & Hx & Hd). eexists. split; [done|]. cbn [app]. unfold read_script.
    rewrite read_kind by done. cbn [mbind option_bind]. rewrite (proj2 (Z.ltb_lt k nSpecialScripts)) by (unfold nSpecialScripts; lia).
    rewrite <- Hx, read_bytes_app. cbn [mbind option_bind]. by rewrite Hd.
  - destruct (VarInt32_write (Z.of_nat (length s) + nSpecialScripts) (s ++ rest)) as (out & -> & Hr & _); [unfold nSpecialScripts; lia|].
    cbn [mbind option_bind]. eexists. split; [done|]. rewrite <- app_assoc. unfold read_script. rewrite Hr. cbn [mbind option_bind].
    rewrite (proj2 (Z.ltb_ge _ _)) by (unfold nSpecialScripts; lia).
    replace (Z.of_nat (length s) + nSpecialScripts - nSpecialScripts) with (Z.of_nat (length s)) by lia.
    rewrite (proj2 (Z.ltb_ge _ _)) by (unfold MAX_SCRIPT_SIZE; lia). rewrite Nat2Z.id. apply read_bytes_app.
Qed.

(** A script above the limit comes back as [OP_RETURN]. *)
Lemma script_too_long s rest :
  MAX_SCRIPT_SIZE < Z.of_nat (length s) < 2 ^ 30 ->
  exists l, ser_script s = Some l /\ read_script (l ++ rest) = Some ([OP_RETURN], rest).
Proof.
  intros Hs. unfold MAX_SCRIPT_SIZE in Hs. unfold ser_script. destruct (Compress s) as [c|] eqn:Ec.
  { exfalso. unfold Compress, IsToKeyID, IsToScriptID, IsToPubKey in Ec.
    repeat case_match; simplify_eq; nav_bool; rewrite ?Nat.eqb_eq in *; lia. }
  destruct (VarInt32_write (Z.of_nat (length s) + nSpecialScripts) (s ++ rest)) as (out & -> & Hr & _); [unfold nSpecialScripts; lia|].
  cbn [mbind option_bind]. eexists. split; [done|]. rewrite <- app_assoc. unfold read_script. rewrite Hr. cbn [mbind option_bind].
  rewrite (proj2 (Z.ltb_ge _ _)) by (unfold nSpecialScripts; lia).
  replace (Z.of_nat (length s) + nSpecialScripts - nSpecialScripts) with (Z.of_nat (length s)) by lia.
  rewrite (proj2 (Z.ltb_lt _ _)) by (unfold MAX_SCRIPT_SIZE; lia). rewrite Nat2Z.id, read_bytes_app. done.
Qed.

(** ** Outputs read back *)

(** The form in which an output is read. *)
Definition stored (o : TxOut) : TxOut :=
  let p := out_private o in
  if negb (is_empty (vData p)) || negb (tokenId_token (tokenId p) =? 0) then
    mkTxOut (out_plain o) (mkPrivatePart (ephemeralKey p) (outputKey p) (spendingKey p) (vData p) (tokenId p) (Some (GetBulletproof o)))
  else if out_IsBLSCT o then
    mkTxOut (out_plain o) (mkPrivatePart (ephemeralKey p) (outputKey p) (spendingKey p) [] TokenId_null (Some (GetBulletproof o)))
  else mkTxOut (out_plain o) no_private.

Definition is_plain (o : TxOut) : bool :=
  is_empty (vData (out_private o)) && (tokenId_token (tokenId (out_private o)) =? 0) && negb (out_IsBLSCT o).

Definition point_ok (p : list Z) : Prop := G1_FromByteVector p = Some p /\ Z.of_nat (length p) <= MAX_SIZE.

Record proof_ok (x : BulletproofsRangeproof) : Prop := {
  ok_points : Forall (fun v => Z.of_nat (length v) <= MAX_SIZE /\ Forall point_ok v) [rp_V x; rp_L x; rp_R x];
  ok_point : Forall point_ok [rp_A x; rp_S x; rp_T1 x; rp_T2 x];
  ok_scalar : Forall (fun z => 0 <= z < 2 ^ 256) [rp_taux x; rp_mu x; rp_a x; rp_b x; rp_t x]
}.

Lemma G1_roundtrip p s : point_ok p -> read_G1 (WriteVector p ++ s) = Some (p, s).
Proof. intros [H1 H2]. unfold read_G1. rewrite ReadVector_write by done. cbn [mbind option_bind]. by rewrite H1. Qed.

Lemma Scalar_roundtrip z s : 0 <= z < 2 ^ 256 -> read_Scalar (ser_Scalar z ++ s) = Some (z, s).
Proof.
  intros Hz. unfold read_Scalar, ser_Scalar. rewrite ReadVector_write by (rewrite length_rev, length_le_bytes; done).
  cbn [mbind option_bind]. rewrite rev_involutive, le_value_bytes, Z.mod_small by done. done.
Qed.

Lemma points_roundtrip v s :
  Z.of_nat (length v) <= MAX_SIZE -> Forall point_ok v -> read_points (ser_points v ++ s) = Some (v, s).
Proof.
  intros Hl Hv. unfold read_points, ser_points. rewrite <- app_assoc, CompactSize_read by lia. cbn [mbind option_bind].
  rewrite Nat2Z.id. clear Hl. induction Hv as [|p v Hp _ IH]; [done|]. cbn [length map concat read_n]. rewrite <- app_assoc.
  rewrite G1_roundtrip by done. cbn [mbind option_bind]. by rewrite IH.
Qed.

Lemma bp_roundtrip x s : proof_ok x -> read_bp (ser_bp x ++ s) = Some (x, s).
Proof.
  intros [H1 H2 H3]. rewrite !Forall_cons in H1. rewrite !Forall_cons in H2. rewrite !Forall_cons in H3. destruct_and!. unfold ser_bp, read_bp. rewrite <- !app_assoc.
  do 3 (rewrite points_roundtrip by done; cbn [mbind option_bind]). do 4 (rewrite G1_roundtrip by done; cbn [mbind option_bind]).
  do 5 (rewrite Scalar_roundtrip by done; cbn [mbind option_bind]). by destruct x.
Qed.

Lemma not_plain_token o :
  negb (is_empty (vData (out_private o))) || negb (tokenId_token (tokenId (out_private o)) =? 0) = true -> is_plain o = false.
Proof. unfold is_plain. by destruct (is_empty _), (_ =? _). Qed.

Lemma not_plain_private o : out_IsBLSCT o = true -> is_plain o = false.
Proof. unfold is_plain. intros ->. by rewrite andb_false_r. Qed.

Record out_ok (o : TxOut) : Prop := {
  ok_value : 0 <= nValue (out_plain o) <= 10 ^ 18;
  ok_script : Z.of_nat (length (scriptPubKey (out_plain o))) <= MAX_SCRIPT_SIZE;
  ok_keys : Forall (fun v => Z.of_nat (length v) <= MAX_SIZE)
    [ephemeralKey (out_private o); outputKey (out_private o); spendingKey (out_private o); vData (out_private o)];
  ok_token : 0 <= tokenId_token (tokenId (out_private o)) < 2 ^ 256;
  ok_subid : 0 <= tokenId_subid (tokenId (out_private o)) < 2 ^ 64;
  ok_proof : is_plain o = false -> proof_ok (GetBulletproof o)
}.

Lemma keys_roundtrip o s :
  out_ok o -> is_plain o = false ->
  read_keys (ser_keys o ++ s) =
    Some ((ephemeralKey (out_private o), outputKey (out_private o), spendingKey (out_private o), GetBulletproof o), s).
Proof.
  intros [_ _ Hk _ _ Hp] E. rewrite !Forall_cons in Hk. destruct Hk as (H1 & H2 & H3 & _). unfold read_keys, ser_keys. rewrite <- !app_assoc.
  rewrite ReadVector_write by done. cbn [mbind option_bind]. rewrite ReadVector_write by done. cbn [mbind option_bind].
  rewrite ReadVector_write by done. cbn [mbind option_bind]. by rewrite bp_roundtrip by auto.
Qed.

Lemma tokenId_roundtrip t s :
  0 <= tokenId_token t < 2 ^ 256 -> 0 <= tokenId_subid t < 2 ^ 64 -> read_tokenId (ser_tokenId t ++ s) = Some (t, s).
Proof.
  intros H1 H2. unfold read_tokenId, ser_tokenId, uint256_bytes. rewrite <- app_assoc.
  rewrite read_le_bytes by done. cbn [mbind option_bind]. rewrite read_le_bytes by done. cbn [mbind option_bind]. by destruct t.
Qed.

Lemma marker_read m : m = MARKER_BLSCT \/ m = MARKER_TOKEN ->
  exists l, WriteVarInt 64 m = Some l /\ forall s, ReadVarInt u64 (l ++ s) = Some (m, s).
Proof.
  intros Hm. assert (0 <= m < 2 ^ 64 /\ m + 1 < 2 ^ 64) as [H1 H2].
  { unfold MARKER_BLSCT, MARKER_TOKEN in Hm. lia. }
  destruct (VarInt64_write m [] H1) as (l & Hl & _). exists l. split; [done|]. intros s.
  destruct (VarInt64_write m s H1) as (l' & Hl' & Hr & _). rewrite Hl in Hl'. injection Hl' as <-. auto.
Qed.

Lemma amount_read v : 0 <= v <= 10 ^ 18 ->
  exists l, WriteVarInt 64 (CompressAmount (u64 v)) = Some l /\
    (forall s, ReadVarInt u64 (l ++ s) = Some (CompressAmount v, s)) /\ i64 (DecompressAmount (CompressAmount v)) = v.
Proof.
  intros Hv. assert (10 ^ 18 < 2 ^ 60) as H18 by (vm_compute; reflexivity). rewrite u64_small by lia.
  destruct (CompressAmount_read v ltac:(lia)) as [Hd Hb].
  assert (CompressAmount v + 1 < 2 ^ 64) as Hb1.
  { destruct (Z.eq_dec (CompressAmount v) (2 ^ 64 - 1)) as [E|]; [|lia]. rewrite E in Hd. exfalso.
    assert (DecompressAmount (2 ^ 64 - 1) = 2049638230412174624) as X by (vm_compute; reflexivity).
    assert (2 ^ 60 < 2049638230412174624) by (vm_compute; reflexivity). lia. }
  destruct (VarInt64_write _ [] Hb) as (l & Hl & _). exists l. split; [done|]. split.
  - intros s. destruct (VarInt64_write _ s Hb) as (l' & Hl' & Hr & _). rewrite Hl in Hl'. injection Hl' as <-. auto.
  - rewrite Hd. apply i64_small. lia.
Qed.

(** Every output but a plain one of the amount that compresses to a marker is
    read back. *)
Lemma txout_roundtrip o :
  out_ok o -> (is_plain o = true -> nValue (out_plain o) <> 1888888888888889) ->
  exists l, ser_txout o = Some l /\ forall s, read_txout (l ++ s) = Some (stored o, s).
Proof.
  intros Hok Hplain. pose proof Hok as [Hv Hs Hk Ht Hi Hp].
  destruct (amount_read _ Hv) as (lv & Hlv & Hrv & Hdv). unfold ser_txout. rewrite Hlv. cbn [mbind option_bind].
  destruct (script_roundtrip (scriptPubKey (out_plain o)) [] Hs) as (ls & Hls & _).
  assert (forall s, read_script (ls ++ s) = Some (scriptPubKey (out_plain o), s)) as Hrs.
  { intros s. destruct (script_roundtrip (scriptPubKey (out_plain o)) s Hs) as (ls' & E & Hr). congruence. }
  assert (forall s, mkTxOut (mkCTxOut (nValue (out_plain o)) (scriptPubKey (out_plain o))) s = mkTxOut (out_plain o) s) as Hout
    by (intros s; by destruct (out_plain o)).
  destruct (marker_read MARKER_TOKEN ltac:(auto)) as (lt & Hlt & Hrt).
  destruct (marker_read MARKER_BLSCT ltac:(auto)) as (lb & Hlb & Hrb).
  unfold stored, is_plain in *. destruct (_ || _) eqn:Etok.
  - rewrite Hlt. cbn [mbind option_bind]. rewrite Hls. cbn [mbind option_bind]. eexists. split; [done|]. intros s.
    rewrite <- !app_assoc. unfold read_txout. rewrite Hrt. cbn [mbind option_bind].
    change (MARKER_TOKEN =? MARKER_BLSCT) with false. rewrite Z.eqb_refl. cbn iota. rewrite Hrv. cbn [mbind option_bind].
    rewrite keys_roundtrip by (done || by apply not_plain_token). cbn [mbind option_bind]. rewrite !Forall_cons in Hk. destruct Hk as (_ & _ & _ & Hd & _).
    rewrite ReadVector_write by done. cbn [mbind option_bind]. rewrite tokenId_roundtrip by done. cbn [mbind option_bind].
    rewrite Hrs. cbn [mbind option_bind]. by rewrite Hdv, Hout.
  - apply orb_false_iff in Etok as [Ed Et]. apply negb_false_iff in Ed, Et. rewrite Ed, Et in Hplain. cbn [andb] in Hplain.
    destruct (out_IsBLSCT o) eqn:Eb.
    + rewrite Hlb. cbn [mbind option_bind]. rewrite Hls. cbn [mbind option_bind]. eexists. split; [done|]. intros s.
      rewrite <- !app_assoc. unfold read_txout. rewrite Hrb. cbn [mbind option_bind]. rewrite Z.eqb_refl. rewrite Hrv.
      cbn [mbind option_bind]. rewrite keys_roundtrip by (done || by apply not_plain_private). cbn [mbind option_bind]. rewrite Hrs. cbn [mbind option_bind].
      by rewrite Hdv, Hout.
    + cbn [mbind option_bind]. rewrite Hls. cbn [mbind option_bind]. eexists. split; [done|]. intros s. rewrite <- app_assoc.
      unfold read_txout. rewrite Hrv. cbn [mbind option_bind]. destruct (marker_amounts _ Hv) as [M1 M2].
      rewrite (proj2 (Z.eqb_neq _ _) M1), (proj2 (Z.eqb_neq _ MARKER_TOKEN)) by (rewrite M2; auto).
      cbn [mbind option_bind]. rewrite Hrs. cbn [mbind option_bind]. by rewrite Hdv, Hout.
Qed.

(** An output that is kept as it is. *)
Definition canonical (o : TxOut) : Prop :=
  if is_plain o then out_private o = no_private /\ nValue (out_plain o) <> 1888888888888889
  else is_Some (bp (out_private o)) /\ (tokenId_token (tokenId (out_private o)) = 0 -> is_empty (vData (out_private o)) = true ->
         tokenId (out_private o) = TokenId_null).

Lemma stored_canonical o : canonical o -> stored o = o.
Proof.
  unfold canonical, stored, is_plain, GetBulletproof. destruct o as [po pr]. destruct pr as [e k p d [t i] b]. cbn.
  destruct d as [|d0 d]; cbn [is_empty negb orb andb].
  - destruct (Z.eqb_spec t 0) as [->|Ht]; cbn [negb andb orb].
    + destruct (out_IsBLSCT _); cbn [negb].
      * intros [[x ->] Hn]. cbn. do 2 f_equal. symmetry. auto.
      * intros [-> _]. done.
    + intros [[x ->] Hn]. done.
  - intros [[x ->] Hn]. done.
Qed.

(** ** The mask of available outputs *)

Lemma chunk_used l b i : (i < 8)%nat -> is_used (chunk l b) i = is_used l (2 + b * 8 + i).
Proof. intros Hi. unfold is_used, chunk. rewrite lookup_take_lt by done. by rewrite lookup_drop. Qed.

Lemma chunk_short l b i : (8 <= i)%nat -> is_used (chunk l b) i = false.
Proof. intros Hi. unfold is_used, chunk. by rewrite lookup_take_ge. Qed.

Lemma existsb_used l : existsb used l = true <-> exists i, is_used l i = true.
Proof.
  rewrite existsb_exists. split.
  - intros (o & Ho & Hu). apply list_elem_of_In, list_elem_of_lookup in Ho as [i Hi]. exists i. unfold is_used. by rewrite Hi.
  - intros [i Hi]. unfold is_used in Hi. destruct (l !! i) as [o|] eqn:E; [|done]. exists o. split; [|done].
    apply list_elem_of_In. by eapply list_elem_of_lookup_2.
Qed.

Lemma mask_byte_bits l : mask_bits (mask_byte l) = map (is_used l) (seq 0 8).
Proof.
  unfold mask_byte, mask_bits. cbn [seq foldl map]. fold (is_used l 0) (is_used l 1) (is_used l 2) (is_used l 3) (is_used l 4)
    (is_used l 5) (is_used l 6) (is_used l 7).
  destruct (is_used l 0), (is_used l 1), (is_used l 2), (is_used l 3), (is_used l 4), (is_used l 5), (is_used l 6), (is_used l 7); reflexivity.
Qed.

Lemma mask_byte_zero l b : mask_byte (chunk l b) = 0 <-> existsb used (chunk l b) = false.
Proof.
  rewrite <- not_true_iff_false, existsb_used.
  assert (mask_byte (chunk l b) = 0 <-> forall i, (i < 8)%nat -> is_used (chunk l b) i = false) as ->.
  { generalize (chunk l b). intros c. unfold mask_byte. cbn [seq foldl].
    fold (is_used c 0) (is_used c 1) (is_used c 2) (is_used c 3) (is_used c 4) (is_used c 5) (is_used c 6) (is_used c 7). split.
    - intros Hz i Hi. destruct (is_used c 0) eqn:?, (is_used c 1) eqn:?, (is_used c 2) eqn:?, (is_used c 3) eqn:?, (is_used c 4) eqn:?,
        (is_used c 5) eqn:?, (is_used c 6) eqn:?, (is_used c 7) eqn:?; try discriminate Hz.
      do 8 (destruct i as [|i]; [done|]). lia.
    - intros Hz. by rewrite !Hz by lia. }
  split.
  - intros Hz [i Hi]. destruct (Nat.lt_ge_cases i 8) as [H|H]; [by rewrite Hz in Hi|by rewrite chunk_short in Hi].
  - intros Hn i Hi. apply not_true_iff_false. eauto.
Qed.

(** The number of the first [n] bytes that are not zero. *)
Definition nonzero (l : list TxOut) (n : nat) : Z :=
  Z.of_nat (length (filter (fun b => existsb used (chunk l b) = true) (seq 0 n))).

Lemma nonzero_S l n : nonzero l (S n) = nonzero l n + (if existsb used (chunk l n) then 1 else 0).
Proof.
  unfold nonzero. rewrite seq_S, filter_app, length_app. cbn [Nat.add]. rewrite filter_cons. destruct (existsb used (chunk l n)) eqn:E.
  - rewrite decide_True by done. cbn. lia.
  - rewrite decide_False by done. cbn. lia.
Qed.

Lemma mask_fold l n :
  let '(nBytes, nz) := foldl (mask_step l) (0%nat, 0) (seq 0 n) in
  (nBytes <= n)%nat /\ nz = nonzero l nBytes /\ nonzero l n = nz /\
  (forall b, (nBytes <= b < n)%nat -> existsb used (chunk l b) = false) /\
  match nBytes with O => True | S b => existsb used (chunk l b) = true end.
Proof.
  induction n as [|n IH]; [cbn; split_and!; try done; lia|]. rewrite seq_S, foldl_snoc. cbn [Nat.add].
  destruct (foldl (mask_step l) (0%nat, 0) (seq 0 n)) as [nBytes nz]. destruct IH as (H1 & H2 & H3 & H4 & H5).
  unfold mask_step at 1. cbn [snd]. destruct (existsb used (chunk l n)) eqn:E.
  - rewrite nonzero_S, E. split; [lia|]. split; [lia|]. split; [lia|]. split; [lia|done].
  - rewrite nonzero_S, E. split; [lia|]. split; [done|]. split; [lia|]. split; [|done].
    intros b Hb. destruct (Nat.eq_dec b n) as [->|]; [done|]. apply H4. lia.
Qed.

Lemma CalcMaskSize_spec l :
  let '(nBytes, nz) := CalcMaskSize l in
  nz = nonzero l nBytes /\ (forall i, (2 + nBytes * 8 <= i)%nat -> is_used l i = false) /\
  match nBytes with O => True | S b => existsb used (chunk l b) = true end /\ 0 <= nz <= Z.of_nat (length l).
Proof.
  unfold CalcMaskSize. pose proof (mask_fold l ((length l - 2 + 7) / 8)) as H.
  destruct (foldl _ _ _) as [nBytes nz]. destruct H as (H1 & H2 & H3 & H4 & H5).
  pose proof (Nat.div_mod (length l - 2 + 7) 8 ltac:(lia)) as Hd. pose proof (Nat.mod_upper_bound (length l - 2 + 7) 8 ltac:(lia)) as Hm.
  split; [done|]. split; [|split; [done|]].
  - intros i Hi. destruct (Nat.lt_ge_cases i (length l)) as [Hl|Hl].
    2:{ unfold is_used. by rewrite lookup_ge_None_2 by lia. }
    pose proof (Nat.div_mod (i - 2) 8 ltac:(lia)) as Hd'. pose proof (Nat.mod_upper_bound (i - 2) 8 ltac:(lia)) as Hm'.
    replace i with (2 + (i - 2) / 8 * 8 + (i - 2) mod 8)%nat by lia. rewrite <- chunk_used by lia.
    specialize (H4 ((i - 2) / 8)%nat ltac:(lia)). apply not_true_iff_false in H4. apply not_true_iff_false. intros Hu.
    apply H4, existsb_used. eauto.
  - subst nz. unfold nonzero. split; [lia|]. destruct nBytes as [|k]; [cbn; lia|].
    pose proof (length_filter (fun b => existsb used (chunk l b) = true) (seq 0 (S k))) as Hf. rewrite length_seq in Hf. lia.
Qed.

(** The mask is read to its last byte, which is not zero. *)
Lemma read_mask_bytes bs s :
  match last bs with Some b => b <> 0 | None => True end ->
  read_mask (Z.of_nat (length (filter (fun b => b <> 0) bs))) (bs ++ s) = Some (concat (map mask_bits bs), s).
Proof.
  induction bs as [|b bs IH]; intros Hlast.
  { cbn [app filter list_filter length Z.of_nat]. by destruct s. }
  assert (0 < Z.of_nat (length (filter (fun b => b <> 0) (b :: bs)))) as Hpos.
  { destruct (last (b :: bs)) as [x|] eqn:E; [|by apply last_None in E]. apply last_Some_elem_of in E.
    assert (x ∈ filter (fun b => b <> 0) (b :: bs)) as Hin by (by apply list_elem_of_filter).
    revert Hin. generalize (filter (fun b => b <> 0) (b :: bs)). intros [|y ys] Hin; [by apply not_elem_of_nil in Hin|cbn; lia]. }
  cbn [app read_mask]. rewrite (proj2 (Z.leb_gt _ 0)) by lia.
  replace (if b =? 0 then _ else _) with (Z.of_nat (length (filter (fun b => b <> 0) bs))).
  2:{ rewrite filter_cons. destruct (Z.eqb_spec b 0); [by rewrite decide_False by auto|rewrite decide_True by auto; cbn; lia]. }
  rewrite IH; [done|]. destruct bs as [|b' bs]; [done|exact Hlast].
Qed.

Definition mask_of (l : list TxOut) (nBytes : nat) : list Z := map (fun b => mask_byte (chunk l b)) (seq 0 nBytes).

Lemma mask_of_nonzero l n : Z.of_nat (length (filter (fun b => b <> 0) (mask_of l n))) = nonzero l n.
Proof.
  induction n as [|n IH]; [done|]. rewrite nonzero_S. unfold mask_of in *. rewrite seq_S, map_app, filter_app, length_app. cbn [Nat.add map].
  rewrite Nat2Z.inj_add, IH. f_equal. rewrite filter_cons. destruct (existsb used (chunk l n)) eqn:E.
  - rewrite decide_True; [done|]. rewrite mask_byte_zero. congruence.
  - apply mask_byte_zero in E. by rewrite E.
Qed.

Lemma mask_of_bits l n : concat (map mask_bits (mask_of l n)) = map (is_used l) (seq 2 (n * 8)).
Proof.
  induction n as [|n IH]; [done|]. unfold mask_of in *. rewrite seq_S, !map_app, concat_app, IH. cbn [Nat.add map concat].
  rewrite app_nil_r, mask_byte_bits. replace (S n * 8)%nat with (n * 8 + 8)%nat by lia. rewrite seq_app, map_app. f_equal.
  cbn [seq map]. rewrite !chunk_used by lia. repeat (f_equal; [f_equal; lia|]). f_equal. f_equal. lia.
Qed.

Definition slot (l : list TxOut) (i : nat) : TxOut :=
  match l !! i with Some o => if used o then stored o else null_out | None => null_out end.

Lemma read_outs_slots l n s :
  (forall i, (n <= i)%nat -> is_used l i = false) ->
  Forall (fun o => used o = true -> exists b, ser_txout o = Some b /\ forall s, read_txout (b ++ s) = Some (stored o, s)) l ->
  exists outs, mapM ser_txout (filter (fun o => used o = true) l) = Some outs /\
    read_outs (map (is_used l) (seq 0 n)) (concat outs ++ s) = Some (map (slot l) (seq 0 n), s).
Proof.
  revert n; induction l as [|o l IH]; intros n Hn Hall.
  { exists []. split; [done|]. cbn [concat app]. clear Hn. generalize 0%nat. induction n as [|n IHn]; intros k; [done|].
    cbn [seq map read_outs]. change (is_used [] k) with false. cbn [mbind option_bind]. by rewrite IHn. }
  apply Forall_cons in Hall as [Ho Hall]. destruct n as [|n].
  { destruct (IH 0%nat) as (outs & Houts & _); [intros i _; exact (Hn (S i) ltac:(lia))|done|].
    exists outs. rewrite filter_cons, decide_False by (unfold used; specialize (Hn 0%nat ltac:(lia)); unfold is_used in Hn; cbn in Hn; unfold used in Hn; by rewrite Hn).
    split; [done|]. assert (filter (fun o => used o = true) l = []) as E.
    { destruct (filter _ l) as [|x t] eqn:F; [done|]. exfalso. assert (x ∈ filter (fun o => used o = true) l) as Hin by (rewrite F; constructor).
      apply list_elem_of_filter in Hin as [Hu Hin]. apply list_elem_of_lookup in Hin as [i Hx]. specialize (Hn (S i) ltac:(lia)). unfold is_used in Hn. change ((o :: l) !! S i) with (l !! i) in Hn. rewrite Hx in Hn. congruence. }
    rewrite E in Houts. injection Houts as <-. done. }
  destruct (IH n) as (outs & Houts & Hr); [intros i Hi; exact (Hn (S i) ltac:(lia))|done|].
  assert (map (is_used (o :: l)) (seq 0 (S n)) = used o :: map (is_used l) (seq 0 n)) as ->.
  { cbn [seq map]. f_equal. rewrite <- seq_shift, map_map. done. }
  assert (map (slot (o :: l)) (seq 0 (S n)) = (if used o then stored o else null_out) :: map (slot l) (seq 0 n)) as ->.
  { cbn [seq map]. f_equal. rewrite <- seq_shift, map_map. done. }
  rewrite filter_cons. destruct (used o) eqn:Eu.
  - destruct (Ho eq_refl) as (b & Hb & Hrb). exists (b :: outs). rewrite decide_True by done.
    split; [apply mapM_Some; constructor; [done|by apply mapM_Some]|]. cbn [concat]. rewrite <- app_assoc. cbn [read_outs].
    rewrite Hrb. cbn [mbind option_bind]. by rewrite Hr.
  - exists outs. rewrite decide_False by done. split; [done|]. cbn [read_outs mbind option_bind]. by rewrite Hr.
Qed.

(** ** The header *)

Lemma flag_low m c k : 0 <= c < 8 -> Z.land 7 k = k -> flag_set (8 * m + c) k = flag_set c k.
Proof.
  intros Hc Hk. unfold flag_set. rewrite <- Hk, !Z.land_assoc. change 7 with (Z.ones 3). rewrite !Z.land_ones by lia.
  change (2 ^ 3) with 8. replace (8 * m + c) with (c + m * 8) by lia. by rewrite Z.mod_add.
Qed.

Definition header (m : Z) (cb fFirst fSecond : bool) : Z :=
  8 * m + (if cb then 1 else 0) + (if fFirst then 2 else 0) + (if fSecond then 4 else 0).

Lemma header_spec m cb f g : 0 <= m ->
  flag_set (header m cb f g) 1 = cb /\ flag_set (header m cb f g) 2 = f /\ flag_set (header m cb f g) 4 = g /\
  flag_set (header m cb f g) 6 = f || g /\ header m cb f g / 8 = m /\ 0 <= header m cb f g <= 8 * m + 7.
Proof.
  intros Hm. unfold header. set (c := (if cb then 1 else 0) + (if f then 2 else 0) + (if g then 4 else 0)).
  assert (0 <= c < 8) as Hc by (subst c; destruct cb, f, g; lia).
  replace (8 * m + (if cb then 1 else 0) + (if f then 2 else 0) + (if g then 4 else 0)) with (8 * m + c) by (subst c; lia).
  rewrite !flag_low by done. split_and!; try lia; [by destruct cb, f, g..|].
  replace (8 * m + c) with (c + m * 8) by lia. rewrite Z.div_add, Z.div_small by lia. lia.
Qed.

(** ** Coins read back *)

Record coins_ok (c : CCoins) : Prop := {
  ok_outs : Forall (fun o => used o = true -> out_ok o /\ canonical o) (vout c);
  ok_length : Z.of_nat (length (vout c)) <= MAX_SIZE;
  ok_height : 0 <= co_nHeight c < 2 ^ 31 - 1;
  ok_version : 0 <= co_nVersion c < 2 ^ 31 - 1
}.

Lemma canonical_marker o : canonical o -> is_plain o = true -> nValue (out_plain o) <> 1888888888888889.
Proof. unfold canonical. intros H E. rewrite E in H. tauto. Qed.

Lemma coins_outs_ok c : coins_ok c ->
  Forall (fun o => used o = true -> exists b, ser_txout o = Some b /\ forall s, read_txout (b ++ s) = Some (stored o, s)) (vout c).
Proof.
  intros [Ho _ _ _]. eapply Forall_impl; [exact Ho|]. cbn. intros o H Hu. destruct (H Hu) as [H1 H2].
  apply txout_roundtrip; [done|]. by apply canonical_marker.
Qed.

Lemma outs_of_slots l n :
  (forall i, (n <= i)%nat -> is_used l i = false) -> Forall (fun o => used o = true -> canonical o) l ->
  outs_of (map (slot l) (seq 0 n)) = outs_of l.
Proof.
  intros Hn Hc. apply map_eq. intros i. rewrite !outs_of_lookup. destruct (Nat.lt_ge_cases i n) as [Hi|Hi].
  - rewrite list_lookup_fmap, lookup_seq_lt by done. cbn [fmap option_fmap option_map mbind option_bind Nat.add]. unfold slot.
    destruct (l !! i) as [o|] eqn:El; cbn [mbind option_bind]; [|done]. unfold available. destruct (used o) eqn:Eu.
    + rewrite stored_canonical by (rewrite Forall_lookup in Hc; eauto). unfold used in Eu. by destruct (out_IsNull o).
    + unfold used in Eu. apply negb_false_iff in Eu. by rewrite Eu.
  - rewrite lookup_ge_None_2 by (rewrite length_map, length_seq; lia). specialize (Hn i Hi). unfold is_used in Hn.
    destruct (l !! i) as [o|]; [|done]. cbn [mbind option_bind]. unfold available. unfold used in Hn. apply negb_false_iff in Hn. by rewrite Hn.
Qed.

Lemma pruned_unused c : IsPruned c = true <-> forall i, is_used (vout c) i = false.
Proof.
  unfold IsPruned, is_used. rewrite forallb_forall. split.
  - intros H i. destruct (vout c !! i) as [o|] eqn:E; [|done]. unfold used. rewrite H; [done|].
    apply list_elem_of_In. by eapply list_elem_of_lookup_2.
  - intros H o Ho. apply list_elem_of_In, list_elem_of_lookup in Ho as [i Hi]. specialize (H i). rewrite Hi in H. by apply negb_false_iff in H.
Qed.

(** The assertion holds just for coins that are not all spent. *)
Lemma header_check c nBytes nz :
  CalcMaskSize (vout c) = (nBytes, nz) ->
  is_used (vout c) 0 || is_used (vout c) 1 || negb (nz =? 0) = negb (IsPruned c).
Proof.
  intros E. pose proof (CalcMaskSize_spec (vout c)) as H. rewrite E in H. destruct H as (Hz & Hhi & Hlast & Hr).
  destruct (IsPruned c) eqn:Ep; cbn [negb].
  - rewrite pruned_unused in Ep. rewrite !Ep. cbn [orb]. apply negb_false_iff, Z.eqb_eq. destruct nBytes as [|b]; [done|].
    apply existsb_used in Hlast as [i Hi]. destruct (Nat.lt_ge_cases i 8) as [H|H]; [|by rewrite chunk_short in Hi].
    rewrite chunk_used, Ep in Hi by done. done.
  - apply not_true_iff_false in Ep. destruct (is_used (vout c) 0) eqn:E0; [done|]. destruct (is_used (vout c) 1) eqn:E1; [done|].
    cbn [orb]. apply negb_true_iff, Z.eqb_neq. intros ->. apply Ep, pruned_unused. intros i.
    destruct nBytes as [|b].
    + destruct i as [|[|i]]; [done..|]. apply Hhi. lia.
    + rewrite nonzero_S, Hlast in Hz. unfold nonzero in Hz. lia.
Qed.

Lemma header_mask nz (fg : bool) : 0 <= nz -> (fg = false -> 0 < nz) ->
  0 <= nz - (if fg then 0 else 1) <= nz /\ nz - (if fg then 0 else 1) + (if fg then 0 else 1) = nz.
Proof. destruct fg; intuition lia. Qed.

(** C34: The record of the unspent outputs of a transaction is read back from the
    bytes the database keeps: the same outputs at the same places, the height,
    the version and the coinbase flag come back whatever bytes follow; the
    coinstake flag is lost; and coins that are all spent are not written, since
    the assertion fails.  Each unspent output has an amount up to [10 ^ 18], a
    script up to [MAX_SCRIPT_SIZE], and no field that its form drops: a plain
    one has no private field, not even a token subid, and not the amount
    1888888888888889 that marks private ones; a private one has a range proof. *)
Theorem coins_roundtrip c rest :
  coins_ok c ->
  if IsPruned c then ser_coins c = None
  else exists l c', ser_coins c = Some l /\ read_coins (l ++ rest) = Some (c', rest) /\
         core c' = core c /\ fCoinStake c' = false.
Proof.
  intros Hok. unfold ser_coins. destruct (CalcMaskSize (vout c)) as [nBytes nz] eqn:Em.
  rewrite (header_check c nBytes nz Em). destruct (IsPruned c) eqn:Ep; [done|]. cbn [negb].
  pose proof (header_check c nBytes nz Em) as Hh. rewrite Ep in Hh. cbn [negb] in Hh.
  pose proof (CalcMaskSize_spec (vout c)) as H. rewrite Em in H. destruct H as (Hz & Hhi & Hlast & Hr).
  set (f := is_used (vout c) 0) in *. set (g := is_used (vout c) 1) in *.
  destruct (header_mask nz (f || g)) as [Hm1 Hm2]; [lia|intros E; rewrite E in Hh; cbn [orb] in Hh; nav_bool; lia|].
  change (8 * (nz - (if f || g then 0 else 1)) + _ + _ + _) with (header (nz - (if f || g then 0 else 1)) (fCoinBase c) f g).
  destruct (header_spec _ (fCoinBase c) f g (proj1 Hm1)) as (F1 & F2 & F4 & F6 & Fd & Fb).
  set (nCode := header _ _ _ _) in *. pose proof Hok as [Ho Hlen Hht Hv]. unfold MAX_SIZE in Hlen.
  rewrite u32_small by lia.
  destruct (read_outs_slots (vout c) (2 + nBytes * 8) (default [] (WriteVarInt 32 (co_nHeight c)) ++ rest) Hhi (coins_outs_ok c Hok)) as (outs & -> & Hro).
  destruct (VarInt32_write (co_nHeight c) rest Hht) as (lh & Elh & _ & Rh). rewrite Elh in *. cbn [default from_option id] in Hro.
  set (tail := mask_of (vout c) nBytes ++ concat outs ++ lh ++ rest).
  destruct (VarInt32_write nCode tail) as (lc & -> & Rc & _); [lia|].
  destruct (VarInt32_write (co_nVersion c) (lc ++ tail) Hv) as (lv & -> & _ & Rv).
  cbn [mbind option_bind]. eexists _, _. split; [done|]. rewrite <- !app_assoc. fold (mask_of (vout c) nBytes) tail. unfold read_coins.
  rewrite Rv. cbn [mbind option_bind]. rewrite Rc. cbn [mbind option_bind]. rewrite F1, F2, F4, F6, Fd, Hm2, Hz, <- mask_of_nonzero.
  unfold tail. rewrite read_mask_bytes.
  2:{ unfold mask_of. destruct nBytes as [|b]; [done|]. rewrite seq_S, map_app. cbn [map Nat.add]. rewrite last_snoc, mask_byte_zero. congruence. }
  cbn [mbind option_bind]. rewrite mask_of_bits.
  change (f :: g :: map (is_used (vout c)) (seq 2 (nBytes * 8))) with (map (is_used (vout c)) (seq 0 (2 + nBytes * 8))).
  rewrite Hro. cbn [mbind option_bind]. rewrite Rh. cbn [mbind option_bind]. split; [done|]. split; [|done].
  rewrite core_Cleanup. unfold core. cbn [fCoinBase vout co_nHeight co_nVersion]. rewrite outs_of_slots; [done..|].
  eapply Forall_impl; [exact Ho|]. cbn. intros o H Hu. apply (H Hu).
Qed.

(** ** Undo data read back *)

(** The undo data of an input is read back: the output that was spent, and,
    when it was the last of its transaction, the height, the version and the
    coinbase flag that recreate the coins.  With the height zero the version is
    not written. *)
Theorem undo_roundtrip u rest :
  out_ok (un_txout u) -> canonical (un_txout u) -> 0 <= un_nHeight u < 2 ^ 30 - 1 -> 0 <= un_nVersion u < 2 ^ 31 - 1 ->
  (un_nHeight u = 0 -> un_nVersion u = 0) ->
  exists l, ser_undo u = Some l /\ read_undo (l ++ rest) = Some (u, rest).
Proof.
  intros Ho Hc Hh Hv H0. unfold ser_undo. set (code := un_nHeight u * 2 + (if un_fCoinBase u then 1 else 0)).
  assert (0 <= code < 2 ^ 31 - 1) as Hcode by (subst code; destruct (un_fCoinBase u); lia).
  assert (code / 2 = un_nHeight u /\ flag_set code 1 = un_fCoinBase u) as [Hd Hf].
  { subst code. rewrite Z.add_comm, Z.div_add by lia. unfold flag_set.
    pose proof (Z.land_ones ((if un_fCoinBase u then 1 else 0) + un_nHeight u * 2) 1 ltac:(lia)) as E. change (Z.ones 1) with 1 in E.
    change (2 ^ 1) with 2 in E. rewrite E, Z.mod_add by lia. by destruct (un_fCoinBase u). }
  destruct (txout_roundtrip _ Ho (canonical_marker _ Hc)) as (lo & -> & Ro). rewrite stored_canonical in Ro by done.
  rewrite u32_small by lia. destruct (Z.ltb_spec 0 (un_nHeight u)) as [Hp|Hp].
  - destruct (VarInt32_write (un_nVersion u) (lo ++ rest) Hv) as (lv & -> & _ & Rv).
    destruct (VarInt32_write code (lv ++ lo ++ rest) Hcode) as (lc & -> & Rc & _). cbn [mbind option_bind]. eexists. split; [done|].
    rewrite <- !app_assoc. unfold read_undo. rewrite Rc. cbn [mbind option_bind]. rewrite Hd, (proj2 (Z.ltb_lt 0 _)) by done.
    rewrite Rv. cbn [mbind option_bind]. rewrite Ro. cbn [mbind option_bind]. rewrite Hf. by destruct u.
  - destruct (VarInt32_write code (lo ++ rest) Hcode) as (lc & -> & Rc & _). cbn [mbind option_bind]. eexists. split; [done|].
    rewrite <- !app_assoc. unfold read_undo. cbn [app]. rewrite Rc. cbn [mbind option_bind]. rewrite Hd, (proj2 (Z.ltb_ge 0 _)) by done.
    cbn [mbind option_bind]. rewrite Ro. cbn [mbind option_bind]. rewrite Hf, <- H0 by lia. by destruct u.
Qed.

(** ** The amount that collides with a marker *)

Lemma read_txout_marker rest o s :
  forall l, WriteVarInt 64 MARKER_TOKEN = Some l -> read_txout (l ++ rest) = Some (o, s) -> is_Some (bp (out_private o)).
Proof.
  intros l Hl. destruct (marker_read MARKER_TOKEN ltac:(auto)) as (l' & Hl' & Hr). assert (l' = l) as -> by congruence.
  unfold read_txout. rewrite Hr. cbn [mbind option_bind]. change (MARKER_TOKEN =? MARKER_BLSCT) with false. rewrite Z.eqb_refl. cbn iota.
  intros H. apply bind_Some in H as ([[value private] s1] & H1 & H).
  apply bind_Some in H as ([script s2] & _ & H). injection H as <- <-. cbn [out_private].
  apply bind_Some in H1 as ([nVal s3] & _ & H1). apply bind_Some in H1 as ([[[[e k] p] b] s4] & _ & H1).
  apply bind_Some in H1 as ([d s5] & _ & H1). apply bind_Some in H1 as ([t s6] & _ & H1). injection H1 as <- <- <-. by eexists.
Qed.

(** An ordinary output of any amount up to the limit of money but one is read
    back from its compressed form.  The amount 18888888.88888889 compresses to
    the number that marks an output of tokens, and an output of that amount is
    never read back. *)
Theorem plain_output_read_back v script rest :
  0 <= v <= 10 ^ 18 -> Z.of_nat (length script) <= MAX_SCRIPT_SIZE ->
  exists l, ser_txout (plain_out v script) = Some l /\
    (read_txout (l ++ rest) = Some (plain_out v script, rest) <-> v <> 1888888888888889).
Proof.
  intros Hv Hs. assert (out_ok (plain_out v script)) as Hok.
  { split; [exact Hv|exact Hs|repeat constructor; unfold MAX_SIZE; cbn; lia|done|done|done]. }
  destruct (Z.eq_dec v 1888888888888889) as [->|Hne].
  - unfold ser_txout. destruct (marker_read MARKER_TOKEN ltac:(auto)) as (lm & Hlm & _).
    destruct (script_roundtrip script [] Hs) as (ls & Hls & _).
    change (CompressAmount (u64 (nValue (out_plain (plain_out 1888888888888889 script))))) with MARKER_TOKEN. rewrite Hlm.
    cbn [mbind option_bind]. change (out_IsBLSCT (plain_out 1888888888888889 script)) with false. cbn [orb negb is_empty vData out_private plain_out no_private tokenId tokenId_token TokenId_null mbind option_bind out_plain scriptPubKey].
    change (negb (0 =? 0)) with false. cbn iota. cbn [mbind option_bind]. rewrite Hls. cbn [mbind option_bind]. eexists. split; [done|].
    split; [|done]. intros Hr. exfalso. rewrite <- app_assoc in Hr. apply (read_txout_marker _ _ _ _ Hlm) in Hr as [x Hx]. done.
  - destruct (txout_roundtrip _ Hok (fun _ => Hne)) as (l & Hl & Hr). exists l. split; [done|]. split; [done|]. intros _. apply Hr.
Qed.
End disk.

(** ** Concrete coins *)

(** A curve with one valid key, and points that are any 48 bytes. *)
Definition demo_key : list Z := 4 :: replicate 64 7.
Definition demo_valid (pk : list Z) : bool := bool_decide (pk = demo_key).
Definition demo_decompress (x : list Z) : option (list Z) := if bool_decide (x = 3 :: replicate 32 7) then Some demo_key else None.
Definition demo_G1 (f : list Z) : option (list Z) := if (length f =? 48)%nat then Some f else None.

Lemma demo_pub_roundtrip pk : length pk = 65%nat -> byte_at pk 0 = 4 -> demo_valid pk = true ->
  demo_decompress ((Z.lor 0x04 (Z.land (byte_at pk 64) 0x01) - 2) :: sub pk 1 33) = Some pk.
Proof. unfold demo_valid. intros _ _ ->%bool_decide_eq_true. vm_compute. reflexivity. Qed.

Definition demo_private : TxOut :=
  mkTxOut (mkCTxOut 0 [OP_1]) (mkPrivatePart [1; 2] [3] [4; 5] [] TokenId_null (Some Rangeproof_empty)).
Definition demo_token : TxOut :=
  mkTxOut (mkCTxOut 3 [OP_1]) (mkPrivatePart [] [] [] [9] (mkTokenId 77 5) (Some Rangeproof_empty)).
Definition demo_to_key : TxOut := plain_out 500000000 ([65] ++ demo_key ++ [OP_CHECKSIG]).
Definition demo_record : CCoins :=
  mkCCoins true true [demo_to_key; null_out; null_out; demo_private; demo_token] 4000000 3.

Lemma demo_proof_ok : proof_ok demo_G1 Rangeproof_empty.
Proof. split; repeat (apply Forall_cons; split); try apply Forall_nil_2; try done; lia. Qed.

Lemma demo_outs_ok o : o ∈ [demo_to_key; demo_private; demo_token] -> out_ok demo_G1 o /\ canonical o.
Proof.
  assert (forall l : list (list Z), forallb (fun v => (Z.of_nat (length v) <=? MAX_SIZE)) l = true -> Forall (fun v => Z.of_nat (length v) <= MAX_SIZE) l) as Hl.
  { intros l. rewrite forallb_forall, Forall_forall. intros H v Hv. apply Z.leb_le, H. by apply list_elem_of_In. }
  rewrite !elem_of_cons. intros [->|[->|[->|H]]]; [..|by apply not_elem_of_nil in H];
    (split; [split; [vm_compute; split; discriminate|vm_compute; discriminate|by apply Hl|vm_compute; split; [discriminate|reflexivity]
      |vm_compute; split; [discriminate|reflexivity]|intros _; apply demo_proof_ok]|]).
  - split; [done|]. vm_compute. discriminate.
  - split; [by eexists|done].
  - split; [by eexists|done].
Qed.

Lemma demo_record_ok : coins_ok demo_G1 demo_record.
Proof.
  split; [|vm_compute; discriminate|vm_compute; split; [discriminate|reflexivity]|vm_compute; split; [discriminate|reflexivity]].
  rewrite Forall_forall. intros o Ho Hu. apply demo_outs_ok. cbn [vout demo_record] in Ho. rewrite !elem_of_cons in *.
  destruct Ho as [->|[->|[->|[->|[->|Ho]]]]]; try done; auto.
Qed.

Lemma coins_roundtrip_witness :
  exists l c', ser_coins demo_valid demo_record = Some l /\
    read_coins demo_decompress demo_G1 (l ++ [1; 2; 3]) = Some (c', [1; 2; 3]) /\ core c' = core demo_record /\ fCoinStake c' = false.
Proof. exact (coins_roundtrip demo_valid demo_decompress demo_G1 demo_pub_roundtrip demo_record [1; 2; 3] demo_record_ok). Defined.

Lemma undo_roundtrip_witness :
  exists l, ser_undo demo_valid (mkUndo demo_private true 4000000 3) = Some l /\
    read_undo demo_decompress demo_G1 (l ++ [8]) = Some (mkUndo demo_private true 4000000 3, [8]).
Proof.
  apply (undo_roundtrip demo_valid demo_decompress demo_G1 demo_pub_roundtrip (mkUndo demo_private true 4000000 3) [8]);
    [apply demo_outs_ok; set_solver|apply demo_outs_ok; set_solver|cbn; lia|cbn; lia|done].
Defined.

Lemma plain_output_read_back_witness :
  exists l, ser_txout demo_valid (plain_out 500 demo_key) = Some l /\
    (read_txout demo_decompress demo_G1 (l ++ []) = Some (plain_out 500 demo_key, []) <-> 500 <> 1888888888888889).
Proof.
  apply (plain_output_read_back demo_valid demo_decompress demo_G1 demo_pub_roundtrip 500 demo_key []); [lia|vm_compute; discriminate].
Defined.
