(* ===== verification/TxWire.v ===== *)
(** * Transactions on the wire ([primitives/transaction.h])

    The formats of outpoints, inputs, outputs with their three forms, witnesses
    and whole transactions, written and read, with and without witness, and
    the hash of a transaction.  Points of the curve are parameters, as in
    [CoinsDisk.v]. *)
From S2P Require Import Prelude Bytes VoteScript Transaction Serialize HashStream Sha2 HashFunctions Coins TxCheck CoinsDisk.

(** ** The code *)

Record WireTx := mkWireTx {
  w_nVersion : Z;
  w_nTime : Z;
  w_vin : list CTxIn;
  w_vout : list TxOut;
  w_wit : list (list (list Z));
  w_nLockTime : Z;
  w_strDZeel : list Z;
  w_vchTxSig : list Z;
  w_vchBalanceSig : list Z
}.

(** A vector of objects. *)
Definition ser_vec {A} (f : A -> list Z) (l : list A) : list Z := WriteCompactSize (Z.of_nat (length l)) ++ concat (map f l).
Definition read_vec {A} (r : Reader A) : Reader (list A) := fun s =>
  do '(n, s) <- ReadCompactSize s; read_n r (Z.to_nat n) s.

Definition read_outpoint : Reader COutPoint := fun s =>
  do '(hash, s) <- read_le 32 s; do '(n, s) <- read_le 4 s; Some (mkCOutPoint hash n, s).

Definition ser_txin (i : CTxIn) : list Z :=
  outpoint_bytes (in_prevout i) ++ WriteVector (in_scriptSig i) ++ le_bytes 4 (in_nSequence i).
Definition read_txin : Reader CTxIn := fun s =>
  do '(prevout, s) <- read_outpoint s; do '(script, s) <- ReadVector s; do '(nSequence, s) <- read_le 4 s;
  Some (mkCTxIn prevout script nSequence, s).

(** *** Outputs *)

Definition mark (cond : bool) (bit nMarker : Z) : Z := if cond then Z.lor nMarker bit else nMarker.

(** The marker of an output with a token or data, as 64 bits. *)
Definition token_marker (o : TxOut) : Z :=
  let p := out_private o in
  let nMarker := 2 ^ 63 in
  let nMarker := mark (0 <? nValue (out_plain o)) 0x01 nMarker in
  let nMarker := mark (negb (is_empty (ephemeralKey p))) 0x02 nMarker in
  let nMarker := mark (negb (is_empty (outputKey p))) 0x04 nMarker in
  let nMarker := mark (negb (is_empty (spendingKey p))) 0x08 nMarker in
  let nMarker := mark (HasRangeProof o) 0x10 nMarker in
  let nMarker := mark (negb (tokenId_token (tokenId p) =? 0)) 0x20 nMarker in
  let nMarker := mark (negb (tokenId_subid (tokenId p) =? 2 ^ 64 - 1)) 0x40 nMarker in
  mark (negb (is_empty (vData p))) 0x80 nMarker.

Definition has_token (o : TxOut) : bool :=
  let p := out_private o in
  negb (is_empty (vData p)) || negb (tokenId_token (tokenId p) =? 0) || negb (tokenId_subid (tokenId p) =? 2 ^ 64 - 1).

Definition ser_if (nMarker bit : Z) (l : list Z) : list Z := if flag_set nMarker bit then l else [].

Definition ser_out (o : TxOut) : list Z :=
  let p := out_private o in
  (if has_token o then
     let nMarker := token_marker o in
     le_bytes 8 nMarker ++
     ser_if nMarker 0x01 (le_bytes 8 (nValue (out_plain o))) ++
     ser_if nMarker 0x02 (WriteVector (ephemeralKey p)) ++
     ser_if nMarker 0x04 (WriteVector (outputKey p)) ++
     ser_if nMarker 0x08 (WriteVector (spendingKey p)) ++
     ser_if nMarker 0x10 (ser_bp (GetBulletproof o)) ++
     ser_if nMarker 0x20 (uint256_bytes (tokenId_token (tokenId p))) ++
     ser_if nMarker 0x40 (le_bytes 8 (tokenId_subid (tokenId p))) ++
     ser_if nMarker 0x80 (WriteVector (vData p))
   else if out_IsBLSCT o then
     le_bytes 8 (2 ^ 64 - 1) ++ le_bytes 8 (nValue (out_plain o)) ++ ser_keys o
   else le_bytes 8 (nValue (out_plain o))) ++
  WriteVector (scriptPubKey (out_plain o)).

(** A field that is read if its flag is set, and keeps its default otherwise. *)
Definition read_if {A} (nFlags bit : Z) (r : Reader A) (d : A) : Reader A := fun s =>
  if flag_set nFlags bit then r s else Some (d, s).

Definition read_i64 : Reader Z := fun s => do '(z, s) <- read_le 8 s; Some (i64 z, s).

Section wire.
Context (G1_FromByteVector : list Z -> option (list Z)).

Definition read_out : Reader TxOut := fun s =>
  do '(nFlags, s) <- read_le 8 s;
  do '(value, private, s) <-
    (if nFlags =? 2 ^ 64 - 1 then
       do '(value, s) <- read_i64 s; do '((e, k, p, b), s) <- read_keys G1_FromByteVector s;
       Some (value, mkPrivatePart e k p [] TokenId_null (Some b), s)
     else if flag_set nFlags (Z.shiftl 2 62) then
       do '(value, s) <- read_if nFlags 0x01 read_i64 0 s;
       do '(e, s) <- read_if nFlags 0x02 ReadVector [] s;
       do '(k, s) <- read_if nFlags 0x04 ReadVector [] s;
       do '(p, s) <- read_if nFlags 0x08 ReadVector [] s;
       do '(b, s) <- read_if nFlags 0x10 (fun s => do '(b, s) <- read_bp G1_FromByteVector s; Some (Some b, s)) None s;
       do '(token, s) <- read_if nFlags 0x20 (read_le 32) 0 s;
       do '(subid, s) <- read_if nFlags 0x40 (read_le 8) (2 ^ 64 - 1) s;
       do '(d, s) <- read_if nFlags 0x80 ReadVector [] s;
       Some (value, mkPrivatePart e k p d (mkTokenId token subid) b, s)
     else Some (i64 nFlags, no_private, s));
  do '(script, s) <- ReadVector s;
  Some (mkTxOut (mkCTxOut value script) private, s).

(** *** Transactions *)

Definition stack_IsNull (w : list (list Z)) : bool := is_empty w.
Definition wit_IsNull (wit : list (list (list Z))) : bool := forallb stack_IsNull wit.
Definition resize_wit (n : nat) (wit : list (list (list Z))) : list (list (list Z)) := wit ++ replicate (n - length wit) [].

(** The inputs, the outputs and the witness, in the extended format if there is
    a witness to write. *)
Definition ser_body (fNoWitness : bool) (tx : WireTx) : list Z :=
  let flags := if negb fNoWitness && negb (wit_IsNull (w_wit tx)) then 1 else 0 in
  (if flags =? 0 then [] else ser_vec ser_txin [] ++ [flags]) ++
  ser_vec ser_txin (w_vin tx) ++ ser_vec ser_out (w_vout tx) ++
  (if flag_set flags 1 then concat (map (ser_vec WriteVector) (resize_wit (length (w_vin tx)) (w_wit tx))) else []).

(** Whether witnesses are left out ([SERIALIZE_TRANSACTION_NO_WITNESS]); [None]
    is the failed assertion.  The code also resizes the witness it writes. *)
Definition SerializeTransaction (fNoWitness : bool) (tx : WireTx) : option (list Z) :=
  check (length (w_wit tx) <=? length (w_vin tx))%nat;
  Some (le_bytes 4 (w_nVersion tx) ++ le_bytes 4 (w_nTime tx) ++ ser_body fNoWitness tx ++
    le_bytes 4 (w_nLockTime tx) ++
    (if 2 <=? w_nVersion tx then WriteVector (w_strDZeel tx) else []) ++
    (if flag_set (w_nVersion tx) TX_BLS_CT_FLAG || flag_set (w_nVersion tx) TX_BLS_INPUT_FLAG
     then WriteVector (w_vchBalanceSig tx) else []) ++
    (if flag_set (w_nVersion tx) TX_BLS_INPUT_FLAG then WriteVector (w_vchTxSig tx) else [])).

(** The inputs, the outputs and the witness; [None] is an exception: the end of
    the stream, a size that is too large, a superfluous witness or unknown
    flags. *)
Definition read_body (fNoWitness : bool) : Reader (list CTxIn * list TxOut * list (list (list Z))) := fun s =>
  do '(vin, s) <- read_vec read_txin s;
  do '(flags, vin, vout, s) <-
    (if is_empty vin && negb fNoWitness then
       do '(flags, s) <- ser_readdata8 s;
       if negb (flags =? 0) then
         do '(vin, s) <- read_vec read_txin s; do '(vout, s) <- read_vec read_out s; Some (flags, vin, vout, s)
       else Some (flags, vin, [], s)
     else do '(vout, s) <- read_vec read_out s; Some (0, vin, vout, s));
  do '(flags, wit, s) <-
    (if flag_set flags 1 && negb fNoWitness then
       do '(wit, s) <- read_n (read_vec ReadVector) (length vin) s;
       if wit_IsNull wit then None else Some (Z.lxor flags 1, wit, s)
     else Some (flags, [], s));
  check (flags =? 0);
  Some ((vin, vout, wit), s).

Definition UnserializeTransaction (fNoWitness : bool) : Reader WireTx := fun s =>
  do '(nVersion, s) <- read_le 4 s;
  let nVersion := i32 nVersion in
  do '(nTime, s) <- read_le 4 s;
  do '((vin, vout, wit), s) <- read_body fNoWitness s;
  do '(nLockTime, s) <- read_le 4 s;
  do '(strDZeel, s) <- (if 2 <=? nVersion then ReadVector s else Some ([], s));
  do '(vchBalanceSig, s) <-
    (if flag_set nVersion TX_BLS_CT_FLAG || flag_set nVersion TX_BLS_INPUT_FLAG then ReadVector s else Some ([], s));
  do '(vchTxSig, s) <- (if flag_set nVersion TX_BLS_INPUT_FLAG then ReadVector s else Some ([], s));
  Some (mkWireTx nVersion nTime vin vout wit nLockTime strDZeel vchTxSig vchBalanceSig, s).

(** [CHashWriter]: the double hash of the bytes written.  The buffer of the
    hasher starts with whatever the memory holds; [Hash] does not depend on it. *)
Definition HashWriter_GetHash (bytes : list Z) : uint256 := uint256_of_bytes (Hash (replicate 64 0) [bytes]).

(** The hash of a transaction leaves the witness out. *)
Definition ComputeHash (tx : WireTx) : option uint256 := HashWriter_GetHash <$> SerializeTransaction true tx.

(** ** Outputs read back *)

(** The form in which an output is read. *)
Definition wire_form (o : TxOut) : TxOut :=
  let p := out_private o in
  let script := scriptPubKey (out_plain o) in
  if has_token o then
    mkTxOut (mkCTxOut (Z.max 0 (nValue (out_plain o))) script)
      (mkPrivatePart (ephemeralKey p) (outputKey p) (spendingKey p) (vData p) (tokenId p)
         (if HasRangeProof o then Some (GetBulletproof o) else None))
  else if out_IsBLSCT o then
    mkTxOut (out_plain o) (mkPrivatePart (ephemeralKey p) (outputKey p) (spendingKey p) [] TokenId_null (Some (GetBulletproof o)))
  else plain_out (nValue (out_plain o)) script.

Definition short (v : list Z) : Prop := Z.of_nat (length v) <= MAX_SIZE.

Record wire_out_ok (o : TxOut) : Prop := {
  wo_value : - 2 ^ 63 <= nValue (out_plain o) < 2 ^ 63;
  wo_plain : has_token o = false -> out_IsBLSCT o = false -> 0 <= nValue (out_plain o);
  wo_script : short (scriptPubKey (out_plain o));
  wo_keys : Forall short [ephemeralKey (out_private o); outputKey (out_private o); spendingKey (out_private o); vData (out_private o)];
  wo_token : 0 <= tokenId_token (tokenId (out_private o)) < 2 ^ 256;
  wo_subid : 0 <= tokenId_subid (tokenId (out_private o)) < 2 ^ 64;
  wo_proof : HasRangeProof o = true \/ out_IsBLSCT o = true -> proof_ok G1_FromByteVector (GetBulletproof o)
}.

Lemma marker_bits b0 b1 b2 b3 b4 b5 b6 b7 m :
  m = mark b7 0x80 (mark b6 0x40 (mark b5 0x20 (mark b4 0x10 (mark b3 0x08 (mark b2 0x04 (mark b1 0x02 (mark b0 0x01 (2 ^ 63)))))))) ->
  (m =? 2 ^ 64 - 1) = false /\ flag_set m (Z.shiftl 2 62) = true /\ le_value (le_bytes 8 m) = m /\
  (flag_set m 0x01 = b0 /\ flag_set m 0x02 = b1 /\ flag_set m 0x04 = b2 /\ flag_set m 0x08 = b3) /\
  (flag_set m 0x10 = b4 /\ flag_set m 0x20 = b5 /\ flag_set m 0x40 = b6 /\ flag_set m 0x80 = b7).
Proof. intros ->. destruct b0, b1, b2, b3, b4, b5, b6, b7; vm_compute; done. Qed.

Lemma read_le_mod n z s : read_le n (le_bytes n z ++ s) = Some (z mod 256 ^ Z.of_nat n, s).
Proof.
  unfold read_le. rewrite <- (length_le_bytes n z) at 1. rewrite read_bytes_app. cbn [mbind option_bind]. by rewrite le_value_bytes.
Qed.

Lemma i64_mod z : - 2 ^ 63 <= z < 2 ^ 63 -> i64 (z mod 2 ^ 64) = z.
Proof. intros H. unfold i64. rewrite Zplus_mod_idemp_l. rewrite Z.mod_small; lia. Qed.

Lemma i32_mod z : - 2 ^ 31 <= z < 2 ^ 31 -> i32 (z mod 2 ^ 32) = z.
Proof. intros H. unfold i32. rewrite Zplus_mod_idemp_l. rewrite Z.mod_small; lia. Qed.

Lemma read_i64_bytes z s : - 2 ^ 63 <= z < 2 ^ 63 -> read_i64 (le_bytes 8 z ++ s) = Some (z, s).
Proof. intros H. unfold read_i64. rewrite read_le_mod. cbn [mbind option_bind].
  change (256 ^ Z.of_nat 8) with (2 ^ 64). by rewrite i64_mod.
Qed.

(** A field behind a flag that says whether it has its default. *)
Lemma read_if_ser {A} (m bit : Z) (r : Reader A) (d x : A) l s :
  (flag_set m bit = true -> forall s, r (l ++ s) = Some (x, s)) -> (flag_set m bit = false -> x = d) ->
  read_if m bit r d (ser_if m bit l ++ s) = Some (x, s).
Proof. intros H1 H2. unfold read_if, ser_if. destruct (flag_set m bit); [auto|]. by rewrite H2. Qed.

Lemma is_empty_nil (l : list Z) : negb (is_empty l) = false -> l = [].
Proof. by destruct l. Qed.

Lemma out_roundtrip o s : wire_out_ok o -> read_out (ser_out o ++ s) = Some (wire_form o, s).
Proof.
  intros [Hv Hpl Hs Hk Ht Hi Hp]. unfold ser_out, wire_form, read_out. rewrite !Forall_cons in Hk. destruct Hk as (H1 & H2 & H3 & H4 & _).
  destruct (has_token o) eqn:Etok; [|destruct (out_IsBLSCT o) eqn:Eb]; rewrite <- !app_assoc.
  - destruct (marker_bits _ _ _ _ _ _ _ _ (token_marker o) eq_refl) as (M1 & M2 & M3 & (F0 & F1 & F2 & F3) & F4 & F5 & F6 & F7).
    rewrite read_le_mod. rewrite le_value_bytes in M3. rewrite M3. cbn [mbind option_bind]. rewrite M1, M2.
    rewrite (read_if_ser _ _ _ _ (Z.max 0 (nValue (out_plain o)))); [cbn [mbind option_bind]| |].
    + do 3 (erewrite read_if_ser; [cbn [mbind option_bind]|intros _ s'; by apply ReadVector_write|rewrite ?F1, ?F2, ?F3; apply is_empty_nil]).
      rewrite (read_if_ser _ _ _ _ (if HasRangeProof o then Some (GetBulletproof o) else None)); [cbn [mbind option_bind]| |].
      * rewrite (read_if_ser _ _ _ _ (tokenId_token (tokenId (out_private o)))); [cbn [mbind option_bind]|intros _ s'; by apply read_le_bytes|].
        2:{ rewrite F5. intros E%negb_false_iff. by apply Z.eqb_eq in E. }
        rewrite (read_if_ser _ _ _ _ (tokenId_subid (tokenId (out_private o)))); [cbn [mbind option_bind]|intros _ s'; by apply read_le_bytes|].
        2:{ rewrite F6. intros E%negb_false_iff. by apply Z.eqb_eq in E. }
        erewrite read_if_ser; [cbn [mbind option_bind]|intros _ s'; by apply ReadVector_write|rewrite F7; apply is_empty_nil].
        rewrite ReadVector_write by done. cbn [mbind option_bind]. by destruct (tokenId (out_private o)).
      * rewrite F4. intros E s'. rewrite E, bp_roundtrip by auto. done.
      * rewrite F4. by intros ->.
    + rewrite F0. intros E%Z.ltb_lt s'. rewrite read_i64_bytes by done. do 2 f_equal. lia.
    + rewrite F0. intros E%Z.ltb_ge. lia.
  - rewrite read_le_mod. cbn [mbind option_bind]. change ((2 ^ 64 - 1) mod 256 ^ Z.of_nat 8) with (2 ^ 64 - 1). rewrite Z.eqb_refl.
    rewrite read_i64_bytes by done. cbn [mbind option_bind]. unfold read_keys, ser_keys. rewrite <- !app_assoc.
    do 3 (rewrite ReadVector_write by done; cbn [mbind option_bind]). rewrite bp_roundtrip by auto. cbn [mbind option_bind].
    rewrite ReadVector_write by done. cbn [mbind option_bind]. by destruct (out_plain o).
  - specialize (Hpl eq_refl eq_refl). rewrite read_le_bytes by (change (256 ^ Z.of_nat 8) with (2 ^ 64); lia). cbn [mbind option_bind].
    rewrite (proj2 (Z.eqb_neq _ _)) by lia. change (Z.shiftl 2 62) with (Z.shiftl 1 63). rewrite flag_testbit by lia.
    rewrite (small_bits _ 63) by lia. cbn [mbind option_bind]. rewrite ReadVector_write by done. cbn [mbind option_bind].
    by rewrite i64_small by lia.
Qed.

(** ** Transactions read back *)

Lemma read_n_ser {A} (f : A -> list Z) (r : Reader A) (g : A -> A) l s :
  (forall x s, x ∈ l -> r (f x ++ s) = Some (g x, s)) -> read_n r (length l) (concat (map f l) ++ s) = Some (map g l, s).
Proof.
  induction l as [|x l IH]; intros H; [done|]. cbn [length map concat read_n]. rewrite <- app_assoc.
  rewrite H by (by left). cbn [mbind option_bind]. rewrite IH; [done|]. intros y s' Hy. apply H. by right.
Qed.

Lemma vec_roundtrip {A} (f : A -> list Z) (r : Reader A) (g : A -> A) l s :
  Z.of_nat (length l) <= MAX_SIZE -> (forall x s, x ∈ l -> r (f x ++ s) = Some (g x, s)) ->
  read_vec r (ser_vec f l ++ s) = Some (map g l, s).
Proof.
  intros Hl H. unfold read_vec, ser_vec. rewrite <- app_assoc, CompactSize_read by lia. cbn [mbind option_bind].
  rewrite Nat2Z.id. by apply read_n_ser.
Qed.

Record outpoint_ok (o : COutPoint) : Prop := {
  op_hash : 0 <= prevout_hash o < 2 ^ 256;
  op_n : 0 <= prevout_n o < 2 ^ 32
}.

Record txin_ok (i : CTxIn) : Prop := {
  ti_prevout : outpoint_ok (in_prevout i);
  ti_script : short (in_scriptSig i);
  ti_sequence : 0 <= in_nSequence i < 2 ^ 32
}.

Lemma outpoint_roundtrip o s : outpoint_ok o -> read_outpoint (outpoint_bytes o ++ s) = Some (o, s).
Proof.
  intros [H1 H2]. unfold read_outpoint, outpoint_bytes, uint256_bytes. rewrite <- app_assoc.
  rewrite read_le_bytes by done. cbn [mbind option_bind]. rewrite read_le_bytes by done. cbn [mbind option_bind]. by destruct o.
Qed.

Lemma txin_roundtrip i s : txin_ok i -> read_txin (ser_txin i ++ s) = Some (i, s).
Proof.
  intros [H1 H2 H3]. unfold read_txin, ser_txin. rewrite <- !app_assoc. rewrite outpoint_roundtrip by done. cbn [mbind option_bind].
  rewrite ReadVector_write by done. cbn [mbind option_bind]. rewrite read_le_bytes by done. cbn [mbind option_bind]. by destruct i.
Qed.

Record wire_tx_ok (tx : WireTx) : Prop := {
  wt_version : - 2 ^ 31 <= w_nVersion tx < 2 ^ 31;
  wt_time : 0 <= w_nTime tx < 2 ^ 32;
  wt_vin : Z.of_nat (length (w_vin tx)) <= MAX_SIZE /\ Forall txin_ok (w_vin tx);
  wt_vout : Z.of_nat (length (w_vout tx)) <= MAX_SIZE /\ Forall wire_out_ok (w_vout tx);
  wt_wit : Forall (fun w => Z.of_nat (length w) <= MAX_SIZE /\ Forall short w) (w_wit tx);
  wt_locktime : 0 <= w_nLockTime tx < 2 ^ 32;
  wt_texts : Forall short [w_strDZeel tx; w_vchTxSig tx; w_vchBalanceSig tx]
}.

(** The form in which a transaction is read. *)
Definition tx_form (fNoWitness : bool) (tx : WireTx) : WireTx :=
  let v := w_nVersion tx in
  mkWireTx v (w_nTime tx) (w_vin tx) (map wire_form (w_vout tx))
    (if fNoWitness || wit_IsNull (w_wit tx) then [] else resize_wit (length (w_vin tx)) (w_wit tx))
    (w_nLockTime tx) (if 2 <=? v then w_strDZeel tx else [])
    (if flag_set v TX_BLS_INPUT_FLAG then w_vchTxSig tx else [])
    (if flag_set v TX_BLS_CT_FLAG || flag_set v TX_BLS_INPUT_FLAG then w_vchBalanceSig tx else []).

Lemma resize_null n wit : wit_IsNull (resize_wit n wit) = wit_IsNull wit.
Proof.
  unfold wit_IsNull, resize_wit. rewrite forallb_app. assert (forall k, forallb stack_IsNull (replicate k []) = true) as ->.
  { induction k; done. }
  apply andb_true_r.
Qed.

Lemma read_opt {A} (b : bool) (r : Reader A) (d x : A) l s :
  (b = true -> r (l ++ s) = Some (x, s)) ->
  (if b then r ((if b then l else []) ++ s) else Some (d, (if b then l else []) ++ s)) = Some (if b then x else d, s).
Proof. destruct b; auto. Qed.

Lemma wit_roundtrip n wit s :
  Forall (fun w => Z.of_nat (length w) <= MAX_SIZE /\ Forall short w) wit -> (length wit <= n)%nat ->
  read_n (read_vec ReadVector) n (concat (map (ser_vec WriteVector) (resize_wit n wit)) ++ s) = Some (resize_wit n wit, s).
Proof.
  intros Hw Hn. assert (length (resize_wit n wit) = n) as El by (unfold resize_wit; rewrite length_app, length_replicate; lia).
  rewrite <- El at 1. rewrite (read_n_ser _ _ id); [by rewrite list_fmap_id|]. intros w s' Hin.
  assert (Z.of_nat (length w) <= MAX_SIZE /\ Forall short w) as [H1 H2].
  { apply elem_of_app in Hin as [Hin|Hin]; [rewrite Forall_forall in Hw; by apply Hw|].
    apply elem_of_replicate in Hin as [-> _]. split; [done|constructor]. }
  rewrite (vec_roundtrip _ _ id); [by rewrite list_fmap_id|done|]. intros v s'' Hv. rewrite Forall_forall in H2.
  by apply ReadVector_write, H2.
Qed.

Lemma body_roundtrip (nw : bool) tx s :
  wire_tx_ok tx -> (length (w_wit tx) <= length (w_vin tx))%nat -> (nw = false -> w_vin tx = [] -> w_vout tx = []) ->
  read_body nw (ser_body nw tx ++ s)
  = Some ((w_vin tx, map wire_form (w_vout tx),
      if nw || wit_IsNull (w_wit tx) then [] else resize_wit (length (w_vin tx)) (w_wit tx)), s).
Proof.
  intros [_ _ [Hi1 Hi2] [Ho1 Ho2] Hw _ _] Hle Hempty. rewrite Forall_forall in Hi2. rewrite Forall_forall in Ho2.
  assert (forall s, read_vec read_txin (ser_vec ser_txin (w_vin tx) ++ s) = Some (w_vin tx, s)) as Hin.
  { intros s'. rewrite (vec_roundtrip _ _ id); [by rewrite list_fmap_id|done|]. intros x s'' Hx. by apply txin_roundtrip, Hi2. }
  assert (forall s, read_vec read_out (ser_vec ser_out (w_vout tx) ++ s) = Some (map wire_form (w_vout tx), s)) as Hout.
  { intros s'. apply vec_roundtrip; [done|]. intros x s'' Hx. by apply out_roundtrip, Ho2. }
  unfold read_body, ser_body. destruct (negb nw && negb (wit_IsNull (w_wit tx))) eqn:Ef; cbv zeta; rewrite <- !app_assoc.
  - apply andb_true_iff in Ef as [E1 E2]. apply negb_true_iff in E1, E2. subst nw. change (1 =? 0) with false. cbn iota.
    rewrite <- !app_assoc. rewrite (vec_roundtrip _ _ id) by (done || intros ? ? ?%not_elem_of_nil; done). cbn [mbind option_bind map is_empty andb negb].
    cbn [app ser_readdata8 mbind option_bind]. change (1 =? 0) with false. cbn [negb].
    rewrite Hin. cbn [mbind option_bind]. rewrite Hout. cbn [mbind option_bind]. change (flag_set 1 1) with true. cbn [andb].
    rewrite wit_roundtrip by done. cbn [mbind option_bind]. rewrite resize_null, E2. cbn [orb]. done.
  - change (0 =? 0) with true. change (flag_set 0 1) with false. cbn [app]. rewrite Hin. cbn [mbind option_bind].
    assert (nw || wit_IsNull (w_wit tx) = true) as -> by (by destruct nw, (wit_IsNull (w_wit tx))).
    destruct (is_empty (w_vin tx) && negb nw) eqn:Ee.
    + apply andb_true_iff in Ee as [E1 E2]. apply negb_true_iff in E2. assert (w_vin tx = []) as E0 by (by destruct (w_vin tx)).
      rewrite (Hempty E2 E0), E0. cbn. change (flag_set 0 1) with false. done.
    + rewrite Hout. cbn [mbind option_bind]. change (flag_set 0 1) with false. done.
Qed.

(** *** The form is a fixed point *)

Lemma GetBulletproof_has o : HasRangeProof o = true -> bp (out_private o) = Some (GetBulletproof o).
Proof. unfold HasRangeProof, GetBulletproof. by destruct (bp (out_private o)). Qed.

Lemma ser_wire_form o : ser_out (wire_form o) = ser_out o.
Proof.
  unfold wire_form. destruct (has_token o) eqn:Et; [|destruct (out_IsBLSCT o) eqn:Eb].
  - set (b' := if HasRangeProof o then _ else _). set (o' := mkTxOut _ _).
    assert (HasRangeProof o' = HasRangeProof o) as Er.
    { unfold HasRangeProof at 1. cbn [o' out_private bp]. unfold b'. destruct (HasRangeProof o) eqn:E; [|done].
      apply GetBulletproof_has in E as E'. unfold HasRangeProof in E. by rewrite E' in E. }
    assert (token_marker o' = token_marker o) as Em.
    { unfold token_marker. rewrite Er. cbn [o' out_private out_plain nValue ephemeralKey outputKey spendingKey vData tokenId].
      do 8 f_equal. apply Bool.eq_iff_eq_true. rewrite !Z.ltb_lt. lia. }
    destruct (marker_bits _ _ _ _ _ _ _ _ (token_marker o) eq_refl) as (_ & _ & _ & (F0 & _) & F4 & _).
    assert (ser_if (token_marker o) 0x01 (le_bytes 8 (Z.max 0 (nValue (out_plain o))))
      = ser_if (token_marker o) 0x01 (le_bytes 8 (nValue (out_plain o)))) as E1.
    { unfold ser_if. rewrite F0. destruct (0 <? nValue (out_plain o)) eqn:Ev; [|done]. apply Z.ltb_lt in Ev. by rewrite Z.max_r by lia. }
    assert (ser_if (token_marker o) 0x10 (ser_bp (GetBulletproof o')) = ser_if (token_marker o) 0x10 (ser_bp (GetBulletproof o))) as E2.
    { unfold ser_if. rewrite F4. destruct (HasRangeProof o) eqn:E; [|done]. unfold GetBulletproof at 1. cbn [o' out_private bp]. unfold b'. done. }
    unfold ser_out. rewrite Et. change (has_token o') with (has_token o). rewrite Et, Em, E2.
    cbn [o' out_private out_plain nValue scriptPubKey ephemeralKey outputKey spendingKey vData tokenId]. by rewrite E1.
  - set (o' := mkTxOut _ _). unfold ser_out. rewrite Et, Eb. assert (has_token o' = false) as -> by done.
    change (out_IsBLSCT o') with (out_IsBLSCT o). rewrite Eb. done.
  - unfold ser_out. rewrite Et, Eb. done.
Qed.

Lemma tx_form_stable (nw : bool) tx :
  (length (w_wit tx) <= length (w_vin tx))%nat -> SerializeTransaction nw (tx_form nw tx) = SerializeTransaction nw tx.
Proof.
  intros Hle. unfold SerializeTransaction. rewrite (proj2 (Nat.leb_le _ _) Hle). cbn [tx_form w_vin].
  assert (ser_vec ser_out (map wire_form (w_vout tx)) = ser_vec ser_out (w_vout tx)) as Eo.
  { unfold ser_vec. rewrite length_map, map_map. do 2 f_equal. apply map_ext. apply ser_wire_form. }
  assert (ser_body nw (tx_form nw tx) = ser_body nw tx) as ->.
  { unfold ser_body. cbn [tx_form w_vin w_vout w_wit]. rewrite Eo. destruct nw; [done|]. cbn [orb negb andb].
    destruct (wit_IsNull (w_wit tx)) eqn:E; cbn [negb]; [done|]. rewrite resize_null, E. cbn [negb]. change (flag_set 1 1) with true. cbn iota.
    assert (resize_wit (length (w_vin tx)) (resize_wit (length (w_vin tx)) (w_wit tx)) = resize_wit (length (w_vin tx)) (w_wit tx)) as ->; [|done].
    assert (length (resize_wit (length (w_vin tx)) (w_wit tx)) = length (w_vin tx)) as El
      by (unfold resize_wit; rewrite length_app, length_replicate; lia).
    unfold resize_wit at 1. rewrite El, Nat.sub_diag. apply app_nil_r. }
  cbn [tx_form w_nVersion w_nTime w_wit w_nLockTime w_strDZeel w_vchTxSig w_vchBalanceSig].
  assert ((length (if nw || wit_IsNull (w_wit tx) then [] else resize_wit (length (w_vin tx)) (w_wit tx)) <=? length (w_vin tx))%nat = true) as ->.
  { apply Nat.leb_le. destruct (_ || _); [cbn; lia|]. unfold resize_wit. rewrite length_app, length_replicate. lia. }
  by destruct (2 <=? w_nVersion tx), (flag_set (w_nVersion tx) TX_BLS_CT_FLAG), (flag_set (w_nVersion tx) TX_BLS_INPUT_FLAG).
Qed.

Lemma wire_roundtrip (fNoWitness : bool) tx rest :
  wire_tx_ok tx -> (fNoWitness = false -> w_vin tx = [] -> w_vout tx = []) ->
  if (length (w_wit tx) <=? length (w_vin tx))%nat then
    exists l, SerializeTransaction fNoWitness tx = Some l /\
      UnserializeTransaction fNoWitness (l ++ rest) = Some (tx_form fNoWitness tx, rest) /\
      SerializeTransaction fNoWitness (tx_form fNoWitness tx) = Some l
  else SerializeTransaction fNoWitness tx = None.
Proof.
  intros Hok Hempty. destruct (_ <=? _)%nat eqn:Ele; [|unfold SerializeTransaction; by rewrite Ele].
  apply Nat.leb_le in Ele as Hle. rewrite tx_form_stable by done. unfold SerializeTransaction. rewrite Ele.
  pose proof Hok as [Hv Ht _ _ _ Hl Hx]. rewrite !Forall_cons in Hx. destruct Hx as (T1 & T2 & T3 & _).
  eexists. split; [done|]. split; [|done]. rewrite <- !app_assoc. unfold UnserializeTransaction. rewrite read_le_mod. cbn [mbind option_bind].
  change (256 ^ Z.of_nat 4) with (2 ^ 32). rewrite i32_mod by done. rewrite read_le_bytes by done. cbn [mbind option_bind].
  rewrite body_roundtrip by done. cbn [mbind option_bind]. rewrite read_le_bytes by done. cbn [mbind option_bind].
  do 3 (erewrite read_opt by (intros _; by apply ReadVector_write); cbn [mbind option_bind]). done.
Qed.

End wire.

(** C16: A transaction survives the wire, with or without its witness: what
    [SerializeTransaction] writes is read back, whatever follows, as the same
    transaction in the form its version and flags keep (the witness filled up
    to one entry for each input and left out if it is empty; the text from
    version 2 on; the signatures the flags of private transactions announce;
    each output with the fields its marker announces), and writing the result
    again gives the same bytes.  The exceptions are a witness with more entries
    than inputs, which trips the assertion, and outputs without any input,
    which the marker of the extended format hides. *)
Theorem transaction_wire_roundtrip G1_FromByteVector (fNoWitness : bool) tx rest :
  wire_tx_ok G1_FromByteVector tx -> (fNoWitness = false -> w_vin tx = [] -> w_vout tx = []) ->
  if (length (w_wit tx) <=? length (w_vin tx))%nat then
    exists l, SerializeTransaction fNoWitness tx = Some l /\
      UnserializeTransaction G1_FromByteVector fNoWitness (l ++ rest) = Some (tx_form fNoWitness tx, rest) /\
      SerializeTransaction fNoWitness (tx_form fNoWitness tx) = Some l
  else SerializeTransaction fNoWitness tx = None.
Proof. apply wire_roundtrip. Qed.

(** The two messages are different and have the same hash. *)
Definition collide (l1 l2 : list Z) : Prop := l1 <> l2 /\ HashWriter_GetHash l1 = HashWriter_GetHash l2.

Lemma hash_equal l1 l2 : HashWriter_GetHash l1 = HashWriter_GetHash l2 -> l1 = l2 \/ collide l1 l2.
Proof. intros E. destruct (decide (l1 = l2)); [by left|]. by right. Qed.

(** The hash of a transaction identifies it up to its witness: two
    transactions with the same hash have the same form without the witness, or
    the bytes of the two are a collision of the double SHA-256 of [CHashWriter]. *)
Theorem txid_binding G1_FromByteVector tx1 tx2 hash :
  wire_tx_ok G1_FromByteVector tx1 -> wire_tx_ok G1_FromByteVector tx2 ->
  ComputeHash tx1 = Some hash -> ComputeHash tx2 = Some hash ->
  tx_form true tx1 = tx_form true tx2 \/
  exists l1 l2, SerializeTransaction true tx1 = Some l1 /\ SerializeTransaction true tx2 = Some l2 /\ collide l1 l2.
Proof.
  intros H1 H2 E1 E2. unfold ComputeHash in *. apply fmap_Some in E1 as (l1 & S1 & ->). apply fmap_Some in E2 as (l2 & S2 & E).
  destruct (hash_equal l1 l2 E) as [->|]; [left|right; by exists l1, l2].
  assert (forall tx, wire_tx_ok G1_FromByteVector tx -> SerializeTransaction true tx = Some l2 ->
    UnserializeTransaction G1_FromByteVector true (l2 ++ []) = Some (tx_form true tx, [])) as Hread.
  { intros tx Hok S. pose proof (wire_roundtrip G1_FromByteVector true tx [] Hok ltac:(done)) as H.
    destruct (_ <=? _)%nat; [|congruence]. destruct H as (l & S' & R & _). congruence. }
  pose proof (Hread tx1 H1 S1). pose proof (Hread tx2 H2 S2). congruence.
Qed.

(** A private transaction with three kinds of outputs and a witness for the
    first of its two inputs. *)
Definition demo_wire : WireTx :=
  mkWireTx 0x32 1600000000 [mkCTxIn (mkCOutPoint 5 1) [1; 2] 7; mkCTxIn (mkCOutPoint 6 0) [] SEQUENCE_FINAL]
    [demo_to_key; demo_private; demo_token] [[[8; 8]; []]] 100 [66] [1] [2; 3].

Lemma demo_wire_ok : wire_tx_ok demo_G1 demo_wire.
Proof.
  assert (forall l : list (list Z), forallb (fun v => (Z.of_nat (length v) <=? MAX_SIZE)) l = true -> Forall short l) as Hl.
  { intros l. rewrite forallb_forall, Forall_forall. intros H v Hv. apply Z.leb_le, H. by apply list_elem_of_In. }
  split; cbn [demo_wire w_nVersion w_nTime w_nLockTime]; try lia.
  - split; [by vm_compute|]. repeat (apply Forall_cons; split); [..|apply Forall_nil_2];
      (split; [split; cbn [in_prevout prevout_hash prevout_n]; lia|by vm_compute|cbn [in_nSequence]; unfold SEQUENCE_FINAL; lia]).
  - split; [by vm_compute|]. apply Forall_forall. intros o Ho. destruct (demo_outs_ok o Ho) as [[H1 H2 H3 H4 H5 H6] _].
    assert (10 ^ 18 < 2 ^ 60) by (by vm_compute). split; [lia|lia|unfold short; unfold MAX_SCRIPT_SIZE in H2; unfold MAX_SIZE; lia|done|done|done|].
    intros _. cbn [demo_wire w_vout] in Ho. rewrite !elem_of_cons in Ho. destruct Ho as [->|[->|[->|Ho]]]; try apply demo_proof_ok.
    destruct (not_elem_of_nil _ Ho).
  - cbn [demo_wire w_wit]. apply Forall_singleton. split; [by vm_compute|by apply Hl].
  - by apply Hl.
Qed.

Lemma transaction_wire_roundtrip_witness :
  exists l, SerializeTransaction false demo_wire = Some l /\
    UnserializeTransaction demo_G1 false (l ++ [9]) = Some (tx_form false demo_wire, [9]) /\
    SerializeTransaction false (tx_form false demo_wire) = Some l.
Proof. exact (transaction_wire_roundtrip demo_G1 false demo_wire [9] demo_wire_ok ltac:(discriminate)). Defined.

(** The two forms differ only in the witness. *)
Lemma txid_binding_witness :
  let tx := mkWireTx 0x32 1600000000 (w_vin demo_wire) (w_vout demo_wire) [] 100 [66] [1] [2; 3] in
  exists hash, ComputeHash demo_wire = Some hash /\ ComputeHash tx = Some hash /\
    (tx_form true demo_wire = tx_form true tx \/
     exists l1 l2, SerializeTransaction true demo_wire = Some l1 /\ SerializeTransaction true tx = Some l2 /\ collide l1 l2).
Proof.
  intros tx. assert (wire_tx_ok demo_G1 tx) as Hok by (destruct demo_wire_ok; by split).
  assert (exists l, SerializeTransaction true demo_wire = Some l /\ SerializeTransaction true tx = Some l) as (l & S1 & S2)
    by (eexists; split; vm_compute; reflexivity).
  assert (forall t, SerializeTransaction true t = Some l -> ComputeHash t = Some (HashWriter_GetHash l)) as E
    by (intros t Ht; unfold ComputeHash; by rewrite Ht).
  exists (HashWriter_GetHash l). split; [by apply E|]. split; [by apply E|].
  exact (txid_binding demo_G1 demo_wire tx _ demo_wire_ok Hok (E _ S1) (E _ S2)).
Defined.
