(* ===== verification/SigHash.v ===== *)
(** * The hash a signature signs ([script/interpreter.cpp])

    [CTransactionSignatureSerializer] and [SignatureHash], for the original
    format and for the one of witnesses, and what a signature covers. *)
From S2P Require Import Prelude Bytes VoteScript Transaction Serialize HashFunctions Coins TxCheck Script Interpreter InterpreterProps CoinsDisk TxWire.

Definition fAnyoneCanPay (nHashType : Z) : bool := flag_set nHashType SIGHASH_ANYONECANPAY.
Definition fHashSingle (nHashType : Z) : bool := Z.land nHashType 0x1f =? SIGHASH_SINGLE.
Definition fHashNone (nHashType : Z) : bool := Z.land nHashType 0x1f =? SIGHASH_NONE.

(** ** The original format *)

(** The two loops of [SerializeScriptCode]; one round for each byte is enough. *)
Fixpoint count_separators (fuel : nat) (it : CScript) (nCodeSeparators : Z) : Z :=
  match fuel, GetOp it with
  | S fuel, (it, Some (opcode, _)) =>
    count_separators fuel it (if opcode =? OP_CODESEPARATOR then nCodeSeparators + 1 else nCodeSeparators)
  | _, _ => nCodeSeparators
  end.

Fixpoint write_code (fuel : nat) (itBegin it : CScript) (s : list Z) : list Z :=
  match fuel, GetOp it with
  | S fuel, (it, Some (opcode, _)) =>
    if opcode =? OP_CODESEPARATOR
    then write_code fuel it it (s ++ take (length itBegin - length it - 1) itBegin)
    else write_code fuel itBegin it s
  | _, (it, _) => if is_empty itBegin then s else s ++ between itBegin it
  end.

Definition SerializeScriptCode (scriptCode : CScript) : list Z :=
  let nCodeSeparators := count_separators (S (length scriptCode)) scriptCode 0 in
  WriteCompactSize (Z.of_nat (length scriptCode) - nCodeSeparators) ++
  write_code (S (length scriptCode)) scriptCode scriptCode [].

(** [None] is an access outside the vectors. *)
Definition SerializeInput (tx : WireTx) (scriptCode : CScript) (nIn : nat) (nHashType : Z) (nInput : nat) : option (list Z) :=
  let nInput := if fAnyoneCanPay nHashType then nIn else nInput in
  do i <- w_vin tx !! nInput;
  Some (outpoint_bytes (in_prevout i) ++
    (if negb (nInput =? nIn)%nat then WriteVector [] else SerializeScriptCode scriptCode) ++
    (if negb (nInput =? nIn)%nat && (fHashSingle nHashType || fHashNone nHashType)
     then le_bytes 4 0 else le_bytes 4 (in_nSequence i))).

Definition SerializeOutput (tx : WireTx) (nIn : nat) (nHashType : Z) (nOutput : nat) : option (list Z) :=
  if fHashSingle nHashType && negb (nOutput =? nIn)%nat then Some (ser_out null_out)
  else do o <- w_vout tx !! nOutput; Some (ser_out o).

Definition SignatureSerialize (tx : WireTx) (scriptCode : CScript) (nIn : nat) (nHashType : Z) : option (list Z) :=
  let nInputs := if fAnyoneCanPay nHashType then 1%nat else length (w_vin tx) in
  do ins <- mapM (SerializeInput tx scriptCode nIn nHashType) (seq 0 nInputs);
  let nOutputs := if fHashNone nHashType then 0%nat else if fHashSingle nHashType then S nIn else length (w_vout tx) in
  do outs <- mapM (SerializeOutput tx nIn nHashType) (seq 0 nOutputs);
  Some (le_bytes 4 (w_nVersion tx) ++ le_bytes 4 (w_nTime tx) ++
    WriteCompactSize (Z.of_nat nInputs) ++ concat ins ++ WriteCompactSize (Z.of_nat nOutputs) ++ concat outs ++
    le_bytes 4 (w_nLockTime tx) ++ WriteVector (w_strDZeel tx) ++
    (if flag_set (w_nVersion tx) TX_BLS_CT_FLAG then WriteVector (w_vchBalanceSig tx) else []) ++
    (if flag_set (w_nVersion tx) TX_BLS_INPUT_FLAG then WriteVector (w_vchTxSig tx) else [])).

(** ** The format of witnesses *)

Definition GetPrevoutHash (tx : WireTx) : uint256 :=
  HashWriter_GetHash (concat (map (fun i => outpoint_bytes (in_prevout i)) (w_vin tx))).
Definition GetSequenceHash (tx : WireTx) : uint256 :=
  HashWriter_GetHash (concat (map (fun i => le_bytes 4 (in_nSequence i)) (w_vin tx))).
Definition GetOutputsHash (tx : WireTx) : uint256 := HashWriter_GetHash (concat (map ser_out (w_vout tx))).

Record PrecomputedTransactionData := mkPrecomputed { pc_hashPrevouts : uint256; pc_hashSequence : uint256; pc_hashOutputs : uint256 }.

Definition PrecomputedTransactionData_new (tx : WireTx) : PrecomputedTransactionData :=
  mkPrecomputed (GetPrevoutHash tx) (GetSequenceHash tx) (GetOutputsHash tx).

(** The bytes that are hashed for a witness. *)
Definition witness_preimage (scriptCode : CScript) (tx : WireTx) (nIn : nat) (nHashType amount : Z)
    (cache : option PrecomputedTransactionData) : option (list Z) :=
  let all := negb (fHashSingle nHashType) && negb (fHashNone nHashType) in
  let hashPrevouts :=
    if negb (fAnyoneCanPay nHashType) then match cache with Some c => pc_hashPrevouts c | None => GetPrevoutHash tx end else 0 in
  let hashSequence :=
    if negb (fAnyoneCanPay nHashType) && all then match cache with Some c => pc_hashSequence c | None => GetSequenceHash tx end else 0 in
  let hashOutputs :=
    if all then match cache with Some c => pc_hashOutputs c | None => GetOutputsHash tx end
    else if fHashSingle nHashType then match w_vout tx !! nIn with Some o => HashWriter_GetHash (ser_out o) | None => 0 end
    else 0 in
  do i <- w_vin tx !! nIn;
  Some (le_bytes 4 (w_nVersion tx) ++ uint256_bytes hashPrevouts ++ uint256_bytes hashSequence ++
    outpoint_bytes (in_prevout i) ++ WriteVector scriptCode ++ le_bytes 8 amount ++ le_bytes 4 (in_nSequence i) ++
    uint256_bytes hashOutputs ++ le_bytes 4 (w_nLockTime tx) ++ le_bytes 4 nHashType).

Definition SignatureHash (scriptCode : CScript) (tx : WireTx) (nIn : nat) (nHashType amount : Z) (sigversion : SigVersion)
    (cache : option PrecomputedTransactionData) : option uint256 :=
  match sigversion with
  | SIGVERSION_WITNESS_V0 => HashWriter_GetHash <$> witness_preimage scriptCode tx nIn nHashType amount cache
  | SIGVERSION_BASE =>
    if (length (w_vin tx) <=? nIn)%nat then Some 1
    else if fHashSingle nHashType && (length (w_vout tx) <=? nIn)%nat then Some 1
    else do l <- SignatureSerialize tx scriptCode nIn nHashType; Some (HashWriter_GetHash (l ++ le_bytes 4 nHashType))
  end.

(** ** The script without its separators *)

(** Every instruction of the script can be read. *)
Fixpoint well_formed (fuel : nat) (s : CScript) : bool :=
  match s, fuel with
  | [], _ => true
  | _, S fuel => match GetOp s with (s, Some _) => well_formed fuel s | (_, None) => false end
  | _, O => false
  end.

Fixpoint without_separators (fuel : nat) (s : CScript) : CScript :=
  match s, fuel with
  | _ :: _, S fuel =>
    match GetOp s with
    | (s', Some (opcode, _)) => (if opcode =? OP_CODESEPARATOR then [] else between s s') ++ without_separators fuel s'
    | (_, None) => []
    end
  | _, _ => []
  end.

Definition script_ok (s : CScript) : Prop := well_formed (length s) s = true /\ Z.of_nat (length s) <= MAX_SIZE.
Definition signed_code (s : CScript) : CScript := without_separators (length s) s.

Lemma GetOp_suffix pc pc' r : GetOp pc = (pc', Some r) -> pc = between pc pc' ++ pc'.
Proof.
  intros H. assert (exists l, pc = l ++ pc') as [l ->]; [|unfold between; rewrite length_app, Nat.add_sub, take_app_length; done].
  revert H. destruct pc as [|o pc]; cbn [GetOp]; [done|]. destruct (o <=? OP_PUSHDATA4); [|intros [= <- _]; by exists [o]].
  unfold push_size. destruct (o <? OP_PUSHDATA1).
  - destruct (_ <? _); [done|]. intros [= <- _]. exists (o :: take (Z.to_nat o) pc). cbn. by rewrite take_drop.
  - set (n := if o =? OP_PUSHDATA1 then _ else _). destruct (length pc <? n)%nat; [done|]. destruct (_ <? _); [done|].
    intros [= <- _]. set (m := Z.to_nat _). exists (o :: take n pc ++ take m (drop n pc)). cbn. by rewrite <- app_assoc, !take_drop.
Qed.

(** A separator is one byte. *)
Lemma GetOp_separator pc pc' data : GetOp pc = (pc', Some (OP_CODESEPARATOR, data)) -> pc = OP_CODESEPARATOR :: pc'.
Proof.
  destruct pc as [|o pc]; cbn [GetOp]; [done|]. destruct (o <=? OP_PUSHDATA4) eqn:E; [|by intros [= <- <- _]].
  apply Z.leb_le in E. destruct (push_size o pc) as [[n pc0]|]; [|done]. destruct (_ <? _); [done|].
  intros [= _ E' _]. unfold OP_CODESEPARATOR, OP_PUSHDATA4 in *. lia.
Qed.

Lemma between_app (l r : CScript) : between (l ++ r) r = l.
Proof. unfold between. by rewrite length_app, Nat.add_sub, take_app_length. Qed.

(** The loops, with [done_] the part of the script behind the last separator. *)
Lemma separators_spec fuel k it done_ s n :
  (length it <= k)%nat -> (length it < fuel)%nat -> well_formed k it = true ->
  write_code fuel (done_ ++ it) it s = s ++ done_ ++ without_separators k it /\
  count_separators fuel it n = n + Z.of_nat (length it) - Z.of_nat (length (without_separators k it)).
Proof.
  revert k it done_ s n; induction fuel as [|fuel IH]; intros k it done_ s n Hk Hf Hw; [lia|]. cbn [write_code count_separators].
  destruct it as [|o it].
  { assert (without_separators k [] = []) as -> by (by destruct k). cbn [GetOp length]. rewrite !app_nil_r. split; [|lia].
    destruct done_ as [|x done_]; cbn [is_empty]; [by rewrite app_nil_r|]. f_equal.
    rewrite <- (app_nil_r (x :: done_)) at 1. apply between_app. }
  destruct k as [|k]; [cbn in Hk; lia|]. cbn [well_formed without_separators] in *.
  destruct (GetOp (o :: it)) as [it' [[opcode data]|]] eqn:E; [|done].
  pose proof (GetOp_shorter _ _ _ E) as Hlt. pose proof (GetOp_suffix _ _ _ E) as Hs.
  destruct (Z.eqb_spec opcode OP_CODESEPARATOR) as [->|Hne].
  - apply GetOp_separator in E as E'. destruct (IH k it' [] (s ++ done_) (n + 1) ltac:(lia) ltac:(lia) Hw) as [H1 H2].
    cbn [app] in H1 |- *. rewrite E'. split.
    + assert (take (length (done_ ++ OP_CODESEPARATOR :: it') - length it' - 1) (done_ ++ OP_CODESEPARATOR :: it') = done_) as ->.
      { rewrite length_app. cbn [length]. replace (_ - _ - _)%nat with (length done_) by lia. apply take_app_length. }
      by rewrite H1, <- app_assoc.
    + rewrite H2. cbn [length]. lia.
  - destruct (IH k it' (done_ ++ between (o :: it) it') s n ltac:(lia) ltac:(lia) Hw) as [H1 H2]. split.
    + rewrite Hs at 1. rewrite app_assoc, H1. by rewrite <- app_assoc.
    + rewrite H2, length_app. rewrite Hs at 1. rewrite length_app. lia.
Qed.

Lemma SerializeScriptCode_spec s : script_ok s -> SerializeScriptCode s = WriteVector (signed_code s).
Proof.
  intros [Hw _]. unfold SerializeScriptCode, WriteVector, signed_code.
  destruct (separators_spec (S (length s)) (length s) s [] [] 0 ltac:(lia) ltac:(lia) Hw) as [H1 H2]. cbn [app] in H1. rewrite H1, H2.
  do 2 f_equal. lia.
Qed.

Lemma signed_code_short s : script_ok s -> short (signed_code s).
Proof.
  intros [Hw Hl]. unfold short. destruct (separators_spec (S (length s)) (length s) s [] [] 0 ltac:(lia) ltac:(lia) Hw) as [_ H2].
  assert (0 <= count_separators (S (length s)) s 0) as H0.
  { assert (forall fuel it n, 0 <= n -> 0 <= count_separators fuel it n) as Hc; [|by apply Hc].
    induction fuel as [|fuel IH]; intros it n Hn; cbn [count_separators]; [done|]. destruct (GetOp it) as [it' [[op d]|]]; [|done].
    apply IH. destruct (_ =? _); lia. }
  unfold signed_code. lia.
Qed.

(** ** What is signed *)

(** The inputs as they are signed: the script code in place of the script of
    the input, nothing in place of the others. *)
Definition signed_input (code : CScript) (nIn : nat) (nHashType : Z) (n : nat) (i : CTxIn) : CTxIn :=
  if (n =? nIn)%nat then mkCTxIn (in_prevout i) code (in_nSequence i)
  else mkCTxIn (in_prevout i) [] (if fHashSingle nHashType || fHashNone nHashType then 0 else in_nSequence i).

Definition signed_inputs (tx : WireTx) (code : CScript) (nIn : nat) (nHashType : Z) : list CTxIn :=
  if fAnyoneCanPay nHashType
  then match w_vin tx !! nIn with Some i => [signed_input code nIn nHashType nIn i] | None => [] end
  else imap (signed_input code nIn nHashType) (w_vin tx).

(** All the outputs, the one of the input's position with blanks before it, or
    none. *)
Definition signed_outputs (tx : WireTx) (nIn : nat) (nHashType : Z) : list TxOut :=
  if fHashNone nHashType then []
  else if fHashSingle nHashType
  then replicate nIn null_out ++ match w_vout tx !! nIn with Some o => [wire_form o] | None => [] end
  else map wire_form (w_vout tx).

(** The part of a transaction that a signature covers. *)
Definition signed_tx (tx : WireTx) (code : CScript) (nIn : nat) (nHashType : Z) : WireTx :=
  mkWireTx (w_nVersion tx) (w_nTime tx) (signed_inputs tx code nIn nHashType) (signed_outputs tx nIn nHashType) []
    (w_nLockTime tx) (w_strDZeel tx)
    (if flag_set (w_nVersion tx) TX_BLS_INPUT_FLAG then w_vchTxSig tx else [])
    (if flag_set (w_nVersion tx) TX_BLS_CT_FLAG then w_vchBalanceSig tx else []).

Definition ser_signed (v : WireTx) : list Z :=
  le_bytes 4 (w_nVersion v) ++ le_bytes 4 (w_nTime v) ++ ser_vec ser_txin (w_vin v) ++ ser_vec ser_out (w_vout v) ++
  le_bytes 4 (w_nLockTime v) ++ WriteVector (w_strDZeel v) ++
  (if flag_set (w_nVersion v) TX_BLS_CT_FLAG then WriteVector (w_vchBalanceSig v) else []) ++
  (if flag_set (w_nVersion v) TX_BLS_INPUT_FLAG then WriteVector (w_vchTxSig v) else []).

(** The input and, for [SIGHASH_SINGLE], the output of its position exist. *)
Definition signable (tx : WireTx) (nIn : nat) (nHashType : Z) : Prop :=
  (nIn < length (w_vin tx))%nat /\ (fHashSingle nHashType = true -> (nIn < length (w_vout tx))%nat).

Lemma mapM_seq {A B} (f : nat -> option B) (g : A -> B) (l : list A) j :
  (forall k x, l !! k = Some x -> f (j + k)%nat = Some (g x)) -> mapM f (seq j (length l)) = Some (map g l).
Proof.
  revert j; induction l as [|x l IH]; intros j H; [done|]. cbn [length seq mapM map].
  pose proof (H 0%nat x eq_refl) as H0. rewrite Nat.add_0_r in H0. rewrite H0. cbn [mbind option_bind]. rewrite (IH (S j)); [done|].
  intros k y Hk. specialize (H (S k) y Hk). by rewrite Nat.add_succ_r in H.
Qed.

Lemma single_not_none t : fHashSingle t = true -> fHashNone t = false.
Proof. unfold fHashSingle, fHashNone. intros H%Z.eqb_eq. apply Z.eqb_neq. rewrite H. done. Qed.

Lemma signed_inputs_length tx code nIn t :
  signable tx nIn t -> length (signed_inputs tx code nIn t) = if fAnyoneCanPay t then 1%nat else length (w_vin tx).
Proof.
  intros [Hi _]. unfold signed_inputs. destruct (fAnyoneCanPay t); [|apply length_imap].
  by destruct (lookup_lt_is_Some_2 _ _ Hi) as [i ->].
Qed.

Lemma signed_outputs_length tx nIn t :
  signable tx nIn t ->
  length (signed_outputs tx nIn t) = if fHashNone t then 0%nat else if fHashSingle t then S nIn else length (w_vout tx).
Proof.
  intros [_ Ho]. unfold signed_outputs. destruct (fHashNone t); [done|]. destruct (fHashSingle t); [|apply length_map].
  destruct (lookup_lt_is_Some_2 _ _ (Ho eq_refl)) as [o ->]. rewrite length_app, length_replicate. cbn. lia.
Qed.

Lemma SerializeInput_signed tx script nIn t k i :
  script_ok script -> signable tx nIn t -> signed_inputs tx (signed_code script) nIn t !! k = Some i ->
  SerializeInput tx script nIn t k = Some (ser_txin i).
Proof.
  intros Hs [Hi _]. unfold signed_inputs, SerializeInput. destruct (fAnyoneCanPay t).
  - destruct (lookup_lt_is_Some_2 _ _ Hi) as [x Hx]. rewrite Hx. intros [-> <-]%list_lookup_singleton_Some. cbn [mbind option_bind].
    rewrite Nat.eqb_refl, SerializeScriptCode_spec by done. unfold signed_input. rewrite Nat.eqb_refl. done.
  - rewrite list_lookup_imap. destruct (w_vin tx !! k) as [x|]; [|done]. intros [= <-]. cbn [mbind option_bind]. unfold signed_input.
    destruct (k =? nIn)%nat; cbn [negb andb]; [by rewrite SerializeScriptCode_spec|]. by destruct (_ || _).
Qed.

Lemma SerializeOutput_signed tx nIn t k o :
  signable tx nIn t -> signed_outputs tx nIn t !! k = Some o -> SerializeOutput tx nIn t k = Some (ser_out o).
Proof.
  intros [_ Ho]. unfold signed_outputs, SerializeOutput. destruct (fHashNone t) eqn:En; [done|]. destruct (fHashSingle t) eqn:Es.
  - destruct (lookup_lt_is_Some_2 _ _ (Ho eq_refl)) as [x Hx]. rewrite Hx. intros [H|[Hge H]]%lookup_app_Some.
    + apply lookup_replicate in H as [-> Hk]. by rewrite (proj2 (Nat.eqb_neq _ _)) by lia.
    + apply list_lookup_singleton_Some in H as [Hk <-]. rewrite length_replicate in *. assert (k = nIn) as -> by lia.
      rewrite Nat.eqb_refl. cbn [andb negb]. rewrite Hx. cbn [mbind option_bind]. by rewrite ser_wire_form.
  - cbn [andb]. rewrite list_lookup_fmap. destruct (w_vout tx !! k) as [x|]; [|done]. intros [= <-]. cbn [mbind option_bind].
    by rewrite ser_wire_form.
Qed.

(** The bytes that are hashed are those of the covered part. *)
Lemma serialize_signed tx script nIn t :
  script_ok script -> signable tx nIn t ->
  SignatureSerialize tx script nIn t = Some (ser_signed (signed_tx tx (signed_code script) nIn t)).
Proof.
  intros Hs Hok. unfold SignatureSerialize. rewrite <- (signed_inputs_length tx (signed_code script) nIn t Hok).
  rewrite (mapM_seq _ ser_txin); [|intros k i; by apply SerializeInput_signed]. cbn [mbind option_bind].
  rewrite <- (signed_outputs_length tx nIn t Hok). rewrite (mapM_seq _ ser_out); [|intros k o; by apply SerializeOutput_signed].
  cbn [mbind option_bind]. unfold ser_signed, signed_tx, ser_vec. cbn [w_nVersion w_nTime w_vin w_vout w_nLockTime w_strDZeel w_vchTxSig w_vchBalanceSig].
  rewrite <- !app_assoc.
  by destruct (flag_set (w_nVersion tx) TX_BLS_CT_FLAG), (flag_set (w_nVersion tx) TX_BLS_INPUT_FLAG).
Qed.

(** ** The bytes determine the covered part *)

Lemma prefix_inj {A} (r : Reader A) x y l1 l2 s1 s2 :
  r (l1 ++ s1) = Some (x, s1) -> r (l2 ++ s2) = Some (y, s2) -> l1 ++ s1 = l2 ++ s2 -> x = y /\ s1 = s2.
Proof. intros H1 H2 E. rewrite E, H2 in H1. by injection H1. Qed.

Lemma vector_inj v1 v2 s1 s2 : short v1 -> short v2 -> WriteVector v1 ++ s1 = WriteVector v2 ++ s2 -> v1 = v2 /\ s1 = s2.
Proof. intros H1 H2. apply (prefix_inj ReadVector); by apply ReadVector_write. Qed.

Lemma le_inj n z1 z2 s1 s2 :
  0 <= z1 < 256 ^ Z.of_nat n -> 0 <= z2 < 256 ^ Z.of_nat n -> le_bytes n z1 ++ s1 = le_bytes n z2 ++ s2 -> z1 = z2 /\ s1 = s2.
Proof. intros H1 H2. apply (prefix_inj (read_le n)); by apply read_le_bytes. Qed.

Lemma i32_inj z1 z2 s1 s2 :
  - 2 ^ 31 <= z1 < 2 ^ 31 -> - 2 ^ 31 <= z2 < 2 ^ 31 -> le_bytes 4 z1 ++ s1 = le_bytes 4 z2 ++ s2 -> z1 = z2 /\ s1 = s2.
Proof.
  intros H1 H2 E. apply (prefix_inj (read_le 4) _ _ _ _ _ _ (read_le_mod 4 z1 s1) (read_le_mod 4 z2 s2)) in E as [E ->].
  split; [|done]. change (256 ^ Z.of_nat 4) with (2 ^ 32) in E. by rewrite <- (i32_mod z1), <- (i32_mod z2), E.
Qed.

Section covers.
Context (G1_FromByteVector : list Z -> option (list Z)).
Abbreviation wire_tx_ok := (wire_tx_ok G1_FromByteVector).

Lemma signed_input_ok code nIn t n i : txin_ok i -> short code -> txin_ok (signed_input code nIn t n i).
Proof.
  intros [H1 H2 H3] Hc. unfold signed_input. destruct (n =? nIn)%nat; split; cbn [in_prevout in_scriptSig in_nSequence]; try done.
  destruct (_ || _); [|done]. lia.
Qed.

Lemma signed_inputs_inj tx1 tx2 c1 c2 n1 n2 t s1 s2 :
  wire_tx_ok tx1 -> wire_tx_ok tx2 -> short c1 -> short c2 -> signable tx1 n1 t -> signable tx2 n2 t ->
  ser_vec ser_txin (signed_inputs tx1 c1 n1 t) ++ s1 = ser_vec ser_txin (signed_inputs tx2 c2 n2 t) ++ s2 ->
  signed_inputs tx1 c1 n1 t = signed_inputs tx2 c2 n2 t /\ s1 = s2.
Proof.
  assert (forall tx c n s, wire_tx_ok tx -> short c -> signable tx n t ->
    read_vec read_txin (ser_vec ser_txin (signed_inputs tx c n t) ++ s) = Some (signed_inputs tx c n t, s)) as Hread.
  { intros tx c n s [_ _ [Hl Hi] _ _ _ _] Hc Hok. rewrite (vec_roundtrip _ _ id); [by rewrite list_fmap_id| |].
    - rewrite signed_inputs_length by done. destruct (fAnyoneCanPay t); [done|done].
    - intros x s' Hx. apply txin_roundtrip. rewrite Forall_forall in Hi. unfold signed_inputs in Hx. destruct (fAnyoneCanPay t).
      + destruct (w_vin tx !! n) as [i|] eqn:Ei; [|by apply not_elem_of_nil in Hx]. apply list_elem_of_singleton in Hx as ->.
        apply signed_input_ok; [|done]. apply Hi. by eapply list_elem_of_lookup_2.
      + apply elem_of_lookup_imap in Hx as (k & i & -> & Hi'). apply signed_input_ok; [|done]. apply Hi. by eapply list_elem_of_lookup_2. }
  intros H1 H2 C1 C2 O1 O2. apply (prefix_inj (read_vec read_txin)); by apply Hread.
Qed.

Lemma outs_inj l1 l2 s1 s2 :
  length l1 = length l2 -> Forall (wire_out_ok G1_FromByteVector) l1 -> Forall (wire_out_ok G1_FromByteVector) l2 ->
  concat (map ser_out l1) ++ s1 = concat (map ser_out l2) ++ s2 -> map wire_form l1 = map wire_form l2 /\ s1 = s2.
Proof.
  intros El H1 H2. rewrite Forall_forall in H1. rewrite Forall_forall in H2. apply (prefix_inj (read_n (read_out G1_FromByteVector) (length l1))).
  - apply read_n_ser. intros x s Hx. by apply out_roundtrip, H1.
  - rewrite El. apply read_n_ser. intros x s Hx. by apply out_roundtrip, H2.
Qed.

Lemma signed_outputs_inj tx1 tx2 n1 n2 t s1 s2 :
  wire_tx_ok tx1 -> wire_tx_ok tx2 -> signable tx1 n1 t -> signable tx2 n2 t ->
  ser_vec ser_out (signed_outputs tx1 n1 t) ++ s1 = ser_vec ser_out (signed_outputs tx2 n2 t) ++ s2 ->
  signed_outputs tx1 n1 t = signed_outputs tx2 n2 t /\ s1 = s2.
Proof.
  intros [_ _ [I1 _] [L1 F1] _ _ _] [_ _ [I2 _] [L2 F2] _ _ _] O1 O2. unfold ser_vec. rewrite <- !app_assoc.
  rewrite (signed_outputs_length tx1 n1 t O1), (signed_outputs_length tx2 n2 t O2).
  assert (forall tx n, signable tx n t -> Z.of_nat (length (w_vin tx)) <= MAX_SIZE -> Z.of_nat (length (w_vout tx)) <= MAX_SIZE ->
    0 <= Z.of_nat (if fHashNone t then 0 else if fHashSingle t then S n else length (w_vout tx)) <= MAX_SIZE) as Hn.
  { intros tx n [? _]. destruct (fHashNone t), (fHashSingle t); unfold MAX_SIZE; lia. }
  intros E. apply (prefix_inj ReadCompactSize _ _ _ _ _ _
    (CompactSize_read _ _ (Hn _ _ O1 I1 L1)) (CompactSize_read _ _ (Hn _ _ O2 I2 L2))) in E as [En E].
  destruct O1 as [_ O1], O2 as [_ O2]. revert E. unfold signed_outputs. destruct (fHashNone t); [done|]. destruct (fHashSingle t).
  - assert (n1 = n2) as -> by lia. destruct (lookup_lt_is_Some_2 _ _ (O1 eq_refl)) as [o1 H1], (lookup_lt_is_Some_2 _ _ (O2 eq_refl)) as [o2 H2].
    rewrite H1, H2, !map_app, !concat_app, <- !app_assoc. intros E%app_inv_head. cbn [map concat] in E. rewrite !app_nil_r, !ser_wire_form in E.
    apply (prefix_inj (read_out G1_FromByteVector) (wire_form o1) (wire_form o2)) in E as [-> ->]; [done|apply out_roundtrip..].
    + exact (Forall_lookup_1 _ _ _ _ F1 H1).
    + exact (Forall_lookup_1 _ _ _ _ F2 H2).
  - assert (forall l, map ser_out (map wire_form l) = map ser_out l) as Hm.
    { intros l. rewrite map_map. apply map_ext. apply ser_wire_form. }
    rewrite !Hm. apply outs_inj; [lia|done|done].
Qed.

Lemma ser_signed_inj tx1 tx2 c1 c2 n1 n2 t s1 s2 :
  wire_tx_ok tx1 -> wire_tx_ok tx2 -> short c1 -> short c2 -> signable tx1 n1 t -> signable tx2 n2 t ->
  ser_signed (signed_tx tx1 c1 n1 t) ++ s1 = ser_signed (signed_tx tx2 c2 n2 t) ++ s2 -> signed_tx tx1 c1 n1 t = signed_tx tx2 c2 n2 t.
Proof.
  intros H1 H2 C1 C2 O1 O2. unfold ser_signed. cbn [signed_tx w_nVersion w_nTime w_vin w_vout w_nLockTime w_strDZeel w_vchTxSig w_vchBalanceSig].
  rewrite <- !app_assoc. pose proof H1 as [V1 T1 _ _ _ K1 X1]. pose proof H2 as [V2 T2 _ _ _ K2 X2].
  rewrite !Forall_cons in X1. rewrite !Forall_cons in X2. destruct X1 as (X1 & Y1 & Z1 & _), X2 as (X2 & Y2 & Z2 & _).
  intros [Ev E]%i32_inj; [|done..]. apply le_inj in E as [Et E]; [|done..].
  apply signed_inputs_inj in E as [Ei E]; [|done..]. apply signed_outputs_inj in E as [Eo E]; [|done..].
  apply le_inj in E as [El E]; [|done..]. apply vector_inj in E as [Ex E]; [|done..]. unfold signed_tx. rewrite Ev, Et, Ei, Eo, El, Ex.
  rewrite Ev in E. destruct (flag_set (w_nVersion tx2) TX_BLS_CT_FLAG), (flag_set (w_nVersion tx2) TX_BLS_INPUT_FLAG); try done.
  - apply vector_inj in E as [Eb E]; [|done..]. apply vector_inj in E as [Ea _]; [|done..]. by rewrite Ea, Eb.
  - apply vector_inj in E as [Eb E]; [|done..]. by rewrite Eb.
  - apply vector_inj in E as [Eb E]; [|done..]. by rewrite Eb.
Qed.

(** *** Witnesses *)

Lemma SHA256_bytes m : length (SHA256 m) = 32%nat /\ Forall byte (SHA256 m).
Proof. exact (Sha2.Sha256.sha256_hash_bytes m). Qed.

Lemma digest_range d : length d = 32%nat -> Forall byte d -> 0 <= uint256_of_bytes d < 2 ^ 256.
Proof.
  intros Hl Hb. pose proof (le_value_range _ Hb) as Hr. rewrite Hl in Hr.
  assert (256 ^ Z.of_nat 32 = 2 ^ 256) as E by (vm_compute; reflexivity). by rewrite E in Hr.
Qed.

Lemma HashWriter_digest l : HashWriter_GetHash l = uint256_of_bytes (SHA256 (SHA256 l)).
Proof. unfold HashWriter_GetHash. by rewrite Hash_message, concat_cons, app_nil_r by apply length_replicate. Qed.

Lemma HashWriter_range l : 0 <= HashWriter_GetHash l < 2 ^ 256.
Proof. rewrite HashWriter_digest. apply digest_range; apply SHA256_bytes. Qed.

#[local] Opaque HashWriter_GetHash.

(** Parts that are written one behind the other, without their number. *)
Lemma concat_inj {A B} (f : A -> list Z) (r : Reader B) (g : A -> B) l1 l2 :
  (forall x s, x ∈ l1 ++ l2 -> r (f x ++ s) = Some (g x, s)) -> (forall x, f x <> []) ->
  concat (map f l1) = concat (map f l2) -> map g l1 = map g l2.
Proof.
  intros Hr Hne. revert l2 Hr; induction l1 as [|x l1 IH]; intros [|y l2] Hr E; cbn [map concat] in *; [done| | |].
  - symmetry in E. apply app_nil in E as [E _]. by destruct (Hne y).
  - apply app_nil in E as [E _]. by destruct (Hne x).
  - apply (prefix_inj r (g x) (g y)) in E as [-> E].
    + f_equal. apply IH; [|done]. intros z s Hz. apply Hr. set_solver.
    + apply Hr. by left.
    + apply Hr. set_solver.
Qed.

Lemma hash_inj z1 z2 s1 s2 :
  (exists l, z1 = HashWriter_GetHash l) \/ z1 = 0 -> (exists l, z2 = HashWriter_GetHash l) \/ z2 = 0 ->
  uint256_bytes z1 ++ s1 = uint256_bytes z2 ++ s2 -> z1 = z2 /\ s1 = s2.
Proof.
  intros H1 H2. assert (forall z, (exists l, z = HashWriter_GetHash l) \/ z = 0 -> 0 <= z < 256 ^ Z.of_nat 32) as Hz.
  { intros z Hz. assert (256 ^ Z.of_nat 32 = 2 ^ 256) as -> by (vm_compute; reflexivity). destruct Hz as [[l ->]| ->]; [apply HashWriter_range|lia]. }
  apply le_inj; by apply Hz.
Qed.

(** What a signature in a witness covers. *)
Record witness_same (script1 : CScript) (tx1 : WireTx) (n1 : nat) (a1 : Z) (script2 : CScript) (tx2 : WireTx) (n2 : nat) (a2 t : Z) : Prop := {
  ws_version : w_nVersion tx1 = w_nVersion tx2;
  ws_locktime : w_nLockTime tx1 = w_nLockTime tx2;
  ws_script : script1 = script2;
  ws_amount : a1 = a2;
  ws_input : (fun i => (in_prevout i, in_nSequence i)) <$> w_vin tx1 !! n1 = (fun i => (in_prevout i, in_nSequence i)) <$> w_vin tx2 !! n2;
  ws_prevouts : fAnyoneCanPay t = false -> map in_prevout (w_vin tx1) = map in_prevout (w_vin tx2);
  ws_sequences : fAnyoneCanPay t = false -> fHashSingle t = false -> fHashNone t = false ->
    map in_nSequence (w_vin tx1) = map in_nSequence (w_vin tx2);
  ws_outputs : fHashSingle t = false -> fHashNone t = false -> map wire_form (w_vout tx1) = map wire_form (w_vout tx2);
  ws_output : fHashSingle t = true -> wire_form <$> w_vout tx1 !! n1 = wire_form <$> w_vout tx2 !! n2
}.

(** The parts of the transaction that the witness format hashes on their own. *)
Definition prevout_bytes (tx : WireTx) : list Z := concat (map (fun i => outpoint_bytes (in_prevout i)) (w_vin tx)).
Definition sequence_bytes (tx : WireTx) : list Z := concat (map (fun i => le_bytes 4 (in_nSequence i)) (w_vin tx)).
Definition output_bytes (tx : WireTx) : list Z := concat (map ser_out (w_vout tx)).

(** A collision among the hashed parts of two transactions. *)
Definition parts_collide (tx1 : WireTx) (n1 : nat) (tx2 : WireTx) (n2 : nat) : Prop :=
  collide (prevout_bytes tx1) (prevout_bytes tx2) \/ collide (sequence_bytes tx1) (sequence_bytes tx2) \/
  collide (output_bytes tx1) (output_bytes tx2) \/
  exists o1 o2, w_vout tx1 !! n1 = Some o1 /\ w_vout tx2 !! n2 = Some o2 /\ collide (ser_out o1) (ser_out o2).

Lemma prevouts_inj tx1 tx2 :
  wire_tx_ok tx1 -> wire_tx_ok tx2 -> GetPrevoutHash tx1 = GetPrevoutHash tx2 ->
  map in_prevout (w_vin tx1) = map in_prevout (w_vin tx2) \/ collide (prevout_bytes tx1) (prevout_bytes tx2).
Proof.
  intros [_ _ [_ H1] _ _ _ _] [_ _ [_ H2] _ _ _ _] [E|]%hash_equal; [left|by right]. revert E. apply (concat_inj _ read_outpoint).
  - intros x s [Hx|Hx]%elem_of_app; [rewrite Forall_forall in H1; destruct (H1 x Hx)|rewrite Forall_forall in H2; destruct (H2 x Hx)];
      by apply outpoint_roundtrip.
  - intros x E%(f_equal length). unfold outpoint_bytes in E. rewrite length_app, !length_le_bytes in E. done.
Qed.

Lemma sequences_inj tx1 tx2 :
  wire_tx_ok tx1 -> wire_tx_ok tx2 -> GetSequenceHash tx1 = GetSequenceHash tx2 ->
  map in_nSequence (w_vin tx1) = map in_nSequence (w_vin tx2) \/ collide (sequence_bytes tx1) (sequence_bytes tx2).
Proof.
  intros [_ _ [_ H1] _ _ _ _] [_ _ [_ H2] _ _ _ _] [E|]%hash_equal; [left|by right]. revert E. apply (concat_inj _ (read_le 4)).
  - intros x s [Hx|Hx]%elem_of_app; [rewrite Forall_forall in H1; destruct (H1 x Hx)|rewrite Forall_forall in H2; destruct (H2 x Hx)];
      by apply read_le_bytes.
  - intros x E%(f_equal length). by rewrite length_le_bytes in E.
Qed.

Lemma outputs_inj tx1 tx2 :
  wire_tx_ok tx1 -> wire_tx_ok tx2 -> GetOutputsHash tx1 = GetOutputsHash tx2 ->
  map wire_form (w_vout tx1) = map wire_form (w_vout tx2) \/ collide (output_bytes tx1) (output_bytes tx2).
Proof.
  intros [_ _ _ [_ H1] _ _ _] [_ _ _ [_ H2] _ _ _] [E|]%hash_equal; [left|by right]. revert E. apply (concat_inj _ (read_out G1_FromByteVector)).
  - intros x s [Hx|Hx]%elem_of_app; [rewrite Forall_forall in H1|rewrite Forall_forall in H2]; apply out_roundtrip; auto.
  - intros o E%(f_equal length). unfold ser_out, WriteVector in E. rewrite !length_app in E. cbn [length] in E.
    pose proof (CompactSize_length (Z.of_nat (length (scriptPubKey (out_plain o))))) as El. unfold GetSizeOfCompactSize in El.
    repeat case_match; lia.
Qed.

Lemma output_inj o1 o2 :
  wire_out_ok G1_FromByteVector o1 -> wire_out_ok G1_FromByteVector o2 ->
  HashWriter_GetHash (ser_out o1) = HashWriter_GetHash (ser_out o2) -> wire_form o1 = wire_form o2 \/ collide (ser_out o1) (ser_out o2).
Proof.
  intros H1 H2 [E|]%hash_equal; [left|by right].
  apply (f_equal (.++ [])) in E. by apply (prefix_inj (read_out G1_FromByteVector) (wire_form o1) (wire_form o2)) in E as [-> _];
    [|apply out_roundtrip..].
Qed.

(** The caches of hashes are those of the transaction. *)
Definition cache_ok (tx : WireTx) (cache : option PrecomputedTransactionData) : Prop :=
  cache = None \/ cache = Some (PrecomputedTransactionData_new tx).

Lemma witness_covers script1 tx1 n1 a1 c1 script2 tx2 n2 a2 c2 t l :
  wire_tx_ok tx1 -> wire_tx_ok tx2 -> short script1 -> short script2 -> cache_ok tx1 c1 -> cache_ok tx2 c2 ->
  - 2 ^ 63 <= a1 < 2 ^ 63 -> - 2 ^ 63 <= a2 < 2 ^ 63 -> signable tx1 n1 t -> signable tx2 n2 t ->
  witness_preimage script1 tx1 n1 t a1 c1 = Some l -> witness_preimage script2 tx2 n2 t a2 c2 = Some l ->
  witness_same script1 tx1 n1 a1 script2 tx2 n2 a2 t \/ parts_collide tx1 n1 tx2 n2.
Proof.
  intros H1 H2 S1 S2 C1 C2 A1 A2 [O1 P1] [O2 P2]. unfold witness_preimage.
  assert (forall (tx : WireTx) (c : option PrecomputedTransactionData), cache_ok tx c ->
    match c with Some c => pc_hashPrevouts c | None => GetPrevoutHash tx end = GetPrevoutHash tx /\
    match c with Some c => pc_hashSequence c | None => GetSequenceHash tx end = GetSequenceHash tx /\
    match c with Some c => pc_hashOutputs c | None => GetOutputsHash tx end = GetOutputsHash tx) as Hcache.
  { intros tx c [->| ->]; done. }
  destruct (Hcache _ _ C1) as (-> & -> & ->), (Hcache _ _ C2) as (-> & -> & ->). clear Hcache C1 C2.
  destruct (lookup_lt_is_Some_2 _ _ O1) as [i1 I1], (lookup_lt_is_Some_2 _ _ O2) as [i2 I2]. rewrite I1, I2. cbn [mbind option_bind].
  intros E1 E2. pose proof (eq_trans E1 (eq_sym E2)) as E. apply (inj Some) in E. clear E1 E2. pose proof H1 as [V1 _ [_ F1] [_ G1] _ K1 _]. pose proof H2 as [V2 _ [_ F2] [_ G2] _ K2 _].
  destruct (Forall_lookup_1 _ _ _ _ F1 I1) as [Q1 _ R1], (Forall_lookup_1 _ _ _ _ F2 I2) as [Q2 _ R2].
  apply i32_inj in E as [Ev E]; [|done..].
  apply hash_inj in E as [Eh E]; [|destruct (negb _); [left; by eexists|by right]..].
  apply hash_inj in E as [Es E]; [|destruct (negb _ && _); [left; by eexists|by right]..].
  apply (prefix_inj read_outpoint (in_prevout i1) (in_prevout i2)) in E as [Ep E]; [|by apply outpoint_roundtrip..]. apply vector_inj in E as [Ec E]; [|done..].
  apply (prefix_inj read_i64 a1 a2) in E as [Ea E]; [|by apply read_i64_bytes..]. apply le_inj in E as [Eq E]; [|done..].
  apply hash_inj in E as [Eo E]; [|repeat case_match; solve [by right|left; eexists; reflexivity]..].
  apply le_inj in E as [El _]; [|done..].
  assert ((fAnyoneCanPay t = false -> map in_prevout (w_vin tx1) = map in_prevout (w_vin tx2)) \/ parts_collide tx1 n1 tx2 n2) as [Wp|]; [..|by right].
  { destruct (fAnyoneCanPay t); [by left|]. destruct (prevouts_inj tx1 tx2 H1 H2 Eh); unfold parts_collide; auto. }
  assert ((fAnyoneCanPay t = false -> fHashSingle t = false -> fHashNone t = false ->
    map in_nSequence (w_vin tx1) = map in_nSequence (w_vin tx2)) \/ parts_collide tx1 n1 tx2 n2) as [Ws|]; [..|by right].
  { destruct (fAnyoneCanPay t), (fHashSingle t), (fHashNone t); try by left. destruct (sequences_inj tx1 tx2 H1 H2 Es); unfold parts_collide; auto. }
  assert ((fHashSingle t = false -> fHashNone t = false -> map wire_form (w_vout tx1) = map wire_form (w_vout tx2)) \/ parts_collide tx1 n1 tx2 n2)
    as [Wo|]; [..|by right].
  { destruct (fHashSingle t), (fHashNone t); try by left. destruct (outputs_inj tx1 tx2 H1 H2 Eo); unfold parts_collide; auto. }
  assert ((fHashSingle t = true -> wire_form <$> w_vout tx1 !! n1 = wire_form <$> w_vout tx2 !! n2) \/ parts_collide tx1 n1 tx2 n2) as [W1|]; [..|by right].
  { destruct (fHashSingle t) eqn:Ei; [|by left]. cbn [negb andb] in Eo.
    destruct (lookup_lt_is_Some_2 _ _ (P1 eq_refl)) as [o1 L1], (lookup_lt_is_Some_2 _ _ (P2 eq_refl)) as [o2 L2]. rewrite L1, L2 in Eo.
    destruct (output_inj o1 o2 (Forall_lookup_1 _ _ _ _ G1 L1) (Forall_lookup_1 _ _ _ _ G2 L2) Eo) as [E'|Hc]; [|right; do 3 right; by exists o1, o2].
    left. intros _. rewrite L1, L2. cbn. by rewrite E'. }
  left. split; try done. rewrite I1, I2. cbn. by rewrite Ep, Eq.
Qed.

End covers.

(** ** Theorems *)

(** The bytes that are signed in the original format, with the hash type. *)
Definition signed_message (tx : WireTx) (script : CScript) (nIn : nat) (t : Z) : option (list Z) :=
  do l <- SignatureSerialize tx script nIn t; Some (l ++ le_bytes 4 t).

Lemma signed_message_spec tx script nIn t :
  script_ok script -> signable tx nIn t ->
  signed_message tx script nIn t = Some (ser_signed (signed_tx tx (signed_code script) nIn t) ++ le_bytes 4 t).
Proof. intros Hs Ho. unfold signed_message. by rewrite serialize_signed. Qed.

Lemma SignatureHash_message tx script nIn t amount cache :
  signable tx nIn t ->
  SignatureHash script tx nIn t amount SIGVERSION_BASE cache = HashWriter_GetHash <$> signed_message tx script nIn t.
Proof.
  intros [Hi Ho]. unfold SignatureHash, signed_message. rewrite (proj2 (Nat.leb_gt _ _) Hi).
  assert (fHashSingle t && (length (w_vout tx) <=? nIn)%nat = false) as ->.
  { destruct (fHashSingle t); [|done]. cbn [andb]. apply Nat.leb_gt. auto. }
  by destruct (SignatureSerialize tx script nIn t).
Qed.

(** C14: A signature of the original format covers what its hash type says:
    [SignatureHash] is the double SHA-256 of a message, and the messages of two
    signatures are equal exactly if the hash types and the covered parts of the
    two transactions are (version, time, lock time, text; the outpoints of all
    inputs or of the signed one, with the script code at the signed input; all
    outputs, the one of its position or none).  So equal hashes mean equal
    covered parts, unless these two messages are a collision of the hash.  The
    transactions are in the range of the wire format, the scripts can be read
    to their end, and the signed input and, for [SIGHASH_SINGLE], the output of
    its position exist: otherwise the code signs the constant one. *)
Theorem signature_covers G1_FromByteVector script1 tx1 nIn1 t1 amount1 cache1 script2 tx2 nIn2 t2 amount2 cache2 :
  wire_tx_ok G1_FromByteVector tx1 -> wire_tx_ok G1_FromByteVector tx2 -> script_ok script1 -> script_ok script2 ->
  signable tx1 nIn1 t1 -> signable tx2 nIn2 t2 -> 0 <= t1 < 256 -> 0 <= t2 < 256 ->
  let hash1 := SignatureHash script1 tx1 nIn1 t1 amount1 SIGVERSION_BASE cache1 in
  let hash2 := SignatureHash script2 tx2 nIn2 t2 amount2 SIGVERSION_BASE cache2 in
  let covered1 := signed_tx tx1 (signed_code script1) nIn1 t1 in
  let covered2 := signed_tx tx2 (signed_code script2) nIn2 t2 in
  exists m1 m2, signed_message tx1 script1 nIn1 t1 = Some m1 /\ signed_message tx2 script2 nIn2 t2 = Some m2 /\
    hash1 = Some (HashWriter_GetHash m1) /\ hash2 = Some (HashWriter_GetHash m2) /\
    (m1 = m2 <-> t1 = t2 /\ covered1 = covered2) /\
    (hash1 = hash2 <-> (t1 = t2 /\ covered1 = covered2) \/ collide m1 m2).
Proof.
  intros H1 H2 S1 S2 O1 O2 T1 T2 hash1 hash2 covered1 covered2. unfold hash1, hash2. rewrite !SignatureHash_message by done.
  rewrite !signed_message_spec by done. fold covered1 covered2. cbn [fmap option_fmap option_map].
  set (m1 := ser_signed covered1 ++ _). set (m2 := ser_signed covered2 ++ _).
  assert (m1 = m2 <-> t1 = t2 /\ covered1 = covered2) as Hm.
  { split; [|unfold m1, m2; by intros [-> ->]]. intros E. apply app_inj_2 in E as [E Et]; [|by rewrite !length_le_bytes].
    apply (f_equal (.++ [])) in Et. apply le_inj in Et as [-> _]; [|change (256 ^ Z.of_nat 4) with (2 ^ 32); lia..].
    split; [done|]. apply (f_equal (.++ [])) in E.
    apply (ser_signed_inj G1_FromByteVector) in E; try done; by apply signed_code_short. }
  exists m1, m2. split_and!; try done. rewrite <- Hm. split; [intros E%(inj Some); by apply hash_equal|].
  intros [->|[_ ->]]; done.
Qed.

(** A signature in a witness covers what its hash type says, through the
    hashes of its parts: equal hashes mean the same version, lock time, script,
    amount, outpoint and sequence number of the signed input, and the same
    outpoints, sequence numbers and outputs as far as the type includes them,
    unless the signed messages or the hashed parts of the two transactions are a
    collision of the double SHA-256.  The hashes that are computed once
    for all inputs do not change the result. *)
Theorem witness_signature_covers G1_FromByteVector script1 tx1 nIn1 amount1 cache1 script2 tx2 nIn2 amount2 cache2 t :
  wire_tx_ok G1_FromByteVector tx1 -> wire_tx_ok G1_FromByteVector tx2 -> short script1 -> short script2 ->
  signable tx1 nIn1 t -> signable tx2 nIn2 t -> cache_ok tx1 cache1 -> cache_ok tx2 cache2 ->
  - 2 ^ 63 <= amount1 < 2 ^ 63 -> - 2 ^ 63 <= amount2 < 2 ^ 63 ->
  SignatureHash script1 tx1 nIn1 t amount1 SIGVERSION_WITNESS_V0 cache1
  = SignatureHash script2 tx2 nIn2 t amount2 SIGVERSION_WITNESS_V0 cache2 ->
  witness_same script1 tx1 nIn1 amount1 script2 tx2 nIn2 amount2 t \/ parts_collide tx1 nIn1 tx2 nIn2 \/
  exists m1 m2, witness_preimage script1 tx1 nIn1 t amount1 cache1 = Some m1 /\
    witness_preimage script2 tx2 nIn2 t amount2 cache2 = Some m2 /\ collide m1 m2.
Proof.
  intros H1 H2 S1 S2 O1 O2 C1 C2 A1 A2. unfold SignatureHash.
  assert (forall script tx nIn amount cache, signable tx nIn t -> is_Some (witness_preimage script tx nIn t amount cache)) as Hsome.
  { intros script tx nIn amount cache [Hi _]. unfold witness_preimage. by destruct (lookup_lt_is_Some_2 _ _ Hi) as [i ->]. }
  destruct (Hsome script1 tx1 nIn1 amount1 cache1 O1) as [l1 E1], (Hsome script2 tx2 nIn2 amount2 cache2 O2) as [l2 E2].
  rewrite E1, E2. intros [->|Hc]%(inj Some)%hash_equal; [|right; right; by exists l1, l2].
  destruct (witness_covers G1_FromByteVector script1 tx1 nIn1 amount1 cache1 script2 tx2 nIn2 amount2 cache2 t l2) as [|]; auto.
Qed.

(** The witness format does not sign the time of the transaction or its text. *)
Lemma witness_time_unsigned script tx nIn t amount nTime text :
  SignatureHash script (mkWireTx (w_nVersion tx) nTime (w_vin tx) (w_vout tx) (w_wit tx) (w_nLockTime tx) text
    (w_vchTxSig tx) (w_vchBalanceSig tx)) nIn t amount SIGVERSION_WITNESS_V0 None
  = SignatureHash script tx nIn t amount SIGVERSION_WITNESS_V0 None.
Proof.
  unfold SignatureHash, witness_preimage, GetPrevoutHash, GetSequenceHash, GetOutputsHash.
  cbn [w_nVersion w_vin w_vout w_nLockTime]. done.
Qed.

Lemma map_imap {A B C} (f : B -> C) (g : nat -> A -> B) (h : A -> C) l :
  (forall n x, f (g n x) = h x) -> map f (imap g l) = map h l.
Proof.
  revert g; induction l as [|x l IH]; intros g H; [done|]. cbn [map]. rewrite imap_cons. cbn [map]. rewrite H. f_equal.
  apply IH. intros n y. apply H.
Qed.

(** With [SIGHASH_ALL] nothing but the scripts of the inputs is left open. *)
Lemma signed_all tx1 tx2 code1 code2 nIn1 nIn2 :
  signed_tx tx1 code1 nIn1 SIGHASH_ALL = signed_tx tx2 code2 nIn2 SIGHASH_ALL ->
  w_nVersion tx1 = w_nVersion tx2 /\ w_nTime tx1 = w_nTime tx2 /\ w_nLockTime tx1 = w_nLockTime tx2 /\ w_strDZeel tx1 = w_strDZeel tx2 /\
  map in_prevout (w_vin tx1) = map in_prevout (w_vin tx2) /\ map in_nSequence (w_vin tx1) = map in_nSequence (w_vin tx2) /\
  map wire_form (w_vout tx1) = map wire_form (w_vout tx2).
Proof.
  intros E. injection E as Ev Et Ei Eo El Ed _ _.
  change (imap (signed_input code1 nIn1 SIGHASH_ALL) (w_vin tx1) = imap (signed_input code2 nIn2 SIGHASH_ALL) (w_vin tx2)) in Ei.
  assert (forall {C} (f : CTxIn -> C), (forall code n k i, f (signed_input code n SIGHASH_ALL k i) = f i) ->
    map f (w_vin tx1) = map f (w_vin tx2)) as Hf.
  { intros C f Hf. apply (f_equal (map f)) in Ei. by rewrite !(map_imap f _ f) in Ei by (intros; apply Hf). }
  split_and!; try done; apply Hf; intros code n k i; unfold signed_input; by destruct (_ =? _)%nat.
Qed.

(** The transaction of the example with another time and another script in the
    input that is not signed. *)
Definition demo_late : WireTx :=
  mkWireTx 0x32 1700000000 (w_vin demo_wire) (w_vout demo_wire) [[[8; 8]; []]] 100 [66] [1] [2; 3].
Definition demo_unsigned : WireTx :=
  mkWireTx 0x32 1600000000 [mkCTxIn (mkCOutPoint 5 1) [7; 7; 7] 7; mkCTxIn (mkCOutPoint 6 0) [] SEQUENCE_FINAL]
    (w_vout demo_wire) [] 100 [66] [1] [2; 3].

Lemma demo_late_ok : wire_tx_ok demo_G1 demo_late.
Proof. destruct demo_wire_ok. by split. Qed.

Lemma demo_unsigned_ok : wire_tx_ok demo_G1 demo_unsigned.
Proof.
  destruct demo_wire_ok as [? ? [_ Hin] ? ? ? ?]. split; try done.
  split; [by vm_compute|]. cbn [demo_wire demo_unsigned w_vin] in *. rewrite !Forall_cons in *. destruct Hin as ([? ? ?] & ? & ?).
  split; [|done]. by split.
Qed.

(** The script of an input can change without a change of the hash; the time
    cannot without a change of the message. *)
Lemma signature_covers_witness :
  let script := [OP_1; OP_CODESEPARATOR; OP_1] in
  signed_code script = [OP_1; OP_1] /\
  signed_tx demo_wire (signed_code script) 0 SIGHASH_ALL = signed_tx demo_unsigned (signed_code script) 0 SIGHASH_ALL /\
  SignatureHash script demo_wire 0 SIGHASH_ALL 5 SIGVERSION_BASE None
  = SignatureHash script demo_unsigned 0 SIGHASH_ALL 6 SIGVERSION_BASE None /\
  signed_message demo_wire script 0 SIGHASH_ALL <> signed_message demo_late script 0 SIGHASH_ALL.
Proof.
  intros script. assert (script_ok script) as Hs by (split; [vm_compute; reflexivity|vm_compute; discriminate]).
  split; [vm_compute; reflexivity|]. split; [reflexivity|]. split.
  - destruct (signature_covers demo_G1 script demo_wire 0 SIGHASH_ALL 5 None script demo_unsigned 0 SIGHASH_ALL 6 None
      demo_wire_ok demo_unsigned_ok Hs Hs) as (m1 & m2 & _ & _ & _ & _ & _ & Hh);
      try (split; [cbn; lia|discriminate]); try (unfold SIGHASH_ALL; lia).
    apply Hh. left. split; reflexivity.
  - destruct (signature_covers demo_G1 script demo_wire 0 SIGHASH_ALL 5 None script demo_late 0 SIGHASH_ALL 5 None
      demo_wire_ok demo_late_ok Hs Hs) as (m1 & m2 & E1 & E2 & _ & _ & Hm & _);
      try (split; [cbn; lia|discriminate]); try (unfold SIGHASH_ALL; lia).
    rewrite E1, E2. intros E. injection E as E. apply Hm in E as [_ E]. discriminate E.
Defined.

(** Two transactions that differ in their times. *)
Lemma witness_signature_covers_witness :
  w_nTime demo_wire <> w_nTime demo_late /\
  (witness_same [OP_1] demo_wire 0 5 [OP_1] demo_late 0 5 SIGHASH_ALL \/ parts_collide demo_wire 0 demo_late 0 \/
   exists m1 m2, witness_preimage [OP_1] demo_wire 0 SIGHASH_ALL 5 None = Some m1 /\
     witness_preimage [OP_1] demo_late 0 SIGHASH_ALL 5 None = Some m2 /\ collide m1 m2).
Proof.
  split; [discriminate|].
  apply (witness_signature_covers demo_G1 [OP_1] demo_wire 0 5 None [OP_1] demo_late 0 5 None SIGHASH_ALL demo_wire_ok demo_late_ok).
  - vm_compute. discriminate.
  - vm_compute. discriminate.
  - split; [cbn; lia|discriminate].
  - split; [cbn; lia|discriminate].
  - by left.
  - by left.
  - lia.
  - lia.
  - symmetry. exact (witness_time_unsigned [OP_1] demo_wire 0 SIGHASH_ALL 5 1700000000 [66]).
Defined.
