(* ===== verification/TxChecker.v ===== *)
(** * Checking scripts against a transaction ([script/interpreter.cpp])

    [TransactionSignatureChecker]: the signatures, the absolute and the relative
    lock times of an input.  The verification of a signature for a key and a
    hash is code of the library of the curve and a parameter.  The theorems
    compose the script interpreter with the rules on blocks: an output locked
    by a script is not spent before its time. *)
From S2P Require Import Prelude Bytes Chain VoteScript Transaction Serialize Coins TxCheck Script Interpreter InterpreterProps Standard ScriptSpend TxWire SigHash.

(** ** The code *)

Definition TXDZEEL_VERSION_V2 : Z := 3.

(** The part of a transaction that the checks of blocks read. *)
Definition checked_tx (tx : WireTx) (hash : uint256) : CheckedTx :=
  mkCheckedTx hash (w_nVersion tx) (w_nTime tx) (w_vin tx) (w_vout tx) (w_nLockTime tx) (w_vchTxSig tx) (w_vchBalanceSig tx).

Section checker.
Context (Verify : list Z -> uint256 -> list Z -> bool).
Context (tx : WireTx) (nIn : nat) (amount : Z) (txdata : option PrecomputedTransactionData).

(** The input exists: the code indexes [vin] with [nIn] without a test, and
    [false] stands for what it does otherwise. *)
Definition checker_CheckSig (vchSigIn vchPubKey : valtype) (scriptCode : CScript) (sigversion : SigVersion) : bool :=
  if negb (pubkey_valid vchPubKey) then false
  else match last vchSigIn with
  | None => false
  | Some nHashType =>
    let vchSig := take (length vchSigIn - 1) vchSigIn in
    match SignatureHash scriptCode tx nIn nHashType amount sigversion txdata with
    | Some sighash => Verify vchPubKey sighash vchSig
    | None => false
    end
  end.

Definition checker_CheckLockTime (nLockTime : Z) : bool :=
  if negb (((w_nLockTime tx <? LOCKTIME_THRESHOLD) && (nLockTime <? LOCKTIME_THRESHOLD)) ||
           ((LOCKTIME_THRESHOLD <=? w_nLockTime tx) && (LOCKTIME_THRESHOLD <=? nLockTime))) then false
  else if w_nLockTime tx <? nLockTime then false
  else match w_vin tx !! nIn with Some i => negb (SEQUENCE_FINAL =? in_nSequence i) | None => false end.

Definition checker_CheckSequence (nSequence : Z) : bool :=
  match w_vin tx !! nIn with
  | None => false
  | Some i =>
    let txToSequence := in_nSequence i in
    if u32 (w_nVersion tx) <? 2 then false
    else if flag_set txToSequence SEQUENCE_LOCKTIME_DISABLE_FLAG then false
    else
      let nLockTimeMask := Z.lor SEQUENCE_LOCKTIME_TYPE_FLAG SEQUENCE_LOCKTIME_MASK in
      let txToSequenceMasked := Z.land txToSequence nLockTimeMask in
      let nSequenceMasked := Z.land nSequence nLockTimeMask in
      if negb (((txToSequenceMasked <? SEQUENCE_LOCKTIME_TYPE_FLAG) && (nSequenceMasked <? SEQUENCE_LOCKTIME_TYPE_FLAG)) ||
               ((SEQUENCE_LOCKTIME_TYPE_FLAG <=? txToSequenceMasked) && (SEQUENCE_LOCKTIME_TYPE_FLAG <=? nSequenceMasked))) then false
      else negb (txToSequenceMasked <? nSequenceMasked)
  end.

Definition checker_coinstake : bool := (TXDZEEL_VERSION_V2 <=? w_nVersion tx) && ct_IsCoinStake (coin_tx (checked_tx tx 0)).

Definition TransactionSignatureChecker : BaseSignatureChecker :=
  mkChecker checker_CheckSig checker_CheckLockTime checker_CheckSequence checker_coinstake.

(** ** What an accepted lock means *)

Lemma CheckLockTime_final nLockTime hash height time :
  checker_CheckLockTime nLockTime = true -> 0 < nLockTime -> tx_IsBLSCT (checked_tx tx hash) = false ->
  IsFinalTx (checked_tx tx hash) height time = true ->
  nLockTime < (if nLockTime <? LOCKTIME_THRESHOLD then height else time).
Proof.
  unfold checker_CheckLockTime, IsFinalTx. cbn [checked_tx ck_nLockTime ck_vin]. intros Hc Hpos Hb Hf. rewrite Hb in Hf.
  destruct (_ || _) eqn:Ek in Hc; cbn [negb] in Hc; [|done]. destruct (w_nLockTime tx <? nLockTime) eqn:El in Hc; [done|].
  apply Z.ltb_ge in El. destruct (w_vin tx !! nIn) as [i|] eqn:Ei; [|done]. apply negb_true_iff, Z.eqb_neq in Hc.
  rewrite (proj2 (Z.eqb_neq (w_nLockTime tx) 0)) in Hf by lia.
  assert ((nLockTime <? LOCKTIME_THRESHOLD) = (w_nLockTime tx <? LOCKTIME_THRESHOLD)) as ->.
  { apply orb_true_iff in Ek as [Ek|Ek]; apply andb_true_iff in Ek as [E1 E2]; [by rewrite E1, E2|].
    apply Z.leb_le in E1, E2. by rewrite !(proj2 (Z.ltb_ge _ _)). }
  destruct (w_nLockTime tx <? (if w_nLockTime tx <? LOCKTIME_THRESHOLD then height else time)) eqn:E; [apply Z.ltb_lt in E; lia|].
  rewrite forallb_forall in Hf. specialize (Hf i). rewrite Z.eqb_eq in Hf. exfalso. apply Hc. symmetry. apply Hf.
  apply list_elem_of_In. by eapply list_elem_of_lookup_2.
Qed.

(** The two parts of a masked sequence number. *)
Lemma masked_parts x :
  let m := Z.land x (Z.lor SEQUENCE_LOCKTIME_TYPE_FLAG SEQUENCE_LOCKTIME_MASK) in
  m = (if flag_set x SEQUENCE_LOCKTIME_TYPE_FLAG then SEQUENCE_LOCKTIME_TYPE_FLAG else 0) + Z.land x SEQUENCE_LOCKTIME_MASK /\
  0 <= Z.land x SEQUENCE_LOCKTIME_MASK < 2 ^ 16.
Proof.
  cbv zeta. assert (0 <= Z.land x SEQUENCE_LOCKTIME_MASK < 2 ^ 16) as Hr.
  { change SEQUENCE_LOCKTIME_MASK with (Z.ones 16). rewrite Z.land_ones by lia. apply Z.mod_pos_bound. lia. }
  split; [|done]. rewrite Z.land_lor_distr_r.
  assert (Z.land x SEQUENCE_LOCKTIME_TYPE_FLAG = if flag_set x SEQUENCE_LOCKTIME_TYPE_FLAG then SEQUENCE_LOCKTIME_TYPE_FLAG else 0) as <-.
  { change SEQUENCE_LOCKTIME_TYPE_FLAG with (Z.shiftl 1 22). rewrite flag_testbit by lia. apply Z.bits_inj'. intros n Hn.
    rewrite Z.land_spec, shift_one by lia. destruct (decide (n = 22)) as [->|Hne].
    - rewrite bool_decide_eq_true_2, andb_true_r by done. destruct (Z.testbit x 22); [by rewrite shift_one by lia|by rewrite Z.bits_0].
    - rewrite bool_decide_eq_false_2, andb_false_r by lia.
      destruct (Z.testbit x 22); [rewrite shift_one, bool_decide_eq_false_2 by lia; done|by rewrite Z.bits_0]. }
  rewrite Z.add_nocarry_lxor, Z.lxor_lor; [done| |]; apply Z.bits_inj'; intros n Hn; rewrite Z.bits_0, !Z.land_spec;
    change SEQUENCE_LOCKTIME_TYPE_FLAG with (Z.shiftl 1 22); rewrite shift_one by lia;
    (destruct (decide (n = 22)) as [->|Hne]; [change (Z.testbit SEQUENCE_LOCKTIME_MASK 22) with false; by rewrite !andb_false_r
      |rewrite bool_decide_eq_false_2 by lia; by rewrite andb_false_r]).
Qed.

Lemma CheckSequence_covers nSequence :
  checker_CheckSequence nSequence = true ->
  exists i, w_vin tx !! nIn = Some i /\ (2 <=? u32 (w_nVersion tx)) = true /\
    flag_set (in_nSequence i) SEQUENCE_LOCKTIME_DISABLE_FLAG = false /\
    flag_set (in_nSequence i) SEQUENCE_LOCKTIME_TYPE_FLAG = flag_set nSequence SEQUENCE_LOCKTIME_TYPE_FLAG /\
    Z.land nSequence SEQUENCE_LOCKTIME_MASK <= Z.land (in_nSequence i) SEQUENCE_LOCKTIME_MASK.
Proof.
  unfold checker_CheckSequence. destruct (w_vin tx !! nIn) as [i|]; [|done]. intros H. exists i. split; [done|].
  destruct (_ <? 2) eqn:Ev in H; [done|]. apply Z.ltb_ge in Ev. split; [by apply Z.leb_le|].
  destruct (flag_set (in_nSequence i) SEQUENCE_LOCKTIME_DISABLE_FLAG); [done|]. split; [done|].
  destruct (masked_parts (in_nSequence i)) as [E1 R1], (masked_parts nSequence) as [E2 R2]. cbv zeta in E1, E2. rewrite E1, E2 in H. clear E1 E2.
  destruct (_ || _) eqn:Ek in H; cbn [negb] in H; [|done]. apply negb_true_iff, Z.ltb_ge in H.
  rewrite orb_true_iff, !andb_true_iff, !Z.ltb_lt, !Z.leb_le in Ek. unfold SEQUENCE_LOCKTIME_TYPE_FLAG in *.
  destruct (flag_set (in_nSequence i) _), (flag_set nSequence _); (split; [|lia]); try done; lia.
Qed.

(** ** Scripts that begin with a lock *)

Context (RIPEMD160 SHA1 SHA256 : list Z -> list Z) (CheckLowS : list Z -> bool) (flags : Z).
Abbreviation runs := (run RIPEMD160 SHA1 SHA256 CheckLowS TransactionSignatureChecker flags SIGVERSION_BASE).

(** A number is pushed and tested; the rest of the script is arbitrary. *)
Definition lock_script (x : valtype) (opcode : Z) (rest : CScript) : CScript := Z.of_nat (length x) :: x ++ opcode :: rest.

Lemma run_push_inv x pc s n c r :
  (length x < 76)%nat -> runs (Z.of_nat (length x) :: x ++ pc) (mkEval s [] [] n c) = Val r ->
  runs pc (mkEval (x :: s) [] [] n c) = Val r.
Proof.
  intros Hl. rewrite (run_step _ _ _ _ _ _ _ _ pc _ x) by (by apply GetOp_push). unfold eval_op. cbv zeta.
  rewrite small_not_disabled by (unfold OP_16; lia). rewrite (proj2 (Z.ltb_ge OP_16 _)) by (unfold OP_16; lia). cbn [andb].
  destruct (_ <? _); [done|]. unfold executing. cbn [es_vfExec forallb andb].
  rewrite (proj2 (Z.leb_le 0 _)), (proj2 (Z.leb_le _ OP_PUSHDATA4)) by (unfold OP_PUSHDATA4; lia). cbn [andb].
  destruct (_ && _); cbn [ev_bind]; [done|]. unfold size_limit. destruct (_ <? _)%nat; [done|]. done.
Qed.

Lemma run_opcode_inv opcode pc s n c r :
  OP_16 < opcode -> disabled opcode = false -> n < MAX_OPS_PER_SCRIPT ->
  runs (opcode :: pc) (mkEval s [] [] n c) = Val r ->
  exists st, switch RIPEMD160 SHA1 SHA256 CheckLowS TransactionSignatureChecker flags SIGVERSION_BASE opcode opcode pc true
    (mkEval s [] [] (n + 1) c) = Val st.
Proof.
  intros H1 H2 H3. rewrite run_plain by done. unfold dispatched. cbn [forallb orb]. intros (st & E & _)%ev_bind_Val. eauto.
Qed.

(** The lock of an accepted script was tested. *)
Lemma accepted_lock x opcode rest scriptSig witness :
  (length x < 76)%nat -> OP_16 < opcode -> disabled opcode = false ->
  VerifyScript RIPEMD160 SHA1 SHA256 CheckLowS TransactionSignatureChecker flags scriptSig (lock_script x opcode rest) witness = Val tt ->
  exists s c st, switch RIPEMD160 SHA1 SHA256 CheckLowS TransactionSignatureChecker flags SIGVERSION_BASE opcode opcode rest true
    (mkEval (x :: s) [] [] 1 c) = Val st.
Proof.
  intros Hx H1 H2. unfold VerifyScript. destruct (_ && _); [done|].
  intros (stack & _ & (s2 & E & _)%ev_bind_Val)%ev_bind_Val. unfold EvalScript in E. destruct (_ <? _) in E; [done|].
  apply ev_bind_Val in E as (st & E & _).
  assert (runs (lock_script x opcode rest) (mkEval stack [] [] 0 (lock_script x opcode rest)) = Val st) as Hr.
  { unfold run. revert E. destruct (eval_loop _ _ _ _ _ _ _ _ _ _) as [a| | |]; cbn [catch_all]; congruence. }
  apply run_push_inv in Hr; [|done]. apply run_opcode_inv in Hr as [st' Hr]; [|done|done|done]. eauto.
Qed.

Lemma sw_CLTV : switch RIPEMD160 SHA1 SHA256 CheckLowS TransactionSignatureChecker flags SIGVERSION_BASE OP_CHECKLOCKTIMEVERIFY
  = op_checklocktimeverify TransactionSignatureChecker flags.
Proof. done. Qed.
Lemma sw_CSV : switch RIPEMD160 SHA1 SHA256 CheckLowS TransactionSignatureChecker flags SIGVERSION_BASE OP_CHECKSEQUENCEVERIFY
  = op_checksequenceverify TransactionSignatureChecker flags.
Proof. done. Qed.

Lemma ScriptNum_value x n : ScriptNum flags x 5 = Val n -> n = CScriptNum_set_vch x.
Proof. unfold ScriptNum, CScriptNum_of_vch. repeat case_match; try done; congruence. Qed.

Lemma cltv_tested x rest scriptSig witness :
  has flags SCRIPT_VERIFY_CHECKLOCKTIMEVERIFY = true -> (length x < 76)%nat ->
  VerifyScript RIPEMD160 SHA1 SHA256 CheckLowS TransactionSignatureChecker flags scriptSig
    (lock_script x OP_CHECKLOCKTIMEVERIFY rest) witness = Val tt ->
  checker_CheckLockTime (CScriptNum_set_vch x) = true.
Proof.
  intros Hf Hx Hv. apply accepted_lock in Hv as (s & c & st & Hv); [|done..]. rewrite sw_CLTV in Hv.
  unfold op_checklocktimeverify in Hv. rewrite Hf in Hv. cbn [negb es_stack] in Hv. apply ev_bind_Val in Hv as (n & En & Hv).
  apply ScriptNum_value in En as ->. destruct (_ <? 0) in Hv; [done|]. cbn [TransactionSignatureChecker CheckLockTime] in Hv.
  by destruct (checker_CheckLockTime _).
Qed.

Lemma csv_tested x rest scriptSig witness :
  has flags SCRIPT_VERIFY_CHECKSEQUENCEVERIFY = true -> (length x < 76)%nat ->
  flag_set (CScriptNum_set_vch x) SEQUENCE_LOCKTIME_DISABLE_FLAG = false ->
  VerifyScript RIPEMD160 SHA1 SHA256 CheckLowS TransactionSignatureChecker flags scriptSig
    (lock_script x OP_CHECKSEQUENCEVERIFY rest) witness = Val tt ->
  checker_CheckSequence (CScriptNum_set_vch x) = true.
Proof.
  intros Hf Hx Hd Hv. apply accepted_lock in Hv as (s & c & st & Hv); [|done..]. rewrite sw_CSV in Hv.
  unfold op_checksequenceverify in Hv. rewrite Hf in Hv. cbn [negb es_stack] in Hv. apply ev_bind_Val in Hv as (n & En & Hv).
  apply ScriptNum_value in En as ->. destruct (_ <? 0) in Hv; [done|]. rewrite Hd in Hv. cbn [TransactionSignatureChecker CheckSequence] in Hv.
  by destruct (checker_CheckSequence _).
Qed.

End checker.

(** C15: An output whose script begins with a lock is not spent before its time,
    by any script, witness or signature: once the rule is enforced, an accepted
    input of a final transaction that is not private has passed the height or
    the time that [OP_CHECKLOCKTIMEVERIFY] asks for, and an accepted input of a
    transaction whose relative locks are over has the age, in blocks or in
    units of 512 seconds of median time, that [OP_CHECKSEQUENCEVERIFY] asks
    for. *)
Theorem timelocks_enforced Verify tx nIn amount txdata RIPEMD160 SHA1 SHA256 CheckLowS flags x rest scriptSig witness hash :
  (length x < 76)%nat ->
  let accepted opcode := VerifyScript RIPEMD160 SHA1 SHA256 CheckLowS (TransactionSignatureChecker Verify tx nIn amount txdata)
    flags scriptSig (lock_script x opcode rest) witness = Val tt in
  let n := CScriptNum_set_vch x in
  (forall height time,
     has flags SCRIPT_VERIFY_CHECKLOCKTIMEVERIFY = true -> accepted OP_CHECKLOCKTIMEVERIFY ->
     tx_IsBLSCT (checked_tx tx hash) = false -> IsFinalTx (checked_tx tx hash) height time = true -> 0 < n ->
     n < (if n <? LOCKTIME_THRESHOLD then height else time)) /\
  (forall blocks block b q time lockflags heights coin,
     has flags SCRIPT_VERIFY_CHECKSEQUENCEVERIFY = true -> accepted OP_CHECKSEQUENCEVERIFY ->
     flag_set n SEQUENCE_LOCKTIME_DISABLE_FLAG = false ->
     blocks !! block = Some b -> pprev b = Some q -> GetMedianTimePast blocks q = Some time -> 0 <= nHeight b -> 0 <= time ->
     flag_set lockflags LOCKTIME_VERIFY_SEQUENCE = true ->
     SequenceLocks blocks block (checked_tx tx hash) lockflags heights = Some true -> heights !! nIn = Some coin ->
     if flag_set n SEQUENCE_LOCKTIME_TYPE_FLAG
     then exists q' t, GetAncestor blocks block (Z.max (coin - 1) 0) = Some (Some q') /\ GetMedianTimePast blocks q' = Some t /\
            t + 512 * Z.land n SEQUENCE_LOCKTIME_MASK <= time
     else coin + Z.land n SEQUENCE_LOCKTIME_MASK <= nHeight b).
Proof.
  intros Hx accepted n. split.
  - intros height time Hf Ha Hb Hfinal Hpos. apply cltv_tested in Ha; [|done..]. exact (CheckLockTime_final _ _ _ _ _ _ Ha Hpos Hb Hfinal).
  - intros blocks block b q time lockflags heights coin Hf Ha Hd H1 H2 H3 H4 H5 Hl Hs Hc. apply csv_tested in Ha; [|done..].
    apply CheckSequence_covers in Ha as (i & Hi & Hv & Hdis & Ht & Hle). fold n in Ht, Hle.
    pose proof (SequenceLocks_correct blocks block (checked_tx tx hash) lockflags heights b q time true H1 H2 H3 H4 H5 Hs) as [Hover _].
    assert ((2 <=? u32 (ck_nVersion (checked_tx tx hash))) && flag_set lockflags LOCKTIME_VERIFY_SEQUENCE = true) as Hen
      by (cbn [checked_tx ck_nVersion]; by rewrite Hv, Hl).
    specialize (Hover eq_refl Hen). rewrite Forall_forall in Hover. specialize (Hover (i, coin)). cbn [fst snd checked_tx ck_vin] in Hover.
    destruct Hover as [Hover|Hover]; [|congruence|].
    { apply list_elem_of_lookup. exists nIn. change (zip (w_vin tx) heights !! nIn = Some (i, coin)). by rewrite lookup_zip_with, Hi, Hc. }
    rewrite Ht in Hover. destruct (flag_set n SEQUENCE_LOCKTIME_TYPE_FLAG); [|lia].
    destruct Hover as (q' & t & Hq & Hm & Ho). exists q', t. split; [done|]. split; [done|]. lia.
Qed.

(** An input of an existing position is always checked against a hash. *)
Lemma SignatureHash_total script tx nIn t amount sigversion cache :
  (nIn < length (w_vin tx))%nat -> is_Some (SignatureHash script tx nIn t amount sigversion cache).
Proof.
  intros Hi. unfold SignatureHash. destruct sigversion.
  - rewrite (proj2 (Nat.leb_gt _ _) Hi). destruct (fHashSingle t && _) eqn:E; [by eexists|]. unfold SignatureSerialize.
    assert (is_Some (mapM (SerializeInput tx script nIn t) (seq 0 (if fAnyoneCanPay t then 1%nat else length (w_vin tx))))) as [ins ->].
    { apply mapM_is_Some. apply Forall_forall. intros k Hk%elem_of_seq. unfold compose, SerializeInput.
      destruct (fAnyoneCanPay t); [destruct (lookup_lt_is_Some_2 _ _ Hi) as [i ->]; by eexists|].
      destruct (lookup_lt_is_Some_2 (w_vin tx) k) as [i ->]; [lia|by eexists]. }
    cbn [mbind option_bind].
    assert (is_Some (mapM (SerializeOutput tx nIn t) (seq 0 (if fHashNone t then 0%nat else if fHashSingle t then S nIn else length (w_vout tx)))))
      as [outs ->]; [|by eexists].
    apply mapM_is_Some. apply Forall_forall. intros k Hk%elem_of_seq. unfold compose, SerializeOutput.
    destruct (fHashNone t); [lia|]. destruct (fHashSingle t); cbn [andb] in *.
    + apply Nat.leb_gt in E. destruct (k =? nIn)%nat eqn:Ek; cbn [negb]; [|by eexists]. apply Nat.eqb_eq in Ek as ->.
      destruct (lookup_lt_is_Some_2 _ _ E) as [o ->]. by eexists.
    + destruct (lookup_lt_is_Some_2 (w_vout tx) k) as [o ->]; [lia|by eexists].
  - unfold witness_preimage. destruct (lookup_lt_is_Some_2 _ _ Hi) as [i ->]. by eexists.
Qed.

(** An output of a key address is spent by a signature of the transaction: it
    verifies for the key and the hash of what its last byte says it covers. *)
Lemma spend_is_signed Verify tx nIn amount txdata RIPEMD160 SHA1 SHA256 CheckLowS flags script key sig pub :
  let checker := TransactionSignatureChecker Verify tx nIn amount txdata in
  flags_consistent flags -> locked_by checker script key -> plain_data sig -> plain_data pub -> (nIn < length (w_vin tx))%nat ->
  VerifyScript RIPEMD160 SHA1 SHA256 CheckLowS checker flags (sig_script sig pub) script [] = Val tt ->
  Interpreter.Hash160 RIPEMD160 SHA256 pub = key /\ pubkey_valid pub = true /\
  exists sig' t hash, sig = sig' ++ [t] /\
    SignatureHash (fst (FindAndDelete script (push_data [] sig))) tx nIn t amount SIGVERSION_BASE txdata = Some hash /\
    Verify pub hash sig' = true.
Proof.
  intros checker Hf Hl H1 H2 Hi Hv. apply (key_spend _ _ _ _ _ _ _ _ _ _ Hf Hl H1 H2) in Hv as (Hk & _ & _ & Hc).
  split; [done|]. cbn [checker TransactionSignatureChecker CheckSig] in Hc. unfold checker_CheckSig in Hc.
  destruct (pubkey_valid pub); [|done]. split; [done|]. destruct sig as [|t sig' _] using rev_ind; [done|].
  cbn [negb] in Hc. rewrite last_snoc in Hc.
  assert (take (length (sig' ++ [t]) - 1) (sig' ++ [t]) = sig') as Et by (rewrite length_app, Nat.add_sub; apply take_app_length).
  rewrite Et in Hc. exists sig', t.
  destruct (SignatureHash_total (fst (FindAndDelete script (push_data [] (sig' ++ [t])))) tx nIn t amount SIGVERSION_BASE txdata Hi) as [hash Eh].
  rewrite Eh in Hc. eauto.
Qed.

(** A coin locked until height 6, and one for a block. *)
Definition demo_locked : WireTx := mkWireTx 2 0 [mkCTxIn (mkCOutPoint 11 0) [] 1] [] [] 5 [] [] [].

Lemma timelocks_enforced_witness :
  let checker := TransactionSignatureChecker (fun _ _ _ => false) demo_locked 0 100 None in
  let flags := Z.lor SCRIPT_VERIFY_CHECKLOCKTIMEVERIFY SCRIPT_VERIFY_CHECKSEQUENCEVERIFY in
  let verify opcode x := VerifyScript id id id (fun _ => true) checker flags [] (lock_script x opcode [OP_DROP; OP_1]) [] in
  verify OP_CHECKLOCKTIMEVERIFY [5] = Val tt /\ IsFinalTx (checked_tx demo_locked 51) 6 0 = true /\ 5 < 6 /\
  verify OP_CHECKSEQUENCEVERIFY [1] = Val tt /\ SequenceLocks demo_blocks 104 (checked_tx demo_locked 51) 1 [3] = Some true /\ 3 + 1 <= 4.
Proof.
  intros checker flags verify.
  assert (verify OP_CHECKLOCKTIMEVERIFY [5] = Val tt) as E1 by (vm_compute; reflexivity).
  assert (verify OP_CHECKSEQUENCEVERIFY [1] = Val tt) as E2 by (vm_compute; reflexivity).
  assert (SequenceLocks demo_blocks 104 (checked_tx demo_locked 51) 1 [3] = Some true) as E3 by (vm_compute; reflexivity).
  split; [exact E1|]. split; [reflexivity|]. split.
  - apply (proj1 (timelocks_enforced (fun _ _ _ => false) demo_locked 0 100 None id id id (fun _ => true) flags [5] [OP_DROP; OP_1] [] [] 51 ltac:(cbn; lia)) 6 0 ltac:(reflexivity) E1 ltac:(reflexivity)
      ltac:(reflexivity) ltac:(vm_compute; reflexivity)).
  - split; [exact E2|]. split; [exact E3|].
    apply (proj2 (timelocks_enforced (fun _ _ _ => false) demo_locked 0 100 None id id id (fun _ => true) flags [1] [OP_DROP; OP_1] [] [] 51 ltac:(cbn; lia)) demo_blocks 104 (demo_block (Some 103) (Some 100) 4 1120)
      103 1060 1 [3] 3 ltac:(reflexivity) E2); [reflexivity|reflexivity|reflexivity|vm_compute; reflexivity|cbn; lia|lia|reflexivity|exact E3|reflexivity].
Defined.

(** A private transaction is final at any height, and passes the lock of a
    coin that is locked until height 1000 in block 10. *)
Definition private_locked : WireTx := mkWireTx TX_BLS_CT_FLAG 0 [mkCTxIn (mkCOutPoint 11 0) [] 1] [] [] 1000 [] [] [].

Example private_ignores_lock :
  VerifyScript id id id (fun _ => true) (TransactionSignatureChecker (fun _ _ _ => false) private_locked 0 100 None)
    SCRIPT_VERIFY_CHECKLOCKTIMEVERIFY [] (lock_script [0xe7; 0x03] OP_CHECKLOCKTIMEVERIFY [OP_DROP; OP_1]) [] = Val tt /\
  CScriptNum_set_vch [0xe7; 0x03] = 999 /\ IsFinalTx (checked_tx private_locked 51) 10 0 = true.
Proof. vm_compute. done. Qed.
