(* ===== verification/Mempool.v ===== *)
(** * The transaction pool ([txmempool.h], [txmempool.cpp])

    The transactions a node keeps for the next blocks.  An entry knows how
    many transactions of the pool depend on it and on how many it depends, with
    their sizes and fees; the pool keeps the links between parents and
    children and the inputs that are spent.  This file holds the data and the
    operations; [MempoolGraph] and [MempoolProps] their theorems.

    An iterator into [mapTx] is the hash of its transaction, and a pointer to a
    transaction of the pool is its hash too.  [setEntries] is ordered by hash,
    so a loop over it visits the hashes in increasing order.  The fee
    estimator, to which the pool only reports, is left out. *)
From Stdlib Require Import SpecFloat.
From S2P Require Import Prelude Bytes Float DaoTypes VoteScript Transaction Script TxCheck.

(** ** Fee rates ([amount.h], [amount.cpp]) *)

(** [CFeeRate] is [nSatoshisPerK].  [None] is the failed assertion. *)
Definition CFeeRate_new (nFeePaid nBytes : Z) : option Z :=
  check (nBytes <=? 2 ^ 63 - 1);
  Some (if 0 <? nBytes then Z.quot (nFeePaid * 1000) nBytes else 0).

Definition GetFee (nSatoshisPerK nBytes : Z) : option Z :=
  check (nBytes <=? 2 ^ 63 - 1);
  let nFee := Z.quot (nSatoshisPerK * nBytes) 1000 in
  Some (if (nFee =? 0) && negb (nBytes =? 0) then
          (if nSatoshisPerK <? 0 then -1 else if 0 <? nSatoshisPerK then 1 else nFee)
        else nFee).

Definition GetFeePerK (nSatoshisPerK : Z) : option Z := GetFee nSatoshisPerK 10000.

(** ** Memory ([memusage.h]), for pointers of eight bytes *)

Definition MallocUsage (alloc : Z) : Z := if alloc =? 0 then 0 else Z.shiftl (Z.shiftr (alloc + 31) 4) 4.

(** [sizeof(stl_tree_node<X>)]: the colour with its padding, three pointers and the value. *)
Definition sizeof_tree_node (sizeof_X : Z) : Z := 32 + sizeof_X.

(** [IncrementalDynamicUsage] of a [setEntries], whose values are pointers. *)
Definition IncrementalDynamicUsage : Z := MallocUsage (sizeof_tree_node 8).

(** [DynamicUsage] of a [setEntries] *)
Definition DynamicUsage (s : gset uint256) : Z := IncrementalDynamicUsage * Z.of_nat (size s).

(** ** Entries *)

Definition WITNESS_SCALE_FACTOR : Z := 4.
Definition nBytesPerSigOp : Z := 20.

Definition GetVirtualTransactionSize (nWeight nSigOpCost : Z) : Z :=
  Z.quot (Z.max nWeight (nSigOpCost * nBytesPerSigOp) + WITNESS_SCALE_FACTOR - 1) WITNESS_SCALE_FACTOR.

(** The lock points, which only a reorganisation reads, are left out. *)
Record CTxMemPoolEntry := mkEntry {
  e_tx : CoinTx;
  nFee : Z;
  nTxWeight : Z;
  nModSize : Z;
  nUsageSize : Z;
  e_nTime : Z;
  entryPriority : spec_float;
  entryHeight : Z;
  hadNoDependencies : bool;
  inChainInputValue : Z;
  spendsCoinbase : bool;
  sigOpCost : Z;
  feeDelta : Z;
  nCountWithDescendants : Z;
  nSizeWithDescendants : Z;
  nModFeesWithDescendants : Z;
  nCountWithAncestors : Z;
  nSizeWithAncestors : Z;
  nModFeesWithAncestors : Z;
  nSigOpCostWithAncestors : Z;
  vTxHashesIdx : nat
}.

Definition coin_IsBLSInput (tx : CoinTx) : bool := flag_set (ct_nVersion tx) TX_BLS_INPUT_FLAG.
Definition coin_IsBLSCT (tx : CoinTx) : bool := flag_set (ct_nVersion tx) TX_BLS_CT_FLAG || coin_IsBLSInput tx.

Definition GetTxSize (e : CTxMemPoolEntry) : Z := GetVirtualTransactionSize (nTxWeight e) (sigOpCost e).
Definition GetModifiedFee (e : CTxMemPoolEntry) : Z := nFee e + feeDelta e.

(** The constructor; the weight, the modified size and the memory of the
    transaction, which depend on its serialization, are given.  [None] is the
    exception of [GetValueOut] or the failed assertion on the input value. *)
Definition CTxMemPoolEntry_new (tx : CoinTx) (weight modsize usage fee time : Z) (priority : spec_float) (height : Z)
    (noInputs : bool) (inChain : Z) (coinbase : bool) (sigops : Z) : option CTxMemPoolEntry :=
  do out <- value_out 0 (ct_vout tx);
  let nValueIn := out + (if coin_IsBLSCT tx then 0 else fee) in
  check (coin_IsBLSCT tx || (inChain <=? nValueIn));
  let size := GetVirtualTransactionSize weight sigops in
  Some (mkEntry tx fee weight modsize usage time priority height noInputs inChain coinbase sigops 0
          1 size fee 1 size fee sigops 0).

Definition UpdateFeeDelta (newFeeDelta : Z) (e : CTxMemPoolEntry) : CTxMemPoolEntry :=
    mkEntry (e_tx e) (nFee e) (nTxWeight e) (nModSize e) (nUsageSize e) (e_nTime e) (entryPriority e) (entryHeight e)
    (hadNoDependencies e) (inChainInputValue e) (spendsCoinbase e) (sigOpCost e) newFeeDelta (nCountWithDescendants e)
    (nSizeWithDescendants e) (nModFeesWithDescendants e + (newFeeDelta - feeDelta e)) (nCountWithAncestors e)
    (nSizeWithAncestors e) (nModFeesWithAncestors e + (newFeeDelta - feeDelta e)) (nSigOpCostWithAncestors e)
    (vTxHashesIdx e).

(** Both assertions read the unsigned fields as signed numbers. *)
Definition UpdateDescendantState (modifySize modifyFee modifyCount : Z) (e : CTxMemPoolEntry) : option CTxMemPoolEntry :=
  let size := u64 (nSizeWithDescendants e + modifySize) in
  check (0 <? i64 size);
  let count := u64 (nCountWithDescendants e + modifyCount) in
  check (0 <? i64 count);
  Some (
    mkEntry (e_tx e) (nFee e) (nTxWeight e) (nModSize e) (nUsageSize e) (e_nTime e) (entryPriority e) (entryHeight e)
    (hadNoDependencies e) (inChainInputValue e) (spendsCoinbase e) (sigOpCost e) (feeDelta e) count size
    (nModFeesWithDescendants e + modifyFee) (nCountWithAncestors e) (nSizeWithAncestors e) (nModFeesWithAncestors e)
    (nSigOpCostWithAncestors e) (vTxHashesIdx e)).

(** [modifySigOps] is an [int]. *)
Definition UpdateAncestorState (modifySize modifyFee modifyCount modifySigOps : Z) (e : CTxMemPoolEntry) :
    option CTxMemPoolEntry :=
  let size := u64 (nSizeWithAncestors e + modifySize) in
  check (0 <? i64 size);
  let count := u64 (nCountWithAncestors e + modifyCount) in
  check (0 <? i64 count);
  let sigops := i64 (nSigOpCostWithAncestors e + i32 modifySigOps) in
  check (0 <=? i32 sigops);
  Some (
    mkEntry (e_tx e) (nFee e) (nTxWeight e) (nModSize e) (nUsageSize e) (e_nTime e) (entryPriority e) (entryHeight e)
    (hadNoDependencies e) (inChainInputValue e) (spendsCoinbase e) (sigOpCost e) (feeDelta e) (nCountWithDescendants
    e) (nSizeWithDescendants e) (nModFeesWithDescendants e) count size (nModFeesWithAncestors e + modifyFee) sigops
    (vTxHashesIdx e)).

Definition with_vTxHashesIdx (i : nat) (e : CTxMemPoolEntry) : CTxMemPoolEntry :=
    mkEntry (e_tx e) (nFee e) (nTxWeight e) (nModSize e) (nUsageSize e) (e_nTime e) (entryPriority e) (entryHeight e)
    (hadNoDependencies e) (inChainInputValue e) (spendsCoinbase e) (sigOpCost e) (feeDelta e) (nCountWithDescendants
    e) (nSizeWithDescendants e) (nModFeesWithDescendants e) (nCountWithAncestors e) (nSizeWithAncestors e)
    (nModFeesWithAncestors e) (nSigOpCostWithAncestors e) i.

(** ** The pool *)

Record TxLinks := mkLinks { parents : gset uint256; children : gset uint256 }.

Record NameDataValue := mkNameDataValue { nd_subdomain : string; nd_key : string; nd_value : string }.

Abbreviation NameDataEntry := (Z * NameDataValue)%type.

(** type, address, transaction, index, and whether it is spent *)
Abbreviation CMempoolAddressDeltaKey := (Z * list Z * Z * Z * Z)%type.

Record CMempoolAddressDelta := mkAddressDelta { d_time : Z; d_amount : Z; d_prevhash : uint256; d_prevout : Z }.

Record CSpentIndexValue := mkSpentIndexValue {
  sv_txid : uint256;
  sv_inputIndex : Z;
  sv_blockHeight : Z;
  sv_satoshis : Z;
  sv_addressType : Z;
  sv_addressHash : list Z
}.

(** The key of [mapNextTx] and of the index of spent outputs. *)
Definition out_key (o : COutPoint) : uint256 * Z := (prevout_hash o, prevout_n o).

Record CTxMemPool := mkPool {
  nTransactionsUpdated : Z;
  totalTxSize : Z;
  cachedInnerUsage : Z;
  lastRollingFeeUpdate : Z;
  blockSinceLastRollingFeeBump : bool;
  rollingMinimumFeeRate : spec_float;
  mapTx : gmap uint256 CTxMemPoolEntry;
  mapLinks : gmap uint256 TxLinks;
  mapNextTx : gmap (uint256 * Z) uint256;
  mapDeltas : gmap uint256 (spec_float * Z);
  vTxHashes : list uint256;
  mapNameData : gmap uint256 (list NameDataEntry);
  mapNameDataTx : gmap uint256 (list (uint256 * NameDataEntry));
  mapProposal : gmap uint256 CProposal;
  mapPaymentRequest : gmap uint256 CPaymentRequest;
  mapConsultation : gmap uint256 CConsultation;
  mapAnswer : gmap uint256 CConsultationAnswer;
  mapAddress : gmap CMempoolAddressDeltaKey CMempoolAddressDelta;
  mapAddressInserted : gmap uint256 (list CMempoolAddressDeltaKey);
  mapSpent : gmap (uint256 * Z) CSpentIndexValue;
  mapSpentInserted : gmap uint256 (list (uint256 * Z))
}.

Definition with_nTransactionsUpdated (v : Z) (P : CTxMemPool) : CTxMemPool :=
    mkPool v (totalTxSize P) (cachedInnerUsage P) (lastRollingFeeUpdate P) (blockSinceLastRollingFeeBump P)
    (rollingMinimumFeeRate P) (mapTx P) (mapLinks P) (mapNextTx P) (mapDeltas P) (vTxHashes P) (mapNameData P)
    (mapNameDataTx P) (mapProposal P) (mapPaymentRequest P) (mapConsultation P) (mapAnswer P) (mapAddress P)
    (mapAddressInserted P) (mapSpent P) (mapSpentInserted P).
Definition with_totalTxSize (v : Z) (P : CTxMemPool) : CTxMemPool :=
    mkPool (nTransactionsUpdated P) v (cachedInnerUsage P) (lastRollingFeeUpdate P) (blockSinceLastRollingFeeBump P)
    (rollingMinimumFeeRate P) (mapTx P) (mapLinks P) (mapNextTx P) (mapDeltas P) (vTxHashes P) (mapNameData P)
    (mapNameDataTx P) (mapProposal P) (mapPaymentRequest P) (mapConsultation P) (mapAnswer P) (mapAddress P)
    (mapAddressInserted P) (mapSpent P) (mapSpentInserted P).
Definition with_cachedInnerUsage (v : Z) (P : CTxMemPool) : CTxMemPool :=
    mkPool (nTransactionsUpdated P) (totalTxSize P) v (lastRollingFeeUpdate P) (blockSinceLastRollingFeeBump P)
    (rollingMinimumFeeRate P) (mapTx P) (mapLinks P) (mapNextTx P) (mapDeltas P) (vTxHashes P) (mapNameData P)
    (mapNameDataTx P) (mapProposal P) (mapPaymentRequest P) (mapConsultation P) (mapAnswer P) (mapAddress P)
    (mapAddressInserted P) (mapSpent P) (mapSpentInserted P).
Definition with_lastRollingFeeUpdate (v : Z) (P : CTxMemPool) : CTxMemPool :=
    mkPool (nTransactionsUpdated P) (totalTxSize P) (cachedInnerUsage P) v (blockSinceLastRollingFeeBump P)
    (rollingMinimumFeeRate P) (mapTx P) (mapLinks P) (mapNextTx P) (mapDeltas P) (vTxHashes P) (mapNameData P)
    (mapNameDataTx P) (mapProposal P) (mapPaymentRequest P) (mapConsultation P) (mapAnswer P) (mapAddress P)
    (mapAddressInserted P) (mapSpent P) (mapSpentInserted P).
Definition with_blockSinceLastRollingFeeBump (v : bool) (P : CTxMemPool) : CTxMemPool :=
    mkPool (nTransactionsUpdated P) (totalTxSize P) (cachedInnerUsage P) (lastRollingFeeUpdate P) v
    (rollingMinimumFeeRate P) (mapTx P) (mapLinks P) (mapNextTx P) (mapDeltas P) (vTxHashes P) (mapNameData P)
    (mapNameDataTx P) (mapProposal P) (mapPaymentRequest P) (mapConsultation P) (mapAnswer P) (mapAddress P)
    (mapAddressInserted P) (mapSpent P) (mapSpentInserted P).
Definition with_rollingMinimumFeeRate (v : spec_float) (P : CTxMemPool) : CTxMemPool :=
    mkPool (nTransactionsUpdated P) (totalTxSize P) (cachedInnerUsage P) (lastRollingFeeUpdate P)
    (blockSinceLastRollingFeeBump P) v (mapTx P) (mapLinks P) (mapNextTx P) (mapDeltas P) (vTxHashes P) (mapNameData
    P) (mapNameDataTx P) (mapProposal P) (mapPaymentRequest P) (mapConsultation P) (mapAnswer P) (mapAddress P)
    (mapAddressInserted P) (mapSpent P) (mapSpentInserted P).
Definition with_mapTx (v : gmap uint256 CTxMemPoolEntry) (P : CTxMemPool) : CTxMemPool :=
    mkPool (nTransactionsUpdated P) (totalTxSize P) (cachedInnerUsage P) (lastRollingFeeUpdate P)
    (blockSinceLastRollingFeeBump P) (rollingMinimumFeeRate P) v (mapLinks P) (mapNextTx P) (mapDeltas P) (vTxHashes
    P) (mapNameData P) (mapNameDataTx P) (mapProposal P) (mapPaymentRequest P) (mapConsultation P) (mapAnswer P)
    (mapAddress P) (mapAddressInserted P) (mapSpent P) (mapSpentInserted P).
Definition with_mapLinks (v : gmap uint256 TxLinks) (P : CTxMemPool) : CTxMemPool :=
    mkPool (nTransactionsUpdated P) (totalTxSize P) (cachedInnerUsage P) (lastRollingFeeUpdate P)
    (blockSinceLastRollingFeeBump P) (rollingMinimumFeeRate P) (mapTx P) v (mapNextTx P) (mapDeltas P) (vTxHashes P)
    (mapNameData P) (mapNameDataTx P) (mapProposal P) (mapPaymentRequest P) (mapConsultation P) (mapAnswer P)
    (mapAddress P) (mapAddressInserted P) (mapSpent P) (mapSpentInserted P).
Definition with_mapNextTx (v : gmap (uint256 * Z) uint256) (P : CTxMemPool) : CTxMemPool :=
    mkPool (nTransactionsUpdated P) (totalTxSize P) (cachedInnerUsage P) (lastRollingFeeUpdate P)
    (blockSinceLastRollingFeeBump P) (rollingMinimumFeeRate P) (mapTx P) (mapLinks P) v (mapDeltas P) (vTxHashes P)
    (mapNameData P) (mapNameDataTx P) (mapProposal P) (mapPaymentRequest P) (mapConsultation P) (mapAnswer P)
    (mapAddress P) (mapAddressInserted P) (mapSpent P) (mapSpentInserted P).
Definition with_mapDeltas (v : gmap uint256 (spec_float * Z)) (P : CTxMemPool) : CTxMemPool :=
    mkPool (nTransactionsUpdated P) (totalTxSize P) (cachedInnerUsage P) (lastRollingFeeUpdate P)
    (blockSinceLastRollingFeeBump P) (rollingMinimumFeeRate P) (mapTx P) (mapLinks P) (mapNextTx P) v (vTxHashes P)
    (mapNameData P) (mapNameDataTx P) (mapProposal P) (mapPaymentRequest P) (mapConsultation P) (mapAnswer P)
    (mapAddress P) (mapAddressInserted P) (mapSpent P) (mapSpentInserted P).
Definition with_vTxHashes (v : list uint256) (P : CTxMemPool) : CTxMemPool :=
    mkPool (nTransactionsUpdated P) (totalTxSize P) (cachedInnerUsage P) (lastRollingFeeUpdate P)
    (blockSinceLastRollingFeeBump P) (rollingMinimumFeeRate P) (mapTx P) (mapLinks P) (mapNextTx P) (mapDeltas P) v
    (mapNameData P) (mapNameDataTx P) (mapProposal P) (mapPaymentRequest P) (mapConsultation P) (mapAnswer P)
    (mapAddress P) (mapAddressInserted P) (mapSpent P) (mapSpentInserted P).
Definition with_mapNameData (v : gmap uint256 (list NameDataEntry)) (P : CTxMemPool) : CTxMemPool :=
    mkPool (nTransactionsUpdated P) (totalTxSize P) (cachedInnerUsage P) (lastRollingFeeUpdate P)
    (blockSinceLastRollingFeeBump P) (rollingMinimumFeeRate P) (mapTx P) (mapLinks P) (mapNextTx P) (mapDeltas P)
    (vTxHashes P) v (mapNameDataTx P) (mapProposal P) (mapPaymentRequest P) (mapConsultation P) (mapAnswer P)
    (mapAddress P) (mapAddressInserted P) (mapSpent P) (mapSpentInserted P).
Definition with_mapNameDataTx (v : gmap uint256 (list (uint256 * NameDataEntry))) (P : CTxMemPool) : CTxMemPool :=
    mkPool (nTransactionsUpdated P) (totalTxSize P) (cachedInnerUsage P) (lastRollingFeeUpdate P)
    (blockSinceLastRollingFeeBump P) (rollingMinimumFeeRate P) (mapTx P) (mapLinks P) (mapNextTx P) (mapDeltas P)
    (vTxHashes P) (mapNameData P) v (mapProposal P) (mapPaymentRequest P) (mapConsultation P) (mapAnswer P)
    (mapAddress P) (mapAddressInserted P) (mapSpent P) (mapSpentInserted P).
Definition with_mapProposal (v : gmap uint256 CProposal) (P : CTxMemPool) : CTxMemPool :=
    mkPool (nTransactionsUpdated P) (totalTxSize P) (cachedInnerUsage P) (lastRollingFeeUpdate P)
    (blockSinceLastRollingFeeBump P) (rollingMinimumFeeRate P) (mapTx P) (mapLinks P) (mapNextTx P) (mapDeltas P)
    (vTxHashes P) (mapNameData P) (mapNameDataTx P) v (mapPaymentRequest P) (mapConsultation P) (mapAnswer P)
    (mapAddress P) (mapAddressInserted P) (mapSpent P) (mapSpentInserted P).
Definition with_mapPaymentRequest (v : gmap uint256 CPaymentRequest) (P : CTxMemPool) : CTxMemPool :=
    mkPool (nTransactionsUpdated P) (totalTxSize P) (cachedInnerUsage P) (lastRollingFeeUpdate P)
    (blockSinceLastRollingFeeBump P) (rollingMinimumFeeRate P) (mapTx P) (mapLinks P) (mapNextTx P) (mapDeltas P)
    (vTxHashes P) (mapNameData P) (mapNameDataTx P) (mapProposal P) v (mapConsultation P) (mapAnswer P) (mapAddress P)
    (mapAddressInserted P) (mapSpent P) (mapSpentInserted P).
Definition with_mapConsultation (v : gmap uint256 CConsultation) (P : CTxMemPool) : CTxMemPool :=
    mkPool (nTransactionsUpdated P) (totalTxSize P) (cachedInnerUsage P) (lastRollingFeeUpdate P)
    (blockSinceLastRollingFeeBump P) (rollingMinimumFeeRate P) (mapTx P) (mapLinks P) (mapNextTx P) (mapDeltas P)
    (vTxHashes P) (mapNameData P) (mapNameDataTx P) (mapProposal P) (mapPaymentRequest P) v (mapAnswer P) (mapAddress
    P) (mapAddressInserted P) (mapSpent P) (mapSpentInserted P).
Definition with_mapAnswer (v : gmap uint256 CConsultationAnswer) (P : CTxMemPool) : CTxMemPool :=
    mkPool (nTransactionsUpdated P) (totalTxSize P) (cachedInnerUsage P) (lastRollingFeeUpdate P)
    (blockSinceLastRollingFeeBump P) (rollingMinimumFeeRate P) (mapTx P) (mapLinks P) (mapNextTx P) (mapDeltas P)
    (vTxHashes P) (mapNameData P) (mapNameDataTx P) (mapProposal P) (mapPaymentRequest P) (mapConsultation P) v
    (mapAddress P) (mapAddressInserted P) (mapSpent P) (mapSpentInserted P).
Definition with_mapAddress (v : gmap CMempoolAddressDeltaKey CMempoolAddressDelta) (P : CTxMemPool) : CTxMemPool :=
    mkPool (nTransactionsUpdated P) (totalTxSize P) (cachedInnerUsage P) (lastRollingFeeUpdate P)
    (blockSinceLastRollingFeeBump P) (rollingMinimumFeeRate P) (mapTx P) (mapLinks P) (mapNextTx P) (mapDeltas P)
    (vTxHashes P) (mapNameData P) (mapNameDataTx P) (mapProposal P) (mapPaymentRequest P) (mapConsultation P)
    (mapAnswer P) v (mapAddressInserted P) (mapSpent P) (mapSpentInserted P).
Definition with_mapAddressInserted (v : gmap uint256 (list CMempoolAddressDeltaKey)) (P : CTxMemPool) : CTxMemPool :=
    mkPool (nTransactionsUpdated P) (totalTxSize P) (cachedInnerUsage P) (lastRollingFeeUpdate P)
    (blockSinceLastRollingFeeBump P) (rollingMinimumFeeRate P) (mapTx P) (mapLinks P) (mapNextTx P) (mapDeltas P)
    (vTxHashes P) (mapNameData P) (mapNameDataTx P) (mapProposal P) (mapPaymentRequest P) (mapConsultation P)
    (mapAnswer P) (mapAddress P) v (mapSpent P) (mapSpentInserted P).
Definition with_mapSpent (v : gmap (uint256 * Z) CSpentIndexValue) (P : CTxMemPool) : CTxMemPool :=
    mkPool (nTransactionsUpdated P) (totalTxSize P) (cachedInnerUsage P) (lastRollingFeeUpdate P)
    (blockSinceLastRollingFeeBump P) (rollingMinimumFeeRate P) (mapTx P) (mapLinks P) (mapNextTx P) (mapDeltas P)
    (vTxHashes P) (mapNameData P) (mapNameDataTx P) (mapProposal P) (mapPaymentRequest P) (mapConsultation P)
    (mapAnswer P) (mapAddress P) (mapAddressInserted P) v (mapSpentInserted P).
Definition with_mapSpentInserted (v : gmap uint256 (list (uint256 * Z))) (P : CTxMemPool) : CTxMemPool :=
    mkPool (nTransactionsUpdated P) (totalTxSize P) (cachedInnerUsage P) (lastRollingFeeUpdate P)
    (blockSinceLastRollingFeeBump P) (rollingMinimumFeeRate P) (mapTx P) (mapLinks P) (mapNextTx P) (mapDeltas P)
    (vTxHashes P) (mapNameData P) (mapNameDataTx P) (mapProposal P) (mapPaymentRequest P) (mapConsultation P)
    (mapAnswer P) (mapAddress P) (mapAddressInserted P) (mapSpent P) v.

(** The order in which a loop visits a [setEntries]. *)
Definition set_elems (s : gset uint256) : list uint256 := merge_sort Z.le (elements s).

Definition exists_tx (P : CTxMemPool) (hash : uint256) : bool := bool_decide (is_Some (mapTx P !! hash)).

(** [mapTx.modify]; [None] when there is no such entry or its assertion fails. *)
Definition modify (P : CTxMemPool) (it : uint256) (f : CTxMemPoolEntry -> option CTxMemPoolEntry) : option CTxMemPool :=
  do e <- mapTx P !! it; do e' <- f e; Some (with_mapTx (<[it := e']> (mapTx P)) P).

Definition GetMemPoolParents (P : CTxMemPool) (entry : uint256) : option (gset uint256) :=
  parents <$> mapLinks P !! entry.

Definition GetMemPoolChildren (P : CTxMemPool) (entry : uint256) : option (gset uint256) :=
  children <$> mapLinks P !! entry.

(** [mapLinks[entry]] makes an entry when there is none. *)
Definition links_at (P : CTxMemPool) (entry : uint256) : TxLinks := default (mkLinks ∅ ∅) (mapLinks P !! entry).

Definition UpdateChild (entry child : uint256) (add : bool) (P : CTxMemPool) : CTxMemPool :=
  let l := links_at P entry in
  if add then
    let P' := with_mapLinks (<[entry := mkLinks (parents l) ({[child]} ∪ children l)]> (mapLinks P)) P in
    if decide (child ∈ children l) then P'
    else with_cachedInnerUsage (u64 (cachedInnerUsage P + IncrementalDynamicUsage)) P'
  else
    let P' := with_mapLinks (<[entry := mkLinks (parents l) (children l ∖ {[child]})]> (mapLinks P)) P in
    if decide (child ∈ children l) then with_cachedInnerUsage (u64 (cachedInnerUsage P - IncrementalDynamicUsage)) P'
    else P'.

Definition UpdateParent (entry parent : uint256) (add : bool) (P : CTxMemPool) : CTxMemPool :=
  let l := links_at P entry in
  if add then
    let P' := with_mapLinks (<[entry := mkLinks ({[parent]} ∪ parents l) (children l)]> (mapLinks P)) P in
    if decide (parent ∈ parents l) then P'
    else with_cachedInnerUsage (u64 (cachedInnerUsage P + IncrementalDynamicUsage)) P'
  else
    let P' := with_mapLinks (<[entry := mkLinks (parents l ∖ {[parent]}) (children l)]> (mapLinks P)) P in
    if decide (parent ∈ parents l) then with_cachedInnerUsage (u64 (cachedInnerUsage P - IncrementalDynamicUsage)) P'
    else P'.

(** ** Descendants and ancestors *)

(** The entries of a set that are not in another are put on the stage. *)
Definition stage_new (seen stage s : gset uint256) : gset uint256 :=
  foldl (fun st x => if decide (x ∈ seen) then st else {[x]} ∪ st) stage (set_elems s).

(** The loop of [CalculateDescendants]; a round moves one entry from the stage
    to the result, so one round for each entry of the pool is enough. *)
Fixpoint descend (fuel : nat) (P : CTxMemPool) (stage setDescendants : gset uint256) : option (gset uint256) :=
  match set_elems stage with
  | [] => Some setDescendants
  | it :: _ =>
    match fuel with
    | O => None
    | S fuel =>
      let setDescendants := {[it]} ∪ setDescendants in
      do setChildren <- GetMemPoolChildren P it;
      descend fuel P (stage_new setDescendants (stage ∖ {[it]}) setChildren) setDescendants
    end
  end.

Definition CalculateDescendants (P : CTxMemPool) (entryit : uint256) (setDescendants : gset uint256) :
    option (gset uint256) :=
  descend (size (mapLinks P)) P (if decide (entryit ∈ setDescendants) then ∅ else {[entryit]}) setDescendants.

Inductive AncestorError :=
| TooManyParents
| DescendantSizeLimit (tx : uint256)
| TooManyDescendants (tx : uint256)
| AncestorSizeLimit
| TooManyAncestors.

Record Limits := mkLimits {
  limitAncestorCount : Z;
  limitAncestorSize : Z;
  limitDescendantCount : Z;
  limitDescendantSize : Z
}.

Definition nNoLimit : Limits := let n := 2 ^ 64 - 1 in mkLimits n n n n.

(** The parents of a new transaction, searched in the pool.  The left side is
    the error [CalculateMemPoolAncestors] returns with false. *)
Fixpoint search_parents (P : CTxMemPool) (limit : Z) (vin : list COutPoint) (parentHashes : gset uint256) :
    AncestorError + gset uint256 :=
  match vin with
  | [] => inr parentHashes
  | o :: vin =>
    if exists_tx P (prevout_hash o) then
      let parentHashes := {[prevout_hash o]} ∪ parentHashes in
      if limit <? Z.of_nat (size parentHashes) + 1 then inl TooManyParents
      else search_parents P limit vin parentHashes
    else search_parents P limit vin parentHashes
  end.

(** The inner loop over the parents of an ancestor. *)
Fixpoint stage_parents (limit : Z) (setAncestors : gset uint256) (l : list uint256) (parentHashes : gset uint256) :
    option (gset uint256) :=
  match l with
  | [] => Some parentHashes
  | phash :: l =>
    let parentHashes := if decide (phash ∈ setAncestors) then parentHashes else {[phash]} ∪ parentHashes in
    if limit <? Z.of_nat (size parentHashes) + Z.of_nat (size setAncestors) + 1 then None
    else stage_parents limit setAncestors l parentHashes
  end.

Fixpoint ascend (fuel : nat) (P : CTxMemPool) (L : Limits) (size total : Z) (parentHashes setAncestors : gset uint256) :
    option (AncestorError + gset uint256) :=
  match set_elems parentHashes with
  | [] => Some (inr setAncestors)
  | stageit :: _ =>
    match fuel with
    | O => None
    | S fuel =>
      let setAncestors := {[stageit]} ∪ setAncestors in
      let parentHashes := parentHashes ∖ {[stageit]} in
      do e <- mapTx P !! stageit;
      let total := u64 (total + GetTxSize e) in
      if limitDescendantSize L <? u64 (nSizeWithDescendants e + size) then Some (inl (DescendantSizeLimit stageit))
      else if limitDescendantCount L <? u64 (nCountWithDescendants e + 1) then Some (inl (TooManyDescendants stageit))
      else if limitAncestorSize L <? total then Some (inl AncestorSizeLimit)
      else
        do setMemPoolParents <- GetMemPoolParents P stageit;
        match stage_parents (limitAncestorCount L) setAncestors (set_elems setMemPoolParents) parentHashes with
        | None => Some (inl TooManyAncestors)
        | Some parentHashes => ascend fuel P L size total parentHashes setAncestors
        end
    end
  end.

Definition CalculateMemPoolAncestors (P : CTxMemPool) (entry : CTxMemPoolEntry) (L : Limits) (fSearchForParents : bool) :
    option (AncestorError + gset uint256) :=
  do parentHashes <-
    (if fSearchForParents then Some (search_parents P (limitAncestorCount L) (ct_vin (e_tx entry)) ∅)
     else inr <$> GetMemPoolParents P (ct_hash (e_tx entry)));
  match parentHashes with
  | inl err => Some (inl err)
  | inr parentHashes => ascend (size (mapTx P)) P L (GetTxSize entry) (GetTxSize entry) parentHashes ∅
  end.

(** The set a caller that ignores the result goes on with; without limits there is no error. *)
Definition all_ancestors (P : CTxMemPool) (entry : CTxMemPoolEntry) (fSearchForParents : bool) : option (gset uint256) :=
  do r <- CalculateMemPoolAncestors P entry nNoLimit fSearchForParents;
  match r with inr s => Some s | inl _ => None end.

(** ** Statistics *)

Definition UpdateAncestorsOf (add : bool) (it : uint256) (setAncestors : gset uint256) (P : CTxMemPool) :
    option CTxMemPool :=
  do parentIters <- GetMemPoolParents P it;
  let P := foldl (fun P piter => UpdateChild piter it add P) P (set_elems parentIters) in
  do e <- mapTx P !! it;
  let updateCount := if add then 1 else -1 in
  let updateSize := i64 (updateCount * GetTxSize e) in
  let updateFee := updateCount * GetModifiedFee e in
  foldM (fun P a => modify P a (UpdateDescendantState updateSize updateFee updateCount)) P (set_elems setAncestors).

Definition UpdateEntryForAncestors (it : uint256) (setAncestors : gset uint256) (P : CTxMemPool) : option CTxMemPool :=
  do sums <- foldM (fun '(sz, fee, ops) a => do e <- mapTx P !! a;
                      Some (i64 (sz + GetTxSize e), fee + GetModifiedFee e, i64 (ops + sigOpCost e)))
               (0, 0, 0) (set_elems setAncestors);
  let '(updateSize, updateFee, updateSigOpsCost) := sums in
  modify P it (UpdateAncestorState updateSize updateFee (Z.of_nat (size setAncestors)) updateSigOpsCost).

Definition UpdateChildrenForRemoval (it : uint256) (P : CTxMemPool) : option CTxMemPool :=
  do setMemPoolChildren <- GetMemPoolChildren P it;
  Some (foldl (fun P updateIt => UpdateParent updateIt it false P) P (set_elems setMemPoolChildren)).

(** The first loop of [UpdateForRemoveFromMempool]: the descendants forget an entry. *)
Definition forget_ancestor (P : CTxMemPool) (removeIt : uint256) : option CTxMemPool :=
  do setDescendants <- CalculateDescendants P removeIt ∅;
  do e <- mapTx P !! removeIt;
  foldM (fun P dit => modify P dit (UpdateAncestorState (- GetTxSize e) (- GetModifiedFee e) (-1) (i32 (- sigOpCost e))))
    P (set_elems (setDescendants ∖ {[removeIt]})).

(** The second loop: its ancestors forget it. *)
Definition forget_descendant (P : CTxMemPool) (removeIt : uint256) : option CTxMemPool :=
  do e <- mapTx P !! removeIt;
  do setAncestors <- all_ancestors P e false;
  UpdateAncestorsOf false removeIt setAncestors P.

Definition UpdateForRemoveFromMempool (entriesToRemove : gset uint256) (updateDescendants : bool) (P : CTxMemPool) :
    option CTxMemPool :=
  let l := set_elems entriesToRemove in
  do P <- (if updateDescendants then foldM forget_ancestor P l else Some P);
  do P <- foldM forget_descendant P l;
  foldM (fun P removeIt => UpdateChildrenForRemoval removeIt P) P l.

(** ** Adding *)

(** [insert] of a map keeps the value that is there. *)
Definition insert_if_new {K V} `{Countable K} (k : K) (v : V) (m : gmap K V) : gmap K V :=
  match m !! k with Some _ => m | None => <[k := v]> m end.

(** The fee delta that [PrioritiseTransaction] left for the transaction. *)
Definition apply_delta (hash newit : uint256) (P : CTxMemPool) : option CTxMemPool :=
  match mapDeltas P !! hash with
  | Some deltas => if deltas.2 =? 0 then Some P else modify P newit (fun e => Some (UpdateFeeDelta deltas.2 e))
  | None => Some P
  end.

Definition record_inputs (newit : uint256) (vin : list COutPoint) (P : CTxMemPool) : CTxMemPool :=
  with_mapNextTx (foldl (fun m o => insert_if_new (out_key o) newit m) (mapNextTx P) vin) P.

Definition link_new (newit : uint256) (vin : list COutPoint) (setAncestors : gset uint256) (P : CTxMemPool) :
    option CTxMemPool :=
  let setParentTransactions : gset uint256 := list_to_set (map prevout_hash vin) in
  let P := foldl (fun P phash => if exists_tx P phash then UpdateParent newit phash true P else P)
             P (set_elems setParentTransactions) in
  do P <- UpdateAncestorsOf true newit setAncestors P;
  UpdateEntryForAncestors newit setAncestors P.

(** The counters and the vector of hashes. *)
Definition count_new (hash newit : uint256) (entry : CTxMemPoolEntry) (P : CTxMemPool) : option CTxMemPool :=
  let P := with_nTransactionsUpdated (u32 (nTransactionsUpdated P + 1)) P in
  let P := with_totalTxSize (u64 (totalTxSize P + GetTxSize entry)) P in
  let P := with_vTxHashes (vTxHashes P ++ [hash]) P in
  modify P newit (fun e => Some (with_vTxHashesIdx (length (vTxHashes P) - 1) e)).

Definition addUnchecked (hash : uint256) (entry : CTxMemPoolEntry) (setAncestors : gset uint256) (P : CTxMemPool) :
    option CTxMemPool :=
  let fBLSInput := coin_IsBLSInput (e_tx entry) in
  let newit := ct_hash (e_tx entry) in
  let P := with_mapTx (insert_if_new newit entry (mapTx P)) P in
  let P := with_mapLinks (insert_if_new newit (mkLinks ∅ ∅) (mapLinks P)) P in
  do P <- apply_delta hash newit P;
  let P := with_cachedInnerUsage (u64 (cachedInnerUsage P + nUsageSize entry)) P in
  do e <- mapTx P !! newit;
  let vin := ct_vin (e_tx e) in
  let P := record_inputs newit vin P in
  do P <- (if fBLSInput then Some P else link_new newit vin setAncestors P);
  count_new hash newit entry P.

(** The overload that searches the ancestors itself. *)
Definition addUnchecked_search (hash : uint256) (entry : CTxMemPoolEntry) (P : CTxMemPool) : option CTxMemPool :=
  do setAncestors <- all_ancestors P entry true;
  addUnchecked hash entry setAncestors P.

Definition pool_AddProposal (proposal : CProposal) (P : CTxMemPool) : CTxMemPool :=
  with_mapProposal (insert_if_new (p_hash proposal) proposal (mapProposal P)) P.

Definition pool_AddPaymentRequest (prequest : CPaymentRequest) (P : CTxMemPool) : CTxMemPool :=
  with_mapPaymentRequest (insert_if_new (pr_hash prequest) prequest (mapPaymentRequest P)) P.

Definition pool_AddConsultation (consultation : CConsultation) (P : CTxMemPool) : CTxMemPool :=
  with_mapConsultation (insert_if_new (c_hash consultation) consultation (mapConsultation P)) P.

Definition pool_AddConsultationAnswer (answer : CConsultationAnswer) (P : CTxMemPool) : CTxMemPool :=
  with_mapAnswer (insert_if_new (a_hash answer) answer (mapAnswer P)) P.

Definition AddNameData (tx prid : uint256) (record : NameDataEntry) (P : CTxMemPool) : CTxMemPool :=
  let P := with_mapNameDataTx (<[tx := default [] (mapNameDataTx P !! tx) ++ [(prid, record)]]> (mapNameDataTx P)) P in
  with_mapNameData (<[prid := default [] (mapNameData P !! prid) ++ [record]]> (mapNameData P)) P.

(** ** The indexes of addresses and spent outputs *)

(** The type and the hash of the address a script pays to, when it has one. *)
Definition index_address (s : CScript) : option (Z * list Z) :=
  if IsPayToScriptHash s then Some (2, take 20 (drop 2 s))
  else if IsPayToPublicKeyHash s then Some (1, take 20 (drop 3 s))
  else None.

Definition address_input (e : CTxMemPoolEntry) (prevout : COutPoint -> TxOut) (j : nat) (input : COutPoint) :
    option (CMempoolAddressDeltaKey * CMempoolAddressDelta) :=
  let out := out_plain (prevout input) in
  do a <- index_address (scriptPubKey out);
  Some ((a.1, a.2, ct_hash (e_tx e), Z.of_nat j, 1),
        mkAddressDelta (e_nTime e) (- nValue out) (prevout_hash input) (prevout_n input)).

Definition address_output (e : CTxMemPoolEntry) (k : nat) (out : TxOut) :
    option (CMempoolAddressDeltaKey * CMempoolAddressDelta) :=
  do a <- index_address (scriptPubKey (out_plain out));
  Some ((a.1, a.2, ct_hash (e_tx e), Z.of_nat k, 0), mkAddressDelta (e_nTime e) (nValue (out_plain out)) 0 0).

(** [prevout] is [GetOutputFor] of the view. *)
Definition addAddressIndex (e : CTxMemPoolEntry) (prevout : COutPoint -> TxOut) (P : CTxMemPool) : CTxMemPool :=
  let tx := e_tx e in
  let deltas := omap id (imap (address_input e prevout) (ct_vin tx)) ++ omap id (imap (address_output e) (ct_vout tx)) in
  let P := with_mapAddress (foldl (fun m kv => insert_if_new kv.1 kv.2 m) (mapAddress P) deltas) P in
  with_mapAddressInserted (insert_if_new (ct_hash tx) deltas.*1 (mapAddressInserted P)) P.

Definition removeAddressIndex (txhash : uint256) (P : CTxMemPool) : CTxMemPool :=
  match mapAddressInserted P !! txhash with
  | None => P
  | Some keys =>
    let P := with_mapAddress (foldl (fun m k => delete k m) (mapAddress P) keys) P in
    with_mapAddressInserted (delete txhash (mapAddressInserted P)) P
  end.

Definition spent_input (e : CTxMemPoolEntry) (prevout : COutPoint -> TxOut) (j : nat) (input : COutPoint) :
    (uint256 * Z) * CSpentIndexValue :=
  let out := out_plain (prevout input) in
  let a := default (0, replicate 20 0) (index_address (scriptPubKey out)) in
  (out_key input, mkSpentIndexValue (ct_hash (e_tx e)) (Z.of_nat j) (-1) (nValue out) a.1 a.2).

Definition addSpentIndex (e : CTxMemPoolEntry) (prevout : COutPoint -> TxOut) (P : CTxMemPool) : CTxMemPool :=
  let tx := e_tx e in
  let spent := imap (spent_input e prevout) (ct_vin tx) in
  let P := with_mapSpent (foldl (fun m kv => insert_if_new kv.1 kv.2 m) (mapSpent P) spent) P in
  with_mapSpentInserted (insert_if_new (ct_hash tx) spent.*1 (mapSpentInserted P)) P.

Definition getSpentIndex (P : CTxMemPool) (key : uint256 * Z) : option CSpentIndexValue := mapSpent P !! key.

Definition removeSpentIndex (txhash : uint256) (P : CTxMemPool) : CTxMemPool :=
  match mapSpentInserted P !! txhash with
  | None => P
  | Some keys =>
    let P := with_mapSpent (foldl (fun m k => delete k m) (mapSpent P) keys) P in
    with_mapSpentInserted (delete txhash (mapSpentInserted P)) P
  end.

(** ** Removing *)

Definition remove_names (hash : uint256) (P : CTxMemPool) : CTxMemPool :=
  match mapNameDataTx P !! hash with
  | None => P
  | Some l =>
    let P := with_mapNameData (foldl (fun m kv => delete kv.1 m) (mapNameData P) l) P in
    with_mapNameDataTx (delete hash (mapNameDataTx P)) P
  end.

(** The last hash takes the place of the removed one; [None] is an index out of range. *)
Definition remove_hash (e : CTxMemPoolEntry) (P : CTxMemPool) : option CTxMemPool :=
  match vTxHashes P with
  | _ :: _ :: _ =>
    let idx := vTxHashesIdx e in
    check (idx <? length (vTxHashes P))%nat;
    do back <- last (vTxHashes P);
    do P <- modify P back (fun e => Some (with_vTxHashesIdx idx e));
    Some (with_vTxHashes (take (length (vTxHashes P) - 1) (<[idx := back]> (vTxHashes P))) P)
  | _ => Some (with_vTxHashes [] P)
  end.

Definition removeUnchecked (it : uint256) (P : CTxMemPool) : option CTxMemPool :=
  do e <- mapTx P !! it;
  let hash := ct_hash (e_tx e) in
  let P := with_mapNextTx (foldl (fun m o => delete (out_key o) m) (mapNextTx P) (ct_vin (e_tx e))) P in
  let P := remove_names hash P in
  do P <- remove_hash e P;
  let P := with_totalTxSize (u64 (totalTxSize P - GetTxSize e)) P in
  let P := with_cachedInnerUsage (u64 (cachedInnerUsage P - nUsageSize e)) P in
  let l := links_at P it in
  let P := with_cachedInnerUsage (u64 (cachedInnerUsage P - (DynamicUsage (parents l) + DynamicUsage (children l)))) P in
  let P := with_mapLinks (delete it (mapLinks P)) P in
  let P := with_mapTx (delete it (mapTx P)) P in
  let P := with_nTransactionsUpdated (u32 (nTransactionsUpdated P + 1)) P in
  Some (removeSpentIndex hash (removeAddressIndex hash P)).

Definition RemoveStaged (stage : gset uint256) (updateDescendants : bool) (P : CTxMemPool) : option CTxMemPool :=
  do P <- UpdateForRemoveFromMempool stage updateDescendants P;
  foldM (fun P it => removeUnchecked it P) P (set_elems stage).

(** The children of a transaction that is not in the pool. *)
Definition spenders (P : CTxMemPool) (origTx : CoinTx) : option (gset uint256) :=
  foldM (fun s i =>
           match mapNextTx P !! (ct_hash origTx, Z.of_nat i) with
           | None => Some s
           | Some next => check (exists_tx P next); Some ({[next]} ∪ s)
           end) ∅ (seq 0 (length (ct_vout origTx))).

Definition all_descendants (P : CTxMemPool) (s : gset uint256) : option (gset uint256) :=
  foldM (fun acc it => CalculateDescendants P it acc) ∅ (set_elems s).

(** Gives the removed transactions too. *)
Definition removeRecursive (origTx : CoinTx) (P : CTxMemPool) : option (CTxMemPool * list CoinTx) :=
  do txToRemove <- (if exists_tx P (ct_hash origTx) then Some {[ct_hash origTx]} else spenders P origTx);
  do setAllRemoves <- all_descendants P txToRemove;
  do removed <- foldM (fun l it => do e <- mapTx P !! it; Some (l ++ [e_tx e])) [] (set_elems setAllRemoves);
  do P <- RemoveStaged setAllRemoves false P;
  Some (P, removed).

Definition ClearPrioritisation (hash : uint256) (P : CTxMemPool) : CTxMemPool :=
  with_mapDeltas (delete hash (mapDeltas P)) P.

(** Two transactions are equal when their hashes are. *)
Definition remove_conflict (tx : CoinTx) (s : CTxMemPool * list CoinTx) (txin : COutPoint) :
    option (CTxMemPool * list CoinTx) :=
  match mapNextTx s.1 !! out_key txin with
  | None => Some s
  | Some conflict =>
    if conflict =? ct_hash tx then Some s else
    do e <- mapTx s.1 !! conflict;
    do r <- removeRecursive (e_tx e) s.1;
    Some (ClearPrioritisation conflict r.1, s.2 ++ r.2)
  end.

Definition removeConflicts (tx : CoinTx) (P : CTxMemPool) : option (CTxMemPool * list CoinTx) :=
  foldM (remove_conflict tx) (P, []) (ct_vin tx).

Definition remove_block_tx (s : CTxMemPool * list CoinTx) (tx : CoinTx) : option (CTxMemPool * list CoinTx) :=
  let hash := ct_hash tx in
  do P <- (if exists_tx s.1 hash then RemoveStaged {[hash]} true s.1 else Some s.1);
  do r <- removeConflicts tx P;
  let P := ClearPrioritisation hash r.1 in
  let P := with_mapProposal (delete hash (mapProposal P)) P in
  let P := with_mapPaymentRequest (delete hash (mapPaymentRequest P)) P in
  Some (P, s.2 ++ r.2).

(** [now] is [GetTime()]; gives the conflicts. *)
Definition removeForBlock (vtx : list CoinTx) (now : Z) (P : CTxMemPool) : option (CTxMemPool * list CoinTx) :=
  do r <- foldM remove_block_tx (P, []) vtx;
  Some (with_blockSinceLastRollingFeeBump true (with_lastRollingFeeUpdate now r.1), r.2).

Definition clear (now : Z) (P : CTxMemPool) : CTxMemPool :=
  let P := with_mapNextTx ∅ (with_mapTx ∅ (with_mapLinks ∅ P)) in
  let P := with_cachedInnerUsage 0 (with_totalTxSize 0 P) in
  let P := with_blockSinceLastRollingFeeBump false (with_lastRollingFeeUpdate now P) in
  with_nTransactionsUpdated (u32 (nTransactionsUpdated P + 1)) (with_rollingMinimumFeeRate (S754_zero false) P).

(** The index by entry time gives the old entries first. *)
Definition Expire (time : Z) (P : CTxMemPool) : option (CTxMemPool * Z) :=
  let toremove : gset uint256 := dom (filter (fun kv => e_nTime kv.2 < time) (mapTx P)) in
  do stage <- all_descendants P toremove;
  do P <- RemoveStaged stage false P;
  Some (P, Z.of_nat (size stage)).

(** [main.cpp]: a private output that is spent takes the spender in the pool with it. *)
Definition RemoveBLSCTConflicting (outpoint : COutPoint) (P : CTxMemPool) : option CTxMemPool :=
  match mapNextTx P !! out_key outpoint with
  | None => Some P
  | Some hashConflicting =>
    if exists_tx P hashConflicting then
      do allConflicting <- CalculateDescendants P hashConflicting ∅;
      RemoveStaged allConflicting false P
    else Some P
  end.

(** ** Reorganisations

    The transactions of a disconnected block come back with their children
    unlinked; [UpdateTransactionsFromBlock] links them. *)

(** The loop over the children of one entry; the cache has the descendants of
    entries that were handled before. *)
Definition stage_children (cached : gmap uint256 (gset uint256)) (s : gset uint256 * gset uint256) (childEntry : uint256) :
    gset uint256 * gset uint256 :=
  let '(stage, all) := s in
  match cached !! childEntry with
  | Some entries => (stage, entries ∪ all)
  | None => if decide (childEntry ∈ all) then (stage, all) else ({[childEntry]} ∪ stage, all)
  end.

(** An entry that was taken from the stage does not come back to it. *)
Fixpoint descend_cached (fuel : nat) (P : CTxMemPool) (cached : gmap uint256 (gset uint256)) (stage all : gset uint256) :
    option (gset uint256) :=
  match set_elems stage with
  | [] => Some all
  | cit :: _ =>
    match fuel with
    | O => None
    | S fuel =>
      do setChildren <- GetMemPoolChildren P cit;
      let '(stage, all) := foldl (stage_children cached) (stage ∖ {[cit]}, {[cit]} ∪ all) (set_elems setChildren) in
      descend_cached fuel P cached stage all
    end
  end.

(** The state of the loop over the descendants: the pool, the sums and the cached set. *)
Definition count_descendant (e : CTxMemPoolEntry) (setExclude : gset uint256)
    (s : CTxMemPool * (Z * Z * Z) * gset uint256) (cit : uint256) : option (CTxMemPool * (Z * Z * Z) * gset uint256) :=
  let '(P, (modifySize, modifyFee, modifyCount), found) := s in
  do c <- mapTx P !! cit;
  if decide (ct_hash (e_tx c) ∈ setExclude) then Some s else
  do P <- modify P cit (UpdateAncestorState (GetTxSize e) (GetModifiedFee e) 1 (sigOpCost e));
  Some (P, (i64 (modifySize + GetTxSize c), modifyFee + GetModifiedFee c, modifyCount + 1), {[cit]} ∪ found).

Definition UpdateForDescendants (updateIt : uint256) (cached : gmap uint256 (gset uint256)) (setExclude : gset uint256)
    (P : CTxMemPool) : option (CTxMemPool * gmap uint256 (gset uint256)) :=
  do stageEntries <- GetMemPoolChildren P updateIt;
  do setAllDescendants <- descend_cached (size (mapLinks P)) P cached stageEntries ∅;
  do e <- mapTx P !! updateIt;
  do r <- foldM (count_descendant e setExclude) (P, (0, 0, 0), ∅) (set_elems setAllDescendants);
  let '(P, (modifySize, modifyFee, modifyCount), found) := r in
  let cached := if decide (found = ∅) then cached else <[updateIt := found ∪ default ∅ (cached !! updateIt)]> cached in
  do P <- modify P updateIt (UpdateDescendantState modifySize modifyFee modifyCount);
  Some (P, cached).

(** The spenders of a transaction, in the order of the outputs. *)
Definition next_children (P : CTxMemPool) (hash : uint256) : list uint256 :=
  map snd (filter (fun kv => kv.1.1 = hash) (elems (mapNextTx P))).

Definition link_child (it : uint256) (setAlreadyIncluded : gset uint256) (s : CTxMemPool * gset uint256) (childHash : uint256) :
    option (CTxMemPool * gset uint256) :=
  let '(P, setChildren) := s in
  check (exists_tx P childHash);
  if decide (childHash ∈ setChildren) then Some s
  else if decide (childHash ∈ setAlreadyIncluded) then Some (P, {[childHash]} ∪ setChildren)
  else Some (UpdateParent childHash it true (UpdateChild it childHash true P), {[childHash]} ∪ setChildren).

Definition update_from_block (setAlreadyIncluded : gset uint256) (s : CTxMemPool * gmap uint256 (gset uint256)) (hash : uint256) :
    option (CTxMemPool * gmap uint256 (gset uint256)) :=
  if exists_tx s.1 hash then
    do r <- foldM (link_child hash setAlreadyIncluded) (s.1, ∅) (next_children s.1 hash);
    UpdateForDescendants hash s.2 setAlreadyIncluded r.1
  else Some s.

Definition UpdateTransactionsFromBlock (vHashesToUpdate : list uint256) (P : CTxMemPool) : option CTxMemPool :=
  do r <- foldM (update_from_block (list_to_set vHashesToUpdate)) (P, ∅) (rev vHashesToUpdate);
  Some r.1.

(** ** Priorities *)

Definition PrioritiseTransaction (hash : uint256) (dPriorityDelta : spec_float) (nFeeDelta : Z) (P : CTxMemPool) :
    option CTxMemPool :=
  let old := default (S754_zero false, 0) (mapDeltas P !! hash) in
  let deltas := (SFadd 53 1024 old.1 dPriorityDelta, old.2 + nFeeDelta) in
  let P := with_mapDeltas (<[hash := deltas]> (mapDeltas P)) P in
  if exists_tx P hash then
    do P <- modify P hash (fun e => Some (UpdateFeeDelta deltas.2 e));
    do e <- mapTx P !! hash;
    do setAncestors <- all_ancestors P e false;
    foldM (fun P a => modify P a (UpdateDescendantState 0 nFeeDelta 0)) P (set_elems setAncestors)
  else Some P.

Definition ApplyDeltas (P : CTxMemPool) (hash : uint256) (dPriorityDelta : spec_float) (nFeeDelta : Z) : spec_float * Z :=
  match mapDeltas P !! hash with
  | None => (dPriorityDelta, nFeeDelta)
  | Some deltas => (SFadd 53 1024 dPriorityDelta deltas.1, nFeeDelta + deltas.2)
  end.

Definition HasNoInputsOf (P : CTxMemPool) (tx : CoinTx) : bool :=
  forallb (fun o => negb (exists_tx P (prevout_hash o))) (ct_vin tx).

(** ** Trimming *)

Definition trackPackageRemoved (rate : Z) (P : CTxMemPool) : option CTxMemPool :=
  do perK <- GetFeePerK rate;
  Some (if float_gt (f64_of_Z perK) (rollingMinimumFeeRate P)
        then with_blockSinceLastRollingFeeBump false (with_rollingMinimumFeeRate (f64_of_Z perK) P)
        else P).

Section trim.
(** The entry with the lowest score, first in the index [descendant_score];
    what the pool needs for its entries and its vector of hashes depends on the
    platform. *)
Context (lowest : gmap uint256 CTxMemPoolEntry -> option uint256) (sizeof_entry : Z) (vector_usage : CTxMemPool -> Z).
Context (minReasonableRelayFee : Z).

(** [DynamicUsage] of [mapNextTx] (a key and a pointer), [mapDeltas] (a hash, a
    double and an amount) and [mapLinks] (a pointer and two sets of 48 bytes). *)
Definition DynamicMemoryUsage (P : CTxMemPool) : Z :=
  u64 (MallocUsage (sizeof_entry + 15 * 8) * Z.of_nat (size (mapTx P)) +
       MallocUsage (sizeof_tree_node 16) * Z.of_nat (size (mapNextTx P)) +
       MallocUsage (sizeof_tree_node 48) * Z.of_nat (size (mapDeltas P)) +
       MallocUsage (sizeof_tree_node 104) * Z.of_nat (size (mapLinks P)) +
       vector_usage P + cachedInnerUsage P).

(** The hashes of spent transactions the pool has no more to do with. *)
Definition no_spends (P : CTxMemPool) (txn : list CoinTx) : list uint256 :=
  flat_map (fun tx => flat_map (fun o =>
    let h := prevout_hash o in
    if exists_tx P h then []
    else if existsb (fun kv : (uint256 * Z) * uint256 => kv.1.1 =? h) (map_to_list (mapNextTx P)) then []
    else [h]) (ct_vin tx)) txn.

(** A round removes at least one entry. *)
Fixpoint trim_loop (fuel : nat) (sizelimit : Z) (P : CTxMemPool) (noSpends : list uint256) :
    option (CTxMemPool * list uint256) :=
  if (size (mapTx P) =? 0)%nat || (DynamicMemoryUsage P <=? sizelimit) then Some (P, noSpends) else
  match fuel with
  | O => None
  | S fuel =>
    do it <- lowest (mapTx P);
    do e <- mapTx P !! it;
    do rate <- CFeeRate_new (nModFeesWithDescendants e) (nSizeWithDescendants e);
    let removed := rate + minReasonableRelayFee in
    do P <- trackPackageRemoved removed P;
    do stage <- CalculateDescendants P it ∅;
    do txn <- foldM (fun l it => do e <- mapTx P !! it; Some (l ++ [e_tx e])) [] (set_elems stage);
    do P <- RemoveStaged stage false P;
    trim_loop fuel sizelimit P (noSpends ++ no_spends P txn)
  end.

Definition TrimToSize (sizelimit : Z) (P : CTxMemPool) : option (CTxMemPool * list uint256) :=
  trim_loop (size (mapTx P)) sizelimit P [].

(** [main.cpp], without the cache of coins; [now] is [GetTime()]. *)
Definition LimitMempoolSize (limit age now : Z) (P : CTxMemPool) : option (CTxMemPool * list uint256) :=
  do r <- Expire (i64 (now - age)) P;
  TrimToSize limit r.1.
End trim.
