(* ===== verification/MempoolGraph.v ===== *)
(** * The links of the transaction pool

    Sums over sets of entries, and the two traversals of the links: the
    descendants and the ancestors that [CalculateDescendants] and
    [CalculateMemPoolAncestors] collect are the transitive closure of the links,
    and the limits are checked against exactly that closure. *)
From stdpp Require Import relations.
From S2P Require Import Prelude Transaction TxCheck Mempool.

(** ** Sums over sets *)

Definition set_sum (f : uint256 -> Z) (s : gset uint256) : Z := foldr (fun x acc => f x + acc) 0 (elements s).

#[local] Lemma foldr_sum_perm (f : uint256 -> Z) l1 l2 :
  l1 ≡ₚ l2 -> foldr (fun x acc => f x + acc) 0 l1 = foldr (fun x acc => f x + acc) 0 l2.
Proof. induction 1; cbn; lia. Qed.

#[local] Lemma foldr_sum_app (f : uint256 -> Z) l1 l2 :
  foldr (fun x acc => f x + acc) 0 (l1 ++ l2) =
  foldr (fun x acc => f x + acc) 0 l1 + foldr (fun x acc => f x + acc) 0 l2.
Proof. induction l1; cbn; lia. Qed.

Section set_sum.
Context (f : uint256 -> Z).

Lemma set_sum_empty : set_sum f ∅ = 0.
Proof. unfold set_sum. by rewrite elements_empty. Qed.

Lemma set_sum_union s1 s2 : s1 ## s2 -> set_sum f (s1 ∪ s2) = set_sum f s1 + set_sum f s2.
Proof.
  intros H. unfold set_sum. rewrite <- foldr_sum_app. apply foldr_sum_perm, elements_disj_union, H.
Qed.

Lemma set_sum_singleton x : set_sum f {[x]} = f x.
Proof. unfold set_sum. rewrite elements_singleton. cbn. lia. Qed.

Lemma set_sum_insert x s : x ∉ s -> set_sum f ({[x]} ∪ s) = f x + set_sum f s.
Proof. intros H. rewrite set_sum_union by set_solver. by rewrite set_sum_singleton. Qed.

Lemma set_sum_remove x s : x ∈ s -> set_sum f s = f x + set_sum f (s ∖ {[x]}).
Proof.
  intros H. rewrite <- set_sum_insert by set_solver. f_equal. by rewrite <- union_difference_singleton_L.
Qed.

Lemma set_sum_difference s1 s2 : s2 ⊆ s1 -> set_sum f (s1 ∖ s2) = set_sum f s1 - set_sum f s2.
Proof.
  intros H. rewrite (union_difference_L s2 s1) at 2 by done. rewrite set_sum_union by set_solver. lia.
Qed.

Lemma set_sum_nonneg s : (forall x, x ∈ s -> 0 <= f x) -> 0 <= set_sum f s.
Proof.
  induction s as [|x s Hx IH] using set_ind_L; intros H; [by rewrite set_sum_empty|].
  rewrite set_sum_insert by done. pose proof (H x ltac:(set_solver)).
  assert (0 <= set_sum f s) by (apply IH; intros; apply H; set_solver). lia.
Qed.

Lemma set_sum_subset s1 s2 : s1 ⊆ s2 -> (forall x, x ∈ s2 -> 0 <= f x) -> set_sum f s1 <= set_sum f s2.
Proof.
  intros Hs H. assert (0 <= set_sum f (s2 ∖ s1)) as Hd by (apply set_sum_nonneg; set_solver).
  rewrite set_sum_difference in Hd by done. lia.
Qed.
End set_sum.

Lemma set_sum_ext f g s : (forall x, x ∈ s -> f x = g x) -> set_sum f s = set_sum g s.
Proof.
  induction s as [|x s Hx IH] using set_ind_L; intros H; [by rewrite !set_sum_empty|].
  rewrite !set_sum_insert, IH, H by set_solver. done.
Qed.

Lemma set_sum_one s : set_sum (fun _ => 1) s = Z.of_nat (size s).
Proof.
  induction s as [|x s Hx IH] using set_ind_L; [by rewrite set_sum_empty, size_empty|].
  rewrite set_sum_insert, size_union, size_singleton, IH by set_solver. lia.
Qed.

Lemma set_sum_shift f g d s : (forall x, x ∈ s -> g x = f x + d) -> set_sum g s = set_sum f s + d * Z.of_nat (size s).
Proof.
  rewrite <- set_sum_one.
  induction s as [|x s Hx IH] using set_ind_L; intros H; [by rewrite !set_sum_empty, Z.mul_0_r|].
  rewrite !set_sum_insert, IH, H by set_solver. lia.
Qed.

Lemma size_insert (x : uint256) (s : gset uint256) : x ∉ s -> size ({[x]} ∪ s) = S (size s).
Proof. intros H. rewrite (size_union {[x]} s), (size_singleton x) by set_solver. done. Qed.

Lemma size_remove (x : uint256) (s : gset uint256) : x ∈ s -> size s = S (size (s ∖ {[x]})).
Proof. intros H. rewrite <- (size_insert x) by set_solver. f_equal. by apply union_difference_singleton_L. Qed.

(** ** The order of a loop over a set *)

Lemma set_elems_perm s : set_elems s ≡ₚ elements s.
Proof. apply merge_sort_Permutation. Qed.

Lemma elem_of_set_elems s x : x ∈ set_elems s <-> x ∈ s.
Proof. rewrite set_elems_perm. apply elem_of_elements. Qed.

Lemma set_elems_NoDup s : NoDup (set_elems s).
Proof. rewrite set_elems_perm. apply NoDup_elements. Qed.

Lemma set_elems_nil s : set_elems s = [] -> s = ∅.
Proof.
  intros H. apply set_eq. intros x. rewrite <- elem_of_set_elems, H. set_solver.
Qed.

Lemma set_elems_cons s x l : set_elems s = x :: l -> x ∈ s.
Proof. intros H. rewrite <- elem_of_set_elems, H. set_solver. Qed.

Lemma set_elems_empty : set_elems ∅ = [].
Proof. unfold set_elems. by rewrite elements_empty. Qed.

Lemma tc_first {A} (R : relation A) x z : tc R x z <-> exists y, R x y /\ rtc R y z.
Proof.
  split; [|intros (y & Hxy & Hyz); eapply tc_rtc_r; [by apply tc_once|done]].
  intros [? ? H|? y ? H Hr]; [eexists; split; [done|apply rtc_refl]|]. exists y. split; [done|by apply tc_rtc].
Qed.

(** ** Work lists

    Both traversals move entries from a stage to a result and stage the
    successors they have not seen. *)

Section worklist.
Context (R : relation uint256) (start done0 dom : gset uint256).

(** What is staged or done is reachable, and the successors of what is done
    are staged or done. *)
Record worklist (stage done : gset uint256) : Prop := {
  wl_kept : done0 ⊆ done;
  wl_start : start ⊆ stage ∪ done;
  wl_sound : forall x, x ∈ stage ∪ done -> x ∈ done0 \/ exists a, a ∈ start /\ rtc R a x;
  wl_closed : forall x y, x ∈ done -> R x y -> y ∈ stage ∪ done;
  wl_fresh : stage ## done;
  wl_dom : stage ⊆ dom
}.

Lemma worklist_init :
  (forall x y, x ∈ done0 -> R x y -> y ∈ done0) -> start ## done0 -> start ⊆ dom -> worklist start done0.
Proof.
  intros Hc Hd Hs. constructor; [set_solver|set_solver| | |done|done].
  - intros x [Hx|Hx]%elem_of_union; [right|by left]. exists x. split; [done|apply rtc_refl].
  - intros x y Hx Hy. specialize (Hc x y Hx Hy). set_solver.
Qed.

Lemma worklist_step stage done it stage' :
  worklist stage done -> it ∈ stage -> (forall y, R it y -> y ∈ dom) ->
  (forall x, x ∈ stage' <-> x ∈ stage ∖ {[it]} \/ (R it x /\ x ∉ {[it]} ∪ done)) ->
  worklist stage' ({[it]} ∪ done).
Proof.
  intros [Hk Hst Hso Hcl Hfr Hdo] Hit Hsucc Hs'.
  constructor.
  - set_solver.
  - intros x Hx%Hst. destruct (decide (x ∈ {[it]} ∪ done)); [set_solver|].
    apply elem_of_union_l, Hs'. left. set_solver.
  - intros x [Hx|Hx]%elem_of_union; [apply Hs' in Hx as [Hx|[Hr Hx]]|]; [apply Hso; set_solver| |apply Hso; set_solver].
    destruct (Hso it) as [Hi|(a & Ha & Hai)]; [set_solver| |right; exists a; split; [done|by eapply rtc_r]].
    exfalso. apply Hk in Hi. set_solver.
  - intros x y Hx Hy. destruct (decide (y ∈ {[it]} ∪ done)); [set_solver|].
    apply elem_of_union_l, Hs'. apply elem_of_union in Hx as [->%elem_of_singleton|Hx]; [by right|].
    left. specialize (Hcl x y Hx Hy). set_solver.
  - intros x Hx Hd. apply Hs' in Hx as [Hx|[_ Hx]]; set_solver.
  - intros x Hx. apply Hs' in Hx as [Hx|[Hr _]]; [apply Hdo; set_solver|by apply Hsucc].
Qed.

Lemma worklist_done done :
  worklist ∅ done -> forall x, x ∈ done <-> x ∈ done0 \/ exists a, a ∈ start /\ rtc R a x.
Proof.
  intros [Hk Hst Hso Hcl _ _] x. split; [intros Hx; apply Hso; set_solver|].
  intros [Hx|(a & Ha & Hr)]; [by apply Hk|]. assert (a ∈ done) as Had by set_solver. clear Ha.
  induction Hr as [|a b c Hab _ IH]; [done|]. apply IH. specialize (Hcl a b Had Hab). set_solver.
Qed.

(** A round takes one entry out of those that are left. *)
Lemma worklist_measure stage done it fuel :
  worklist stage done -> it ∈ stage -> (size (dom ∖ done) <= S fuel)%nat -> (size (dom ∖ ({[it]} ∪ done)) <= fuel)%nat.
Proof.
  intros [_ _ _ _ Hfr Hdo] Hit Hf.
  assert (size (dom ∖ ({[it]} ∪ done)) < size (dom ∖ done))%nat; [|lia].
  apply subset_size. split; [set_solver|]. intros H. assert (it ∈ dom ∖ done) by set_solver. set_solver.
Qed.

(** So the closure of a set under a relation with finitely many successors is a set. *)
Lemma worklist_exists n : (forall x, x ∈ dom -> exists s : gset uint256, forall y, R x y <-> y ∈ s) ->
  (forall x y, x ∈ dom -> R x y -> y ∈ dom) ->
  forall stage done, worklist stage done -> (size (dom ∖ done) <= n)%nat ->
  exists S : gset uint256, forall x, x ∈ S <-> x ∈ done0 \/ exists a, a ∈ start /\ rtc R a x.
Proof.
  intros Hs Hd. induction n as [|n IH]; intros stage done Hw Hn;
    (destruct (set_elems stage) as [|it l] eqn:E; [apply set_elems_nil in E as ->; exists done; by apply worklist_done|]);
    apply set_elems_cons in E; pose proof (wl_dom _ _ Hw it E) as Hit.
  - pose proof (wl_fresh _ _ Hw it E). assert (dom ∖ done ≡ ∅) by (apply size_empty_inv; lia). set_solver.
  - destruct (Hs it Hit) as [s Hsucc]. eapply (IH (stage ∖ {[it]} ∪ (s ∖ ({[it]} ∪ done)))); [|by eapply worklist_measure].
    eapply worklist_step; [done..| |]; [intros; by eapply Hd|]. intros x. rewrite Hsucc. set_solver.
Qed.
End worklist.

Lemma closure_exists (R : relation uint256) (start dom : gset uint256) :
  (forall x, x ∈ dom -> exists s : gset uint256, forall y, R x y <-> y ∈ s) ->
  (forall x y, x ∈ dom -> R x y -> y ∈ dom) -> start ⊆ dom ->
  exists S : gset uint256, forall x, x ∈ S <-> exists a, a ∈ start /\ rtc R a x.
Proof.
  intros Hs Hd Hst. destruct (worklist_exists R start ∅ dom (size dom) Hs Hd start ∅) as [S HS].
  - apply worklist_init; set_solver.
  - apply subseteq_size. set_solver.
  - exists S. intros x. rewrite HS. set_solver.
Qed.

(** ** The links as relations *)

Definition child (P : CTxMemPool) : relation uint256 :=
  fun p c => exists l, mapLinks P !! p = Some l /\ c ∈ children l.
Definition parent (P : CTxMemPool) : relation uint256 :=
  fun c p => exists l, mapLinks P !! c = Some l /\ p ∈ parents l.

Lemma elem_of_stage_new seen stage s x : x ∈ stage_new seen stage s <-> x ∈ stage \/ (x ∈ s /\ x ∉ seen).
Proof.
  unfold stage_new. rewrite <- (elem_of_set_elems s). generalize (set_elems s) as l. intros l. revert stage.
  induction l as [|y l IH]; intros stage; cbn; [set_solver|].
  rewrite IH. destruct (decide (y ∈ seen)); set_solver.
Qed.

(** The pool has links for every child and parent. *)
Definition linked (P : CTxMemPool) : Prop :=
  (forall p c, child P p c -> is_Some (mapLinks P !! c)) /\ (forall c p, parent P c p -> is_Some (mapLinks P !! p)).

Lemma descend_correct P start done0 fuel : linked P ->
  forall stage done, worklist (child P) start done0 (dom (mapLinks P)) stage done ->
  (size (dom (mapLinks P) ∖ done) <= fuel)%nat ->
  exists S, descend fuel P stage done = Some S /\
            forall x, x ∈ S <-> x ∈ done0 \/ exists a, a ∈ start /\ rtc (child P) a x.
Proof.
  intros [Hl _]. induction fuel as [|fuel IH]; intros stage done Hw Hf; cbn [descend];
    destruct (set_elems stage) as [|it rest] eqn:Es.
  - apply set_elems_nil in Es as ->. eexists; split; [done|]. by eapply worklist_done.
  - exfalso. apply set_elems_cons in Es. pose proof (wl_dom _ _ _ _ _ _ Hw it Es).
    pose proof (wl_fresh _ _ _ _ _ _ Hw it Es).
    assert (dom (mapLinks P) ∖ done ≡ ∅) by (apply size_empty_inv; lia). set_solver.
  - apply set_elems_nil in Es as ->. eexists; split; [done|]. by eapply worklist_done.
  - apply set_elems_cons in Es. pose proof (wl_dom _ _ _ _ _ _ Hw it Es) as Hd.
    apply elem_of_dom in Hd as [l Hlk]. unfold GetMemPoolChildren. rewrite Hlk. cbn [fmap option_fmap option_map mbind option_bind].
    apply IH; [|by eapply worklist_measure].
    eapply worklist_step; [done..| |].
    + intros y Hy. apply elem_of_dom. eauto.
    + intros x. rewrite elem_of_stage_new. unfold child. rewrite Hlk. naive_solver.
Qed.

(** [CalculateDescendants] adds an entry and everything that depends on it to a
    set that is closed already. *)
Lemma CalculateDescendants_spec P it done0 : linked P -> is_Some (mapLinks P !! it) ->
  (forall x y, x ∈ done0 -> child P x y -> y ∈ done0) ->
  exists S, CalculateDescendants P it done0 = Some S /\ forall x, x ∈ S <-> x ∈ done0 \/ rtc (child P) it x.
Proof.
  intros Hl Hit Hc. unfold CalculateDescendants.
  assert (size (dom (mapLinks P) ∖ done0) <= size (mapLinks P))%nat as Hf
    by (rewrite <- size_dom; apply subseteq_size; set_solver).
  destruct (decide (it ∈ done0)) as [Hin|Hin].
  - destruct (descend_correct P ∅ done0 _ Hl ∅ done0 ltac:(apply worklist_init; set_solver) Hf) as (S & HS & Hx).
    exists S. split; [done|]. intros x. rewrite Hx. split; [set_solver|]. intros [|Hr]; [by left|left].
    clear Hx HS Hit. induction Hr as [|a b c Hab _ IH]; [done|]. apply IH. by apply (Hc a).
  - destruct (descend_correct P {[it]} done0 (size (mapLinks P)) Hl {[it]} done0) as (S & HS & Hx); [|done|].
    + apply worklist_init; [done|set_solver|]. apply singleton_subseteq_l, elem_of_dom, Hit.
    + exists S. split; [done|]. intros x. rewrite Hx. set_solver.
Qed.

(** ** Ancestors *)

(** The successors of the inner loop are staged, and the limit is checked with all of them. *)
Lemma stage_parents_spec limit anc l stage :
  exists new, (forall x, x ∈ new <-> x ∈ stage \/ (x ∈ l /\ x ∉ anc)) /\
    stage_parents limit anc l stage =
      if bool_decide (l <> []) && (limit <? Z.of_nat (size new) + Z.of_nat (size anc) + 1) then None else Some new.
Proof.
  revert stage. induction l as [|y l IH]; intros stage; cbn [stage_parents].
  - exists stage. split; [set_solver|]. done.
  - set (stage1 := if decide (y ∈ anc) then stage else {[y]} ∪ stage).
    destruct (IH stage1) as (new & Hn & ->). exists new. split.
    { intros x. rewrite Hn. subst stage1. destruct (decide (y ∈ anc)); set_solver. }
    rewrite (bool_decide_true (y :: l <> [])) by done. cbn [andb].
    assert (size stage1 <= size new)%nat as Hs by (apply subseteq_size; intros x Hx; apply Hn; by left).
    destruct (limit <? Z.of_nat (size stage1) + Z.of_nat (size anc) + 1) eqn:E1.
    { apply Z.ltb_lt in E1. destruct (Z.ltb_spec limit (Z.of_nat (size new) + Z.of_nat (size anc) + 1)); [done|lia]. }
    destruct l as [|z l]; [|done]. cbn. destruct (Z.ltb_spec limit (Z.of_nat (size new) + Z.of_nat (size anc) + 1)); [|done].
    exfalso. apply Z.ltb_ge in E1. assert (size new <= size stage1)%nat; [|lia].
    apply subseteq_size. intros x [|[Hx _]]%Hn; [done|]. by apply not_elem_of_nil in Hx.
Qed.

(** What an entry of the pool counts for; nothing when there is none. *)
Definition of_entry (f : CTxMemPoolEntry -> Z) (P : CTxMemPool) (x : uint256) : Z :=
  match mapTx P !! x with Some e => f e | None => 0 end.
Definition tx_size : CTxMemPool -> uint256 -> Z := of_entry GetTxSize.

(** The limits for a set of ancestors and a new transaction of a size. *)
Definition within_limits (P : CTxMemPool) (L : Limits) (size : Z) (S : gset uint256) : Prop :=
  S = ∅ \/
  (Z.of_nat (base.size S) + 1 <= limitAncestorCount L /\ size + set_sum (tx_size P) S <= limitAncestorSize L /\
   forall a, a ∈ S -> of_entry nSizeWithDescendants P a + size <= limitDescendantSize L /\
                     of_entry nCountWithDescendants P a + 1 <= limitDescendantCount L).

(** The numbers of the pool are far from the width of their types. *)
Definition sized (P : CTxMemPool) (size : Z) : Prop :=
  0 < size /\ (forall a e, mapTx P !! a = Some e -> 0 < GetTxSize e) /\
  size + set_sum (tx_size P) (dom (mapTx P)) < 2 ^ 64 /\
  forall a e, mapTx P !! a = Some e -> 0 <= nSizeWithDescendants e /\ nSizeWithDescendants e + size < 2 ^ 64 /\
                                       0 <= nCountWithDescendants e < 2 ^ 64 - 1.

Lemma tx_size_nonneg P size x : sized P size -> 0 <= tx_size P x.
Proof. intros (_ & H & _). unfold tx_size, of_entry. destruct (mapTx P !! x) eqn:E; [apply Z.lt_le_incl; by eapply H|lia]. Qed.

(** Every parent is an entry with links. *)
Definition parents_known (P : CTxMemPool) : Prop :=
  forall c, is_Some (mapTx P !! c) -> is_Some (mapLinks P !! c) /\ forall p, parent P c p -> is_Some (mapTx P !! p).

Section ascend.
Context (P : CTxMemPool) (L : Limits) (size : Z) (start S : gset uint256).
Hypothesis Hsz : sized P size.
Hypothesis Hpk : parents_known P.
Hypothesis HS : forall x, x ∈ S <-> exists a, a ∈ start /\ rtc (parent P) a x.

(** The checks of the entries that are done. *)
Definition checked (stage done : gset uint256) : Prop :=
  done = ∅ \/
  (size + set_sum (tx_size P) done <= limitAncestorSize L /\
   forall a, a ∈ done -> of_entry nSizeWithDescendants P a + size <= limitDescendantSize L /\
                        of_entry nCountWithDescendants P a + 1 <= limitDescendantCount L).

Definition counted (stage done : gset uint256) : Prop :=
  stage ∪ done = ∅ \/ Z.of_nat (base.size stage) + Z.of_nat (base.size done) + 1 <= limitAncestorCount L.

Lemma worklist_inside stage done :
  worklist (parent P) start ∅ (dom (mapTx P)) stage done -> stage ∪ done ⊆ S.
Proof. intros Hw x Hx. apply HS. destruct (wl_sound _ _ _ _ _ _ Hw x Hx); [set_solver|done]. Qed.

Lemma sum_below done : done ⊆ dom (mapTx P) -> 0 <= size + set_sum (tx_size P) done < 2 ^ 64.
Proof.
  intros Hd. destruct (Hsz) as (H0 & _ & Hs & _).
  pose proof (set_sum_nonneg (tx_size P) done (fun x _ => tx_size_nonneg P size x Hsz)).
  pose proof (set_sum_subset (tx_size P) done _ Hd (fun x _ => tx_size_nonneg P size x Hsz)). lia.
Qed.

Lemma limits_inside stage done it e : stage ∪ done ⊆ S -> it ∈ stage -> mapTx P !! it = Some e ->
  within_limits P L size S ->
  Z.of_nat (base.size S) + 1 <= limitAncestorCount L /\
  nSizeWithDescendants e + size <= limitDescendantSize L /\ nCountWithDescendants e + 1 <= limitDescendantCount L /\
  size + set_sum (tx_size P) ({[it]} ∪ done) <= limitAncestorSize L.
Proof.
  intros Hin Es He [->|(Hc & Hs & Ha)]; [set_solver|]. split; [done|].
  destruct (Ha it) as [H1 H2]; [set_solver|]. unfold of_entry in H1, H2. rewrite He in H1, H2. do 2 (split; [done|]).
  pose proof (set_sum_subset (tx_size P) ({[it]} ∪ done) S ltac:(set_solver) (fun x _ => tx_size_nonneg P size x Hsz)). lia.
Qed.

(** Nothing is left to visit: the ancestors are those already checked. *)
Lemma ascend_end done : worklist (parent P) start ∅ (dom (mapTx P)) ∅ done ->
  done = S /\ (checked ∅ done -> counted ∅ done -> within_limits P L size S).
Proof.
  intros Hw. assert (done = S) as -> by (apply set_eq; intros x; rewrite HS, (worklist_done _ _ _ _ _ Hw); set_solver).
  split; [done|]. intros [->|[Hc Hc']] Hn; [by left|].
  destruct Hn as [Hn|Hn]; [left; set_solver|right; rewrite size_empty in Hn; split; [lia|done]].
Qed.

(** Staging the parents of [it] beyond the limit shows that the limits fail. *)
Lemma staged_too_many new done : worklist (parent P) start ∅ (dom (mapTx P)) new done ->
  limitAncestorCount L < Z.of_nat (base.size new) + Z.of_nat (base.size done) + 1 ->
  limitAncestorCount L < Z.of_nat (base.size S) + 1.
Proof.
  intros Hw Hlt. pose proof (subseteq_size _ _ (worklist_inside _ _ Hw)) as Hin.
  rewrite size_union in Hin by (apply (wl_fresh _ _ _ _ _ _ Hw)). lia.
Qed.

(** The checks of [it] extend those of the entries already done. *)
Lemma checked_step stage new done it e : mapTx P !! it = Some e ->
  nSizeWithDescendants e + size <= limitDescendantSize L -> nCountWithDescendants e + 1 <= limitDescendantCount L ->
  size + set_sum (tx_size P) ({[it]} ∪ done) <= limitAncestorSize L ->
  checked stage done -> checked new ({[it]} ∪ done).
Proof.
  intros He H1 H2 H3 Hck. right. split; [done|].
  intros a [->%elem_of_singleton|Ha]%elem_of_union; [unfold of_entry; by rewrite He|].
  destruct Hck as [->|[_ Hck]]; [set_solver|by apply Hck].
Qed.

(** An entry without parents moves from the stage to the entries done. *)
Lemma counted_step stage done it : it ∈ stage -> it ∉ done -> counted stage done -> counted (stage ∖ {[it]}) ({[it]} ∪ done).
Proof.
  intros Hi Hd [Hct|Hct]; [set_solver|]. right.
  rewrite size_insert by done. rewrite (size_remove it stage) in Hct by done. lia.
Qed.

Lemma ascend_correct fuel : forall stage done total,
  worklist (parent P) start ∅ (dom (mapTx P)) stage done -> done ⊆ dom (mapTx P) ->
  total = size + set_sum (tx_size P) done ->
  (base.size (dom (mapTx P) ∖ done) <= fuel)%nat ->
  exists r, ascend fuel P L size total stage done = Some r /\
    (within_limits P L size S -> r = inr S) /\
    (checked stage done -> counted stage done -> forall S', r = inr S' -> S' = S /\ within_limits P L size S).
Proof.
  induction fuel as [|fuel IH]; intros stage done total Hw Hdd -> Hf; cbn [ascend];
    destruct (set_elems stage) as [|it rest] eqn:Es.
  1,3: apply set_elems_nil in Es as ->; destruct (ascend_end _ Hw) as [-> Hend]; exists (inr S);
    split; [done|]; split; [done|]; intros Hc Hn S' [= <-]; split; [done|auto].
  { exfalso. apply set_elems_cons in Es. pose proof (wl_dom _ _ _ _ _ _ Hw it Es).
    pose proof (wl_fresh _ _ _ _ _ _ Hw it Es).
    assert (dom (mapTx P) ∖ done ≡ ∅) by (apply size_empty_inv; lia). set_solver. }
  apply set_elems_cons in Es. pose proof (wl_dom _ _ _ _ _ _ Hw it Es) as Hd.
  pose proof (wl_fresh _ _ _ _ _ _ Hw it Es) as Hnd.
  pose proof (worklist_inside _ _ Hw) as Hin.
  apply elem_of_dom in Hd as [e He]. rewrite He. cbn [mbind option_bind].
  assert (tx_size P it = GetTxSize e) as Hte by (unfold tx_size, of_entry; by rewrite He).
  assert (size + set_sum (tx_size P) done + GetTxSize e = size + set_sum (tx_size P) ({[it]} ∪ done)) as Hsum
    by (rewrite set_sum_insert by done; lia).
  assert ({[it]} ∪ done ⊆ dom (mapTx P)) as Hdd' by (apply union_subseteq; split; [|done]; apply singleton_subseteq_l, elem_of_dom; eauto).
  rewrite Hsum, (u64_small (size + _)) by (apply sum_below, Hdd').
  destruct Hsz as (H0 & _ & _ & Hws). destruct (Hws it e He) as (Hd0 & Hd1 & Hd2).
  rewrite !u64_small by lia.
  pose proof (limits_inside _ _ it e Hin Es He) as Hlim.
  destruct (Z.ltb_spec (limitDescendantSize L) (nSizeWithDescendants e + size)) as [Hl1|Hl1];
    [eexists; split; [done|]; split; [intros Hw'; apply Hlim in Hw'; lia|done]|].
  destruct (Z.ltb_spec (limitDescendantCount L) (nCountWithDescendants e + 1)) as [Hl2|Hl2];
    [eexists; split; [done|]; split; [intros Hw'; apply Hlim in Hw'; lia|done]|].
  destruct (Z.ltb_spec (limitAncestorSize L) (size + set_sum (tx_size P) ({[it]} ∪ done))) as [Hl3|Hl3];
    [eexists; split; [done|]; split; [intros Hw'; apply Hlim in Hw'; lia|done]|].
  destruct (Hpk it ltac:(eauto)) as [[l Hlk] Hpar]. unfold GetMemPoolParents. rewrite Hlk.
  cbn [fmap option_fmap option_map mbind option_bind].
  destruct (stage_parents_spec (limitAncestorCount L) ({[it]} ∪ done) (set_elems (parents l)) (stage ∖ {[it]}))
    as (new & Hnew & ->).
  assert (worklist (parent P) start ∅ (dom (mapTx P)) new ({[it]} ∪ done)) as Hw'.
  { eapply worklist_step; [done..| |].
    - intros y Hy. by apply elem_of_dom, Hpar.
    - intros x. rewrite Hnew, elem_of_set_elems. unfold parent. rewrite Hlk. naive_solver. }
  destruct (bool_decide _ && _) eqn:Elim.
  - eexists. split; [done|]. split; [|done]. intros Hwl. apply Hlim in Hwl as (Hwl & _).
    apply andb_true_iff in Elim as [_ Elim]. apply Z.ltb_lt, (staged_too_many _ _ Hw') in Elim. lia.
  - destruct (IH new ({[it]} ∪ done) _ Hw' Hdd' eq_refl) as (r & Hr & HA & HB); [by eapply worklist_measure|].
    exists r. split; [done|]. split; [done|]. intros Hck Hct. apply HB.
    + by eapply checked_step.
    + apply andb_false_iff in Elim as [Elim|Elim]; [|apply Z.ltb_ge in Elim; right; lia].
      apply bool_decide_eq_false in Elim. destruct (decide (set_elems (parents l) = [])) as [E0|]; [|done].
      assert (new = stage ∖ {[it]}) as -> by (apply set_eq; intros x; rewrite Hnew, E0; set_solver).
      by apply counted_step.
Qed.
End ascend.

(** ** Searching the parents *)

Definition in_pool_inputs (P : CTxMemPool) (vin : list COutPoint) : gset uint256 :=
  list_to_set (filter (fun h => exists_tx P h = true) (map prevout_hash vin)).

Lemma elem_of_in_pool_inputs P vin x :
  x ∈ in_pool_inputs P vin <-> is_Some (mapTx P !! x) /\ exists o, o ∈ vin /\ prevout_hash o = x.
Proof.
  unfold in_pool_inputs. rewrite elem_of_list_to_set, list_elem_of_filter, list_elem_of_fmap.
  unfold exists_tx. rewrite bool_decide_eq_true. naive_solver.
Qed.

Lemma search_parents_spec P limit vin acc :
  exists r, search_parents P limit vin acc = r /\
    let S := acc ∪ in_pool_inputs P vin in
    (in_pool_inputs P vin = ∅ \/ Z.of_nat (size S) + 1 <= limit -> r = inr S) /\
    (acc = ∅ \/ Z.of_nat (size acc) + 1 <= limit -> forall S', r = inr S' -> S' = S /\ (S = ∅ \/ Z.of_nat (size S) + 1 <= limit)).
Proof.
  eexists; split; [done|]. cbn zeta. revert acc. induction vin as [|o vin IH]; intros acc; cbn [search_parents].
  - replace (acc ∪ in_pool_inputs P []) with acc by set_solver. split; [done|]. intros H S' [= <-]. done.
  - assert (in_pool_inputs P (o :: vin) =
            (if exists_tx P (prevout_hash o) then {[prevout_hash o]} else ∅) ∪ in_pool_inputs P vin) as ->.
    { unfold in_pool_inputs. cbn [map]. rewrite filter_cons.
      destruct (exists_tx P (prevout_hash o)); cbn; [done|set_solver]. }
    destruct (exists_tx P (prevout_hash o)).
    + set (acc1 := {[prevout_hash o]} ∪ acc). destruct (IH acc1) as [HA HB].
      replace (acc ∪ ({[prevout_hash o]} ∪ in_pool_inputs P vin)) with (acc1 ∪ in_pool_inputs P vin) by set_solver.
      assert (size acc1 <= size (acc1 ∪ in_pool_inputs P vin))%nat by (apply subseteq_size; set_solver).
      destruct (Z.ltb_spec limit (Z.of_nat (size acc1) + 1)).
      * split; [|done]. intros [Hn|Hn]; [set_solver|lia].
      * split; [|intros _; apply HB; by right]. intros [Hn|Hn]; [set_solver|]. apply HA. by right.
    + replace (∅ ∪ in_pool_inputs P vin) with (in_pool_inputs P vin) by set_solver. apply IH.
Qed.

(** ** What [CalculateMemPoolAncestors] computes *)

Lemma sized_count P size s : sized P size -> s ⊆ dom (mapTx P) -> Z.of_nat (base.size s) + 1 <= 2 ^ 64 - 1.
Proof.
  intros (H0 & Hp & Hs & _) Hd. rewrite <- set_sum_one.
  assert (set_sum (fun _ => 1) s <= set_sum (tx_size P) (dom (mapTx P))); [|lia].
  assert (forall x, x ∈ dom (mapTx P) -> 1 <= tx_size P x) as H1.
  { intros x [e He]%elem_of_dom. unfold tx_size, of_entry. rewrite He. specialize (Hp x e He). lia. }
  transitivity (set_sum (tx_size P) s); [|apply set_sum_subset; [done|]; intros; specialize (H1 x); naive_solver lia].
  clear Hs. induction s as [|x s Hx IH] using set_ind_L; [by rewrite !set_sum_empty|].
  rewrite !set_sum_insert by done. specialize (H1 x ltac:(set_solver)). assert (s ⊆ dom (mapTx P)) as Hd' by set_solver.
  specialize (IH Hd'). lia.
Qed.

Lemma ancestor_closure P start : parents_known P -> start ⊆ dom (mapTx P) ->
  exists S, (forall x, x ∈ S <-> exists a, a ∈ start /\ rtc (parent P) a x) /\ S ⊆ dom (mapTx P) /\ (S = ∅ <-> start = ∅).
Proof.
  intros Hpk Hst. destruct (closure_exists (parent P) start (dom (mapTx P))) as [S HS]; [..|done|].
  - intros x Hx%elem_of_dom. destruct (Hpk x Hx) as [[l Hl] _]. exists (parents l). intros y. unfold parent. rewrite Hl. naive_solver.
  - intros x y Hx%elem_of_dom Hy. apply elem_of_dom. by apply (Hpk x Hx).
  - exists S. split; [done|]. split.
    + intros x (a & Ha & Hr)%HS. apply Hst in Ha. clear HS.
      induction Hr as [|a b c Hab _ IH]; [done|]. apply IH. apply elem_of_dom in Ha. apply elem_of_dom. by apply (Hpk a Ha).
    + split; intros ->; [|set_solver]. apply set_eq. intros x. split; [|set_solver]. intros Hx.
      exfalso. apply (not_elem_of_empty (C := gset uint256) x), HS. exists x. split; [done|apply rtc_refl].
Qed.

(** From a set of parents that may have been checked already. *)
Lemma ascend_from P L size start : parents_known P -> sized P size -> start ⊆ dom (mapTx P) ->
  exists S, (forall x, x ∈ S <-> exists a, a ∈ start /\ rtc (parent P) a x) /\ S ⊆ dom (mapTx P) /\ (S = ∅ <-> start = ∅) /\
  exists r, ascend (base.size (mapTx P)) P L size size start ∅ = Some r /\
    (within_limits P L size S -> r = inr S) /\
    (start = ∅ \/ Z.of_nat (base.size start) + 1 <= limitAncestorCount L ->
     forall S', r = inr S' -> S' = S /\ within_limits P L size S).
Proof.
  intros Hpk Hsz Hst. destruct (ancestor_closure P start Hpk Hst) as (S & HS & Hd & He). exists S. do 3 (split; [done|]).
  destruct (ascend_correct P L size start S Hsz Hpk HS (base.size (mapTx P)) start ∅ size) as (r & Hr & HA & HB).
  - by apply worklist_init; set_solver.
  - set_solver.
  - rewrite set_sum_empty. lia.
  - rewrite <- size_dom. apply subseteq_size. set_solver.
  - exists r. split; [done|]. split; [done|]. intros Hc. apply HB; [by left|].
    destruct Hc as [->|Hc]; [left; set_solver|right]. rewrite size_empty. lia.
Qed.

Lemma in_pool_inputs_dom P vin : in_pool_inputs P vin ⊆ dom (mapTx P).
Proof. intros x [Hx _]%elem_of_in_pool_inputs. by apply elem_of_dom. Qed.

Lemma ancestors_spec P entry L : parents_known P -> sized P (GetTxSize entry) ->
  let start := in_pool_inputs P (ct_vin (e_tx entry)) in
  exists S, (forall x, x ∈ S <-> exists a, a ∈ start /\ rtc (parent P) a x) /\
  exists r, CalculateMemPoolAncestors P entry L true = Some r /\
    (within_limits P L (GetTxSize entry) S -> r = inr S) /\
    (forall S', r = inr S' -> S' = S /\ within_limits P L (GetTxSize entry) S).
Proof.
  intros Hpk Hsz start. destruct (ascend_from P L (GetTxSize entry) start Hpk Hsz) as (S & HS & Hd & He & r & Hr & HA & HB);
    [apply in_pool_inputs_dom|].
  exists S. split; [done|]. unfold CalculateMemPoolAncestors. cbn [mbind option_bind].
  destruct (search_parents_spec P (limitAncestorCount L) (ct_vin (e_tx entry)) ∅) as (r0 & Hr0 & HA0 & HB0).
  rewrite union_empty_l_L in HA0, HB0. fold start in HA0, HB0. rewrite Hr0. clear Hr0.
  assert (start ⊆ S) as Hsub by (intros x Hx; apply HS; exists x; split; [done|apply rtc_refl]).
  assert (within_limits P L (GetTxSize entry) S -> r0 = inr start) as HA1.
  { intros [HS0|(Hc & _)]; apply HA0; [left; by apply He|right]. pose proof (subseteq_size _ _ Hsub). lia. }
  destruct r0 as [err|start'].
  - exists (inl err). split; [done|]. split; [|done]. intros Hw. by specialize (HA1 Hw).
  - destruct (HB0 ltac:(by left) start' eq_refl) as [-> Hc]. exists r. split; [done|]. split; [done|]. by apply HB.
Qed.

(** Without limits the ancestors are there, searched or linked. *)
Lemma no_limits P size S : sized P size -> S ⊆ dom (mapTx P) -> within_limits P nNoLimit size S.
Proof.
  intros Hsz Hd. right. cbn [limitAncestorCount limitAncestorSize limitDescendantSize limitDescendantCount nNoLimit].
  split; [by eapply sized_count|]. pose proof (sum_below P size Hsz S Hd). split; [lia|].
  intros a Ha%Hd%elem_of_dom. destruct Ha as [e He]. unfold of_entry. rewrite He.
  destruct Hsz as (_ & _ & _ & Hw). specialize (Hw a e He). lia.
Qed.

Lemma all_ancestors_search P entry : parents_known P -> sized P (GetTxSize entry) ->
  exists S, all_ancestors P entry true = Some S /\ S ⊆ dom (mapTx P) /\
    forall x, x ∈ S <-> exists a, a ∈ in_pool_inputs P (ct_vin (e_tx entry)) /\ rtc (parent P) a x.
Proof.
  intros Hpk Hsz. destruct (ancestors_spec P entry nNoLimit Hpk Hsz) as (S & HS & r & Hr & HA & _).
  destruct (ancestor_closure P _ Hpk (in_pool_inputs_dom P (ct_vin (e_tx entry)))) as (S' & HS' & Hd & _).
  assert (S' = S) as -> by (apply set_eq; intros x; by rewrite HS', HS).
  exists S. unfold all_ancestors. rewrite Hr. cbn. rewrite HA by (by apply no_limits). done.
Qed.

Lemma all_ancestors_linked P entry l : parents_known P -> sized P (GetTxSize entry) ->
  let t := ct_hash (e_tx entry) in
  is_Some (mapTx P !! t) -> mapLinks P !! t = Some l ->
  exists S, all_ancestors P entry false = Some S /\ S ⊆ dom (mapTx P) /\ forall x, x ∈ S <-> tc (parent P) t x.
Proof.
  intros Hpk Hsz t Ht Hl.
  assert (parents l ⊆ dom (mapTx P)) as Hst.
  { intros p Hp. apply elem_of_dom, (Hpk t Ht). exists l. done. }
  destruct (ascend_from P nNoLimit (GetTxSize entry) (parents l) Hpk Hsz Hst) as (S & HS & Hd & _ & r & Hr & HA & _).
  exists S. unfold all_ancestors, CalculateMemPoolAncestors, GetMemPoolParents. fold t. rewrite Hl.
  cbn [fmap option_fmap option_map mbind option_bind]. rewrite Hr, HA by (by apply no_limits).
  split; [done|]. split; [done|]. intros x. rewrite HS. split.
  - intros (a & Ha & Hax). apply tc_first. exists a. split; [by exists l|done].
  - intros (y & (l' & Hl' & Hy) & Hyx)%tc_first. simplify_eq. eauto.
Qed.
