(* ===== verification/MempoolSteps.v ===== *)
(** * The loops of the transaction pool

    What the loops over entries do to the maps of the pool, entry by entry: the
    updates of the statistics, of the links and of the memory in use. *)
From stdpp Require Import relations.
From S2P Require Import Prelude Transaction TxCheck Mempool MempoolGraph.

(** ** Loops *)

(** A loop that cannot fail keeps an invariant of what it has visited. *)
Lemma foldM_visit {A S} (f : S -> A -> option S) (Inv : list A -> S -> Prop) l s :
  Inv [] s ->
  (forall done x rest s, l = done ++ x :: rest -> Inv done s -> exists s', f s x = Some s' /\ Inv (done ++ [x]) s') ->
  exists s', foldM f s l = Some s' /\ Inv l s'.
Proof.
  intros H0 Hstep.
  enough (forall rest done s, l = done ++ rest -> Inv done s -> exists s', foldM f s rest = Some s' /\ Inv l s') as H
    by (by apply (H l [])).
  induction rest as [|x rest IH]; intros done s' E Hi; cbn; [subst; rewrite app_nil_r in *; eauto|].
  destruct (Hstep done x rest s' E Hi) as (s1 & -> & H1). cbn. apply (IH (done ++ [x])); [|done]. by rewrite E, <- app_assoc.
Qed.

(** [mapTx.modify] in a loop over different entries changes each of them once. *)
Lemma modify_loop f l P : NoDup l ->
  (forall t, t ∈ l -> exists e e', mapTx P !! t = Some e /\ f e = Some e') ->
  exists m, foldM (fun P a => modify P a f) P l = Some (with_mapTx m P) /\
            forall t, m !! t = if decide (t ∈ l) then mapTx P !! t ≫= f else mapTx P !! t.
Proof.
  revert P. induction l as [|a l IH]; intros P Hnd Hl; cbn [foldM].
  - exists (mapTx P). split; [by destruct P|]. intros t. by rewrite decide_False by apply not_elem_of_nil.
  - apply NoDup_cons in Hnd as [Ha Hnd]. destruct (Hl a ltac:(set_solver)) as (e & e' & He & Hf).
    assert (modify P a f = Some (with_mapTx (<[a := e']> (mapTx P)) P)) as Hmod
      by (unfold modify; rewrite He; cbn; by rewrite Hf).
    rewrite Hmod. cbn [mbind option_bind].
    destruct (IH (with_mapTx (<[a := e']> (mapTx P)) P) Hnd) as (m & Hm & Hmt).
    { intros t Ht. destruct (Hl t ltac:(set_solver)) as (et & et' & Het & Hft). exists et, et'. split; [|done].
      cbn. by rewrite lookup_insert_ne by set_solver. }
    exists m. split; [exact Hm|]. intros t. rewrite Hmt. cbn. destruct (decide (t = a)) as [->|Hne].
    + rewrite (decide_False (P := a ∈ l)), (decide_True (P := a ∈ a :: l)) by set_solver.
      rewrite lookup_insert_eq, He. cbn. by rewrite Hf.
    + rewrite lookup_insert_ne by done. destruct (decide (t ∈ l)), (decide (t ∈ a :: l)); set_solver.
Qed.

(** ** The statistics *)

(** What an entry is, apart from its statistics. *)
Definition core (e : CTxMemPoolEntry) :=
  (e_tx e, nFee e, nTxWeight e, nUsageSize e, e_nTime e, sigOpCost e, feeDelta e).
Definition desc_state (e : CTxMemPoolEntry) := (nCountWithDescendants e, nSizeWithDescendants e, nModFeesWithDescendants e).
Definition anc_state (e : CTxMemPoolEntry) :=
  (nCountWithAncestors e, nSizeWithAncestors e, nModFeesWithAncestors e, nSigOpCostWithAncestors e).

Lemma core_size e e' : core e' = core e -> GetTxSize e' = GetTxSize e.
Proof. intros [= ? ? Hw ? ? Hs ?]. unfold GetTxSize. by rewrite Hw, Hs. Qed.

Lemma core_fee e e' : core e' = core e -> GetModifiedFee e' = GetModifiedFee e.
Proof. intros [= ? Hf ? ? ? ? Hd]. unfold GetModifiedFee. by rewrite Hf, Hd. Qed.

(** Within their types, the statistics are moved by the given amounts. *)
Lemma UpdateDescendantState_ok sz fee cnt e :
  0 < nSizeWithDescendants e + sz < 2 ^ 63 -> 0 < nCountWithDescendants e + cnt < 2 ^ 63 ->
  exists e', UpdateDescendantState sz fee cnt e = Some e' /\ core e' = core e /\ anc_state e' = anc_state e /\
    vTxHashesIdx e' = vTxHashesIdx e /\
    desc_state e' = (nCountWithDescendants e + cnt, nSizeWithDescendants e + sz, nModFeesWithDescendants e + fee).
Proof.
  intros Hs Hc. unfold UpdateDescendantState. rewrite !u64_small, !i64_small by lia.
  rewrite !(proj2 (Z.ltb_lt _ _)) by lia. eexists. split; [done|]. done.
Qed.

Lemma UpdateAncestorState_ok sz fee cnt ops e :
  0 < nSizeWithAncestors e + sz < 2 ^ 63 -> 0 < nCountWithAncestors e + cnt < 2 ^ 63 ->
  - 2 ^ 31 <= ops < 2 ^ 31 -> 0 <= nSigOpCostWithAncestors e + ops < 2 ^ 31 ->
  exists e', UpdateAncestorState sz fee cnt ops e = Some e' /\ core e' = core e /\ desc_state e' = desc_state e /\
    vTxHashesIdx e' = vTxHashesIdx e /\
    anc_state e' = (nCountWithAncestors e + cnt, nSizeWithAncestors e + sz, nModFeesWithAncestors e + fee,
                    nSigOpCostWithAncestors e + ops).
Proof.
  intros Hs Hc Ho Ho'. unfold UpdateAncestorState. rewrite !u64_small, (i32_small ops), !i64_small by lia.
  rewrite i32_small by lia. rewrite !(proj2 (Z.ltb_lt _ _)), (proj2 (Z.leb_le _ _)) by lia. eexists. split; [done|]. done.
Qed.

(** ** The links *)

Lemma u64_add_l a b : u64 (u64 a + b) = u64 (a + b).
Proof. unfold u64. by rewrite Zplus_mod_idemp_l. Qed.

Lemma links_at_Some P x l : mapLinks P !! x = Some l -> links_at P x = l.
Proof. unfold links_at. by intros ->. Qed.

(** Adding to or removing from the sets of a link, once for each of different entries. *)
Definition add_child (c : uint256) (l : TxLinks) := mkLinks (parents l) ({[c]} ∪ children l).
Definition drop_child (c : uint256) (l : TxLinks) := mkLinks (parents l) (children l ∖ {[c]}).
Definition drop_parent (p : uint256) (l : TxLinks) := mkLinks (parents l ∖ {[p]}) (children l).

Lemma links_loop (step : CTxMemPool -> uint256 -> CTxMemPool) (g : TxLinks -> TxLinks) (d : Z) (l : list uint256)
    (ok : TxLinks -> Prop) P :
  (forall P x k, mapLinks P !! x = Some k -> ok k ->
     step P x = with_cachedInnerUsage (u64 (cachedInnerUsage P + d)) (with_mapLinks (<[x := g k]> (mapLinks P)) P)) ->
  NoDup l -> (forall x, x ∈ l -> exists k, mapLinks P !! x = Some k /\ ok k) ->
  exists m, foldl step P l = with_cachedInnerUsage (if decide (l = []) then cachedInnerUsage P
                                                   else u64 (cachedInnerUsage P + d * Z.of_nat (length l))) (with_mapLinks m P) /\
    forall x, m !! x = if decide (x ∈ l) then g <$> mapLinks P !! x else mapLinks P !! x.
Proof.
  intros Hstep. revert P. induction l as [|x l IH]; intros P Hnd Hl; cbn [foldl].
  - exists (mapLinks P). split; [by destruct P|]. intros y. by rewrite decide_False by apply not_elem_of_nil.
  - apply NoDup_cons in Hnd as [Hx Hnd]. destruct (Hl x ltac:(set_solver)) as (k & Hk & Hok).
    rewrite (Hstep P x k Hk Hok).
    destruct (IH (with_cachedInnerUsage (u64 (cachedInnerUsage P + d)) (with_mapLinks (<[x := g k]> (mapLinks P)) P)) Hnd)
      as (m & Hm & Hmt).
    { intros y Hy. destruct (Hl y ltac:(set_solver)) as (ky & Hky & Hoky). exists ky. split; [|done].
      cbn. by rewrite lookup_insert_ne by set_solver. }
    exists m. split.
    + rewrite Hm. cbn. destruct P; unfold with_cachedInnerUsage, with_mapLinks; cbn. f_equal.
      destruct l; cbn [length]; [by rewrite decide_True, Z.mul_1_r by done|]. rewrite decide_False by done.
      rewrite u64_add_l. f_equal. cbn [length]. lia.
    + intros y. rewrite Hmt. cbn. destruct (decide (y = x)) as [->|Hne].
      * rewrite (decide_False (P := x ∈ l)), (decide_True (P := x ∈ x :: l)) by set_solver.
        by rewrite lookup_insert_eq, Hk.
      * rewrite lookup_insert_ne by done. destruct (decide (y ∈ l)), (decide (y ∈ x :: l)); set_solver.
Qed.

Lemma UpdateChild_add c P x k : mapLinks P !! x = Some k -> c ∉ children k ->
  UpdateChild x c true P =
  with_cachedInnerUsage (u64 (cachedInnerUsage P + IncrementalDynamicUsage)) (with_mapLinks (<[x := add_child c k]> (mapLinks P)) P).
Proof. intros Hk Hc. unfold UpdateChild. rewrite (links_at_Some _ _ _ Hk), decide_False by done. done. Qed.

Lemma UpdateChild_drop c P x k : mapLinks P !! x = Some k -> c ∈ children k ->
  UpdateChild x c false P =
  with_cachedInnerUsage (u64 (cachedInnerUsage P + - IncrementalDynamicUsage)) (with_mapLinks (<[x := drop_child c k]> (mapLinks P)) P).
Proof. intros Hk Hc. unfold UpdateChild. rewrite (links_at_Some _ _ _ Hk), decide_True by done. done. Qed.

Lemma UpdateParent_drop p P x k : mapLinks P !! x = Some k -> p ∈ parents k ->
  UpdateParent x p false P =
  with_cachedInnerUsage (u64 (cachedInnerUsage P + - IncrementalDynamicUsage)) (with_mapLinks (<[x := drop_parent p k]> (mapLinks P)) P).
Proof. intros Hk Hp. unfold UpdateParent. rewrite (links_at_Some _ _ _ Hk), decide_True by done. done. Qed.

(** The memory in use is kept modulo the width of its type. *)
Lemma usage_loop c d (l : list uint256) : u64 c = c ->
  (if decide (l = []) then c else u64 (c + d * Z.of_nat (length l))) = u64 (c + d * Z.of_nat (length l)).
Proof. intros Hc. destruct l; [|by rewrite decide_False by done]. cbn. by rewrite Z.mul_0_r, Z.add_0_r, Hc. Qed.

Lemma length_set_elems s : length (set_elems s) = size s.
Proof. by rewrite set_elems_perm. Qed.

Lemma with_usage_id P : with_cachedInnerUsage (cachedInnerUsage P) P = P.
Proof. by destruct P. Qed.

Definition sign (add : bool) : Z := if add then 1 else -1.

(** [UpdateAncestorsOf] links an entry to its parents, or takes it away, and
    moves the statistics of the given ancestors. *)
Lemma UpdateAncestorsOf_shape add n Anc P e l :
  mapTx P !! n = Some e -> mapLinks P !! n = Some l -> 0 <= GetTxSize e < 2 ^ 63 -> u64 (cachedInnerUsage P) = cachedInnerUsage P ->
  (forall p, p ∈ parents l -> exists k, mapLinks P !! p = Some k /\ (n ∈ children k <-> add = false)) ->
  (forall a, a ∈ Anc -> exists ea, mapTx P !! a = Some ea /\ 0 < nSizeWithDescendants ea + sign add * GetTxSize e < 2 ^ 63 /\
                               0 < nCountWithDescendants ea + sign add < 2 ^ 63) ->
  exists m k, UpdateAncestorsOf add n Anc P =
      Some (with_mapTx m (with_cachedInnerUsage
        (u64 (cachedInnerUsage P + sign add * IncrementalDynamicUsage * Z.of_nat (size (parents l)))) (with_mapLinks k P))) /\
    (forall x, k !! x = if decide (x ∈ parents l) then (if add then add_child n else drop_child n) <$> mapLinks P !! x
                        else mapLinks P !! x) /\
    forall t, m !! t = if decide (t ∈ Anc)
                       then mapTx P !! t ≫= UpdateDescendantState (sign add * GetTxSize e) (sign add * GetModifiedFee e) (sign add)
                       else mapTx P !! t.
Proof.
  intros He Hl Hsz Hu Hp Ha. unfold UpdateAncestorsOf, GetMemPoolParents. rewrite Hl.
  cbn [fmap option_fmap option_map mbind option_bind].
  destruct (links_loop (fun P p => UpdateChild p n add P) (if add then add_child n else drop_child n)
              (sign add * IncrementalDynamicUsage) (set_elems (parents l)) (fun k => n ∈ children k <-> add = false) P)
    as (k & -> & Hk); [..|apply set_elems_NoDup| |].
  { intros P' x k' Hk' Hok. destruct add; unfold sign.
    - rewrite (UpdateChild_add n P' x k' Hk'), Z.mul_1_l by (intros H%Hok; done). done.
    - rewrite (UpdateChild_drop n P' x k' Hk') by (by apply Hok).
      by replace (-1 * IncrementalDynamicUsage) with (- IncrementalDynamicUsage) by lia. }
  { intros x Hx%elem_of_set_elems. by apply Hp. }
  rewrite usage_loop, length_set_elems by done. cbn [mapTx with_cachedInnerUsage with_mapLinks]. rewrite He. cbn [mbind option_bind].
  fold (sign add). rewrite i64_small by (destruct add; unfold sign; lia).
  match goal with |- context [foldM _ ?Q (set_elems Anc)] => set (P1 := Q) end.
  destruct (modify_loop (UpdateDescendantState (sign add * GetTxSize e) (sign add * GetModifiedFee e) (sign add))
              (set_elems Anc) P1) as (m & Hm & Hmt); [apply set_elems_NoDup| |].
  { intros t Ht%elem_of_set_elems. destruct (Ha t Ht) as (ea & Hea & H1 & H2).
    destruct (UpdateDescendantState_ok _ (sign add * GetModifiedFee e) _ _ H1 H2) as (e' & He' & _).
    exists ea, e'. split; [exact Hea|done]. }
  exists m, k. split; [exact Hm|]. split.
  - intros x. rewrite Hk. destruct (decide (x ∈ set_elems (parents l))) as [H|H]; rewrite elem_of_set_elems in H;
      [by rewrite decide_True|by rewrite decide_False].
  - intros t. rewrite Hmt. destruct (decide (t ∈ set_elems Anc)) as [H|H]; rewrite elem_of_set_elems in H;
      [by rewrite decide_True|by rewrite decide_False].
Qed.

(** The loop of [addUnchecked] over the transactions that are spent. *)
Lemma parents_loop n l P ps :
  NoDup l -> mapLinks P !! n = Some (mkLinks ps ∅) -> (forall x, x ∈ l -> x ∉ ps) -> u64 (cachedInnerUsage P) = cachedInnerUsage P ->
  let new := filter (fun x => exists_tx P x = true) l in
  foldl (fun P phash => if exists_tx P phash then UpdateParent n phash true P else P) P l =
  with_cachedInnerUsage (u64 (cachedInnerUsage P + IncrementalDynamicUsage * Z.of_nat (length new)))
    (with_mapLinks (<[n := mkLinks (list_to_set new ∪ ps) ∅]> (mapLinks P)) P).
Proof.
  revert P ps. induction l as [|x l IH]; intros P ps Hnd Hn Hps Hu; cbn [foldl].
  - cbn. rewrite union_empty_l_L, insert_id by done. rewrite Z.mul_0_r, Z.add_0_r, Hu. by destruct P.
  - apply NoDup_cons in Hnd as [Hx Hnd]. rewrite filter_cons. destruct (exists_tx P x) eqn:Ex.
    + rewrite decide_True by done. unfold UpdateParent. rewrite (links_at_Some _ _ _ Hn). cbn [parents children].
      rewrite decide_False by (apply Hps; set_solver).
      rewrite (IH _ ({[x]} ∪ ps)); [|done|cbn; by rewrite lookup_insert_eq|set_solver|apply u64_small, u64_range].
      destruct P; unfold with_cachedInnerUsage, with_mapLinks; cbn. f_equal.
      * rewrite u64_add_l. f_equal. unfold exists_tx. cbn. lia.
      * rewrite insert_insert_eq. f_equal. f_equal. unfold exists_tx. cbn. set_solver.
    + rewrite decide_False by congruence. apply IH; [done|done|set_solver|done].
Qed.

(** ** The sums over the ancestors *)

Definition tx_fee : CTxMemPool -> uint256 -> Z := of_entry GetModifiedFee.
Definition tx_ops : CTxMemPool -> uint256 -> Z := of_entry sigOpCost.

Lemma i64_add_l a b : i64 (i64 a + b) = i64 (a + b).
Proof.
  unfold i64. f_equal. replace ((a + 2 ^ 63) mod 2 ^ 64 - 2 ^ 63 + b + 2 ^ 63) with ((a + 2 ^ 63) mod 2 ^ 64 + b) by lia.
  rewrite Zplus_mod_idemp_l. f_equal. lia.
Qed.

#[local] Lemma sums_loop P l sz fee ops : Forall (fun a => is_Some (mapTx P !! a)) l ->
  foldM (fun '(sz, fee, ops) a => do e <- mapTx P !! a;
           Some (i64 (sz + GetTxSize e), fee + GetModifiedFee e, i64 (ops + sigOpCost e))) (i64 sz, fee, i64 ops) l =
  Some (i64 (sz + foldr (fun a s => tx_size P a + s) 0 l), fee + foldr (fun a s => tx_fee P a + s) 0 l,
        i64 (ops + foldr (fun a s => tx_ops P a + s) 0 l)).
Proof.
  revert sz fee ops. induction l as [|a l IH]; intros sz fee ops Hl; cbn [foldM foldr]; [by rewrite !Z.add_0_r|].
  apply Forall_cons in Hl as [[e He] Hl]. rewrite He. cbn [mbind option_bind]. rewrite !i64_add_l, IH by done.
  assert (tx_size P a = GetTxSize e /\ tx_fee P a = GetModifiedFee e /\ tx_ops P a = sigOpCost e) as (-> & -> & ->)
    by (unfold tx_size, tx_fee, tx_ops, of_entry; by rewrite He).
  by rewrite !Z.add_assoc.
Qed.

Lemma set_sum_elems f s : foldr (fun a acc => f a + acc) 0 (set_elems s) = set_sum f s.
Proof.
  unfold set_sum. generalize (set_elems_perm s). generalize (set_elems s), (elements s).
  induction 1; cbn; lia.
Qed.

Lemma UpdateEntryForAncestors_shape n Anc P e :
  mapTx P !! n = Some e -> Anc ⊆ dom (mapTx P) ->
  let sz := set_sum (tx_size P) Anc in let ops := set_sum (tx_ops P) Anc in
  0 <= sz -> 0 <= ops -> 0 < nSizeWithAncestors e + sz < 2 ^ 63 -> 0 < nSizeWithAncestors e ->
  0 < nCountWithAncestors e + Z.of_nat (size Anc) < 2 ^ 63 ->
  0 <= nSigOpCostWithAncestors e -> nSigOpCostWithAncestors e + ops < 2 ^ 31 ->
  exists e', UpdateEntryForAncestors n Anc P = Some (with_mapTx (<[n := e']> (mapTx P)) P) /\
    core e' = core e /\ desc_state e' = desc_state e /\ vTxHashesIdx e' = vTxHashesIdx e /\
    anc_state e' = (nCountWithAncestors e + Z.of_nat (size Anc), nSizeWithAncestors e + sz,
                    nModFeesWithAncestors e + set_sum (tx_fee P) Anc, nSigOpCostWithAncestors e + ops).
Proof.
  intros He HA sz ops H0 H0' Hs Hs0 Hc Ho Ho'. unfold UpdateEntryForAncestors.
  pose proof (sums_loop P (set_elems Anc) 0 0 0) as Hsum. change (i64 0) with 0 in Hsum. rewrite Hsum.
  2:{ apply Forall_forall. intros a Ha%elem_of_set_elems. by apply elem_of_dom, HA. }
  rewrite !set_sum_elems, !Z.add_0_l. cbn [mbind option_bind]. fold sz ops. rewrite !i64_small by lia.
  destruct (UpdateAncestorState_ok sz (set_sum (tx_fee P) Anc) (Z.of_nat (size Anc)) ops e) as (e' & He' & H'); [lia..|].
  exists e'. split; [|done]. unfold modify. rewrite He. cbn. by rewrite He'.
Qed.

(** ** The spent inputs *)

Lemma insert_all (l : list COutPoint) (n : uint256) (m : gmap (uint256 * Z) uint256) k :
  (forall o, o ∈ l -> m !! out_key o = None \/ m !! out_key o = Some n) ->
  foldl (fun m o => insert_if_new (out_key o) n m) m l !! k = if decide (k ∈ map out_key l) then Some n else m !! k.
Proof.
  revert m. induction l as [|o l IH]; intros m Hm; cbn [foldl map]; [done|].
  assert (insert_if_new (out_key o) n m = <[out_key o := n]> m) as ->.
  { unfold insert_if_new. assert (o ∈ o :: l) as Hin by set_solver. destruct (Hm o Hin) as [E|E]; rewrite E; [done|].
    by rewrite insert_id. }
  rewrite IH.
  - destruct (decide (k = out_key o)) as [->|Hk].
    + rewrite lookup_insert_eq, (decide_True (P := out_key o ∈ out_key o :: _)) by set_solver. by destruct (decide _).
    + rewrite lookup_insert_ne by done.
      destruct (decide (k ∈ map out_key l)), (decide (k ∈ out_key o :: map out_key l)); set_solver.
  - intros o' Ho'. destruct (decide (out_key o' = out_key o)) as [->|Hne]; [rewrite lookup_insert_eq; by right|].
    rewrite lookup_insert_ne by done. apply Hm. set_solver.
Qed.

Lemma delete_all {V} (l : list COutPoint) (m : gmap (uint256 * Z) V) k :
  foldl (fun m o => delete (out_key o) m) m l !! k = if decide (k ∈ map out_key l) then None else m !! k.
Proof.
  revert m. induction l as [|o l IH]; intros m; cbn [foldl map]; [done|]. rewrite IH.
  destruct (decide (k = out_key o)) as [->|Hk].
  - rewrite lookup_delete_eq, (decide_True (P := out_key o ∈ out_key o :: _)) by set_solver. by destruct (decide _).
  - rewrite lookup_delete_ne by done.
    destruct (decide (k ∈ map out_key l)), (decide (k ∈ out_key o :: map out_key l)); set_solver.
Qed.
