(* ===== verification/MempoolProps.v ===== *)
(** * The transaction pool stays consistent

    [consistent] is what [CTxMemPool::check] asserts of the pool: the links are
    those of the inputs, the statistics of an entry are the sums over its
    ancestors and descendants, the spent inputs, the total size, the memory and
    the vector of hashes are those of the entries.  Adding a transaction and
    removing one with what depends on it, or one a block has confirmed, keep it,
    and no assertion of the code fails. *)
From stdpp Require Import relations.
From S2P Require Import Prelude Transaction TxCheck Mempool MempoolGraph MempoolSteps.

(** ** Consistency *)

Definition stats (P : CTxMemPool) (S : gset uint256) : Z * Z * Z :=
  (Z.of_nat (size S), set_sum (tx_size P) S, set_sum (tx_fee P) S).

(** The memory of an entry with its links. *)
Definition tx_usage (P : CTxMemPool) (t : uint256) : Z :=
  of_entry nUsageSize P t +
  IncrementalDynamicUsage * Z.of_nat (size (parents (links_at P t)) + size (children (links_at P t))).

Record consistent (P : CTxMemPool) : Prop := {
  c_key : forall t e, mapTx P !! t = Some e -> ct_hash (e_tx e) = t;
  c_dom : forall t, is_Some (mapLinks P !! t) <-> is_Some (mapTx P !! t);
  c_parents : forall t e l, mapTx P !! t = Some e -> mapLinks P !! t = Some l -> parents l = in_pool_inputs P (ct_vin (e_tx e));
  c_children : forall p c, child P p c <-> parent P c p;
  c_acyclic : forall t, ~ tc (parent P) t t;
  c_next : forall k t, mapNextTx P !! k = Some t <->
             exists e o, mapTx P !! t = Some e /\ o ∈ ct_vin (e_tx e) /\ out_key o = k;
  c_desc : forall t e S, mapTx P !! t = Some e -> (forall x, x ∈ S <-> rtc (child P) t x) -> desc_state e = stats P S;
  c_anc : forall t e S, mapTx P !! t = Some e -> (forall x, x ∈ S <-> rtc (parent P) t x) ->
            anc_state e = (stats P S, set_sum (tx_ops P) S);
  c_total : totalTxSize P = set_sum (tx_size P) (dom (mapTx P));
  c_usage : cachedInnerUsage P = u64 (set_sum (tx_usage P) (dom (mapTx P)));
  c_hashes : forall i t, vTxHashes P !! i = Some t <-> exists e, mapTx P !! t = Some e /\ vTxHashesIdx e = i;
  c_entries : forall t e, mapTx P !! t = Some e -> 0 < GetTxSize e /\ 0 <= sigOpCost e;
  c_bounds : set_sum (tx_size P) (dom (mapTx P)) < 2 ^ 63 /\ set_sum (tx_ops P) (dom (mapTx P)) < 2 ^ 31
}.

Section facts.
Context (P : CTxMemPool).
Hypothesis HC : consistent P.

Lemma parent_in_pool c p : parent P c p -> is_Some (mapTx P !! c) /\ is_Some (mapTx P !! p).
Proof.
  intros (l & Hl & Hp). assert (is_Some (mapTx P !! c)) as Hc by (apply (c_dom P HC); eauto). split; [done|].
  destruct Hc as [e He]. rewrite (c_parents P HC c e l He Hl) in Hp. by apply elem_of_in_pool_inputs in Hp as [? _].
Qed.

Lemma consistent_parents_known : parents_known P.
Proof. intros c Hc. split; [by apply (c_dom P HC)|]. intros p Hp. apply (parent_in_pool c p Hp). Qed.

Lemma consistent_linked : linked P.
Proof.
  split; intros a b Hab; apply (c_dom P HC); [apply (c_children P HC) in Hab|]; apply parent_in_pool in Hab as [??]; done.
Qed.

Lemma entry_pos f g t : (forall e, mapTx P !! t = Some e -> g <= f e) -> g <= 0 -> g <= of_entry f P t.
Proof. unfold of_entry. destruct (mapTx P !! t); auto. Qed.

Lemma tx_size_pos t : 0 <= tx_size P t.
Proof. apply entry_pos; [|lia]. intros e He. apply (c_entries P HC) in He. lia. Qed.

Lemma tx_ops_pos t : 0 <= tx_ops P t.
Proof. apply entry_pos; [|lia]. intros e He. apply (c_entries P HC t e He). Qed.

Lemma sum_size_bounds S : S ⊆ dom (mapTx P) -> 0 <= set_sum (tx_size P) S < 2 ^ 63 /\ Z.of_nat (size S) <= set_sum (tx_size P) S.
Proof.
  intros Hd. pose proof (set_sum_subset (tx_size P) S _ Hd (fun x _ => tx_size_pos x)).
  pose proof (set_sum_nonneg (tx_size P) S (fun x _ => tx_size_pos x)). pose proof (c_bounds P HC). split; [lia|].
  rewrite <- set_sum_one. clear H H0 H1.
  induction S as [|x S Hx IH] using set_ind_L; [by rewrite !set_sum_empty|].
  rewrite !set_sum_insert by done. assert (is_Some (mapTx P !! x)) as [e He] by (apply elem_of_dom; set_solver).
  assert (1 <= tx_size P x) by (unfold tx_size, of_entry; rewrite He; apply (c_entries P HC) in He; lia).
  specialize (IH ltac:(set_solver)). lia.
Qed.

Lemma sum_ops_bounds S : S ⊆ dom (mapTx P) -> 0 <= set_sum (tx_ops P) S < 2 ^ 31.
Proof.
  intros Hd. pose proof (set_sum_subset (tx_ops P) S _ Hd (fun x _ => tx_ops_pos x)).
  pose proof (set_sum_nonneg (tx_ops P) S (fun x _ => tx_ops_pos x)). pose proof (c_bounds P HC). lia.
Qed.

(** The descendants and the ancestors of an entry are sets of entries. *)
Lemma descendants_exist t : is_Some (mapTx P !! t) ->
  exists S, (forall x, x ∈ S <-> rtc (child P) t x) /\ S ⊆ dom (mapTx P) /\ t ∈ S.
Proof.
  intros Ht. destruct (CalculateDescendants_spec P t ∅ consistent_linked) as (S & _ & HS); [by apply (c_dom P HC)|set_solver|].
  exists S. assert (forall x, x ∈ S <-> rtc (child P) t x) as HS' by (intros x; rewrite HS; set_solver).
  split; [done|]. split; [|apply HS', rtc_refl]. intros x Hx%HS'. apply elem_of_dom.
  apply rtc_inv_r in Hx as [->|(y & _ & Hy)]; [done|]. apply (c_children P HC) in Hy. apply parent_in_pool in Hy as [??]; done.
Qed.

Lemma ancestors_exist t : is_Some (mapTx P !! t) ->
  exists S, (forall x, x ∈ S <-> rtc (parent P) t x) /\ S ⊆ dom (mapTx P) /\ t ∈ S.
Proof.
  intros Ht. destruct (ancestor_closure P {[t]} consistent_parents_known) as (S & HS & Hd & _).
  { apply singleton_subseteq_l, elem_of_dom, Ht. }
  exists S. assert (forall x, x ∈ S <-> rtc (parent P) t x) as HS' by (intros x; rewrite HS; set_solver).
  split; [done|]. split; [done|]. apply HS', rtc_refl.
Qed.

Lemma consistent_sized s : 0 < s < 2 ^ 63 -> sized P s.
Proof.
  intros Hs. pose proof (c_bounds P HC). split; [lia|]. split; [intros a e He; apply (c_entries P HC a e He)|].
  split; [lia|]. intros a e He. destruct (descendants_exist a ltac:(eauto)) as (S & HS & Hd & _).
  pose proof (sum_size_bounds S Hd). pose proof (c_desc P HC a e S He HS) as [= Hn Hz _]. lia.
Qed.
End facts.

(** ** Adding *)

(** An entry as its constructor makes it. *)
Definition fresh_entry (e : CTxMemPoolEntry) : Prop :=
  feeDelta e = 0 /\ desc_state e = (1, GetTxSize e, nFee e) /\ anc_state e = (1, GetTxSize e, nFee e, sigOpCost e).

(** A transaction [AcceptToMemoryPool] hands to [addUnchecked]: it is new, spends
    nothing the pool spends already, nothing in the pool spends it, and a
    private one spends no output of the pool. *)
Record acceptable (P : CTxMemPool) (entry : CTxMemPoolEntry) : Prop := {
  ac_fresh : fresh_entry entry;
  ac_new : mapTx P !! ct_hash (e_tx entry) = None;
  ac_self : forall o, o ∈ ct_vin (e_tx entry) -> prevout_hash o <> ct_hash (e_tx entry);
  ac_unspent : forall o, o ∈ ct_vin (e_tx entry) -> mapNextTx P !! out_key o = None;
  ac_childless : forall i, mapNextTx P !! (ct_hash (e_tx entry), i) = None;
  ac_bls : coin_IsBLSInput (e_tx entry) = true -> in_pool_inputs P (ct_vin (e_tx entry)) = ∅;
  ac_entry : 0 < GetTxSize entry /\ 0 <= sigOpCost entry;
  ac_room : GetTxSize entry + set_sum (tx_size P) (dom (mapTx P)) < 2 ^ 63 /\
            sigOpCost entry + set_sum (tx_ops P) (dom (mapTx P)) < 2 ^ 31
}.

Lemma new_entry_fresh tx weight modsize usage fee time priority height noInputs inChain coinbase sigops e :
  CTxMemPoolEntry_new tx weight modsize usage fee time priority height noInputs inChain coinbase sigops = Some e ->
  fresh_entry e /\ e_tx e = tx /\ nUsageSize e = usage.
Proof. unfold CTxMemPoolEntry_new. intros H. nav_bind. done. Qed.

(** What [addUnchecked] makes of the pool. *)
Record added (P P' : CTxMemPool) (entry e : CTxMemPoolEntry) (Anc : gset uint256) : Prop := {
  ad_core : e_tx e = e_tx entry /\ GetTxSize e = GetTxSize entry /\ nUsageSize e = nUsageSize entry /\ sigOpCost e = sigOpCost entry;
  ad_desc : desc_state e = (1, GetTxSize e, GetModifiedFee e);
  ad_anc : anc_state e = (1 + Z.of_nat (size Anc), GetTxSize e + set_sum (tx_size P) Anc,
                          GetModifiedFee e + set_sum (tx_fee P) Anc, sigOpCost e + set_sum (tx_ops P) Anc);
  ad_idx : vTxHashesIdx e = length (vTxHashes P);
  ad_tx : forall t, mapTx P' !! t =
            if decide (t = ct_hash (e_tx entry)) then Some e
            else if decide (t ∈ Anc) then mapTx P !! t ≫= UpdateDescendantState (GetTxSize e) (GetModifiedFee e) 1
            else mapTx P !! t;
  ad_links : forall t, mapLinks P' !! t =
            if decide (t = ct_hash (e_tx entry)) then Some (mkLinks (in_pool_inputs P (ct_vin (e_tx entry))) ∅)
            else if decide (t ∈ in_pool_inputs P (ct_vin (e_tx entry)))
            then add_child (ct_hash (e_tx entry)) <$> mapLinks P !! t else mapLinks P !! t;
  ad_next : mapNextTx P' = foldl (fun m o => insert_if_new (out_key o) (ct_hash (e_tx entry)) m) (mapNextTx P) (ct_vin (e_tx entry));
  ad_total : totalTxSize P' = u64 (totalTxSize P + GetTxSize entry);
  ad_usage : cachedInnerUsage P' = u64 (cachedInnerUsage P + nUsageSize entry +
               2 * (IncrementalDynamicUsage * Z.of_nat (size (in_pool_inputs P (ct_vin (e_tx entry))))));
  ad_hashes : vTxHashes P' = vTxHashes P ++ [ct_hash (e_tx entry)]
}.

(** An entry with the fee delta the user gave its transaction. *)
Definition with_delta (P : CTxMemPool) (entry : CTxMemPoolEntry) : CTxMemPoolEntry :=
  match mapDeltas P !! ct_hash (e_tx entry) with
  | Some d => if d.2 =? 0 then entry else UpdateFeeDelta d.2 entry
  | None => entry
  end.

Lemma with_delta_spec P entry : fresh_entry entry ->
  let e := with_delta P entry in
  e_tx e = e_tx entry /\ GetTxSize e = GetTxSize entry /\ nUsageSize e = nUsageSize entry /\ sigOpCost e = sigOpCost entry /\
  desc_state e = (1, GetTxSize e, GetModifiedFee e) /\ anc_state e = (1, GetTxSize e, GetModifiedFee e, sigOpCost e).
Proof.
  intros (Hd & [= D1 D2 D3] & [= A1 A2 A3 A4]). unfold with_delta.
  assert (GetModifiedFee entry = nFee entry) as Hf by (unfold GetModifiedFee; lia).
  destruct (mapDeltas P !! _) as [[x d]|]; cbn [snd]; [destruct (d =? 0)|]; cbn zeta;
    (do 4 (split; [done|])); unfold desc_state, anc_state;
    try (split; rewrite Hf; congruence).
  unfold UpdateFeeDelta, GetModifiedFee, GetTxSize in *. cbn in *. rewrite D1, D2, D3, A1, A2, A3, A4, Hd.
  split; repeat f_equal; lia.
Qed.

Section add.
Context (P : CTxMemPool) (entry : CTxMemPoolEntry) (Anc : gset uint256).
Hypothesis HC : consistent P.
Hypothesis HA : acceptable P entry.
Hypothesis HAnc : forall x, x ∈ Anc <-> exists a, a ∈ in_pool_inputs P (ct_vin (e_tx entry)) /\ rtc (parent P) a x.

#[local] Abbreviation n := (ct_hash (e_tx entry)).
#[local] Abbreviation vin := (ct_vin (e_tx entry)).
#[local] Abbreviation Par := (in_pool_inputs P vin).
#[local] Abbreviation e1 := (with_delta P entry).

Lemma Anc_dom : Anc ⊆ dom (mapTx P).
Proof.
  intros x (a & Ha & Hr)%HAnc. apply in_pool_inputs_dom in Ha.
  induction Hr as [|a b c Hab _ IH]; [done|]. apply IH, elem_of_dom. by apply (parent_in_pool P HC) in Hab as [_ ?].
Qed.

Lemma new_not_in : n ∉ dom (mapTx P).
Proof. rewrite elem_of_dom, (ac_new P entry HA). intros [? [=]]. Qed.

Lemma new_links : mapLinks P !! n = None.
Proof. apply eq_None_not_Some. intros H%(c_dom P HC). rewrite (ac_new P entry HA) in H. by destruct H. Qed.

(** Nothing refers to the new transaction yet. *)
Lemma not_child t l : mapLinks P !! t = Some l -> n ∉ children l.
Proof.
  intros Hl Hn. assert (child P t n) as H by (by exists l). apply (c_children P HC), (parent_in_pool P HC) in H as [H _].
  rewrite (ac_new P entry HA) in H. by destruct H.
Qed.

Lemma of_entry_new f Q x : x ∈ dom (mapTx P) -> mapTx Q = <[n := e1]> (mapTx P) -> of_entry f Q x = of_entry f P x.
Proof.
  intros Hx HQ. unfold of_entry. rewrite HQ, lookup_insert_ne; [done|]. intros <-. by apply new_not_in.
Qed.

Lemma ancestor_stats_room a ea : a ∈ Anc -> mapTx P !! a = Some ea ->
  0 < nSizeWithDescendants ea + 1 * GetTxSize e1 < 2 ^ 63 /\ 0 < nCountWithDescendants ea + 1 < 2 ^ 63.
Proof.
  intros Ha Hea. destruct (descendants_exist P HC a ltac:(eauto)) as (S & HS & Hd & Hin).
  pose proof (sum_size_bounds P HC S Hd). pose proof (c_desc P HC a ea S Hea HS) as [= Hn Hz _].
  destruct (with_delta_spec P entry (ac_fresh P entry HA)) as (_ & -> & _).
  pose proof (ac_entry P entry HA). pose proof (ac_room P entry HA).
  pose proof (set_sum_subset (tx_size P) S _ Hd (fun x _ => tx_size_pos P HC x)). lia.
Qed.

Lemma new_parents Q : mapTx Q = <[n := e1]> (mapTx P) ->
  list_to_set (filter (fun x => exists_tx Q x = true) (set_elems (list_to_set (map prevout_hash vin)))) = Par /\
  length (filter (fun x => exists_tx Q x = true) (set_elems (list_to_set (map prevout_hash vin)))) = size Par.
Proof.
  intros HQ. set (l := filter _ _). assert (list_to_set l = Par) as E.
  { apply set_eq. intros x. subst l. rewrite elem_of_list_to_set, list_elem_of_filter, elem_of_set_elems, elem_of_list_to_set.
    rewrite list_elem_of_fmap, elem_of_in_pool_inputs. unfold exists_tx. rewrite bool_decide_eq_true, HQ. split.
    - intros (Hx & o & -> & Ho). rewrite lookup_insert_ne in Hx by (intros E; by apply (ac_self P entry HA o)). eauto.
    - intros (Hx & o & Ho & <-). rewrite lookup_insert_ne by (intros E; by apply (ac_self P entry HA o)). eauto. }
  split; [done|]. rewrite <- E. rewrite size_list_to_set; [done|]. apply NoDup_filter, set_elems_NoDup.
Qed.

(** The ancestors keep what they are when their statistics move. *)
Lemma ancestor_core Q :
  (forall x, x ∈ Anc -> mapTx Q !! x = mapTx P !! x ≫= UpdateDescendantState (GetTxSize e1) (GetModifiedFee e1) 1) ->
  forall x, x ∈ Anc -> exists ea e', mapTx P !! x = Some ea /\ mapTx Q !! x = Some e' /\ core e' = core ea /\
    anc_state e' = anc_state ea /\ vTxHashesIdx e' = vTxHashesIdx ea /\
    desc_state e' = (nCountWithDescendants ea + 1, nSizeWithDescendants ea + GetTxSize e1, nModFeesWithDescendants ea + GetModifiedFee e1).
Proof.
  intros Hup x Hx. pose proof (Anc_dom x Hx) as Hd. apply elem_of_dom in Hd as [ea Hea].
  destruct (ancestor_stats_room x ea Hx Hea) as [H1 H2]. rewrite Z.mul_1_l in H1.
  destruct (UpdateDescendantState_ok _ (GetModifiedFee e1) _ _ H1 H2) as (e' & He' & Hc). exists ea, e'.
  split; [done|]. split; [|done]. rewrite Hup, Hea by done. exact He'.
Qed.

Lemma ancestor_sums Q :
  (forall x, x ∈ Anc -> mapTx Q !! x = mapTx P !! x ≫= UpdateDescendantState (GetTxSize e1) (GetModifiedFee e1) 1) ->
  forall f, (forall e e', core e' = core e -> f e' = f e) -> set_sum (of_entry f Q) Anc = set_sum (of_entry f P) Anc.
Proof.
  intros Hup f Hf. apply set_sum_ext. intros x Hx. destruct (ancestor_core Q Hup x Hx) as (ea & e' & H1 & H2 & Hc & _).
  unfold of_entry. rewrite H1, H2. by apply Hf.
Qed.

(** The statistics of the new entry stay within their types. *)
Lemma new_entry_room :
  0 < GetTxSize e1 < 2 ^ 63 /\ 0 <= set_sum (tx_size P) Anc /\ GetTxSize e1 + set_sum (tx_size P) Anc < 2 ^ 63 /\
  (Z.of_nat (size Anc) <= set_sum (tx_size P) Anc /\ 0 <= sigOpCost e1 /\ 0 <= set_sum (tx_ops P) Anc /\
   sigOpCost e1 + set_sum (tx_ops P) Anc < 2 ^ 31).
Proof.
  destruct (with_delta_spec P entry (ac_fresh P entry HA)) as (_ & -> & _ & -> & _).
  pose proof (ac_entry P entry HA). pose proof (ac_room P entry HA).
  pose proof (sum_size_bounds P HC Anc Anc_dom). pose proof (sum_ops_bounds P HC Anc Anc_dom).
  pose proof (set_sum_subset (tx_size P) Anc _ Anc_dom (fun x _ => tx_size_pos P HC x)).
  pose proof (set_sum_subset (tx_ops P) Anc _ Anc_dom (fun x _ => tx_ops_pos P HC x)).
  pose proof (set_sum_nonneg (tx_size P) (dom (mapTx P)) (fun x _ => tx_size_pos P HC x)). lia.
Qed.

Lemma with_collapse m0 m c0 c k0 k Q :
  with_mapTx m (with_mapTx m0 (with_cachedInnerUsage c (with_mapLinks k (with_cachedInnerUsage c0 (with_mapLinks k0 Q))))) =
  with_mapTx m (with_cachedInnerUsage c (with_mapLinks k Q)).
Proof. reflexivity. Qed.

(** Without parents in the pool there is nothing to link. *)
Lemma link_none Q : Par = ∅ ->
  mapTx Q = <[n := e1]> (mapTx P) -> mapLinks Q = <[n := mkLinks ∅ ∅]> (mapLinks P) -> u64 (cachedInnerUsage Q) = cachedInnerUsage Q ->
  exists m k e, Some Q = Some (with_mapTx m (with_cachedInnerUsage
      (u64 (cachedInnerUsage Q + 2 * (IncrementalDynamicUsage * Z.of_nat (size Par)))) (with_mapLinks k Q))) /\
    core e = core e1 /\ desc_state e = desc_state e1 /\
    anc_state e = (1 + Z.of_nat (size Anc), GetTxSize e1 + set_sum (tx_size P) Anc, GetModifiedFee e1 + set_sum (tx_fee P) Anc,
                   sigOpCost e1 + set_sum (tx_ops P) Anc) /\
    (forall t, m !! t = if decide (t = n) then Some e else if decide (t ∈ Anc)
       then mapTx P !! t ≫= UpdateDescendantState (GetTxSize e1) (GetModifiedFee e1) 1 else mapTx P !! t) /\
    (forall t, k !! t = if decide (t = n) then Some (mkLinks Par ∅) else if decide (t ∈ Par)
       then add_child n <$> mapLinks P !! t else mapLinks P !! t).
Proof.
  intros E0 HT HL HU. destruct (with_delta_spec P entry (ac_fresh P entry HA)) as (_ & _ & _ & _ & Hd1 & Ha1).
  assert (Anc = ∅) as EA by (apply set_eq; intros x; rewrite HAnc, E0; set_solver).
  exists (mapTx Q), (mapLinks Q), e1. rewrite EA, E0, size_empty, !set_sum_empty, Z.mul_0_r, !Z.add_0_r, HU.
  split; [by destruct Q|]. do 3 (split; [done|]). rewrite HT, HL.
  split; intros t; (destruct (decide (t = n)) as [->|]; [by rewrite lookup_insert_eq|]);
    rewrite lookup_insert_ne by done; by rewrite decide_False by set_solver.
Qed.

Lemma link_new_shape Q :
  mapTx Q = <[n := e1]> (mapTx P) -> mapLinks Q = <[n := mkLinks ∅ ∅]> (mapLinks P) -> u64 (cachedInnerUsage Q) = cachedInnerUsage Q ->
  exists m k e, (if coin_IsBLSInput (e_tx entry) then Some Q else link_new n vin Anc Q) = Some (with_mapTx m (with_cachedInnerUsage
      (u64 (cachedInnerUsage Q + 2 * (IncrementalDynamicUsage * Z.of_nat (size Par)))) (with_mapLinks k Q))) /\
    core e = core e1 /\ desc_state e = desc_state e1 /\
    anc_state e = (1 + Z.of_nat (size Anc), GetTxSize e1 + set_sum (tx_size P) Anc, GetModifiedFee e1 + set_sum (tx_fee P) Anc,
                   sigOpCost e1 + set_sum (tx_ops P) Anc) /\
    (forall t, m !! t = if decide (t = n) then Some e else if decide (t ∈ Anc)
       then mapTx P !! t ≫= UpdateDescendantState (GetTxSize e1) (GetModifiedFee e1) 1 else mapTx P !! t) /\
    (forall t, k !! t = if decide (t = n) then Some (mkLinks Par ∅) else if decide (t ∈ Par)
       then add_child n <$> mapLinks P !! t else mapLinks P !! t).
Proof.
  intros HT HL HU. destruct (coin_IsBLSInput (e_tx entry)) eqn:Eb; [apply link_none; [by apply (ac_bls P entry HA)|done..]|].
  pose proof new_entry_room as (Hr1 & Hr2 & Hr3 & Hr4). destruct (with_delta_spec P entry (ac_fresh P entry HA)) as (_ & _ & _ & _ & _ & [= A1 A2 A3 A4]).
  unfold link_new. cbn zeta. rewrite (parents_loop n _ Q ∅); [|apply set_elems_NoDup|by rewrite HL, lookup_insert_eq|set_solver|done].
  destruct (new_parents Q HT) as [-> ->]. rewrite union_empty_r_L.
  match goal with |- context [UpdateAncestorsOf true n Anc ?X] => set (Q1 := X) end.
  destruct (UpdateAncestorsOf_shape true n Anc Q1 e1 (mkLinks Par ∅)) as (m & k & -> & Hk & Hm);
    [cbn; by rewrite HT, lookup_insert_eq|cbn; by rewrite lookup_insert_eq|lia|cbn; apply u64_small, u64_range|..].
  { intros p Hp. cbn in Hp |- *. assert (p <> n) by (intros ->; by apply in_pool_inputs_dom, new_not_in in Hp).
    rewrite lookup_insert_ne, HL, lookup_insert_ne by done.
    apply in_pool_inputs_dom, elem_of_dom, (c_dom P HC) in Hp as [lp Hlp]. exists lp. split; [done|].
    split; [|done]. intros Hc. by apply not_child in Hlp. }
  { intros a Ha. pose proof (Anc_dom a Ha) as Hd. assert (a <> n) by (intros ->; by apply new_not_in in Hd).
    apply elem_of_dom in Hd as [ea Hea]. exists ea. split; [cbn; by rewrite HT, lookup_insert_ne by done|].
    by apply (ancestor_stats_room a). }
  cbn [mbind option_bind]. unfold sign in Hm |- *. rewrite !Z.mul_1_l in Hm.
  assert (n ∉ Anc) as Hnn by (intros H%Anc_dom; by apply new_not_in).
  match goal with |- context [UpdateEntryForAncestors n Anc ?X] => set (Q2 := X) end.
  assert (forall x, x ∈ Anc -> mapTx Q2 !! x = mapTx P !! x ≫= UpdateDescendantState (GetTxSize e1) (GetModifiedFee e1) 1) as Hup.
  { intros x Hx. cbn. rewrite Hm, decide_True by done. cbn. by rewrite HT, lookup_insert_ne by set_solver. }
  pose proof (ancestor_sums Q2 Hup) as Hsum.
  pose proof (Hsum GetTxSize core_size) as Hs1. pose proof (Hsum GetModifiedFee core_fee) as Hs2.
  pose proof (Hsum sigOpCost ltac:(intros ?? [= ? ? ? ? ? -> ?]; done)) as Hs3.
  fold (tx_size Q2) (tx_size P) in Hs1. fold (tx_fee Q2) (tx_fee P) in Hs2. fold (tx_ops Q2) (tx_ops P) in Hs3.
  destruct (UpdateEntryForAncestors_shape n Anc Q2 e1) as (e & -> & E1 & E2 & E3 & E4);
    [cbn; rewrite Hm, decide_False by done; cbn; by rewrite HT, lookup_insert_eq| |rewrite ?Hs1, ?Hs3; lia..|].
  { intros x Hx. destruct (ancestor_core Q2 Hup x Hx) as (? & e' & _ & Hx' & _). apply elem_of_dom; eauto. }
  exists (<[n := e]> m), k, e. split.
  { subst Q2 Q1. rewrite with_collapse. cbn [cachedInnerUsage with_cachedInnerUsage parents].
    rewrite u64_add_l.
    match goal with |- context [u64 (?a + ?b + ?c)] => replace (a + b + c) with (a + 2 * b) by (clear; lia) end. done. }
  rewrite E1, E2, E4, Hs1, Hs2, Hs3, A1, A2, A3, A4. do 3 (split; [done|]). split; intros t.
  - destruct (decide (t = n)) as [->|]; [by rewrite lookup_insert_eq|]. rewrite lookup_insert_ne, Hm by done. cbn.
    by rewrite HT, lookup_insert_ne by done.
  - rewrite Hk. cbn. rewrite HL, insert_insert_eq. destruct (decide (t = n)) as [->|].
    + rewrite decide_False by (intros H%in_pool_inputs_dom; by apply new_not_in). by rewrite lookup_insert_eq.
    + by rewrite lookup_insert_ne by done.
Qed.

Lemma apply_delta_spec Q : mapTx Q !! n = Some entry -> mapDeltas Q = mapDeltas P ->
  apply_delta n n Q = Some (with_mapTx (<[n := e1]> (mapTx Q)) Q).
Proof.
  intros Hn HQ. unfold apply_delta, with_delta. rewrite HQ.
  assert (with_mapTx (<[n := entry]> (mapTx Q)) Q = Q) as Hid by (rewrite insert_id by done; by destruct Q).
  destruct (mapDeltas P !! n) as [[x d]|]; cbn [snd]; [|by rewrite Hid]. destruct (d =? 0); [by rewrite Hid|].
  unfold modify. by rewrite Hn.
Qed.

Lemma addUnchecked_shape : exists P' e, addUnchecked n entry Anc P = Some P' /\ added P P' entry e Anc /\ core e = core e1.
Proof.
  destruct (with_delta_spec P entry (ac_fresh P entry HA)) as (Htx & Hsz & Hus & Hops & Hd1 & _).
  unfold addUnchecked. cbn zeta.
  replace (insert_if_new n entry (mapTx P)) with (<[n := entry]> (mapTx P)) by (unfold insert_if_new; by rewrite (ac_new P entry HA)).
  replace (insert_if_new n (mkLinks ∅ ∅) _) with (<[n := mkLinks ∅ ∅]> (mapLinks P))
    by (unfold insert_if_new; cbn [mapLinks with_mapTx]; by rewrite new_links).
  rewrite apply_delta_spec by (try done; apply lookup_insert_eq). cbn [mbind option_bind].
  cbn [mapTx with_mapTx with_cachedInnerUsage with_mapLinks]. rewrite insert_insert_eq, lookup_insert_eq.
  cbn [mbind option_bind]. rewrite Htx.
  match goal with |- context [if _ then Some ?X else _] => set (Q2 := X) end.
  destruct (link_new_shape Q2) as (m & k & e & -> & E1 & E2 & E3 & Hm & Hk);
    [reflexivity|reflexivity|apply u64_small, u64_range|]. cbn [mbind option_bind].
  unfold count_new, modify. cbn [mapTx vTxHashes with_mapTx with_vTxHashes with_totalTxSize with_nTransactionsUpdated].
  rewrite Hm, decide_True by done. cbn [mbind option_bind]. rewrite length_app, Nat.add_sub.
  pose proof (core_size _ _ E1) as Es. pose proof (core_fee _ _ E1) as Ef. pose proof E1 as [= F1 F2 F3 F4 F5 F6 F7].
  eexists _, (with_vTxHashesIdx (length (vTxHashes P)) e). split; [reflexivity|]. split; [|exact E1]. constructor.
  - change (GetTxSize (with_vTxHashesIdx _ e)) with (GetTxSize e). cbn [e_tx nUsageSize sigOpCost with_vTxHashesIdx].
    rewrite Es. repeat split; congruence.
  - change (desc_state e = (1, GetTxSize e, GetModifiedFee e)). by rewrite E2, Es, Ef.
  - change (anc_state e = (1 + Z.of_nat (size Anc), GetTxSize e + set_sum (tx_size P) Anc,
              GetModifiedFee e + set_sum (tx_fee P) Anc, sigOpCost e + set_sum (tx_ops P) Anc)). by rewrite E3, Es, Ef, F6.
  - done.
  - intros t. cbn [mapTx with_mapTx].
    change (GetTxSize (with_vTxHashesIdx _ e)) with (GetTxSize e). change (GetModifiedFee (with_vTxHashesIdx _ e)) with (GetModifiedFee e).
    destruct (decide (t = n)) as [->|Hne]; [by rewrite lookup_insert_eq|]. rewrite lookup_insert_ne, Hm, decide_False by done.
    by rewrite Es, Ef.
  - intros t. cbn [mapLinks with_mapTx with_cachedInnerUsage with_mapLinks with_vTxHashes with_totalTxSize with_nTransactionsUpdated].
    by rewrite Hk.
  - reflexivity.
  - reflexivity.
  - cbn [cachedInnerUsage with_mapTx with_cachedInnerUsage with_mapLinks with_vTxHashes with_totalTxSize with_nTransactionsUpdated record_inputs with_mapNextTx Q2].
    by rewrite u64_add_l.
  - reflexivity.
Qed.
End add.

(** *** What the new links reach *)

Lemma rtc_converse {A} (R1 R2 : relation A) x y : (forall a b, R1 a b <-> R2 b a) -> rtc R1 x y <-> rtc R2 y x.
Proof.
  intros H. split.
  - induction 1 as [|a b c Hab _ IH]; [apply rtc_refl|]. eapply rtc_r; [done|]. by apply H.
  - intros Hr. induction Hr as [|a b c Hab _ IH]; [apply rtc_refl|]. eapply rtc_r; [done|]. by apply H.
Qed.

Section added.
Context (P P' : CTxMemPool) (entry e : CTxMemPoolEntry) (Anc : gset uint256).
Hypothesis HC : consistent P.
Hypothesis HA : acceptable P entry.
Hypothesis HAnc : forall x, x ∈ Anc <-> exists a, a ∈ in_pool_inputs P (ct_vin (e_tx entry)) /\ rtc (parent P) a x.
Hypothesis HD : added P P' entry e Anc.
Hypothesis Hcore : core e = core (with_delta P entry).

#[local] Abbreviation n := (ct_hash (e_tx entry)).
#[local] Abbreviation vin := (ct_vin (e_tx entry)).
#[local] Abbreviation Par := (in_pool_inputs P vin).

Lemma Par_not_new : n ∉ Par.
Proof. intros H%in_pool_inputs_dom. by apply (new_not_in P entry HA) in H. Qed.

Lemma Anc_not_new : n ∉ Anc.
Proof. intros H%(Anc_dom P entry Anc HC HAnc). by apply (new_not_in P entry HA) in H. Qed.

Lemma new_not_parent c : ~ parent P c n.
Proof. intros [_ H]%(parent_in_pool P HC). rewrite (ac_new P entry HA) in H. by destruct H. Qed.

Lemma added_parent c p : parent P' c p <-> (c = n /\ p ∈ Par) \/ (c <> n /\ parent P c p).
Proof.
  unfold parent. rewrite (ad_links P P' entry e Anc HD). destruct (decide (c = n)) as [->|Hne]; [naive_solver|].
  destruct (decide (c ∈ Par)); [|naive_solver]. destruct (mapLinks P !! c) as [l|]; cbn; [|naive_solver].
  split; [intros (l' & [= <-] & H); cbn in H; naive_solver|]. intros [[? _]|(_ & l' & [= <-] & H)]; [done|].
  eexists; split; [done|]. done.
Qed.

Lemma added_child p c : child P' p c <-> parent P' c p.
Proof.
  rewrite added_parent. unfold child. rewrite (ad_links P P' entry e Anc HD). destruct (decide (p = n)) as [->|Hne].
  - split; [intros (l & [= <-] & H); set_solver|]. intros [[_ H]|[_ H]]; [by apply Par_not_new in H|by apply new_not_parent in H].
  - assert (child P p c <-> parent P c p) as Hcp by apply (c_children P HC).
    assert (child P p c -> c <> n) as Hcn.
    { intros (l & Hl & Hc) ->. by apply (not_child P entry HC HA) in Hl. }
    destruct (decide (p ∈ Par)) as [Hp|Hp].
    + pose proof Hp as Hp'. apply in_pool_inputs_dom, elem_of_dom, (c_dom P HC) in Hp' as [l Hl]. rewrite Hl. cbn.
      rewrite <- Hcp. unfold child at 1. rewrite Hl. split.
      * intros (l' & [= <-] & H). cbn in H. destruct (decide (c = n)); [by left|right]. split; [done|]. exists l. set_solver.
      * intros [[-> _]|(Hc & l' & [= <-] & H)]; eexists; (split; [done|]); cbn; set_solver.
    + fold (child P p c). rewrite Hcp. naive_solver.
Qed.

Lemma added_up t x : t <> n -> rtc (parent P') t x <-> rtc (parent P) t x.
Proof.
  intros Ht. split.
  - intros H. induction H as [|a b c Hab _ IH]; [apply rtc_refl|]. apply added_parent in Hab as [[-> _]|[_ Hab]]; [done|].
    eapply rtc_l; [done|]. apply IH. intros ->. by apply new_not_parent in Hab.
  - intros H. induction H as [|a b c Hab _ IH]; [apply rtc_refl|]. eapply rtc_l; [apply added_parent; right; done|].
    apply IH. intros ->. by apply new_not_parent in Hab.
Qed.

Lemma added_up_new x : rtc (parent P') n x <-> x = n \/ x ∈ Anc.
Proof.
  rewrite HAnc. split.
  - intros [->|(y & Hy & Hr)]%rtc_inv; [by left|]. apply added_parent in Hy as [[_ Hy]|[? _]]; [|done].
    right. exists y. split; [done|]. apply added_up in Hr; [done|]. intros ->. by apply Par_not_new.
  - intros [->|(a & Ha & Hr)]; [apply rtc_refl|]. eapply rtc_l; [apply added_parent; left; done|].
    apply added_up; [|done]. intros ->. by apply Par_not_new.
Qed.

Lemma added_down t x : rtc (child P') t x <-> (x = n /\ (t = n \/ t ∈ Anc)) \/ (x <> n /\ rtc (child P) t x).
Proof.
  rewrite (rtc_converse (child P') (parent P')) by apply added_child.
  rewrite (rtc_converse (child P) (parent P)) by apply (c_children P HC).
  destruct (decide (x = n)) as [->|Hx]; [rewrite added_up_new; naive_solver|]. rewrite added_up by done. naive_solver.
Qed.

Lemma added_acyclic t : ~ tc (parent P') t t.
Proof.
  intros (y & Hy & Hr)%tc_first. apply added_parent in Hy as [[-> Hy]|[Ht Hy]].
  - assert (y <> n) as Hyn by (intros ->; by apply Par_not_new).
    apply added_up in Hr; [|done]. apply rtc_inv_r in Hr as [?|(z & _ & Hz)]; [done|by apply new_not_parent in Hz].
  - apply added_up in Hr; [|intros ->; by apply new_not_parent in Hy]. apply (c_acyclic P HC t), tc_first. eauto.
Qed.

(** *** What the new pool holds *)

Lemma added_lookup t e' : t <> n -> mapTx P' !! t = Some e' ->
  exists e0, mapTx P !! t = Some e0 /\ core e' = core e0 /\ anc_state e' = anc_state e0 /\ vTxHashesIdx e' = vTxHashesIdx e0 /\
    desc_state e' = if decide (t ∈ Anc) then (nCountWithDescendants e0 + 1, nSizeWithDescendants e0 + GetTxSize e,
                                              nModFeesWithDescendants e0 + GetModifiedFee e) else desc_state e0.
Proof.
  intros Hne Ht. pose proof (ad_tx P P' entry e Anc HD) as HT. destruct (decide (t ∈ Anc)) as [Ha|Ha].
  - destruct (ancestor_core P entry Anc HC HA HAnc P') with (x := t) as (e0 & e'' & H0 & H1 & Hs); [|done|].
    { intros x Hx. rewrite HT, decide_False, decide_True by (set_solver || (intros ->; by apply Anc_not_new)).
      by rewrite (core_size _ _ Hcore), (core_fee _ _ Hcore). }
    rewrite Ht in H1. injection H1 as <-. exists e0. split; [done|].
    by rewrite (core_size _ _ Hcore), (core_fee _ _ Hcore).
  - rewrite HT, !decide_False in Ht by done. by exists e'.
Qed.

Lemma added_is_Some t : is_Some (mapTx P' !! t) <-> t = n \/ is_Some (mapTx P !! t).
Proof.
  destruct (decide (t = n)) as [->|Hne]; [rewrite (ad_tx P P' entry e Anc HD), decide_True by done; naive_solver|].
  split; [intros [e' He']; apply added_lookup in He' as (e0 & H0 & _); eauto|]. intros [?|[e0 H0]]; [done|].
  rewrite (ad_tx P P' entry e Anc HD), decide_False by done. destruct (decide (t ∈ Anc)) as [Ha|]; [|eauto].
  destruct (ancestor_stats_room P entry Anc HC HA t e0 Ha H0) as [H1 H2]. rewrite Z.mul_1_l in H1.
  destruct (UpdateDescendantState_ok _ (GetModifiedFee e) _ _ H1 H2) as (e' & He' & _).
  rewrite H0. cbn. rewrite (core_size _ _ Hcore), He'. eauto.
Qed.

Lemma added_dom : dom (mapTx P') = {[n]} ∪ dom (mapTx P).
Proof. apply set_eq. intros t. rewrite elem_of_union, elem_of_singleton, !elem_of_dom. apply added_is_Some. Qed.

Lemma added_of_entry f x : (forall e e', core e' = core e -> f e' = f e) -> x <> n -> of_entry f P' x = of_entry f P x.
Proof.
  intros Hf Hx. unfold of_entry. destruct (mapTx P' !! x) as [e'|] eqn:E.
  - apply added_lookup in E as (e0 & -> & Hc & _); [by apply Hf|done].
  - destruct (mapTx P !! x) eqn:E0; [|done]. exfalso.
    assert (is_Some (mapTx P' !! x)) as [? H] by (apply added_is_Some; right; eauto). congruence.
Qed.

Lemma added_of_new f : of_entry f P' n = f e.
Proof. unfold of_entry. by rewrite (ad_tx P P' entry e Anc HD), decide_True. Qed.

Lemma added_sum f S : (forall e e', core e' = core e -> f e' = f e) -> n ∉ S -> set_sum (of_entry f P') S = set_sum (of_entry f P) S.
Proof. intros Hf Hn. apply set_sum_ext. intros x Hx. apply added_of_entry; [done|]. intros ->. done. Qed.

Lemma core_ops e0 e' : core e' = core e0 -> sigOpCost e' = sigOpCost e0.
Proof. intros [=]. done. Qed.

Lemma added_sums S : n ∉ S ->
  set_sum (tx_size P') S = set_sum (tx_size P) S /\ set_sum (tx_fee P') S = set_sum (tx_fee P) S /\
  set_sum (tx_ops P') S = set_sum (tx_ops P) S.
Proof.
  intros Hn. repeat split; (apply added_sum; [|done]); [exact core_size|exact core_fee|exact core_ops].
Qed.

Lemma added_stats S : n ∉ S -> stats P' S = stats P S.
Proof. intros Hn. unfold stats. by destruct (added_sums S Hn) as (-> & -> & _). Qed.

Lemma added_stats_new S : n ∉ S ->
  stats P' ({[n]} ∪ S) = (1 + Z.of_nat (size S), GetTxSize e + set_sum (tx_size P) S, GetModifiedFee e + set_sum (tx_fee P) S) /\
  set_sum (tx_ops P') ({[n]} ∪ S) = sigOpCost e + set_sum (tx_ops P) S.
Proof.
  intros Hn. unfold stats. rewrite size_insert, !set_sum_insert by done. destruct (added_sums S Hn) as (-> & -> & ->).
  unfold tx_size, tx_fee, tx_ops. rewrite !added_of_new. split; [|done]. repeat f_equal. lia.
Qed.

Lemma added_next k t : mapNextTx P' !! k = Some t <->
  exists e' o, mapTx P' !! t = Some e' /\ o ∈ ct_vin (e_tx e') /\ out_key o = k.
Proof.
  rewrite (ad_next P P' entry e Anc HD).
  rewrite insert_all by (intros o Ho; left; by apply (ac_unspent P entry HA)).
  assert (k ∈ map out_key vin <-> exists o, o ∈ vin /\ out_key o = k) as Hk by (rewrite list_elem_of_fmap; naive_solver).
  destruct (ad_core P P' entry e Anc HD) as (Htx & _). destruct (decide (k ∈ map out_key vin)) as [Hin|Hin].
  - split.
    + intros [= <-]. apply Hk in Hin as (o & Ho & Hok). exists e, o. rewrite (ad_tx P P' entry e Anc HD), decide_True, Htx by done. done.
    + intros (e' & o & He' & Ho & <-). destruct (decide (t = n)) as [->|Hne]; [done|]. exfalso.
      apply added_lookup in He' as (e0 & He0 & [= Hc _ _ _ _ _ _] & _); [|done]. rewrite Hc in Ho.
      apply Hk in Hin as (o' & Ho' & Hoo). apply (ac_unspent P entry HA) in Ho'. rewrite Hoo in Ho'.
      assert (mapNextTx P !! out_key o = Some t) by (apply (c_next P HC); eauto). congruence.
  - rewrite (c_next P HC). split.
    + intros (e0 & o & He0 & Ho & Hok). assert (t <> n) as Hne by (intros ->; rewrite (ac_new P entry HA) in He0; done).
      assert (is_Some (mapTx P' !! t)) as [e' He'] by (apply added_is_Some; eauto). exists e', o. split; [done|].
      apply added_lookup in He' as (e0' & H0 & [= Hc _ _ _ _ _ _] & _); [|done]. rewrite Hc. by simplify_eq.
    + intros (e' & o & He' & Ho & Hok). destruct (decide (t = n)) as [->|Hne].
      * rewrite (ad_tx P P' entry e Anc HD), decide_True in He' by done. injection He' as <-. rewrite Htx in Ho. exfalso. apply Hin, Hk. eauto.
      * apply added_lookup in He' as (e0 & He0 & [= Hc _ _ _ _ _ _] & _); [|done]. rewrite Hc in Ho. eauto.
Qed.

Lemma added_link_usage x : x ∈ dom (mapTx P) -> tx_usage P' x = tx_usage P x + if decide (x ∈ Par) then IncrementalDynamicUsage else 0.
Proof.
  intros Hx. assert (x <> n) as Hne by (intros ->; by apply (new_not_in P entry HA)).
  unfold tx_usage, links_at. rewrite added_of_entry by (try done; intros ?? [=]; done).
  rewrite (ad_links P P' entry e Anc HD), decide_False by done. destruct (decide (x ∈ Par)) as [Hp|]; [|lia].
  apply elem_of_dom, (c_dom P HC) in Hx as [l Hl]. rewrite Hl.
  change (default (mkLinks ∅ ∅) (add_child n <$> Some l)) with (add_child n l). change (default (mkLinks ∅ ∅) (Some l)) with l.
  unfold add_child. cbn [parents children]. rewrite size_insert by (by apply (not_child P entry HC HA x)). lia.
Qed.

Lemma added_usage_sum : set_sum (tx_usage P') (dom (mapTx P')) =
  set_sum (tx_usage P) (dom (mapTx P)) + nUsageSize entry + 2 * (IncrementalDynamicUsage * Z.of_nat (size Par)).
Proof.
  rewrite added_dom, set_sum_insert by apply (new_not_in P entry HA).
  assert (tx_usage P' n = nUsageSize entry + IncrementalDynamicUsage * Z.of_nat (size Par)) as ->.
  { unfold tx_usage, links_at. rewrite added_of_new, (ad_links P P' entry e Anc HD), decide_True by done.
    change (default (mkLinks ∅ ∅) (Some (mkLinks Par ∅))) with (mkLinks Par ∅). cbn [parents children].
    rewrite size_empty. destruct (ad_core P P' entry e Anc HD) as (_ & _ & -> & _). lia. }
  pose proof (in_pool_inputs_dom P vin) as Hsub.
  rewrite (union_difference_L Par (dom (mapTx P))) by done. rewrite !set_sum_union by set_solver.
  rewrite (set_sum_shift (tx_usage P) (tx_usage P') IncrementalDynamicUsage Par),
    (set_sum_ext (tx_usage P') (tx_usage P) (dom (mapTx P) ∖ Par)); [lia|..].
  - intros x Hx. rewrite added_link_usage, decide_False by set_solver. lia.
  - intros x Hx. rewrite added_link_usage, decide_True by set_solver. lia.
Qed.

Lemma added_hashes i t : vTxHashes P' !! i = Some t <-> exists e', mapTx P' !! t = Some e' /\ vTxHashesIdx e' = i.
Proof.
  rewrite (ad_hashes P P' entry e Anc HD). pose proof (ad_idx P P' entry e Anc HD) as Hidx.
  assert (forall j t, vTxHashes P !! j = Some t -> t <> n) as Hold.
  { intros j t' (e0 & He0 & _)%(c_hashes P HC) ->. rewrite (ac_new P entry HA) in He0. done. }
  destruct (decide (t = n)) as [->|Hne].
  - split.
    + intros [H|[H1 H2]]%lookup_app_Some; [by apply Hold in H|]. apply list_lookup_singleton_Some in H2 as [H2 _].
      exists e. rewrite (ad_tx P P' entry e Anc HD), decide_True by done. split; [done|]. lia.
    + intros (e' & He' & <-). rewrite (ad_tx P P' entry e Anc HD), decide_True in He' by done. injection He' as <-.
      rewrite Hidx, list_lookup_middle; done.
  - assert (vTxHashes P !! i = Some t <-> (vTxHashes P ++ [n]) !! i = Some t) as <-.
    { split; [intros H; by apply lookup_app_l_Some|]. intros [H|[_ H]]%lookup_app_Some; [done|].
      apply list_lookup_singleton_Some in H as [_ <-]. done. }
    rewrite (c_hashes P HC). split.
    + intros (e0 & He0 & Hi). assert (is_Some (mapTx P' !! t)) as [e' He'] by (apply added_is_Some; eauto).
      exists e'. split; [done|]. apply added_lookup in He' as (e0' & H0 & _ & _ & -> & _); [by simplify_eq|done].
    + intros (e' & He' & Hi). apply added_lookup in He' as (e0 & H0 & _ & _ & H1 & _); [|done]. exists e0. split; [done|congruence].
Qed.

Lemma added_desc t e' S : mapTx P' !! t = Some e' -> (forall x, x ∈ S <-> rtc (child P') t x) -> desc_state e' = stats P' S.
Proof.
  intros He' HS. destruct (decide (t = n)) as [->|Hne].
  - rewrite (ad_tx P P' entry e Anc HD), decide_True in He' by done. injection He' as <-.
    assert (S = {[n]} ∪ ∅) as ->.
    { apply set_eq. intros x. rewrite HS, added_down. split; [|set_solver]. intros [[-> _]|[Hx Hr]]; [set_solver|].
      apply rtc_inv in Hr as [Hx'|(y & (l & Hl & _) & _)]; [congruence|]. rewrite (new_links P entry HC HA) in Hl. done. }
    destruct (added_stats_new ∅) as [-> _]; [set_solver|]. rewrite !set_sum_empty, size_empty, !Z.add_0_r.
    apply (ad_desc P P' entry e Anc HD).
  - destruct (added_lookup t e' Hne He') as (e0 & He0 & _ & _ & _ & Hd).
    destruct (descendants_exist P HC t ltac:(eauto)) as (S0 & HS0 & Hsub & _).
    assert (n ∉ S0) as Hn0 by (intros H%Hsub; by apply (new_not_in P entry HA)).
    pose proof (c_desc P HC t e0 S0 He0 HS0) as Hst. destruct (decide (t ∈ Anc)) as [Ha|Ha].
    + assert (S = {[n]} ∪ S0) as ->.
      { apply set_eq. intros x. rewrite HS, added_down, elem_of_union, HS0, elem_of_singleton. split; [naive_solver|].
        intros [->|Hr]; [naive_solver|]. right. split; [|done]. intros ->. by apply Hn0, HS0. }
      destruct (added_stats_new S0 Hn0) as [-> _]. rewrite Hd. injection Hst as -> -> ->. f_equal; [f_equal|]; lia.
    + assert (S = S0) as ->.
      { apply set_eq. intros x. rewrite HS, added_down, HS0. split; [naive_solver|]. intros Hr. right. split; [|done].
        intros ->. by apply Hn0, HS0. }
      rewrite Hd, added_stats by done. done.
Qed.

Lemma added_anc t e' S : mapTx P' !! t = Some e' -> (forall x, x ∈ S <-> rtc (parent P') t x) ->
  anc_state e' = (stats P' S, set_sum (tx_ops P') S).
Proof.
  intros He' HS. destruct (decide (t = n)) as [->|Hne].
  - rewrite (ad_tx P P' entry e Anc HD), decide_True in He' by done. injection He' as <-.
    assert (S = {[n]} ∪ Anc) as -> by (apply set_eq; intros x; rewrite HS, added_up_new; set_solver).
    destruct (added_stats_new Anc Anc_not_new) as [-> ->]. apply (ad_anc P P' entry e Anc HD).
  - destruct (added_lookup t e' Hne He') as (e0 & He0 & _ & -> & _).
    destruct (ancestors_exist P HC t ltac:(eauto)) as (S0 & HS0 & Hsub & _).
    assert (n ∉ S0) as Hn0 by (intros H%Hsub; by apply (new_not_in P entry HA)).
    assert (S = S0) as -> by (apply set_eq; intros x; rewrite HS, added_up, HS0 by done; done).
    rewrite added_stats by done. destruct (added_sums S0 Hn0) as (_ & _ & ->). by apply (c_anc P HC t).
Qed.

Lemma added_consistent : consistent P'.
Proof.
  pose proof (ad_core P P' entry e Anc HD) as (Htx & Hsz & Hus & Hops). pose proof (ac_room P entry HA) as Hroom.
  pose proof (new_not_in P entry HA) as Hn. destruct (added_sums (dom (mapTx P)) Hn) as (Hs1 & _ & Hs3).
  assert (set_sum (tx_size P') (dom (mapTx P')) = GetTxSize entry + set_sum (tx_size P) (dom (mapTx P))) as Htot.
  { rewrite added_dom, set_sum_insert, Hs1 by done. unfold tx_size at 1. by rewrite added_of_new, Hsz. }
  constructor.
  - intros t e' He'. destruct (decide (t = n)) as [->|Hne].
    + rewrite (ad_tx P P' entry e Anc HD), decide_True in He' by done. injection He' as <-. by rewrite Htx.
    + apply added_lookup in He' as (e0 & He0 & [= -> _ _ _ _ _ _] & _); [|done]. by apply (c_key P HC).
  - intros t. rewrite added_is_Some, (ad_links P P' entry e Anc HD), <- (c_dom P HC).
    destruct (decide (t = n)) as [->|]; [naive_solver|]. destruct (decide (t ∈ Par)); [rewrite fmap_is_Some|]; naive_solver.
  - intros t e' l He' Hl. rewrite (ad_links P P' entry e Anc HD) in Hl. apply set_eq. intros x.
    rewrite elem_of_in_pool_inputs, added_is_Some. destruct (decide (t = n)) as [->|Hne].
    + rewrite (ad_tx P P' entry e Anc HD), decide_True in He' by done. injection He' as <-. injection Hl as <-. cbn [parents].
      rewrite Htx, elem_of_in_pool_inputs. split; [naive_solver|]. intros [[->|Hx] (o & Ho & Hox)]; [|naive_solver].
      by apply (ac_self P entry HA) in Ho.
    + apply added_lookup in He' as (e0 & He0 & [= -> _ _ _ _ _ _] & _); [|done].
      assert (exists l0, mapLinks P !! t = Some l0 /\ parents l = parents l0) as (l0 & Hl0 & ->).
      { destruct (decide (t ∈ Par)); [|eauto]. apply fmap_Some in Hl as (l0 & Hl0 & ->). eauto. }
      rewrite (c_parents P HC t e0 l0 He0 Hl0), elem_of_in_pool_inputs. split; [naive_solver|].
      intros [[->|Hx] (o & Ho & Hox)]; [|naive_solver]. exfalso.
      assert (mapNextTx P !! (n, prevout_n o) = Some t) as Hsp
        by (apply (c_next P HC); exists e0, o; repeat split; [done..|]; unfold out_key; by rewrite Hox).
      by rewrite (ac_childless P entry HA) in Hsp.
  - apply added_child.
  - apply added_acyclic.
  - apply added_next.
  - apply added_desc.
  - apply added_anc.
  - rewrite (ad_total P P' entry e Anc HD), (c_total P HC), Htot. pose proof (ac_entry P entry HA).
    pose proof (set_sum_nonneg (tx_size P) (dom (mapTx P)) (fun x _ => tx_size_pos P HC x)). rewrite u64_small by lia. lia.
  - rewrite (ad_usage P P' entry e Anc HD), (c_usage P HC), added_usage_sum. by rewrite <- !Z.add_assoc, u64_add_l.
  - apply added_hashes.
  - intros t e' He'. destruct (decide (t = n)) as [->|Hne].
    + rewrite (ad_tx P P' entry e Anc HD), decide_True in He' by done. injection He' as <-. rewrite Hsz, Hops. apply (ac_entry P entry HA).
    + apply added_lookup in He' as (e0 & He0 & Hc & _); [|done]. rewrite (core_size _ _ Hc), (core_ops _ _ Hc). by apply (c_entries P HC t).
  - rewrite Htot. split; [lia|]. rewrite added_dom, set_sum_insert, Hs3 by done. unfold tx_ops at 1. rewrite added_of_new. lia.
Qed.
End added.
