(* ===== verification/MempoolRemove.v ===== *)
(** * Removing from the transaction pool

    [RemoveStaged] first detaches a set of entries: the statistics and the
    links of the others forget it.  [detached] says what holds then, and each
    [removeUnchecked] keeps it for what is left of the set, until the pool is
    consistent again. *)
From stdpp Require Import relations.
From S2P Require Import Prelude Transaction TxCheck Mempool MempoolGraph MempoolSteps MempoolProps.

(** ** The vector of hashes *)

Lemma swap_remove (vs : list uint256) idx x back i t :
  NoDup vs -> vs !! idx = Some x -> last vs = Some back ->
  take (length vs - 1) (<[idx := back]> vs) !! i = Some t <->
  t <> x /\ ((t = back /\ i = idx) \/ (t <> back /\ vs !! i = Some t)).
Proof.
  intros Hnd Hidx Hlast. rewrite last_lookup, <- Nat.sub_1_r in Hlast.
  pose proof (lookup_lt_Some _ _ _ Hidx) as Hlt.
  assert (forall u j k, vs !! j = Some u -> vs !! k = Some u -> j = k) as Hfun by (intros u j k; by apply NoDup_lookup).
  rewrite lookup_take_Some. split.
  - intros [H Hi]. destruct (decide (i = idx)) as [->|Hne].
    + rewrite list_lookup_insert_eq in H by done. injection H as <-. split; [|by left].
      intros ->. pose proof (Hfun x idx _ Hidx Hlast). lia.
    + rewrite list_lookup_insert_ne in H by done. split.
      * intros ->. by pose proof (Hfun x i idx H Hidx).
      * right. split; [|done]. intros ->. pose proof (Hfun back i _ H Hlast). lia.
  - intros [Htx [[-> ->]|[Htb H]]].
    + rewrite list_lookup_insert_eq by done. split; [done|].
      assert (idx <> length vs - 1)%nat; [|lia]. intros ->. congruence.
    + rewrite list_lookup_insert_ne by (intros ->; congruence). split; [done|]. apply lookup_lt_Some in H as Hl.
      assert (i <> length vs - 1)%nat; [|lia]. intros ->. congruence.
Qed.

Lemma remove_hash_spec P x e : mapTx P !! x = Some e ->
  (forall i t, vTxHashes P !! i = Some t <-> exists e, mapTx P !! t = Some e /\ vTxHashesIdx e = i) ->
  exists m v, remove_hash e P = Some (with_vTxHashes v (with_mapTx m P)) /\
    (forall t, m !! t = mapTx P !! t \/ exists e0 i, mapTx P !! t = Some e0 /\ m !! t = Some (with_vTxHashesIdx i e0)) /\
    forall i t, v !! i = Some t <-> t <> x /\ exists e', m !! t = Some e' /\ vTxHashesIdx e' = i.
Proof.
  intros Hx HV. assert (vTxHashes P !! vTxHashesIdx e = Some x) as Hidx by (apply HV; eauto).
  pose proof (lookup_lt_Some _ _ _ Hidx) as Hlt.
  assert (NoDup (vTxHashes P)) as Hnd.
  { apply NoDup_alt. intros i j t (e1 & H1 & <-)%HV (e2 & H2 & <-)%HV. by simplify_eq. }
  destruct (decide (length (vTxHashes P) <= 1)%nat) as [Hl|Hl].
  - exists (mapTx P), []. split.
    { unfold remove_hash. destruct (vTxHashes P) as [|y [|z l]]; cbn in Hl; [by destruct P..|lia]. }
    split; [by left|]. intros i t. split; [done|]. intros (Ht & e' & He' & Hi).
    assert (vTxHashes P !! i = Some t) as H by (apply HV; eauto). pose proof (lookup_lt_Some _ _ _ H).
    replace i with (vTxHashesIdx e) in H by lia. congruence.
  - destruct (last (vTxHashes P)) as [back|] eqn:El; [|apply last_None in El; rewrite El in Hl; cbn in Hl; lia].
    assert (vTxHashes P !! (length (vTxHashes P) - 1)%nat = Some back) as Hb
      by (by rewrite last_lookup, <- Nat.sub_1_r in El).
    apply HV in Hb as Hb'. destruct Hb' as (eb & Heb & Hbi).
    exists (<[back := with_vTxHashesIdx (vTxHashesIdx e) eb]> (mapTx P)),
      (take (length (vTxHashes P) - 1) (<[vTxHashesIdx e := back]> (vTxHashes P))). split; [|split].
    + unfold remove_hash. rewrite (proj2 (Nat.ltb_lt _ _) Hlt). destruct (vTxHashes P) as [|y [|z l]] eqn:E; cbn in Hl; [lia..|].
      rewrite <- E in *. rewrite El. unfold modify. cbn [mbind option_bind]. rewrite Heb. reflexivity.
    + intros t. destruct (decide (t = back)) as [->|]; [right; exists eb, (vTxHashesIdx e); by rewrite lookup_insert_eq|].
      left. by rewrite lookup_insert_ne.
    + intros i t. rewrite (swap_remove _ _ x back) by done. destruct (decide (t = back)) as [->|Hne].
      * rewrite lookup_insert_eq. naive_solver.
      * rewrite lookup_insert_ne, HV by done. naive_solver.
Qed.

(** ** A detached set *)

Record detached (P : CTxMemPool) (S : gset uint256) : Prop := {
  d_key : forall t e, mapTx P !! t = Some e -> ct_hash (e_tx e) = t;
  d_dom : forall t, is_Some (mapLinks P !! t) <-> is_Some (mapTx P !! t);
  d_sub : S ⊆ dom (mapTx P);
  d_parents : forall t e l, t ∉ S -> mapTx P !! t = Some e -> mapLinks P !! t = Some l ->
                parents l = (in_pool_inputs P (ct_vin (e_tx e))) ∖ S;
  d_child : forall p c, p ∉ S -> child P p c -> (c ∉ S) /\ parent P c p;
  d_parent : forall c p, c ∉ S -> parent P c p -> child P p c;
  d_acyclic : forall t, t ∉ S -> ~ tc (parent P) t t;
  d_next : forall k t, mapNextTx P !! k = Some t <->
             exists e o, mapTx P !! t = Some e /\ o ∈ ct_vin (e_tx e) /\ out_key o = k;
  d_desc : forall t e D, t ∉ S -> mapTx P !! t = Some e -> (forall x, x ∈ D <-> rtc (child P) t x) -> desc_state e = stats P D;
  d_anc : forall t e A, t ∉ S -> mapTx P !! t = Some e -> (forall x, x ∈ A <-> rtc (parent P) t x) ->
            anc_state e = (stats P A, set_sum (tx_ops P) A);
  d_total : totalTxSize P = set_sum (tx_size P) (dom (mapTx P));
  d_usage : cachedInnerUsage P = u64 (set_sum (tx_usage P) (dom (mapTx P)));
  d_hashes : forall i t, vTxHashes P !! i = Some t <-> exists e, mapTx P !! t = Some e /\ vTxHashesIdx e = i;
  d_entries : forall t e, mapTx P !! t = Some e -> 0 < GetTxSize e /\ 0 <= sigOpCost e;
  d_bounds : set_sum (tx_size P) (dom (mapTx P)) < 2 ^ 63 /\ set_sum (tx_ops P) (dom (mapTx P)) < 2 ^ 31
}.

Lemma detached_empty P : detached P ∅ -> consistent P.
Proof.
  intros []. constructor; try done.
  - intros t e l Ht Hl. rewrite (d_parents0 t e l) by set_solver. set_solver.
  - intros p c. split; [intros H; apply (d_child0 p c) in H; set_solver|]. apply d_parent0. set_solver.
  - intros t. apply d_acyclic0. set_solver.
  - intros t e D. apply d_desc0. set_solver.
  - intros t e A. apply d_anc0. set_solver.
Qed.

(** ** One entry is removed *)

(** The parts of the pool that consistency is about. *)
Definition main_fields (P : CTxMemPool) :=
  (mapTx P, mapLinks P, mapNextTx P, totalTxSize P, cachedInnerUsage P, vTxHashes P, mapDeltas P).

Lemma remove_indexes_fields h P : main_fields (removeSpentIndex h (removeAddressIndex h P)) = main_fields P.
Proof.
  unfold removeSpentIndex. destruct (mapSpentInserted _ !! h); unfold removeAddressIndex; by destruct (mapAddressInserted P !! h).
Qed.

Lemma remove_names_fields h P : main_fields (remove_names h P) = main_fields P.
Proof. unfold remove_names. by destruct (mapNameDataTx P !! h). Qed.

Lemma u64_sub_l a b : u64 (u64 a - b) = u64 (a - b).
Proof. unfold u64. by rewrite Zminus_mod_idemp_l. Qed.

Lemma removeUnchecked_shape P x e : mapTx P !! x = Some e ->
  (forall i t, vTxHashes P !! i = Some t <-> exists e, mapTx P !! t = Some e /\ vTxHashesIdx e = i) ->
  exists P' m v, removeUnchecked x P = Some P' /\
    main_fields P' = (delete x m, delete x (mapLinks P), foldl (fun m o => delete (out_key o) m) (mapNextTx P) (ct_vin (e_tx e)),
                      u64 (totalTxSize P - GetTxSize e),
                      u64 (u64 (cachedInnerUsage P - nUsageSize e) -
                           (DynamicUsage (parents (links_at P x)) + DynamicUsage (children (links_at P x)))), v, mapDeltas P) /\
    (forall t, m !! t = mapTx P !! t \/ exists e0 i, mapTx P !! t = Some e0 /\ m !! t = Some (with_vTxHashesIdx i e0)) /\
    (forall i t, v !! i = Some t <-> t <> x /\ exists e', m !! t = Some e' /\ vTxHashesIdx e' = i).
Proof.
  intros Hx HV. unfold removeUnchecked. rewrite Hx. cbn [mbind option_bind].
  set (P1 := with_mapNextTx _ P). pose proof (remove_names_fields (ct_hash (e_tx e)) P1) as HF.
  set (P2 := remove_names _ P1) in *. injection HF as F1 F2 F3 F4 F5 F6 F7.
  destruct (remove_hash_spec P2 x e) as (m & v & -> & Hm & Hv); [by rewrite F1|rewrite F1, F6; exact HV|].
  cbn [mbind option_bind]. eexists _, m, v. split; [reflexivity|]. rewrite remove_indexes_fields. split; [|by rewrite F1 in Hm].
  unfold main_fields, links_at. cbn [mapTx mapLinks mapNextTx totalTxSize cachedInnerUsage vTxHashes mapDeltas
    with_mapTx with_mapLinks with_vTxHashes with_totalTxSize with_cachedInnerUsage with_nTransactionsUpdated].
  by rewrite F2, F3, F4, F5, F7.
Qed.

Section remove_one.
Context (P P' : CTxMemPool) (S : gset uint256) (x : uint256) (e : CTxMemPoolEntry) (m : gmap uint256 CTxMemPoolEntry)
  (v : list uint256).
Hypothesis HD : detached P S.
Hypothesis Hin : x ∈ S.
Hypothesis Hx : mapTx P !! x = Some e.
Hypothesis HT : mapTx P' = delete x m.
Hypothesis HL : mapLinks P' = delete x (mapLinks P).
Hypothesis HN : mapNextTx P' = foldl (fun m o => delete (out_key o) m) (mapNextTx P) (ct_vin (e_tx e)).
Hypothesis Htot : totalTxSize P' = u64 (totalTxSize P - GetTxSize e).
Hypothesis Hus : cachedInnerUsage P' = u64 (u64 (cachedInnerUsage P - nUsageSize e) -
                   (DynamicUsage (parents (links_at P x)) + DynamicUsage (children (links_at P x)))).
Hypothesis HV : vTxHashes P' = v.
Hypothesis Hm : forall t, m !! t = mapTx P !! t \/ exists e0 i, mapTx P !! t = Some e0 /\ m !! t = Some (with_vTxHashesIdx i e0).
Hypothesis Hv : forall i t, v !! i = Some t <-> t <> x /\ exists e', m !! t = Some e' /\ vTxHashesIdx e' = i.

(** Only the place in the vector of hashes can change. *)
Lemma left_lookup t e' : mapTx P' !! t = Some e' ->
  t <> x /\ exists e0, mapTx P !! t = Some e0 /\ core e' = core e0 /\ desc_state e' = desc_state e0 /\ anc_state e' = anc_state e0.
Proof.
  rewrite HT. intros [Hne H]%lookup_delete_Some. split; [done|].
  destruct (Hm t) as [E|(e0 & i & E0 & E)]; rewrite E in H; [by exists e'|]. injection H as <-. by exists e0.
Qed.

Lemma left_is_Some t : is_Some (mapTx P' !! t) <-> t <> x /\ is_Some (mapTx P !! t).
Proof.
  split; [intros [e' (Hne & e0 & He0 & _)%left_lookup]; eauto|]. intros [Hne [e0 He0]]. rewrite HT, lookup_delete_ne by done.
  destruct (Hm t) as [->|(? & i & _ & ->)]; eauto.
Qed.

Lemma left_dom : dom (mapTx P') = dom (mapTx P) ∖ {[x]}.
Proof. apply set_eq. intros t. rewrite elem_of_difference, elem_of_singleton, !elem_of_dom, left_is_Some. naive_solver. Qed.

Lemma left_of_entry f t : (forall e e', core e' = core e -> f e' = f e) -> t <> x -> of_entry f P' t = of_entry f P t.
Proof.
  intros Hf Hne. unfold of_entry. destruct (mapTx P' !! t) as [e'|] eqn:E.
  - apply left_lookup in E as (_ & e0 & -> & Hc & _). by apply Hf.
  - destruct (mapTx P !! t) eqn:E0; [|done]. exfalso.
    assert (is_Some (mapTx P' !! t)) as [? H] by (apply left_is_Some; eauto). congruence.
Qed.

Lemma left_sum f D : (forall e e', core e' = core e -> f e' = f e) -> x ∉ D -> set_sum (of_entry f P') D = set_sum (of_entry f P) D.
Proof. intros Hf Hn. apply set_sum_ext. intros t Ht. apply left_of_entry; [done|]. intros ->. done. Qed.

Lemma left_stats D : x ∉ D -> stats P' D = stats P D /\ set_sum (tx_ops P') D = set_sum (tx_ops P) D.
Proof.
  intros Hn. unfold stats, tx_size, tx_fee, tx_ops.
  by rewrite (left_sum _ _ core_size Hn), (left_sum _ _ core_fee Hn), (left_sum _ _ core_ops Hn).
Qed.

Lemma left_child p c : child P' p c <-> p <> x /\ child P p c.
Proof. unfold child. rewrite HL. setoid_rewrite lookup_delete_Some. naive_solver. Qed.

Lemma left_parent c p : parent P' c p <-> c <> x /\ parent P c p.
Proof. unfold parent. rewrite HL. setoid_rewrite lookup_delete_Some. naive_solver. Qed.

Lemma parent_left c p : c ∉ S -> parent P c p -> p ∉ S.
Proof.
  intros Hc Hp. destruct Hp as (l & Hl & Hp). assert (is_Some (mapTx P !! c)) as [ec Hec] by (apply (d_dom P S HD); eauto).
  rewrite (d_parents P S HD c ec l Hc Hec Hl) in Hp. set_solver.
Qed.

Lemma left_down t y : t ∉ S -> rtc (child P') t y <-> rtc (child P) t y.
Proof.
  intros Ht. split; intros H; (induction H as [|a b c Hab _ IH]; [apply rtc_refl|]).
  - apply left_child in Hab as [_ Hab]. eapply rtc_l; [done|]. apply IH. by apply (d_child P S HD a b).
  - eapply rtc_l; [apply left_child; split; [set_solver|done]|]. apply IH. by apply (d_child P S HD a b).
Qed.

Lemma left_up t y : t ∉ S -> rtc (parent P') t y <-> rtc (parent P) t y.
Proof.
  intros Ht. split; intros H; (induction H as [|a b c Hab _ IH]; [apply rtc_refl|]).
  - apply left_parent in Hab as [_ Hab]. eapply rtc_l; [done|]. apply IH. by apply (parent_left a).
  - eapply rtc_l; [apply left_parent; split; [set_solver|done]|]. apply IH. by apply (parent_left a).
Qed.

Lemma down_left t y : t ∉ S -> rtc (child P) t y -> y ∉ S.
Proof. intros Ht H. induction H as [|a b c Hab _ IH]; [done|]. apply IH. by apply (d_child P S HD a b). Qed.

Lemma up_left t y : t ∉ S -> rtc (parent P) t y -> y ∉ S.
Proof. intros Ht H. induction H as [|a b c Hab _ IH]; [done|]. apply IH. by apply (parent_left a). Qed.

Lemma left_next k t : mapNextTx P' !! k = Some t <->
  exists e o, mapTx P' !! t = Some e /\ o ∈ ct_vin (e_tx e) /\ out_key o = k.
Proof.
  rewrite HN, delete_all. destruct (decide (k ∈ map out_key (ct_vin (e_tx e)))) as [Hk|Hk].
  - split; [done|]. intros (e' & o & He' & Ho & <-). exfalso.
    apply left_lookup in He' as (Hne & e0 & He0 & [= Hc _ _ _ _ _ _] & _). rewrite Hc in Ho.
    apply list_elem_of_fmap in Hk as (o' & Hoo & Ho').
    assert (mapNextTx P !! out_key o = Some t) as H1 by (apply (d_next P S HD); eauto).
    assert (mapNextTx P !! out_key o = Some x) as H2 by (apply (d_next P S HD); eauto). congruence.
  - rewrite (d_next P S HD). split.
    + intros (e0 & o & He0 & Ho & Hok). destruct (decide (t = x)) as [->|Hne].
      * exfalso. apply Hk, list_elem_of_fmap. simplify_eq. eauto.
      * assert (is_Some (mapTx P' !! t)) as [e' He'] by (apply left_is_Some; eauto). exists e', o. split; [done|].
        apply left_lookup in He' as (_ & e0' & H0 & [= -> _ _ _ _ _ _] & _). by simplify_eq.
    + intros (e' & o & He' & Ho & Hok). apply left_lookup in He' as (_ & e0 & He0 & [= Hc _ _ _ _ _ _] & _).
      rewrite Hc in Ho. eauto.
Qed.

Lemma left_usage : cachedInnerUsage P' = u64 (set_sum (tx_usage P') (dom (mapTx P'))).
Proof.
  assert (x ∈ dom (mapTx P)) as Hd by (apply elem_of_dom; eauto).
  rewrite Hus, (d_usage P S HD), left_dom, u64_sub_l, <- Z.sub_add_distr, u64_sub_l. f_equal. rewrite (set_sum_remove (tx_usage P) x) by done.
  rewrite (set_sum_ext (tx_usage P') (tx_usage P)).
  - assert (tx_usage P x = nUsageSize e + (DynamicUsage (parents (links_at P x)) + DynamicUsage (children (links_at P x)))) as ->
      by (unfold tx_usage, of_entry, DynamicUsage; rewrite Hx; lia).
    lia.
  - intros t Ht. unfold tx_usage, links_at. rewrite left_of_entry by (set_solver || (intros ?? [=]; done)).
    by rewrite HL, lookup_delete_ne by set_solver.
Qed.

Lemma remove_one_detached : detached P' (S ∖ {[x]}).
Proof.
  assert (x ∈ dom (mapTx P)) as Hd by (apply elem_of_dom; eauto).
  assert (forall t, t ∉ S ∖ {[x]} -> t <> x -> t ∉ S) as Hout by set_solver.
  destruct (left_stats (dom (mapTx P) ∖ {[x]})) as [[= Hs1 _] Hs2]; [set_solver|].
  pose proof (d_bounds P S HD) as Hb. pose proof (d_entries P S HD x e Hx) as He.
  rewrite (set_sum_remove (tx_size P) x), (set_sum_remove (tx_ops P) x) in Hb by done.
  assert (tx_size P x = GetTxSize e /\ tx_ops P x = sigOpCost e) as [E1 E2] by (unfold tx_size, tx_ops, of_entry; by rewrite Hx).
  assert (forall f, (forall t e, mapTx P !! t = Some e -> 0 <= f e) -> 0 <= set_sum (of_entry f P) (dom (mapTx P) ∖ {[x]})) as Hpos.
  { intros f Hf. apply set_sum_nonneg. intros t _. unfold of_entry. destruct (mapTx P !! t) eqn:E; [by eapply Hf|lia]. }
  pose proof (Hpos GetTxSize ltac:(intros t e' H; apply (d_entries P S HD) in H; lia)) as Hp1. fold (tx_size P) in Hp1.
  constructor.
  - intros t e' (Hne & e0 & He0 & [= -> _ _ _ _ _ _] & _)%left_lookup. by apply (d_key P S HD).
  - intros t. rewrite left_is_Some, <- (d_dom P S HD), HL. destruct (decide (t = x)) as [->|].
    + rewrite lookup_delete_eq. split; [intros [? [=]]|naive_solver].
    + rewrite lookup_delete_ne by done. naive_solver.
  - rewrite left_dom. pose proof (d_sub P S HD). set_solver.
  - intros t e' l Ht He' Hl. apply left_lookup in He' as (Hne & e0 & He0 & [= -> _ _ _ _ _ _] & _).
    rewrite HL, lookup_delete_ne in Hl by done. rewrite (d_parents P S HD t e0 l (Hout t Ht Hne) He0 Hl).
    apply set_eq. intros y. rewrite !elem_of_difference, !elem_of_in_pool_inputs, left_is_Some, elem_of_singleton.
    destruct (decide (y = x)) as [->|]; naive_solver.
  - intros p c Hp [Hpx Hpc]%left_child. destruct (d_child P S HD p c (Hout p Hp Hpx) Hpc) as [Hc Hcp].
    split; [set_solver|]. apply left_parent. split; [set_solver|done].
  - intros c p Hc [Hcx Hcp]%left_parent. pose proof (parent_left c p (Hout c Hc Hcx) Hcp) as Hps.
    apply left_child. split; [set_solver|]. by apply (d_parent P S HD), Hcp; apply Hout.
  - intros t Ht (y & [Hne Hs]%left_parent & Hr)%tc_first. pose proof (Hout t Ht Hne) as HtS.
    apply (d_acyclic P S HD t HtS), tc_first. exists y. split; [done|]. apply left_up in Hr; [done|]. by apply (parent_left t).
  - apply left_next.
  - intros t e' D Ht (Hne & e0 & He0 & _ & -> & _)%left_lookup HDx. pose proof (Hout t Ht Hne) as HtS.
    assert (forall y, y ∈ D <-> rtc (child P) t y) as HD0 by (intros y; by rewrite HDx, left_down).
    destruct (left_stats D) as [-> _]; [intros H%HD0; by apply down_left in H|]. by apply (d_desc P S HD t).
  - intros t e' A Ht (Hne & e0 & He0 & _ & _ & ->)%left_lookup HAx. pose proof (Hout t Ht Hne) as HtS.
    assert (forall y, y ∈ A <-> rtc (parent P) t y) as HA0 by (intros y; by rewrite HAx, left_up).
    destruct (left_stats A) as [-> ->]; [intros H%HA0; by apply up_left in H|]. by apply (d_anc P S HD t).
  - rewrite Htot, (d_total P S HD), left_dom, Hs1, (set_sum_remove (tx_size P) x) by done. rewrite u64_small by lia. lia.
  - apply left_usage.
  - intros i t. rewrite HV, Hv, HT. setoid_rewrite lookup_delete_Some. naive_solver.
  - intros t e' (Hne & e0 & He0 & Hc & _)%left_lookup. rewrite (core_size _ _ Hc), (core_ops _ _ Hc). by apply (d_entries P S HD t).
  - rewrite left_dom, Hs1, Hs2. lia.
Qed.
End remove_one.

(** What is left of a pool: the entries outside a set, with the same transactions. *)
Definition left_of (P P' : CTxMemPool) (S : gset uint256) : Prop :=
  dom (mapTx P') = dom (mapTx P) ∖ S /\ mapDeltas P' = mapDeltas P /\
  forall t e', mapTx P' !! t = Some e' -> exists e, mapTx P !! t = Some e /\ core e' = core e.

Lemma left_of_refl P : left_of P P ∅.
Proof. split; [set_solver|]. split; [done|]. eauto. Qed.

Lemma left_of_trans P P1 P2 S1 S2 : left_of P P1 S1 -> left_of P1 P2 S2 -> left_of P P2 (S1 ∪ S2).
Proof.
  intros (D1 & M1 & E1) (D2 & M2 & E2). split; [rewrite D2, D1; set_solver|]. split; [congruence|].
  intros t e2 (e1 & H1 & Hc1)%E2. apply E1 in H1 as (e0 & H0 & Hc0). exists e0. split; [done|congruence].
Qed.

Lemma removeUnchecked_detached P S x : detached P S -> x ∈ S ->
  exists P', removeUnchecked x P = Some P' /\ detached P' (S ∖ {[x]}) /\ left_of P P' {[x]}.
Proof.
  intros HD Hin. pose proof (d_sub P S HD x Hin) as Hd. apply elem_of_dom in Hd as [e He].
  destruct (removeUnchecked_shape P x e He (d_hashes P S HD)) as (P' & m & v & HR & [= HT HL HN Htot Hus HV HM] & Hm & Hv).
  exists P'. split; [done|]. split; [by eapply remove_one_detached|].
  split; [by eapply left_dom|]. split; [done|]. intros t e' H. eapply left_lookup in H as (_ & e0 & He0 & Hc & _); eauto.
Qed.

Lemma removeUnchecked_loop P S : detached P S ->
  exists P', foldM (fun P it => removeUnchecked it P) P (set_elems S) = Some P' /\ consistent P' /\ left_of P P' S.
Proof.
  intros HD. destruct (foldM_visit (fun P it => removeUnchecked it P)
    (fun done Q => detached Q (S ∖ list_to_set done) /\ left_of P Q (list_to_set done)) (set_elems S) P) as (P' & HP' & HD' & Hl).
  - split; [|apply left_of_refl]. by replace (S ∖ list_to_set []) with S by set_solver.
  - intros done x rest Q E (HQ & HlQ). pose proof (set_elems_NoDup S) as Hnd. rewrite E in Hnd.
    apply NoDup_app in Hnd as (_ & Hnd & _).
    destruct (removeUnchecked_detached Q (S ∖ list_to_set done) x HQ) as (Q' & HQ' & HD' & Hl').
    { apply elem_of_difference. split; [apply elem_of_set_elems; rewrite E; set_solver|].
      rewrite elem_of_list_to_set. intros H. apply (Hnd x H). set_solver. }
    exists Q'. split; [done|]. rewrite list_to_set_app_L. split; [|replace (list_to_set [x] : gset uint256) with ({[x]} : gset uint256) by set_solver; by eapply left_of_trans].
    replace (S ∖ (list_to_set done ∪ list_to_set [x])) with (S ∖ list_to_set done ∖ {[x]}) by set_solver. done.
  - exists P'. split; [done|].
    assert (list_to_set (set_elems S) = S) as E by (apply set_eq; intros t; rewrite elem_of_list_to_set; apply elem_of_set_elems).
    rewrite E in HD', Hl. split; [|done]. apply detached_empty. by replace ∅ with (S ∖ S) by set_solver.
Qed.

(** ** Detaching entries with all that depends on them *)

(** The loop that makes the ancestors forget: what has been visited is gone
    from the children and from the statistics of the ancestors. *)
Record forgotten (P Q : CTxMemPool) (done : list uint256) : Prop := {
  fg_rest : exists m k c, Q = with_mapTx m (with_cachedInnerUsage c (with_mapLinks k P));
  fg_links : forall t, mapLinks Q !! t = (fun l => mkLinks (parents l) (children l ∖ list_to_set done)) <$> mapLinks P !! t;
  fg_usage : cachedInnerUsage Q = u64 (set_sum (tx_usage Q) (dom (mapTx Q)));
  fg_dom : forall t, is_Some (mapTx Q !! t) <-> is_Some (mapTx P !! t);
  fg_entry : forall t e e', mapTx P !! t = Some e -> mapTx Q !! t = Some e' ->
     core e' = core e /\ anc_state e' = anc_state e /\ vTxHashesIdx e' = vTxHashesIdx e /\
     forall R : gset uint256, (forall x, x ∈ R <-> x ∈ done /\ tc (parent P) x t) ->
       desc_state e' = (nCountWithDescendants e - Z.of_nat (size R), nSizeWithDescendants e - set_sum (tx_size P) R,
                        nModFeesWithDescendants e - set_sum (tx_fee P) R)
}.

Section forget.
Context (P : CTxMemPool).
Hypothesis HC : consistent P.

Lemma tc_parent_iff x t : tc (parent P) x t <-> x <> t /\ rtc (child P) t x.
Proof.
  rewrite (rtc_converse (child P) (parent P)) by apply (c_children P HC). rewrite rtc_tc. split; [|naive_solver].
  intros H. split; [|by right]. intros ->. by apply (c_acyclic P HC t).
Qed.

Context (Q : CTxMemPool) (done : list uint256).
Hypothesis HF : forgotten P Q done.

Lemma forgotten_parent c p : parent Q c p <-> parent P c p.
Proof.
  unfold parent. rewrite (fg_links P Q done HF). destruct (mapLinks P !! c) as [l|]; cbn; [|naive_solver].
  split; intros (l' & [= <-] & H); eexists; (split; [done|]); exact H.
Qed.

Lemma forgotten_up c p : tc (parent Q) c p <-> tc (parent P) c p.
Proof.
  split; intros H; induction H as [a b Hab|a b d Hab _ IH]; apply forgotten_parent in Hab;
    (by apply tc_once) || (by eapply tc_l).
Qed.

Lemma forgotten_lookup t e : mapTx P !! t = Some e -> exists e', mapTx Q !! t = Some e'.
Proof. intros H. apply (fg_dom P Q done HF). eauto. Qed.

Lemma forgotten_dom : dom (mapTx Q) = dom (mapTx P).
Proof. apply set_eq. intros t. rewrite !elem_of_dom. apply (fg_dom P Q done HF). Qed.

Lemma forgotten_of_entry f t : (forall e e', core e' = core e -> f e' = f e) -> of_entry f Q t = of_entry f P t.
Proof.
  intros Hf. unfold of_entry. destruct (mapTx P !! t) as [e|] eqn:E.
  - destruct (forgotten_lookup t e E) as [e' E']. rewrite E'. apply Hf. by apply (fg_entry P Q done HF t).
  - destruct (mapTx Q !! t) eqn:E'; [|done]. exfalso.
    assert (is_Some (mapTx P !! t)) as [? H] by (apply (fg_dom P Q done HF); eauto). congruence.
Qed.

(** The statistics are those of the descendants that have not been visited. *)
Lemma forgotten_desc t e e' D : mapTx P !! t = Some e -> mapTx Q !! t = Some e' -> (forall x, x ∈ D <-> rtc (child P) t x) ->
  desc_state e' = stats P (D ∖ (D ∖ {[t]} ∩ list_to_set done)).
Proof.
  intros He He' HD. destruct (fg_entry P Q done HF t e e' He He') as (_ & _ & _ & HR).
  rewrite (HR (D ∖ {[t]} ∩ list_to_set done)).
  - pose proof (c_desc P HC t e D He HD) as [= -> -> ->]. unfold stats. rewrite <- !set_sum_one.
    rewrite !set_sum_difference by set_solver. done.
  - intros x. rewrite tc_parent_iff, elem_of_intersection, elem_of_difference, elem_of_singleton, HD, elem_of_list_to_set. naive_solver.
Qed.

Lemma forgotten_room t e' : mapTx Q !! t = Some e' ->
  0 < GetTxSize e' <= nSizeWithDescendants e' /\ nSizeWithDescendants e' < 2 ^ 63 /\ 0 < nCountWithDescendants e' < 2 ^ 63.
Proof.
  intros He'. assert (is_Some (mapTx P !! t)) as [e He] by (apply (fg_dom P Q done HF); eauto).
  destruct (descendants_exist P HC t ltac:(eauto)) as (D & HD & Hsub & Hin).
  pose proof (forgotten_desc t e e' D He He' HD) as [= Hn Hs _]. destruct (fg_entry P Q done HF t e e' He He') as (Hc & _).
  set (D' := D ∖ _) in *. assert (t ∈ D') as Ht by set_solver. assert (D' ⊆ dom (mapTx P)) as Hd by set_solver.
  pose proof (sum_size_bounds P HC D' Hd) as Hb. rewrite (size_remove t D' Ht) in Hn, Hb.
  pose proof (sum_size_bounds P HC (D' ∖ {[t]}) ltac:(set_solver)) as Hb'. rewrite (set_sum_remove _ t D' Ht) in Hs, Hb.
  assert (tx_size P t = GetTxSize e') as E by (unfold tx_size, of_entry; rewrite He; by rewrite (core_size _ _ Hc)).
  pose proof (c_entries P HC t e He). rewrite (core_size _ _ Hc) in E |- *. lia.
Qed.

Lemma forgotten_sized s : 0 < s < 2 ^ 63 -> sized Q s.
Proof.
  intros Hs. pose proof (c_bounds P HC). split; [lia|]. split; [intros a e He; apply (forgotten_room a e He)|]. split.
  - rewrite forgotten_dom, (set_sum_ext (tx_size Q) (tx_size P)) by (intros; apply forgotten_of_entry, core_size). lia.
  - intros a e He. pose proof (forgotten_room a e He). lia.
Qed.

Lemma forgotten_known : parents_known Q.
Proof.
  intros c Hc%(fg_dom P Q done HF). split.
  - rewrite (fg_links P Q done HF), fmap_is_Some. by apply (c_dom P HC).
  - intros p Hp%forgotten_parent. apply (fg_dom P Q done HF). apply (parent_in_pool P HC c p Hp).
Qed.
End forget.

Section forget_step.
Context (P Q : CTxMemPool) (done : list uint256) (r : uint256) (er : CTxMemPoolEntry) (lr : TxLinks).
Hypothesis HC : consistent P.
Hypothesis HF : forgotten P Q done.
Hypothesis Hr : mapTx Q !! r = Some er.
Hypothesis Hlr : mapLinks P !! r = Some lr.
Hypothesis Hnew : r ∉ done.

(** An ancestor still counts itself and the entry it is about to forget. *)
Lemma forget_room a ea : mapTx Q !! a = Some ea -> tc (parent P) r a ->
  0 < nSizeWithDescendants ea + sign false * GetTxSize er < 2 ^ 63 /\ 0 < nCountWithDescendants ea + sign false < 2 ^ 63.
Proof.
  intros Hea Ha. pose proof (forgotten_room P HC Q done HF a ea Hea) as Hra. unfold sign.
  assert (is_Some (mapTx P !! a)) as [ea0 Hea0] by (apply (fg_dom P Q done HF); eauto).
  destruct (descendants_exist P HC a ltac:(eauto)) as (D & HD & HDs & HDa).
  pose proof (forgotten_desc P HC Q done HF a ea0 ea D Hea0 Hea HD) as [= Hn Hs _].
  set (D' := D ∖ _) in *. apply (tc_parent_iff P HC) in Ha as [Hne Hra'].
  assert (r ∈ D') as HrD
    by (apply elem_of_difference; split; [by apply HD|]; rewrite elem_of_intersection, elem_of_list_to_set; naive_solver).
  assert (a ∈ D' ∖ {[r]}) as HaD by set_solver.
  pose proof (sum_size_bounds P HC (D' ∖ {[r]} ∖ {[a]}) ltac:(set_solver)).
  rewrite (set_sum_remove _ r D' HrD), (set_sum_remove _ a _ HaD) in Hs.
  rewrite (size_remove r D' HrD), (size_remove a _ HaD) in Hn.
  assert (forall t e, mapTx Q !! t = Some e -> tx_size P t = GetTxSize e) as E.
  { intros t e Ht. unfold tx_size. rewrite <- (forgotten_of_entry P Q done HF GetTxSize t core_size). unfold of_entry. by rewrite Ht. }
  rewrite (E r er Hr), (E a ea Hea) in Hs. pose proof (forgotten_room P HC Q done HF r er Hr). lia.
Qed.

Lemma forget_shape : exists Q' m k (Anc : gset uint256), forget_descendant Q r = Some Q' /\
  Q' = with_mapTx m (with_cachedInnerUsage (u64 (cachedInnerUsage Q + -1 * IncrementalDynamicUsage * Z.of_nat (size (parents lr)))) (with_mapLinks k Q)) /\
  (forall x, x ∈ Anc <-> tc (parent P) r x) /\
  (forall x, k !! x = if decide (x ∈ parents lr) then drop_child r <$> mapLinks Q !! x else mapLinks Q !! x) /\
  forall t, m !! t = if decide (t ∈ Anc) then mapTx Q !! t ≫= UpdateDescendantState (- GetTxSize er) (- GetModifiedFee er) (-1)
                     else mapTx Q !! t.
Proof.
  assert (is_Some (mapTx P !! r)) as [e0 He0] by (apply (fg_dom P Q done HF); eauto).
  destruct (fg_entry P Q done HF r e0 er He0 Hr) as ([= Htx _ _ _ _ _ _] & _).
  assert (ct_hash (e_tx er) = r) as Hkey by (rewrite Htx; by apply (c_key P HC)).
  pose proof (forgotten_room P HC Q done HF r er Hr) as Hroom.
  assert (mapLinks Q !! r = Some (mkLinks (parents lr) (children lr ∖ list_to_set done))) as HlQ by (by rewrite (fg_links P Q done HF), Hlr).
  destruct (all_ancestors_linked Q er (mkLinks (parents lr) (children lr ∖ list_to_set done))) as (Anc & HAnc & Hsub & HAx);
    [by eapply forgotten_known|apply (forgotten_sized P HC Q done HF); lia|rewrite Hkey; eauto|by rewrite Hkey|].
  rewrite Hkey in HAx. assert (forall x, x ∈ Anc <-> tc (parent P) r x) as HAP by (intros x; rewrite HAx; by eapply forgotten_up).
  unfold forget_descendant. rewrite Hr. cbn [mbind option_bind]. rewrite HAnc. cbn [mbind option_bind].
  edestruct (UpdateAncestorsOf_shape false r Anc Q er) as (m & k & HU & Hk & Hm); [done|exact HlQ|lia|..].
  { rewrite (fg_usage P Q done HF). apply u64_small, u64_range. }
  { intros p Hp. cbn in Hp. assert (parent P r p) as Hpar by (by exists lr).
    apply (c_children P HC) in Hpar as (lp & Hlp & Hc). rewrite (fg_links P Q done HF), Hlp. eexists; split; [done|]. cbn.
    split; [done|]. intros _. apply elem_of_difference. split; [done|]. by rewrite elem_of_list_to_set. }
  { intros a Ha. pose proof (Hsub a Ha) as Hd. apply elem_of_dom in Hd as [ea Hea]. exists ea. split; [done|].
    apply forget_room with (a := a); [done|by apply HAP]. }
  rewrite HU. eexists _, m, k, Anc. split; [reflexivity|]. split; [reflexivity|]. split; [done|]. split; [exact Hk|].
  intros t. rewrite Hm. unfold sign. by replace (-1 * GetTxSize er) with (- GetTxSize er) by lia;
    replace (-1 * GetModifiedFee er) with (- GetModifiedFee er) by lia.
Qed.

Section result.
Context (Q' : CTxMemPool) (Anc : gset uint256).
Hypothesis HAnc : forall x, x ∈ Anc <-> tc (parent P) r x.
Hypothesis Hk : forall x, mapLinks Q' !! x = if decide (x ∈ parents lr) then drop_child r <$> mapLinks Q !! x else mapLinks Q !! x.
Hypothesis Hm : forall t, mapTx Q' !! t =
  if decide (t ∈ Anc) then mapTx Q !! t ≫= UpdateDescendantState (- GetTxSize er) (- GetModifiedFee er) (-1) else mapTx Q !! t.

Lemma forget_ancestor_state t eq : t ∈ Anc -> mapTx Q !! t = Some eq ->
  exists e', mapTx Q' !! t = Some e' /\ core e' = core eq /\ anc_state e' = anc_state eq /\ vTxHashesIdx e' = vTxHashesIdx eq /\
    desc_state e' = (nCountWithDescendants eq - 1, nSizeWithDescendants eq - GetTxSize er, nModFeesWithDescendants eq - GetModifiedFee er).
Proof.
  intros Ha Heq. rewrite Hm, decide_True, Heq by done. apply HAnc in Ha. destruct (forget_room t eq Heq Ha) as [H1 H2].
  unfold sign in H1, H2.
  destruct (UpdateDescendantState_ok (- GetTxSize er) (- GetModifiedFee er) (-1) eq) as (e' & E & Hs); [lia..|]. by exists e'.
Qed.

Lemma forget_is_Some t : is_Some (mapTx Q' !! t) <-> is_Some (mapTx P !! t).
Proof.
  rewrite <- (fg_dom P Q done HF). destruct (decide (t ∈ Anc)) as [Ha|Ha]; [|by rewrite Hm, decide_False].
  split; [rewrite Hm, decide_True by done; intros [e' (eq & Heq & _)%bind_Some]; eauto|].
  intros [eq Heq]. destruct (forget_ancestor_state t eq Ha Heq) as (e' & He' & _). eauto.
Qed.

Lemma forget_links t :
  mapLinks Q' !! t = (fun l => mkLinks (parents l) (children l ∖ list_to_set (done ++ [r]))) <$> mapLinks P !! t.
Proof.
  rewrite Hk, (fg_links P Q done HF). destruct (mapLinks P !! t) as [l|] eqn:El; cbn; [|by destruct (decide _)].
  destruct (decide (t ∈ parents lr)) as [Hp|Hp]; unfold drop_child; cbn [parents children]; do 2 f_equal;
    rewrite list_to_set_app_L.
  - set_solver.
  - assert (r ∉ children l); [|set_solver]. intros Hc. apply Hp. assert (child P t r) as H by (by exists l).
    apply (c_children P HC) in H as (lr' & Hlr' & H). by simplify_eq.
Qed.

Lemma forget_core t e e' : mapTx P !! t = Some e -> mapTx Q' !! t = Some e' ->
  core e' = core e /\ anc_state e' = anc_state e /\ vTxHashesIdx e' = vTxHashesIdx e.
Proof.
  intros He He'. destruct (forgotten_lookup P Q done HF t e He) as [eq Heq].
  destruct (fg_entry P Q done HF t e eq He Heq) as (<- & <- & <- & _).
  destruct (decide (t ∈ Anc)) as [Ha|Ha]; [|rewrite Hm, decide_False, Heq in He' by done; by injection He' as <-].
  destruct (forget_ancestor_state t eq Ha Heq) as (e'' & E & H1 & H2 & H3 & _). rewrite E in He'. injection He' as <-. done.
Qed.

Lemma forget_dom : dom (mapTx Q') = dom (mapTx P).
Proof. apply set_eq. intros t. rewrite !elem_of_dom. apply forget_is_Some. Qed.

Lemma forget_link_usage t : t ∈ dom (mapTx P) ->
  tx_usage Q' t = tx_usage Q t + if decide (t ∈ parents lr) then - IncrementalDynamicUsage else 0.
Proof.
  intros [e He]%elem_of_dom. assert (is_Some (mapTx Q' !! t)) as [e' He'] by (apply forget_is_Some; eauto).
  destruct (forgotten_lookup P Q done HF t e He) as [eq Heq]. destruct (fg_entry P Q done HF t e eq He Heq) as ([= _ _ _ Hu _ _ _] & _).
  destruct (forget_core t e e' He He') as ([= _ _ _ Hu' _ _ _] & _).
  unfold tx_usage, of_entry, links_at. rewrite He', Heq, Hu, Hu', Hk. destruct (decide (t ∈ parents lr)) as [Hp|]; [|lia].
  assert (parent P r t) as H by (by exists lr). apply (c_children P HC) in H as (l & Hl & Hc).
  rewrite (fg_links P Q done HF), Hl.
  change (default (mkLinks ∅ ∅) (drop_child r <$> ((fun l => mkLinks (parents l) (children l ∖ list_to_set done)) <$> Some l)))
    with (mkLinks (parents l) (children l ∖ list_to_set done ∖ {[r]})).
  change (default (mkLinks ∅ ∅) ((fun l => mkLinks (parents l) (children l ∖ list_to_set done)) <$> Some l))
    with (mkLinks (parents l) (children l ∖ list_to_set done)). cbn [parents children].
  rewrite (size_remove r (children l ∖ list_to_set done)) by (apply elem_of_difference; by rewrite elem_of_list_to_set). lia.
Qed.

Lemma forget_usage :
  cachedInnerUsage Q' = u64 (cachedInnerUsage Q + -1 * IncrementalDynamicUsage * Z.of_nat (size (parents lr))) ->
  cachedInnerUsage Q' = u64 (set_sum (tx_usage Q') (dom (mapTx Q'))).
Proof.
  intros ->. rewrite (fg_usage P Q done HF), u64_add_l, forget_dom, (forgotten_dom P Q done HF). f_equal.
  assert (parents lr ⊆ dom (mapTx P)) as Hsub.
  { intros p Hp. apply elem_of_dom. apply (parent_in_pool P HC r). by exists lr. }
  rewrite (union_difference_L (parents lr) (dom (mapTx P))) by done. rewrite !set_sum_union by set_solver.
  rewrite (set_sum_shift (tx_usage Q) (tx_usage Q') (- IncrementalDynamicUsage) (parents lr)),
    (set_sum_ext (tx_usage Q') (tx_usage Q) (dom (mapTx P) ∖ parents lr)); [lia|..].
  - intros x Hx. rewrite forget_link_usage, decide_False by set_solver. lia.
  - intros x Hx. rewrite forget_link_usage, decide_True by set_solver. lia.
Qed.

Lemma forget_desc t e e' (R : gset uint256) : mapTx P !! t = Some e -> mapTx Q' !! t = Some e' ->
  (forall x, x ∈ R <-> x ∈ done ++ [r] /\ tc (parent P) x t) ->
  desc_state e' = (nCountWithDescendants e - Z.of_nat (size R), nSizeWithDescendants e - set_sum (tx_size P) R,
                   nModFeesWithDescendants e - set_sum (tx_fee P) R).
Proof.
  intros He He' HR. destruct (forgotten_lookup P Q done HF t e He) as [eq Heq].
  destruct (fg_entry P Q done HF t e eq He Heq) as (_ & _ & _ & HD). destruct (decide (t ∈ Anc)) as [Ha|Ha].
  - destruct (forget_ancestor_state t eq Ha Heq) as (e'' & E & _ & _ & _ & Hs). rewrite E in He'. injection He' as <-.
    apply HAnc in Ha. assert (r ∈ R) as Hin by (apply HR; set_solver).
    specialize (HD (R ∖ {[r]})). rewrite (size_remove r R Hin), !(set_sum_remove _ r R Hin).
    assert (tx_size P r = GetTxSize er /\ tx_fee P r = GetModifiedFee er) as [-> ->].
    { unfold tx_size, tx_fee. rewrite <- (forgotten_of_entry P Q done HF GetTxSize r core_size),
        <- (forgotten_of_entry P Q done HF GetModifiedFee r core_fee). unfold of_entry. by rewrite Hr. }
    assert (forall x, x ∈ R ∖ {[r]} <-> x ∈ done /\ tc (parent P) x t) as HR'.
    { intros x. rewrite elem_of_difference, elem_of_singleton, HR, elem_of_app, list_elem_of_singleton. naive_solver. }
    rewrite Hs. specialize (HD HR'). injection HD as H1 H2 H3. rewrite H1, H2, H3. f_equal; [f_equal|]; lia.
  - rewrite Hm, decide_False, Heq in He' by done. injection He' as <-. apply HD. intros x.
    rewrite HR, elem_of_app, list_elem_of_singleton. rewrite HAnc in Ha. naive_solver.
Qed.
End result.

Lemma forget_step : exists Q', forget_descendant Q r = Some Q' /\ forgotten P Q' (done ++ [r]).
Proof.
  destruct forget_shape as (Q' & m & k & Anc & HQ' & E & HAnc & Hk & Hm). exists Q'. split; [done|].
  destruct (fg_rest P Q done HF) as (m0 & k0 & c0 & HQ).
  assert (mapTx Q' = m /\ mapLinks Q' = k /\ cachedInnerUsage Q' = u64 (cachedInnerUsage Q +
            -1 * IncrementalDynamicUsage * Z.of_nat (size (parents lr)))) as (E1 & E2 & E3) by (by rewrite E).
  rewrite <- E1 in Hm. rewrite <- E2 in Hk. constructor.
  - exists m, k. eexists. rewrite E, HQ. reflexivity.
  - by eapply forget_links.
  - by eapply forget_usage.
  - by eapply forget_is_Some.
  - intros t e e' He He'. destruct (forget_core Q' Anc HAnc Hm t e e' He He') as (H1 & H2 & H3).
    do 3 (split; [done|]). intros R HR. by eapply (forget_desc Q' Anc).
Qed.
End forget_step.

Lemma forgotten_init P : consistent P -> forgotten P P [].
Proof.
  intros HC. constructor.
  - exists (mapTx P), (mapLinks P), (cachedInnerUsage P). by destruct P.
  - intros t. destruct (mapLinks P !! t) as [[ps cs]|]; [|done]. cbn. do 2 f_equal. set_solver.
  - apply (c_usage P HC).
  - done.
  - intros t e e' He He'. simplify_eq. do 3 (split; [done|]). intros R HR.
    assert (R = ∅) as -> by (apply set_eq; intros x; rewrite HR; set_solver).
    unfold desc_state. rewrite !set_sum_empty, size_empty. f_equal; [f_equal|]; lia.
Qed.

Lemma forget_loop P S : consistent P -> S ⊆ dom (mapTx P) ->
  exists Q, foldM forget_descendant P (set_elems S) = Some Q /\ forgotten P Q (set_elems S).
Proof.
  intros HC HS. apply (foldM_visit forget_descendant (fun done Q => forgotten P Q done)); [by apply forgotten_init|].
  intros done r rest Q E HF.
  assert (r ∈ dom (mapTx P)) as Hr by (apply HS, elem_of_set_elems; rewrite E; set_solver).
  pose proof (set_elems_NoDup S) as Hnd. rewrite E in Hnd. apply NoDup_app in Hnd as (_ & Hnd & _).
  apply elem_of_dom in Hr as Hp. assert (is_Some (mapLinks P !! r)) as [lr Hlr] by (by apply (c_dom P HC)).
  destruct Hp as [e He]. destruct (forgotten_lookup P Q done HF r e He) as [er Her].
  apply (forget_step P Q done r er lr HC HF Her Hlr). intros H. apply (Hnd r H). set_solver.
Qed.

Section detach.
Context (P Q : CTxMemPool) (S : gset uint256).
Hypothesis HC : consistent P.
Hypothesis HS : S ⊆ dom (mapTx P).
Hypothesis Hclosed : forall x y, x ∈ S -> child P x y -> y ∈ S.
Hypothesis HF : forgotten P Q (set_elems S).

Lemma elems_set : list_to_set (set_elems S) = S.
Proof. apply set_eq. intros t. rewrite elem_of_list_to_set. apply elem_of_set_elems. Qed.

Lemma detach_child p c : child Q p c <-> child P p c /\ c ∉ S.
Proof.
  unfold child. rewrite (fg_links P Q _ HF), elems_set. destruct (mapLinks P !! p) as [l|]; cbn; [|naive_solver].
  split; [intros (l' & [= <-] & H); cbn in H; set_solver|]. intros [(l' & [= <-] & H) Hc].
  eexists; split; [done|]. cbn. set_solver.
Qed.

Lemma detach_outside c p : c ∉ S -> parent P c p -> p ∉ S.
Proof. intros Hc Hp%(c_children P HC) HpS. by apply Hc, (Hclosed p). Qed.

(** Outside the set everything is reached as before. *)
Lemma detach_down t x : t ∉ S -> rtc (child Q) t x <-> rtc (child P) t x /\ x ∉ S.
Proof.
  intros Ht. split.
  - intros H. induction H as [|a b c Hab _ IH]; [split; [apply rtc_refl|done]|]. apply detach_child in Hab as [Hab Hb].
    destruct (IH Hb) as [H1 H2]. split; [by eapply rtc_l|done].
  - intros [H Hx]. induction H as [|a b c Hab Hbc IH]; [apply rtc_refl|].
    assert (b ∉ S) as Hb.
    { intros HbS. apply Hx. clear IH Hab Ht Hx. induction Hbc as [|b d c Hbd _ IH]; [done|]. apply IH. by apply (Hclosed b). }
    eapply rtc_l; [by apply detach_child|]. by apply IH.
Qed.

Lemma detach_up t x : rtc (parent Q) t x <-> rtc (parent P) t x.
Proof. rewrite !rtc_tc. by rewrite (forgotten_up P Q _ HF). Qed.

Lemma detach_stats D : stats Q D = stats P D /\ set_sum (tx_ops Q) D = set_sum (tx_ops P) D.
Proof.
  unfold stats, tx_size, tx_fee, tx_ops.
  by rewrite !(set_sum_ext (of_entry _ Q) (of_entry _ P) D) by
    (intros; apply (forgotten_of_entry P Q _ HF); exact core_size || exact core_fee || exact core_ops).
Qed.

Lemma forgotten_fields :
  mapNextTx Q = mapNextTx P /\ totalTxSize Q = totalTxSize P /\ vTxHashes Q = vTxHashes P /\ mapDeltas Q = mapDeltas P.
Proof. destruct (fg_rest P Q _ HF) as (m & k & c & ->). done. Qed.

Lemma forgotten_back t e' : mapTx Q !! t = Some e' ->
  exists e, mapTx P !! t = Some e /\ core e' = core e /\ anc_state e' = anc_state e /\ vTxHashesIdx e' = vTxHashesIdx e.
Proof.
  intros He'. assert (is_Some (mapTx P !! t)) as [e He] by (apply (fg_dom P Q _ HF); eauto). exists e. split; [done|].
  destruct (fg_entry P Q _ HF t e e' He He') as (H1 & H2 & H3 & _). done.
Qed.

Lemma forgotten_inputs vin : in_pool_inputs Q vin = in_pool_inputs P vin.
Proof. apply set_eq. intros x. by rewrite !elem_of_in_pool_inputs, (fg_dom P Q _ HF). Qed.

Lemma forgotten_entry_iff (F : CoinTx -> nat -> Prop) t :
  (exists e, mapTx Q !! t = Some e /\ F (e_tx e) (vTxHashesIdx e)) <->
  (exists e, mapTx P !! t = Some e /\ F (e_tx e) (vTxHashesIdx e)).
Proof.
  split.
  - intros (e' & He' & H). destruct (forgotten_back t e' He') as (e & He & [= Hc _ _ _ _ _ _] & _ & Hi). exists e.
    by rewrite <- Hc, <- Hi.
  - intros (e & He & H). destruct (forgotten_lookup P Q _ HF t e He) as [e' He']. exists e'. split; [done|].
    destruct (forgotten_back t e' He') as (e0 & He0 & [= Hc _ _ _ _ _ _] & _ & Hi). simplify_eq. by rewrite Hc, Hi.
Qed.

Lemma forgotten_detached : detached Q S.
Proof.
  destruct forgotten_fields as (F1 & F2 & F3 & F4). pose proof (forgotten_dom P Q _ HF) as Hdom.
  constructor.
  - intros t e' (e & He & [= -> _ _ _ _ _ _] & _)%forgotten_back. by apply (c_key P HC).
  - intros t. rewrite (fg_dom P Q _ HF), (fg_links P Q _ HF), fmap_is_Some. apply (c_dom P HC).
  - by rewrite Hdom.
  - intros t e' l Ht (e & He & [= -> _ _ _ _ _ _] & _)%forgotten_back Hl. rewrite (fg_links P Q _ HF) in Hl.
    apply fmap_Some in Hl as (l0 & Hl0 & ->). cbn [parents]. rewrite forgotten_inputs, <- (c_parents P HC t e l0 He Hl0).
    apply set_eq. intros p. rewrite elem_of_difference. split; [|naive_solver]. intros Hp. split; [done|].
    apply (detach_outside t); [done|by exists l0].
  - intros p c Hp [Hpc Hc]%detach_child. split; [done|]. by apply (forgotten_parent P Q _ HF), (c_children P HC).
  - intros c p Hc Hcp%(forgotten_parent P Q _ HF). apply detach_child. split; [by apply (c_children P HC)|done].
  - intros t _. rewrite (forgotten_up P Q _ HF). apply (c_acyclic P HC).
  - intros k t. rewrite F1, (c_next P HC).
    pose proof (forgotten_entry_iff (fun tx _ => exists o, o ∈ ct_vin tx /\ out_key o = k) t) as [H1 H2].
    split; intros (e & o & He & Ho & Hk); [destruct H2 as (e' & He' & o' & Ho' & Hk')|destruct H1 as (e' & He' & o' & Ho' & Hk')];
      eauto 10.
  - intros t e' D Ht He' HD. destruct (forgotten_back t e' He') as (e & He & _).
    destruct (descendants_exist P HC t ltac:(eauto)) as (D0 & HD0 & _).
    rewrite (forgotten_desc P HC Q _ HF t e e' D0 He He' HD0), elems_set. destruct (detach_stats D) as [-> _]. f_equal.
    apply set_eq. intros x. rewrite HD, (detach_down t x Ht), !elem_of_difference, elem_of_intersection, elem_of_difference, HD0.
    rewrite elem_of_singleton. destruct (decide (x ∈ S)) as [HxS|]; [|naive_solver].
    assert (x <> t) by (intros ->; done). naive_solver.
  - intros t e' A _ (e & He & _ & -> & _)%forgotten_back HA. destruct (detach_stats A) as [-> ->].
    apply (c_anc P HC t); [done|]. intros x. rewrite HA. apply detach_up.
  - rewrite F2, (c_total P HC), Hdom. destruct (detach_stats (dom (mapTx P))) as [[= -> _] _]. done.
  - apply (fg_usage P Q _ HF).
  - intros i t. rewrite F3, (c_hashes P HC).
    symmetry. apply (forgotten_entry_iff (fun _ j => j = i) t).
  - intros t e' (e & He & Hc & _)%forgotten_back. rewrite (core_size _ _ Hc), (core_ops _ _ Hc). by apply (c_entries P HC t).
  - rewrite Hdom. destruct (detach_stats (dom (mapTx P))) as [[= -> _] ->]. apply (c_bounds P HC).
Qed.
End detach.

(** ** Removing a set with all its descendants *)

Lemma RemoveStaged_closed P S : consistent P -> S ⊆ dom (mapTx P) -> (forall x y, x ∈ S -> child P x y -> y ∈ S) ->
  exists P', RemoveStaged S false P = Some P' /\ consistent P' /\ left_of P P' S.
Proof.
  intros HC HS Hclosed. destruct (forget_loop P S HC HS) as (Q & HQ & HF).
  assert (foldM (fun P removeIt => UpdateChildrenForRemoval removeIt P) Q (set_elems S) = Some Q) as H3.
  { destruct (foldM_visit (fun P removeIt => UpdateChildrenForRemoval removeIt P) (fun _ Q' => Q' = Q) (set_elems S) Q)
      as (Q' & -> & ->); [done| |done]. intros done r rest Q' E ->. exists Q. split; [|done].
    assert (r ∈ S) as Hr by (apply elem_of_set_elems; rewrite E; set_solver).
    assert (is_Some (mapLinks P !! r)) as [l Hl] by (by apply (c_dom P HC), elem_of_dom, HS).
    unfold UpdateChildrenForRemoval, GetMemPoolChildren. rewrite (fg_links P Q _ HF), Hl.
    cbn [fmap option_fmap option_map mbind option_bind children]. rewrite elems_set.
    replace (children l ∖ S) with (∅ : gset uint256); [by rewrite set_elems_empty|].
    apply set_eq. intros c. rewrite elem_of_difference. split; [set_solver|]. intros [Hc Hn]. exfalso.
    apply Hn, (Hclosed r); [done|by exists l]. }
  destruct (removeUnchecked_loop Q S) as (P' & HP' & HC' & Hl); [by apply (forgotten_detached P)|].
  exists P'. split; [|split; [done|]].
  - unfold RemoveStaged, UpdateForRemoveFromMempool. cbn [mbind option_bind]. rewrite HQ. cbn [mbind option_bind].
    rewrite H3. cbn [mbind option_bind]. exact HP'.
  - replace S with (∅ ∪ S) by set_solver. eapply left_of_trans; [|done]. split; [rewrite (forgotten_dom P Q _ HF); set_solver|].
    split; [by apply (forgotten_fields P Q S)|]. intros t e' H. destruct (forgotten_back P Q S HF t e' H) as (e & He & Hc & _). eauto.
Qed.
