(* ===== verification/MempoolBlock.v ===== *)
(** * The transaction pool and blocks

    A block confirms transactions of the pool, in the order in which they
    depend on each other: [removeForBlock] takes each out of the pool, with the
    statistics of what depends on it, and removes what conflicts with it.  Here
    are the theorems on the whole pool. *)
From stdpp Require Import relations.
From S2P Require Import Prelude Transaction TxCheck Mempool MempoolGraph MempoolSteps MempoolProps MempoolRemove.

(** ** Detaching one entry from the top *)

Lemma set_elems_singleton x : set_elems {[x]} = [x].
Proof. unfold set_elems. by rewrite elements_singleton. Qed.

Section top.
Context (P : CTxMemPool) (r : uint256) (er : CTxMemPoolEntry) (lr : TxLinks).
Hypothesis HC : consistent P.
Hypothesis Hr : mapTx P !! r = Some er.
Hypothesis Hlr : mapLinks P !! r = Some lr.
Hypothesis Htop : forall p, ~ parent P r p.

Lemma top_parents : parents lr = ∅.
Proof. apply set_eq. intros p. split; [|set_solver]. intros Hp. exfalso. apply (Htop p). by exists lr. Qed.

(** What depends on the entry counts it among its ancestors. *)
Lemma descendant_room d ed : d <> r -> rtc (child P) r d -> mapTx P !! d = Some ed ->
  exists e', UpdateAncestorState (- GetTxSize er) (- GetModifiedFee er) (-1) (i32 (- sigOpCost er)) ed = Some e' /\
    core e' = core ed /\ desc_state e' = desc_state ed /\ vTxHashesIdx e' = vTxHashesIdx ed /\
    anc_state e' = (nCountWithAncestors ed - 1, nSizeWithAncestors ed - GetTxSize er, nModFeesWithAncestors ed - GetModifiedFee er,
                    nSigOpCostWithAncestors ed - sigOpCost er).
Proof.
  intros Hne Hrd Hed. destruct (ancestors_exist P HC d ltac:(eauto)) as (A & HA & Hsub & Hd).
  pose proof (c_anc P HC d ed A Hed HA) as [= Hn Hs _ Ho].
  assert (r ∈ A) as HrA by (apply HA; by apply (rtc_converse (child P) (parent P)); [apply (c_children P HC)|]).
  assert (d ∈ A ∖ {[r]}) as HdA by set_solver.
  pose proof (sum_size_bounds P HC A Hsub) as Hb. pose proof (sum_ops_bounds P HC A Hsub) as Hbo.
  pose proof (sum_size_bounds P HC (A ∖ {[r]} ∖ {[d]}) ltac:(set_solver)) as Hb2.
  pose proof (sum_ops_bounds P HC (A ∖ {[r]}) ltac:(set_solver)) as Hbo2.
  rewrite (set_sum_remove _ r A HrA) in Hs, Hb. rewrite (set_sum_remove _ r A HrA) in Ho, Hbo. rewrite (set_sum_remove _ d _ HdA) in Hs, Hb.
  rewrite (size_remove r A HrA), (size_remove d _ HdA) in Hn, Hb.
  assert (tx_size P r = GetTxSize er /\ tx_ops P r = sigOpCost er /\ tx_size P d = GetTxSize ed) as (E1 & E2 & E3)
    by (unfold tx_size, tx_ops, of_entry; by rewrite Hr, Hed).
  pose proof (c_entries P HC r er Hr). pose proof (c_entries P HC d ed Hed).
  rewrite (i32_small (- sigOpCost er)) by lia.
  apply (UpdateAncestorState_ok (- GetTxSize er) (- GetModifiedFee er) (-1) (- sigOpCost er) ed); lia.
Qed.

Lemma top_shape : exists Q m k, UpdateForRemoveFromMempool {[r]} true P = Some Q /\
  Q = with_cachedInnerUsage (u64 (cachedInnerUsage P + - IncrementalDynamicUsage * Z.of_nat (size (children lr)))) (with_mapLinks k (with_mapTx m P)) /\
  (forall t, k !! t = if decide (t ∈ children lr) then drop_parent r <$> mapLinks P !! t else mapLinks P !! t) /\
  (forall t e, mapTx P !! t = Some e -> exists e', m !! t = Some e' /\ core e' = core e /\ desc_state e' = desc_state e /\
     vTxHashesIdx e' = vTxHashesIdx e /\
     (t <> r -> rtc (child P) r t ->
        anc_state e' = (nCountWithAncestors e - 1, nSizeWithAncestors e - GetTxSize er, nModFeesWithAncestors e - GetModifiedFee er,
                        nSigOpCostWithAncestors e - sigOpCost er)) /\
     (~ rtc (child P) r t -> anc_state e' = anc_state e)) /\
  (forall t, mapTx P !! t = None -> m !! t = None).
Proof.
  destruct (CalculateDescendants_spec P r ∅ (consistent_linked P HC)) as (D & HDc & HD); [eauto|set_solver|].
  destruct (descendants_exist P HC r ltac:(eauto)) as (D' & HD' & Hsub & _).
  assert (D' = D) as -> by (apply set_eq; intros x; rewrite HD', HD; set_solver). clear HD.
  destruct (modify_loop (UpdateAncestorState (- GetTxSize er) (- GetModifiedFee er) (-1) (i32 (- sigOpCost er)))
              (set_elems (D ∖ {[r]})) P) as (m & Hm & Hmt); [apply set_elems_NoDup| |].
  { intros t [Ht Hne]%elem_of_set_elems%elem_of_difference. pose proof (Hsub t Ht) as Hd. apply elem_of_dom in Hd as [e He].
    destruct (descendant_room t e) as (e' & He' & _); [set_solver|by apply HD'|done|]. eauto. }
  assert (m !! r = Some er) as Hmr by (rewrite Hmt, decide_False; [done|]; rewrite elem_of_set_elems; set_solver).
  destruct (links_loop (fun P c => UpdateParent c r false P) (drop_parent r) (- IncrementalDynamicUsage) (set_elems (children lr))
              (fun l => r ∈ parents l) (with_mapTx m P)) as (k & Hk & Hkt).
  { intros P' x l Hl Hp. by apply UpdateParent_drop. }
  { apply set_elems_NoDup. }
  { intros c Hc%elem_of_set_elems. assert (child P r c) as H by (by exists lr). apply (c_children P HC) in H as (l & Hl & Hp). eauto. }
  assert (foldl (fun P c => UpdateParent c r false P) (with_mapTx m P) (set_elems (children lr)) =
          with_cachedInnerUsage (u64 (cachedInnerUsage P + - IncrementalDynamicUsage * Z.of_nat (size (children lr))))
            (with_mapLinks k (with_mapTx m P))) as Hfold.
  { rewrite Hk, usage_loop, length_set_elems; [done|]. cbn [cachedInnerUsage with_mapTx]. rewrite (c_usage P HC). apply u64_small, u64_range. }
  eexists _, m, k. split; [|split; [reflexivity|split; [|split]]].
  - unfold UpdateForRemoveFromMempool. rewrite set_elems_singleton. cbn [foldM].
    unfold forget_ancestor at 1. rewrite HDc. cbn [mbind option_bind]. rewrite Hr. cbn [mbind option_bind]. rewrite Hm.
    cbn [mbind option_bind]. unfold forget_descendant at 1. cbn [mapTx with_mapTx]. rewrite Hmr. cbn [mbind option_bind].
    assert (all_ancestors (with_mapTx m P) er false = Some ∅) as ->.
    { unfold all_ancestors, CalculateMemPoolAncestors, GetMemPoolParents. rewrite (c_key P HC r er Hr). cbn [mapLinks with_mapTx].
      rewrite Hlr. cbn [fmap option_fmap option_map mbind option_bind]. rewrite top_parents.
      destruct (size (mapTx (with_mapTx m P))); cbn [ascend]; by rewrite set_elems_empty. }
    cbn [mbind option_bind]. unfold UpdateAncestorsOf at 1, GetMemPoolParents at 1. cbn [mapLinks with_mapTx]. rewrite Hlr.
    cbn [fmap option_fmap option_map mbind option_bind]. rewrite top_parents, set_elems_empty. cbn [foldl mapTx with_mapTx]. rewrite Hmr.
    cbn [mbind option_bind foldM]. unfold UpdateChildrenForRemoval, GetMemPoolChildren. cbn [mapLinks with_mapTx]. rewrite Hlr.
    cbn [fmap option_fmap option_map mbind option_bind]. by rewrite Hfold.
  - intros t. rewrite Hkt. cbn [mapLinks with_mapTx]. destruct (decide (t ∈ set_elems (children lr))) as [H|H]; rewrite elem_of_set_elems in H;
      [by rewrite decide_True|by rewrite decide_False].
  - intros t e He. rewrite Hmt. destruct (decide (t ∈ set_elems (D ∖ {[r]}))) as [H|H];
      rewrite elem_of_set_elems, elem_of_difference, HD', elem_of_singleton in H.
    + destruct H as [H1 H2]. destruct (descendant_room t e H2 H1 He) as (e' & He' & Hs1 & Hs2 & Hs3 & Hs4).
      exists e'. rewrite He. split; [done|]. do 3 (split; [done|]). split; [done|]. intros Hn. by destruct Hn.
    + exists e. do 4 (split; [done|]). split; [|done]. intros Hne Hrt. exfalso. by apply H.
  - intros t Ht. rewrite Hmt, Ht. by destruct (decide (t ∈ set_elems (D ∖ {[r]}))).
Qed.

Section result.
Context (Q : CTxMemPool) (m : gmap uint256 CTxMemPoolEntry) (k : gmap uint256 TxLinks).
Hypothesis HQ : Q = with_cachedInnerUsage (u64 (cachedInnerUsage P + - IncrementalDynamicUsage * Z.of_nat (size (children lr))))
  (with_mapLinks k (with_mapTx m P)).
Hypothesis Hk : forall t, k !! t = if decide (t ∈ children lr) then drop_parent r <$> mapLinks P !! t else mapLinks P !! t.
Hypothesis Hm : forall t e, mapTx P !! t = Some e -> exists e', m !! t = Some e' /\ core e' = core e /\ desc_state e' = desc_state e /\
  vTxHashesIdx e' = vTxHashesIdx e /\
  (t <> r -> rtc (child P) r t ->
     anc_state e' = (nCountWithAncestors e - 1, nSizeWithAncestors e - GetTxSize er, nModFeesWithAncestors e - GetModifiedFee er,
                     nSigOpCostWithAncestors e - sigOpCost er)) /\
  (~ rtc (child P) r t -> anc_state e' = anc_state e).
Hypothesis Hnone : forall t, mapTx P !! t = None -> m !! t = None.

Lemma top_back t e' : mapTx Q !! t = Some e' -> exists e, mapTx P !! t = Some e /\ core e' = core e /\ desc_state e' = desc_state e /\
  vTxHashesIdx e' = vTxHashesIdx e /\
  (t <> r -> rtc (child P) r t ->
     anc_state e' = (nCountWithAncestors e - 1, nSizeWithAncestors e - GetTxSize er, nModFeesWithAncestors e - GetModifiedFee er,
                     nSigOpCostWithAncestors e - sigOpCost er)) /\
  (~ rtc (child P) r t -> anc_state e' = anc_state e).
Proof.
  rewrite HQ. cbn. intros He'. destruct (mapTx P !! t) as [e|] eqn:E; [|by rewrite Hnone in He'].
  destruct (Hm t e E) as (e'' & E' & Hs). rewrite E' in He'. injection He' as <-. eauto.
Qed.

Lemma top_is_Some t : is_Some (mapTx Q !! t) <-> is_Some (mapTx P !! t).
Proof.
  split; [intros [e' (e & He & _)%top_back]; eauto|]. intros [e He]. destruct (Hm t e He) as (e' & He' & _). rewrite HQ. eauto.
Qed.

Lemma top_dom : dom (mapTx Q) = dom (mapTx P).
Proof. apply set_eq. intros t. rewrite !elem_of_dom. apply top_is_Some. Qed.

Lemma top_of_entry f t : (forall e e', core e' = core e -> f e' = f e) -> of_entry f Q t = of_entry f P t.
Proof.
  intros Hf. unfold of_entry. destruct (mapTx Q !! t) as [e'|] eqn:E.
  - destruct (top_back t e' E) as (e & -> & Hc & _). by apply Hf.
  - destruct (mapTx P !! t) eqn:E0; [|done]. exfalso.
    assert (is_Some (mapTx Q !! t)) as [? H] by (apply top_is_Some; eauto). congruence.
Qed.

Lemma top_stats D : stats Q D = stats P D /\ set_sum (tx_ops Q) D = set_sum (tx_ops P) D.
Proof.
  unfold stats, tx_size, tx_fee, tx_ops.
  by rewrite !(set_sum_ext (of_entry _ Q) (of_entry _ P) D) by (intros; apply top_of_entry; exact core_size || exact core_fee || exact core_ops).
Qed.

Lemma top_links t : mapLinks Q !! t = drop_parent r <$> mapLinks P !! t.
Proof.
  rewrite HQ. cbn. rewrite Hk. destruct (decide (t ∈ children lr)) as [|Hn]; [done|].
  destruct (mapLinks P !! t) as [[ps cs]|] eqn:El; [|done]. cbn. unfold drop_parent. cbn. do 2 f_equal.
  assert (r ∉ ps); [|set_solver]. intros Hp. apply Hn. assert (parent P t r) as H by (eexists; split; [done|]; done).
  apply (c_children P HC) in H as (l & Hl & H). by simplify_eq.
Qed.

Lemma top_child p c : child Q p c <-> child P p c.
Proof.
  unfold child. rewrite top_links. destruct (mapLinks P !! p) as [l|]; cbn; [|naive_solver].
  split; intros (l' & [= <-] & H); eexists; (split; [done|]); exact H.
Qed.

Lemma top_parent c p : parent Q c p <-> parent P c p /\ p <> r.
Proof.
  unfold parent. rewrite top_links. destruct (mapLinks P !! c) as [l|]; cbn; [|naive_solver]. split.
  - intros (l' & [= <-] & H). cbn in H. split; [exists l; set_solver|set_solver].
  - intros [(l' & [= <-] & H) Hne]. eexists. split; [done|]. cbn. set_solver.
Qed.

Lemma top_down t x : rtc (child Q) t x <-> rtc (child P) t x.
Proof.
  split; intros H; (induction H as [|a b c Hab _ IH]; [apply rtc_refl|]); apply top_child in Hab; by eapply rtc_l.
Qed.

Lemma top_up t x : t <> r -> rtc (parent Q) t x <-> rtc (parent P) t x /\ x <> r.
Proof.
  intros Ht. split.
  - intros H. induction H as [|a b c Hab _ IH]; [split; [apply rtc_refl|done]|]. apply top_parent in Hab as [Hab Hb].
    destruct (IH Hb). split; [by eapply rtc_l|done].
  - intros [H Hx]. induction H as [|a b c Hab Hbc IH]; [apply rtc_refl|]. assert (b <> r) as Hb.
    { intros ->. apply rtc_inv in Hbc as [?|(y & Hy & _)]; [congruence|]. by apply Htop in Hy. }
    eapply rtc_l; [by apply top_parent|]. by apply IH.
Qed.

Lemma top_usage : cachedInnerUsage Q = u64 (set_sum (tx_usage Q) (dom (mapTx Q))).
Proof.
  assert (forall t, t ∈ dom (mapTx P) -> tx_usage Q t = tx_usage P t + if decide (t ∈ children lr) then - IncrementalDynamicUsage else 0) as Hu.
  { intros t Ht%elem_of_dom%(c_dom P HC). destruct Ht as [l Hl]. unfold tx_usage, links_at.
    rewrite top_of_entry by (intros ?? [=]; done). rewrite top_links, Hl.
    change (default (mkLinks ∅ ∅) (drop_parent r <$> Some l)) with (mkLinks (parents l ∖ {[r]}) (children l)).
    change (default (mkLinks ∅ ∅) (Some l)) with l. cbn [parents children].
    assert (r ∈ parents l <-> t ∈ children lr) as Hiff.
    { split; intros H; [assert (parent P t r) as H' by (by exists l); apply (c_children P HC) in H' as (l' & Hl' & H')
        |assert (child P r t) as H' by (by exists lr); apply (c_children P HC) in H' as (l' & Hl' & H')]; by simplify_eq. }
    destruct (decide (t ∈ children lr)) as [Hc|Hc].
    - apply Hiff in Hc. rewrite (size_remove r (parents l) Hc). lia.
    - replace (parents l ∖ {[r]}) with (parents l) by (rewrite <- Hiff in Hc; set_solver). lia. }
  assert (children lr ⊆ dom (mapTx P)) as Hsub.
  { intros c Hc. assert (child P r c) as H by (by exists lr). apply (c_children P HC), (parent_in_pool P HC) in H as [H _].
    by apply elem_of_dom. }
  rewrite top_dom. rewrite HQ at 1. cbn [cachedInnerUsage with_cachedInnerUsage]. rewrite (c_usage P HC), u64_add_l. f_equal.
  rewrite (union_difference_L (children lr) (dom (mapTx P))) by done. rewrite !set_sum_union by set_solver.
  rewrite (set_sum_shift (tx_usage P) (tx_usage Q) (- IncrementalDynamicUsage) (children lr)),
    (set_sum_ext (tx_usage Q) (tx_usage P) (dom (mapTx P) ∖ children lr)); [lia|..].
  - intros x Hx. rewrite Hu, decide_False by set_solver. lia.
  - intros x Hx. rewrite Hu, decide_True by set_solver. lia.
Qed.

Lemma top_entry_iff (F : CoinTx -> nat -> Prop) t :
  (exists e, mapTx Q !! t = Some e /\ F (e_tx e) (vTxHashesIdx e)) <->
  (exists e, mapTx P !! t = Some e /\ F (e_tx e) (vTxHashesIdx e)).
Proof.
  split.
  - intros (e' & He' & H). destruct (top_back t e' He') as (e & He & [= Hc _ _ _ _ _ _] & _ & Hi & _). exists e.
    by rewrite <- Hc, <- Hi.
  - intros (e & He & H). assert (is_Some (mapTx Q !! t)) as [e' He'] by (apply top_is_Some; eauto). exists e'. split; [done|].
    destruct (top_back t e' He') as (e0 & He0 & [= Hc _ _ _ _ _ _] & _ & Hi & _). simplify_eq. by rewrite Hc, Hi.
Qed.

Lemma top_anc t e' A : t <> r -> mapTx Q !! t = Some e' -> (forall x, x ∈ A <-> rtc (parent Q) t x) ->
  anc_state e' = (stats Q A, set_sum (tx_ops Q) A).
Proof.
  intros Ht He' HA. destruct (top_back t e' He') as (e & He & _ & _ & _ & Hdesc & Hother).
  destruct (top_stats A) as [-> ->]. destruct (ancestors_exist P HC t ltac:(eauto)) as (A0 & HA0 & Hsub & _).
  pose proof (c_anc P HC t e A0 He HA0) as Hst.
  assert (r ∈ A0 <-> rtc (child P) r t) as Hiff by (by rewrite HA0, (rtc_converse (child P) (parent P)) by apply (c_children P HC)).
  assert (A = A0 ∖ {[r]}) as -> by (apply set_eq; intros x; rewrite HA, top_up, elem_of_difference, HA0, elem_of_singleton; done).
  destruct (decide (r ∈ A0)) as [HrA|HrA].
  - rewrite Hdesc by (try done; by apply Hiff). injection Hst as H1 H2 H3 H4. rewrite H1, H2, H3, H4. unfold stats.
    rewrite (size_remove r A0 HrA), !(set_sum_remove _ r A0 HrA).
    assert (tx_size P r = GetTxSize er /\ tx_fee P r = GetModifiedFee er /\ tx_ops P r = sigOpCost er) as (-> & -> & ->)
      by (unfold tx_size, tx_fee, tx_ops, of_entry; by rewrite Hr).
    f_equal; [f_equal; [f_equal|]|]; lia.
  - rewrite Hother by (by rewrite <- Hiff). replace (A0 ∖ {[r]}) with A0 by set_solver. done.
Qed.

Lemma top_detached : detached Q {[r]}.
Proof.
  pose proof top_dom as Hdom.
  assert (mapNextTx Q = mapNextTx P /\ totalTxSize Q = totalTxSize P /\ vTxHashes Q = vTxHashes P) as (F1 & F2 & F3) by (by rewrite HQ).
  constructor.
  - intros t e' (e & He & [= -> _ _ _ _ _ _] & _)%top_back. by apply (c_key P HC).
  - intros t. rewrite top_is_Some, top_links, fmap_is_Some. apply (c_dom P HC).
  - rewrite Hdom. apply singleton_subseteq_l, elem_of_dom. eauto.
  - intros t e' l Ht (e & He & [= -> _ _ _ _ _ _] & _)%top_back Hl. rewrite top_links in Hl.
    apply fmap_Some in Hl as (l0 & Hl0 & ->). cbn [drop_parent parents]. rewrite (c_parents P HC t e l0 He Hl0).
    f_equal. apply set_eq. intros x. by rewrite !elem_of_in_pool_inputs, top_is_Some.
  - intros p c Hp%not_elem_of_singleton Hpc%top_child. apply (c_children P HC) in Hpc. split.
    + apply not_elem_of_singleton. intros ->. by apply Htop in Hpc.
    + by apply top_parent.
  - intros c p _ [Hcp _]%top_parent. apply top_child. by apply (c_children P HC).
  - assert (forall a b, tc (parent Q) a b -> tc (parent P) a b) as Hsub.
    { intros a b H. induction H as [a b Hab|a b c Hab _ IH]; apply top_parent in Hab as [Hab _]; [by apply tc_once|by eapply tc_l]. }
    intros t _ Htc%Hsub. by apply (c_acyclic P HC t).
  - intros j t. rewrite F1, (c_next P HC).
    pose proof (top_entry_iff (fun tx _ => exists o, o ∈ ct_vin tx /\ out_key o = j) t) as [H1 H2].
    split; intros (e & o & He & Ho & Hj); [destruct H2 as (e' & He' & o' & Ho' & Hj')|destruct H1 as (e' & He' & o' & Ho' & Hj')];
      eauto 10.
  - intros t e' D _ (e & He & _ & -> & _)%top_back HD. destruct (top_stats D) as [-> _].
    apply (c_desc P HC t); [done|]. intros x. rewrite HD. apply top_down.
  - intros t e' A Ht%not_elem_of_singleton He' HA. by apply (top_anc t).
  - rewrite F2, (c_total P HC), Hdom. destruct (top_stats (dom (mapTx P))) as [[= -> _] _]. done.
  - apply top_usage.
  - intros i t. rewrite F3, (c_hashes P HC). symmetry. apply (top_entry_iff (fun _ j => j = i) t).
  - intros t e' (e & He & Hc & _)%top_back. rewrite (core_size _ _ Hc), (core_ops _ _ Hc). by apply (c_entries P HC t).
  - rewrite Hdom. destruct (top_stats (dom (mapTx P))) as [[= -> _] ->]. apply (c_bounds P HC).
Qed.
End result.
End top.

Lemma RemoveStaged_top P r : consistent P -> is_Some (mapTx P !! r) -> (forall p, ~ parent P r p) ->
  exists P', RemoveStaged {[r]} true P = Some P' /\ consistent P' /\ left_of P P' {[r]}.
Proof.
  intros HC Hr Htop. assert (is_Some (mapLinks P !! r)) as [lr Hlr] by (by apply (c_dom P HC)). destruct Hr as [er Hr].
  destruct (top_shape P r er lr HC Hr Hlr Htop) as (Q & m & k & HU & HQ & Hk & Hm & Hn).
  destruct (removeUnchecked_loop Q {[r]}) as (P' & HP' & HC' & Hl); [by eapply top_detached|].
  exists P'. split; [unfold RemoveStaged; rewrite HU; exact HP'|]. split; [done|].
  replace ({[r]} : gset uint256) with (∅ ∪ {[r]} : gset uint256) by set_solver. eapply left_of_trans; [|done]. split.
  - assert (dom (mapTx Q) = dom (mapTx P)) as -> by (eapply top_dom; eauto). set_solver.
  - split; [by rewrite HQ|]. intros t e' H. eapply top_back in H as (e & He & Hc & _); eauto.
Qed.

(** ** Removing recursively *)

(** What is reached from a set along the links to the children. *)
Definition with_descendants (P : CTxMemPool) (start S : gset uint256) : Prop :=
  forall x, x ∈ S <-> exists a, a ∈ start /\ rtc (child P) a x.

Lemma all_descendants_spec P start : consistent P -> start ⊆ dom (mapTx P) ->
  exists S, all_descendants P start = Some S /\ with_descendants P start S /\ S ⊆ dom (mapTx P) /\
            forall x y, x ∈ S -> child P x y -> y ∈ S.
Proof.
  intros HC Hst.
  destruct (foldM_visit (fun acc it => CalculateDescendants P it acc)
              (fun done S => forall x, x ∈ S <-> exists a, a ∈ done /\ rtc (child P) a x) (set_elems start) ∅) as (S & HS & Hx).
  - set_solver.
  - intros done it rest S E HS. destruct (CalculateDescendants_spec P it S (consistent_linked P HC)) as (S' & HS' & Hx').
    + apply (c_dom P HC), elem_of_dom, Hst, elem_of_set_elems. rewrite E. set_solver.
    + intros x y (a & Ha & Hr)%HS Hxy. apply HS. exists a. split; [done|by eapply rtc_r].
    + exists S'. split; [done|]. intros x. rewrite Hx', HS. setoid_rewrite elem_of_app. setoid_rewrite list_elem_of_singleton.
      split; [intros [(a & Ha & Hr)|Hr]; eauto|]. intros (a & [Ha| ->] & Hr); eauto.
  - exists S. split; [done|]. assert (with_descendants P start S) as HW by (intros x; rewrite Hx; by setoid_rewrite elem_of_set_elems).
    split; [done|]. split.
    + intros x (a & Ha%Hst & Hr)%HW. apply elem_of_dom in Ha. destruct (descendants_exist P HC a Ha) as (D & HD & Hsub & _).
      by apply Hsub, HD.
    + intros x y (a & Ha & Hr)%HW Hxy. apply HW. exists a. split; [done|by eapply rtc_r].
Qed.

Lemma removed_list P S : S ⊆ dom (mapTx P) ->
  exists l, foldM (fun l it => do e <- mapTx P !! it; Some (l ++ [e_tx e])) [] (set_elems S) = Some l /\ length l = size S.
Proof.
  intros HS. destruct (foldM_visit (fun l it => do e <- mapTx P !! it; Some (l ++ [e_tx e]))
    (fun done l => length l = length done) (set_elems S) []) as (l & Hl & Hlen); [done|..].
  - intros done x rest l E Hl. assert (x ∈ dom (mapTx P)) as Hx by (apply HS, elem_of_set_elems; rewrite E; set_solver).
    apply elem_of_dom in Hx as [e He]. rewrite He. cbn. eexists. split; [done|]. rewrite !length_app. cbn. lia.
  - exists l. split; [done|]. by rewrite Hlen, length_set_elems.
Qed.

(** Removing a set of entries with everything that depends on them. *)
Lemma remove_with_descendants P start : consistent P -> start ⊆ dom (mapTx P) ->
  exists S P', all_descendants P start = Some S /\ with_descendants P start S /\ S ⊆ dom (mapTx P) /\
    RemoveStaged S false P = Some P' /\ consistent P' /\ left_of P P' S.
Proof.
  intros HC Hst. destruct (all_descendants_spec P start HC Hst) as (S & HS & HW & Hsub & Hcl).
  destruct (RemoveStaged_closed P S HC Hsub Hcl) as (P' & HP' & HC' & Hl). exists S, P'. done.
Qed.

(** The transactions [removeRecursive] starts from. *)
Definition recursive_start (P : CTxMemPool) (tx : CoinTx) (s : gset uint256) : Prop :=
  forall x, x ∈ s <-> if exists_tx P (ct_hash tx) then x = ct_hash tx
                      else exists i, (i < length (ct_vout tx))%nat /\ mapNextTx P !! (ct_hash tx, Z.of_nat i) = Some x.

Lemma next_in_pool P k t : consistent P -> mapNextTx P !! k = Some t -> is_Some (mapTx P !! t).
Proof. intros HC (e & o & He & _)%(c_next P HC). eauto. Qed.

Lemma spenders_spec P tx : consistent P ->
  exists s, spenders P tx = Some s /\ s ⊆ dom (mapTx P) /\
    forall x, x ∈ s <-> exists i, (i < length (ct_vout tx))%nat /\ mapNextTx P !! (ct_hash tx, Z.of_nat i) = Some x.
Proof.
  intros HC. unfold spenders. match goal with |- context [foldM ?f ∅ ?l] => destruct (foldM_visit f
    (fun done s => forall x, x ∈ s <-> exists i, i ∈ done /\ mapNextTx P !! (ct_hash tx, Z.of_nat i) = Some x) l (∅ : gset uint256)) as (s & Hs & Hx) end.
  - set_solver.
  - intros done i rest s E Hs. destruct (mapNextTx P !! (ct_hash tx, Z.of_nat i)) as [next|] eqn:En.
    + unfold exists_tx. rewrite bool_decide_true by (by eapply next_in_pool). eexists. split; [done|].
      intros x. rewrite elem_of_union, elem_of_singleton, Hs. setoid_rewrite elem_of_app. setoid_rewrite list_elem_of_singleton. naive_solver.
    + exists s. split; [done|]. intros x. rewrite Hs. setoid_rewrite elem_of_app. setoid_rewrite list_elem_of_singleton. naive_solver.
  - exists s. split; [done|]. split.
    + intros x (i & _ & Hi)%Hx. apply elem_of_dom. by eapply next_in_pool.
    + intros x. rewrite Hx. setoid_rewrite elem_of_seq. split; intros (i & Hi & H); exists i; (split; [lia|done]).
Qed.

Lemma removeRecursive_spec P tx : consistent P ->
  exists P' l start S, removeRecursive tx P = Some (P', l) /\ recursive_start P tx start /\ with_descendants P start S /\
    consistent P' /\ left_of P P' S /\ S ⊆ dom (mapTx P).
Proof.
  intros HC. unfold removeRecursive, recursive_start.
  assert (exists start : gset uint256, (if exists_tx P (ct_hash tx) then Some {[ct_hash tx]} else spenders P tx) = Some start /\
            start ⊆ dom (mapTx P) /\ recursive_start P tx start) as (start & -> & Hsub & Hstart).
  { unfold recursive_start. destruct (exists_tx P (ct_hash tx)) eqn:Ex.
    - eexists. split; [done|]. split; [|set_solver]. apply singleton_subseteq_l, elem_of_dom. unfold exists_tx in Ex.
      by apply bool_decide_eq_true in Ex.
    - destruct (spenders_spec P tx HC) as (s & Hs & Hd & Hx). by exists s. }
  destruct (remove_with_descendants P start HC Hsub) as (S & P' & HS & HW & HSd & HR & HC' & Hl).
  destruct (removed_list P S HSd) as (l & Hll & _). cbn [mbind option_bind]. rewrite HS. cbn [mbind option_bind]. rewrite Hll.
  cbn [mbind option_bind]. rewrite HR. cbn [mbind option_bind]. by exists P', l, start, S.
Qed.

(** ** Pools that only get smaller *)

Definition shrunk (P P' : CTxMemPool) : Prop :=
  forall t e', mapTx P' !! t = Some e' -> exists e, mapTx P !! t = Some e /\ core e' = core e.

#[export] Instance shrunk_preorder : PreOrder shrunk.
Proof.
  split; [intros P t e'; eauto|]. intros P1 P2 P3 H12 H23 t e3 (e2 & H2 & Hc2)%H23.
  apply H12 in H2 as (e1 & H1 & Hc1). exists e1. split; [done|congruence].
Qed.

Lemma left_of_shrunk P P' S : left_of P P' S -> shrunk P P'.
Proof. by intros (_ & _ & H). Qed.

Lemma left_of_gone P P' S t : left_of P P' S -> t ∈ S -> mapTx P' !! t = None.
Proof. intros (Hd & _) Ht. apply not_elem_of_dom. rewrite Hd. set_solver. Qed.

Lemma shrunk_None P P' t : shrunk P P' -> mapTx P !! t = None -> mapTx P' !! t = None.
Proof. intros H Ht. destruct (mapTx P' !! t) eqn:E; [|done]. apply H in E as (e & He & _). congruence. Qed.

(** What is not spent in a pool is not spent in a smaller one. *)
Lemma shrunk_next P P' k t : consistent P -> consistent P' -> shrunk P P' -> mapNextTx P' !! k = Some t -> mapNextTx P !! k = Some t.
Proof.
  intros HC HC' Hs (e' & o & He' & Ho & Hk)%(c_next P' HC'). apply Hs in He' as (e & He & [= Hc _ _ _ _ _ _]).
  apply (c_next P HC). exists e, o. by rewrite <- Hc.
Qed.

Lemma shrunk_unspent P P' k : consistent P -> consistent P' -> shrunk P P' -> mapNextTx P !! k = None -> mapNextTx P' !! k = None.
Proof. intros HC HC' Hs Hk. destruct (mapNextTx P' !! k) eqn:E; [|done]. apply (shrunk_next P) in E; [congruence|done..]. Qed.

(** The other maps of the pool do not matter. *)
Lemma consistent_same P P' : consistent P ->
  (mapTx P', mapLinks P', mapNextTx P', totalTxSize P', cachedInnerUsage P', vTxHashes P') =
  (mapTx P, mapLinks P, mapNextTx P, totalTxSize P, cachedInnerUsage P, vTxHashes P) -> consistent P'.
Proof.
  intros [] [= E1 E2 E3 E4 E5 E6].
  constructor; unfold child, parent, stats, tx_usage, tx_size, tx_fee, tx_ops, of_entry, links_at, in_pool_inputs, exists_tx in *;
    rewrite ?E1, ?E2, ?E3, ?E4, ?E5, ?E6; assumption.
Qed.

(** ** Conflicts *)

Lemma remove_conflict_spec tx s txin : consistent s.1 -> mapTx s.1 !! ct_hash tx = None ->
  exists s', remove_conflict tx s txin = Some s' /\ consistent s'.1 /\ shrunk s.1 s'.1 /\ mapNextTx s'.1 !! out_key txin = None.
Proof.
  intros HC Hno. unfold remove_conflict. destruct (mapNextTx s.1 !! out_key txin) as [c|] eqn:En.
  - apply next_in_pool in En as Hc; [|done]. destruct Hc as [e He].
    destruct (Z.eqb_spec c (ct_hash tx)) as [->|_]; [congruence|]. rewrite He. cbn [mbind option_bind].
    destruct (removeRecursive_spec s.1 (e_tx e) HC) as (P' & l & start & S & -> & Hstart & HW & HC' & Hl & _).
    cbn [mbind option_bind fst snd]. eexists. split; [done|]. cbn [fst].
    assert (shrunk s.1 P') as Hs by (by eapply left_of_shrunk).
    split; [by eapply consistent_same|]. split; [exact Hs|]. cbn [mapNextTx ClearPrioritisation with_mapDeltas].
    destruct (mapNextTx P' !! out_key txin) as [t|] eqn:Et; [|done]. exfalso. apply next_in_pool in Et as Ht; [|done].
    apply (shrunk_next s.1) in Et; [|done..]. rewrite En in Et. injection Et as <-.
    assert (c ∈ S) as HcS.
    { apply HW. exists c. split; [|apply rtc_refl]. apply Hstart. rewrite (c_key s.1 HC c e He). unfold exists_tx.
      by rewrite bool_decide_true by eauto. }
    rewrite (left_of_gone s.1 P' S c Hl HcS) in Ht. by destruct Ht.
  - exists s. done.
Qed.

Lemma removeConflicts_spec tx P : consistent P -> mapTx P !! ct_hash tx = None ->
  exists s, removeConflicts tx P = Some s /\ consistent s.1 /\ shrunk P s.1 /\
    forall o, o ∈ ct_vin tx -> mapNextTx s.1 !! out_key o = None.
Proof.
  intros HC Hno. destruct (foldM_visit (remove_conflict tx)
    (fun done s => consistent s.1 /\ shrunk P s.1 /\ forall o, o ∈ done -> mapNextTx s.1 !! out_key o = None) (ct_vin tx) (P, []))
    as (s & Hs & HI).
  - cbn. split; [done|]. split; [done|]. set_solver.
  - intros done o rest s E (HCs & Hsh & Hd).
    destruct (remove_conflict_spec tx s o HCs) as (s' & Hs' & HC' & Hsh' & Ho); [by eapply shrunk_None|].
    exists s'. split; [done|]. split; [done|]. split; [by etransitivity|]. intros o' [Ho'| ->%list_elem_of_singleton]%elem_of_app; [|done].
    by eapply shrunk_unspent, Hd.
  - by exists s.
Qed.

(** ** Blocks *)

(** A block as it is connected: what a transaction of it spends is not in the
    pool any more when its turn comes, and a hash names one transaction. *)
Definition ordered_block (P : CTxMemPool) (vtx : list CoinTx) : Prop :=
  (forall tx e, tx ∈ vtx -> mapTx P !! ct_hash tx = Some e -> e_tx e = tx) /\
  forall done tx rest o, vtx = done ++ tx :: rest -> o ∈ ct_vin tx ->
    mapTx P !! prevout_hash o = None \/ prevout_hash o ∈ map ct_hash done.

Lemma remove_block_tx_spec s tx : consistent s.1 ->
  (forall e o, mapTx s.1 !! ct_hash tx = Some e -> o ∈ ct_vin (e_tx e) -> mapTx s.1 !! prevout_hash o = None) ->
  exists s', remove_block_tx s tx = Some s' /\ consistent s'.1 /\ shrunk s.1 s'.1 /\ mapTx s'.1 !! ct_hash tx = None /\
    forall o, o ∈ ct_vin tx -> mapNextTx s'.1 !! out_key o = None.
Proof.
  intros HC Htop. unfold remove_block_tx.
  assert (exists P1, (if exists_tx s.1 (ct_hash tx) then RemoveStaged {[ct_hash tx]} true s.1 else Some s.1) = Some P1 /\
            consistent P1 /\ shrunk s.1 P1 /\ mapTx P1 !! ct_hash tx = None) as (P1 & -> & HC1 & Hs1 & Hn1).
  { unfold exists_tx. destruct (bool_decide_reflect (is_Some (mapTx s.1 !! ct_hash tx))) as [Hin|Hin].
    - destruct (RemoveStaged_top s.1 (ct_hash tx) HC Hin) as (P1 & HP1 & HC1 & Hl).
      + intros p Hp. apply (parent_in_pool s.1 HC) in Hp as Hpp. destruct Hp as (l & Hl & Hp). destruct Hin as [e He].
        rewrite (c_parents s.1 HC _ e l He Hl) in Hp. apply elem_of_in_pool_inputs in Hp as (Hp & o & Ho & <-).
        rewrite (Htop e o He Ho) in Hp. by destruct Hp.
      + exists P1. split; [done|]. split; [done|]. split; [by eapply left_of_shrunk|]. eapply left_of_gone; [done|]. set_solver.
    - exists s.1. split; [done|]. split; [done|]. split; [done|]. by apply eq_None_not_Some. }
  cbn [mbind option_bind]. destruct (removeConflicts_spec tx P1 HC1 Hn1) as (r & -> & HC2 & Hs2 & Ho). cbn [mbind option_bind].
  eexists. split; [done|]. cbn [fst]. split; [by eapply consistent_same|]. split; [intros t e' H; by apply (transitivity Hs1 Hs2)|].
  split; [|exact Ho]. exact (shrunk_None P1 r.1 _ Hs2 Hn1).
Qed.

Lemma removeForBlock_spec vtx now P : consistent P -> ordered_block P vtx ->
  exists s, removeForBlock vtx now P = Some s /\ consistent s.1 /\ shrunk P s.1 /\
    forall tx, tx ∈ vtx -> mapTx s.1 !! ct_hash tx = None /\ forall o, o ∈ ct_vin tx -> mapNextTx s.1 !! out_key o = None.
Proof.
  intros HC [Hname Hord]. destruct (foldM_visit remove_block_tx
    (fun done s => consistent s.1 /\ shrunk P s.1 /\ forall tx, tx ∈ done -> mapTx s.1 !! ct_hash tx = None /\
       forall o, o ∈ ct_vin tx -> mapNextTx s.1 !! out_key o = None) vtx (P, [])) as (s & Hs & HC' & Hsh & Hd).
  - cbn. split; [done|]. split; [done|]. set_solver.
  - intros done tx rest s E (HCs & Hsh & Hd). destruct (remove_block_tx_spec s tx HCs) as (s' & Hs' & HC' & Hsh' & Hn & Ho).
    + intros e o He Hoe. apply Hsh in He as (e0 & He0 & [= Hc _ _ _ _ _ _]). rewrite Hc in Hoe.
      rewrite (Hname tx e0) in Hoe by (done || (rewrite E; set_solver)).
      destruct (Hord done tx rest o E Hoe) as [Hp|(tx' & -> & Htx')%list_elem_of_fmap]; [by eapply shrunk_None|]. by apply Hd.
    + exists s'. split; [done|]. split; [done|]. split; [by etransitivity|].
      intros tx' [Ht| ->%list_elem_of_singleton]%elem_of_app; [|done]. destruct (Hd tx' Ht) as [H1 H2].
      split; [by eapply shrunk_None|]. intros o' Ho'. by eapply shrunk_unspent, H2.
  - unfold removeForBlock. rewrite Hs. cbn [mbind option_bind]. eexists. split; [done|]. cbn [fst].
    split; [by eapply consistent_same|]. split; [exact Hsh|]. exact Hd.
Qed.
