(* ===== verification/MempoolPool.v ===== *)
(** * The transaction pool as a whole

    Every operation of the pool returns and keeps it consistent: adding an
    acceptable transaction, removing one with what depends on it, connecting a
    block, expiring and trimming.  Two that do not are shown too: the change of
    a priority, and [clear]. *)
From Stdlib Require Import SpecFloat.
From stdpp Require Import relations.
From S2P Require Import Prelude Float Transaction TxCheck Mempool MempoolGraph MempoolSteps MempoolProps MempoolRemove MempoolBlock.

(** ** Operations *)

Definition empty_pool : CTxMemPool :=
  mkPool 0 0 0 0 false (S754_zero false) ∅ ∅ ∅ ∅ [] ∅ ∅ ∅ ∅ ∅ ∅ ∅ ∅ ∅ ∅.

Lemma empty_consistent : consistent empty_pool.
Proof.
  assert (forall t e, mapTx empty_pool !! t = Some e -> False) as H1 by (intros t e H; cbn in H; by rewrite lookup_empty in H).
  assert (forall t l, mapLinks empty_pool !! t = Some l -> False) as H2 by (intros t l H; cbn in H; by rewrite lookup_empty in H).
  constructor; try (intros; exfalso; eauto; fail).
  - intros t. split; intros [? H]; exfalso; eauto.
  - intros p c. split; intros (l & Hl & _); exfalso; eauto.
  - intros t (y & (l & Hl & _) & _)%tc_first. eauto.
  - intros k t. split; [intros H; cbn in H; by rewrite lookup_empty in H|]. intros (e & o & He & _). exfalso. eauto.
  - cbn. by rewrite dom_empty_L, set_sum_empty.
  - cbn. by rewrite dom_empty_L, set_sum_empty.
  - intros i t. split; [done|]. intros (e & He & _). exfalso. eauto.
  - cbn. by rewrite dom_empty_L, !set_sum_empty.
Qed.

Lemma pool_add_spec P entry : consistent P -> acceptable P entry ->
  exists P', addUnchecked_search (ct_hash (e_tx entry)) entry P = Some P' /\ consistent P' /\
    dom (mapTx P') = {[ct_hash (e_tx entry)]} ∪ dom (mapTx P).
Proof.
  intros HC HA. pose proof (ac_entry P entry HA). pose proof (ac_room P entry HA) as Hroom.
  pose proof (set_sum_nonneg (tx_size P) (dom (mapTx P)) (fun x _ => tx_size_pos P HC x)).
  destruct (all_ancestors_search P entry (consistent_parents_known P HC)) as (Anc & HS & _ & HAnc);
    [apply (consistent_sized P HC); lia|].
  destruct (addUnchecked_shape P entry Anc HC HA HAnc) as (P' & e & HP' & HD & Hc).
  exists P'. unfold addUnchecked_search. rewrite HS. split; [exact HP'|].
  split; [by eapply added_consistent|]. by eapply added_dom.
Qed.

Lemma Expire_spec P time : consistent P ->
  exists s, Expire time P = Some s /\ consistent s.1 /\ shrunk P s.1 /\ forall t e, mapTx s.1 !! t = Some e -> time <= e_nTime e.
Proof.
  intros HC. unfold Expire. set (old := dom (filter _ (mapTx P)) : gset uint256).
  assert (forall t, t ∈ old <-> exists e, mapTx P !! t = Some e /\ e_nTime e < time) as Hold.
  { intros t. subst old. rewrite elem_of_dom. unfold is_Some. setoid_rewrite map_lookup_filter_Some. done. }
  destruct (remove_with_descendants P old HC) as (S & P' & -> & HW & _ & HR & HC' & Hl).
  { intros t (e & He & _)%Hold. apply elem_of_dom. eauto. }
  cbn [mbind option_bind]. rewrite HR. eexists. split; [done|]. cbn [fst]. split; [done|]. split; [by eapply left_of_shrunk|].
  intros t e' He'. pose proof (left_of_shrunk _ _ _ Hl t e' He') as (e & He & [= _ _ _ _ Ht _ _]).
  destruct (Z.le_gt_cases time (e_nTime e')); [done|]. exfalso.
  assert (t ∈ S) as HtS by (apply HW; exists t; split; [apply Hold; exists e; split; [done|lia]|apply rtc_refl]).
  rewrite (left_of_gone P P' S t Hl HtS) in He'. done.
Qed.

Section trim.
Context (lowest : gmap uint256 CTxMemPoolEntry -> option uint256) (sizeof_entry : Z) (vector_usage : CTxMemPool -> Z)
  (minReasonableRelayFee : Z).
(** The index of a pool that is not empty has a first entry. *)
Hypothesis lowest_in : forall m, m <> ∅ -> exists t, lowest m = Some t /\ is_Some (m !! t).

Lemma trackPackageRemoved_spec rate P : exists P', trackPackageRemoved rate P = Some P' /\ main_fields P' = main_fields P.
Proof.
  unfold trackPackageRemoved, GetFeePerK, GetFee. cbn [Z.leb]. eexists. split; [reflexivity|]. by destruct (float_gt _ _).
Qed.

Lemma trim_loop_spec fuel limit : forall P ns, consistent P -> (size (mapTx P) <= fuel)%nat ->
  exists s, trim_loop lowest sizeof_entry vector_usage minReasonableRelayFee fuel limit P ns = Some s /\
    consistent s.1 /\ shrunk P s.1 /\ (mapTx s.1 = ∅ \/ DynamicMemoryUsage sizeof_entry vector_usage s.1 <= limit).
Proof.
  induction fuel as [|fuel IH]; intros P ns HC Hf; cbn [trim_loop];
    destruct (Nat.eqb_spec (size (mapTx P)) 0) as [Hz|Hz]; cbn [orb];
    try (exists (P, ns); cbn [fst]; split; [done|]; split; [done|]; split; [done|]; left; by apply map_size_empty_inv); [lia|].
  destruct (Z.leb_spec (DynamicMemoryUsage sizeof_entry vector_usage P) limit) as [Hu|Hu];
    [exists (P, ns); cbn [fst]; split; [done|]; split; [done|]; split; [done|]; by right|].
  destruct (lowest_in (mapTx P)) as (it & -> & [e He]); [intros E; rewrite E in Hz; done|].
  cbn [mbind option_bind]. rewrite He. cbn [mbind option_bind].
  destruct (descendants_exist P HC it ltac:(eauto)) as (D & HD & Hsub & Hin).
  pose proof (sum_size_bounds P HC D Hsub) as Hb. pose proof (c_desc P HC it e D He HD) as [= _ Hs _].
  unfold CFeeRate_new at 1. rewrite (proj2 (Z.leb_le _ _)) by lia. cbn [mbind option_bind].
  match goal with |- context [trackPackageRemoved ?r P] => destruct (trackPackageRemoved_spec r P) as (P1 & -> & HF) end.
  cbn [mbind option_bind]. assert (consistent P1) as HC1 by (eapply consistent_same; [done|]; by injection HF as -> -> -> -> -> -> _).
  assert (mapTx P1 = mapTx P) as E1 by (by injection HF). assert (mapLinks P1 = mapLinks P) as E2 by (by injection HF).
  destruct (remove_with_descendants P1 {[it]} HC1) as (S & P2 & HS & HW & HSd & HR & HC2 & Hl).
  { apply singleton_subseteq_l, elem_of_dom. rewrite E1. eauto. }
  unfold all_descendants in HS. rewrite set_elems_singleton in HS. cbn [foldM] in HS.
  destruct (CalculateDescendants P1 it ∅) as [S0|]; [|done]. cbn in HS. injection HS as ->. cbn [mbind option_bind].
  destruct (removed_list P1 S HSd) as (l & -> & _). cbn [mbind option_bind]. rewrite HR. cbn [mbind option_bind].
  assert (it ∈ S) as HitS by (apply HW; exists it; split; [set_solver|apply rtc_refl]).
  destruct (IH P2 (ns ++ no_spends P2 l) HC2) as (s & Hs' & HC' & Hsh & Hd).
  { rewrite <- !(size_dom (D := gset uint256)) in *. destruct Hl as (Hdom & _). rewrite Hdom, E1.
    assert (size (dom (mapTx P) ∖ S) < size (dom (mapTx P)))%nat; [|lia]. apply subset_size. split; [set_solver|].
    intros H. assert (it ∈ dom (mapTx P)) by (apply elem_of_dom; eauto). set_solver. }
  exists s. split; [done|]. split; [done|]. split; [|done]. transitivity P2; [|done].
  apply left_of_shrunk in Hl. unfold shrunk in *. by rewrite E1 in Hl.
Qed.

Lemma TrimToSize_spec limit P : consistent P ->
  exists s, TrimToSize lowest sizeof_entry vector_usage minReasonableRelayFee limit P = Some s /\
    consistent s.1 /\ shrunk P s.1 /\ (mapTx s.1 = ∅ \/ DynamicMemoryUsage sizeof_entry vector_usage s.1 <= limit).
Proof. intros HC. by apply trim_loop_spec. Qed.

Lemma LimitMempoolSize_spec limit age now P : consistent P ->
  exists s, LimitMempoolSize lowest sizeof_entry vector_usage minReasonableRelayFee limit age now P = Some s /\ consistent s.1 /\ shrunk P s.1.
Proof.
  intros HC. unfold LimitMempoolSize. destruct (Expire_spec P (i64 (now - age)) HC) as (r & -> & HC1 & Hs1 & _). cbn [mbind option_bind].
  destruct (TrimToSize_spec limit r.1 HC1) as (s & -> & HC2 & Hs2 & _). exists s. split; [done|]. split; [done|]. by etransitivity.
Qed.

Lemma RemoveBLSCTConflicting_spec o P : consistent P ->
  exists P', RemoveBLSCTConflicting o P = Some P' /\ consistent P' /\ shrunk P P'.
Proof.
  intros HC. unfold RemoveBLSCTConflicting. destruct (mapNextTx P !! out_key o) as [h|] eqn:En; [|by exists P].
  apply next_in_pool in En as Hh; [|done]. unfold exists_tx. rewrite bool_decide_true by done.
  destruct (remove_with_descendants P {[h]} HC) as (S & P' & HS & _ & _ & HR & HC' & Hl).
  { by apply singleton_subseteq_l, elem_of_dom. }
  unfold all_descendants in HS. rewrite set_elems_singleton in HS. cbn [foldM] in HS.
  destruct (CalculateDescendants P h ∅) as [S0|]; [|done]. cbn in HS. injection HS as ->. cbn [mbind option_bind].
  exists P'. split; [done|]. split; [done|]. by eapply left_of_shrunk.
Qed.

(** The operations of the node on its pool. *)
Inductive PoolOp :=
| OpAdd (entry : CTxMemPoolEntry)
| OpRemove (tx : CoinTx)
| OpConflict (o : COutPoint)
| OpBlock (vtx : list CoinTx) (now : Z)
| OpLimit (limit age now : Z).

Definition run_op (op : PoolOp) (P : CTxMemPool) : option CTxMemPool :=
  match op with
  | OpAdd entry => addUnchecked_search (ct_hash (e_tx entry)) entry P
  | OpRemove tx => fst <$> removeRecursive tx P
  | OpConflict o => RemoveBLSCTConflicting o P
  | OpBlock vtx now => fst <$> removeForBlock vtx now P
  | OpLimit limit age now => fst <$> LimitMempoolSize lowest sizeof_entry vector_usage minReasonableRelayFee limit age now P
  end.

Definition enabled (P : CTxMemPool) (op : PoolOp) : Prop :=
  match op with OpAdd entry => acceptable P entry | OpBlock vtx _ => ordered_block P vtx | _ => True end.

(** The states a sequence of operations goes through. *)
Inductive reachable : CTxMemPool -> Prop :=
| reach_empty : reachable empty_pool
| reach_step P op P' : reachable P -> enabled P op -> run_op op P = Some P' -> reachable P'.

Lemma run_op_spec P op : consistent P -> enabled P op -> exists P', run_op op P = Some P' /\ consistent P'.
Proof.
  intros HC He. destruct op as [entry|tx|o|vtx now|limit age now]; cbn in He |- *.
  - destruct (pool_add_spec P entry HC He) as (P' & HP' & HC' & _). eauto.
  - destruct (removeRecursive_spec P tx HC) as (P' & l & start & S & -> & _ & _ & HC' & _). eauto.
  - destruct (RemoveBLSCTConflicting_spec o P HC) as (P' & HP' & HC' & _). eauto.
  - destruct (removeForBlock_spec vtx now P HC He) as (s & -> & HC' & _). cbn. eauto.
  - destruct (LimitMempoolSize_spec limit age now P HC) as (s & -> & HC' & _). cbn. eauto.
Qed.

(** C20: Whatever the node does with its pool, from the empty one on, the pool
    stays consistent in the sense of [CTxMemPool::check]: the links, the sums
    over ancestors and descendants, the spent inputs, the total size, the memory
    in use and the vector of hashes are those of the entries; and the next
    operation that is allowed returns, so no assertion on the way fails. *)
Theorem mempool_consistent P op : reachable P -> enabled P op ->
  consistent P /\ exists P', run_op op P = Some P' /\ consistent P'.
Proof.
  intros HR He. assert (consistent P) as HC; [|split; [done|by apply run_op_spec]]. clear He.
  induction HR as [|P op' P' _ HC He Hrun]; [apply empty_consistent|].
  destruct (run_op_spec P op' HC He) as (P'' & Hrun' & HC'). congruence.
Qed.
End trim.

(** ** Limits *)

(** C22: A new transaction passes [CalculateMemPoolAncestors] exactly when the set
    of all its ancestors in the pool, the closure of its inputs along the links,
    is within the limits on their number and size, and each of them within
    those on its descendants; and then that set is the result.  The search
    always ends. *)
Theorem ancestor_limits P entry L : consistent P -> 0 < GetTxSize entry < 2 ^ 63 ->
  exists S r, CalculateMemPoolAncestors P entry L true = Some r /\
    (forall x, x ∈ S <-> exists a o, o ∈ ct_vin (e_tx entry) /\ prevout_hash o = a /\ is_Some (mapTx P !! a) /\ rtc (parent P) a x) /\
    (r = inr S <-> within_limits P L (GetTxSize entry) S) /\ (forall S', r = inr S' -> S' = S).
Proof.
  intros HC Hsz. destruct (ancestors_spec P entry L (consistent_parents_known P HC) (consistent_sized P HC _ Hsz))
    as (S & HS & r & Hr & HA & HB).
  exists S, r. split; [done|]. split.
  - intros x. rewrite HS. setoid_rewrite elem_of_in_pool_inputs. naive_solver.
  - split; [split; [intros H; by apply (HB S)|done]|]. intros S' H. by apply HB.
Qed.

(** ** Blocks *)

(** C21: When a block is connected the pool keeps nothing of it and nothing
    against it: no transaction of the block is left in the pool, no transaction
    that is left spends an output the block spends, those that are left are
    those that were there, and the pool is consistent. *)
Theorem block_leaves_no_conflict P vtx now : consistent P -> ordered_block P vtx ->
  exists P' conflicts, removeForBlock vtx now P = Some (P', conflicts) /\ consistent P' /\ shrunk P P' /\
    forall tx, tx ∈ vtx -> mapTx P' !! ct_hash tx = None /\
      forall o t e, o ∈ ct_vin tx -> mapTx P' !! t = Some e -> o ∉ ct_vin (e_tx e).
Proof.
  intros HC Ho. destruct (removeForBlock_spec vtx now P HC Ho) as ([P' l] & HR & HC' & Hs & Hd). exists P', l.
  split; [done|]. split; [done|]. split; [done|]. intros tx Htx. destruct (Hd tx Htx) as [H1 H2]. split; [done|].
  intros o t e Hot He Hoe. cbn in H2. assert (mapNextTx P' !! out_key o = Some t) as Hn by (apply (c_next P' HC'); eauto).
  rewrite (H2 o Hot) in Hn. done.
Qed.

(** ** A pool of two transactions *)

Definition demo_tx (h : uint256) (ins : list COutPoint) : CoinTx := mkCoinTx h 1 0 ins [plain_out 50 []].
Definition demo_entry (tx : CoinTx) (fee : Z) : CTxMemPoolEntry :=
  mkEntry tx fee 400 100 300 1000 (S754_zero false) 5 true 0 false 4 0 1 100 fee 1 100 fee 4 0.
Definition tx_parent : CoinTx := demo_tx 100 [mkCOutPoint 1 0].
Definition tx_child : CoinTx := demo_tx 101 [mkCOutPoint 100 0; mkCOutPoint 2 0].
Definition entry_parent : CTxMemPoolEntry := demo_entry tx_parent 10.
Definition entry_child : CTxMemPoolEntry := demo_entry tx_child 20.
Definition pool_one : CTxMemPool := default empty_pool (addUnchecked_search 100 entry_parent empty_pool).
Definition pool_two : CTxMemPool := default empty_pool (addUnchecked_search 101 entry_child pool_one).

Example demo_entry_new : CTxMemPoolEntry_new tx_parent 400 100 300 10 1000 (S754_zero false) 5 true 0 false 4 = Some entry_parent.
Proof. reflexivity. Qed.

Lemma demo_fresh tx fee : fresh_entry (demo_entry tx fee).
Proof. done. Qed.

Lemma acceptable_parent : acceptable empty_pool entry_parent.
Proof.
  constructor; [apply demo_fresh|done|..].
  - intros o ->%list_elem_of_singleton. done.
  - done.
  - done.
  - done.
  - done.
  - vm_compute. done.
Qed.

Lemma acceptable_child : acceptable pool_one entry_child.
Proof.
  assert (forall o, o ∈ ct_vin tx_child -> o = mkCOutPoint 100 0 \/ o = mkCOutPoint 2 0) as Hin by set_solver.
  constructor; [apply demo_fresh|vm_compute; done|..].
  - intros o [-> | ->]%Hin; done.
  - intros o [-> | ->]%Hin; vm_compute; done.
  - intros i. assert (mapNextTx pool_one = {[ (1, 0) := 100 ]}) as -> by (vm_compute; done).
    apply lookup_singleton_ne. done.
  - done.
  - done.
  - vm_compute. done.
Qed.

Lemma pool_one_consistent : consistent pool_one.
Proof.
  destruct (pool_add_spec empty_pool entry_parent empty_consistent acceptable_parent) as (P' & HP' & HC & _).
  change (ct_hash (e_tx entry_parent)) with 100 in HP'. unfold pool_one. by rewrite HP'.
Qed.

Lemma pool_two_consistent : consistent pool_two.
Proof.
  destruct (pool_add_spec pool_one entry_child pool_one_consistent acceptable_child) as (P' & HP' & HC & _).
  change (ct_hash (e_tx entry_child)) with 101 in HP'. unfold pool_two. by rewrite HP'.
Qed.

Definition demo_lowest (m : gmap uint256 CTxMemPoolEntry) : option uint256 := fst <$> head (map_to_list m).

Lemma demo_lowest_in m : m <> ∅ -> exists t, demo_lowest m = Some t /\ is_Some (m !! t).
Proof.
  intros Hm. unfold demo_lowest. destruct (map_to_list m) as [|[t e] l] eqn:E.
  - by apply map_to_list_empty_iff in E.
  - exists t. split; [done|]. exists e. apply elem_of_map_to_list. rewrite E. set_solver.
Qed.

(** After the two additions the block that confirms the first may come. *)
Lemma mempool_consistent_witness :
  consistent pool_two /\
  exists P', run_op demo_lowest 200 (fun _ => 0) 1000 (OpBlock [tx_parent] 5) pool_two = Some P' /\ consistent P'.
Proof.
  apply (mempool_consistent demo_lowest 200 (fun _ => 0) 1000 demo_lowest_in).
  - apply (reach_step _ _ _ _ pool_one (OpAdd entry_child)); [|exact acceptable_child|vm_compute; reflexivity].
    apply (reach_step _ _ _ _ empty_pool (OpAdd entry_parent)); [apply reach_empty|exact acceptable_parent|vm_compute; reflexivity].
  - split.
    + intros tx e ->%list_elem_of_singleton He. vm_compute in He. by injection He as <-.
    + intros done tx rest o E Ho. destruct done as [|? [|? ?]]; [|done..]. injection E as <- <-.
      apply list_elem_of_singleton in Ho as ->. left. vm_compute. done.
Defined.

Lemma ancestor_limits_witness :
  exists S r, CalculateMemPoolAncestors pool_one entry_child nNoLimit true = Some r /\
    (forall x, x ∈ S <-> exists a o, o ∈ ct_vin (e_tx entry_child) /\ prevout_hash o = a /\ is_Some (mapTx pool_one !! a) /\
                                     rtc (parent pool_one) a x) /\
    (r = inr S <-> within_limits pool_one nNoLimit (GetTxSize entry_child) S) /\ (forall S', r = inr S' -> S' = S).
Proof. apply (ancestor_limits pool_one entry_child nNoLimit pool_one_consistent). vm_compute. done. Defined.

Lemma block_leaves_no_conflict_witness :
  exists P' conflicts, removeForBlock [demo_tx 200 [mkCOutPoint 1 0]] 5 pool_two = Some (P', conflicts) /\ consistent P' /\
    shrunk pool_two P' /\
    forall tx, tx ∈ [demo_tx 200 [mkCOutPoint 1 0]] -> mapTx P' !! ct_hash tx = None /\
      forall o t e, o ∈ ct_vin tx -> mapTx P' !! t = Some e -> o ∉ ct_vin (e_tx e).
Proof.
  apply (block_leaves_no_conflict pool_two _ 5 pool_two_consistent). split.
  - intros tx e ->%list_elem_of_singleton He. vm_compute in He. done.
  - intros done tx rest o E Ho. destruct done as [|? [|? ?]]; [|done..]. injection E as <- <-.
    apply list_elem_of_singleton in Ho as ->. left. vm_compute. done.
Defined.

(** The block that confirms the parent leaves the child with itself alone; a
    block with a conflict of the parent removes both. *)
Example confirm_parent :
  (fun r => (fun t => anc_state <$> mapTx r.1 !! t) <$> [100; 101]) <$> removeForBlock [tx_parent] 5 pool_two =
  Some [None; Some (1, 100, 20, 4)].
Proof. vm_compute. reflexivity. Qed.

Example conflict_removes_both :
  (fun r => (size (mapTx r.1), map ct_hash r.2)) <$> removeForBlock [demo_tx 200 [mkCOutPoint 1 0]] 5 pool_two =
  Some (0%nat, [100; 101]).
Proof. vm_compute. reflexivity. Qed.

(** ** Reorganisations *)

(** The child was in the pool alone, its parent comes back from a block: the
    update gives the links and the statistics that two additions in order give. *)
Definition pool_reorg : option CTxMemPool :=
  do P <- addUnchecked_search 101 entry_child empty_pool;
  do P <- addUnchecked_search 100 entry_parent P;
  UpdateTransactionsFromBlock [100] P.

Definition pool_view (P : CTxMemPool) (t : uint256) :=
  ((fun e => (desc_state e, anc_state e)) <$> mapTx P !! t, mapLinks P !! t).

Example reorg_links : pool_reorg ≫= (fun P => Some (map (pool_view P) [100; 101], cachedInnerUsage P, totalTxSize P)) =
  Some (map (pool_view pool_two) [100; 101], cachedInnerUsage pool_two, totalTxSize pool_two).
Proof. vm_compute. reflexivity. Qed.

(** ** The index of addresses *)

Lemma insert_delete_keys {K V} `{Countable K} (l : list (K * V)) (m : gmap K V) :
  (forall k, k ∈ l.*1 -> m !! k = None) ->
  foldl (fun m k => delete k m) (foldl (fun m kv => insert_if_new kv.1 kv.2 m) m l) l.*1 = m.
Proof.
  assert (forall (ks : list K) (m : gmap K V) k, foldl (fun m k => delete k m) m ks !! k = if decide (k ∈ ks) then None else m !! k) as Hdel.
  { induction ks as [|x ks IH]; intros m' k; cbn [foldl]; [done|]. rewrite IH. destruct (decide (k = x)) as [->|Hk].
    - rewrite lookup_delete_eq, (decide_True (P := x ∈ x :: ks)) by set_solver. by destruct (decide (x ∈ ks)).
    - rewrite lookup_delete_ne by done. destruct (decide (k ∈ ks)), (decide (k ∈ x :: ks)); set_solver. }
  assert (forall (l : list (K * V)) (m : gmap K V) k, k ∉ l.*1 -> foldl (fun m kv => insert_if_new kv.1 kv.2 m) m l !! k = m !! k) as Hins.
  { induction l0 as [|[x v] l0 IH]; intros m' k Hk; cbn [foldl]; [done|]. cbn in Hk. rewrite IH by set_solver. unfold insert_if_new. cbn.
    destruct (m' !! x); [done|]. by rewrite lookup_insert_ne by set_solver. }
  intros Hm. apply map_eq. intros k. rewrite Hdel. destruct (decide (k ∈ l.*1)) as [Hk|Hk]; [by rewrite Hm|by apply Hins].
Qed.

(** Taking a transaction out of the index of addresses undoes putting it in. *)
Theorem address_index_roundtrip e prevout P :
  mapAddressInserted P !! ct_hash (e_tx e) = None ->
  (forall t a i s, mapAddress P !! (t, a, ct_hash (e_tx e), i, s) = None) ->
  let P' := removeAddressIndex (ct_hash (e_tx e)) (addAddressIndex e prevout P) in
  mapAddress P' = mapAddress P /\ mapAddressInserted P' = mapAddressInserted P /\ main_fields P' = main_fields P.
Proof.
  intros Hi Hk. unfold addAddressIndex. set (deltas := omap id _ ++ _).
  assert (forall k, k ∈ deltas.*1 -> mapAddress P !! k = None) as Hfresh.
  { intros k ([k' d] & -> & Hin)%list_elem_of_fmap. cbn. subst deltas. apply elem_of_app in Hin as [Hin|Hin];
      apply list_elem_of_omap in Hin as ([[k1 d1]|] & Hin & [= <- <-]);
      apply elem_of_lookup_imap in Hin as (j & o & Heq & _); unfold address_input, address_output in Heq;
      destruct (index_address _) as [[t a]|]; [|done| |done]; cbn in Heq; injection Heq as -> _; apply Hk. }
  cbn zeta. change (mapAddressInserted (with_mapAddress _ P)) with (mapAddressInserted P).
  replace (insert_if_new (ct_hash (e_tx e)) deltas.*1 (mapAddressInserted P))
    with (<[ct_hash (e_tx e) := deltas.*1]> (mapAddressInserted P)) by (unfold insert_if_new; by rewrite Hi).
  unfold removeAddressIndex. cbn [mapAddressInserted with_mapAddressInserted]. rewrite lookup_insert_eq.
  cbn [mapAddress mapAddressInserted with_mapAddressInserted with_mapAddress].
  split; [by apply insert_delete_keys|]. split; [by rewrite delete_insert_id|done].
Qed.

(** ** What does not stay consistent *)

(** [GetFeePerK] is the fee of ten thousand bytes. *)
Lemma GetFeePerK_tenfold rate : GetFeePerK rate = Some (10 * rate).
Proof.
  unfold GetFeePerK, GetFee. cbn [Z.leb]. replace (Z.quot (rate * 10000) 1000) with (10 * rate).
  - destruct (Z.eqb_spec (10 * rate) 0); [|done]. cbn. by replace rate with 0 by lia.
  - replace (rate * 10000) with ((10 * rate) * 1000) by lia. by rewrite Z.quot_mul.
Qed.

Definition pool_prioritised : CTxMemPool := default empty_pool (PrioritiseTransaction 100 (S754_zero false) 7 pool_two).
Definition entry_after : CTxMemPoolEntry :=
  mkEntry tx_child 20 400 100 300 1000 (S754_zero false) 5 true 0 false 4 0 1 100 20 2 200 30 8 1.

(** [PrioritiseTransaction] tells the ancestors of a transaction, but not its
    descendants: the child still counts the old fee of its parent, and
    [CTxMemPool::check] would fail. *)
Theorem prioritise_inconsistent :
  PrioritiseTransaction 100 (S754_zero false) 7 pool_two = Some pool_prioritised /\
  (GetModifiedFee <$> mapTx pool_two !! 100) = Some 10 /\ (GetModifiedFee <$> mapTx pool_prioritised !! 100) = Some 17 /\
  (nModFeesWithAncestors <$> mapTx pool_two !! 101) = Some 30 /\
  (nModFeesWithAncestors <$> mapTx pool_prioritised !! 101) = Some 30 /\ ~ consistent pool_prioritised.
Proof.
  do 5 (split; [vm_compute; reflexivity|]). intros HC.
  assert (mapTx pool_prioritised !! 101 = Some entry_after) as He by (vm_compute; reflexivity).
  assert (mapLinks pool_prioritised !! 101 = Some (mkLinks {[100]} ∅)) as Hl by (vm_compute; reflexivity).
  assert (all_ancestors pool_prioritised entry_after false = Some {[100]}) as Ha by (vm_compute; reflexivity).
  assert (set_sum (tx_fee pool_prioritised) {[101; 100]} = 37) as Hf by (vm_compute; reflexivity).
  generalize dependent pool_prioritised. intros P HC He Hl Ha Hf.
  destruct (all_ancestors_linked P entry_after (mkLinks {[100]} ∅) (consistent_parents_known P HC)) as (S & HS & _ & Hx);
    [apply (consistent_sized P HC); vm_compute; done|by exists entry_after|exact Hl|].
  rewrite Ha in HS. injection HS as <-.
  assert (anc_state entry_after = (stats P {[101; 100]}, set_sum (tx_ops P) {[101; 100]})) as Hc.
  { apply (c_anc P HC 101 _ _ He). intros x. rewrite rtc_tc, <- Hx. set_solver. }
  unfold stats in Hc. rewrite Hf in Hc. discriminate Hc.
Qed.

(** [clear] leaves the vector of hashes as it was. *)
Theorem clear_inconsistent P now : vTxHashes P <> [] -> mapTx (clear now P) = ∅ /\ ~ consistent (clear now P).
Proof.
  intros Hv. split; [done|]. intros HC. destruct (vTxHashes P) as [|t l] eqn:E; [done|].
  assert (vTxHashes (clear now P) !! 0%nat = Some t) as H by (cbn; by rewrite E).
  apply (c_hashes _ HC) in H as (e & He & _). cbn in He. by rewrite lookup_empty in He.
Qed.
