(* ===== verification/Json.v ===== *)
(** * JSON values and parsing of numbers ([univalue/lib/univalue_get.cpp],
    [univalue/lib/univalue.cpp], [uint256.cpp])

    The metadata of a DAO transaction is a JSON text.  [UniValue] has the
    values; a number keeps its text, as in the code.  [Outcome] is the result
    of C++ code that can throw or run into undefined behaviour. *)
From Stdlib Require Import Ascii String.
From S2P Require Import Prelude Bytes CxxString VoteScript.

(** ** Outcomes *)

Inductive Outcome (A : Type) :=
  | Ret (a : A)
  | Exn    (** a C++ exception *)
  | Undef. (** undefined behaviour: an index out of range, a null pointer *)
Arguments Ret {A}.
Arguments Exn {A}.
Arguments Undef {A}.

#[export] Instance outcome_bind : MBind Outcome := fun A B f x =>
  match x with Ret a => f a | Exn => Exn | Undef => Undef end.
#[export] Instance outcome_ret : MRet Outcome := fun A a => Ret a.

Notation "'let!' x := c1 ; c2" := (mbind (M := Outcome) (fun x => c2) c1)
  (at level 60, x binder, c1 at next level, right associativity) : nav_scope.
Notation "'let!' ' pat := c1 ; c2" :=
  (mbind (M := Outcome) (fun x => match x with pat => c2 end) c1)
  (at level 60, pat pattern, c1 at next level, right associativity) : nav_scope.

Definition or_throw {A} (o : option A) : Outcome A := match o with Some a => Ret a | None => Exn end.
Definition or_undef {A} (o : option A) : Outcome A := match o with Some a => Ret a | None => Undef end.

(** [try { c } catch (...) { return d; }] *)
Definition try_catch {A} (c : Outcome A) (d : A) : Outcome A := match c with Exn => Ret d | _ => c end.

(** A loop whose body can throw. *)
Fixpoint foldO {A S : Type} (f : S -> A -> Outcome S) (s : S) (l : list A) : Outcome S :=
  match l with [] => Ret s | x :: l => let! s := f s x; foldO f s l end.

Lemma foldO_app {A S} (f : S -> A -> Outcome S) l1 l2 s :
  foldO f s (l1 ++ l2) = let! s := foldO f s l1; foldO f s l2.
Proof. revert s; induction l1 as [|x l1 IH]; intros s; cbn; [done|]. destruct (f s x); cbn; auto. Qed.

Lemma outcome_bind_Ret {A B} (c : Outcome A) (f : A -> Outcome B) b :
  mbind f c = Ret b <-> exists a, c = Ret a /\ f a = Ret b.
Proof. destruct c; cbn; naive_solver. Qed.

Lemma try_catch_Ret {A} (c : Outcome A) d a : a <> d -> try_catch c d = Ret a -> c = Ret a.
Proof. destruct c; cbn; naive_solver. Qed.

(** ** Values *)

Inductive UniValue :=
  | VNULL
  | VOBJ (keys_values : list (string * UniValue))
  | VARR (values : list UniValue)
  | VSTR (val : string)
  | VNUM (val : string)
  | VBOOL (val : bool).

Definition isStr (u : UniValue) : bool := match u with VSTR _ => true | _ => false end.
Definition isNum (u : UniValue) : bool := match u with VNUM _ => true | _ => false end.
Definition isArray (u : UniValue) : bool := match u with VARR _ => true | _ => false end.
Definition isObject (u : UniValue) : bool := match u with VOBJ _ => true | _ => false end.

Fixpoint find_value (obj : list (string * UniValue)) (name : string) : UniValue :=
  match obj with
  | [] => VNULL
  | (k, u) :: obj => if String.eqb k name then u else find_value obj name
  end.

(** ** Numbers *)

Definition json_isspace (c : ascii) : bool :=
  let n := char_code c in (n =? 0x20) || (n =? 0x09) || (n =? 0x0a) || (n =? 0x0d).

Fixpoint last_char (s : string) (d : ascii) : ascii :=
  match s with EmptyString => d | String c s' => last_char s' c end.

Fixpoint has_nul (s : string) : bool :=
  match s with EmptyString => false | String c s' => (char_code c =? 0) || has_nul s' end.

Definition ParsePrechecks (s : string) : bool :=
  match s with
  | EmptyString => false
  | String c s' => negb (json_isspace c || json_isspace (last_char s' c)) && negb (has_nul s)
  end.

(** [strtoll] that must stop at the end of the text. *)
Definition ParseIntRange (lo hi : Z) (s : string) : option Z :=
  if negb (ParsePrechecks s) then None
  else
    let t := skip_space s in
    let t := match t with String "-" t' => t' | String "+" t' => t' | _ => t end in
    if all_digits t then parse_int lo hi s else None.

Definition ParseInt32 : string -> option Z := ParseIntRange (- 2 ^ 31) (2 ^ 31 - 1).
Definition ParseInt64 : string -> option Z := ParseIntRange (- 2 ^ 63) (2 ^ 63 - 1).

Definition get_str (u : UniValue) : Outcome string := match u with VSTR s => Ret s | _ => Exn end.
Definition get_int (u : UniValue) : Outcome Z := match u with VNUM s => or_throw (ParseInt32 s) | _ => Exn end.
Definition get_int64 (u : UniValue) : Outcome Z := match u with VNUM s => or_throw (ParseInt64 s) | _ => Exn end.
Definition get_array (u : UniValue) : Outcome (list UniValue) := match u with VARR l => Ret l | _ => Exn end.

(** ** Hashes as text *)

Definition HexDigit (c : ascii) : Z :=
  let n := char_code c in
  if (48 <=? n) && (n <=? 57) then n - 48
  else if (97 <=? n) && (n <=? 102) then n - 87
  else if (65 <=? n) && (n <=? 70) then n - 55 else -1.

Fixpoint hex_prefix (s : string) (acc : Z) : Z :=
  match s with
  | EmptyString => acc
  | String c s' => if HexDigit c =? -1 then acc else hex_prefix s' (acc * 16 + HexDigit c)
  end.

(** [SetHex] of an array of [width] bytes: the last of the leading hexadecimal
    digits that fit, the last two of them the first byte. *)
Definition blob_SetHex (width : nat) (s : string) : Z :=
  let s := skip_space s in
  let s := match s with
    | String "0" (String x s') =>
      if (char_code x =? 120) || (char_code x =? 88) then s' else s
    | _ => s
    end in
  le_value (le_bytes width (hex_prefix s 0)).

Definition uint256S (s : string) : uint256 := blob_SetHex 32 s.
Definition uint512S (s : string) : Z := blob_SetHex 64 s.

Definition hex_char (d : Z) : ascii := ascii_of_N (Z.to_N (if d <? 10 then 48 + d else 87 + d)).

(** [GetHex]: two digits per byte, the last byte of the array first. *)
Fixpoint hex_of_bytes (l : list Z) : string :=
  match l with
  | [] => EmptyString
  | b :: l => String (hex_char (b / 16)) (String (hex_char (b mod 16)) (hex_of_bytes l))
  end.

Definition GetHex (hash : Z) : string := hex_of_bytes (rev (uint256_bytes hash)).

(** ** Printing and reading a hash *)

Lemma hex_char_spec d : 0 <= d < 16 ->
  HexDigit (hex_char d) = d /\ isspace (hex_char d) = false /\
  (char_code (hex_char d) =? 120) || (char_code (hex_char d) =? 88) = false.
Proof.
  intros Hd. assert (d ∈ (Z.of_nat <$> seq 0 16)) as Hin.
  { apply list_elem_of_fmap. exists (Z.to_nat d). split; [lia|]. apply elem_of_seq. lia. }
  revert Hin. cbn [seq fmap list_fmap].
  repeat (intros Hin; apply elem_of_cons in Hin as [->|Hin]; [vm_compute; auto|revert Hin]).
  intros Hin. by apply elem_of_nil in Hin.
Qed.

Lemma byte_digits b : byte b -> 0 <= b / 16 < 16 /\ 0 <= b mod 16 < 16 /\ b = b / 16 * 16 + b mod 16.
Proof.
  unfold byte. intros Hb. pose proof (Z.mod_pos_bound b 16 ltac:(lia)). pose proof (Z.div_mod b 16 ltac:(lia)).
  assert (0 <= b / 16) by (apply Z.div_pos; lia). assert (b / 16 < 16) by (apply Z.div_lt_upper_bound; lia). lia.
Qed.

Lemma hex_prefix_bytes l acc :
  Forall byte l -> hex_prefix (hex_of_bytes l) acc = acc * 256 ^ Z.of_nat (length l) + le_value (rev l).
Proof.
  intros Hl. revert acc; induction Hl as [|b l Hb Hl IH]; intros acc; cbn [hex_of_bytes hex_prefix length rev];
    [by rewrite Z.mul_1_r, Z.add_0_r|].
  destruct (byte_digits b Hb) as (H1 & H2 & H3).
  destruct (hex_char_spec _ H1) as (-> & _), (hex_char_spec _ H2) as (-> & _).
  rewrite !(proj2 (Z.eqb_neq _ _)) by lia. rewrite IH, le_value_app, length_rev. cbn [le_value].
  rewrite Nat2Z.inj_succ, Z.pow_succ_r by lia. replace ((acc * 16 + b / 16) * 16 + b mod 16) with (acc * 256 + b) by lia.
  ring.
Qed.

Lemma hex_skip l : Forall byte l ->
  skip_space (hex_of_bytes l) = hex_of_bytes l /\
  match hex_of_bytes l with
  | String "0" (String x s') =>
    if (char_code x =? 120) || (char_code x =? 88) then s' else hex_of_bytes l
  | _ => hex_of_bytes l
  end = hex_of_bytes l.
Proof.
  intros Hl. destruct Hl as [|b l Hb Hl]; [done|]. cbn [hex_of_bytes skip_space].
  destruct (byte_digits b Hb) as (H1 & H2 & _).
  destruct (hex_char_spec _ H1) as (_ & -> & _), (hex_char_spec _ H2) as (_ & _ & ->).
  split; [done|]. generalize (hex_char (b / 16)). intros c. by destruct c as [[] [] [] [] [] [] [] []].
Qed.

(** The text of a hash reads back as the hash, into any array wide enough. *)
Lemma blob_SetHex_GetHex width hash : (32 <= width)%nat -> 0 <= hash < 2 ^ 256 -> blob_SetHex width (GetHex hash) = hash.
Proof.
  intros Hw Hh. unfold blob_SetHex, GetHex, uint256_bytes.
  destruct (hex_skip (rev (le_bytes 32 hash)) (Forall_rev (le_bytes_byte 32 hash))) as [-> ->].
  rewrite hex_prefix_bytes by apply Forall_rev, le_bytes_byte. rewrite Z.mul_0_l, Z.add_0_l, rev_involutive.
  pose proof (uint256_roundtrip hash Hh) as E. unfold uint256_of_bytes, uint256_bytes in *. rewrite E, le_value_bytes.
  apply Z.mod_small. split; [lia|]. assert (256 ^ Z.of_nat 32 <= 256 ^ Z.of_nat width) by (apply Z.pow_le_mono_r; lia).
  change (256 ^ Z.of_nat 32) with (2 ^ 256) in *. lia.
Qed.

Lemma uint256S_GetHex hash : 0 <= hash < 2 ^ 256 -> uint256S (GetHex hash) = hash.
Proof. intros Hh. by apply blob_SetHex_GetHex. Qed.

(** [get_int] agrees with [get_int64] on 32-bit numbers and throws otherwise. *)
Lemma get_int_spec u n : get_int u = Ret n -> - 2 ^ 31 <= n < 2 ^ 31 /\ get_int64 u = Ret n.
Proof.
  destruct u as [| | | |s|]; try discriminate. cbn. unfold ParseInt32, ParseInt64, ParseIntRange.
  destruct (negb _); [discriminate|]. destruct (all_digits _); [|discriminate].
  destruct (parse_int (- 2 ^ 31) _ s) as [v|] eqn:E; [|discriminate]. intros [= <-].
  destruct (parse_int_widen (- 2 ^ 31) (2 ^ 31 - 1) (- 2 ^ 63) (2 ^ 63 - 1) s v ltac:(lia) ltac:(lia) E) as [Hv ->].
  split; [lia|done].
Qed.

Lemma get_int_cases u : isNum u = true -> get_int u = Exn \/ exists n, get_int u = Ret n.
Proof. destruct u; try discriminate. intros _. cbn. destruct (ParseInt32 val); cbn; eauto. Qed.
