(* ===== verification/VoteStep.v ===== *)
(** * [VoteStep] ([consensus/dao.cpp])

    The function [ConnectBlock] and [DisconnectBlock] call to bring the DAO
    state forward or back by one block: it counts the votes of the blocks of
    the cycle, writes the counters into the view, moves proposals, payment
    requests, answers and consultations through their states at the end of a
    cycle, and changes consensus parameters.

    Every loop of the function is a definition here, in the order of the
    source.  [pindexNew] is a hash [pnew] together with its entry [bnew], so
    that the entry can also be one the index does not hold; the function
    changes only [nCFSupply] and [nCFLocked] of it, which the loops carry as
    [fund].  The block index [h] gives every other block.  A loop over a map
    goes through [elems]; a body that dereferences a block the index does
    not hold is [None].

    The hash of the consensus parameters is a parameter of the section: it
    is only compared for equality. *)
From S2P Require Import Prelude Float CxxString Chain VersionBits Params DaoTypes StateView DaoRules.

(** ** The votes found in the blocks ([main.cpp]) *)

Record BlockVotes := mkBlockVotes {
  vProposalVotes : gmap uint256 (list (uint256 * Z));
  vPaymentRequestVotes : gmap uint256 (list (uint256 * Z));
  mapSupport : gmap uint256 (gmap uint256 bool);
  mapConsultationVotes : gmap uint256 (gmap uint256 Z)
}.

Definition GetProposalVotes (bv : BlockVotes) (hash : uint256) : option (list (uint256 * Z)) :=
  vProposalVotes bv !! hash.
Definition GetPaymentRequestVotes (bv : BlockVotes) (hash : uint256) : option (list (uint256 * Z)) :=
  vPaymentRequestVotes bv !! hash.
Definition GetSupport (bv : BlockVotes) (hash : uint256) : option (gmap uint256 bool) :=
  mapSupport bv !! hash.
Definition GetConsultationVotes (bv : BlockVotes) (hash : uint256) : option (gmap uint256 Z) :=
  mapConsultationVotes bv !! hash.

(** ** The counters kept between calls *)

(** Yes, no and abstain votes: [pair<pair<int, int>, int>]. *)
Abbreviation Tally := (Z * Z * Z)%type.

Record DaoCache := mkDaoCache {
  mapCacheProposalsToUpdate : gmap uint256 Tally;
  mapCachePaymentRequestToUpdate : gmap uint256 Tally;
  mapCacheSupportToUpdate : gmap uint256 Z;
  mapCacheConsultationToUpdate : gmap (uint256 * Z) Z;
  nCacheExclude : Z;
  lastConsensusStateHash : uint256
}.

Definition DaoCache_clear (g : DaoCache) : DaoCache :=
  mkDaoCache ∅ ∅ ∅ ∅ 0 (lastConsensusStateHash g).

Definition DaoCache_empty (g : DaoCache) : bool :=
  bool_decide (mapCacheProposalsToUpdate g = ∅) && bool_decide (mapCachePaymentRequestToUpdate g = ∅) &&
  bool_decide (mapCacheSupportToUpdate g = ∅) && bool_decide (mapCacheConsultationToUpdate g = ∅).

(** ** Counting the votes of one block *)

(** A vote adds one to its counter; an unknown value adds to none, but its
    hash still gets an entry. *)
Definition add_vote (t : Tally) (vote : Z) : Tally :=
  let '(yes, no, abs) := t in
  if vote =? VOTE_YES then (i32 (yes + 1), no, abs)
  else if vote =? VOTE_ABSTAIN then (yes, no, i32 (abs + 1))
  else if vote =? VOTE_NO then (yes, i32 (no + 1), abs)
  else t.

(** One vote of the list of a block; [acc] is [mapSeen] and the counters. *)
Definition count_vote (acc : gset uint256 * gmap uint256 Tally) (vote : uint256 * Z) :
    gset uint256 * gmap uint256 Tally :=
  let '(seen, m) := acc in
  if bool_decide (vote.1 ∈ seen) then acc
  else
    let m := match m !! vote.1 with None => <[vote.1 := (0, 0, 0)]> m | Some _ => m end in
    let m := <[vote.1 := add_vote (default (0, 0, 0) (m !! vote.1)) vote.2]> m in
    ({[vote.1]} ∪ seen, m).

(** One entry of the map of supports of a block. *)
Definition count_support (acc : gset uint256 * gmap uint256 Z) (it : uint256 * bool) :
    gset uint256 * gmap uint256 Z :=
  let '(seen, m) := acc in
  if negb it.2 then acc
  else if bool_decide (it.1 ∈ seen) then acc
  else
    let m := match m !! it.1 with None => <[it.1 := 0]> m | Some _ => m end in
    ({[it.1]} ∪ seen, <[it.1 := i32 (default 0 (m !! it.1) + 1)]> m).

Definition bump (m : gmap (uint256 * Z) Z) (k : uint256 * Z) : gmap (uint256 * Z) Z :=
  let m := match m !! k with None => <[k := 0]> m | Some _ => m end in
  <[k := i32 (default 0 (m !! k) + 1)]> m.

(** One entry of the map of consultation votes of a block.  The vote is
    unsigned there; an abstention for an answer counts for its consultation. *)
Definition count_consultation (v : View) (acc : gset uint256 * gmap (uint256 * Z) Z) (it : uint256 * Z) :
    gset uint256 * gmap (uint256 * Z) Z :=
  let '(seen, m) := acc in
  if bool_decide (it.1 ∈ seen) then acc
  else if HaveConsultation v it.1 || HaveConsultationAnswer v it.1 then
    match (if it.2 =? u64 VOTE_ABSTAIN then GetConsultationAnswer v it.1 else None) with
    | Some answer => ({[it.1]} ∪ seen, bump m (a_parent answer, i64 it.2))
    | None => ({[it.1]} ∪ seen, bump m (it.1, i64 it.2))
    end
  else acc.

Definition scan_block (bv : BlockVotes) (v : View) (fCFund fDAOConsultations : bool)
    (g : DaoCache) (pb : uint256 * CBlockIndex) : DaoCache :=
  let '(hash, b) := pb in
  if flag_set (nNonce b) 1 && negb (IsColdStakeV2 b) then
    mkDaoCache (mapCacheProposalsToUpdate g) (mapCachePaymentRequestToUpdate g)
      (mapCacheSupportToUpdate g) (mapCacheConsultationToUpdate g) (i32 (nCacheExclude g + 1))
      (lastConsensusStateHash g)
  else
    let '(seen, props) := if fCFund
      then foldl count_vote (∅, mapCacheProposalsToUpdate g) (default [] (GetProposalVotes bv hash))
      else (∅, mapCacheProposalsToUpdate g) in
    let '(seen, preqs) := if fCFund
      then foldl count_vote (seen, mapCachePaymentRequestToUpdate g) (default [] (GetPaymentRequestVotes bv hash))
      else (seen, mapCachePaymentRequestToUpdate g) in
    let supp := if fDAOConsultations
      then (foldl count_support (∅, mapCacheSupportToUpdate g) (elems (default ∅ (GetSupport bv hash)))).2
      else mapCacheSupportToUpdate g in
    let cons := if fDAOConsultations
      then (foldl (count_consultation v) (seen, mapCacheConsultationToUpdate g)
              (elems (default ∅ (GetConsultationVotes bv hash)))).2
      else mapCacheConsultationToUpdate g in
    mkDaoCache props preqs supp cons (nCacheExclude g) (lastConsensusStateHash g).

(** [while (nBlocks > 0 && pindexblock != NULL)], from block [hash]. *)
Fixpoint scan_loop (h : BlockMap) (bv : BlockVotes) (v : View) (fCFund fDAOConsultations : bool)
    (nBlocks : nat) (hash : uint256) (b : CBlockIndex) (g : DaoCache) : option DaoCache :=
  match nBlocks with
  | O => Some g
  | S n =>
    let g := scan_block bv v fCFund fDAOConsultations g (hash, b) in
    match pprev b with
    | None => Some g
    | Some q =>
      match n with
      | O => Some g
      | S _ => do b' <- h !! q; scan_loop h bv v fCFund fDAOConsultations n q b' g
      end
    end
  end.

Section vote_step.
Context {params : Params} (h : BlockMap) (bv : BlockVotes).

(** The double SHA-256 of the serialized parameters. *)
Context (hash_params : list Z -> uint256).

(** [GetConsensusStateHash]: the values of all the parameters are hashed. *)
Definition GetConsensusStateHash (v : View) : uint256 :=
  hash_params (map (fun i => GetConsensusParameter (Z.of_nat i) v) (seq 0 (Z.to_nat MAX_CONSENSUS_PARAMS))).

(** What the loops of one call share. *)
Context (pnew : uint256) (bnew : CBlockIndex) (fUndo : bool) (pdelete : uint256) (nCycleLength : Z).

(** [min(max(nCurrentCycle - nCreatedOnCycle, 0), cap)], all unsigned. *)
Definition voting_cycles (created : CBlockIndex) (cap : Z) : Z :=
  let nCreatedOnCycle := u64 (nHeight created) / nCycleLength in
  let nCurrentCycle := u64 (nHeight bnew) / nCycleLength in
  let nElapsedCycles := Z.max (u64 (nCurrentCycle - nCreatedOnCycle)) 0 in
  Z.min nElapsedCycles cap.

Definition end_of_cycle : bool := u64 (nHeight bnew + 1) mod nCycleLength =? 0.

(** ** Writing the counters into the view *)

Definition PROPOSAL_MAX_CYCLES (v : View) : Z :=
  u64 (GetConsensusParameter CONSENSUS_PARAM_PROPOSAL_MAX_VOTING_CYCLES v + 1).

(** [ClearState], and the voting cycle again if the proposal is undecided. *)
Definition undo_proposal (nVotingCycles : Z) (p : CProposal) : CProposal :=
  let p := CProposal_ClearState p pdelete in
  let p := if CProposal_GetLastState h p =? NIL then set_p_nVotingCycle p (u32 nVotingCycles) else p in
  set_p_fDirty p true.

Definition set_proposal_votes (t : Tally) (p : CProposal) : CProposal :=
  let '(yes, no, abs) := t in
  set_p_fDirty (set_p_nVotesNo (set_p_nVotesAbs (set_p_nVotesYes p yes) abs) no) true.

(** [acc]: the view, [updateMapProposals] and [mapSeen]. *)
Definition proposal_votes_step (mapProposals : gmap uint256 CProposal)
    (acc : View * gmap uint256 CProposal * gset uint256) (it : uint256 * Tally) :
    View * gmap uint256 CProposal * gset uint256 :=
  let '(v, upd, seen) := acc in
  match mapProposals !! it.1 with
  | None => acc
  | Some p =>
    if p_txblockhash p =? 0 then acc
    else match h !! p_txblockhash p with
    | None => acc
    | Some pblockindex =>
      let nVotingCycles := voting_cycles pblockindex (PROPOSAL_MAX_CYCLES v) in
      let '(v, upd, fCanVote) :=
        if fUndo then
          let p' := undo_proposal nVotingCycles (tbl_entry (v_proposals v) it.1) in
          (ModifyProposal v it.1 (undo_proposal nVotingCycles), <[p_hash p' := p']> upd,
           CProposal_CanVote h p')
        else (v, upd, CProposal_CanVote h p) in
      if negb fCanVote then (v, upd, seen)
      else
        let p' := set_proposal_votes it.2 (tbl_entry (v_proposals v) it.1) in
        (ModifyProposal v it.1 (set_proposal_votes it.2), <[p_hash p' := p']> upd, {[p_hash p']} ∪ seen)
    end
  end.

Definition undo_prequest (nVotingCycles : Z) (pr : CPaymentRequest) : CPaymentRequest :=
  let pr := CPaymentRequest_ClearState pr pdelete in
  let pr := if CPaymentRequest_GetLastState h pr =? NIL then set_pr_nVotingCycle pr (u32 nVotingCycles) else pr in
  set_pr_fDirty pr true.

Definition set_prequest_votes (t : Tally) (pr : CPaymentRequest) : CPaymentRequest :=
  let '(yes, no, abs) := t in
  set_pr_fDirty (set_pr_nVotesNo (set_pr_nVotesAbs (set_pr_nVotesYes pr yes) abs) no) true.

(** [CanVote] reads the view while the modifier is open, so it sees the
    entry as written and not yet closed. *)
Definition prequest_votes_step (mapPaymentRequests : gmap uint256 CPaymentRequest)
    (acc : View * gmap uint256 CPaymentRequest * gset uint256) (it : uint256 * Tally) :
    option (View * gmap uint256 CPaymentRequest * gset uint256) :=
  let '(v, upd, seen) := acc in
  match mapPaymentRequests !! it.1 with
  | None => Some acc
  | Some pr =>
    if pr_txblockhash pr =? 0 then Some acc
    else
      do pblockindex <- h !! pr_txblockhash pr;
      let nVotingCycles := voting_cycles pblockindex
        (u64 (GetConsensusParameter CONSENSUS_PARAM_PAYMENT_REQUEST_MAX_VOTING_CYCLES v + 1)) in
      let '(v, upd, fCanVote) :=
        if fUndo then
          let v := OpenPaymentRequest v it.1 in
          let prev := tbl_entry (v_prequests v) it.1 in
          let pr' := undo_prequest nVotingCycles prev in
          let v := PutPaymentRequest v it.1 pr' in
          (ClosePaymentRequest v it.1 prev, <[pr_hash pr' := pr']> upd, CPaymentRequest_CanVote h pr' v)
        else (v, upd, CPaymentRequest_CanVote h pr v) in
      if negb fCanVote then Some (v, upd, seen)
      else
        let pr' := set_prequest_votes it.2 (tbl_entry (v_prequests v) it.1) in
        Some (ModifyPaymentRequest v it.1 (set_prequest_votes it.2), <[pr_hash pr' := pr']> upd,
              {[pr_hash pr']} ∪ seen)
  end.

Definition undo_consultation (nVotingCycles : Z) (c : CConsultation) : CConsultation :=
  let c := CConsultation_ClearState c pdelete in
  let newState := CConsultation_GetLastState h c in
  let c := if negb (newState =? EXPIRED) && negb (newState =? PASSED)
           then set_c_nVotingCycle c (u32 nVotingCycles) else c in
  set_c_fDirty c true.

Definition undo_answer (a : CConsultationAnswer) : CConsultationAnswer :=
  set_a_fDirty (CConsultationAnswer_ClearState a pdelete) true.

(** The state of the loops over supports and consultation votes. *)
Record ConsAcc := mkConsAcc {
  ca_view : View;
  ca_updConsultations : gmap uint256 CConsultation;
  ca_updAnswers : gmap uint256 CConsultationAnswer;
  ca_seen : gset uint256;
  ca_cleared : gset uint256
}.

Definition set_support (n : Z) (c : CConsultation) : CConsultation :=
  set_c_fDirty (set_c_nSupport c n) true.
Definition set_answer_support (n : Z) (a : CConsultationAnswer) : CConsultationAnswer :=
  set_a_fDirty (set_a_nSupport a n) true.

(** [ca_seen] is [mapSeenSupport] here. *)
Definition support_step (mapConsultations : gmap uint256 CConsultation)
    (mapConsultationAnswers : gmap uint256 CConsultationAnswer)
    (acc : ConsAcc) (it : uint256 * Z) : ConsAcc :=
  let '(mkConsAcc v updC updA seen cleared) := acc in
  match mapConsultations !! it.1 with
  | Some c =>
    if c_txblockhash c =? 0 then acc
    else match h !! c_txblockhash c with
    | None => acc
    | Some pblockindex =>
      let nVotingCycles := voting_cycles pblockindex
        (u64 (GetConsensusParameter CONSENSUS_PARAM_CONSULTATION_MAX_VOTING_CYCLES v +
              GetConsensusParameter CONSENSUS_PARAM_CONSULTATION_REFLECTION_LENGTH v +
              GetConsensusParameter CONSENSUS_PARAM_CONSULTATION_MAX_SUPPORT_CYCLES v)) in
      let '(v, updC, fCanBeSupported) :=
        if fUndo then
          let c' := undo_consultation nVotingCycles (tbl_entry (v_consultations v) it.1) in
          (ModifyConsultation v it.1 (undo_consultation nVotingCycles), <[c_hash c' := c']> updC,
           CConsultation_CanBeSupported h c')
        else (v, updC, CConsultation_CanBeSupported h c) in
      if negb fCanBeSupported then mkConsAcc v updC updA seen cleared
      else
        let c' := set_support it.2 (tbl_entry (v_consultations v) it.1) in
        mkConsAcc (ModifyConsultation v it.1 (set_support it.2)) (<[c_hash c' := c']> updC) updA
          ({[c_hash c']} ∪ seen) cleared
    end
  | None =>
    match mapConsultationAnswers !! it.1 with
    | None => acc
    | Some ca =>
      if a_txblockhash ca =? 0 then acc
      else if bool_decide (h !! a_txblockhash ca = None) then acc
      else
        let '(v, updA, fCanBeSupported) :=
          if fUndo then
            let a' := undo_answer (tbl_entry (v_answers v) it.1) in
            (ModifyConsultationAnswer v it.1 undo_answer, <[a_hash a' := a']> updA,
             CConsultationAnswer_CanBeSupported h a' v)
          else (v, updA, CConsultationAnswer_CanBeSupported h ca v) in
        if negb fCanBeSupported then mkConsAcc v updC updA seen cleared
        else
          let a' := set_answer_support it.2 (tbl_entry (v_answers v) it.1) in
          mkConsAcc (ModifyConsultationAnswer v it.1 (set_answer_support it.2)) updC
            (<[a_hash a' := a']> updA) ({[a_hash a']} ∪ seen) cleared
    end
  end.

(** The first vote written for a consultation in a scan of the whole cycle
    clears its [mapVotes]; the vote is the key as an unsigned number. *)
Definition set_consultation_vote (clear : bool) (vote n : Z) (c : CConsultation) : CConsultation :=
  let c := if clear then set_c_mapVotes c ∅ else c in
  set_c_fDirty (set_c_mapVotes c (<[u64 vote := u64 n]> (c_mapVotes c))) true.
Definition set_answer_votes (n : Z) (a : CConsultationAnswer) : CConsultationAnswer :=
  set_a_fDirty (set_a_nVotes a n) true.

(** [ca_seen] is [mapSeen] here; it gets the key of the map. *)
Definition consultation_votes_step (fScanningWholeCycle : bool)
    (mapConsultations : gmap uint256 CConsultation)
    (mapConsultationAnswers : gmap uint256 CConsultationAnswer)
    (acc : ConsAcc) (it : (uint256 * Z) * Z) : ConsAcc :=
  let '(mkConsAcc v updC updA seen cleared) := acc in
  let '((k, vote), n) := it in
  match mapConsultations !! k with
  | Some c =>
    if c_txblockhash c =? 0 then acc
    else match h !! c_txblockhash c with
    | None => acc
    | Some pblockindex =>
      let nVotingCycles := voting_cycles pblockindex
        (u64 (GetConsensusParameter CONSENSUS_PARAM_CONSULTATION_MAX_VOTING_CYCLES v + 1)) in
      let '(v, updC, fCanBeVoted) :=
        if fUndo then
          let c' := undo_consultation nVotingCycles (tbl_entry (v_consultations v) k) in
          (ModifyConsultation v k (undo_consultation nVotingCycles), <[c_hash c' := c']> updC,
           CConsultation_CanBeVoted h c' vote && CConsultation_IsValidVote c' vote)
        else (v, updC, CConsultation_CanBeVoted h c vote && CConsultation_IsValidVote c vote) in
      if negb fCanBeVoted then mkConsAcc v updC updA seen cleared
      else
        let clear := fScanningWholeCycle && negb (bool_decide (k ∈ cleared)) in
        let cleared := if clear then {[k]} ∪ cleared else cleared in
        let c' := set_consultation_vote clear vote n (tbl_entry (v_consultations v) k) in
        mkConsAcc (ModifyConsultation v k (set_consultation_vote clear vote n))
          (<[c_hash c' := c']> updC) updA ({[k]} ∪ seen) cleared
    end
  | None =>
    match mapConsultationAnswers !! k with
    | None => acc
    | Some ca =>
      if a_txblockhash ca =? 0 then acc
      else if bool_decide (h !! a_txblockhash ca = None) then acc
      else
        let '(v, updA, fCanBeVoted) :=
          if fUndo then
            let a' := undo_answer (tbl_entry (v_answers v) k) in
            (ModifyConsultationAnswer v k undo_answer, <[a_hash a' := a']> updA,
             CConsultationAnswer_CanBeVoted h a' v)
          else (v, updA, CConsultationAnswer_CanBeVoted h ca v) in
        if negb fCanBeVoted then mkConsAcc v updC updA seen cleared
        else
          let a' := set_answer_votes n (tbl_entry (v_answers v) k) in
          mkConsAcc (ModifyConsultationAnswer v k (set_answer_votes n)) updC
            (<[a_hash a' := a']> updA) ({[k]} ∪ seen) cleared
    end
  end.

(** ** Moving through the states *)

(** [nCFSupply] and [nCFLocked] of [pindexNew]. *)
Record Fund := mkFund { fund_supply : Z; fund_locked : Z }.

Definition set_prequest_cycle (nVotingCycles : Z) (pr : CPaymentRequest) : CPaymentRequest :=
  set_pr_fDirty (set_pr_nVotingCycle pr (u32 nVotingCycles)) true.
Definition set_prequest_state (state : Z) (pr : CPaymentRequest) : CPaymentRequest :=
  set_pr_fDirty (CPaymentRequest_SetState pr pnew state) true.

Definition move_prequest (v : View) (upd : gmap uint256 CPaymentRequest) (k : uint256)
    (f : CPaymentRequest -> CPaymentRequest) : View * gmap uint256 CPaymentRequest :=
  let pr' := f (tbl_entry (v_prequests v) k) in
  (ModifyPaymentRequest v k f, <[pr_hash pr' := pr']> upd).

(** The last block of a cycle moves the request, whose state was [oldState],
    by the results of the three tests. *)
Definition prequest_transition (mapProposals : gmap uint256 CProposal) (k : uint256) (pr : CPaymentRequest)
    (oldState : Z) (fIsExpired fIsAccepted fIsRejected : bool)
    (acc : View * gmap uint256 CPaymentRequest * Fund) : View * gmap uint256 CPaymentRequest * Fund :=
  let '(v, upd, fund) := acc in
  if fIsExpired then
    if negb (oldState =? EXPIRED) && negb (oldState =? ACCEPTED) && negb (oldState =? REJECTED)
    then (move_prequest v upd k (set_prequest_state EXPIRED), fund)
    else acc
  else if fIsRejected then
    if negb (oldState =? REJECTED)
    then (move_prequest v upd k (set_prequest_state REJECTED), fund)
    else acc
  else if oldState =? NIL then
    match mapProposals !! pr_proposalhash pr with
    | None => acc
    | Some proposal =>
      let proposalOldState := CProposal_GetLastState h proposal in
      if ((proposalOldState =? ACCEPTED) || (proposalOldState =? PENDING_VOTING_PREQ)) && fIsAccepted then
        if (CProposal_IsSuper proposal ||
            ((pr_nAmount pr <=? fund_locked fund) && negb (CProposal_IsSuper proposal))) &&
           (pr_nAmount pr <=? CProposal_GetAvailable h proposal v false) then
          let fund := if negb (CProposal_IsSuper proposal)
            then mkFund (fund_supply fund)
                   (fund_locked fund - pr_nAmount (tbl_entry (v_prequests v) k))
            else fund in
          (move_prequest v upd k (set_prequest_state ACCEPTED), fund)
        else acc
      else acc
    end
  else acc.

Definition prequest_step (mapProposals : gmap uint256 CProposal)
    (acc : View * gmap uint256 CPaymentRequest * Fund) (it : uint256 * CPaymentRequest) :
    option (View * gmap uint256 CPaymentRequest * Fund) :=
  let '(v, upd, fund) := acc in
  let '(k, pr) := it in
  if pr_txblockhash pr =? 0 then Some acc
  else
    do pblockindex <- h !! pr_txblockhash pr;
    let nVotingCycles := voting_cycles pblockindex (u64 (nCycleLength + 1)) in
    if fUndo then Some (move_prequest v upd k (undo_prequest nVotingCycles), fund)
    else
      let oldState := CPaymentRequest_GetLastState h pr in
      let '(v, fIsExpired, fIsAccepted, fIsRejected) :=
        if oldState =? NIL then
          let v := OpenPaymentRequest v k in
          let prev := tbl_entry (v_prequests v) k in
          let pr' := set_prequest_cycle nVotingCycles prev in
          let v := PutPaymentRequest v k pr' in
          (ClosePaymentRequest v k prev, CPaymentRequest_IsExpired h pr' v,
           CPaymentRequest_IsAccepted pr' v, CPaymentRequest_IsRejected pr' v)
        else (v, CPaymentRequest_IsExpired h pr v, CPaymentRequest_IsAccepted pr v,
              CPaymentRequest_IsRejected pr v) in
      Some (if end_of_cycle
            then prequest_transition mapProposals k pr oldState fIsExpired fIsAccepted fIsRejected (v, upd, fund)
            else (v, upd, fund)).

Definition set_proposal_cycle (nVotingCycles : Z) (p : CProposal) : CProposal :=
  set_p_fDirty (set_p_nVotingCycle p (u32 nVotingCycles)) true.
Definition set_proposal_state (state : Z) (p : CProposal) : CProposal :=
  set_p_fDirty (CProposal_SetState p pnew state) true.

Definition move_proposal (v : View) (upd : gmap uint256 CProposal) (k : uint256)
    (f : CProposal -> CProposal) : View * gmap uint256 CProposal :=
  let p' := f (tbl_entry (v_proposals v) k) in
  (ModifyProposal v k f, <[p_hash p' := p']> upd).

Definition proposal_transition (k : uint256) (p : CProposal) (oldState : Z)
    (fIsExpired fIsAccepted fIsRejected : bool)
    (acc : View * gmap uint256 CProposal * Fund) : View * gmap uint256 CProposal * Fund :=
  let '(v, upd, fund) := acc in
  if fIsExpired then
    if negb (oldState =? EXPIRED) && negb (oldState =? ACCEPTED_EXPIRED) && negb (oldState =? REJECTED) then
      if CProposal_HasPendingPaymentRequests h p v then
        (move_proposal v upd k (set_proposal_state PENDING_VOTING_PREQ), fund)
      else if (oldState =? ACCEPTED) || (oldState =? PENDING_VOTING_PREQ) then
        let p0 := tbl_entry (v_proposals v) k in
        let fund := if negb (CProposal_IsSuper p0)
          then mkFund (fund_supply fund + CProposal_GetAvailable h p0 v false)
                      (fund_locked fund - CProposal_GetAvailable h p0 v false)
          else fund in
        (move_proposal v upd k (set_proposal_state ACCEPTED_EXPIRED), fund)
      else (move_proposal v upd k (set_proposal_state EXPIRED), fund)
    else acc
  else if fIsRejected then
    if negb (oldState =? REJECTED)
    then (move_proposal v upd k (fun p => CProposal_SetState p pnew REJECTED), fund)
    else acc
  else if fIsAccepted then
    if (oldState =? NIL) || (oldState =? PENDING_FUNDS) then
      if (negb (CProposal_IsSuper p) && (CProposal_GetAvailable h p v false <=? fund_supply fund)) ||
         CProposal_IsSuper p then
        let p0 := tbl_entry (v_proposals v) k in
        let fund := if negb (CProposal_IsSuper p)
          then mkFund (fund_supply fund - CProposal_GetAvailable h p0 v false)
                      (fund_locked fund + CProposal_GetAvailable h p0 v false)
          else fund in
        (move_proposal v upd k (set_proposal_state ACCEPTED), fund)
      else if negb (oldState =? PENDING_FUNDS) then
        (move_proposal v upd k (set_proposal_state PENDING_FUNDS), fund)
      else acc
    else acc
  else acc.

Definition proposal_step (acc : View * gmap uint256 CProposal * Fund) (it : uint256 * CProposal) :
    option (View * gmap uint256 CProposal * Fund) :=
  let '(v, upd, fund) := acc in
  let '(k, p) := it in
  if p_txblockhash p =? 0 then Some acc
  else match h !! p_txblockhash p with
  | None => Some acc
  | Some pblockindex =>
    let nVotingCycles := voting_cycles pblockindex (PROPOSAL_MAX_CYCLES v) in
    do (fIsExpired : bool) <- CProposal_IsExpired h p (nTime bnew) v;
    let fIsAccepted := CProposal_IsAccepted p v in
    let fIsRejected := CProposal_IsRejected p v in
    if fUndo then
      let p' := undo_proposal nVotingCycles (tbl_entry (v_proposals v) k) in
      do (_ : bool) <- CProposal_IsExpired h p' (nTime bnew) v;
      Some (move_proposal v upd k (undo_proposal nVotingCycles), fund)
    else
      let oldState := CProposal_GetLastState h p in
      let '(v, upd) := if oldState =? NIL then move_proposal v upd k (set_proposal_cycle nVotingCycles)
                       else (v, upd) in
      Some (if end_of_cycle
            then proposal_transition k p oldState fIsExpired fIsAccepted fIsRejected (v, upd, fund)
            else (v, upd, fund))
  end.

Definition set_answer_state (state : Z) (a : CConsultationAnswer) : CConsultationAnswer :=
  set_a_fDirty (CConsultationAnswer_SetState a pnew state) true.

Definition move_answer (v : View) (upd : gmap uint256 CConsultationAnswer) (k : uint256)
    (f : CConsultationAnswer -> CConsultationAnswer) : View * gmap uint256 CConsultationAnswer :=
  let a' := f (tbl_entry (v_answers v) k) in
  (ModifyConsultationAnswer v k f, <[a_hash a' := a']> upd).

(** [mapConsensusToChange.insert]: the first value for a parameter stays;
    [None] when an answer is not a number [stoll] reads. *)
Definition add_change (m : gmap Z Z) (pa : Z * string) : option (gmap Z Z) :=
  do val <- stoll pa.2;
  Some (match m !! pa.1 with Some _ => m | None => <[pa.1 := u64 val]> m end).

Definition answer_step (mapConsultations : gmap uint256 CConsultation)
    (acc : View * gmap uint256 CConsultationAnswer * gmap Z Z) (it : uint256 * CConsultationAnswer) :
    option (View * gmap uint256 CConsultationAnswer * gmap Z Z) :=
  let '(v, upd, mapConsensusToChange) := acc in
  let '(k, a) := it in
  if a_txblockhash a =? 0 then Some acc
  else if bool_decide (h !! a_txblockhash a = None) then Some acc
  else
    let fIsSupported := CConsultationAnswer_IsSupported a v in
    let fIsConsensusAccepted := CConsultationAnswer_IsConsensusAccepted a v in
    if fUndo then Some (move_answer v upd k undo_answer, mapConsensusToChange)
    else if end_of_cycle then
      let oldState := CConsultationAnswer_GetLastState h a in
      let '(v, upd) := if fIsSupported && (oldState =? NIL)
        then move_answer v upd k (set_answer_state ACCEPTED) else (v, upd) in
      if fIsConsensusAccepted && negb (oldState =? PASSED) then
        match mapConsultations !! a_parent a with
        | None => Some (v, upd, mapConsensusToChange)
        | Some parent =>
          if CConsultation_IsAboutConsensusParameter parent then
            let answers := CConsultationAnswer_GetAnswers (tbl_entry (v_answers v) k) in
            let parameters := CConsultation_GetParameters parent in
            if (length answers =? length parameters)%nat then
              do m <- foldM add_change mapConsensusToChange (zip parameters answers);
              Some (move_answer v upd k (set_answer_state PASSED), m)
            else Some (ModifyConsultationAnswer v k id, upd, mapConsensusToChange)
          else Some (v, upd, mapConsensusToChange)
        end
      else Some (v, upd, mapConsensusToChange)
    else Some acc.

Definition set_consultation_cycle (nVotingCycles : Z) (c : CConsultation) : CConsultation :=
  set_c_fDirty (set_c_nVotingCycle c (u32 nVotingCycles)) true.
Definition set_consultation_state (state : Z) (c : CConsultation) : CConsultation :=
  set_c_fDirty (CConsultation_SetState c pnew state) true.

Definition move_consultation (v : View) (upd : gmap uint256 CConsultation) (k : uint256)
    (f : CConsultation -> CConsultation) : View * gmap uint256 CConsultation :=
  let c' := f (tbl_entry (v_consultations v) k) in
  (ModifyConsultation v k f, <[c_hash c' := c']> upd).

Definition consultation_step (mapConsensusToChange : gmap Z Z)
    (acc : View * gmap uint256 CConsultation) (it : uint256 * CConsultation) :
    option (View * gmap uint256 CConsultation) :=
  let '(v, upd) := acc in
  let '(k, c) := it in
  if c_txblockhash c =? 0 then Some acc
  else match h !! c_txblockhash c with
  | None => Some acc
  | Some pblockindex =>
    let nVotingCycles := voting_cycles pblockindex
      (u64 (GetConsensusParameter CONSENSUS_PARAM_CONSULTATION_MAX_VOTING_CYCLES v + 1)) in
    do (fIsExpired : bool) <- CConsultation_IsExpired h c bnew v;
    let fIsSupported := CConsultation_IsSupported c v in
    let fCanMoveInReflection := CConsultation_CanMoveInReflection c v in
    do (fIsReflectionOver : bool) <- CConsultation_IsReflectionOver h c bnew v;
    if fUndo then Some (move_consultation v upd k (undo_consultation nVotingCycles))
    else
      let oldState := CConsultation_GetLastState h c in
      let '(v, upd) := if negb (oldState =? EXPIRED) && negb (oldState =? PASSED)
        then move_consultation v upd k (set_consultation_cycle nVotingCycles) else (v, upd) in
      if end_of_cycle then
        let '(v, upd, lastState) :=
          if fIsExpired then
            if negb (oldState =? EXPIRED)
            then (move_consultation v upd k (set_consultation_state EXPIRED), EXPIRED)
            else (v, upd, oldState)
          else if fIsSupported then
            if oldState =? NIL
            then (move_consultation v upd k (set_consultation_state SUPPORTED), SUPPORTED)
            else if (oldState =? SUPPORTED) && fCanMoveInReflection
            then (move_consultation v upd k (set_consultation_state REFLECTION), REFLECTION)
            else if (oldState =? REFLECTION) && fIsReflectionOver
            then (move_consultation v upd k (set_consultation_state ACCEPTED), ACCEPTED)
            else (v, upd, oldState)
          else (v, upd, oldState) in
        if CConsultation_IsAboutConsensusParameter c && (oldState =? ACCEPTED) && negb (lastState =? EXPIRED) then
          if forallb (fun x => bool_decide (is_Some (mapConsensusToChange !! x))) (CConsultation_GetParameters c)
          then Some (move_consultation v upd k (set_consultation_state PASSED))
          else Some (v, upd)
        else Some (v, upd)
      else Some (v, upd)
  end.

(** ** Restarting the counters of entries without a vote in the cycle *)

Definition restart_prequest (seen : gset uint256) (v : View) (it : uint256 * CPaymentRequest) : View :=
  if negb (bool_decide (pr_hash it.2 ∈ seen)) && CPaymentRequest_CanVote h it.2 v then
    ModifyPaymentRequest v it.1 (fun pr => set_pr_fDirty (set_pr_nVotesNo (set_pr_nVotesYes pr 0) 0) true)
  else v.

Definition restart_proposal (seen : gset uint256) (v : View) (it : uint256 * CProposal) : View :=
  if negb (bool_decide (p_hash it.2 ∈ seen)) && CProposal_CanVote h it.2 then
    ModifyProposal v it.1 (fun p => set_p_fDirty (set_p_nVotesNo (set_p_nVotesYes p 0) 0) true)
  else v.

(** [acc]: the view and [vClearAnswers]. *)
Definition restart_consultation (seen seenSupport : gset uint256) (acc : View * list uint256)
    (it : uint256 * CConsultation) : View * list uint256 :=
  let '(v, vClearAnswers) := acc in
  let '(k, c) := it in
  let v := if CConsultation_CanBeSupported h c && negb (bool_decide (c_hash c ∈ seenSupport))
    then ModifyConsultation v k (fun c => set_c_fDirty (set_c_nSupport c 0) true) else v in
  if CConsultation_GetLastState h c =? ACCEPTED then
    let vClearAnswers := if negb (CConsultation_IsRange c) then vClearAnswers ++ [c_hash c] else vClearAnswers in
    let v := if (bool_decide (is_Some (c_mapVotes c !! u64 VOTE_ABSTAIN)) || CConsultation_IsRange c) &&
                negb (bool_decide (c_hash c ∈ seen))
      then ModifyConsultation v k (fun c => set_c_mapVotes c ∅) else v in
    (v, vClearAnswers)
  else (v, vClearAnswers).

Definition restart_answer (seen seenSupport : gset uint256) (vClearAnswers : list uint256) (v : View)
    (it : uint256 * CConsultationAnswer) : View :=
  let '(k, a) := it in
  if bool_decide (k ∈ seen) then v
  else
    let v := if CConsultationAnswer_CanBeSupported h a v && negb (bool_decide (a_hash a ∈ seenSupport))
      then ModifyConsultationAnswer v k (fun a => set_a_fDirty (set_a_nSupport a 0) true) else v in
    if bool_decide (a_parent a ∈ vClearAnswers)
    then ModifyConsultationAnswer v k (fun a => set_a_fDirty (set_a_nVotes a 0) true) else v.

Definition change_parameter (v : View) (it : Z * Z) : View :=
  ModifyConsensusParameter v (i32 it.1) (fun x => CConsensusParameter_Set x (nHeight bnew) it.2).
End vote_step.

(** ** The whole function *)

Section vote_step_top.
Context {params : Params} (h : BlockMap) (bv : BlockVotes) (hash_params : list Z -> uint256).

(** Whether the votes of the whole cycle are counted again, or only those of
    the new block are added to the counters. *)
Definition scan_whole_cycle (fUndo : bool) (g : DaoCache) (consensusStateHash : uint256) (nBlocks : Z) : bool :=
  fUndo || negb (lastConsensusStateHash g =? consensusStateHash) || (nBlocks =? 1) || DaoCache_empty g.

(** The first part: the counters, and whether the whole cycle was scanned. *)
Definition VoteStep_scan (pnew : uint256) (bnew : CBlockIndex) (fUndo fCFund fDAOConsultations : bool)
    (v : View) (g : DaoCache) : option (DaoCache * bool) :=
  let nCycleLength := cycle_length v in
  let nBlocks := i32 (u64 (nHeight bnew) mod nCycleLength + 1) in
  let consensusStateHash := GetConsensusStateHash hash_params v in
  let fScanningWholeCycle := scan_whole_cycle fUndo g consensusStateHash nBlocks in
  let '(g, nBlocks) := if fScanningWholeCycle then (DaoCache_clear g, nBlocks) else (g, 1) in
  let g := mkDaoCache (mapCacheProposalsToUpdate g) (mapCachePaymentRequestToUpdate g)
    (mapCacheSupportToUpdate g) (mapCacheConsultationToUpdate g) (nCacheExclude g) consensusStateHash in
  do g <- scan_loop h bv v fCFund fDAOConsultations (Z.to_nat nBlocks) pnew bnew g;
  Some (g, fScanningWholeCycle).

(** The copies of the tables the function works on. *)
Record DaoMaps := mkDaoMaps {
  m_proposals : gmap uint256 CProposal;
  m_prequests : gmap uint256 CPaymentRequest;
  m_consultations : gmap uint256 CConsultation;
  m_answers : gmap uint256 CConsultationAnswer
}.

(** [None] is the early [return false]. *)
Definition VoteStep_maps (fCFund fDAOConsultations : bool) (v : View) : option DaoMaps :=
  do '(mapProposals, mapPaymentRequests) <-
    (if fCFund then
       do a <- GetAllProposals v; do b <- GetAllPaymentRequests v; Some (a, b)
     else Some (∅, ∅));
  do '(mapConsultationAnswers, mapConsultations) <-
    (if fDAOConsultations then
       do a <- GetAllConsultationAnswers v; do b <- GetAllConsultations v; Some (a, b)
     else Some (∅, ∅));
  Some (mkDaoMaps mapProposals mapPaymentRequests mapConsultations mapConsultationAnswers).

(** The second part: counters into the view; returns the view, the maps,
    [mapSeen] and [mapSeenSupport]. *)
Definition VoteStep_update (bnew : CBlockIndex) (fUndo : bool) (pdelete : uint256) (nCycleLength : Z)
    (fCFund fDAOConsultations fScanningWholeCycle : bool) (g : DaoCache) (v : View) (m : DaoMaps) :
    option (View * DaoMaps * gset uint256 * gset uint256) :=
  do '(v, m, seen) <-
    (if fCFund then
       let '(v, updP, seen) := foldl (proposal_votes_step h bnew fUndo pdelete nCycleLength (m_proposals m))
         (v, ∅, ∅) (elems (mapCacheProposalsToUpdate g)) in
       do '(v, updPr, seen) <- foldM (prequest_votes_step h bnew fUndo pdelete nCycleLength (m_prequests m))
         (v, ∅, seen) (elems (mapCachePaymentRequestToUpdate g));
       Some (v, mkDaoMaps (assign_all (m_proposals m) updP) (assign_all (m_prequests m) updPr)
                  (m_consultations m) (m_answers m), seen)
     else Some (v, m, ∅));
  let '(v, m, seen, seenSupport) :=
    if fDAOConsultations then
      let s := foldl (support_step h bnew fUndo pdelete nCycleLength (m_consultations m) (m_answers m))
        (mkConsAcc v ∅ ∅ ∅ ∅) (elems (mapCacheSupportToUpdate g)) in
      let m := mkDaoMaps (m_proposals m) (m_prequests m) (assign_all (m_consultations m) (ca_updConsultations s))
        (assign_all (m_answers m) (ca_updAnswers s)) in
      let c := foldl (consultation_votes_step h bnew fUndo pdelete nCycleLength fScanningWholeCycle
          (m_consultations m) (m_answers m))
        (mkConsAcc (ca_view s) ∅ ∅ seen ∅) (elems (mapCacheConsultationToUpdate g)) in
      (ca_view c,
       mkDaoMaps (m_proposals m) (m_prequests m) (assign_all (m_consultations m) (ca_updConsultations c))
         (assign_all (m_answers m) (ca_updAnswers c)),
       ca_seen c, ca_seen s)
    else (v, m, seen, ∅) in
  Some (SetExcludeVotes v (nCacheExclude g), m, seen, seenSupport).

(** The third part: the states; returns the view, the maps, the fund and the
    parameters to change. *)
Definition VoteStep_states (pnew : uint256) (bnew : CBlockIndex) (fUndo : bool) (pdelete : uint256)
    (nCycleLength : Z) (fCFund fDAOConsultations : bool) (v : View) (m : DaoMaps) (fund : Fund) :
    option (View * DaoMaps * Fund * gmap Z Z) :=
  do '(v, m, fund) <-
    (if fCFund then
       do '(v, updPr, fund) <- foldM (prequest_step h pnew bnew fUndo pdelete nCycleLength (m_proposals m))
         (v, ∅, fund) (elems (m_prequests m));
       do '(v, updP, fund) <- foldM (proposal_step h pnew bnew fUndo pdelete nCycleLength)
         (v, ∅, fund) (elems (m_proposals m));
       Some (v, mkDaoMaps (assign_all (m_proposals m) updP) (assign_all (m_prequests m) updPr)
                  (m_consultations m) (m_answers m), fund)
     else Some (v, m, fund));
  if fDAOConsultations then
    do '(v, updA, mapConsensusToChange) <-
      foldM (answer_step h pnew bnew fUndo pdelete nCycleLength (m_consultations m)) (v, ∅, ∅) (elems (m_answers m));
    do '(v, updC) <-
      foldM (consultation_step h pnew bnew fUndo pdelete nCycleLength mapConsensusToChange) (v, ∅)
        (elems (m_consultations m));
    Some (v, mkDaoMaps (m_proposals m) (m_prequests m) (assign_all (m_consultations m) updC)
               (assign_all (m_answers m) updA), fund, mapConsensusToChange)
  else Some (v, m, fund, ∅).

(** The fourth part, after a scan of the whole cycle. *)
Definition VoteStep_restart (fCFund fDAOConsultations : bool) (seen seenSupport : gset uint256)
    (v : View) (m : DaoMaps) : View :=
  let v := if fCFund then
      let v := foldl (restart_prequest h seen) v (elems (m_prequests m)) in
      foldl (restart_proposal h seen) v (elems (m_proposals m))
    else v in
  if fDAOConsultations then
    let '(v, vClearAnswers) := foldl (restart_consultation h seen seenSupport) (v, []) (elems (m_consultations m)) in
    foldl (restart_answer h seen seenSupport vClearAnswers) v (elems (m_answers m))
  else v.

(** The result: the return value, [pindexNew] after the call, and the state. *)
Record StepResult := mkStepResult {
  sr_ok : bool;
  sr_pindexNew : uint256;
  sr_block : CBlockIndex;
  sr_view : View;
  sr_cache : DaoCache;
  sr_versionbits : VersionBitsCache
}.

Definition set_fund (b : CBlockIndex) (fund : Fund) : CBlockIndex :=
  mkCBlockIndex (pprev b) (pskip b) (nHeight b) (nStatus b) (bi_nVersion b) (nTime b) (nBits b) (nNonce b)
    (fund_supply fund) (fund_locked fund) (nFlags b).

(** After the scan: everything that writes the view. *)
Definition VoteStep_apply (pnew : uint256) (bnew : CBlockIndex) (fUndo : bool) (pdelete : uint256)
    (nCycleLength : Z) (fCFund fDAOConsultations fScanningWholeCycle : bool) (g : DaoCache) (v : View)
    (m : DaoMaps) : option (CBlockIndex * View) :=
  do '(v, m, seen, seenSupport) <-
    VoteStep_update bnew fUndo pdelete nCycleLength fCFund fDAOConsultations fScanningWholeCycle g v m;
  do '(v, m, fund, mapConsensusToChange) <-
    VoteStep_states pnew bnew fUndo pdelete nCycleLength fCFund fDAOConsultations v m
      (mkFund (nCFSupply bnew) (nCFLocked bnew));
  let v := if fScanningWholeCycle then VoteStep_restart fCFund fDAOConsultations seen seenSupport v m else v in
  Some (set_fund bnew fund, foldl (change_parameter bnew) v (elems mapConsensusToChange)).

Definition VoteStep (pindex : uint256) (bindex : CBlockIndex) (fUndo : bool)
    (v : View) (g : DaoCache) (vbc : VersionBitsCache) : option StepResult :=
  do '(pnew, bnew) <-
    (if fUndo then do q <- pprev bindex; do b <- h !! q; Some (q, b) else Some (pindex, bindex));
  let nCycleLength := cycle_length v in
  check negb (nCycleLength =? 0);
  do '(fCFund, vbc) <- IsCommunityFundEnabled h (pprev bnew) vbc;
  do '(fDAOConsultations, vbc) <- IsDAOEnabled h (pprev bnew) vbc;
  if negb fCFund && negb fDAOConsultations then Some (mkStepResult true pnew bnew v g vbc)
  else
    do '(g, fScanningWholeCycle) <- VoteStep_scan pnew bnew fUndo fCFund fDAOConsultations v g;
    match VoteStep_maps fCFund fDAOConsultations v with
    | None => Some (mkStepResult false pnew bnew v g vbc)
    | Some m =>
      do '(b, v) <- VoteStep_apply pnew bnew fUndo pindex nCycleLength fCFund fDAOConsultations
        fScanningWholeCycle g v m;
      Some (mkStepResult true pnew b v g vbc)
    end.
End vote_step_top.
