(* ===== verification/VoteDemo.v ===== *)
(** * A small network for the examples

    Blocks of height 0 to 8 and voting cycles of four blocks.  The window of
    the deployments is one block, so every deployment is active from height 3
    on.  Proposal 501 was accepted in block 103 and has the payment request
    601; proposal 502 is new.  The stakers of blocks 104 to 107 vote. *)
From S2P Require Import Prelude Float CxxString Chain VersionBits Params DaoTypes StateView DaoRules VoteStep.

Definition demo_vParameters : list Z :=
  [4; 150; 150; 2; 4; 4; 1; 0; 0; 5000; 7000; 7000; 0; 6; 5000; 7000; 7000; 0; 8; 500; 2000; 0; 0; 0; 0; 0; 0; 0].

#[export] Instance demo_params : Params := {|
  nRuleChangeActivationThreshold := 1;
  nMinerConfirmationWindow := 1;
  vDeployments := replicate 24 (mkDeployment 6 0 1000000);
  vParameters := fun pos => default 0 (demo_vParameters !! Z.to_nat pos);
  nMinimumQuorumFirstHalf := f32_per_10000 5000;
  nMinimumQuorumSecondHalf := f32_per_10000 4000;
  nPaymentRequestMaxVersion := 0x3f;
  nProposalMaxVersion := 0x7f;
  nConsultationMaxVersion := 0x3f;
  nConsultationAnswerMaxVersion := 0x7;
  nConsensusChangeMinAccept := 7500;
  sigActivationTime := 0;
  nHeightv452Fork := 0;
  nCommunityFundMinAge := 1
|}.

Definition vote_block (prev : option uint256) (height supply locked : Z) : CBlockIndex :=
  mkCBlockIndex prev None height 0 0x20000040 (1000 + 30 * height) 0 0 supply locked 0.

Definition vote_blocks : BlockMap :=
  list_to_map ((100, vote_block None 0 0 0) ::
    map (fun i => (100 + i, vote_block (Some (100 + i - 1)) i 500 80)) [1; 2; 3; 4; 5; 6; 7; 8]).

Definition fund_proposal : CProposal :=
  mkCProposal 80 0 EmptyString EmptyString 100000 {[103 := ACCEPTED]} 4 0 0 0 EmptyString 501 101 2 1 false.
Definition new_proposal : CProposal :=
  mkCProposal 120 0 EmptyString EmptyString 100000 ∅ 0 0 0 0 EmptyString 502 103 2 0 false.
Definition fund_request : CPaymentRequest :=
  mkCPaymentRequest 30 ∅ 601 501 103 0 0 0 0 EmptyString 2 0 false.

Definition vote_view : View :=
  mkView {[501 := fund_proposal; 502 := new_proposal]} {[601 := fund_request]} ∅ ∅ ∅ ∅ 0 true.

Definition vote_votes : BlockVotes :=
  let hashes := [104; 105; 106; 107] in
  mkBlockVotes (list_to_map (map (fun b => (b, [(502, 1); (502, 0)])) hashes))
    (list_to_map (map (fun b => (b, [(601, 1)])) hashes)) ∅ ∅.

Definition vote_cache : DaoCache := mkDaoCache ∅ ∅ ∅ ∅ 0 0.

(** Block 107, the last of its cycle, and block 106 before it. *)
Definition demo_step (p : uint256) : option StepResult :=
  b ← vote_blocks !! p;
  VoteStep vote_blocks vote_votes (fun _ => 7) p b false vote_view vote_cache (replicate 24 ∅).

Lemma vote_blocks_wf : wf_blocks vote_blocks.
Proof. apply wf_blocks_check. vm_compute. reflexivity. Qed.
