(* ===== verification/StakeKernel.v ===== *)
(** * The stake kernel ([main.cpp])

    The check of the kernel of a coinstake, the coin age and the reward of a
    staker.  The double SHA-256, the lookup of a transaction in pool, index and
    block files ([GetTransaction]) and the script interpreter are parameters. *)
From S2P Require Import Prelude Bytes ArithUint256 Chain Pow StakeModifier VersionBits Params DaoTypes StateView VoteScript.
From S2P Require Import Transaction Json VoteDemo Coins.

Abbreviation WIDTH512 := 16%nat.

(** A [uint512] is the little-endian number of its bytes. *)
Definition UintToArith512 (h : Z) : list Z :=
  map (fun x => le_value (take 4 (drop (x * 4) (le_bytes 64 h)))) (seq 0 WIDTH512).

(** [base_uint<512>(const std::string&)] *)
Definition base_uint512_hex (s : string) : list Z := UintToArith512 (uint512S s).

Definition arith_GetHex (a : arith_uint256) : string := GetHex (ArithToUint256 a).

Definition any_cold (s : CScript) : bool := IsColdStaking s || IsColdStakingv2 s.

Definition STAKE_TIMESTAMP_MASK : Z := 15.
Definition MAX_MINT_PROOF_OF_STAKE : Z := 10000000.
Definition CENT : Z := 1000000.

Definition CheckCoinStakeTimestamp (height nTimeBlock nTimeTx : Z) : bool :=
  if 0 <? height then (nTimeBlock =? nTimeTx) && (Z.land nTimeTx STAKE_TIMESTAMP_MASK =? 0) else nTimeBlock =? nTimeTx.

(** [tx.vout[n]]; [None] is a read past the end. *)
Definition tx_out (tx : CoinTx) (p : COutPoint) : option TxOut := ct_vout tx !! Z.to_nat (prevout_n p).
Definition out_script (o : TxOut) : CScript := scriptPubKey (out_plain o).

Section kernel.
Context (Hash : list Z -> uint256) (P : PowParams) (h : BlockMap) (stake : uint256 -> StakeFields).

Definition GetWeight (nIntervalBeginning nIntervalEnd : Z) : Z :=
  i64 (i64 (nIntervalEnd - nIntervalBeginning) - nStakeMinAge P).

(** ** The kernel *)

(** [ss << nStakeModifier << nTimeBlockFrom << txPrev.nTime << prevout.hash << prevout.n << nTimeTx] *)
Definition kernel_bytes (modifier nTimeBlockFrom : Z) (txPrev : CoinTx) (prevout : COutPoint) (nTimeTx : Z) : list Z :=
  le_bytes 8 modifier ++ le_bytes 4 nTimeBlockFrom ++ le_bytes 4 (ct_nTime txPrev) ++
  uint256_bytes (prevout_hash prevout) ++ le_bytes 4 (prevout_n prevout) ++ le_bytes 4 nTimeTx.

(** What the function returns, with [hashProofOfStake] and
    [targetProofOfStake] when it reaches them. *)
Definition CheckStakeKernelHashV2 (pindexPrev : uint256) (bits nTimeBlockFrom : Z) (txPrev : CoinTx) (prevout : COutPoint)
    (nTimeTx : Z) : option (bool * option (arith_uint256 * arith_uint256)) :=
  if nTimeTx <? ct_nTime txPrev then Some (false, None)
  else if nTimeTx <? u32 (nTimeBlockFrom + nStakeMinAge P) then Some (false, None)
  else
    let target := (SetCompact bits).1.1 in
    do out <- tx_out txPrev prevout;
    let bnWeight := base_uint_u64 WIDTH512 (u64 (nValue (out_plain out))) in
    let target512 := base_uint_mul WIDTH512 (base_uint512_hex (arith_GetHex target)) bnWeight in
    let modifier := nStakeModifier (stake pindexPrev) in
    let hashProof := UintToArith256 (Hash (kernel_bytes modifier nTimeBlockFrom txPrev prevout nTimeTx)) in
    let hash512 := base_uint512_hex (arith_GetHex hashProof) in
    Some (negb (base_uint_gt WIDTH512 hash512 target512), Some (hashProof, target)).

Definition CheckStakeKernelHash (pindexPrev : uint256) (bits : Z) (blockFrom : CBlockIndex) :=
  CheckStakeKernelHashV2 pindexPrev bits (u32 (GetBlockTime blockFrom)).

(** ** The coinstake *)

Context (GetTransaction : uint256 -> option (CoinTx * uint256)).
Context (check_script : TxOut -> CoinTx -> bool).
Context {params : Params}.
Context {S : Type} `{!CoinStore S}.

(** The loop over the other inputs: [fColdStaking] after it, or [false]; [None]
    is a read past the end. *)
Fixpoint other_inputs (kernelScript : CScript) (fColdStaking : bool) (vin : list COutPoint) : option (option bool) :=
  match vin with
  | [] => Some (Some fColdStaking)
  | prevout :: vin =>
    match GetTransaction (prevout_hash prevout) with
    | None => Some None
    | Some (txPrev_, _) =>
      do o <- tx_out txPrev_ prevout;
      let fColdStaking := fColdStaking || any_cold (out_script o) in
      if fColdStaking && negb (bool_decide (out_script o = kernelScript)) then Some None
      else other_inputs kernelScript fColdStaking vin
    end
  end.

(** The loop over the outputs from the second on: [valueOut], or [false]. *)
Fixpoint staked_outputs (fPoolEnabled : bool) (script : CScript) (valueOut : Z) (outs : list TxOut) : option Z :=
  match outs with
  | [] => Some valueOut
  | o :: outs =>
    if fPoolEnabled && bool_decide (out_script o = script)
    then staked_outputs fPoolEnabled script (i64 (valueOut + nValue (out_plain o))) outs
    else if negb fPoolEnabled && negb (bool_decide (out_script o = script)) then None
    else staked_outputs fPoolEnabled script valueOut outs
  end.

(** The block for cold staking: the view and whether it passes; [None] is the
    assertion of [GetOutputFor]. *)
Definition cold_check (fPoolEnabled : bool) (script : CScript) (tx : CoinTx) (view : CoinsCache S) : option (CoinsCache S * bool) :=
  let '(view, have) := HaveInputs view tx in
  if negb have then Some (view, false)
  else
    let '(view, value) := GetValueIn view tx in
    do valueIn <- value;
    let outs := take (length (ct_vout tx) - (if fPoolEnabled then 0 else 1) - 1) (drop 1 (ct_vout tx)) in
    Some (view, match staked_outputs fPoolEnabled script 0 outs with
                | None => false
                | Some valueOut => negb (fPoolEnabled && (valueOut <? valueIn))
                end).

(** The check of the signature; with [pvChecks] it is only queued. *)
Definition signature_check (queued : bool) (tx : CoinTx) (prevout : COutPoint) (view : CoinsCache S) :
    option (CoinsCache S * bool) :=
  let '(view, e) := FetchCoins view (prevout_hash prevout) in
  do e <- e;
  do o <- vout (e_coins e) !! Z.to_nat (prevout_n prevout);
  Some (view, queued || check_script o tx).

Record StakeCheck := mkStakeCheck {
  sc_ok : bool;
  sc_proof : option (arith_uint256 * arith_uint256);
  sc_view : CoinsCache S;
  sc_cache : VersionBitsCache
}.

Definition CheckProofOfStake (pindexPrev : uint256) (tx : CoinTx) (bits : Z) (queued fCHeckSignature : bool)
    (view : CoinsCache S) (cache : VersionBitsCache) : option StakeCheck :=
  match ct_vin tx with
  | prevout :: vin =>
    if negb (ct_IsCoinStake tx) then Some (mkStakeCheck false None view cache)
    else match GetTransaction (prevout_hash prevout) with
    | None => Some (mkStakeCheck false None view cache)
    | Some (txPrev, hashBlock) =>
      do out <- tx_out txPrev prevout;
      let kernelScript := out_script out in
      do '(fPoolEnabled, cache) <- IsColdStakingPoolFeeEnabled h (Some pindexPrev) cache;
      do cold <- (if (fPoolEnabled : bool) then other_inputs kernelScript (any_cold kernelScript) vin
                  else Some (Some (any_cold kernelScript)));
      match cold with
      | None => Some (mkStakeCheck false None view cache)
      | Some fColdStaking =>
        do '(view, ok) <- (if (fColdStaking : bool) then cold_check fPoolEnabled kernelScript tx view else Some (view, true));
        if negb ok then Some (mkStakeCheck false None view cache)
        else
          do '(view, ok) <- (if (fCHeckSignature : bool) then signature_check queued tx prevout view else Some (view, true));
          if negb ok then Some (mkStakeCheck false None view cache)
          else match h !! hashBlock with
          | None => Some (mkStakeCheck false None view cache)
          | Some pblockindex =>
            if negb (prevout_hash prevout =? ct_hash txPrev) then Some (mkStakeCheck false None view cache)
            else
              do '(ok, proof) <- CheckStakeKernelHash pindexPrev bits pblockindex txPrev prevout (ct_nTime tx);
              Some (mkStakeCheck ok proof view cache)
          end
      end
    end
  | [] => Some (mkStakeCheck false None view cache)
  end.

(** What the staker asks before it signs; the text that is returned when the
    wallet does not know the transaction converts to true. *)
Definition CheckKernel (in_wallet : uint256 -> bool) (pindexPrev : uint256) (bits time : Z) (prevout : COutPoint) : option bool :=
  match GetTransaction (prevout_hash prevout) with
  | None => Some false
  | Some (txPrev, hashBlock) =>
    match h !! hashBlock with
    | None => Some false
    | Some pblockindex =>
      if time <? GetBlockTime pblockindex + nStakeMinAge P then Some false
      else if negb (in_wallet (prevout_hash prevout)) then Some true
      else do '(ok, _) <- CheckStakeKernelHash pindexPrev bits pblockindex txPrev prevout (u32 time); Some ok
    end
  end.

(** ** Coin age and reward *)

(** The loop of [TransactionGetCoinAge]; the result is [None] for [return
    false]. *)
Fixpoint coin_age_loop (nTimeTx : Z) (bnCentSecond : list Z) (vin : list COutPoint) : option (option (list Z)) :=
  match vin with
  | [] => Some (Some bnCentSecond)
  | prevout :: vin =>
    match GetTransaction (prevout_hash prevout) with
    | None => coin_age_loop nTimeTx bnCentSecond vin
    | Some (txPrev, hashBlock) =>
      if nTimeTx <? ct_nTime txPrev then Some None
      else match h !! hashBlock with
      | None => Some None
      | Some b =>
        if nTimeTx <? u32 (nTime b + nStakeMinAge P) then coin_age_loop nTimeTx bnCentSecond vin
        else
          do o <- tx_out txPrev prevout;
          do x <- base_uint_div WIDTH512 (base_uint_mul32 (base_uint_u64 WIDTH512 (u64 (nValue (out_plain o))))
                    (u32 (nTimeTx - ct_nTime txPrev))) (base_uint_u64 WIDTH512 CENT);
          coin_age_loop nTimeTx (base_uint_add bnCentSecond x) vin
      end
    end
  end.

(** What it returns, and [nCoinAge]. *)
Definition TransactionGetCoinAge (tx : CoinTx) : option (bool * Z) :=
  if ct_IsCoinBase tx then Some (true, 0)
  else
    do r <- coin_age_loop (ct_nTime tx) (base_uint_zero WIDTH512) (ct_vin tx);
    match r with
    | None => Some (false, 0)
    | Some bnCentSecond =>
      do a <- base_uint_div WIDTH512 (base_uint_mul32 bnCentSecond (u32 CENT)) (base_uint_u64 WIDTH512 COIN);
      do bnCoinDay <- base_uint_div WIDTH512 a (base_uint_u64 WIDTH512 (24 * 60 * 60));
      Some (true, GetLow64 bnCoinDay)
    end.

(** The yearly rate of rewards by coin age. *)
Definition reward_rate (height : Z) (accumulation : bool) : Z :=
  if height - 1 <? 7 * nDailyBlockCount P then MAX_MINT_PROOF_OF_STAKE
  else if height - 1 <? 365 * nDailyBlockCount P then 5000000
  else if height - 1 <? 730 * nDailyBlockCount P then 5000000
  else if accumulation then 4000000 else 5000000.

Definition GetProofOfStakeReward (height nCoinAge nFees : Z) (pindexPrev : option uint256) (v : View) (cache : VersionBitsCache) :
    option (Z * VersionBitsCache) :=
  do '(burn, cache) <- IsBurnFeesEnabled h pindexPrev cache;
  let nFees := if (burn : bool) then 0 else nFees in
  do '(static, cache) <- IsStaticRewardEnabled h pindexPrev cache;
  if (static : bool) then Some (i64 (i64 (GetStakingRewardPerBlock v) + nFees), cache)
  else
    do '(accumulation, cache) <-
      (if height - 1 <? 730 * nDailyBlockCount P then Some (false, cache)
       else IsCommunityFundAccumulationEnabled h pindexPrev false cache);
    Some (i64 (Z.quot (i64 (nCoinAge * reward_rate height accumulation)) 365 + nFees), cache).
End kernel.

(** ** The kernel decides by the product of target and value *)

Lemma UintToArith512_value x : 0 <= x < 2 ^ 512 -> wide WIDTH512 (UintToArith512 x) /\ value (UintToArith512 x) = x.
Proof.
  intros Hx. destruct (words_of_bytes 16 (le_bytes 64 x) (length_le_bytes 64 x) (le_bytes_byte 64 x)) as (Hw & Hv & _).
  split; [exact Hw|]. unfold UintToArith512. rewrite Hv, le_value_bytes. apply Z.mod_small. exact Hx.
Qed.

(** The detour over the hexadecimal text only widens the number. *)
Lemma hex512_value a : wide WIDTH256 a ->
  wide WIDTH512 (base_uint512_hex (arith_GetHex a)) /\ value (base_uint512_hex (arith_GetHex a)) = value a.
Proof.
  intros Ha. pose proof (wide_range _ _ Ha) as Hr. change (modulus 8) with (2 ^ 256) in Hr.
  unfold base_uint512_hex, arith_GetHex, uint512S. rewrite ArithToUint256_value, blob_SetHex_GetHex by (done || lia).
  apply UintToArith512_value. split; [lia|]. assert (2 ^ 256 < 2 ^ 512) by (vm_compute; reflexivity). lia.
Qed.

(** The target, and the bound the kernel hash must not exceed. *)
Definition kernel_target (bits : Z) : Z := compact_value bits mod 2 ^ 256.

Section kernel_facts.
Context (Hash : list Z -> uint256) (Hash_range : forall l, 0 <= Hash l < 2 ^ 256).
Context (P : PowParams) (h : BlockMap) (stake : uint256 -> StakeFields).

Definition kernel_hash (p : uint256) (t : Z) (txPrev : CoinTx) (prevout : COutPoint) (nTimeTx : Z) : uint256 :=
  Hash (kernel_bytes (nStakeModifier (stake p)) t txPrev prevout nTimeTx).

Lemma kernel_product bits v :
  0 <= bits < 2 ^ 32 -> 0 <= v < 2 ^ 63 ->
  let t := base_uint_mul WIDTH512 (base_uint512_hex (arith_GetHex (SetCompact bits).1.1)) (base_uint_u64 WIDTH512 (u64 v)) in
  wide WIDTH512 t /\ value t = kernel_target bits * v.
Proof.
  intros Hb Hv. pose proof (SetCompact_spec bits Hb) as Hc. destruct (SetCompact bits) as [[bn neg] ovf]. destruct Hc as (Hw & Hbn & _).
  cbn [fst]. destruct (hex512_value bn Hw) as [Hw' Hv']. rewrite u64_small by lia.
  destruct (u64_wide WIDTH512 v ltac:(lia) ltac:(lia)) as [Hwv Hvv].
  destruct (mul_spec WIDTH512 _ _ Hw' Hwv) as [H1 H2]. split; [exact H1|]. rewrite H2, Hv', Hvv, Hbn. apply Z.mod_small.
  change (modulus 16) with (2 ^ 512). unfold kernel_target. pose proof (Z.mod_pos_bound (compact_value bits) (2 ^ 256) ltac:(lia)) as Hm.
  split; [nia|]. apply Z.le_lt_trans with (2 ^ 256 * 2 ^ 63); [nia|]. vm_compute. reflexivity.
Qed.

(** C35: a kernel is accepted exactly when the times are in order, the coin has
    the minimum age (in 32-bit arithmetic) and the kernel hash does not exceed the
    exact product of the target and the value staked: the product never
    overflows, so a larger stake always has the better chance.  On success hash
    and target are handed back. *)
Theorem CheckStakeKernelHashV2_correct p bits t txPrev prevout nTimeTx out :
  tx_out txPrev prevout = Some out -> 0 <= nValue (out_plain out) < 2 ^ 63 -> 0 <= bits < 2 ^ 32 ->
  exists b proof, CheckStakeKernelHashV2 Hash P stake p bits t txPrev prevout nTimeTx = Some (b, proof) /\
    (b = true <-> ct_nTime txPrev <= nTimeTx /\ u32 (t + nStakeMinAge P) <= nTimeTx /\
       kernel_hash p t txPrev prevout nTimeTx <= kernel_target bits * nValue (out_plain out)) /\
    (b = true -> exists x y, proof = Some (x, y) /\ value x = kernel_hash p t txPrev prevout nTimeTx /\ value y = kernel_target bits).
Proof.
  intros Hout Hv Hb. unfold CheckStakeKernelHashV2. destruct (Z.ltb_spec nTimeTx (ct_nTime txPrev)); [eexists _, _; split; [done|]; split; [split; [done|lia]|done]|].
  destruct (Z.ltb_spec nTimeTx (u32 (t + nStakeMinAge P))); [eexists _, _; split; [done|]; split; [split; [done|lia]|done]|].
  rewrite Hout. cbn [mbind option_bind]. fold (kernel_hash p t txPrev prevout nTimeTx).
  destruct (UintToArith256_value (kernel_hash p t txPrev prevout nTimeTx) (Hash_range _)) as [Hw Hh].
  destruct (hex512_value _ Hw) as [Hw' Hh']. destruct (kernel_product bits _ Hb Hv) as [Ht1 Ht2].
  eexists _, _. split; [done|]. rewrite gt_spec, Ht2, Hh', Hh by done. rewrite negb_true_iff, Z.ltb_ge. split; [intuition lia|].
  intros _. eexists _, _. split; [done|]. split; [done|]. pose proof (SetCompact_spec bits Hb) as Hc.
  destruct (SetCompact bits) as [[bn neg] ovf]. apply Hc.
Qed.
End kernel_facts.

(** ** Cold staking *)

Section cold.
Context (Hash : list Z -> uint256) (P : PowParams) (h : BlockMap) (stake : uint256 -> StakeFields).
Context (GetTransaction : uint256 -> option (CoinTx * uint256)) (check_script : TxOut -> CoinTx -> bool).
Context {params : Params} {S : Type} `{!CoinStore S, !CoinLaws S}.

(** The script of the output an input spends. *)
Definition spends_script (p : COutPoint) (script : CScript) : Prop :=
  exists txPrev hashBlock o, GetTransaction (prevout_hash p) = Some (txPrev, hashBlock) /\ tx_out txPrev p = Some o /\ out_script o = script.

Lemma spends_script_fun p s1 s2 : spends_script p s1 -> spends_script p s2 -> s1 = s2.
Proof. intros (t & b & o & H1 & H2 & <-) (t' & b' & o' & H1' & H2' & <-). congruence. Qed.

Definition paid_to (script : CScript) (outs : list TxOut) : Z :=
  foldr Z.add 0 (map (fun o => nValue (out_plain o)) (filter (fun o => out_script o = script) outs)).

(** The inputs after the kernel: either none is a cold staking one, or all have
    the kernel's script. *)
Lemma other_inputs_spec script cold vin r :
  other_inputs GetTransaction script cold vin = Some (Some r) -> (cold = true -> any_cold script = true) ->
  (r = true -> any_cold script = true) /\ (cold = true -> r = true) /\
  (cold = true -> forall p, p ∈ vin -> spends_script p script) /\
  (forall p s, p ∈ vin -> spends_script p s -> any_cold s = true -> r = true).
Proof.
  revert cold r; induction vin as [|p vin IH]; intros cold r H Hc; cbn [other_inputs] in H.
  { injection H as <-. split; [done|]. split; [done|]. split; [intros _ p Hp; by apply not_elem_of_nil in Hp|].
    intros p s Hp. by apply not_elem_of_nil in Hp. }
  destruct (GetTransaction (prevout_hash p)) as [[txPrev hb]|] eqn:Eg; [|done].
  apply bind_Some in H as (o & Ho & H).
  assert (spends_script p (out_script o)) as Hsp by (by exists txPrev, hb, o).
  destruct ((cold || any_cold (out_script o)) && negb (bool_decide (out_script o = script))) eqn:E; [done|].
  apply andb_false_iff in E.
  assert (cold || any_cold (out_script o) = true -> out_script o = script) as Hsame.
  { intros Hx. destruct E as [E|E]; [congruence|]. apply negb_false_iff in E. by apply bool_decide_eq_true in E. }
  destruct (IH _ _ H) as (I1 & I2 & I3 & I4).
  { intros Hx. rewrite <- (Hsame Hx). apply orb_true_iff in Hx as [Hx|Hx]; [|done]. rewrite Hsame by (by rewrite Hx). auto. }
  split; [done|]. split; [intros ->; by apply I2|]. split.
  { intros -> q Hq. apply elem_of_cons in Hq as [->|Hq]; [rewrite <- Hsame by done; done|by apply I3]. }
  intros q s Hq Hs Hcs. apply elem_of_cons in Hq as [->|Hq]; [|by eapply I4].
  apply I2. rewrite (spends_script_fun p _ _ Hsp Hs), Hcs. apply orb_true_r.
Qed.

Lemma staked_outputs_paid script outs acc :
  Forall (fun o => 0 <= nValue (out_plain o)) outs -> 0 <= acc ->
  acc + foldr Z.add 0 (map (fun o => nValue (out_plain o)) outs) < 2 ^ 63 ->
  staked_outputs true script acc outs = Some (acc + paid_to script outs).
Proof.
  intros Hpos. revert acc; induction Hpos as [|o outs Ho Hpos IH]; intros acc Ha Hb; cbn [staked_outputs map foldr] in *.
  { unfold paid_to. cbn. f_equal. lia. }
  assert (0 <= foldr Z.add 0 (map (fun o => nValue (out_plain o)) outs)) by (clear -Hpos; induction Hpos; cbn; lia).
  unfold paid_to. rewrite filter_cons. cbn [andb negb]. case_bool_decide as E.
  - rewrite decide_True, i64_small, IH by (done || lia). cbn [map foldr]. f_equal. unfold paid_to. lia.
  - rewrite decide_False, IH by (done || lia). done.
Qed.

Lemma coinstake_not_coinbase tx : ct_IsCoinStake tx = true -> ct_IsCoinBase tx = false.
Proof.
  unfold ct_IsCoinStake, ct_IsCoinBase. destruct (ct_vin tx) as [|p [|q vin]]; [done| |done].
  destruct (ct_vout tx) as [|o [|o' outs]]; [done..|]. intros H. apply andb_true_iff in H as [H _]. by apply negb_true_iff in H.
Qed.

Lemma cold_check_paid script tx (view view' : CoinsCache S) vals :
  Coins.cache_ok view -> ct_IsCoinBase tx = false ->
  mapM (u_value (shown view)) (ct_vin tx) = Some vals -> Forall (fun v => 0 <= v) vals -> foldr Z.add 0 vals < 2 ^ 63 ->
  Forall (fun o => 0 <= nValue (out_plain o)) (ct_vout tx) ->
  foldr Z.add 0 (map (fun o => nValue (out_plain o)) (ct_vout tx)) < 2 ^ 63 ->
  cold_check true script tx view = Some (view', true) ->
  foldr Z.add 0 vals <= paid_to script (drop 1 (ct_vout tx)).
Proof.
  intros Hok Hcb Hv Hpos Hsum Hout Htot Hc. unfold cold_check in Hc.
  destruct (have_inputs_spec view _ _ (ct_vin tx) (implements_self view Hok)) as (c1 & Eh & Him).
  unfold HaveInputs in Hc. rewrite Hcb, Eh in Hc. destruct (forallb _ _); [|done]. cbn [negb] in Hc.
  destruct (GetValueIn_spec c1 _ _ tx vals Him Hcb Hv Hpos Hsum) as (c2 & Eg & _). rewrite Eg in Hc. cbn [mbind option_bind] in Hc.
  assert (take (length (ct_vout tx) - 0 - 1) (drop 1 (ct_vout tx)) = drop 1 (ct_vout tx)) as Et
    by (apply take_ge; rewrite length_drop; lia).
  rewrite Et, staked_outputs_paid in Hc; [|by apply Forall_drop|lia|].
  - rewrite Z.add_0_l in Hc. cbn [andb] in Hc. injection Hc as _ Hc. apply negb_true_iff, Z.ltb_ge in Hc. lia.
  - destruct (ct_vout tx) as [|o outs]; cbn [drop map foldr] in *; [lia|]. apply Forall_cons in Hout as [H0 _]. rewrite drop_0. lia.
Qed.

(** C11: once the pool fee is enabled, a coinstake that passes the check and spends
    one output under a cold staking contract spends outputs of that contract
    alone and pays back to it at least what it spends, so the staking key
    cannot move the coins of the spending key. *)
Theorem CheckProofOfStake_cold p tx bits queued fCHeckSignature (view : CoinsCache S) cache cache' r q s vals :
  IsColdStakingPoolFeeEnabled h (Some p) cache = Some (true, cache') ->
  CheckProofOfStake Hash P h stake GetTransaction check_script p tx bits queued fCHeckSignature view cache = Some r -> sc_ok r = true ->
  q ∈ ct_vin tx -> spends_script q s -> any_cold s = true ->
  Coins.cache_ok view -> mapM (u_value (shown view)) (ct_vin tx) = Some vals ->
  Forall (fun v => 0 <= v) vals -> foldr Z.add 0 vals < 2 ^ 63 ->
  Forall (fun o => 0 <= nValue (out_plain o)) (ct_vout tx) ->
  foldr Z.add 0 (map (fun o => nValue (out_plain o)) (ct_vout tx)) < 2 ^ 63 ->
  (forall q', q' ∈ ct_vin tx -> spends_script q' s) /\ foldr Z.add 0 vals <= paid_to s (drop 1 (ct_vout tx)).
Proof.
  intros Hpool Hc Hr Hq Hs Hcold Hok Hvals Hpos Hsum Hout Htot. unfold CheckProofOfStake in Hc.
  destruct (ct_vin tx) as [|k vin] eqn:Ein; [by apply not_elem_of_nil in Hq|].
  destruct (ct_IsCoinStake tx) eqn:Est; cbn [negb] in Hc; [|by simplify_eq].
  destruct (GetTransaction (prevout_hash k)) as [[txPrev hb]|] eqn:Eg; [|by simplify_eq].
  apply bind_Some in Hc as (o & Ho & Hc). rewrite Hpool in Hc. cbn [mbind option_bind] in Hc.
  apply bind_Some in Hc as ([fCold|] & Hoth & Hc); [|by simplify_eq].
  destruct (other_inputs_spec _ _ _ _ Hoth ltac:(auto)) as (I1 & I2 & I3 & I4).
  assert (spends_script k (out_script o)) as Hk by (by exists txPrev, hb, o).
  assert (fCold = true) as ->.
  { apply elem_of_cons in Hq as [->|Hq]; [|by eapply I4]. apply I2. by rewrite (spends_script_fun k _ _ Hk Hs). }
  specialize (I3 (I1 eq_refl)).
  assert (s = out_script o) as ->.
  { apply elem_of_cons in Hq as [->|Hq]; [by eapply spends_script_fun|]. eapply spends_script_fun; [exact Hs|by apply I3]. }
  apply bind_Some in Hc as ([view' ok] & Hcc & Hc). destruct ok; cbn [negb] in Hc; [|by simplify_eq].
  split; [intros q' Hq'; apply elem_of_cons in Hq' as [->|Hq']; [done|by apply I3]|].
  eapply cold_check_paid; [exact Hok|by apply coinstake_not_coinbase|by rewrite Ein|done..|exact Hcc].
Qed.
End cold.

(** ** Coin age in exact arithmetic *)

Section age.
Opaque base_uint_div base_uint_mul32 base_uint_add base_uint_u64.
Context (P : PowParams) (h : BlockMap) (GetTransaction : uint256 -> option (CoinTx * uint256)).

(** The sum of the cent-seconds of the inputs that are old enough. *)
Fixpoint cent_seconds (nTimeTx : Z) (vin : list COutPoint) : option (option Z) :=
  match vin with
  | [] => Some (Some 0)
  | prevout :: vin =>
    match GetTransaction (prevout_hash prevout) with
    | None => cent_seconds nTimeTx vin
    | Some (txPrev, hashBlock) =>
      if nTimeTx <? ct_nTime txPrev then Some None
      else match h !! hashBlock with
      | None => Some None
      | Some b =>
        if nTimeTx <? u32 (nTime b + nStakeMinAge P) then cent_seconds nTimeTx vin
        else
          do o <- tx_out txPrev prevout;
          do r <- cent_seconds nTimeTx vin;
          Some ((fun n => nValue (out_plain o) * (nTimeTx - ct_nTime txPrev) / CENT + n) <$> r)
      end
    end
  end.

Context (in_range : forall hash tx b, GetTransaction hash = Some (tx, b) ->
  0 <= ct_nTime tx /\ Forall (fun o => 0 <= nValue (out_plain o) < 2 ^ 63) (ct_vout tx)).

Lemma div512 a d : wide WIDTH512 a -> 0 < d < 2 ^ 64 ->
  exists q, base_uint_div WIDTH512 a (base_uint_u64 WIDTH512 d) = Some q /\ wide WIDTH512 q /\ value q = value a / d.
Proof.
  intros Ha Hd. destruct (u64_wide WIDTH512 d ltac:(lia) ltac:(lia)) as [Hw Hv]. pose proof (div_spec WIDTH512 a _ Ha Hw) as H.
  destruct (base_uint_div _ _ _) as [q|]; [|lia]. destruct H as (_ & H1 & H2). rewrite Hv in H2. eauto.
Qed.

(** The cent-seconds of one input. *)
Lemma cent_second v dt :
  0 <= v < 2 ^ 63 -> 0 <= dt < 2 ^ 32 ->
  exists x, base_uint_div WIDTH512 (base_uint_mul32 (base_uint_u64 WIDTH512 (u64 v)) (u32 dt)) (base_uint_u64 WIDTH512 CENT) = Some x /\
    wide WIDTH512 x /\ value x = v * dt / CENT /\ 0 <= value x < 2 ^ 95.
Proof.
  intros Hv Hd. rewrite u64_small, u32_small by lia. destruct (u64_wide WIDTH512 v ltac:(lia) ltac:(lia)) as [Hw Hvv].
  destruct (mul32_spec WIDTH512 _ dt Hw Hd) as [Hw1 Hv1]. destruct (div512 _ CENT Hw1 ltac:(unfold CENT; lia)) as (x & Hx & Hw2 & Hv2).
  assert (0 <= v * dt < 2 ^ 95) as Hp by (change (2 ^ 95) with (2 ^ 63 * 2 ^ 32); nia).
  exists x. split; [done|]. split; [done|]. rewrite Hv2, Hv1, Hvv, Z.mod_small.
  - split; [done|]. unfold CENT. split; [apply Z.div_pos; lia|]. apply Z.div_lt_upper_bound; lia.
  - change (modulus 16) with (2 ^ 512). assert (2 ^ 95 < 2 ^ 512) by (vm_compute; reflexivity). lia.
Qed.

Lemma coin_age_loop_spec M B t vin acc n :
  2 ^ 95 <= M -> B <= modulus WIDTH512 ->
  0 <= t < 2 ^ 32 -> wide WIDTH512 acc -> value acc + M * Z.of_nat (length vin) < B ->
  cent_seconds t vin = Some (Some n) ->
  exists r, coin_age_loop P h GetTransaction t acc vin = Some (Some r) /\ wide WIDTH512 r /\ value r = value acc + n /\
    0 <= n <= M * Z.of_nat (length vin).
Proof.
  intros HM HB Ht. revert acc n; induction vin as [|p vin IH]; intros acc n Ha Hb Hn; cbn [cent_seconds coin_age_loop] in *.
  { injection Hn as <-. exists acc. split; [done|]. split; [done|]. cbn [length]. lia. }
  assert (Z.of_nat (length (p :: vin)) = Z.of_nat (length vin) + 1) as Hl by (cbn [length]; lia). rewrite Hl in *. clear Hl.
  assert (0 <= Z.of_nat (length vin)) as HL by lia. revert HL IH Hb. generalize (Z.of_nat (length vin)). intros L HL IH Hb.
  assert (value acc + M * L < B) as Hb1 by lia.
  destruct (GetTransaction (prevout_hash p)) as [[txPrev hb]|] eqn:Eg.
  2:{ destruct (IH acc n Ha Hb1 Hn) as (r & H1 & H2 & H3 & H4). exists r. split; [done|]. split; [done|]. lia. }
  destruct (Z.ltb_spec t (ct_nTime txPrev)) as [|Hle]; [done|]. destruct (h !! hb) as [b|]; [|done].
  destruct (Z.ltb_spec t (u32 (nTime b + nStakeMinAge P))) as [|Hage].
  { destruct (IH acc n Ha Hb1 Hn) as (r & H1 & H2 & H3 & H4). exists r. split; [done|]. split; [done|]. lia. }
  apply bind_Some in Hn as (o & Eo & Hn). apply bind_Some in Hn as ([m|] & Hm & Hn); [|discriminate Hn]. injection Hn as <-.
  destruct (in_range _ _ _ Eg) as [Ht0 Hout]. pose proof Eo as Eo'. unfold tx_out in Eo'. rewrite Forall_lookup in Hout. specialize (Hout _ _ Eo').
  destruct (cent_second (nValue (out_plain o)) (t - ct_nTime txPrev) Hout ltac:(lia)) as (x & Hx & Hwx & Hvx & Hrx).
  destruct (add_spec WIDTH512 acc x Ha Hwx) as [Hw1 Hv1]. pose proof (wide_range _ _ Ha) as Hra.
  rewrite <- Hvx. assert (0 <= M * L) by (apply Z.mul_nonneg_nonneg; lia). rewrite Z.mod_small in Hv1 by lia.
  destruct (IH (base_uint_add acc x) m Hw1 ltac:(rewrite Hv1; lia) Hm) as (r & H1 & H2 & H3 & H4). exists r. split.
  - apply bind_Some. exists o. split; [exact Eo|]. apply bind_Some. exists x. split; [exact Hx|exact H1].
  - split; [done|]. rewrite H3, Hv1. lia.
Qed.

(** The coin age is the sum of value times age over the inputs of minimum
    age, cut to whole cent-seconds, then to whole coin-days; 512 bits never
    overflow. *)
Theorem TransactionGetCoinAge_correct tx n :
  ct_IsCoinBase tx = false -> 0 <= ct_nTime tx < 2 ^ 32 -> Z.of_nat (length (ct_vin tx)) < 2 ^ 25 ->
  cent_seconds (ct_nTime tx) (ct_vin tx) = Some (Some n) ->
  TransactionGetCoinAge P h GetTransaction tx = Some (true, (n * CENT / COIN / 86400) mod 2 ^ 64).
Proof.
  intros Hcb Ht Hlen Hn. unfold TransactionGetCoinAge. rewrite Hcb.
  assert (2 ^ 121 * 2 ^ 30 <= modulus WIDTH512) as HB by (vm_compute; discriminate).
  destruct (coin_age_loop_spec (2 ^ 95) (2 ^ 121) (ct_nTime tx) (ct_vin tx) (base_uint_zero WIDTH512) n) as (r & -> & Hw & Hv & Hr);
    [done|lia|done|apply zero_wide|rewrite value_zero; lia|done|]. rewrite value_zero in Hv. cbn [mbind option_bind].
  destruct (mul32_spec WIDTH512 r (u32 CENT) Hw ltac:(vm_compute; split; [discriminate|reflexivity])) as [Hw1 Hv1].
  change (u32 CENT) with CENT in *. destruct (div512 _ COIN Hw1 ltac:(unfold COIN; lia)) as (a & -> & Hwa & Hva). cbn [mbind option_bind].
  destruct (div512 a (24 * 60 * 60) Hwa ltac:(lia)) as (d & -> & Hwd & Hvd). cbn [mbind option_bind].
  rewrite (GetLow64_spec 16 d Hwd) by lia. rewrite Hvd, Hva, Hv1, Hv, Z.add_0_l, (Z.mod_small (n * CENT)); [done|].
  unfold CENT. lia.
Qed.
End age.

(** ** A small chain *)

Definition demo_hash (l : list Z) : uint256 := le_value (rev l) mod 1009.

Lemma demo_hash_range l : 0 <= demo_hash l < 2 ^ 256.
Proof. unfold demo_hash. pose proof (Z.mod_pos_bound (le_value (rev l)) 1009 ltac:(lia)). lia. Qed.

Definition demo_pow : PowParams :=
  mkPowParams (powLimit main_pow) (bnProofOfWorkLimit main_pow) false false 30 30 60 30 750 2880 600.

Definition demo_fields (p : uint256) : StakeFields := mkStakeFields 77 (base_uint_zero WIDTH256).

Definition cold_script : CScript := [OP_COINSTAKE; OP_IF; OP_1].
Definition cold_prev : CoinTx := mkCoinTx 11 1 1100 [mkCOutPoint 9 0] [plain_out 100 cold_script; plain_out 50 cold_script].
Definition cold_stake : CoinTx :=
  mkCoinTx 31 1 1600 [mkCOutPoint 11 0; mkCOutPoint 11 1] [plain_out 0 []; plain_out 155 cold_script; plain_out 3 [OP_1]].
Definition demo_lookup (hash : uint256) : option (CoinTx * uint256) := if hash =? 11 then Some (cold_prev, 104) else None.
Definition cold_view : CoinsCache CoinDB :=
  mkCoinsCache ∅ (mkCoinDB {[11 := mkCCoins false false (ct_vout cold_prev) 4 1]}).

(** The target 100. *)
Definition easy_bits : Z := 0x03000064.

Definition demo_stake_check (tx : CoinTx) : option (StakeCheck (S := CoinDB)) :=
  CheckProofOfStake demo_hash demo_pow vote_blocks demo_fields demo_lookup (fun _ _ => true) 106 tx easy_bits false true
    cold_view (replicate 24 ∅).

Lemma CheckStakeKernelHashV2_correct_witness :
  exists b proof, CheckStakeKernelHashV2 demo_hash demo_pow demo_fields 106 easy_bits 1120 cold_prev (mkCOutPoint 11 0) 1600 = Some (b, proof) /\
    (b = true <-> 1100 <= 1600 /\ u32 (1120 + 60) <= 1600 /\
       kernel_hash demo_hash demo_fields 106 1120 cold_prev (mkCOutPoint 11 0) 1600 <= kernel_target easy_bits * 100) /\
    (b = true -> exists x y, proof = Some (x, y) /\
       value x = kernel_hash demo_hash demo_fields 106 1120 cold_prev (mkCOutPoint 11 0) 1600 /\ value y = kernel_target easy_bits).
Proof.
  apply (CheckStakeKernelHashV2_correct demo_hash demo_hash_range demo_pow demo_fields 106 easy_bits 1120 cold_prev (mkCOutPoint 11 0) 1600
    (plain_out 100 cold_script)); [reflexivity|cbn; lia|unfold easy_bits; lia].
Defined.

Lemma CheckProofOfStake_cold_witness :
  (forall q', q' ∈ ct_vin cold_stake -> spends_script demo_lookup q' cold_script) /\
  150 <= paid_to cold_script (drop 1 (ct_vout cold_stake)).
Proof.
  assert (exists r, demo_stake_check cold_stake = Some r /\ sc_ok r = true) as (r & Hr & Hok)
    by (eexists; split; [vm_compute; reflexivity|reflexivity]).
  assert (exists c, IsColdStakingPoolFeeEnabled vote_blocks (Some 106) (replicate 24 ∅) = Some (true, c)) as (c & Hc)
    by (eexists; vm_compute; reflexivity).
  apply (CheckProofOfStake_cold demo_hash demo_pow vote_blocks demo_fields demo_lookup (fun _ _ => true) 106 cold_stake easy_bits false true
    cold_view (replicate 24 ∅) c r (mkCOutPoint 11 0) cold_script [100; 50] Hc Hr Hok).
  - constructor.
  - by exists cold_prev, 104, (plain_out 100 cold_script).
  - reflexivity.
  - by apply empty_cache_ok.
  - vm_compute. reflexivity.
  - repeat constructor; lia.
  - vm_compute. reflexivity.
  - repeat constructor; cbn; lia.
  - vm_compute. reflexivity.
Defined.

(** A coinstake that pays less back to the contract is refused. *)
Example cold_theft :
  option_map sc_ok (demo_stake_check (mkCoinTx 31 1 1600 (ct_vin cold_stake) [plain_out 0 []; plain_out 149 cold_script; plain_out 9 [OP_1]])) = Some false.
Proof. vm_compute. reflexivity. Qed.

Lemma TransactionGetCoinAge_correct_witness :
  cent_seconds demo_pow vote_blocks demo_lookup 1000001600 (ct_vin cold_stake) = Some (Some 150000) /\
  TransactionGetCoinAge demo_pow vote_blocks demo_lookup (mkCoinTx 31 1 1000001600 (ct_vin cold_stake) (ct_vout cold_stake)) =
    Some (true, (150000 * CENT / COIN / 86400) mod 2 ^ 64).
Proof.
  assert (cent_seconds demo_pow vote_blocks demo_lookup 1000001600 (ct_vin cold_stake) = Some (Some 150000)) as E by (vm_compute; reflexivity).
  split; [exact E|].
  refine (TransactionGetCoinAge_correct demo_pow vote_blocks demo_lookup _ (mkCoinTx 31 1 1000001600 (ct_vin cold_stake) (ct_vout cold_stake)) 150000 eq_refl _ _ E).
  - intros hash tx b. unfold demo_lookup. destruct (hash =? 11); [|done]. intros [= <- <-]. split; [cbn; lia|].
    repeat constructor; cbn; lia.
  - cbn. lia.
  - cbn. lia.
Defined.
