(* ===== verification/VoteCount.v ===== *)
(** * Counting the votes of a cycle

    [VoteStep] either counts the votes of every block of the cycle again or
    adds those of the new block to the counters it kept.  Both give the same
    counters, because what a block adds does not depend on the counters and
    additions commute.  In a block only the first vote for a hash counts. *)
From S2P Require Import Prelude Float CxxString Chain VersionBits Params DaoTypes StateView DaoRules VoteStep VoteDemo.

(** ** What a block adds *)

Definition apply_vote (m : gmap uint256 Tally) (vote : uint256 * Z) : gmap uint256 Tally :=
  <[vote.1 := add_vote (default (0, 0, 0) (m !! vote.1)) vote.2]> m.

Definition apply_support (m : gmap uint256 Z) (x : uint256) : gmap uint256 Z :=
  <[x := i32 (default 0 (m !! x) + 1)]> m.

Definition apply_bump (m : gmap (uint256 * Z) Z) (k : uint256 * Z) : gmap (uint256 * Z) Z :=
  <[k := i32 (default 0 (m !! k) + 1)]> m.

(** The votes of a list that count: the first for every hash not in [seen]. *)
Fixpoint first_votes {A} (seen : gset uint256) (l : list (uint256 * A)) : list (uint256 * A) :=
  match l with
  | [] => []
  | x :: l => if bool_decide (x.1 ∈ seen) then first_votes seen l
              else x :: first_votes ({[x.1]} ∪ seen) l
  end.

Definition seen_after {A} (seen : gset uint256) (l : list (uint256 * A)) : gset uint256 :=
  list_to_set (l.*1) ∪ seen.

Lemma insert_default {K V} `{Countable K} (m : gmap K V) k (d : V) (f : V -> V) :
  let m' := match m !! k with None => <[k := d]> m | Some _ => m end in
  <[k := f (default d (m' !! k))]> m' = <[k := f (default d (m !! k))]> m.
Proof.
  destruct (m !! k) as [v|] eqn:E; cbn; rewrite ?E, ?lookup_insert_eq; cbn; [done|].
  by rewrite insert_insert_eq.
Qed.

Lemma count_vote_unseen seen m x :
  x.1 ∉ seen -> count_vote (seen, m) x = ({[x.1]} ∪ seen, apply_vote m x).
Proof.
  intros Hx. unfold count_vote. rewrite bool_decide_false by done. unfold apply_vote. f_equal.
  apply (insert_default m x.1 (0, 0, 0) (fun t => add_vote t x.2)).
Qed.

Lemma count_votes_list l seen m :
  foldl count_vote (seen, m) l = (seen_after seen l, foldl apply_vote m (first_votes seen l)).
Proof.
  revert seen m; induction l as [|x l IH]; intros seen m; cbn [foldl first_votes].
  { unfold seen_after; cbn. f_equal. set_solver. }
  destruct (decide (x.1 ∈ seen)) as [Hx|Hx].
  - unfold count_vote at 2. rewrite !bool_decide_true by done. rewrite IH. f_equal.
    unfold seen_after; cbn. set_solver.
  - rewrite count_vote_unseen by done. rewrite bool_decide_false by done. rewrite IH. cbn [foldl]. f_equal.
    unfold seen_after; cbn. set_solver.
Qed.

Lemma count_support_list l seen m :
  (foldl count_support (seen, m) l).2 =
  foldl apply_support m ((first_votes seen (filter (fun it => it.2 = true) l)).*1).
Proof.
  revert seen m; induction l as [|[x s] l IH]; intros seen m; cbn [foldl]; [done|].
  rewrite filter_cons. destruct s; cbn [snd]; [rewrite decide_True by done|by rewrite decide_False by done; apply IH].
  cbn [first_votes fst]. unfold count_support at 2; cbn [negb fst snd].
  destruct (decide (x ∈ seen)) as [Hx|Hx].
  - rewrite !bool_decide_true by done. apply IH.
  - rewrite !bool_decide_false by done. rewrite IH. cbn [fmap list_fmap foldl fst]. f_equal.
    apply (insert_default m x 0 (fun n => i32 (n + 1))).
Qed.

(** The counters a consultation vote adds to, and the votes that are taken. *)
Definition consultation_key (v : View) (it : uint256 * Z) : uint256 * Z :=
  match (if it.2 =? u64 VOTE_ABSTAIN then GetConsultationAnswer v it.1 else None) with
  | Some answer => (a_parent answer, i64 it.2)
  | None => (it.1, i64 it.2)
  end.

Definition is_consultation (v : View) (it : uint256 * Z) : bool :=
  HaveConsultation v it.1 || HaveConsultationAnswer v it.1.

Lemma bump_apply m k : bump m k = apply_bump m k.
Proof. apply (insert_default m k 0 (fun n => i32 (n + 1))). Qed.

Lemma count_consultation_list v l seen m :
  (foldl (count_consultation v) (seen, m) l).2 =
  foldl apply_bump m (consultation_key v <$> first_votes seen (filter (fun it => is_consultation v it = true) l)).
Proof.
  revert seen m; induction l as [|x l IH]; intros seen m; cbn [foldl]; [done|].
  rewrite filter_cons. unfold count_consultation at 2. fold (is_consultation v x).
  destruct (is_consultation v x) eqn:E; [rewrite decide_True by done|rewrite decide_False by done].
  - cbn [first_votes]. destruct (decide (x.1 ∈ seen)) as [Hx|Hx].
    + rewrite !bool_decide_true by done. apply IH.
    + rewrite !bool_decide_false by done. cbn [fmap list_fmap foldl]. rewrite <- bump_apply.
      unfold consultation_key at 1. destruct (if x.2 =? u64 VOTE_ABSTAIN then _ else _); apply IH.
  - destruct (bool_decide _); apply IH.
Qed.

(** ** Additions commute *)

Section commute.
Context {S X : Type} (f : S -> X -> S) (Hf : forall s x y, f (f s x) y = f (f s y) x).

Lemma foldl_commute_1 l s x : foldl f (f s x) l = f (foldl f s l) x.
Proof. revert s; induction l as [|y l IH]; intros s; cbn; [done|]. by rewrite Hf, IH. Qed.

Lemma foldl_commute l1 l2 s : foldl f (foldl f s l1) l2 = foldl f (foldl f s l2) l1.
Proof.
  revert s; induction l1 as [|x l1 IH]; intros s; cbn; [done|]. by rewrite IH, foldl_commute_1.
Qed.
End commute.

Lemma insert_commute_update {K V} `{Countable K} (m : gmap K V) (f g : V -> V) d x y :
  (forall a, f (g a) = g (f a)) ->
  let m1 := <[x := f (default d (m !! x))]> m in
  let m2 := <[y := g (default d (m !! y))]> m in
  <[y := g (default d (m1 !! y))]> m1 = <[x := f (default d (m2 !! x))]> m2.
Proof.
  intros Hfg. destruct (decide (x = y)) as [->|Hne]; cbn.
  - rewrite !lookup_insert_eq, !insert_insert_eq; cbn. by rewrite Hfg.
  - rewrite !lookup_insert_ne by done. by apply insert_insert_ne.
Qed.

Lemma add_vote_commute t a b : add_vote (add_vote t a) b = add_vote (add_vote t b) a.
Proof.
  destruct t as [[y n] ab]. unfold add_vote.
  destruct (a =? VOTE_YES) eqn:A1, (b =? VOTE_YES) eqn:B1; try done;
    destruct (a =? VOTE_ABSTAIN) eqn:A2; try done; destruct (b =? VOTE_ABSTAIN) eqn:B2; try done;
    destruct (a =? VOTE_NO) eqn:A3; try done; destruct (b =? VOTE_NO) eqn:B3; done.
Qed.

Lemma apply_vote_commute m a b : apply_vote (apply_vote m a) b = apply_vote (apply_vote m b) a.
Proof.
  apply (insert_commute_update m (fun t => add_vote t a.2) (fun t => add_vote t b.2)).
  intros t. apply add_vote_commute.
Qed.

Lemma apply_support_commute m a b : apply_support (apply_support m a) b = apply_support (apply_support m b) a.
Proof. by apply (insert_commute_update m (fun n => i32 (n + 1)) (fun n => i32 (n + 1))). Qed.

Lemma apply_bump_commute m a b : apply_bump (apply_bump m a) b = apply_bump (apply_bump m b) a.
Proof. by apply (insert_commute_update m (fun n => i32 (n + 1)) (fun n => i32 (n + 1))). Qed.

(** ** The scan of a block in these terms *)

Record Added := mkAdded {
  add_props : list (uint256 * Z);
  add_preqs : list (uint256 * Z);
  add_supp : list uint256;
  add_cons : list (uint256 * Z);
  add_exclude : bool
}.

(** The votes of a block that count.  A hash voted as a proposal is not
    counted again as a payment request or a consultation. *)
Definition block_adds (bv : BlockVotes) (v : View) (fCFund fDAO : bool) (pb : uint256 * CBlockIndex) : Added :=
  if flag_set (nNonce pb.2) 1 && negb (IsColdStakeV2 pb.2) then mkAdded [] [] [] [] true
  else
    let props := if fCFund then default [] (GetProposalVotes bv pb.1) else [] in
    let preqs := if fCFund then default [] (GetPaymentRequestVotes bv pb.1) else [] in
    let supp := if fDAO then elems (default ∅ (GetSupport bv pb.1)) else [] in
    let cons := if fDAO then elems (default ∅ (GetConsultationVotes bv pb.1)) else [] in
    let seen1 := seen_after ∅ props in
    let seen2 := seen_after seen1 preqs in
    mkAdded (first_votes ∅ props) (first_votes seen1 preqs)
      ((first_votes ∅ (filter (fun it => it.2 = true) supp)).*1)
      (consultation_key v <$> first_votes seen2 (filter (fun it => is_consultation v it = true) cons)) false.

Definition add_block (g : DaoCache) (a : Added) : DaoCache :=
  mkDaoCache (foldl apply_vote (mapCacheProposalsToUpdate g) (add_props a))
    (foldl apply_vote (mapCachePaymentRequestToUpdate g) (add_preqs a))
    (foldl apply_support (mapCacheSupportToUpdate g) (add_supp a))
    (foldl apply_bump (mapCacheConsultationToUpdate g) (add_cons a))
    (if add_exclude a then i32 (nCacheExclude g + 1) else nCacheExclude g) (lastConsensusStateHash g).

Lemma seen_after_nil {A} seen : seen_after (A := A) seen [] = seen.
Proof. unfold seen_after; cbn. set_solver. Qed.

Lemma scan_block_adds bv v fC fD g pb :
  scan_block bv v fC fD g pb = add_block g (block_adds bv v fC fD pb).
Proof.
  destruct pb as [p b]. unfold scan_block, block_adds; cbn [fst snd]. destruct (_ && _); [done|].
  destruct fC, fD; rewrite ?count_votes_list, ?count_support_list, ?count_consultation_list; unfold add_block;
    cbn [add_props add_preqs add_supp add_cons add_exclude first_votes foldl fmap list_fmap];
    rewrite ?seen_after_nil; done.
Qed.

Lemma add_block_commute g a b : add_block (add_block g a) b = add_block (add_block g b) a.
Proof.
  unfold add_block; cbn. f_equal.
  - apply foldl_commute, apply_vote_commute.
  - apply foldl_commute, apply_vote_commute.
  - apply foldl_commute, apply_support_commute.
  - apply foldl_commute, apply_bump_commute.
  - by destruct (add_exclude a), (add_exclude b).
Qed.

(** ** The first vote of a block counts *)

Definition first_vote (x : uint256) (l : list (uint256 * Z)) : option Z :=
  snd <$> head (filter (fun vote => vote.1 = x) l).

Lemma first_vote_cons x y l :
  first_vote x (y :: l) = if decide (y.1 = x) then Some y.2 else first_vote x l.
Proof. unfold first_vote. rewrite filter_cons. by destruct (decide (y.1 = x)). Qed.

Lemma apply_first_votes l seen m x :
  foldl apply_vote m (first_votes seen l) !! x =
  if bool_decide (x ∈ seen) then m !! x
  else match first_vote x l with
       | None => m !! x
       | Some vote => Some (add_vote (default (0, 0, 0) (m !! x)) vote)
       end.
Proof.
  revert seen m; induction l as [|y l IH]; intros seen m; cbn [first_votes foldl].
  { by destruct (bool_decide _). }
  rewrite first_vote_cons. destruct (decide (y.1 ∈ seen)) as [Hy|Hy].
  - rewrite (bool_decide_true (y.1 ∈ seen)) by done. rewrite IH.
    destruct (decide (x ∈ seen)) as [Hx|Hx]; [by rewrite !bool_decide_true|rewrite !bool_decide_false by done].
    by rewrite decide_False by congruence.
  - rewrite (bool_decide_false (y.1 ∈ seen)) by done. cbn [foldl]. rewrite IH. unfold apply_vote.
    destruct (decide (y.1 = x)) as [<-|Hne].
    + rewrite bool_decide_true by set_solver. rewrite bool_decide_false by done. by rewrite lookup_insert_eq.
    + rewrite lookup_insert_ne by done.
      destruct (decide (x ∈ seen)) as [Hx|Hx];
        [by rewrite !bool_decide_true by set_solver|by rewrite !bool_decide_false by set_solver].
Qed.

(** A block adds one vote per proposal: the first it has for the hash, and
    none when its staker is excluded from voting.  A payment request
    gets the first vote for its hash unless the hash was also voted as a
    proposal. *)
Theorem scan_block_first_vote bv v fDAO g p b x :
  let excluded := flag_set (nNonce b) 1 && negb (IsColdStakeV2 b) in
  let pvotes := default [] (GetProposalVotes bv p) in
  let rvotes := default [] (GetPaymentRequestVotes bv p) in
  let counted (m : gmap uint256 Tally) (o : option Z) :=
    match o with None => m !! x | Some vote => Some (add_vote (default (0, 0, 0) (m !! x)) vote) end in
  let g' := scan_block bv v true fDAO g (p, b) in
  mapCacheProposalsToUpdate g' !! x =
    counted (mapCacheProposalsToUpdate g) (if excluded then None else first_vote x pvotes) /\
  mapCachePaymentRequestToUpdate g' !! x =
    counted (mapCachePaymentRequestToUpdate g)
      (if excluded || bool_decide (x ∈ pvotes.*1) then None else first_vote x rvotes).
Proof.
  cbv zeta. rewrite scan_block_adds. unfold block_adds; cbn [fst snd].
  destruct (flag_set (nNonce b) 1 && negb (IsColdStakeV2 b)); [done|]. cbn [orb]. unfold add_block; cbn.
  rewrite !apply_first_votes. rewrite bool_decide_false by set_solver. split; [done|].
  unfold seen_after. destruct (decide (x ∈ (default [] (GetProposalVotes bv p)).*1)) as [Hx|Hx].
  - by rewrite !bool_decide_true by set_solver.
  - by rewrite !bool_decide_false by set_solver.
Qed.

(** ** The scan of the cycle *)

Section scan.
Context (h : BlockMap) (bv : BlockVotes) (v : View) (fC fD : bool) (Hwf : wf_blocks h).

Lemma scan_loop_S n p b g q bq :
  pprev b = Some q -> h !! q = Some bq ->
  scan_loop h bv v fC fD (S (S n)) p b g =
  scan_loop h bv v fC fD (S n) q bq (scan_block bv v fC fD g (p, b)).
Proof. intros Hq Hbq. cbn [scan_loop]. rewrite Hq. cbn [mbind option_bind]. by rewrite Hbq. Qed.

Lemma scan_loop_1 p b g : scan_loop h bv v fC fD 1 p b g = Some (scan_block bv v fC fD g (p, b)).
Proof. cbn [scan_loop]. by destruct (pprev b). Qed.

Lemma scan_loop_add n p b g a :
  scan_loop h bv v fC fD n p b (add_block g a) =
  (fun r => add_block r a) <$> scan_loop h bv v fC fD n p b g.
Proof.
  revert p b g; induction n as [|n IH]; intros p b g; [done|]. cbn [scan_loop].
  rewrite !scan_block_adds, add_block_commute. destruct (pprev b) as [q|]; [|done].
  destruct n as [|n]; [done|]. destruct (h !! q) as [bq|]; [|done]. apply IH.
Qed.

Lemma scan_loop_total n p b g : h !! p = Some b -> is_Some (scan_loop h bv v fC fD n p b g).
Proof.
  revert p b g; induction n as [|n IH]; intros p b g Hp; cbn [scan_loop]; [by eexists|].
  destruct (pprev b) as [q|] eqn:Eq; [|by eexists]. destruct n as [|n]; [by eexists|].
  destruct (wf_prev h Hwf p b q Hp Eq) as (bq & Hbq & _). rewrite Hbq. by apply IH.
Qed.

Lemma scan_loop_hash n p b g g' :
  scan_loop h bv v fC fD n p b g = Some g' -> lastConsensusStateHash g' = lastConsensusStateHash g.
Proof.
  revert p b g; induction n as [|n IH]; intros p b g; cbn [scan_loop]; [by intros [= <-]|].
  rewrite scan_block_adds. destruct (pprev b) as [q|]; [|by intros [= <-]].
  destruct n as [|n]; [by intros [= <-]|]. destruct (h !! q) as [bq|]; [|done].
  intros Hs. by apply IH in Hs.
Qed.

(** Scanning from a block is scanning from its parent and adding the block. *)
Lemma scan_loop_parent n p b g q bq :
  pprev b = Some q -> h !! q = Some bq ->
  scan_loop h bv v fC fD (S (S n)) p b g =
  (fun r => scan_block bv v fC fD r (p, b)) <$> scan_loop h bv v fC fD (S n) q bq g.
Proof.
  intros Hq Hbq. rewrite (scan_loop_S _ _ _ _ q bq) by done. rewrite scan_block_adds, scan_loop_add.
  destruct (scan_loop _ _ _ _ _ _ _ _ _); [|done]. cbn [fmap option_fmap option_map].
  by rewrite scan_block_adds.
Qed.
End scan.

(** The number of blocks of the cycle up to [b], as the code computes it. *)
Definition cycle_blocks (b : CBlockIndex) (len : Z) : Z := i32 (u64 (nHeight b) mod len + 1).

(** The counters of [g] are those of a scan of the cycle up to block [p]. *)
Definition cycle_counts {params : Params} (h : BlockMap) (bv : BlockVotes) (v : View) (fC fD : bool)
    (p : uint256) (b : CBlockIndex) (g : DaoCache) : Prop :=
  scan_loop h bv v fC fD (Z.to_nat (cycle_blocks b (cycle_length v))) p b
    (mkDaoCache ∅ ∅ ∅ ∅ 0 (lastConsensusStateHash g)) = Some g.

Lemma cycle_blocks_small b len :
  0 <= nHeight b < 2147483647 -> 0 < len -> cycle_blocks b len = nHeight b mod len + 1.
Proof.
  intros Hb Hl. unfold cycle_blocks. rewrite u64_small by lia.
  pose proof (Z.mod_pos_bound (nHeight b) len Hl). pose proof (Z.mod_le (nHeight b) len).
  apply i32_small. lia.
Qed.

Lemma mod_succ_inside a len : 0 < len -> (a + 1) mod len <> 0 -> (a + 1) mod len = a mod len + 1.
Proof.
  intros Hl Hne. pose proof (Z.mod_pos_bound a len Hl). rewrite <- Zplus_mod_idemp_l in *.
  destruct (decide (a mod len + 1 = len)) as [E|E]; [rewrite E, Z.mod_same in Hne; lia|].
  apply Z.mod_small. lia.
Qed.

(** C26: The kept counters are right: if the counters before the call are those
    of the cycle up to the parent block (which is only used when the code
    decides not to scan the whole cycle), the call succeeds and leaves the
    counters of the cycle up to the new block, whichever way it went. *)
Theorem VoteStep_scan_correct {params : Params} h bv hash_params fC fD p b fUndo v g :
  wf_blocks h -> h !! p = Some b -> nHeight b < 2147483647 -> 0 < cycle_length v ->
  (scan_whole_cycle fUndo g (GetConsensusStateHash hash_params v) (cycle_blocks b (cycle_length v)) = false ->
   forall q bq, pprev b = Some q -> h !! q = Some bq -> cycle_counts h bv v fC fD q bq g) ->
  exists g' w, VoteStep_scan h bv hash_params p b fUndo fC fD v g = Some (g', w) /\
    lastConsensusStateHash g' = GetConsensusStateHash hash_params v /\ cycle_counts h bv v fC fD p b g'.
Proof.
  intros Hwf Hp Hmax Hlen Hprev. unfold VoteStep_scan. fold (cycle_blocks b (cycle_length v)).
  pose proof (wf_height h Hwf p b Hp) as H0.
  set (hash := GetConsensusStateHash hash_params v) in *.
  destruct (scan_whole_cycle _ _ _ _) eqn:Ew.
  - unfold DaoCache_clear; cbn. destruct (scan_loop_total h bv v fC fD Hwf (Z.to_nat (cycle_blocks b (cycle_length v)))
      p b (mkDaoCache ∅ ∅ ∅ ∅ 0 hash) Hp) as [g' Hg'].
    rewrite Hg'; cbn. exists g', true. split; [done|].
    assert (lastConsensusStateHash g' = hash) as E.
    { apply scan_loop_hash in Hg'. done. }
    split; [done|]. unfold cycle_counts. by rewrite E.
  - unfold scan_whole_cycle in Ew. nav_bool. subst hash.
    rewrite cycle_blocks_small in * by (done || lia).
    destruct (pprev b) as [q|] eqn:Eq.
    2: { rewrite (wf_genesis h Hwf p b Hp Eq), Z.mod_0_l in * by lia. lia. }
    destruct (wf_prev h Hwf p b q Hp Eq) as (bq & Hbq & Hh). pose proof (wf_height h Hwf q bq Hbq).
    specialize (Hprev eq_refl q bq eq_refl Hbq). unfold cycle_counts in *.
    rewrite !cycle_blocks_small in * by lia. rewrite Hh, mod_succ_inside in * by lia.
    pose proof (Z.mod_pos_bound (nHeight bq) (cycle_length v) Hlen).
    replace (Z.to_nat (nHeight bq mod cycle_length v + 1 + 1))
      with (S (S (Z.to_nat (nHeight bq mod cycle_length v)))) by lia.
    replace (Z.to_nat (nHeight bq mod cycle_length v + 1))
      with (S (Z.to_nat (nHeight bq mod cycle_length v))) in Hprev by lia.
    match goal with H : lastConsensusStateHash g = _ |- _ => rewrite <- H in *; clear H end.
    assert (mkDaoCache (mapCacheProposalsToUpdate g) (mapCachePaymentRequestToUpdate g)
      (mapCacheSupportToUpdate g) (mapCacheConsultationToUpdate g) (nCacheExclude g)
      (lastConsensusStateHash g) = g) as E by (by destruct g).
    cbv beta zeta. rewrite E. change (Z.to_nat 1) with 1%nat. rewrite scan_loop_1.
    exists (scan_block bv v fC fD g (p, b)), false. split; [done|].
    assert (lastConsensusStateHash (scan_block bv v fC fD g (p, b)) = lastConsensusStateHash g) as Eh
      by (by rewrite scan_block_adds).
    split; [done|]. rewrite Eh. rewrite (scan_loop_parent h bv v fC fD _ p b _ q bq) by done. by rewrite Hprev.
Qed.

(** The counters after block 106, where the whole cycle was scanned. *)
Definition demo_counts : DaoCache :=
  from_option fst vote_cache (VoteStep_scan vote_blocks vote_votes (fun _ => 7) 106
    (vote_block (Some 105) 6 500 80) false true true vote_view vote_cache).

Lemma VoteStep_scan_correct_witness : exists g' w,
  VoteStep_scan vote_blocks vote_votes (fun _ => 7) 107 (vote_block (Some 106) 7 500 80) false true true
    vote_view demo_counts = Some (g', w) /\
  lastConsensusStateHash g' = 7 /\
  cycle_counts vote_blocks vote_votes vote_view true true 107 (vote_block (Some 106) 7 500 80) g'.
Proof.
  refine (VoteStep_scan_correct vote_blocks vote_votes (fun _ => 7) true true 107 (vote_block (Some 106) 7 500 80)
    false vote_view demo_counts vote_blocks_wf _ _ _ _).
  - vm_compute. reflexivity.
  - vm_compute. reflexivity.
  - vm_compute. reflexivity.
  - intros _ q bq Hq Hbq. injection Hq as <-. vm_compute in Hbq. injection Hbq as <-. vm_compute. reflexivity.
Defined.

(** Block 107 is counted without a new scan of the cycle. *)
Example demo_counts_incremental :
  (fun r => (mapCacheProposalsToUpdate r.1 !! 502, r.2)) <$>
    VoteStep_scan vote_blocks vote_votes (fun _ => 7) 107 (vote_block (Some 106) 7 500 80) false true true
      vote_view demo_counts = Some (Some (4, 0, 0), false).
Proof. vm_compute. reflexivity. Qed.
