(* ===== verification/DaoSpec.v ===== *)
(** * What the community fund promises

    An abstract machine for proposals, payment requests and the fund, without
    votes, blocks, caches or floating point: its state is the fund and, for
    every proposal and payment request, the amount and the current state.
    [dao_trans] lists the moves; the invariants of the fund are proved on it,
    and [VoteStepProps] shows that [VoteStep] only makes such moves.

    With [strict], a proposal or request that was accepted is never rejected
    later.  The code does not enforce this: [VoteStep] rejects an accepted
    entry whose votes meet the rejection threshold. *)
From S2P Require Import Prelude Chain DaoTypes VoteStep.

Record AProp := mkAProp { ap_amount : Z; ap_super : bool; ap_state : Z }.
Record AReq := mkAReq { ar_amount : Z; ar_parent : uint256; ar_state : Z }.

Record ADao := mkADao {
  ad_fund : Fund;
  ad_props : gmap uint256 AProp;
  ad_reqs : gmap uint256 AReq
}.

(** A request that was accepted, and perhaps already paid. *)
Definition granted (s : Z) : bool := (s =? ACCEPTED) || (s =? PAID).

(** A proposal that holds money of the fund. *)
Definition live (p : AProp) : bool :=
  negb (ap_super p) && ((ap_state p =? ACCEPTED) || (ap_state p =? PENDING_VOTING_PREQ)).

Definition granted_to (k : uint256) (kr : uint256 * AReq) : Z :=
  if (ar_parent kr.2 =? k) && granted (ar_state kr.2) then ar_amount kr.2 else 0.

(** What is left of a proposal. *)
Definition available (reqs : gmap uint256 AReq) (k : uint256) (p : AProp) : Z :=
  ap_amount p - map_sum (granted_to k) reqs.

Definition with_req (A : ADao) (k : uint256) (r : AReq) (s : Z) : gmap uint256 AReq :=
  <[k := mkAReq (ar_amount r) (ar_parent r) s]> (ad_reqs A).

Definition with_prop (A : ADao) (k : uint256) (p : AProp) (s : Z) : gmap uint256 AProp :=
  <[k := mkAProp (ap_amount p) (ap_super p) s]> (ad_props A).

(** Money moved from the supply to the locked part, unless the proposal is
    not paid from the fund. *)
Definition move_fund (super : bool) (f : Fund) (supply locked : Z) : Fund :=
  if super then f else mkFund (fund_supply f + supply) (fund_locked f + locked).

Inductive dao_trans (strict : bool) : ADao -> ADao -> Prop :=
  | tr_req_accept A k r p :
      ad_reqs A !! k = Some r -> ar_state r = NIL ->
      ad_props A !! ar_parent r = Some p ->
      (ap_state p = ACCEPTED \/ ap_state p = PENDING_VOTING_PREQ) ->
      ar_amount r <= available (ad_reqs A) (ar_parent r) p ->
      (ap_super p = false -> ar_amount r <= fund_locked (ad_fund A)) ->
      dao_trans strict A (mkADao (move_fund (ap_super p) (ad_fund A) 0 (- ar_amount r))
                            (ad_props A) (with_req A k r ACCEPTED))
  | tr_req_expire A k r :
      ad_reqs A !! k = Some r -> granted (ar_state r) = false ->
      ar_state r <> REJECTED -> ar_state r <> EXPIRED ->
      dao_trans strict A (mkADao (ad_fund A) (ad_props A) (with_req A k r EXPIRED))
  | tr_req_reject A k r :
      ad_reqs A !! k = Some r -> ar_state r <> REJECTED ->
      (strict = true -> granted (ar_state r) = false) ->
      dao_trans strict A (mkADao (ad_fund A) (ad_props A) (with_req A k r REJECTED))
  | tr_prop_accept A k p :
      ad_props A !! k = Some p -> (ap_state p = NIL \/ ap_state p = PENDING_FUNDS) ->
      (ap_super p = false -> available (ad_reqs A) k p <= fund_supply (ad_fund A)) ->
      dao_trans strict A (mkADao (move_fund (ap_super p) (ad_fund A) (- available (ad_reqs A) k p)
                                    (available (ad_reqs A) k p))
                            (with_prop A k p ACCEPTED) (ad_reqs A))
  | tr_prop_wait A k p :
      ad_props A !! k = Some p -> ap_state p = NIL ->
      dao_trans strict A (mkADao (ad_fund A) (with_prop A k p PENDING_FUNDS) (ad_reqs A))
  | tr_prop_reject A k p :
      ad_props A !! k = Some p -> ap_state p <> REJECTED ->
      (strict = true -> ap_state p <> ACCEPTED /\ ap_state p <> PENDING_VOTING_PREQ) ->
      dao_trans strict A (mkADao (ad_fund A) (with_prop A k p REJECTED) (ad_reqs A))
  | tr_prop_expire A k p :
      ad_props A !! k = Some p ->
      ap_state p <> ACCEPTED -> ap_state p <> PENDING_VOTING_PREQ ->
      ap_state p <> REJECTED -> ap_state p <> ACCEPTED_EXPIRED -> ap_state p <> EXPIRED ->
      dao_trans strict A (mkADao (ad_fund A) (with_prop A k p EXPIRED) (ad_reqs A))
  | tr_prop_pending A k p :
      ad_props A !! k = Some p ->
      (ap_state p = ACCEPTED \/ ap_state p = PENDING_VOTING_PREQ) ->
      dao_trans strict A (mkADao (ad_fund A) (with_prop A k p PENDING_VOTING_PREQ) (ad_reqs A))
  | tr_prop_release A k p :
      ad_props A !! k = Some p ->
      (ap_state p = ACCEPTED \/ ap_state p = PENDING_VOTING_PREQ) ->
      dao_trans strict A (mkADao (move_fund (ap_super p) (ad_fund A) (available (ad_reqs A) k p)
                                    (- available (ad_reqs A) k p))
                            (with_prop A k p ACCEPTED_EXPIRED) (ad_reqs A)).

(** Moves are made in the last block of a cycle only. *)
Definition cycle_trans (last strict : bool) (A B : ADao) : Prop := last = true /\ dao_trans strict A B.

Lemma cycle_trans_last strict A B : rtc (dao_trans strict) A B -> rtc (cycle_trans true strict) A B.
Proof. induction 1; [apply rtc_refl|]. eapply rtc_l; [by split|done]. Qed.

Lemma cycle_trans_dao last strict A B : rtc (cycle_trans last strict) A B -> rtc (dao_trans strict) A B.
Proof. induction 1 as [|A B C [_ H1] _ IH]; [apply rtc_refl|]. by eapply rtc_l. Qed.

Lemma cycle_trans_inside strict A B : rtc (cycle_trans false strict) A B -> B = A.
Proof. by destruct 1 as [|A B C [H1 _] _]. Qed.

(** ** The invariant of the fund *)

Definition backing (reqs : gmap uint256 AReq) (kp : uint256 * AProp) : Z :=
  if live kp.2 then available reqs kp.1 kp.2 else 0.

(** The locked part of the fund is exactly what the accepted proposals can
    still pay out, no proposal has granted more than its amount, and the
    supply is not negative. *)
Record fund_inv (A : ADao) : Prop := {
  inv_locked : fund_locked (ad_fund A) = map_sum (backing (ad_reqs A)) (ad_props A);
  inv_available : forall k p, ad_props A !! k = Some p -> 0 <= available (ad_reqs A) k p;
  inv_supply : 0 <= fund_supply (ad_fund A)
}.

Lemma available_with_req A k r s k' p :
  ad_reqs A !! k = Some r ->
  available (with_req A k r s) k' p =
    available (ad_reqs A) k' p + granted_to k' (k, r) - granted_to k' (k, mkAReq (ar_amount r) (ar_parent r) s).
Proof. intros Hk. unfold available, with_req. rewrite (map_sum_update _ _ k r) by done. lia. Qed.

(** A request that leaves no granted state and enters none. *)
Lemma available_ungranted A k r s :
  ad_reqs A !! k = Some r -> granted (ar_state r) = false -> granted s = false ->
  forall k' p, available (with_req A k r s) k' p = available (ad_reqs A) k' p.
Proof.
  intros Hk Hr Hs k' p. rewrite available_with_req by done. unfold granted_to; cbn.
  rewrite Hr, Hs, !andb_false_r. lia.
Qed.

Lemma fund_inv_reqs A reqs :
  fund_inv A -> (forall k p, available reqs k p = available (ad_reqs A) k p) ->
  fund_inv (mkADao (ad_fund A) (ad_props A) reqs).
Proof.
  intros [Hl Ha Hs] Heq. split; cbn; [|intros k p; rewrite Heq; apply Ha|done].
  rewrite Hl. apply map_sum_ext. intros k p _. unfold backing; cbn. by rewrite Heq.
Qed.

Lemma backing_with_prop A k p s :
  ad_props A !! k = Some p ->
  map_sum (backing (ad_reqs A)) (with_prop A k p s) =
    map_sum (backing (ad_reqs A)) (ad_props A) - backing (ad_reqs A) (k, p)
      + backing (ad_reqs A) (k, mkAProp (ap_amount p) (ap_super p) s).
Proof. intros Hk. unfold with_prop. by rewrite (map_sum_update _ _ k p). Qed.

Lemma inv_available_with_prop A k p s :
  fund_inv A -> ad_props A !! k = Some p ->
  forall k' p', with_prop A k p s !! k' = Some p' -> 0 <= available (ad_reqs A) k' p'.
Proof.
  intros HA Hk k' p' Hk'. unfold with_prop in Hk'. apply lookup_insert_Some in Hk' as [[<- <-]|[_ Hk']].
  - apply (inv_available A HA k p Hk).
  - by apply (inv_available A HA).
Qed.

(** Only the parent of a granted request has less available. *)
Lemma backing_req_accept A k r p :
  ad_reqs A !! k = Some r -> ar_state r = NIL -> ad_props A !! ar_parent r = Some p ->
  (ap_state p = ACCEPTED \/ ap_state p = PENDING_VOTING_PREQ) ->
  map_sum (backing (with_req A k r ACCEPTED)) (ad_props A) =
    map_sum (backing (ad_reqs A)) (ad_props A) - (if ap_super p then 0 else ar_amount r).
Proof.
  intros Hk Hnil Hp Hst.
  assert (forall k' p', available (with_req A k r ACCEPTED) k' p' =
    available (ad_reqs A) k' p' - (if ar_parent r =? k' then ar_amount r else 0)) as Hav.
  { intros k' p'. rewrite available_with_req by done. unfold granted_to; cbn. rewrite Hnil; cbn.
    rewrite andb_false_r, andb_true_r. destruct (ar_parent r =? k'); lia. }
  rewrite (map_sum_change (backing (ad_reqs A)) _ _ (ar_parent r) p Hp).
  - unfold backing; cbn. rewrite Hav, Z.eqb_refl. unfold live.
    destruct (ap_super p); cbn; [lia|]. destruct Hst as [-> | ->]; cbn; lia.
  - intros k' p' Hne. unfold backing; cbn. rewrite Hav. rewrite (proj2 (Z.eqb_neq _ _)) by done.
    destruct (live p'); lia.
Qed.

Lemma live_not s p : s <> ACCEPTED -> s <> PENDING_VOTING_PREQ ->
  live (mkAProp (ap_amount p) (ap_super p) s) = false.
Proof.
  intros H1 H2. unfold live; cbn. apply Z.eqb_neq in H1, H2. by rewrite H1, H2, andb_false_r.
Qed.

Lemma live_state p : ap_state p <> ACCEPTED -> ap_state p <> PENDING_VOTING_PREQ -> live p = false.
Proof. destruct p as [a u s]. apply (live_not s (mkAProp a u s)). Qed.

(** A proposal that neither was nor becomes live. *)
Lemma fund_inv_dead A k p s :
  fund_inv A -> ad_props A !! k = Some p -> live p = false ->
  live (mkAProp (ap_amount p) (ap_super p) s) = false ->
  fund_inv (mkADao (ad_fund A) (with_prop A k p s) (ad_reqs A)).
Proof.
  intros HA Hk H1 H2. split; cbn; [|by apply inv_available_with_prop|apply HA].
  rewrite (inv_locked A HA), backing_with_prop by done. unfold backing; cbn. rewrite H1, H2. lia.
Qed.

Lemma dao_trans_inv A B : dao_trans true A B -> fund_inv A -> fund_inv B.
Proof.
  intros Htr HA. pose proof (inv_locked A HA) as Hl. destruct Htr as
    [A k r p Hk Hnil Hp Hst Hav Hlk|A k r Hk Hg Hr He|A k r Hk Hr Hg|A k p Hk Hst Hav|A k p Hk Hst
    |A k p Hk Hr Hstr|A k p Hk H1 H2 H3 H4 H5|A k p Hk Hst|A k p Hk Hst].
  - split; cbn.
    + rewrite (backing_req_accept A k r p) by done. unfold move_fund. destruct (ap_super p); cbn; lia.
    + intros k' p' Hk'. rewrite available_with_req by done. unfold granted_to; cbn. rewrite Hnil; cbn.
      rewrite andb_false_r, andb_true_r. pose proof (inv_available A HA k' p' Hk').
      destruct (Z.eqb_spec (ar_parent r) k') as [<-|]; [|lia]. assert (p' = p) as -> by congruence. lia.
    + unfold move_fund. pose proof (inv_supply A HA). destruct (ap_super p); cbn; lia.
  - apply fund_inv_reqs; [done|]. by apply available_ungranted.
  - apply fund_inv_reqs; [done|]. apply available_ungranted; auto.
  - pose proof (inv_available A HA k p Hk). pose proof (inv_supply A HA).
    split; cbn; [|by apply inv_available_with_prop|].
    + rewrite backing_with_prop, <- Hl by done. unfold backing; cbn.
      rewrite (live_state p) by (destruct Hst as [-> | ->]; done). unfold move_fund, live; cbn.
      destruct (ap_super p); cbn; [lia|]. unfold available; cbn. lia.
    + unfold move_fund. destruct (ap_super p) eqn:Es; cbn; [lia|]. specialize (Hav eq_refl). lia.
  - apply fund_inv_dead; [done|done|apply live_state; by rewrite Hst|by apply live_not].
  - destruct (Hstr eq_refl). apply fund_inv_dead; [done|done|by apply live_state|by apply live_not].
  - apply fund_inv_dead; [done|done|by apply live_state|by apply live_not].
  - split; cbn; [|by apply inv_available_with_prop|apply HA].
    rewrite backing_with_prop, <- Hl by done. unfold backing, live, available; cbn.
    destruct (ap_super p); cbn; [lia|]. destruct Hst as [-> | ->]; cbn; lia.
  - pose proof (inv_available A HA k p Hk). pose proof (inv_supply A HA).
    split; cbn; [|by apply inv_available_with_prop|].
    + rewrite backing_with_prop, <- Hl by done. unfold backing, live, move_fund; cbn.
      destruct (ap_super p); cbn; [lia|]. destruct Hst as [-> | ->]; cbn; lia.
    + unfold move_fund. destruct (ap_super p); cbn; lia.
Qed.

(** ** Conservation *)

(** Everything granted to requests of proposals paid from the fund. *)
Definition paid_out (A : ADao) : Z :=
  map_sum (fun kr : uint256 * AReq =>
    if granted (ar_state kr.2) &&
       match ad_props A !! ar_parent kr.2 with Some p => negb (ap_super p) | None => false end
    then ar_amount kr.2 else 0) (ad_reqs A).

Definition fund_total (A : ADao) : Z :=
  fund_supply (ad_fund A) + fund_locked (ad_fund A) + paid_out A.

Lemma paid_out_with_prop A k p s f :
  ad_props A !! k = Some p -> paid_out (mkADao f (with_prop A k p s) (ad_reqs A)) = paid_out A.
Proof.
  intros Hk. unfold paid_out; cbn. apply map_sum_ext. intros k' r _; cbn. unfold with_prop.
  destruct (decide (k = ar_parent r)) as [<-|]; [|by rewrite lookup_insert_ne].
  by rewrite lookup_insert_eq, Hk.
Qed.

Lemma paid_out_with_req A k r s f :
  ad_reqs A !! k = Some r ->
  paid_out (mkADao f (ad_props A) (with_req A k r s)) =
    let w (st : Z) := if granted st &&
      match ad_props A !! ar_parent r with Some p => negb (ap_super p) | None => false end
      then ar_amount r else 0 in
    paid_out A - w (ar_state r) + w s.
Proof. intros Hk. unfold paid_out, with_req; cbn. by rewrite (map_sum_update _ _ k r). Qed.

(** No move creates or destroys money. *)
Lemma dao_trans_total A B : dao_trans true A B -> fund_total B = fund_total A.
Proof.
  intros Htr. unfold fund_total. destruct Htr as
    [A k r p Hk Hnil Hp Hst Hav Hlk|A k r Hk Hg Hr He|A k r Hk Hr Hg|A k p Hk Hst Hav|A k p Hk Hst
    |A k p Hk Hr Hstr|A k p Hk H1 H2 H3 H4 H5|A k p Hk Hst|A k p Hk Hst];
    rewrite ?paid_out_with_prop, ?paid_out_with_req by done; cbn; unfold move_fund;
    try (destruct (ap_super p); cbn; lia); try lia.
  - rewrite Hp, Hnil; cbn. destruct (ap_super p); cbn; lia.
  - rewrite Hg; cbn. lia.
  - rewrite Hg by done; cbn. lia.
Qed.

Lemma fund_inv_rtc A B : rtc (dao_trans true) A B -> fund_inv A -> fund_inv B.
Proof. induction 1; eauto using dao_trans_inv. Qed.

Lemma fund_total_rtc A B : rtc (dao_trans true) A B -> fund_total B = fund_total A.
Proof. induction 1 as [|A B C H1 _ IH]; [done|]. by rewrite IH, (dao_trans_total A B). Qed.
