(* ===== verification/VoteStepProps.v ===== *)
(** * Correctness of [VoteStep]

    The connect direction of [VoteStep] refines the abstract machine of
    [DaoSpec]; the invariants of the fund, the conservation of money and the
    legal transitions follow. *)
From S2P Require Import Prelude Float CxxString Chain VersionBits Params DaoTypes StateView DaoRules VoteStep DaoSpec VoteDemo.

(** ** The abstract state of a view *)

Definition abs_prop (h : BlockMap) (p : CProposal) : AProp :=
  mkAProp (p_nAmount p) (CProposal_IsSuper p) (CProposal_GetLastState h p).

Definition abs_req (h : BlockMap) (r : CPaymentRequest) : AReq :=
  mkAReq (pr_nAmount r) (pr_proposalhash r) (CPaymentRequest_GetLastState h r).

Definition abs_props (h : BlockMap) (v : View) : gmap uint256 AProp :=
  abs_prop h <$> tbl_all (v_proposals v).

Definition abs_reqs (h : BlockMap) (v : View) : gmap uint256 AReq :=
  abs_req h <$> tbl_all (v_prequests v).

Definition abs_dao (h : BlockMap) (v : View) (fund : Fund) : ADao :=
  mkADao fund (abs_props h v) (abs_reqs h v).

(** ** Well-formed views

    An entry is stored under its hash, has an amount (a request may instead
    have a description), and its history is older than the block [pnew] that
    is connected. *)

Definition solid_prop (p : CProposal) : Prop := p_nAmount p <> 0.
Definition solid_req (r : CPaymentRequest) : Prop := pr_nAmount r <> 0 \/ pr_strDZeel r <> EmptyString.

Definition wf_prop (h : BlockMap) (pnew : uint256) (k : uint256) (p : CProposal) : Prop :=
  p_hash p = k /\ solid_prop p /\ above h (p_mapState p) pnew.

Definition wf_req (h : BlockMap) (pnew : uint256) (k : uint256) (r : CPaymentRequest) : Prop :=
  pr_hash r = k /\ solid_req r /\ above h (pr_mapState r) pnew.

Record wf_view (h : BlockMap) (pnew : uint256) (v : View) : Prop := {
  wf_props : forall k p, GetProposal v k = Some p -> wf_prop h pnew k p;
  wf_reqs : forall k r, GetPaymentRequest v k = Some r -> wf_req h pnew k r
}.

(** What a change of votes, cycles or flags keeps. *)
Definition prop_core (p p' : CProposal) : Prop :=
  p_nAmount p' = p_nAmount p /\ p_hash p' = p_hash p /\ p_nVersion p' = p_nVersion p /\
  p_mapState p' = p_mapState p.

Definition req_core (r r' : CPaymentRequest) : Prop :=
  pr_nAmount r' = pr_nAmount r /\ pr_hash r' = pr_hash r /\ pr_proposalhash r' = pr_proposalhash r /\
  pr_mapState r' = pr_mapState r /\ pr_strDZeel r' = pr_strDZeel r.

Lemma prop_core_refl p : prop_core p p.
Proof. done. Qed.
Lemma req_core_refl r : req_core r r.
Proof. done. Qed.
Lemma prop_core_trans p q r : prop_core p q -> prop_core q r -> prop_core p r.
Proof. unfold prop_core. intuition congruence. Qed.
Lemma req_core_trans p q r : req_core p q -> req_core q r -> req_core p r.
Proof. unfold req_core. intuition congruence. Qed.
#[export] Hint Resolve prop_core_refl req_core_refl : nav.

Lemma dirtied_prop p p' : dirtied p p' -> prop_core p p'.
Proof. intros [->| ->]; done. Qed.
Lemma dirtied_req r r' : dirtied r r' -> req_core r r'.
Proof. intros [->| ->]; done. Qed.

Lemma solid_prop_IsNull p : solid_prop p -> CProposal_IsNull p = false.
Proof. intros Hs. unfold CProposal_IsNull. by rewrite (proj2 (Z.eqb_neq _ _) Hs). Qed.

Lemma solid_req_IsNull r : solid_req r -> CPaymentRequest_IsNull r = false.
Proof.
  unfold CPaymentRequest_IsNull. intros [Hs|Hs]; [by rewrite (proj2 (Z.eqb_neq _ _) Hs)|].
  rewrite (bool_decide_eq_false_2 (pr_strDZeel r = EmptyString)) by done. by rewrite !andb_false_r.
Qed.

Lemma abs_prop_core h p p' : prop_core p p' -> abs_prop h p' = abs_prop h p.
Proof.
  intros (Ha & _ & Hv & Hm). unfold abs_prop, CProposal_IsSuper, CProposal_GetLastState.
  by rewrite Ha, Hv, Hm.
Qed.

Lemma abs_req_core h r r' : req_core r r' -> abs_req h r' = abs_req h r.
Proof.
  intros (Ha & _ & Hp & Hm & _). unfold abs_req, CPaymentRequest_GetLastState. by rewrite Ha, Hp, Hm.
Qed.

Lemma wf_prop_core h pnew k p p' : prop_core p p' -> wf_prop h pnew k p -> wf_prop h pnew k p'.
Proof. intros (Ha & Hh & _ & Hm). unfold wf_prop, solid_prop. by rewrite Ha, Hh, Hm. Qed.

Lemma wf_req_core h pnew k r r' : req_core r r' -> wf_req h pnew k r -> wf_req h pnew k r'.
Proof. intros (Ha & Hh & _ & Hm & Hz). unfold wf_req, solid_req. by rewrite Ha, Hh, Hm, Hz. Qed.

(** ** Modifying an entry of a well-formed view *)

Lemma ModifyProposal_spec h pnew v k p f :
  GetProposal v k = Some p -> wf_prop h pnew k (f p) ->
  exists p', ModifyProposal v k f = set_v_proposals v (<[k := p']> (v_proposals v)) /\ prop_core (f p) p'.
Proof.
  intros Hp (_ & Hs & _). destruct (tbl_modify_get (v_proposals v) k p f Hp) as (p' & E & Hd).
  { by apply solid_prop_IsNull. }
  exists p'. unfold ModifyProposal. rewrite E. split; [done|by apply dirtied_prop].
Qed.

Lemma ClosePaymentRequest_spec v k r prev :
  solid_req r ->
  exists r', ClosePaymentRequest (PutPaymentRequest v k r) k prev =
    set_v_prequests v (<[k := r']> (v_prequests v)) /\ req_core r r'.
Proof.
  intros Hs. unfold ClosePaymentRequest, PutPaymentRequest; cbn.
  unfold tbl_entry. rewrite lookup_insert_eq; cbn. rewrite solid_req_IsNull by done. cbn.
  destruct (tbl_mark_insert (v_prequests v) k r prev) as (r' & E & Hd).
  exists r'. rewrite E. split; [done|by apply dirtied_req].
Qed.

Lemma OpenPaymentRequest_get v k r : GetPaymentRequest v k = Some r -> OpenPaymentRequest v k = v.
Proof. intros Hr. unfold OpenPaymentRequest. rewrite (tbl_open_get _ _ r) by done. by destruct v. Qed.

Lemma ModifyPaymentRequest_spec h pnew v k r f :
  GetPaymentRequest v k = Some r -> wf_req h pnew k (f r) ->
  exists r', ModifyPaymentRequest v k f = set_v_prequests v (<[k := r']> (v_prequests v)) /\ req_core (f r) r'.
Proof.
  intros Hr (_ & Hs & _). unfold ModifyPaymentRequest. rewrite (OpenPaymentRequest_get v k r) by done.
  rewrite (tbl_entry_get (v_prequests v) k r) by done. by apply ClosePaymentRequest_spec.
Qed.

Lemma abs_props_lookup h v k : abs_props h v !! k = abs_prop h <$> GetProposal v k.
Proof. unfold abs_props. by rewrite lookup_fmap, tbl_all_get. Qed.

Lemma abs_reqs_lookup h v k : abs_reqs h v !! k = abs_req h <$> GetPaymentRequest v k.
Proof. unfold abs_reqs. by rewrite lookup_fmap, tbl_all_get. Qed.

Lemma GetProposal_put v k p k' :
  solid_prop p ->
  GetProposal (set_v_proposals v (<[k := p]> (v_proposals v))) k' =
    if decide (k = k') then Some p else GetProposal v k'.
Proof. intros Hs. unfold GetProposal; cbn. apply tbl_get_insert. by apply solid_prop_IsNull. Qed.

Lemma GetPaymentRequest_put v k r k' :
  solid_req r ->
  GetPaymentRequest (set_v_prequests v (<[k := r]> (v_prequests v))) k' =
    if decide (k = k') then Some r else GetPaymentRequest v k'.
Proof. intros Hs. unfold GetPaymentRequest; cbn. apply tbl_get_insert. by apply solid_req_IsNull. Qed.

Lemma abs_put_prop h v k p fund :
  solid_prop p ->
  abs_dao h (set_v_proposals v (<[k := p]> (v_proposals v))) fund =
    mkADao fund (<[k := abs_prop h p]> (abs_props h v)) (abs_reqs h v).
Proof.
  intros Hs. unfold abs_dao. f_equal. apply map_eq. intros k'.
  rewrite abs_props_lookup, GetProposal_put by done. destruct (decide (k = k')) as [->|].
  - by rewrite lookup_insert_eq.
  - by rewrite lookup_insert_ne, abs_props_lookup.
Qed.

Lemma abs_put_req h v k r fund :
  solid_req r ->
  abs_dao h (set_v_prequests v (<[k := r]> (v_prequests v))) fund =
    mkADao fund (abs_props h v) (<[k := abs_req h r]> (abs_reqs h v)).
Proof.
  intros Hs. unfold abs_dao. f_equal. apply map_eq. intros k'.
  rewrite abs_reqs_lookup, GetPaymentRequest_put by done. destruct (decide (k = k')) as [->|].
  - by rewrite lookup_insert_eq.
  - by rewrite lookup_insert_ne, abs_reqs_lookup.
Qed.

Lemma wf_put_prop h pnew v k p :
  wf_view h pnew v -> wf_prop h pnew k p ->
  wf_view h pnew (set_v_proposals v (<[k := p]> (v_proposals v))).
Proof.
  intros [Hp Hr] Hwf. split; [|exact Hr]. intros k' p'. rewrite GetProposal_put by apply Hwf.
  destruct (decide (k = k')) as [<-|]; [by intros [= <-]|apply Hp].
Qed.

Lemma wf_put_req h pnew v k r :
  wf_view h pnew v -> wf_req h pnew k r ->
  wf_view h pnew (set_v_prequests v (<[k := r]> (v_prequests v))).
Proof.
  intros [Hp Hr] Hwf. split; [exact Hp|]. intros k' r'. rewrite GetPaymentRequest_put by apply Hwf.
  destruct (decide (k = k')) as [<-|]; [by intros [= <-]|apply Hr].
Qed.

(** ** What is available *)

Lemma GetAvailable_abs h v p :
  v_readable v = true ->
  CProposal_GetAvailable h p v false = available (abs_reqs h v) (p_hash p) (abs_prop h p).
Proof.
  intros Hr. unfold CProposal_GetAvailable, GetAllPaymentRequests. rewrite Hr.
  unfold available, abs_reqs. rewrite map_sum_fmap. cbn [ap_amount abs_prop].
  rewrite <- foldl_sub_sum. apply foldl_ext_in. intros t [k r] Hin.
  apply elem_of_elems in Hin. rewrite tbl_all_get in Hin. cbn [fst snd].
  change (tbl_get (v_prequests v) k) with (GetPaymentRequest v k) in Hin. rewrite Hin.
  unfold granted_to, granted; cbn. destruct (pr_proposalhash r =? p_hash p); cbn; [|lia].
  destruct ((_ =? ACCEPTED) || (_ =? PAID)); lia.
Qed.

(** The two views show the same tables, parameters and database. *)
Definition same_rest (v v' : View) : Prop :=
  v_consensus v' = v_consensus v /\ v_readable v' = v_readable v.

Lemma same_rest_refl v : same_rest v v.
Proof. done. Qed.
Lemma same_rest_trans v1 v2 v3 : same_rest v1 v2 -> same_rest v2 v3 -> same_rest v1 v3.
Proof. unfold same_rest. intuition congruence. Qed.
#[export] Hint Resolve same_rest_refl : nav.

Lemma GetConsensusParameter_same {params : Params} v v' pos :
  v_consensus v' = v_consensus v -> GetConsensusParameter pos v' = GetConsensusParameter pos v.
Proof. intros E. unfold GetConsensusParameter, view_GetConsensusParameter. by rewrite E. Qed.

(** ** Coherence of the copies

    The maps [VoteStep] works on are copies of the tables; an entry of a map
    and the entry of the view under the same key differ at most in votes,
    cycle and flags.  An entry that has a state is still the one of the view
    [v0] the call started with. *)

Definition coh_props (h : BlockMap) (v0 v : View) (m : gmap uint256 CProposal) : Prop :=
  forall k p, m !! k = Some p ->
    (exists p', GetProposal v k = Some p' /\ prop_core p p') /\
    (CProposal_GetLastState h p <> NIL -> GetProposal v0 k = Some p).

Definition coh_reqs (h : BlockMap) (v0 v : View) (m : gmap uint256 CPaymentRequest) : Prop :=
  forall k r, m !! k = Some r ->
    (exists r', GetPaymentRequest v k = Some r' /\ req_core r r') /\
    (CPaymentRequest_GetLastState h r <> NIL -> GetPaymentRequest v0 k = Some r).

Lemma coh_props_all h v : coh_props h v v (tbl_all (v_proposals v)).
Proof. intros k p. rewrite tbl_all_get. intros Hp. split; [eauto with nav|done]. Qed.

Lemma coh_reqs_all h v : coh_reqs h v v (tbl_all (v_prequests v)).
Proof. intros k p. rewrite tbl_all_get. intros Hp. split; [eauto with nav|done]. Qed.

(** The view after a change that keeps the core of every entry. *)
Record votes_changed (h : BlockMap) (pnew : uint256) (v0 v : View) : Prop := {
  vc_wf : wf_view h pnew v;
  vc_rest : same_rest v0 v;
  vc_abs : forall fund, abs_dao h v fund = abs_dao h v0 fund
}.

Lemma votes_changed_refl h pnew v : wf_view h pnew v -> votes_changed h pnew v v.
Proof. by split. Qed.

Lemma votes_changed_trans h pnew v1 v2 v3 :
  votes_changed h pnew v1 v2 -> votes_changed h pnew v2 v3 -> votes_changed h pnew v1 v3.
Proof.
  intros [W1 R1 A1] [W2 R2 A2]. split; [done|by eapply same_rest_trans|].
  intros fund. by rewrite A2, A1.
Qed.

Lemma votes_changed_prop h pnew v k p p' :
  wf_view h pnew v -> GetProposal v k = Some p -> prop_core p p' ->
  votes_changed h pnew v (set_v_proposals v (<[k := p']> (v_proposals v))).
Proof.
  intros Hwf Hp Hc. assert (wf_prop h pnew k p') as Hw.
  { eapply wf_prop_core; [exact Hc|]. by apply (wf_props _ _ _ Hwf). }
  split; [by apply wf_put_prop|done|]. intros fund. rewrite abs_put_prop by apply Hw.
  unfold abs_dao. f_equal. rewrite (abs_prop_core h p p') by done. apply insert_id.
  by rewrite abs_props_lookup, Hp.
Qed.

Lemma votes_changed_req h pnew v k r r' :
  wf_view h pnew v -> GetPaymentRequest v k = Some r -> req_core r r' ->
  votes_changed h pnew v (set_v_prequests v (<[k := r']> (v_prequests v))).
Proof.
  intros Hwf Hr Hc. assert (wf_req h pnew k r') as Hw.
  { eapply wf_req_core; [exact Hc|]. by apply (wf_reqs _ _ _ Hwf). }
  split; [by apply wf_put_req|done|]. intros fund. rewrite abs_put_req by apply Hw.
  unfold abs_dao. f_equal. rewrite (abs_req_core h r r') by done. apply insert_id.
  by rewrite abs_reqs_lookup, Hr.
Qed.

(** ** The vote counters *)

Lemma coh_props_put h pnew v0 v m k p p1 p2 :
  coh_props h v0 v m -> wf_prop h pnew k p2 -> GetProposal v k = Some p -> prop_core p p1 ->
  prop_core p1 p2 -> CProposal_GetLastState h p1 = NIL ->
  coh_props h v0 (set_v_proposals v (<[k := p2]> (v_proposals v))) (<[k := p1]> m).
Proof.
  intros Hm Hw Hp Hc1 Hc2 Hnil k' q Hq. rewrite GetProposal_put by apply Hw.
  destruct (decide (k = k')) as [<-|Hne].
  - rewrite lookup_insert_eq in Hq. simplify_eq. split; [eauto|done].
  - rewrite lookup_insert_ne in Hq by done. by apply Hm.
Qed.

Lemma coh_reqs_put h pnew v0 v m k r r1 r2 :
  coh_reqs h v0 v m -> wf_req h pnew k r2 -> GetPaymentRequest v k = Some r -> req_core r r1 ->
  req_core r1 r2 -> CPaymentRequest_GetLastState h r1 = NIL ->
  coh_reqs h v0 (set_v_prequests v (<[k := r2]> (v_prequests v))) (<[k := r1]> m).
Proof.
  intros Hm Hw Hr Hc1 Hc2 Hnil k' q Hq. rewrite GetPaymentRequest_put by apply Hw.
  destruct (decide (k = k')) as [<-|Hne].
  - rewrite lookup_insert_eq in Hq. simplify_eq. split; [eauto|done].
  - rewrite lookup_insert_ne in Hq by done. by apply Hm.
Qed.

(** The same entry in two views with the same abstract state. *)
Lemma abs_same_prop h v0 v fund k p :
  abs_dao h v fund = abs_dao h v0 fund -> GetProposal v0 k = Some p ->
  exists p', GetProposal v k = Some p' /\ abs_prop h p' = abs_prop h p.
Proof.
  intros E Hp. assert (abs_props h v !! k = abs_props h v0 !! k) as Ek by (by injection E as -> _).
  rewrite !abs_props_lookup, Hp in Ek. destruct (GetProposal v k) as [p'|]; cbn in Ek; [|done].
  injection Ek as E1 E2 E3. exists p'. split; [done|]. unfold abs_prop. by rewrite E1, E2, E3.
Qed.

Lemma abs_same_req h v0 v fund k r :
  abs_dao h v fund = abs_dao h v0 fund -> GetPaymentRequest v0 k = Some r ->
  exists r', GetPaymentRequest v k = Some r' /\ abs_req h r' = abs_req h r.
Proof.
  intros E Hr. assert (abs_reqs h v !! k = abs_reqs h v0 !! k) as Ek by (by injection E as _ ->).
  rewrite !abs_reqs_lookup, Hr in Ek. destruct (GetPaymentRequest v k) as [r'|]; cbn in Ek; [|done].
  injection Ek as E1 E2 E3. exists r'. split; [done|]. unfold abs_req. by rewrite E1, E2, E3.
Qed.

Lemma set_proposal_votes_core t p : prop_core p (set_proposal_votes t p).
Proof. by destruct t as [[? ?] ?]. Qed.

Lemma set_prequest_votes_core t r : req_core r (set_prequest_votes t r).
Proof. by destruct t as [[? ?] ?]. Qed.

Section counters.
Context {params : Params} (h : BlockMap) (pnew : uint256) (bnew : CBlockIndex) (pdelete : uint256)
  (nCycleLength : Z).

Definition props_inv (v0 : View) (mp : gmap uint256 CProposal)
    (acc : View * gmap uint256 CProposal * gset uint256) : Prop :=
  let '(v, upd, _) := acc in
  votes_changed h pnew v0 v /\ coh_props h v0 v (upd ∪ mp) /\ v_prequests v = v_prequests v0.

Lemma proposal_votes_step_inv v0 acc it :
  let mp := tbl_all (v_proposals v0) in
  props_inv v0 mp acc ->
  props_inv v0 mp (proposal_votes_step h bnew false pdelete nCycleLength mp acc it).
Proof.
  intros mp. destruct acc as [[v upd] seen], it as [k t]. intros (Hvc & Hcoh & Hreq).
  unfold proposal_votes_step; cbn [fst snd].
  destruct (mp !! k) as [p|] eqn:Ep; [|done].
  destruct (p_txblockhash p =? 0); [done|]. destruct (h !! p_txblockhash p); [|done].
  destruct (CProposal_CanVote h p) eqn:Ecan; cbn [negb]; [|done].
  unfold CProposal_CanVote in Ecan. nav_bool.
  subst mp. rewrite tbl_all_get in Ep.
  destruct (abs_same_prop h v0 v (mkFund 0 0) k p (vc_abs _ _ _ _ Hvc _) Ep) as (p' & Hp' & Habs).
  rewrite (tbl_entry_get (v_proposals v) k p') by exact Hp'.
  pose proof (wf_props _ _ _ (vc_wf _ _ _ _ Hvc) k p' Hp') as Hw.
  pose proof (set_proposal_votes_core t p') as Hc.
  destruct (ModifyProposal_spec h pnew v k p' (set_proposal_votes t) Hp') as (p2 & -> & Hc2).
  { by eapply wf_prop_core. }
  assert (p_hash (set_proposal_votes t p') = k) as -> by (destruct Hc as (_ & -> & _); apply Hw).
  assert (wf_prop h pnew k p2) as Hw2 by (do 2 (eapply wf_prop_core; [eassumption|]); done).
  split; [|split; [|exact Hreq]].
  - eapply votes_changed_trans; [exact Hvc|].
    eapply votes_changed_prop; [apply Hvc|exact Hp'|by eapply prop_core_trans].
  - rewrite <- insert_union_l. eapply coh_props_put; try eassumption.
    apply (f_equal ap_state) in Habs; cbn in Habs. destruct Hc as (_ & _ & _ & Hms).
    unfold CProposal_GetLastState in *. rewrite Hms. congruence.
Qed.

Definition reqs_inv (v0 v1 : View) (mr : gmap uint256 CPaymentRequest)
    (acc : View * gmap uint256 CPaymentRequest * gset uint256) : Prop :=
  let '(v, upd, _) := acc in
  votes_changed h pnew v1 v /\ coh_reqs h v0 v (upd ∪ mr) /\ v_proposals v = v_proposals v1.

Lemma prequest_votes_step_inv v0 v1 acc it acc' :
  let mr := tbl_all (v_prequests v1) in
  reqs_inv v0 v1 mr acc ->
  prequest_votes_step h bnew false pdelete nCycleLength mr acc it = Some acc' ->
  reqs_inv v0 v1 mr acc'.
Proof.
  intros mr. destruct acc as [[v upd] seen], it as [k t]. intros (Hvc & Hcoh & Hprop).
  unfold prequest_votes_step; cbn [fst snd]. intros Hs.
  destruct (mr !! k) as [r|] eqn:Er; [|by simplify_eq].
  destruct (pr_txblockhash r =? 0); [by simplify_eq|].
  destruct (h !! pr_txblockhash r); cbn [mbind option_bind] in Hs; [|done].
  destruct (CPaymentRequest_CanVote h r v) eqn:Ecan; cbn [negb] in Hs; [|by simplify_eq].
  injection Hs as <-.
  assert (CPaymentRequest_GetLastState h r = NIL) as Hnil.
  { unfold CPaymentRequest_CanVote in Ecan. destruct (GetProposal v _); [|done]. by nav_bool. }
  subst mr. rewrite tbl_all_get in Er.
  destruct (abs_same_req h v1 v (mkFund 0 0) k r (vc_abs _ _ _ _ Hvc _) Er) as (r' & Hr' & Habs).
  rewrite (tbl_entry_get (v_prequests v) k r') by exact Hr'.
  pose proof (wf_reqs _ _ _ (vc_wf _ _ _ _ Hvc) k r' Hr') as Hw.
  pose proof (set_prequest_votes_core t r') as Hc.
  destruct (ModifyPaymentRequest_spec h pnew v k r' (set_prequest_votes t) Hr') as (r2 & -> & Hc2).
  { by eapply wf_req_core. }
  assert (pr_hash (set_prequest_votes t r') = k) as -> by (destruct Hc as (_ & -> & _); apply Hw).
  assert (wf_req h pnew k r2) as Hw2 by (do 2 (eapply wf_req_core; [eassumption|]); done).
  split; [|split; [|exact Hprop]].
  - eapply votes_changed_trans; [exact Hvc|].
    eapply votes_changed_req; [apply Hvc|exact Hr'|by eapply req_core_trans].
  - rewrite <- insert_union_l. eapply coh_reqs_put; try eassumption.
    apply (f_equal ar_state) in Habs; cbn in Habs. destruct Hc as (_ & _ & _ & Hms & _).
    unfold CPaymentRequest_GetLastState in *. rewrite Hms. congruence.
Qed.
End counters.

(** ** Payment requests *)

(** Whether the votes of an entry meet the rejection threshold. *)
Definition req_rejectable {params : Params} (r : CPaymentRequest) (v : View) : bool :=
  reaches_fraction (pr_nVotesNo r) (CPaymentRequest_total r)
    (per_10000 (if CPaymentRequest_IsSuper r then 9000
                else GetConsensusParameter CONSENSUS_PARAM_PAYMENT_REQUEST_MIN_REJECT v)).

Definition prop_rejectable {params : Params} (p : CProposal) (v : View) : bool :=
  reaches_fraction (p_nVotesNo p) (CProposal_total p)
    (per_10000 (if CProposal_IsSuper p then 9000
                else GetConsensusParameter CONSENSUS_PARAM_PROPOSAL_MIN_REJECT v)).

(** No accepted entry has enough votes against it to be rejected. *)
Record settled {params : Params} (h : BlockMap) (v : View) : Prop := {
  settled_req k r : GetPaymentRequest v k = Some r -> granted (CPaymentRequest_GetLastState h r) = true ->
    req_rejectable r v = false;
  settled_prop k p : GetProposal v k = Some p ->
    (CProposal_GetLastState h p = ACCEPTED \/ CProposal_GetLastState h p = PENDING_VOTING_PREQ) ->
    prop_rejectable p v = false
}.

Record req_moved (h : BlockMap) (pnew : uint256) (k : uint256) (v v' : View) : Prop := {
  rm_wf : wf_view h pnew v';
  rm_rest : same_rest v v';
  rm_props : v_proposals v' = v_proposals v;
  rm_other k' : k' <> k -> GetPaymentRequest v' k' = GetPaymentRequest v k';
  rm_dom k' : is_Some (GetPaymentRequest v k') -> is_Some (GetPaymentRequest v' k')
}.

(** At most the entry of [k] was added to a map of updates. *)
Definition upd_at {A} (k : uint256) (upd upd' : gmap uint256 A) : Prop :=
  upd' = upd \/ exists x, upd' = <[k := x]> upd.

Lemma upd_at_dom {A} k (upd upd' : gmap uint256 A) k' :
  upd_at k upd upd' -> is_Some (upd' !! k') -> is_Some (upd !! k') \/ k' = k.
Proof.
  intros [->|[x ->]]; [by left|]. destruct (decide (k' = k)) as [->|]; [by right|].
  rewrite lookup_insert_ne by done. by left.
Qed.

Lemma upd_at_trans {A} k (u1 u2 u3 : gmap uint256 A) : upd_at k u1 u2 -> upd_at k u2 u3 -> upd_at k u1 u3.
Proof.
  intros [->|[x ->]] [->|[y ->]]; [by left|right; eauto..]. exists y. apply insert_insert_eq.
Qed.

Lemma req_moved_refl h pnew k v : wf_view h pnew v -> req_moved h pnew k v v.
Proof. by split. Qed.

Lemma req_moved_trans h pnew k v1 v2 v3 :
  req_moved h pnew k v1 v2 -> req_moved h pnew k v2 v3 -> req_moved h pnew k v1 v3.
Proof.
  intros [W1 R1 P1 O1 D1] [W2 R2 P2 O2 D2]. split; [done|by eapply same_rest_trans|congruence| |auto].
  intros k' Hne. by rewrite O2, O1.
Qed.

Lemma req_moved_put h pnew v k r :
  wf_view h pnew v -> wf_req h pnew k r ->
  req_moved h pnew k v (set_v_prequests v (<[k := r]> (v_prequests v))).
Proof.
  intros Hwf Hw. split; [by apply wf_put_req|done|done| |]; intros k' Hk';
    rewrite GetPaymentRequest_put by apply Hw; [by rewrite decide_False|].
  destruct (decide (k = k')); [by eexists|done].
Qed.

Lemma wf_req_state h pnew k r s : wf_req h pnew k r -> wf_req h pnew k (set_prequest_state pnew s r).
Proof. intros (Hh & Hs & Ha). split; [done|]. split; [done|]. by apply above_insert. Qed.

(** A change of state in the view is the same change of the abstract state. *)
Lemma move_prequest_spec h pnew v k r s fund fund0 :
  wf_view h pnew v -> GetPaymentRequest v k = Some r ->
  let v' := ModifyPaymentRequest v k (set_prequest_state pnew s) in
  req_moved h pnew k v v' /\
  abs_dao h v' fund = mkADao fund (abs_props h v) (with_req (abs_dao h v fund0) k (abs_req h r) s).
Proof.
  intros Hwf Hr v'. pose proof (wf_req_state h pnew k r s (wf_reqs _ _ _ Hwf k r Hr)) as Hw.
  destruct (ModifyPaymentRequest_spec h pnew v k r (set_prequest_state pnew s) Hr Hw) as (r' & E & Hc).
  subst v'. rewrite E. pose proof (wf_req_core _ _ _ _ _ Hc Hw) as Hw'.
  split; [by apply req_moved_put|]. rewrite abs_put_req by apply Hw'.
  unfold with_req; cbn. rewrite (abs_req_core h _ r' Hc). f_equal. f_equal.
  unfold abs_req; cbn. f_equal. apply last_state_insert. apply (wf_reqs _ _ _ Hwf k r Hr).
Qed.

(** The part of [prequest_step] that sets the voting cycle. *)
Lemma prequest_cycle_spec h pnew v k r n :
  wf_view h pnew v -> GetPaymentRequest v k = Some r ->
  let v1 := OpenPaymentRequest v k in
  let prev := tbl_entry (v_prequests v1) k in
  let r1 := set_prequest_cycle n prev in
  let v2 := ClosePaymentRequest (PutPaymentRequest v1 k r1) k prev in
  req_moved h pnew k v v2 /\ (forall fund, abs_dao h v2 fund = abs_dao h v fund) /\ req_core r r1 /\
  exists r2, GetPaymentRequest v2 k = Some r2 /\ req_core r r2.
Proof.
  intros Hwf Hr. cbn zeta. rewrite (OpenPaymentRequest_get v k r) by done.
  rewrite (tbl_entry_get (v_prequests v) k r) by done.
  pose proof (wf_reqs _ _ _ Hwf k r Hr) as Hw.
  assert (req_core r (set_prequest_cycle n r)) as Hc by done.
  pose proof (wf_req_core _ _ _ _ _ Hc Hw) as Hw1.
  destruct (ClosePaymentRequest_spec v k (set_prequest_cycle n r) r) as (r2 & -> & Hc2); [apply Hw1|].
  pose proof (wf_req_core _ _ _ _ _ Hc2 Hw1) as Hw2. pose proof (req_core_trans _ _ _ Hc Hc2) as Hc3.
  split; [by apply req_moved_put|]. split; [|split; [done|]].
  - apply (votes_changed_req h pnew v k r r2 Hwf Hr Hc3).
  - exists r2. rewrite GetPaymentRequest_put by apply Hw2. by rewrite decide_True.
Qed.

Lemma IsRejected_rejectable {params : Params} r v : CPaymentRequest_IsRejected r v = true -> req_rejectable r v = true.
Proof. unfold CPaymentRequest_IsRejected. by intros [_ ?]%andb_true_iff. Qed.

Lemma req_rejectable_same {params : Params} r v v' :
  v_consensus v' = v_consensus v -> req_rejectable r v' = req_rejectable r v.
Proof. intros E. unfold req_rejectable. by rewrite (GetConsensusParameter_same v v'). Qed.

Lemma IsExpired_granted {params : Params} h r v :
  CPaymentRequest_IsExpired h r v = true -> granted (CPaymentRequest_GetLastState h r) = false.
Proof.
  unfold CPaymentRequest_IsExpired, granted. destruct (_ <=? _); [|done].
  intros ?; nav_bool. apply orb_false_iff. by split; apply Z.eqb_neq.
Qed.

Section transitions.
Context {params : Params} (h : BlockMap) (pnew : uint256) (bnew : CBlockIndex) (pdelete : uint256)
  (nCycleLength : Z) (strict : bool) (v0 : View).
Context (Hsettled : strict = true -> settled h v0) (Hread : v_readable v0 = true).

(** The first half of a step: the voting cycle and the three tests. *)
Lemma prequest_tests v k r n r' :
  wf_view h pnew v -> same_rest v0 v -> GetPaymentRequest v k = Some r' -> req_core r r' ->
  (CPaymentRequest_GetLastState h r <> NIL -> GetPaymentRequest v0 k = Some r) ->
  exists v1 fIsExpired fIsAccepted fIsRejected r1,
    (if CPaymentRequest_GetLastState h r =? NIL then
       let v1 := OpenPaymentRequest v k in
       let prev := tbl_entry (v_prequests v1) k in
       let pr' := set_prequest_cycle n prev in
       let v2 := PutPaymentRequest v1 k pr' in
       (ClosePaymentRequest v2 k prev, CPaymentRequest_IsExpired h pr' v2,
        CPaymentRequest_IsAccepted pr' v2, CPaymentRequest_IsRejected pr' v2)
     else (v, CPaymentRequest_IsExpired h r v, CPaymentRequest_IsAccepted r v,
           CPaymentRequest_IsRejected r v)) = (v1, fIsExpired, fIsAccepted, fIsRejected) /\
    req_moved h pnew k v v1 /\ (forall fund, abs_dao h v1 fund = abs_dao h v fund) /\
    GetPaymentRequest v1 k = Some r1 /\ req_core r r1 /\
    (fIsExpired = true -> granted (CPaymentRequest_GetLastState h r) = false) /\
    (fIsRejected = true -> strict = true -> granted (CPaymentRequest_GetLastState h r) = false).
Proof.
  intros Hwf Hrest Hr' Hc Hold. destruct (CPaymentRequest_GetLastState h r =? NIL) eqn:En; nav_bool.
  - destruct (prequest_cycle_spec h pnew v k r' n Hwf Hr') as (Hm & Ha & Hc1 & r2 & Hr2 & Hc2).
    eexists _, _, _, _, r2. split; [reflexivity|]. split; [exact Hm|]. split; [exact Ha|].
    split; [exact Hr2|]. split; [by eapply req_core_trans|]. rewrite En. done.
  - eexists v, _, _, _, r'. split; [reflexivity|]. split; [by apply req_moved_refl|].
    split; [done|]. split; [exact Hr'|]. split; [exact Hc|]. split; [apply IsExpired_granted|].
    intros Hrej Hs. apply IsRejected_rejectable in Hrej.
    rewrite (req_rejectable_same r v0 v) in Hrej by apply Hrest.
    destruct (granted (CPaymentRequest_GetLastState h r)) eqn:Eg; [|done].
    rewrite (settled_req h v0 (Hsettled Hs) k r (Hold En) Eg) in Hrej. done.
Qed.

(** A move of the request [k] is one transition of the specification. *)
Lemma prequest_move_refines v upd fund k r1 s f :
  wf_view h pnew v -> GetPaymentRequest v k = Some r1 ->
  dao_trans strict (abs_dao h v fund)
    (mkADao f (abs_props h v) (with_req (abs_dao h v fund) k (abs_req h r1) s)) ->
  let v' := ModifyPaymentRequest v k (set_prequest_state pnew s) in
  let r2 := set_prequest_state pnew s r1 in
  req_moved h pnew k v v' /\ rtc (dao_trans strict) (abs_dao h v fund) (abs_dao h v' f) /\
  upd_at k upd (<[pr_hash r2 := r2]> upd).
Proof.
  intros Hwf Hr1 Htr. pose proof (wf_reqs _ _ _ Hwf _ _ Hr1) as (Hhash1 & _ & _).
  destruct (move_prequest_spec h pnew v k r1 s f fund Hwf Hr1) as [Hm Ha].
  split; [exact Hm|]. split; [rewrite Ha; by apply rtc_once|]. right. cbn. rewrite Hhash1. eauto.
Qed.

Lemma prequest_transition_refines mp v upd fund k r r1 fE fA fR :
  wf_view h pnew v -> v_readable v = true -> coh_props h v0 v mp ->
  GetPaymentRequest v k = Some r1 -> req_core r r1 ->
  (fE = true -> granted (CPaymentRequest_GetLastState h r) = false) ->
  (fR = true -> strict = true -> granted (CPaymentRequest_GetLastState h r) = false) ->
  let acc' := prequest_transition h pnew mp k r (CPaymentRequest_GetLastState h r) fE fA fR (v, upd, fund) in
  req_moved h pnew k v acc'.1.1 /\ rtc (dao_trans strict) (abs_dao h v fund) (abs_dao h acc'.1.1 acc'.2) /\
  upd_at k upd acc'.1.2.
Proof.
  intros Hwf Hrd Hcoh Hr1 Hc HE HR. unfold prequest_transition, move_prequest.
  set (st := CPaymentRequest_GetLastState h r) in *.
  assert (abs_req h r1 = mkAReq (pr_nAmount r) (pr_proposalhash r) st) as Habs.
  { by rewrite (abs_req_core h r r1 Hc). }
  assert (abs_reqs h v !! k = Some (abs_req h r1)) as Hlk by (by rewrite abs_reqs_lookup, Hr1).
  pose proof (wf_reqs _ _ _ Hwf _ _ Hr1) as (Hhash1 & _ & _).
  rewrite (tbl_entry_get (v_prequests v) k r1) by exact Hr1.
  assert (req_moved h pnew k v v /\ rtc (dao_trans strict) (abs_dao h v fund) (abs_dao h v fund) /\
    upd_at k upd upd) as Hstay.
  { split; [by apply req_moved_refl|]. split; [done|by left]. }
  pose proof (fun s f => prequest_move_refines v upd fund k r1 s f Hwf Hr1) as Hstep.
  destruct fE.
  { destruct (negb (st =? EXPIRED) && negb (st =? ACCEPTED) && negb (st =? REJECTED)) eqn:Est; [|done].
    nav_bool. apply Hstep. apply tr_req_expire; [exact Hlk|..]; rewrite Habs; cbn; auto. }
  destruct fR.
  { destruct (negb (st =? REJECTED)) eqn:Est; [|done]. nav_bool.
    apply Hstep. apply tr_req_reject; [exact Hlk|..]; rewrite Habs; cbn; auto. }
  destruct (st =? NIL) eqn:Est; [|done]. nav_bool.
  destruct (mp !! pr_proposalhash r) as [p|] eqn:Ep; [|done].
  destruct (((_ =? ACCEPTED) || _) && fA) eqn:Eacc; [|done].
  destruct ((CProposal_IsSuper p || _) && _) eqn:Efunds; [|done].
  destruct (Hcoh _ _ Ep) as [(p' & Hp' & Hpc) _].
  pose proof (wf_props _ _ _ Hwf _ _ Hp') as (Hph & _ & _).
  pose proof (abs_prop_core h p p' Hpc) as Hpabs.
  rewrite GetAvailable_abs, <- Hpabs in Efunds by done. destruct Hpc as (_ & Hhash & _).
  rewrite <- Hhash, Hph in Efunds.
  replace (if negb (CProposal_IsSuper p) then _ else fund)
    with (move_fund (ap_super (abs_prop h p')) fund 0 (- ar_amount (abs_req h r1))).
  2:{ rewrite Hpabs; unfold move_fund; cbn. destruct (CProposal_IsSuper p); cbn; [done|f_equal; lia]. }
  apply andb_true_iff in Eacc as [Eacc _]. apply andb_true_iff in Efunds as [Elock Eav]. nav_bool.
  apply Hstep. apply tr_req_accept; rewrite ?Habs; cbn [ar_parent ar_state ar_amount ad_reqs ad_props abs_dao ad_fund];
    [by rewrite <- Habs|exact Est|by rewrite abs_props_lookup, Hp'| |exact Eav|];
    rewrite Hpabs; cbn [ap_state ap_super abs_prop].
  - apply orb_true_iff in Eacc as [Eacc|Eacc]; nav_bool; auto.
  - intros Hns. rewrite Hns in Elock; cbn in Elock. by nav_bool.
Qed.

Lemma prequest_step_refines mp v upd fund k r r' acc' :
  wf_view h pnew v -> same_rest v0 v -> coh_props h v0 v mp ->
  GetPaymentRequest v k = Some r' -> req_core r r' ->
  (CPaymentRequest_GetLastState h r <> NIL -> GetPaymentRequest v0 k = Some r) ->
  prequest_step h pnew bnew false pdelete nCycleLength mp (v, upd, fund) (k, r) = Some acc' ->
  req_moved h pnew k v acc'.1.1 /\ rtc (cycle_trans (end_of_cycle bnew nCycleLength) strict) (abs_dao h v fund) (abs_dao h acc'.1.1 acc'.2) /\
  upd_at k upd acc'.1.2.
Proof.
  intros Hwf Hrest Hcoh Hr' Hc Hold Hs. unfold prequest_step in Hs.
  destruct (pr_txblockhash r =? 0).
  { simplify_eq. split; [by apply req_moved_refl|]. split; [done|by left]. }
  destruct (h !! pr_txblockhash r) as [bi|]; cbn [mbind option_bind] in Hs; [|done].
  destruct (prequest_tests v k r (voting_cycles bnew nCycleLength bi (u64 (nCycleLength + 1))) r'
    Hwf Hrest Hr' Hc Hold) as (v1 & fE & fA & fR & r1 & E & Hm & Ha & Hr1 & Hc1 & HE & HR).
  cbn zeta in Hs, E. rewrite E in Hs. clear E. injection Hs as <-.
  destruct (end_of_cycle bnew nCycleLength); cbn [fst snd]; [|split; [done|split; [by rewrite Ha|by left]]].
  destruct (prequest_transition_refines mp v1 upd fund k r r1 fE fA fR) as (Hm2 & Htr & Hu); try done.
  - apply Hm.
  - destruct (rm_rest _ _ _ _ _ Hm) as [_ ->]. destruct Hrest as [_ ->]. exact Hread.
  - intros k' q Hq. unfold GetProposal. rewrite (rm_props _ _ _ _ _ Hm). by apply Hcoh.
  - split; [by eapply req_moved_trans|]. split; [rewrite <- Ha; by apply cycle_trans_last|exact Hu].
Qed.

Lemma prequest_loop_refines mp l v upd fund acc' :
  NoDup l.*1 -> wf_view h pnew v -> same_rest v0 v -> coh_props h v0 v mp ->
  (forall k r, (k, r) ∈ l ->
     (exists r', GetPaymentRequest v k = Some r' /\ req_core r r') /\
     (CPaymentRequest_GetLastState h r <> NIL -> GetPaymentRequest v0 k = Some r)) ->
  foldM (prequest_step h pnew bnew false pdelete nCycleLength mp) (v, upd, fund) l = Some acc' ->
  wf_view h pnew acc'.1.1 /\ same_rest v0 acc'.1.1 /\ v_proposals acc'.1.1 = v_proposals v /\
  rtc (cycle_trans (end_of_cycle bnew nCycleLength) strict) (abs_dao h v fund) (abs_dao h acc'.1.1 acc'.2) /\
  (forall k, is_Some (GetPaymentRequest v k) -> is_Some (GetPaymentRequest acc'.1.1 k)) /\
  (forall k, is_Some (acc'.1.2 !! k) -> is_Some (upd !! k) \/ k ∈ l.*1).
Proof.
  revert v upd fund. induction l as [|[k r] l IH]; intros v upd fund Hnd Hwf Hrest Hcoh Hl Hf.
  { cbn in Hf. simplify_eq. cbn. do 5 (split; [done|]). by left. }
  cbn [foldM] in Hf. apply NoDup_cons in Hnd as [Hk Hnd].
  destruct (prequest_step _ _ _ _ _ _ _ _ _) as [[[v1 upd1] fund1]|] eqn:Es; cbn [mbind option_bind] in Hf; [|done].
  destruct (Hl k r) as [(r' & Hr' & Hc) Hold]; [left|].
  destruct (prequest_step_refines mp v upd fund k r r' _ Hwf Hrest Hcoh Hr' Hc Hold Es) as (Hm & Htr & Hu).
  cbn [fst snd] in *. destruct Hm as [Hwf1 Hrest1 Hprops1 Hother Hdom].
  destruct (IH v1 upd1 fund1) as (Hwf2 & Hrest2 & Hp2 & Htr2 & Hd2 & Hu2); try done.
  - by eapply same_rest_trans.
  - intros k' p' Hp'. unfold GetProposal. rewrite Hprops1. by apply Hcoh.
  - intros k' q Hin. destruct (Hl k' q) as [Hex Hold']; [by right|]. split; [|done].
    rewrite Hother; [done|]. intros ->. apply Hk. apply list_elem_of_fmap. by exists (k, q).
  - split; [done|]. split; [done|]. split; [congruence|]. split; [by etrans|]. split; [auto|].
    intros k' Hk'. cbn. destruct (Hu2 k' Hk') as [Hin|Hin]; [|right; by right].
    destruct (upd_at_dom _ _ _ k' Hu Hin) as [?| ->]; [by left|right; left].
Qed.
End transitions.

(** ** Proposals *)

Record prop_moved (h : BlockMap) (pnew : uint256) (k : uint256) (v v' : View) : Prop := {
  pm_wf : wf_view h pnew v';
  pm_rest : same_rest v v';
  pm_reqs : v_prequests v' = v_prequests v;
  pm_other k' : k' <> k -> GetProposal v' k' = GetProposal v k';
  pm_dom k' : is_Some (GetProposal v k') -> is_Some (GetProposal v' k')
}.

Lemma prop_moved_refl h pnew k v : wf_view h pnew v -> prop_moved h pnew k v v.
Proof. by split. Qed.

Lemma prop_moved_trans h pnew k v1 v2 v3 :
  prop_moved h pnew k v1 v2 -> prop_moved h pnew k v2 v3 -> prop_moved h pnew k v1 v3.
Proof.
  intros [W1 R1 P1 O1 D1] [W2 R2 P2 O2 D2]. split; [done|by eapply same_rest_trans|congruence| |auto].
  intros k' Hne. by rewrite O2, O1.
Qed.

Lemma prop_moved_put h pnew v k p :
  wf_view h pnew v -> wf_prop h pnew k p ->
  prop_moved h pnew k v (set_v_proposals v (<[k := p]> (v_proposals v))).
Proof.
  intros Hwf Hw. split; [by apply wf_put_prop|done|done| |]; intros k' Hk';
    rewrite GetProposal_put by apply Hw; [by rewrite decide_False|].
  destruct (decide (k = k')); [by eexists|done].
Qed.

Lemma wf_prop_state h pnew k p s : wf_prop h pnew k p -> wf_prop h pnew k (CProposal_SetState p pnew s).
Proof. intros (Hh & Hs & Ha). split; [done|]. split; [done|]. by apply above_insert. Qed.

(** [f] is a change of state, with or without the dirty flag. *)
Lemma move_proposal_spec h pnew v k p s f fund fund0 :
  wf_view h pnew v -> GetProposal v k = Some p -> prop_core (CProposal_SetState p pnew s) (f p) ->
  let v' := ModifyProposal v k f in
  prop_moved h pnew k v v' /\
  abs_dao h v' fund = mkADao fund (with_prop (abs_dao h v fund0) k (abs_prop h p) s) (abs_reqs h v).
Proof.
  intros Hwf Hp Hf v'. pose proof (wf_prop_state h pnew k p s (wf_props _ _ _ Hwf k p Hp)) as Hw.
  pose proof (wf_prop_core _ _ _ _ _ Hf Hw) as Hw1.
  destruct (ModifyProposal_spec h pnew v k p f Hp Hw1) as (p' & E & Hc).
  subst v'. rewrite E. pose proof (wf_prop_core _ _ _ _ _ Hc Hw1) as Hw'.
  split; [by apply prop_moved_put|]. rewrite abs_put_prop by apply Hw'.
  unfold with_prop; cbn. rewrite (abs_prop_core h _ p' Hc), (abs_prop_core h _ _ Hf). f_equal. f_equal.
  unfold abs_prop; cbn. f_equal. apply last_state_insert. apply (wf_props _ _ _ Hwf k p Hp).
Qed.

Lemma proposal_cycle_spec h pnew v k p n :
  wf_view h pnew v -> GetProposal v k = Some p ->
  let v2 := ModifyProposal v k (set_proposal_cycle n) in
  prop_moved h pnew k v v2 /\ (forall fund, abs_dao h v2 fund = abs_dao h v fund) /\
  exists p2, GetProposal v2 k = Some p2 /\ prop_core p p2.
Proof.
  intros Hwf Hp. cbn zeta. pose proof (wf_props _ _ _ Hwf k p Hp) as Hw.
  assert (prop_core p (set_proposal_cycle n p)) as Hc by done.
  pose proof (wf_prop_core _ _ _ _ _ Hc Hw) as Hw1.
  destruct (ModifyProposal_spec h pnew v k p _ Hp Hw1) as (p2 & -> & Hc2).
  pose proof (wf_prop_core _ _ _ _ _ Hc2 Hw1) as Hw2. pose proof (prop_core_trans _ _ _ Hc Hc2) as Hc3.
  split; [by apply prop_moved_put|]. split; [apply (votes_changed_prop h pnew v k p p2 Hwf Hp Hc3)|].
  exists p2. rewrite GetProposal_put by apply Hw2. by rewrite decide_True.
Qed.

Lemma pending_loop_state {params : Params} h p v l :
  pending_loop h p v l = true ->
  exists q, GetProposal v (p_hash p) = Some q /\
    (CProposal_GetLastState h q = ACCEPTED \/ CProposal_GetLastState h q = PENDING_VOTING_PREQ).
Proof.
  induction l as [|[k r0] l IH]; cbn; [done|].
  destruct (GetPaymentRequest v k) as [r|]; [|done].
  destruct (pr_proposalhash r =? p_hash p) eqn:Eh; cbn; [|done]. nav_bool.
  destruct (CPaymentRequest_CanVote h r v) eqn:Ec; [|done]. intros _.
  unfold CPaymentRequest_CanVote in Ec. rewrite Eh in Ec.
  destruct (GetProposal v (p_hash p)) as [q|]; [|done]. exists q. split; [done|].
  apply andb_true_iff in Ec as [_ Ec]. apply orb_true_iff in Ec as [Ec|Ec]; nav_bool; auto.
Qed.

Lemma HasPending_state {params : Params} h p v :
  CProposal_HasPendingPaymentRequests h p v = true ->
  exists q, GetProposal v (p_hash p) = Some q /\
    (CProposal_GetLastState h q = ACCEPTED \/ CProposal_GetLastState h q = PENDING_VOTING_PREQ).
Proof.
  unfold CProposal_HasPendingPaymentRequests. destruct (GetAllPaymentRequests v); [|done].
  apply pending_loop_state.
Qed.

Lemma prop_rejectable_same {params : Params} p v v' :
  v_consensus v' = v_consensus v -> prop_rejectable p v' = prop_rejectable p v.
Proof. intros E. unfold prop_rejectable. by rewrite (GetConsensusParameter_same v v'). Qed.

Section proposal_transitions.
Context {params : Params} (h : BlockMap) (pnew : uint256) (bnew : CBlockIndex) (pdelete : uint256)
  (nCycleLength : Z) (strict : bool) (v0 : View).
Context (Hsettled : strict = true -> settled h v0) (Hread : v_readable v0 = true).

(** A move of the proposal [k] is one transition of the specification. *)
Lemma proposal_move_refines v upd fund k p1 s g f :
  wf_view h pnew v -> GetProposal v k = Some p1 ->
  prop_core (CProposal_SetState p1 pnew s) (g p1) ->
  dao_trans strict (abs_dao h v fund)
    (mkADao f (with_prop (abs_dao h v fund) k (abs_prop h p1) s) (abs_reqs h v)) ->
  let v' := ModifyProposal v k g in
  prop_moved h pnew k v v' /\ rtc (dao_trans strict) (abs_dao h v fund) (abs_dao h v' f) /\
  upd_at k upd (<[p_hash (g p1) := g p1]> upd).
Proof.
  intros Hwf Hp1 Hg Htr. pose proof (wf_props _ _ _ Hwf _ _ Hp1) as (Hph & _ & _).
  destruct (move_proposal_spec h pnew v k p1 s g f fund Hwf Hp1 Hg) as [Hm Ha].
  split; [exact Hm|]. split; [rewrite Ha; by apply rtc_once|]. right.
  destruct Hg as (_ & -> & _). cbn. rewrite Hph. eauto.
Qed.

Lemma proposal_transition_refines v upd fund k p p1 fE fA fR :
  wf_view h pnew v -> v_readable v = true -> GetProposal v k = Some p1 -> prop_core p p1 ->
  (fR = true -> strict = true ->
     CProposal_GetLastState h p <> ACCEPTED /\ CProposal_GetLastState h p <> PENDING_VOTING_PREQ) ->
  let acc' := proposal_transition h pnew k p (CProposal_GetLastState h p) fE fA fR (v, upd, fund) in
  prop_moved h pnew k v acc'.1.1 /\ rtc (dao_trans strict) (abs_dao h v fund) (abs_dao h acc'.1.1 acc'.2) /\
  upd_at k upd acc'.1.2.
Proof.
  intros Hwf Hrd Hp1 Hc HR. unfold proposal_transition, move_proposal.
  set (st := CProposal_GetLastState h p) in *.
  pose proof (wf_props _ _ _ Hwf _ _ Hp1) as (Hph & _ & _).
  assert (p_hash p = k) as Hpk by (destruct Hc as (_ & <- & _); done).
  pose proof (abs_prop_core h p p1 Hc) as Habs.
  assert (ap_state (abs_prop h p1) = st) as Hst by (by rewrite Habs).
  assert (abs_props h v !! k = Some (abs_prop h p1)) as Hlk by (by rewrite abs_props_lookup, Hp1).
  rewrite (tbl_entry_get (v_proposals v) k p1) by exact Hp1. rewrite !GetAvailable_abs by done.
  rewrite Hph, Hpk, <- Habs.
  assert (CProposal_IsSuper p = CProposal_IsSuper p1) as -> by (by injection Habs).
  assert (prop_moved h pnew k v v /\ rtc (dao_trans strict) (abs_dao h v fund) (abs_dao h v fund) /\
    upd_at k upd upd) as Hstay.
  { split; [by apply prop_moved_refl|]. split; [done|by left]. }
  pose proof (fun s g f => proposal_move_refines v upd fund k p1 s g f Hwf Hp1) as Hstep.
  destruct fE.
  { destruct (negb (st =? EXPIRED) && negb (st =? ACCEPTED_EXPIRED) && negb (st =? REJECTED)) eqn:Est; [|done].
    nav_bool. destruct (CProposal_HasPendingPaymentRequests h p v) eqn:Epend.
    { apply HasPending_state in Epend as (q & Hq & Hqs). rewrite Hpk, Hp1 in Hq. injection Hq as <-.
      apply (Hstep PENDING_VOTING_PREQ); [done|]. by apply tr_prop_pending. }
    destruct ((st =? ACCEPTED) || (st =? PENDING_VOTING_PREQ)) eqn:Elive.
    - apply orb_true_iff in Elive. apply (Hstep ACCEPTED_EXPIRED); [done|].
      replace (if negb (CProposal_IsSuper p1) then _ else fund)
        with (move_fund (ap_super (abs_prop h p1)) fund (available (abs_reqs h v) k (abs_prop h p1))
                (- available (abs_reqs h v) k (abs_prop h p1)))
        by (unfold move_fund; cbn; destruct (CProposal_IsSuper p1); done).
      apply tr_prop_release; [exact Hlk|]. rewrite Hst. destruct Elive; nav_bool; auto.
    - nav_bool. apply (Hstep EXPIRED); [done|]. apply tr_prop_expire; rewrite ?Hst; done. }
  destruct fR.
  { destruct (negb (st =? REJECTED)) eqn:Est; [|done]. nav_bool.
    apply (Hstep REJECTED); [done|]. apply tr_prop_reject; rewrite ?Hst; auto. }
  destruct fA; [|done]. destruct ((st =? NIL) || (st =? PENDING_FUNDS)) eqn:Enil; [|done].
  destruct ((negb (CProposal_IsSuper p1) && _) || _) eqn:Efund.
  - apply (Hstep ACCEPTED); [done|].
    replace (if negb (CProposal_IsSuper p1) then _ else fund)
      with (move_fund (ap_super (abs_prop h p1)) fund (- available (abs_reqs h v) k (abs_prop h p1))
              (available (abs_reqs h v) k (abs_prop h p1)))
      by (unfold move_fund; cbn; destruct (CProposal_IsSuper p1); done).
    apply tr_prop_accept; [exact Hlk|rewrite Hst; apply orb_true_iff in Enil as [?|?]; nav_bool; auto|].
    cbn [ap_super abs_prop]. intros Hns. rewrite Hns in Efund; cbn in Efund.
    rewrite orb_false_r in Efund. by nav_bool.
  - destruct (negb (st =? PENDING_FUNDS)) eqn:Ew; [|done]. nav_bool.
    apply (Hstep PENDING_FUNDS); [done|]. apply tr_prop_wait; [exact Hlk|]. rewrite Hst.
    apply orb_true_iff in Enil as [?|?]; nav_bool; done.
Qed.

Lemma proposal_step_refines v upd fund k p p' acc' :
  wf_view h pnew v -> same_rest v0 v -> GetProposal v k = Some p' -> prop_core p p' ->
  (CProposal_GetLastState h p <> NIL -> GetProposal v0 k = Some p) ->
  proposal_step h pnew bnew false pdelete nCycleLength (v, upd, fund) (k, p) = Some acc' ->
  prop_moved h pnew k v acc'.1.1 /\ rtc (cycle_trans (end_of_cycle bnew nCycleLength) strict) (abs_dao h v fund) (abs_dao h acc'.1.1 acc'.2) /\
  upd_at k upd acc'.1.2.
Proof.
  intros Hwf Hrest Hp' Hc Hold Hs. unfold proposal_step in Hs.
  destruct (p_txblockhash p =? 0).
  { simplify_eq. split; [by apply prop_moved_refl|]. split; [done|by left]. }
  destruct (h !! p_txblockhash p) as [bi|].
  2:{ simplify_eq. split; [by apply prop_moved_refl|]. split; [done|by left]. }
  destruct (CProposal_IsExpired h p (nTime bnew) v) as [fE|]; cbn [mbind option_bind] in Hs; [|done].
  assert (exists v1 upd1 p1, (if CProposal_GetLastState h p =? NIL
      then move_proposal v upd k (set_proposal_cycle (voting_cycles bnew nCycleLength bi (PROPOSAL_MAX_CYCLES v)))
      else (v, upd)) = (v1, upd1) /\
    prop_moved h pnew k v v1 /\ (forall fund, abs_dao h v1 fund = abs_dao h v fund) /\
    GetProposal v1 k = Some p1 /\ prop_core p p1 /\ upd_at k upd upd1)
    as (v1 & upd1 & p1 & E & Hm & Ha & Hp1 & Hc1 & Hu1).
  { destruct (CProposal_GetLastState h p =? NIL).
    - destruct (proposal_cycle_spec h pnew v k p' (voting_cycles bnew nCycleLength bi (PROPOSAL_MAX_CYCLES v))
        Hwf Hp') as (Hm & Ha & p2 & Hp2 & Hc2).
      eexists _, _, p2. split; [reflexivity|]. do 3 (split; [done|]). split; [by eapply prop_core_trans|].
      right. rewrite (tbl_entry_get (v_proposals v) k p') by exact Hp'. cbn.
      destruct (wf_props _ _ _ Hwf _ _ Hp') as (-> & _). eauto.
    - exists v, upd, p'. split; [done|]. split; [by apply prop_moved_refl|]. do 3 (split; [done|]). by left. }
  cbn zeta in Hs. rewrite E in Hs. injection Hs as <-.
  destruct (end_of_cycle bnew nCycleLength); cbn [fst snd]; [|split; [done|split; [by rewrite Ha|done]]].
  destruct (proposal_transition_refines v1 upd1 fund k p p1 fE (CProposal_IsAccepted p v) (CProposal_IsRejected p v))
    as (Hm2 & Htr & Hu2); try done.
  - apply Hm.
  - destruct (pm_rest _ _ _ _ _ Hm) as [_ ->]. destruct Hrest as [_ ->]. exact Hread.
  - intros Hrej Hstr. assert (prop_rejectable p v0 = true) as Hr.
    { unfold CProposal_IsRejected in Hrej. apply andb_true_iff in Hrej as [_ Hrej].
      by rewrite <- (prop_rejectable_same p v0 v) by apply Hrest. }
    split; intros Est; assert (GetProposal v0 k = Some p) as Hv0 by (apply Hold; by rewrite Est);
      rewrite (settled_prop h v0 (Hsettled Hstr) k p Hv0) in Hr by auto; done.
  - split; [by eapply prop_moved_trans|]. split; [rewrite <- Ha; by apply cycle_trans_last|by eapply upd_at_trans].
Qed.

Lemma proposal_loop_refines l v upd fund acc' :
  NoDup l.*1 -> wf_view h pnew v -> same_rest v0 v ->
  (forall k p, (k, p) ∈ l ->
     (exists p', GetProposal v k = Some p' /\ prop_core p p') /\
     (CProposal_GetLastState h p <> NIL -> GetProposal v0 k = Some p)) ->
  foldM (proposal_step h pnew bnew false pdelete nCycleLength) (v, upd, fund) l = Some acc' ->
  wf_view h pnew acc'.1.1 /\ same_rest v0 acc'.1.1 /\ v_prequests acc'.1.1 = v_prequests v /\
  rtc (cycle_trans (end_of_cycle bnew nCycleLength) strict) (abs_dao h v fund) (abs_dao h acc'.1.1 acc'.2) /\
  (forall k, is_Some (GetProposal v k) -> is_Some (GetProposal acc'.1.1 k)) /\
  (forall k, is_Some (acc'.1.2 !! k) -> is_Some (upd !! k) \/ k ∈ l.*1).
Proof.
  revert v upd fund. induction l as [|[k p] l IH]; intros v upd fund Hnd Hwf Hrest Hl Hf.
  { cbn in Hf. simplify_eq. cbn. do 5 (split; [done|]). by left. }
  cbn [foldM] in Hf. apply NoDup_cons in Hnd as [Hk Hnd].
  destruct (proposal_step _ _ _ _ _ _ _ _) as [[[v1 upd1] fund1]|] eqn:Es; cbn [mbind option_bind] in Hf; [|done].
  destruct (Hl k p) as [(p' & Hp' & Hc) Hold]; [left|].
  destruct (proposal_step_refines v upd fund k p p' _ Hwf Hrest Hp' Hc Hold Es) as (Hm & Htr & Hu).
  cbn [fst snd] in *. destruct Hm as [Hwf1 Hrest1 Hreqs1 Hother Hdom].
  destruct (IH v1 upd1 fund1) as (Hwf2 & Hrest2 & Hr2 & Htr2 & Hd2 & Hu2); try done.
  - by eapply same_rest_trans.
  - intros k' q Hin. destruct (Hl k' q) as [Hex Hold']; [by right|]. split; [|done].
    rewrite Hother; [done|]. intros ->. apply Hk. apply list_elem_of_fmap. by exists (k, q).
  - split; [done|]. split; [done|]. split; [congruence|]. split; [by etrans|]. split; [auto|].
    intros k' Hk'. cbn. destruct (Hu2 k' Hk') as [Hin|Hin]; [|right; by right].
    destruct (upd_at_dom _ _ _ k' Hu Hin) as [?| ->]; [by left|right; left].
Qed.
End proposal_transitions.

(** ** The loops over consultations leave proposals and requests alone *)

Definition same_funds (v v' : View) : Prop :=
  v_proposals v' = v_proposals v /\ v_prequests v' = v_prequests v /\ same_rest v v'.

Lemma same_funds_refl v : same_funds v v.
Proof. done. Qed.
Lemma same_funds_trans v1 v2 v3 : same_funds v1 v2 -> same_funds v2 v3 -> same_funds v1 v3.
Proof. unfold same_funds, same_rest. intuition congruence. Qed.
#[export] Hint Resolve same_funds_refl : nav.

Lemma same_tables_abs h v v' fund :
  v_proposals v' = v_proposals v -> v_prequests v' = v_prequests v -> abs_dao h v' fund = abs_dao h v fund.
Proof. intros E1 E2. unfold abs_dao, abs_props, abs_reqs. by rewrite E1, E2. Qed.

Lemma same_tables_wf h pnew v v' :
  v_proposals v' = v_proposals v -> v_prequests v' = v_prequests v -> wf_view h pnew v -> wf_view h pnew v'.
Proof.
  intros E1 E2 [H1 H2].
  split; intros k x; unfold GetProposal, GetPaymentRequest; rewrite ?E1, ?E2; [apply H1|apply H2].
Qed.

Lemma same_funds_votes h pnew v0 v v' :
  votes_changed h pnew v0 v -> same_funds v v' -> votes_changed h pnew v0 v'.
Proof.
  intros [W R A] (E1 & E2 & R'). split; [by eapply same_tables_wf|by eapply same_rest_trans|].
  intros fund. by rewrite (same_tables_abs h v).
Qed.

(** Case analysis on every branch of a loop body, innermost test first. *)
Ltac branch x := lazymatch x with context [match _ with _ => _ end] => fail | _ => destruct x end.
Ltac by_cases :=
  repeat match goal with
  | |- context [match ?x with _ => _ end] => branch x
  | H : context [match ?x with _ => _ end] |- _ => branch x
  end.

Lemma same_ModifyConsultation v v' k f : same_funds v v' -> same_funds v (ModifyConsultation v' k f).
Proof. intros (E1 & E2 & E3 & E4). by repeat split. Qed.
Lemma same_ModifyConsultationAnswer v v' k f : same_funds v v' -> same_funds v (ModifyConsultationAnswer v' k f).
Proof. intros (E1 & E2 & E3 & E4). by repeat split. Qed.

Ltac same_tac :=
  cbn [fst snd ca_view];
  repeat lazymatch goal with
  | |- same_funds _ (ModifyConsultation _ _ _) => apply same_ModifyConsultation
  | |- same_funds _ (ModifyConsultationAnswer _ _ _) => apply same_ModifyConsultationAnswer
  end;
  apply same_funds_refl.

Section consultations.
Context {params : Params} (h : BlockMap) (pnew : uint256) (bnew : CBlockIndex) (fUndo : bool)
  (pdelete : uint256) (nCycleLength : Z).

Lemma support_step_same mc ma acc it :
  same_funds (ca_view acc) (ca_view (support_step h bnew fUndo pdelete nCycleLength mc ma acc it)).
Proof. destruct acc. unfold support_step. by_cases; same_tac. Qed.

Lemma consultation_votes_step_same whole mc ma acc it :
  same_funds (ca_view acc) (ca_view (consultation_votes_step h bnew fUndo pdelete nCycleLength whole mc ma acc it)).
Proof. destruct acc, it as [[k vote] n]. unfold consultation_votes_step. by_cases; same_tac. Qed.

Lemma answer_step_same mc acc it acc' :
  answer_step h pnew bnew fUndo pdelete nCycleLength mc acc it = Some acc' -> same_funds acc.1.1 acc'.1.1.
Proof.
  destruct acc as [[v upd] m], it as [k a]. unfold answer_step, move_answer. intros Hs.
  by_cases; try (apply (inj Some) in Hs; subst acc'; same_tac).
  all: apply bind_Some in Hs as (m' & _ & Hs); apply (inj Some) in Hs; subst acc'; same_tac.
Qed.

Lemma consultation_step_same mch acc it acc' :
  consultation_step h pnew bnew fUndo pdelete nCycleLength mch acc it = Some acc' -> same_funds acc.1 acc'.1.
Proof.
  destruct acc as [v upd], it as [k c]. unfold consultation_step, move_consultation. intros Hs.
  destruct (c_txblockhash c =? 0); [apply (inj Some) in Hs; subst acc'; same_tac|].
  destruct (h !! c_txblockhash c); [|apply (inj Some) in Hs; subst acc'; same_tac].
  destruct (CConsultation_IsExpired h c bnew v); cbn [mbind option_bind] in Hs; [|done].
  destruct (CConsultation_IsReflectionOver h c bnew v); cbn [mbind option_bind] in Hs; [|done].
  by_cases; apply (inj Some) in Hs; subst acc'; same_tac.
Qed.

Lemma restart_consultation_same seen seenS acc it :
  same_funds acc.1 (restart_consultation h seen seenS acc it).1.
Proof. destruct acc as [v l], it as [k c]. unfold restart_consultation. by_cases; same_tac. Qed.

Lemma restart_answer_same seen seenS l v it : same_funds v (restart_answer h seen seenS l v it).
Proof. destruct it as [k a]. unfold restart_answer. by_cases; same_tac. Qed.
End consultations.

(** ** The four parts of the function *)

Section parts.
Context {params : Params} (h : BlockMap) (bv : BlockVotes) (hash_params : list Z -> uint256).
Context (pnew : uint256) (bnew : CBlockIndex) (pdelete : uint256) (nCycleLength : Z).
Context (fCFund fDAOConsultations : bool).

(** The maps at the start of the call. *)
Definition maps_of (v : View) (m : DaoMaps) : Prop :=
  fCFund = true -> m_proposals m = tbl_all (v_proposals v) /\ m_prequests m = tbl_all (v_prequests v).

Lemma VoteStep_maps_of v m :
  VoteStep_maps fCFund fDAOConsultations v = Some m ->
  maps_of v m /\ (fCFund = true -> v_readable v = true).
Proof.
  intros Hm. unfold VoteStep_maps in Hm. apply bind_Some in Hm as ([a b] & H1 & Hm).
  apply bind_Some in Hm as ([c d] & _ & Hm). apply (inj Some) in Hm. subst m.
  unfold maps_of; cbn [m_proposals m_prequests]. destruct fCFund; [|done].
  unfold GetAllProposals, GetAllPaymentRequests in H1. destruct (v_readable v); [|done].
  cbn in H1. injection H1 as <- <-. done.
Qed.

(** The maps after the counters were written. *)
Definition maps_coh (v0 v : View) (m : DaoMaps) : Prop :=
  fCFund = true -> coh_props h v0 v (m_proposals m) /\ coh_reqs h v0 v (m_prequests m).

Lemma fund_counters_spec v0 m g v1 m1 seen1 :
  wf_view h pnew v0 -> maps_of v0 m ->
  (if fCFund then
     let '(v, updP, seen) := foldl (proposal_votes_step h bnew false pdelete nCycleLength (m_proposals m))
       (v0, ∅, ∅) (elems (mapCacheProposalsToUpdate g)) in
     do '(v, updPr, seen) <- foldM (prequest_votes_step h bnew false pdelete nCycleLength (m_prequests m))
       (v, ∅, seen) (elems (mapCachePaymentRequestToUpdate g));
     Some (v, mkDaoMaps (assign_all (m_proposals m) updP) (assign_all (m_prequests m) updPr)
                (m_consultations m) (m_answers m), seen)
   else Some (v0, m, ∅)) = Some (v1, m1, seen1) ->
  votes_changed h pnew v0 v1 /\ maps_coh v0 v1 m1.
Proof.
  intros Hwf Hm Hs. unfold maps_coh, maps_of in *. destruct fCFund.
  2:{ simplify_eq. split; [by apply votes_changed_refl|done]. }
  destruct (Hm eq_refl) as [Ep Er]. rewrite Ep, Er in Hs.
  assert (props_inv h pnew v0 (tbl_all (v_proposals v0))
    (foldl (proposal_votes_step h bnew false pdelete nCycleLength (tbl_all (v_proposals v0)))
       (v0, ∅, ∅) (elems (mapCacheProposalsToUpdate g)))) as Hp.
  { apply foldl_ind; [intros t x _; apply proposal_votes_step_inv|].
    split; [by apply votes_changed_refl|]. split; [|done]. rewrite (left_id_L ∅ (∪)). apply coh_props_all. }
  destruct (foldl _ _ _) as [[v' updP] seen']. destruct Hp as (Hvc & Hcp & Hreq).
  rewrite <- Hreq in Hs.
  destruct (foldM _ _ _) as [[[v'' updPr] seen'']|] eqn:Efold; cbn [mbind option_bind] in Hs; [|done].
  assert (reqs_inv h pnew v0 v' (tbl_all (v_prequests v')) (v'', updPr, seen'')) as (Hvc2 & Hcr & Hpp).
  { refine (foldM_ind _ (reqs_inv h pnew v0 v' (tbl_all (v_prequests v'))) _ _ _ _ _ Efold).
    - intros t x t' _. apply prequest_votes_step_inv.
    - split; [apply votes_changed_refl, Hvc|]. split; [|done]. rewrite (left_id_L ∅ (∪)), Hreq.
      intros k r Hr. unfold GetPaymentRequest. rewrite Hreq. by apply coh_reqs_all. }
  apply (inj Some) in Hs. injection Hs as <- <- <-. cbn [m_proposals m_prequests].
  split; [by eapply votes_changed_trans|]. intros _. rewrite !assign_all_union. split; [|exact Hcr].
  intros k p Hp. unfold GetProposal. rewrite Hpp. by apply Hcp.
Qed.

Lemma VoteStep_update_spec v0 m g whole v m' seen seenS :
  wf_view h pnew v0 -> maps_of v0 m ->
  VoteStep_update h bnew false pdelete nCycleLength fCFund fDAOConsultations whole g v0 m =
    Some (v, m', seen, seenS) ->
  votes_changed h pnew v0 v /\ maps_coh v0 v m'.
Proof.
  intros Hwf Hm Hs. unfold VoteStep_update in Hs. apply bind_Some in Hs as ([[v1 m1] seen1] & Hfund & Hs).
  destruct (fund_counters_spec v0 m g v1 m1 seen1 Hwf Hm Hfund) as [Hvc Hcoh]. clear Hfund.
  assert (exists v2, v = SetExcludeVotes v2 (nCacheExclude g) /\ same_funds v1 v2 /\
    m_proposals m' = m_proposals m1 /\ m_prequests m' = m_prequests m1) as (v2 & -> & Hsame & Ep & Er).
  { destruct fDAOConsultations; apply (inj Some) in Hs; [|by simplify_eq; eexists].
    injection Hs as <- <- _ _. eexists. split; [reflexivity|]. split; [|done].
    set (s := foldl (support_step _ _ _ _ _ _ _) _ _).
    eapply (same_funds_trans _ (ca_view s)).
    - apply (foldl_ind _ (fun a => same_funds v1 (ca_view a))); [|done].
      intros t x _ Ht. eapply same_funds_trans; [exact Ht|apply support_step_same].
    - apply (foldl_ind _ (fun a => same_funds (ca_view s) (ca_view a))); [|done].
      intros t x _ Ht. eapply same_funds_trans; [exact Ht|apply consultation_votes_step_same]. }
  assert (same_funds v1 (SetExcludeVotes v2 (nCacheExclude g))) as Hsame'.
  { destruct Hsame as (? & ? & ? & ?). by repeat split. }
  split; [by eapply same_funds_votes|]. intros Hf. rewrite Ep, Er.
  destruct (Hcoh Hf) as [Hcp Hcr]. destruct Hsame' as (E1 & E2 & _).
  split; intros k x Hx; unfold GetProposal, GetPaymentRequest; rewrite ?E1, ?E2; [by apply Hcp|by apply Hcr].
Qed.

(** Every key of the maps is a key of the view. *)
Definition maps_in (v : View) (m : DaoMaps) : Prop :=
  fCFund = true ->
  (forall k p, m_proposals m !! k = Some p -> is_Some (GetProposal v k)) /\
  (forall k r, m_prequests m !! k = Some r -> is_Some (GetPaymentRequest v k)).

Section states.
Context (strict : bool) (v0 : View) (Hsettled : strict = true -> settled h v0).

Lemma fund_states_spec v m fund v1 m1 fund1 :
  (fCFund = true -> v_readable v0 = true) -> votes_changed h pnew v0 v -> maps_coh v0 v m ->
  (if fCFund then
     do '(v, updPr, fund) <- foldM (prequest_step h pnew bnew false pdelete nCycleLength (m_proposals m))
       (v, ∅, fund) (elems (m_prequests m));
     do '(v, updP, fund) <- foldM (proposal_step h pnew bnew false pdelete nCycleLength)
       (v, ∅, fund) (elems (m_proposals m));
     Some (v, mkDaoMaps (assign_all (m_proposals m) updP) (assign_all (m_prequests m) updPr)
                (m_consultations m) (m_answers m), fund)
   else Some (v, m, fund)) = Some (v1, m1, fund1) ->
  wf_view h pnew v1 /\ maps_in v1 m1 /\ rtc (cycle_trans (end_of_cycle bnew nCycleLength) strict) (abs_dao h v fund) (abs_dao h v1 fund1).
Proof.
  intros Hread Hvc Hcoh Hs. unfold maps_in, maps_coh in *. destruct fCFund.
  2:{ injection Hs as <- <- <-. split; [apply Hvc|done]. }
  destruct (Hcoh eq_refl) as [Hcp Hcr]. specialize (Hread eq_refl).
  apply bind_Some in Hs as ([[v2 updPr] fund2] & Hl1 & Hs).
  apply bind_Some in Hs as ([[v3 updP] fund3] & Hl2 & Hs). apply (inj Some) in Hs. injection Hs as <- <- <-.
  apply (prequest_loop_refines h pnew bnew pdelete nCycleLength strict v0 Hsettled Hread) in Hl1
    as (Hwf2 & Hrest2 & Hp2 & Htr2 & Hd2 & Hu2); [|apply elems_NoDup|apply Hvc|apply Hvc|exact Hcp|].
  2:{ intros k r Hin. apply elem_of_elems in Hin. by apply Hcr. }
  cbn [fst snd] in *.
  apply (proposal_loop_refines h pnew bnew pdelete nCycleLength strict v0 Hsettled Hread) in Hl2
    as (Hwf3 & Hrest3 & Hr3 & Htr3 & Hd3 & Hu3); [|apply elems_NoDup|done|done|].
  2:{ intros k p Hin. apply elem_of_elems in Hin. unfold GetProposal. rewrite Hp2. by apply Hcp. }
  cbn [fst snd] in *. split; [done|]. split; [|by etrans]. intros _. cbn [m_proposals m_prequests].
  rewrite !assign_all_union. split; intros k x Hx; apply lookup_union_Some_raw in Hx as [Hx|[_ Hx]].
  - destruct (Hu3 k) as [Hu|Hu]; [by eexists|by rewrite lookup_empty in Hu; destruct Hu|].
    apply elem_of_elems_fst in Hu as [p Hp]. destruct (Hcp k p Hp) as [(p' & Hp' & _) _].
    apply Hd3. unfold GetProposal in *. rewrite Hp2. by eexists.
  - destruct (Hcp k x Hx) as [(p' & Hp' & _) _]. apply Hd3. unfold GetProposal in *. rewrite Hp2. by eexists.
  - destruct (Hu2 k) as [Hu|Hu]; [by eexists|by rewrite lookup_empty in Hu; destruct Hu|].
    apply elem_of_elems_fst in Hu as [r Hr]. destruct (Hcr k r Hr) as [(r' & Hr' & _) _].
    unfold GetPaymentRequest at 1. rewrite Hr3. apply Hd2. by eexists.
  - destruct (Hcr k x Hx) as [(r' & Hr' & _) _].
    unfold GetPaymentRequest at 1. rewrite Hr3. apply Hd2. by eexists.
Qed.

Lemma VoteStep_states_spec v m fund v1 m1 fund1 mch :
  (fCFund = true -> v_readable v0 = true) -> votes_changed h pnew v0 v -> maps_coh v0 v m ->
  VoteStep_states h pnew bnew false pdelete nCycleLength fCFund fDAOConsultations v m fund =
    Some (v1, m1, fund1, mch) ->
  wf_view h pnew v1 /\ maps_in v1 m1 /\ rtc (cycle_trans (end_of_cycle bnew nCycleLength) strict) (abs_dao h v fund) (abs_dao h v1 fund1).
Proof.
  intros Hread Hvc Hcoh Hs. unfold VoteStep_states in Hs.
  apply bind_Some in Hs as ([[v2 m2] fund2] & Hfund & Hs).
  destruct (fund_states_spec v m fund v2 m2 fund2 Hread Hvc Hcoh Hfund) as (Hwf & Hin & Htr). clear Hfund.
  assert (same_funds v2 v1 /\ m_proposals m1 = m_proposals m2 /\ m_prequests m1 = m_prequests m2 /\
    fund1 = fund2) as ((E1 & E2 & _) & Ep & Er & ->).
  { destruct fDAOConsultations; [|by injection Hs as <- <- <- _].
    apply bind_Some in Hs as ([[v3 updA] mch'] & Hl1 & Hs).
    apply bind_Some in Hs as ([v4 updC] & Hl2 & Hs). apply (inj Some) in Hs. injection Hs as <- <- <- _.
    split; [|done].
    apply (foldM_ind _ (fun a => same_funds v2 a.1.1)) in Hl1; [|intros ??? _ ??|done];
      [|eapply same_funds_trans; [eassumption|by eapply answer_step_same]].
    apply (foldM_ind _ (fun a => same_funds v3 a.1)) in Hl2; [|intros ??? _ ??|done];
      [|eapply same_funds_trans; [eassumption|by eapply consultation_step_same]].
    by eapply same_funds_trans. }
  split; [by eapply same_tables_wf|]. split.
  - intros Hf. rewrite Ep, Er. destruct (Hin Hf) as [H1 H2].
    split; intros k x Hx; unfold GetProposal, GetPaymentRequest; rewrite ?E1, ?E2;
      [by apply (H1 k x)|by apply (H2 k x)].
  - by rewrite (same_tables_abs h v2 v1).
Qed.
End states.
End parts.

(** ** The restart of the counters *)

Lemma restart_prequest_inv {params : Params} h pnew seen v0 v it :
  votes_changed h pnew v0 v -> is_Some (GetPaymentRequest v0 it.1) ->
  votes_changed h pnew v0 (restart_prequest h seen v it).
Proof.
  intros Hvc [r Hr]. unfold restart_prequest. destruct (_ && _); [|done].
  destruct (abs_same_req h v0 v (mkFund 0 0) it.1 r (vc_abs _ _ _ _ Hvc _) Hr) as (r' & Hr' & _).
  pose proof (wf_reqs _ _ _ (vc_wf _ _ _ _ Hvc) _ _ Hr') as Hw.
  match goal with |- votes_changed _ _ _ (ModifyPaymentRequest _ _ ?f) =>
    assert (req_core r' (f r')) as Hc by done;
    destruct (ModifyPaymentRequest_spec h pnew v it.1 r' f Hr') as (r2 & -> & Hc2);
      [by eapply wf_req_core|] end.
  eapply votes_changed_trans; [exact Hvc|].
  eapply votes_changed_req; [apply Hvc|exact Hr'|by eapply req_core_trans].
Qed.

Lemma restart_proposal_inv {params : Params} h pnew seen v0 v it :
  votes_changed h pnew v0 v -> is_Some (GetProposal v0 it.1) ->
  votes_changed h pnew v0 (restart_proposal h seen v it).
Proof.
  intros Hvc [p Hp]. unfold restart_proposal. destruct (_ && _); [|done].
  destruct (abs_same_prop h v0 v (mkFund 0 0) it.1 p (vc_abs _ _ _ _ Hvc _) Hp) as (p' & Hp' & _).
  pose proof (wf_props _ _ _ (vc_wf _ _ _ _ Hvc) _ _ Hp') as Hw.
  match goal with |- votes_changed _ _ _ (ModifyProposal _ _ ?f) =>
    assert (prop_core p' (f p')) as Hc by done;
    destruct (ModifyProposal_spec h pnew v it.1 p' f Hp') as (p2 & -> & Hc2);
      [by eapply wf_prop_core|] end.
  eapply votes_changed_trans; [exact Hvc|].
  eapply votes_changed_prop; [apply Hvc|exact Hp'|by eapply prop_core_trans].
Qed.

Lemma VoteStep_restart_inv {params : Params} h pnew fCFund fDAOConsultations seen seenS v m :
  wf_view h pnew v -> maps_in fCFund v m ->
  votes_changed h pnew v (VoteStep_restart h fCFund fDAOConsultations seen seenS v m).
Proof.
  intros Hwf Hin. unfold VoteStep_restart.
  match goal with |- votes_changed _ _ _ (if _ then (let '(_, _) := foldl _ (?v', _) _ in _) else _) =>
    assert (votes_changed h pnew v v') as Hvc; [|generalize dependent v'; intros v2 Hvc] end.
  { unfold maps_in in Hin. destruct fCFund; [|by apply votes_changed_refl]. destruct (Hin eq_refl) as [Hp Hr].
    apply (foldl_ind _ (votes_changed h pnew v)).
    - intros t [k p] Hk Ht. apply restart_proposal_inv; [done|]. apply elem_of_elems in Hk. eauto.
    - apply (foldl_ind _ (votes_changed h pnew v)); [|by apply votes_changed_refl].
      intros t [k r] Hk Ht. apply restart_prequest_inv; [done|]. apply elem_of_elems in Hk. eauto. }
  destruct fDAOConsultations; [|done]. eapply same_funds_votes; [exact Hvc|].
  assert (same_funds v2 (foldl (restart_consultation h seen seenS) (v2, []) (elems (m_consultations m))).1) as Hs.
  { apply (foldl_ind _ (fun a => same_funds v2 a.1)); [|done]. intros t x _ Ht.
    eapply same_funds_trans; [exact Ht|apply restart_consultation_same]. }
  destruct (foldl (restart_consultation _ _ _) _ _) as [v3 l]. cbn [fst] in Hs.
  apply (foldl_ind _ (same_funds v2)); [|exact Hs]. intros t x _ Ht.
  eapply same_funds_trans; [exact Ht|apply restart_answer_same].
Qed.

(** ** Connecting a block refines the abstract machine *)

Lemma VoteStep_apply_refines {params : Params} h pnew bnew pdelete nCycleLength fCFund fDAOConsultations whole g
    v m b' v' strict :
  (strict = true -> settled h v) -> wf_view h pnew v ->
  VoteStep_maps fCFund fDAOConsultations v = Some m ->
  VoteStep_apply h pnew bnew false pdelete nCycleLength fCFund fDAOConsultations whole g v m = Some (b', v') ->
  wf_view h pnew v' /\
  rtc (cycle_trans (end_of_cycle bnew nCycleLength) strict) (abs_dao h v (mkFund (nCFSupply bnew) (nCFLocked bnew)))
    (abs_dao h v' (mkFund (nCFSupply b') (nCFLocked b'))).
Proof.
  intros Hset Hwf Hm Hs. unfold VoteStep_apply in Hs.
  apply VoteStep_maps_of in Hm as [Hm Hread].
  apply bind_Some in Hs as ([[[v1 m1] seen] seenS] & Hu & Hs).
  apply bind_Some in Hs as ([[[v2 m2] fund] mch] & Hst & Hs). apply (inj Some) in Hs.
  destruct (VoteStep_update_spec _ _ _ _ _ _ _ _ _ _ _ _ _ _ _ Hwf Hm Hu) as [Hvc Hcoh].
  destruct (VoteStep_states_spec h pnew bnew pdelete nCycleLength fCFund fDAOConsultations strict v Hset
    _ _ _ _ _ _ _ Hread Hvc Hcoh Hst) as (Hwf2 & Hin & Htr).
  injection Hs as <- <-. cbn [nCFSupply nCFLocked set_fund].
  set (v3 := if whole then _ else v2).
  assert (votes_changed h pnew v2 v3) as Hvc3.
  { subst v3. destruct whole; [by apply VoteStep_restart_inv|by apply votes_changed_refl]. }
  assert (v_proposals (foldl (change_parameter bnew) v3 (elems mch)) = v_proposals v3 /\
    v_prequests (foldl (change_parameter bnew) v3 (elems mch)) = v_prequests v3) as [E1 E2].
  { apply (foldl_ind _ (fun a => v_proposals a = v_proposals v3 /\ v_prequests a = v_prequests v3)); done. }
  split; [eapply same_tables_wf; [done|done|apply Hvc3]|].
  rewrite (same_tables_abs h v3 _ _ E1 E2), (vc_abs _ _ _ _ Hvc3).
  rewrite <- (vc_abs _ _ _ _ Hvc). destruct fund. exact Htr.
Qed.

(** The fund recorded in a block. *)
Definition block_fund (b : CBlockIndex) : Fund := mkFund (nCFSupply b) (nCFLocked b).

Lemma VoteStep_refines_gen {params : Params} h bv hash_params pnew bnew v g vbc r strict :
  (strict = true -> settled h v) -> wf_view h pnew v ->
  VoteStep h bv hash_params pnew bnew false v g vbc = Some r ->
  wf_view h pnew (sr_view r) /\ sr_pindexNew r = pnew /\
  rtc (cycle_trans (end_of_cycle bnew (cycle_length v)) strict) (abs_dao h v (block_fund bnew)) (abs_dao h (sr_view r) (block_fund (sr_block r))).
Proof.
  intros Hset Hwf Hs. unfold VoteStep in Hs. cbn [mbind option_bind] in Hs.
  destruct (negb _) in Hs; [|done].
  apply bind_Some in Hs as ([fCFund vbc1] & _ & Hs). apply bind_Some in Hs as ([fDAO vbc2] & _ & Hs).
  destruct (negb fCFund && negb fDAO).
  { apply (inj Some) in Hs. subst r. split; [exact Hwf|]. split; [reflexivity|apply rtc_refl]. }
  apply bind_Some in Hs as ([g1 whole] & _ & Hs).
  destruct (VoteStep_maps fCFund fDAO v) as [m|] eqn:Em.
  - apply bind_Some in Hs as ([b' v'] & Ha & Hs). apply (inj Some) in Hs. subst r.
    destruct (VoteStep_apply_refines h pnew bnew pnew (cycle_length v) fCFund fDAO whole g1 v m b' v' strict)
      as [Hwf' Htr]; try done.
  - apply (inj Some) in Hs. subst r. split; [exact Hwf|]. split; [reflexivity|apply rtc_refl].
Qed.

(** C4: Connecting a block refines the machine of the community fund: from a
    well-formed view, the states and the fund after [VoteStep] are reached by
    moves of [dao_trans], which are only made in the last block of a cycle,
    and the view stays well formed. *)
Theorem VoteStep_refines {params : Params} h bv hash_params pnew bnew v g vbc r :
  wf_view h pnew v ->
  VoteStep h bv hash_params pnew bnew false v g vbc = Some r ->
  wf_view h pnew (sr_view r) /\ sr_pindexNew r = pnew /\
  rtc (cycle_trans (end_of_cycle bnew (cycle_length v)) false)
    (abs_dao h v (block_fund bnew)) (abs_dao h (sr_view r) (block_fund (sr_block r))).
Proof. apply VoteStep_refines_gen. done. Qed.

(** C3: The fund is safe: when no accepted entry has the votes to be rejected,
    connecting a block keeps the locked part of the fund equal to what the
    accepted proposals can still pay out, never grants requests above the
    amount of their proposal, and never makes the supply negative. *)
Theorem VoteStep_fund_safe {params : Params} h bv hash_params pnew bnew v g vbc r :
  wf_view h pnew v -> settled h v -> fund_inv (abs_dao h v (block_fund bnew)) ->
  VoteStep h bv hash_params pnew bnew false v g vbc = Some r ->
  fund_inv (abs_dao h (sr_view r) (block_fund (sr_block r))).
Proof.
  intros Hwf Hset Hinv Hs.
  destruct (VoteStep_refines_gen h bv hash_params pnew bnew v g vbc r true) as (_ & _ & Htr); try done.
  eapply fund_inv_rtc; [by eapply cycle_trans_dao|done].
Qed.

(** Connecting a block conserves the fund: supply, locked part and the
    money granted to payment requests add up to the same total. *)
Theorem VoteStep_conserves_fund {params : Params} h bv hash_params pnew bnew v g vbc r :
  wf_view h pnew v -> settled h v ->
  VoteStep h bv hash_params pnew bnew false v g vbc = Some r ->
  fund_total (abs_dao h (sr_view r) (block_fund (sr_block r))) = fund_total (abs_dao h v (block_fund bnew)).
Proof.
  intros Hwf Hset Hs.
  destruct (VoteStep_refines_gen h bv hash_params pnew bnew v g vbc r true) as (_ & _ & Htr); try done.
  eapply fund_total_rtc. by eapply cycle_trans_dao.
Qed.

(** Inside a cycle nothing is decided: a block that is not the last of its
    cycle leaves the state and amount of every proposal and payment request
    and the fund as they were. *)
Theorem VoteStep_inside_cycle {params : Params} h bv hash_params pnew bnew v g vbc r :
  wf_view h pnew v -> end_of_cycle bnew (cycle_length v) = false ->
  VoteStep h bv hash_params pnew bnew false v g vbc = Some r ->
  abs_dao h (sr_view r) (block_fund (sr_block r)) = abs_dao h v (block_fund bnew).
Proof.
  intros Hwf Hend Hs.
  destruct (VoteStep_refines_gen h bv hash_params pnew bnew v g vbc r false) as (_ & _ & Htr); try done.
  rewrite Hend in Htr. by apply cycle_trans_inside in Htr.
Qed.

(** ** The example network *)

Definition above_b (h : BlockMap) (m : gmap uint256 Z) (k : uint256) : bool :=
  match h !! k with
  | None => false
  | Some b => (0 <? nHeight b) && forallb (fun kv => (kv.1 =? k) ||
      match h !! kv.1 with Some b' => nHeight b' <? nHeight b | None => true end) (elems m)
  end.

Lemma above_b_ok h m k : above_b h m k = true -> above h m k.
Proof.
  unfold above_b. destruct (h !! k) as [b|] eqn:Hb; [|done]. intros H. apply andb_prop in H as [H1 H2].
  eapply above_check; [exact Hb|by apply Z.ltb_lt|exact H2].
Qed.

Definition wf_view_b (h : BlockMap) (pnew : uint256) (v : View) : bool :=
  forallb (fun kp => (p_hash kp.2 =? kp.1) && negb (p_nAmount kp.2 =? 0) && above_b h (p_mapState kp.2) pnew)
    (elems (tbl_all (v_proposals v))) &&
  forallb (fun kr => (pr_hash kr.2 =? kr.1) && negb (pr_nAmount kr.2 =? 0) && above_b h (pr_mapState kr.2) pnew)
    (elems (tbl_all (v_prequests v))).

Lemma forallb_all {A} `{!DaoEntry A} (f : uint256 * A -> bool) t k x :
  forallb f (elems (tbl_all t)) = true -> tbl_get t k = Some x -> f (k, x) = true.
Proof.
  intros Hf Hk. rewrite forallb_forall in Hf. apply Hf, list_elem_of_In, elem_of_elems. by rewrite tbl_all_get.
Qed.

Lemma wf_view_check h pnew v : wf_view_b h pnew v = true -> wf_view h pnew v.
Proof.
  intros H. apply andb_prop in H as [H1 H2]. split; intros k x Hx.
  - apply (forallb_all _ _ _ _ H1) in Hx; cbn in Hx. apply andb_prop in Hx as [Hx Ha].
    apply andb_prop in Hx as [Hh Hn]. apply Z.eqb_eq in Hh. apply negb_true_iff, Z.eqb_neq in Hn.
    split; [done|]. split; [done|]. by apply above_b_ok.
  - apply (forallb_all _ _ _ _ H2) in Hx; cbn in Hx. apply andb_prop in Hx as [Hx Ha].
    apply andb_prop in Hx as [Hh Hn]. apply Z.eqb_eq in Hh. apply negb_true_iff, Z.eqb_neq in Hn.
    split; [done|]. split; [by left|]. by apply above_b_ok.
Qed.

Definition settled_b {params : Params} (h : BlockMap) (v : View) : bool :=
  forallb (fun kr => negb (granted (CPaymentRequest_GetLastState h kr.2) && req_rejectable kr.2 v))
    (elems (tbl_all (v_prequests v))) &&
  forallb (fun kp => let s := CProposal_GetLastState h kp.2 in
      negb (((s =? ACCEPTED) || (s =? PENDING_VOTING_PREQ)) && prop_rejectable kp.2 v))
    (elems (tbl_all (v_proposals v))).

Lemma settled_check {params : Params} h v : settled_b h v = true -> settled h v.
Proof.
  intros H. apply andb_prop in H as [H1 H2]. split.
  - intros k r Hr Hg. apply (forallb_all _ _ _ _ H1) in Hr; cbn in Hr. rewrite Hg in Hr. by destruct (req_rejectable r v).
  - intros k p Hp Hs. apply (forallb_all _ _ _ _ H2) in Hp. cbv beta zeta in Hp. cbn [snd] in Hp.
    destruct Hs as [E|E]; rewrite E in Hp; cbn in Hp; by destruct (prop_rejectable p v).
Qed.

Definition fund_inv_b (A : ADao) : bool :=
  (fund_locked (ad_fund A) =? map_sum (backing (ad_reqs A)) (ad_props A)) &&
  forallb (fun kp => 0 <=? available (ad_reqs A) kp.1 kp.2) (elems (ad_props A)) &&
  (0 <=? fund_supply (ad_fund A)).

Lemma fund_inv_check A : fund_inv_b A = true -> fund_inv A.
Proof.
  intros H. apply andb_prop in H as [H H3]. apply andb_prop in H as [H1 H2].
  split; [by apply Z.eqb_eq| |by apply Z.leb_le].
  intros k p Hp. rewrite forallb_forall in H2. apply Z.leb_le, (H2 (k, p)), list_elem_of_In. by apply elem_of_elems.
Qed.

(** Block 107 accepts request 601 and proposal 502. *)
Lemma VoteStep_refines_witness : exists r, demo_step 107 = Some r /\
  rtc (cycle_trans true false) (abs_dao vote_blocks vote_view (mkFund 500 80))
    (abs_dao vote_blocks (sr_view r) (mkFund 380 170)).
Proof.
  eexists. split; [vm_compute; reflexivity|].
  refine (proj2 (proj2 (VoteStep_refines vote_blocks vote_votes (fun _ => 7) 107 (vote_block (Some 106) 7 500 80)
    vote_view vote_cache (replicate 24 ∅) _ _ _))).
  - apply wf_view_check. vm_compute. reflexivity.
  - vm_compute. reflexivity.
Defined.

Lemma VoteStep_fund_safe_witness : exists r, demo_step 107 = Some r /\
  fund_inv (abs_dao vote_blocks (sr_view r) (mkFund 380 170)).
Proof.
  eexists. split; [vm_compute; reflexivity|].
  refine (VoteStep_fund_safe vote_blocks vote_votes (fun _ => 7) 107 (vote_block (Some 106) 7 500 80)
    vote_view vote_cache (replicate 24 ∅) _ _ _ _ _).
  - apply wf_view_check. vm_compute. reflexivity.
  - apply settled_check. vm_compute. reflexivity.
  - apply fund_inv_check. vm_compute. reflexivity.
  - vm_compute. reflexivity.
Defined.

Lemma VoteStep_conserves_fund_witness : exists r, demo_step 107 = Some r /\
  fund_total (abs_dao vote_blocks (sr_view r) (mkFund 380 170)) =
  fund_total (abs_dao vote_blocks vote_view (mkFund 500 80)).
Proof.
  eexists. split; [vm_compute; reflexivity|].
  refine (VoteStep_conserves_fund vote_blocks vote_votes (fun _ => 7) 107 (vote_block (Some 106) 7 500 80)
    vote_view vote_cache (replicate 24 ∅) _ _ _ _).
  - apply wf_view_check. vm_compute. reflexivity.
  - apply settled_check. vm_compute. reflexivity.
  - vm_compute. reflexivity.
Defined.

Lemma VoteStep_inside_cycle_witness : exists r, demo_step 106 = Some r /\
  abs_dao vote_blocks (sr_view r) (mkFund 500 80) = abs_dao vote_blocks vote_view (mkFund 500 80).
Proof.
  eexists. split; [vm_compute; reflexivity|].
  refine (VoteStep_inside_cycle vote_blocks vote_votes (fun _ => 7) 106 (vote_block (Some 105) 6 500 80)
    vote_view vote_cache (replicate 24 ∅) _ _ _ _).
  - apply wf_view_check. vm_compute. reflexivity.
  - vm_compute. reflexivity.
  - vm_compute. reflexivity.
Defined.

(** ** Why the accepted entries must be settled

    Proposal 501 was accepted with three votes against one; later the
    threshold of rejection was lowered to 20%.  No vote is cast after the
    acceptance. *)
Definition lowered_view : View :=
  mkView {[501 := set_p_nVotesNo (set_p_nVotesYes fund_proposal 3) 1]} ∅ ∅ ∅ ∅
    {[CONSENSUS_PARAM_PROPOSAL_MIN_REJECT := mkCConsensusParameter false {[105 := 2000]}]} 0 true.

(** [VoteStep] rejects a proposal that was accepted before when the
    rejection threshold is lowered under the votes it was accepted with: the
    proposal ends REJECTED while its 80 coins stay locked, backed by nothing. *)
Theorem VoteStep_rejects_accepted :
  fund_inv (abs_dao vote_blocks lowered_view (mkFund 500 80)) /\
  match VoteStep vote_blocks vote_votes (fun _ => 7) 107 (vote_block (Some 106) 7 500 80) false
      lowered_view vote_cache (replicate 24 ∅) with
  | None => False
  | Some r =>
    (CProposal_GetLastState vote_blocks <$> GetProposal (sr_view r) 501) = Some REJECTED /\
    block_fund (sr_block r) = mkFund 500 80 /\
    ~ fund_inv (abs_dao vote_blocks (sr_view r) (block_fund (sr_block r)))
  end.
Proof.
  split; [apply fund_inv_check; vm_compute; reflexivity|].
  match goal with |- match ?t with _ => _ end => let t' := eval vm_compute in t in replace t with t' by (vm_compute; reflexivity) end.
  split; [vm_compute; reflexivity|]. split; [vm_compute; reflexivity|].
  intros [H _ _]. vm_compute in H. discriminate.
Qed.
