(* ===== verification/VoteTotal.v ===== *)
(** * [VoteStep] returns

    The other theorems about [VoteStep] speak of the result it returns; here
    it does return one, forwards and backwards, from every state in which the
    blocks it dereferences are known, the cycle length is not zero and the
    answers it converts to numbers can be converted. *)
From S2P Require Import Prelude Float CxxString Chain VersionBits Params DaoTypes StateView DaoRules VoteStep VoteStepProps VoteCount VoteDemo.

(** ** Deployments *)

Definition deployments_ready {params : Params} (vbc : VersionBitsCache) : Prop :=
  0 < i32 nMinerConfirmationWindow /\ length vDeployments = 24%nat /\ length vbc = 24%nat.

Lemma deployment_in_total {params : Params} h s pos p vbc :
  wf_blocks h -> deployments_ready vbc -> (pos < 24)%nat -> (forall q, p = Some q -> is_Some (h !! q)) ->
  exists b vbc', deployment_in h s pos p vbc = Some (b, vbc') /\ deployments_ready vbc'.
Proof.
  intros Hwf (Hw & Hd & Hc) Hpos Hp. unfold deployment_in, VersionBitsState.
  destruct (lookup_lt_is_Some_2 vDeployments pos) as [d ->]; [lia|].
  destruct (lookup_lt_is_Some_2 vbc pos) as [c ->]; [lia|]. cbn [mbind option_bind].
  set (tc := VersionBitsConditionChecker _ _ _ _ _).
  destruct (@GetStateFor_total h tc Hwf Hw (VersionBitsCondition_total h _ d Hwf) p c Hp) as [[st c'] ->].
  cbn [mbind option_bind]. eexists _, _. split; [reflexivity|].
  split; [done|]. split; [done|]. by rewrite length_insert.
Qed.

(** ** Properties of entries that the tables keep *)

Section kept.
Context {K A : Type} `{Countable K, !DaoEntry A}.

Record entry_law (P : A -> Prop) : Prop := {
  law_null : P entry_null;
  law_SetNull e : P (entry_SetNull e);
  law_dirty e b : P e -> P (entry_set_fDirty e b)
}.

Context (P : A -> Prop) (HP : entry_law P).
Implicit Types (t : gmap K A) (k : K).

Definition tbl_forall t : Prop := map_Forall (fun _ e => P e) t.

Lemma tbl_forall_entry t k : tbl_forall t -> P (tbl_entry t k).
Proof.
  intros Ht. unfold tbl_entry. destruct (t !! k) as [e|] eqn:E; [by apply (Ht k e)|apply HP].
Qed.

Lemma tbl_forall_insert t k e : tbl_forall t -> P e -> tbl_forall (<[k := e]> t).
Proof. intros Ht He. by apply map_Forall_insert_2. Qed.

Lemma tbl_forall_open t k : tbl_forall t -> tbl_forall (tbl_open t k).
Proof. intros Ht. unfold tbl_open. destruct (t !! k); [done|]. apply tbl_forall_insert; [done|apply HP]. Qed.

Lemma tbl_forall_mark prev t k : tbl_forall t -> tbl_forall (tbl_mark prev t k).
Proof.
  intros Ht. unfold tbl_mark. destruct (t !! k) as [e|] eqn:E; [|done]. destruct (entry_eqb prev e); [done|].
  apply tbl_forall_insert; [done|]. apply HP. by apply (Ht k e).
Qed.

Lemma tbl_forall_modify t k f :
  (forall e, P e -> P (f e)) -> tbl_forall t -> tbl_forall (tbl_modify t k f).
Proof.
  intros Hf Ht. unfold tbl_modify, tbl_close.
  assert (tbl_forall (<[k := f (tbl_entry (tbl_open t k) k)]> (tbl_open t k))) as Hi.
  { apply tbl_forall_insert; [by apply tbl_forall_open|]. by apply Hf, tbl_forall_entry, tbl_forall_open. }
  apply tbl_forall_mark. destruct (entry_IsNull _); [|done]. apply tbl_forall_insert; [done|apply HP].
Qed.

Lemma tbl_forall_all t : tbl_forall t -> tbl_forall (tbl_all t).
Proof. intros Ht k e Hk. apply map_lookup_filter_Some in Hk as [Hk _]. by apply (Ht k e). Qed.
End kept.

(** ** What the call needs of the view *)

Definition readable (a : CConsultationAnswer) : Prop :=
  Forall (fun s => is_Some (stoll s)) (CConsultationAnswer_GetAnswers a).

Definition about_consensus (v : View) (k : uint256) : Prop :=
  exists c, v_consultations v !! k = Some c /\ CConsultation_IsAboutConsensusParameter c = true.

(** The block of a payment request is known; the consultations about consensus
    parameters and their answers are stored under their hashes, which are not
    null, and those answers are numbers. *)
Record ready (h : BlockMap) (v : View) : Prop := {
  rd_reqs : forall k r, v_prequests v !! k = Some r -> pr_txblockhash r = 0 \/ is_Some (h !! pr_txblockhash r);
  rd_cons : forall k c, v_consultations v !! k = Some c ->
    CConsultation_IsAboutConsensusParameter c = true -> c_hash c = k /\ k <> 0;
  rd_answers : forall k a, v_answers v !! k = Some a -> about_consensus v (a_parent a) ->
    a_hash a = k /\ readable a
}.

Lemma readable_IsNull a : readable a -> CConsultationAnswer_IsNull a = false.
Proof.
  intros Ha. destruct (CConsultationAnswer_IsNull a) eqn:E; [|done].
  assert (a_sAnswer a = EmptyString /\ a_nVersion a = 0) as [Es Ev].
  { unfold CConsultationAnswer_IsNull in E. rewrite !andb_true_iff, !bool_decide_eq_true, !Z.eqb_eq in E. tauto. }
  unfold readable, CConsultationAnswer_GetAnswers in Ha. rewrite Es, Ev in Ha. cbn in Ha.
  apply Forall_cons in Ha as [[z Hz] _]. done.
Qed.

Section steps.
Context {params : Params} (h : BlockMap) (pnew : uint256) (bnew : CBlockIndex) (fUndo : bool)
  (pdelete : uint256) (nCycleLength : Z).
Context (v0 : View) (Hready : ready h v0).

(** The consultations about consensus parameters and their answers, by key. *)
Definition cons_key : uint256 -> Prop := about_consensus v0.
Definition answer_key (k : uint256) : Prop :=
  exists a, v_answers v0 !! k = Some a /\ cons_key (a_parent a).

Definition req_ok (r : CPaymentRequest) : Prop := pr_txblockhash r = 0 \/ is_Some (h !! pr_txblockhash r).
Definition cons_ok (c : CConsultation) : Prop :=
  CConsultation_IsAboutConsensusParameter c = true -> cons_key (c_hash c).
Definition answer_ok (a : CConsultationAnswer) : Prop := cons_key (a_parent a) -> answer_key (a_hash a).

Lemma cons_key_0 : ~ cons_key 0.
Proof. intros (c & Hc & Ha). by destruct (rd_cons _ _ Hready 0 c Hc Ha). Qed.

Lemma req_ok_law : entry_law req_ok.
Proof. split; [by left|by left|done]. Qed.
Lemma cons_ok_law : entry_law cons_ok.
Proof. split; done. Qed.
Lemma answer_ok_law : entry_law answer_ok.
Proof. split; [|intros e|done]; intros Hk; by apply cons_key_0 in Hk. Qed.

(** The invariant of the view during the call. *)
Record view_ok (v : View) : Prop := {
  vo_params : v_consensus v = v_consensus v0;
  vo_reqs : tbl_forall req_ok (v_prequests v);
  vo_cons : tbl_forall cons_ok (v_consultations v);
  vo_answers : tbl_forall answer_ok (v_answers v);
  vo_readable : forall k, answer_key k -> exists a, v_answers v !! k = Some a /\ readable a
}.

Lemma view_ok_start : view_ok v0.
Proof.
  split; [done| | | |].
  - intros k r. apply (rd_reqs _ _ Hready).
  - intros k c Hc Ha. destruct (rd_cons _ _ Hready k c Hc Ha) as [-> _]. by exists c.
  - intros k a Ha Hk. destruct (rd_answers _ _ Hready k a Ha Hk) as [-> _]. by exists a.
  - intros k (a & Ha & Hk). exists a. split; [done|]. by apply (rd_answers _ _ Hready k a Ha).
Qed.

(** What the functions given to the modifiers keep. *)
Definition req_kept (f : CPaymentRequest -> CPaymentRequest) : Prop :=
  forall r, pr_txblockhash (f r) = pr_txblockhash r.
Definition cons_kept (f : CConsultation -> CConsultation) : Prop :=
  forall c, c_hash (f c) = c_hash c /\ c_nVersion (f c) = c_nVersion c.
Definition answer_kept (f : CConsultationAnswer -> CConsultationAnswer) : Prop :=
  forall a, a_hash (f a) = a_hash a /\ a_parent (f a) = a_parent a /\ a_nVersion (f a) = a_nVersion a /\
    a_sAnswer (f a) = a_sAnswer a /\ a_vAnswer (f a) = a_vAnswer a.

Lemma req_kept_ok f r : req_kept f -> req_ok r -> req_ok (f r).
Proof. intros Hf. unfold req_ok. by rewrite Hf. Qed.
Lemma cons_kept_ok f c : cons_kept f -> cons_ok c -> cons_ok (f c).
Proof.
  intros Hf. destruct (Hf c) as [E1 E2]. unfold cons_ok, CConsultation_IsAboutConsensusParameter. by rewrite E1, E2.
Qed.
Lemma answer_kept_ok f a : answer_kept f -> answer_ok a -> answer_ok (f a).
Proof. intros Hf. destruct (Hf a) as (E1 & E2 & _). unfold answer_ok. by rewrite E1, E2. Qed.
Lemma answer_kept_readable f a : answer_kept f -> readable a -> readable (f a).
Proof.
  intros Hf. destruct (Hf a) as (_ & _ & E1 & E2 & E3). unfold readable, CConsultationAnswer_GetAnswers.
  by rewrite E1, E2, E3.
Qed.

(** ** The modifiers keep the invariant *)

Lemma ok_ModifyProposal v k f : view_ok v -> view_ok (ModifyProposal v k f).
Proof. by intros []. Qed.

Lemma ok_SetExcludeVotes v n : view_ok v -> view_ok (SetExcludeVotes v n).
Proof. by intros []. Qed.

Lemma ok_ClosePaymentRequest v k r prev :
  view_ok v -> req_ok r -> view_ok (ClosePaymentRequest (PutPaymentRequest v k r) k prev).
Proof.
  intros [] Hr. unfold ClosePaymentRequest. destruct (entry_IsNull _); (split; [done| |done|done|done]); cbn;
    (apply tbl_forall_mark; [apply req_ok_law|by apply tbl_forall_insert]).
Qed.

Lemma ok_OpenPaymentRequest v k : view_ok v -> view_ok (OpenPaymentRequest v k).
Proof.
  intros []. split; [done| |done|done|done]. by apply tbl_forall_open; [apply req_ok_law|].
Qed.

Lemma ok_req_entry v k : view_ok v -> req_ok (tbl_entry (v_prequests v) k).
Proof. intros []. by apply tbl_forall_entry; [apply req_ok_law|]. Qed.

Lemma ok_ModifyPaymentRequest v k f : req_kept f -> view_ok v -> view_ok (ModifyPaymentRequest v k f).
Proof.
  intros Hf Hv. unfold ModifyPaymentRequest. apply ok_ClosePaymentRequest; [by apply ok_OpenPaymentRequest|].
  by apply req_kept_ok, ok_req_entry, ok_OpenPaymentRequest.
Qed.

Lemma ok_ModifyConsultation v k f : cons_kept f -> view_ok v -> view_ok (ModifyConsultation v k f).
Proof.
  intros Hf []. split; [done|done| |done|done]. apply tbl_forall_modify; [apply cons_ok_law| |done].
  intros c. by apply cons_kept_ok.
Qed.

Lemma readable_modify (t : gmap uint256 CConsultationAnswer) k k' f a :
  answer_kept f -> t !! k' = Some a -> readable a ->
  exists a', tbl_modify t k f !! k' = Some a' /\ readable a'.
Proof.
  intros Hf Ha Hr. destruct (decide (k = k')) as [->|Hne].
  - assert (readable (f a)) as Hfa by (by apply answer_kept_readable).
    destruct (tbl_modify_get t k' a f) as (a' & E & Hd).
    { apply tbl_get_Some. split; [done|by apply readable_IsNull]. }
    { by apply readable_IsNull. }
    exists a'. rewrite E, lookup_insert_eq. split; [done|]. by destruct Hd as [->| ->].
  - exists a. split; [|done]. unfold tbl_modify, tbl_close, tbl_mark, tbl_setnull, tbl_open.
    by_cases; rewrite ?lookup_insert_ne by done; done.
Qed.

Lemma ok_ModifyConsultationAnswer v k f :
  answer_kept f -> view_ok v -> view_ok (ModifyConsultationAnswer v k f).
Proof.
  intros Hf []. split; [done|done|done| |].
  - apply tbl_forall_modify; [apply answer_ok_law| |done]. intros a. by apply answer_kept_ok.
  - intros k' Hk. destruct (vo_readable0 k' Hk) as (a & Ha & Hr). by apply (readable_modify _ k k' f a).
Qed.

Lemma ok_cons_entry v k : view_ok v -> cons_ok (tbl_entry (v_consultations v) k).
Proof. intros []. by apply tbl_forall_entry; [apply cons_ok_law|]. Qed.

Lemma ok_answer_entry v k : view_ok v -> answer_ok (tbl_entry (v_answers v) k).
Proof. intros []. by apply tbl_forall_entry; [apply answer_ok_law|]. Qed.

(** ** The copies of the tables *)

Definition map_cons_ok (m : gmap uint256 CConsultation) : Prop :=
  map_Forall (fun k c => CConsultation_IsAboutConsensusParameter c = true -> cons_key k) m.
Definition map_answers_ok (m : gmap uint256 CConsultationAnswer) : Prop :=
  map_Forall (fun k a => cons_key (a_parent a) -> answer_key k) m.

Lemma map_reqs_insert (m : gmap uint256 CPaymentRequest) r :
  tbl_forall req_ok m -> req_ok r -> tbl_forall req_ok (<[pr_hash r := r]> m).
Proof. apply tbl_forall_insert. Qed.
Lemma map_cons_insert m c : map_cons_ok m -> cons_ok c -> map_cons_ok (<[c_hash c := c]> m).
Proof. intros Hm Hc. by apply map_Forall_insert_2. Qed.
Lemma map_answers_insert m a : map_answers_ok m -> answer_ok a -> map_answers_ok (<[a_hash a := a]> m).
Proof. intros Hm Hc. by apply map_Forall_insert_2. Qed.

Lemma assign_forall {A} (P : uint256 -> A -> Prop) (m u : gmap uint256 A) :
  map_Forall P m -> map_Forall P u -> map_Forall P (assign_all m u).
Proof. intros Hm Hu. rewrite assign_all_union. by apply map_Forall_union_2. Qed.

(** ** The functions the loops give to the modifiers *)

Lemma kept_undo_prequest n : req_kept (undo_prequest h pdelete n).
Proof. intros r. unfold undo_prequest. by destruct (_ =? NIL). Qed.
Lemma kept_prequest_votes t : req_kept (set_prequest_votes t).
Proof. by destruct t as [[] ]. Qed.
Lemma kept_prequest_cycle n : req_kept (set_prequest_cycle n).
Proof. done. Qed.
Lemma kept_prequest_state s : req_kept (set_prequest_state pnew s).
Proof. done. Qed.

Lemma kept_undo_consultation n : cons_kept (undo_consultation h pdelete n).
Proof. intros c. unfold undo_consultation. by destruct (_ && _). Qed.
Lemma kept_support n : cons_kept (set_support n).
Proof. done. Qed.
Lemma kept_consultation_vote clear vote n : cons_kept (set_consultation_vote clear vote n).
Proof. by destruct clear. Qed.
Lemma kept_consultation_cycle n : cons_kept (set_consultation_cycle n).
Proof. done. Qed.
Lemma kept_consultation_state s : cons_kept (set_consultation_state pnew s).
Proof. done. Qed.

Lemma kept_undo_answer : answer_kept (undo_answer pdelete).
Proof. done. Qed.
Lemma kept_answer_support n : answer_kept (set_answer_support n).
Proof. done. Qed.
Lemma kept_answer_votes n : answer_kept (set_answer_votes n).
Proof. done. Qed.
Lemma kept_answer_state s : answer_kept (set_answer_state pnew s).
Proof. done. Qed.
Lemma kept_answer_id : answer_kept id.
Proof. done. Qed.

Create HintDb total.
#[local] Hint Resolve kept_undo_prequest kept_prequest_votes kept_prequest_cycle kept_prequest_state
  kept_undo_consultation kept_support kept_consultation_vote kept_consultation_cycle kept_consultation_state
  kept_undo_answer kept_answer_support kept_answer_votes kept_answer_state kept_answer_id : total.
#[local] Hint Resolve ok_ModifyProposal ok_SetExcludeVotes ok_ClosePaymentRequest ok_OpenPaymentRequest
  ok_req_entry ok_ModifyPaymentRequest ok_ModifyConsultation ok_ModifyConsultationAnswer ok_cons_entry
  ok_answer_entry map_reqs_insert map_cons_insert map_answers_insert req_kept_ok cons_kept_ok answer_kept_ok : total.

Ltac total := eauto 10 with total.
Ltac acc_total := cbn [fst snd ca_view ca_updConsultations ca_updAnswers]; total.

(** ** The counters *)

Lemma proposal_votes_ok mp acc it :
  view_ok acc.1.1 -> view_ok (proposal_votes_step h bnew fUndo pdelete nCycleLength mp acc it).1.1.
Proof. destruct acc as [[v upd] seen]. unfold proposal_votes_step. intros. by_cases; cbn in *; total. Qed.

Definition reqs_acc_ok {X} (acc : View * gmap uint256 CPaymentRequest * X) : Prop :=
  view_ok acc.1.1 /\ tbl_forall req_ok acc.1.2.

Lemma prequest_votes_total mr acc it :
  tbl_forall req_ok mr -> reqs_acc_ok acc ->
  exists acc', prequest_votes_step h bnew fUndo pdelete nCycleLength mr acc it = Some acc' /\ reqs_acc_ok acc'.
Proof.
  destruct acc as [[v upd] seen]. intros Hm [Hv Hu]. unfold prequest_votes_step. cbn [fst snd] in *.
  destruct (mr !! it.1) as [pr|] eqn:E; [|by eexists].
  destruct (pr_txblockhash pr =? 0) eqn:E0; [by eexists|]. nav_bool.
  destruct (Hm _ _ E) as [?|[b Hb]]; [done|]. rewrite Hb; cbn [mbind option_bind].
  by_cases; (eexists; split; [reflexivity|]); split; cbn [fst snd]; total.
Qed.

Record cons_acc_ok (acc : ConsAcc) : Prop := {
  co_view : view_ok (ca_view acc);
  co_cons : map_cons_ok (ca_updConsultations acc);
  co_answers : map_answers_ok (ca_updAnswers acc)
}.

Lemma support_ok mc ma acc it :
  cons_acc_ok acc -> cons_acc_ok (support_step h bnew fUndo pdelete nCycleLength mc ma acc it).
Proof.
  destruct acc as [v updC updA seen cleared]. intros [Hv Hc Ha]. unfold support_step. cbn [ca_view ca_updConsultations ca_updAnswers] in Hv, Hc, Ha. by_cases; split; acc_total.
Qed.

Lemma consultation_votes_ok whole mc ma acc it :
  cons_acc_ok acc ->
  cons_acc_ok (consultation_votes_step h bnew fUndo pdelete nCycleLength whole mc ma acc it).
Proof.
  destruct acc as [v updC updA seen cleared], it as [[k vote] n]. intros [Hv Hc Ha]. unfold consultation_votes_step. cbn [ca_view ca_updConsultations ca_updAnswers] in Hv, Hc, Ha.
  by_cases; split; acc_total.
Qed.

(** ** The states *)

Lemma ok_move_prequest v upd k f :
  req_kept f -> view_ok v -> tbl_forall req_ok upd ->
  view_ok (move_prequest v upd k f).1 /\ tbl_forall req_ok (move_prequest v upd k f).2.
Proof. intros Hf Hv Hu. unfold move_prequest. split; acc_total. Qed.

Lemma prequest_transition_ok mp k pr old fE fA fR acc :
  reqs_acc_ok acc -> reqs_acc_ok (prequest_transition h pnew mp k pr old fE fA fR acc).
Proof.
  destruct acc as [[v upd] fund]. intros [Hv Hu]. cbn in Hv, Hu.
  unfold prequest_transition, move_prequest. by_cases; split; acc_total.
Qed.

Lemma prequest_step_total mp acc it :
  req_ok it.2 -> reqs_acc_ok acc ->
  exists acc', prequest_step h pnew bnew fUndo pdelete nCycleLength mp acc it = Some acc' /\ reqs_acc_ok acc'.
Proof.
  destruct acc as [[v upd] fund], it as [k pr]. intros Hr [Hv Hu]. unfold prequest_step. cbn [fst snd] in *.
  destruct (pr_txblockhash pr =? 0) eqn:E0; [by eexists|]. nav_bool.
  destruct Hr as [?|[b Hb]]; [done|]. rewrite Hb; cbn [mbind option_bind].
  destruct fUndo; [eexists; split; [reflexivity|]; apply ok_move_prequest; total|].
  destruct (_ =? NIL); (eexists; split; [reflexivity|]);
    (destruct (end_of_cycle _ _); [apply prequest_transition_ok|]); split; acc_total.
Qed.

Lemma last_state_block_for_known s m k : last_state_block_for h s m = Some k -> is_Some (h !! k).
Proof.
  unfold last_state_block_for. destruct (last_entry_is_last h (Z.eqb s) m) as (_ & _ & Hr).
  destruct (last_entry _ _ _) as [[[k' s']|] n]; cbn in *; [|done]. intros [= <-].
  destruct Hr as (_ & _ & _ & b & Hb & _). by exists b.
Qed.

Lemma CProposal_IsExpired_total p t v : is_Some (CProposal_IsExpired h p t v).
Proof.
  unfold CProposal_IsExpired. destruct (flag_set _ _); [|by eexists].
  destruct (CProposal_GetLastStateBlockIndexForState h p ACCEPTED) as [k|] eqn:E; [|by eexists].
  destruct (_ =? ACCEPTED); [|by eexists].
  destruct (last_state_block_for_known _ _ _ E) as [b ->]. by eexists.
Qed.

Lemma proposal_transition_ok k p old fE fA fR acc :
  view_ok acc.1.1 -> view_ok (proposal_transition h pnew k p old fE fA fR acc).1.1.
Proof.
  destruct acc as [[v upd] fund]. intros Hv. cbn in Hv.
  unfold proposal_transition, move_proposal. by_cases; acc_total.
Qed.

Lemma proposal_step_total acc it :
  view_ok acc.1.1 ->
  exists acc', proposal_step h pnew bnew fUndo pdelete nCycleLength acc it = Some acc' /\ view_ok acc'.1.1.
Proof.
  destruct acc as [[v upd] fund], it as [k p]. intros Hv. unfold proposal_step, move_proposal. cbn [fst snd] in *.
  destruct (p_txblockhash p =? 0); [by eexists|]. destruct (h !! _); [|by eexists].
  destruct (CProposal_IsExpired_total p (nTime bnew) v) as [fE ->]; cbn [mbind option_bind].
  destruct fUndo.
  - match goal with |- context [CProposal_IsExpired h ?q ?t v] =>
      destruct (CProposal_IsExpired_total q t v) as [fE' ->] end.
    eexists. split; [reflexivity|]. acc_total.
  - destruct (_ =? NIL); (eexists; split; [reflexivity|]);
      (destruct (end_of_cycle _ _); [apply proposal_transition_ok|]); acc_total.
Qed.

(** ** Consultations *)

Lemma add_change_total m l :
  Forall (fun pa => is_Some (stoll pa.2)) l -> exists m', foldM add_change m l = Some m'.
Proof.
  intros Hl. revert m; induction Hl as [|pa l [z Hz] _ IH]; intros m; cbn [foldM]; [eauto|].
  unfold add_change at 2. rewrite Hz; cbn [mbind option_bind]. apply IH.
Qed.

Definition answers_acc_ok (acc : View * gmap uint256 CConsultationAnswer * gmap Z Z) : Prop :=
  view_ok acc.1.1 /\ map_answers_ok acc.1.2.

(** The answer that is converted is readable: its consultation is one about
    consensus parameters, and the entry of the view still has its text. *)
Lemma readable_changes v k (parameters : list Z) :
  view_ok v -> answer_key k ->
  Forall (fun pa => is_Some (stoll pa.2))
    (zip parameters (CConsultationAnswer_GetAnswers (tbl_entry (v_answers v) k))).
Proof.
  intros Hv Hk. destruct (vo_readable _ Hv k Hk) as (a & Ha & Hr). unfold tbl_entry. rewrite Ha; cbn.
  unfold readable in Hr. revert parameters. induction Hr as [|s l Hs _ IH]; intros [|x ps]; cbn; auto.
Qed.

Lemma answer_step_total mc acc it :
  map_cons_ok mc -> (cons_key (a_parent it.2) -> answer_key it.1) -> answers_acc_ok acc ->
  exists acc', answer_step h pnew bnew fUndo pdelete nCycleLength mc acc it = Some acc' /\ answers_acc_ok acc'.
Proof.
  destruct acc as [[v upd] m], it as [k a]. intros Hmc Hk [Hv Hu]. unfold answer_step, move_answer.
  cbn [fst snd] in *.
  destruct (a_txblockhash a =? 0); [by eexists|]. destruct (bool_decide _); [by eexists|].
  destruct fUndo; [eexists; split; [reflexivity|]; split; acc_total|].
  destruct (end_of_cycle _ _); [|by eexists].
  set (acc1 := if _ && (_ =? NIL) then _ else (v, upd)).
  assert (view_ok acc1.1 /\ map_answers_ok acc1.2) as [Hv1 Hu1].
  { unfold acc1. destruct (_ && _); split; acc_total. }
  destruct acc1 as [v1 upd1]. cbn [fst snd] in Hv1, Hu1.
  destruct (_ && negb _); [|by eexists]. destruct (mc !! a_parent a) as [parent|] eqn:Ep; [|by eexists].
  destruct (CConsultation_IsAboutConsensusParameter parent) eqn:Eb; [|by eexists].
  destruct (_ =? _)%nat; [|eexists; split; [reflexivity|]; split; acc_total].
  destruct (add_change_total m _ (readable_changes v1 k (CConsultation_GetParameters parent) Hv1
    (Hk (Hmc _ _ Ep Eb)))) as [m' ->].
  eexists; split; [reflexivity|]; split; acc_total.
Qed.

Context (Hcycle : cycle_length v0 <> 0).

Lemma ok_cycle_length v : view_ok v -> cycle_length v <> 0.
Proof. intros []. unfold cycle_length in *. by rewrite (GetConsensusParameter_same v0). Qed.

Lemma div_u64_total x len : len <> 0 -> is_Some (div_u64 x len).
Proof. intros Hl. unfold div_u64. rewrite (proj2 (Z.eqb_neq _ _) Hl). by eexists. Qed.

Lemma CConsultation_IsExpired_total c b v : view_ok v -> is_Some (CConsultation_IsExpired h c b v).
Proof.
  intros Hv. unfold CConsultation_IsExpired.
  destruct (CConsultation_GetLastStateBlockIndexForState h c ACCEPTED) as [k|] eqn:E; [|by eexists].
  destruct (_ =? ACCEPTED); [|by eexists]. destruct (last_state_block_for_known _ _ _ E) as [bk ->]. cbn.
  destruct (div_u64_total (nHeight bk) (cycle_length v)) as [x ->]; [by apply ok_cycle_length|]. cbn.
  destruct (div_u64_total (nHeight b) (cycle_length v)) as [y ->]; [by apply ok_cycle_length|]. by eexists.
Qed.

Lemma CConsultation_IsReflectionOver_total c b v : view_ok v -> is_Some (CConsultation_IsReflectionOver h c b v).
Proof.
  intros Hv. unfold CConsultation_IsReflectionOver.
  destruct (CConsultation_GetLastStateBlockIndexForState h c REFLECTION) as [k|] eqn:E; [|by eexists].
  destruct (last_state_block_for_known _ _ _ E) as [bk ->]. cbn.
  destruct (div_u64_total (nHeight bk) (cycle_length v)) as [x ->]; [by apply ok_cycle_length|]. cbn.
  destruct (div_u64_total (nHeight b) (cycle_length v)) as [y ->]; [by apply ok_cycle_length|]. by eexists.
Qed.

Lemma consultation_step_total mch acc it :
  view_ok acc.1 ->
  exists acc', consultation_step h pnew bnew fUndo pdelete nCycleLength mch acc it = Some acc' /\ view_ok acc'.1.
Proof.
  destruct acc as [v upd], it as [k c]. intros Hv. unfold consultation_step, move_consultation.
  cbn [fst snd] in *.
  destruct (c_txblockhash c =? 0); [by eexists|]. destruct (h !! _); [|by eexists].
  destruct (CConsultation_IsExpired_total c bnew v Hv) as [fE ->]; cbn [mbind option_bind].
  destruct (CConsultation_IsReflectionOver_total c bnew v Hv) as [fR ->]; cbn [mbind option_bind].
  by_cases; (eexists; split; [reflexivity|]); acc_total.
Qed.

(** ** The parts of the call *)

Record maps_ok (m : DaoMaps) : Prop := {
  mo_reqs : tbl_forall req_ok (m_prequests m);
  mo_cons : map_cons_ok (m_consultations m);
  mo_answers : map_answers_ok (m_answers m)
}.

Lemma VoteStep_maps_ok fC fD m : VoteStep_maps fC fD v0 = Some m -> maps_ok m.
Proof.
  intros Hm. unfold VoteStep_maps, GetAllProposals, GetAllPaymentRequests, GetAllConsultations,
    GetAllConsultationAnswers in Hm.
  assert (tbl_forall req_ok (tbl_all (v_prequests v0))) as Hr
    by (apply tbl_forall_all, view_ok_start).
  assert (map_cons_ok (tbl_all (v_consultations v0))) as Hc.
  { intros k c Hk Ha. apply map_lookup_filter_Some in Hk as [Hk _]. by exists c. }
  assert (map_answers_ok (tbl_all (v_answers v0))) as Ha.
  { intros k a Hk Ha. apply map_lookup_filter_Some in Hk as [Hk _]. by exists a. }
  destruct fC, fD, (v_readable v0); try done; apply (inj Some) in Hm; subst m;
    split; cbn; try done; apply map_Forall_empty.
Qed.

Lemma VoteStep_maps_total fC fD : v_readable v0 = true -> is_Some (VoteStep_maps fC fD v0).
Proof.
  intros Hr. unfold VoteStep_maps, GetAllProposals, GetAllPaymentRequests, GetAllConsultations,
    GetAllConsultationAnswers. rewrite Hr. destruct fC, fD; by eexists.
Qed.

Lemma VoteStep_update_total fC fD whole g m :
  maps_ok m ->
  exists v m' seen seenS, VoteStep_update h bnew fUndo pdelete nCycleLength fC fD whole g v0 m =
    Some (v, m', seen, seenS) /\ view_ok v /\ maps_ok m'.
Proof.
  intros Hm. unfold VoteStep_update.
  match goal with |- context [mbind _ ?c] => assert (exists v m' seen, c = Some (v, m', seen) /\
    view_ok v /\ maps_ok m') as (v1 & m1 & seen1 & -> & Hv1 & Hm1) end.
  { destruct fC; [|exists v0, m, ∅; auto using view_ok_start].
    assert (view_ok (foldl (proposal_votes_step h bnew fUndo pdelete nCycleLength (m_proposals m))
      (v0, ∅, ∅) (elems (mapCacheProposalsToUpdate g))).1.1) as Hp.
    { apply (foldl_ind _ (fun acc => view_ok acc.1.1)); [intros acc it _; apply proposal_votes_ok|].
      apply view_ok_start. }
    destruct (foldl _ _ _) as [[v updP] seen]. cbn [fst] in Hp.
    destruct (foldM_total (prequest_votes_step h bnew fUndo pdelete nCycleLength (m_prequests m)) reqs_acc_ok
      (elems (mapCachePaymentRequestToUpdate g)) (v, ∅, seen)) as ([[v' updR] seen'] & -> & Hv' & Hu').
    { intros acc it _. apply prequest_votes_total, Hm. }
    { split; [done|apply map_Forall_empty]. }
    cbn. eexists _, _, _. split; [reflexivity|]. split; [done|]. destruct Hm as [Hr Hc Ha].
    split; [by apply assign_forall|done|done]. }
  cbn [mbind option_bind]. destruct fD; [|eexists _, _, _, _; split; [reflexivity|]; split; [total|done]].
  set (s := foldl (support_step _ _ _ _ _ _ _) _ _).
  assert (cons_acc_ok s) as Hs.
  { apply foldl_ind; [intros acc it _; apply support_ok|]. split; [done|apply map_Forall_empty..]. }
  cbn [m_consultations m_answers m_proposals m_prequests].
  set (c := foldl (consultation_votes_step _ _ _ _ _ _ _ _) _ _).
  assert (cons_acc_ok c) as Hc.
  { apply foldl_ind; [intros acc it _; apply consultation_votes_ok|].
    split; [apply Hs|apply map_Forall_empty..]. }
  eexists _, _, _, _. split; [reflexivity|]. destruct Hs, Hc, Hm1. split; [total|].
  split; [done|by repeat apply assign_forall..].
Qed.

Lemma VoteStep_states_total fC fD v m fund :
  view_ok v -> maps_ok m ->
  exists r, VoteStep_states h pnew bnew fUndo pdelete nCycleLength fC fD v m fund = Some r.
Proof.
  intros Hv Hm. unfold VoteStep_states.
  match goal with |- context [mbind _ ?c] => assert (exists v m' fund, c = Some (v, m', fund) /\
    view_ok v /\ map_cons_ok (m_consultations m') /\ map_answers_ok (m_answers m'))
    as (v1 & m1 & fund1 & -> & Hv1 & Hc1 & Ha1) end.
  { destruct fC; [|exists v, m, fund; split; [done|]; by destruct Hm].
    destruct (foldM_total (prequest_step h pnew bnew fUndo pdelete nCycleLength (m_proposals m)) reqs_acc_ok
      (elems (m_prequests m)) (v, ∅, fund)) as ([[v2 updR] fund2] & -> & Hv2 & _).
    { intros acc [k r] Hin. apply elem_of_elems in Hin. apply prequest_step_total. by apply (mo_reqs _ Hm k r). }
    { split; [done|apply map_Forall_empty]. }
    cbn [mbind option_bind fst snd] in *.
    destruct (foldM_total (proposal_step h pnew bnew fUndo pdelete nCycleLength) (fun acc => view_ok acc.1.1)
      (elems (m_proposals m)) (v2, ∅, fund2)) as ([[v3 updP] fund3] & -> & Hv3).
    { intros acc it _. apply proposal_step_total. }
    { done. }
    cbn [mbind option_bind fst snd] in *. eexists _, _, _. split; [reflexivity|]. by destruct Hm. }
  cbn [mbind option_bind]. destruct fD; [|by eexists].
  destruct (foldM_total (answer_step h pnew bnew fUndo pdelete nCycleLength (m_consultations m1)) answers_acc_ok
    (elems (m_answers m1)) (v1, ∅, ∅)) as ([[v2 updA] mch] & -> & Hv2 & _).
  { intros acc [k a] Hin. apply elem_of_elems in Hin. apply answer_step_total; [done|]. by apply (Ha1 k a). }
  { split; [done|apply map_Forall_empty]. }
  cbn [mbind option_bind fst snd] in *.
  destruct (foldM_total (consultation_step h pnew bnew fUndo pdelete nCycleLength mch) (fun acc => view_ok acc.1)
    (elems (m_consultations m1)) (v2, ∅)) as ([v3 updC] & -> & _).
  { intros acc it _. apply consultation_step_total. }
  { done. }
  by eexists.
Qed.

Lemma VoteStep_apply_total fC fD whole g m :
  maps_ok m ->
  exists r, VoteStep_apply h pnew bnew fUndo pdelete nCycleLength fC fD whole g v0 m = Some r.
Proof.
  intros Hm. unfold VoteStep_apply.
  destruct (VoteStep_update_total fC fD whole g m Hm) as (v & m' & seen & seenS & -> & Hv & Hm').
  cbn [mbind option_bind].
  destruct (VoteStep_states_total fC fD v m' (mkFund (nCFSupply bnew) (nCFLocked bnew)) Hv Hm')
    as ([[[v1 m1] fund1] mch] & ->). by eexists.
Qed.
End steps.

(** ** The whole call *)

(** The parent of the block is known: the index holds it and all before it. *)
Definition parent_known (h : BlockMap) (b : CBlockIndex) : Prop :=
  forall q, pprev b = Some q -> is_Some (h !! q).

Lemma VoteStep_scan_total {params : Params} h bv hash_params p b fUndo fC fD v g :
  wf_blocks h -> parent_known h b -> is_Some (VoteStep_scan h bv hash_params p b fUndo fC fD v g).
Proof.
  intros Hwf Hb. unfold VoteStep_scan.
  assert (forall n g, is_Some (scan_loop h bv v fC fD n p b g)) as Htot.
  { intros [|n] g'; cbn [scan_loop]; [by eexists|].
    destruct (pprev b) as [q|] eqn:Eq; [|by eexists]. destruct n as [|n]; [by eexists|].
    destruct (Hb q Eq) as [bq Hq]. rewrite Hq. by apply scan_loop_total. }
  destruct (scan_whole_cycle _ _ _ _); match goal with |- context [scan_loop h bv v fC fD ?n p b ?g'] =>
    destruct (Htot n g') as [g1 ->] end; by eexists.
Qed.

Lemma VoteStep_at_total {params : Params} h bv hash_params p b (fUndo : bool) v g vbc pnew bnew :
  wf_blocks h -> deployments_ready vbc -> ready h v -> cycle_length v <> 0 ->
  (if fUndo then do q <- pprev b; do b <- h !! q; Some (q, b) else Some (p, b)) = Some (pnew, bnew) ->
  parent_known h bnew ->
  exists r, VoteStep h bv hash_params p b fUndo v g vbc = Some r /\ (v_readable v = true -> sr_ok r = true).
Proof.
  intros Hwf Hd Hr Hc Hnew Hb. unfold VoteStep. rewrite Hnew; cbn [mbind option_bind].
  rewrite (proj2 (Z.eqb_neq _ _) Hc); cbn [negb].
  destruct (deployment_in_total h THRESHOLD_ACTIVE DEPLOYMENT_COMMUNITYFUND (pprev bnew) vbc Hwf Hd)
    as (fC & vbc1 & E1 & Hd1); [unfold DEPLOYMENT_COMMUNITYFUND; lia|done|].
  unfold IsCommunityFundEnabled. rewrite E1; cbn [mbind option_bind].
  destruct (deployment_in_total h THRESHOLD_ACTIVE DEPLOYMENT_CONSULTATIONS (pprev bnew) vbc1 Hwf Hd1)
    as (fD & vbc2 & E2 & _); [unfold DEPLOYMENT_CONSULTATIONS; lia|done|].
  unfold IsDAOEnabled. rewrite E2; cbn [mbind option_bind].
  destruct (negb fC && negb fD); [by eexists|].
  destruct (VoteStep_scan_total h bv hash_params pnew bnew fUndo fC fD v g Hwf Hb) as [[g1 whole] ->].
  cbn [mbind option_bind]. destruct (VoteStep_maps fC fD v) as [m|] eqn:Em.
  - destruct (VoteStep_apply_total h pnew bnew fUndo p (cycle_length v) v Hr Hc fC fD whole g1 m
      (VoteStep_maps_ok h v Hr fC fD m Em)) as [[b' v'] ->]. by eexists.
  - eexists. split; [reflexivity|]. intros Hread. by destruct (VoteStep_maps_total v fC fD Hread) as [m Hm]; simplify_eq.
Qed.

Lemma VoteStep_returns {params : Params} h bv hash_params p b fUndo v g vbc :
  wf_blocks h -> deployments_ready vbc -> ready h v -> cycle_length v <> 0 ->
  parent_known h b -> (fUndo = true -> pprev b <> None) ->
  exists r, VoteStep h bv hash_params p b fUndo v g vbc = Some r /\ (v_readable v = true -> sr_ok r = true).
Proof.
  intros Hwf Hd Hr Hc Hb Hu. destruct fUndo; [|by eapply VoteStep_at_total].
  destruct (pprev b) as [q|] eqn:Eq; [|by destruct Hu]. destruct (Hb q Eq) as [bq Hq].
  eapply (VoteStep_at_total _ _ _ _ _ _ _ _ _ q bq); [done..|by rewrite Eq; cbn; rewrite Hq|].
  intros u Eu. destruct (wf_prev h Hwf q bq u Hq Eu) as (bu & Hbu & _). by exists bu.
Qed.

(** C25: [VoteStep] returns, forwards and backwards.  In an index without
    gaps, with the tables of deployments complete, for a block whose parent is
    known and, backwards, that has a parent, the call ends without
    dereferencing an unknown block, dividing by zero or throwing, whatever
    votes the blocks hold, provided the cycle length is not zero, the blocks
    of the payment requests are known and the answers to consultations about
    consensus parameters are numbers.  It returns true when the database can
    be read. *)
Theorem VoteStep_total {params : Params} h bv hash_params p b fUndo v g vbc :
  wf_blocks h -> deployments_ready vbc -> ready h v -> cycle_length v <> 0 ->
  parent_known h b -> (fUndo = true -> pprev b <> None) ->
  exists r, VoteStep h bv hash_params p b fUndo v g vbc = Some r /\ (v_readable v = true -> sr_ok r = true).
Proof. apply VoteStep_returns. Qed.

(** ** Checking the conditions, and the example *)

Definition about_consensus_b (v : View) (k : uint256) : bool :=
  match v_consultations v !! k with Some c => CConsultation_IsAboutConsensusParameter c | None => false end.

Definition ready_b (h : BlockMap) (v : View) : bool :=
  forallb (fun kr : uint256 * CPaymentRequest => (pr_txblockhash kr.2 =? 0) || bool_decide (is_Some (h !! pr_txblockhash kr.2)))
    (elems (v_prequests v)) &&
  forallb (fun kc : uint256 * CConsultation => negb (CConsultation_IsAboutConsensusParameter kc.2) ||
      ((c_hash kc.2 =? kc.1) && negb (kc.1 =? 0))) (elems (v_consultations v)) &&
  forallb (fun ka : uint256 * CConsultationAnswer => negb (about_consensus_b v (a_parent ka.2)) ||
      ((a_hash ka.2 =? ka.1) &&
       forallb (fun s => bool_decide (is_Some (stoll s))) (CConsultationAnswer_GetAnswers ka.2)))
    (elems (v_answers v)).

Lemma about_consensus_check v k : about_consensus v k -> about_consensus_b v k = true.
Proof. intros (c & Hc & Ha). unfold about_consensus_b. by rewrite Hc. Qed.

Lemma elems_forallb {A} (f : uint256 * A -> bool) (m : gmap uint256 A) k x :
  forallb f (elems m) = true -> m !! k = Some x -> f (k, x) = true.
Proof. rewrite forallb_forall. intros Hall Hk. apply Hall, list_elem_of_In, elem_of_elems, Hk. Qed.

Lemma ready_check h v : ready_b h v = true -> ready h v.
Proof.
  unfold ready_b. rewrite !andb_true_iff. intros [[Hr Hc] Ha]. split.
  - intros k r Hk. pose proof (elems_forallb _ _ k r Hr Hk) as E. cbn in E.
    apply orb_true_iff in E as [E|E]; [left; nav_bool; done|right; by apply bool_decide_eq_true in E].
  - intros k c Hk Hab. pose proof (elems_forallb _ _ k c Hc Hk) as E. cbn [fst snd] in E.
    rewrite Hab in E. cbn in E. nav_bool. done.
  - intros k a Hk Hab. pose proof (elems_forallb _ _ k a Ha Hk) as E. cbn [fst snd] in E.
    rewrite (about_consensus_check v _ Hab) in E. cbn [negb orb] in E. nav_bool. split; [done|].
    apply Forall_forall. intros s Hs. rewrite forallb_forall in H0. apply list_elem_of_In in Hs.
    by apply H0, bool_decide_eq_true in Hs.
Qed.

(** Consultation 701 changes the number of voting cycles of a proposal; its
    answer 801 has the votes to pass at the end of the cycle. *)
Definition consensus_view : View :=
  let c := mkCConsultation {[103 := ACCEPTED]} 701 101 (Z.lor 1 8) 1 false EmptyString 0 13 [] 0 ∅ [801] 0 in
  let a := mkCConsultationAnswer 1 "30" [] 4 4 0 {[103 := ACCEPTED]} 801 701 101 0 false in
  mkView (v_proposals vote_view) (v_prequests vote_view) ∅ {[701 := c]} {[801 := a]} ∅ 0 true.

Lemma VoteStep_total_witness :
  (exists r, VoteStep vote_blocks vote_votes (fun _ => 7) 107 (vote_block (Some 106) 7 500 80) false
     consensus_view vote_cache (replicate 24 ∅) = Some r /\ (v_readable consensus_view = true -> sr_ok r = true)) /\
  (exists r, VoteStep vote_blocks vote_votes (fun _ => 7) 107 (vote_block (Some 106) 7 500 80) true
     consensus_view vote_cache (replicate 24 ∅) = Some r /\ (v_readable consensus_view = true -> sr_ok r = true)).
Proof.
  split; (apply VoteStep_total;
    [exact vote_blocks_wf|by vm_compute|apply ready_check; vm_compute; reflexivity
    |vm_compute; discriminate|intros q Hq; vm_compute in Hq; injection Hq as <-; by eexists|done]).
Defined.
