(* ===== verification/DaoValidate.v ===== *)
(** * DAO transactions ([consensus/dao.cpp], [main.cpp])

    [IsValid...] decide whether a transaction may create a proposal, payment
    request, consultation or answer; [TxTo...] build the entry.  Both read the
    JSON text in [strDZeel].

    Parameters: the JSON reader [read] ([UniValue::read]), the hash of an
    answer ([CHashWriter]), the address and signature checks
    ([CNavcoinAddress], [DecodeBase64], [CPubKey::RecoverCompact]).  The
    theorems hold for every choice of them.

    A function that lets an exception through has the result [Exn]; inside a
    [try] block it is [false]. *)
From Stdlib Require Import Ascii String.
From S2P Require Import Prelude Float CxxString Chain VersionBits Params DaoTypes StateView DaoRules VoteScript Transaction Json.

(** ** Transactions *)

Definition PROPOSAL_VERSION : Z := 4.
Definition PAYMENT_REQUEST_VERSION : Z := 5.
Definition CONSULTATION_VERSION : Z := 6.
Definition ANSWER_VERSION : Z := 7.
Definition VOTE_VERSION : Z := 8.

Definition out_IsVote (out : CTxOut) : bool :=
  IsProposalVote (scriptPubKey out) || IsPaymentRequestVote (scriptPubKey out).

(** The loop over the outputs that adds up the contributions. *)
Definition contribution (vout : list CTxOut) : Z :=
  foldl (fun n out => if IsCommunityFundContribution (scriptPubKey out) then n + nValue out else n) 0 vout.

(** Whether every bit of the version is in the mask; the [int] is widened to
    64 bits. *)
Definition unmasked (nVersion nMaskVersion : Z) : bool := negb (Z.ldiff (u64 nVersion) nMaskVersion =? 0).

Section validate.
Context {params : Params} (h : BlockMap) (chain : CChain).
Context (read : string -> option UniValue).
Context (hash_answer : uint256 -> string -> uint256) (hash_answers : uint256 -> list string -> uint256).
Context (address_valid address_private : string -> bool) (address_key : string -> Z)
        (decode_base64 : string -> option (list Z)) (recover_key : string -> list Z -> option Z).

Definition IsValidDaoTxVote (tx : CTransaction) (v : View) : bool :=
  let fHasVote := existsb (fun out => out_IsVote out || IsSupportVote (scriptPubKey out) ||
                                     IsConsultationVote (scriptPubKey out)) (tx_vout tx) in
  (Z.land (tx_nVersion tx) 0xF =? VOTE_VERSION) && fHasVote &&
  (GetConsensusParameter CONSENSUS_PARAMS_DAO_VOTE_LIGHT_MIN_FEE v <=? u64 (contribution (tx_vout tx))).

(** The first [try] block: the text must be a JSON object. *)
Definition metadata (strDZeel : string) : option (list (string * UniValue)) :=
  match read strDZeel with Some (VOBJ kv) => Some kv | _ => None end.

(** [find_value(metadata, "v").isNum() ? get_int64() : base], stored in an [int]. *)
Definition read_version (md : list (string * UniValue)) (base : Z) : Outcome Z :=
  let v := find_value md "v" in
  if isNum v then let! n := get_int64 v; Ret (i32 n) else Ret base.

(** ** Consensus parameters *)

(** An active consultation about [param] is in the mempool or in the active
    chain and not finished. *)
Definition active_about (param : Z) (c : CConsultation) : Outcome bool :=
  let! inchain :=
    (if c_txblockhash c =? 0 then Ret true
     else match h !! c_txblockhash c with
     | None => Ret false
     | Some _ => or_undef (chain_Contains h chain (c_txblockhash c))
     end);
  Ret (inchain && CConsultation_IsAboutConsensusParameter c && negb (CConsultation_IsFinished h c) &&
       existsb (fun x => x =? param) (CConsultation_GetParameters c)).

Fixpoint exists_active (param : Z) (l : list (uint256 * CConsultation)) : Outcome bool :=
  match l with
  | [] => Ret false
  | (_, c) :: l => let! b := active_about param c; if b : bool then Ret true else exists_active param l
  end.

Definition about_parameter (param : Z) (v : View) : Outcome bool :=
  match GetAllConsultations v with
  | None => Ret false
  | Some m => exists_active param (elems m)
  end.

(** The tests on one parameter [pos] and its proposed [proposal]. *)
Definition valid_parameter (v : View) (pos : Z) (proposal : string) : Outcome bool :=
  if negb (is_integer_string proposal) then Ret false
  else
    let! n := or_throw (stoll proposal);
    let val := u64 n in
    let! typ := or_undef (if 0 <=? pos then vConsensusParamsType !! Z.to_nat pos else None);
    if bool_decide (typ = TYPE_PERCENT) && (10000 <? val) then Ret false
    else if bool_decide (typ = TYPE_NAV) && (MAX_MONEY <? val) then Ret false
    else if bool_decide (typ = TYPE_NUMBER) && ((val <=? 0) || (2 ^ 24 <? val)) then Ret false
    else if (pos =? CONSENSUS_PARAM_CONSULTATION_MIN_CYCLES) &&
            (GetConsensusParameter CONSENSUS_PARAM_CONSULTATION_MAX_SUPPORT_CYCLES v <? val) then Ret false
    else if (pos =? CONSENSUS_PARAM_CONSULTATION_MAX_SUPPORT_CYCLES) &&
            (val <? GetConsensusParameter CONSENSUS_PARAM_CONSULTATION_MIN_CYCLES v) then Ret false
    else
      let! other :=
        (if pos =? CONSENSUS_PARAM_CONSULTATION_MIN_CYCLES
         then about_parameter CONSENSUS_PARAM_CONSULTATION_MAX_SUPPORT_CYCLES v
         else if pos =? CONSENSUS_PARAM_CONSULTATION_MAX_SUPPORT_CYCLES
         then about_parameter CONSENSUS_PARAM_CONSULTATION_MIN_CYCLES v
         else Ret false);
      if other : bool then Ret false
      else Ret (negb (bool_decide (typ = TYPE_BOOL) && negb (val =? 0) && negb (val =? 1))).

Fixpoint valid_parameters (v : View) (l : list (Z * string)) : Outcome bool :=
  match l with
  | [] => Ret true
  | (pos, proposal) :: l =>
    let! b := valid_parameter v pos proposal; if b : bool then valid_parameters v l else Ret false
  end.

Definition value_text (pos : Z) (value : string) : string := to_string pos ++ ":" ++ value ++ ",".

Definition concat_texts (l : list string) : string := foldr String.append EmptyString l.

Definition IsValidConsensusParameterProposal (vPos : list Z) (vProposal : list string) (v : View) : Outcome bool :=
  if negb (length vPos =? length vProposal)%nat then Ret false
  else
    let! b := valid_parameters v (zip vPos vProposal);
    if negb b then Ret false
    else
      let proposedValue := concat_texts (zip_with value_text vPos vProposal) in
      let oldValue := concat_texts (map (fun pos => value_text pos (to_string (GetConsensusParameter pos v))) vPos) in
      Ret (negb (String.eqb proposedValue oldValue)).

Definition IsValidConsensusParameterProposal1 (pos : Z) (proposal : string) (v : View) : Outcome bool :=
  if negb (is_integer_string proposal) then Ret false
  else IsValidConsensusParameterProposal [pos] [proposal] v.

(** ** Consultations *)

(** The numbers of an array; other elements are skipped. *)
Fixpoint array_numbers (l : list UniValue) : Outcome (list Z) :=
  match l with
  | [] => Ret []
  | a :: l =>
    if isNum a then let! n := get_int64 a; let! rest := array_numbers l; Ret (u64 n :: rest)
    else array_numbers l
  end.

(** The strings of an array, up to the first element that is not one. *)
Fixpoint array_strings (l : list UniValue) : option (list string) :=
  match l with
  | [] => Some []
  | VSTR s :: l => do rest <- array_strings l; Some (s :: rest)
  | _ :: _ => None
  end.

(** The parameters a consultation is about. *)
Definition consultation_parameters (md : list (string * UniValue)) (fSuper : bool) : Outcome (list Z) :=
  let m := find_value md "m" in
  if isNum m && negb fSuper then let! n := get_int64 m; Ret [u64 n]
  else if isArray m && fSuper then let! l := get_array m; array_numbers l
  else Ret [0].

(** [None] is the [return error] of a parameter out of range or already the
    subject of an active consultation. *)
Fixpoint parameters_free (v : View) (l : list Z) : Outcome bool :=
  match l with
  | [] => Ret true
  | param :: l =>
    if MAX_CONSENSUS_PARAMS <=? param then Ret false
    else let! b := about_parameter param v; if b : bool then Ret false else parameters_free v l
  end.

(** The tests behind [if (fIsAboutConsensusParameter)]: the parameters, or
    [None] when one of them fails. *)
Definition consensus_consultation (md : list (string * UniValue)) (v : View) (nMax : Z)
    (fRange fAcceptMoreAnswers fSuper : bool) : Outcome (option (list Z)) :=
  if fRange || negb fAcceptMoreAnswers then Ret None
  else
    let! vParameters := consultation_parameters md fSuper;
    if (length vParameters =? 0)%nat then Ret None
    else if negb (nMax =? 1) then Ret None
    else let! b := parameters_free v vParameters; Ret (if b : bool then Some vParameters else None).

(** The loop over single answers: the distinct answers, or [None] when one of
    them is not a valid value. *)
Fixpoint single_answers (v : View) (nMin : Z) (fIsAboutConsensusParameter : bool) (l : list UniValue)
    (mapSeen : list string) : Outcome (option (list string)) :=
  match l with
  | [] => Ret (Some mapSeen)
  | VSTR it :: l =>
    let mapSeen := if existsb (String.eqb it) mapSeen then mapSeen else mapSeen ++ [it] in
    if fIsAboutConsensusParameter then
      let! b := IsValidConsensusParameterProposal1 (i32 nMin) it v;
      if b : bool then single_answers v nMin fIsAboutConsensusParameter l mapSeen else Ret None
    else single_answers v nMin fIsAboutConsensusParameter l mapSeen
  | _ :: l => single_answers v nMin fIsAboutConsensusParameter l mapSeen
  end.

(** The last tests, once the answers are known. *)
Definition consultation_bounds (tx : CTransaction) (v : View) (sQuestion : string) (nAnswers nSeen : nat)
    (nMin nMax nVersion nMaskVersion : Z) (fRange fAcceptMoreAnswers : bool) : bool :=
  let nMinFee := i64 (u64 (GetConsensusParameter CONSENSUS_PARAM_CONSULTATION_MIN_FEE v +
    GetConsensusParameter CONSENSUS_PARAM_CONSULTATION_ANSWER_MIN_FEE v * Z.of_nat nAnswers)) in
  negb (String.eqb sQuestion "") &&
  (nMinFee <=? contribution (tx_vout tx)) &&
  (if fRange then (nMin <? nMax) && (1 <=? nMin) && (u64 nMax <? u64 VOTE_ABSTAIN)
   else (1 <=? nMax) && (nMax <=? 15)) &&
  ((negb fAcceptMoreAnswers && (1 <? nSeen)%nat) || fAcceptMoreAnswers || fRange) &&
  negb (unmasked nVersion nMaskVersion).

Definition IsValidConsultation_body (tx : CTransaction) (md : list (string * UniValue)) (v : View)
    (nMaskVersion : Z) : Outcome bool :=
  if negb (isNum (find_value md "n") && isStr (find_value md "q")) then Ret false
  else
    let! nMin := (if isNum (find_value md "m") then get_int64 (find_value md "m") else Ret 0);
    let! nMax := get_int64 (find_value md "n");
    let! sQuestion := get_str (find_value md "q");
    let! nVersion := read_version md CConsultation_BASE_VERSION;
    let fRange := flag_set (u64 nVersion) CConsultation_ANSWER_IS_A_RANGE_VERSION in
    let fAcceptMoreAnswers := flag_set (u64 nVersion) CConsultation_MORE_ANSWERS_VERSION in
    let fIsAboutConsensusParameter := flag_set (u64 nVersion) CConsultation_CONSENSUS_PARAMETER_VERSION in
    let fSuper := flag_set (u64 nVersion) CConsultation_SUPER_VERSION in
    let! oParameters :=
      (if fIsAboutConsensusParameter then consensus_consultation md v nMax fRange fAcceptMoreAnswers fSuper
       else Ret (Some []));
    match oParameters with
    | None => Ret false
    | Some vParameters =>
      let! answers := (if isArray (find_value md "a") then get_array (find_value md "a") else Ret []);
      if fRange && fAcceptMoreAnswers then Ret false
      else if negb fAcceptMoreAnswers && negb fRange && (Z.of_nat (length answers) <? u64 nMax) then Ret false
      else if fSuper && negb (length vParameters =? length answers)%nat then Ret false
      else
        let! oSeen :=
          (if fIsAboutConsensusParameter && fSuper then
             match array_strings answers with
             | None => Ret None
             | Some vAnswers =>
               let! b := IsValidConsensusParameterProposal vParameters vAnswers v;
               Ret (if b : bool then Some [] else None)
             end
           else single_answers v nMin fIsAboutConsensusParameter answers []);
        match oSeen with
        | None => Ret false
        | Some mapSeen =>
          Ret (consultation_bounds tx v sQuestion (length answers) (length mapSeen) nMin nMax nVersion
                 nMaskVersion fRange fAcceptMoreAnswers)
        end
    end.

Definition IsValidConsultation (tx : CTransaction) (v : View) (nMaskVersion : Z) : Outcome bool :=
  if (1024 <? String.length (tx_strDZeel tx))%nat then Ret false
  else match metadata (tx_strDZeel tx) with
  | None => Ret false
  | Some md => try_catch (IsValidConsultation_body tx md v nMaskVersion) false
  end.

(** ** Answers *)

Definition IsValidConsultationAnswer_body (tx : CTransaction) (md : list (string * UniValue)) (v : View) :
    Outcome bool :=
  let a := find_value md "a" in
  if negb (isStr (find_value md "h")) && negb (isStr a || isArray a) then Ret false
  else
    let! Hash := get_str (find_value md "h");
    let! _ := read_version md CConsultationAnswer_BASE_VERSION;
    match GetConsultation v (uint256S Hash) with
    | None => Ret false
    | Some consultation =>
      let vAnswers :=
        match a with
        | VARR temp => if CConsultation_IsSuper consultation then array_strings temp else None
        | VSTR s => Some [s]
        | _ => None
        end in
      match vAnswers with
      | None => Ret false
      | Some vAnswers =>
        let! first := or_undef (head vAnswers);
        if String.eqb first "" then Ret false
        else
          let hash := match vAnswers with
            | [s] => hash_answer (uint256S Hash) s
            | _ => hash_answers (uint256S Hash) vAnswers
            end in
          if HaveConsultationAnswer v hash then Ret false
          else if CConsultation_IsRange consultation then Ret false
          else
            let! b := (if CConsultation_IsAboutConsensusParameter consultation
              then IsValidConsensusParameterProposal (CConsultation_GetParameters consultation) vAnswers v
              else Ret true);
            if negb b then Ret false
            else Ret (GetConsensusParameter CONSENSUS_PARAM_CONSULTATION_ANSWER_MIN_FEE v <=?
                      u64 (contribution (tx_vout tx)))
      end
    end.

Definition IsValidConsultationAnswer (tx : CTransaction) (v : View) (nMaskVersion : Z) : Outcome bool :=
  if (255 <? String.length (tx_strDZeel tx))%nat then Ret false
  else match metadata (tx_strDZeel tx) with
  | None => Ret false
  | Some md => try_catch (IsValidConsultationAnswer_body tx md v) false
  end.

(** ** Payment requests and proposals *)

(** The message the owner of the proposal signs. *)
Definition request_message (sRandom : string) (nAmount : Z) (proposalHash : uint256) (id : string) : string :=
  sRandom ++ "I kindly ask to withdraw " ++ to_string nAmount ++ "NAV from the proposal " ++
  GetHex proposalHash ++ ". Payment request id: " ++ id.

(** The signature recovers to the key of the owner's address. *)
Definition valid_signature (Signature Secret ownerAddress : string) : bool :=
  address_valid ownerAddress &&
  match decode_base64 Signature with
  | None => false
  | Some vchSig =>
    match recover_key Secret vchSig with
    | None => false
    | Some key => key =? address_key ownerAddress
    end
  end.

Definition IsValidPaymentRequest (tx : CTransaction) (v : View) (nMaskVersion : Z) : Outcome bool :=
  if (1024 <? String.length (tx_strDZeel tx))%nat then Ret false
  else match metadata (tx_strDZeel tx) with
  | None => Ret false
  | Some md =>
    if negb (isNum (find_value md "n") && isStr (find_value md "s") && isStr (find_value md "h") &&
             isStr (find_value md "i")) then Ret false
    else
      let! nAmount := get_int64 (find_value md "n");
      let! Signature := get_str (find_value md "s");
      let! Hash := get_str (find_value md "h");
      let! strDZeel := get_str (find_value md "i");
      let! nVersion := read_version md 1;
      if nAmount <? 0 then Ret false
      else match GetProposal v (uint256S Hash) with
      | None => Ret false
      | Some proposal =>
        if negb (CProposal_GetLastState h proposal =? ACCEPTED) then Ret false
        else
          let! sRandom := (if (CPaymentRequest_BASE_VERSION <=? u64 nVersion) && isStr (find_value md "r")
            then get_str (find_value md "r") else Ret ""%string);
          if negb (valid_signature Signature (request_message sRandom nAmount (p_hash proposal) strDZeel)
                     (CProposal_GetOwnerAddress proposal)) then Ret false
          else if CProposal_GetAvailable h proposal v true <? nAmount then Ret false
          else Ret (negb ((GetConsensusParameter CONSENSUS_PARAM_PAYMENT_REQUEST_MIN_FEE v <=?
                           u64 (contribution (tx_vout tx))) && unmasked nVersion nMaskVersion))
      end
  end.

Definition IsValidProposal (tx : CTransaction) (v : View) (nMaskVersion : Z) : Outcome bool :=
  if (1024 <? String.length (tx_strDZeel tx))%nat then Ret false
  else match metadata (tx_strDZeel tx) with
  | None => Ret false
  | Some md =>
    if negb (isNum (find_value md "n") && isStr (find_value md "a") && isNum (find_value md "d") &&
             isStr (find_value md "s")) then Ret false
    else
      let! nAmount := get_int64 (find_value md "n");
      let! ownerAddress := get_str (find_value md "a");
      let! paymentAddress := (if isStr (find_value md "p") then get_str (find_value md "p") else Ret ownerAddress);
      let! nDeadline := get_int64 (find_value md "d");
      let! nVersion := read_version md 1;
      if negb (address_valid ownerAddress) then Ret false
      else if negb (address_valid paymentAddress) then Ret false
      else if address_private paymentAddress || address_private ownerAddress then Ret false
      else Ret ((GetConsensusParameter CONSENSUS_PARAM_PROPOSAL_MIN_FEE v <=? u64 (contribution (tx_vout tx))) &&
                negb (String.eqb ownerAddress "") && negb (String.eqb paymentAddress "") &&
                (nAmount <? MAX_MONEY) && (0 <? nAmount) && (0 <? nDeadline) &&
                negb (unmasked nVersion nMaskVersion))
  end.

(** ** Building the entries ([main.cpp])

    The caller passes a new entry; [None] is [return false].  The members
    have their own widths: the deadline of a proposal is a [uint32_t], the
    version of a consultation a [uint64_t]. *)

(** [get_int()] of the version, which throws outside 32 bits. *)
Definition read_version32 (md : list (string * UniValue)) (base : Z) : Outcome Z :=
  let v := find_value md "v" in if isNum v then get_int v else Ret base.

Definition TxToProposal (strDZeel : string) (hash blockhash : uint256) (nProposalFee : Z) :
    Outcome (option CProposal) :=
  match metadata strDZeel with
  | None => Ret None
  | Some md =>
    let! nVersion := read_version32 md 1;
    let! nAmount := get_int64 (find_value md "n");
    let! ownerAddress := get_str (find_value md "a");
    let! '(nVersion, paymentAddress) :=
      (if isStr (find_value md "p") then
         let! a := get_str (find_value md "a");
         Ret (Z.lor (u64 nVersion) CProposal_PAYMENT_ADDRESS_VERSION, a)
       else Ret (Z.ldiff (u64 nVersion) CProposal_PAYMENT_ADDRESS_VERSION, ownerAddress));
    let! nDeadline := get_int64 (find_value md "d");
    let! s := get_str (find_value md "s");
    if nAmount <? 0 then Ret None
    else Ret (Some (mkCProposal nAmount nProposalFee ownerAddress paymentAddress (u32 nDeadline) ∅ 0 0 0 0 s hash
                      blockhash (i32 nVersion) 0 true))
  end.

Definition TxToPaymentRequest (strDZeel : string) (hash blockhash : uint256) : Outcome (option CPaymentRequest) :=
  match metadata strDZeel with
  | None => Ret None
  | Some md =>
    let! nAmount := get_int64 (find_value md "n");
    let! proposal := get_str (find_value md "h");
    let! s := get_str (find_value md "i");
    let! nVersion := read_version32 md 1;
    if nAmount <? 0 then Ret None
    else Ret (Some (mkCPaymentRequest nAmount ∅ hash (uint256S ("0x" ++ proposal)) blockhash 0 0 0 0 s
                      nVersion 0 true))
  end.

(** The strings of an array; other elements are skipped. *)
Definition array_strings_only (l : list UniValue) : list string :=
  foldr (fun u acc => match u with VSTR s => s :: acc | _ => acc end) [] l.

Fixpoint array_numbers_all (l : list UniValue) : Outcome (option (list Z)) :=
  match l with
  | [] => Ret (Some [])
  | a :: l =>
    if negb (isNum a) then Ret None
    else let! n := get_int64 a; let! o := array_numbers_all l; Ret (do rest <- o; Some (u64 n :: rest))
  end.

Fixpoint distinct (seen l : list string) : list string :=
  match l with
  | [] => []
  | s :: l => if existsb (String.eqb s) seen then distinct seen l else s :: distinct (s :: seen) l
  end.

(** An answer created with its consultation. *)
Definition child_answer (hash blockhash : uint256) (fExclude : bool) (nVersion : Z) (ahash : uint256)
    (sAnswer : string) (vAnswer : list string) : CConsultationAnswer :=
  mkCConsultationAnswer (if fExclude then Z.lor nVersion CConsultationAnswer_EXCLUDE_VERSION else nVersion)
    sAnswer vAnswer 0 0 0 ∅ ahash hash blockhash 0 true.

(** [fExclude] is [IsExcludeEnabled(pindexPrev)]. *)
Definition TxToConsultation (strDZeel : string) (hash blockhash : uint256) (fExclude : bool) :
    Outcome (option (CConsultation * list CConsultationAnswer)) :=
  match metadata strDZeel with
  | None => Ret None
  | Some md =>
    let! nVersion := (if isNum (find_value md "v") then let! n := get_int64 (find_value md "v"); Ret (u64 n)
                      else Ret CConsultation_BASE_VERSION);
    let! q := get_str (find_value md "q");
    let fSuper := flag_set nVersion CConsultation_SUPER_VERSION in
    let! oMin :=
      (if fSuper then
         let! arr := get_array (find_value md "m");
         let! o := array_numbers_all arr; Ret (do l <- o; Some (0, l))
       else let! n := get_int64 (find_value md "m"); Ret (Some (u64 n, [])));
    match oMin with
    | None => Ret None
    | Some (nMin, vParameters) =>
      let! nMax := get_int64 (find_value md "n");
      let consultation := mkCConsultation ∅ hash blockhash nVersion 0 true q 0 nMin vParameters (u64 nMax) ∅ [] 0 in
      let answers :=
        match find_value md "a" with
        | VARR l => if CConsultation_IsRange consultation then [] else l
        | _ => []
        end in
      let vAnswers :=
        if isArray (find_value md "a") && negb (CConsultation_IsRange consultation) then
          let texts := array_strings_only answers in
          if fSuper then
            [child_answer hash blockhash fExclude
               (Z.lor CConsultationAnswer_BASE_VERSION CConsultationAnswer_SUPER_VERSION)
               (hash_answers hash texts) EmptyString texts]
          else map (fun s => child_answer hash blockhash fExclude CConsultationAnswer_BASE_VERSION
                      (hash_answer hash s) s []) (distinct [] texts)
        else [] in
      Ret (Some (consultation, vAnswers))
    end
  end.

Definition TxToConsultationAnswer (strDZeel : string) (hash blockhash : uint256) :
    Outcome (option CConsultationAnswer) :=
  match metadata strDZeel with
  | None => Ret None
  | Some md =>
    let! nVersion := read_version md CConsultationAnswer_BASE_VERSION;
    let fSuper := flag_set nVersion CConsultationAnswer_SUPER_VERSION in
    let answers : option (string * list string) :=
      if fSuper then match find_value md "a" with VARR l => do t <- array_strings l; Some (EmptyString, t) | _ => None end
      else match find_value md "a" with VSTR s => Some (s, []) | _ => None end in
    match answers with
    | None => Ret None
    | Some (sAnswer, vAnswer) =>
      let! Hash := get_str (find_value md "h");
      let parent := uint256S Hash in
      let ahash := if fSuper then hash_answers parent vAnswer else hash_answer parent sAnswer in
      Ret (Some (mkCConsultationAnswer nVersion sAnswer vAnswer 0 0 0 ∅ ahash parent blockhash hash true))
    end
  end.
End validate.
