(* ===== verification/DaoValidateProps.v ===== *)
(** * What validated DAO transactions guarantee

    A transaction [IsValid...] accepts gives an entry the rest of the DAO code
    can rely on; where the code accepts more than it means to, the theorem
    says what. *)
From Stdlib Require Import Ascii String.
From S2P Require Import Prelude Float CxxString Chain VersionBits Params DaoTypes StateView DaoRules VoteScript Transaction Json.
From S2P Require Import VoteStep VoteDemo DaoSpec VoteStepProps VoteTotal DaoValidate.

(** Invert the branches of [c = Ret true] or [c = Ret (Some _)]. *)
Ltac ret_step H :=
  match type of H with
  | (if ?b then Ret false else _) = Ret true => destruct b eqn:?; [discriminate H|]
  | (if ?b then Ret None else _) = Ret (Some _) => destruct b eqn:?; [discriminate H|]
  | match ?m with Some _ => _ | None => Ret false end = Ret true => destruct m eqn:?; [|discriminate H]
  | match ?m with Some _ => _ | None => Ret None end = Ret (Some _) => destruct m eqn:?; [|discriminate H]
  | mbind _ _ = Ret _ => apply outcome_bind_Ret in H as (? & ? & H)
  | Ret _ = Ret _ => injection H as H
  end.
Ltac ret_invert H := cbv zeta in H; repeat (ret_step H; cbv zeta in H).

Section facts.
Context {params : Params} (h : BlockMap) (chain : CChain) (read : string -> option UniValue).
Context (hash_answer : uint256 -> string -> uint256) (hash_answers : uint256 -> list string -> uint256).
Context (address_valid address_private : string -> bool) (address_key : string -> Z)
        (decode_base64 : string -> option (list Z)) (recover_key : string -> list Z -> option Z).

(** The version the entry gets, or an exception when it needs more than 32 bits. *)
Lemma read_version32_spec md base n :
  read_version md base = Ret n ->
  read_version32 md base = Exn \/ read_version32 md base = Ret n.
Proof.
  unfold read_version, read_version32. destruct (isNum (find_value md "v")) eqn:En; [|by right].
  intros Hv. ret_invert Hv. subst n. destruct (get_int_cases _ En) as [E|[m E]]; [by left|right].
  rewrite E. destruct (get_int_spec _ _ E) as [Hm E64]. rewrite i32_small; congruence.
Qed.

Lemma valid_proposal_entry tx v mask blockhash fee :
  IsValidProposal read address_valid address_private tx v mask = Ret true ->
  match TxToProposal read (tx_strDZeel tx) (tx_hash tx) blockhash fee with
  | Ret (Some p) => 0 < p_nAmount p < MAX_MONEY /\ p_hash p = tx_hash tx /\ p_txblockhash p = blockhash /\
      p_mapState p = ∅ /\ address_valid (p_ownerAddress p) = true /\ p_fDirty p = true
  | Exn => exists md, metadata read (tx_strDZeel tx) = Some md /\ read_version32 md 1 = Exn
  | Ret None | Undef => False
  end.
Proof.
  intros Hv. unfold IsValidProposal in Hv. ret_invert Hv. nav_bool. unfold TxToProposal. rewrite Heqo.
  match goal with H : read_version _ _ = Ret _ |- _ => destruct (read_version32_spec _ _ _ H) as [E|E] end;
    rewrite E; cbn [mbind outcome_bind]; [by eauto|].
  destruct (find_value l "s") as [| | |s| |]; try discriminate.
  repeat match goal with H : _ = Ret ?x |- context [_] => rewrite H; cbn [mbind outcome_bind get_str] end.
  destruct (isStr (find_value l "p")); cbn [mbind outcome_bind]; rewrite (proj2 (Z.ltb_ge x 0)) by lia; by auto.
Qed.

(** A proposal that passes validation becomes a proposal with the hash of
    its transaction, an amount between one and the maximum, no history and an
    address that is valid; building it can only fail with an exception, when
    the version does not fit 32 bits. *)
Theorem IsValidProposal_sound tx v mask blockhash fee :
  IsValidProposal read address_valid address_private tx v mask = Ret true ->
  match TxToProposal read (tx_strDZeel tx) (tx_hash tx) blockhash fee with
  | Ret (Some p) => 0 < p_nAmount p < MAX_MONEY /\ p_hash p = tx_hash tx /\ p_txblockhash p = blockhash /\
      p_mapState p = ∅ /\ address_valid (p_ownerAddress p) = true /\ p_fDirty p = true
  | Exn => exists md, metadata read (tx_strDZeel tx) = Some md /\ read_version32 md 1 = Exn
  | Ret None | Undef => False
  end.
Proof. apply valid_proposal_entry. Qed.

(** The payment address of a new proposal is always its owner's address:
    the separate address a transaction gives in [p] is checked by
    [IsValidProposal] and then not used. *)
Theorem TxToProposal_payment_address strDZeel hash blockhash fee p :
  TxToProposal read strDZeel hash blockhash fee = Ret (Some p) ->
  p_paymentAddress p = p_ownerAddress p.
Proof.
  unfold TxToProposal. intros Hp. destruct (metadata read strDZeel) as [md|]; [|discriminate].
  apply outcome_bind_Ret in Hp as (nv & _ & Hp). apply outcome_bind_Ret in Hp as (amount & _ & Hp).
  apply outcome_bind_Ret in Hp as (owner & Ho & Hp). apply outcome_bind_Ret in Hp as ([nv' pay] & Hpay & Hp).
  rewrite Ho in Hpay. assert (pay = owner) as ->.
  { destruct (isStr (find_value md "p")); cbn in Hpay; congruence. }
  ret_invert Hp. by subst p.
Qed.

(** C31: A payment request that passes validation names an accepted proposal,
    asks for at most what is left of it when the requests still being voted
    are counted, and is signed by the owner of the proposal. *)
Theorem IsValidPaymentRequest_sound tx v mask :
  IsValidPaymentRequest h read address_valid address_key decode_base64 recover_key tx v mask = Ret true ->
  exists md amount Hash proposal,
    metadata read (tx_strDZeel tx) = Some md /\ get_int64 (find_value md "n") = Ret amount /\
    get_str (find_value md "h") = Ret Hash /\ GetProposal v (uint256S Hash) = Some proposal /\
    CProposal_GetLastState h proposal = ACCEPTED /\
    0 <= amount <= CProposal_GetAvailable h proposal v true /\
    address_valid (CProposal_GetOwnerAddress proposal) = true /\
    exists sRandom sig id vch, get_str (find_value md "s") = Ret sig /\ get_str (find_value md "i") = Ret id /\
      decode_base64 sig = Some vch /\
      recover_key (request_message sRandom amount (p_hash proposal) id) vch =
        Some (address_key (CProposal_GetOwnerAddress proposal)).
Proof.
  intros Hv. unfold IsValidPaymentRequest in Hv. ret_invert Hv. nav_bool.
  match goal with H : valid_signature _ _ _ _ _ _ _ = true |- _ => unfold valid_signature in H end. nav_bool.
  destruct (decode_base64 _) as [vch|] eqn:Ed; [|discriminate]. destruct (recover_key _ vch) as [key|] eqn:Ek; [|discriminate].
  nav_bool. subst key. do 4 eexists. do 7 (split; [by eauto|]). by eauto 10.
Qed.

(** The fee of a payment request is not enforced: once a request is valid,
    the same request without any contribution is valid too, when a minimum fee
    is set, and then whatever the mask of known versions is. *)
Theorem IsValidPaymentRequest_no_fee tx v mask mask' :
  IsValidPaymentRequest h read address_valid address_key decode_base64 recover_key tx v mask = Ret true ->
  0 < GetConsensusParameter CONSENSUS_PARAM_PAYMENT_REQUEST_MIN_FEE v ->
  IsValidPaymentRequest h read address_valid address_key decode_base64 recover_key
    (mkCTransaction (tx_nVersion tx) (tx_vin tx) [] (tx_strDZeel tx) (tx_hash tx)) v mask' = Ret true.
Proof.
  intros Hv Hfee. unfold IsValidPaymentRequest in *; cbn [tx_strDZeel tx_vout]. ret_invert Hv.
  repeat match goal with H : _ = false |- context [if _ then Ret false else _] => rewrite H; clear H end.
  repeat match goal with H : _ = _ |- context [_] => rewrite H; cbn [mbind outcome_bind] end.
  change (u64 (contribution [])) with 0. by rewrite (proj2 (Z.leb_gt _ _)) by lia.
Qed.

(** ** Consensus parameters *)

(** What a type allows. *)
Definition in_type (typ : ConsensusParamType) (val : Z) : Prop :=
  match typ with
  | TYPE_PERCENT => val <= 10000
  | TYPE_NAV => val <= MAX_MONEY
  | TYPE_NUMBER => 0 < val <= 2 ^ 24
  | TYPE_BOOL => val = 0 \/ val = 1
  | TYPE_BLOCK | TYPE_CYCLE => True
  end.

Lemma valid_parameter_sound v pos s :
  valid_parameter h chain v pos s = Ret true ->
  is_integer_string s = true /\ exists val typ, stoll s = Some val /\ 0 <= val < 2 ^ 63 /\ 0 <= pos /\
    vConsensusParamsType !! Z.to_nat pos = Some typ /\ in_type typ val.
Proof.
  intros Hv. unfold valid_parameter in Hv. ret_invert Hv. nav_bool.
  match goal with H : or_throw (stoll s) = Ret ?x |- _ =>
    destruct (stoll s) as [val|] eqn:Es; [|discriminate]; injection H as <- end.
  pose proof (stoll_integer s val ltac:(done) Es) as Hval. rewrite !u64_small in * by lia.
  split; [done|].
  match goal with H : or_undef (if 0 <=? pos then ?o else None) = Ret ?t |- _ =>
    destruct (Z.leb_spec 0 pos); [|discriminate]; destruct o as [typ|] eqn:Et; [|discriminate]; injection H as <- end.
  exists val, typ. repeat (split; [done || lia|]). nav_bool.
  unfold in_type. destruct typ; rewrite ?bool_decide_true in * by done; cbn [andb] in *; nav_bool; try lia.
Qed.

Lemma valid_parameters_sound v l :
  valid_parameters h chain v l = Ret true -> Forall (fun ps => valid_parameter h chain v ps.1 ps.2 = Ret true) l.
Proof.
  induction l as [|[pos s] l IH]; cbn [valid_parameters]; [done|]. intros Hv.
  apply outcome_bind_Ret in Hv as ([] & Hp & Hv); [|discriminate]. constructor; [done|auto].
Qed.

(** C32: Accepted parameter changes are in range: one value per parameter, each
    a sequence of digits that fits 63 bits and lies in the range of the type
    of the parameter. *)
Theorem IsValidConsensusParameterProposal_sound vPos vProposal v :
  IsValidConsensusParameterProposal h chain vPos vProposal v = Ret true ->
  length vPos = length vProposal /\
  forall i pos s, vPos !! i = Some pos -> vProposal !! i = Some s ->
    is_integer_string s = true /\ exists val typ, stoll s = Some val /\ 0 <= val < 2 ^ 63 /\ 0 <= pos /\
      vConsensusParamsType !! Z.to_nat pos = Some typ /\ in_type typ val.
Proof.
  intros Hv. unfold IsValidConsensusParameterProposal in Hv. ret_invert Hv. nav_bool. subst.
  match goal with H : (_ =? _)%nat = true |- _ => apply Nat.eqb_eq in H end. split; [done|].
  intros i pos s Hp Hs. apply (valid_parameter_sound v).
  match goal with H : valid_parameters _ _ _ _ = Ret true |- _ => apply valid_parameters_sound in H;
    rewrite Forall_lookup in H; apply (H i (pos, s)) end.
  by rewrite lookup_zip_with, Hp; cbn; rewrite Hs.
Qed.

(** ** Consultations *)

Lemma exists_active_false param l :
  exists_active h chain param l = Ret false ->
  Forall (fun kc => active_about h chain param kc.2 = Ret false) l.
Proof.
  induction l as [|[k c] l IH]; cbn [exists_active]; [done|]. intros Hv.
  apply outcome_bind_Ret in Hv as ([] & Hp & Hv); [discriminate|]. constructor; [done|auto].
Qed.

Lemma parameters_free_sound v l :
  parameters_free h chain v l = Ret true ->
  Forall (fun param => param < MAX_CONSENSUS_PARAMS /\ about_parameter h chain param v = Ret false) l.
Proof.
  induction l as [|p l IH]; cbn [parameters_free]; [done|]. intros Hv. ret_invert Hv.
  subst. nav_bool. constructor; [by split|]. by apply IH.
Qed.

(** A consultation about consensus parameters that passes validation takes
    more answers, is not a range, has one choice, and no unfinished
    consultation of the active chain or the memory pool is about one of its
    parameters. *)
Theorem IsValidConsultation_parameters tx v mask md version :
  IsValidConsultation h chain read tx v mask = Ret true ->
  metadata read (tx_strDZeel tx) = Some md -> read_version md CConsultation_BASE_VERSION = Ret version ->
  flag_set (u64 version) CConsultation_CONSENSUS_PARAMETER_VERSION = true ->
  flag_set (u64 version) CConsultation_ANSWER_IS_A_RANGE_VERSION = false /\
  flag_set (u64 version) CConsultation_MORE_ANSWERS_VERSION = true /\
  get_int64 (find_value md "n") = Ret 1 /\
  exists vParameters,
    consultation_parameters md (flag_set (u64 version) CConsultation_SUPER_VERSION) = Ret vParameters /\
    vParameters <> [] /\
    forall param, param ∈ vParameters -> param < MAX_CONSENSUS_PARAMS /\
      forall m k c, GetAllConsultations v = Some m -> m !! k = Some c -> active_about h chain param c = Ret false.
Proof.
  intros Hv Hmd Hver Habout. unfold IsValidConsultation in Hv. rewrite Hmd in Hv.
  destruct (1024 <? _)%nat; [discriminate|]. apply try_catch_Ret in Hv; [|done].
  unfold IsValidConsultation_body in Hv. destruct (negb _) in Hv; [discriminate|].
  apply outcome_bind_Ret in Hv as (nMin & _ & Hv). apply outcome_bind_Ret in Hv as (nMax & Hmax & Hv).
  apply outcome_bind_Ret in Hv as (q & _ & Hv). rewrite Hver in Hv. cbn [mbind outcome_bind] in Hv. cbv zeta in Hv.
  rewrite Habout in Hv. apply outcome_bind_Ret in Hv as ([ps|] & Hps & Hrest); [clear Hrest|discriminate].
  unfold consensus_consultation in Hps. ret_invert Hps. nav_bool. subst.
  match goal with H : (if ?b then Some _ else None) = Some _ |- _ => destruct b; [injection H as ->|discriminate] end.
  split; [done|]. split; [done|]. split; [done|]. exists ps. split; [done|]. split; [by intros ->|].
  intros param Hin. match goal with H : parameters_free _ _ _ _ = Ret true |- _ => apply parameters_free_sound in H;
    rewrite Forall_forall in H; destruct (H param Hin) as [Hlt Hab] end.
  split; [done|]. intros m k c Hm Hk. unfold about_parameter in Hab. rewrite Hm in Hab.
  apply exists_active_false in Hab. rewrite Forall_forall in Hab. apply (Hab (k, c)). by apply elem_of_elems.
Qed.
End facts.

(** ** Concrete transactions

    The reader of the examples returns one fixed object. *)

Definition demo_read (md : list (string * UniValue)) : string -> option UniValue := fun _ => Some (VOBJ md).

Definition demo_tx (vout : list CTxOut) : CTransaction := mkCTransaction 4 [] vout "{}" 900.

Definition proposal_md (deadline : string) : list (string * UniValue) :=
  [("n", VNUM "120"); ("a", VSTR "owner"); ("p", VSTR "payee"); ("d", VNUM deadline); ("s", VSTR "road"); ("v", VNUM "2")]%string.

Lemma IsValidProposal_sound_witness :
  match TxToProposal (demo_read (proposal_md "3600")) "{}" 900 107 5 with
  | Ret (Some p) => 0 < p_nAmount p < MAX_MONEY /\ p_hash p = 900 /\ p_txblockhash p = 107 /\
      p_mapState p = ∅ /\ true = true /\ p_fDirty p = true
  | Exn => exists md, metadata (demo_read (proposal_md "3600")) "{}" = Some md /\ read_version32 md 1 = Exn
  | Ret None | Undef => False
  end.
Proof.
  refine (IsValidProposal_sound (demo_read (proposal_md "3600")) (fun _ => true) (fun _ => false) (demo_tx [])
    vote_view 0x7f 107 5 _).
  vm_compute. reflexivity.
Defined.

Lemma TxToProposal_payment_address_witness : exists p,
  TxToProposal (demo_read (proposal_md "3600")) "{}" 900 107 5 = Ret (Some p) /\
  p_paymentAddress p = p_ownerAddress p.
Proof.
  eexists. split; [vm_compute; reflexivity|].
  apply (TxToProposal_payment_address (demo_read (proposal_md "3600")) "{}" 900 107 5). vm_compute. reflexivity.
Defined.

(** The deadline of a proposal is cut to 32 bits: a proposal whose deadline
    is 2^32 seconds passes validation and is stored with deadline 0. *)
Lemma proposal_deadline_truncated :
  IsValidProposal (demo_read (proposal_md "4294967296")) (fun _ => true) (fun _ => false) (demo_tx []) vote_view 0x7f
    = Ret true /\
  match TxToProposal (demo_read (proposal_md "4294967296")) "{}" 900 107 5 with
  | Ret (Some p) => p_nDeadline p = 0
  | _ => False
  end.
Proof. split; vm_compute; reflexivity. Qed.

(** A request of 20 from proposal 501, where a fee of 10 is set. *)
Definition request_md : list (string * UniValue) :=
  [("n", VNUM "20"); ("s", VSTR "c2ln"); ("h", VSTR (GetHex 501)); ("i", VSTR "first")]%string.

Definition fee_view : View :=
  mkView (v_proposals vote_view) (v_prequests vote_view) ∅ ∅ ∅
    {[CONSENSUS_PARAM_PAYMENT_REQUEST_MIN_FEE := mkCConsensusParameter false {[1 := 10]}]} 0 true.

Definition fee_tx : CTransaction := demo_tx [mkCTxOut 10 SetScriptForCommunityFundContribution].

Lemma IsValidPaymentRequest_sound_witness : exists md amount Hash proposal,
    metadata (demo_read request_md) (tx_strDZeel fee_tx) = Some md /\ get_int64 (find_value md "n") = Ret amount /\
    get_str (find_value md "h") = Ret Hash /\ GetProposal fee_view (uint256S Hash) = Some proposal /\
    CProposal_GetLastState vote_blocks proposal = ACCEPTED /\
    0 <= amount <= CProposal_GetAvailable vote_blocks proposal fee_view true /\ true = true /\
    exists sRandom sig id vch, get_str (find_value md "s") = Ret sig /\ get_str (find_value md "i") = Ret id /\
      (fun _ => Some [1]) sig = Some vch /\
      (fun _ _ => Some 9) (request_message sRandom amount (p_hash proposal) id) vch = Some 9.
Proof.
  refine (IsValidPaymentRequest_sound vote_blocks (demo_read request_md) (fun _ => true) (fun _ => 9) (fun _ => Some [1])
    (fun _ _ => Some 9) fee_tx fee_view 0x3f _).
  vm_compute. reflexivity.
Defined.

Lemma IsValidPaymentRequest_no_fee_witness :
  IsValidPaymentRequest vote_blocks (demo_read request_md) (fun _ => true) (fun _ => 9) (fun _ => Some [1])
    (fun _ _ => Some 9) (demo_tx []) fee_view 0 = Ret true.
Proof.
  refine (IsValidPaymentRequest_no_fee vote_blocks (demo_read request_md) (fun _ => true) (fun _ => 9)
    (fun _ => Some [1]) (fun _ _ => Some 9) fee_tx fee_view 0x3f 0 _ _).
  - vm_compute. reflexivity.
  - vm_compute. reflexivity.
Defined.

Lemma IsValidConsensusParameterProposal_sound_witness :
  length [CONSENSUS_PARAM_PROPOSAL_MIN_QUORUM] = length ["6000"%string] /\
  forall i pos s, [CONSENSUS_PARAM_PROPOSAL_MIN_QUORUM] !! i = Some pos -> ["6000"%string] !! i = Some s ->
    is_integer_string s = true /\ exists val typ, stoll s = Some val /\ 0 <= val < 2 ^ 63 /\ 0 <= pos /\
      vConsensusParamsType !! Z.to_nat pos = Some typ /\ in_type typ val.
Proof.
  apply (IsValidConsensusParameterProposal_sound vote_blocks [] [CONSENSUS_PARAM_PROPOSAL_MIN_QUORUM]
    ["6000"%string] vote_view). vm_compute. reflexivity.
Defined.

(** ** A voting cycle of length zero *)

Lemma to_string_zero z : to_string z = "0"%string -> z = 0.
Proof.
  assert (forall fuel y acc, 0 <= y -> acc <> EmptyString -> to_string_fuel fuel y acc <> "0"%string) as Hlong.
  { induction fuel as [|fuel IH]; intros y acc Hy Ha; cbn [to_string_fuel]; [intros [= _ E]; done|].
    destruct (y <? 10); [intros [= _ E]; done|]. apply IH; [apply Z.div_pos; lia|done]. }
  unfold to_string. destruct (Z.ltb_spec z 0) as [|Hz]; [done|]. generalize 19%nat as fuel. intros fuel. cbn [to_string_fuel].
  destruct (Z.ltb_spec z 10) as [Hlt|]; [|intros E; by apply Hlong in E; [|apply Z.div_pos; lia|]].
  rewrite Z.mod_small by lia. intros E. assert (z = 0 \/ z = 1 \/ z = 2 \/ z = 3 \/ z = 4 \/ z = 5 \/ z = 6 \/ z = 7 \/ z = 8 \/ z = 9) as H by lia.
  repeat destruct H as [->|H]; try done. by subst.
Qed.

Lemma append_comma s t : (s ++ "," = t ++ ",")%string -> s = t.
Proof.
  revert t; induction s as [|c s IH]; intros [|d t] E; cbn in E; [done| | |].
  - injection E as _ E. by destruct t.
  - injection E as _ E. by destruct s.
  - injection E as -> E. by rewrite (IH t E).
Qed.

Lemma zero_length_valid {params : Params} h chain v : cycle_length v <> 0 ->
  IsValidConsensusParameterProposal h chain [CONSENSUS_PARAM_VOTING_CYCLE_LENGTH] ["0"%string] v = Ret true.
Proof.
  intros Hc. unfold IsValidConsensusParameterProposal. cbn [length Nat.eqb negb zip zip_with].
  replace (valid_parameters h chain v [(CONSENSUS_PARAM_VOTING_CYCLE_LENGTH, "0"%string)]) with (Ret true) by reflexivity.
  cbn [mbind outcome_bind negb]. f_equal. apply negb_true_iff, String.eqb_neq. intros E. apply Hc, to_string_zero.
  unfold cycle_length. symmetry. cbn in E. injection E as E.
  assert (forall x, (x ++ "")%string = x) as Hnil by (induction x as [|c x IH]; [done|change (String c (x ++ "") = String c x)%string; by rewrite IH]).
  rewrite !Hnil in E. apply append_comma. exact E.
Qed.

(** No value of the cycle length is recorded at or above the height of [b]. *)
Definition length_set_before (b : CBlockIndex) (v : View) : Prop :=
  0 <= nHeight b /\ forall x k w, v_consensus v !! CONSENSUS_PARAM_VOTING_CYCLE_LENGTH = Some x ->
    cp_list x !! k = Some w -> k < nHeight b.

Lemma change_parameter_length {params : Params} b v n : length_set_before b v ->
  cycle_length (change_parameter b v (CONSENSUS_PARAM_VOTING_CYCLE_LENGTH, n)) = n.
Proof.
  intros [Hb Hbelow]. unfold change_parameter, cycle_length, GetConsensusParameter, view_GetConsensusParameter.
  change (i32 (CONSENSUS_PARAM_VOTING_CYCLE_LENGTH, n).1) with CONSENSUS_PARAM_VOTING_CYCLE_LENGTH. cbn [snd].
  set (k := CONSENSUS_PARAM_VOTING_CYCLE_LENGTH) in *. unfold ModifyConsensusParameter, tbl_modify. cbn [v_consensus set_v_consensus].
  set (t := tbl_open (v_consensus v) k). unfold tbl_close.
  set (e := CConsensusParameter_Set (tbl_entry t k) (nHeight b) n).
  assert (forall j w, cp_list (tbl_entry t k) !! j = Some w -> j < nHeight b) as Hlow.
  { intros j w. unfold t, tbl_open, tbl_entry. destruct (v_consensus v !! k) as [x|] eqn:E; [rewrite E; by apply Hbelow|].
    rewrite lookup_insert_eq. cbn. by rewrite lookup_empty. }
  assert (entry_IsNull e = false) as Hn.
  { apply bool_decide_eq_false. apply insert_non_empty. }
  assert (tbl_entry (<[k := e]> t) k = e) as -> by (unfold tbl_entry; by rewrite lookup_insert_eq). rewrite Hn.
  destruct (tbl_mark_insert t k e (tbl_entry t k)) as (e' & -> & Hd).
  assert (cp_list e' = cp_list e) as El by (destruct Hd as [->| ->]; done).
  unfold tbl_get. rewrite lookup_insert_eq. cbn [mbind option_bind].
  assert (entry_IsNull e' = false) as -> by (apply bool_decide_eq_false; rewrite El; apply insert_non_empty).
  destruct (CConsensusParameter_Set_Get (tbl_entry t k) (nHeight b) n Hb Hlow) as [Hg _].
  replace (CConsensusParameter_Get e') with (Some n); [done|]. rewrite <- Hg. unfold CConsensusParameter_Get. by rewrite El.
Qed.

(** C33: The length of the voting cycle can be voted to zero, and the node then
    cannot connect or disconnect a block.  In every view where the length is not
    zero already the value zero passes validation, because parameters counted
    in blocks or cycles have no range; when it is accepted it is the length from
    that block on; and in every view with that length every call of [VoteStep]
    fails.  Nothing but the division by the length is to blame: whenever the
    other conditions of a call hold, it returns in the same view with any other
    length. *)
Theorem cycle_length_zero {params : Params} :
  (forall h chain v, cycle_length v <> 0 ->
     IsValidConsensusParameterProposal h chain [CONSENSUS_PARAM_VOTING_CYCLE_LENGTH] ["0"%string] v = Ret true) /\
  (forall b v, length_set_before b v -> cycle_length (change_parameter b v (CONSENSUS_PARAM_VOTING_CYCLE_LENGTH, 0)) = 0) /\
  (forall h bv hash_params p b fUndo v g vbc, cycle_length v = 0 -> VoteStep h bv hash_params p b fUndo v g vbc = None) /\
  (forall h bv hash_params p b fUndo v g vbc t,
     wf_blocks h -> deployments_ready vbc -> ready h v -> parent_known h b -> (fUndo = true -> pprev b <> None) ->
     cycle_length (set_v_consensus v t) <> 0 -> is_Some (VoteStep h bv hash_params p b fUndo (set_v_consensus v t) g vbc)).
Proof.
  split; [exact zero_length_valid|]. split; [intros b v; apply change_parameter_length|]. split.
  - intros h bv hash_params p b fUndo v g vbc Hc. unfold VoteStep. rewrite Hc. destruct fUndo; [|done].
    destruct (pprev b) as [q|]; [|done]. cbn [mbind option_bind]. by destruct (h !! q).
  - intros h bv hash_params p b fUndo v g vbc t Hwf Hd [R1 R2 R3] Hb Hu Hc.
    destruct (VoteStep_returns h bv hash_params p b fUndo (set_v_consensus v t) g vbc) as (r & Hr & _); [done..|by exists r].
Qed.

(** The network after the change of the cycle length to zero. *)
Definition zero_view : View := change_parameter (vote_block (Some 106) 7 500 50) vote_view (CONSENSUS_PARAM_VOTING_CYCLE_LENGTH, 0).

Lemma cycle_length_zero_witness :
  IsValidConsensusParameterProposal vote_blocks [] [CONSENSUS_PARAM_VOTING_CYCLE_LENGTH] ["0"%string] vote_view = Ret true /\
  (forall fUndo, VoteStep vote_blocks vote_votes (fun _ => 7) 107 (vote_block (Some 106) 7 500 50) fUndo zero_view vote_cache (replicate 24 ∅) = None) /\
  is_Some (VoteStep vote_blocks vote_votes (fun _ => 7) 107 (vote_block (Some 106) 7 500 50) false
    (set_v_consensus zero_view (v_consensus vote_view)) vote_cache (replicate 24 ∅)).
Proof.
  destruct cycle_length_zero as (H1 & H2 & H3 & H4). split; [|split].
  - apply H1. vm_compute. discriminate.
  - intros fUndo. apply H3. unfold zero_view. apply H2. split; [cbn; lia|]. intros x k w Hx. vm_compute in Hx. discriminate Hx.
  - apply H4.
    + apply wf_blocks_check. vm_compute. reflexivity.
    + split; [vm_compute; reflexivity|]. split; vm_compute; reflexivity.
    + apply ready_check. vm_compute. reflexivity.
    + intros q Hq. injection Hq as <-. eexists. vm_compute. reflexivity.
    + discriminate.
    + vm_compute. discriminate.
Defined.

Definition consultation_md : list (string * UniValue) :=
  [("n", VNUM "1"); ("q", VSTR "why?"); ("a", VARR [VSTR "yes"; VSTR "no"])]%string.

(** A consultation that leaves out [m] passes validation, which reads it as
    zero, and then makes [TxToConsultation] throw while the block is
    connected. *)
Lemma TxToConsultation_throws :
  IsValidConsultation vote_blocks [] (demo_read consultation_md) (demo_tx []) vote_view 0x3f = Ret true /\
  forall hash_answer hash_answers hash blockhash fExclude,
    TxToConsultation (demo_read consultation_md) hash_answer hash_answers "{}" hash blockhash fExclude = Exn.
Proof. split; [vm_compute; reflexivity|]. intros. vm_compute. reflexivity. Qed.

Definition parameter_md : list (string * UniValue) :=
  [("n", VNUM "1"); ("m", VNUM "9"); ("q", VSTR "quorum?"); ("v", VNUM "13"); ("a", VARR [VSTR "6000"])]%string.

Lemma IsValidConsultation_parameters_witness :
  flag_set (u64 13) CConsultation_ANSWER_IS_A_RANGE_VERSION = false /\
  flag_set (u64 13) CConsultation_MORE_ANSWERS_VERSION = true /\
  get_int64 (find_value parameter_md "n") = Ret 1 /\
  exists vParameters,
    consultation_parameters parameter_md (flag_set (u64 13) CConsultation_SUPER_VERSION) = Ret vParameters /\
    vParameters <> [] /\
    forall param, param ∈ vParameters -> param < MAX_CONSENSUS_PARAMS /\
      forall m k c, GetAllConsultations vote_view = Some m -> m !! k = Some c ->
        active_about vote_blocks [] param c = Ret false.
Proof.
  apply (IsValidConsultation_parameters vote_blocks [] (demo_read parameter_md) (demo_tx []) vote_view 0x3f).
  - vm_compute. reflexivity.
  - vm_compute. reflexivity.
  - vm_compute. reflexivity.
  - vm_compute. reflexivity.
Defined.

(** A combined consultation, and an answer to it without any value. *)
Definition super_view : View :=
  mkView ∅ ∅ ∅ {[700 := mkCConsultation ∅ 700 103 CConsultation_SUPER_VERSION 0 false "combined" 0 0 [1; 9] 1 ∅ [] 0]}
    ∅ ∅ 0 true.

Definition answer_md : list (string * UniValue) := [("h", VSTR (GetHex 700)); ("a", VARR [])]%string.

(** An answer with an empty array of values to a combined consultation
    makes [IsValidConsultationAnswer] read the first element of an empty
    vector. *)
Lemma IsValidConsultationAnswer_empty hash_answer hash_answers mask :
  IsValidConsultationAnswer vote_blocks [] (demo_read answer_md) hash_answer hash_answers (demo_tx []) super_view mask
    = Undef.
Proof. vm_compute. reflexivity. Qed.
