(* ===== verification/DaoBlock.v ===== *)
(** * The DAO in the connection of a block ([main.cpp])

    What [ConnectBlock] and [DisconnectBlock] do with the DAO state besides
    calling [VoteStep] afterwards: [ConnectBlock] collects the votes of the
    outputs, validates the DAO transactions, adds the contributions to the
    fund, adds the new entries, copies the votes of the staker into the block
    and marks the payment requests the coinbase pays; [DisconnectBlock] takes
    the entries, votes and parameter values back.

    The rest of the two functions (scripts, coins, tokens, names, rewards and
    disk access) is not modelled: it does not touch the DAO state.  The loop
    over the transactions is the source's, with the DAO parts of its body in
    their order.  [None] inside an [Outcome] is a rejected block.

    Parameters, besides those of [DaoValidate]: [GetTransaction], which finds
    a transaction of the chain or the pool by its hash, and
    [DestinationAddress], the text of the address a script pays to
    ([ExtractDestination] and [CNavcoinAddress::ToString]). *)
From Stdlib Require Import Ascii String.
From S2P Require Import Prelude Float CxxString Chain VersionBits Params DaoTypes StateView DaoRules VoteScript Transaction Json.
From S2P Require Import VoteStep DaoValidate.

Record CBlock := mkCBlock { block_hash : uint256; block_vtx : list CTransaction; block_IsProofOfStake : bool }.

(** ** Inserting votes into the block index *)

Definition InsertProposalVotes (bv : BlockVotes) (block : uint256) (hash : uint256) (vote : Z) : BlockVotes :=
  mkBlockVotes (<[block := default [] (vProposalVotes bv !! block) ++ [(hash, i32 vote)]]> (vProposalVotes bv))
    (vPaymentRequestVotes bv) (mapSupport bv) (mapConsultationVotes bv).

Definition InsertPaymentRequestVotes (bv : BlockVotes) (block : uint256) (hash : uint256) (vote : Z) : BlockVotes :=
  mkBlockVotes (vProposalVotes bv)
    (<[block := default [] (vPaymentRequestVotes bv !! block) ++ [(hash, i32 vote)]]> (vPaymentRequestVotes bv))
    (mapSupport bv) (mapConsultationVotes bv).

(** [map::insert] keeps an entry that is there. *)
Definition insert_new {A} (m : gmap uint256 A) (k : uint256) (a : A) : gmap uint256 A :=
  match m !! k with Some _ => m | None => <[k := a]> m end.

Definition InsertSupport (bv : BlockVotes) (block : uint256) (hash : uint256) : BlockVotes :=
  mkBlockVotes (vProposalVotes bv) (vPaymentRequestVotes bv)
    (<[block := insert_new (default ∅ (mapSupport bv !! block)) hash true]> (mapSupport bv)) (mapConsultationVotes bv).

Definition InsertConsultationVotes (bv : BlockVotes) (block : uint256) (hash : uint256) (vote : Z) : BlockVotes :=
  mkBlockVotes (vProposalVotes bv) (vPaymentRequestVotes bv) (mapSupport bv)
    (<[block := insert_new (default ∅ (mapConsultationVotes bv !! block)) hash (u64 vote)]> (mapConsultationVotes bv)).

(** ** What the loops of [ConnectBlock] carry *)

(** The flags computed before the loop. *)
Record BlockFlags := mkBlockFlags {
  fStake : bool;
  fVoteCacheState : bool;
  fColdStakingv2 : bool;
  fStakerIsColdStakingv2 : bool;
  fCFund : bool;
  fDAOConsultations : bool;
  (** [IsExcludeEnabled], read by [TxToConsultation] *)
  fExclude : bool;
  (** the masks of [GetVersionMask] *)
  nMaskProposal : Z;
  nMaskPaymentRequest : Z;
  nMaskConsultation : Z;
  nMaskConsultationAnswer : Z;
  stakerScript : CScript
}.

(** [votes] is the set of keys of the map [votes]; its values are never
    read. *)
Record BlockState := mkBlockState {
  bs_view : View;
  bs_index : BlockVotes;
  bs_votes : gset (CScript * uint256);
  bs_supply : Z
}.

Definition set_bs_view (s : BlockState) (v : View) : BlockState := mkBlockState v (bs_index s) (bs_votes s) (bs_supply s).
Definition set_bs_index (s : BlockState) (bv : BlockVotes) : BlockState :=
  mkBlockState (bs_view s) bv (bs_votes s) (bs_supply s).
Definition add_bs_vote (s : BlockState) (k : CScript * uint256) : BlockState :=
  mkBlockState (bs_view s) (bs_index s) ({[k]} ∪ bs_votes s) (bs_supply s).

(** [mapCountAnswers] and [mapCacheMaxAnswers]. *)
Abbreviation AnswerCounts := (gmap uint256 Z * gmap uint256 Z)%type.

(** A loop that can reject the block. *)
Fixpoint foldR {A S : Type} (f : S -> A -> Outcome (option S)) (s : S) (l : list A) : Outcome (option S) :=
  match l with
  | [] => Ret (Some s)
  | x :: l => let! o := f s x; match o with None => Ret None | Some s => foldR f s l end
  end.

Section dao_block.
Context {params : Params} (h : BlockMap) (chain : CChain) (read : string -> option UniValue).
Context (hash_answer : uint256 -> string -> uint256) (hash_answers : uint256 -> list string -> uint256).
Context (address_valid address_private : string -> bool) (address_key : string -> Z)
        (decode_base64 : string -> option (list Z)) (recover_key : string -> list Z -> option Z).
Context (GetTransaction : uint256 -> option CTransaction) (DestinationAddress : CScript -> option string).

(** ** Collecting the votes of the outputs *)

Definition CanVoteProposal (v : View) (hash : uint256) : bool :=
  match GetProposal v hash with Some p => CProposal_CanVote h p | None => false end.
Definition CanVotePaymentRequest (v : View) (hash : uint256) : bool :=
  match GetPaymentRequest v hash with Some pr => CPaymentRequest_CanVote h pr v | None => false end.
Definition CanSupport (v : View) (hash : uint256) : bool :=
  match GetConsultation v hash with Some c => CConsultation_CanBeSupported h c | None => false end ||
  match GetConsultationAnswer v hash with Some a => CConsultationAnswer_CanBeSupported h a v | None => false end.
Definition CanVoteConsultation (v : View) (hash : uint256) (vote : Z) : bool :=
  match GetConsultation v hash with
  | Some c => CConsultation_CanBeVoted h c vote && CConsultation_IsValidVote c vote
  | None => false
  end.
Definition CanVoteAnswer (v : View) (hash : uint256) : bool :=
  match GetConsultationAnswer v hash with Some a => CConsultationAnswer_CanBeVoted h a v | None => false end.

(** [mVote->Set(...)] and [mVote->fDirty = true] through a modifier. *)
Definition set_vote (nHeight : Z) (voterScript : CScript) (hash : uint256) (vote : Z) (v : View) : View :=
  ModifyVote v voterScript (fun l => set_vl_fDirty (CVoteList_Set l nHeight hash vote).1 true).

(** The hash and the vote of an output.  [None] is a script that cannot be
    read, [Some None] an output that is not a vote. *)
Definition output_vote (out : CTxOut) : Outcome (option (option (uint256 * Z))) :=
  if out_IsVote out then Ret (do hv <- ExtractVote (scriptPubKey out); Some (Some hv))
  else if IsSupportVote (scriptPubKey out) then Ret (do hv <- ExtractSupportVote (scriptPubKey out); Some (Some hv))
  else if IsConsultationVote (scriptPubKey out) then
    let! o := or_throw (ExtractConsultationVote (scriptPubKey out)); Ret (do hv <- o; Some (Some hv))
  else Ret (Some None).

(** The vote goes to the list of the voter. *)
Definition vote_to_cache (fl : BlockFlags) (nHeight : Z) (voterScript : CScript) (out : CTxOut) (hash : uint256)
    (vote : Z) (s : BlockState) : BlockState :=
  let v := bs_view s in
  let set := set_bs_view s (set_vote nHeight voterScript hash vote v) in
  if fDAOConsultations fl && IsConsultationVote (scriptPubKey out) then
    if CanVoteConsultation v hash vote || (bool_decide (is_Some (GetConsultation v hash)) && (vote =? VOTE_REMOVE)) ||
       CanVoteAnswer v hash
    then set else s
  else if (fCFund fl && ((IsProposalVote (scriptPubKey out) && CanVoteProposal v hash) ||
                         (IsPaymentRequestVote (scriptPubKey out) && CanVotePaymentRequest v hash))) ||
          (fDAOConsultations fl && IsSupportVote (scriptPubKey out) && CanSupport v hash)
  then add_bs_vote set (voterScript, hash)
  else s.

(** At most [nMax] answers of one consultation; the limit is kept in an [int]. *)
Definition count_answer (v : View) (parent : uint256) (counts : AnswerCounts) : AnswerCounts * bool :=
  let '(mapCountAnswers, mapCacheMaxAnswers) := counts in
  let mapCacheMaxAnswers :=
    match mapCacheMaxAnswers !! parent, GetConsultation v parent with
    | None, Some c => <[parent := i32 (c_nMax c)]> mapCacheMaxAnswers
    | _, _ => mapCacheMaxAnswers
    end in
  let n := default 0 (mapCountAnswers !! parent) + 1 in
  ((<[parent := n]> mapCountAnswers, insert_new mapCacheMaxAnswers parent 0),
   n <=? default 0 (mapCacheMaxAnswers !! parent)).

(** A vote for a consultation, or for an answer within the limit. *)
Definition insert_consultation_vote (block hash : uint256) (vote : Z) (s : BlockState) (counts : AnswerCounts) :
    BlockState * AnswerCounts :=
  let v := bs_view s in
  let insert := set_bs_index s (InsertConsultationVotes (bs_index s) block hash vote) in
  if CanVoteConsultation v hash vote then (insert, counts)
  else match GetConsultationAnswer v hash with
  | None => (s, counts)
  | Some answer =>
    if CConsultationAnswer_CanBeVoted h answer v then
      let '(counts, ok) := count_answer v (a_parent answer) counts in
      (if ok then insert else s, counts)
    else (s, counts)
  end.

(** The vote of the coinbase goes to the block index. *)
Definition vote_to_index (fl : BlockFlags) (block : uint256) (out : CTxOut) (hash : uint256) (vote : Z)
    (s : BlockState) (counts : AnswerCounts) : BlockState * AnswerCounts :=
  let v := bs_view s in
  let bv := bs_index s in
  if fCFund fl && (IsProposalVote (scriptPubKey out) && CanVoteProposal v hash)
  then (set_bs_index s (InsertProposalVotes bv block hash vote), counts)
  else if fCFund fl && (IsPaymentRequestVote (scriptPubKey out) && CanVotePaymentRequest v hash)
  then (set_bs_index s (InsertPaymentRequestVotes bv block hash vote), counts)
  else if fDAOConsultations fl && IsSupportVote (scriptPubKey out) && CanSupport v hash
  then (set_bs_index s (InsertSupport bv block hash), counts)
  else if fDAOConsultations fl && IsConsultationVote (scriptPubKey out) && negb (IsSupportVote (scriptPubKey out)) &&
          negb (vote =? VOTE_REMOVE)
  then insert_consultation_vote block hash vote s counts
  else (s, counts).

Definition collect_output (fl : BlockFlags) (nHeight : Z) (block : uint256) (i : nat) (voterScript : CScript)
    (acc : BlockState * AnswerCounts) (out : CTxOut) : Outcome (option (BlockState * AnswerCounts)) :=
  let '(s, counts) := acc in
  let! o := output_vote out;
  match o with
  | None => Ret None
  | Some None => Ret (Some (s, counts))
  | Some (Some (hash, vote)) =>
    if bool_decide ((voterScript, hash) ∈ bs_votes s) then Ret (Some (s, counts))
    else
      let s := if negb (vote =? VOTE_REMOVE) then add_bs_vote s (voterScript, hash) else s in
      if fVoteCacheState fl && (0 <? length voterScript)%nat
      then Ret (Some (vote_to_cache fl nHeight voterScript out hash vote s, counts))
      else if (i =? 0)%nat then Ret (Some (vote_to_index fl block out hash vote s counts))
      else Ret (Some (s, counts))
  end.

(** The script of the coins the first input of a vote transaction spends:
    from a transaction of the chain, else from one of this block. *)
Definition VoterScript (block : CBlock) (tx : CTransaction) : Outcome (option CScript) :=
  let! prevout := or_undef (head (tx_vin tx));
  let txPrev :=
    match GetTransaction (prevout_hash prevout) with
    | Some t => Some t
    | None => find (fun t => tx_hash t =? prevout_hash prevout) (block_vtx block)
    end in
  match txPrev with
  | None => Ret None
  | Some t => let! out := or_undef (tx_vout t !! Z.to_nat (prevout_n prevout));
              Ret (Some (GetStakerScript (scriptPubKey out)))
  end.

(** Whether the votes of the block are skipped: [pindex->nNonce & 1], unless
    the staker is a cold staker. *)
Definition votes_skipped (fl : BlockFlags) (b : CBlockIndex) : bool :=
  flag_set (nNonce b) 1 && negb (fStakerIsColdStakingv2 fl).

Definition collect_tx (fl : BlockFlags) (b : CBlockIndex) (block : CBlock) (i : nat) (tx : CTransaction)
    (s : BlockState) : Outcome (option BlockState) :=
  let fDaoTx := IsValidDaoTxVote tx (bs_view s) && fVoteCacheState fl && fColdStakingv2 fl in
  if (IsCoinBase tx && negb (fStakerIsColdStakingv2 fl)) || (fStake fl && fDaoTx && (1 <? i)%nat) ||
     (negb (fStake fl) && fDaoTx && (0 <? i)%nat)
  then
    let! voter := (if fDaoTx then VoterScript block tx else Ret (Some (stakerScript fl)));
    match voter with
    | None => Ret None
    | Some voterScript =>
      let! o := foldR (collect_output fl (nHeight b) (block_hash block) i voterScript) (s, (∅, ∅)) (tx_vout tx);
      Ret (do acc <- o; Some acc.1)
    end
  else Ret (Some s).

(** ** Validation of the DAO transactions *)

Definition tx_kind (tx : CTransaction) : Z := Z.land (tx_nVersion tx) 0xF.

Definition valid_proposal_tx (fl : BlockFlags) (tx : CTransaction) (v : View) : Outcome bool :=
  IsValidProposal read address_valid address_private tx v (nMaskProposal fl).
Definition valid_prequest_tx (fl : BlockFlags) (tx : CTransaction) (v : View) : Outcome bool :=
  IsValidPaymentRequest h read address_valid address_key decode_base64 recover_key tx v (nMaskPaymentRequest fl).
Definition valid_consultation_tx (fl : BlockFlags) (tx : CTransaction) (v : View) : Outcome bool :=
  IsValidConsultation h chain read tx v (nMaskConsultation fl).
Definition valid_answer_tx (fl : BlockFlags) (tx : CTransaction) (v : View) : Outcome bool :=
  IsValidConsultationAnswer h chain read hash_answer hash_answers tx v (nMaskConsultationAnswer fl).

(** Whether the block may hold the transaction. *)
Definition check_tx (fl : BlockFlags) (tx : CTransaction) (v : View) : Outcome bool :=
  if tx_kind tx =? PROPOSAL_VERSION then valid_proposal_tx fl tx v
  else if tx_kind tx =? PAYMENT_REQUEST_VERSION then valid_prequest_tx fl tx v
  else if fDAOConsultations fl && (tx_kind tx =? CONSULTATION_VERSION) then valid_consultation_tx fl tx v
  else if fDAOConsultations fl && (tx_kind tx =? ANSWER_VERSION) then valid_answer_tx fl tx v
  else Ret true.

(** ** New entries *)

Definition or_assert (o : option (View * bool)) : Outcome View := let! r := or_undef o; Ret r.1.

Definition add_proposal_tx (fl : BlockFlags) (block : uint256) (tx : CTransaction) (v : View) : Outcome (option View) :=
  let! valid := (if fCFund fl && (tx_kind tx =? PROPOSAL_VERSION) then valid_proposal_tx fl tx v else Ret false);
  if valid : bool then
    let! o := TxToProposal read (tx_strDZeel tx) (tx_hash tx) block (contribution (tx_vout tx));
    match o with None => Ret None | Some p => let! v := or_assert (AddProposal v p); Ret (Some v) end
  else Ret (Some v).

Definition add_prequest_tx (fl : BlockFlags) (block : uint256) (tx : CTransaction) (v : View) : Outcome (option View) :=
  let! o := TxToPaymentRequest read (tx_strDZeel tx) (tx_hash tx) block;
  match o with
  | None => Ret None
  | Some prequest =>
    match GetProposal v (pr_proposalhash prequest) with
    | Some proposal =>
      if CProposal_GetLastState h proposal =? ACCEPTED
      then let! v := or_assert (AddPaymentRequest v prequest); Ret (Some v)
      else Ret (Some v)
    | None => Ret (Some v)
    end
  end.

Definition add_consultation_tx (fl : BlockFlags) (block : uint256) (tx : CTransaction) (v : View) :
    Outcome (option View) :=
  let! o := TxToConsultation read hash_answer hash_answers (tx_strDZeel tx) (tx_hash tx) block (fExclude fl);
  match o with
  | None => Ret None
  | Some (consultation, vAnswers) =>
    let! '(v, added) := or_undef (AddConsultation v consultation);
    if added && negb (CConsultation_IsRange consultation)
    then let! v := foldO (fun v ans => or_assert (AddConsultationAnswer v ans)) v vAnswers; Ret (Some v)
    else Ret (Some v)
  end.

Definition add_answer_tx (fl : BlockFlags) (block : uint256) (tx : CTransaction) (v : View) : Outcome (option View) :=
  let! o := TxToConsultationAnswer read hash_answer hash_answers (tx_strDZeel tx) (tx_hash tx) block;
  match o with
  | None => Ret None
  | Some answer =>
    match GetConsultation v (a_parent answer) with
    | Some consultation =>
      if CConsultation_CanHaveNewAnswers h consultation && negb (HaveConsultationAnswer v (a_hash answer))
      then let! v := or_assert (AddConsultationAnswer v answer); Ret (Some v)
      else Ret (Some v)
    | None => Ret (Some v)
    end
  end.

Definition bindR {A B} (c : Outcome (option A)) (f : A -> Outcome (option B)) : Outcome (option B) :=
  let! o := c; match o with None => Ret None | Some a => f a end.

(** The three tests are made in sequence, with an [else] between payment
    requests and consultations. *)
Definition add_tx (fl : BlockFlags) (block : uint256) (tx : CTransaction) (v : View) : Outcome (option View) :=
  if negb (fCFund fl || fDAOConsultations fl) then Ret (Some v)
  else
    bindR (add_proposal_tx fl block tx v) (fun v =>
    bindR
      (let! preq := (if tx_kind tx =? PAYMENT_REQUEST_VERSION then valid_prequest_tx fl tx v else Ret false);
       if preq : bool then add_prequest_tx fl block tx v
       else
         let! isCons := (if fDAOConsultations fl && (tx_kind tx =? CONSULTATION_VERSION)
                       then valid_consultation_tx fl tx v else Ret false);
         if isCons : bool then add_consultation_tx fl block tx v else Ret (Some v)) (fun v =>
      let! ans := (if fDAOConsultations fl && (tx_kind tx =? ANSWER_VERSION)
                   then valid_answer_tx fl tx v else Ret false);
      if ans : bool then add_answer_tx fl block tx v else Ret (Some v))).

(** ** The loop over the transactions *)

Definition connect_tx (fl : BlockFlags) (b : CBlockIndex) (block : CBlock) (s : BlockState) (it : nat * CTransaction) :
    Outcome (option BlockState) :=
  let '(i, tx) := it in
  bindR
    (if (fCFund fl || fDAOConsultations fl) && negb (votes_skipped fl b) then
       bindR (collect_tx fl b block i tx s) (fun s =>
         let! ok := check_tx fl tx (bs_view s); Ret (if ok : bool then Some s else None))
     else Ret (Some s)) (fun s =>
  let s := mkBlockState (bs_view s) (bs_index s) (bs_votes s) (bs_supply s + contribution (tx_vout tx)) in
  bindR (add_tx fl (block_hash block) tx (bs_view s)) (fun v => Ret (Some (set_bs_view s v)))).

(** ** The votes of the staker *)

Definition staker_vote (fl : BlockFlags) (block : uint256) (acc : BlockState * AnswerCounts) (it : uint256 * Z) :
    BlockState * AnswerCounts :=
  let '(s, counts) := acc in
  let '(hash, val) := it in
  let v := bs_view s in
  let bv := bs_index s in
  if (val =? SUPPORT_REMOVE) || (val =? VOTE_REMOVE) then (s, counts)
  else if fCFund fl && CanVoteProposal v hash then (set_bs_index s (InsertProposalVotes bv block hash val), counts)
  else if fCFund fl && CanVotePaymentRequest v hash
  then (set_bs_index s (InsertPaymentRequestVotes bv block hash val), counts)
  else if val =? SUPPORT then
    (if fDAOConsultations fl && CanSupport v hash then set_bs_index s (InsertSupport bv block hash) else s, counts)
  else if fDAOConsultations fl && negb (val =? VOTE_REMOVE) then insert_consultation_vote block hash val s counts
  else (s, counts).

Definition staker_votes (fl : BlockFlags) (block : uint256) (s : BlockState) : BlockState :=
  if fStake fl && fVoteCacheState fl then
    match GetCachedVoter (bs_view s) (stakerScript fl) with
    | Some l => (foldl (staker_vote fl block) (s, (∅, ∅)) (elems (CVoteList_GetList l))).1
    | None => s
    end
  else s.

(** ** Payments in the coinbase *)

Definition mark_paid (p : uint256) (pr : CPaymentRequest) : CPaymentRequest :=
  set_pr_fDirty (CPaymentRequest_SetState pr p PAID) true.

(** [metadata[n]] of an array, [NullUniValue] outside it. *)
Definition array_at (l : list UniValue) (n : nat) : UniValue := default VNULL (l !! n).

(** The payment of the request [prid] by an output: [None] is a rejected
    block. *)
Definition pay_request (p : uint256) (prevHeight : Z) (out : CTxOut) (prid : uint256) (v : View) :
    Outcome (option View) :=
  match GetPaymentRequest v prid with
  | None => Ret None
  | Some prequest =>
    match GetProposal v (pr_proposalhash prequest), DestinationAddress (scriptPubKey out) with
    | Some proposal, Some address =>
      let fv452Fork := nHeightv452Fork <=? prevHeight in
      if negb (nValue out =? pr_nAmount prequest) ||
         (fv452Fork && negb (CPaymentRequest_GetLastState h prequest =? ACCEPTED)) ||
         negb (String.eqb (CProposal_GetPaymentAddress proposal) address)
      then Ret None
      else
        let! mature :=
          (if fv452Fork then
             let! k := or_undef (CPaymentRequest_GetLastStateBlockIndexForState h prequest ACCEPTED);
             let! accepted := or_undef (h !! k);
             Ret (nCommunityFundMinAge <? prevHeight - nHeight accepted)
           else Ret true);
        if mature : bool then Ret (Some (ModifyPaymentRequest v prid (mark_paid p))) else Ret None
    | _, _ => Ret None
    end
  end.

(** One output: the view, [nPaymentRequestsCount] and [nAccValue].
    [metadata] is the array of the coinbase's text, if it is one. *)
Definition coinbase_output (p : uint256) (prevHeight nPOWBlockReward : Z) (metadata : option (list UniValue))
    (acc : View * nat * Z) (out : CTxOut) : Outcome (option (View * nat * Z)) :=
  let '(v, nPaymentRequestsCount, nAccValue) := acc in
  let nAccValue := nAccValue + nValue out in
  if (nPOWBlockReward <? nAccValue) && (0 <? nValue out) then
    match metadata with
    | None => Ret None
    | Some md =>
      match array_at md nPaymentRequestsCount with
      | VSTR s => bindR (pay_request p prevHeight out (uint256S s) v) (fun v =>
                    Ret (Some (v, S nPaymentRequestsCount, nAccValue)))
      | _ => Ret None
      end
    end
  else Ret (Some (v, nPaymentRequestsCount, nAccValue)).

Definition coinbase_metadata (strDZeel : string) : option (list UniValue) :=
  match read strDZeel with Some (VARR l) => Some l | _ => None end.

Definition coinbase_payments (p : uint256) (prevHeight nPOWBlockReward : Z) (coinbase : CTransaction) (v : View) :
    Outcome (option View) :=
  let! o := foldR (coinbase_output p prevHeight nPOWBlockReward (coinbase_metadata (tx_strDZeel coinbase)))
              (v, 0%nat, 0) (tx_vout coinbase);
  Ret (do '(v, _, _) <- o; Some v).

(** ** [ConnectBlock] *)

(** The script of the coins the coinstake spends. *)
Definition StakerScript (block : CBlock) : Outcome (option CScript) :=
  let! tx := or_undef (block_vtx block !! 1%nat);
  let! prevout := or_undef (head (tx_vin tx));
  match GetTransaction (prevout_hash prevout) with
  | None => Ret None
  | Some txPrev => let! out := or_undef (tx_vout txPrev !! Z.to_nat (prevout_n prevout));
                   Ret (Some (GetStakerScript (scriptPubKey out)))
  end.

Definition cold_staked (block : CBlock) : Outcome bool :=
  if block_IsProofOfStake block then
    let! tx := or_undef (block_vtx block !! 1%nat);
    let! out := or_undef (tx_vout tx !! 1%nat);
    Ret (IsColdStakingv2 (scriptPubKey out))
  else Ret false.

(** The flags depend on the previous block only, so they are computed once
    where the code asks the deployments again for every transaction. *)
Definition block_flags (pprev : option uint256) (block : CBlock) (vbc : VersionBitsCache) :
    Outcome (option (BlockFlags * VersionBitsCache)) :=
  let! '(fVoteCacheState, vbc) := or_undef (IsVoteCacheStateEnabled h pprev vbc);
  let! '(fCFund, vbc) := or_undef (IsCommunityFundEnabled h pprev vbc);
  let! '(fDAOConsultations, vbc) := or_undef (IsDAOEnabled h pprev vbc);
  let! '(fColdStakingv2, vbc) := or_undef (IsColdStakingv2Enabled h pprev vbc);
  let! '(fExclude, vbc) := or_undef (IsExcludeEnabled h pprev vbc);
  let! '(mProposal, mPaymentRequest, mConsultation, mAnswer, vbc) := or_undef (GetVersionMask h pprev vbc);
  bindR (if block_IsProofOfStake block && fColdStakingv2 then StakerScript block else Ret (Some [])) (fun stakerScript =>
  let! fStakerIsColdStakingv2 := cold_staked block;
  Ret (Some (mkBlockFlags (block_IsProofOfStake block) fVoteCacheState fColdStakingv2 fStakerIsColdStakingv2 fCFund
    fDAOConsultations fExclude mProposal mPaymentRequest mConsultation mAnswer stakerScript, vbc))).

(** The DAO parts of [ConnectBlock] on the block [p] with the entry [b].  The
    fund starts from that of the previous block; [nPOWBlockReward] is the
    value the coinbase may create.  Of the flags that are set on the entry, the
    mark of proof of stake and the one of cold staking of the second version,
    which the scan of the votes reads, are modelled.  The entry the index keeps
    for [p] is [b] itself in the code: [VoteStep] reads it through [b]. *)
Definition ConnectBlock_dao (p : uint256) (b : CBlockIndex) (block : CBlock) (nPOWBlockReward : Z) (v : View)
    (bv : BlockVotes) (vbc : VersionBitsCache) :
    Outcome (option (CBlockIndex * View * BlockVotes * VersionBitsCache)) :=
  let! q := or_undef (pprev b);
  let! prev := or_undef (h !! q);
  let b := if block_IsProofOfStake block then SetProofOfStake b else b in
  bindR (block_flags (Some q) block vbc) (fun '(fl, vbc) =>
  let b := if fStakerIsColdStakingv2 fl then SetColdStakeV2 b else b in
  bindR (foldR (connect_tx fl b block) (mkBlockState v bv ∅ (nCFSupply prev)) (zip (seq 0 (length (block_vtx block)))
           (block_vtx block))) (fun s =>
  let s := staker_votes fl (block_hash block) s in
  let! coinbase := or_undef (head (block_vtx block));
  bindR (coinbase_payments p (nHeight prev) nPOWBlockReward coinbase (bs_view s)) (fun v =>
  Ret (Some (set_fund b (mkFund (bs_supply s) (nCFLocked prev)), v, bs_index s, vbc))))).

(** [ConnectTip]: [ConnectBlock] and then [VoteStep] on the same view.  The
    result is that of [VoteStep] with the block index of the votes. *)
Definition ConnectTip_dao (hash_params : list Z -> uint256) (p : uint256) (b : CBlockIndex) (block : CBlock)
    (nPOWBlockReward : Z) (v : View) (bv : BlockVotes) (g : DaoCache) (vbc : VersionBitsCache) :
    Outcome (option (StepResult * BlockVotes)) :=
  bindR (ConnectBlock_dao p b block nPOWBlockReward v bv vbc) (fun '(b, v, bv, vbc) =>
  let! r := or_undef (VoteStep h bv hash_params p b false v g vbc);
  Ret (if sr_ok r then Some (r, bv) else None)).

(** ** [DisconnectBlock] *)

(** [TxToConsultationAnswer] rebuilds the hash of the answer. *)
Definition remove_tx (fDAOConsultations : bool) (block : uint256) (v : View) (tx : CTransaction) : Outcome View :=
  let v := if tx_kind tx =? PROPOSAL_VERSION then (RemoveProposal v (tx_hash tx)).1 else v in
  if tx_kind tx =? PAYMENT_REQUEST_VERSION then Ret (RemovePaymentRequest v (tx_hash tx)).1
  else if fDAOConsultations && (tx_kind tx =? CONSULTATION_VERSION) then or_assert (RemoveConsultation v (tx_hash tx))
  else if fDAOConsultations && (tx_kind tx =? ANSWER_VERSION) then
    let! o := TxToConsultationAnswer read hash_answer hash_answers (tx_strDZeel tx) (tx_hash tx) block;
    Ret match o with Some answer => (RemoveConsultationAnswer v (a_hash answer)).1 | None => v end
  else Ret v.

Definition remove_txs (fCFund fDAOConsultations : bool) (block : CBlock) (v : View) : Outcome View :=
  if fCFund || fDAOConsultations
  then foldO (remove_tx fDAOConsultations (block_hash block)) v (rev (block_vtx block))
  else Ret v.

(** [max(n - 1, 0)] on the counter the vote went to. *)
Definition uncount (vote yes abs no : Z) : Z * Z * Z :=
  let dec n := Z.max (n - 1) 0 in
  if vote =? VOTE_YES then (dec yes, abs, no)
  else if vote =? VOTE_ABSTAIN then (yes, dec abs, no)
  else if vote =? VOTE_NO then (yes, abs, dec no) else (yes, abs, no).

Definition uncount_proposal (vote : Z) (p : CProposal) : CProposal :=
  let '(yes, abs, no) := uncount vote (p_nVotesYes p) (p_nVotesAbs p) (p_nVotesNo p) in
  set_p_fDirty (set_p_nVotesNo (set_p_nVotesAbs (set_p_nVotesYes p yes) abs) no) true.

Definition uncount_prequest (vote : Z) (pr : CPaymentRequest) : CPaymentRequest :=
  let '(yes, abs, no) := uncount vote (pr_nVotesYes pr) (pr_nVotesAbs pr) (pr_nVotesNo pr) in
  set_pr_fDirty (set_pr_nVotesNo (set_pr_nVotesAbs (set_pr_nVotesYes pr yes) abs) no) true.

(** [vSeen] is shared by the loops over proposals, requests and supports. *)
Definition uncount_proposal_vote (acc : View * gset uint256) (vote : uint256 * Z) : View * gset uint256 :=
  let '(v, vSeen) := acc in
  if negb (HaveProposal v vote.1) then acc
  else
    let seen := bool_decide (p_hash (tbl_entry (v_proposals v) vote.1) ∈ vSeen) in
    (ModifyProposal v vote.1 (fun p => if seen then p else uncount_proposal vote.2 p),
     if seen then vSeen else {[vote.1]} ∪ vSeen).

Definition uncount_prequest_vote (acc : View * gset uint256) (vote : uint256 * Z) : View * gset uint256 :=
  let '(v, vSeen) := acc in
  if negb (HavePaymentRequest v vote.1) then acc
  else
    let seen := bool_decide (pr_hash (tbl_entry (v_prequests v) vote.1) ∈ vSeen) in
    (ModifyPaymentRequest v vote.1 (fun pr => if seen then pr else uncount_prequest vote.2 pr),
     if seen then vSeen else {[vote.1]} ∪ vSeen).

Definition uncount_support (acc : View * gset uint256) (it : uint256 * bool) : View * gset uint256 :=
  let '(v, vSeen) := acc in
  let seen := bool_decide (it.1 ∈ vSeen) in
  if HaveConsultation v it.1 then
    if seen then acc
    else (ModifyConsultation v it.1 (fun c => set_c_fDirty (set_c_nSupport c (Z.max (c_nSupport c - 1) 0)) true),
          {[it.1]} ∪ vSeen)
  else if HaveConsultationAnswer v it.1 then
    if seen then acc
    else (ModifyConsultationAnswer v it.1 (fun a => set_a_fDirty (set_a_nSupport a (Z.max (a_nSupport a - 1) 0)) true),
          {[it.1]} ∪ vSeen)
  else acc.

(** The counters are unsigned here: a zero wraps. *)
Definition uncount_consultation_vote (v : View) (it : uint256 * Z) : View :=
  if HaveConsultation v it.1 then
    ModifyConsultation v it.1 (fun c =>
      let n := default 0 (c_mapVotes c !! it.2) in
      set_c_fDirty (set_c_mapVotes c (if n =? 1 then delete it.2 (c_mapVotes c)
                                      else <[it.2 := Z.max (u64 (n - 1)) 0]> (c_mapVotes c))) true)
  else if HaveConsultationAnswer v it.1 then
    ModifyConsultationAnswer v it.1 (fun a => set_a_fDirty (set_a_nVotes a (i32 (Z.max (u64 (a_nVotes a - 1)) 0))) true)
  else v.

Definition uncount_votes (bv : BlockVotes) (block : uint256) (v : View) : View :=
  let acc := (v, ∅) in
  let acc := match GetProposalVotes bv block with Some l => foldl uncount_proposal_vote acc l | None => acc end in
  let acc := match GetPaymentRequestVotes bv block with Some l => foldl uncount_prequest_vote acc l | None => acc end in
  let '(v, _) := match GetSupport bv block with Some m => foldl uncount_support acc (elems m) | None => acc end in
  match GetConsultationVotes bv block with Some m => foldl uncount_consultation_vote v (elems m) | None => v end.

(** Every voter forgets the votes of this height. *)
Definition clear_voters (nHeight : Z) (v : View) : option View :=
  do baseMap <- GetAllVotes v;
  Some (foldl (fun v it => ModifyVote v it.1 (fun l => set_vl_fDirty (CVoteList_ClearHeight l nHeight) true)) v
          (map_to_list baseMap)).

Definition clear_parameters (nHeight : Z) (v : View) : View :=
  foldl (fun v i => ModifyConsensusParameter v (Z.of_nat i) (fun c => CConsensusParameter_Clear c nHeight)) v
    (seq 0 (Z.to_nat MAX_CONSENSUS_PARAMS)).

Definition DisconnectBlock_dao (b : CBlockIndex) (block : CBlock) (v : View) (bv : BlockVotes)
    (vbc : VersionBitsCache) : Outcome (option (View * VersionBitsCache)) :=
  let! q := or_undef (pprev b);
  let! '(fCFund, vbc) := or_undef (IsCommunityFundEnabled h (Some q) vbc);
  let! '(fDAOConsultations, vbc) := or_undef (IsDAOEnabled h (Some q) vbc);
  let! v := remove_txs fCFund fDAOConsultations block v;
  let v := uncount_votes bv (block_hash block) v in
  let! '(fVoteCacheState, vbc) := or_undef (IsVoteCacheStateEnabled h (Some q) vbc);
  let! fStakerIsColdStakingv2 := cold_staked block;
  bindR (if block_IsProofOfStake block && fVoteCacheState && fCFund &&
            negb (flag_set (nNonce b) 1 && negb fStakerIsColdStakingv2)
         then Ret (clear_voters (nHeight b) v) else Ret (Some v)) (fun v =>
  Ret (Some (clear_parameters (nHeight b) v, vbc))).
End dao_block.
