(* ===== verification/DaoBlockProps.v ===== *)
(** * What connecting a block keeps

    The DAO parts of [ConnectBlock] keep the invariant of the community fund
    that [VoteStep] relies on and keeps in turn, and the coinbase can only pay
    accepted payment requests, each once. *)
From Stdlib Require Import Ascii String.
From S2P Require Import Prelude Bytes Float CxxString Chain VersionBits Params DaoTypes StateView DaoRules VoteScript Transaction Json.
From S2P Require Import VoteStep VoteDemo DaoSpec VoteStepProps DaoValidate DaoValidateProps DaoBlock.

(** ** Loops that can reject *)

Lemma bindR_Some {A B} (c : Outcome (option A)) (f : A -> Outcome (option B)) b :
  bindR c f = Ret (Some b) <-> exists a, c = Ret (Some a) /\ f a = Ret (Some b).
Proof. unfold bindR. destruct c as [[a|]| |]; cbn; naive_solver. Qed.

Lemma foldR_ind {A S} (f : S -> A -> Outcome (option S)) (P : S -> Prop) l s s' :
  (forall t x t', x ∈ l -> P t -> f t x = Ret (Some t') -> P t') ->
  P s -> foldR f s l = Ret (Some s') -> P s'.
Proof.
  revert s; induction l as [|x l IH]; intros s Hstep Hs Hf; cbn in Hf; [by injection Hf as <-|].
  apply outcome_bind_Ret in Hf as ([t|] & E & Hf); [|discriminate].
  eapply (IH t); [|by eapply Hstep; [left|..]|exact Hf].
  intros t1 y t1' Hy. apply Hstep. by right.
Qed.

Lemma foldO_ind {A S} (f : S -> A -> Outcome S) (P : S -> Prop) l s s' :
  (forall t x t', P t -> f t x = Ret t' -> P t') -> P s -> foldO f s l = Ret s' -> P s'.
Proof.
  intros Hstep. revert s; induction l as [|x l IH]; intros s Hs Hf; cbn in Hf; [by injection Hf as <-|].
  apply outcome_bind_Ret in Hf as (t & E & Hf). eauto.
Qed.

(** Split the sequence of steps that led to [Ret (Some _)]. *)
Ltac ran H :=
  lazymatch type of H with
  | bindR _ _ = Ret (Some _) => apply bindR_Some in H as (? & ? & H)
  | mbind _ _ = Ret _ => apply outcome_bind_Ret in H as (? & ? & H)
  end.

(** ** The invariant *)

(** Every payment request belongs to a known proposal. *)
Definition parents_known (v : View) : Prop :=
  forall k r, GetPaymentRequest v k = Some r -> is_Some (GetProposal v (pr_proposalhash r)).

(** What is kept from block to block: the entries are well formed at the block
    [p], requests have proposals, and the fund is backed. *)
Record fund_ok (h : BlockMap) (p : uint256) (fund : Fund) (v : View) : Prop := {
  fo_wf : wf_view h p v;
  fo_parents : parents_known v;
  fo_fund : fund_inv (abs_dao h v fund)
}.

(** And, for one block, no accepted entry has the votes to be rejected. *)
Record dao_inv {params : Params} (h : BlockMap) (p : uint256) (fund : Fund) (v : View) : Prop := {
  di_wf : wf_view h p v;
  di_parents : parents_known v;
  di_fund : fund_inv (abs_dao h v fund);
  di_settled : settled h v
}.

(** A view that is well formed at a block is so at every higher one. *)
Lemma above_higher h m p b p2 b2 :
  h !! p = Some b -> h !! p2 = Some b2 -> nHeight b < nHeight b2 -> above h m p -> above h m p2.
Proof.
  intros Hp Hp2 Hlt (b' & Hb' & Hpos & Hall). simplify_eq. exists b2. split; [done|]. split; [lia|].
  intros k s bk Hk Hne Hbk. destruct (decide (k = p)) as [->|Hkp]; [by simplify_eq|]. pose proof (Hall k s bk Hk Hkp Hbk). lia.
Qed.

Lemma fund_ok_higher h p b p2 b2 fund v :
  h !! p = Some b -> h !! p2 = Some b2 -> nHeight b < nHeight b2 -> fund_ok h p fund v -> fund_ok h p2 fund v.
Proof.
  intros Hp Hp2 Hlt [[W1 W2] Hpa Hf]. split; [|done|done]. split.
  - intros k q Hq. destruct (W1 k q Hq) as (H1 & H2 & H3). split_and!; try done. by apply (above_higher h _ p b p2 b2).
  - intros k r Hr. destruct (W2 k r Hr) as (H1 & H2 & H3). split_and!; try done. by apply (above_higher h _ p b p2 b2).
Qed.

(** The moves of the fund keep requests and their proposals together. *)
Definition abs_parents (A : ADao) : Prop :=
  forall k r, ad_reqs A !! k = Some r -> is_Some (ad_props A !! ar_parent r).

Lemma abs_parents_trans strict A B : dao_trans strict A B -> abs_parents A -> abs_parents B.
Proof.
  intros Htr HA.
  assert (forall k p s k', is_Some (ad_props A !! k') -> is_Some (with_prop A k p s !! k')) as Hp.
  { intros k p s k' Hk. unfold with_prop. apply lookup_insert_is_Some'. by right. }
  assert (forall k r s k' r', ad_reqs A !! k = Some r -> with_req A k r s !! k' = Some r' ->
    exists k0 r0, ad_reqs A !! k0 = Some r0 /\ ar_parent r0 = ar_parent r') as Hq.
  { intros k r s k' r' Hk. unfold with_req. intros [[<- <-]|[_ Hr']]%lookup_insert_Some; eauto. }
  destruct Htr; intros k' r'; cbn [ad_reqs ad_props]; intros Hr'; try (by apply Hp, (HA k'));
    (eapply Hq in Hr' as (k0 & r0 & Hk0 & <-); [|done]); by eapply HA.
Qed.

Lemma parents_abs h v fund : parents_known v <-> abs_parents (abs_dao h v fund).
Proof.
  unfold parents_known, abs_parents. cbn [abs_dao ad_reqs ad_props]. split.
  - intros H k a. rewrite abs_reqs_lookup, fmap_Some. intros (r & Hr & ->). cbn [abs_req ar_parent].
    rewrite abs_props_lookup. apply fmap_is_Some. by eapply H.
  - intros H k r Hr. assert (abs_reqs h v !! k = Some (abs_req h r)) as Ha by (by rewrite abs_reqs_lookup, Hr).
    apply H in Ha. rewrite abs_props_lookup in Ha. by apply fmap_is_Some in Ha.
Qed.

Lemma parents_rtc h v fund v' fund' strict :
  rtc (dao_trans strict) (abs_dao h v fund) (abs_dao h v' fund') -> parents_known v -> parents_known v'.
Proof.
  intros Hr Hv%(parents_abs h v fund). apply (parents_abs h v' fund'). revert Hv.
  induction Hr; [done|]. eauto using abs_parents_trans.
Qed.

(** Two views that show the same proposals, payment requests and parameters. *)
Record same_entries (v v' : View) : Prop := {
  se_props k : GetProposal v' k = GetProposal v k;
  se_reqs k : GetPaymentRequest v' k = GetPaymentRequest v k;
  se_consensus : v_consensus v' = v_consensus v
}.

#[export] Instance same_entries_equiv : Equivalence same_entries.
Proof.
  split; [by intros v|by intros v v' [H1 H2 H3]; split|].
  intros v1 v2 v3 [H1 H2 H3] [H4 H5 H6]. split; intros; congruence.
Qed.

#[export] Instance abs_dao_proper h : Proper (same_entries ==> (=) ==> (=)) (abs_dao h).
Proof.
  intros v v' [H1 H2 _] f _ <-. unfold abs_dao.
  f_equal; apply map_eq; intros k; [rewrite !abs_props_lookup|rewrite !abs_reqs_lookup]; congruence.
Qed.

#[export] Instance dao_inv_proper {params : Params} h p fund : Proper (same_entries ==> iff) (dao_inv h p fund).
Proof.
  assert (forall v v', same_entries v v' -> dao_inv h p fund v -> dao_inv h p fund v') as Hgo.
  { intros v v' Hs [[Hp Hr] Hpa Hf [Hsr Hsp]]. pose proof Hs as [H1 H2 H3]. split.
    - split; intros k x; rewrite ?H1, ?H2; [apply Hp|apply Hr].
    - intros k r. rewrite H2, H1. apply Hpa.
    - by rewrite <- Hs.
    - split; intros k x; rewrite ?H1, ?H2; [rewrite (req_rejectable_same x v v') by done|
        rewrite (prop_rejectable_same x v v') by done]; [apply Hsr|apply Hsp]. }
  intros v v' Hs. split; apply Hgo; [done|by symmetry].
Qed.

Lemma dao_inv_supply {params : Params} h p fund n v :
  0 <= n -> dao_inv h p fund v -> dao_inv h p (mkFund (fund_supply fund + n) (fund_locked fund)) v.
Proof. intros Hn [Hwf Hpa [Hl Ha Hs] Hset]. split; [done|done| |done]. split; cbn in *; [done|done|lia]. Qed.

(** A proposal without requests has all of its amount. *)
Lemma available_unrequested h v k p :
  parents_known v -> GetProposal v k = None -> available (abs_reqs h v) k p = ap_amount p.
Proof.
  intros Hpa Hk. unfold available. replace (map_sum (granted_to k) (abs_reqs h v)) with 0; [lia|].
  rewrite <- (map_sum_empty (K := Z) (granted_to k)). unfold abs_reqs. rewrite map_sum_fmap.
  assert (forall m : gmap Z CPaymentRequest, (forall k' r, m !! k' = Some r -> pr_proposalhash r <> k) ->
    0 = map_sum (fun kw => granted_to k (kw.1, abs_req h kw.2)) m) as Hz.
  { induction m as [|k' r m Hk' IH] using map_ind; intros Hne; [by rewrite map_sum_empty|].
    rewrite map_sum_insert by done. unfold granted_to at 1; cbn.
    rewrite (proj2 (Z.eqb_neq _ _)) by (apply (Hne k'), lookup_insert_eq). cbn. apply IH.
    intros k2 r2 H2. apply (Hne k2). rewrite lookup_insert_ne; [done|congruence]. }
  rewrite map_sum_empty. apply Hz. intros k' r Hr Heq. rewrite tbl_all_get in Hr.
  apply Hpa in Hr as [x Hx]. congruence.
Qed.

Lemma above_empty h p b : h !! p = Some b -> 0 < nHeight b -> above h ∅ p.
Proof. intros Hb Hpos. exists b. split; [done|]. split; [done|]. intros k s b' Hk. by rewrite lookup_empty in Hk. Qed.

Lemma tbl_add_spec {K A} `{Countable K, !DaoEntry A} (t t' : gmap K A) k e ok :
  tbl_add t k e = Some (t', ok) -> t' = t \/ (tbl_get t k = None /\ t' = <[k := e]> t).
Proof.
  unfold tbl_add. destruct (tbl_have t k) eqn:E; [intros [= <- _]; by left|].
  destruct (entry_fDirty e); [|done]. intros [= <- _]. right. split; [|done].
  unfold tbl_have in E. apply bool_decide_eq_false in E. by apply eq_None_not_Some.
Qed.

Lemma dao_inv_add_proposal {params : Params} h pnew b fund v p v' ok :
  h !! pnew = Some b -> 0 < nHeight b -> 0 < p_nAmount p -> p_mapState p = ∅ ->
  dao_inv h pnew fund v -> AddProposal v p = Some (v', ok) -> dao_inv h pnew fund v'.
Proof.
  intros Hb Hpos Ham Hst [Hwf Hpa Hf [Hsr Hsp]] Hadd.
  unfold AddProposal in Hadd. apply bind_Some in Hadd as ([t' ok'] & Hadd & [= <- <-]).
  apply tbl_add_spec in Hadd as [->|[Hnew ->]]; [by destruct v|].
  assert (solid_prop p) as Hs by (unfold solid_prop; lia).
  assert (live (abs_prop h p) = false) as Hl.
  { apply live_state; cbn; unfold CProposal_GetLastState; by rewrite Hst, last_state_empty. }
  split.
  - apply wf_put_prop; [done|]. split; [done|]. split; [done|]. rewrite Hst. by eapply above_empty.
  - intros k r Hr. apply Hpa in Hr. rewrite GetProposal_put by done. destruct (decide _); [done|exact Hr].
  - rewrite abs_put_prop by done. destruct Hf as [Hlk Hav Hsu]. split; cbn in *; [|  |done].
    + rewrite map_sum_insert by (rewrite abs_props_lookup; by apply fmap_None). unfold backing at 1. cbn [fst snd]. by rewrite Hl, Hlk.
    + intros k q [[<- <-]|[_ Hq]]%lookup_insert_Some; [|by apply Hav].
      rewrite available_unrequested by done. cbn. lia.
  - split; [exact Hsr|]. intros k q. rewrite GetProposal_put by done.
    destruct (decide _); [|apply Hsp]. intros [= <-]. unfold CProposal_GetLastState. rewrite Hst, last_state_empty.
    by intros [?|?].
Qed.

(** A null entry is not seen. *)
Lemma tbl_get_null {K A} `{Countable K, !DaoEntry A} (t : gmap K A) k e k' :
  entry_IsNull e = true -> tbl_get t k = None -> tbl_get (<[k := e]> t) k' = tbl_get t k'.
Proof.
  intros He Hk. destruct (decide (k = k')) as [<-|Hne].
  - rewrite Hk. unfold tbl_get. rewrite lookup_insert_eq; cbn. by rewrite He.
  - unfold tbl_get. by rewrite lookup_insert_ne.
Qed.

(** A new payment request has an amount or a description, or it is null. *)
Lemma fresh_solid r :
  CPaymentRequest_IsNull r = false -> pr_mapState r = ∅ -> pr_nVotesYes r = 0 -> pr_nVotesNo r = 0 ->
  pr_nExclude r = 0 -> solid_req r.
Proof.
  unfold CPaymentRequest_IsNull, solid_req. intros Hn Hm Hy Hno Hx. rewrite Hm, Hy, Hno, Hx in Hn; cbn in Hn.
  destruct (Z.eqb_spec (pr_nAmount r) 0); [|by left]. right. intros E. by rewrite E in Hn.
Qed.

Lemma dao_inv_add_prequest {params : Params} h pnew b fund v r v' ok :
  h !! pnew = Some b -> 0 < nHeight b -> pr_mapState r = ∅ -> is_Some (GetProposal v (pr_proposalhash r)) ->
  pr_nVotesYes r = 0 -> pr_nVotesNo r = 0 -> pr_nExclude r = 0 ->
  dao_inv h pnew fund v -> AddPaymentRequest v r = Some (v', ok) -> dao_inv h pnew fund v'.
Proof.
  intros Hb Hpos Hst Hpar Hy Hn Hx [Hwf Hpa Hf [Hsr Hsp]] Hadd.
  unfold AddPaymentRequest in Hadd. apply bind_Some in Hadd as ([t' ok'] & Hadd & [= <- <-]).
  apply tbl_add_spec in Hadd as [->|[Hnew ->]]; [by destruct v|].
  destruct (CPaymentRequest_IsNull r) eqn:En.
  { refine (proj1 (dao_inv_proper h pnew fund v _ _) _); [split; [done| |done]|split; [done|done|done|by split]].
    intros k. apply tbl_get_null; [exact En|exact Hnew]. }
  assert (solid_req r) as Hs by (by apply fresh_solid).
  assert (granted (ar_state (abs_req h r)) = false) as Hg.
  { cbn. unfold CPaymentRequest_GetLastState. by rewrite Hst, last_state_empty. }
  split.
  - apply wf_put_req; [done|]. split; [done|]. split; [done|]. rewrite Hst. by eapply above_empty.
  - intros k r'. rewrite GetPaymentRequest_put by done. destruct (decide _); [by intros [= <-]|apply Hpa].
  - rewrite abs_put_req by done. apply (fund_inv_reqs (abs_dao h v fund)); [done|].
    intros k q. unfold available. rewrite map_sum_insert by (rewrite abs_reqs_lookup; by apply fmap_None).
    unfold granted_to at 1. cbn [snd]. rewrite Hg, andb_false_r.
    change (ad_reqs (abs_dao h v fund)) with (abs_reqs h v). lia.
  - split; [|exact Hsp]. intros k r'. rewrite GetPaymentRequest_put by done.
    destruct (decide _); [|apply Hsr]. intros [= <-]. intros Hg2. cbn in Hg. congruence.
Qed.

(** ** Marking a request as paid *)

Lemma mark_paid_state h p r : above h (pr_mapState r) p -> CPaymentRequest_GetLastState h (mark_paid p r) = PAID.
Proof.
  intros Ha. unfold CPaymentRequest_GetLastState; cbn.
  apply (last_state_above _ _ p); [apply lookup_insert_eq|by apply above_insert].
Qed.

Lemma mark_paid_wf h p k r : wf_req h p k r -> wf_req h p k (mark_paid p r).
Proof. intros (Hh & Hs & Ha). split; [done|]. split; [done|]. by apply above_insert. Qed.

(** The modifier writes exactly the paid request. *)
Lemma ModifyPaymentRequest_paid h p v k r :
  GetPaymentRequest v k = Some r -> wf_req h p k r ->
  ModifyPaymentRequest v k (mark_paid p) = set_v_prequests v (<[k := mark_paid p r]> (v_prequests v)).
Proof.
  intros Hr (_ & Hs & _). unfold ModifyPaymentRequest. rewrite (OpenPaymentRequest_get v k r) by done.
  rewrite (tbl_entry_get (v_prequests v) k r) by done. unfold ClosePaymentRequest, PutPaymentRequest; cbn.
  unfold tbl_entry. rewrite lookup_insert_eq; cbn. rewrite (solid_req_IsNull (mark_paid p r)) by done. cbn.
  unfold tbl_mark. rewrite lookup_insert_eq. destruct (entry_eqb _ _); [done|]. by rewrite insert_insert_eq.
Qed.

Lemma dao_inv_pay {params : Params} h p fund v k r :
  GetPaymentRequest v k = Some r -> CPaymentRequest_GetLastState h r = ACCEPTED ->
  dao_inv h p fund v -> dao_inv h p fund (set_v_prequests v (<[k := mark_paid p r]> (v_prequests v))).
Proof.
  intros Hr Hst [Hwf Hpa Hf [Hsr Hsp]]. pose proof (wf_reqs h p v Hwf k r Hr) as Hw. pose proof (mark_paid_wf h p k r Hw) as Hw'.
  split.
  - by apply wf_put_req.
  - intros k' r'. rewrite GetPaymentRequest_put by apply Hw'.
    destruct (decide _); [intros [= <-]; exact (Hpa k r Hr)|apply Hpa].
  - rewrite abs_put_req by apply Hw'. apply (fund_inv_reqs (abs_dao h v fund)); [done|].
    intros k' q. assert (abs_reqs h v !! k = Some (abs_req h r)) as Hk by (by rewrite abs_reqs_lookup, Hr).
    unfold available. rewrite (map_sum_update _ _ k (abs_req h r)) by done.
    unfold granted_to at 2 3. cbn [snd abs_req ar_parent ar_state ar_amount].
    rewrite (mark_paid_state h p r) by apply Hw. rewrite Hst.
    change (ad_reqs (abs_dao h v fund)) with (abs_reqs h v). cbn. lia.
  - split; [|exact Hsp]. intros k' r'. rewrite GetPaymentRequest_put by apply Hw'.
    destruct (decide _); [|apply Hsr]. intros [= <-] _.
    change (req_rejectable r (set_v_prequests v (<[k := mark_paid p r]> (v_prequests v))) = false).
    rewrite (req_rejectable_same r v) by done. apply (Hsr k r Hr). by rewrite Hst.
Qed.

(** ** The coinbase *)

(** Rule of invariants for [foldR], on the elements visited so far. *)
Lemma foldR_visited {A S} (f : S -> A -> Outcome (option S)) (P : list A -> S -> Prop) l s s' :
  P [] s -> (forall l x t t', P l t -> f t x = Ret (Some t') -> P (l ++ [x]) t') ->
  foldR f s l = Ret (Some s') -> P l s'.
Proof.
  intros H0 Hstep. change (P l s') with (P ([] ++ l) s'). generalize (@nil A) as pre, s, H0.
  induction l as [|x l IH]; intros pre t Ht Hf; cbn in Hf; [injection Hf as <-; by rewrite app_nil_r|].
  apply outcome_bind_Ret in Hf as ([t'|] & E & Hf); [|discriminate].
  rewrite cons_middle, (assoc_L (++)). eauto.
Qed.

Fixpoint total_value (vout : list CTxOut) : Z :=
  match vout with [] => 0 | out :: vout => nValue out + total_value vout end.

Lemma total_value_app l1 l2 : total_value (l1 ++ l2) = total_value l1 + total_value l2.
Proof. induction l1 as [|o l1 IH]; cbn; lia. Qed.

Section payments.
Context {params : Params} (h : BlockMap) (read : string -> option UniValue).
Context (DestinationAddress : CScript -> option string).

(** The output may pay the request: the request is accepted for long enough
    and the output has its amount and the address of its proposal. *)
Definition legal_payment (v : View) (prevHeight : Z) (out : CTxOut) (prid : uint256) : Prop :=
  exists r q k b, GetPaymentRequest v prid = Some r /\ GetProposal v (pr_proposalhash r) = Some q /\
    CPaymentRequest_GetLastState h r = ACCEPTED /\ nValue out = pr_nAmount r /\
    DestinationAddress (scriptPubKey out) = Some (CProposal_GetPaymentAddress q) /\
    CPaymentRequest_GetLastStateBlockIndexForState h r ACCEPTED = Some k /\ h !! k = Some b /\
    nCommunityFundMinAge < prevHeight - nHeight b.

Lemma pay_request_spec p prevHeight out prid v v' :
  nHeightv452Fork <= prevHeight ->
  pay_request h DestinationAddress p prevHeight out prid v = Ret (Some v') ->
  legal_payment v prevHeight out prid /\ v' = ModifyPaymentRequest v prid (mark_paid p).
Proof.
  intros Hf Hp. unfold pay_request in Hp. rewrite (proj2 (Z.leb_le _ _) Hf) in Hp.
  destruct (GetPaymentRequest v prid) as [r|] eqn:Er; [|discriminate].
  destruct (GetProposal v (pr_proposalhash r)) as [q|] eqn:Eq; [|discriminate].
  destruct (DestinationAddress (scriptPubKey out)) as [addr|] eqn:Ed; [|discriminate].
  cbn [andb] in Hp. destruct (_ || _) eqn:Eb in Hp; [discriminate|]. nav_bool.
  apply outcome_bind_Ret in Hp as ([|] & Hm & Hp); [|discriminate]. injection Hp as <-. split; [|done].
  apply outcome_bind_Ret in Hm as (k & Hk & Hm). apply outcome_bind_Ret in Hm as (b & Hb & Hm). injection Hm as Hm.
  destruct (CPaymentRequest_GetLastStateBlockIndexForState h r ACCEPTED) eqn:Ek; [|discriminate].
  injection Hk as ->. destruct (h !! k) eqn:Eh; [|discriminate]. injection Hb as ->.
  exists r, q, k, b. nav_bool. rewrite Ed. repeat split; try done; try lia. f_equal. symmetry. by apply String.eqb_eq.
Qed.

(** What is known after the outputs [done_]: the payments [pays] made. *)
Record paid_by (p : uint256) (prevHeight reward : Z) (v0 : View) (done_ : list CTxOut) (v : View) (acc : Z)
    (pays : list (CTxOut * uint256)) : Prop := {
  pb_sub : pays.*1 `sublist_of` done_;
  pb_nodup : NoDup pays.*2;
  pb_legal : Forall (fun ok => legal_payment v0 prevHeight ok.1 ok.2) pays;
  pb_total : acc = total_value done_;
  pb_bound : acc <= reward + total_value pays.*1;
  pb_view : v = set_v_prequests v0 (v_prequests v);
  pb_get k : GetPaymentRequest v k =
    if bool_decide (k ∈ pays.*2) then mark_paid p <$> GetPaymentRequest v0 k else GetPaymentRequest v0 k
}.

Lemma paid_by_skip p prevHeight reward v0 done_ v acc pays out :
  paid_by p prevHeight reward v0 done_ v acc pays -> 0 <= nValue out ->
  (reward <? acc + nValue out) && (0 <? nValue out) = false -> 0 <= total_value pays.*1 ->
  paid_by p prevHeight reward v0 (done_ ++ [out]) v (acc + nValue out) pays.
Proof.
  intros [Hsub Hnd Hl Ht Hb Hv Hg] Hpos Hc Htot. split; try done.
  - by apply sublist_inserts_r.
  - rewrite total_value_app; cbn. lia.
  - apply andb_false_iff in Hc as [Hc|Hc]; nav_bool; lia.
Qed.

Lemma paid_by_pay p prevHeight reward v0 done_ v acc pays out prid :
  wf_view h p v0 -> paid_by p prevHeight reward v0 done_ v acc pays ->
  legal_payment v prevHeight out prid ->
  paid_by p prevHeight reward v0 (done_ ++ [out]) (ModifyPaymentRequest v prid (mark_paid p)) (acc + nValue out)
    (pays ++ [(out, prid)]).
Proof.
  intros Hwf [Hsub Hnd Hl Ht Hb Hv Hg] Hlegal.
  assert (prid ∉ pays.*2) as Hfresh.
  { intros Hin. destruct Hlegal as (r & _ & _ & _ & Hr & _ & Hst & _). rewrite Hg, bool_decide_eq_true_2 in Hr by done.
    apply fmap_Some in Hr as (r0 & Hr0 & ->). rewrite (mark_paid_state h p r0) in Hst; [done|].
    apply (wf_reqs h p v0 Hwf prid r0 Hr0). }
  assert (exists r, GetPaymentRequest v prid = Some r /\ GetPaymentRequest v0 prid = Some r) as (r & Hr & Hr0).
  { destruct Hlegal as (r & _ & _ & _ & Hr & _). exists r. split; [done|].
    by rewrite Hg, bool_decide_eq_false_2 in Hr. }
  pose proof (wf_reqs h p v0 Hwf prid r Hr0) as Hw. rewrite (ModifyPaymentRequest_paid h p v prid r Hr Hw).
  split; rewrite ?fmap_app; cbn [fmap list_fmap fst snd].
  - by apply sublist_app.
  - apply NoDup_app. split; [done|]. split; [|apply NoDup_singleton]. intros k Hk ->%list_elem_of_singleton. done.
  - apply Forall_app. split; [done|]. apply Forall_singleton. cbn [fst snd].
    destruct Hlegal as (r1 & q & k & b & H1 & H2 & H3). exists r1, q, k, b.
    rewrite Hg, bool_decide_eq_false_2 in H1 by done. split; [done|]. split; [|done]. by rewrite Hv in H2.
  - rewrite total_value_app; cbn. lia.
  - rewrite total_value_app; cbn. lia.
  - rewrite Hv at 1. by destruct v0.
  - intros k. rewrite GetPaymentRequest_put by (by apply mark_paid_wf in Hw as (_ & ? & _)).
    rewrite Hg. destruct (decide (prid = k)) as [<-|Hne].
    + rewrite bool_decide_eq_true_2 by set_solver. by rewrite Hr0.
    + destruct (bool_decide (k ∈ pays.*2)) eqn:E.
      * apply bool_decide_eq_true in E. by rewrite bool_decide_eq_true_2 by set_solver.
      * apply bool_decide_eq_false in E. by rewrite bool_decide_eq_false_2 by set_solver.
Qed.

Lemma coinbase_output_spec p prevHeight reward md v0 done_ v n acc pays out v' n' acc' :
  nHeightv452Fork <= prevHeight -> wf_view h p v0 -> 0 <= total_value pays.*1 -> 0 <= nValue out ->
  paid_by p prevHeight reward v0 done_ v acc pays ->
  coinbase_output h DestinationAddress p prevHeight reward md (v, n, acc) out = Ret (Some (v', n', acc')) ->
  exists pays', paid_by p prevHeight reward v0 (done_ ++ [out]) v' acc' pays'.
Proof.
  intros Hf Hwf Htot Hpos Hpb Hc. unfold coinbase_output in Hc. destruct (_ && _) eqn:Eb in Hc.
  - destruct md as [md|]; [|discriminate]. destruct (array_at md n) as [| | |s| |]; try discriminate.
    apply bindR_Some in Hc as (v1 & Hpay & [= <- <- <-]).
    apply pay_request_spec in Hpay as [Hlegal ->]; [|done]. eexists. by apply paid_by_pay.
  - injection Hc as <- <- <-. exists pays. by apply paid_by_skip.
Qed.

Lemma sublist_nonneg l k :
  l `sublist_of` k -> Forall (fun out => 0 <= nValue out) k -> 0 <= total_value l.
Proof.
  induction 1 as [|x l k _ IH|x l k _ IH]; intros Hk; cbn; [done| |];
    apply Forall_cons in Hk as [Hx Hk]; specialize (IH Hk); lia.
Qed.

Lemma coinbase_payments_spec p prevHeight reward coinbase v v' :
  nHeightv452Fork <= prevHeight -> wf_view h p v -> 0 <= reward ->
  Forall (fun out => 0 <= nValue out) (tx_vout coinbase) ->
  coinbase_payments h read DestinationAddress p prevHeight reward coinbase v = Ret (Some v') ->
  exists acc pays, paid_by p prevHeight reward v (tx_vout coinbase) v' acc pays.
Proof.
  intros Hf Hwf Hrew Hpos Hc. unfold coinbase_payments in Hc.
  apply outcome_bind_Ret in Hc as ([[[v1 n1] acc1]|] & Hl & Hc); [|discriminate]. injection Hc as <-.
  exists acc1. revert Hpos.
  refine (foldR_visited _ (fun l st => Forall (fun out => 0 <= nValue out) l -> exists pays, paid_by p prevHeight reward v l st.1.1 st.2 pays)
    _ _ _ _ _ Hl).
  - intros _. exists []. split; [done|by apply NoDup_nil|by apply Forall_nil|done|cbn; lia|by destruct v|done].
  - intros l out [[v2 n2] acc2] [[v3 n3] acc3] IH Hstep Hall. apply Forall_app in Hall as [Hall Hout].
    apply Forall_cons in Hout as [Hout _]. destruct (IH Hall) as (pays & Hpb).
    refine (coinbase_output_spec p prevHeight reward _ v l v2 n2 acc2 pays out v3 n3 acc3 Hf Hwf _ Hout Hpb Hstep).
    eapply sublist_nonneg; [apply Hpb|exact Hall].
Qed.

Lemma coinbase_payments_inv p prevHeight reward coinbase v v' fund :
  nHeightv452Fork <= prevHeight -> dao_inv h p fund v ->
  coinbase_payments h read DestinationAddress p prevHeight reward coinbase v = Ret (Some v') ->
  dao_inv h p fund v'.
Proof.
  intros Hf Hinv Hc. unfold coinbase_payments in Hc.
  apply outcome_bind_Ret in Hc as ([[[v1 n1] acc1]|] & Hl & Hc); [|discriminate]. injection Hc as <-.
  change (dao_inv h p fund (v1, n1, acc1).1.1).
  refine (foldR_ind _ (fun st => dao_inv h p fund st.1.1) _ (v, 0%nat, 0) _ _ Hinv Hl).
  intros [[v2 n2] acc2] out [[v3 n3] acc3] _ Hi Hstep. cbn in Hi |- *. unfold coinbase_output in Hstep.
  destruct (_ && _) in Hstep; [|by injection Hstep as <- _ _].
  destruct (coinbase_metadata _ _) as [md|]; [|discriminate].
  destruct (array_at md n2) as [| | |s| |]; try discriminate.
  apply bindR_Some in Hstep as (v4 & Hpay & [= <- <- <-]). apply pay_request_spec in Hpay as [Hlegal ->]; [|done].
  destruct Hlegal as (r & _ & _ & _ & Hr & _ & Hst & _).
  rewrite (ModifyPaymentRequest_paid h p v2 _ r Hr); [by apply dao_inv_pay|]. by apply (wf_reqs h p v2 (di_wf _ _ _ _ Hi)).
Qed.

(** C2: From the fork of version 4.5.2 on the coinbase pays accepted payment
    requests only, and each once: what it creates beyond the reward of the block
    is the sum of outputs that pay distinct requests, each accepted for more
    than the minimum age, to the address of its proposal and with its amount.
    Those requests become paid and nothing else changes.  The view is well
    formed, and the reward and the values of the outputs are not negative; before
    the fork the code asks neither for the state nor for the age. *)
Theorem coinbase_pays_once p prevHeight reward coinbase v v' :
  nHeightv452Fork <= prevHeight -> wf_view h p v -> 0 <= reward ->
  Forall (fun out => 0 <= nValue out) (tx_vout coinbase) ->
  coinbase_payments h read DestinationAddress p prevHeight reward coinbase v = Ret (Some v') ->
  exists pays : list (CTxOut * uint256),
    pays.*1 `sublist_of` tx_vout coinbase /\ NoDup pays.*2 /\
    Forall (fun ok => legal_payment v prevHeight ok.1 ok.2) pays /\
    total_value (tx_vout coinbase) <= reward + total_value pays.*1 /\
    (forall k, k ∈ pays.*2 -> exists r, GetPaymentRequest v' k = Some r /\ CPaymentRequest_GetLastState h r = PAID) /\
    (forall k, k ∉ pays.*2 -> GetPaymentRequest v' k = GetPaymentRequest v k) /\
    v' = set_v_prequests v (v_prequests v').
Proof.
  intros Hf Hwf Hrew Hpos Hc.
  destruct (coinbase_payments_spec p prevHeight reward coinbase v v' Hf Hwf Hrew Hpos Hc) as (acc & pays & Hpb).
  destruct Hpb as [Hsub Hnd Hl Ht Hb Hv Hg]. exists pays. subst acc. repeat split; try done.
  - intros k Hk. rewrite Hg, bool_decide_eq_true_2 by done.
    apply list_elem_of_fmap in Hk as (ok & -> & Hin). rewrite Forall_forall in Hl.
    destruct (Hl ok Hin) as (r & _ & _ & _ & Hr & _). rewrite Hr. eexists. split; [done|].
    apply mark_paid_state, (wf_reqs h p v Hwf _ r Hr).
  - intros k Hk. by rewrite Hg, bool_decide_eq_false_2 by done.
Qed.
End payments.

(** ** The loop over the transactions *)

Section connect.
Context {params : Params} (h : BlockMap) (chain : CChain) (read : string -> option UniValue).
Context (hash_answer : uint256 -> string -> uint256) (hash_answers : uint256 -> list string -> uint256).
Context (address_valid address_private : string -> bool) (address_key : string -> Z)
        (decode_base64 : string -> option (list Z)) (recover_key : string -> list Z -> option Z).
Context (GetTransaction : uint256 -> option CTransaction) (DestinationAddress : CScript -> option string).

(** Collecting votes changes the lists of voters and the block index only. *)
Definition same_tables (v v' : View) : Prop :=
  v_proposals v' = v_proposals v /\ v_prequests v' = v_prequests v /\ v_consultations v' = v_consultations v /\
  v_answers v' = v_answers v /\ v_consensus v' = v_consensus v.

Definition same_state (s s' : BlockState) : Prop :=
  same_tables (bs_view s) (bs_view s') /\ bs_supply s' = bs_supply s.

Lemma same_tables_entries v v' : same_tables v v' -> same_entries v v'.
Proof. intros (H1 & H2 & _ & _ & H3). split; [| |done]; intros k; unfold GetProposal, GetPaymentRequest; congruence. Qed.

Lemma same_state_refl s : same_state s s.
Proof. done. Qed.
Lemma same_state_trans s1 s2 s3 : same_state s1 s2 -> same_state s2 s3 -> same_state s1 s3.
Proof. unfold same_state, same_tables. intuition congruence. Qed.

Lemma insert_consultation_vote_same block hash vote s counts :
  same_state s (insert_consultation_vote h block hash vote s counts).1.
Proof.
  unfold insert_consultation_vote. destruct (CanVoteConsultation _ _ _ _); [done|].
  destruct (GetConsultationAnswer _ _); [|done]. destruct (CConsultationAnswer_CanBeVoted _ _ _); [|done].
  destruct (count_answer _ _ _) as [counts' []]; done.
Qed.

Lemma vote_to_cache_same fl n voter out hash vote s : same_state s (vote_to_cache h fl n voter out hash vote s).
Proof.
  unfold vote_to_cache. destruct (_ && _); [destruct (_ || _); done|]. destruct (_ || _); done.
Qed.

Lemma vote_to_index_same fl block out hash vote s counts :
  same_state s (vote_to_index h fl block out hash vote s counts).1.
Proof.
  unfold vote_to_index. repeat (case_match; [done|]). case_match; [apply insert_consultation_vote_same|done].
Qed.

Lemma collect_output_same fl n block i voter s counts out s' counts' :
  collect_output h fl n block i voter (s, counts) out = Ret (Some (s', counts')) -> same_state s s'.
Proof.
  unfold collect_output. intros Hc. apply outcome_bind_Ret in Hc as ([[[hash vote]|]|] & _ & Hc); [| |discriminate].
  2: by injection Hc as <- _.
  destruct (bool_decide _); [by injection Hc as <- _|].
  set (s1 := if negb (vote =? VOTE_REMOVE) then _ else s) in Hc.
  assert (same_state s s1) as H1 by (subst s1; by destruct (negb _)).
  eapply same_state_trans; [exact H1|]. destruct (fVoteCacheState fl && _).
  - injection Hc as <- _. apply vote_to_cache_same.
  - destruct (i =? 0)%nat; [|by injection Hc as <- _].
    injection Hc as Hc. pose proof (vote_to_index_same fl block out hash vote s1 counts) as H2. by rewrite Hc in H2.
Qed.

Lemma collect_tx_same fl b block i tx s s' :
  collect_tx h GetTransaction fl b block i tx s = Ret (Some s') -> same_state s s'.
Proof.
  unfold collect_tx. destruct (_ || _); [|by intros [= <-]]. intros Hc.
  apply outcome_bind_Ret in Hc as ([voter|] & _ & Hc); [|discriminate].
  apply outcome_bind_Ret in Hc as ([[s1 counts1]|] & Hl & Hc); [|discriminate]. injection Hc as <-.
  change (same_state s (s1, counts1).1).
  refine (foldR_ind _ (fun acc => same_state s acc.1) _ (s, (∅, ∅)) _ _ (same_state_refl s) Hl).
  intros [s2 c2] out [s3 c3] _ H2 Hs. eapply same_state_trans; [exact H2|by eapply collect_output_same].
Qed.

Lemma staker_votes_view fl block s :
  bs_view (staker_votes h fl block s) = bs_view s /\ bs_supply (staker_votes h fl block s) = bs_supply s.
Proof.
  unfold staker_votes. destruct (_ && _); [|done]. destruct (GetCachedVoter _ _) as [l|]; [|done].
  generalize (elems (CVoteList_GetList l)) as es. intros es.
  refine (foldl_ind _ (fun acc => bs_view acc.1 = bs_view s /\ bs_supply acc.1 = bs_supply s) es (s, (∅, ∅)) _ _);
    [|done].
  intros [s1 c1] [hash val] _ [H1 H2]. unfold staker_vote, insert_consultation_vote. cbn [fst snd] in *.
  repeat (case_match; try done). all: simplify_eq; done.
Qed.

(** New entries. *)
Lemma AddConsultation_same v c v' ok : AddConsultation v c = Some (v', ok) -> same_entries v v'.
Proof. unfold AddConsultation. intros H. by apply bind_Some in H as ([t b] & _ & [= <- <-]). Qed.

Lemma AddConsultationAnswer_same v a v' ok : AddConsultationAnswer v a = Some (v', ok) -> same_entries v v'.
Proof.
  unfold AddConsultationAnswer. destruct (tbl_have _ _); [by intros [= <- <-]|].
  destruct (a_fDirty a); [|done]. by intros [= <- <-].
Qed.

Lemma or_assert_Ret o v' : or_assert o = Ret v' -> exists ok, o = Some (v', ok).
Proof. unfold or_assert. destruct o as [[v ok]|]; cbn; [intros [= <-]; eauto|discriminate]. Qed.

Context (p : uint256) (b : CBlockIndex) (fund : Fund) (Hb : h !! p = Some b) (Hpos : 0 < nHeight b).

Lemma add_proposal_tx_inv fl block tx v v' :
  dao_inv h p fund v ->
  add_proposal_tx read address_valid address_private fl block tx v = Ret (Some v') -> dao_inv h p fund v'.
Proof.
  intros Hinv Hc. unfold add_proposal_tx in Hc.
  apply outcome_bind_Ret in Hc as ([|] & Hv & Hc); [|by injection Hc as <-].
  destruct (_ && _) in Hv; [|discriminate].
  pose proof (valid_proposal_entry read address_valid address_private tx v _ block (contribution (tx_vout tx)) Hv) as He.
  apply outcome_bind_Ret in Hc as ([q|] & Hq & Hc); [|discriminate]. rewrite Hq in He.
  destruct He as (Ham & _ & _ & Hst & _). apply outcome_bind_Ret in Hc as (v1 & Ha & [= <-]).
  apply or_assert_Ret in Ha as (ok & Ha). by eapply dao_inv_add_proposal; [..|exact Ha]; try done; lia.
Qed.

Lemma TxToPaymentRequest_new strDZeel hash block r :
  TxToPaymentRequest read strDZeel hash block = Ret (Some r) ->
  pr_mapState r = ∅ /\ pr_nVotesYes r = 0 /\ pr_nVotesNo r = 0 /\ pr_nExclude r = 0.
Proof. unfold TxToPaymentRequest. intros H. ret_invert H. by subst r. Qed.

Lemma add_prequest_tx_inv fl block tx v v' :
  dao_inv h p fund v -> add_prequest_tx h read fl block tx v = Ret (Some v') -> dao_inv h p fund v'.
Proof.
  intros Hinv Hc. unfold add_prequest_tx in Hc.
  apply outcome_bind_Ret in Hc as ([r|] & Hr & Hc); [|discriminate].
  apply TxToPaymentRequest_new in Hr as (H1 & H2 & H3 & H4).
  destruct (GetProposal v (pr_proposalhash r)) eqn:Eq; [|by injection Hc as <-].
  destruct (_ =? _) in Hc; [|by injection Hc as <-]. apply outcome_bind_Ret in Hc as (v1 & Ha & [= <-]).
  apply or_assert_Ret in Ha as (ok & Ha). by eapply dao_inv_add_prequest; [..|exact Ha].
Qed.

Lemma add_consultation_tx_same fl block tx v v' :
  add_consultation_tx read hash_answer hash_answers fl block tx v = Ret (Some v') -> same_entries v v'.
Proof.
  intros Hc. unfold add_consultation_tx in Hc.
  apply outcome_bind_Ret in Hc as ([[c answers]|] & _ & Hc); [|discriminate].
  apply outcome_bind_Ret in Hc as ([v1 ok] & Ha & Hc).
  assert (same_entries v v1) as H1.
  { destruct (AddConsultation v c) as [[v2 ok2]|] eqn:E; [|discriminate]. injection Ha as -> ->.
    by eapply AddConsultation_same. }
  destruct (_ && _) in Hc; [|by injection Hc as <-]. apply outcome_bind_Ret in Hc as (v2 & Hl & [= <-]).
  refine (foldO_ind _ (same_entries v) _ _ _ _ H1 Hl). intros t a t' Ht Hs.
  apply or_assert_Ret in Hs as (ok' & Hs). etransitivity; [exact Ht|by eapply AddConsultationAnswer_same].
Qed.

Lemma add_answer_tx_same fl block tx v v' :
  add_answer_tx h read hash_answer hash_answers fl block tx v = Ret (Some v') -> same_entries v v'.
Proof.
  intros Hc. unfold add_answer_tx in Hc.
  apply outcome_bind_Ret in Hc as ([a|] & _ & Hc); [|discriminate].
  destruct (GetConsultation v (a_parent a)); [|by injection Hc as <-].
  destruct (_ && _) in Hc; [|by injection Hc as <-]. apply outcome_bind_Ret in Hc as (v1 & Ha & [= <-]).
  apply or_assert_Ret in Ha as (ok & Ha). by eapply AddConsultationAnswer_same.
Qed.

Lemma add_tx_inv fl block tx v v' :
  dao_inv h p fund v ->
  add_tx h chain read hash_answer hash_answers address_valid address_private address_key decode_base64 recover_key
    fl block tx v = Ret (Some v') ->
  dao_inv h p fund v'.
Proof.
  intros Hinv Hc. unfold add_tx in Hc. destruct (negb _); [by injection Hc as <-|].
  apply bindR_Some in Hc as (v1 & H1 & Hc). apply bindR_Some in Hc as (v2 & H2 & Hc).
  assert (dao_inv h p fund v1) as Hi1 by (by eapply add_proposal_tx_inv).
  assert (dao_inv h p fund v2) as Hi2.
  { apply outcome_bind_Ret in H2 as ([|] & _ & H2); [by eapply add_prequest_tx_inv|].
    apply outcome_bind_Ret in H2 as ([|] & _ & H2); [|by injection H2 as <-].
    apply add_consultation_tx_same in H2. by rewrite <- H2. }
  apply outcome_bind_Ret in Hc as ([|] & _ & Hc); [|by injection Hc as <-].
  apply add_answer_tx_same in Hc. by rewrite <- Hc.
Qed.
End connect.

(** ** Connecting a block *)

Lemma contribution_nonneg vout : Forall (fun out => 0 <= nValue out) vout -> 0 <= contribution vout.
Proof.
  intros Hv. unfold contribution. rewrite Forall_forall in Hv.
  apply (foldl_ind _ (fun n => 0 <= n)); [|done]. intros n out Hin Hn. specialize (Hv out Hin).
  destruct (IsCommunityFundContribution _); lia.
Qed.

(** The values of all outputs are checked to be in the range of money before
    a block is connected. *)
Definition outputs_nonneg (block : CBlock) : Prop :=
  Forall (fun tx => Forall (fun out => 0 <= nValue out) (tx_vout tx)) (block_vtx block).

Section connect_block.
Context {params : Params} (h : BlockMap) (chain : CChain) (read : string -> option UniValue).
Context (hash_answer : uint256 -> string -> uint256) (hash_answers : uint256 -> list string -> uint256).
Context (address_valid address_private : string -> bool) (address_key : string -> Z)
        (decode_base64 : string -> option (list Z)) (recover_key : string -> list Z -> option Z).
Context (GetTransaction : uint256 -> option CTransaction) (DestinationAddress : CScript -> option string).

Lemma connect_tx_inv fl b block s i tx s' p bp locked :
  h !! p = Some bp -> 0 < nHeight bp -> Forall (fun out => 0 <= nValue out) (tx_vout tx) ->
  dao_inv h p (mkFund (bs_supply s) locked) (bs_view s) ->
  connect_tx h chain read hash_answer hash_answers address_valid address_private address_key decode_base64 recover_key
    GetTransaction fl b block s (i, tx) = Ret (Some s') ->
  dao_inv h p (mkFund (bs_supply s') locked) (bs_view s').
Proof.
  intros Hp Hpos Hout Hinv Hc. unfold connect_tx in Hc. apply bindR_Some in Hc as (s1 & H1 & Hc).
  apply bindR_Some in Hc as (v & Hadd & [= <-]). cbn [bs_view bs_supply set_bs_view] in *.
  assert (same_state s s1) as [Hse%same_tables_entries Hsu].
  { destruct (_ && _) in H1; [|by injection H1 as <-]. apply bindR_Some in H1 as (s2 & H2 & H1).
    apply outcome_bind_Ret in H1 as ([|] & _ & H1); [|discriminate]. injection H1 as <-. by eapply collect_tx_same. }
  rewrite Hse, <- Hsu in Hinv. eapply add_tx_inv in Hadd; [exact Hadd|done|done|].
  by apply (dao_inv_supply h p (mkFund (bs_supply s1) locked)), Hinv; apply contribution_nonneg.
Qed.

Lemma connect_block_inv p b block reward v bv vbc b' v' bv' vbc' bp q prev :
  h !! p = Some bp -> 0 < nHeight bp -> pprev b = Some q -> h !! q = Some prev ->
  nHeightv452Fork <= nHeight prev -> outputs_nonneg block -> dao_inv h p (block_fund prev) v ->
  ConnectBlock_dao h chain read hash_answer hash_answers address_valid address_private address_key decode_base64
    recover_key GetTransaction DestinationAddress p b block reward v bv vbc = Ret (Some (b', v', bv', vbc')) ->
  dao_inv h p (block_fund b') v'.
Proof.
  intros Hp Hpos Hq Hprev Hfork Hout Hinv Hc. unfold ConnectBlock_dao in Hc. rewrite Hq in Hc; cbn [or_undef] in Hc.
  apply outcome_bind_Ret in Hc as (q' & [= <-] & Hc). rewrite Hprev in Hc.
  apply outcome_bind_Ret in Hc as (prev' & [= <-] & Hc).
  apply bindR_Some in Hc as ([fl vbc1] & _ & Hc). apply bindR_Some in Hc as (s & Hl & Hc).
  apply outcome_bind_Ret in Hc as (coinbase & _ & Hc). apply bindR_Some in Hc as (v1 & Hpay & [= <- <- <- <-]).
  cbn [block_fund nCFSupply nCFLocked set_fund fund_supply fund_locked].
  eapply coinbase_payments_inv; [exact Hfork| |exact Hpay].
  destruct (staker_votes_view h fl (block_hash block) s) as [-> ->].
  refine (foldR_ind _ (fun s => dao_inv h p (mkFund (bs_supply s) (nCFLocked prev)) (bs_view s)) _
    (mkBlockState v bv ∅ (nCFSupply prev)) _ _ Hinv Hl).
  intros t [i tx] t' Hin Ht Hs. eapply connect_tx_inv; [exact Hp|exact Hpos| |exact Ht|exact Hs].
  unfold outputs_nonneg in Hout. rewrite Forall_forall in Hout. apply Hout. by apply elem_of_zip_r in Hin.
Qed.

(** C1: Connecting a block keeps the fund safe from end to end.  Start, at or
    after the fork of version 4.5.2, from a view whose entries are well formed,
    whose requests have proposals and whose fund is backed, and in which no
    accepted entry has the votes to be rejected; the block may hold any
    transactions, votes and coinbase the code accepts, with values that are not
    negative.  After [ConnectBlock] and [VoteStep] the view is again well
    formed, requests have proposals, the locked part of the fund is what the
    accepted proposals can still pay, no proposal has granted more than its
    amount and the supply is not negative; and so it is for the next block. *)
Theorem ConnectTip_fund_safe hash_params p b block reward v bv g vbc r bv' bp q prev :
  h !! p = Some bp -> 0 < nHeight bp -> pprev b = Some q -> h !! q = Some prev ->
  nHeightv452Fork <= nHeight prev -> outputs_nonneg block ->
  fund_ok h p (block_fund prev) v -> settled h v ->
  ConnectTip_dao h chain read hash_answer hash_answers address_valid address_private address_key decode_base64
    recover_key GetTransaction DestinationAddress hash_params p b block reward v bv g vbc = Ret (Some (r, bv')) ->
  fund_ok h p (block_fund (sr_block r)) (sr_view r) /\
  forall p2 b2, h !! p2 = Some b2 -> nHeight bp < nHeight b2 -> fund_ok h p2 (block_fund (sr_block r)) (sr_view r).
Proof.
  intros Hp Hpos Hq Hprev Hfork Hout [W1 P1 F1] Hset1 Hc. unfold ConnectTip_dao in Hc.
  assert (dao_inv h p (block_fund prev) v) as Hinv by done.
  apply bindR_Some in Hc as ([[[b1 v1] bv1] vbc1] & Hconn & Hc). apply outcome_bind_Ret in Hc as (r1 & Hvs & Hc).
  destruct (sr_ok r1); [|discriminate]. injection Hc as <- <-.
  destruct (VoteStep h bv1 hash_params p b1 false v1 g vbc1) as [r2|] eqn:Ev; [|discriminate]. injection Hvs as ->.
  pose proof (connect_block_inv _ _ _ _ _ _ _ _ _ _ _ _ _ _ Hp Hpos Hq Hprev Hfork Hout Hinv Hconn) as [Hwf Hpa Hf Hset].
  destruct (VoteStep_refines_gen h bv1 hash_params p b1 v1 g vbc1 r1 true) as (Hwf' & _ & Htr%cycle_trans_dao); try done.
  assert (fund_ok h p (block_fund (sr_block r1)) (sr_view r1)) as Hok.
  { split; [done|by eapply parents_rtc|by eapply fund_inv_rtc]. }
  split; [exact Hok|]. intros p2 b2 Hp2 Hlt. by apply (fund_ok_higher h p bp p2 b2).
Qed.

(** The entry of a block that is staked under the second version of cold staking
    is marked, so that its votes are counted. *)
Lemma ConnectBlock_cold_staked p b block reward v bv vbc b' v' bv' vbc' :
  ConnectBlock_dao h chain read hash_answer hash_answers address_valid address_private address_key decode_base64
    recover_key GetTransaction DestinationAddress p b block reward v bv vbc = Ret (Some (b', v', bv', vbc')) ->
  cold_staked block = Ret true -> IsColdStakeV2 b' = true.
Proof.
  intros Hc Hcold. unfold ConnectBlock_dao in Hc. ran Hc. ran Hc. cbv zeta in Hc. apply bindR_Some in Hc as ([fl vbc1] & Hfl & Hc).
  assert (fStakerIsColdStakingv2 fl = true) as Hst.
  { unfold block_flags in Hfl. do 5 apply outcome_bind_Ret in Hfl as ([? ?] & _ & Hfl).
    apply outcome_bind_Ret in Hfl as ([[[[? ?] ?] ?] ?] & _ & Hfl).
    ran Hfl. rewrite Hcold in Hfl. by injection Hfl as <- _. }
  apply bindR_Some in Hc as (s & _ & Hc). apply outcome_bind_Ret in Hc as (cb & _ & Hc).
  apply bindR_Some in Hc as (v1 & _ & [= <- _ _ _]). rewrite Hst. unfold IsColdStakeV2, SetColdStakeV2, set_fund. cbn [nFlags set_nFlags].
  change BLOCK_COLD_STAKE_V2 with (Z.shiftl 1 3). rewrite flag_testbit by lia. rewrite Z.lor_spec. by rewrite orb_comm.
Qed.
End connect_block.

(** ** A block that pays a request

    Block 107, the last of its cycle, has a coinbase that pays the accepted
    request 601 and votes for proposal 502, and a transaction with a new
    proposal and a contribution of 10. *)

Definition granted_request : CPaymentRequest :=
  mkCPaymentRequest 30 {[104 := ACCEPTED]} 601 501 103 4 0 0 0 EmptyString 2 0 true.
Definition pay_view : View :=
  mkView {[501 := fund_proposal; 502 := new_proposal]} {[601 := granted_request]} ∅ ∅ ∅ ∅ 0 true.
Definition pay_prev : CBlockIndex := vote_block (Some 105) 6 500 50.
Definition pay_blocks : BlockMap := <[106 := pay_prev]> vote_blocks.
Definition pay_read : string -> option UniValue := fun s =>
  if String.eqb s "coinbase" then Some (VARR [VSTR (GetHex 601)]) else Some (VOBJ (proposal_md "3600")).
Definition pay_coinbase : CTransaction :=
  mkCTransaction 1 [mkCOutPoint 0 (2 ^ 32 - 1)]
    [mkCTxOut 30 [1]; mkCTxOut 0 (SetScriptForProposalVote 502 VOTE_YES)] "coinbase" 800.
Definition pay_block : CBlock :=
  mkCBlock 107 [pay_coinbase; mkCTransaction 4 [] [mkCTxOut 10 [OP_RETURN; OP_CFUND]] "proposal" 900] false.
Definition pay_address : CScript -> option string := fun _ => Some EmptyString.

Definition pay_tip : Outcome (option (StepResult * BlockVotes)) :=
  ConnectTip_dao pay_blocks [] pay_read (fun _ _ => 0) (fun _ _ => 0) (fun _ => true) (fun _ => false) (fun _ => 0)
    (fun _ => None) (fun _ _ => None) (fun _ => None) pay_address (fun _ => 7) 107 (vote_block (Some 106) 7 0 0)
    pay_block 0 pay_view vote_votes vote_cache (replicate 24 ∅).

Lemma pay_view_wf : wf_view pay_blocks 107 pay_view.
Proof. apply wf_view_check. vm_compute. reflexivity. Qed.

Lemma pay_view_ok : fund_ok pay_blocks 107 (block_fund pay_prev) pay_view.
Proof.
  split.
  - exact pay_view_wf.
  - intros k r [Hr _]%tbl_get_Some. cbn in Hr. apply lookup_singleton_Some in Hr as [_ <-].
    exists fund_proposal. vm_compute. reflexivity.
  - apply fund_inv_check. vm_compute. reflexivity.
Qed.

Lemma coinbase_pays_once_witness : exists v',
  coinbase_payments pay_blocks pay_read pay_address 107 6 0 pay_coinbase pay_view = Ret (Some v') /\
  exists pays : list (CTxOut * uint256), NoDup pays.*2 /\ 30 <= 0 + total_value pays.*1.
Proof.
  destruct (coinbase_payments pay_blocks pay_read pay_address 107 6 0 pay_coinbase pay_view) as [[v'|]| |] eqn:E;
    [|vm_compute in E; discriminate E..].
  exists v'. split; [reflexivity|].
  destruct (coinbase_pays_once pay_blocks pay_read pay_address 107 6 0 pay_coinbase pay_view v')
    as (pays & _ & Hnd & _ & Ht & _).
  - vm_compute. discriminate.
  - exact pay_view_wf.
  - lia.
  - repeat constructor; cbn; lia.
  - exact E.
  - exists pays. split; [exact Hnd|exact Ht].
Defined.

Lemma ConnectTip_fund_safe_witness : exists r bv',
  pay_tip = Ret (Some (r, bv')) /\ block_fund (sr_block r) = mkFund 390 170 /\
  fund_ok pay_blocks 107 (block_fund (sr_block r)) (sr_view r).
Proof.
  destruct pay_tip as [[[r bv']|]| |] eqn:E; [|vm_compute in E; discriminate E..].
  exists r, bv'. split; [reflexivity|]. split.
  - assert (match pay_tip with Ret (Some (r, _)) => block_fund (sr_block r) = mkFund 390 170 | _ => False end) as H
      by (vm_compute; reflexivity).
    rewrite E in H. exact H.
  - refine (proj1 (ConnectTip_fund_safe pay_blocks [] pay_read (fun _ _ => 0) (fun _ _ => 0) (fun _ => true)
      (fun _ => false) (fun _ => 0) (fun _ => None) (fun _ _ => None) (fun _ => None) pay_address (fun _ => 7) 107
      (vote_block (Some 106) 7 0 0) pay_block 0 pay_view vote_votes vote_cache (replicate 24 ∅) r bv'
      (vote_block (Some 106) 7 500 80) 106 pay_prev _ _ _ _ _ _ pay_view_ok _ E)).
    + vm_compute. reflexivity.
    + cbn. lia.
    + reflexivity.
    + vm_compute. reflexivity.
    + cbn. lia.
    + repeat constructor; cbn; lia.
    + apply settled_check. vm_compute. reflexivity.
Defined.
