(* ===== verification/DaoUndo.v ===== *)
(** * Disconnecting a block takes its entries back

    [DisconnectBlock] removes the entries of the transactions of a block in
    reverse order.  The proposals, payment requests, consultations and answers
    of the view are then those before [ConnectBlock] added them, whatever the
    block holds, if its hashes were new. *)
From Stdlib Require Import Ascii String.
From S2P Require Import Prelude Float CxxString Chain VersionBits Params DaoTypes StateView DaoRules VoteScript Transaction Json.
From S2P Require Import VoteStep VoteDemo DaoSpec VoteStepProps DaoValidate DaoValidateProps DaoBlock DaoBlockProps.

(** Two views that show the same entries. *)
Record same_dao (v v' : View) : Prop := {
  sd_props k : GetProposal v' k = GetProposal v k;
  sd_reqs k : GetPaymentRequest v' k = GetPaymentRequest v k;
  sd_cons k : GetConsultation v' k = GetConsultation v k;
  sd_answers k : GetConsultationAnswer v' k = GetConsultationAnswer v k
}.

#[export] Instance same_dao_equiv : Equivalence same_dao.
Proof.
  split; [by intros v|by intros v v' [H1 H2 H3 H4]; split|].
  intros v1 v2 v3 [H1 H2 H3 H4] [H5 H6 H7 H8]. split; intros; congruence.
Qed.

(** ** Tables *)

Section tables.
Context {K A : Type} `{Countable K, !DaoEntry A, !DaoEntryLaws A}.
Implicit Types (t : gmap K A) (k : K) (e : A).

Lemma tbl_get_put t k e k' :
  tbl_get (<[k := e]> t) k' = if decide (k = k') then (if entry_IsNull e then None else Some e) else tbl_get t k'.
Proof.
  unfold tbl_get. destruct (decide (k = k')) as [<-|]; [|by rewrite lookup_insert_ne].
  by rewrite lookup_insert_eq.
Qed.

Lemma tbl_remove_get t k k' :
  tbl_get (tbl_remove t k).1 k' = if decide (k = k') then None else tbl_get t k'.
Proof.
  unfold tbl_remove, tbl_have. destruct (bool_decide (is_Some (tbl_get t k))) eqn:E; cbn [fst].
  - rewrite tbl_get_put. destruct (decide (k = k')); [|done]. by rewrite IsNull_SetNull.
  - destruct (decide (k = k')) as [<-|]; [|done]. by apply bool_decide_eq_false, eq_None_not_Some in E.
Qed.

Lemma tbl_entry_None t k : tbl_get t k = None -> entry_IsNull (tbl_entry t k) = true.
Proof.
  unfold tbl_get, tbl_entry. destruct (t !! k) as [e|]; cbn; [|intros _; apply IsNull_null].
  by destruct (entry_IsNull e).
Qed.

Lemma tbl_open_gets t k k' : tbl_get (tbl_open t k) k' = tbl_get t k'.
Proof.
  unfold tbl_open. destruct (t !! k) eqn:E; [done|]. rewrite tbl_get_put, IsNull_null.
  destruct (decide (k = k')) as [<-|]; [|done]. unfold tbl_get. by rewrite E.
Qed.

Lemma tbl_open_entry t k : tbl_entry (tbl_open t k) k = tbl_entry t k.
Proof.
  unfold tbl_open, tbl_entry. destruct (t !! k) eqn:E; [by rewrite E|]. by rewrite lookup_insert_eq.
Qed.

(** A destructor that finds its entry unchanged but for members its equality
    does not compare. *)
Lemma tbl_close_get t k prev e k' :
  entry_IsNull e = false -> entry_eqb prev e = true ->
  tbl_get (tbl_close prev (<[k := e]> t) k) k' = if decide (k = k') then Some e else tbl_get t k'.
Proof.
  intros He Hq. unfold tbl_close, tbl_mark, tbl_entry. rewrite lookup_insert_eq; cbn.
  rewrite He, lookup_insert_eq, Hq, tbl_get_put. by rewrite He.
Qed.

Lemma tbl_close_null t k prev e k' :
  entry_IsNull e = true ->
  tbl_get (tbl_close prev (<[k := e]> t) k) k' = if decide (k = k') then None else tbl_get t k'.
Proof.
  intros He. unfold tbl_close, tbl_setnull, tbl_mark, tbl_entry. rewrite !lookup_insert_eq; cbn.
  rewrite He, insert_insert_eq, lookup_insert_eq.
  destruct (entry_eqb _ _); rewrite ?insert_insert_eq, tbl_get_put, ?IsNull_set_fDirty, IsNull_SetNull; done.
Qed.
End tables.

(** ** Answers and the list of their consultation *)

Lemma CConsultation_eqb_answers c l : CConsultation_eqb c (set_c_vAnswers c l) = true.
Proof. unfold CConsultation_eqb; cbn. by rewrite !Z.eqb_refl, !bool_decide_eq_true_2. Qed.

Lemma c_hash_nonnull c : c_hash c <> 0 -> CConsultation_IsNull c = false.
Proof. intros Hc. unfold CConsultation_IsNull. by rewrite (proj2 (Z.eqb_neq _ _)). Qed.

Lemma a_parent_nonnull a : a_parent a <> 0 -> CConsultationAnswer_IsNull a = false.
Proof. intros Ha. unfold CConsultationAnswer_IsNull. rewrite (proj2 (Z.eqb_neq _ _) Ha). by rewrite !andb_false_r. Qed.

Lemma AddConsultationAnswer_gets v a c :
  GetConsultation v (a_parent a) = Some c -> c_hash c <> 0 -> a_parent a <> 0 -> a_fDirty a = true ->
  GetConsultationAnswer v (a_hash a) = None ->
  exists v', AddConsultationAnswer v a = Some (v', true) /\
    (forall k, GetProposal v' k = GetProposal v k) /\ (forall k, GetPaymentRequest v' k = GetPaymentRequest v k) /\
    (forall k, GetConsultation v' k =
       if decide (a_parent a = k) then Some (set_c_vAnswers c (c_vAnswers c ++ [a_hash a])) else GetConsultation v k) /\
    (forall k, GetConsultationAnswer v' k = if decide (a_hash a = k) then Some a else GetConsultationAnswer v k).
Proof.
  intros Hc Hh Hp Hd Hnew. unfold AddConsultationAnswer, tbl_have.
  change (tbl_get (v_answers v) (a_hash a)) with (GetConsultationAnswer v (a_hash a)).
  rewrite Hnew, Hd. cbn [bool_decide]. eexists. split; [reflexivity|]. cbn. split; [done|]. split; [done|].
  assert (tbl_entry (tbl_open (v_consultations v) (a_parent a)) (a_parent a) = c) as ->.
  { rewrite tbl_open_entry. by apply tbl_entry_get. }
  split; intros k; unfold GetConsultation, GetConsultationAnswer; cbn.
  - rewrite tbl_close_get; [by rewrite tbl_open_gets|by apply c_hash_nonnull|apply CConsultation_eqb_answers].
  - rewrite tbl_get_put. cbn. by rewrite a_parent_nonnull.
Qed.

Lemma RemoveConsultationAnswer_gets v x a :
  GetConsultationAnswer v x = Some a ->
  (forall c, GetConsultation v (a_parent a) = Some c -> c_hash c <> 0) ->
  let v' := (RemoveConsultationAnswer v x).1 in
  (forall k, GetProposal v' k = GetProposal v k) /\ (forall k, GetPaymentRequest v' k = GetPaymentRequest v k) /\
  (forall k, GetConsultation v' k =
     if decide (a_parent a = k)
     then (fun c => set_c_vAnswers c (erase_loop (c_vAnswers c) x)) <$> GetConsultation v k else GetConsultation v k) /\
  (forall k, GetConsultationAnswer v' k = if decide (x = k) then None else GetConsultationAnswer v k).
Proof.
  intros Ha Hh v'. subst v'. unfold RemoveConsultationAnswer. rewrite Ha. cbn. split; [done|]. split; [done|].
  split; intros k; unfold GetConsultation, GetConsultationAnswer; cbn; [|by rewrite tbl_get_put].
  rewrite tbl_open_entry. destruct (GetConsultation v (a_parent a)) as [c|] eqn:Ec.
  - rewrite (tbl_entry_get _ _ c) by done.
    rewrite tbl_close_get, tbl_open_gets; [|exact (c_hash_nonnull (set_c_vAnswers c _) (Hh c eq_refl))|apply CConsultation_eqb_answers].
    destruct (decide _) as [<-|]; [|done]. unfold GetConsultation in Ec. by rewrite Ec.
  - pose proof (tbl_entry_None _ _ Ec) as Hn. set (e := tbl_entry _ _) in *.
    assert (set_c_vAnswers e (erase_loop (c_vAnswers e) x) = e) as ->.
    { cbn in Hn. unfold CConsultation_IsNull in Hn. nav_bool.
      assert (c_vAnswers e = []) as E by (by eapply bool_decide_eq_true). rewrite E. clearbody e. by destruct e; cbn in *; subst. }
    rewrite tbl_close_null by done. rewrite tbl_open_gets.
    destruct (decide _) as [<-|]; [|done]. unfold GetConsultation in Ec. by rewrite Ec.
Qed.

Lemma RemoveConsultationAnswer_absent v x : GetConsultationAnswer v x = None -> (RemoveConsultationAnswer v x).1 = v.
Proof. intros Hx. unfold RemoveConsultationAnswer. by rewrite Hx. Qed.

Lemma remove_answers_gets cid l w :
  (forall a x, a ∈ l -> GetConsultationAnswer w a = Some x -> a_parent x = cid) ->
  (forall c, GetConsultation w cid = Some c -> c_hash c <> 0) ->
  let t := foldl (fun v a => (RemoveConsultationAnswer v a).1) w l in
  (forall k, GetProposal t k = GetProposal w k) /\ (forall k, GetPaymentRequest t k = GetPaymentRequest w k) /\
  (forall k, k <> cid -> GetConsultation t k = GetConsultation w k) /\
  (forall k, GetConsultationAnswer t k = if bool_decide (k ∈ l) then None else GetConsultationAnswer w k).
Proof.
  revert w; induction l as [|a l IH]; intros w Hpar Hh; cbn [foldl].
  { done. }
  destruct (GetConsultationAnswer w a) as [x|] eqn:Ea.
  - assert (a_parent x = cid) as Hx by (apply (Hpar a); [left|done]).
    destruct (RemoveConsultationAnswer_gets w a x Ea) as (Gp & Gr & Gc & Ga); [by rewrite Hx|].
    rewrite Hx in Gc. set (w1 := (RemoveConsultationAnswer w a).1) in *.
    destruct (IH w1) as (Ip & Ir & Ic & Ia).
    + intros a' x' Hin. rewrite Ga. destruct (decide _); [done|]. apply Hpar. by right.
    + intros c. rewrite Gc, decide_True by done. intros Hc. apply fmap_Some in Hc as (c0 & Hc0 & ->). exact (Hh c0 Hc0).
    + split; [|split; [|split]]; intros k.
      * by rewrite Ip.
      * by rewrite Ir.
      * intros Hk. rewrite Ic, Gc by done. by rewrite decide_False by done.
      * rewrite Ia, Ga. destruct (decide (a = k)) as [<-|Hne].
        { rewrite (bool_decide_eq_true_2 (a ∈ a :: l)) by left. by destruct (bool_decide _). }
        by rewrite (bool_decide_ext (k ∈ a :: l) (k ∈ l)) by set_solver.
  - rewrite RemoveConsultationAnswer_absent by done.
    destruct (IH w) as (Ip & Ir & Ic & Ia); [intros a' x' Hin; apply Hpar; by right|done|].
    repeat split; try done. intros k. rewrite Ia. destruct (decide (a = k)) as [<-|Hne].
    + rewrite (bool_decide_eq_true_2 (a ∈ a :: l)) by left. by destruct (bool_decide _).
    + by rewrite (bool_decide_ext (k ∈ a :: l) (k ∈ l)) by set_solver.
Qed.

Lemma RemoveConsultation_gets w cid c :
  GetConsultation w cid = Some c -> c_hash c <> 0 -> GetPaymentRequest w cid = None ->
  (forall a x, a ∈ c_vAnswers c -> GetConsultationAnswer w a = Some x -> a_parent x = cid) ->
  exists w', RemoveConsultation w cid = Some (w', true) /\
    (forall k, GetProposal w' k = GetProposal w k) /\ (forall k, GetPaymentRequest w' k = GetPaymentRequest w k) /\
    (forall k, GetConsultation w' k = if decide (cid = k) then None else GetConsultation w k) /\
    (forall k, GetConsultationAnswer w' k = if bool_decide (k ∈ c_vAnswers c) then None else GetConsultationAnswer w k).
Proof.
  intros Hc Hh Hr Hpar. unfold RemoveConsultation. rewrite Hc.
  destruct (remove_answers_gets cid (c_vAnswers c) w Hpar) as (Ip & Ir & Ic & Ia); [congruence|].
  set (t := foldl _ w _) in *. cbn [v_prequests set_v_prequests set_v_consultations].
  rewrite (tbl_entry_None (tbl_open (v_prequests t) cid)) by (rewrite tbl_open_gets; rewrite <- Hr; apply Ir).
  eexists. split; [reflexivity|]. cbn. split; [exact Ip|]. split; [|split; [|exact Ia]]; intros k.
  - rewrite <- Ir. apply tbl_open_gets.
  - unfold GetConsultation; cbn. rewrite tbl_get_put. cbn. destruct (decide (cid = k)) as [|Hne]; [done|].
    apply Ic. congruence.
Qed.

Lemma RemoveConsultation_absent w cid :
  GetConsultation w cid = None -> RemoveConsultation w cid = Some (w, false).
Proof. intros H. unfold RemoveConsultation. by rewrite H. Qed.

Lemma erase_last l x : x ∉ l -> erase_loop (l ++ [x]) x = l.
Proof.
  induction l as [|y l IH]; intros Hx; cbn; [by rewrite Z.eqb_refl|].
  apply not_elem_of_cons in Hx as [Hy Hx]. rewrite (proj2 (Z.eqb_neq _ _)) by congruence. by rewrite IH.
Qed.

(** ** One transaction *)

(** A consultation is stored under its hash and lists known answers. *)
Record wf_cons (v : View) : Prop := {
  wc_hash k c : GetConsultation v k = Some c -> c_hash c = k /\ k <> 0;
  wc_listed k c a : GetConsultation v k = Some c -> a ∈ c_vAnswers c -> is_Some (GetConsultationAnswer v a)
}.

Section undo.
Context {params : Params} (h : BlockMap) (chain : CChain) (read : string -> option UniValue).
Context (hash_answer : uint256 -> string -> uint256) (hash_answers : uint256 -> list string -> uint256).
Context (address_valid address_private : string -> bool) (address_key : string -> Z)
        (decode_base64 : string -> option (list Z)) (recover_key : string -> list Z -> option Z).
Context (GetTransaction : uint256 -> option CTransaction).
Implicit Types (fl : BlockFlags) (v w : View) (tx : CTransaction).

Abbreviation add_tx := (DaoBlock.add_tx h chain read hash_answer hash_answers address_valid address_private
  address_key decode_base64 recover_key).
Abbreviation remove_tx := (DaoBlock.remove_tx read hash_answer hash_answers).

(** The hashes of the transaction are new; the text of an answer can be read
    and its hash is new. *)
Definition fresh_tx (block : uint256) v tx : Prop :=
  tx_hash tx <> 0 /\ GetProposal v (tx_hash tx) = None /\ GetPaymentRequest v (tx_hash tx) = None /\
  GetConsultation v (tx_hash tx) = None /\
  (tx_kind tx = ANSWER_VERSION -> exists a,
     TxToConsultationAnswer read hash_answer hash_answers (tx_strDZeel tx) (tx_hash tx) block = Ret (Some a) /\
     GetConsultationAnswer v (a_hash a) = None).

Lemma TxToProposal_hash strDZeel hash block fee p :
  TxToProposal read strDZeel hash block fee = Ret (Some p) -> p_hash p = hash.
Proof.
  unfold TxToProposal. intros H. ret_invert H. destruct x2 as [nv addr]. ret_invert H. by subst p.
Qed.

Lemma TxToPaymentRequest_hash strDZeel hash block r :
  TxToPaymentRequest read strDZeel hash block = Ret (Some r) -> pr_hash r = hash.
Proof. unfold TxToPaymentRequest. intros H. ret_invert H. by subst r. Qed.

Lemma TxToConsultation_new strDZeel hash block fx c answers :
  TxToConsultation read hash_answer hash_answers strDZeel hash block fx = Ret (Some (c, answers)) ->
  c_hash c = hash /\ c_vAnswers c = [] /\ c_fDirty c = true /\
  Forall (fun a => a_parent a = hash /\ a_fDirty a = true) answers.
Proof.
  unfold TxToConsultation. intros H. ret_invert H. destruct p as [nMin params'].
  apply outcome_bind_Ret in H as (nMax & _ & H). injection H as <- <-. cbn. repeat split; try done.
  destruct (_ && _); [|by apply Forall_nil]. destruct (flag_set _ _); [by repeat constructor|].
  apply Forall_forall. intros a Ha. by apply list_elem_of_fmap in Ha as (s & -> & _).
Qed.

(** What the parts of [add_tx] change. *)
Lemma add_proposal_tx_gets fl block tx v v1 :
  add_proposal_tx read address_valid address_private fl block tx v = Ret (Some v1) ->
  (forall k, k <> tx_hash tx -> GetProposal v1 k = GetProposal v k) /\ v1 = set_v_proposals v (v_proposals v1).
Proof.
  unfold add_proposal_tx. intros Hc. apply outcome_bind_Ret in Hc as ([|] & _ & Hc); [|injection Hc as <-; by destruct v].
  apply outcome_bind_Ret in Hc as ([p|] & Hp & Hc); [|discriminate]. apply TxToProposal_hash in Hp.
  apply outcome_bind_Ret in Hc as (v2 & Ha & [= <-]). apply or_assert_Ret in Ha as (ok & Ha).
  unfold AddProposal in Ha. apply bind_Some in Ha as ([t ok'] & Ha & [= <- _]).
  split; [|by destruct v]. intros k Hk. unfold GetProposal; cbn.
  apply tbl_add_spec in Ha as [->|[_ ->]]; [done|]. rewrite tbl_get_put, decide_False by congruence. done.
Qed.

Lemma add_prequest_tx_gets fl block tx v v1 :
  add_prequest_tx h read fl block tx v = Ret (Some v1) ->
  (forall k, k <> tx_hash tx -> GetPaymentRequest v1 k = GetPaymentRequest v k) /\ v1 = set_v_prequests v (v_prequests v1).
Proof.
  unfold add_prequest_tx. intros Hc.
  apply outcome_bind_Ret in Hc as ([r|] & Hr & Hc); [|discriminate]. apply TxToPaymentRequest_hash in Hr.
  destruct (GetProposal _ _); [|injection Hc as <-; by destruct v].
  destruct (_ =? _) in Hc; [|injection Hc as <-; by destruct v].
  apply outcome_bind_Ret in Hc as (v2 & Ha & [= <-]). apply or_assert_Ret in Ha as (ok & Ha).
  unfold AddPaymentRequest in Ha. apply bind_Some in Ha as ([t ok'] & Ha & [= <- _]).
  split; [|by destruct v]. intros k Hk. unfold GetPaymentRequest; cbn.
  apply tbl_add_spec in Ha as [->|[_ ->]]; [done|]. rewrite tbl_get_put, decide_False by congruence. done.
Qed.

(** [t] is [v] with the consultation [c] and its answers added. *)
Record new_consultation (v : View) (cid : uint256) (t : View) (c : CConsultation) : Prop := {
  nc_props k : GetProposal t k = GetProposal v k;
  nc_reqs k : GetPaymentRequest t k = GetPaymentRequest v k;
  nc_cons k : k <> cid -> GetConsultation t k = GetConsultation v k;
  nc_self : GetConsultation t cid = Some c;
  nc_hash : c_hash c = cid;
  nc_new a : a ∈ c_vAnswers c -> GetConsultationAnswer v a = None /\
    exists x, GetConsultationAnswer t a = Some x /\ a_parent x = cid;
  nc_old a : a ∉ c_vAnswers c -> GetConsultationAnswer t a = GetConsultationAnswer v a
}.

Lemma new_consultation_answer v cid t c a t' ok :
  cid <> 0 -> a_parent a = cid -> a_fDirty a = true ->
  new_consultation v cid t c -> AddConsultationAnswer t a = Some (t', ok) -> exists c', new_consultation v cid t' c'.
Proof.
  intros Hcid Hpar Hd Hn Ha. destruct (GetConsultationAnswer t (a_hash a)) as [x|] eqn:Ex.
  { unfold AddConsultationAnswer, tbl_have in Ha. unfold GetConsultationAnswer in Ex. rewrite Ex in Ha.
    injection Ha as <- _. by exists c. }
  pose proof Hn as [H1 H2 H3 H4 H5 H6 H7].
  destruct (AddConsultationAnswer_gets t a c) as (t1 & Ha1 & Gp & Gr & Gc & Ga); try congruence.
  rewrite Ha1 in Ha. injection Ha as -> _. exists (set_c_vAnswers c (c_vAnswers c ++ [a_hash a])).
  assert (a_hash a ∉ c_vAnswers c) as Hna by (intros Hin; apply H6 in Hin as (_ & y & Hy & _); congruence).
  rewrite Hpar in Gc. split; cbn.
  - intros k. by rewrite Gp.
  - intros k. by rewrite Gr.
  - intros k Hk. rewrite Gc, decide_False by congruence. by apply H3.
  - by rewrite Gc, decide_True.
  - done.
  - intros k [Hin|Hin]%elem_of_app; [|apply list_elem_of_singleton in Hin as ->].
    + destruct (H6 k Hin) as (E & y & Hy & Hp). split; [done|]. exists y.
      rewrite Ga, decide_False; [done|]. intros <-. done.
    + split; [by rewrite <- H7|]. exists a. by rewrite Ga, decide_True.
  - intros k Hk. apply not_elem_of_app in Hk as [Hk1 Hk2]. rewrite Ga, decide_False by set_solver. by apply H7.
Qed.

Lemma add_consultation_tx_gets fl block tx v v1 :
  fresh_tx block v tx ->
  add_consultation_tx read hash_answer hash_answers fl block tx v = Ret (Some v1) ->
  exists c, new_consultation v (tx_hash tx) v1 c.
Proof.
  intros (Hne & _ & _ & Hf & _) Hc. unfold add_consultation_tx in Hc.
  apply outcome_bind_Ret in Hc as ([[c answers]|] & Hc0 & Hc); [|discriminate].
  apply TxToConsultation_new in Hc0 as (Hh & Hl & Hd & Hans).
  assert (AddConsultation v c = Some (set_v_consultations v (<[tx_hash tx := c]> (v_consultations v)), true)) as Ha.
  { unfold AddConsultation, tbl_add, tbl_have. rewrite Hh. unfold GetConsultation in Hf. rewrite Hf. cbn.
    rewrite Hd. done. }
  rewrite Ha in Hc. cbn in Hc. set (t0 := set_v_consultations v _) in Hc.
  assert (new_consultation v (tx_hash tx) t0 c) as H0.
  { assert (forall k, GetConsultation t0 k = if decide (tx_hash tx = k) then Some c else GetConsultation v k) as Hg.
    { intros k. unfold GetConsultation; cbn. rewrite tbl_get_put. cbn. rewrite c_hash_nonnull by congruence. done. }
    split; try done.
    - intros k Hk. rewrite Hg, decide_False by congruence. done.
    - by rewrite Hg, decide_True.
    - rewrite Hl. by intros a Hin%not_elem_of_nil. }
  destruct (negb _) in Hc; [|injection Hc as <-; by exists c].
  apply outcome_bind_Ret in Hc as (v2 & Hfold & [= <-]).
  clearbody t0. clear Ha Hf Hl Hd Hh. revert c t0 H0 Hfold.
  induction Hans as [|a answers [Hp Hd] _ IH]; intros c t0 H0 Hfold; cbn in Hfold; [injection Hfold as <-; by exists c|].
  apply outcome_bind_Ret in Hfold as (t1 & Ha & Hfold). apply or_assert_Ret in Ha as (ok & Ha).
  destruct (new_consultation_answer v (tx_hash tx) t0 c a t1 ok Hne Hp Hd H0 Ha) as (c1 & H1). by apply (IH c1 t1).
Qed.

Lemma add_answer_tx_gets fl block tx v v1 :
  wf_cons v -> fresh_tx block v tx -> tx_kind tx = ANSWER_VERSION ->
  add_answer_tx h read hash_answer hash_answers fl block tx v = Ret (Some v1) ->
  v1 = v \/ exists a c,
    TxToConsultationAnswer read hash_answer hash_answers (tx_strDZeel tx) (tx_hash tx) block = Ret (Some a) /\
    GetConsultation v (a_parent a) = Some c /\ GetConsultationAnswer v (a_hash a) = None /\
    (forall k, GetProposal v1 k = GetProposal v k) /\ (forall k, GetPaymentRequest v1 k = GetPaymentRequest v k) /\
    (forall k, GetConsultation v1 k =
       if decide (a_parent a = k) then Some (set_c_vAnswers c (c_vAnswers c ++ [a_hash a])) else GetConsultation v k) /\
    (forall k, GetConsultationAnswer v1 k = if decide (a_hash a = k) then Some a else GetConsultationAnswer v k).
Proof.
  intros Hwf (_ & _ & _ & _ & Hf) Hk Hc. destruct (Hf Hk) as (a & Ha & Hnew). unfold add_answer_tx in Hc.
  rewrite Ha in Hc. apply outcome_bind_Ret in Hc as (o & [= <-] & Hc).
  destruct (GetConsultation v (a_parent a)) as [c|] eqn:Ec; [|injection Hc as <-; by left].
  destruct (_ && _) in Hc; [|injection Hc as <-; by left]. right.
  destruct (wc_hash v Hwf _ _ Ec) as [Hh Hne].
  assert (a_fDirty a = true) as Hd.
  { revert Ha. unfold TxToConsultationAnswer. intros H. ret_invert H. destruct p as [s vAnswer]. ret_invert H. by subst a. }
  destruct (AddConsultationAnswer_gets v a c Ec) as (v2 & Hadd & G); try congruence.
  rewrite Hadd in Hc. cbn in Hc. injection Hc as <-. exists a, c. split; [done|]. split; [done|]. by split.
Qed.

(** The case of [add_tx] for the kind of the transaction. *)
Lemma add_tx_cases fl block tx v v1 :
  add_tx fl block tx v = Ret (Some v1) ->
  v1 = v \/
  (tx_kind tx = PROPOSAL_VERSION /\ add_proposal_tx read address_valid address_private fl block tx v = Ret (Some v1)) \/
  (tx_kind tx = PAYMENT_REQUEST_VERSION /\ add_prequest_tx h read fl block tx v = Ret (Some v1)) \/
  (fDAOConsultations fl = true /\ tx_kind tx = CONSULTATION_VERSION /\
     add_consultation_tx read hash_answer hash_answers fl block tx v = Ret (Some v1)) \/
  (fDAOConsultations fl = true /\ tx_kind tx = ANSWER_VERSION /\
     add_answer_tx h read hash_answer hash_answers fl block tx v = Ret (Some v1)).
Proof.
  unfold DaoBlock.add_tx. destruct (negb _); [intros [= <-]; by left|]. intros Hc.
  apply bindR_Some in Hc as (v2 & H2 & Hc). apply bindR_Some in Hc as (v3 & H3 & Hc).
  unfold PROPOSAL_VERSION, PAYMENT_REQUEST_VERSION, CONSULTATION_VERSION, ANSWER_VERSION in *.
  destruct (Z.eqb_spec (tx_kind tx) 4) as [E4|N4].
  { rewrite E4 in H3, Hc. cbn in H3, Hc. rewrite ?andb_false_r in H3, Hc. cbn in H3, Hc.
    injection H3 as ->. injection Hc as ->. auto. }
  assert (v2 = v) as ->.
  { unfold add_proposal_tx in H2. unfold PROPOSAL_VERSION in H2. rewrite (proj2 (Z.eqb_neq _ _) N4), andb_false_r in H2.
    cbn in H2. by injection H2 as <-. }
  destruct (Z.eqb_spec (tx_kind tx) 5) as [E5|N5].
  { rewrite E5 in H3, Hc. cbn in H3, Hc. rewrite ?andb_false_r in H3, Hc. cbn in Hc. injection Hc as ->.
    apply outcome_bind_Ret in H3 as ([|] & _ & H3); [by auto|]. injection H3 as ->. by left. }
  cbn in H3. destruct (fDAOConsultations fl); cbn in H3, Hc;
    [|injection H3 as ->; injection Hc as ->; by left].
  destruct (Z.eqb_spec (tx_kind tx) 6) as [E6|N6].
  { rewrite E6 in Hc. cbn in Hc. injection Hc as ->.
    apply outcome_bind_Ret in H3 as ([|] & _ & H3); [by do 3 right; left|]. injection H3 as ->. by left. }
  cbn in H3. injection H3 as ->.
  destruct (Z.eqb_spec (tx_kind tx) 7) as [E7|N7]; [|cbn in Hc; injection Hc as ->; by left].
  apply outcome_bind_Ret in Hc as ([|] & _ & Hc); [by do 4 right|]. injection Hc as ->. by left.
Qed.

(** Removing what was added, by kind. *)
Lemma RemoveProposal_gets w k : exists t, (RemoveProposal w k).1 = set_v_proposals w t /\
  forall k', tbl_get t k' = if decide (k = k') then None else GetProposal w k'.
Proof.
  unfold RemoveProposal. pose proof (tbl_remove_get (v_proposals w) k) as Hg.
  destruct (tbl_remove (v_proposals w) k) as [t ok]. by exists t.
Qed.

Lemma RemovePaymentRequest_gets w k : exists t, (RemovePaymentRequest w k).1 = set_v_prequests w t /\
  forall k', tbl_get t k' = if decide (k = k') then None else GetPaymentRequest w k'.
Proof.
  unfold RemovePaymentRequest. pose proof (tbl_remove_get (v_prequests w) k) as Hg.
  destruct (tbl_remove (v_prequests w) k) as [t ok]. by exists t.
Qed.

Lemma undo_proposal d block v w tx :
  tx_kind tx = PROPOSAL_VERSION -> GetProposal v (tx_hash tx) = None ->
  (forall k, k <> tx_hash tx -> GetProposal w k = GetProposal v k) ->
  (forall k, GetPaymentRequest w k = GetPaymentRequest v k) -> (forall k, GetConsultation w k = GetConsultation v k) ->
  (forall k, GetConsultationAnswer w k = GetConsultationAnswer v k) ->
  exists w', remove_tx d block w tx = Ret w' /\ same_dao v w'.
Proof.
  intros Hk Hf Hp Hr Hc Ha. unfold DaoBlock.remove_tx. rewrite Hk. cbn. rewrite !andb_false_r.
  destruct (RemoveProposal_gets w (tx_hash tx)) as (t & -> & Hg). eexists. split; [reflexivity|].
  split; try done. intros k. unfold GetProposal at 1; cbn. rewrite Hg.
  destruct (decide _) as [<-|Hne]; [done|]. by apply Hp.
Qed.

Lemma undo_prequest d block v w tx :
  tx_kind tx = PAYMENT_REQUEST_VERSION -> GetPaymentRequest v (tx_hash tx) = None ->
  (forall k, k <> tx_hash tx -> GetPaymentRequest w k = GetPaymentRequest v k) ->
  (forall k, GetProposal w k = GetProposal v k) -> (forall k, GetConsultation w k = GetConsultation v k) ->
  (forall k, GetConsultationAnswer w k = GetConsultationAnswer v k) ->
  exists w', remove_tx d block w tx = Ret w' /\ same_dao v w'.
Proof.
  intros Hk Hf Hr Hp Hc Ha. unfold DaoBlock.remove_tx. rewrite Hk. cbn.
  destruct (RemovePaymentRequest_gets w (tx_hash tx)) as (t & -> & Hg). eexists. split; [reflexivity|].
  split; try done. intros k. unfold GetPaymentRequest at 1; cbn. rewrite Hg.
  destruct (decide _) as [<-|Hne]; [done|]. by apply Hr.
Qed.

Lemma undo_consultation block v w tx t c :
  tx_kind tx = CONSULTATION_VERSION -> fresh_tx block v tx ->
  new_consultation v (tx_hash tx) t c -> same_dao t w ->
  exists w', remove_tx true block w tx = Ret w' /\ same_dao v w'.
Proof.
  intros Hk (Hne & _ & Hfr & Hfc & _) [H1 H2 H3 H4 H5 H6 H7] [S1 S2 S3 S4].
  unfold DaoBlock.remove_tx. rewrite Hk. cbn. unfold or_assert.
  destruct (RemoveConsultation_gets w (tx_hash tx) c) as (w' & -> & Gp & Gr & Gc & Ga).
  - congruence.
  - congruence.
  - rewrite S2, H2. done.
  - intros a x Hin. rewrite S4. destruct (H6 a Hin) as (_ & y & -> & Hy). by intros [= <-].
  - exists w'. split; [done|]. split; intros k; rewrite ?Gp, ?Gr, ?Gc, ?Ga; [by rewrite S1|by rewrite S2| |].
    + destruct (decide _) as [<-|Hk']; [done|]. rewrite S3. apply H3. congruence.
    + destruct (bool_decide _) eqn:E; [apply bool_decide_eq_true in E; symmetry; by apply H6|].
      apply bool_decide_eq_false in E. rewrite S4. by apply H7.
Qed.

Lemma undo_answer block v w tx a c :
  wf_cons v -> tx_kind tx = ANSWER_VERSION ->
  TxToConsultationAnswer read hash_answer hash_answers (tx_strDZeel tx) (tx_hash tx) block = Ret (Some a) ->
  GetConsultation v (a_parent a) = Some c -> GetConsultationAnswer v (a_hash a) = None ->
  (forall k, GetProposal w k = GetProposal v k) -> (forall k, GetPaymentRequest w k = GetPaymentRequest v k) ->
  (forall k, GetConsultation w k =
     if decide (a_parent a = k) then Some (set_c_vAnswers c (c_vAnswers c ++ [a_hash a])) else GetConsultation v k) ->
  (forall k, GetConsultationAnswer w k = if decide (a_hash a = k) then Some a else GetConsultationAnswer v k) ->
  exists w', remove_tx true block w tx = Ret w' /\ same_dao v w'.
Proof.
  intros Hwf Hk Ha Hc Hnew H1 H2 H3 H4. unfold DaoBlock.remove_tx. rewrite Hk. cbn. rewrite Ha. cbn.
  destruct (wc_hash v Hwf _ _ Hc) as [Hh Hne].
  destruct (RemoveConsultationAnswer_gets w (a_hash a) a) as (Gp & Gr & Gc & Ga).
  - by rewrite H4, decide_True.
  - intros c'. rewrite H3, decide_True by done. intros [= <-]. cbn. congruence.
  - eexists. split; [reflexivity|]. split; intros k; rewrite ?Gp, ?Gr, ?Gc, ?Ga; [done|done| |].
    + rewrite H3. destruct (decide _) as [<-|]; [|done]. rewrite Hc; cbn. rewrite erase_last; [by destruct c|].
      intros Hin. apply (wc_listed v Hwf _ _ _ Hc) in Hin as [x Hx]. congruence.
    + rewrite H4. by destruct (decide _) as [<-|].
Qed.

(** Nothing was added. *)
Lemma undo_nothing d block v w tx :
  fresh_tx block v tx -> same_dao v w -> exists w', remove_tx d block w tx = Ret w' /\ same_dao v w'.
Proof.
  intros (Hne & Hfp & Hfr & Hfc & Hfa) [S1 S2 S3 S4].
  destruct (decide (tx_kind tx = PROPOSAL_VERSION)) as [Hk|N4]; [by apply undo_proposal|].
  destruct (decide (tx_kind tx = PAYMENT_REQUEST_VERSION)) as [Hk|N5]; [by apply undo_prequest|].
  unfold DaoBlock.remove_tx. rewrite (proj2 (Z.eqb_neq _ _) N4), (proj2 (Z.eqb_neq _ _) N5).
  destruct (d && (tx_kind tx =? CONSULTATION_VERSION)).
  { rewrite RemoveConsultation_absent by (by rewrite S3). by exists w. }
  destruct (d && (tx_kind tx =? ANSWER_VERSION)) eqn:E; [|by exists w]. nav_bool.
  destruct Hfa as (a & -> & Hnew); [done|]. cbn. rewrite RemoveConsultationAnswer_absent by (by rewrite S4). by exists w.
Qed.

Lemma wf_cons_same v v' :
  (forall k, GetConsultation v' k = GetConsultation v k) ->
  (forall k, GetConsultationAnswer v' k = GetConsultationAnswer v k) -> wf_cons v -> wf_cons v'.
Proof.
  intros Hc Ha [H1 H2]. split; [intros k c; rewrite Hc; apply H1|].
  intros k c a. rewrite Hc, Ha. apply H2.
Qed.

Lemma new_consultation_wf v cid t c : wf_cons v -> cid <> 0 -> new_consultation v cid t c -> wf_cons t.
Proof.
  intros [W1 W2] Hne [H1 H2 H3 H4 H5 H6 H7]. split.
  - intros k c' Hc. destruct (decide (k = cid)) as [->|Hk]; [|rewrite H3 in Hc by done; by apply W1].
    split; [congruence|done].
  - intros k c' a Hc Hin. destruct (decide (k = cid)) as [->|Hk].
    + assert (c' = c) as -> by congruence. destruct (H6 a Hin) as (_ & x & Hx & _). eauto.
    + rewrite H3 in Hc by done. destruct (W2 k c' a Hc Hin) as [x Hx].
      destruct (decide (a ∈ c_vAnswers c)) as [Hi|Hni]; [|rewrite H7 by done; eauto].
      destruct (H6 a Hi) as (_ & y & Hy & _). eauto.
Qed.

Lemma undo_tx fl block tx v v1 :
  wf_cons v -> fresh_tx block v tx -> add_tx fl block tx v = Ret (Some v1) ->
  wf_cons v1 /\ forall w, same_dao v1 w ->
    exists w', remove_tx (fDAOConsultations fl) block w tx = Ret w' /\ same_dao v w'.
Proof.
  intros Hwf Hf Hadd. apply add_tx_cases in Hadd as [->|[(Hk & Ha)|[(Hk & Ha)|[(Hd & Hk & Ha)|(Hd & Hk & Ha)]]]].
  - split; [done|]. intros w Hw. by apply undo_nothing.
  - apply add_proposal_tx_gets in Ha as (Hg & Hv). split; [rewrite Hv; by apply (wf_cons_same v)|].
    intros w [S1 S2 S3 S4]. rewrite Hv in S2, S3, S4. apply undo_proposal; try done; [apply Hf|].
    intros k Hne. rewrite S1. by apply Hg.
  - apply add_prequest_tx_gets in Ha as (Hg & Hv). split; [rewrite Hv; by apply (wf_cons_same v)|].
    intros w [S1 S2 S3 S4]. rewrite Hv in S1, S3, S4. apply undo_prequest; try done; [apply Hf|].
    intros k Hne. rewrite S2. by apply Hg.
  - destruct (add_consultation_tx_gets fl block tx v v1 Hf Ha) as (c & Hn). rewrite Hd.
    split; [eapply new_consultation_wf; [done|apply Hf|done]|]. intros w Hw. by eapply undo_consultation.
  - rewrite Hd. apply add_answer_tx_gets in Ha as [->|(a & c & Ht & Hc & Hnew & H1 & H2 & H3 & H4)]; try done.
    { split; [done|]. intros w Hw. by apply undo_nothing. }
    split.
    + destruct (wc_hash v Hwf _ _ Hc) as [Hh Hne]. split.
      * intros k c'. rewrite H3. destruct (decide _) as [<-|]; [intros [= <-]; by cbn|apply Hwf].
      * intros k c' x. rewrite H3, H4. destruct (decide (a_hash a = x)) as [|Hx]; [eauto|].
        destruct (decide _) as [<-|]; [|apply Hwf]. intros [= <-]. cbn. intros [Hin|Hin]%elem_of_app.
        { by apply (wc_listed v Hwf _ _ _ Hc). }
        apply list_elem_of_singleton in Hin. congruence.
    + intros w [S1 S2 S3 S4]. eapply undo_answer; try done; intros k; rewrite ?S1, ?S2, ?S3, ?S4; done.
Qed.

(** ** The whole block *)

Abbreviation connect_tx := (DaoBlock.connect_tx h chain read hash_answer hash_answers address_valid address_private
  address_key decode_base64 recover_key GetTransaction).

(** The hashes of every transaction are new when it is reached. *)
Fixpoint fresh_run fl (b : CBlockIndex) (block : CBlock) (s : BlockState) (l : list (nat * CTransaction)) : Prop :=
  match l with
  | [] => True
  | it :: l => fresh_tx (block_hash block) (bs_view s) it.2 /\
               forall s', connect_tx fl b block s it = Ret (Some s') -> fresh_run fl b block s' l
  end.

Lemma same_tables_dao v v' : same_tables v v' -> same_dao v v'.
Proof.
  intros (H1 & H2 & H3 & H4 & _).
  split; intros k; unfold GetProposal, GetPaymentRequest, GetConsultation, GetConsultationAnswer; congruence.
Qed.

Lemma fresh_tx_same block v v' tx : same_dao v v' -> fresh_tx block v tx -> fresh_tx block v' tx.
Proof. intros [S1 S2 S3 S4]. unfold fresh_tx. rewrite S1, S2, S3. setoid_rewrite S4. done. Qed.

(** The view a transaction's entries are added to shows what the view before
    the transaction shows. *)
Lemma connect_tx_add fl b block s it s' :
  connect_tx fl b block s it = Ret (Some s') ->
  exists v, same_dao (bs_view s) v /\ add_tx fl (block_hash block) it.2 v = Ret (Some (bs_view s')).
Proof.
  destruct it as [i tx]. unfold DaoBlock.connect_tx. intros Hc. apply bindR_Some in Hc as (s1 & H1 & Hc).
  apply bindR_Some in Hc as (v & Hadd & [= <-]). exists (bs_view s1). split; [|done].
  destruct (_ && _) in H1; [|by injection H1 as <-]. apply bindR_Some in H1 as (s2 & H2 & H1).
  apply outcome_bind_Ret in H1 as ([|] & _ & H1); [|discriminate]. injection H1 as <-.
  apply same_tables_dao. by apply collect_tx_same in H2 as [? _].
Qed.

Lemma undo_run fl b block l s s' :
  wf_cons (bs_view s) -> fresh_run fl b block s l -> foldR (connect_tx fl b block) s l = Ret (Some s') ->
  forall w, same_dao (bs_view s') w ->
  exists w', foldO (remove_tx (fDAOConsultations fl) (block_hash block)) w (rev l.*2) = Ret w' /\ same_dao (bs_view s) w'.
Proof.
  revert s; induction l as [|it l IH]; intros s Hwf Hf Hc w Hw; cbn in Hc; [injection Hc as <-; by exists w|].
  apply outcome_bind_Ret in Hc as ([s1|] & H1 & Hc); [|discriminate]. destruct Hf as [Hft Hfr].
  destruct (connect_tx_add fl b block s it s1 H1) as (v & Hv & Hadd).
  assert (wf_cons v) as Hwv by (eapply (wf_cons_same (bs_view s)); [apply Hv|apply Hv|done]).
  destruct (undo_tx fl _ _ v _ Hwv (fresh_tx_same _ _ _ _ Hv Hft) Hadd) as [Hwf1 Hundo].
  destruct (IH s1 Hwf1 (Hfr s1 H1) Hc w Hw) as (w1 & Hw1 & Hs1). destruct (Hundo w1 Hs1) as (w' & Hr & Hs).
  exists w'. cbn. split; [|by etransitivity]. rewrite foldO_app, Hw1. cbn. by rewrite Hr.
Qed.

(** C27: Disconnecting a block takes its entries back: after the entries of
    all transactions of a block were added, removing them in reverse order
    succeeds and every proposal, payment request, consultation and answer is
    as it was, the lists of answers included.  The transactions are new, that
    is, their hashes name no entry, and each answer transaction can be read and
    names an answer that is not there yet: [repeated_answer_removed] shows what
    happens otherwise. *)
Theorem remove_txs_restores fl b block v bv supply s :
  wf_cons v ->
  fresh_run fl b block (mkBlockState v bv ∅ supply) (zip (seq 0 (length (block_vtx block))) (block_vtx block)) ->
  foldR (connect_tx fl b block) (mkBlockState v bv ∅ supply) (zip (seq 0 (length (block_vtx block))) (block_vtx block)) =
    Ret (Some s) ->
  fCFund fl || fDAOConsultations fl = true ->
  exists v', remove_txs read hash_answer hash_answers (fCFund fl) (fDAOConsultations fl) block (bs_view s) = Ret v' /\
    same_dao v v'.
Proof.
  intros Hwf Hf Hc Hfl. unfold remove_txs. rewrite Hfl.
  destruct (undo_run fl b block _ (mkBlockState v bv ∅ supply) s Hwf Hf Hc (bs_view s)) as (w & Hw & Hs); [done|].
  rewrite snd_zip in Hw by (by rewrite length_seq). by exists w.
Qed.
End undo.

(** ** A block with a consultation and an answer to it *)

Definition undo_read : string -> option UniValue := fun s =>
  if String.eqb s "consultation" then
    Some (VOBJ [("n", VNUM "1"); ("m", VNUM "0"); ("q", VSTR "where?"); ("v", VNUM "5");
                ("a", VARR [VSTR "here"; VSTR "there"])])%string
  else Some (VOBJ [("h", VSTR (GetHex 901)); ("a", VSTR "nowhere"); ("v", VNUM "1")])%string.

(** A hash for the example: the parent and the length of the text. *)
Definition undo_hash (parent : uint256) (s : string) : uint256 := 1000 * parent + Z.of_nat (String.length s).

Definition undo_flags : BlockFlags := mkBlockFlags false true true false true true false 0x7f 0x3f 0x3f 0x7 [].
Definition consultation_tx : CTransaction := mkCTransaction 6 [] [] "consultation" 901.
Definition answer_tx (hash : uint256) : CTransaction := mkCTransaction 7 [] [] "answer" hash.
Definition undo_block : CBlock := mkCBlock 107 [consultation_tx; answer_tx 902] false.

Abbreviation undo_connect := (connect_tx vote_blocks [] undo_read undo_hash (fun _ _ => 0) (fun _ => true)
  (fun _ => false) (fun _ => 0) (fun _ => None) (fun _ _ => None) (fun _ => None)).
Abbreviation undo_start := (mkBlockState vote_view vote_votes ∅ 500).
Abbreviation undo_txs := (zip (seq 0 (length (block_vtx undo_block))) (block_vtx undo_block)).
Abbreviation undo_index := (vote_block (Some 106) 7 500 80).

Lemma undo_wf : wf_cons vote_view.
Proof. split; intros k c; unfold GetConsultation, tbl_get; cbn; rewrite lookup_empty; done. Qed.

Lemma undo_fresh : fresh_run vote_blocks [] undo_read undo_hash (fun _ _ => 0) (fun _ => true) (fun _ => false)
  (fun _ => 0) (fun _ => None) (fun _ _ => None) (fun _ => None) undo_flags undo_index undo_block undo_start undo_txs.
Proof.
  split; [|intros s1 H1; vm_compute in H1; injection H1 as <-; split; [|done]];
    (split; [done|]); (split; [vm_compute; reflexivity|]); (split; [vm_compute; reflexivity|]);
    (split; [vm_compute; reflexivity|]); [done|].
  intros _. eexists. split; vm_compute; reflexivity.
Qed.

Lemma remove_txs_restores_witness : exists s v',
  foldR (undo_connect undo_flags undo_index undo_block) undo_start undo_txs = Ret (Some s) /\
  (c_vAnswers <$> GetConsultation (bs_view s) 901) = Some [901004; 901005; 901007] /\
  remove_txs undo_read undo_hash (fun _ _ => 0) true true undo_block (bs_view s) = Ret v' /\ same_dao vote_view v'.
Proof.
  destruct (foldR (undo_connect undo_flags undo_index undo_block) undo_start undo_txs) as [[s|]| |] eqn:E;
    [|vm_compute in E; discriminate E..].
  destruct (remove_txs_restores vote_blocks [] undo_read undo_hash (fun _ _ => 0) (fun _ => true)
    (fun _ => false) (fun _ => 0) (fun _ => None) (fun _ _ => None) (fun _ => None) undo_flags undo_index undo_block
    vote_view vote_votes 500 s undo_wf undo_fresh E eq_refl) as (v' & Hv & Hs).
  exists s, v'. split; [reflexivity|]. split; [|split; [exact Hv|exact Hs]].
  vm_compute in E. injection E as <-. vm_compute. reflexivity.
Defined.

(** Why the hashes must be new: a block with an odd nonce is not validated, so
    it may repeat an answer.  The repeated answer is not added, but taking the
    block back removes the first one. *)
Definition odd_index : CBlockIndex := mkCBlockIndex (Some 106) None 7 0 0x20000040 1210 0 1 500 80 0.
Definition repeat_block : CBlock := mkCBlock 107 [answer_tx 903] false.

Lemma repeated_answer_removed : exists s s' v',
  foldR (undo_connect undo_flags undo_index undo_block) undo_start undo_txs = Ret (Some s) /\
  foldR (undo_connect undo_flags odd_index repeat_block) s (zip (seq 0 1) (block_vtx repeat_block)) = Ret (Some s') /\
  remove_txs undo_read undo_hash (fun _ _ => 0) true true repeat_block (bs_view s') = Ret v' /\
  HaveConsultationAnswer (bs_view s) 901007 = true /\ HaveConsultationAnswer (bs_view s') 901007 = true /\
  HaveConsultationAnswer v' 901007 = false.
Proof.
  eexists _, _, _. split; [vm_compute; reflexivity|]. split; [vm_compute; reflexivity|].
  split; [vm_compute; reflexivity|]. split; [vm_compute; reflexivity|]. split; vm_compute; reflexivity.
Qed.
